(* ===== verification/_CoqProject ===== *)
-Q . S2P
Prelude.v
IpcHosts.v
Bitmap.v
SynxGlobal.v
SynxEntry.v
SynxAlloc.v
SynxSignal.v
SynxMerge.v
SynxRecover.v
Outcome.v
HwFenceDrv.v
HwFenceQueue.v
HwFenceRing.v
HwFenceTable.v
HwFenceDict.v
HwFenceJoin.v
HwFenceWait.v
HwFenceArray.v
HwFenceConf.v
HwFenceLayout.v
HwFenceIpc.v
HwFenceApi.v
HwFenceRuns.v
HwFenceClients.v
IpcliteMem.v
IpcliteFifo.v
Ipclite.v
IpcliteLink.v
IpcliteInit.v
IpcliteRecover.v
MmrmClk.v
MmrmMgr.v
MmrmInit.v
MmrmAdmit.v
MmrmSetval.v
MmrmRuns.v
MmrmFreq.v
MmrmApi.v
SynxDev.v
SynxUtil.v
SynxClient.v
SynxInv.v
SynxRefs.v
SynxOwn.v
SynxMem.v
SynxKeeps.v
SynxHandles.v
SynxObjects.v
SynxCreate.v
SynxSignalling.v
SynxWaiters.v
SynxMerges.v
SynxSafe.v
SynxDemo.v
SynxRuns.v
SynxStatus.v
SynxCalls.v
SynxSettle.v
SynxFindings.v
RmnetSkb.v
RmnetMap.v
RmnetCoal.v
RmnetAgg.v
RmnetRx.v
RmnetSplit.v
RmnetOrder.v
RmnetRoundtrip.v
RmnetSegment.v
RmnetFindings.v
DfcState.v
DfcGrants.v
DfcFlows.v
DfcInv.v
DfcKeeps.v
DfcRoutes.v
DfcLookup.v
DfcBurst.v
DfcRuns.v
DfcChannel.v
DfcFindings.v
