(* ===== verification/Prelude.v ===== *)
(** * Verification of the Qualcomm multimedia synchronisation drivers

    The repository holds the out-of-tree kernel modules of a phone platform.
    This library models and verifies the modules whose behaviour is their own
    logic rather than that of hardware or of a framework: the three drivers
    that let the processors of the platform wait for each other, the driver
    that shares the peak current between their clocks, and the framing of the
    network device over the modem with its flow control.

    ** The program

    - The synx global table (synx-kernel/msm/synx/synx_global.c): the fence
      objects that all cores share, in memory behind one hardware spinlock. A
      core allocates an index in a bitmap, refers to objects, waits for them,
      merges them into composites and signals them; when a core crashes, its
      share is taken over.
    - The synx client framework (synx.c, synx_util.c) on top of the table: the
      sessions of the clients, their handles, the map entries that the handles
      share and the fence objects behind them, with their reference counts;
      callbacks with timers, merges, imports, and the two work queues that
      deliver callbacks and free what is no longer referenced.
    - IPC Lite (synx-kernel/msm/synx/ipclite.c): the shared memory itself, cut
      into one partition per pair of hosts, with two message FIFOs in each. The
      table above tells a waiting core of a signal with a message of it, and
      allocates indexes with its atomic bit operations.
    - The hardware-fence driver (mm-drivers/hw_fence/src): fences in a hash
      table shared with a controller in another virtual machine, ring queues per
      client, and the configuration of both from the device tree.
    - The multimedia resource manager (mmrm-driver/driver/src): a client asks
      for the rate of a clock, and gets it when the peak current of all active
      clocks stays below the threshold of the platform.
    - The MAP layer of RmNet (datarmnet/core): IP packets get the headers of the
      modem and are collected into frames on the uplink; on the downlink buffers
      are split into packets, coalesced frames into the packets that the hardware
      put together, and commands are answered.
    - The flow control of RmNet (datarmnet/core: dfc_qmi.c, dfc_qmap.c,
    qmi_rmnet.c, rmnet_ll_qmap.c): the modem grants each bearer a number of bytes;
    packets take them, and the queue of a bearer that has none left is stopped.
    Flows are bound to bearers and queues, and a client may switch bearers
    between the default and the low-latency channel.

    ** Files

    Shared: [Prelude] (C integers as [Z] with their wrap-around, arrays indexed
    by C integers, counting and sums, automation), [Outcome] (a state monad
    whose runs return, wait for a taken lock, or fault on an access out of
    bounds), [Bitmap] (the words that the cores update with atomic operations;
    the bit searches of the kernel are the class [BitSearch] with its laws),
    [IpcHosts] (the numbers of the hosts).

    Synx global table. [SynxGlobal] has the state [gmem] (the bitmap, the table
    of [coredata] entries, the lock word with its owner) and the operations
    [synx_global_alloc_index], [synx_global_init_coredata],
    [synx_global_get_ref], [synx_global_put_ref], [synx_global_get_status],
    [synx_global_test_status_set_wait], [synx_global_update_status],
    [synx_global_merge], [synx_global_recover] and the rest of the file, under
    the names of the source. [SynxEntry] has their invariant and shared lemmas,
    [SynxAlloc] the allocator (C1) and the life of an entry, [SynxSignal]
    signalling (C4 to C6), [SynxMerge] merging (C7, C8), [SynxRecover] recovery
    (C9). The answers of the lock, of the allocator and the steps of the other
    cores between a search and the atomic operation that follows it are the
    class [SynxEnv].

    Synx client framework. [SynxDev] has the state [dev] (a heap per type of
    struct, the maps, the work queues, the locks that are held), [SynxUtil] the
    functions of synx_util.c and [SynxClient] those of synx.c. The fences of the
    kernel are the class [DmaFence] with the documented laws [DmaFenceDoc], to which
    [DmaFenceLaws] adds that no driver fails a fence with [EPERM]; allocation and
    the operations bound for external fences are the class [SynxClientEnv].
    [SynxInv] has the invariant [inv], which counts the references of every
    struct, and [SynxRefs] the rules by which a function keeps it: a function
    runs between states with the locks [L] held and the references [X] owned, so
    that a lost or doubled reference breaks its rule. [SynxOwn], [SynxMem]
    and [SynxKeeps] have the steps on references, memory and lists;
    [SynxHandles], [SynxObjects], [SynxCreate], [SynxSignalling], [SynxWaiters]
    and [SynxMerges] the functions in the order of their calls; [SynxSafe] the
    system of their steps and its reachable states. [SynxDemo] is a concrete
    kernel with a proof of the laws, and has runs on it. The theorems are in
    [SynxRuns] (C2, C12, C13), [SynxStatus] (C15), [SynxCalls] (C26, C30)
    and [SynxSettle] (C25); [SynxFindings] shows by concrete runs what
    the framework does not mean to do.

    Hardware fences. [HwFenceDrv] has the state of the driver, [HwFenceQueue]
    the queues of hw_fence_drv_priv.c and [HwFenceRing] their refinement to
    lists (C10, C11); [HwFenceTable] the hash table and [HwFenceDict] its
    refinement to a dictionary (C17); [HwFenceJoin] waiting, join fences
    and clean-up, [HwFenceWait] registering a waiter and [HwFenceArray]
    fence arrays (C19, C20); [HwFenceConf] the parsing of the device tree and
    the carve-out of hw_fence_drv_utils.c, [HwFenceLayout] the layout theorems
    (C21, C23, C24); [HwFenceIpc] the signals of hw_fence_drv_ipc.c;
    [HwFenceApi] the exported functions of msm_hw_fence.c, [HwFenceRuns] their
    refinement over runs (C27) and [HwFenceClients] registration of clients
    (C28), the doorbell and the control queue. The values of the absent header
    msm_hw_fence.h and the device tree are the classes [HwFenceEnv] and
    [DeviceTree].

    IPC Lite. [IpcliteMem] lays out the memory (C31); [IpcliteFifo] has the
    FIFOs on the bytes of a partition; [Ipclite] the driver: the channels, the
    interrupt handler, sending, the hardware mutex, recovery;
    [IpcliteLink] sending, receiving and the link of two hosts (C32, C34);
    [IpcliteInit] the set-up of a channel; [IpcliteRecover] the recovery of
    a host (C36). The mailbox and the hardware lock are the class [IpcEnv].

    Resource manager. [MmrmClk] has the entries, the fixed-point numbers and the
    tables of a clock (mmrm_clk_rsrc_mgr_sw.c, mmrm_fixedpoint.h), [MmrmMgr] the
    operations, [MmrmInit] the device tree and start-up (mmrm_res_parse.c) with a concrete
    platform,
    [MmrmApi] probing and the exported functions (msm_mmrm.c); [MmrmAdmit] the
    account of the current, [MmrmSetval] requests and votes, [MmrmRuns]
    the theorems over runs (C37, C38), [MmrmFreq] the frequency table (C40). The
    clock framework, the notifiers and the header msm_mmrm.h are the class
    [MmrmEnv]. The levels, the adjusted level and the votes are specified in
    [MmrmAdmit] and [MmrmSetval] by the tables of the clients alone.

    RmNet. [RmnetSkb] has the packets of the kernel as far as the driver uses
    them, the state [net] of a port with its two aggregation states, and the class
    [RmnetEnv] of what comes from the kernel: allocation, checksum functions, the
    devices, the format of the port. [RmnetMap] and [RmnetCoal] are
    rmnet_map_data.c on the two ways: headers, the split of a buffer, and the
    split of a coalesced frame; [RmnetAgg] is its aggregation with the egress
    handler and a concrete kernel, [RmnetRx] rmnet_map_command.c and the ingress handler of
    rmnet_handlers.c. [RmnetSplit] has the split of any buffer (C18),
    [RmnetOrder] the order of the aggregation (C3), [RmnetRoundtrip] the egress
    handler (C14) and the way of packets from one end of the link to the other
    (C39), [RmnetSegment] the payload of coalesced frames (C16).
    [RmnetFindings] has runs at the edges of the code.

    RmNet flow control. [DfcState] has the state of a device ([qos]: the heap and
    the list of its bearers, its flows, its queues), the messages that leave the
    driver, and the parameters of the module (class [DfcConf]). [DfcGrants] is
    dfc_qmi.c and dfc_qmap.c on one device: indications, acknowledgements, the
    account of packets, the watchdog; [DfcFlows] the flows and power save of
    qmi_rmnet.c. [DfcInv] has the invariant [dev_inv] with the rules of a run;
    [DfcKeeps] shows that the events of a device keep it and [DfcRoutes] that
    changes of its flows do, which it relates to a map. [DfcLookup] shows that
    this map is what the operations work on (C33) and has a concrete device;
    [DfcRuns] has the handlers that go over the devices of a port, and all events
    of a port (C29); [DfcBurst] what packets spend (C22); [DfcChannel]
    rmnet_ll_qmap.c with the account of its answers (C35). [DfcFindings] has runs
    that show defects.

    ** How the state corresponds to the code

    A struct is a record with the fields of the source, an array in shared
    memory a list, a table index or a pointer into a table a [Z]. A pointer that
    may be [NULL] is an [option], or its value where only the comparison with
    [NULL] matters. A 32-bit value is a [Z] with [u32] where the code wraps, and
    a field of a device register or a message keeps its width. A function that
    changes shared state takes and returns it, explicitly in the synx files and
    in the monad of [Outcome] elsewhere; locks are fields, so that a theorem that
    a run returns says that no lock is taken twice, and its final state that they
    are released. An access outside of an array, and a division by zero, is
    [Fault] or [None], never a default, unless a guard or an invariant in the
    same file rules it out. Calls that leave a driver (messages, signals, clock
    settings) are recorded in a trace of the state.

    ** What the theorems show

    - Abstract specifications and refinement: queues are lists (C10, C11), the
      hash table is a dictionary ([create_inserts], [find_looks_up] and
      [destroy_removes] in [HwFenceDict]), the fence interface is a machine of
      slots and flags (C27), the clock manager an admission controller (C38),
      an aggregation state is a queue of packets (C3), the flows of a device are a
      map (C33).
    - Invariants of reachable states: the child counts of composites (C4), the
      account of the current (C37), the types and counts of the references of
      the client framework (C12) and the place of its callbacks (C13); the queue of
      a bearer is stopped exactly when its grant is used up, for the queue it was
      bound to last and while a flow that is added gets its memory (C29).
    - Safety of the client framework: in any order, no step uses freed memory or
      keeps a lock, but for imports and merges that meet a defect of the code or
      an array, external fences, and drivers that fail a fence with [EPERM] (C2).
    - Delivery and ordering: no message is lost, repeated or reordered between
      two hosts in any interleaving (C34),
      a core that was told to wait is told of the signal (C5), every callback of
      an object that is signalled is queued (C26) and delivered with the status
      (C30), and the fence reports what was signalled (C25). Packets of RmNet
      reach the peer once, whole and in order (C3, C39), and a coalesced frame
      becomes packets with all of its payload (C16). Of the answers that channel
      switches ask for, none is lost, sent twice or sent to another client, and
      each reports what the modem said, as long as there is memory and no bearer
      goes (C35).
    - Errors: a refused array, a failed registration and a refused rate leave no
      trace (C19, C28, C38), and so does a failed merge of pending constituents;
      what it leaves of others is stated too (C8).
    - Ownership: only its allocator destroys a fence (C17), an allocated index is
      exclusive under interference (C1), a client is exclusive until it
      deregisters (C28); a crashed core or host keeps nothing (C9, C36).
    - Memory: queues, regions and partitions are disjoint and inside their
      memory, without overflow (C21, C23, C24, C31).
    - Round trips and encodings: handles ([handle_roundtrip]), the status of a
      merge (C15), payloads (in [HwFenceRing]), the headers of the link (C14, C39).
    - Accounting: packets take exactly their bytes from a grant, and the modem is
      asked for more once (C22).
    - Totality: the split of any bytes ends, with each whole packet handled (C18).

    Each theorem with hypotheses has a witness that applies it to a concrete
    state. Lemmas that show a defect of the code ([deregister_leaks],
    [overshoot_accepted], [head_at_end_never_returns] and others) are named in the
    manifest with the lines they are about.

    ** Bounds and fuel

    The loops of the code that have no structural measure take fuel, and a
    theorem says how much is enough: [synx_global_alloc_index] 4097
    rounds, one more than the bits that other cores can win (C1); signalling, and
    recovery which signals, [signal_fuel], two more than the work that the
    parents of the table still hold (C4, C9), where the rounds of recovery itself
    are bounded by the number of indexes; the interrupt handler one
    more than the messages that wait ([intr_drains] in [IpcliteLink]); [freq_fuel], the number of steps of
    1 MHz between the smallest and the largest rate (C40); the split of a buffer
    one more than its bytes (C18), and a packet that is aggregated two rounds, as
    the second finds no frame (C3); adding a flow one round more than there are
    flows, as each further round has deleted one (C33). Running out of fuel is
    [None] or [Block], so that it cannot be mistaken for a result. The loops over
    tables and the probes of the hash table are structural: they visit each index
    once. The attempts of [synx_create] and of an import are bounded by their fuel
    too; a creation that is not bound to an external fence needs one. The
    theorems on the account of the current (C37, C38) are about
    platforms whose currents can be added as [int]s ([sized]), rates below 2^32
    Hz, and requests that do not throttle other clients; throttling itself is
    modelled.

    ** Not modelled

    Concurrency inside one driver is modelled where the code relies on it: the
    other cores of the synx table, the remote host of a channel, the fence
    controller that moves the indexes of its queues. Threads of one driver that
    interleave inside a critical section are not, since a lock excludes them.
    A call of the client framework, a work item and a timer run without
    interleaving with others, in any order: its locks are modelled, so that a
    function that takes one twice waits for ever, but not the races between two
    calls. Its addresses are not reused. The safety theorem (C2) leaves out
    [synx_bind], with which references leak and freed memory is used, the
    conversion of a local handle to a global one, and arrays as the fences of
    imported or merged objects; it takes as given what [step_ok] says. The
    ioctl handlers of synx.c copy structs of user space; its start-up sets up a
    character device.
    An operation on an aggregation state of RmNet is one step; the cancellation of
    its timer after the lock is released belongs to the step. Buffers in page
    fragments with v5 headers go to rmnet_descriptor.c, which is left out, and so
    are Ethernet devices, the hooks of the perf and shs modules and the netlink
    configuration. Flow control leaves out the encoding of its QMI and QMAP
    messages, the service connections and the work item that decides on power
    save; an event runs under the lock of its device without interleaving. Its
    theorems on flows are about the mode in which flows are added
    ([DFC_MODE_SA]) and devices of at most 255 queues; C33 takes as given that
    adding a flow gets memory, since without it the flow keeps its old bearer
    ([rebind_keeps_freed_bearer]).
    Debug files, sysfs dumps, logs and tests are left out: no other part reads
    what they write. The other drivers of the repository (display, graphics,
    video, camera, audio, wireless, packet accelerator, touch) are register
    programming and protocols with firmware over frameworks that are not here. *)

From Stdlib Require Export ZArith Lia.
From stdpp Require Export base numbers list option sets.

Open Scope Z_scope.

(** ** C integers: a [w]-bit unsigned value is a [Z] reduced modulo [2^w] *)

Definition u8 (x : Z) : Z := x mod 2 ^ 8.
Definition u16 (x : Z) : Z := x mod 2 ^ 16.
Definition u32 (x : Z) : Z := x mod 2 ^ 32.
Definition u64 (x : Z) : Z := x mod 2 ^ 64.

(** Conversion of a 32-bit pattern to C's [int]. *)
Definition s32 (x : Z) : Z := if u32 x <? 2 ^ 31 then u32 x else u32 x - 2 ^ 32.

(** [BIT(n)] / [1UL << n]. *)
Definition BIT (n : Z) : Z := Z.shiftl 1 n.

(** C truth value of an integer. *)
Definition truthy (x : Z) : bool := negb (x =? 0).

(** Range predicates of the unsigned types. *)
Definition is_u16 (x : Z) : Prop := 0 <= x < 2 ^ 16.
Definition is_u32 (x : Z) : Prop := 0 <= x < 2 ^ 32.
Definition is_u64 (x : Z) : Prop := 0 <= x < 2 ^ 64.

(** ** Arrays indexed by C integers *)

(** [znth d l i] is [l[i]]; outside the array it is the default [d], and every
    use is guarded by the code or by an invariant. *)
Definition znth {A} (d : A) (l : list A) (i : Z) : A :=
  if i <? 0 then d else default d (l !! Z.to_nat i).

(** [zupd l i x] is [l[i] = x]; outside the array it leaves [l] unchanged. *)
Definition zupd {A} (l : list A) (i : Z) (x : A) : list A :=
  if i <? 0 then l else <[Z.to_nat i := x]> l.

Definition zlen {A} (l : list A) : Z := Z.of_nat (length l).

(** Boolean search used by the [for] loops that stop at the first hit. *)
Fixpoint find_index {A} (p : A -> bool) (l : list A) : option nat :=
  match l with
  | [] => None
  | x :: l => if p x then Some O else S <$> find_index p l
  end.

(** ** Automation *)

Create HintDb cint.
Create HintDb carr.
Create Rewrite HintDb carr.

(** Turns boolean comparisons on [Z] of the context into propositions. *)
Ltac zbool :=
  repeat match goal with
  | H : (_ && _)%bool = true |- _ => apply andb_prop in H; destruct H
  | H : (_ || _)%bool = false |- _ => apply orb_false_elim in H; destruct H
  | H : negb _ = true |- _ => apply negb_true_iff in H
  | H : negb _ = false |- _ => apply negb_false_iff in H
  | H : (_ =? _) = true |- _ => apply Z.eqb_eq in H
  | H : (_ =? _) = false |- _ => apply Z.eqb_neq in H
  | H : (_ <? _) = true |- _ => apply Z.ltb_lt in H
  | H : (_ <? _) = false |- _ => apply Z.ltb_ge in H
  | H : (_ <=? _) = true |- _ => apply Z.leb_le in H
  | H : (_ <=? _) = false |- _ => apply Z.leb_gt in H
  | H : (_ >=? _) = true |- _ => apply Z.geb_le in H
  | H : (_ >=? _) = false |- _ => rewrite Z.geb_leb in H; apply Z.leb_gt in H
  | H : (_ >? _) = true |- _ => rewrite Z.gtb_ltb in H; apply Z.ltb_lt in H
  | H : (_ >? _) = false |- _ => rewrite Z.gtb_ltb in H; apply Z.ltb_ge in H
  end.

(** Splits the first conditional of the goal, with its guard as a proposition. *)
Ltac case_if :=
  match goal with
  | |- context [if ?b then _ else _] =>
      match b with
      | context [if _ then _ else _] => fail 1
      | _ => let E := fresh "E" in destruct b eqn:E; zbool
      end
  end.

Ltac case_ifs := repeat case_if.

(** ** Lemmas on C integers *)

Lemma u16_range x : 0 <= u16 x < 2 ^ 16.
Proof. apply Z.mod_pos_bound; lia. Qed.
Lemma u32_range x : 0 <= u32 x < 2 ^ 32.
Proof. apply Z.mod_pos_bound; lia. Qed.
Lemma u64_range x : 0 <= u64 x < 2 ^ 64.
Proof. apply Z.mod_pos_bound; lia. Qed.

Lemma u16_small x : 0 <= x < 2 ^ 16 -> u16 x = x.
Proof. apply Z.mod_small. Qed.
Lemma u32_small x : 0 <= x < 2 ^ 32 -> u32 x = x.
Proof. apply Z.mod_small. Qed.
Lemma u64_small x : 0 <= x < 2 ^ 64 -> u64 x = x.
Proof. apply Z.mod_small. Qed.

Lemma u16_wrap_dec : u16 (0 - 1) = 65535.
Proof. reflexivity. Qed.

Lemma s32_small x : 0 <= x < 2 ^ 31 -> s32 x = x.
Proof.
  intros H. unfold s32. rewrite u32_small by lia.
  destruct (Z.ltb_spec x (2 ^ 31)); lia.
Qed.

Lemma BIT_testbit n i : 0 <= n -> 0 <= i -> Z.testbit (BIT n) i = (n =? i).
Proof.
  intros Hn Hi. unfold BIT. rewrite Z.shiftl_spec by lia.
  destruct (Z.eqb_spec n i) as [->|Hne].
  - by rewrite Z.sub_diag.
  - destruct (Z.lt_trichotomy (i - n) 0) as [H|[H|H]].
    + by apply Z.testbit_neg_r.
    + lia.
    + apply Z.bits_above_log2; simpl; lia.
Qed.

Lemma BIT_pos n : 0 <= n -> 0 < BIT n.
Proof. intros. unfold BIT. rewrite Z.shiftl_1_l. lia. Qed.

Lemma land_BIT_testbit x n :
  0 <= n -> truthy (Z.land x (BIT n)) = Z.testbit x n.
Proof.
  intros Hn. unfold truthy, BIT. rewrite Z.shiftl_1_l.
  destruct (Z.testbit x n) eqn:E.
  - destruct (Z.eqb_spec (Z.land x (2 ^ n)) 0) as [H|]; [|done].
    apply (f_equal (fun z => Z.testbit z n)) in H.
    rewrite Z.land_spec, E, Z.pow2_bits_true, Z.bits_0 in H by lia. done.
  - destruct (Z.eqb_spec (Z.land x (2 ^ n)) 0) as [|H]; [done|].
    exfalso. apply H. apply Z.bits_inj'. intros i Hi.
    rewrite Z.land_spec, Z.bits_0.
    destruct (Z.eq_dec i n) as [->|Hne]; [by rewrite E|].
    rewrite Z.pow2_bits_false by lia. apply andb_false_r.
Qed.

Lemma testbit_land_lnot_BIT x n i :
  0 <= n -> 0 <= i ->
  Z.testbit (Z.land x (Z.lnot (BIT n))) i = Z.testbit x i && negb (n =? i).
Proof.
  intros Hn Hi. by rewrite Z.land_spec, Z.lnot_spec, BIT_testbit by lia.
Qed.

Lemma testbit_lor_BIT x n i :
  0 <= n -> 0 <= i -> Z.testbit (Z.lor x (BIT n)) i = Z.testbit x i || (n =? i).
Proof. intros Hn Hi. by rewrite Z.lor_spec, BIT_testbit by lia. Qed.

Lemma testbit_u16 x i : 0 <= i < 16 -> Z.testbit (u16 x) i = Z.testbit x i.
Proof. intros. unfold u16. apply Z.mod_pow2_bits_low. lia. Qed.

Lemma testbit_u32 x i : 0 <= i < 32 -> Z.testbit (u32 x) i = Z.testbit x i.
Proof. intros. unfold u32. apply Z.mod_pow2_bits_low. lia. Qed.

Lemma testbit_u64 x i : 0 <= i < 64 -> Z.testbit (u64 x) i = Z.testbit x i.
Proof. intros. unfold u64. apply Z.mod_pow2_bits_low. lia. Qed.

(** Words put together from a low and a high part. *)
Lemma lor_shiftl_low a b n :
  0 <= n -> 0 <= a < 2 ^ n -> Z.lor a (Z.shiftl b n) = a + b * 2 ^ n.
Proof.
  intros Hn Ha. rewrite <- Z.shiftl_mul_pow2 by done.
  assert (Hz : Z.land a (Z.shiftl b n) = 0).
  { apply Z.bits_inj'. intros i Hi. rewrite Z.land_spec, Z.bits_0.
    destruct (Z.lt_ge_cases i n) as [Hl|Hl].
    - rewrite Z.shiftl_spec_low by lia. apply andb_false_r.
    - rewrite <- (Z.mod_small a (2 ^ n)), Z.mod_pow2_bits_high by lia. done. }
  by rewrite Z.add_nocarry_lxor, Z.lxor_lor.
Qed.

Lemma lo_hi_u64 v : is_u64 v -> Z.lor (u32 v) (Z.shiftl (u32 (Z.shiftr v 32)) 32) = v.
Proof.
  intros Hv. unfold is_u64 in Hv. rewrite lor_shiftl_low by (lia || apply u32_range).
  rewrite Z.shiftr_div_pow2 by lia. unfold u32. rewrite (Z.mod_small (v / 2 ^ 32)).
  - rewrite Z.add_comm, Z.mul_comm. symmetry. apply Z.div_mod. lia.
  - split; [apply Z.div_pos; lia|]. apply Z.div_lt_upper_bound; lia.
Qed.

#[export] Hint Resolve u16_range u32_range u64_range : cint.

(** ** Lemmas on arrays *)

Section arrays.
Context {A : Type}.
Implicit Types (d x : A) (l : list A).

Lemma zlen_zupd l i x : zlen (zupd l i x) = zlen l.
Proof. unfold zlen, zupd. case_if; [done|]. by rewrite length_insert. Qed.

Lemma length_zupd l i x : length (zupd l i x) = length l.
Proof. unfold zupd. case_if; [done|]. by rewrite length_insert. Qed.

Lemma znth_zupd_eq d l i x : 0 <= i < zlen l -> znth d (zupd l i x) i = x.
Proof.
  intros H. unfold znth, zupd, zlen in *.
  destruct (Z.ltb_spec i 0); [lia|].
  rewrite list_lookup_insert_eq by lia. done.
Qed.

Lemma znth_zupd_ne d l i j x : i <> j -> znth d (zupd l i x) j = znth d l j.
Proof.
  intros H. unfold znth, zupd.
  destruct (Z.ltb_spec i 0), (Z.ltb_spec j 0); try done.
  rewrite list_lookup_insert_ne by lia. done.
Qed.

Lemma znth_zupd d l i j x :
  0 <= i < zlen l -> znth d (zupd l i x) j = if j =? i then x else znth d l j.
Proof.
  intros H. destruct (Z.eqb_spec j i) as [->|Hne].
  - by apply znth_zupd_eq.
  - by apply znth_zupd_ne.
Qed.

Lemma znth_oob d l i : ~ (0 <= i < zlen l) -> znth d l i = d.
Proof.
  intros H. unfold znth, zlen in *. destruct (Z.ltb_spec i 0); [done|].
  rewrite lookup_ge_None_2 by lia. done.
Qed.

Lemma znth_lookup d l (i : nat) x : l !! i = Some x -> znth d l (Z.of_nat i) = x.
Proof.
  intros H. unfold znth. destruct (Z.ltb_spec (Z.of_nat i) 0); [lia|].
  by rewrite Nat2Z.id, H.
Qed.

Lemma lookup_znth d l i :
  0 <= i < zlen l -> l !! Z.to_nat i = Some (znth d l i).
Proof.
  intros H. unfold znth, zlen in *. destruct (Z.ltb_spec i 0); [lia|].
  destruct (l !! Z.to_nat i) eqn:E; [done|].
  apply lookup_ge_None_1 in E. lia.
Qed.

Lemma zupd_zupd l i x y : zupd (zupd l i x) i y = zupd l i y.
Proof. unfold zupd. case_if; [done|]. apply list_insert_insert_eq. Qed.

Lemma zupd_id d l i : zupd l i (znth d l i) = l.
Proof.
  unfold zupd, znth. destruct (Z.ltb_spec i 0); [done|].
  destruct (l !! Z.to_nat i) eqn:E; simpl.
  - by apply list_insert_id.
  - apply list_insert_ge. by apply lookup_ge_None_1.
Qed.

Lemma zupd_comm l i j x y :
  i <> j -> zupd (zupd l i x) j y = zupd (zupd l j y) i x.
Proof.
  intros H. unfold zupd.
  destruct (Z.ltb_spec i 0), (Z.ltb_spec j 0); try done.
  apply list_insert_insert_ne. lia.
Qed.

Lemma znth_replicate d n i x :
  0 <= i < Z.of_nat n -> znth d (replicate n x) i = x.
Proof.
  intros H. unfold znth. destruct (Z.ltb_spec i 0); [lia|].
  rewrite lookup_replicate_2 by lia. done.
Qed.

Lemma zlen_replicate n x : zlen (replicate n x) = Z.of_nat n.
Proof. unfold zlen. by rewrite length_replicate. Qed.

Lemma find_index_Some (p : A -> bool) l i :
  find_index p l = Some i ->
  exists x, l !! i = Some x /\ p x = true /\
    forall j y, (j < i)%nat -> l !! j = Some y -> p y = false.
Proof.
  revert i. induction l as [|a l IH]; intros i H; simpl in H; [done|].
  destruct (p a) eqn:E.
  - injection H as <-. exists a. split; [done|]. split; [done|].
    intros j y Hj; lia.
  - destruct (find_index p l) as [k|] eqn:F; simpl in H; [|done].
    injection H as <-. destruct (IH k eq_refl) as (x & Hx & Hp & Hj).
    exists x. split; [done|]. split; [done|].
    intros [|j] y Hlt Hy; simpl in Hy.
    + by injection Hy as <-.
    + apply (Hj j y); [lia|done].
Qed.

Lemma find_index_None (p : A -> bool) l :
  find_index p l = None -> forall j y, l !! j = Some y -> p y = false.
Proof.
  induction l as [|a l IH]; intros H j y Hy; simpl in H; [done|].
  destruct (p a) eqn:E; [done|].
  destruct (find_index p l) eqn:F; simpl in H; [done|].
  destruct j as [|j]; simpl in Hy; [by injection Hy as <-|by apply (IH eq_refl j)].
Qed.
End arrays.

Lemma znth_u32 l i : Forall is_u32 l -> is_u32 (znth 0 l i).
Proof.
  intros H. unfold znth. destruct (i <? 0); [by vm_compute|].
  destruct (l !! Z.to_nat i) as [x|] eqn:Hx; [|by vm_compute]. by apply (Forall_lookup_1 _ _ _ _ H Hx).
Qed.

Lemma lookup_zupd_eq {A} (l : list A) i x y : 0 <= i -> l !! Z.to_nat i = Some y ->
  zupd l i x !! Z.to_nat i = Some x.
Proof.
  intros Hi Hl. unfold zupd. destruct (Z.ltb_spec i 0); [lia|].
  apply list_lookup_insert_eq. by eapply lookup_lt_Some.
Qed.

Lemma lookup_zupd_ne {A} (l : list A) i j x : 0 <= i -> 0 <= j -> i <> j ->
  zupd l i x !! Z.to_nat j = l !! Z.to_nat j.
Proof.
  intros Hi Hj Hne. unfold zupd. destruct (Z.ltb_spec i 0); [lia|].
  apply list_lookup_insert_ne. lia.
Qed.

Lemma zupd_lookup_id {A} (l : list A) i x : 0 <= i -> l !! Z.to_nat i = Some x -> zupd l i x = l.
Proof.
  intros Hi Hl. unfold zupd. destruct (Z.ltb_spec i 0); [lia|]. by apply list_insert_id.
Qed.

#[export] Hint Rewrite @zlen_zupd @length_zupd @zupd_zupd : carr.

(** ** Counting *)

Fixpoint countb {A} (p : A -> bool) (l : list A) : nat :=
  match l with
  | [] => O
  | x :: l => if p x then S (countb p l) else countb p l
  end.

Lemma countb_le {A} (p q : A -> bool) l :
  (forall x, x ∈ l -> q x = true -> p x = true) -> (countb q l <= countb p l)%nat.
Proof.
  induction l as [|a l IH]; intros H; simpl; [lia|].
  assert (countb q l <= countb p l)%nat by (apply IH; intros; apply H; set_solver).
  destruct (q a) eqn:Hqa; [|destruct (p a); lia].
  rewrite (H a) by (done || set_solver). lia.
Qed.

Lemma countb_lt {A} (p q : A -> bool) l j :
  (forall x, x ∈ l -> q x = true -> p x = true) ->
  j ∈ l -> p j = true -> q j = false -> (countb q l < countb p l)%nat.
Proof.
  induction l as [|a l IH]; intros H Hj Hp Hq; [set_solver|].
  assert (Hle : (countb q l <= countb p l)%nat)
    by (apply countb_le; intros; apply H; set_solver).
  simpl. apply elem_of_cons in Hj. destruct Hj as [<-|Hj].
  - rewrite Hp, Hq. lia.
  - assert (countb q l < countb p l)%nat by (apply IH; auto; intros; apply H; set_solver).
    destruct (q a) eqn:Hqa; [|destruct (p a); lia].
    rewrite (H a) by (done || set_solver). lia.
Qed.

Lemma countb_length {A} (p : A -> bool) l : (countb p l <= length l)%nat.
Proof. induction l as [|a l IH]; simpl; [lia|]. destruct (p a); lia. Qed.

(** ** Sums over an array *)

Definition zsum {A} (f : A -> Z) (l : list A) : Z := foldr (fun x acc => f x + acc) 0 l.

(** Occurrences of [p]. *)
Definition occurs (p : Z) (l : list Z) : Z := Z.of_nat (countb (Z.eqb p) l).

Lemma zsum_insert {A} (f : A -> Z) l i x y :
  l !! i = Some y -> zsum f (<[i := x]> l) = zsum f l - f y + f x.
Proof.
  revert i. induction l as [|a l IH]; intros [|i] H; simpl in *; try done.
  - injection H as ->. lia.
  - rewrite IH by done. lia.
Qed.

Lemma zsum_zupd {A} (f : A -> Z) d l i x :
  0 <= i < zlen l -> zsum f (zupd l i x) = zsum f l - f (znth d l i) + f x.
Proof.
  intros H. unfold zupd. destruct (Z.ltb_spec i 0); [lia|].
  apply zsum_insert. by apply lookup_znth.
Qed.

Lemma zsum_nonneg {A} (f : A -> Z) l : (forall x, x ∈ l -> 0 <= f x) -> 0 <= zsum f l.
Proof.
  induction l as [|a l IH]; intros H; simpl; [lia|].
  assert (0 <= f a) by (apply H; set_solver).
  assert (0 <= zsum f l) by (apply IH; intros; apply H; set_solver). lia.
Qed.

Lemma zsum_le_one {A} (f : A -> Z) l x :
  (forall y, y ∈ l -> 0 <= f y) -> x ∈ l -> f x <= zsum f l.
Proof.
  induction l as [|a l IH]; intros H Hx; [set_solver|]. simpl.
  assert (0 <= f a) by (apply H; set_solver).
  assert (0 <= zsum f l) by (apply zsum_nonneg; intros; apply H; set_solver).
  apply elem_of_cons in Hx. destruct Hx as [<-|Hx]; [lia|].
  assert (f x <= zsum f l) by (apply IH; auto; intros; apply H; set_solver). lia.
Qed.

Lemma occurs_nonneg p l : 0 <= occurs p l.
Proof. unfold occurs. lia. Qed.

Lemma occurs_cons p q l : occurs p (q :: l) = (if p =? q then 1 else 0) + occurs p l.
Proof. unfold occurs. simpl. destruct (p =? q); lia. Qed.

Lemma occurs_app p l l' : occurs p (l ++ l') = occurs p l + occurs p l'.
Proof. induction l as [|q l IH]; [done|]. simpl. rewrite !occurs_cons, IH. lia. Qed.
