(* ===== verification/IpcHosts.v ===== *)
(** * The hosts of the shared memory

    [enum ipcmem_host_type] of [synx/ipclite_client.h]: the processors that
    share the memory of IPC Lite and send messages to each other. *)

From S2P Require Import Prelude.

Definition IPCMEM_APPS : Z := 0.
Definition IPCMEM_MODEM : Z := 1.
Definition IPCMEM_LPASS : Z := 2.
Definition IPCMEM_SLPI : Z := 3.
Definition IPCMEM_GPU : Z := 4.
Definition IPCMEM_CDSP : Z := 5.
Definition IPCMEM_CVP : Z := 6.
Definition IPCMEM_CAM : Z := 7.
Definition IPCMEM_VPU : Z := 8.
Definition IPCMEM_NUM_HOSTS : Z := 9.
Definition IPCMEM_GLOBAL_HOST : Z := 254.
Definition IPCMEM_INVALID_HOST : Z := 255.

(** [LOCAL_HOST] of [ipclite.h]: the host that runs this driver. *)
Definition LOCAL_HOST : Z := IPCMEM_APPS.
