(* ===== verification/Bitmap.v ===== *)
(** * Allocation bitmap in shared memory

    The bitmap of the synx global table ([synx_gmem.bitmap] of
    [synx_global.c]) is an array of 32-bit words that several cores update with
    the atomic bit operations of [ipclite.c].  Bit [i] is bit [i % 32] of word
    [i / 32].  The bit searches are kernel library functions: the interface
    [BitSearch] is what the code relies on of their documentation, and
    [BitSearchLaws] the laws; [bit_search_ref] is an instance. *)

From S2P Require Import Prelude.

(** ** The bit operations of [ipclite.c] on one word *)

(** Each returns the previous value of the word and the new word. *)
Definition ipclite_global_test_and_set_bit (nr : Z) (word : Z) : Z * Z :=
  let mask := u32 (BIT nr) in (word, u32 (Z.lor word mask)).

Definition ipclite_global_test_and_clear_bit (nr : Z) (word : Z) : Z * Z :=
  let mask := u32 (BIT nr) in (word, Z.land word (u32 (Z.lnot mask))).

(** ** The bitmap as the code addresses it *)

(** Bit [i] of the array [bm]. *)
Definition bm_test (bm : list Z) (i : Z) : bool :=
  Z.testbit (znth 0 bm (i / 32)) (i mod 32).

(** [ipclite_global_test_and_set_bit(i % 32, bitmap + i/32)] *)
Definition bm_test_and_set (bm : list Z) (i : Z) : Z * list Z :=
  let '(prev, w) := ipclite_global_test_and_set_bit (i mod 32) (znth 0 bm (i / 32)) in
  (prev, zupd bm (i / 32) w).

(** [ipclite_global_test_and_clear_bit(i % 32, bitmap + i/32)] *)
Definition bm_test_and_clear (bm : list Z) (i : Z) : Z * list Z :=
  let '(prev, w) := ipclite_global_test_and_clear_bit (i mod 32) (znth 0 bm (i / 32)) in
  (prev, zupd bm (i / 32) w).

(** A bitmap of [n] bits made of 32-bit words. *)
Definition bm_wf (n : Z) (bm : list Z) : Prop :=
  32 * zlen bm = n /\ Forall is_u32 bm.

(** ** The kernel's bit searches, as an interface *)

Class BitSearch := {
  find_first_zero_bit : list Z -> Z -> Z;
  find_next_bit : list Z -> Z -> Z -> Z
}.

(** [find_first_zero_bit(addr, size)] is the number of the first cleared bit,
    or [size]; [find_next_bit(addr, size, offset)] is the number of the first
    set bit at or after [offset], or [size]. *)
Class BitSearchLaws (B : BitSearch) : Prop := {
  ffz_range bm size : 0 <= size -> 0 <= find_first_zero_bit bm size <= size;
  ffz_clear bm size :
    0 <= size -> find_first_zero_bit bm size < size ->
    bm_test bm (find_first_zero_bit bm size) = false;
  ffz_first bm size i :
    0 <= i < find_first_zero_bit bm size -> find_first_zero_bit bm size <= size ->
    bm_test bm i = true;
  fnb_range bm size off :
    0 <= off -> 0 <= size ->
    Z.min off size <= find_next_bit bm size off <= size;
  fnb_set bm size off :
    0 <= off -> find_next_bit bm size off < size ->
    bm_test bm (find_next_bit bm size off) = true;
  fnb_first bm size off i :
    0 <= off <= i -> i < find_next_bit bm size off -> find_next_bit bm size off <= size ->
    bm_test bm i = false
}.

(** A reference implementation that scans bit by bit. *)
Fixpoint scan (p : Z -> bool) (n : nat) (i : Z) : Z :=
  match n with
  | O => i
  | S n => if p i then i else scan p n (i + 1)
  end.

Definition bit_search_ref : BitSearch := {|
  find_first_zero_bit bm size :=
    scan (fun i => negb (bm_test bm i)) (Z.to_nat size) 0;
  find_next_bit bm size off :=
    if off <? size then scan (bm_test bm) (Z.to_nat (size - off)) off else size
|}.

(** ** Lemmas *)

Lemma scan_range p n i : i <= scan p n i <= i + Z.of_nat n.
Proof.
  revert i. induction n as [|n IH]; intros i; simpl; [lia|].
  destruct (p i); [lia|]. specialize (IH (i + 1)). lia.
Qed.

Lemma scan_hit p n i : scan p n i < i + Z.of_nat n -> p (scan p n i) = true.
Proof.
  revert i. induction n as [|n IH]; intros i H; simpl in *; [lia|].
  destruct (p i) eqn:E; [done|]. apply IH. lia.
Qed.

Lemma scan_first p n i j : i <= j < scan p n i -> p j = false.
Proof.
  revert i. induction n as [|n IH]; intros i H; simpl in *; [lia|].
  destruct (p i) eqn:E; [lia|].
  destruct (Z.eq_dec j i) as [->|]; [done|]. apply (IH (i + 1)). lia.
Qed.

#[export] Instance bit_search_ref_laws : BitSearchLaws bit_search_ref.
Proof.
  split; simpl.
  - intros bm size H.
    pose proof (scan_range (fun i => negb (bm_test bm i)) (Z.to_nat size) 0). lia.
  - intros bm size Hs H. apply negb_true_iff.
    apply (scan_hit (fun i => negb (bm_test bm i)) (Z.to_nat size) 0). lia.
  - intros bm size i Hi H. apply negb_false_iff.
    apply (scan_first (fun i => negb (bm_test bm i)) (Z.to_nat size) 0). lia.
  - intros bm size off H Hs. destruct (Z.ltb_spec off size); [|lia].
    pose proof (scan_range (bm_test bm) (Z.to_nat (size - off)) off). lia.
  - intros bm size off H. destruct (Z.ltb_spec off size); [|lia].
    intros Hlt. apply scan_hit. lia.
  - intros bm size off i H Hi Hle. destruct (Z.ltb_spec off size); [|lia].
    apply (scan_first (bm_test bm) (Z.to_nat (size - off)) off). lia.
Qed.

Lemma bm_index n bm i :
  bm_wf n bm -> 0 <= i < n -> 0 <= i / 32 < zlen bm.
Proof.
  intros [Hl _] Hi. split; [apply Z.div_pos; lia|apply Z.div_lt_upper_bound; lia].
Qed.

Lemma bm_wf_zupd n bm i w : bm_wf n bm -> is_u32 w -> bm_wf n (zupd bm i w).
Proof.
  intros [Hl Hw] H. split; [by rewrite zlen_zupd|].
  unfold zupd. case_if; [done|]. by apply Forall_insert.
Qed.

Lemma index_split i j :
  0 <= i -> 0 <= j -> (i / 32 = j / 32 /\ i mod 32 = j mod 32) <-> i = j.
Proof.
  intros Hi Hj. split; [|by intros ->].
  intros [Hd Hm]. rewrite (Z.div_mod i 32), (Z.div_mod j 32) by lia. lia.
Qed.

Lemma land_u32 x y : is_u32 x -> is_u32 (Z.land x y).
Proof.
  intros Hx. unfold is_u32 in *. split; [apply Z.land_nonneg; lia|].
  replace (Z.land x y) with (Z.land x y mod 2 ^ 32).
  - apply Z.mod_pos_bound. lia.
  - rewrite <- Z.land_ones, <- Z.land_assoc, (Z.land_comm y), Z.land_assoc by lia.
    rewrite (Z.land_ones x), (Z.mod_small x) by lia. done.
Qed.

(** Every bit after a test-and-set. *)
Lemma bm_test_set n bm i j :
  bm_wf n bm -> 0 <= i < n -> 0 <= j ->
  bm_test (bm_test_and_set bm i).2 j = (j =? i) || bm_test bm j.
Proof.
  intros Hwf Hi Hj. unfold bm_test, bm_test_and_set; simpl.
  pose proof (Z.mod_pos_bound j 32 ltac:(lia)) as Hmj.
  pose proof (Z.mod_pos_bound i 32 ltac:(lia)) as Hmi.
  rewrite znth_zupd by (by eapply bm_index).
  destruct (Z.eqb_spec (j / 32) (i / 32)) as [Hd|Hd].
  - rewrite testbit_u32, Z.lor_spec, testbit_u32, BIT_testbit by lia. rewrite Hd.
    destruct (Z.eqb_spec (i mod 32) (j mod 32)) as [Hm|Hm].
    + assert (j = i) as -> by (apply index_split; lia).
      by rewrite Z.eqb_refl, orb_true_r.
    + destruct (Z.eqb_spec j i) as [->|]; [done|]. by rewrite orb_false_r.
  - destruct (Z.eqb_spec j i) as [->|]; done.
Qed.

(** Every bit after a test-and-clear. *)
Lemma bm_test_clear n bm i j :
  bm_wf n bm -> 0 <= i < n -> 0 <= j ->
  bm_test (bm_test_and_clear bm i).2 j = negb (j =? i) && bm_test bm j.
Proof.
  intros Hwf Hi Hj. unfold bm_test, bm_test_and_clear; simpl.
  pose proof (Z.mod_pos_bound j 32 ltac:(lia)) as Hmj.
  pose proof (Z.mod_pos_bound i 32 ltac:(lia)) as Hmi.
  rewrite znth_zupd by (by eapply bm_index).
  destruct (Z.eqb_spec (j / 32) (i / 32)) as [Hd|Hd].
  - rewrite Z.land_spec, testbit_u32, Z.lnot_spec, testbit_u32, BIT_testbit by lia.
    rewrite Hd. destruct (Z.eqb_spec (i mod 32) (j mod 32)) as [Hm|Hm].
    + assert (j = i) as -> by (apply index_split; lia).
      by rewrite Z.eqb_refl, andb_false_r.
    + destruct (Z.eqb_spec j i) as [->|]; [done|]. by rewrite andb_true_r.
  - destruct (Z.eqb_spec j i) as [->|]; done.
Qed.

Lemma bm_wf_set n bm i : bm_wf n bm -> bm_wf n (bm_test_and_set bm i).2.
Proof.
  intros H. simpl. apply bm_wf_zupd; [done|]. unfold is_u32. apply u32_range.
Qed.

Lemma bm_wf_clear n bm i : bm_wf n bm -> bm_wf n (bm_test_and_clear bm i).2.
Proof.
  intros H. simpl. apply bm_wf_zupd; [done|]. apply land_u32, znth_u32. apply H.
Qed.

(** The value returned by test-and-set tells whether the bit was free. *)
Lemma bm_test_and_set_prev bm i :
  0 <= i ->
  truthy (Z.land (bm_test_and_set bm i).1 (BIT (i mod 32))) = bm_test bm i.
Proof.
  intros Hi. simpl. rewrite land_BIT_testbit; [done|].
  apply Z.mod_pos_bound. lia.
Qed.

#[export] Hint Resolve bm_wf_set bm_wf_clear : carr.

#[global] Arguments bm_test_and_set : simpl never.
#[global] Arguments bm_test_and_clear : simpl never.
#[global] Arguments bm_test : simpl never.
