(* ===== verification/SynxGlobal.v ===== *)
(** * The synx global table ([synx-kernel/msm/synx/synx_global.c])

    The table of fence objects that all cores share: [synx_gmem] with its
    bitmap, its entries and the hardware spinlock that protects every access.
    This file holds the state and the operations; their theorems are in
    [SynxEntry], [SynxSignal], [SynxMerge] and [SynxRecover]. *)

From S2P Require Import Prelude IpcHosts Bitmap.

(** ** Constants *)

(** [synx_err.h] *)
Definition SYNX_SUCCESS : Z := 0.
Definition SYNX_NOMEM : Z := 12.
Definition SYNX_INVALID : Z := 22.
Definition SYNX_ALREADY : Z := 114.
Definition SYNX_NOENT : Z := 2.

(** [enum synx_core_id] *)
Definition SYNX_CORE_APSS : Z := 0.
Definition SYNX_CORE_NSP : Z := 1.
Definition SYNX_CORE_EVA : Z := 2.
Definition SYNX_CORE_IRIS : Z := 3.
Definition SYNX_CORE_ICP : Z := 4.
Definition SYNX_CORE_MAX : Z := 5.

(** Object states of [synx_api.h] *)
Definition SYNX_STATE_ACTIVE : Z := 1.
Definition SYNX_STATE_SIGNALED_SUCCESS : Z := 2.
Definition SYNX_STATE_SIGNALED_SSR : Z := 6.
Definition SYNX_STATE_SIGNALED_MAX : Z := 64.

(** Sizes of [synx_global.h] *)
Definition SYNX_HANDLE_INDEX_MASK : Z := BIT 16 - 1.
Definition SYNX_GLOBAL_MAX_OBJS : Z := 4096.
Definition SYNX_GLOBAL_MAX_PARENTS : nat := 4.

(** ** Data *)

(** [struct synx_global_coredata] *)
Record coredata := mk_coredata {
  status : Z;            (* u32 *)
  handle : Z;            (* u32 *)
  refcount : Z;          (* u16 *)
  num_child : Z;         (* u16 *)
  subscribers : Z;       (* u16 *)
  waiters : Z;           (* u16 *)
  parents : list Z       (* u16 [SYNX_GLOBAL_MAX_PARENTS] *)
}.

(** The entry after [memset(.., 0, sizeof(..))]. *)
Definition zero_coredata : coredata :=
  mk_coredata 0 0 0 0 0 0 (replicate SYNX_GLOBAL_MAX_PARENTS 0).

(** Assignments to the fields, each truncated to the width of the field. *)
Definition set_status (v : Z) (e : coredata) : coredata :=
  mk_coredata (u32 v) (handle e) (refcount e) (num_child e) (subscribers e) (waiters e) (parents e).
Definition set_handle (v : Z) (e : coredata) : coredata :=
  mk_coredata (status e) (u32 v) (refcount e) (num_child e) (subscribers e) (waiters e) (parents e).
Definition set_refcount (v : Z) (e : coredata) : coredata :=
  mk_coredata (status e) (handle e) (u16 v) (num_child e) (subscribers e) (waiters e) (parents e).
Definition set_num_child (v : Z) (e : coredata) : coredata :=
  mk_coredata (status e) (handle e) (refcount e) (u16 v) (subscribers e) (waiters e) (parents e).
Definition set_subscribers (v : Z) (e : coredata) : coredata :=
  mk_coredata (status e) (handle e) (refcount e) (num_child e) (u16 v) (waiters e) (parents e).
Definition set_waiters (v : Z) (e : coredata) : coredata :=
  mk_coredata (status e) (handle e) (refcount e) (num_child e) (subscribers e) (u16 v) (parents e).
Definition set_parent (i v : Z) (e : coredata) : coredata :=
  mk_coredata (status e) (handle e) (refcount e) (num_child e) (subscribers e) (waiters e)
    (zupd (parents e) i (u16 v)).

(** What leaves the module towards IPC Lite, in order. *)
Inductive synx_event :=
| MsgSend (host : Z) (data : Z)      (* ipclite_msg_send(host, data) *)
| IpcliteRecover (host : Z).         (* ipclite_recover(host) *)

(** [struct synx_shared_mem synx_gmem], [synx_hwlock] and the state of the
    hardware lock.  [gm_tries] counts the acquisitions tried so far: it
    indexes the answers of the lock service. *)
Record gmem := mk_gmem {
  gm_mapped : bool;            (* synx_gmem.table is not NULL *)
  gm_bitmap : list Z;          (* synx_gmem.bitmap *)
  gm_table : list coredata;    (* synx_gmem.table *)
  gm_hwlock : bool;            (* synx_hwlock is not NULL *)
  gm_held : bool;              (* the hardware lock is taken *)
  gm_tries : nat;
  gm_trace : list synx_event
}.

Definition with_bitmap (b : list Z) (g : gmem) : gmem :=
  mk_gmem (gm_mapped g) b (gm_table g) (gm_hwlock g) (gm_held g) (gm_tries g) (gm_trace g).
Definition with_table (t : list coredata) (g : gmem) : gmem :=
  mk_gmem (gm_mapped g) (gm_bitmap g) t (gm_hwlock g) (gm_held g) (gm_tries g) (gm_trace g).
Definition with_held (b : bool) (g : gmem) : gmem :=
  mk_gmem (gm_mapped g) (gm_bitmap g) (gm_table g) (gm_hwlock g) b (gm_tries g) (gm_trace g).
Definition with_try (g : gmem) : gmem :=
  mk_gmem (gm_mapped g) (gm_bitmap g) (gm_table g) (gm_hwlock g) (gm_held g) (S (gm_tries g)) (gm_trace g).
Definition with_event (ev : synx_event) (g : gmem) : gmem :=
  mk_gmem (gm_mapped g) (gm_bitmap g) (gm_table g) (gm_hwlock g) (gm_held g) (gm_tries g)
    (gm_trace g ++ [ev]).

(** [synx_gmem.table[idx]] and its update. *)
Definition entry (g : gmem) (idx : Z) : coredata := znth zero_coredata (gm_table g) idx.
Definition set_entry (idx : Z) (e : coredata) (g : gmem) : gmem :=
  with_table (zupd (gm_table g) idx e) g.
Definition upd_entry (idx : Z) (f : coredata -> coredata) (g : gmem) : gmem :=
  set_entry idx (f (entry g idx)) g.

(** ** The environment: lock service, other cores, allocator *)

Class SynxEnv := {
  (* the answer of hwspin_lock_timeout_irqsave to the n-th request, given
     whether the lock is taken *)
  hwspin_lock_timeout_irqsave : nat -> bool -> Z;
  (* what the other cores do to the bitmap between a search and the
     following atomic test-and-set, in the n-th round of the loop *)
  other_cores : nat -> list Z -> list Z;
  (* kzalloc succeeds *)
  kzalloc_ok : bool;
  #[global] synx_search :: BitSearch
}.

(** A taken lock is not granted again (the wait times out). *)
Class SynxLockLaw (E : SynxEnv) : Prop :=
  lock_excl n : hwspin_lock_timeout_irqsave n true <> 0.

Section operations.
Context `{E : SynxEnv}.

(** ** The lock *)

Definition synx_gmem_lock_owner (idx : Z) (g : gmem) : Z := subscribers (entry g 0).

Definition synx_gmem_lock_owner_set (idx : Z) (g : gmem) : gmem :=
  upd_entry 0 (set_subscribers SYNX_CORE_APSS) g.

Definition synx_gmem_lock_owner_clear (idx : Z) (g : gmem) : gmem :=
  upd_entry 0 (set_subscribers SYNX_CORE_MAX) g.

Definition synx_gmem_lock (idx : Z) (g : gmem) : Z * gmem :=
  if negb (gm_hwlock g) then (- SYNX_INVALID, g) else
  let rc := hwspin_lock_timeout_irqsave (gm_tries g) (gm_held g) in
  let g := with_try g in
  if rc =? 0 then (rc, synx_gmem_lock_owner_set idx (with_held true g)) else (rc, g).

Definition synx_gmem_unlock (idx : Z) (g : gmem) : gmem :=
  with_held false (synx_gmem_lock_owner_clear idx g).

(** [rc = synx_gmem_lock(idx, &flags); if (rc) return ..; body; synx_gmem_unlock(idx, &flags)] *)
Definition locked {A} (idx : Z) (fail : Z -> A) (body : gmem -> A * gmem) (g : gmem) : A * gmem :=
  let '(rc, g) := synx_gmem_lock idx g in
  if truthy rc then (fail rc, g) else
  let '(a, g) := body g in
  (a, synx_gmem_unlock idx g).

Definition synx_is_valid_idx (idx : Z) : bool := idx <? SYNX_GLOBAL_MAX_OBJS.

Definition synx_fetch_global_shared_memory_handle_details (synx_handle : Z) (g : gmem) :
    (bool * option coredata) * gmem :=
  if negb (gm_mapped g) then ((false, None), g) else
  let idx := Z.land synx_handle SYNX_HANDLE_INDEX_MASK in
  if negb (synx_is_valid_idx idx) then ((false, None), g) else
  locked idx (fun _ => (false, None)) (fun g => ((true, Some (entry g idx)), g)) g.

(** ** Initialisation *)

(** [synx_gmem_init]; [hwlock] is the answer of [hwspin_lock_request_specific]. *)
Definition synx_gmem_init (hwlock : bool) (g : gmem) : Z * gmem :=
  if negb (gm_mapped g) then (- SYNX_NOMEM, g) else
  let g := mk_gmem (gm_mapped g) (gm_bitmap g) (gm_table g) hwlock (gm_held g) (gm_tries g) (gm_trace g) in
  if negb hwlock then (- SYNX_NOMEM, g) else
  let g := with_bitmap (bm_test_and_set (gm_bitmap g) 0).2 g in
  let g := set_entry 0 zero_coredata g in
  (SYNX_SUCCESS, g).

(** [synx_global_mem_init]; [part_rc] is the answer of [get_global_partition_info]. *)
Definition synx_global_mem_init (part_rc : Z) (hwlock : bool) (g : gmem) : Z * gmem :=
  if truthy part_rc then (part_rc, g) else
  let g := mk_gmem true (replicate (Z.to_nat (SYNX_GLOBAL_MAX_OBJS / 32)) 0)
             (replicate (Z.to_nat SYNX_GLOBAL_MAX_OBJS) zero_coredata)
             (gm_hwlock g) (gm_held g) (gm_tries g) (gm_trace g) in
  synx_gmem_init hwlock g.

Definition synx_global_map_core_id (id : Z) : Z :=
  if id =? SYNX_CORE_APSS then IPCMEM_APPS
  else if id =? SYNX_CORE_NSP then IPCMEM_CDSP
  else if id =? SYNX_CORE_IRIS then IPCMEM_VPU
  else if id =? SYNX_CORE_EVA then IPCMEM_CVP
  else if id =? SYNX_CORE_ICP then IPCMEM_CAM
  else IPCMEM_NUM_HOSTS.

(** ** Allocation of an index *)

(** The [do .. while (true)] loop; [n] numbers the rounds, [fuel] bounds them. *)
Fixpoint alloc_loop (fuel : nat) (n : nat) (g : gmem) : option (Z * option Z * gmem) :=
  match fuel with
  | O => None
  | S fuel =>
      let index := find_first_zero_bit (gm_bitmap g) SYNX_GLOBAL_MAX_OBJS in
      if index >=? SYNX_GLOBAL_MAX_OBJS then Some (- SYNX_NOMEM, None, g) else
      let bm := other_cores n (gm_bitmap g) in
      let '(prev, bm) := bm_test_and_set bm index in
      let g := with_bitmap bm g in
      if Z.land prev (BIT (index mod 32)) =? 0 then Some (SYNX_SUCCESS, Some index, g)
      else alloc_loop fuel (S n) g
  end.

(** [idx] is the caller's non-NULL pointer: the index it receives is the
    [option]. *)
Definition synx_global_alloc_index (fuel : nat) (g : gmem) : option (Z * option Z * gmem) :=
  if negb (gm_mapped g) then Some (- SYNX_NOMEM, None, g) else alloc_loop fuel 0 g.

Definition synx_global_init_coredata (h_synx : Z) (g : gmem) : Z * gmem :=
  let idx := Z.land h_synx SYNX_HANDLE_INDEX_MASK in
  if negb (gm_mapped g) then (- SYNX_NOMEM, g) else
  if negb (synx_is_valid_idx idx) then (- SYNX_INVALID, g) else
  locked idx id (fun g =>
    let o := entry g idx in
    if negb (status o =? 0) || negb (refcount o =? 0) || negb (subscribers o =? 0) ||
       negb (handle o =? 0) || negb (znth 0 (parents o) 0 =? 0)
    then (- SYNX_INVALID, g)
    else
      let o := zero_coredata in
      let o := set_status SYNX_STATE_ACTIVE o in
      let o := set_refcount 1 o in
      let o := set_subscribers (BIT SYNX_CORE_APSS) o in
      let o := set_handle h_synx o in
      (SYNX_SUCCESS, set_entry idx o g)) g.

(** ** Waiting and subscribed cores *)

(** [for (i = 0; i < SYNX_CORE_MAX; i++) if (mask & (1UL << i)) cores[i] = true;] *)
Definition mark_cores (mask : Z) (cores : list bool) : list bool :=
  imap (fun i c => if (Z.of_nat i <? SYNX_CORE_MAX) && truthy (Z.land mask (BIT (Z.of_nat i)))
                   then true else c) cores.

(** Returns the [cores] array and the entry with its waiters cleared. *)
Definition synx_global_get_waiting_cores_locked (o : coredata) (cores : list bool) :
    list bool * coredata :=
  (mark_cores (waiters o) cores, set_waiters 0 o).

Definition synx_global_get_waiting_cores (idx : Z) (cores : list bool) (g : gmem) :
    (Z * list bool) * gmem :=
  if negb (gm_mapped g) then ((- SYNX_NOMEM, cores), g) else
  if negb (synx_is_valid_idx idx) then ((- SYNX_INVALID, cores), g) else
  locked idx (fun rc => (rc, cores)) (fun g =>
    let '(cores, o) := synx_global_get_waiting_cores_locked (entry g idx) cores in
    ((SYNX_SUCCESS, cores), set_entry idx o g)) g.

Definition synx_global_set_waiting_core (idx id : Z) (g : gmem) : Z * gmem :=
  if negb (gm_mapped g) then (- SYNX_NOMEM, g) else
  if (id >=? SYNX_CORE_MAX) || negb (synx_is_valid_idx idx) then (- SYNX_INVALID, g) else
  locked idx (fun rc => rc) (fun g =>
    (SYNX_SUCCESS,
     upd_entry idx (fun o => set_waiters (Z.lor (waiters o) (BIT id)) o) g)) g.

Definition synx_global_get_subscribed_cores (idx : Z) (cores : list bool) (g : gmem) :
    (Z * list bool) * gmem :=
  if negb (gm_mapped g) then ((- SYNX_NOMEM, cores), g) else
  if negb (synx_is_valid_idx idx) then ((- SYNX_INVALID, cores), g) else
  locked idx (fun rc => (rc, cores)) (fun g =>
    ((SYNX_SUCCESS, mark_cores (subscribers (entry g idx)) cores), g)) g.

Definition synx_global_fetch_handle_details (idx : Z) (g : gmem) : (Z * option Z) * gmem :=
  if negb (gm_mapped g) then ((- SYNX_NOMEM, None), g) else
  if negb (synx_is_valid_idx idx) then ((- SYNX_INVALID, None), g) else
  locked idx (fun rc => (rc, None)) (fun g =>
    ((SYNX_SUCCESS, Some (handle (entry g idx))), g)) g.

Definition synx_global_set_subscribed_core (idx id : Z) (g : gmem) : Z * gmem :=
  if negb (gm_mapped g) then (- SYNX_NOMEM, g) else
  if (id >=? SYNX_CORE_MAX) || negb (synx_is_valid_idx idx) then (- SYNX_INVALID, g) else
  locked idx (fun rc => rc) (fun g =>
    (SYNX_SUCCESS,
     upd_entry idx (fun o => set_subscribers (Z.lor (subscribers o) (BIT id)) o) g)) g.

Definition synx_global_clear_subscribed_core (idx id : Z) (g : gmem) : Z * gmem :=
  if negb (gm_mapped g) then (- SYNX_NOMEM, g) else
  if (id >=? SYNX_CORE_MAX) || negb (synx_is_valid_idx idx) then (- SYNX_INVALID, g) else
  locked idx (fun rc => rc) (fun g =>
    (SYNX_SUCCESS,
     upd_entry idx (fun o => set_subscribers (Z.land (subscribers o) (Z.lnot (BIT id))) o) g)) g.

(** ** Parents and status *)

Definition count_nonzero (l : list Z) : Z := zlen (filter (fun p => p <> 0) l).

(** The result is a [u32]: a failed lock returns its negative code in it. *)
Definition synx_global_get_parents_num (idx : Z) (g : gmem) : Z * gmem :=
  if negb (gm_mapped g) then (0, g) else
  if negb (synx_is_valid_idx idx) then (0, g) else
  locked idx u32 (fun g => (count_nonzero (parents (entry g idx)), g)) g.

(** [parents[i] = synx_g_obj->parents[i]] for the four slots. *)
Definition synx_global_get_parents_locked (o : coredata) : list Z :=
  map (fun i => znth 0 (parents o) (Z.of_nat i)) (seq 0 SYNX_GLOBAL_MAX_PARENTS).

Definition synx_global_get_parents (idx : Z) (g : gmem) : (Z * option (list Z)) * gmem :=
  if negb (gm_mapped g) then ((- SYNX_NOMEM, None), g) else
  if negb (synx_is_valid_idx idx) then ((- SYNX_INVALID, None), g) else
  locked idx (fun rc => (rc, None)) (fun g =>
    ((SYNX_SUCCESS, Some (synx_global_get_parents_locked (entry g idx))), g)) g.

Definition synx_global_get_status (idx : Z) (g : gmem) : Z * gmem :=
  if negb (gm_mapped g) then (0, g) else
  if negb (synx_is_valid_idx idx) then (0, g) else
  locked idx u32 (fun g =>
    let o := entry g idx in
    (if negb (status o =? SYNX_STATE_ACTIVE) && (num_child o =? 0) then status o
     else SYNX_STATE_ACTIVE, g)) g.

Definition synx_global_test_status_set_wait (idx id : Z) (g : gmem) : Z * gmem :=
  if negb (gm_mapped g) then (0, g) else
  if (id >=? SYNX_CORE_MAX) || negb (synx_is_valid_idx idx) then (0, g) else
  locked idx (fun _ => 0) (fun g =>
    let o := entry g idx in
    if (status o =? SYNX_STATE_ACTIVE) || negb (num_child o =? 0)
    then (SYNX_STATE_ACTIVE,
          set_entry idx (set_waiters (Z.lor (waiters o) (BIT id)) o) g)
    else (status o, g)) g.

(** ** Signalling *)

(** What one notification does to the entry: the new entry, the data to send
    (0: nothing), the waiting cores, the parents to notify, and whether the
    entry was released. *)
Definition signal_entry (st : Z) (o : coredata) :
    coredata * Z * list bool * list Z * bool :=
  let no_cores := replicate (Z.to_nat SYNX_CORE_MAX) false in
  let no_parents := replicate SYNX_GLOBAL_MAX_PARENTS 0 in
  let data := u64 (Z.shiftl (handle o) 32) in
  if negb (num_child o =? 0) then
    let o := set_num_child (num_child o - 1) o in
    let o := if (status o =? SYNX_STATE_ACTIVE) ||
                ((st >? SYNX_STATE_SIGNALED_SUCCESS) && (st <=? SYNX_STATE_SIGNALED_MAX))
             then set_status st o else o in
    if num_child o =? 0 then
      let data := Z.lor data (status o) in
      let '(cores, o) := synx_global_get_waiting_cores_locked o no_cores in
      let ps := synx_global_get_parents_locked o in
      let o := set_refcount (refcount o - 1) o in
      if refcount o =? 0 then (zero_coredata, data, cores, ps, true)
      else (o, data, cores, ps, false)
    else (o, 0, no_cores, no_parents, false)
  else
    let o := set_status st o in
    let data := Z.lor data (status o) in
    let '(cores, o) := synx_global_get_waiting_cores_locked o no_cores in
    (o, data, cores, synx_global_get_parents_locked o, false).

(** The messages to the waiting cores, from core [i] on. *)
Definition notify_cores (st data : Z) (cores : list bool) (g : gmem) : gmem :=
  if data =? 0 then g else
  let first := if st =? SYNX_STATE_SIGNALED_SSR then 0 else 1 in
  fold_left (fun g i =>
      if (first <=? i) && znth false cores i
      then with_event (MsgSend (synx_global_map_core_id i) data) g else g)
    (seqZ 0 SYNX_CORE_MAX) g.

(** [for (i = 0; i < SYNX_GLOBAL_MAX_PARENTS; i++) { if (p_idx == 0) continue; notify }] *)
Fixpoint notify_parents (f : Z -> gmem -> option (Z * gmem)) (ps : list Z) (g : gmem) : option gmem :=
  match ps with
  | [] => Some g
  | p :: ps =>
      if p =? 0 then notify_parents f ps g else
      match f p g with
      | Some (_, g) => notify_parents f ps g
      | None => None
      end
  end.

(** [clear]: the bit of a released entry is cleared after the unlock. *)
Definition release_bit (clear : bool) (idx : Z) (g : gmem) : gmem :=
  if clear then with_bitmap (bm_test_and_clear (gm_bitmap g) idx).2 g else g.

(** [fuel] bounds the depth of the recursion over the parents. *)
Fixpoint synx_global_update_status_core (fuel : nat) (idx st : Z) (g : gmem) : option (Z * gmem) :=
  match fuel with
  | O => None
  | S fuel =>
      let '(rc, g) := synx_gmem_lock idx g in
      if truthy rc then Some (rc, g) else
      let '(o, data, cores, ps, clear) := signal_entry st (entry g idx) in
      let g := synx_gmem_unlock idx (set_entry idx o g) in
      let g := release_bit clear idx g in
      let g := notify_cores st data cores g in
      match notify_parents (fun p g => synx_global_update_status_core fuel p st g) ps g with
      | Some g => Some (SYNX_SUCCESS, g)
      | None => None
      end
  end.

(** The check of [synx_global_update_status]: [inl rc] is [goto fail]. The
    variable [rc] holds 0 there, the result of the lock. *)
Definition update_status_check (idx : Z) (g : gmem) : (Z + unit) * gmem :=
  locked idx inl (fun g =>
    let o := entry g idx in
    if negb (num_child o =? 0) then (inl 0, g)
    else if negb (status o =? SYNX_STATE_ACTIVE) then (inl (- SYNX_ALREADY), g)
    else (inr tt, g)) g.

Definition synx_global_update_status (fuel : nat) (idx st : Z) (g : gmem) : option (Z * gmem) :=
  if negb (gm_mapped g) then Some (- SYNX_NOMEM, g) else
  if negb (synx_is_valid_idx idx) || (st <=? SYNX_STATE_ACTIVE) then Some (- SYNX_INVALID, g) else
  match update_status_check idx g with
  | (inl rc, g) => Some (rc, g)
  | (inr _, g) => synx_global_update_status_core fuel idx st g
  end.

(** ** Reference counts *)

Definition synx_global_get_ref (idx : Z) (g : gmem) : Z * gmem :=
  if negb (gm_mapped g) then (- SYNX_NOMEM, g) else
  if negb (synx_is_valid_idx idx) then (- SYNX_INVALID, g) else
  locked idx id (fun g =>
    let o := entry g idx in
    if truthy (handle o) && truthy (refcount o)
    then (0, set_entry idx (set_refcount (refcount o + 1) o) g)
    else (- SYNX_NOENT, g)) g.

Definition synx_global_put_ref (idx : Z) (g : gmem) : gmem :=
  if negb (gm_mapped g) then g else
  if negb (synx_is_valid_idx idx) then g else
  let '(clear, g) := locked idx (fun _ => false) (fun g =>
    let o := set_refcount (refcount (entry g idx) - 1) (entry g idx) in
    if refcount o =? 0 then (true, set_entry idx zero_coredata g)
    else (false, set_entry idx o g)) g in
  release_bit clear idx g.

(** ** Merging *)

(** The first free parent slot of an entry. *)
Definition free_parent_slot (o : coredata) : option nat :=
  find_index (fun p => p =? 0) (parents o).

(** The locked part of one round: the entry with its new parent, the counters
    and whether a slot was found. *)
Definition merge_child (p_idx : Z) (o : coredata) (nc ps : Z) : coredata * Z * Z * bool :=
  let slot := free_parent_slot o in
  let o := match slot with Some i => set_parent (Z.of_nat i) p_idx o | None => o end in
  let '(nc, ps) :=
    if status o =? SYNX_STATE_ACTIVE then (u32 (nc + 1), ps)
    else if (status o >? SYNX_STATE_SIGNALED_SUCCESS) && (status o <=? SYNX_STATE_SIGNALED_MAX)
    then (nc, status o)
    else if ps =? SYNX_STATE_ACTIVE then (nc, status o) else (nc, ps) in
  let nc := if negb (status o =? SYNX_STATE_ACTIVE) && negb (num_child o =? 0)
            then u32 (nc + 1) else nc in
  (o, nc, ps, match slot with Some _ => true | None => false end).

(** [while (j < num_list)]: [Some] is the normal exit, [None] is [goto fail]. *)
Fixpoint merge_loop (p_idx : Z) (l : list Z) (rc nc ps : Z) (g : gmem) :
    bool * Z * Z * Z * gmem :=
  match l with
  | [] => (true, rc, nc, ps, g)
  | idx :: l =>
      if negb (synx_is_valid_idx idx) then (false, rc, nc, ps, g) else
      let '(rc, g) := synx_gmem_lock idx g in
      if truthy rc then (false, rc, nc, ps, g) else
      let '(o, nc, ps, ok) := merge_child p_idx (entry g idx) nc ps in
      let g := synx_gmem_unlock idx (set_entry idx o g) in
      if negb ok then (false, - SYNX_NOMEM, nc, ps, g)
      else merge_loop p_idx l rc nc ps g
  end.

(** [while (num_child--)]: the entries [idx_list[n-1] .. idx_list[0]] lose
    their first slot that holds [p_idx]. *)
Fixpoint merge_rollback (p_idx : Z) (idx_list : list Z) (n : nat) (g : gmem) : gmem :=
  match n with
  | O => g
  | S n =>
      let idx := znth 0 idx_list (Z.of_nat n) in
      let '(rc, g) := synx_gmem_lock idx g in
      if truthy rc then merge_rollback p_idx idx_list n g else
      let o := entry g idx in
      let o := match find_index (fun p => p =? p_idx) (parents o) with
               | Some i => set_parent (Z.of_nat i) 0 o
               | None => o
               end in
      merge_rollback p_idx idx_list n (synx_gmem_unlock idx (set_entry idx o g))
  end.

Definition synx_global_merge (idx_list : list Z) (p_idx : Z) (g : gmem) : Z * gmem :=
  if negb (gm_mapped g) then (- SYNX_NOMEM, g) else
  if negb (synx_is_valid_idx p_idx) then (- SYNX_INVALID, g) else
  if zlen idx_list =? 0 then (SYNX_SUCCESS, g) else
  let fail rc nc g := (rc, merge_rollback p_idx idx_list (Z.to_nat nc) g) in
  let '(ok, rc, nc, ps, g) := merge_loop p_idx idx_list (- SYNX_INVALID) 0 SYNX_STATE_ACTIVE g in
  if negb ok then fail rc nc g else
  let '(rc, g) := synx_gmem_lock p_idx g in
  if truthy rc then fail rc nc g else
  let o := entry g p_idx in
  let o := set_num_child (num_child o + nc) o in
  let o := if negb (num_child o =? 0) then set_refcount (refcount o + 1) o else o in
  let o := set_status ps o in
  (SYNX_SUCCESS, synx_gmem_unlock p_idx (set_entry p_idx o g)).

(** ** Recovery after a subsystem restart *)

(** The locked part for one entry: the entry, whether it was released and
    whether its waiters must be notified. *)
Definition recover_entry (core_id : Z) (o : coredata) : coredata * bool * bool :=
  if truthy (refcount o) && truthy (Z.land (subscribers o) (BIT core_id)) then
    let o := set_subscribers (Z.land (subscribers o) (Z.lnot (BIT core_id))) o in
    let o := set_refcount (refcount o - 1) o in
    if refcount o =? 0 then (zero_coredata, true, false)
    else if status o =? SYNX_STATE_ACTIVE then (o, false, true)
    else (o, false, false)
  else (o, false, false).

(** [while (idx < size)]: [n] bounds the rounds, [fuel] the signal recursion;
    [cl] is the array [clear_idx]. [Some (true, ..)] is the normal exit. *)
Fixpoint recover_loop (fuel n : nat) (core_id idx : Z) (rc : Z) (cl : list Z) (g : gmem) :
    option (bool * Z * list Z * gmem) :=
  if negb (idx <? SYNX_GLOBAL_MAX_OBJS) then Some (true, rc, cl, g) else
  match n with
  | O => None
  | S n =>
      let '(rc, g) := synx_gmem_lock idx g in
      if truthy rc then Some (false, rc, cl, g) else
      let '(o, released, update) := recover_entry core_id (entry g idx) in
      let cl := if released then zupd cl idx 1 else cl in
      let g := synx_gmem_unlock idx (set_entry idx o g) in
      match (if update then synx_global_update_status fuel idx SYNX_STATE_SIGNALED_SSR g
             else Some (0, g)) with
      | None => None
      | Some (_, g) =>
          let next := find_next_bit (gm_bitmap g) SYNX_GLOBAL_MAX_OBJS (idx + 1) in
          recover_loop fuel n core_id next rc cl g
      end
  end.

(** [for (idx = 1; idx < size; idx++) if (clear_idx[idx]) ..] *)
Definition recover_clear (cl : list Z) (g : gmem) : gmem :=
  fold_left (fun g idx => release_bit (truthy (znth 0 cl idx)) idx g)
    (seqZ 1 (SYNX_GLOBAL_MAX_OBJS - 1)) g.

Definition synx_global_recover (fuel : nat) (core_id : Z) (g : gmem) : option (Z * gmem) :=
  if negb (gm_mapped g) then Some (- SYNX_NOMEM, g) else
  if negb kzalloc_ok then Some (- SYNX_NOMEM, g) else
  let cl := replicate (Z.to_nat SYNX_GLOBAL_MAX_OBJS) 0 in
  let g := with_event (IpcliteRecover (synx_global_map_core_id core_id)) g in
  let g := if synx_gmem_lock_owner 0 g =? core_id
           then with_held false (synx_gmem_lock_owner_clear 0 g) else g in
  let idx := find_next_bit (gm_bitmap g) SYNX_GLOBAL_MAX_OBJS (0 + 1) in
  match recover_loop fuel (Z.to_nat SYNX_GLOBAL_MAX_OBJS) core_id idx SYNX_SUCCESS cl g with
  | None => None
  | Some (true, rc, cl, g) => Some (rc, recover_clear cl g)
  | Some (false, rc, cl, g) => Some (rc, g)
  end.

End operations.
