(* ===== verification/SynxEntry.v ===== *)
(** * Synx global table: locking, entries, reference counts

    Generic lemmas on the lock and the entries of [SynxGlobal], the
    well-formedness invariant of the shared memory with its preservation, the
    allocation of indexes under interference, and reference counting. *)

From S2P Require Import Prelude Bitmap SynxGlobal.

(** ** Definitions *)

(** The lock service grants a free lock. *)
Class LockGranted (E : SynxEnv) : Prop :=
  lock_granted n : hwspin_lock_timeout_irqsave n false = 0.

(** The memory is initialised and no core holds the lock. *)
Record ready (g : gmem) : Prop := mk_ready {
  rd_mapped : gm_mapped g = true;
  rd_hwlock : gm_hwlock g = true;
  rd_held : gm_held g = false;
  rd_table : zlen (gm_table g) = SYNX_GLOBAL_MAX_OBJS
}.

(** The fields of an entry are in the range of their C types. *)
Record entry_wf (o : coredata) : Prop := mk_entry_wf {
  ew_status : is_u32 (status o);
  ew_handle : is_u32 (handle o);
  ew_refcount : is_u16 (refcount o);
  ew_num_child : is_u16 (num_child o);
  ew_subscribers : is_u16 (subscribers o);
  ew_waiters : is_u16 (waiters o);
  ew_len : length (parents o) = SYNX_GLOBAL_MAX_PARENTS;
  ew_parents : Forall (fun p => 0 <= p < SYNX_GLOBAL_MAX_OBJS) (parents o)
}.

(** The invariant of the shared memory: the reserved bit 0 is set and an index
    whose bit is clear has a zeroed entry, so that it can be allocated. *)
Record gmem_wf (g : gmem) : Prop := mk_gmem_wf {
  gw_bitmap : bm_wf SYNX_GLOBAL_MAX_OBJS (gm_bitmap g);
  gw_table : zlen (gm_table g) = SYNX_GLOBAL_MAX_OBJS;
  gw_entries : Forall entry_wf (gm_table g);
  gw_reserved : bm_test (gm_bitmap g) 0 = true;
  gw_free i :
    0 < i < SYNX_GLOBAL_MAX_OBJS -> bm_test (gm_bitmap g) i = false ->
    entry g i = zero_coredata
}.

(** A valid index other than the reserved one. *)
Definition client_idx (i : Z) : Prop := 0 < i < SYNX_GLOBAL_MAX_OBJS.

(** An index that has been allocated. *)
Definition allocated (g : gmem) (i : Z) : Prop :=
  client_idx i /\ bm_test (gm_bitmap g) i = true.

(** Equality up to the lock-owner word (entry 0) and the number of
    acquisitions. *)
Record gm_equiv (g g' : gmem) : Prop := mk_gm_equiv {
  ge_mapped : gm_mapped g = gm_mapped g';
  ge_bitmap : gm_bitmap g = gm_bitmap g';
  ge_hwlock : gm_hwlock g = gm_hwlock g';
  ge_held : gm_held g = gm_held g';
  ge_trace : gm_trace g = gm_trace g';
  ge_len : zlen (gm_table g) = zlen (gm_table g');
  ge_entry i : i <> 0 -> entry g i = entry g' i
}.

(** The state just after a granted acquisition, and after the release. *)
Definition acquire (g : gmem) : gmem :=
  synx_gmem_lock_owner_set 0 (with_held true (with_try g)).
Definition release (g : gmem) : gmem := synx_gmem_unlock 0 g.

(** A concrete environment: the lock is granted when free, the other cores
    leave the bitmap alone, allocations succeed. *)
Definition ref_env : SynxEnv := {|
  hwspin_lock_timeout_irqsave _ held := if held then -110 else 0;
  other_cores _ bm := bm;
  kzalloc_ok := true;
  synx_search := bit_search_ref
|}.

(** The shared memory after [synx_global_mem_init]. *)
Definition boot : gmem :=
  (synx_global_mem_init 0 true (mk_gmem false [] [] false false 0 [])).2.

(** ** Entries and setters *)

#[export] Instance gm_equiv_equivalence : Equivalence gm_equiv.
Proof.
  split.
  - by split.
  - intros g g' []. split; auto. intros i Hi. symmetry. auto.
  - intros g g' g'' [] []. split; try congruence.
    intros i Hi. rewrite ge_entry0 by done. auto.
Qed.

#[export] Instance ready_proper : Proper (gm_equiv ==> iff) ready.
Proof. intros g g' []; split; intros []; split; congruence. Qed.

Lemma entry_set_eq g idx o :
  0 <= idx < zlen (gm_table g) -> entry (set_entry idx o g) idx = o.
Proof. intros H. unfold entry, set_entry; simpl. by apply znth_zupd_eq. Qed.

Lemma entry_set_ne g idx j o : idx <> j -> entry (set_entry idx o g) j = entry g j.
Proof. intros H. unfold entry, set_entry; simpl. by apply znth_zupd_ne. Qed.

Lemma table_len_set g idx o : zlen (gm_table (set_entry idx o g)) = zlen (gm_table g).
Proof. apply zlen_zupd. Qed.

Lemma table_len_acquire g : zlen (gm_table (acquire g)) = zlen (gm_table g).
Proof. apply zlen_zupd. Qed.

Lemma table_len_release g : zlen (gm_table (release g)) = zlen (gm_table g).
Proof. apply zlen_zupd. Qed.

Lemma entry_acquire g i : i <> 0 -> entry (acquire g) i = entry g i.
Proof. intros H. unfold acquire, synx_gmem_lock_owner_set, upd_entry. by rewrite entry_set_ne. Qed.

Lemma entry_release g i : i <> 0 -> entry (release g) i = entry g i.
Proof.
  intros H. unfold release, synx_gmem_unlock, synx_gmem_lock_owner_clear, upd_entry.
  transitivity (entry (set_entry 0 (set_subscribers SYNX_CORE_MAX (entry g 0)) g) i); [done|].
  by rewrite entry_set_ne.
Qed.

Lemma entry_with_bitmap b g i : entry (with_bitmap b g) i = entry g i.
Proof. done. Qed.

Lemma entry_with_event ev g i : entry (with_event ev g) i = entry g i.
Proof. done. Qed.

Lemma entry_wf_zero : entry_wf zero_coredata.
Proof.
  split; unfold is_u32, is_u16; simpl; try lia; try done.
  repeat constructor; unfold SYNX_GLOBAL_MAX_OBJS; lia.
Qed.

Lemma entry_wf_at g i : gmem_wf g -> entry_wf (entry g i).
Proof.
  intros H. unfold entry.
  destruct (decide (0 <= i < zlen (gm_table g))) as [Hi|Hi].
  - eapply Forall_lookup_1; [apply H|]. by apply lookup_znth.
  - rewrite znth_oob by done. apply entry_wf_zero.
Qed.

Lemma entry_wf_status o v : entry_wf o -> entry_wf (set_status v o).
Proof. intros []; split; simpl; auto. apply u32_range. Qed.
Lemma entry_wf_refcount o v : entry_wf o -> entry_wf (set_refcount v o).
Proof. intros []; split; simpl; auto. apply u16_range. Qed.
Lemma entry_wf_num_child o v : entry_wf o -> entry_wf (set_num_child v o).
Proof. intros []; split; simpl; auto. apply u16_range. Qed.
Lemma entry_wf_subscribers o v : entry_wf o -> entry_wf (set_subscribers v o).
Proof. intros []; split; simpl; auto. apply u16_range. Qed.
Lemma entry_wf_waiters o v : entry_wf o -> entry_wf (set_waiters v o).
Proof. intros []; split; simpl; auto. apply u16_range. Qed.
Lemma entry_wf_handle o v : entry_wf o -> entry_wf (set_handle v o).
Proof. intros []; split; simpl; auto. apply u32_range. Qed.
Lemma entry_wf_parent o i v :
  entry_wf o -> 0 <= v < SYNX_GLOBAL_MAX_OBJS -> entry_wf (set_parent i v o).
Proof.
  intros [] Hv; split; simpl; auto; [by rewrite length_zupd|].
  rewrite u16_small by (unfold SYNX_GLOBAL_MAX_OBJS in *; lia).
  unfold zupd. case_if; [done|]. by apply Forall_insert.
Qed.

Create HintDb synx.
#[export] Hint Resolve entry_wf_zero entry_wf_status entry_wf_refcount entry_wf_num_child
  entry_wf_subscribers entry_wf_waiters entry_wf_handle entry_wf_parent entry_wf_at : synx.

Create Rewrite HintDb synx.
#[export] Hint Rewrite table_len_set table_len_acquire table_len_release : synx.
#[export] Hint Rewrite entry_acquire entry_release entry_set_eq entry_set_ne
  using (autorewrite with synx; unfold client_idx, SYNX_GLOBAL_MAX_OBJS in *; (done || lia)) : synx.

(** ** The lock *)

#[export] Instance ref_env_granted : LockGranted ref_env.
Proof. done. Qed.

#[export] Instance ref_env_excl : SynxLockLaw ref_env.
Proof. done. Qed.

Section lock.
Context `{E : SynxEnv}.

Lemma lock_granted_eq `{!LockGranted E} idx g :
  ready g -> synx_gmem_lock idx g = (0, acquire g).
Proof.
  intros []. unfold synx_gmem_lock. rewrite rd_hwlock0, rd_held0, lock_granted. done.
Qed.

Lemma locked_granted `{!LockGranted E} {A} idx (fail : Z -> A) body g :
  ready g ->
  locked idx fail body g =
  (let '(a, g1) := body (acquire g) in (a, release g1)).
Proof. intros H. unfold locked. rewrite lock_granted_eq by done. done. Qed.

Lemma lock_refused idx g rc g' :
  synx_gmem_lock idx g = (rc, g') -> rc <> 0 ->
  gm_table g' = gm_table g /\ gm_bitmap g' = gm_bitmap g /\ gm_trace g' = gm_trace g /\
  gm_held g' = gm_held g /\ gm_mapped g' = gm_mapped g /\ gm_hwlock g' = gm_hwlock g.
Proof.
  unfold synx_gmem_lock. case_if; [by intros [= <- <-] ?|].
  destruct (Z.eqb_spec (hwspin_lock_timeout_irqsave (gm_tries g) (gm_held g)) 0);
    intros [= <- <-] ?; [lia|done].
Qed.

Lemma ready_release g : gm_mapped g = true -> gm_hwlock g = true ->
  zlen (gm_table g) = SYNX_GLOBAL_MAX_OBJS -> ready (release g).
Proof. intros. split; try done. by rewrite table_len_release. Qed.

(** A section that only reads leaves an equivalent state. *)
Lemma read_only_equiv g : ready g -> gm_equiv (release (acquire g)) g.
Proof.
  intros []. split; try done.
  - by rewrite table_len_release, table_len_acquire.
  - intros i Hi. by rewrite entry_release, entry_acquire.
Qed.

End lock.

(** ** Preservation of well-formedness by the building blocks *)

Lemma gmem_wf_bit_table g g' :
  gm_bitmap g' = gm_bitmap g -> zlen (gm_table g') = zlen (gm_table g) ->
  entry_wf (entry g' 0) -> (forall i, i <> 0 -> entry g' i = entry g i) ->
  gmem_wf g -> gmem_wf g'.
Proof.
  intros Hb Hl H0 He [? ? Hw ? ?]. split; rewrite ?Hb; try congruence; auto.
  - apply Forall_lookup. intros i o Hi.
    destruct (decide (Z.of_nat i = 0)) as [Hz|Hz].
    + apply (znth_lookup zero_coredata) in Hi. rewrite Hz in Hi. by rewrite <- Hi.
    + pose proof (He (Z.of_nat i) Hz) as Heq. unfold entry in Heq.
      rewrite (znth_lookup _ _ _ _ Hi) in Heq. rewrite Heq.
      by apply (entry_wf_at g).
  - intros i Hi Hc. rewrite He by lia. auto.
Qed.

Lemma gmem_wf_set_entry g idx o :
  allocated g idx -> entry_wf o -> gmem_wf g -> gmem_wf (set_entry idx o g).
Proof.
  intros [Hi Ha] Ho [? Ht Hw ? Hf]. split; simpl; auto.
  - by rewrite zlen_zupd.
  - unfold zupd. case_if; [done|]. by apply Forall_insert.
  - intros i Hi' Hc. destruct (Z.eq_dec i idx) as [->|Hne]; [congruence|].
    rewrite entry_set_ne by done. auto.
Qed.

Lemma gmem_wf_acquire g : gmem_wf g -> gmem_wf (acquire g).
Proof.
  intros H. apply (gmem_wf_bit_table g); auto.
  - apply table_len_acquire.
  - unfold acquire, synx_gmem_lock_owner_set, upd_entry.
    rewrite entry_set_eq by (simpl; rewrite (gw_table g H); unfold SYNX_GLOBAL_MAX_OBJS; lia).
    apply entry_wf_subscribers. apply (entry_wf_at g 0 H).
  - intros. by apply entry_acquire.
Qed.

Lemma gmem_wf_release g : gmem_wf g -> gmem_wf (release g).
Proof.
  intros H. apply (gmem_wf_bit_table g); auto.
  - apply table_len_release.
  - unfold release, synx_gmem_unlock, synx_gmem_lock_owner_clear, upd_entry.
    change (entry_wf (entry (set_entry 0 (set_subscribers SYNX_CORE_MAX (entry g 0)) g) 0)).
    rewrite entry_set_eq by (rewrite (gw_table g H); unfold SYNX_GLOBAL_MAX_OBJS; lia).
    apply entry_wf_subscribers. by apply entry_wf_at.
  - intros. by apply entry_release.
Qed.

Lemma bitmap_release_bit idx g :
  gm_bitmap (release_bit true idx g) = (bm_test_and_clear (gm_bitmap g) idx).2.
Proof. done. Qed.

(** Releasing the bit of a zeroed entry. *)
Lemma gmem_wf_release_bit g idx :
  client_idx idx -> entry g idx = zero_coredata -> gmem_wf g ->
  gmem_wf (release_bit true idx g).
Proof.
  intros Hi Hz [Hb ? ? Hr Hf]. unfold client_idx in Hi.
  split; rewrite ?bitmap_release_bit; auto.
  - by apply bm_wf_clear.
  - rewrite (bm_test_clear SYNX_GLOBAL_MAX_OBJS) by (auto; lia).
    rewrite Hr. destruct (Z.eqb_spec 0 idx); [lia|done].
  - intros i Hi' Hc. rewrite (bm_test_clear SYNX_GLOBAL_MAX_OBJS) in Hc by (auto; lia).
    change (entry g i = zero_coredata).
    destruct (Z.eqb_spec i idx) as [->|]; [done|]. auto.
Qed.

#[export] Hint Resolve gmem_wf_set_entry gmem_wf_acquire gmem_wf_release : synx.

Section wf.
Context `{E : SynxEnv}.

Lemma lock_wf idx g rc g' :
  synx_gmem_lock idx g = (rc, g') -> gmem_wf g ->
  gmem_wf g' /\ gm_bitmap g' = gm_bitmap g /\
  (forall i, i <> 0 -> entry g' i = entry g i).
Proof.
  intros Hl Hwf. destruct (Z.eq_dec rc 0) as [->|Hrc].
  - revert Hl. unfold synx_gmem_lock. case_if; [done|].
    destruct (Z.eqb_spec (hwspin_lock_timeout_irqsave (gm_tries g) (gm_held g)) 0); [|congruence].
    intros [= _ <-]. split; [|split]; [|done|intros; by apply entry_acquire].
    by apply gmem_wf_acquire.
  - destruct (lock_refused _ _ _ _ Hl Hrc) as (Ht & Hb & _).
    split; [|split; [done|]].
    + apply (gmem_wf_bit_table g); auto; try congruence; unfold entry; rewrite Ht; [|done].
      by apply (entry_wf_at g 0).
    + intros. unfold entry. by rewrite Ht.
Qed.

Lemma locked_wf {A} idx (fail : Z -> A) body g :
  gmem_wf g ->
  (forall g1, gmem_wf g1 -> gm_bitmap g1 = gm_bitmap g -> gmem_wf (body g1).2) ->
  gmem_wf (locked idx fail body g).2.
Proof.
  intros Hwf Hbody. unfold locked.
  destruct (synx_gmem_lock idx g) as [rc g1] eqn:Hl.
  destruct (lock_wf _ _ _ _ Hl Hwf) as (Hwf1 & Hb & _).
  case_if; [done|]. specialize (Hbody g1 Hwf1 Hb).
  destruct (body g1) as [a g2]. simpl in *. by apply gmem_wf_release.
Qed.

Lemma allocated_bitmap g g' i :
  gm_bitmap g' = gm_bitmap g -> allocated g i -> allocated g' i.
Proof. intros Hb [Hi Ha]. split; [done|]. by rewrite Hb. Qed.

Lemma upd_entry_wf g idx f :
  gmem_wf g -> allocated g idx -> (forall o, entry_wf o -> entry_wf (f o)) ->
  gmem_wf (upd_entry idx f g).
Proof. intros Hwf Ha Hf. apply gmem_wf_set_entry; auto. apply Hf. by apply entry_wf_at. Qed.

(** The operations that update one entry under the lock. *)
Ltac op_wf :=
  repeat (case_if; simpl; auto);
  apply locked_wf; auto; intros g1 Hw1 Hb1; simpl;
  repeat (case_if; simpl; auto);
  first [ apply upd_entry_wf; eauto using allocated_bitmap with synx
        | apply gmem_wf_set_entry; eauto using allocated_bitmap with synx ].

Lemma set_waiting_core_wf idx id g :
  gmem_wf g -> allocated g idx -> gmem_wf (synx_global_set_waiting_core idx id g).2.
Proof. intros Hwf Ha. unfold synx_global_set_waiting_core. op_wf. Qed.

Lemma set_subscribed_core_wf idx id g :
  gmem_wf g -> allocated g idx -> gmem_wf (synx_global_set_subscribed_core idx id g).2.
Proof. intros Hwf Ha. unfold synx_global_set_subscribed_core. op_wf. Qed.

Lemma clear_subscribed_core_wf idx id g :
  gmem_wf g -> allocated g idx -> gmem_wf (synx_global_clear_subscribed_core idx id g).2.
Proof. intros Hwf Ha. unfold synx_global_clear_subscribed_core. op_wf. Qed.

Lemma get_waiting_cores_wf idx cores g :
  gmem_wf g -> allocated g idx -> gmem_wf (synx_global_get_waiting_cores idx cores g).2.
Proof. intros Hwf Ha. unfold synx_global_get_waiting_cores. op_wf. Qed.

Lemma test_status_set_wait_wf idx id g :
  gmem_wf g -> allocated g idx -> gmem_wf (synx_global_test_status_set_wait idx id g).2.
Proof. intros Hwf Ha. unfold synx_global_test_status_set_wait. op_wf. Qed.

Lemma get_ref_wf idx g :
  gmem_wf g -> allocated g idx -> gmem_wf (synx_global_get_ref idx g).2.
Proof. intros Hwf Ha. unfold synx_global_get_ref. op_wf. Qed.

Lemma init_coredata_wf h g :
  gmem_wf g -> allocated g (Z.land h SYNX_HANDLE_INDEX_MASK) ->
  gmem_wf (synx_global_init_coredata h g).2.
Proof. intros Hwf Ha. unfold synx_global_init_coredata. op_wf. Qed.

Lemma put_ref_wf idx g :
  gmem_wf g -> allocated g idx -> gmem_wf (synx_global_put_ref idx g).
Proof.
  intros Hwf Ha. unfold synx_global_put_ref. case_ifs; auto. unfold locked.
  destruct (synx_gmem_lock idx g) as [rc g1] eqn:Hl.
  destruct (lock_wf _ _ _ _ Hl Hwf) as (Hw1 & Hb1 & _).
  destruct (truthy rc); [done|].
  assert (Ha1 : allocated g1 idx) by eauto using allocated_bitmap.
  case_if.
  - assert (Hw2 : gmem_wf (set_entry idx zero_coredata g1)) by auto with synx.
    apply gmem_wf_release_bit; [apply Ha| |by apply gmem_wf_release].
    destruct Ha as [Hi _]. unfold client_idx in Hi.
    change (entry (release (set_entry idx zero_coredata g1)) idx = zero_coredata).
    rewrite entry_release, entry_set_eq; try done; try lia.
    rewrite (gw_table g1 Hw1). lia.
  - apply gmem_wf_release, gmem_wf_set_entry; auto with synx.
Qed.

End wf.

(** The memory after boot satisfies the invariant. *)
Lemma boot_ready : ready boot.
Proof. by split. Qed.

Lemma boot_wf : gmem_wf boot.
Proof.
  split.
  - split; [done|].
    change (Forall is_u32 (1 :: replicate 127 0)). repeat constructor;
      try apply Forall_replicate; unfold is_u32; lia.
  - done.
  - change (Forall entry_wf (replicate 4096 zero_coredata)).
    apply Forall_replicate, entry_wf_zero.
  - done.
  - intros i Hi _. change (entry boot i) with (znth zero_coredata (replicate 4096 zero_coredata) i).
    apply znth_replicate. unfold SYNX_GLOBAL_MAX_OBJS in Hi. lia.
Qed.
