(* ===== verification/SynxAlloc.v ===== *)
(** * Synx global table: index allocation and reference counts

    The allocator of [synx_global.c] under interference from the other cores,
    and the life of an entry: initialisation, references, release. *)

From S2P Require Import Prelude Bitmap SynxGlobal SynxEntry.

(** ** Definitions *)

(** Between a search and the test-and-set the other cores may only allocate:
    they set bits and never clear one. *)
Class OthersAllocate (E : SynxEnv) : Prop := {
  others_wf n bm : bm_wf SYNX_GLOBAL_MAX_OBJS bm -> bm_wf SYNX_GLOBAL_MAX_OBJS (other_cores n bm);
  others_set n bm i :
    bm_wf SYNX_GLOBAL_MAX_OBJS bm -> 0 <= i < SYNX_GLOBAL_MAX_OBJS -> bm_test bm i = true -> bm_test (other_cores n bm) i = true
}.

(** The other cores are idle. *)
Class OthersIdle (E : SynxEnv) : Prop := others_idle n bm : other_cores n bm = bm.

(** The number of indexes that are free. *)
Definition free_count (bm : list Z) : nat :=
  countb (fun i => negb (bm_test bm i)) (seqZ 0 SYNX_GLOBAL_MAX_OBJS).

(** The bitmap [bm] after what the other cores do in the first [n] rounds. *)
Fixpoint interfered `{SynxEnv} (n : nat) (bm : list Z) : list Z :=
  match n with
  | O => bm
  | S n => other_cores n (interfered n bm)
  end.

(** A core that steals index 1 in the first round and then rests. *)
Definition busy_env : SynxEnv := {|
  hwspin_lock_timeout_irqsave _ held := if held then -110 else 0;
  other_cores n bm := match n with O => (bm_test_and_set bm 1).2 | S _ => bm end;
  kzalloc_ok := true;
  synx_search := bit_search_ref
|}.

(** ** Allocation *)

#[export] Instance idle_allocate {E : SynxEnv} {I : OthersIdle E} : OthersAllocate E.
Proof. split; intros *; by rewrite others_idle. Qed.

#[export] Instance ref_env_idle : OthersIdle ref_env.
Proof. done. Qed.

#[export] Instance busy_env_allocate : OthersAllocate busy_env.
Proof.
  split; intros [|n] bm; simpl; try done.
  - intros. by apply bm_wf_set.
  - intros i Hw Hi Ht. change (bm_test (bm_test_and_set bm 1).2 i = true).
    rewrite (bm_test_set SYNX_GLOBAL_MAX_OBJS), Ht by (done || lia). apply orb_true_r.
Qed.

Section alloc.
Context `{E : SynxEnv} `{!BitSearchLaws synx_search} `{!OthersAllocate E}.

(** A bit that is taken already is taken in vain. *)
Lemma set_taken bm i : bm_wf SYNX_GLOBAL_MAX_OBJS bm -> 0 <= i < SYNX_GLOBAL_MAX_OBJS ->
  bm_test bm i = true -> (bm_test_and_set bm i).2 = bm.
Proof.
  intros Hw Hi Ht. unfold bm_test, bm_test_and_set in *. simpl.
  pose proof (Z.mod_pos_bound i 32 ltac:(lia)) as Hm.
  assert (Hu : is_u32 (znth 0 bm (i / 32))) by (apply znth_u32, Hw).
  set (w := znth 0 bm (i / 32)) in *.
  replace (u32 (Z.lor w (u32 (BIT (i mod 32))))) with w; [apply zupd_id|].
  apply Z.bits_inj'. intros k Hk. destruct (Z.lt_ge_cases k 32) as [Hlt|Hge].
  - rewrite testbit_u32, Z.lor_spec, testbit_u32, BIT_testbit by lia.
    destruct (Z.eqb_spec (i mod 32) k) as [<-|]; [by rewrite Ht|by rewrite orb_false_r].
  - unfold u32. rewrite Z.mod_pow2_bits_high by lia.
    rewrite <- (Z.mod_small w (2 ^ 32)) by exact Hu. by rewrite Z.mod_pow2_bits_high by lia.
Qed.

(** The loop in round [n] of an allocation that began with the bitmap [bm0]. *)
Lemma alloc_loop_spec fuel n g bm0 rc r g' :
  bm_wf SYNX_GLOBAL_MAX_OBJS (gm_bitmap g) -> gm_bitmap g = interfered n bm0 ->
  alloc_loop fuel n g = Some (rc, r, g') ->
  gm_table g' = gm_table g /\
  (forall i, 0 <= i < SYNX_GLOBAL_MAX_OBJS -> bm_test (gm_bitmap g) i = true ->
             bm_test (gm_bitmap g') i = true) /\
  exists m, match r with
  | Some idx =>
      rc = SYNX_SUCCESS /\ 0 <= idx < SYNX_GLOBAL_MAX_OBJS /\
      bm_test (gm_bitmap g) idx = false /\
      (forall j, 0 <= j < idx -> bm_test (interfered m bm0) j = true) /\
      bm_test (interfered (S m) bm0) idx = false /\
      forall j, 0 <= j < SYNX_GLOBAL_MAX_OBJS ->
        bm_test (gm_bitmap g') j = (j =? idx) || bm_test (interfered (S m) bm0) j
  | None =>
      rc = - SYNX_NOMEM /\ gm_bitmap g' = interfered m bm0 /\
      forall i, 0 <= i < SYNX_GLOBAL_MAX_OBJS -> bm_test (gm_bitmap g') i = true
  end.
Proof.
  revert n g. induction fuel as [|fuel IH]; intros n g Hb H0 H; cbn [alloc_loop] in H; [done|].
  set (index := find_first_zero_bit (gm_bitmap g) SYNX_GLOBAL_MAX_OBJS) in *.
  assert (Hr : 0 <= index <= SYNX_GLOBAL_MAX_OBJS) by (apply ffz_range; done).
  destruct (Z.geb_spec index SYNX_GLOBAL_MAX_OBJS) as [Hge|Hlt].
  { injection H as <- <- <-. split; [done|]. split; [auto|]. exists n. split; [done|]. split; [done|].
    intros i Hi. apply (ffz_first _ SYNX_GLOBAL_MAX_OBJS); fold index; lia. }
  assert (Hfree : bm_test (gm_bitmap g) index = false) by (apply ffz_clear; done || lia).
  pose proof (others_wf n _ Hb) as Hb1.
  set (bm := other_cores n (gm_bitmap g)) in *.
  assert (H1 : bm = interfered (S n) bm0) by (cbn [interfered]; by rewrite <- H0).
  destruct (bm_test_and_set bm index) as [prev bm'] eqn:Hts.
  assert (Hprev : truthy (Z.land prev (BIT (index mod 32))) = bm_test bm index)
    by (rewrite <- bm_test_and_set_prev by lia; by rewrite Hts).
  assert (Hbm' : bm' = (bm_test_and_set bm index).2) by (by rewrite Hts).
  assert (Hkeep : forall i, 0 <= i < SYNX_GLOBAL_MAX_OBJS ->
            bm_test (gm_bitmap g) i = true -> bm_test bm' i = true).
  { intros i Hi Ht. rewrite Hbm', (bm_test_set SYNX_GLOBAL_MAX_OBJS) by (auto; lia).
    subst bm. rewrite others_set by auto. apply orb_true_r. }
  unfold truthy in Hprev.
  destruct (Z.land prev (BIT (index mod 32)) =? 0) eqn:Hz; simpl in Hprev.
  - injection H as <- <- <-. simpl. split; [done|]. split; [done|]. exists n. cbn [interfered]. rewrite <- H0. fold bm.
    split_and!; [done|lia|lia|done| |done|].
    + intros j Hj. apply (ffz_first _ SYNX_GLOBAL_MAX_OBJS); fold index; lia.
    + intros j Hj. rewrite Hbm'. by apply (bm_test_set SYNX_GLOBAL_MAX_OBJS); try lia.
  - destruct (IH (S n) (with_bitmap bm' g)) as (Ht & Hm & m & Hres).
    { simpl. rewrite Hbm'. by apply bm_wf_set. }
    { simpl. rewrite Hbm', set_taken; try done; lia. }
    { exact H. }
    split; [done|]. split; [intros; auto|]. exists m. destruct r as [idx|]; [|done].
    destruct Hres as (-> & Hi & Hf & Hex). split_and!; [done|lia|lia| |apply Hex..].
    destruct (bm_test (gm_bitmap g) idx) eqn:Hc; [|done].
    simpl in Hf. rewrite Hkeep in Hf by done. done.
Qed.

(** One lost round: the bit the search had found is now taken. *)
Lemma free_count_decreases bm n index :
  bm_wf SYNX_GLOBAL_MAX_OBJS bm -> 0 <= index < SYNX_GLOBAL_MAX_OBJS ->
  bm_test bm index = false ->
  (free_count (bm_test_and_set (other_cores n bm) index).2 < free_count bm)%nat.
Proof.
  intros Hb Hi Hf. pose proof (others_wf n _ Hb) as Hb1. unfold free_count.
  apply (countb_lt _ _ _ index).
  - intros x Hx. apply elem_of_seqZ in Hx.
    rewrite (bm_test_set SYNX_GLOBAL_MAX_OBJS) by (auto; lia). intros Hn.
    destruct (bm_test bm x) eqn:Ht; [|done].
    rewrite (others_set n bm x), orb_true_r in Hn by (done || lia). done.
  - apply elem_of_seqZ. lia.
  - by rewrite Hf.
  - rewrite (bm_test_set SYNX_GLOBAL_MAX_OBJS) by (auto; lia). by rewrite Z.eqb_refl.
Qed.

Lemma alloc_loop_total fuel n g :
  bm_wf SYNX_GLOBAL_MAX_OBJS (gm_bitmap g) ->
  (free_count (gm_bitmap g) < fuel)%nat -> is_Some (alloc_loop fuel n g).
Proof.
  revert n g. induction fuel as [|fuel IH]; intros n g Hb Hf; [lia|]. cbn [alloc_loop].
  set (index := find_first_zero_bit (gm_bitmap g) SYNX_GLOBAL_MAX_OBJS).
  assert (Hr : 0 <= index <= SYNX_GLOBAL_MAX_OBJS) by (apply ffz_range; done).
  destruct (Z.geb_spec index SYNX_GLOBAL_MAX_OBJS) as [Hge|Hlt]; [by eexists|].
  assert (Hfree : bm_test (gm_bitmap g) index = false) by (apply ffz_clear; done || lia).
  pose proof (free_count_decreases (gm_bitmap g) n index Hb ltac:(lia) Hfree) as Hdec.
  pose proof (bm_wf_set _ _ index (others_wf n _ Hb)) as Hw.
  destruct (bm_test_and_set (other_cores n (gm_bitmap g)) index) as [prev bm'].
  simpl in Hdec, Hw. case_if; [by eexists|]. apply IH; simpl; [done|lia].
Qed.

End alloc.

(** C1: under any interference in which the other cores only allocate,
    [synx_global_alloc_index] terminates (4097 rounds are enough). The index that
    it returns in some round is a client index that was free at the start, that is
    the first free one of the bitmap which the round began with, and that is still
    free when the other cores are done in that round; the bitmap afterwards is the
    one they left with this bit added, so that nobody else has taken the index and
    bits that were set stay set. [-SYNX_NOMEM] means that every bit is set. *)
Theorem alloc_index_correct `{E : SynxEnv} `{!BitSearchLaws synx_search} `{!OthersAllocate E}
    (g : gmem) (Hwf : gmem_wf g) (Hm : gm_mapped g = true) :
  exists rc r g', synx_global_alloc_index 4097 g = Some (rc, r, g') /\
    gm_table g' = gm_table g /\
    (forall i, 0 <= i < SYNX_GLOBAL_MAX_OBJS -> bm_test (gm_bitmap g) i = true ->
               bm_test (gm_bitmap g') i = true) /\
    exists n, match r with
    | Some idx =>
        rc = SYNX_SUCCESS /\ client_idx idx /\ entry g' idx = zero_coredata /\
        allocated g' idx /\ bm_test (gm_bitmap g) idx = false /\
        (forall j, 0 <= j < idx -> bm_test (interfered n (gm_bitmap g)) j = true) /\
        bm_test (interfered (S n) (gm_bitmap g)) idx = false /\
        forall j, 0 <= j < SYNX_GLOBAL_MAX_OBJS ->
          bm_test (gm_bitmap g') j = (j =? idx) || bm_test (interfered (S n) (gm_bitmap g)) j
    | None =>
        rc = - SYNX_NOMEM /\ gm_bitmap g' = interfered n (gm_bitmap g) /\
        forall i, 0 <= i < SYNX_GLOBAL_MAX_OBJS -> bm_test (gm_bitmap g') i = true
    end.
Proof.
  unfold synx_global_alloc_index. rewrite Hm. cbn [negb].
  pose proof (gw_bitmap g Hwf) as Hb.
  destruct (alloc_loop_total 4097 0 g Hb) as [[[rc r] g'] Heq].
  { unfold free_count. pose proof (countb_length
      (fun i => negb (bm_test (gm_bitmap g) i)) (seqZ 0 SYNX_GLOBAL_MAX_OBJS)) as Hl.
    rewrite length_seqZ in Hl. unfold SYNX_GLOBAL_MAX_OBJS in *. lia. }
  rewrite Heq. exists rc, r, g'. split; [done|].
  destruct (alloc_loop_spec _ 0 _ (gm_bitmap g) _ _ _ Hb eq_refl Heq) as (Ht & Hk & n & Hres).
  split; [done|]. split; [done|]. exists n.
  destruct r as [idx|]; [|done]. destruct Hres as (-> & Hi & Hf & Hfirst & Hcl & Hset).
  assert (Hc : client_idx idx).
  { split; [|lia]. destruct (Z.eq_dec idx 0) as [->|]; [|lia].
    by rewrite (gw_reserved g Hwf) in Hf. }
  assert (He : entry g' idx = zero_coredata) by (unfold entry; rewrite Ht; by apply (gw_free g Hwf)).
  assert (Ha : allocated g' idx) by (split; [done|]; by rewrite Hset, Z.eqb_refl by lia).
  split; [done|]. split; [done|]. split; [done|]. split; [done|]. by split_and!.
Qed.

Lemma alloc_index_correct_witness :
  exists rc r g', @synx_global_alloc_index busy_env 4097 boot = Some (rc, r, g') /\
    (rc, r) = (SYNX_SUCCESS, Some 2) /\ gm_table g' = gm_table boot.
Proof.
  destruct (alloc_index_correct (E := busy_env) boot boot_wf eq_refl)
    as (rc & r & g' & Heq & Ht & _).
  exists rc, r, g'. split; [exact Heq|]. split; [|exact Ht].
  assert (Hc : option_map fst (@synx_global_alloc_index busy_env 4097 boot)
               = Some (SYNX_SUCCESS, Some 2)) by (vm_compute; reflexivity).
  rewrite Heq in Hc. simpl in Hc. congruence.
Defined.

(** ** Reference counts *)

Section refs.
Context `{E : SynxEnv} `{!LockGranted E}.

Lemma valid_client idx : client_idx idx -> synx_is_valid_idx idx = true.
Proof. intros H. unfold synx_is_valid_idx, client_idx in *. lia. Qed.

Lemma get_ref_granted idx g :
  ready g -> client_idx idx ->
  synx_global_get_ref idx g =
    (let o := entry g idx in
     if truthy (handle o) && truthy (refcount o)
     then (0, release (set_entry idx (set_refcount (refcount o + 1) o) (acquire g)))
     else (- SYNX_NOENT, release (acquire g))).
Proof.
  intros Hr Hi. unfold synx_global_get_ref.
  rewrite (rd_mapped g Hr), valid_client by done. cbn [negb].
  rewrite locked_granted by done. rewrite entry_acquire by (unfold client_idx in Hi; lia).
  by destruct (truthy (handle (entry g idx)) && truthy (refcount (entry g idx))).
Qed.

Lemma put_ref_granted idx g :
  ready g -> client_idx idx ->
  synx_global_put_ref idx g =
    (let o := set_refcount (refcount (entry g idx) - 1) (entry g idx) in
     if refcount o =? 0
     then release_bit true idx (release (set_entry idx zero_coredata (acquire g)))
     else release (set_entry idx o (acquire g))).
Proof.
  intros Hr Hi. unfold synx_global_put_ref.
  rewrite (rd_mapped g Hr), valid_client by done. cbn [negb].
  rewrite locked_granted by done. rewrite entry_acquire by (unfold client_idx in Hi; lia).
  by destruct (refcount (set_refcount (refcount (entry g idx) - 1) (entry g idx)) =? 0).
Qed.

(** A section that writes one client entry. *)
Lemma write_entry_spec idx o g :
  ready g -> client_idx idx ->
  let g' := release (set_entry idx o (acquire g)) in
  ready g' /\ gm_bitmap g' = gm_bitmap g /\ gm_trace g' = gm_trace g /\
  entry g' idx = o /\ (forall i, i <> 0 -> i <> idx -> entry g' i = entry g i).
Proof.
  intros Hr Hi g'. unfold client_idx in Hi. pose proof (rd_table g Hr) as Hl.
  assert (Hla : zlen (gm_table (acquire g)) = SYNX_GLOBAL_MAX_OBJS)
    by (by rewrite table_len_acquire).
  split; [|split; [done|split; [done|split]]].
  - apply ready_release; try apply Hr. by rewrite table_len_set.
  - unfold g'. rewrite entry_release, entry_set_eq by lia. done.
  - intros i H0 Hne. unfold g'.
    rewrite entry_release, entry_set_ne, entry_acquire by auto. done.
Qed.

End refs.

(** Taking and dropping a reference on a live entry is a round trip: the
    shared memory is as before, up to the lock-owner word. *)
Theorem get_put_ref_roundtrip `{E : SynxEnv} `{!LockGranted E} (g : gmem) (idx : Z)
    (Hr : ready g) (Hi : client_idx idx) (Hh : handle (entry g idx) <> 0)
    (Hc : 0 < refcount (entry g idx) < 65535) :
  exists g1, synx_global_get_ref idx g = (SYNX_SUCCESS, g1) /\
    refcount (entry g1 idx) = refcount (entry g idx) + 1 /\
    gm_equiv (synx_global_put_ref idx g1) g.
Proof.
  rewrite get_ref_granted by done. cbn zeta.
  assert (Hlive : truthy (handle (entry g idx)) && truthy (refcount (entry g idx)) = true)
    by (unfold truthy; lia).
  rewrite Hlive. set (o := entry g idx) in *.
  destruct (write_entry_spec idx (set_refcount (refcount o + 1) o) g Hr Hi)
    as (Hr1 & Hb1 & Ht1 & He1 & Hf1).
  eexists. split; [reflexivity|].
  set (g1 := release (set_entry idx (set_refcount (refcount o + 1) o) (acquire g))) in *.
  rewrite He1. simpl. rewrite u16_small by lia. split; [done|].
  rewrite put_ref_granted by done. rewrite He1. simpl.
  rewrite !u16_small by (rewrite ?u16_small; lia).
  replace (refcount o + 1 - 1) with (refcount o) by lia.
  destruct (Z.eqb_spec (refcount o) 0); [lia|].
  destruct (write_entry_spec idx (set_refcount (refcount o)
     (set_refcount (refcount o + 1) o)) g1 Hr1 Hi) as (Hr2 & Hb2 & Ht2 & He2 & Hf2).
  split; try congruence.
  - rewrite (rd_mapped _ Hr). apply Hr2.
  - rewrite (rd_hwlock _ Hr). apply Hr2.
  - rewrite (rd_held _ Hr). apply Hr2.
  - rewrite (rd_table _ Hr). apply Hr2.
  - intros i H0. destruct (Z.eq_dec i idx) as [->|Hne].
    + rewrite entry_release, entry_set_eq by
        (rewrite ?table_len_acquire, ?(rd_table _ Hr1); unfold client_idx in *; lia).
      unfold set_refcount; simpl. rewrite u16_small by lia. subst o. by destruct (entry g idx).
    + transitivity (entry g1 i); [|by apply Hf1].
      rewrite entry_release, entry_set_ne, entry_acquire by auto. done.
Qed.

(** A booted memory with one live object at index 1. *)
Definition boot_obj : gmem :=
  (@synx_global_init_coredata ref_env 1 (with_bitmap (bm_test_and_set (gm_bitmap boot) 1).2 boot)).2.

Lemma boot_obj_ready : ready boot_obj.
Proof. split; vm_compute; reflexivity. Qed.

Lemma get_put_ref_roundtrip_witness :
  0 < refcount (entry boot_obj 1) < 65535 /\
  exists g1, @synx_global_get_ref ref_env 1 boot_obj = (SYNX_SUCCESS, g1) /\
    refcount (entry g1 1) = refcount (entry boot_obj 1) + 1 /\
    gm_equiv (@synx_global_put_ref ref_env 1 g1) boot_obj.
Proof.
  assert (Hrc : refcount (entry boot_obj 1) = 1) by (vm_compute; reflexivity).
  split; [rewrite Hrc; lia|].
  apply (get_put_ref_roundtrip boot_obj 1 boot_obj_ready); [done| |rewrite Hrc; lia].
  vm_compute. discriminate.
Defined.

Section lifecycle.
Context `{E : SynxEnv} `{!LockGranted E}.

(** The entry that [synx_global_init_coredata] writes. *)
Definition fresh_coredata (h : Z) : coredata :=
  mk_coredata SYNX_STATE_ACTIVE (u32 h) 1 0 (BIT SYNX_CORE_APSS) 0
    (replicate SYNX_GLOBAL_MAX_PARENTS 0).

Lemma init_granted h g :
  ready g -> client_idx (Z.land h SYNX_HANDLE_INDEX_MASK) ->
  entry g (Z.land h SYNX_HANDLE_INDEX_MASK) = zero_coredata ->
  synx_global_init_coredata h g =
    (SYNX_SUCCESS,
     release (set_entry (Z.land h SYNX_HANDLE_INDEX_MASK) (fresh_coredata h) (acquire g))).
Proof.
  intros Hr Hi Hz. unfold synx_global_init_coredata. cbv zeta.
  rewrite (rd_mapped g Hr), valid_client by done. cbn [negb].
  rewrite locked_granted, entry_acquire, Hz by (done || (unfold client_idx in Hi; lia)). done.
Qed.

Lemma init_refused h g :
  ready g -> client_idx (Z.land h SYNX_HANDLE_INDEX_MASK) ->
  status (entry g (Z.land h SYNX_HANDLE_INDEX_MASK)) <> 0 ->
  synx_global_init_coredata h g = (- SYNX_INVALID, release (acquire g)).
Proof.
  intros Hr Hi Hs. unfold synx_global_init_coredata. cbv zeta.
  rewrite (rd_mapped g Hr), valid_client by done. cbn [negb].
  rewrite locked_granted, entry_acquire by (done || (unfold client_idx in Hi; lia)).
  destruct (Z.eqb_spec (status (entry g (Z.land h SYNX_HANDLE_INDEX_MASK))) 0); done.
Qed.

Lemma get_status_granted idx g :
  ready g -> client_idx idx ->
  synx_global_get_status idx g =
    (let o := entry g idx in
     if negb (status o =? SYNX_STATE_ACTIVE) && (num_child o =? 0) then status o
     else SYNX_STATE_ACTIVE, release (acquire g)).
Proof.
  intros Hr Hi. unfold synx_global_get_status.
  rewrite (rd_mapped g Hr), valid_client by done. cbn [negb].
  rewrite locked_granted, entry_acquire by (done || (unfold client_idx in Hi; lia)). done.
Qed.

End lifecycle.

(** The life of an object. Initialising a handle whose index was just
    allocated succeeds; the object is then active with one reference owned by
    the application core; initialising the index again is refused and changes
    nothing; dropping the only reference zeroes the entry and frees the index,
    and every other entry and bit is as before. *)
Theorem object_lifecycle `{E : SynxEnv} `{!LockGranted E} (g : gmem) (h : Z)
    (Hr : ready g) (Hwf : gmem_wf g)
    (Hi : client_idx (Z.land h SYNX_HANDLE_INDEX_MASK))
    (Hz : entry g (Z.land h SYNX_HANDLE_INDEX_MASK) = zero_coredata) :
  let idx := Z.land h SYNX_HANDLE_INDEX_MASK in
  exists g1, synx_global_init_coredata h g = (SYNX_SUCCESS, g1) /\
    entry g1 idx = fresh_coredata h /\
    (synx_global_get_status idx g1).1 = SYNX_STATE_ACTIVE /\
    (synx_global_init_coredata h g1).1 = - SYNX_INVALID /\
    gm_equiv (synx_global_init_coredata h g1).2 g1 /\
    (let g2 := synx_global_put_ref idx g1 in
     entry g2 idx = zero_coredata /\ bm_test (gm_bitmap g2) idx = false /\
     forall i, i <> 0 -> i <> idx -> 0 <= i ->
       entry g2 i = entry g i /\ bm_test (gm_bitmap g2) i = bm_test (gm_bitmap g) i).
Proof.
  intros idx. fold idx in Hi, Hz. pose proof Hi as Hi'. unfold client_idx in Hi'.
  rewrite init_granted by done. eexists. split; [reflexivity|].
  destruct (write_entry_spec idx (fresh_coredata h) g Hr Hi) as (Hr1 & Hb1 & _ & He1 & Hf1).
  fold idx. set (g1 := release (set_entry idx (fresh_coredata h) (acquire g))) in *.
  split; [done|]. split; [by rewrite get_status_granted, He1|].
  rewrite init_refused by (fold idx; by rewrite ?He1).
  split; [done|]. split; [by apply read_only_equiv|].
  assert (Hput : synx_global_put_ref idx g1 =
    release_bit true idx (release (set_entry idx zero_coredata (acquire g1))))
    by (rewrite put_ref_granted, He1 by done; done).
  rewrite Hput. cbv zeta. rewrite bitmap_release_bit.
  destruct (write_entry_spec idx zero_coredata g1 Hr1 Hi) as (_ & Hb2 & _ & He2 & Hf2).
  set (g2 := release (set_entry idx zero_coredata (acquire g1))) in *.
  change (entry (release_bit true idx g2)) with (entry g2).
  rewrite Hb2, Hb1. pose proof (gw_bitmap g Hwf) as Hb.
  split; [done|]. split.
  - rewrite (bm_test_clear SYNX_GLOBAL_MAX_OBJS) by (done || lia). by rewrite Z.eqb_refl.
  - intros i H0 Hne Hp. rewrite Hf2, Hf1 by done. split; [done|].
    rewrite (bm_test_clear SYNX_GLOBAL_MAX_OBJS) by (done || lia).
    by destruct (Z.eqb_spec i idx).
Qed.

Lemma object_lifecycle_witness :
  client_idx (Z.land 0x30007 SYNX_HANDLE_INDEX_MASK) /\
  exists g1, @synx_global_init_coredata ref_env 0x30007 boot = (SYNX_SUCCESS, g1) /\
    handle (entry g1 7) = 0x30007.
Proof.
  assert (Hi : client_idx (Z.land 0x30007 SYNX_HANDLE_INDEX_MASK)) by (split; vm_compute; done).
  split; [exact Hi|].
  destruct (object_lifecycle (E := ref_env) boot 0x30007 boot_ready boot_wf Hi
    ltac:(vm_compute; reflexivity)) as (g1 & Heq & He & _).
  exists g1. split; [exact Heq|].
  change 7 with (Z.land 0x30007 SYNX_HANDLE_INDEX_MASK). rewrite He. reflexivity.
Defined.

(** Setting a bit, as an allocation does, keeps the memory well-formed. *)
Lemma gmem_wf_set_bit g i :
  client_idx i -> gmem_wf g -> gmem_wf (with_bitmap (bm_test_and_set (gm_bitmap g) i).2 g).
Proof.
  intros Hi [Hb ? ? Hr Hf]. unfold client_idx in Hi.
  assert (Hset : forall j, 0 <= j -> bm_test (bm_test_and_set (gm_bitmap g) i).2 j
     = (j =? i) || bm_test (gm_bitmap g) j)
    by (intros; apply (bm_test_set SYNX_GLOBAL_MAX_OBJS); auto; lia).
  split; auto.
  - by apply bm_wf_set.
  - change (bm_test (bm_test_and_set (gm_bitmap g) i).2 0 = true).
    rewrite Hset, Hr by lia. apply orb_true_r.
  - intros j Hj Hc. change (bm_test (bm_test_and_set (gm_bitmap g) i).2 j = false) in Hc.
    rewrite Hset in Hc by lia. apply orb_false_elim in Hc as [_ Hc]. by apply Hf.
Qed.

Lemma boot_obj_wf : gmem_wf boot_obj.
Proof.
  apply init_coredata_wf.
  - apply gmem_wf_set_bit; [split; vm_compute; done|apply boot_wf].
  - split; [split; vm_compute; done|vm_compute; reflexivity].
Qed.
