(* ===== verification/SynxSignal.v ===== *)
(** * Synx global table: signalling

    The correctness of [synx_global_update_status] and of its recursion over
    the composite parents: termination, the child-count invariant that makes a
    composite signal exactly when its last constituent does, the aggregation of
    the statuses, and the notification of the waiting cores. *)

From S2P Require Import Prelude Bitmap SynxGlobal SynxEntry SynxAlloc.

(** ** Definitions *)

(** An object that still expects a signal. *)
Definition pending (o : coredata) : bool :=
  (status o =? SYNX_STATE_ACTIVE) || negb (num_child o =? 0).

(** The number of parent slots with which [o] holds [p] back. *)
Definition holds_back (p : Z) (o : coredata) : Z :=
  if pending o then occurs p (parents o) else 0.

(** The child-count invariant, with a list [W] of notifications under way:
    [num_child] of every composite is the number of slots of pending objects
    that name it, plus the notifications it has yet to receive. *)
Definition child_count (W : list Z) (g : gmem) : Prop :=
  forall p, client_idx p ->
    num_child (entry g p) = zsum (holds_back p) (gm_table g) + occurs p W.

(** The notifications that the whole table may still produce. *)
Definition work (g : gmem) : Z := zsum num_child (gm_table g).

(** A status a signaller may use: not [ACTIVE], and an u32. *)
Definition signal_status (st : Z) : Prop := SYNX_STATE_ACTIVE < st < 2 ^ 32.

Definition is_error_status (st : Z) : bool :=
  (st >? SYNX_STATE_SIGNALED_SUCCESS) && (st <=? SYNX_STATE_SIGNALED_MAX).

(** The status of a composite in state [s] after a notification with [st]. *)
Definition merge_status (s st : Z) : Z :=
  if (s =? SYNX_STATE_ACTIVE) || is_error_status st then u32 st else s.

(** The state of an entry written under the lock. *)
Definition write_entry (idx : Z) (o : coredata) (g : gmem) : gmem :=
  release (set_entry idx o (acquire g)).

(** The references of an entry back its subscribers and, while it expects
    children, its constituents. *)
Definition core_count (m : Z) : Z := Z.of_nat (countb (Z.testbit m) (seqZ 0 SYNX_CORE_MAX)).
Definition ref_backed (o : coredata) : Prop :=
  core_count (subscribers o) + (if num_child o =? 0 then 0 else 1) <= refcount o.

(** No subscriber is added, and references stay backed. *)
Definition entry_shrinks (o o' : coredata) : Prop :=
  (forall c, Z.testbit (subscribers o') c = true -> Z.testbit (subscribers o) c = true) /\
  (ref_backed o -> ref_backed o').

(** Neither subscribers nor indexes are added, and an index whose last
    reference is dropped is released. *)
Record shrinks (g g' : gmem) : Prop := mk_shrinks {
  sh_entry i : i <> 0 -> entry_shrinks (entry g i) (entry g' i);
  sh_bits i : 0 <= i < SYNX_GLOBAL_MAX_OBJS ->
    bm_test (gm_bitmap g') i = true -> bm_test (gm_bitmap g) i = true;
  sh_live i : client_idx i -> bm_test (gm_bitmap g') i = true ->
    refcount (entry g i) <> 0 -> refcount (entry g' i) <> 0
}.

(** What signalling may change: entries that expect no notification are
    untouched, and messages are only added. *)
Record signal_frame (g g' : gmem) : Prop := mk_signal_frame {
  sf_entry i : i <> 0 -> num_child (entry g i) = 0 -> entry g' i = entry g i;
  sf_trace : gm_trace g `prefix_of` gm_trace g';
  sf_shrinks : shrinks g g'
}.

(** The messages that carry [data] to the waiting cores. *)
Definition notify_events (st data : Z) (cores : list bool) : list synx_event :=
  if data =? 0 then [] else
  let first := if st =? SYNX_STATE_SIGNALED_SSR then 0 else 1 in
  flat_map (fun i => if (first <=? i) && znth false cores i
                     then [MsgSend (synx_global_map_core_id i) data] else [])
    (seqZ 0 SYNX_CORE_MAX).

(** ** One notification *)

Lemma parents_locked_eq o :
  length (parents o) = SYNX_GLOBAL_MAX_PARENTS -> synx_global_get_parents_locked o = parents o.
Proof.
  unfold synx_global_get_parents_locked, SYNX_GLOBAL_MAX_PARENTS.
  destruct (parents o) as [|a [|b [|c [|d [|]]]]]; done.
Qed.

Lemma signal_entry_leaf st o :
  num_child o = 0 ->
  signal_entry st o =
    (set_waiters 0 (set_status st o), Z.lor (u64 (Z.shiftl (handle o) 32)) (u32 st),
     mark_cores (waiters o) (replicate (Z.to_nat SYNX_CORE_MAX) false),
     synx_global_get_parents_locked o, false).
Proof. intros H. unfold signal_entry. rewrite H. done. Qed.

Lemma set_status_merge st o :
  entry_wf o ->
  (if (status o =? SYNX_STATE_ACTIVE) ||
      ((st >? SYNX_STATE_SIGNALED_SUCCESS) && (st <=? SYNX_STATE_SIGNALED_MAX))
   then set_status st o else o) = set_status (merge_status (status o) st) o.
Proof.
  intros Hw. unfold merge_status, is_error_status. destruct (_ || _).
  - unfold set_status. f_equal. rewrite (u32_small (u32 st)); [done|apply u32_range].
  - unfold set_status. rewrite u32_small by apply Hw. by destruct o.
Qed.

Lemma signal_entry_composite st o :
  entry_wf o -> num_child o <> 0 ->
  let o1 := set_status (merge_status (status o) st) (set_num_child (num_child o - 1) o) in
  signal_entry st o =
    (if num_child o =? 1 then
       let o2 := set_refcount (refcount o - 1) (set_waiters 0 o1) in
       (if u16 (refcount o - 1) =? 0 then zero_coredata else o2,
        Z.lor (u64 (Z.shiftl (handle o) 32)) (u32 (merge_status (status o) st)),
        mark_cores (waiters o) (replicate (Z.to_nat SYNX_CORE_MAX) false),
        synx_global_get_parents_locked o, u16 (refcount o - 1) =? 0)
     else (o1, 0, replicate (Z.to_nat SYNX_CORE_MAX) false,
           replicate SYNX_GLOBAL_MAX_PARENTS 0, false)).
Proof.
  intros Hw Hn. pose proof (ew_num_child o Hw) as Hr. unfold is_u16 in Hr.
  unfold signal_entry. destruct (Z.eqb_spec (num_child o) 0) as [|_]; [done|]. cbn [negb].
  pose proof (set_status_merge st (set_num_child (num_child o - 1) o)
    (entry_wf_num_child _ _ Hw)) as Hs. cbn [status set_num_child] in Hs. cbn zeta.
  cbn [status set_num_child]. rewrite Hs. cbn [num_child set_status set_num_child].
  rewrite u16_small by lia.
  destruct (Z.eqb_spec (num_child o) 1) as [H1|H1].
  - rewrite H1. cbn. by destruct (u16 (refcount o - 1) =? 0).
  - destruct (Z.eqb_spec (num_child o - 1) 0); [lia|]. done.
Qed.

#[export] Instance entry_shrinks_preorder : PreOrder entry_shrinks.
Proof.
  split; [by split|]. intros o1 o2 o3 [Hs1 Hr1] [Hs2 Hr2]. split; auto.
Qed.

#[export] Instance shrinks_preorder : PreOrder shrinks.
Proof.
  split; [by split|]. intros g1 g2 g3 [He1 Hb1 Hl1] [He2 Hb2 Hl2]. split.
  - intros i Hi. etrans; eauto.
  - eauto.
  - intros i Hi Hb Hr. assert (client_idx i) as Hc by done. unfold client_idx in Hc.
    apply Hl2; auto. apply Hl1; auto. apply Hb2; auto; lia.
Qed.

Lemma ref_backed_zero : ref_backed zero_coredata.
Proof. by vm_compute. Qed.

Lemma zero_shrinks o : entry_shrinks o zero_coredata.
Proof.
  split; [|intros; apply ref_backed_zero]. intros c H. simpl in H. by rewrite Z.bits_0 in H.
Qed.

Lemma core_count_nonneg x : 0 <= core_count x.
Proof. unfold core_count. lia. Qed.

Lemma signal_entry_shrinks st o :
  entry_wf o ->
  let '(o', _, _, _, clear) := signal_entry st o in
  entry_shrinks o o' /\ (clear = true -> o' = zero_coredata) /\
  (clear = false -> refcount o <> 0 -> refcount o' <> 0).
Proof.
  intros Hw. pose proof (ew_num_child o Hw) as Hn. pose proof (ew_refcount o Hw) as Hr.
  pose proof (core_count_nonneg (subscribers o)) as Hcc. unfold is_u16 in *.
  destruct (Z.eqb_spec (num_child o) 0) as [Hz|Hz].
  { rewrite signal_entry_leaf by done. by repeat split. }
  rewrite signal_entry_composite by done. cbv zeta.
  destruct (Z.eqb_spec (num_child o) 1) as [H1|H1].
  - destruct (Z.eqb_spec (u16 (refcount o - 1)) 0) as [Hu|Hu].
    + split; [apply zero_shrinks|done].
    + split; [|done]. split; [done|]. unfold ref_backed. simpl. rewrite H1.
      intros Hb. change (u16 (1 - 1) =? 0) with true. rewrite u16_small; simpl in *; lia.
  - split; [|done]. split; [done|]. unfold ref_backed. simpl. rewrite u16_small by lia.
    destruct (Z.eqb_spec (num_child o) 0), (Z.eqb_spec (num_child o - 1) 0); lia.
Qed.

Lemma merge_status_signalled s st :
  signal_status st -> is_u32 s -> merge_status s st <> SYNX_STATE_ACTIVE.
Proof.
  unfold signal_status, merge_status, SYNX_STATE_ACTIVE. intros Hs Hu.
  rewrite u32_small by lia. destruct (Z.eqb_spec s 1); simpl; [lia|].
  destruct (is_error_status st); lia.
Qed.

(** ** Sums over the table *)

Lemma write_entry_sum (f : coredata -> Z) idx o g :
  (forall v o, f (set_subscribers v o) = f o) ->
  ready g -> client_idx idx ->
  zsum f (gm_table (write_entry idx o g)) = zsum f (gm_table g) - f (entry g idx) + f o.
Proof.
  intros Hf Hr Hi. unfold client_idx in Hi. pose proof (rd_table g Hr) as Hl.
  assert (H0 : forall v g0, zlen (gm_table g0) = SYNX_GLOBAL_MAX_OBJS ->
     zsum f (zupd (gm_table g0) 0 (set_subscribers v (entry g0 0))) = zsum f (gm_table g0)).
  { intros v g0 Hg0. rewrite (zsum_zupd f zero_coredata), Hf by lia. unfold entry. lia. }
  unfold write_entry, release.
  change (zsum f (zupd (gm_table (set_entry idx o (acquire g))) 0
     (set_subscribers SYNX_CORE_MAX (entry (set_entry idx o (acquire g)) 0))) =
     zsum f (gm_table g) - f (entry g idx) + f o).
  rewrite H0 by (by rewrite table_len_set, table_len_acquire).
  cbn [gm_table set_entry with_table].
  rewrite (zsum_zupd f zero_coredata) by (rewrite table_len_acquire; lia).
  fold (entry (acquire g) idx). rewrite entry_acquire by lia.
  change (gm_table (acquire g)) with (zupd (gm_table g) 0
    (set_subscribers SYNX_CORE_APSS (entry g 0))).
  rewrite H0 by done. done.
Qed.

Lemma holds_back_subscribers p v o : holds_back p (set_subscribers v o) = holds_back p o.
Proof. done. Qed.

Lemma holds_back_nonneg p o : 0 <= holds_back p o.
Proof. unfold holds_back. destruct (pending o); [apply occurs_nonneg|lia]. Qed.

(** ** The messages and the bit *)

Lemma notify_cores_spec st data cores g :
  notify_cores st data cores g =
    mk_gmem (gm_mapped g) (gm_bitmap g) (gm_table g) (gm_hwlock g) (gm_held g) (gm_tries g)
      (gm_trace g ++ notify_events st data cores).
Proof.
  unfold notify_cores, notify_events. destruct (data =? 0).
  { rewrite app_nil_r. by destruct g. }
  generalize (seqZ 0 SYNX_CORE_MAX). intros l. revert g.
  induction l as [|i l IH]; intros g; simpl.
  { rewrite app_nil_r. by destruct g. }
  destruct (_ && _); [|apply IH]. rewrite IH. simpl. by rewrite <- app_assoc.
Qed.

(** Every waiting core (other than this one, unless for an SSR) is sent the data. *)
Lemma notify_events_send st data cores c :
  data <> 0 -> 0 <= c < SYNX_CORE_MAX -> znth false cores c = true ->
  (c <> 0 \/ st = SYNX_STATE_SIGNALED_SSR) ->
  MsgSend (synx_global_map_core_id c) data ∈ notify_events st data cores.
Proof.
  intros Hd Hc Hz Hs. unfold notify_events. destruct (Z.eqb_spec data 0); [done|].
  apply list_elem_of_In, in_flat_map. exists c. split.
  - apply list_elem_of_In, elem_of_seqZ. lia.
  - rewrite Hz, andb_true_r.
    assert (Hb : ((if st =? SYNX_STATE_SIGNALED_SSR then 0 else 1) <=? c) = true).
    { destruct Hs as [Hs| ->]; [|rewrite Z.eqb_refl; lia].
      destruct (st =? SYNX_STATE_SIGNALED_SSR); lia. }
    rewrite Hb. by left.
Qed.

Lemma mark_cores_spec mask c :
  0 <= c < SYNX_CORE_MAX ->
  znth false (mark_cores mask (replicate (Z.to_nat SYNX_CORE_MAX) false)) c = Z.testbit mask c.
Proof.
  intros Hc. unfold SYNX_CORE_MAX in Hc. unfold znth.
  destruct (Z.ltb_spec c 0); [lia|]. unfold mark_cores. rewrite list_lookup_imap.
  rewrite lookup_replicate_2 by (unfold SYNX_CORE_MAX; lia). simpl.
  rewrite Z2Nat.id, land_BIT_testbit by lia.
  destruct (Z.ltb_spec c SYNX_CORE_MAX); [|unfold SYNX_CORE_MAX in *; lia]. simpl.
  by destruct (Z.testbit mask c).
Qed.

(** What follows the unlock of one notification, up to the parents. *)
Definition after_unlock (clear : bool) (idx st data : Z) (cores : list bool) (g : gmem) : gmem :=
  notify_cores st data cores (release_bit clear idx g).

Lemma after_unlock_entry clear idx st data cores g i :
  entry (after_unlock clear idx st data cores g) i = entry g i.
Proof.
  unfold after_unlock.
  rewrite notify_cores_spec.
  by destruct clear.
Qed.

Lemma after_unlock_table clear idx st data cores g :
  gm_table (after_unlock clear idx st data cores g) = gm_table g.
Proof.
  unfold after_unlock.
  rewrite notify_cores_spec.
  by destruct clear.
Qed.

Lemma after_unlock_ready clear idx st data cores g :
  ready g -> ready (after_unlock clear idx st data cores g).
Proof.
  intros []. unfold after_unlock.
  rewrite notify_cores_spec.
  by destruct clear; split.
Qed.

Lemma after_unlock_trace clear idx st data cores g :
  gm_trace (after_unlock clear idx st data cores g) = gm_trace g ++ notify_events st data cores.
Proof. unfold after_unlock. rewrite notify_cores_spec. by destruct clear. Qed.

Lemma after_unlock_wf clear idx st data cores g :
  client_idx idx -> (clear = true -> entry g idx = zero_coredata) ->
  gmem_wf g -> gmem_wf (after_unlock clear idx st data cores g).
Proof.
  intros Hi Hz Hwf. unfold after_unlock.
  assert (Hwf' : gmem_wf (release_bit clear idx g))
    by (destruct clear; [apply gmem_wf_release_bit; auto|done]).
  rewrite notify_cores_spec.
  destruct Hwf'. by split.
Qed.

Section core.
Context `{E : SynxEnv} `{!LockGranted E}.

(** One round of the recursion when the lock is granted. *)
Lemma core_unfold fuel idx st g :
  ready g -> client_idx idx ->
  synx_global_update_status_core (S fuel) idx st g =
    (let '(o, data, cores, ps, clear) := signal_entry st (entry g idx) in
     let g := after_unlock clear idx st data cores (write_entry idx o g) in
     match notify_parents (fun p g => synx_global_update_status_core fuel p st g) ps g with
     | Some g => Some (SYNX_SUCCESS, g)
     | None => None
     end).
Proof.
  intros Hr Hi. cbn [synx_global_update_status_core].
  rewrite lock_granted_eq by done. cbn [truthy negb Z.eqb].
  rewrite entry_acquire by (unfold client_idx in Hi; lia). done.
Qed.

(** The writes of one notification keep the shared memory well-formed. *)
Lemma write_entry_wf idx o g :
  allocated g idx -> entry_wf o -> gmem_wf g -> gmem_wf (write_entry idx o g).
Proof.
  intros Ha Ho Hwf. apply gmem_wf_release, gmem_wf_set_entry; auto using gmem_wf_acquire.
Qed.

Lemma nonzero_allocated g idx :
  gmem_wf g -> client_idx idx -> entry g idx <> zero_coredata -> allocated g idx.
Proof.
  intros Hwf Hi Hn. split; [done|].
  destruct (bm_test (gm_bitmap g) idx) eqn:Hb; [done|].
  exfalso. apply Hn. by apply (gw_free g Hwf).
Qed.

Lemma child_count_entry W idx o g :
  ready g -> client_idx idx ->
  (forall p, client_idx p ->
     num_child (if p =? idx then o else entry g p) =
     zsum (holds_back p) (gm_table g) - holds_back p (entry g idx) + holds_back p o + occurs p W) ->
  child_count W (write_entry idx o g).
Proof.
  intros Hr Hi H p Hp. rewrite write_entry_sum by (auto using holds_back_subscribers).
  rewrite <- H by done. unfold write_entry.
  pose proof (write_entry_spec idx o g Hr Hi) as (_ & _ & _ & He & Hf).
  destruct (Z.eqb_spec p idx) as [->|Hne]; [by rewrite He|].
  unfold client_idx in Hp. rewrite Hf by (done || lia). done.
Qed.

Lemma child_count_after clear idx st data cores W g :
  child_count W g -> child_count W (after_unlock clear idx st data cores g).
Proof.
  intros H p Hp. rewrite after_unlock_entry, after_unlock_table. by apply H.
Qed.

(** What a notification achieves. *)
Record signal_ok (W : list Z) (g g' : gmem) : Prop := mk_signal_ok {
  so_ready : ready g';
  so_wf : gmem_wf g';
  so_count : child_count W g';
  so_frame : signal_frame g g';
  so_work : work g' <= work g
}.

Lemma signal_frame_trans g1 g2 g3 :
  signal_frame g1 g2 -> signal_frame g2 g3 -> signal_frame g1 g3.
Proof.
  intros [He1 Ht1 Hs1] [He2 Ht2 Hs2]. split; [|by etrans|by etrans].
  intros i H0 Hn. rewrite He2 by (rewrite ?He1; auto). auto.
Qed.

Lemma signal_ok_trans W1 W2 g1 g2 g3 :
  signal_ok W1 g1 g2 -> signal_ok W2 g2 g3 -> signal_ok W2 g1 g3.
Proof. intros [] []. split; auto; [by eapply signal_frame_trans|lia]. Qed.

Lemma work_nonneg g : gmem_wf g -> 0 <= work g.
Proof.
  intros Hwf. apply zsum_nonneg. intros o Ho.
  pose proof (proj1 (list.Forall_forall _ _) (gw_entries g Hwf) o Ho) as Hw.
  apply (ew_num_child o Hw).
Qed.

Lemma after_unlock_shrinks idx o st data cores clear g :
  ready g -> gmem_wf g -> client_idx idx -> entry_shrinks (entry g idx) o ->
  (clear = false -> refcount (entry g idx) <> 0 -> refcount o <> 0) ->
  shrinks g (after_unlock clear idx st data cores (write_entry idx o g)).
Proof.
  intros Hr Hwf Hi Hs Hl.
  pose proof (write_entry_spec idx o g Hr Hi) as (_ & Hb1 & _ & He1 & Hf1).
  fold (write_entry idx o g) in *.
  assert (Hbit : forall i, 0 <= i < SYNX_GLOBAL_MAX_OBJS ->
    bm_test (gm_bitmap (after_unlock clear idx st data cores (write_entry idx o g))) i =
    bm_test (gm_bitmap g) i && negb (clear && (i =? idx))).
  { intros i Hi'. unfold after_unlock. rewrite notify_cores_spec. cbn [gm_bitmap].
    destruct clear; [|by rewrite andb_true_r]. rewrite bitmap_release_bit, Hb1.
    unfold client_idx in Hi. rewrite (bm_test_clear SYNX_GLOBAL_MAX_OBJS) by (apply Hwf || lia).
    destruct (i =? idx), (bm_test (gm_bitmap g) i); done. }
  split.
  - intros i H0. rewrite after_unlock_entry.
    destruct (Z.eq_dec i idx) as [->|Hne]; [by rewrite He1|]. by rewrite Hf1.
  - intros i Hi' H. rewrite Hbit in H by done. by apply andb_prop in H as [H _].
  - intros i Hi' H Hrc. rewrite after_unlock_entry. unfold client_idx in Hi'.
    rewrite Hbit in H by lia. apply andb_prop in H as [_ H].
    destruct (Z.eq_dec i idx) as [->|Hne]; [|rewrite Hf1 by lia; done].
    rewrite He1. apply Hl; [|done]. rewrite Z.eqb_refl, andb_true_r in H. by destruct clear.
Qed.

(** The state after the locked part of a notification of [idx]. *)
Lemma round_ok idx o st data cores clear W g :
  ready g -> gmem_wf g -> client_idx idx -> allocated g idx -> entry_wf o ->
  num_child o <= num_child (entry g idx) -> num_child (entry g idx) <> 0 ->
  entry_shrinks (entry g idx) o -> (clear = true -> o = zero_coredata) ->
  (clear = false -> refcount (entry g idx) <> 0 -> refcount o <> 0) ->
  child_count W (write_entry idx o g) ->
  let g1 := after_unlock clear idx st data cores (write_entry idx o g) in
  signal_ok W g g1 /\ work g1 = work g - num_child (entry g idx) + num_child o.
Proof.
  intros Hr Hwf Hi Ha Ho Hle Hnz Hsh Hz Hlv Hc g1.
  pose proof (write_entry_spec idx o g Hr Hi) as (Hr1 & _ & Ht1 & He1 & Hf1).
  fold (write_entry idx o g) in *.
  assert (Hw : work g1 = work g - num_child (entry g idx) + num_child o).
  { unfold work, g1. rewrite after_unlock_table. by apply write_entry_sum. }
  split; [|done]. split.
  - by apply after_unlock_ready.
  - apply after_unlock_wf; auto.
    + intros H. rewrite He1. auto.
    + by apply write_entry_wf.
  - by apply child_count_after.
  - split.
    + intros i H0 Hn. unfold g1. rewrite after_unlock_entry.
      apply Hf1; [done|]. intros ->. done.
    + unfold g1. rewrite after_unlock_trace, Ht1. by eexists.
    + by apply after_unlock_shrinks.
  - lia.
Qed.

Lemma notify_loop (f : Z -> gmem -> option (Z * gmem)) (n : Z) ps W g :
  (forall p W g, client_idx p -> work g < n -> ready g -> gmem_wf g ->
     child_count (p :: W) g -> exists g', f p g = Some (SYNX_SUCCESS, g') /\ signal_ok W g g') ->
  Forall (fun p => 0 <= p < SYNX_GLOBAL_MAX_OBJS) ps ->
  work g < n -> ready g -> gmem_wf g -> child_count (ps ++ W) g ->
  exists g', notify_parents f ps g = Some g' /\ signal_ok W g g'.
Proof.
  intros Hf. revert g. induction ps as [|p ps IH]; intros g Hps Hn Hr Hwf Hc.
  - exists g. split; [done|]. split; auto; [|lia]. by split.
  - apply Forall_cons in Hps as [Hp Hps]. cbn [notify_parents].
    destruct (Z.eqb_spec p 0) as [->|Hp0].
    + apply IH; auto. intros q Hq. rewrite (Hc q Hq). simpl.
      rewrite occurs_cons. unfold client_idx in Hq. destruct (Z.eqb_spec q 0); lia.
    + destruct (Hf p (ps ++ W) g) as (g1 & -> & Hok); auto.
      { unfold client_idx. lia. }
      destruct (IH g1) as (g2 & -> & Hok2); try apply Hok; auto.
      { pose proof (so_work _ _ _ Hok). lia. }
      exists g2. split; [done|]. by eapply signal_ok_trans.
Qed.

(** The pending flag and the held-back slots after each kind of round. *)
Lemma holds_back_wait p st o :
  entry_wf o -> num_child o <> 0 -> num_child o <> 1 ->
  holds_back p (set_status (merge_status (status o) st) (set_num_child (num_child o - 1) o))
  = holds_back p o.
Proof.
  intros Hw H0 H1. pose proof (ew_num_child o Hw) as Hr. unfold is_u16 in Hr.
  unfold holds_back, pending; simpl. rewrite u16_small by lia.
  destruct (Z.eqb_spec (num_child o) 0), (Z.eqb_spec (num_child o - 1) 0); try lia.
  by rewrite !orb_true_r.
Qed.

Lemma holds_back_done p o : status o <> SYNX_STATE_ACTIVE -> num_child o = 0 -> holds_back p o = 0.
Proof.
  intros Hs Hn. unfold holds_back, pending. rewrite Hn.
  destruct (Z.eqb_spec (status o) SYNX_STATE_ACTIVE); done.
Qed.

Lemma holds_back_pending p o : pending o = true -> holds_back p o = occurs p (parents o).
Proof. unfold holds_back. by intros ->. Qed.

(** A round that settles [idx] turns its parents into notifications. *)
Lemma child_count_settle idx o W g :
  ready g -> client_idx idx -> pending (entry g idx) = true ->
  status o <> SYNX_STATE_ACTIVE -> num_child o = 0 ->
  child_count (if num_child (entry g idx) =? 0 then W else idx :: W) g ->
  num_child (entry g idx) <= 1 -> 0 <= num_child (entry g idx) ->
  child_count (parents (entry g idx) ++ W) (write_entry idx o g).
Proof.
  intros Hr Hi Hp Hs Hn Hc H1 H0. apply child_count_entry; auto. intros p Hcl.
  rewrite (holds_back_done p o), (holds_back_pending p (entry g idx)), occurs_app by done.
  specialize (Hc p Hcl).
  destruct (Z.eqb_spec (num_child (entry g idx)) 0) as [Hz|Hz];
    rewrite ?occurs_cons in Hc; destruct (Z.eqb_spec p idx) as [Heq|Hne];
    rewrite ?Heq in *; lia.
Qed.

(** A count of at least one notification means a composite. *)
Lemma notified_composite idx W g :
  gmem_wf g -> client_idx idx -> child_count (idx :: W) g -> num_child (entry g idx) <> 0.
Proof.
  intros Hwf Hi Hc. specialize (Hc idx Hi). rewrite occurs_cons, Z.eqb_refl in Hc.
  pose proof (zsum_nonneg (holds_back idx) (gm_table g) (fun o _ => holds_back_nonneg idx o)).
  pose proof (occurs_nonneg idx W). lia.
Qed.

Lemma composite_allocated g idx :
  gmem_wf g -> client_idx idx -> num_child (entry g idx) <> 0 -> allocated g idx.
Proof. intros Hwf Hi Hn. apply nonzero_allocated; auto. intros Hz. by rewrite Hz in Hn. Qed.

Lemma core_composite fuel idx st W g :
  work g < Z.of_nat fuel -> signal_status st -> ready g -> gmem_wf g ->
  client_idx idx -> child_count (idx :: W) g ->
  exists g', synx_global_update_status_core fuel idx st g = Some (SYNX_SUCCESS, g') /\
    signal_ok W g g' /\ work g' < work g.
Proof.
  revert idx W g. induction fuel as [|fuel IH]; intros idx W g Hfuel Hst Hr Hwf Hi Hc.
  { pose proof (work_nonneg g Hwf). lia. }
  pose proof (notified_composite idx W g Hwf Hi Hc) as Hn.
  pose proof (composite_allocated g idx Hwf Hi Hn) as Ha.
  pose proof (entry_wf_at g idx Hwf) as Hw. pose proof (ew_num_child _ Hw) as Hrange.
  unfold is_u16 in Hrange.
  pose proof (signal_entry_shrinks st (entry g idx) Hw) as Hsh.
  rewrite signal_entry_composite in Hsh by done. cbv zeta in Hsh.
  rewrite core_unfold, signal_entry_composite by done. cbv zeta.
  destruct (Z.eqb_spec (num_child (entry g idx)) 1) as [H1|H1].
  - destruct Hsh as (Hsh & Hz & Hlv).
    set (o2 := set_refcount _ _) in *. set (o := if _ =? 0 then zero_coredata else o2) in *.
    assert (Ho : entry_wf o /\ num_child o = 0 /\ status o <> SYNX_STATE_ACTIVE).
    { unfold o. destruct (_ =? 0); [by auto with synx|]. subst o2. split; [auto with synx|].
      simpl. rewrite H1. split; [done|].
      rewrite u32_small; [by apply merge_status_signalled; [|apply Hw]|].
      unfold merge_status. destruct (_ || _); [apply u32_range|apply Hw]. }
    destruct Ho as (How & Hon & Hos).
    destruct (round_ok idx o st (Z.lor (u64 (Z.shiftl (handle (entry g idx)) 32))
        (u32 (merge_status (status (entry g idx)) st)))
        (mark_cores (waiters (entry g idx)) (replicate (Z.to_nat SYNX_CORE_MAX) false))
        (u16 (refcount (entry g idx) - 1) =? 0) (parents (entry g idx) ++ W) g)
      as [Hok Hwork]; auto; try lia.
    { apply child_count_settle; auto; try lia.
      - unfold pending. rewrite H1. apply orb_true_r.
      - by rewrite H1. }
    rewrite parents_locked_eq by apply Hw.
    match type of Hok with signal_ok _ _ ?x => set (g1 := x) in * end.
    destruct (notify_loop (fun p g => synx_global_update_status_core fuel p st g)
      (work g) (parents (entry g idx)) W g1) as (g2 & -> & Hok2); try apply Hok; try apply Hw.
    { intros p W' g' Hp Hlt Hr' Hwf' Hc'.
      destruct (IH p W' g') as (g3 & -> & Hok3 & _); auto; [lia|]. by exists g3. }
    { lia. }
    exists g2. split; [done|]. split; [by eapply signal_ok_trans|].
    pose proof (so_work _ _ _ Hok2). lia.
  - destruct Hsh as (Hsh & _ & Hlv). set (o := set_status _ _) in *.
    assert (How : entry_wf o) by (subst o; auto with synx).
    destruct (round_ok idx o st 0 (replicate (Z.to_nat SYNX_CORE_MAX) false) false W g)
      as [Hok Hwork]; auto; try done.
    { subst o; simpl; rewrite u16_small; lia. }
    { apply child_count_entry; auto. intros p Hp. unfold o.
      rewrite holds_back_wait by done. specialize (Hc p Hp). rewrite occurs_cons in Hc.
      destruct (Z.eqb_spec p idx) as [Heq|Hne]; [|lia].
      rewrite Heq in *. simpl. rewrite u16_small; lia. }
    eexists. split; [reflexivity|]. split; [done|]. rewrite Hwork. subst o. simpl.
    rewrite u16_small; lia.
Qed.

(** The signal of an active leaf. *)
Lemma core_leaf fuel idx st W g :
  work g < Z.of_nat fuel -> signal_status st -> ready g -> gmem_wf g ->
  client_idx idx -> status (entry g idx) = SYNX_STATE_ACTIVE -> num_child (entry g idx) = 0 ->
  child_count W g ->
  exists g', synx_global_update_status_core (S fuel) idx st g = Some (SYNX_SUCCESS, g') /\
    ready g' /\ gmem_wf g' /\ child_count W g' /\
    entry g' idx = set_waiters 0 (set_status st (entry g idx)) /\
    (forall i, i <> 0 -> i <> idx -> num_child (entry g i) = 0 -> entry g' i = entry g i) /\
    shrinks g g' /\ work g' <= work g /\
    gm_trace g ++ notify_events st (Z.lor (u64 (Z.shiftl (handle (entry g idx)) 32)) (u32 st))
       (mark_cores (waiters (entry g idx)) (replicate (Z.to_nat SYNX_CORE_MAX) false))
      `prefix_of` gm_trace g'.
Proof.
  intros Hfuel Hst Hr Hwf Hi Hs Hn Hc.
  pose proof (entry_wf_at g idx Hwf) as Hw.
  assert (Ha : allocated g idx).
  { apply nonzero_allocated; auto. intros Hz. by rewrite Hz in Hs. }
  rewrite core_unfold, signal_entry_leaf by done. cbv zeta.
  rewrite parents_locked_eq by apply Hw.
  set (o := set_waiters 0 (set_status st (entry g idx))).
  set (data := Z.lor _ _). set (cores := mark_cores _ _).
  pose proof (write_entry_spec idx o g Hr Hi) as (Hr1 & Hb1 & Ht1 & He1 & Hf1).
  fold (write_entry idx o g) in *.
  set (g1 := after_unlock false idx st data cores (write_entry idx o g)).
  assert (Hwork : work g1 = work g).
  { unfold work, g1. rewrite after_unlock_table, write_entry_sum by auto. subst o. simpl. lia. }
  assert (Hos : status o <> SYNX_STATE_ACTIVE).
  { subst o. simpl. unfold signal_status, SYNX_STATE_ACTIVE in *. rewrite u32_small; lia. }
  destruct (notify_loop (fun p g => synx_global_update_status_core fuel p st g)
      (work g + 1) (parents (entry g idx)) W g1) as (g2 & -> & Hok).
  { intros p W' g' Hp Hlt Hr' Hwf' Hc'.
    destruct (core_composite fuel p st W' g') as (g3 & -> & Hok3 & _); auto; [lia|]. by exists g3. }
  { apply Hw. }
  { lia. }
  { by apply after_unlock_ready. }
  { apply after_unlock_wf; auto; [done|]. apply write_entry_wf; auto. subst o. auto with synx. }
  { apply child_count_after, child_count_settle; auto; try lia.
    - unfold pending. by rewrite Hs.
    - by rewrite Hn. }
  exists g2. split; [done|]. destruct Hok as [Hrd Hwf2 Hc2 [Hfe Hft Hfs] Hlw].
  assert (He : entry g1 idx = o) by (unfold g1; by rewrite after_unlock_entry).
  unfold client_idx in Hi. split; [done|]. split; [done|]. split; [done|]. split; [|split; [|split; [|split]]].
  - rewrite Hfe, He; [done|lia|]. by rewrite He.
  - intros i H0 Hne Hni. assert (Heq : entry g1 i = entry g i)
      by (unfold g1; rewrite after_unlock_entry; auto).
    rewrite Hfe; rewrite ?Heq; auto.
  - etrans; [|exact Hfs]. apply after_unlock_shrinks; auto. by split.
  - lia.
  - etrans; [|exact Hft]. unfold g1. rewrite after_unlock_trace, Ht1. reflexivity.
Qed.

End core.

(** ** The entry point *)

Section update_status.
Context `{E : SynxEnv} `{!LockGranted E}.

Lemma update_status_granted fuel idx st g :
  ready g -> client_idx idx -> SYNX_STATE_ACTIVE < st ->
  synx_global_update_status fuel idx st g =
    (if negb (num_child (entry g idx) =? 0) then Some (0, release (acquire g))
     else if negb (status (entry g idx) =? SYNX_STATE_ACTIVE)
     then Some (- SYNX_ALREADY, release (acquire g))
     else synx_global_update_status_core fuel idx st (release (acquire g))).
Proof.
  intros Hr Hi Hst. unfold synx_global_update_status.
  rewrite (rd_mapped g Hr), valid_client by done. cbn [negb orb].
  destruct (Z.leb_spec st SYNX_STATE_ACTIVE); [lia|].
  unfold update_status_check. rewrite locked_granted by done.
  rewrite entry_acquire by (unfold client_idx in Hi; lia).
  destruct (negb (num_child (entry g idx) =? 0)); [done|].
  by destruct (negb (status (entry g idx) =? SYNX_STATE_ACTIVE)).
Qed.

Lemma zsum_read (f : coredata -> Z) g :
  (forall v o, f (set_subscribers v o) = f o) -> ready g ->
  zsum f (gm_table (release (acquire g))) = zsum f (gm_table g).
Proof.
  intros Hf Hr. pose proof (rd_table g Hr) as Hl.
  assert (Hi : client_idx 1) by (unfold client_idx, SYNX_GLOBAL_MAX_OBJS; lia).
  pose proof (write_entry_sum f 1 (entry g 1) g Hf Hr Hi) as H.
  unfold write_entry in H. replace (set_entry 1 (entry g 1) (acquire g)) with (acquire g) in H.
  - lia.
  - rewrite <- (entry_acquire g 1) by lia. unfold set_entry, entry.
    rewrite zupd_id. by destruct (acquire g).
Qed.

Lemma child_count_read W g : ready g -> child_count W g -> child_count W (release (acquire g)).
Proof.
  intros Hr H p Hp. rewrite zsum_read by auto using holds_back_subscribers.
  rewrite entry_release, entry_acquire by (unfold client_idx in Hp; lia). auto.
Qed.

Lemma work_read g : ready g -> work (release (acquire g)) = work g.
Proof. intros Hr. unfold work. by apply zsum_read. Qed.

Lemma ready_read g : ready g -> ready (release (acquire g)).
Proof. intros Hr. rewrite (read_only_equiv g Hr). done. Qed.

(** Signalling an active leaf through the entry point. *)
Lemma update_status_leaf fuel idx st W g :
  work g < Z.of_nat fuel -> signal_status st -> ready g -> gmem_wf g -> client_idx idx ->
  status (entry g idx) = SYNX_STATE_ACTIVE -> num_child (entry g idx) = 0 ->
  child_count W g ->
  exists g', synx_global_update_status (S fuel) idx st g = Some (SYNX_SUCCESS, g') /\
    ready g' /\ gmem_wf g' /\ child_count W g' /\
    entry g' idx = set_waiters 0 (set_status st (entry g idx)) /\
    (forall i, i <> 0 -> i <> idx -> num_child (entry g i) = 0 -> entry g' i = entry g i) /\
    shrinks g g' /\ work g' <= work g /\
    gm_trace g ++ notify_events st (Z.lor (u64 (Z.shiftl (handle (entry g idx)) 32)) (u32 st))
       (mark_cores (waiters (entry g idx)) (replicate (Z.to_nat SYNX_CORE_MAX) false))
      `prefix_of` gm_trace g'.
Proof.
  intros Hfuel Hst Hr Hwf Hi Hs Hn Hc.
  rewrite update_status_granted by (auto; apply Hst).
  rewrite Hn, Hs. cbn [negb Z.eqb]. rewrite Z.eqb_refl. cbn [negb].
  set (g0 := release (acquire g)).
  assert (He : forall i, i <> 0 -> entry g0 i = entry g i)
    by (intros; unfold g0; by rewrite entry_release, entry_acquire).
  unfold client_idx in Hi. rewrite <- (He idx) in * by lia.
  destruct (core_leaf fuel idx st W g0) as (g' & Heq & H1 & H2 & H3 & H4 & H5 & H7 & H8 & H6); auto.
  { unfold g0. by rewrite work_read. }
  { by apply ready_read. }
  { by apply gmem_wf_release, gmem_wf_acquire. }
  { by apply child_count_read. }
  exists g'. split; [done|]. split; [done|]. split; [done|]. split; [done|]. split; [done|].
  split; [|split; [|split; [|done]]].
  - intros i H0 Hne Hni. rewrite H5; rewrite ?He; auto.
  - etrans; [|exact H7]. split; try done; intros i Hi0; rewrite He; try done.
    unfold client_idx in Hi0. lia.
  - by rewrite <- (work_read g Hr).
Qed.

End update_status.

(** The fuel that any run of [synx_global_update_status] needs. *)
Definition signal_fuel (g : gmem) : nat := S (S (Z.to_nat (work g))).

(** C4: the child-count invariant is an invariant of signalling. From a
    well-formed memory in which the [num_child] of every composite is the number
    of its pending constituents, signalling an active simple object terminates
    and succeeds, and leads to such a memory again: a composite is pending with
    exactly as many children as it has unsignalled constituents, so that it
    completes when, and only when, its last constituent does. The object itself
    has the new status and no waiter, and no other simple object changes. *)
Theorem update_status_child_count `{E : SynxEnv} `{!LockGranted E} (g : gmem) (idx st : Z)
    (Hst : signal_status st) (Hr : ready g) (Hwf : gmem_wf g) (Hi : client_idx idx)
    (Hs : status (entry g idx) = SYNX_STATE_ACTIVE) (Hn : num_child (entry g idx) = 0)
    (Hc : child_count [] g) :
  exists g', synx_global_update_status (signal_fuel g) idx st g = Some (SYNX_SUCCESS, g') /\
    ready g' /\ gmem_wf g' /\ child_count [] g' /\
    entry g' idx = set_waiters 0 (set_status st (entry g idx)) /\
    (forall i, i <> 0 -> i <> idx -> num_child (entry g i) = 0 -> entry g' i = entry g i).
Proof.
  pose proof (work_nonneg g Hwf).
  destruct (update_status_leaf (S (Z.to_nat (work g))) idx st [] g)
    as (g' & Heq & H1 & H2 & H3 & H4 & H5 & _); auto; [lia|].
  by exists g'.
Qed.

(** ** Waiting cores *)

(** Core [c] waits for the object, which still expects a signal. *)
Definition waiting (c : Z) (o : coredata) : Prop :=
  pending o = true /\ Z.testbit (waiters o) c = true.

(** The message that a core gets of the status [s] of handle [h]. *)
Definition signal_msg (c h s : Z) : synx_event :=
  MsgSend (synx_global_map_core_id c) (Z.lor (u64 (Z.shiftl h 32)) s).

(** A core that waits for [i] goes on waiting, or was sent a status of it. *)
Definition hears (c i : Z) (g g' : gmem) : Prop :=
  gm_trace g `prefix_of` gm_trace g' /\
  (waiting c (entry g i) -> handle (entry g i) <> 0 ->
   (waiting c (entry g' i) /\ handle (entry g' i) = handle (entry g i)) \/
   exists s, s <> SYNX_STATE_ACTIVE /\ signal_msg c (handle (entry g i)) s ∈ gm_trace g').

(** One signal after the other. *)
Fixpoint run_signals `{SynxEnv} (l : list (Z * Z)) (g : gmem) : option gmem :=
  match l with
  | [] => Some g
  | (x, st) :: l =>
      match synx_global_update_status (signal_fuel g) x st g with
      | Some (_, g) => run_signals l g
      | None => None
      end
  end.

Section hearing.
Context `{E : SynxEnv} `{!LockGranted E} (c i : Z).
Context (Hcore : 0 <= c < SYNX_CORE_MAX) (Hi : client_idx i).

#[local] Instance hears_preorder : PreOrder (hears c i).
Proof.
  split; [by split; [|left]|]. intros g1 g2 g3 [Ht1 H1] [Ht2 H2]. split; [by etrans|].
  intros Hw Hh. destruct (H1 Hw Hh) as [[Hw2 Hh2]|(s & Hs & Hin)].
  - rewrite <- Hh2. apply H2; [done|congruence].
  - right. exists s. split; [done|]. by eapply elem_of_prefix.
Qed.

(** The entries are well formed and the lock is free. *)
Definition sane (g : gmem) : Prop := ready g /\ forall j, j <> 0 -> entry_wf (entry g j).

Lemma sane_write idx o clear st data cores g : sane g -> client_idx idx -> entry_wf o ->
  sane (after_unlock clear idx st data cores (write_entry idx o g)).
Proof.
  intros [Hr Hw] Hx Ho. pose proof (write_entry_spec idx o g Hr Hx) as (Hr1 & _ & _ & He & Hf).
  fold (write_entry idx o g) in *. split; [by apply after_unlock_ready|]. intros j Hj. rewrite after_unlock_entry.
  destruct (Z.eq_dec j idx) as [->|Hne]; [by rewrite He|]. rewrite Hf by done. auto.
Qed.

Lemma signal_entry_wf st o : entry_wf o -> entry_wf (signal_entry st o).1.1.1.1.
Proof.
  intros Hw. destruct (Z.eq_dec (num_child o) 0) as [H0|H0].
  - rewrite signal_entry_leaf by done. cbn. auto with synx.
  - rewrite signal_entry_composite by done. cbv zeta.
    destruct (num_child o =? 1); [|cbn; auto with synx].
    destruct (u16 (refcount o - 1) =? 0); cbn; auto with synx.
Qed.

(** A notification of [i] leaves it pending, with its waiters, or tells them. *)
Lemma signal_entry_hears st o data cores ps clear o' :
  entry_wf o -> signal_status st -> (c = SYNX_CORE_APSS -> st = SYNX_STATE_SIGNALED_SSR) ->
  signal_entry st o = (o', data, cores, ps, clear) -> waiting c o -> handle o <> 0 ->
  (waiting c o' /\ handle o' = handle o) \/
  exists s, s <> SYNX_STATE_ACTIVE /\ signal_msg c (handle o) s ∈ notify_events st data cores.
Proof.
  intros Hw Hst Hssr Hs [Hp Hc] Hh.
  assert (Htell : forall s d m, is_u32 s -> s <> SYNX_STATE_ACTIVE -> d = Z.lor (u64 (Z.shiftl (handle o) 32)) s ->
    m = mark_cores (waiters o) (replicate (Z.to_nat SYNX_CORE_MAX) false) ->
    exists s, s <> SYNX_STATE_ACTIVE /\ signal_msg c (handle o) s ∈ notify_events st d m).
  { intros s d m Hs32 Hsa -> ->. exists s. split; [done|]. apply notify_events_send; try done.
    - intros Hz. apply Z.lor_eq_0_iff in Hz as [Hz _]. pose proof (ew_handle o Hw) as Hu.
      unfold u64, is_u32 in *. rewrite Z.shiftl_mul_pow2, Z.mod_small in Hz by lia. lia.
    - by rewrite mark_cores_spec.
    - destruct (Z.eq_dec c 0) as [->|]; [right; by apply Hssr|by left]. }
  unfold signal_status, SYNX_STATE_ACTIVE in Hst.
  destruct (Z.eq_dec (num_child o) 0) as [H0|H0].
  - rewrite signal_entry_leaf in Hs by done. injection Hs as _ <- <- _ _. right.
    apply (Htell (u32 st)); [apply u32_range| |done..]. unfold SYNX_STATE_ACTIVE. rewrite u32_small; lia.
  - rewrite signal_entry_composite in Hs by done. cbv zeta in Hs.
    pose proof (ew_num_child o Hw) as Hn. unfold is_u16 in Hn.
    destruct (Z.eqb_spec (num_child o) 1) as [H1|H1]; injection Hs as <- <- <- _ _.
    + right. assert (Hm : is_u32 (merge_status (status o) st)).
      { unfold merge_status. destruct (_ || _); [apply u32_range|apply Hw]. }
      apply (Htell (u32 (merge_status (status o) st))); [apply u32_range| |done..]. rewrite u32_small by exact Hm.
      apply merge_status_signalled; [done|apply Hw].
    + left. split; [|done]. split; [|done]. unfold pending. cbn. rewrite u16_small by lia.
      destruct (Z.eqb_spec (num_child o - 1) 0); [lia|apply orb_true_r].
Qed.

Lemma notify_hears (f : Z -> gmem -> option (Z * gmem)) ps g g' :
  (forall p g rc g', client_idx p -> sane g -> f p g = Some (rc, g') -> sane g' /\ hears c i g g') ->
  Forall (fun p => 0 <= p < SYNX_GLOBAL_MAX_OBJS) ps -> sane g ->
  notify_parents f ps g = Some g' -> sane g' /\ hears c i g g'.
Proof.
  intros Hf Hps. revert g. induction Hps as [|p ps Hp Hps IH]; intros g Hg; cbn [notify_parents].
  { intros [= <-]. by split. }
  destruct (Z.eqb_spec p 0) as [|Hp0]; [by apply IH|].
  destruct (f p g) as [[rc g1]|] eqn:Hr; [|done].
  destruct (Hf p g rc g1) as [Hg1 Hh1]; [unfold client_idx; lia|done..|].
  intros H. destruct (IH g1 Hg1 H) as [Hg' Hh']. split; [done|by etrans].
Qed.

Lemma core_hears fuel idx st g rc g' : signal_status st ->
  (c = SYNX_CORE_APSS -> st = SYNX_STATE_SIGNALED_SSR) -> client_idx idx -> sane g ->
  synx_global_update_status_core fuel idx st g = Some (rc, g') -> sane g' /\ hears c i g g'.
Proof.
  intros Hst Hssr. revert idx g rc g'. induction fuel as [|fuel IH]; intros idx g rc g' Hx Hg; [done|].
  pose proof Hg as [Hr Hw]. pose proof Hx as Hx'. unfold client_idx in Hx'.
  assert (Hwx : entry_wf (entry g idx)) by (apply Hw; lia).
  pose proof (signal_entry_wf st _ Hwx) as Hwo.
  rewrite core_unfold by done. destruct (signal_entry st (entry g idx)) as [[[[o data] cores] ps] clear] eqn:Hs.
  cbn [fst] in Hwo. cbv zeta. set (g1 := after_unlock _ _ _ _ _ _).
  assert (Hg1 : sane g1) by by apply sane_write.
  pose proof (write_entry_spec idx o g Hr Hx) as (_ & _ & Ht & He & Hf).
  fold (write_entry idx o g) in *.
  assert (Hh1 : hears c i g g1).
  { unfold hears, g1. rewrite after_unlock_trace, after_unlock_entry.
    rewrite Ht. split; [by eexists|]. intros Hwt Hh. destruct (Z.eq_dec i idx) as [->|Hne].
    - rewrite He. destruct (signal_entry_hears st _ _ _ _ _ _ Hwx Hst Hssr Hs Hwt Hh) as [|(s & Hsa & Hin)]; [by left|].
      right. exists s. split; [done|]. apply elem_of_app. by right.
    - unfold client_idx in Hi. rewrite Hf by lia. by left. }
  assert (Hps : Forall (fun p => 0 <= p < SYNX_GLOBAL_MAX_OBJS) ps).
  { revert Hs. destruct (Z.eq_dec (num_child (entry g idx)) 0) as [H0|H0].
    - rewrite signal_entry_leaf by done. rewrite parents_locked_eq by apply Hwx. intros [= _ _ _ <- _]. apply Hwx.
    - rewrite signal_entry_composite by done. cbv zeta. destruct (_ =? 1); intros [= _ _ _ <- _].
      + rewrite parents_locked_eq by apply Hwx. apply Hwx.
      + repeat constructor; unfold SYNX_GLOBAL_MAX_OBJS; lia. }
  destruct (notify_parents _ ps g1) as [g2|] eqn:Hn; [|done]. intros [= _ <-].
  destruct (notify_hears (fun p g => synx_global_update_status_core fuel p st g) ps g1 g2) as [Hg2 Hh2]; try done.
  split; [done|by etrans].
Qed.

(** A signal of any object, from a table with the child-count invariant. *)
Lemma update_status_hears x st g : signal_status st -> (c = SYNX_CORE_APSS -> st = SYNX_STATE_SIGNALED_SSR) ->
  client_idx x -> ready g -> gmem_wf g -> child_count [] g ->
  exists rc g', synx_global_update_status (signal_fuel g) x st g = Some (rc, g') /\
    ready g' /\ gmem_wf g' /\ child_count [] g' /\ hears c i g g'.
Proof.
  intros Hst Hssr Hx Hr Hwf Hc. pose proof (work_nonneg g Hwf) as Hwk.
  assert (Hread : ready (release (acquire g)) /\ gmem_wf (release (acquire g)) /\
    child_count [] (release (acquire g)) /\ hears c i g (release (acquire g))).
  { split_and!; [by apply ready_read|by apply gmem_wf_release, gmem_wf_acquire|by apply child_count_read|].
    unfold hears, client_idx in *. rewrite entry_release, entry_acquire by lia. by split; [|left]. }
  destruct (num_child (entry g x) =? 0) eqn:Hn; [destruct (status (entry g x) =? SYNX_STATE_ACTIVE) eqn:Hs|].
  - apply Z.eqb_eq in Hn, Hs.
    destruct (update_status_leaf (S (Z.to_nat (work g))) x st [] g) as (g' & Heq & H1 & H2 & H3 & _); auto; [lia|].
    eexists _, g'. split; [exact Heq|]. split_and!; try done.
    rewrite update_status_granted in Heq by (auto; apply Hst). rewrite Hn, Hs in Heq. cbn [negb Z.eqb] in Heq.
    apply core_hears in Heq as [_ Hh]; try done; [by etrans; [apply Hread|]|].
    split; [apply Hread|]. intros j _. apply entry_wf_at, Hread.
  - rewrite update_status_granted by (auto; apply Hst). rewrite Hn, Hs. eexists _, _. by split.
  - rewrite update_status_granted by (auto; apply Hst). rewrite Hn. eexists _, _. by split.
Qed.

Lemma signals_hear l g : Forall (fun x => client_idx x.1 /\ signal_status x.2) l ->
  (c = SYNX_CORE_APSS -> Forall (fun x => x.2 = SYNX_STATE_SIGNALED_SSR) l) ->
  ready g -> gmem_wf g -> child_count [] g ->
  exists g', run_signals l g = Some g' /\ hears c i g g'.
Proof.
  intros Hl. revert g. induction Hl as [|[x st] l [Hx Hst] Hl IH]; intros g Hssr Hr Hwf Hc; [by exists g|].
  cbn [run_signals]. destruct (update_status_hears x st g) as (rc & g1 & -> & Hr1 & Hwf1 & Hc1 & Hh1); try done.
  { intros H. specialize (Hssr H). by apply Forall_cons in Hssr as [? _]. }
  destruct (IH g1) as (g2 & -> & Hh2); try done.
  { intros H. specialize (Hssr H). by apply Forall_cons in Hssr as [_ ?]. }
  exists g2. split; [done|by etrans].
Qed.

(** What [synx_global_test_status_set_wait] does when it answers [ACTIVE]. *)
Lemma told_active g g1 : ready g -> gmem_wf g -> child_count [] g ->
  synx_global_test_status_set_wait i c g = (SYNX_STATE_ACTIVE, g1) ->
  ready g1 /\ gmem_wf g1 /\ child_count [] g1 /\ pending (entry g i) = true /\
  entry g1 i = set_waiters (Z.lor (waiters (entry g i)) (BIT c)) (entry g i).
Proof.
  intros Hr Hwf Hc Hw. pose proof Hi as Hi'. unfold client_idx in Hi'.
  unfold synx_global_test_status_set_wait in Hw.
  rewrite (rd_mapped g Hr), valid_client in Hw by done. cbn [negb orb] in Hw.
  destruct (Z.geb_spec c SYNX_CORE_MAX); [lia|]. cbn [orb] in Hw.
  rewrite locked_granted, entry_acquire in Hw by (done || lia).
  change ((status (entry g i) =? SYNX_STATE_ACTIVE) || negb (num_child (entry g i) =? 0))
    with (pending (entry g i)) in Hw.
  destruct (pending (entry g i)) eqn:Hp.
  2: { injection Hw as Hs _. unfold pending in Hp. by rewrite Hs in Hp. }
  injection Hw as <-. set (o := set_waiters _ _). fold (write_entry i o g).
  pose proof (write_entry_spec i o g Hr Hi) as (Hr1 & _ & _ & He1 & _). fold (write_entry i o g) in *.
  assert (Ha : allocated g i) by (apply nonzero_allocated; auto; intros Hz; by rewrite Hz in Hp).
  split_and!; [done| | |done|done].
  - apply write_entry_wf; auto. subst o. auto with synx.
  - apply child_count_entry; auto. intros p Hcp.
    replace (num_child (if p =? i then o else entry g p)) with (num_child (entry g p))
      by (destruct (Z.eqb_spec p i) as [->|]; done).
    rewrite (Hc p Hcp). unfold o. change (holds_back p (set_waiters _ ?x)) with (holds_back p x). lia.
Qed.

Lemma told_waiting g g1 : ready g -> gmem_wf g -> child_count [] g ->
  synx_global_test_status_set_wait i c g = (SYNX_STATE_ACTIVE, g1) -> waiting c (entry g1 i).
Proof.
  intros Hr Hwf Hc Hw. destruct (told_active g g1 Hr Hwf Hc Hw) as (_ & _ & _ & Hp & ->). split; [exact Hp|].
  simpl. unfold SYNX_CORE_MAX in *. by rewrite testbit_u16, testbit_lor_BIT, Z.eqb_refl, orb_true_r by lia.
Qed.

End hearing.

(** C5: no wake-up is lost. When [synx_global_test_status_set_wait] answers
    [ACTIVE] to a core for an object, simple or composite, then after any signals
    of any objects by this core, each of which returns, the object is pending and
    the core is still registered, or the core was sent a message of the handle of
    the object with a status other than [ACTIVE]. A signal of a simple object sends
    its own status. As the code means it, the messages to this core itself are
    sent for the status [SSR] only. *)
Theorem no_lost_wakeup `{E : SynxEnv} `{!LockGranted E} (g g1 : gmem) (idx c : Z) (l : list (Z * Z))
    (Hr : ready g) (Hwf : gmem_wf g) (Hc : child_count [] g) (Hi : client_idx idx)
    (Hh : handle (entry g idx) <> 0) (Hcore : 0 <= c < SYNX_CORE_MAX)
    (Hl : Forall (fun x => client_idx x.1 /\ signal_status x.2) l)
    (Hssr : c = SYNX_CORE_APSS -> Forall (fun x => x.2 = SYNX_STATE_SIGNALED_SSR) l)
    (Hw : synx_global_test_status_set_wait idx c g = (SYNX_STATE_ACTIVE, g1)) :
  exists g2, run_signals l g1 = Some g2 /\
    (waiting c (entry g2 idx) \/
     exists s, s <> SYNX_STATE_ACTIVE /\ signal_msg c (handle (entry g idx)) s ∈ gm_trace g2) /\
    forall st l', l = (idx, st) :: l' -> num_child (entry g idx) = 0 ->
      signal_msg c (handle (entry g idx)) st ∈ gm_trace g2.
Proof.
  destruct (told_active c idx Hcore Hi g g1) as (Hr1 & Hwf1 & Hc1 & Hp & He); try done.
  pose proof (told_waiting c idx Hcore Hi g g1 Hr Hwf Hc Hw) as Hwait.
  destruct (signals_hear c idx Hcore Hi l g1) as (g2 & Hrun & Ht & Hhear); try done. exists g2. split; [done|].
  assert (Hh1 : handle (entry g1 idx) = handle (entry g idx)) by (by rewrite He). rewrite Hh1 in Hhear. split.
  { destruct (Hhear Hwait Hh) as [[? _]|]; auto. }
  intros st l' -> Hn. cbn [run_signals] in Hrun. apply Forall_cons in Hl as [[_ Hst] Hl]. cbn [snd] in Hst.
  assert (Hs : status (entry g idx) = SYNX_STATE_ACTIVE).
  { unfold pending in Hp. rewrite Hn, orb_false_r in Hp. by apply Z.eqb_eq. }
  destruct (update_status_leaf (S (Z.to_nat (work g1))) idx st [] g1)
    as (g3 & Heq & H1 & H2 & H3 & _ & _ & _ & _ & H6); rewrite ?He; auto.
  { pose proof (work_nonneg _ Hwf1). lia. }
  unfold signal_fuel in Hrun. rewrite Heq in Hrun.
  destruct (signals_hear c idx Hcore Hi l' g3) as (g4 & Hrun' & Ht' & _); try done.
  { intros H. specialize (Hssr H). by apply Forall_cons in Hssr as [_ ?]. }
  rewrite Hrun in Hrun'. injection Hrun' as <-. eapply elem_of_prefix; [|exact Ht'].
  eapply elem_of_prefix; [|exact H6]. apply elem_of_app. right. unfold signal_msg.
  unfold signal_status, SYNX_STATE_ACTIVE in Hst. rewrite Hh1, (u32_small st) by lia.
  apply notify_events_send; [|done| |].
  - intros Hz. apply Z.lor_eq_0_iff in Hz. lia.
  - rewrite mark_cores_spec by done. apply (told_waiting c idx Hcore Hi g g1 Hr Hwf Hc Hw).
  - destruct (Z.eq_dec c 0) as [->|]; [right|by left]. specialize (Hssr eq_refl). by apply Forall_cons in Hssr as [? _].
Qed.

(** ** Witnesses *)

(** A memory without composites satisfies the child-count invariant. *)
Definition no_links (o : coredata) : bool :=
  (num_child o =? 0) && forallb (Z.eqb 0) (parents o).

Lemma no_links_holds_back p o : p <> 0 -> no_links o = true -> holds_back p o = 0.
Proof.
  intros Hp H. apply andb_prop in H as [_ H]. unfold holds_back. destruct (pending o); [|done].
  induction (parents o) as [|q l IH]; [done|]. cbn [forallb] in H. rewrite occurs_cons.
  apply andb_prop in H as [Hq H]. rewrite IH by done.
  destruct (Z.eqb_spec p q); [lia|done].
Qed.

Lemma child_count_no_links g :
  forallb no_links (gm_table g) = true -> child_count [] g.
Proof.
  intros H p Hp. unfold client_idx in Hp.
  assert (Hs : zsum (holds_back p) (gm_table g) = 0).
  { induction (gm_table g) as [|o l IH]; [done|]. simpl in *.
    apply andb_prop in H as [Ho H]. rewrite (no_links_holds_back p o), IH; auto; lia. }
  rewrite Hs. unfold entry.
  destruct (decide (0 <= p < zlen (gm_table g))) as [Hi|Hi]; [|by rewrite znth_oob].
  pose proof (lookup_znth zero_coredata _ _ Hi) as Hl.
  rewrite forallb_forall in H. specialize (H (znth zero_coredata (gm_table g) p)).
  rewrite <- list_elem_of_In in H. apply list_elem_of_lookup_2, H in Hl.
  apply andb_prop in Hl as [Hl _]. apply Z.eqb_eq in Hl. by rewrite Hl.
Qed.

Lemma boot_obj_count : child_count [] boot_obj.
Proof. apply child_count_no_links. vm_compute. reflexivity. Qed.

Lemma client_1 : client_idx 1.
Proof. split; vm_compute; done. Qed.

Lemma update_status_child_count_witness :
  exists g', @synx_global_update_status ref_env (signal_fuel boot_obj) 1 3 boot_obj
    = Some (SYNX_SUCCESS, g') /\ child_count [] g'.
Proof.
  destruct (update_status_child_count (E := ref_env) boot_obj 1 3) as (g' & H & _ & _ & Hc & _).
  - split; vm_compute; done.
  - apply boot_obj_ready.
  - apply boot_obj_wf.
  - apply client_1.
  - vm_compute; reflexivity.
  - vm_compute; reflexivity.
  - apply boot_obj_count.
  - exists g'. split; [exact H|exact Hc].
Defined.

(** Core 2 waits for object 1, which is signalled; and this core does, until the
    signal for a core that restarts. *)
Lemma no_lost_wakeup_witness :
  (exists g2, @run_signals ref_env [(1, 2)] (@synx_global_test_status_set_wait ref_env 1 2 boot_obj).2 = Some g2 /\
    signal_msg 2 1 2 ∈ gm_trace g2) /\
  exists g2, @run_signals ref_env [(1, 6)] (@synx_global_test_status_set_wait ref_env 1 SYNX_CORE_APSS boot_obj).2 = Some g2 /\
    signal_msg SYNX_CORE_APSS 1 6 ∈ gm_trace g2.
Proof.
  assert (Hh : handle (entry boot_obj 1) = 1) by (vm_compute; reflexivity). split.
  - destruct (no_lost_wakeup (E := ref_env) boot_obj
      (@synx_global_test_status_set_wait ref_env 1 2 boot_obj).2 1 2 [(1, 2)]
      boot_obj_ready boot_obj_wf boot_obj_count client_1) as (g2 & H & _ & Hm).
    + rewrite Hh. done.
    + split; vm_compute; done.
    + repeat constructor; vm_compute; done.
    + intros H. vm_compute in H. discriminate H.
    + vm_compute; reflexivity.
    + exists g2. split; [exact H|]. rewrite Hh in Hm. apply (Hm 2 [] eq_refl). vm_compute. reflexivity.
  - destruct (no_lost_wakeup (E := ref_env) boot_obj
      (@synx_global_test_status_set_wait ref_env 1 SYNX_CORE_APSS boot_obj).2 1 SYNX_CORE_APSS [(1, 6)]
      boot_obj_ready boot_obj_wf boot_obj_count client_1) as (g2 & H & _ & Hm).
    + rewrite Hh. done.
    + split; vm_compute; done.
    + repeat constructor; vm_compute; done.
    + intros _. repeat constructor.
    + vm_compute; reflexivity.
    + exists g2. split; [exact H|]. rewrite Hh in Hm. apply (Hm 6 [] eq_refl). vm_compute. reflexivity.
Defined.

(** ** Composites: order of notifications and aggregation *)

(** The entry after the notifications [sts], one after the other. *)
Definition notified (o : coredata) (sts : list Z) : coredata :=
  fold_left (fun o st => (signal_entry st o).1.1.1.1) sts o.

(** What a composite should report: the last error among its children, and
    the first status when none failed. *)
Definition aggregate (sts : list Z) : Z :=
  default (default SYNX_STATE_ACTIVE (head sts)) (last (List.filter is_error_status sts)).

Lemma merge_fold sts s :
  Forall signal_status sts -> s <> SYNX_STATE_ACTIVE -> is_u32 s ->
  fold_left merge_status sts s = default s (last (List.filter is_error_status sts)).
Proof.
  revert s. induction sts as [|st sts IH]; intros s Hf Hs Hu; [done|]. simpl.
  apply Forall_cons in Hf as [Hst Hf].
  assert (Hm : merge_status s st = if is_error_status st then st else s).
  { unfold merge_status. unfold signal_status, SYNX_STATE_ACTIVE in *.
    destruct (Z.eqb_spec s 1); [lia|]. simpl.
    destruct (is_error_status st); [by rewrite u32_small by lia|done]. }
  rewrite IH; auto.
  - rewrite Hm. destruct (is_error_status st); [|done].
    rewrite last_cons. by destruct (last (List.filter is_error_status sts)).
  - by apply merge_status_signalled.
  - unfold merge_status. destruct (_ || _); [apply u32_range|done].
Qed.

Lemma aggregate_fold st sts :
  Forall signal_status (st :: sts) ->
  fold_left merge_status (st :: sts) SYNX_STATE_ACTIVE = aggregate (st :: sts).
Proof.
  intros Hf. apply Forall_cons in Hf as [Hst Hf]. unfold signal_status, SYNX_STATE_ACTIVE in Hst.
  simpl. unfold merge_status at 2. rewrite Z.eqb_refl. cbn [orb]. rewrite u32_small by lia.
  rewrite merge_fold; auto; [|unfold SYNX_STATE_ACTIVE; lia|unfold is_u32; lia].
  unfold aggregate. simpl. destruct (is_error_status st); [|done].
  rewrite last_cons. by destruct (last (List.filter is_error_status sts)).
Qed.

Lemma notified_status sts o :
  entry_wf o -> Forall signal_status sts -> num_child o = zlen sts ->
  1 < refcount o ->
  let o' := notified o sts in
  status o' = fold_left merge_status sts (status o) /\ num_child o' = 0 /\
  (sts <> [] -> refcount o' = refcount o - 1 /\ waiters o' = 0).
Proof.
  revert o. induction sts as [|st sts IH]; intros o Hw Hf Hn Hrc; [done|].
  apply Forall_cons in Hf as [Hst Hf]. unfold zlen in Hn. simpl in Hn.
  pose proof (ew_num_child o Hw) as Hr. pose proof (ew_refcount o Hw) as Hrr.
  unfold is_u16 in *. unfold notified. cbn [fold_left].
  rewrite signal_entry_composite by (done || lia). cbv zeta.
  assert (Hm : u32 (merge_status (status o) st) = merge_status (status o) st).
  { apply u32_small. unfold merge_status. destruct (_ || _); [apply u32_range|apply Hw]. }
  destruct (Z.eqb_spec (num_child o) 1) as [H1|H1].
  - assert (sts = []) as -> by (destruct sts; simpl in Hn; [done|lia]). cbn.
    rewrite u16_small by lia. destruct (Z.eqb_spec (refcount o - 1) 0); [lia|]. simpl.
    rewrite Hm, !u16_small; lia.
  - cbn [fst]. set (o1 := set_status _ _).
    destruct (IH o1) as (Hs & Hn1 & Hx); auto.
    { subst o1. auto with synx. }
    { subst o1. simpl. rewrite u16_small by lia. unfold zlen. lia. }
    fold (notified o1 sts). rewrite Hs. subst o1. simpl. rewrite Hm. split; [done|].
    split; [done|]. intros _. apply Hx. intros ->. simpl in Hn. lia.
Qed.

Lemma merge_fold_signalled st sts :
  Forall signal_status (st :: sts) ->
  fold_left merge_status (st :: sts) SYNX_STATE_ACTIVE <> SYNX_STATE_ACTIVE.
Proof.
  intros Hf. apply Forall_cons in Hf as [Hst Hf]. simpl.
  assert (Hm : merge_status SYNX_STATE_ACTIVE st <> SYNX_STATE_ACTIVE
                  /\ is_u32 (merge_status SYNX_STATE_ACTIVE st)).
  { unfold merge_status. rewrite Z.eqb_refl. cbn [orb]. unfold signal_status, SYNX_STATE_ACTIVE in *.
    rewrite u32_small by lia. unfold is_u32. lia. }
  revert Hm. generalize (merge_status SYNX_STATE_ACTIVE st).
  induction sts as [|st' sts IH]; intros s [H1 H2]; [done|]. simpl.
  apply Forall_cons in Hf as [Hst' Hf]. apply IH; auto. split.
  - by apply merge_status_signalled.
  - unfold merge_status. destruct (_ || _); [apply u32_range|done].
Qed.

(** C6: a composite of [n] pending constituents that is notified of their
    statuses in any order ends complete, with its waiters cleared and the
    reference its constituents held dropped, and reports the last error among
    the statuses, or the first status when none is an error. *)
Theorem composite_aggregates (o : coredata) (st : Z) (sts : list Z)
    (Hw : entry_wf o) (Ha : status o = SYNX_STATE_ACTIVE) (Hf : Forall signal_status (st :: sts))
    (Hn : num_child o = zlen (st :: sts)) (Hrc : 1 < refcount o) :
  let o' := notified o (st :: sts) in
  status o' = aggregate (st :: sts) /\ num_child o' = 0 /\
  refcount o' = refcount o - 1 /\ waiters o' = 0 /\ pending o' = false.
Proof.
  intros o'. destruct (notified_status (st :: sts) o Hw Hf Hn Hrc) as (Hs & Hn' & Hx).
  fold o' in Hs, Hn', Hx. destruct (Hx ltac:(done)) as [Hr' Hw'].
  rewrite Ha in Hs.
  assert (Hna : status o' <> SYNX_STATE_ACTIVE) by (rewrite Hs; by apply merge_fold_signalled).
  rewrite aggregate_fold in Hs by done.
  split; [done|]. split; [done|]. split; [done|]. split; [done|].
  unfold pending. rewrite Hn'. by destruct (Z.eqb_spec (status o') SYNX_STATE_ACTIVE).
Qed.

Lemma composite_aggregates_witness :
  let o := mk_coredata 1 3 2 3 1 0 [0; 0; 0; 0] in
  zlen [2; 3; 2] = 3 /\ status (notified o [2; 3; 2]) = 3.
Proof.
  split; [reflexivity|].
  apply (composite_aggregates (mk_coredata 1 3 2 3 1 0 [0; 0; 0; 0]) 2 [3; 2]).
  - split; try (split; vm_compute; done).
    repeat constructor; vm_compute; done.
  - reflexivity.
  - repeat constructor; vm_compute; done.
  - reflexivity.
  - reflexivity.
Defined.
