(* ===== verification/SynxMerge.v ===== *)
(** * Synx global table: merging

    The theorems on [synx_global_merge]: a successful merge links the
    constituents and keeps the child-count invariant; a failed one restores the
    table when every constituent is pending, and does not otherwise. *)

From S2P Require Import Prelude Bitmap SynxGlobal SynxEntry SynxAlloc SynxSignal.

(** ** Definitions *)

(** The child-count invariant while composite [p] is being built: [nc] slots
    already name it that its own count does not include. *)
Definition child_count_owed (p nc : Z) (g : gmem) : Prop :=
  forall q, client_idx q ->
    num_child (entry g q) + (if q =? p then nc else 0) = zsum (holds_back q) (gm_table g).

(** The statuses of the constituents that are already signalled. *)
Definition settled (g : gmem) (l : list Z) : list Z :=
  List.filter (fun s => negb (s =? SYNX_STATE_ACTIVE)) (map (fun i => status (entry g i)) l).

(** The number of pending constituents. *)
Definition pending_children (g : gmem) (l : list Z) : Z :=
  Z.of_nat (countb (fun i => pending (entry g i)) l).

(** Everything of an entry but its parents. *)
Definition same_but_parents (o o' : coredata) : Prop :=
  status o' = status o /\ handle o' = handle o /\ refcount o' = refcount o /\
  num_child o' = num_child o /\ subscribers o' = subscribers o /\ waiters o' = waiters o.

(** ** One constituent *)

Lemma occurs_zupd q l i p :
  l !! i = Some 0 -> q <> 0 ->
  occurs q (zupd l (Z.of_nat i) p) = occurs q l + (if q =? p then 1 else 0).
Proof.
  intros Hl Hq. unfold zupd. destruct (Z.ltb_spec (Z.of_nat i) 0) as [Hi|Hi]; [lia|clear Hi].
  rewrite Nat2Z.id. revert i Hl. induction l as [|a l IH]; intros [|i] Hl; simpl in *; try done.
  - injection Hl as ->. rewrite !occurs_cons. destruct (Z.eqb_spec q 0); lia.
  - rewrite !occurs_cons, IH by done. lia.
Qed.

Lemma free_slot_spec o i :
  free_parent_slot o = Some i -> parents o !! i = Some 0.
Proof.
  intros H. apply find_index_Some in H as (x & Hx & Hz & _).
  apply Z.eqb_eq in Hz. by subst x.
Qed.

Lemma merge_child_spec p o nc ps o' nc' ps' ok :
  client_idx p -> entry_wf o -> 0 <= nc < 2 ^ 32 - 1 ->
  merge_child p o nc ps = (o', nc', ps', ok) ->
  nc' = nc + (if pending o then 1 else 0) /\
  ps' = (if status o =? SYNX_STATE_ACTIVE then ps else merge_status ps (status o)) /\
  entry_wf o' /\ same_but_parents o o' /\
  (if ok then forall q, q <> 0 -> holds_back q o' =
                holds_back q o + (if (q =? p) && pending o then 1 else 0)
   else o' = o).
Proof.
  intros Hp Hw Hnc H. unfold client_idx, SYNX_GLOBAL_MAX_OBJS in Hp. unfold merge_child in H.
  assert (Hsame : forall slot, status (match slot with
      Some i => set_parent (Z.of_nat i) p o | None => o end) = status o /\
      num_child (match slot with
      Some i => set_parent (Z.of_nat i) p o | None => o end) = num_child o) by (by intros []).
  destruct (Hsame (free_parent_slot o)) as [Hs Hn]. rewrite Hs, Hn in H.
  assert (Hcnt : nc' = nc + (if pending o then 1 else 0) /\
    ps' = (if status o =? SYNX_STATE_ACTIVE then ps else merge_status ps (status o)) /\
    o' = match free_parent_slot o with Some i => set_parent (Z.of_nat i) p o | None => o end /\
    ok = match free_parent_slot o with Some _ => true | None => false end).
  { unfold pending, merge_status, is_error_status. pose proof (ew_status o Hw) as Hu.
    rewrite (u32_small (status o)) by apply Hu. revert H.
    destruct (Z.eqb_spec (status o) SYNX_STATE_ACTIVE) as [Ha|Ha]; cbn [negb andb orb].
    - intros [= <- <- <- <-]. rewrite u32_small by lia. done.
    - destruct ((status o >? SYNX_STATE_SIGNALED_SUCCESS) && (status o <=? SYNX_STATE_SIGNALED_MAX));
        rewrite ?orb_true_r, ?orb_false_r; [|destruct (ps =? SYNX_STATE_ACTIVE)];
        destruct (num_child o =? 0); cbn [negb]; intros [= <- <- <- <-];
        rewrite ?u32_small by lia; repeat split; try done; lia. }
  destruct Hcnt as (-> & -> & -> & ->). split; [done|]. split; [done|].
  destruct (free_parent_slot o) as [i|] eqn:Hf; [|done].
  split; [apply entry_wf_parent; [done|unfold SYNX_GLOBAL_MAX_OBJS; lia]|].
  split; [done|]. intros q Hq. unfold holds_back.
  change (pending (set_parent (Z.of_nat i) p o)) with (pending o).
  destruct (pending o); [|rewrite andb_false_r; lia].
  simpl. rewrite u16_small, occurs_zupd by (auto using free_slot_spec; lia).
  rewrite andb_true_r. done.
Qed.

Section merge.
Context `{E : SynxEnv} `{!LockGranted E}.

(** What a merge reads of the children. *)
Lemma same_but_parents_pending o o' : same_but_parents o o' -> status o' = status o /\ pending o' = pending o.
Proof. intros (Hs & _ & _ & Hn & _). split; [done|]. unfold pending. by rewrite Hs, Hn. Qed.

Lemma children_same g g' l :
  (forall i, i ∈ l -> status (entry g' i) = status (entry g i) /\ pending (entry g' i) = pending (entry g i)) ->
  pending_children g' l = pending_children g l /\ settled g' l = settled g l.
Proof.
  intros H. split; [unfold pending_children|unfold settled]; f_equal.
  - induction l as [|i l IH]; [done|]. cbn [countb].
    rewrite IH by (intros; apply H; set_solver). by rewrite (proj2 (H i ltac:(set_solver))).
  - apply map_ext_in. intros i Hil. apply H. by apply list_elem_of_In.
Qed.

(** The loop over the constituents. *)
Lemma merge_loop_spec p l rc nc ps g ok rc' nc' ps' g' :
  ready g -> gmem_wf g -> client_idx p -> p ∉ l -> Forall (allocated g) l ->
  0 <= nc -> nc + zlen l < 2 ^ 32 - 1 -> child_count_owed p nc g -> rc = 0 \/ l <> [] ->
  merge_loop p l rc nc ps g = (ok, rc', nc', ps', g') ->
  ready g' /\ gmem_wf g' /\ gm_bitmap g' = gm_bitmap g /\ gm_trace g' = gm_trace g /\
  entry g' p = entry g p /\
  (forall i, i <> 0 -> same_but_parents (entry g i) (entry g' i)) /\
  (forall i, i <> 0 -> i ∉ l -> entry g' i = entry g i) /\
  (if ok then child_count_owed p nc' g' /\ nc' = nc + pending_children g l /\
     ps' = fold_left merge_status (settled g l) ps
   else rc' = - SYNX_NOMEM).
Proof.
  revert rc nc ps g.
  induction l as [|idx l IH]; intros rc nc ps g Hr Hwf Hp Hnin Hall Hnc Hlen Hc Hrc H.
  { injection H as <- <- <- <- <-. unfold pending_children, same_but_parents.
    repeat (split; [done|]). by rewrite Z.add_0_r. }
  apply Forall_cons in Hall as [Ha Hall]. pose proof (proj1 Ha) as Hi.
  apply not_elem_of_cons in Hnin as [Hne Hnin].
  unfold zlen in Hlen. cbn [length] in Hlen.
  cbn [merge_loop] in H. rewrite valid_client in H by done. cbn [negb] in H.
  rewrite lock_granted_eq in H by done. cbn [truthy negb Z.eqb] in H.
  rewrite entry_acquire in H by (unfold client_idx in Hi; lia).
  destruct (merge_child p (entry g idx) nc ps) as [[[o nc1] ps1] ok1] eqn:Hm.
  pose proof (entry_wf_at g idx Hwf) as Hw.
  assert (Hb : 0 <= nc < 2 ^ 32 - 1) by lia.
  destruct (merge_child_spec _ _ _ _ _ _ _ _ Hp Hw Hb Hm) as (-> & -> & How & Hsame & Hok).
  pose proof (write_entry_spec idx o g Hr Hi) as (Hr1 & Hb1 & Ht1 & He1 & Hf1).
  change (synx_gmem_unlock idx (set_entry idx o (acquire g))) with (write_entry idx o g) in H.
  fold (write_entry idx o g) in Hr1, Hb1, Ht1, He1, Hf1.
  set (g1 := write_entry idx o g) in *.
  assert (Hwf1 : gmem_wf g1) by (by apply write_entry_wf).
  unfold client_idx in Hp, Hi.
  assert (Hsm : forall i, i <> 0 -> same_but_parents (entry g i) (entry g1 i)).
  { intros i H0. destruct (Z.eq_dec i idx) as [->|Hni]; [by rewrite He1|].
    rewrite Hf1 by done. done. }
  assert (Hst : forall i, i <> 0 -> status (entry g1 i) = status (entry g i)
      /\ pending (entry g1 i) = pending (entry g i)) by (intros; by apply same_but_parents_pending, Hsm).
  destruct ok1; cbn [negb] in H.
  - assert (Hall1 : Forall (allocated g1) l).
    { eapply Forall_impl; [exact Hall|]. intros i Hai. by eapply allocated_bitmap. }
    set (d := if pending (entry g idx) then 1 else 0) in *.
    apply IH in H; auto; try (subst d; destruct (pending _); unfold zlen; lia).
    + destruct H as (H1 & H2 & H3 & H4 & H5 & H6 & H7 & H8).
      split; [done|]. split; [done|]. split; [congruence|]. split; [congruence|].
      split; [rewrite H5; apply Hf1; lia|]. split; [|split].
      * intros i H0. destruct (Hsm i H0) as (?&?&?&?&?&?), (H6 i H0) as (?&?&?&?&?&?).
        repeat split; congruence.
      * intros i H0 Hni. apply not_elem_of_cons in Hni as [Hn1 Hn2]. rewrite H7, Hf1; done.
      * destruct ok; [|done]. destruct H8 as (Hc8 & Hn8 & Hp8). split; [done|].
        destruct (children_same g g1 l) as [Hpc Hse].
        { intros i Hil. apply Hst. intros ->. rewrite list.Forall_forall in Hall.
          destruct (Hall 0 Hil) as [Hx _]. unfold client_idx in Hx. lia. }
        rewrite Hn8, Hpc, Hp8, Hse. unfold pending_children, settled.
        cbn [countb map List.filter]. fold d. split.
        -- subst d. destruct (pending (entry g idx)); lia.
        -- destruct (status (entry g idx) =? SYNX_STATE_ACTIVE); done.
    + intros q Hq. unfold g1 at 2. rewrite write_entry_sum by (auto using holds_back_subscribers).
      rewrite Hok by (unfold client_idx in Hq; lia). rewrite <- (Hc q Hq).
      destruct (Hsm q ltac:(unfold client_idx in Hq; lia)) as (_ & _ & _ & Hnq & _). rewrite Hnq.
      subst d. destruct (Z.eqb_spec q p), (pending (entry g idx)); cbn [andb]; lia.
  - injection H as <- <- <- <- <-. subst o.
    split; [done|]. split; [done|]. split; [done|]. split; [done|].
    split; [apply Hf1; lia|]. split; [done|]. split; [|done].
    intros i H0 Hni. apply not_elem_of_cons in Hni as [Hn1 _]. by apply Hf1.
Qed.

(** With distinct constituents that each have a free slot the loop ends normally. *)
Lemma merge_loop_ok p l rc nc ps g :
  ready g -> NoDup l -> Forall client_idx l ->
  Forall (fun i => is_Some (free_parent_slot (entry g i))) l ->
  (merge_loop p l rc nc ps g).1.1.1.1 = true.
Proof.
  revert rc nc ps g. induction l as [|idx l IH]; intros rc nc ps g Hr Hnd Hi Hs; [done|].
  apply NoDup_cons in Hnd as [Hnin Hnd]. apply Forall_cons in Hi as [Hi Hil].
  apply Forall_cons in Hs as [Hs Hsl]. cbn [merge_loop].
  rewrite valid_client by done. cbn [negb]. rewrite lock_granted_eq by done.
  cbn [truthy negb Z.eqb]. pose proof Hi as Hi'. unfold client_idx in Hi'.
  rewrite entry_acquire by lia.
  destruct (merge_child p (entry g idx) nc ps) as [[[o nc1] ps1] ok1] eqn:Hm.
  assert (ok1 = true) as ->.
  { unfold merge_child in Hm. destruct Hs as [k Hs]. rewrite Hs in Hm.
    repeat case_match; by injection Hm as _ _ _ <-. }
  cbn [negb]. change (synx_gmem_unlock idx (set_entry idx o (acquire g))) with (write_entry idx o g).
  pose proof (write_entry_spec idx o g Hr Hi) as (Hr1 & _ & _ & _ & Hf1).
  apply IH; auto. apply list.Forall_forall. intros i Hin.
  unfold write_entry. rewrite Hf1.
  - by apply (proj1 (list.Forall_forall _ _) Hsl).
  - pose proof (proj1 (list.Forall_forall _ _) Hil i Hin) as Hci. unfold client_idx in Hci. lia.
  - intros ->. done.
Qed.

Lemma no_parents_holds_back q o : q <> 0 -> Forall (eq 0) (parents o) -> holds_back q o = 0.
Proof.
  intros Hq H. unfold holds_back. destruct (pending o); [|done].
  induction H as [|x l <- H IH]; [done|]. rewrite occurs_cons, IH. destruct (Z.eqb_spec q 0); lia.
Qed.

(** The last step: the composite receives its count. *)
Lemma merge_commit p nc g :
  ready g -> client_idx p -> Forall (eq 0) (parents (entry g p)) ->
  0 <= num_child (entry g p) + nc < 2 ^ 16 -> child_count_owed p nc g ->
  forall o, num_child o = num_child (entry g p) + nc -> parents o = parents (entry g p) ->
  child_count [] (write_entry p o g).
Proof.
  intros Hr Hp Hz Hb Hc o Hn Hpar. apply child_count_entry; auto. intros q Hq.
  assert (Hq0 : q <> 0) by (unfold client_idx in Hq; lia).
  rewrite (no_parents_holds_back q o), (no_parents_holds_back q (entry g p))
    by (done || by rewrite Hpar). change (occurs q []) with 0.
  specialize (Hc q Hq). destruct (Z.eqb_spec q p) as [Heq|]; [rewrite Heq in *|]; lia.
Qed.

Lemma settled_aggregate g l :
  gmem_wf g -> Forall (fun i => SYNX_STATE_ACTIVE <= status (entry g i)) l ->
  fold_left merge_status (settled g l) SYNX_STATE_ACTIVE = aggregate (settled g l).
Proof.
  intros Hwf Hst.
  assert (Hf : Forall signal_status (settled g l)).
  { apply list.Forall_forall. intros s Hs. apply list_elem_of_In, filter_In in Hs as [Hs Hna].
    apply in_map_iff in Hs as (i & <- & Hi). apply list_elem_of_In in Hi.
    pose proof (proj1 (list.Forall_forall _ _) Hst i Hi) as Hge. cbv beta in Hge.
    pose proof (ew_status _ (entry_wf_at g i Hwf)) as Hu. unfold is_u32 in Hu.
    unfold signal_status. destruct (Z.eqb_spec (status (entry g i)) SYNX_STATE_ACTIVE); [done|lia]. }
  destruct (settled g l) as [|s sts]; [done|]. by apply aggregate_fold.
Qed.

Lemma merge_fold_u32 sts s : is_u32 s -> is_u32 (fold_left merge_status sts s).
Proof.
  revert s. induction sts as [|x sts IHs]; intros s Hs; [done|]. simpl. apply IHs.
  unfold merge_status. destruct (_ || _); [apply u32_range|done].
Qed.

(** The entry that the composite is given. *)
Lemma composite_entry o nc ps :
  0 <= num_child o + nc < 2 ^ 16 -> 0 <= refcount o < 65535 -> is_u32 ps ->
  let o1 := set_num_child (num_child o + nc) o in
  let o' := set_status ps (if negb (num_child o1 =? 0) then set_refcount (refcount o1 + 1) o1 else o1) in
  num_child o' = num_child o + nc /\ parents o' = parents o /\ status o' = ps /\
  refcount o' = refcount o + (if num_child o + nc =? 0 then 0 else 1).
Proof.
  intros Hn Hr Hs. cbv zeta. cbn [num_child set_num_child]. rewrite (u16_small (num_child o + nc)) by lia.
  unfold is_u32 in Hs. destruct (Z.eqb_spec (num_child o + nc) 0); cbn [negb]; simpl;
    rewrite ?u16_small, ?(u32_small ps) by lia; repeat split; lia.
Qed.

End merge.

(** C7: merging distinct constituents that each have a free parent slot into a
    composite that is itself no constituent succeeds and keeps the child-count
    invariant. The composite then expects one notification per pending
    constituent, holds one more reference while it expects any, and its status
    aggregates those of the constituents that were already signalled; nothing
    but the parents of the constituents changes elsewhere. *)
Theorem merge_links `{E : SynxEnv} `{!LockGranted E} (g : gmem) (l : list Z) (p : Z)
    (Hr : ready g) (Hwf : gmem_wf g) (Hc : child_count [] g)
    (Hp : client_idx p) (Hpz : Forall (eq 0) (parents (entry g p)))
    (Hl : l <> []) (Hnd : NoDup l) (Hnin : p ∉ l) (Hall : Forall (allocated g) l)
    (Hslot : Forall (fun i => is_Some (free_parent_slot (entry g i))) l)
    (Hst : Forall (fun i => SYNX_STATE_ACTIVE <= status (entry g i)) l)
    (Hb : num_child (entry g p) + zlen l < 2 ^ 16) (Hrc : refcount (entry g p) < 65535) :
  exists g', synx_global_merge l p g = (SYNX_SUCCESS, g') /\ child_count [] g' /\
    let n := num_child (entry g p) + pending_children g l in
    status (entry g' p) = aggregate (settled g l) /\
    num_child (entry g' p) = n /\
    refcount (entry g' p) = refcount (entry g p) + (if n =? 0 then 0 else 1) /\
    (forall i, i <> 0 -> i <> p -> same_but_parents (entry g i) (entry g' i)) /\
    (forall i, i <> 0 -> i <> p -> i ∉ l -> entry g' i = entry g i).
Proof.
  pose proof Hp as Hp'. unfold client_idx in Hp'.
  pose proof (ew_num_child _ (entry_wf_at g p Hwf)) as Hnr. unfold is_u16 in Hnr.
  pose proof (ew_refcount _ (entry_wf_at g p Hwf)) as Hrr. unfold is_u16 in Hrr.
  assert (Hzl : 0 <= zlen l) by (unfold zlen; lia).
  unfold synx_global_merge. rewrite (rd_mapped g Hr), valid_client by done. cbn [negb].
  destruct (Z.eqb_spec (zlen l) 0) as [Hz|_]; [by destruct l|]. cbv zeta.
  assert (Hcl : Forall client_idx l) by (eapply Forall_impl; [exact Hall|]; by intros i []).
  pose proof (merge_loop_ok p l (- SYNX_INVALID) 0 SYNX_STATE_ACTIVE g Hr Hnd Hcl Hslot) as Hok.
  destruct (merge_loop p l (- SYNX_INVALID) 0 SYNX_STATE_ACTIVE g)
    as [[[[ok rc] nc] ps] g1] eqn:Hm. cbn [fst] in Hok. subst ok.
  apply merge_loop_spec in Hm; auto; try lia;
    [|intros q Hq; specialize (Hc q Hq); change (occurs q []) with 0 in Hc; destruct (q =? p); lia].
  destruct Hm as (Hr1 & Hwf1 & Hb1 & _ & Hep & Hsm & Hfr & Hc1 & -> & ->).
  cbn [negb]. rewrite lock_granted_eq by done. cbn [truthy negb Z.eqb].
  rewrite entry_acquire, Hep by lia.
  assert (Hpc : 0 <= pending_children g l <= zlen l).
  { unfold pending_children, zlen.
    pose proof (countb_length (fun i => pending (entry g i)) l). lia. }
  rewrite Z.add_0_l in *. rewrite settled_aggregate in * by done.
  set (n := num_child (entry g p) + pending_children g l).
  set (o := set_status _ _).
  destruct (composite_entry (entry g p) (pending_children g l) (aggregate (settled g l)))
    as (Hon & Hop & Hos & Hor); try lia.
  { rewrite <- settled_aggregate by done. apply merge_fold_u32. by vm_compute. }
  fold n o in Hon, Hop, Hos, Hor.
  pose proof (write_entry_spec p o g1 Hr1 Hp) as (_ & _ & _ & He2 & Hf2).
  fold (write_entry p o g1) in He2, Hf2.
  exists (write_entry p o g1). split; [done|]. split.
  - apply merge_commit with (nc := pending_children g l); rewrite ?Hep; auto. lia.
  - rewrite He2. split; [done|]. split; [done|]. split; [done|]. split.
    + intros i H0 Hne. rewrite Hf2 by done. auto.
    + intros i H0 Hne Hni. rewrite Hf2 by done. auto.
Qed.

(** Objects made active one after the other at the given indexes. *)
Definition add_obj (g : gmem) (h : Z) : gmem :=
  (@synx_global_init_coredata ref_env h
     (with_bitmap (bm_test_and_set (gm_bitmap g) (Z.land h SYNX_HANDLE_INDEX_MASK)).2 g)).2.

Definition boot_objs (l : list Z) : gmem := fold_left add_obj l boot.

Lemma add_obj_wf g h :
  client_idx (Z.land h SYNX_HANDLE_INDEX_MASK) -> gmem_wf g -> gmem_wf (add_obj g h).
Proof.
  intros Hi Hwf. apply init_coredata_wf; [by apply gmem_wf_set_bit|].
  split; [done|]. pose proof Hi as Hi'. unfold client_idx in Hi'.
  change (bm_test (bm_test_and_set (gm_bitmap g) (Z.land h SYNX_HANDLE_INDEX_MASK)).2
    (Z.land h SYNX_HANDLE_INDEX_MASK) = true).
  rewrite (bm_test_set SYNX_GLOBAL_MAX_OBJS), Z.eqb_refl by (try apply Hwf; lia). done.
Qed.

Lemma boot_objs_wf l :
  forallb (fun h => (0 <? Z.land h SYNX_HANDLE_INDEX_MASK) &&
                    (Z.land h SYNX_HANDLE_INDEX_MASK <? SYNX_GLOBAL_MAX_OBJS)) l = true ->
  gmem_wf (boot_objs l).
Proof.
  unfold boot_objs. generalize boot_wf. generalize boot.
  induction l as [|h l IH]; intros g Hwf H; [done|]. cbn [forallb fold_left] in *.
  apply andb_prop in H as [Hh H]. apply IH; [|done]. apply add_obj_wf; [|done].
  apply andb_prop in Hh as [H1 H2]. unfold client_idx. lia.
Qed.

Lemma merge_links_witness :
  exists g', @synx_global_merge ref_env [1; 2] 3 (boot_objs [1; 2; 3]) = (SYNX_SUCCESS, g') /\
    child_count [] g' /\ num_child (entry g' 3) = 2.
Proof.
  assert (Hr : ready (boot_objs [1; 2; 3])) by (split; vm_compute; reflexivity).
  assert (Hc : child_count [] (boot_objs [1; 2; 3]))
    by (apply child_count_no_links; vm_compute; reflexivity).
  destruct (merge_links (E := ref_env) (boot_objs [1; 2; 3]) [1; 2] 3) as (g' & H & Hc' & _ & Hn & _).
  - exact Hr.
  - apply boot_objs_wf. vm_compute; reflexivity.
  - exact Hc.
  - split; vm_compute; done.
  - assert (Hp : parents (entry (boot_objs [1; 2; 3]) 3) = [0; 0; 0; 0]) by (vm_compute; reflexivity).
    rewrite Hp. repeat constructor.
  - done.
  - by apply (bool_decide_unpack _).
  - by apply (bool_decide_unpack _).
  - repeat constructor; vm_compute; done.
  - assert (H1 : free_parent_slot (entry (boot_objs [1; 2; 3]) 1) = Some O) by (vm_compute; reflexivity).
    assert (H2 : free_parent_slot (entry (boot_objs [1; 2; 3]) 2) = Some O) by (vm_compute; reflexivity).
    repeat constructor; [rewrite H1|rewrite H2]; by eexists.
  - repeat constructor; vm_compute; done.
  - vm_compute; reflexivity.
  - vm_compute; reflexivity.
  - exists g'. split; [exact H|]. split; [exact Hc'|]. rewrite Hn. vm_compute. reflexivity.
Defined.

(** ** Failure *)

(** The entry of a constituent that has been linked to [p]. *)
Definition link (p : Z) (o : coredata) : coredata :=
  match free_parent_slot o with Some i => set_parent (Z.of_nat i) p o | None => o end.

(** The entry after the step of the rollback. *)
Definition unlink (p : Z) (o : coredata) : coredata :=
  match find_index (fun q => q =? p) (parents o) with
  | Some i => set_parent (Z.of_nat i) 0 o
  | None => o
  end.

Lemma find_index_absent p (l : list Z) :
  p ∉ l -> find_index (fun q => q =? p) l = None.
Proof.
  induction l as [|a l IH]; intros H; [done|]. apply not_elem_of_cons in H as [Hne H].
  simpl. destruct (Z.eqb_spec a p); [congruence|]. by rewrite IH.
Qed.

Lemma find_index_insert p (l : list Z) i :
  p ∉ l -> l !! i = Some 0 -> find_index (fun q => q =? p) (<[i := p]> l) = Some i.
Proof.
  revert i. induction l as [|a l IH]; intros [|i] H Hl; simpl in *; try done.
  - by rewrite Z.eqb_refl.
  - apply not_elem_of_cons in H as [Hne H]. destruct (Z.eqb_spec a p); [congruence|].
    by rewrite IH.
Qed.

Lemma unlink_link p o :
  client_idx p -> p ∉ parents o -> unlink p (link p o) = o.
Proof.
  intros Hp Hn. unfold client_idx, SYNX_GLOBAL_MAX_OBJS in Hp. unfold link.
  destruct (free_parent_slot o) as [i|] eqn:Hf.
  - apply free_slot_spec in Hf. unfold unlink. cbn [parents set_parent].
    rewrite u16_small by lia. unfold zupd at 1.
    destruct (Z.ltb_spec (Z.of_nat i) 0) as [|_]; [lia|]. rewrite Nat2Z.id.
    rewrite find_index_insert by done. unfold set_parent; simpl.
    rewrite zupd_zupd. change (u16 0) with 0.
    rewrite <- (znth_lookup 0 _ _ _ Hf), zupd_id. by destruct o.
  - unfold unlink. by rewrite find_index_absent.
Qed.

Section failure.
Context `{E : SynxEnv} `{!LockGranted E}.

(** [g] is [g0] with the entries of [l] linked to [p]. *)
Record linked (p : Z) (l : list Z) (g0 g : gmem) : Prop := mk_linked {
  lk_ready : ready g;
  lk_bitmap : gm_bitmap g = gm_bitmap g0;
  lk_trace : gm_trace g = gm_trace g0;
  lk_in i : i ∈ l -> entry g i = link p (entry g0 i);
  lk_out i : i <> 0 -> i ∉ l -> entry g i = entry g0 i
}.

Lemma merge_child_link p o nc ps o' nc' ps' ok :
  merge_child p o nc ps = (o', nc', ps', ok) ->
  o' = link p o /\ nc' = (if pending o then u32 (nc + 1) else nc) /\
  ok = match free_parent_slot o with Some _ => true | None => false end.
Proof.
  unfold merge_child, link. intros H.
  assert (Hsame : forall slot, status (match slot with
      Some i => set_parent (Z.of_nat i) p o | None => o end) = status o /\
      num_child (match slot with
      Some i => set_parent (Z.of_nat i) p o | None => o end) = num_child o) by (by intros []).
  destruct (Hsame (free_parent_slot o)) as [Hs Hn]. rewrite Hs, Hn in H. clear Hsame Hs Hn.
  revert H. unfold pending. destruct (Z.eqb_spec (status o) SYNX_STATE_ACTIVE); cbn [negb andb orb].
  - by intros [= <- <- _ <-].
  - destruct (_ && _); [|destruct (ps =? SYNX_STATE_ACTIVE)];
      destruct (num_child o =? 0); by intros [= <- <- _ <-].
Qed.

(** When the loop stops at the first full constituent, all of those tried are
    linked, and those that are pending are counted. *)
Definition pending_count (g : gmem) (l : list Z) : nat := countb (fun i => pending (entry g i)) l.

Lemma pending_count_app g l1 l2 : pending_count g (l1 ++ l2) = (pending_count g l1 + pending_count g l2)%nat.
Proof.
  unfold pending_count. induction l1 as [|j l1 IH]; [done|]. simpl. destruct (pending (entry g j)); lia.
Qed.

Lemma elem_take (l : list Z) n j : j ∈ take n l -> j ∈ l.
Proof. intros H. rewrite <- (take_drop n l). apply elem_of_app. by left. Qed.

Lemma merge_loop_stops p l1 l2 rc nc ps g0 g k i :
  client_idx p -> NoDup (l1 ++ l2) -> Forall client_idx (l1 ++ l2) ->
  linked p l1 g0 g -> nc = Z.of_nat (pending_count g0 l1) -> zlen (l1 ++ l2) < 2 ^ 32 ->
  l2 !! k = Some i -> free_parent_slot (entry g0 i) = None ->
  (forall j, j ∈ take k l2 -> free_parent_slot (entry g0 j) <> None) ->
  exists ps' g', merge_loop p l2 rc nc ps g =
      (false, - SYNX_NOMEM, Z.of_nat (pending_count g0 (l1 ++ take (S k) l2)), ps', g') /\
    linked p (l1 ++ take (S k) l2) g0 g'.
Proof.
  intros Hp. revert l1 rc nc ps g k.
  induction l2 as [|idx l2 IH]; intros l1 rc nc ps g k Hnd Hcl Hlk -> Hlen Hk Hfull Hfree; [done|].
  pose proof (proj1 (Forall_app _ _ _) Hcl) as [_ Hcl2]. apply Forall_cons in Hcl2 as [Hi _].
  pose proof Hi as Hi'. unfold client_idx in Hi'.
  pose proof (proj1 (NoDup_app _ _) Hnd) as (_ & Hdis & _).
  assert (Hnin : idx ∉ l1) by (intros Hx; apply (Hdis idx Hx); set_solver).
  destruct Hlk as [Hr Hb Ht Hin Hout].
  cbn [merge_loop]. rewrite valid_client by done. cbn [negb].
  rewrite lock_granted_eq by done. cbn [truthy negb Z.eqb].
  rewrite entry_acquire, Hout by (done || lia).
  destruct (merge_child p (entry g0 idx) (Z.of_nat (pending_count g0 l1)) ps) as [[[o nc1] ps1] ok1] eqn:Hm.
  pose proof (merge_child_link _ _ _ _ _ _ _ _ Hm) as [-> [Hnc Hok]].
  change (synx_gmem_unlock idx (set_entry idx (link p (entry g0 idx)) (acquire g)))
    with (write_entry idx (link p (entry g0 idx)) g).
  pose proof (write_entry_spec idx (link p (entry g0 idx)) g Hr Hi) as (Hr1 & Hb1 & Ht1 & He1 & Hf1).
  fold (write_entry idx (link p (entry g0 idx)) g) in Hr1, Hb1, Ht1, He1, Hf1.
  assert (Happ : l1 ++ idx :: l2 = (l1 ++ [idx]) ++ l2) by (by rewrite <- app_assoc).
  assert (Hsz : nc1 = Z.of_nat (pending_count g0 (l1 ++ [idx]))).
  { rewrite Hnc, pending_count_app. pose proof (countb_length (fun i => pending (entry g0 i)) l1) as Hcl1.
    unfold zlen in Hlen. rewrite length_app in Hlen. cbn [length] in Hlen. unfold pending_count in *. simpl.
    destruct (pending (entry g0 idx)); [rewrite u32_small|]; lia. }
  assert (Hlk1 : linked p (l1 ++ [idx]) g0 (write_entry idx (link p (entry g0 idx)) g)).
  { split; [done|congruence|congruence| |].
    - intros q Hx. destruct (Z.eq_dec q idx) as [->|Hne]; [done|].
      apply elem_of_app in Hx as [Hx|Hx]; [|apply list_elem_of_singleton in Hx; done].
      assert (Hc : client_idx q) by (apply (proj1 (list.Forall_forall _ _) Hcl); set_solver).
      unfold client_idx in Hc. rewrite Hf1 by lia. auto.
    - intros q H0 Hx. rewrite Hf1; [apply Hout; auto| |]; auto; set_solver. }
  destruct k as [|k].
  - injection Hk as ->. rewrite Hfull in Hok. cbn [take]. rewrite Hok, !take_0, <- Hsz. by eexists _, _.
  - cbn [take] in *. destruct (free_parent_slot (entry g0 idx)) eqn:Hs; [|by destruct (Hfree idx ltac:(set_solver))].
    rewrite Hok. cbn [negb].
    replace (l1 ++ idx :: take (S k) l2) with ((l1 ++ [idx]) ++ take (S k) l2) by (by rewrite <- app_assoc).
    rewrite Happ in *. apply IH; try done. intros q Hq. apply Hfree. set_solver.
Qed.

Lemma linked_nil p g0 g : ready g0 -> linked p [] g0 g -> gm_equiv g g0.
Proof.
  intros Hr0 [Hr Hb Ht _ Hout]. split; auto.
  - rewrite (rd_mapped _ Hr0). apply Hr.
  - rewrite (rd_hwlock _ Hr0). apply Hr.
  - rewrite (rd_held _ Hr0). apply Hr.
  - rewrite (rd_table _ Hr0). apply Hr.
  - intros i Hi. apply Hout; [done|]. apply not_elem_of_nil.
Qed.

(** The rollback undoes the first [n] links. *)
Lemma rollback_spec p l n m g0 g :
  client_idx p -> NoDup l -> Forall client_idx l ->
  Forall (fun i => p ∉ parents (entry g0 i)) l ->
  (n <= m <= length l)%nat -> forall rest, Forall (fun i => i ∈ l) rest ->
  (forall i, i ∈ take n l -> i ∉ rest) -> linked p (take n l ++ rest) g0 g ->
  linked p rest g0 (merge_rollback p l n g).
Proof.
  intros Hp Hnd Hcl Hfr Hm rest Hrest. revert g. induction n as [|n IH]; intros g Hdis Hlk.
  { by rewrite take_0 in Hlk. }
  destruct (lookup_lt_is_Some_2 l n ltac:(lia)) as [idx Hl].
  rewrite (take_S_r _ _ _ Hl) in Hlk, Hdis. destruct Hlk as [Hr Hb Ht Hin Hout].
  assert (Hi : client_idx idx) by (by eapply (Forall_lookup_1 _ _ _ _ Hcl)).
  pose proof Hi as Hi'. unfold client_idx in Hi'.
  assert (Hp0 : p ∉ parents (entry g0 idx)) by (by eapply (Forall_lookup_1 _ _ _ _ Hfr)).
  cbn [merge_rollback]. rewrite (znth_lookup 0 _ _ _ Hl), lock_granted_eq by done.
  cbn [truthy negb Z.eqb]. rewrite entry_acquire by lia.
  fold (unlink p (entry g idx)).
  rewrite (Hin idx) by set_solver. rewrite unlink_link by done.
  change (synx_gmem_unlock idx (set_entry idx (entry g0 idx) (acquire g)))
    with (write_entry idx (entry g0 idx) g).
  pose proof (write_entry_spec idx (entry g0 idx) g Hr Hi) as (Hr1 & Hb1 & Ht1 & He1 & Hf1).
  fold (write_entry idx (entry g0 idx) g) in Hr1, Hb1, Ht1, He1, Hf1.
  assert (Hnt : idx ∉ take n l).
  { intros Hx. apply list_elem_of_lookup_1 in Hx as [j Hj]. apply lookup_take_Some in Hj as [Hj Hlt].
    pose proof (NoDup_lookup _ _ _ _ Hnd Hj Hl). lia. }
  assert (Hnr : idx ∉ rest) by (apply Hdis; set_solver).
  apply IH; [lia|set_solver|]. split; [done|congruence|congruence| |].
  - intros i Hx. assert (i <> idx) by (intros ->; set_solver).
    assert (Hc : client_idx i).
    { apply (proj1 (list.Forall_forall _ _) Hcl). apply elem_of_app in Hx as [Hx|Hx].
      - by eapply elem_take.
      - by apply (proj1 (list.Forall_forall _ _) Hrest). }
    unfold client_idx in Hc. rewrite Hf1 by (done || lia). apply Hin. set_solver.
  - intros i H0 Hx. destruct (Z.eq_dec i idx) as [->|Hne]; [done|].
    rewrite Hf1 by done. apply Hout; [done|]. set_solver.
Qed.

End failure.

(** C8: what a merge leaves behind when a constituent has no free parent slot.
    The constituents are distinct and none names the new composite yet; [k] is the
    place of the first full one, whatever the others are. The merge fails with
    [-SYNX_NOMEM], and its rollback takes back as many links from the front as
    there are pending objects among the first [k + 1]; the others, if any, keep the
    link to the composite, and nothing else changes: neither other entries, nor the
    bitmap, nor the messages. When those first [k + 1] are all pending the table is
    as it was. *)
Theorem merge_failure_restores `{E : SynxEnv} `{!LockGranted E} (g : gmem) (l : list Z) (p : Z)
    (k : nat) (i : Z)
    (Hr : ready g) (Hp : client_idx p) (Hnd : NoDup l) (Hcl : Forall client_idx l)
    (Hfr : Forall (fun i => p ∉ parents (entry g i)) l) (Hlen : zlen l < 2 ^ 32)
    (Hk : l !! k = Some i) (Hfull : free_parent_slot (entry g i) = None)
    (Hfree : forall j, j ∈ take k l -> free_parent_slot (entry g j) <> None) :
  exists g', synx_global_merge l p g = (- SYNX_NOMEM, g') /\
    linked p (drop (pending_count g (take (S k) l)) (take (S k) l)) g g' /\
    (Forall (fun j => pending (entry g j) = true) (take (S k) l) -> gm_equiv g' g).
Proof.
  unfold synx_global_merge. rewrite (rd_mapped g Hr), valid_client by done. cbn [negb].
  destruct (Z.eqb_spec (zlen l) 0) as [Hz|_].
  { exfalso. destruct l; [done|]. unfold zlen in Hz. cbn in Hz. lia. }
  cbv zeta.
  destruct (merge_loop_stops p [] l (- SYNX_INVALID) 0 SYNX_STATE_ACTIVE g g k i) as (ps & g' & -> & Hlk); try done.
  { split; auto. intros j Hj. by apply not_elem_of_nil in Hj. }
  cbn [negb app] in *. rewrite Nat2Z.id. set (n := pending_count g (take (S k) l)) in *.
  pose proof (lookup_lt_Some _ _ _ Hk) as Hkl.
  assert (Hn : (n <= S k)%nat).
  { unfold n, pending_count. etrans; [apply countb_length|]. rewrite length_take. lia. }
  assert (Hnd' : NoDup (take (S k) l)) by (by eapply sublist_NoDup, sublist_take).
  assert (Hsplit : take n l ++ drop n (take (S k) l) = take (S k) l).
  { rewrite <- (take_drop n (take (S k) l)) at 2. rewrite take_take. by replace (n `min` S k)%nat with n by lia. }
  assert (Hroll : linked p (drop n (take (S k) l)) g (merge_rollback p l n g')).
  { apply (rollback_spec p l n (S k)); try done.
    - apply list.Forall_forall. intros j Hj. apply (elem_take l (S k)).
      rewrite <- (take_drop n (take (S k) l)). apply elem_of_app. by right.
    - rewrite <- Hsplit in Hnd'. apply NoDup_app in Hnd' as (_ & Hd & _). exact Hd.
    - by rewrite Hsplit. }
  eexists. split; [reflexivity|]. split; [exact Hroll|]. intros Hall. apply (linked_nil p); [done|].
  assert (Hns : n = length (take (S k) l)).
  { unfold n, pending_count. clear -Hall. induction Hall as [|j l' Hj _ IH]; [done|]. simpl. by rewrite Hj, IH. }
  rewrite drop_ge in Hroll by lia. exact Hroll.
Qed.

(** A constituent at [i] whose four parent slots are taken. *)
Definition fill_parents (i : Z) (g : gmem) : gmem :=
  upd_entry i (fun o => mk_coredata (status o) (handle o) (refcount o) (num_child o)
    (subscribers o) (waiters o) [11; 12; 13; 14]) g.

Lemma merge_failure_restores_witness :
  exists g', @synx_global_merge ref_env [1; 2] 3 (fill_parents 2 (boot_objs [1; 2; 3]))
    = (- SYNX_NOMEM, g') /\ gm_equiv g' (fill_parents 2 (boot_objs [1; 2; 3])).
Proof.
  set (g := fill_parents 2 (boot_objs [1; 2; 3])).
  assert (H1 : entry g 1 = mk_coredata 1 1 1 0 1 0 [0; 0; 0; 0]) by (vm_compute; reflexivity).
  assert (H2 : entry g 2 = mk_coredata 1 2 1 0 1 0 [11; 12; 13; 14]) by (vm_compute; reflexivity).
  destruct (merge_failure_restores (E := ref_env) g [1; 2] 3 1 2) as (g' & Heq & _ & Hg).
  - split; vm_compute; reflexivity.
  - split; vm_compute; done.
  - by apply (bool_decide_unpack _).
  - repeat constructor; vm_compute; done.
  - apply Forall_cons; split; [|apply Forall_cons; split; [|apply Forall_nil_2]];
      [rewrite H1|rewrite H2]; by apply (bool_decide_unpack _).
  - reflexivity.
  - reflexivity.
  - by rewrite H2.
  - intros j Hj. apply list_elem_of_singleton in Hj as ->. by rewrite H1.
  - exists g'. split; [exact Heq|]. apply Hg. cbn [take].
    apply Forall_cons; split; [by rewrite H1|].
    apply Forall_cons; split; [by rewrite H2|apply Forall_nil_2].
Defined.

(** The rollback counts the children that are pending, not the entries visited:
    with a signalled constituent first and another one that is full, it stops
    before the entry that was linked last, which keeps the index of a composite that was never built. *)
Definition stale_start : gmem :=
  let g := fill_parents 3 (boot_objs [1; 2; 3; 4]) in
  upd_entry 3 (set_status SYNX_STATE_SIGNALED_SUCCESS)
    (upd_entry 1 (set_status SYNX_STATE_SIGNALED_SUCCESS) g).

(** The rollback of a failed merge is not complete when a constituent was
    already signalled: the call fails with [-SYNX_NOMEM], yet entry 2 keeps the
    failed composite 4 as its parent. *)
Example merge_rollback_stale :
  exists g', @synx_global_merge ref_env [1; 2; 3] 4 stale_start = (- SYNX_NOMEM, g') /\
    parents (entry stale_start 2) = [0; 0; 0; 0] /\ parents (entry g' 2) = [4; 0; 0; 0].
Proof.
  exists (@synx_global_merge ref_env [1; 2; 3] 4 stale_start).2.
  split; [|split]; vm_compute; reflexivity.
Qed.

(** An index out of range after a good one is not reported: the variable
    [rc] holds the result of the last lock, so that the merge returns 0 although
    it has built no composite. *)
Example merge_invalid_reports_success :
  exists g', @synx_global_merge ref_env [1; 4096] 3 (boot_objs [1; 2; 3]) = (SYNX_SUCCESS, g') /\
    num_child (entry g' 3) = 0 /\ parents (entry g' 1) = [0; 0; 0; 0].
Proof.
  exists (@synx_global_merge ref_env [1; 4096] 3 (boot_objs [1; 2; 3])).2.
  split; [|split]; vm_compute; reflexivity.
Qed.

(** ** What the composition of the two does not give *)

(** Composite 2 of the objects 1 and 3, itself the constituent of composite 4. *)
Definition nested_start : gmem :=
  let g := (@synx_global_merge ref_env [1; 3] 2 (boot_objs [1; 2; 3; 4])).2 in
  (@synx_global_merge ref_env [2] 4 g).2.

(** A composite passes on the status of the notification that completed it, not
    the status it has itself: the error of object 3 reaches composite 2 and is
    lost for composite 4. *)
Example nested_composite_loses_error :
  exists g1 g2,
    @synx_global_update_status ref_env 10 3 3 nested_start = Some (SYNX_SUCCESS, g1) /\
    @synx_global_update_status ref_env 10 1 SYNX_STATE_SIGNALED_SUCCESS g1 = Some (SYNX_SUCCESS, g2) /\
    status (entry g2 2) = 3 /\ status (entry g2 4) = SYNX_STATE_SIGNALED_SUCCESS.
Proof.
  eexists _, _. split; [vm_compute; reflexivity|]. split; [vm_compute; reflexivity|].
  split; vm_compute; reflexivity.
Qed.

(** Signalling a pending composite changes nothing, but the caller is told that
    it succeeded. *)
Lemma composite_signal_reports_success `{E : SynxEnv} `{!LockGranted E} fuel g idx st :
  ready g -> client_idx idx -> SYNX_STATE_ACTIVE < st -> num_child (entry g idx) <> 0 ->
  exists g', synx_global_update_status fuel idx st g = Some (SYNX_SUCCESS, g') /\ gm_equiv g' g.
Proof.
  intros Hr Hi Hs Hn. rewrite update_status_granted by done.
  destruct (Z.eqb_spec (num_child (entry g idx)) 0); [done|].
  eexists. split; [reflexivity|]. by apply read_only_equiv.
Qed.
