(* ===== verification/SynxRecover.v ===== *)
(** * Synx global table: recovery after a subsystem restart

    The correctness of [synx_global_recover]: the loop over the allocated
    indexes terminates although it signals objects on the way, no reference of
    the crashed core survives, the objects it leaves behind are signalled and
    no index leaks. *)

From S2P Require Import Prelude Bitmap SynxGlobal SynxEntry SynxAlloc SynxSignal SynxMerge.

(** ** Definitions *)

(** Every entry's references back its subscribers and its constituents. *)
Definition refs_backed (g : gmem) : Prop := forall i, client_idx i -> ref_backed (entry g i).

(** Every allocated index has a reference. *)
Definition no_leak (g : gmem) : Prop :=
  forall i, allocated g i -> refcount (entry g i) <> 0.

(** The memory when a core has crashed: mapped, and the lock is free or held
    by that core. *)
Record crashed (core : Z) (g : gmem) : Prop := mk_crashed {
  cr_mapped : gm_mapped g = true;
  cr_hwlock : gm_hwlock g = true;
  cr_table : zlen (gm_table g) = SYNX_GLOBAL_MAX_OBJS;
  cr_lock : gm_held g = true -> synx_gmem_lock_owner 0 g = core
}.

(** A simple object still to be signalled that the crashed core shared with
    others. *)
Definition orphan (core : Z) (o : coredata) : Prop :=
  Z.testbit (subscribers o) core = true /\ 1 < refcount o /\
  status o = SYNX_STATE_ACTIVE /\ num_child o = 0.

(** What becomes of it. *)
Definition orphan_signalled (o : coredata) : Prop :=
  status o = SYNX_STATE_SIGNALED_SSR /\ num_child o = 0 /\ waiters o = 0.

(** ** One entry *)

Lemma core_bit_range core : 0 <= core < SYNX_CORE_MAX -> 0 <= core < 16.
Proof. unfold SYNX_CORE_MAX. lia. Qed.

Lemma testbit_clear_core m core x :
  0 <= core < SYNX_CORE_MAX -> 0 <= x < 16 ->
  Z.testbit (u16 (Z.land m (Z.lnot (BIT core)))) x = Z.testbit m x && negb (core =? x).
Proof.
  intros Hc Hx. unfold SYNX_CORE_MAX in Hc.
  by rewrite testbit_u16, testbit_land_lnot_BIT by lia.
Qed.

Lemma core_count_clear m core :
  0 <= core < SYNX_CORE_MAX -> Z.testbit m core = true ->
  core_count (u16 (Z.land m (Z.lnot (BIT core)))) = core_count m - 1.
Proof.
  intros Hc Hm. unfold core_count.
  change (seqZ 0 SYNX_CORE_MAX) with [0; 1; 2; 3; 4]. unfold countb.
  rewrite !testbit_clear_core by (done || lia). unfold SYNX_CORE_MAX in Hc.
  assert (core = 0 \/ core = 1 \/ core = 2 \/ core = 3 \/ core = 4) as Hx by lia.
  destruct Hx as [->|[->|[->|[->| ->]]]]; rewrite Hm; cbn [andb negb Z.eqb Pos.eqb];
    repeat match goal with |- context [Z.testbit m ?k] => destruct (Z.testbit m k) end;
    cbn [andb]; lia.
Qed.

Lemma core_count_pos m core :
  0 <= core < SYNX_CORE_MAX -> Z.testbit m core = true -> 0 < core_count m.
Proof.
  intros Hc Hm. pose proof (core_count_clear m core Hc Hm).
  pose proof (core_count_nonneg (u16 (Z.land m (Z.lnot (BIT core))))). lia.
Qed.

(** The entry with the core's reference and subscription dropped. *)
Definition drop_core (core : Z) (o : coredata) : coredata :=
  set_refcount (refcount o - 1) (set_subscribers (Z.land (subscribers o) (Z.lnot (BIT core))) o).

Lemma recover_entry_spec core o :
  0 <= core < SYNX_CORE_MAX -> entry_wf o -> ref_backed o ->
  recover_entry core o =
    if Z.testbit (subscribers o) core then
      if refcount o =? 1 then (zero_coredata, true, false)
      else (drop_core core o, false, status o =? SYNX_STATE_ACTIVE)
    else (o, false, false).
Proof.
  intros Hc Hw Hb. pose proof (ew_refcount o Hw) as Hr. unfold is_u16 in Hr.
  unfold recover_entry. rewrite land_BIT_testbit by apply Hc.
  destruct (Z.testbit (subscribers o) core) eqn:Ht; [|by rewrite andb_false_r].
  pose proof (core_count_pos _ _ Hc Ht) as Hp. unfold ref_backed in Hb.
  assert (1 <= refcount o) by (destruct (num_child o =? 0); lia).
  unfold truthy. destruct (Z.eqb_spec (refcount o) 0); [lia|]. cbn [negb andb].
  unfold drop_core. cbn [refcount set_refcount set_subscribers]. rewrite u16_small by lia.
  destruct (Z.eqb_spec (refcount o) 1), (Z.eqb_spec (refcount o - 1) 0); try lia; [done|].
  cbn [status set_refcount set_subscribers]. by destruct (status o =? SYNX_STATE_ACTIVE).
Qed.

Lemma drop_core_spec core o :
  0 <= core < SYNX_CORE_MAX -> entry_wf o -> ref_backed o ->
  Z.testbit (subscribers o) core = true ->
  entry_wf (drop_core core o) /\ ref_backed (drop_core core o) /\
  Z.testbit (subscribers (drop_core core o)) core = false /\
  refcount (drop_core core o) = refcount o - 1.
Proof.
  intros Hc Hw Hb Ht. pose proof (ew_refcount o Hw) as Hr. unfold is_u16 in Hr.
  pose proof (core_count_pos _ _ Hc Ht) as Hp. unfold ref_backed in *.
  assert (1 <= refcount o) by (destruct (num_child o =? 0); lia).
  split; [unfold drop_core; auto with synx|]. unfold drop_core. simpl.
  rewrite (u16_small (refcount o - 1)) by lia.
  rewrite core_count_clear, testbit_clear_core by (auto using core_bit_range).
  rewrite Z.eqb_refl, andb_false_r. repeat split. lia.
Qed.

(** The last reference is never that of a composite that expects children. *)
Lemma last_ref_no_child core o :
  0 <= core < SYNX_CORE_MAX -> ref_backed o -> Z.testbit (subscribers o) core = true ->
  refcount o = 1 -> num_child o = 0.
Proof.
  intros Hc Hb Ht Hr. pose proof (core_count_pos _ _ Hc Ht). unfold ref_backed in Hb.
  destruct (Z.eqb_spec (num_child o) 0); lia.
Qed.

(** ** The invariant of the loop *)

(** Before the visit of index [idx]: [cl] marks the entries released so far,
    [w] bounds the notifications still possible. *)
Record recover_inv (core w idx : Z) (cl : list Z) (g : gmem) : Prop := mk_recover_inv {
  ri_ready : ready g;
  ri_wf : gmem_wf g;
  ri_count : exists W, child_count W g;
  ri_backed : refs_backed g;
  ri_done i : client_idx i -> i < idx -> Z.testbit (subscribers (entry g i)) core = false;
  ri_cl i : client_idx i -> znth 0 cl i <> 0 -> entry g i = zero_coredata;
  ri_leak i : allocated g i -> refcount (entry g i) = 0 -> znth 0 cl i <> 0;
  ri_len : zlen cl = SYNX_GLOBAL_MAX_OBJS;
  ri_work : work g <= w
}.

Section recover.
Context `{E : SynxEnv} `{!LockGranted E} `{!BitSearchLaws synx_search}.
Context (core : Z) (Hcore : 0 <= core < SYNX_CORE_MAX).

(** What a visit does to the child counts. *)
Lemma child_count_release W idx g :
  ready g -> client_idx idx -> num_child (entry g idx) = 0 -> child_count W g ->
  exists W', child_count W' (write_entry idx zero_coredata g).
Proof.
  intros Hr Hi Hn Hc.
  exists ((if pending (entry g idx) then parents (entry g idx) else []) ++ W).
  apply child_count_entry; auto. intros p Hp. rewrite occurs_app. specialize (Hc p Hp).
  assert (Hz : holds_back p zero_coredata = 0) by done.
  assert (Hh : holds_back p (entry g idx) =
    occurs p (if pending (entry g idx) then parents (entry g idx) else []))
    by (unfold holds_back; by destruct (pending (entry g idx))).
  rewrite Hz, Hh. destruct (Z.eqb_spec p idx) as [->|]; simpl; lia.
Qed.

Lemma child_count_same W idx o g :
  ready g -> client_idx idx -> num_child o = num_child (entry g idx) ->
  (forall p, holds_back p o = holds_back p (entry g idx)) ->
  child_count W g -> child_count W (write_entry idx o g).
Proof.
  intros Hr Hi Hn Hh Hc. apply child_count_entry; auto. intros p Hp. rewrite Hh.
  specialize (Hc p Hp). destruct (Z.eqb_spec p idx) as [->|]; lia.
Qed.

Lemma work_write idx o g :
  ready g -> client_idx idx -> num_child o = num_child (entry g idx) ->
  work (write_entry idx o g) = work g.
Proof. intros Hr Hi Hn. unfold work. rewrite write_entry_sum by done. lia. Qed.

(** The invariant after the entry at [idx] was rewritten. *)
Lemma visit_write w idx cl cl' o g :
  recover_inv core w idx cl g -> client_idx idx -> entry_wf o -> ref_backed o ->
  (allocated g idx \/ o = entry g idx) ->
  num_child o = num_child (entry g idx) ->
  (exists W, child_count W (write_entry idx o g)) ->
  Z.testbit (subscribers o) core = false ->
  zlen cl' = SYNX_GLOBAL_MAX_OBJS -> (forall i, i <> idx -> znth 0 cl' i = znth 0 cl i) ->
  (znth 0 cl' idx <> 0 -> o = zero_coredata) ->
  (allocated g idx -> refcount o = 0 -> znth 0 cl' idx <> 0) ->
  recover_inv core w (idx + 1) cl' (write_entry idx o g).
Proof.
  intros [Hr Hwf Hc Hb Hd Hcl Hl Hlen Hw] Hi Ho Hbo Ha Hn Hc' Ht Hlen' Hne Hz Hlk.
  pose proof (write_entry_spec idx o g Hr Hi) as (Hr1 & Hb1 & _ & He1 & Hf1).
  fold (write_entry idx o g) in *.
  assert (He : forall i, client_idx i -> entry (write_entry idx o g) i =
    if i =? idx then o else entry g i).
  { intros i Hx. unfold client_idx in Hx. destruct (Z.eqb_spec i idx) as [->|]; [done|].
    apply Hf1; [lia|done]. }
  split; auto.
  - destruct Ha as [Ha|Ha]; [by apply write_entry_wf|].
    apply (gmem_wf_bit_table g); auto.
    + rewrite (rd_table _ Hr1). symmetry. apply Hr.
    + unfold write_entry. rewrite Ha.
      replace (set_entry idx (entry g idx) (acquire g)) with (acquire g).
      * by apply entry_wf_at, gmem_wf_release, gmem_wf_acquire.
      * rewrite <- (entry_acquire g idx) by (unfold client_idx in Hi; lia).
        unfold set_entry, entry. rewrite zupd_id. by destruct (acquire g).
    + intros i Hi0. destruct (Z.eq_dec i idx) as [->|]; [by rewrite He1|]. by apply Hf1.
  - intros i Hx. rewrite He by done. destruct (i =? idx); auto.
  - intros i Hx Hlt. rewrite He by done. destruct (Z.eqb_spec i idx); [done|]. apply Hd; [done|lia].
  - intros i Hx Hnz. rewrite He by done. destruct (Z.eqb_spec i idx) as [->|Hni]; [auto|].
    apply Hcl; [done|]. by rewrite <- Hne.
  - intros i [Hx Hbit] Hrc. rewrite He in Hrc by done. rewrite Hb1 in Hbit.
    destruct (Z.eqb_spec i idx) as [->|Hni]; [apply Hlk; [by split|done]|].
    rewrite Hne by done. apply Hl; [by split|done].
  - by rewrite work_write.
Qed.

(** The invariant is kept by a signal. *)
Lemma visit_signal w idx cl g g' :
  recover_inv core w idx cl g -> ready g' -> gmem_wf g' -> (exists W, child_count W g') ->
  shrinks g g' -> (forall i, client_idx i -> znth 0 cl i <> 0 -> entry g' i = entry g i) ->
  work g' <= work g -> recover_inv core w idx cl g'.
Proof.
  intros [Hr Hwf Hc Hb Hd Hcl Hl Hlen Hw] Hr' Hwf' Hc' [He Hbits Hlv] Hz Hw'.
  assert (Hn0 : forall i, client_idx i -> i <> 0) by (unfold client_idx; lia).
  split; auto; try lia.
  - intros i Hi. apply (He i); auto.
  - intros i Hi Hlt. destruct (He i (Hn0 i Hi)) as [Hs _].
    specialize (Hs core). rewrite Hd in Hs by done.
    destruct (Z.testbit (subscribers (entry g' i)) core); [|done]. symmetry. auto.
  - intros i Hi Hx. rewrite Hz by done. auto.
  - intros i [Hi Hbit] Hrc. assert (Hi' := Hi). unfold client_idx in Hi'.
    apply Hl; [split; [done|]; apply Hbits; [lia|done]|].
    destruct (Z.eq_dec (refcount (entry g i)) 0) as [|Hnz]; [done|].
    by destruct (Hlv i Hi Hbit Hnz).
Qed.

(** The indexes that the search skips are free. *)
Lemma visit_skip w idx cl g :
  0 < idx -> recover_inv core w idx cl g ->
  recover_inv core w (find_next_bit (gm_bitmap g) SYNX_GLOBAL_MAX_OBJS idx) cl g.
Proof.
  intros Hi [Hr Hwf Hc Hb Hd Hcl Hl Hlen Hw]. split; auto. intros i Hx Hlt.
  unfold client_idx in Hx. destruct (Z.lt_ge_cases i idx) as [|Hge]; [by apply Hd|].
  assert (Hz : entry g i = zero_coredata).
  { apply (gw_free g Hwf); [done|]. eapply fnb_first; [|exact Hlt|]; [lia|].
    apply fnb_range; unfold SYNX_GLOBAL_MAX_OBJS; lia. }
  rewrite Hz. apply Z.bits_0.
Qed.

Lemma entry_read g i : client_idx i -> entry (release (acquire g)) i = entry g i.
Proof. intros Hi. unfold client_idx in Hi. by rewrite entry_release, entry_acquire by lia. Qed.

Lemma read_shrinks g : shrinks g (release (acquire g)).
Proof.
  split; try done.
  - intros i Hi. by rewrite entry_release, entry_acquire.
  - intros i Hi. by rewrite entry_read.
Qed.

(** The signal that follows the visit of a surviving entry. *)
Lemma visit_update fuel w idx cl g :
  recover_inv core w (idx + 1) cl g -> client_idx idx -> w < Z.of_nat fuel ->
  status (entry g idx) = SYNX_STATE_ACTIVE ->
  exists g2, synx_global_update_status (S fuel) idx SYNX_STATE_SIGNALED_SSR g = Some (0, g2) /\
    recover_inv core w (idx + 1) cl g2 /\
    (forall i, client_idx i -> i <> idx -> num_child (entry g i) = 0 -> entry g2 i = entry g i) /\
    (num_child (entry g idx) = 0 -> orphan_signalled (entry g2 idx)).
Proof.
  intros Hinv Hi Hfuel Ha. pose proof Hinv as [Hr Hwf [W Hc] Hb Hd Hcl Hl Hlen Hw].
  destruct (Z.eq_dec (num_child (entry g idx)) 0) as [Hn|Hn].
  - destruct (update_status_leaf fuel idx SYNX_STATE_SIGNALED_SSR W g)
      as (g2 & Heq & H1 & H2 & H3 & H4 & H5 & H6 & H7 & _); auto; [lia|by vm_compute|].
    exists g2. split; [done|]. split; [|split].
    + apply (visit_signal w _ cl g); auto; [by exists W|].
      intros i Hx Hz. pose proof (Hcl i Hx Hz) as Hzero. apply H5.
      * unfold client_idx in Hx. lia.
      * intros ->. by rewrite Hzero in Ha.
      * by rewrite Hzero.
    + intros i Hx Hne H0. apply H5; auto. unfold client_idx in Hx. lia.
    + intros _. rewrite H4. repeat split. done.
  - rewrite update_status_granted by (auto; by vm_compute).
    destruct (Z.eqb_spec (num_child (entry g idx)) 0); [done|]. cbn [negb].
    exists (release (acquire g)). split; [done|]. split; [|split; [|done]].
    + apply (visit_signal w _ cl g); auto.
      * by apply ready_read.
      * by apply gmem_wf_release, gmem_wf_acquire.
      * exists W. by apply child_count_read.
      * apply read_shrinks.
      * intros i Hx _. by apply entry_read.
      * by rewrite work_read.
    + intros i Hx _ _. by apply entry_read.
Qed.

Lemma subscribed_allocated g idx :
  gmem_wf g -> client_idx idx -> Z.testbit (subscribers (entry g idx)) core = true ->
  allocated g idx.
Proof.
  intros Hwf Hi Ht. apply nonzero_allocated; auto. intros Hz. rewrite Hz in Ht.
  simpl in Ht. by rewrite Z.bits_0 in Ht.
Qed.

(** One round of the loop. *)
Lemma recover_round fuel w idx cl g :
  recover_inv core w idx cl g -> client_idx idx -> w < Z.of_nat fuel ->
  let '(o, released, update) := recover_entry core (entry g idx) in
  exists rc g2,
    (if update then synx_global_update_status (S fuel) idx SYNX_STATE_SIGNALED_SSR
                      (write_entry idx o g)
     else Some (0, write_entry idx o g)) = Some (rc, g2) /\
    recover_inv core w (idx + 1) (if released then zupd cl idx 1 else cl) g2 /\
    (forall i, client_idx i -> i <> idx -> num_child (entry g i) = 0 -> entry g2 i = entry g i) /\
    (orphan core (entry g idx) -> orphan_signalled (entry g2 idx)).
Proof.
  intros Hinv Hi Hfuel. pose proof Hinv as [Hr Hwf [W Hc] Hb Hd Hcl Hl Hlen Hw].
  assert (Hi' := Hi). unfold client_idx in Hi'.
  pose proof (entry_wf_at g idx Hwf) as Hwo. pose proof (Hb idx Hi) as Hbo.
  assert (Hframe : forall o i, client_idx i -> i <> idx -> entry (write_entry idx o g) i = entry g i).
  { intros o i Hx Hne. unfold client_idx in Hx. apply (write_entry_spec idx o g Hr Hi); lia. }
  rewrite recover_entry_spec by done.
  destruct (Z.testbit (subscribers (entry g idx)) core) eqn:Ht.
  - pose proof (subscribed_allocated g idx Hwf Hi Ht) as Ha.
    destruct (Z.eqb_spec (refcount (entry g idx)) 1) as [H1|H1].
    + pose proof (last_ref_no_child core _ Hcore Hbo Ht H1) as Hn.
      eexists _, _. split; [reflexivity|]. split; [|split; [auto|]].
      * apply (visit_write w idx cl); auto; try done.
        { apply entry_wf_zero. }
        { by apply (child_count_release W). }
        { apply Z.bits_0. }
        { by rewrite zlen_zupd. }
        { intros i Hne. by rewrite znth_zupd_ne by auto. }
        { intros _ _. rewrite znth_zupd_eq; lia. }
      * intros (_ & Hx & _). lia.
    + destruct (drop_core_spec core _ Hcore Hwo Hbo Ht) as (Hwd & Hbd & Htd & Hrd).
      assert (Hpre : recover_inv core w (idx + 1) cl (write_entry idx (drop_core core (entry g idx)) g)).
      { apply (visit_write w idx cl); auto.
        - exists W. by apply child_count_same.
        - intros Hz. pose proof (Hcl idx Hi Hz) as Hzero. rewrite Hzero in Ht.
          simpl in Ht. by rewrite Z.bits_0 in Ht.
        - intros _ Hz. lia. }
      assert (He : entry (write_entry idx (drop_core core (entry g idx)) g) idx
                   = drop_core core (entry g idx)) by (by apply write_entry_spec).
      destruct (Z.eqb_spec (status (entry g idx)) SYNX_STATE_ACTIVE) as [Hs|Hs].
      * destruct (visit_update fuel w idx cl _ Hpre Hi Hfuel) as (g2 & -> & H2 & H3 & H4).
        { by rewrite He. }
        exists 0, g2. split; [done|]. split; [done|]. split.
        { intros i Hx Hne Hn. rewrite H3; rewrite ?Hframe; auto. }
        { intros (_ & _ & _ & Hn). apply H4. by rewrite He. }
      * eexists _, _. split; [reflexivity|]. split; [done|]. split; [auto|].
        by intros (_ & _ & Hx & _).
  - eexists _, _. split; [reflexivity|]. split; [|split; [auto|]].
    + apply (visit_write w idx cl); auto. exists W. by apply child_count_same.
    + intros (Hx & _). congruence.
Qed.

(** The loop from index [idx] on. *)
Lemma recover_loop_ok fuel n w idx rc cl g :
  recover_inv core w idx cl g -> 0 < idx <= SYNX_GLOBAL_MAX_OBJS -> w < Z.of_nat fuel ->
  SYNX_GLOBAL_MAX_OBJS - idx <= Z.of_nat n -> rc = 0 ->
  exists cl' g', recover_loop (S fuel) n core idx rc cl g = Some (true, 0, cl', g') /\
    recover_inv core w SYNX_GLOBAL_MAX_OBJS cl' g' /\
    (forall i, client_idx i -> idx <= i -> orphan core (entry g i) -> orphan_signalled (entry g' i)) /\
    (forall i, client_idx i -> i < idx -> orphan_signalled (entry g i) -> orphan_signalled (entry g' i)).
Proof.
  revert idx rc cl g. induction n as [|n IH]; intros idx rc cl g Hinv Hidx Hfuel Hn ->.
  - assert (idx = SYNX_GLOBAL_MAX_OBJS) as -> by lia. exists cl, g.
    split; [done|]. split; [done|]. split; [|auto].
    intros i Hi Hge. unfold client_idx in Hi. lia.
  - cbn [recover_loop]. destruct (Z.ltb_spec idx SYNX_GLOBAL_MAX_OBJS) as [Hlt|Hge]; cbn [negb].
    2: { assert (idx = SYNX_GLOBAL_MAX_OBJS) as -> by lia. exists cl, g.
      split; [done|]. split; [done|]. split; [|auto].
      intros i Hi Hge'. unfold client_idx in Hi. lia. }
    assert (Hi : client_idx idx) by (unfold client_idx; lia).
    rewrite lock_granted_eq by apply Hinv. cbn [truthy negb Z.eqb].
    rewrite entry_acquire by lia.
    pose proof (recover_round fuel w idx cl g Hinv Hi Hfuel) as Hround.
    destruct (recover_entry core (entry g idx)) as [[o released] update].
    change (synx_gmem_unlock idx (set_entry idx o (acquire g))) with (write_entry idx o g).
    destruct Hround as (rc' & g2 & -> & Hinv2 & Hfr & Horph).
    pose proof (visit_skip w (idx + 1) _ _ ltac:(lia) Hinv2) as Hinv3.
    set (next := find_next_bit (gm_bitmap g2) SYNX_GLOBAL_MAX_OBJS (idx + 1)) in *.
    assert (Hnext : idx + 1 <= next <= SYNX_GLOBAL_MAX_OBJS).
    { pose proof (fnb_range (gm_bitmap g2) SYNX_GLOBAL_MAX_OBJS (idx + 1)). fold next in H.
      unfold SYNX_GLOBAL_MAX_OBJS in *. lia. }
    destruct (IH next 0 _ g2 Hinv3) as (cl' & g' & -> & H1 & H2 & H3); auto; try lia.
    exists cl', g'. split; [done|]. split; [done|].
    assert (Hkeep : forall i, client_idx i -> i < next -> orphan_signalled (entry g2 i) ->
      orphan_signalled (entry g' i)) by auto.
    split.
    + intros i Hx Hge Ho. destruct (Z.eq_dec i idx) as [->|Hne]; [apply Hkeep; auto; lia|].
      assert (He : entry g2 i = entry g i) by (apply Hfr; [done|done|apply Ho]).
      destruct (Z.lt_ge_cases i next) as [Hl|Hl]; [|apply H2; rewrite ?He; auto].
      pose proof (ri_done _ _ _ _ _ Hinv3 i Hx Hl) as Hd. rewrite He in Hd.
      destruct Ho as [Ho _]. congruence.
    + intros i Hx Hl Ho. apply Hkeep; [done|lia|].
      rewrite Hfr; [done|done|lia|apply Ho].
Qed.

End recover.

(** The final loop clears the bits of the released entries. *)
Lemma release_bits_spec cl l g :
  gmem_wf g -> NoDup l -> (forall i, i ∈ l -> client_idx i) ->
  (forall i, client_idx i -> znth 0 cl i <> 0 -> entry g i = zero_coredata) ->
  let g' := fold_left (fun g idx => release_bit (truthy (znth 0 cl idx)) idx g) l g in
  gmem_wf g' /\ gm_table g' = gm_table g /\ (ready g -> ready g') /\
  (forall i, client_idx i -> bm_test (gm_bitmap g') i =
     bm_test (gm_bitmap g) i && negb (bool_decide (i ∈ l) && truthy (znth 0 cl i))).
Proof.
  revert g. induction l as [|a l IH]; intros g Hwf Hnd Hl Hz; cbn [fold_left].
  { split; [done|]. split; [done|]. split; [done|]. intros i _. rewrite bool_decide_eq_false_2 by apply not_elem_of_nil.
    by rewrite andb_true_r. }
  apply NoDup_cons in Hnd as [Hna Hnd].
  assert (Ha : client_idx a) by (apply Hl; set_solver).
  set (g1 := release_bit (truthy (znth 0 cl a)) a g).
  assert (Hg1 : gmem_wf g1 /\ gm_table g1 = gm_table g /\ (ready g -> ready g1) /\
    (forall i, client_idx i -> bm_test (gm_bitmap g1) i =
      bm_test (gm_bitmap g) i && negb ((i =? a) && truthy (znth 0 cl a)))).
  { unfold g1. destruct (truthy (znth 0 cl a)) eqn:Ht.
    - split; [|split; [done|split]].
      + apply gmem_wf_release_bit; auto. apply Hz; [done|].
        intros Hzero. by rewrite Hzero in Ht.
      + by intros [].
      + intros i Hi. unfold client_idx in *. rewrite bitmap_release_bit.
        rewrite (bm_test_clear SYNX_GLOBAL_MAX_OBJS) by (apply Hwf || lia).
        destruct (i =? a), (bm_test (gm_bitmap g) i); done.
    - split; [done|]. split; [done|]. split; [done|]. intros i _.
      by rewrite andb_false_r, andb_true_r. }
  destruct Hg1 as (Hwf1 & Ht1 & Hr1 & Hb1).
  assert (He1 : forall i, entry g1 i = entry g i) by (intros; unfold entry; by rewrite Ht1).
  destruct (IH g1) as (H1 & H2 & H3 & H4); auto.
  { intros i Hi. apply Hl. set_solver. }
  { intros i Hi Hx. rewrite He1. auto. }
  split; [done|]. split; [congruence|]. split; [auto|].
  intros i Hi. rewrite H4, Hb1 by done. rewrite <- andb_assoc. f_equal.
  destruct (Z.eqb_spec i a) as [->|Hne].
  - rewrite (bool_decide_eq_false_2 (a ∈ l)) by done.
    rewrite (bool_decide_eq_true_2 (a ∈ a :: l)) by set_solver. cbn [andb negb].
    by rewrite andb_true_r.
  - assert (Hiff : bool_decide (i ∈ a :: l) = bool_decide (i ∈ l))
      by (apply bool_decide_ext; set_solver).
    by rewrite Hiff.
Qed.

Lemma recover_clear_spec cl g :
  gmem_wf g -> (forall i, client_idx i -> znth 0 cl i <> 0 -> entry g i = zero_coredata) ->
  gmem_wf (recover_clear cl g) /\ gm_table (recover_clear cl g) = gm_table g /\
  (ready g -> ready (recover_clear cl g)) /\
  (forall i, client_idx i -> bm_test (gm_bitmap (recover_clear cl g)) i =
     bm_test (gm_bitmap g) i && negb (truthy (znth 0 cl i))).
Proof.
  intros Hwf Hz. unfold recover_clear.
  assert (Hin : forall i, i ∈ seqZ 1 (SYNX_GLOBAL_MAX_OBJS - 1) <-> client_idx i).
  { intros i. rewrite elem_of_seqZ. unfold client_idx. lia. }
  assert (Hnd : NoDup (seqZ 1 (SYNX_GLOBAL_MAX_OBJS - 1))) by apply NoDup_seqZ.
  revert Hin Hnd. generalize (seqZ 1 (SYNX_GLOBAL_MAX_OBJS - 1)). intros l Hin Hnd.
  destruct (release_bits_spec cl l g Hwf Hnd (fun i => proj1 (Hin i)) Hz) as (H1 & H2 & H3 & H4).
  repeat (split; [done|]). intros i Hi. rewrite H4 by done.
  by rewrite (bool_decide_eq_true_2 _ (proj2 (Hin i) Hi)).
Qed.

(** The state in which the loop starts. *)
Lemma zsum_release (f : coredata -> Z) g :
  (forall v o, f (set_subscribers v o) = f o) -> zlen (gm_table g) = SYNX_GLOBAL_MAX_OBJS ->
  zsum f (gm_table (release g)) = zsum f (gm_table g).
Proof.
  intros Hf Hl. change (gm_table (release g)) with
    (zupd (gm_table g) 0 (set_subscribers SYNX_CORE_MAX (entry g 0))).
  rewrite (zsum_zupd f zero_coredata), Hf by (rewrite Hl; done). unfold entry. lia.
Qed.

(** [ipclite_recover] and the release of an orphaned lock. *)
Definition recover_start (core : Z) (g : gmem) : gmem :=
  let g := with_event (IpcliteRecover (synx_global_map_core_id core)) g in
  if synx_gmem_lock_owner 0 g =? core then release g else g.

Lemma recover_start_spec core g :
  crashed core g -> gmem_wf g -> child_count [] g ->
  let g1 := recover_start core g in
  ready g1 /\ gmem_wf g1 /\ child_count [] g1 /\ work g1 = work g /\
  gm_bitmap g1 = gm_bitmap g /\ (forall i, client_idx i -> entry g1 i = entry g i).
Proof.
  intros [Hm Hh Ht Hl] Hwf Hc. unfold recover_start. cbv zeta.
  change (synx_gmem_lock_owner 0 (with_event _ g)) with (synx_gmem_lock_owner 0 g).
  set (g0 := with_event (IpcliteRecover (synx_global_map_core_id core)) g).
  assert (Hwf0 : gmem_wf g0) by (destruct Hwf; by split).
  destruct (Z.eqb_spec (synx_gmem_lock_owner 0 g) core) as [He|He].
  - split; [by apply ready_release|]. split; [by apply gmem_wf_release|].
    assert (Hen : forall i, client_idx i -> entry (release g0) i = entry g i).
    { intros i Hi. unfold client_idx in Hi. by rewrite entry_release by lia. }
    split; [|split; [|done]].
    + intros p Hp. rewrite Hen, zsum_release by (done || auto using holds_back_subscribers). by apply Hc.
    + unfold work. by rewrite zsum_release.
  - split; [|done]. split; try done. change (gm_held g = false).
    destruct (gm_held g); [|done]. by destruct (He (Hl eq_refl)).
Qed.

(** C9: recovery after the crash of a core. From a well-formed memory whose
    references back the subscribers, in which the crashed core may still hold
    the lock, [synx_global_recover] terminates and succeeds; the lock is free
    again, no entry names the core as a subscriber, every active simple object
    it shared is signalled with [SSR], and every index that is still allocated
    has a reference, so that what the core held alone is free for reuse. *)
Theorem recover_correct `{E : SynxEnv} `{!LockGranted E} `{!BitSearchLaws synx_search}
    (core : Z) (g : gmem) (Hk : kzalloc_ok = true) (Hcore : 0 <= core < SYNX_CORE_MAX)
    (Hcr : crashed core g) (Hwf : gmem_wf g) (Hc : child_count [] g)
    (Hb : refs_backed g) (Hl : no_leak g) :
  exists g', synx_global_recover (signal_fuel g) core g = Some (SYNX_SUCCESS, g') /\
    ready g' /\ gmem_wf g' /\ no_leak g' /\
    (forall i, client_idx i -> Z.testbit (subscribers (entry g' i)) core = false) /\
    (forall i, client_idx i -> orphan core (entry g i) -> orphan_signalled (entry g' i)).
Proof.
  unfold synx_global_recover. rewrite (cr_mapped _ _ Hcr), Hk. cbn [negb].
  destruct (recover_start_spec core g Hcr Hwf Hc) as (Hr1 & Hwf1 & Hc1 & Hw1 & Hb1 & He1).
  change (if synx_gmem_lock_owner 0 (with_event _ g) =? core then _ else _)
    with (recover_start core g).
  set (g1 := recover_start core g) in *.
  set (cl := replicate (Z.to_nat SYNX_GLOBAL_MAX_OBJS) 0).
  assert (Hcl : forall i, znth 0 cl i = 0).
  { intros i. destruct (decide (0 <= i < SYNX_GLOBAL_MAX_OBJS)) as [Hi|Hi].
    - apply znth_replicate. unfold SYNX_GLOBAL_MAX_OBJS in *. lia.
    - apply znth_oob. unfold cl, zlen. rewrite length_replicate.
      unfold SYNX_GLOBAL_MAX_OBJS in *. lia. }
  assert (Hinv : recover_inv core (work g) 1 cl g1).
  { split; auto; try lia.
    - by exists [].
    - intros i Hi. rewrite He1 by done. auto.
    - intros i Hi Hlt. unfold client_idx in Hi. lia.
    - intros i _ Hx. by rewrite Hcl in Hx.
    - intros i [Hi Ha] Hx. rewrite He1 in Hx by done. destruct (Hl i); [|done].
      split; [done|]. by rewrite <- Hb1. }
  pose proof (visit_skip core (work g) 1 cl g1 ltac:(lia) Hinv) as Hinv1.
  change (0 + 1) with 1.
  set (idx := find_next_bit (gm_bitmap g1) SYNX_GLOBAL_MAX_OBJS 1) in *.
  assert (Hidx : 0 < idx <= SYNX_GLOBAL_MAX_OBJS).
  { pose proof (fnb_range (gm_bitmap g1) SYNX_GLOBAL_MAX_OBJS 1). fold idx in H.
    unfold SYNX_GLOBAL_MAX_OBJS in *. lia. }
  unfold signal_fuel. pose proof (work_nonneg g Hwf) as Hwn.
  destruct (recover_loop_ok core Hcore (S (Z.to_nat (work g))) (Z.to_nat SYNX_GLOBAL_MAX_OBJS)
    (work g) idx SYNX_SUCCESS cl g1 Hinv1 Hidx) as (cl' & g2 & -> & Hinv2 & Ho & _); try lia; [done|].
  destruct Hinv2 as [Hr2 Hwf2 _ _ Hd2 Hcl2 Hlk2 _ _].
  destruct (recover_clear_spec cl' g2 Hwf2 Hcl2) as (Hwf3 & Ht3 & Hr3 & Hb3).
  set (g3 := recover_clear cl' g2) in *.
  assert (He3 : forall i, entry g3 i = entry g2 i) by (intros; unfold entry; by rewrite Ht3).
  exists g3. split; [done|]. split; [auto|]. split; [done|]. split; [|split].
  - intros i [Hi Ha]. rewrite He3. intros Hz. rewrite Hb3 in Ha by done.
    apply andb_prop in Ha as [Ha Hn]. assert (Hnz : znth 0 cl' i <> 0) by (apply Hlk2; [by split|done]).
    unfold truthy in Hn. rewrite (proj2 (Z.eqb_neq _ 0) Hnz) in Hn. discriminate Hn.
  - intros i Hi. rewrite He3. apply Hd2; [done|apply Hi].
  - intros i Hi Horph. rewrite He3. destruct (Z.lt_ge_cases i idx) as [Hlt|Hge].
    + pose proof (ri_done _ _ _ _ _ Hinv1 i Hi Hlt) as Hx. rewrite He1 in Hx by done.
      destruct Horph as [Hy _]. congruence.
    + apply Ho; auto. by rewrite He1.
Qed.

(** ** Witness and limits *)

(** A check of every entry with its index. *)
Lemma forallb_entries (P : Z -> coredata -> bool) g :
  zlen (gm_table g) = SYNX_GLOBAL_MAX_OBJS ->
  forallb (fun x => P x.1 x.2) (zip (seqZ 0 SYNX_GLOBAL_MAX_OBJS) (gm_table g)) = true ->
  forall i, client_idx i -> P i (entry g i) = true.
Proof.
  intros Hl H i Hi. unfold client_idx in Hi.
  rewrite forallb_forall in H. apply (H (i, entry g i)). apply list_elem_of_In.
  apply (list_elem_of_lookup_2 _ (Z.to_nat i)).
  apply lookup_zip_Some. simpl. split.
  - rewrite lookup_seqZ. lia.
  - apply lookup_znth. lia.
Qed.

(** NSP (core 1) shares object 1 with the application core, owns object 2
    alone, and has crashed inside a locked section. *)
Definition crash_start : gmem :=
  let g := boot_objs [1; 2] in
  let g := (@synx_global_set_subscribed_core ref_env 1 SYNX_CORE_NSP g).2 in
  let g := (@synx_global_get_ref ref_env 1 g).2 in
  let g := (@synx_global_set_subscribed_core ref_env 2 SYNX_CORE_NSP g).2 in
  let g := (@synx_global_clear_subscribed_core ref_env 2 SYNX_CORE_APSS g).2 in
  with_held true (upd_entry 0 (set_subscribers SYNX_CORE_NSP) g).

Lemma orphan_lock_wf v g :
  gmem_wf g -> gmem_wf (with_held true (upd_entry 0 (set_subscribers v) g)).
Proof.
  intros H. assert (Hl : 0 <= 0 < zlen (gm_table g))
    by (rewrite (gw_table g H); unfold SYNX_GLOBAL_MAX_OBJS; lia).
  apply (gmem_wf_bit_table g); auto.
  - apply zlen_zupd.
  - change (entry_wf (entry (upd_entry 0 (set_subscribers v) g) 0)).
    unfold upd_entry. rewrite entry_set_eq by done.
    apply entry_wf_subscribers, (entry_wf_at g 0 H).
  - intros i Hi. change (entry (upd_entry 0 (set_subscribers v) g) i = entry g i).
    unfold upd_entry. by rewrite entry_set_ne by auto.
Qed.

Lemma crash_start_wf : gmem_wf crash_start.
Proof.
  assert (Ha : forall g i, gm_bitmap g = gm_bitmap (boot_objs [1; 2]) -> i = 1 \/ i = 2 ->
    allocated g i).
  { intros g i Hb [->| ->]; split; try (split; vm_compute; done);
      rewrite Hb; vm_compute; reflexivity. }
  assert (Hwf : gmem_wf (boot_objs [1; 2])) by (apply boot_objs_wf; vm_compute; reflexivity).
  unfold crash_start. cbv zeta.
  set (g1 := (synx_global_set_subscribed_core 1 SYNX_CORE_NSP _).2).
  assert (H1 : gmem_wf g1) by (apply set_subscribed_core_wf; [done|apply Ha; auto]).
  set (g2 := (synx_global_get_ref 1 g1).2).
  assert (H2 : gmem_wf g2) by (apply get_ref_wf; [done|apply Ha; [vm_compute; reflexivity|auto]]).
  set (g3 := (synx_global_set_subscribed_core 2 SYNX_CORE_NSP g2).2).
  assert (H3 : gmem_wf g3)
    by (apply set_subscribed_core_wf; [done|apply Ha; [vm_compute; reflexivity|auto]]).
  set (g4 := (synx_global_clear_subscribed_core 2 SYNX_CORE_APSS g3).2).
  assert (H4 : gmem_wf g4)
    by (apply clear_subscribed_core_wf; [done|apply Ha; [vm_compute; reflexivity|auto]]).
  by apply orphan_lock_wf.
Qed.

Lemma crash_start_crashed : crashed SYNX_CORE_NSP crash_start.
Proof. split; [..|intros _]; vm_compute; reflexivity. Qed.

Lemma crash_start_refs : refs_backed crash_start /\ no_leak crash_start.
Proof.
  assert (H := forallb_entries (fun i o => (i =? 0) ||
    ((core_count (subscribers o) + (if num_child o =? 0 then 0 else 1) <=? refcount o) &&
     (negb (bm_test (gm_bitmap crash_start) i) || negb (refcount o =? 0)))) crash_start
     (cr_table _ _ crash_start_crashed) ltac:(vm_compute; reflexivity)).
  cbv beta in H. split.
  - intros i Hi. assert (Hi' := Hi). unfold client_idx in Hi'. specialize (H i Hi).
    destruct (Z.eqb_spec i 0); [lia|]. cbn [orb] in H. apply andb_prop in H as [H _].
    apply Z.leb_le, H.
  - intros i [Hi Ha]. assert (Hi' := Hi). unfold client_idx in Hi'. specialize (H i Hi).
    destruct (Z.eqb_spec i 0); [lia|]. cbn [orb] in H. apply andb_prop in H as [_ H].
    rewrite Ha in H. cbn [negb orb] in H.
    by destruct (Z.eqb_spec (refcount (entry crash_start i)) 0).
Qed.

Lemma recover_correct_witness :
  orphan SYNX_CORE_NSP (entry crash_start 1) /\
  exists g', @synx_global_recover ref_env (signal_fuel crash_start) SYNX_CORE_NSP crash_start
    = Some (SYNX_SUCCESS, g') /\ orphan_signalled (entry g' 1).
Proof.
  assert (Ho : orphan SYNX_CORE_NSP (entry crash_start 1)) by (repeat split; vm_compute; reflexivity).
  split; [exact Ho|].
  destruct (recover_correct (E := ref_env) SYNX_CORE_NSP crash_start)
    as (g' & H & _ & _ & _ & _ & Horph).
  - reflexivity.
  - split; vm_compute; done.
  - exact crash_start_crashed.
  - exact crash_start_wf.
  - apply child_count_no_links. vm_compute. reflexivity.
  - exact (proj1 crash_start_refs).
  - exact (proj2 crash_start_refs).
  - exists g'. split; [exact H|]. apply Horph; [exact client_1|exact Ho].
Defined.

(** Object 1 belongs to NSP alone and is the only constituent of composite 3. *)
Definition crash_composite : gmem :=
  let g := boot_objs [1; 3] in
  let g := (@synx_global_merge ref_env [1] 3 g).2 in
  let g := (@synx_global_set_subscribed_core ref_env 1 SYNX_CORE_NSP g).2 in
  (@synx_global_clear_subscribed_core ref_env 1 SYNX_CORE_APSS g).2.

(** A constituent whose last reference was the crashed core's is released
    without being signalled: the composite keeps waiting for a notification
    that can no longer come. *)
Example recover_starves_composite :
  exists g', @synx_global_recover ref_env 10 SYNX_CORE_NSP crash_composite = Some (SYNX_SUCCESS, g') /\
    entry g' 1 = zero_coredata /\ bm_test (gm_bitmap g') 1 = false /\
    status (entry g' 3) = SYNX_STATE_ACTIVE /\ num_child (entry g' 3) = 1.
Proof.
  eexists. split; [vm_compute; reflexivity|].
  repeat split; vm_compute; reflexivity.
Qed.

(** The lock service times out at the request of the given rank. *)
Definition timeout_env (k : nat) : SynxEnv := {|
  hwspin_lock_timeout_irqsave n held := if held || (n =? k)%nat then -110 else 0;
  other_cores _ bm := bm;
  kzalloc_ok := true;
  synx_search := bit_search_ref
|}.

(** A lock that times out half-way skips the loop that clears the bits: the
    entry of object 2 is zeroed but its index stays allocated for ever. *)
Example recover_timeout_leaks :
  let g := (@synx_global_set_subscribed_core ref_env 2 SYNX_CORE_NSP (boot_objs [2; 3])).2 in
  let g := (@synx_global_clear_subscribed_core ref_env 2 SYNX_CORE_APSS g).2 in
  exists g', @synx_global_recover (timeout_env (S (gm_tries g))) 10 SYNX_CORE_NSP g
      = Some (-110, g') /\
    entry g' 2 = zero_coredata /\ bm_test (gm_bitmap g') 2 = true.
Proof.
  cbv zeta. eexists. split; [vm_compute; reflexivity|].
  repeat split; vm_compute; reflexivity.
Qed.
