(* ===== verification/Outcome.v ===== *)
(** * Stateful code that may wait or go wrong

    A small monad for driver code: a run on a state returns a value and the new
    state, waits for a lock that is taken, or accesses memory it must not. A
    theorem that a run returns thus also says that it neither waits for ever
    nor leaves its arrays. *)

From S2P Require Import Prelude.

(** ** The monad *)

Inductive outcome (S A : Type) :=
| Ret (a : A) (s : S)
| Block                 (* waits for a lock that is taken *)
| Fault.                (* NULL or out-of-bounds access *)
Arguments Ret {S A}.
Arguments Block {S A}.
Arguments Fault {S A}.

Definition run (S A : Type) := S -> outcome S A.

#[global] Instance run_ret {S} : MRet (run S) := fun A a s => Ret a s.

#[global] Instance run_bind {S} : MBind (run S) := fun A B k m s =>
  match m s with
  | Ret a s' => k a s'
  | Block => Block
  | Fault => Fault
  end.

(** Reading, writing and updating the state. *)
Definition get {S} : run S S := fun s => Ret s s.
Definition put {S} (s : S) : run S unit := fun _ => Ret tt s.
Definition modify {S} (f : S -> S) : run S unit := fun s => Ret tt (f s).
Definition gets {S A} (f : S -> A) : run S A := fun s => Ret (f s) s.
Definition fault {S A} : run S A := fun _ => Fault.
Definition block {S A} : run S A := fun _ => Block.

(** [assert b]: the access is inside its array. *)
Definition guard {S} (b : bool) : run S unit := if b then mret tt else fault.

(** A pointer that is dereferenced. *)
Definition deref {S A} (o : option A) : run S A :=
  match o with Some a => mret a | None => fault end.

(** [if (c) m;] *)
Definition when {S} (c : bool) (m : run S unit) : run S unit := if c then m else mret tt.

(** [for (x in l) body(x)] *)
Fixpoint for_each {S A} (l : list A) (body : A -> run S unit) : run S unit :=
  match l with
  | [] => mret tt
  | x :: l => body x ;; for_each l body
  end.

(** ** Laws *)

Section laws.
Context {S : Type}.

Lemma bind_ret {A B} (m : run S A) (k : A -> run S B) s a s' :
  m s = Ret a s' -> (x ← m; k x) s = k a s'.
Proof. intros H. unfold mbind, run_bind. by rewrite H. Qed.

Lemma bind_inv {A B} (m : run S A) (k : A -> run S B) s b s' :
  (x ← m; k x) s = Ret b s' -> exists a s1, m s = Ret a s1 /\ k a s1 = Ret b s'.
Proof. unfold mbind, run_bind. destruct (m s) as [a s1| |]; try done. intros H. by exists a, s1. Qed.

Lemma bind_deref {A B} (a : A) (k : A -> run S B) s : (x ← deref (Some a); k x) s = k a s.
Proof. done. Qed.

Lemma bind_guard {B} b (k : run S B) s : b = true -> (guard b;; k) s = k s.
Proof. by intros ->. Qed.

Lemma bind_get {B} (k : S -> run S B) s : (x ← get; k x) s = k s s.
Proof. done. Qed.

Lemma bind_tt (m : run S unit) s : (m;; mret tt) s = m s.
Proof. unfold mbind, run_bind. by destruct (m s) as [[] s'| |]. Qed.

Lemma guard_true b (s : S) : b = true -> guard b s = Ret tt s.
Proof. by intros ->. Qed.

Lemma for_each_app {A} (l1 l2 : list A) (body : A -> run S unit) s s1 :
  for_each l1 body s = Ret tt s1 -> for_each (l1 ++ l2) body s = for_each l2 body s1.
Proof.
  revert s. induction l1 as [|x l1 IH]; intros s; cbn [for_each app].
  - by intros [= <-].
  - intros H. apply bind_inv in H as ([] & s2 & Hx & H). rewrite (bind_ret _ _ _ _ _ Hx). by apply IH.
Qed.

(** A loop keeps an invariant that each round keeps, and returns when each
    round does. *)
Lemma for_each_inv {A} (P : S -> Prop) (l : list A) (body : A -> run S unit) s :
  (forall x s, x ∈ l -> P s -> exists s', body x s = Ret tt s' /\ P s') -> P s ->
  exists s', for_each l body s = Ret tt s' /\ P s'.
Proof.
  revert s. induction l as [|x l IH]; intros s Hb HP; [by exists s|]. cbn [for_each].
  destruct (Hb x s) as (s1 & H1 & HP1); [set_solver|done|].
  rewrite (bind_ret _ _ _ _ _ H1). apply IH; [|done]. intros y s2 Hy. apply Hb. set_solver.
Qed.

End laws.

(** Runs the definitions of the monad's operations. *)
Ltac run_step :=
  repeat match goal with
  | H : ?m ?s = Ret _ _ |- context [mbind _ ?m ?s] => rewrite (bind_ret m _ _ _ _ H)
  end.
