(* ===== verification/HwFenceDrv.v ===== *)
(** * The hardware-fence driver: state ([mm-drivers/hw_fence])

    The data of [hw_fence_drv_priv.h] and the state that the operations of
    [hw_fence_drv_priv.c], [hw_fence_drv_utils.c], [hw_fence_drv_ipc.c] and
    [msm_hw_fence.c] share: the fence table, the client queues, the lock words,
    the registered clients and the dma-fences of the kernel. *)

From S2P Require Import Prelude Outcome.

(** ** Constants *)

(** [linux/errno.h] *)
Definition EPERM : Z := 1.
Definition EAGAIN : Z := 11.
Definition ENOMEM : Z := 12.
Definition EINVAL : Z := 22.
Definition ENODEV : Z := 19.

(** [hw_fence_drv_priv.h] *)
Definition HW_FENCE_INVALID_PARENT_FENCE : Z := u64 (Z.lnot 0).
Definition HW_FENCE_HASH_A_MULT : Z := 4969.
Definition HW_FENCE_HASH_C_MULT : Z := 907.
Definition HW_FENCE_CTRL_QUEUES : Z := 2.
Definition HW_FENCE_CLIENT_QUEUES : Z := 2.
Definition HW_FENCE_TX_QUEUE : Z := 1.
Definition HW_FENCE_RX_QUEUE : Z := 2.
Definition HW_FENCE_JOIN_FENCE_CLIENT_ID : Z := u32 (Z.lnot 0).
Definition MSM_HW_FENCE_FLAG_SIGNAL : Z := BIT 0.
Definition MSM_HW_FENCE_MAX_JOIN_PARENTS : nat := 3.
Definition HW_FENCE_PAYLOAD_REV (major minor : Z) : Z := Z.lor (Z.shiftl major 8) (Z.land minor 255).
Definition HW_FENCE_PAYLOAD_TYPE_1 : Z := 1.
Definition HW_FENCE_PAYLOAD_TYPE_2 : Z := 2.

(** [enum hw_fence_client_data_id] *)
Definition HW_FENCE_CLIENT_DATA_ID_CTX0 : Z := 0.
Definition HW_FENCE_CLIENT_DATA_ID_IPE : Z := 1.
Definition HW_FENCE_CLIENT_DATA_ID_VPU : Z := 2.
Definition HW_FENCE_CLIENT_DATA_ID_VAL0 : Z := 3.
Definition HW_FENCE_CLIENT_DATA_ID_VAL1 : Z := 4.
Definition HW_FENCE_MAX_CLIENTS_WITH_DATA : Z := 5.

(** [enum hw_fence_lookup_ops] *)
Inductive hw_fence_lookup_ops :=
| HW_FENCE_LOOKUP_OP_CREATE
| HW_FENCE_LOOKUP_OP_DESTROY
| HW_FENCE_LOOKUP_OP_CREATE_JOIN
| HW_FENCE_LOOKUP_OP_FIND_FENCE.

#[global] Instance hw_fence_lookup_ops_eq_dec : EqDecision hw_fence_lookup_ops.
Proof. solve_decision. Defined.

(** The sizes, in bytes, of the two structures that the driver lays out in
    shared memory. *)
Definition SIZEOF_QUEUE_PAYLOAD : Z := 64.
Definition SIZEOF_HW_FENCE : Z := 160.
Definition SIZEOF_EVENT : Z := 64.

(** ** What the driver takes from the kernel headers *)

(** The values of [enum hw_fence_client_id] and of the flags of
    [linux/soc/qcom/msm_hw_fence.h], the kernel configuration and the timer. *)
Class HwFenceEnv := {
  HW_FENCE_CLIENT_ID_CTX0 : Z;
  HW_FENCE_CLIENT_ID_CTL0 : Z;
  HW_FENCE_CLIENT_ID_VAL0 : Z;
  HW_FENCE_CLIENT_ID_IPE : Z;
  HW_FENCE_CLIENT_ID_VPU : Z;
  HW_FENCE_CLIENT_ID_IFE0 : Z;
  HW_FENCE_CLIENT_ID_IFE7 : Z;
  HW_FENCE_CLIENT_MAX : Z;
  MSM_HW_FENCE_MAX_SIGNAL_PER_CLIENT : Z;
  MSM_HW_FENCE_FLAG_ENABLED_BIT : Z;
  MSM_HW_FENCE_FLAG_SIGNALED_BIT : Z;
  MSM_HW_FENCE_RESET_WITHOUT_ERROR : Z;
  MSM_HW_FENCE_RESET_WITHOUT_DESTROY : Z;
  MSM_HW_FENCE_UPDATE_ERROR_WITH_MOVE : Z;
  MSM_HW_FENCE_ERROR_RESET : Z;
  CONFIG_DEBUG_FS : bool;
  arch_timer_read_counter : nat -> Z   (* the n-th reading of the timer *)
}.

(** ** Data *)

(** [struct msm_hw_fence], an entry of the table shared with the fence controller *)
Record msm_hw_fence := mk_hw_fence {
  valid : Z;  (* u32 *)
  error : Z;  (* u32 *)
  ctx_id : Z;  (* u64 *)
  seq_id : Z;  (* u64 *)
  wait_client_mask : Z;  (* u64 *)
  fence_allocator : Z;  (* u32 *)
  fence_signal_client : Z;  (* u32 *)
  lock : Z;  (* u64 *)
  flags : Z;  (* u64 *)
  parent_list : list Z;  (* u64 [MSM_HW_FENCE_MAX_JOIN_PARENTS] *)
  parents_cnt : Z;  (* u32 *)
  pending_child_cnt : Z;  (* u32 *)
  fence_create_time : Z;  (* u64 *)
  fence_trigger_time : Z;  (* u64 *)
  fence_wait_time : Z;  (* u64 *)
  debug_refcount : Z;  (* u64 *)
  client_data : list Z  (* u64 [HW_FENCE_MAX_CLIENTS_WITH_DATA] *)
}.

Definition hf_set_valid (v : Z) (r : msm_hw_fence) : msm_hw_fence :=
  mk_hw_fence (u32 v) (error r) (ctx_id r) (seq_id r) (wait_client_mask r) (fence_allocator r)
    (fence_signal_client r) (lock r) (flags r) (parent_list r) (parents_cnt r)
    (pending_child_cnt r) (fence_create_time r) (fence_trigger_time r) (fence_wait_time r)
    (debug_refcount r) (client_data r).
Definition hf_set_error (v : Z) (r : msm_hw_fence) : msm_hw_fence :=
  mk_hw_fence (valid r) (u32 v) (ctx_id r) (seq_id r) (wait_client_mask r) (fence_allocator r)
    (fence_signal_client r) (lock r) (flags r) (parent_list r) (parents_cnt r)
    (pending_child_cnt r) (fence_create_time r) (fence_trigger_time r) (fence_wait_time r)
    (debug_refcount r) (client_data r).
Definition hf_set_ctx_id (v : Z) (r : msm_hw_fence) : msm_hw_fence :=
  mk_hw_fence (valid r) (error r) (u64 v) (seq_id r) (wait_client_mask r) (fence_allocator r)
    (fence_signal_client r) (lock r) (flags r) (parent_list r) (parents_cnt r)
    (pending_child_cnt r) (fence_create_time r) (fence_trigger_time r) (fence_wait_time r)
    (debug_refcount r) (client_data r).
Definition hf_set_seq_id (v : Z) (r : msm_hw_fence) : msm_hw_fence :=
  mk_hw_fence (valid r) (error r) (ctx_id r) (u64 v) (wait_client_mask r) (fence_allocator r)
    (fence_signal_client r) (lock r) (flags r) (parent_list r) (parents_cnt r)
    (pending_child_cnt r) (fence_create_time r) (fence_trigger_time r) (fence_wait_time r)
    (debug_refcount r) (client_data r).
Definition hf_set_wait_client_mask (v : Z) (r : msm_hw_fence) : msm_hw_fence :=
  mk_hw_fence (valid r) (error r) (ctx_id r) (seq_id r) (u64 v) (fence_allocator r)
    (fence_signal_client r) (lock r) (flags r) (parent_list r) (parents_cnt r)
    (pending_child_cnt r) (fence_create_time r) (fence_trigger_time r) (fence_wait_time r)
    (debug_refcount r) (client_data r).
Definition hf_set_fence_allocator (v : Z) (r : msm_hw_fence) : msm_hw_fence :=
  mk_hw_fence (valid r) (error r) (ctx_id r) (seq_id r) (wait_client_mask r) (u32 v)
    (fence_signal_client r) (lock r) (flags r) (parent_list r) (parents_cnt r)
    (pending_child_cnt r) (fence_create_time r) (fence_trigger_time r) (fence_wait_time r)
    (debug_refcount r) (client_data r).
Definition hf_set_lock (v : Z) (r : msm_hw_fence) : msm_hw_fence :=
  mk_hw_fence (valid r) (error r) (ctx_id r) (seq_id r) (wait_client_mask r)
    (fence_allocator r) (fence_signal_client r) (u64 v) (flags r) (parent_list r)
    (parents_cnt r) (pending_child_cnt r) (fence_create_time r) (fence_trigger_time r)
    (fence_wait_time r) (debug_refcount r) (client_data r).
Definition hf_set_flags (v : Z) (r : msm_hw_fence) : msm_hw_fence :=
  mk_hw_fence (valid r) (error r) (ctx_id r) (seq_id r) (wait_client_mask r)
    (fence_allocator r) (fence_signal_client r) (lock r) (u64 v) (parent_list r)
    (parents_cnt r) (pending_child_cnt r) (fence_create_time r) (fence_trigger_time r)
    (fence_wait_time r) (debug_refcount r) (client_data r).
Definition hf_set_parent_list (v : list Z) (r : msm_hw_fence) : msm_hw_fence :=
  mk_hw_fence (valid r) (error r) (ctx_id r) (seq_id r) (wait_client_mask r)
    (fence_allocator r) (fence_signal_client r) (lock r) (flags r) v (parents_cnt r)
    (pending_child_cnt r) (fence_create_time r) (fence_trigger_time r) (fence_wait_time r)
    (debug_refcount r) (client_data r).
Definition hf_set_parents_cnt (v : Z) (r : msm_hw_fence) : msm_hw_fence :=
  mk_hw_fence (valid r) (error r) (ctx_id r) (seq_id r) (wait_client_mask r)
    (fence_allocator r) (fence_signal_client r) (lock r) (flags r) (parent_list r) (u32 v)
    (pending_child_cnt r) (fence_create_time r) (fence_trigger_time r) (fence_wait_time r)
    (debug_refcount r) (client_data r).
Definition hf_set_pending_child_cnt (v : Z) (r : msm_hw_fence) : msm_hw_fence :=
  mk_hw_fence (valid r) (error r) (ctx_id r) (seq_id r) (wait_client_mask r)
    (fence_allocator r) (fence_signal_client r) (lock r) (flags r) (parent_list r)
    (parents_cnt r) (u32 v) (fence_create_time r) (fence_trigger_time r) (fence_wait_time r)
    (debug_refcount r) (client_data r).
Definition hf_set_fence_create_time (v : Z) (r : msm_hw_fence) : msm_hw_fence :=
  mk_hw_fence (valid r) (error r) (ctx_id r) (seq_id r) (wait_client_mask r)
    (fence_allocator r) (fence_signal_client r) (lock r) (flags r) (parent_list r)
    (parents_cnt r) (pending_child_cnt r) (u64 v) (fence_trigger_time r) (fence_wait_time r)
    (debug_refcount r) (client_data r).
Definition hf_set_fence_wait_time (v : Z) (r : msm_hw_fence) : msm_hw_fence :=
  mk_hw_fence (valid r) (error r) (ctx_id r) (seq_id r) (wait_client_mask r)
    (fence_allocator r) (fence_signal_client r) (lock r) (flags r) (parent_list r)
    (parents_cnt r) (pending_child_cnt r) (fence_create_time r) (fence_trigger_time r) (u64 v)
    (debug_refcount r) (client_data r).
Definition hf_set_debug_refcount (v : Z) (r : msm_hw_fence) : msm_hw_fence :=
  mk_hw_fence (valid r) (error r) (ctx_id r) (seq_id r) (wait_client_mask r)
    (fence_allocator r) (fence_signal_client r) (lock r) (flags r) (parent_list r)
    (parents_cnt r) (pending_child_cnt r) (fence_create_time r) (fence_trigger_time r)
    (fence_wait_time r) (u64 v) (client_data r).
Definition hf_set_client_data (v : list Z) (r : msm_hw_fence) : msm_hw_fence :=
  mk_hw_fence (valid r) (error r) (ctx_id r) (seq_id r) (wait_client_mask r)
    (fence_allocator r) (fence_signal_client r) (lock r) (flags r) (parent_list r)
    (parents_cnt r) (pending_child_cnt r) (fence_create_time r) (fence_trigger_time r)
    (fence_wait_time r) (debug_refcount r) v.

(** [struct msm_hw_fence_queue_payload] *)
Record msm_hw_fence_queue_payload := mk_payload {
  pl_size : Z;  (* u32 *)
  pl_type : Z;  (* u16 *)
  pl_version : Z;  (* u16 *)
  pl_ctxt_id : Z;  (* u64 *)
  pl_seqno : Z;  (* u64 *)
  pl_hash : Z;  (* u64 *)
  pl_flags : Z;  (* u64 *)
  pl_client_data : Z;  (* u64 *)
  pl_error : Z;  (* u32 *)
  pl_timestamp_lo : Z;  (* u32 *)
  pl_timestamp_hi : Z;  (* u32 *)
  pl_reserve : Z  (* u32 *)
}.

Definition set_pl_error (v : Z) (r : msm_hw_fence_queue_payload) : msm_hw_fence_queue_payload :=
  mk_payload (pl_size r) (pl_type r) (pl_version r) (pl_ctxt_id r) (pl_seqno r) (pl_hash r)
    (pl_flags r) (pl_client_data r) (u32 v) (pl_timestamp_lo r) (pl_timestamp_hi r)
    (pl_reserve r).

(** The fields of [struct msm_hw_fence_hfi_queue_header] that the driver uses *)
Record hfi_queue_header := mk_hfi_header {
  qh_type : Z;
  start_addr : Z;
  qh_queue_size : Z;
  pkt_size : Z;
  read_index : Z;
  write_index : Z;
  tx_wm : Z
}.

Definition set_read_index (v : Z) (r : hfi_queue_header) : hfi_queue_header :=
  mk_hfi_header (qh_type r) (start_addr r) (qh_queue_size r) (pkt_size r) (u32 v)
    (write_index r) (tx_wm r).
Definition set_write_index (v : Z) (r : hfi_queue_header) : hfi_queue_header :=
  mk_hfi_header (qh_type r) (start_addr r) (qh_queue_size r) (pkt_size r) (read_index r)
    (u32 v) (tx_wm r).
Definition set_tx_wm (v : Z) (r : hfi_queue_header) : hfi_queue_header :=
  mk_hfi_header (qh_type r) (start_addr r) (qh_queue_size r) (pkt_size r) (read_index r)
    (write_index r) (u32 v).

(** [struct msm_hw_fence_queue] together with the memory its pointers name *)
Record msm_hw_fence_queue := mk_queue {
  va_queue : list Z;  (* the dwords of the queue memory *)
  q_size_bytes : Z;  (* u32 *)
  va_header : option hfi_queue_header;  (* None: NULL *)
  pa_queue : Z;
  rd_wr_idx_start : Z;  (* u32 *)
  rd_wr_idx_factor : Z;  (* u32 *)
  skip_wr_idx : bool
}.

Definition q_set_va_queue (v : list Z) (r : msm_hw_fence_queue) : msm_hw_fence_queue :=
  mk_queue v (q_size_bytes r) (va_header r) (pa_queue r) (rd_wr_idx_start r)
    (rd_wr_idx_factor r) (skip_wr_idx r).
Definition q_set_va_header (v : option hfi_queue_header) (r : msm_hw_fence_queue) : msm_hw_fence_queue :=
  mk_queue (va_queue r) (q_size_bytes r) v (pa_queue r) (rd_wr_idx_start r)
    (rd_wr_idx_factor r) (skip_wr_idx r).

(** [struct msm_hw_fence_client] *)
Record msm_hw_fence_client := mk_client {
  client_id : Z;
  client_id_ext : Z;
  queues : list msm_hw_fence_queue;
  queues_num : Z;
  fence_error_cb : option Z;  (* None: NULL *)
  fence_error_cb_userdata : Z;
  error_cb_lock : bool;  (* the mutex is taken *)
  ipc_signal_id : Z;
  ipc_client_vid : Z;
  ipc_client_pid : Z;
  update_rxq : bool;
  send_ipc : bool;
  val_signal : Z
}.

Definition cl_set_client_id (v : Z) (r : msm_hw_fence_client) : msm_hw_fence_client :=
  mk_client v (client_id_ext r) (queues r) (queues_num r) (fence_error_cb r)
    (fence_error_cb_userdata r) (error_cb_lock r) (ipc_signal_id r) (ipc_client_vid r)
    (ipc_client_pid r) (update_rxq r) (send_ipc r) (val_signal r).
Definition cl_set_client_id_ext (v : Z) (r : msm_hw_fence_client) : msm_hw_fence_client :=
  mk_client (client_id r) v (queues r) (queues_num r) (fence_error_cb r)
    (fence_error_cb_userdata r) (error_cb_lock r) (ipc_signal_id r) (ipc_client_vid r)
    (ipc_client_pid r) (update_rxq r) (send_ipc r) (val_signal r).
Definition cl_set_queues (v : list msm_hw_fence_queue) (r : msm_hw_fence_client) : msm_hw_fence_client :=
  mk_client (client_id r) (client_id_ext r) v (queues_num r) (fence_error_cb r)
    (fence_error_cb_userdata r) (error_cb_lock r) (ipc_signal_id r) (ipc_client_vid r)
    (ipc_client_pid r) (update_rxq r) (send_ipc r) (val_signal r).
Definition cl_set_queues_num (v : Z) (r : msm_hw_fence_client) : msm_hw_fence_client :=
  mk_client (client_id r) (client_id_ext r) (queues r) v (fence_error_cb r)
    (fence_error_cb_userdata r) (error_cb_lock r) (ipc_signal_id r) (ipc_client_vid r)
    (ipc_client_pid r) (update_rxq r) (send_ipc r) (val_signal r).
Definition cl_set_fence_error_cb (v : option Z) (r : msm_hw_fence_client) : msm_hw_fence_client :=
  mk_client (client_id r) (client_id_ext r) (queues r) (queues_num r) v
    (fence_error_cb_userdata r) (error_cb_lock r) (ipc_signal_id r) (ipc_client_vid r)
    (ipc_client_pid r) (update_rxq r) (send_ipc r) (val_signal r).
Definition cl_set_fence_error_cb_userdata (v : Z) (r : msm_hw_fence_client) : msm_hw_fence_client :=
  mk_client (client_id r) (client_id_ext r) (queues r) (queues_num r) (fence_error_cb r) v
    (error_cb_lock r) (ipc_signal_id r) (ipc_client_vid r) (ipc_client_pid r) (update_rxq r)
    (send_ipc r) (val_signal r).
Definition cl_set_error_cb_lock (v : bool) (r : msm_hw_fence_client) : msm_hw_fence_client :=
  mk_client (client_id r) (client_id_ext r) (queues r) (queues_num r) (fence_error_cb r)
    (fence_error_cb_userdata r) v (ipc_signal_id r) (ipc_client_vid r) (ipc_client_pid r)
    (update_rxq r) (send_ipc r) (val_signal r).
Definition cl_set_ipc_signal_id (v : Z) (r : msm_hw_fence_client) : msm_hw_fence_client :=
  mk_client (client_id r) (client_id_ext r) (queues r) (queues_num r) (fence_error_cb r)
    (fence_error_cb_userdata r) (error_cb_lock r) v (ipc_client_vid r) (ipc_client_pid r)
    (update_rxq r) (send_ipc r) (val_signal r).
Definition cl_set_ipc_client_vid (v : Z) (r : msm_hw_fence_client) : msm_hw_fence_client :=
  mk_client (client_id r) (client_id_ext r) (queues r) (queues_num r) (fence_error_cb r)
    (fence_error_cb_userdata r) (error_cb_lock r) (ipc_signal_id r) v (ipc_client_pid r)
    (update_rxq r) (send_ipc r) (val_signal r).
Definition cl_set_ipc_client_pid (v : Z) (r : msm_hw_fence_client) : msm_hw_fence_client :=
  mk_client (client_id r) (client_id_ext r) (queues r) (queues_num r) (fence_error_cb r)
    (fence_error_cb_userdata r) (error_cb_lock r) (ipc_signal_id r) (ipc_client_vid r) v
    (update_rxq r) (send_ipc r) (val_signal r).
Definition cl_set_update_rxq (v : bool) (r : msm_hw_fence_client) : msm_hw_fence_client :=
  mk_client (client_id r) (client_id_ext r) (queues r) (queues_num r) (fence_error_cb r)
    (fence_error_cb_userdata r) (error_cb_lock r) (ipc_signal_id r) (ipc_client_vid r)
    (ipc_client_pid r) v (send_ipc r) (val_signal r).
Definition cl_set_send_ipc (v : bool) (r : msm_hw_fence_client) : msm_hw_fence_client :=
  mk_client (client_id r) (client_id_ext r) (queues r) (queues_num r) (fence_error_cb r)
    (fence_error_cb_userdata r) (error_cb_lock r) (ipc_signal_id r) (ipc_client_vid r)
    (ipc_client_pid r) (update_rxq r) v (val_signal r).
Definition cl_set_val_signal (v : Z) (r : msm_hw_fence_client) : msm_hw_fence_client :=
  mk_client (client_id r) (client_id_ext r) (queues r) (queues_num r) (fence_error_cb r)
    (fence_error_cb_userdata r) (error_cb_lock r) (ipc_signal_id r) (ipc_client_vid r)
    (ipc_client_pid r) (update_rxq r) (send_ipc r) v.

(** A [struct dma_fence] of the kernel, or the base of a [struct dma_fence_array] whose [fences] are names of other fences *)
Record dma_fence := mk_dma_fence {
  df_context : Z;
  df_seqno : Z;
  df_flags : Z;
  df_array : option (Z * option (list (option Z)))  (* num_fences and fences of a dma_fence_array *)
}.

Definition set_df_flags (v : Z) (r : dma_fence) : dma_fence :=
  mk_dma_fence (df_context r) (df_seqno r) v (df_array r).

(** What leaves the driver, in order. *)
Inductive hw_event :=
| MmioWrite (offset val : Z)                       (* writel to the IPCC registers *)
| FenceErrorCb (cb hash error ctx seqno flags : Z) (* the callback of a client *)
| WakeValClient (client : Z).                      (* wake_up_all of a validation client *)

(** [struct hw_fence_driver_data], with the kernel objects that the driver touches *)
Record drv := mk_drv {
  hw_fence_table_entries : Z;  (* u32 *)
  hw_fences_tbl : list msm_hw_fence;
  client_lock_tbl : list Z;  (* u64 words *)
  client_lock_tbl_cnt : Z;  (* u32 *)
  ctrl_queues : list msm_hw_fence_queue;
  clients : list (option msm_hw_fence_client);  (* None: not registered *)
  clients_num : Z;
  rxq_clients_num : Z;
  ipcc_client_vid : Z;
  ipcc_client_pid : Z;
  protocol_id : Z;
  lock_wake_cnt : Z;
  vm_ready : bool;
  resources_ready : bool;
  ipcc_dpu_initialized : bool;
  dma_fences : list dma_fence;  (* the dma-fences, by name *)
  clock : nat;  (* readings of the timer *)
  trace : list hw_event
}.

Definition d_set_hw_fences_tbl (v : list msm_hw_fence) (r : drv) : drv :=
  mk_drv (hw_fence_table_entries r) v (client_lock_tbl r) (client_lock_tbl_cnt r)
    (ctrl_queues r) (clients r) (clients_num r) (rxq_clients_num r) (ipcc_client_vid r)
    (ipcc_client_pid r) (protocol_id r) (lock_wake_cnt r) (vm_ready r) (resources_ready r) (ipcc_dpu_initialized r)
    (dma_fences r) (clock r) (trace r).
Definition d_set_client_lock_tbl (v : list Z) (r : drv) : drv :=
  mk_drv (hw_fence_table_entries r) (hw_fences_tbl r) v (client_lock_tbl_cnt r) (ctrl_queues r)
    (clients r) (clients_num r) (rxq_clients_num r) (ipcc_client_vid r) (ipcc_client_pid r)
    (protocol_id r) (lock_wake_cnt r) (vm_ready r) (resources_ready r) (ipcc_dpu_initialized r) (dma_fences r) (clock r)
    (trace r).
Definition d_set_ctrl_queues (v : list msm_hw_fence_queue) (r : drv) : drv :=
  mk_drv (hw_fence_table_entries r) (hw_fences_tbl r) (client_lock_tbl r)
    (client_lock_tbl_cnt r) v (clients r) (clients_num r) (rxq_clients_num r)
    (ipcc_client_vid r) (ipcc_client_pid r) (protocol_id r) (lock_wake_cnt r) (vm_ready r)
    (resources_ready r) (ipcc_dpu_initialized r) (dma_fences r) (clock r) (trace r).
Definition d_set_clients (v : list (option msm_hw_fence_client)) (r : drv) : drv :=
  mk_drv (hw_fence_table_entries r) (hw_fences_tbl r) (client_lock_tbl r)
    (client_lock_tbl_cnt r) (ctrl_queues r) v (clients_num r) (rxq_clients_num r)
    (ipcc_client_vid r) (ipcc_client_pid r) (protocol_id r) (lock_wake_cnt r) (vm_ready r)
    (resources_ready r) (ipcc_dpu_initialized r) (dma_fences r) (clock r) (trace r).
Definition d_set_lock_wake_cnt (v : Z) (r : drv) : drv :=
  mk_drv (hw_fence_table_entries r) (hw_fences_tbl r) (client_lock_tbl r)
    (client_lock_tbl_cnt r) (ctrl_queues r) (clients r) (clients_num r) (rxq_clients_num r)
    (ipcc_client_vid r) (ipcc_client_pid r) (protocol_id r) v (vm_ready r) (resources_ready r) (ipcc_dpu_initialized r)
    (dma_fences r) (clock r) (trace r).
Definition d_set_dpu_initialized (v : bool) (r : drv) : drv :=
  mk_drv (hw_fence_table_entries r) (hw_fences_tbl r) (client_lock_tbl r)
    (client_lock_tbl_cnt r) (ctrl_queues r) (clients r) (clients_num r) (rxq_clients_num r)
    (ipcc_client_vid r) (ipcc_client_pid r) (protocol_id r) (lock_wake_cnt r) (vm_ready r)
    (resources_ready r) v (dma_fences r) (clock r) (trace r).
Definition d_set_dma_fences (v : list dma_fence) (r : drv) : drv :=
  mk_drv (hw_fence_table_entries r) (hw_fences_tbl r) (client_lock_tbl r)
    (client_lock_tbl_cnt r) (ctrl_queues r) (clients r) (clients_num r) (rxq_clients_num r)
    (ipcc_client_vid r) (ipcc_client_pid r) (protocol_id r) (lock_wake_cnt r) (vm_ready r)
    (resources_ready r) (ipcc_dpu_initialized r) v (clock r) (trace r).
Definition d_set_clock (v : nat) (r : drv) : drv :=
  mk_drv (hw_fence_table_entries r) (hw_fences_tbl r) (client_lock_tbl r)
    (client_lock_tbl_cnt r) (ctrl_queues r) (clients r) (clients_num r) (rxq_clients_num r)
    (ipcc_client_vid r) (ipcc_client_pid r) (protocol_id r) (lock_wake_cnt r) (vm_ready r)
    (resources_ready r) (ipcc_dpu_initialized r) (dma_fences r) v (trace r).
Definition d_set_trace (v : list hw_event) (r : drv) : drv :=
  mk_drv (hw_fence_table_entries r) (hw_fences_tbl r) (client_lock_tbl r)
    (client_lock_tbl_cnt r) (ctrl_queues r) (clients r) (clients_num r) (rxq_clients_num r)
    (ipcc_client_vid r) (ipcc_client_pid r) (protocol_id r) (lock_wake_cnt r) (vm_ready r)
    (resources_ready r) (ipcc_dpu_initialized r) (dma_fences r) (clock r) v.

(** ** Access to the state *)

Abbreviation M := (run drv).

Definition emit (ev : hw_event) : M unit := modify (fun d => d_set_trace (trace d ++ [ev]) d).

(** [&hw_fences_tbl[h]] and writes through it. *)
Definition get_fence (h : Z) : M msm_hw_fence := fun d =>
  if h <? 0 then Fault else
  match hw_fences_tbl d !! Z.to_nat h with Some f => Ret f d | None => Fault end.

Definition put_fence (h : Z) (f : msm_hw_fence) : M unit := fun d =>
  Ret tt (d_set_hw_fences_tbl (zupd (hw_fences_tbl d) h f) d).

Definition upd_fence (h : Z) (f : msm_hw_fence -> msm_hw_fence) : M unit :=
  x ← get_fence h; put_fence h (f x).

(** The object of a registered client. A client handle is the index under
    which [drv_data->clients] holds the object. *)
Definition get_client (c : Z) : M msm_hw_fence_client := fun d =>
  if c <? 0 then Fault else
  match clients d !! Z.to_nat c with
  | Some (Some cl) => Ret cl d
  | _ => Fault
  end.

(** [drv_data->clients[c]] as a pointer: [None] is NULL. *)
Definition client_ptr (c : Z) : M (option msm_hw_fence_client) := fun d =>
  if c <? 0 then Fault else
  match clients d !! Z.to_nat c with Some p => Ret p d | None => Fault end.

Definition put_client (c : Z) (p : option msm_hw_fence_client) : M unit := fun d =>
  Ret tt (d_set_clients (zupd (clients d) c p) d).

Definition upd_client (c : Z) (f : msm_hw_fence_client -> msm_hw_fence_client) : M unit :=
  x ← get_client c; put_client c (Some (f x)).

(** A queue of a client. *)
Definition get_queue (c qi : Z) : M msm_hw_fence_queue :=
  cl ← get_client c;
  guard (0 <=? qi);; deref (queues cl !! Z.to_nat qi).

Definition put_queue (c qi : Z) (q : msm_hw_fence_queue) : M unit :=
  upd_client c (fun cl => cl_set_queues (zupd (queues cl) qi q) cl).

(** A dma-fence of the kernel. *)
Definition get_dma (p : Z) : M dma_fence := fun d =>
  if p <? 0 then Fault else
  match dma_fences d !! Z.to_nat p with Some f => Ret f d | None => Fault end.

(** [set_bit(nr, &fence->flags)], [clear_bit] and [test_bit] *)
Definition set_bit (nr p : Z) : M unit :=
  f ← get_dma p;
  modify (fun d => d_set_dma_fences
    (zupd (dma_fences d) p (set_df_flags (Z.lor (df_flags f) (BIT nr)) f)) d).

Definition clear_bit (nr p : Z) : M unit :=
  f ← get_dma p;
  modify (fun d => d_set_dma_fences
    (zupd (dma_fences d) p (set_df_flags (Z.land (df_flags f) (Z.lnot (BIT nr))) f)) d).

Definition test_bit (nr flags : Z) : bool := Z.testbit flags nr.

Section ops.
Context `{E : HwFenceEnv}.

Definition hw_fence_get_qtime : M Z := fun d =>
  Ret (u64 (arch_timer_read_counter (clock d))) (d_set_clock (S (clock d)) d).

(** ** The inter-processor locks *)

(** [IPC_PROTOCOLp_CLIENTc_SEND(base, p, c)], as an offset from [base]. *)
Definition IPC_PROTOCOLp_CLIENTc_SEND (p c : Z) : Z := 0xc + 0x40000 * p + 0x1000 * c.

Definition hw_fence_ipcc_trigger_signal (tx_client_pid rx_client_vid signal_id : Z) : M unit :=
  d ← get;
  emit (MmioWrite (IPC_PROTOCOLp_CLIENTc_SEND (protocol_id d) tx_client_pid)
          (u32 (Z.lor (Z.shiftl rx_client_vid 16) signal_id))).

(** [_lock]: waits until the low word is zero, then sets bit 0. *)
Definition _lock (w : Z) : option Z := if u32 w =? 0 then Some (Z.lor w 1) else None.

(** [_unlock]: clears bit 0 and wakes the other VM when it waits on bit 1. *)
Definition _unlock_val (w : Z) : Z := Z.land w (Z.lnot 1).

Definition _unlock_wake (w : Z) : M unit :=
  when (truthy (Z.land w 2))
    (modify (fun d => d_set_lock_wake_cnt
       (if CONFIG_DEBUG_FS then u64 (lock_wake_cnt d + 1) else lock_wake_cnt d) d);;
     d ← get;
     hw_fence_ipcc_trigger_signal (ipcc_client_pid d) (ipcc_client_vid d) 30).

(** [GLOBAL_ATOMIC_STORE(drv_data, &hw_fences_tbl[h].lock, val)] *)
Definition fence_lock (h : Z) : M unit :=
  f ← get_fence h;
  match _lock (lock f) with
  | Some w => put_fence h (hf_set_lock w f)
  | None => block
  end.

Definition fence_unlock (h : Z) : M unit :=
  f ← get_fence h;
  put_fence h (hf_set_lock (_unlock_val (lock f)) f);;
  _unlock_wake (_unlock_val (lock f)).

(** [GLOBAL_ATOMIC_STORE(drv_data, &client_lock_tbl[idx], val)] *)
Definition client_lock (idx : Z) : M unit :=
  d ← get;
  guard (0 <=? idx);; w ← deref (client_lock_tbl d !! Z.to_nat idx);
  match _lock w with
  | Some w => put (d_set_client_lock_tbl (zupd (client_lock_tbl d) idx w) d)
  | None => block
  end.

Definition client_unlock (idx : Z) : M unit :=
  d ← get;
  guard (0 <=? idx);; w ← deref (client_lock_tbl d !! Z.to_nat idx);
  put (d_set_client_lock_tbl (zupd (client_lock_tbl d) idx (_unlock_val w)) d);;
  _unlock_wake (_unlock_val w).

(** ** Callbacks to the clients *)

(** [hw_fence_utils_fence_error_cb]; [error_cb_lock] is a sleeping mutex. *)
Definition hw_fence_utils_fence_error_cb (c ctxt_id seqno hash flags err : Z) : M Z :=
  cl ← get_client c;
  if error_cb_lock cl then block else
  match fence_error_cb cl with
  | Some cb =>
      if err =? 0 then mret (- EINVAL)
      else emit (FenceErrorCb cb hash err ctxt_id seqno flags);; mret 0
  | None => mret (- EINVAL)
  end.

(** [process_validation_client_loopback] ([hw_fence_drv_debug.c]) *)
Definition process_validation_client_loopback (c : Z) : M Z :=
  if (c <? HW_FENCE_CLIENT_ID_VAL0) || (c >? HW_FENCE_CLIENT_ID_VAL0 + 6) then mret (- EINVAL) else
  p ← client_ptr c;
  match p with
  | None => mret (- EINVAL)
  | Some _ =>
      upd_client c (cl_set_val_signal 1);; emit (WakeValClient c);; mret 0
  end.

End ops.

(** ** Facts about the accessors *)

(** Index [c] holds the registered client [cl]; its queue [qi] is [q]. *)
Record client_at (d : drv) (c : Z) (cl : msm_hw_fence_client) : Prop := mk_client_at {
  ca_nonneg : 0 <= c;
  ca_lookup : clients d !! Z.to_nat c = Some (Some cl)
}.

Record queue_of (d : drv) (c qi : Z) (cl : msm_hw_fence_client) (q : msm_hw_fence_queue) : Prop := mk_queue_of {
  qf_client : client_at d c cl;
  qf_nonneg : 0 <= qi;
  qf_lookup : queues cl !! Z.to_nat qi = Some q
}.

(** The state in which client [c] is [cl], or its queue [qi] is [q]. *)
Definition with_client (c : Z) (cl : msm_hw_fence_client) (d : drv) : drv :=
  d_set_clients (zupd (clients d) c (Some cl)) d.

Definition with_queue (c qi : Z) (cl : msm_hw_fence_client) (q : msm_hw_fence_queue) (d : drv) : drv :=
  with_client c (cl_set_queues (zupd (queues cl) qi q) cl) d.

Lemma get_client_ret d c cl : client_at d c cl -> get_client c d = Ret cl d.
Proof. intros [Hc Hl]. unfold get_client. destruct (Z.ltb_spec c 0); [lia|]. by rewrite Hl. Qed.

Lemma client_ptr_ret d c cl : client_at d c cl -> client_ptr c d = Ret (Some cl) d.
Proof. intros [Hc Hl]. unfold client_ptr. destruct (Z.ltb_spec c 0); [lia|]. by rewrite Hl. Qed.

Lemma get_queue_ret d c qi cl q : queue_of d c qi cl q -> get_queue c qi d = Ret q d.
Proof.
  intros [Hc Hn Hl]. unfold get_queue. rewrite (bind_ret _ _ _ _ _ (get_client_ret _ _ _ Hc)).
  destruct (Z.leb_spec 0 qi); [|lia]. unfold guard, mbind, run_bind, mret, run_ret.
  by rewrite Hl.
Qed.

Lemma upd_client_ret d c cl f : client_at d c cl -> upd_client c f d = Ret tt (with_client c (f cl) d).
Proof.
  intros Hc. unfold upd_client. by rewrite (bind_ret _ _ _ _ _ (get_client_ret _ _ _ Hc)).
Qed.

Lemma put_queue_ret d c qi cl q : client_at d c cl ->
  put_queue c qi q d = Ret tt (with_queue c qi cl q d).
Proof. intros Hc. unfold put_queue. by rewrite (upd_client_ret d c cl). Qed.

Lemma client_at_with d c cl cl' : client_at d c cl -> client_at (with_client c cl' d) c cl'.
Proof. intros [Hc Hl]. split; [done|]. by eapply lookup_zupd_eq. Qed.

Lemma queue_of_with d c qi cl q q' :
  queue_of d c qi cl q ->
  queue_of (with_queue c qi cl q' d) c qi (cl_set_queues (zupd (queues cl) qi q') cl) q'.
Proof.
  intros [Hc Hn Hl]. split; [by eapply client_at_with|done|]. by eapply lookup_zupd_eq.
Qed.

Lemma with_client_id d c cl : client_at d c cl -> with_client c cl d = d.
Proof.
  intros [Hc Hl]. unfold with_client. rewrite zupd_lookup_id by done. by destruct d.
Qed.

(** A fence entry. *)
Definition fence_at (d : drv) (h : Z) (f : msm_hw_fence) : Prop :=
  0 <= h /\ hw_fences_tbl d !! Z.to_nat h = Some f.

Definition with_fence (h : Z) (f : msm_hw_fence) (d : drv) : drv :=
  d_set_hw_fences_tbl (zupd (hw_fences_tbl d) h f) d.

Lemma get_fence_ret d h f : fence_at d h f -> get_fence h d = Ret f d.
Proof. intros [Hh Hl]. unfold get_fence. destruct (Z.ltb_spec h 0); [lia|]. by rewrite Hl. Qed.

Lemma upd_fence_ret d h f g : fence_at d h f -> upd_fence h g d = Ret tt (with_fence h (g f) d).
Proof.
  intros Hf. unfold upd_fence. by rewrite (bind_ret _ _ _ _ _ (get_fence_ret _ _ _ Hf)).
Qed.

Lemma fence_at_with d h f f' : fence_at d h f -> fence_at (with_fence h f' d) h f'.
Proof. intros [Hh Hl]. split; [done|]. by eapply lookup_zupd_eq. Qed.

Lemma fence_at_other d h h' f f' : 0 <= h -> h' <> h -> fence_at d h' f' ->
  fence_at (with_fence h f d) h' f'.
Proof. intros Hh Hne [Hh' Hl]. split; [done|]. simpl. by rewrite lookup_zupd_ne. Qed.

Lemma with_fence_twice d h f f' : with_fence h f' (with_fence h f d) = with_fence h f' d.
Proof. unfold with_fence. simpl. rewrite zupd_zupd. by destruct d. Qed.

Lemma with_fence_id d h f : fence_at d h f -> with_fence h f d = d.
Proof. intros [Hh Hl]. unfold with_fence. rewrite zupd_lookup_id by done. by destruct d. Qed.

(** ** Facts about the locks *)

(** A lock word that is free, and that no other VM waits on. *)
Definition lock_free (w : Z) : Prop := is_u64 w /\ u32 w = 0.

Lemma lock_free_zero : lock_free 0.
Proof. by vm_compute. Qed.

Section locks.
Context `{E : HwFenceEnv}.

Lemma lock_free_bits w i : lock_free w -> 0 <= i < 32 -> Z.testbit w i = false.
Proof.
  intros [_ Hw] Hi. rewrite <- testbit_u32, Hw by done. apply Z.bits_0.
Qed.

Lemma _lock_free w : lock_free w -> _lock w = Some (Z.lor w 1).
Proof. intros [_ Hw]. unfold _lock. by rewrite Hw. Qed.

Lemma unlock_lock w : lock_free w -> _unlock_val (Z.lor w 1) = w.
Proof.
  intros Hw. unfold _unlock_val. apply Z.bits_inj'. intros i Hi.
  rewrite Z.land_spec, Z.lnot_spec, Z.lor_spec by done.
  destruct (Z.eq_dec i 0) as [->|Hne].
  - rewrite (lock_free_bits w 0) by (done || lia). done.
  - replace (Z.testbit 1 i) with false; [by rewrite orb_false_r, andb_true_r|].
    symmetry. change 1 with (BIT 0). rewrite BIT_testbit by lia. destruct (Z.eqb_spec 0 i); lia.
Qed.

Lemma lock_word_u64 w : lock_free w -> u64 (Z.lor w 1) = Z.lor w 1.
Proof.
  intros [Hw H0]. apply u64_small. unfold is_u64 in Hw. split; [apply Z.lor_nonneg; lia|].
  destruct (Z.eq_dec w 0) as [->|Hnz]; [done|]. apply Z.log2_lt_pow2.
  - assert (0 <= Z.lor w 1) by (apply Z.lor_nonneg; lia).
    destruct (Z.eq_dec (Z.lor w 1) 0) as [Hz|]; [|lia]. apply Z.lor_eq_0_iff in Hz. lia.
  - rewrite Z.log2_lor by lia. change (Z.log2 1) with 0.
    apply Z.max_lub_lt; [|lia]. apply Z.log2_lt_pow2; lia.
Qed.

Lemma unlock_wake_free w d : lock_free w -> _unlock_wake w d = Ret tt d.
Proof.
  intros Hw. unfold _unlock_wake. replace (truthy (Z.land w 2)) with false; [done|].
  change 2 with (BIT 1). rewrite land_BIT_testbit by lia. symmetry.
  apply lock_free_bits; [done|lia].
Qed.

(** Taking and releasing the lock of a fence. *)
Lemma fence_lock_ret d h f :
  fence_at d h f -> lock_free (lock f) ->
  fence_lock h d = Ret tt (with_fence h (hf_set_lock (Z.lor (lock f) 1) f) d).
Proof.
  intros Hf Hl. unfold fence_lock. rewrite (bind_ret _ _ _ _ _ (get_fence_ret _ _ _ Hf)).
  by rewrite _lock_free.
Qed.

Lemma fence_unlock_ret d h f w :
  fence_at d h f -> lock_free w -> lock f = Z.lor w 1 ->
  fence_unlock h d = Ret tt (with_fence h (hf_set_lock w f) d).
Proof.
  intros Hf Hw Hl. unfold fence_unlock. rewrite (bind_ret _ _ _ _ _ (get_fence_ret _ _ _ Hf)).
  rewrite Hl, unlock_lock by done. unfold mbind at 1, run_bind at 1, put_fence.
  by rewrite unlock_wake_free.
Qed.

(** Taking and releasing the lock word of a client. *)
Definition with_lock_word (i w : Z) (d : drv) : drv :=
  d_set_client_lock_tbl (zupd (client_lock_tbl d) i w) d.

Lemma client_lock_ret d i w :
  0 <= i -> client_lock_tbl d !! Z.to_nat i = Some w -> lock_free w ->
  client_lock i d = Ret tt (with_lock_word i (Z.lor w 1) d).
Proof.
  intros Hi Hl Hw. unfold client_lock, mbind, run_bind, get, guard.
  destruct (Z.leb_spec 0 i); [|lia]. unfold mret, run_ret. rewrite Hl. simpl.
  unfold mret, run_ret. by rewrite _lock_free.
Qed.

Lemma client_unlock_ret d i w :
  0 <= i -> client_lock_tbl d !! Z.to_nat i = Some (Z.lor w 1) -> lock_free w ->
  client_unlock i d = Ret tt (with_lock_word i w d).
Proof.
  intros Hi Hl Hw. unfold client_unlock, mbind, run_bind, get, guard.
  destruct (Z.leb_spec 0 i); [|lia]. unfold mret, run_ret. rewrite Hl. simpl.
  unfold mret, run_ret, put. rewrite unlock_lock by done. by rewrite unlock_wake_free.
Qed.

End locks.
