(* ===== verification/HwFenceQueue.v ===== *)
(** * The queues of the hardware-fence clients

    The ring buffers that a client shares with the fence controller
    ([hw_fence_drv_priv.c]): the layout of a payload in dwords, the translation
    between custom and dword indexes, reading, writing, reordering and
    resetting.  The theorems are in [HwFenceRing]. *)

From S2P Require Import Prelude Outcome HwFenceDrv.

(** ** The payload in memory *)

(** The number of dwords of a payload. *)
Definition PAYLOAD_U32 : Z := SIZEOF_QUEUE_PAYLOAD / 4.

Definition lo32 (v : Z) : Z := u32 v.
Definition hi32 (v : Z) : Z := u32 (Z.shiftr v 32).

(** Stores to the dword array, each at its width. *)
Definition writel_relaxed (v i : Z) (mem : list Z) : list Z := zupd mem i (u32 v).
Definition writeq_relaxed (v i : Z) (mem : list Z) : list Z :=
  zupd (zupd mem i (lo32 v)) (i + 1) (hi32 v).
Definition writew_lo (v i : Z) (mem : list Z) : list Z :=
  zupd mem i (Z.lor (Z.shiftl (Z.shiftr (znth 0 mem i) 16) 16) (u16 v)).
Definition writew_hi (v i : Z) (mem : list Z) : list Z :=
  zupd mem i (Z.lor (Z.shiftl (u16 v) 16) (u16 (znth 0 mem i))).

(** The [struct msm_hw_fence_queue_payload] that starts at dword [i]. *)
Definition read_payload (mem : list Z) (i : Z) : msm_hw_fence_queue_payload :=
  let dw k := znth 0 mem (i + k) in
  let qw k := Z.lor (dw k) (Z.shiftl (dw (k + 1)) 32) in
  mk_payload (dw 0) (u16 (dw 1)) (Z.shiftr (dw 1) 16) (qw 2) (qw 4) (qw 6) (qw 8) (qw 10)
    (dw 12) (dw 13) (dw 14) (dw 15).

(** The dwords of a payload, and the assignment of a whole structure. *)
Definition payload_dwords (p : msm_hw_fence_queue_payload) : list Z :=
  [pl_size p; Z.lor (Z.shiftl (pl_version p) 16) (pl_type p);
   lo32 (pl_ctxt_id p); hi32 (pl_ctxt_id p); lo32 (pl_seqno p); hi32 (pl_seqno p);
   lo32 (pl_hash p); hi32 (pl_hash p); lo32 (pl_flags p); hi32 (pl_flags p);
   lo32 (pl_client_data p); hi32 (pl_client_data p);
   pl_error p; pl_timestamp_lo p; pl_timestamp_hi p; pl_reserve p].

Fixpoint blit (mem : list Z) (i : Z) (l : list Z) : list Z :=
  match l with
  | [] => mem
  | x :: l => blit (zupd mem i x) (i + 1) l
  end.

Definition write_payload (mem : list Z) (i : Z) (p : msm_hw_fence_queue_payload) : list Z :=
  blit mem i (payload_dwords p).

(** A payload at dword [i] lies inside the queue memory. *)
Definition payload_inside (mem : list Z) (i : Z) : bool :=
  (0 <=? i) && (i + PAYLOAD_U32 <=? zlen mem).

(** ** Indexes *)

Definition IS_HW_FENCE_TX_QUEUE (queue_type : Z) : bool := queue_type =? HW_FENCE_TX_QUEUE - 1.

Definition REQUIRES_IDX_TRANSLATION (q : msm_hw_fence_queue) : bool :=
  truthy (rd_wr_idx_factor q) && (truthy (rd_wr_idx_start q) || (rd_wr_idx_factor q >? 1)).

Definition IDX_TRANSLATE_CUSTOM_TO_DEFAULT (q : msm_hw_fence_queue) (idx : Z) : Z :=
  u32 (u32 (idx - rd_wr_idx_start q) * rd_wr_idx_factor q).

Definition IDX_TRANSLATE_DEFAULT_TO_CUSTOM (q : msm_hw_fence_queue) (idx : Z) : Z :=
  u32 (idx / rd_wr_idx_factor q + rd_wr_idx_start q).

Definition _lock_client_queue (queue_type : Z) : bool := queue_type =? HW_FENCE_RX_QUEUE - 1.

Definition _translate_queue_indexes_custom_to_default (q : msm_hw_fence_queue)
    (read_idx write_idx : Z) : Z * Z :=
  if REQUIRES_IDX_TRANSLATION q
  then (IDX_TRANSLATE_CUSTOM_TO_DEFAULT q read_idx, IDX_TRANSLATE_CUSTOM_TO_DEFAULT q write_idx)
  else (read_idx, write_idx).

(** ** Reading *)

(** [None]: an access outside the queue memory. The payload is [None] where the
    code leaves [*payload] alone. *)
Definition hw_fence_read_queue_helper (q : msm_hw_fence_queue) :
    option (Z * option msm_hw_fence_queue_payload * msm_hw_fence_queue) :=
  let q_size_u32 := q_size_bytes q / 4 in
  match va_header q with
  | None => Some (- EINVAL, None, q)
  | Some h =>
      let '(read_idx, write_idx) :=
        _translate_queue_indexes_custom_to_default q (read_index h) (write_index h) in
      if read_idx =? write_idx then Some (- EINVAL, None, q) else
      let to_read_idx := u32 (read_idx + PAYLOAD_U32) in
      let to_read_idx := if to_read_idx >=? q_size_u32 then 0 else to_read_idx in
      let to_read_idx := if REQUIRES_IDX_TRANSLATION q
                         then IDX_TRANSLATE_DEFAULT_TO_CUSTOM q to_read_idx else to_read_idx in
      if negb (payload_inside (va_queue q) read_idx) then None else
      let payload := read_payload (va_queue q) read_idx in
      let q := q_set_va_header (Some (set_read_index to_read_idx h)) q in
      Some (if to_read_idx =? write_idx then 0 else 1, Some payload, q)
  end.

Section ops.
Context `{E : HwFenceEnv}.

Definition hw_fence_read_queue (c queue_type : Z) : M (Z * option msm_hw_fence_queue_payload) :=
  if queue_type >=? HW_FENCE_CLIENT_QUEUES then mret (- EINVAL, None) else
  q ← get_queue c queue_type;
  match hw_fence_read_queue_helper q with
  | None => fault
  | Some (ret, p, q) => put_queue c queue_type q;; mret (ret, p)
  end.

(** ** Writing *)

(** The index that the writer advances: [*wr_ptr]. *)
Definition wr_index (q : msm_hw_fence_queue) (h : hfi_queue_header) : Z :=
  if skip_wr_idx q then tx_wm h else write_index h.
Definition set_wr_index (q : msm_hw_fence_queue) (v : Z) (h : hfi_queue_header) : hfi_queue_header :=
  if skip_wr_idx q then set_tx_wm v h else set_write_index v h.

(** [hfi_header], [q_size_u32], [payload_size] and [payload_size_u32]; [None] is [-EINVAL]. *)
Definition _get_update_queue_params (q : msm_hw_fence_queue) :
    option (hfi_queue_header * Z * Z * Z) :=
  match va_header q with
  | None => None
  | Some h => Some (h, q_size_bytes q / 4, SIZEOF_QUEUE_PAYLOAD, SIZEOF_QUEUE_PAYLOAD / 4)
  end.

(** The stores of the payload fields, in the order of the code. *)
Definition store_payload (mem : list Z) (i payload_size ctxt_id seqno hash flags client_data err
    timestamp : Z) : list Z :=
  let mem := writeq_relaxed payload_size i mem in
  let mem := writew_lo HW_FENCE_PAYLOAD_TYPE_1 (i + 1) mem in
  let mem := writew_hi (HW_FENCE_PAYLOAD_REV 1 0) (i + 1) mem in
  let mem := writeq_relaxed ctxt_id (i + 2) mem in
  let mem := writeq_relaxed seqno (i + 4) mem in
  let mem := writeq_relaxed hash (i + 6) mem in
  let mem := writeq_relaxed flags (i + 8) mem in
  let mem := writeq_relaxed client_data (i + 10) mem in
  let mem := writel_relaxed err (i + 12) mem in
  let mem := writel_relaxed timestamp (i + 13) mem in
  writel_relaxed (Z.shiftr timestamp 32) (i + 14) mem.

(** The part of [hw_fence_update_queue] that runs with the queue locked. *)
Definition update_queue_locked (c queue_type ctxt_id seqno hash flags client_data err : Z)
    (q_size_u32 payload_size payload_size_u32 : Z) : M Z :=
  q ← get_queue c queue_type;
  h ← deref (va_header q);
  let '(read_idx, write_idx) :=
    _translate_queue_indexes_custom_to_default q (read_index h) (wr_index q h) in
  let q_free_u32 := if read_idx <=? write_idx then u32 (q_size_u32 - u32 (write_idx - read_idx))
                    else u32 (read_idx - write_idx) in
  if q_free_u32 <=? payload_size_u32 then mret (- EINVAL) else
  let to_write_idx := u32 (write_idx + payload_size_u32) in
  let to_write_idx := if to_write_idx >=? q_size_u32 then 0 else to_write_idx in
  let to_write_idx := if REQUIRES_IDX_TRANSLATION q
                      then IDX_TRANSLATE_DEFAULT_TO_CUSTOM q to_write_idx else to_write_idx in
  guard (payload_inside (va_queue q) write_idx);;
  timestamp ← hw_fence_get_qtime;
  let mem := store_payload (va_queue q) write_idx payload_size ctxt_id seqno hash flags
               client_data err timestamp in
  put_queue c queue_type
    (q_set_va_header (Some (set_wr_index q to_write_idx h)) (q_set_va_queue mem q));;
  mret 0.

Definition hw_fence_update_queue (c ctxt_id seqno hash flags client_data err queue_type : Z) : M Z :=
  cl ← get_client c;
  if queue_type >=? queues_num cl then mret (- EINVAL) else
  q ← get_queue c queue_type;
  match _get_update_queue_params q with
  | None => mret (- EINVAL)
  | Some (_, q_size_u32, payload_size, payload_size_u32) =>
      let lock_client := _lock_client_queue queue_type in
      let lock_idx := u32 (client_id cl - 1) in
      d ← get;
      if lock_client && (lock_idx >=? client_lock_tbl_cnt d) then mret (- EINVAL) else
      when lock_client (client_lock lock_idx);;
      ret ← update_queue_locked c queue_type ctxt_id seqno hash flags client_data err
              q_size_u32 payload_size payload_size_u32;
      when lock_client (client_unlock lock_idx);;
      mret ret
  end.

(** ** Changing the error of a payload already in the transmit queue *)

(** The two payloads at [i] and [j] change places; the new first one gets the error. *)
Definition swap_payloads (mem : list Z) (i j err : Z) : list Z :=
  let tmp := read_payload mem i in
  let mem := write_payload mem i (read_payload mem j) in
  let mem := writel_relaxed err (i + 12) mem in
  write_payload mem j tmp.

Definition update_existing_payload (q : msm_hw_fence_queue) (hash err : Z) :
    option (Z * msm_hw_fence_queue) :=
  match _get_update_queue_params q with
  | None => Some (- EINVAL, q)
  | Some (h, q_size_u32, _, payload_size_u32) =>
      let '(read_idx, write_idx) :=
        _translate_queue_indexes_custom_to_default q (read_index h) (wr_index q h) in
      if read_idx =? write_idx then Some (- EINVAL, q) else
      if negb (payload_inside (va_queue q) read_idx) then None else
      if pl_hash (read_payload (va_queue q) read_idx) =? hash
      then Some (0, q_set_va_queue (writel_relaxed err (read_idx + 12) (va_queue q)) q)
      else
        let second_idx := u32 (read_idx + payload_size_u32) in
        let second_idx := if second_idx >=? q_size_u32 then 0 else second_idx in
        if second_idx =? write_idx then Some (- EINVAL, q) else
        if negb (payload_inside (va_queue q) second_idx) then None else
        if negb (pl_hash (read_payload (va_queue q) second_idx) =? hash)
        then Some (- EINVAL, q)
        else Some (0, q_set_va_queue (swap_payloads (va_queue q) read_idx second_idx err) q)
  end.

Definition hw_fence_update_existing_txq_payload (c hash err : Z) : M Z :=
  q ← get_queue c (HW_FENCE_TX_QUEUE - 1);
  match update_existing_payload q hash err with
  | None => fault
  | Some (ret, q) => put_queue c (HW_FENCE_TX_QUEUE - 1) q;; mret ret
  end.

(** ** Resetting the queues of a client *)

Definition reset_txq (q : msm_hw_fence_queue) (h : hfi_queue_header) : hfi_queue_header :=
  let wr_idx := write_index h in
  let h := if skip_wr_idx q then set_tx_wm wr_idx h else h in
  set_read_index wr_idx h.

Definition hw_fence_utils_reset_queues (c : Z) : M unit :=
  cl ← get_client c;
  q ← get_queue c (HW_FENCE_TX_QUEUE - 1);
  h ← deref (va_header q);
  put_queue c (HW_FENCE_TX_QUEUE - 1) (q_set_va_header (Some (reset_txq q h)) q);;
  when (update_rxq cl)
    (let lock_idx := u32 (client_id cl - 1) in
     d ← get;
     when (lock_idx <? client_lock_tbl_cnt d)
       (client_lock lock_idx;;
        q ← get_queue c (HW_FENCE_RX_QUEUE - 1);
        h ← deref (va_header q);
        put_queue c (HW_FENCE_RX_QUEUE - 1)
          (q_set_va_header (Some (set_write_index (read_index h) h)) q);;
        client_unlock lock_idx)).

End ops.
