(* ===== verification/HwFenceRing.v ===== *)
(** * The client queues are bounded FIFOs

    The payload layout round trip, the ring invariant for every index
    convention that the device tree can select, and the refinement of the queue
    operations to operations on lists. *)

From S2P Require Import Prelude Outcome HwFenceDrv HwFenceQueue.

(** ** Definitions *)

(** The fields of a payload are in the range of their C types. *)
Record payload_ok (p : msm_hw_fence_queue_payload) : Prop := mk_payload_ok {
  po_size : is_u32 (pl_size p);
  po_type : is_u16 (pl_type p);
  po_version : is_u16 (pl_version p);
  po_ctxt : is_u64 (pl_ctxt_id p);
  po_seqno : is_u64 (pl_seqno p);
  po_hash : is_u64 (pl_hash p);
  po_flags : is_u64 (pl_flags p);
  po_data : is_u64 (pl_client_data p)
}.

(** The distance between two slots in the indexes that the queue exposes. *)
Definition stride (q : msm_hw_fence_queue) : Z := PAYLOAD_U32 / rd_wr_idx_factor q.

(** The exposed index of slot [s]. *)
Definition slot_idx (q : msm_hw_fence_queue) (s : Z) : Z := rd_wr_idx_start q + s * stride q.

(** A queue of [n] slots, as the driver configures it: indexes count dwords or
    payloads, from any start that cannot overflow. *)
Record queue_ok (n : Z) (q : msm_hw_fence_queue) : Prop := mk_queue_ok {
  qo_slots : 1 < n;
  qo_size : q_size_bytes q = SIZEOF_QUEUE_PAYLOAD * n;
  qo_bound : SIZEOF_QUEUE_PAYLOAD * n < 2 ^ 32;
  qo_mem : zlen (va_queue q) = PAYLOAD_U32 * n;
  qo_factor : rd_wr_idx_factor q = 1 \/ rd_wr_idx_factor q = PAYLOAD_U32;
  qo_start : 0 <= rd_wr_idx_start q;
  qo_end : slot_idx q n < 2 ^ 32
}.

(** The indexes of the queue stand at the slots [r] (read) and [w] (written). *)
Record queue_at (n : Z) (q : msm_hw_fence_queue) (r w : Z) : Prop := mk_queue_at {
  qa_ok : queue_ok n q;
  qa_r : 0 <= r < n;
  qa_w : 0 <= w < n;
  qa_header : exists h, va_header q = Some h /\
    read_index h = slot_idx q r /\ wr_index q h = slot_idx q w
}.

(** The number of payloads between the two, and the payloads, oldest first. *)
Definition ring_len (n r w : Z) : Z := (w - r) mod n.
Definition slot_of (q : msm_hw_fence_queue) (s : Z) : msm_hw_fence_queue_payload :=
  read_payload (va_queue q) (PAYLOAD_U32 * s).
Definition contents (n : Z) (q : msm_hw_fence_queue) (r w : Z) : list msm_hw_fence_queue_payload :=
  map (fun k => slot_of q ((r + k) mod n)) (seqZ 0 (ring_len n r w)).

(** ** The layout *)

Lemma znth_off d (l : list Z) i a b x :
  0 <= i -> 0 <= a -> i + a < zlen l ->
  znth d (zupd l (i + a) x) (i + b) = if b =? a then x else znth d l (i + b).
Proof.
  intros Hi Ha Hl. rewrite znth_zupd by lia.
  destruct (Z.eqb_spec (i + b) (i + a)), (Z.eqb_spec b a); done || lia.
Qed.

Lemma zlen_blit mem i l : zlen (blit mem i l) = zlen mem.
Proof. revert mem i. induction l as [|x l IH]; intros; cbn [blit]; [done|]. by rewrite IH, zlen_zupd. Qed.

Lemma znth_blit d mem i l j :
  0 <= i -> i + zlen l <= zlen mem ->
  znth d (blit mem i l) j =
    if (i <=? j) && (j <? i + zlen l) then znth d l (j - i) else znth d mem j.
Proof.
  revert mem i. induction l as [|x l IH]; intros mem i Hi Hl.
  - change (zlen (@nil Z)) with 0. destruct (Z.leb_spec i j), (Z.ltb_spec j (i + 0)); cbn [andb]; done || lia.
  - assert (Hc : zlen (x :: l) = zlen l + 1) by (unfold zlen; simpl length; lia).
    assert (0 <= zlen l) by (unfold zlen; lia). rewrite Hc in *.
    cbn [blit]. rewrite IH by (rewrite ?zlen_zupd; lia). rewrite znth_zupd by lia.
    destruct (Z.leb_spec (i + 1) j) as [H1|H1], (Z.ltb_spec j (i + 1 + zlen l)) as [H2|H2],
      (Z.leb_spec i j) as [H3|H3], (Z.ltb_spec j (i + (zlen l + 1))) as [H4|H4],
      (Z.eqb_spec j i) as [H5|H5]; cbn [andb]; try lia; try done.
    + unfold znth. destruct (Z.ltb_spec (j - (i + 1)) 0), (Z.ltb_spec (j - i) 0); try lia.
      replace (Z.to_nat (j - i)) with (S (Z.to_nat (j - (i + 1)))) by lia. done.
    + subst j. rewrite Z.sub_diag. done.
Qed.

Lemma type_version t v :
  is_u16 t -> is_u16 v -> u16 (Z.lor (Z.shiftl v 16) t) = t /\
  Z.shiftr (Z.lor (Z.shiftl v 16) t) 16 = v.
Proof.
  intros Ht Hv. unfold is_u16 in *. rewrite Z.lor_comm, lor_shiftl_low by lia.
  rewrite Z.shiftr_div_pow2 by lia. unfold u16.
  rewrite Z_mod_plus_full, Z.mod_small, Z_div_plus_full, Z.div_small by lia. split; lia.
Qed.

(** Reading the dwords of a payload gives it back. *)
Lemma read_dwords mem i p :
  payload_ok p -> (forall k, 0 <= k < PAYLOAD_U32 -> znth 0 mem (i + k) = znth 0 (payload_dwords p) k) ->
  read_payload mem i = p.
Proof.
  intros [Hs Ht Hv Hc Hq Hh Hf Hd] H. unfold PAYLOAD_U32, SIZEOF_QUEUE_PAYLOAD in H.
  unfold read_payload. rewrite !H by (vm_compute; split; congruence).
  destruct p as [sz ty ver c sq h f dt e lo hi rsv]. simpl in *.
  lazy -[u16 Z.shiftr Z.shiftl Z.lor lo32 hi32].
  destruct (type_version ty ver Ht Hv) as [-> ->].
  unfold lo32, hi32. by rewrite !lo_hi_u64 by done.
Qed.

(** The copy of a structure round-trips. *)
Lemma read_write_payload mem i p :
  payload_ok p -> 0 <= i -> i + PAYLOAD_U32 <= zlen mem ->
  read_payload (write_payload mem i p) i = p.
Proof.
  intros Hp Hi Hl. apply read_dwords; [done|]. intros k Hk. unfold write_payload.
  change PAYLOAD_U32 with 16 in *.
  rewrite znth_blit by (done || (change (zlen (payload_dwords p)) with 16; lia)).
  change (zlen (payload_dwords p)) with 16.
  destruct (Z.leb_spec i (i + k)), (Z.ltb_spec (i + k) (i + 16)); try lia. simpl.
  f_equal. lia.
Qed.

(** Memory that agrees on a payload reads the same payload. *)
Lemma read_payload_ext mem mem' i :
  (forall k, 0 <= k < PAYLOAD_U32 -> znth 0 mem' (i + k) = znth 0 mem (i + k)) ->
  read_payload mem' i = read_payload mem i.
Proof.
  intros H. unfold PAYLOAD_U32, SIZEOF_QUEUE_PAYLOAD in H. unfold read_payload.
  rewrite !H by (vm_compute; split; congruence). done.
Qed.

Lemma write_payload_other mem i j p :
  0 <= i -> i + PAYLOAD_U32 <= zlen mem -> j + PAYLOAD_U32 <= i \/ i + PAYLOAD_U32 <= j ->
  read_payload (write_payload mem i p) j = read_payload mem j.
Proof.
  intros Hi Hl Hj. apply read_payload_ext. intros k Hk. unfold write_payload.
  change PAYLOAD_U32 with 16 in *.
  rewrite znth_blit by (done || (change (zlen (payload_dwords p)) with 16; lia)).
  change (zlen (payload_dwords p)) with 16.
  destruct (Z.leb_spec i (j + k)), (Z.ltb_spec (j + k) (i + 16)); try done; lia.
Qed.

Lemma list_znth_ext (l l' : list Z) :
  zlen l = zlen l' -> (forall j, 0 <= j < zlen l -> znth 0 l j = znth 0 l' j) -> l = l'.
Proof.
  intros Hlen H. apply (list_eq_same_length _ _ (length l)); unfold zlen in *; [lia|done|].
  intros k x y Hk Hx Hy.
  rewrite <- (znth_lookup 0 _ _ _ Hx), <- (znth_lookup 0 _ _ _ Hy). apply H. lia.
Qed.

(** The stores of [hw_fence_update_queue] write a whole payload, except for the
    reserved dword. *)
Lemma store_payload_dwords mem i ctxt seqno hash flags data err ts :
  0 <= i -> i + PAYLOAD_U32 <= zlen mem ->
  store_payload mem i SIZEOF_QUEUE_PAYLOAD ctxt seqno hash flags data err ts =
  write_payload mem i (mk_payload SIZEOF_QUEUE_PAYLOAD HW_FENCE_PAYLOAD_TYPE_1
    (HW_FENCE_PAYLOAD_REV 1 0) ctxt seqno hash flags data (u32 err) (u32 ts) (hi32 ts)
    (znth 0 mem (i + 15))).
Proof.
  intros Hi Hl. change PAYLOAD_U32 with 16 in Hl.
  unfold store_payload, write_payload, writeq_relaxed, writel_relaxed, writew_lo, writew_hi.
  rewrite <- !Z.add_assoc. cbn [Z.add Pos.add Pos.succ].
  apply list_znth_ext; [by rewrite zlen_blit, !zlen_zupd|].
  intros j Hj. rewrite !zlen_zupd in Hj.
  rewrite znth_blit by (done || (change (zlen (payload_dwords _)) with 16; lia)).
  change (zlen (payload_dwords _)) with 16.
  destruct (decide (i <= j < i + 16)) as [Hin|Hout].
  - assert (Hb : (i <=? j) && (j <? i + 16) = true) by lia. rewrite Hb.
    assert (exists k, j = i + k /\ (k = 0 \/ k = 1 \/ k = 2 \/ k = 3 \/ k = 4 \/ k = 5 \/ k = 6 \/
      k = 7 \/ k = 8 \/ k = 9 \/ k = 10 \/ k = 11 \/ k = 12 \/ k = 13 \/ k = 14 \/ k = 15))
      as (k & -> & Hk) by (exists (j - i); lia).
    replace (i + k - i) with k by lia.
    replace (zupd mem i) with (zupd mem (i + 0)) by (f_equal; lia).
    repeat (destruct Hk as [->|Hk]); try subst k;
      rewrite ?znth_off by (rewrite ?zlen_zupd; lia); reflexivity.
  - assert (Hb : (i <=? j) && (j <? i + 16) = false) by lia. rewrite Hb.
    rewrite !znth_zupd_ne by lia. done.
Qed.

(** ** Ring arithmetic *)

Definition next (n s : Z) : Z := if s + 1 =? n then 0 else s + 1.

Lemma mod_wrap n x : 0 <= x < 2 * n -> x mod n = if x <? n then x else x - n.
Proof.
  intros H. destruct (Z.ltb_spec x n); [apply Z.mod_small; lia|].
  symmetry. apply (Z.mod_unique_pos x n 1); lia.
Qed.

Lemma ring_len_cases n r w :
  0 <= r < n -> 0 <= w < n -> ring_len n r w = if r <=? w then w - r else w - r + n.
Proof.
  intros Hr Hw. unfold ring_len. destruct (Z.leb_spec r w).
  - apply Z.mod_small. lia.
  - symmetry. apply (Z.mod_unique_pos _ n (-1)); lia.
Qed.

(** Case analysis on the position of the indexes. *)
Ltac ring_cases :=
  repeat match goal with
  | |- context [ring_len ?n ?r ?w] =>
      rewrite (ring_len_cases n r w) by (unfold next in *; repeat case_if; lia)
  | H : context [ring_len ?n ?r ?w] |- _ =>
      rewrite (ring_len_cases n r w) in H by (unfold next in *; repeat case_if; lia)
  end;
  unfold next in *;
  repeat match goal with
  | |- context [if ?b then _ else _] => destruct b eqn:?
  | H : context [if ?b then _ else _] |- _ => destruct b eqn:?
  end.

Lemma next_range n s : 0 <= s < n -> 0 <= next n s < n.
Proof. unfold next. destruct (Z.eqb_spec (s + 1) n); lia. Qed.

Lemma ring_len_range n r w : 0 <= r < n -> 0 <= w < n -> 0 <= ring_len n r w < n.
Proof. intros. ring_cases; lia. Qed.

Lemma ring_len_empty n r w : 0 <= r < n -> 0 <= w < n -> (ring_len n r w = 0 <-> r = w).
Proof. intros. split; intros; ring_cases; lia. Qed.

Lemma ring_len_push n r w :
  0 <= r < n -> 0 <= w < n -> ring_len n r w + 1 < n ->
  ring_len n r (next n w) = ring_len n r w + 1.
Proof.
  intros Hr Hw H. pose proof (next_range n w Hw). rewrite !ring_len_cases in * by lia.
  unfold next in *. destruct (Z.eqb_spec (w + 1) n), (Z.leb_spec r w); try lia;
    [destruct (Z.leb_spec r 0)|destruct (Z.leb_spec r (w + 1))|destruct (Z.leb_spec r (w + 1))]; lia.
Qed.

Lemma ring_len_pop n r w :
  0 <= r < n -> 0 <= w < n -> r <> w -> ring_len n (next n r) w = ring_len n r w - 1.
Proof.
  intros Hr Hw H. pose proof (next_range n r Hr). rewrite !ring_len_cases in * by lia.
  unfold next in *. destruct (Z.eqb_spec (r + 1) n), (Z.leb_spec r w); try lia;
    [destruct (Z.leb_spec 0 w)|destruct (Z.leb_spec (r + 1) w)|destruct (Z.leb_spec (r + 1) w)]; lia.
Qed.

(** The slot of the [k]-th payload. *)
Lemma slot_pos n r w k :
  0 <= r < n -> 0 <= w < n -> 0 <= k < ring_len n r w ->
  0 <= (r + k) mod n < n /\ (r + k) mod n <> w.
Proof.
  intros Hr Hw Hk. rewrite ring_len_cases in Hk by done. rewrite mod_wrap by (destruct (r <=? w); lia).
  destruct (Z.leb_spec r w), (Z.ltb_spec (r + k) n); lia.
Qed.

Lemma slot_end n r w : 0 <= r < n -> 0 <= w < n -> (r + ring_len n r w) mod n = w.
Proof.
  intros Hr Hw. rewrite ring_len_cases by done.
  rewrite mod_wrap by (destruct (Z.leb_spec r w); lia).
  destruct (Z.leb_spec r w); [destruct (Z.ltb_spec (r + (w - r)) n)|
    destruct (Z.ltb_spec (r + (w - r + n)) n)]; lia.
Qed.

Lemma length_contents n q r w :
  0 <= r < n -> 0 <= w < n -> zlen (contents n q r w) = ring_len n r w.
Proof.
  intros Hr Hw. unfold contents, zlen. rewrite length_map, length_seqZ.
  pose proof (ring_len_range n r w Hr Hw). lia.
Qed.

Lemma contents_empty n q r : 0 <= r < n -> contents n q r r = [].
Proof.
  intros Hr. unfold contents. by rewrite (proj2 (ring_len_empty n r r Hr Hr) eq_refl).
Qed.

(** Writing the slot [w] and advancing appends to the contents. *)
Lemma contents_push n q q' r w p :
  0 <= r < n -> 0 <= w < n -> ring_len n r w + 1 < n ->
  slot_of q' w = p -> (forall s, 0 <= s < n -> s <> w -> slot_of q' s = slot_of q s) ->
  contents n q' r (next n w) = contents n q r w ++ [p].
Proof.
  intros Hr Hw Hl Hp Hs. pose proof (ring_len_range n r w Hr Hw) as Hlr.
  unfold contents. rewrite ring_len_push by done.
  rewrite seqZ_app by lia. rewrite Z.add_0_l, map_app. change (seqZ (ring_len n r w) 1)
    with [ring_len n r w]. cbn [map].
  rewrite slot_end, Hp by done. f_equal. apply map_ext_in. intros k Hk.
  apply list_elem_of_In, elem_of_seqZ in Hk.
  destruct (slot_pos n r w k Hr Hw ltac:(lia)) as [H1 H2]. by apply Hs.
Qed.

(** The contents start with the slot [r]. *)
Lemma contents_pop n q r w :
  0 <= r < n -> 0 <= w < n -> r <> w ->
  contents n q r w = slot_of q r :: contents n q (next n r) w.
Proof.
  intros Hr Hw Hne. pose proof (ring_len_range n r w Hr Hw) as Hlr.
  assert (0 < ring_len n r w).
  { destruct (Z.eq_dec (ring_len n r w) 0) as [Hz|]; [|lia].
    apply ring_len_empty in Hz; done. }
  unfold contents. rewrite ring_len_pop by done.
  rewrite (seqZ_cons 0 (ring_len n r w)) by lia. cbn [map].
  rewrite Z.add_0_r, (Z.mod_small r n) by lia. f_equal.
  replace (Z.succ 0) with (1 + 0) by lia. replace (Z.pred (ring_len n r w)) with (ring_len n r w - 1) by lia.
  rewrite <- (fmap_add_seqZ 1 0 (ring_len n r w - 1)).
  change (fmap (Z.add 1) (seqZ 0 (ring_len n r w - 1))) with (map (Z.add 1) (seqZ 0 (ring_len n r w - 1))).
  rewrite map_map. apply map_ext_in. intros k Hk. apply list_elem_of_In, elem_of_seqZ in Hk.
  f_equal. pose proof (next_range n r Hr). rewrite !mod_wrap by lia. unfold next.
  destruct (Z.eqb_spec (r + 1) n), (Z.ltb_spec (r + (1 + k)) n); try lia;
    [destruct (Z.ltb_spec (0 + k) n)|destruct (Z.ltb_spec (r + 1 + k) n)|
     destruct (Z.ltb_spec (r + 1 + k) n)]; lia.
Qed.

(** ** Index translation *)

Section indexes.
Context (n : Z) (q : msm_hw_fence_queue) (Hq : queue_ok n q).

Lemma queue_small : 0 <= n /\ PAYLOAD_U32 * n < 2 ^ 32.
Proof.
  pose proof (qo_slots n q Hq). pose proof (qo_bound n q Hq).
  change SIZEOF_QUEUE_PAYLOAD with 64 in *. change PAYLOAD_U32 with 16. lia.
Qed.

Lemma q_size_dwords : q_size_bytes q / 4 = PAYLOAD_U32 * n.
Proof.
  rewrite (qo_size n q Hq). change SIZEOF_QUEUE_PAYLOAD with 64. change PAYLOAD_U32 with 16.
  replace (64 * n) with (16 * n * 4) by lia. by rewrite Z.div_mul.
Qed.

(** The index of a slot, in dwords, for every convention. *)
Lemma slot_dwords s :
  0 <= s <= n ->
  (if REQUIRES_IDX_TRANSLATION q then IDX_TRANSLATE_CUSTOM_TO_DEFAULT q (slot_idx q s)
   else slot_idx q s) = PAYLOAD_U32 * s.
Proof.
  intros Hs. pose proof queue_small as [Hn Hb]. pose proof (qo_start n q Hq) as H0.
  pose proof (qo_end n q Hq) as He. unfold slot_idx, stride in *.
  change PAYLOAD_U32 with 16 in *.
  unfold REQUIRES_IDX_TRANSLATION, IDX_TRANSLATE_CUSTOM_TO_DEFAULT, truthy.
  destruct (qo_factor n q Hq) as [Hf|Hf]; change PAYLOAD_U32 with 16 in Hf; rewrite Hf in *.
  - change (16 / 1) with 16 in *. simpl. rewrite orb_false_r.
    destruct (Z.eqb_spec (rd_wr_idx_start q) 0) as [Hz|Hz]; cbn [negb].
    + rewrite Hz. lia.
    + rewrite (u32_small (_ - _)) by lia. rewrite u32_small; lia.
  - change (16 / 16) with 1 in *. simpl. rewrite orb_true_r.
    rewrite (u32_small (_ - _)) by lia. rewrite u32_small; lia.
Qed.

Lemma translate_at r w :
  0 <= r < n -> 0 <= w < n ->
  _translate_queue_indexes_custom_to_default q (slot_idx q r) (slot_idx q w) =
  (PAYLOAD_U32 * r, PAYLOAD_U32 * w).
Proof.
  intros Hr Hw. unfold _translate_queue_indexes_custom_to_default.
  pose proof (slot_dwords r ltac:(lia)) as H1. pose proof (slot_dwords w ltac:(lia)) as H2.
  destruct (REQUIRES_IDX_TRANSLATION q); by rewrite H1, H2.
Qed.

Lemma translate_back s :
  0 <= s < n ->
  (if REQUIRES_IDX_TRANSLATION q then IDX_TRANSLATE_DEFAULT_TO_CUSTOM q (PAYLOAD_U32 * s)
   else PAYLOAD_U32 * s) = slot_idx q s.
Proof.
  intros Hs. pose proof queue_small as [Hn Hb]. pose proof (qo_start n q Hq) as H0.
  pose proof (qo_end n q Hq) as He. unfold slot_idx, stride in *.
  change PAYLOAD_U32 with 16 in *.
  unfold REQUIRES_IDX_TRANSLATION, IDX_TRANSLATE_DEFAULT_TO_CUSTOM, truthy.
  destruct (qo_factor n q Hq) as [Hf|Hf]; change PAYLOAD_U32 with 16 in Hf; rewrite Hf in *.
  - change (16 / 1) with 16 in *. simpl. rewrite orb_false_r, Z.div_1_r.
    destruct (Z.eqb_spec (rd_wr_idx_start q) 0) as [Hz|Hz]; cbn [negb].
    + rewrite Hz. lia.
    + rewrite u32_small; lia.
  - change (16 / 16) with 1 in *. simpl. rewrite orb_true_r.
    replace (16 * s) with (s * 16) by lia. rewrite Z.div_mul, u32_small by lia. lia.
Qed.

(** The index after one payload, with the wrap-around. *)
Lemma advance s :
  0 <= s < n ->
  (if u32 (PAYLOAD_U32 * s + PAYLOAD_U32) >=? PAYLOAD_U32 * n then 0
   else u32 (PAYLOAD_U32 * s + PAYLOAD_U32)) = PAYLOAD_U32 * next n s.
Proof.
  intros Hs. pose proof queue_small as [Hn Hb]. change PAYLOAD_U32 with 16 in *.
  unfold next. rewrite u32_small by lia.
  destruct (Z.geb_spec (16 * s + 16) (16 * n)), (Z.eqb_spec (s + 1) n); lia.
Qed.

Lemma slot_inside s : 0 <= s < n -> payload_inside (va_queue q) (PAYLOAD_U32 * s) = true.
Proof.
  intros Hs. unfold payload_inside. rewrite (qo_mem n q Hq).
  change PAYLOAD_U32 with 16. destruct (Z.leb_spec 0 (16 * s)), (Z.leb_spec (16 * s + 16) (16 * n)); lia.
Qed.

(** The room that the writer computes. *)
Lemma free_dwords r w :
  0 <= r < n -> 0 <= w < n ->
  (if PAYLOAD_U32 * r <=? PAYLOAD_U32 * w
   then u32 (PAYLOAD_U32 * n - u32 (PAYLOAD_U32 * w - PAYLOAD_U32 * r))
   else u32 (PAYLOAD_U32 * r - PAYLOAD_U32 * w)) = PAYLOAD_U32 * (n - ring_len n r w).
Proof.
  intros Hr Hw. pose proof queue_small as [Hn Hb]. change PAYLOAD_U32 with 16 in *.
  rewrite ring_len_cases by done.
  destruct (Z.leb_spec (16 * r) (16 * w)), (Z.leb_spec r w); try lia.
  - rewrite (u32_small (16 * w - 16 * r)), u32_small by lia. lia.
  - rewrite u32_small by lia. lia.
Qed.

Lemma slot_idx_inj r w : 0 <= r < n -> 0 <= w < n -> (slot_idx q r =? slot_idx q w) = (r =? w).
Proof.
  intros Hr Hw. unfold slot_idx, stride.
  destruct (qo_factor n q Hq) as [->| ->]; change PAYLOAD_U32 with 16;
    [change (16 / 1) with 16|change (16 / 16) with 1];
    destruct (Z.eqb_spec r w); try (subst; by rewrite Z.eqb_refl);
    match goal with |- (?a =? ?b) = _ => destruct (Z.eqb_spec a b); [lia|done] end.
Qed.

End indexes.

(** ** Reading is popping *)

(** A change of the header alone keeps the queue. *)
Lemma queue_ok_header n q h : queue_ok n q -> queue_ok n (q_set_va_header h q).
Proof. intros []. by split. Qed.

Lemma read_helper_at n q r w :
  queue_at n q r w -> skip_wr_idx q = false ->
  hw_fence_read_queue_helper q =
    if r =? w then Some (- EINVAL, None, q) else
    match va_header q with
    | Some h => Some (if slot_idx q (next n r) =? PAYLOAD_U32 * w then 0 else 1,
                      Some (slot_of q r),
                      q_set_va_header (Some (set_read_index (slot_idx q (next n r)) h)) q)
    | None => None
    end.
Proof.
  intros [Hq Hr Hw (h & Hh & Hri & Hwi)] Hs. unfold wr_index in Hwi. rewrite Hs in Hwi.
  unfold hw_fence_read_queue_helper. rewrite Hh, Hri, Hwi, (translate_at n) by done.
  pose proof (slot_idx_inj n q Hq r w Hr Hw) as Hi.
  change PAYLOAD_U32 with 16 at 1 2. destruct (Z.eqb_spec r w) as [->|Hne].
  - by rewrite Z.eqb_refl.
  - destruct (Z.eqb_spec (16 * r) (16 * w)); [lia|]. cbv zeta.
    rewrite (q_size_dwords n) by done. rewrite (advance n q) by done.
    rewrite (translate_back n) by (auto using next_range).
    rewrite (slot_inside n) by done. done.
Qed.

Lemma contents_va n q q' r w : va_queue q' = va_queue q -> contents n q' r w = contents n q r w.
Proof. intros H. unfold contents, slot_of. by rewrite H. Qed.

(** Reading a ring that is not empty. *)
Lemma read_pop n r w q : queue_at n q r w -> skip_wr_idx q = false -> r <> w ->
  exists ret q', hw_fence_read_queue_helper q = Some (ret, Some (slot_of q r), q') /\
    queue_at n q' (next n r) w /\ va_queue q' = va_queue q /\ skip_wr_idx q' = false /\
    REQUIRES_IDX_TRANSLATION q' = REQUIRES_IDX_TRANSLATION q /\
    (REQUIRES_IDX_TRANSLATION q = false -> ret = if next n r =? w then 0 else 1).
Proof.
  intros Hq Hs Hne. pose proof Hq as [Hok Hr Hw (h & Hh & Hri & Hwi)].
  rewrite (read_helper_at n q r w) by done. rewrite Hh. destruct (Z.eqb_spec r w); [done|].
  eexists _, _. split; [reflexivity|]. set (q' := q_set_va_header _ _). pose proof (next_range n r Hr) as Hnr.
  split; [|split; [done|split; [done|split; [done|]]]].
  - split; [by apply queue_ok_header|done|done|]. eexists. split; [reflexivity|].
    change (slot_idx q') with (slot_idx q). unfold wr_index in *. simpl in *.
    rewrite Hs in *. split; [|done]. simpl. apply u32_small.
    pose proof (qo_start n q Hok). pose proof (qo_end n q Hok) as He. unfold slot_idx, stride in *.
    destruct (qo_factor n q Hok) as [Hf|Hf]; rewrite Hf in *; change PAYLOAD_U32 with 16 in *;
      [change (16 / 1) with 16 in *|change (16 / 16) with 1 in *]; lia.
  - intros Ht. pose proof (translate_back n q Hok w Hw) as Hb. rewrite Ht in Hb. rewrite Hb.
    by rewrite slot_idx_inj with (n := n) by done.
Qed.

(** C10: reading a queue of the driver takes the oldest payload, for every
    index convention the device tree can select: an empty queue gives [-EINVAL]
    and is left alone; otherwise the head of the contents is returned and its
    tail remains. Where indexes are not translated the return value tells
    whether payloads remain. *)
Theorem read_queue_pops (n r w : Z) (q : msm_hw_fence_queue)
    (Hq : queue_at n q r w) (Hs : skip_wr_idx q = false) :
  match contents n q r w with
  | [] => hw_fence_read_queue_helper q = Some (- EINVAL, None, q)
  | p :: l => exists ret q',
      hw_fence_read_queue_helper q = Some (ret, Some p, q') /\
      queue_at n q' (next n r) w /\ contents n q' (next n r) w = l /\
      va_queue q' = va_queue q /\
      (REQUIRES_IDX_TRANSLATION q = false -> ret = match l with [] => 0 | _ => 1 end)
  end.
Proof.
  pose proof (qa_r _ _ _ _ Hq) as Hr. pose proof (qa_w _ _ _ _ Hq) as Hw.
  destruct (Z.eq_dec r w) as [->|Hne].
  - rewrite contents_empty by done. rewrite (read_helper_at n q w w) by done. by rewrite Z.eqb_refl.
  - rewrite contents_pop by done. destruct (read_pop n r w q Hq Hs Hne) as (ret & q' & Hrd & Hat & Hva & _ & _ & Hret).
    exists ret, q'. split; [done|]. split; [done|]. split; [by apply contents_va|]. split; [done|].
    intros Ht. rewrite (Hret Ht). destruct (Z.eqb_spec (next n r) w) as [->|Hx]; [by rewrite contents_empty|].
    by rewrite contents_pop by (auto using next_range).
Qed.

(** A queue of three slots with two payloads of the hashes 7 and 8, indexed by
    dwords from the start. *)
Definition demo_payload (h : Z) : msm_hw_fence_queue_payload :=
  mk_payload SIZEOF_QUEUE_PAYLOAD HW_FENCE_PAYLOAD_TYPE_1 (HW_FENCE_PAYLOAD_REV 1 0) 5 6 h 0 0 0 0 0 0.

Definition demo_queue (start factor r w : Z) (skip : bool) : msm_hw_fence_queue :=
  let mem := write_payload (write_payload (replicate 48 0) 16 (demo_payload 7)) 32 (demo_payload 8) in
  mk_queue mem 192
    (Some (mk_hfi_header 0 0 0 0 (start + r * (16 / factor)) (start + w * (16 / factor))
       (start + w * (16 / factor)))) 0 start factor skip.

Lemma demo_queue_at start factor r w skip :
  factor = 1 \/ factor = 16 -> 0 <= start < 2 ^ 31 -> 0 <= r < 3 -> 0 <= w < 3 ->
  queue_at 3 (demo_queue start factor r w skip) r w.
Proof.
  intros Hf Hs Hr Hw. split; [|done|done|].
  - split; [lia|reflexivity|reflexivity|vm_compute; reflexivity|exact Hf|apply Hs|].
    unfold slot_idx, stride. simpl. destruct Hf as [->| ->];
      [change (PAYLOAD_U32 / 1) with 16|change (PAYLOAD_U32 / 16) with 1]; lia.
  - eexists. split; [reflexivity|]. unfold wr_index. simpl.
    split; [done|]. by destruct skip.
Qed.

Lemma read_queue_pops_witness :
  exists q', hw_fence_read_queue_helper (demo_queue 0 1 1 0 false) = Some (1, Some (demo_payload 7), q') /\
    contents 3 q' 2 0 = [demo_payload 8].
Proof.
  assert (Hq : queue_at 3 (demo_queue 0 1 1 0 false) 1 0)
    by (apply demo_queue_at; auto; lia).
  pose proof (read_queue_pops 3 1 0 _ Hq eq_refl) as H.
  assert (Hc : contents 3 (demo_queue 0 1 1 0 false) 1 0 = [demo_payload 7; demo_payload 8])
    by (vm_compute; reflexivity).
  rewrite Hc in H. destruct H as (ret & q' & Heq & _ & Hl & _ & Hret).
  exists q'. rewrite Heq, (Hret eq_refl). split; [reflexivity|exact Hl].
Defined.

(** The return value compares the translated read index with the write index in
    dwords. With indexes that count payloads from 16 the reader is told that
    nothing remains while a payload does; with indexes that count payloads from
    0 it is told that payloads remain while none does. *)
Example read_queue_wrong_end :
  (exists p q', queue_at 3 (demo_queue 16 16 2 1 false) 2 1 /\
     hw_fence_read_queue_helper (demo_queue 16 16 2 1 false) = Some (0, Some p, q') /\
     zlen (contents 3 q' 0 1) = 1) /\
  (exists p q', queue_at 3 (demo_queue 0 16 1 2 false) 1 2 /\
     hw_fence_read_queue_helper (demo_queue 0 16 1 2 false) = Some (1, Some p, q') /\
     contents 3 q' 2 2 = []).
Proof.
  split; eexists _, _; (split; [apply demo_queue_at; auto; lia|]);
    (split; [vm_compute; reflexivity|]); vm_compute; reflexivity.
Qed.

(** ** Writing is appending *)

Section write.
Context `{E : HwFenceEnv}.

(** The payload that [hw_fence_update_queue] writes. *)
Definition new_payload (ctxt seqno hash flags data err ts rsv : Z) : msm_hw_fence_queue_payload :=
  mk_payload SIZEOF_QUEUE_PAYLOAD HW_FENCE_PAYLOAD_TYPE_1 (HW_FENCE_PAYLOAD_REV 1 0)
    ctxt seqno hash flags data (u32 err) (u32 ts) (hi32 ts) rsv.

Lemma new_payload_ok ctxt seqno hash flags data err ts rsv :
  is_u64 ctxt -> is_u64 seqno -> is_u64 hash -> is_u64 flags -> is_u64 data ->
  payload_ok (new_payload ctxt seqno hash flags data err ts rsv).
Proof. intros. split; try done; by vm_compute. Qed.

(** The queue after a write at slot [w]. *)
Definition pushed (n w : Z) (q : msm_hw_fence_queue) (h : hfi_queue_header)
    (p : msm_hw_fence_queue_payload) : msm_hw_fence_queue :=
  q_set_va_header (Some (set_wr_index q (slot_idx q (next n w)) h))
    (q_set_va_queue (write_payload (va_queue q) (PAYLOAD_U32 * w) p) q).

Lemma slot_idx_u32 n q s : queue_ok n q -> 0 <= s < n -> u32 (slot_idx q s) = slot_idx q s.
Proof.
  intros Hok Hs. apply u32_small. pose proof (qo_start n q Hok). pose proof (qo_end n q Hok) as He.
  unfold slot_idx, stride in *.
  destruct (qo_factor n q Hok) as [Hf|Hf]; rewrite Hf in *; change PAYLOAD_U32 with 16 in *;
    [change (16 / 1) with 16 in *|change (16 / 16) with 1 in *]; lia.
Qed.

Lemma pushed_at n q r w h p :
  queue_at n q r w -> va_header q = Some h -> payload_ok p -> ring_len n r w + 1 < n ->
  queue_at n (pushed n w q h p) r (next n w) /\
  contents n (pushed n w q h p) r (next n w) = contents n q r w ++ [p].
Proof.
  intros [Hok Hr Hw (h' & Hh & Hri & Hwi)] Hh' Hp Hl. rewrite Hh in Hh'. injection Hh' as <-.
  pose proof (next_range n w Hw) as Hnw. pose proof (qo_mem n q Hok) as Hmem.
  change PAYLOAD_U32 with 16 in Hmem.
  assert (Hlen : zlen (write_payload (va_queue q) (PAYLOAD_U32 * w) p) = zlen (va_queue q))
    by apply zlen_blit.
  split.
  - split; [|done|done|].
    + destruct Hok. split; auto. simpl. by rewrite Hlen.
    + eexists. split; [reflexivity|]. change (slot_idx (pushed n w q h' p)) with (slot_idx q).
      pose proof (slot_idx_u32 n q (next n w) Hok Hnw) as Hu.
      unfold wr_index, set_wr_index in *. simpl. destruct (skip_wr_idx q); simpl; by rewrite Hu.
  - apply contents_push; auto.
    + unfold slot_of. apply read_write_payload; [done|..]; change PAYLOAD_U32 with 16; lia.
    + intros s Hs Hne. unfold slot_of. apply write_payload_other; change PAYLOAD_U32 with 16; lia.
Qed.

(** The locked part of [hw_fence_update_queue]. *)
Lemma update_locked_ret d c qi cl q n r w h ctxt seqno hash flags data err :
  queue_of d c qi cl q -> queue_at n q r w -> va_header q = Some h ->
  update_queue_locked c qi ctxt seqno hash flags data err
    (q_size_bytes q / 4) SIZEOF_QUEUE_PAYLOAD (SIZEOF_QUEUE_PAYLOAD / 4) d =
  if ring_len n r w =? n - 1 then Ret (- EINVAL) d else
  Ret 0 (with_queue c qi cl
    (pushed n w q h (new_payload ctxt seqno hash flags data err
       (u64 (arch_timer_read_counter (clock d))) (znth 0 (va_queue q) (PAYLOAD_U32 * w + 15))))
    (d_set_clock (S (clock d)) d)).
Proof.
  intros Hq [Hok Hr Hw (h' & Hh & Hri & Hwi)] Hh'. rewrite Hh in Hh'. injection Hh' as <-.
  unfold update_queue_locked. rewrite (bind_ret _ _ _ _ _ (get_queue_ret _ _ _ _ _ Hq)).
  rewrite Hh. rewrite bind_deref, Hri, Hwi, (translate_at n) by done.
  rewrite (q_size_dwords n) by done. rewrite (free_dwords n q Hok r w) by done.
  change (SIZEOF_QUEUE_PAYLOAD / 4) with PAYLOAD_U32.
  rewrite (advance n q Hok w) by done. rewrite (translate_back n) by auto using next_range.
  rewrite (slot_inside n) by done. pose proof (ring_len_range n r w Hr Hw) as Hl.
  change PAYLOAD_U32 with 16 at 1 2.
  destruct (Z.eqb_spec (ring_len n r w) (n - 1)) as [He|Hne].
  { destruct (Z.leb_spec (16 * (n - ring_len n r w)) 16); [done|lia]. }
  destruct (Z.leb_spec (16 * (n - ring_len n r w)) 16); [lia|].
  unfold mbind at 1 2, run_bind at 1 2, guard, mret, run_ret, hw_fence_get_qtime.
  rewrite store_payload_dwords;
    [|change PAYLOAD_U32 with 16; lia|rewrite (qo_mem n q Hok); change PAYLOAD_U32 with 16; lia].
  pose proof Hq as [Hc _ _].
  assert (Hc' : client_at (d_set_clock (S (clock d)) d) c cl) by (destruct Hc; by split).
  by rewrite (bind_ret _ _ _ _ _ (put_queue_ret _ _ _ _ _ Hc')).
Qed.

(** The lock word of the client's receive queue is free. *)
Definition rxq_lock_ok (d : drv) (cl : msm_hw_fence_client) (qi : Z) : Prop :=
  _lock_client_queue qi = true ->
  u32 (client_id cl - 1) < client_lock_tbl_cnt d /\
  exists w, client_lock_tbl d !! Z.to_nat (u32 (client_id cl - 1)) = Some w /\ lock_free w.

(** It is taken, by a core that holds it. *)
Definition rxq_lock_taken (d : drv) (cl : msm_hw_fence_client) (qi : Z) : Prop :=
  _lock_client_queue qi = true /\ u32 (client_id cl - 1) < client_lock_tbl_cnt d /\
  exists w, client_lock_tbl d !! Z.to_nat (u32 (client_id cl - 1)) = Some w /\ u32 w <> 0.

Lemma with_lock_word_twice i w w' d :
  0 <= i -> client_lock_tbl d !! Z.to_nat i = Some w ->
  with_lock_word i w (with_lock_word i w' d) = d.
Proof.
  intros Hi Hl. unfold with_lock_word. simpl. rewrite zupd_zupd, zupd_lookup_id by done.
  by destruct d.
Qed.

Lemma update_queue_ret d c qi cl q n r w h ctxt seqno hash flags data err :
  queue_of d c qi cl q -> qi < queues_num cl -> queue_at n q r w -> va_header q = Some h ->
  rxq_lock_ok d cl qi ->
  hw_fence_update_queue c ctxt seqno hash flags data err qi d =
  if ring_len n r w =? n - 1 then Ret (- EINVAL) d else
  Ret 0 (with_queue c qi cl
    (pushed n w q h (new_payload ctxt seqno hash flags data err
       (u64 (arch_timer_read_counter (clock d))) (znth 0 (va_queue q) (PAYLOAD_U32 * w + 15))))
    (d_set_clock (S (clock d)) d)).
Proof.
  intros Hq Hqi Hat Hh Hlk. unfold hw_fence_update_queue.
  rewrite (bind_ret _ _ _ _ _ (get_client_ret _ _ _ (qf_client _ _ _ _ _ Hq))).
  destruct (Z.geb_spec qi (queues_num cl)); [lia|].
  rewrite (bind_ret _ _ _ _ _ (get_queue_ret _ _ _ _ _ Hq)).
  unfold _get_update_queue_params. rewrite Hh. cbv zeta. rewrite bind_get.
  destruct (_lock_client_queue qi) eqn:Hrx; unfold rxq_lock_ok in Hlk.
  - destruct (Hlk Hrx) as (Hcnt & lw & Hlw & Hfree). clear Hlk.
    set (i := u32 (client_id cl - 1)) in *. assert (Hi : 0 <= i) by apply u32_range.
    destruct (Z.geb_spec i (client_lock_tbl_cnt d)); [lia|]. cbn [andb when].
    rewrite (bind_ret _ _ _ _ _ (client_lock_ret d i lw Hi Hlw Hfree)).
    set (d1 := with_lock_word i (Z.lor lw 1) d).
    assert (Hq1 : queue_of d1 c qi cl q) by (destruct Hq as [[] ? ?]; by split).
    pose proof (update_locked_ret d1 c qi cl q n r w h ctxt seqno hash flags data err Hq1 Hat Hh) as Hu.
    assert (Hl1 : client_lock_tbl d1 !! Z.to_nat i = Some (Z.lor lw 1))
      by (simpl; by eapply lookup_zupd_eq).
    destruct (ring_len n r w =? n - 1).
    + rewrite (bind_ret _ _ _ _ _ Hu).
      rewrite (bind_ret _ _ _ _ _ (client_unlock_ret d1 i lw Hi Hl1 Hfree)).
      unfold d1. by rewrite with_lock_word_twice.
    + rewrite (bind_ret _ _ _ _ _ Hu).
      match type of Hu with _ = Ret 0 ?x => set (d2 := x) end.
      assert (Hl2 : client_lock_tbl d2 !! Z.to_nat i = Some (Z.lor lw 1)) by done.
      rewrite (bind_ret _ _ _ _ _ (client_unlock_ret d2 i lw Hi Hl2 Hfree)).
      unfold d2, d1, with_queue, with_client, with_lock_word, mret, run_ret. simpl.
      rewrite zupd_zupd, (zupd_lookup_id _ i lw) by done. by destruct d.
  - cbn [andb when]. unfold mbind at 1, run_bind at 1, mret at 1, run_ret at 1.
    pose proof (update_locked_ret d c qi cl q n r w h ctxt seqno hash flags data err Hq Hat Hh) as Hu.
    destruct (ring_len n r w =? n - 1); by rewrite (bind_ret _ _ _ _ _ Hu).
Qed.

(** A lock word that is not 0 makes the writer wait. *)
Lemma client_lock_taken idx d w :
  0 <= idx -> client_lock_tbl d !! Z.to_nat idx = Some w -> u32 w <> 0 -> client_lock idx d = Block.
Proof.
  intros Hi Hl Hw. unfold client_lock, mbind, run_bind, get, guard.
  rewrite (proj2 (Z.leb_le _ _)) by done. unfold mret, run_ret. rewrite Hl. cbn [deref].
  unfold mret, run_ret, _lock. by rewrite (proj2 (Z.eqb_neq _ _)).
Qed.

Lemma update_queue_waits d c qi cl q ctxt seqno hash flags data err :
  queue_of d c qi cl q -> qi < queues_num cl -> is_Some (va_header q) -> rxq_lock_taken d cl qi ->
  hw_fence_update_queue c ctxt seqno hash flags data err qi d = Block.
Proof.
  intros Hq Hqi [h Hh] (Hrx & Hcnt & w & Hw & Ht). unfold hw_fence_update_queue.
  rewrite (bind_ret _ _ _ _ _ (get_client_ret _ _ _ (qf_client _ _ _ _ _ Hq))).
  destruct (Z.geb_spec qi (queues_num cl)); [lia|].
  rewrite (bind_ret _ _ _ _ _ (get_queue_ret _ _ _ _ _ Hq)).
  unfold _get_update_queue_params. rewrite Hh. cbv zeta. rewrite bind_get, Hrx.
  destruct (Z.geb_spec (u32 (client_id cl - 1)) (client_lock_tbl_cnt d)); [lia|]. cbn [andb when].
  unfold mbind at 1, run_bind at 1. by rewrite (client_lock_taken _ d w (proj1 (u32_range _)) Hw Ht).
Qed.

End write.

(** The write with the lock of the receive queue: the word is set before the
    queue is touched and cleared after it. *)
Definition under_client_lock `{HwFenceEnv} (idx : Z) (body : run drv Z) (rc : Z) (d d' : drv) : Prop :=
  exists d1 d2 w, client_lock_tbl d !! Z.to_nat idx = Some w /\ lock_free w /\
    client_lock idx d = Ret tt d1 /\ d1 = with_lock_word idx (Z.lor w 1) d /\
    body d1 = Ret rc d2 /\ client_lock_tbl d2 = client_lock_tbl d1 /\ client_unlock idx d2 = Ret tt d'.

Section locked_write.
Context `{E : HwFenceEnv}.

Lemma update_queue_locks d c qi cl q n r w ctxt seqno hash flags data err :
  queue_of d c qi cl q -> qi < queues_num cl -> queue_at n q r w -> rxq_lock_ok d cl qi ->
  _lock_client_queue qi = true ->
  exists rc d', hw_fence_update_queue c ctxt seqno hash flags data err qi d = Ret rc d' /\
    under_client_lock (u32 (client_id cl - 1))
      (update_queue_locked c qi ctxt seqno hash flags data err (q_size_bytes q / 4)
         SIZEOF_QUEUE_PAYLOAD (SIZEOF_QUEUE_PAYLOAD / 4)) rc d d'.
Proof.
  intros Hq Hqi Hat Hlk Hrx. pose proof Hat as [_ _ _ (h & Hh & _)].
  destruct (Hlk Hrx) as (Hcnt & lw & Hlw & Hfree). unfold hw_fence_update_queue.
  rewrite (bind_ret _ _ _ _ _ (get_client_ret _ _ _ (qf_client _ _ _ _ _ Hq))).
  destruct (Z.geb_spec qi (queues_num cl)); [lia|].
  rewrite (bind_ret _ _ _ _ _ (get_queue_ret _ _ _ _ _ Hq)).
  unfold _get_update_queue_params. rewrite Hh. cbv zeta. rewrite bind_get, Hrx.
  set (i := u32 (client_id cl - 1)) in *. assert (Hi : 0 <= i) by apply u32_range.
  destruct (Z.geb_spec i (client_lock_tbl_cnt d)); [lia|]. cbn [andb when].
  pose proof (client_lock_ret d i lw Hi Hlw Hfree) as Hl. rewrite (bind_ret _ _ _ _ _ Hl).
  set (d1 := with_lock_word i (Z.lor lw 1) d) in *.
  assert (Hq1 : queue_of d1 c qi cl q) by (destruct Hq as [[] ? ?]; by split).
  pose proof (update_locked_ret d1 c qi cl q n r w h ctxt seqno hash flags data err Hq1 Hat Hh) as Hu.
  assert (Hl1 : client_lock_tbl d1 !! Z.to_nat i = Some (Z.lor lw 1)) by (simpl; by eapply lookup_zupd_eq).
  destruct (ring_len n r w =? n - 1).
  all: match type of Hu with _ = Ret ?rc ?d2 =>
    pose proof (client_unlock_ret d2 i lw Hi Hl1 Hfree) as Hul;
    rewrite (bind_ret _ _ _ _ _ Hu), (bind_ret _ _ _ _ _ Hul);
    eexists rc, _; split; [reflexivity|]; exists d1, d2, lw; by split_and! end.
Qed.

End locked_write.

(** C11: writing to a queue of a client appends, or is refused when the ring
    holds one payload less than it has slots. A client with a well-formed queue
    whose lock word is free is served without waiting and without any access
    outside the queue memory; the payload carries the given identifiers, error
    and time; the oldest payloads, the other queues, the fence table and the
    lock words stay as they were. For a receive queue, which other cores write to,
    the lock word of the client is set before the queue is touched and cleared
    afterwards, and when it is set already the writer waits. *)
Theorem update_queue_appends `{E : HwFenceEnv} (d : drv) (c qi : Z) (cl : msm_hw_fence_client)
    (q : msm_hw_fence_queue) (n r w ctxt seqno hash flags data err : Z)
    (Hq : queue_of d c qi cl q) (Hqi : qi < queues_num cl) (Hat : queue_at n q r w)
    (Hc64 : is_u64 ctxt) (Hs64 : is_u64 seqno) (Hh64 : is_u64 hash) (Hf64 : is_u64 flags)
    (Hd64 : is_u64 data) :
  (rxq_lock_ok d cl qi ->
   (if zlen (contents n q r w) =? n - 1
    then hw_fence_update_queue c ctxt seqno hash flags data err qi d = Ret (- EINVAL) d
    else exists d' q' rsv,
      hw_fence_update_queue c ctxt seqno hash flags data err qi d = Ret 0 d' /\
      d' = with_queue c qi cl q' (d_set_clock (S (clock d)) d) /\
      queue_at n q' r (next n w) /\
      contents n q' r (next n w) = contents n q r w ++
        [new_payload ctxt seqno hash flags data err (u64 (arch_timer_read_counter (clock d))) rsv]) /\
   (_lock_client_queue qi = true ->
      exists rc d', hw_fence_update_queue c ctxt seqno hash flags data err qi d = Ret rc d' /\
        under_client_lock (u32 (client_id cl - 1))
          (update_queue_locked c qi ctxt seqno hash flags data err (q_size_bytes q / 4)
             SIZEOF_QUEUE_PAYLOAD (SIZEOF_QUEUE_PAYLOAD / 4)) rc d d')) /\
  (rxq_lock_taken d cl qi -> hw_fence_update_queue c ctxt seqno hash flags data err qi d = Block).
Proof.
  pose proof Hat as [Hok Hr Hw (h & Hh & _)]. split; [intros Hlk; split|].
  - rewrite length_contents by done. rewrite (update_queue_ret d c qi cl q n r w h) by done.
    destruct (Z.eqb_spec (ring_len n r w) (n - 1)); [done|].
    pose proof (ring_len_range n r w Hr Hw).
    eexists _, _, _. split; [reflexivity|]. split; [reflexivity|].
    apply pushed_at; auto; [by apply new_payload_ok|lia].
  - intros Hrx. by apply (update_queue_locks d c qi cl q n r w).
  - apply (update_queue_waits d c qi cl q); try done.
Qed.

(** A concrete environment, with the identifiers that the tables of
    [hw_fence_drv_ipc.c] name in their comments. *)
Definition demo_env : HwFenceEnv := {|
  HW_FENCE_CLIENT_ID_CTX0 := 1; HW_FENCE_CLIENT_ID_CTL0 := 2; HW_FENCE_CLIENT_ID_VAL0 := 8;
  HW_FENCE_CLIENT_ID_IPE := 15; HW_FENCE_CLIENT_ID_VPU := 79; HW_FENCE_CLIENT_ID_IFE0 := 143;
  HW_FENCE_CLIENT_ID_IFE7 := 591; HW_FENCE_CLIENT_MAX := 655;
  MSM_HW_FENCE_MAX_SIGNAL_PER_CLIENT := 64;
  MSM_HW_FENCE_FLAG_ENABLED_BIT := 31; MSM_HW_FENCE_FLAG_SIGNALED_BIT := 30;
  MSM_HW_FENCE_RESET_WITHOUT_ERROR := 1; MSM_HW_FENCE_RESET_WITHOUT_DESTROY := 2;
  MSM_HW_FENCE_UPDATE_ERROR_WITH_MOVE := 1; MSM_HW_FENCE_ERROR_RESET := 1;
  CONFIG_DEBUG_FS := true;
  arch_timer_read_counter := fun n => Z.of_nat n
|}.

(** Client 1 with a transmit and a receive queue. *)
Definition demo_client : msm_hw_fence_client :=
  mk_client 1 1 [demo_queue 0 1 1 0 false; demo_queue 0 1 1 0 false] 2 None 0 false 3 9 4 true true 0.

Definition demo_drv : drv :=
  mk_drv 0 [] [0; 0] 2 [] [None; Some demo_client] 2 1 8 3 4 0 true true false [] 0 [].

(** The receive queue with the lock word free, and with it taken. *)
Lemma update_queue_appends_witness :
  let q := demo_queue 0 1 1 2 false in
  let cl := cl_set_queues [q; q] demo_client in
  let d := d_set_clients [None; Some cl] demo_drv in
  (exists d' q' rsv, @hw_fence_update_queue demo_env 1 5 6 9 0 0 0 1 d = Ret 0 d' /\
    d' = with_queue 1 1 cl q' (d_set_clock 1 d) /\
    contents 3 q' 1 0 = [demo_payload 7; @new_payload 5 6 9 0 0 0 0 rsv]) /\
  @hw_fence_update_queue demo_env 1 5 6 9 0 0 0 1 (with_lock_word 0 1 d) = Block.
Proof.
  intros q cl d.
  assert (Hq : queue_of d 1 1 cl q) by (split; [by split|lia|done]).
  assert (Hq' : queue_of (with_lock_word 0 1 d) 1 1 cl q) by (split; [by split|lia|done]).
  assert (Hat : queue_at 3 q 1 2) by (apply demo_queue_at; auto; lia).
  assert (Hc : contents 3 q 1 2 = [demo_payload 7]) by (vm_compute; reflexivity).
  assert (H64 : forall x, 0 <= x < 2 ^ 32 -> is_u64 x) by (unfold is_u64; lia). split.
  - destruct (update_queue_appends (E := demo_env) d 1 1 cl q 3 1 2 5 6 9 0 0 0 Hq ltac:(done) Hat) as [H _];
      try (apply H64; lia).
    destruct H as [H _]; [intros _; split; [done|]; exists 0; split; [done|apply lock_free_zero]|].
    rewrite Hc in H. destruct H as (d' & q' & rsv & H1 & H2 & _ & H3).
    exists d', q', rsv. split; [exact H1|]. split; [exact H2|exact H3].
  - destruct (update_queue_appends (E := demo_env) (with_lock_word 0 1 d) 1 1 cl q 3 1 2 5 6 9 0 0 0 Hq'
      ltac:(done) Hat) as [_ H]; try (apply H64; lia).
    apply H. split; [done|]. split; [done|]. by exists 1.
Defined.

(** ** Changing the error of a queued payload *)

Lemma read_payload_ok mem i : Forall is_u32 mem -> payload_ok (read_payload mem i).
Proof.
  intros Hm. unfold read_payload. cbv zeta.
  assert (Hqw : forall a b, is_u32 a -> is_u32 b -> is_u64 (Z.lor a (Z.shiftl b 32))).
  { intros a b Ha Hb. unfold is_u32, is_u64 in *. rewrite lor_shiftl_low by lia. lia. }
  split; cbn [pl_size pl_type pl_version pl_ctxt_id pl_seqno pl_hash pl_flags pl_client_data];
    try (apply Hqw); try (by apply znth_u32); [apply u16_range|].
  pose proof (znth_u32 mem (i + 1) Hm) as H. unfold is_u32, is_u16 in *.
  rewrite Z.shiftr_div_pow2 by lia. split; [apply Z.div_pos; lia|].
  apply Z.div_lt_upper_bound; lia.
Qed.

(** A store into the error field. *)
Lemma read_error_store mem i err :
  0 <= i -> i + PAYLOAD_U32 <= zlen mem ->
  read_payload (writel_relaxed err (i + 12) mem) i = set_pl_error err (read_payload mem i).
Proof.
  intros Hi Hl. change PAYLOAD_U32 with 16 in Hl. unfold read_payload, writel_relaxed, set_pl_error.
  cbv zeta. rewrite !znth_off by lia. reflexivity.
Qed.

Lemma error_store_other mem i j err :
  0 <= i -> j + PAYLOAD_U32 <= i \/ i + PAYLOAD_U32 <= j ->
  read_payload (writel_relaxed err (i + 12) mem) j = read_payload mem j.
Proof.
  intros Hi Hj. change PAYLOAD_U32 with 16 in Hj. apply read_payload_ext. intros k Hk.
  change PAYLOAD_U32 with 16 in Hk. unfold writel_relaxed. apply znth_zupd_ne. lia.
Qed.

Lemma swap_spec mem i j err :
  Forall is_u32 mem -> 0 <= i -> 0 <= j -> i + PAYLOAD_U32 <= zlen mem -> j + PAYLOAD_U32 <= zlen mem ->
  j + PAYLOAD_U32 <= i \/ i + PAYLOAD_U32 <= j ->
  let mem' := swap_payloads mem i j err in
  zlen mem' = zlen mem /\ read_payload mem' i = set_pl_error err (read_payload mem j) /\
  read_payload mem' j = read_payload mem i /\
  (forall k, k + PAYLOAD_U32 <= i \/ i + PAYLOAD_U32 <= k ->
     k + PAYLOAD_U32 <= j \/ j + PAYLOAD_U32 <= k -> read_payload mem' k = read_payload mem k).
Proof.
  intros Hm Hi Hj Hli Hlj Hd mem'. unfold mem', swap_payloads, write_payload at 1.
  pose proof (read_payload_ok mem i Hm) as Hpi. pose proof (read_payload_ok mem j Hm) as Hpj.
  set (m1 := write_payload mem i (read_payload mem j)).
  assert (Hl1 : zlen m1 = zlen mem) by apply zlen_blit.
  assert (Hl2 : zlen (writel_relaxed err (i + 12) m1) = zlen mem)
    by (unfold writel_relaxed; by rewrite zlen_zupd).
  fold (write_payload (writel_relaxed err (i + 12) m1) j (read_payload mem i)).
  split; [by rewrite <- Hl2; apply zlen_blit|]. split; [|split].
  - rewrite write_payload_other by (rewrite ?Hl2; lia). rewrite read_error_store by (rewrite ?Hl1; lia).
    unfold m1. by rewrite read_write_payload.
  - apply read_write_payload; rewrite ?Hl2; done.
  - intros k Hki Hkj. rewrite write_payload_other by (rewrite ?Hl2; lia).
    rewrite error_store_other by lia. apply write_payload_other; lia.
Qed.

(** Queues that agree on the slots between the indexes have the same contents. *)
Lemma contents_ext n q q' r w :
  (forall k, 0 <= k < ring_len n r w -> slot_of q' ((r + k) mod n) = slot_of q ((r + k) mod n)) ->
  contents n q' r w = contents n q r w.
Proof.
  intros H. unfold contents. apply map_ext_in. intros k Hk.
  apply list_elem_of_In, elem_of_seqZ in Hk. apply H. lia.
Qed.

(** The slots after [r] differ from [r]. *)
Lemma later_slot n r w k :
  0 <= r < n -> 0 <= w < n -> r <> w -> 0 <= k < ring_len n (next n r) w ->
  0 <= (next n r + k) mod n < n /\ (next n r + k) mod n <> r.
Proof.
  intros Hr Hw Hne Hk. rewrite ring_len_pop in Hk by done.
  rewrite ring_len_cases in Hk by done. pose proof (next_range n r Hr).
  assert (0 <= k < n) by (destruct (Z.leb_spec r w); lia).
  rewrite mod_wrap by lia. unfold next in *.
  destruct (Z.eqb_spec (r + 1) n), (Z.leb_spec r w); try lia;
    [destruct (Z.ltb_spec (0 + k) n)|destruct (Z.ltb_spec (r + 1 + k) n)|
     destruct (Z.ltb_spec (r + 1 + k) n)]; lia.
Qed.

Lemma later_slot2 n r w k :
  0 <= r < n -> 0 <= w < n -> r <> w -> next n r <> w ->
  0 <= k < ring_len n (next n (next n r)) w ->
  (next n (next n r) + k) mod n <> r.
Proof.
  intros Hr Hw Hne Hne2 Hk. pose proof (next_range n r Hr) as Hnr.
  pose proof (next_range n _ Hnr). rewrite !ring_len_pop in Hk by done.
  rewrite ring_len_cases in Hk by done. assert (0 <= k < n) by (destruct (Z.leb_spec r w); lia).
  rewrite mod_wrap by lia. unfold next in *.
  destruct (Z.leb_spec r w), (Z.eqb_spec (r + 1) n); try lia;
    repeat match goal with
    | |- context [?a =? ?b] => destruct (Z.eqb_spec a b); try lia
    | |- context [?a <? ?b] => destruct (Z.ltb_spec a b); try lia
    end.
Qed.

(** A change of the memory alone keeps the indexes. *)
Lemma queue_at_mem n q r w mem :
  queue_at n q r w -> zlen mem = zlen (va_queue q) -> queue_at n (q_set_va_queue mem q) r w.
Proof.
  intros [[] Hr Hw Hh] Hl. split; [|done|done|done]. split; auto. simpl. by rewrite Hl.
Qed.

(** The error of a fence that is already queued for transmission is
    updated only at the head of the queue. When the oldest payload has the given
    hash it is changed in place; when the second has it, the two change places
    first; the payloads behind keep their order; in every other case nothing
    changes and the call fails. *)
Theorem update_existing_moves_first (n r w hash err : Z) (q : msm_hw_fence_queue)
    (Hat : queue_at n q r w) (Hm : Forall is_u32 (va_queue q)) :
  match contents n q r w with
  | [] => update_existing_payload q hash err = Some (- EINVAL, q)
  | p1 :: l =>
      if pl_hash p1 =? hash then
        exists q', update_existing_payload q hash err = Some (0, q') /\
          queue_at n q' r w /\ contents n q' r w = set_pl_error err p1 :: l
      else match l with
      | [] => update_existing_payload q hash err = Some (- EINVAL, q)
      | p2 :: l' =>
          if pl_hash p2 =? hash then
            exists q', update_existing_payload q hash err = Some (0, q') /\
              queue_at n q' r w /\ contents n q' r w = set_pl_error err p2 :: p1 :: l'
          else update_existing_payload q hash err = Some (- EINVAL, q)
      end
  end.
Proof.
  pose proof Hat as [Hok Hr Hw (h & Hh & Hri & Hwi)]. pose proof (qo_mem n q Hok) as Hmem.
  pose proof (next_range n r Hr) as Hnr.
  unfold update_existing_payload, _get_update_queue_params. rewrite Hh. cbv zeta.
  rewrite Hri, Hwi, (translate_at n), (q_size_dwords n) by done.
  change (SIZEOF_QUEUE_PAYLOAD / 4) with PAYLOAD_U32. rewrite (advance n q Hok r Hr).
  rewrite !(slot_inside n) by done. fold (slot_of q r) (slot_of q (next n r)).
  assert (Heq : forall s, 0 <= s < n -> (PAYLOAD_U32 * s =? PAYLOAD_U32 * w) = (s =? w)).
  { intros s Hs. change PAYLOAD_U32 with 16. destruct (Z.eqb_spec s w), (Z.eqb_spec (16 * s) (16 * w)); lia. }
  rewrite !Heq by done.
  destruct (Z.eqb_spec r w) as [->|Hne]; [by rewrite contents_empty|].
  rewrite contents_pop by done. cbn [negb]. change PAYLOAD_U32 with 16 in *.
  destruct (Z.eqb_spec (pl_hash (slot_of q r)) hash) as [H1|H1].
  - eexists. split; [reflexivity|]. set (q' := q_set_va_queue _ q).
    assert (Hat' : queue_at n q' r w)
      by (apply queue_at_mem; [done|]; unfold writel_relaxed; by rewrite zlen_zupd).
    split; [done|]. rewrite contents_pop by done. f_equal.
    + unfold slot_of. apply read_error_store; change PAYLOAD_U32 with 16; lia.
    + apply contents_ext. intros k Hk. destruct (later_slot n r w k Hr Hw Hne Hk) as [Hs1 Hs2].
      unfold slot_of. apply error_store_other; change PAYLOAD_U32 with 16; lia.
  - destruct (Z.eqb_spec (next n r) w) as [Hn|Hn]; [by rewrite Hn, contents_empty|].
    rewrite (contents_pop n q (next n r)) by done.
    destruct (Z.eqb_spec (pl_hash (slot_of q (next n r))) hash) as [H2|H2]; [|done].
    cbn [negb]. eexists. split; [reflexivity|]. set (q' := q_set_va_queue _ q).
    assert (Hnext : next n r <> r) by (unfold next; pose proof (qo_slots n q Hok); repeat case_if; lia).
    destruct (swap_spec (va_queue q) (16 * r) (16 * next n r) err Hm)
      as (Hl & Hs1 & Hs2 & Hs3); change PAYLOAD_U32 with 16 in *; try lia.
    split; [by apply queue_at_mem|].
    rewrite (contents_pop n q' r), (contents_pop n q' (next n r)) by done.
    f_equal; [exact Hs1|]. f_equal; [exact Hs2|]. apply contents_ext. intros k Hk.
    pose proof (later_slot2 n r w k Hr Hw Hne Hn Hk) as Hk1.
    destruct (later_slot n (next n r) w k Hnr Hw Hn Hk) as [Hk2 Hk3].
    unfold slot_of. change PAYLOAD_U32 with 16. apply Hs3; lia.
Qed.

Lemma update_existing_moves_first_witness :
  exists q', update_existing_payload (demo_queue 0 1 1 0 true) 8 3 = Some (0, q') /\
    contents 3 q' 1 0 = [set_pl_error 3 (demo_payload 8); demo_payload 7].
Proof.
  assert (Hat : queue_at 3 (demo_queue 0 1 1 0 true) 1 0) by (apply demo_queue_at; auto; lia).
  assert (Hc : contents 3 (demo_queue 0 1 1 0 true) 1 0 = [demo_payload 7; demo_payload 8])
    by (vm_compute; reflexivity).
  pose proof (update_existing_moves_first 3 1 0 8 3 _ Hat) as H. rewrite Hc in H.
  destruct H as (q' & H1 & _ & H2).
  - apply (bool_decide_unpack _). vm_compute. exact I.
  - exists q'. split; [exact H1|exact H2].
Defined.

(** ** Resetting the queues *)

Section reset.
Context `{E : HwFenceEnv}.

Lemma reset_txq_at n q h ws :
  queue_ok n q -> write_index h = slot_idx q ws -> 0 <= ws < n ->
  queue_at n (q_set_va_header (Some (reset_txq q h)) q) ws ws.
Proof.
  intros Hok Hw Hs. pose proof (slot_idx_u32 n q ws Hok Hs) as Hu.
  split; [by apply queue_ok_header|done|done|]. eexists. split; [reflexivity|].
  change (slot_idx (q_set_va_header (Some (reset_txq q h)) q)) with (slot_idx q).
  unfold reset_txq, wr_index. simpl. destruct (skip_wr_idx q); simpl; rewrite Hw, ?Hu; done.
Qed.

Lemma reset_rxq_at n q h r :
  queue_ok n q -> read_index h = slot_idx q r -> 0 <= r < n -> skip_wr_idx q = false ->
  queue_at n (q_set_va_header (Some (set_write_index (read_index h) h)) q) r r.
Proof.
  intros Hok Hr Hs Hsk. pose proof (slot_idx_u32 n q r Hok Hs) as Hu.
  split; [by apply queue_ok_header|done|done|]. eexists. split; [reflexivity|].
  change (slot_idx (q_set_va_header (Some (set_write_index (read_index h) h)) q)) with (slot_idx q).
  unfold wr_index. simpl. rewrite Hsk. simpl. by rewrite Hr, Hu.
Qed.

End reset.

(** Resetting a client empties its queues: the transmit queue is read up to
    its last write and, when the client has a receive queue, that queue is
    written back to its last read; the payload memory, every other client, the
    fence table and the lock words are as before. *)
Theorem reset_queues_empties `{E : HwFenceEnv} (d : drv) (c : Z) (cl : msm_hw_fence_client)
    (qt qr : msm_hw_fence_queue) (ht hr : hfi_queue_header) (nt nr ws r : Z)
    (Hqt : queue_of d c 0 cl qt) (Hqr : queue_of d c 1 cl qr)
    (Hht : va_header qt = Some ht) (Hhr : va_header qr = Some hr)
    (Hokt : queue_ok nt qt) (Hokr : queue_ok nr qr) (Hskip : skip_wr_idx qr = false)
    (Hws : write_index ht = slot_idx qt ws) (Hr : read_index hr = slot_idx qr r)
    (Hwsr : 0 <= ws < nt) (Hrr : 0 <= r < nr) (Hrx : update_rxq cl = true)
    (Hlk : rxq_lock_ok d cl 1) :
  exists qt' qr' cl', hw_fence_utils_reset_queues c d = Ret tt (with_client c cl' d) /\
    queues cl' = zupd (zupd (queues cl) 0 qt') 1 qr' /\
    contents nt qt' ws ws = [] /\ queue_at nt qt' ws ws /\ va_queue qt' = va_queue qt /\
    contents nr qr' r r = [] /\ queue_at nr qr' r r /\ va_queue qr' = va_queue qr.
Proof.
  pose proof (qf_client _ _ _ _ _ Hqt) as Hc.
  set (qt' := q_set_va_header (Some (reset_txq qt ht)) qt).
  set (qr' := q_set_va_header (Some (set_write_index (read_index hr) hr)) qr).
  set (cl1 := cl_set_queues (zupd (queues cl) 0 qt') cl).
  exists qt', qr', (cl_set_queues (zupd (queues cl1) 1 qr') cl1). split.
  2: { split; [done|]. split; [by apply contents_empty|]. split; [by apply reset_txq_at|].
    split; [done|]. split; [by apply contents_empty|]. split; [by apply reset_rxq_at|done]. }
  unfold hw_fence_utils_reset_queues.
  rewrite (bind_ret _ _ _ _ _ (get_client_ret _ _ _ Hc)).
  rewrite (bind_ret _ _ _ _ _ (get_queue_ret _ _ _ _ _ Hqt)). rewrite Hht, bind_deref.
  rewrite (bind_ret _ _ _ _ _ (put_queue_ret d c (HW_FENCE_TX_QUEUE - 1) cl qt' Hc)).
  rewrite Hrx. cbn [when]. cbv zeta. rewrite bind_get.
  change (HW_FENCE_TX_QUEUE - 1) with 0. change (HW_FENCE_RX_QUEUE - 1) with 1.
  destruct (Hlk eq_refl) as (Hcnt & lw & Hlw & Hfree).
  set (i := u32 (client_id cl - 1)) in *. assert (Hi : 0 <= i) by apply u32_range.
  change (with_queue c 0 cl qt' d) with (with_client c cl1 d).
  set (d1 := with_client c cl1 d). change (client_lock_tbl_cnt d1) with (client_lock_tbl_cnt d).
  destruct (Z.ltb_spec i (client_lock_tbl_cnt d)); [|lia]. cbn [when].
  rewrite (bind_ret _ _ _ _ _ (client_lock_ret d1 i lw Hi Hlw Hfree)).
  set (d2 := with_lock_word i (Z.lor lw 1) d1).
  assert (Hc2 : client_at d2 c cl1) by (destruct Hc as [Hc0 Hcl]; split; [done|]; by eapply lookup_zupd_eq).
  assert (Hq2 : queue_of d2 c 1 cl1 qr).
  { split; [done|done|]. simpl. rewrite (lookup_zupd_ne _ 0 1) by lia. apply Hqr. }
  rewrite (bind_ret _ _ _ _ _ (get_queue_ret _ _ _ _ _ Hq2)). rewrite Hhr, bind_deref.
  rewrite (bind_ret _ _ _ _ _ (put_queue_ret d2 c 1 cl1 qr' Hc2)).
  assert (Hl2 : client_lock_tbl (with_queue c 1 cl1 qr' d2) !! Z.to_nat i = Some (Z.lor lw 1))
    by (simpl; by eapply lookup_zupd_eq).
  rewrite (client_unlock_ret _ i lw Hi Hl2 Hfree).
  unfold d2, d1, with_queue, with_client, with_lock_word. simpl.
  rewrite !zupd_zupd, (zupd_lookup_id _ i lw) by done. by destruct d.
Qed.

Lemma reset_queues_empties_witness :
  exists qt' qr' cl', @hw_fence_utils_reset_queues demo_env 1 demo_drv
      = Ret tt (with_client 1 cl' demo_drv) /\
    queues cl' = [qt'; qr'] /\ contents 3 qt' 0 0 = [] /\ contents 3 qr' 1 1 = [].
Proof.
  destruct (reset_queues_empties (E := demo_env) demo_drv 1 demo_client
    (demo_queue 0 1 1 0 false) (demo_queue 0 1 1 0 false)
    (mk_hfi_header 0 0 0 0 16 0 0) (mk_hfi_header 0 0 0 0 16 0 0) 3 3 0 1)
    as (qt' & qr' & cl' & H1 & H2 & H3 & _ & _ & H4 & _).
  - split; [by split|lia|done].
  - split; [by split|lia|done].
  - reflexivity.
  - reflexivity.
  - apply (demo_queue_at 0 1 1 0 false); auto; lia.
  - apply (demo_queue_at 0 1 1 0 false); auto; lia.
  - reflexivity.
  - reflexivity.
  - reflexivity.
  - lia.
  - lia.
  - reflexivity.
  - intros _. split; [done|]. exists 0. split; [done|apply lock_free_zero].
  - exists qt', qr', cl'. split; [exact H1|]. split; [exact H2|]. split; [exact H3|exact H4].
Defined.
