(* ===== verification/HwFenceTable.v ===== *)
(** * The hardware-fence table

    The hash table shared with the fence controller ([hw_fence_drv_priv.c]):
    hashing and linear probing, reservation, release and search.  The theorems
    that relate it to a dictionary are in [HwFenceDict]. *)

From S2P Require Import Prelude Outcome HwFenceDrv.

(** ** Hashing *)

(** The return value and [*hash]; [m] is [table_total_entries], not zero. *)
Definition _calculate_hash (table_total_entries context seqno step hash : Z) : Z * Z :=
  let m_size := table_total_entries in
  if step =? 0 then
    let b_multiplier := u64 (context + u64 (context - 1)) in
    (0, u64 (u64 (u64 (HW_FENCE_HASH_A_MULT * seqno) * b_multiplier)
             + u64 (HW_FENCE_HASH_C_MULT * context)) mod m_size)
  else if step >=? m_size then (- EINVAL, hash)
  else (0, u64 (hash + 1) mod m_size).

(** [&hw_fences_tbl[hash]], as an index: [None] is NULL. *)
Definition _get_hw_fence (table_total_entries hash : Z) : option Z :=
  if hash >=? table_total_entries then None else Some hash.

Definition _is_hw_fence_free (f : msm_hw_fence) (context seqno : Z) : bool := negb (truthy (valid f)).

Definition _hw_fence_match (f : msm_hw_fence) (context seqno : Z) : bool :=
  (ctx_id f =? context) && (seq_id f =? seqno).

(** ** Reservation and release *)

(** Everything but [valid] and [lock] is cleared. *)
Definition _cleanup_hw_fence (f : msm_hw_fence) : msm_hw_fence :=
  mk_hw_fence (valid f) 0 0 0 0 0 0 (lock f) 0
    (replicate MSM_HW_FENCE_MAX_JOIN_PARENTS HW_FENCE_INVALID_PARENT_FENCE) 0 0 0 0 0 0
    (replicate (Z.to_nat HW_FENCE_MAX_CLIENTS_WITH_DATA) 0).

(** The entry that [_reserve_hw_fence] and [_reserve_join_fence] leave; [now] is
    the time they read. *)
Definition reserved (f : msm_hw_fence) (client context seqno now pending : Z) : msm_hw_fence :=
  let f := _cleanup_hw_fence f in
  let f := hf_set_valid 1 f in
  let f := hf_set_ctx_id context f in
  let f := hf_set_seq_id seqno f in
  let f := hf_set_flags 0 f in
  let f := hf_set_fence_allocator client f in
  let f := hf_set_fence_create_time now f in
  let f := hf_set_debug_refcount (debug_refcount f + 1) f in
  hf_set_pending_child_cnt pending f.

Section ops.
Context `{E : HwFenceEnv}.

Definition _reserve_hw_fence (h client context seqno : Z) : M unit :=
  f ← get_fence h;
  now ← hw_fence_get_qtime;
  put_fence h (reserved f client context seqno now 0).

Definition _reserve_join_fence (h client context seqno pending_child_cnt : Z) : M unit :=
  f ← get_fence h;
  now ← hw_fence_get_qtime;
  put_fence h (reserved f client context seqno now pending_child_cnt).

Definition _unreserve_hw_fence (h : Z) : M unit :=
  upd_fence h (fun f => hf_set_valid 0 (_cleanup_hw_fence f)).

(** [compare_fnc] and [process_fnc] of the operation. *)
Definition compare_fnc (op : hw_fence_lookup_ops) : msm_hw_fence -> Z -> Z -> bool :=
  match op with
  | HW_FENCE_LOOKUP_OP_CREATE | HW_FENCE_LOOKUP_OP_CREATE_JOIN => _is_hw_fence_free
  | HW_FENCE_LOOKUP_OP_DESTROY | HW_FENCE_LOOKUP_OP_FIND_FENCE => _hw_fence_match
  end.

Definition process_fnc (op : hw_fence_lookup_ops) (h client context seqno pending : Z) : M unit :=
  match op with
  | HW_FENCE_LOOKUP_OP_CREATE => _reserve_hw_fence h client context seqno
  | HW_FENCE_LOOKUP_OP_CREATE_JOIN => _reserve_join_fence h client context seqno pending
  | HW_FENCE_LOOKUP_OP_DESTROY => _unreserve_hw_fence h
  | HW_FENCE_LOOKUP_OP_FIND_FENCE => mret tt
  end.

Definition is_create (op : hw_fence_lookup_ops) : bool :=
  match op with
  | HW_FENCE_LOOKUP_OP_CREATE | HW_FENCE_LOOKUP_OP_CREATE_JOIN => true
  | _ => false
  end.

(** ** The probe *)

(** [while (!hw_fence_found && step < hw_fence_table_entries)]; [n] is the
    number of steps left. The result is the entry found and the last [*hash]. *)
Fixpoint lookup_loop (n : nat) (op : hw_fence_lookup_ops)
    (context seqno client pending step hash : Z) : M (option Z * Z) :=
  match n with
  | O => mret (None, hash)
  | S n =>
      d ← get;
      let '(ret, hash) := _calculate_hash (hw_fence_table_entries d) context seqno step hash in
      if truthy ret then mret (None, hash) else
      match _get_hw_fence (hw_fence_table_entries d) hash with
      | None => mret (None, hash)
      | Some h =>
          fence_lock h;;
          f ← get_fence h;
          if compare_fnc op f context seqno then
            process_fnc op h client context seqno pending;;
            fence_unlock h;; mret (Some h, hash)
          else if is_create op && (seqno =? seq_id f) && (context =? ctx_id f) then
            fence_unlock h;; mret (None, hash)
          else
            fence_unlock h;;
            lookup_loop n op context seqno client pending (step + 1) hash
      end
  end.

Definition _hw_fence_lookup_and_process (context seqno client pending : Z)
    (op : hw_fence_lookup_ops) : M (option Z * Z) :=
  d ← get;
  lookup_loop (Z.to_nat (hw_fence_table_entries d)) op context seqno client pending 0 (u64 (Z.lnot 0)).

(** ** The operations; those with an out parameter return it next to the code. *)

Definition hw_fence_create (c context seqno : Z) : M (Z * Z) :=
  cl ← get_client c;
  '(r, hash) ← _hw_fence_lookup_and_process context seqno (u32 (client_id cl)) 0 HW_FENCE_LOOKUP_OP_CREATE;
  mret (match r with Some _ => 0 | None => - EINVAL end, hash).

Definition _hw_fence_cleanup (client context seqno : Z) : M Z :=
  '(r, _) ← _hw_fence_lookup_and_process context seqno client 0 HW_FENCE_LOOKUP_OP_DESTROY;
  mret (match r with Some _ => 0 | None => - EINVAL end).

Definition hw_fence_destroy (c context seqno : Z) : M Z :=
  cl ← get_client c;
  ret ← _hw_fence_cleanup (u32 (client_id cl)) context seqno;
  mret (if truthy ret then - EINVAL else 0).

Definition hw_fence_destroy_with_hash (c hash : Z) : M Z :=
  cl ← get_client c;
  d ← get;
  match _get_hw_fence (hw_fence_table_entries d) hash with
  | None => mret (- EINVAL)
  | Some h =>
      f ← get_fence h;
      if negb (fence_allocator f =? u32 (client_id cl)) then mret (- EINVAL) else
      ret ← _hw_fence_cleanup (u32 (client_id cl)) (ctx_id f) (seq_id f);
      mret (if truthy ret then - EINVAL else 0)
  end.

(** [array] is the name of the base of a dma-fence array; [num_fences] its size. *)
Definition _hw_fence_process_join_fence (context seqno num_fences hash : Z) (create : bool) :
    M (option Z * Z) :=
  let client := HW_FENCE_JOIN_FENCE_CLIENT_ID in
  if create then
    _hw_fence_lookup_and_process context seqno client (u32 num_fences) HW_FENCE_LOOKUP_OP_CREATE_JOIN
  else
    _hw_fence_cleanup client context seqno;; mret (None, hash).

Definition msm_hw_fence_find (c : option Z) (context seqno : Z) : M (option Z * Z) :=
  client ← match c with
           | Some c => cl ← get_client c; mret (u32 (client_id cl))
           | None => mret 255
           end;
  _hw_fence_lookup_and_process context seqno client 0 HW_FENCE_LOOKUP_OP_FIND_FENCE.

End ops.
