(* ===== verification/HwFenceDict.v ===== *)
(** * The hardware-fence table is a dictionary

    The probe visits every entry, so that creation fails only when the table is
    full, and search and destruction find a key wherever the collisions have put
    it.  The abstract specification is a dictionary from (context, sequence
    number) to entries; the invariant that makes it one is that keys are unique
    and that exactly the free entries carry the key (0, 0). *)

From stdpp Require Import gmap.
From S2P Require Import Prelude Outcome HwFenceDrv HwFenceQueue HwFenceRing HwFenceTable.

(** ** Definitions *)

(** The table is mapped and no entry is locked. *)
Record table_ok (d : drv) : Prop := mk_table_ok {
  tk_len : zlen (hw_fences_tbl d) = hw_fence_table_entries d;
  tk_bound : 0 < hw_fence_table_entries d < 2 ^ 32;
  tk_free : Forall (fun f => lock_free (lock f)) (hw_fences_tbl d)
}.

Definition fence_key (f : msm_hw_fence) : Z * Z := (ctx_id f, seq_id f).

(** The abstract specification: the table holds the dictionary [D]. *)
Record represents (d : drv) (D : gmap (Z * Z) msm_hw_fence) : Prop := mk_represents {
  rp_ok : table_ok d;
  rp_free h f : fence_at d h f -> valid f = 0 -> fence_key f = (0, 0);
  rp_used h f : fence_at d h f -> valid f <> 0 ->
    fence_key f <> (0, 0) /\ D !! fence_key f = Some f;
  rp_unique h h' f f' : fence_at d h f -> fence_at d h' f' -> valid f <> 0 -> valid f' <> 0 ->
    fence_key f = fence_key f' -> h = h';
  rp_back k f : D !! k = Some f -> exists h, fence_at d h f /\ valid f <> 0 /\ fence_key f = k
}.

(** ** The probe sequence *)

(** The positions visited: [h0], [h0 + 1], ... modulo [m]. *)
Definition positions (m h0 : Z) (k : nat) : list Z :=
  map (fun i => (h0 + Z.of_nat i) mod m) (seq 0 k).

Lemma positions_cons m h0 k :
  0 <= h0 < m -> positions m h0 (S k) = h0 :: positions m ((h0 + 1) mod m) k.
Proof.
  intros H. unfold positions. cbn [seq map]. rewrite Z.add_0_r, Z.mod_small by done. f_equal.
  rewrite <- seq_shift, map_map. apply map_ext. intros i.
  rewrite Zplus_mod_idemp_l. f_equal. lia.
Qed.

(** Every entry is visited. *)
Lemma positions_cover m h0 h :
  0 <= h0 < m -> 0 <= h < m -> h ∈ positions m h0 (Z.to_nat m).
Proof.
  intros H0 H. apply list_elem_of_In, in_map_iff.
  pose proof (Z.mod_pos_bound (h - h0) m ltac:(lia)) as Hb.
  exists (Z.to_nat ((h - h0) mod m)). split.
  - rewrite Z2Nat.id by lia. rewrite Zplus_mod_idemp_r. replace (h0 + (h - h0)) with h by lia.
    by apply Z.mod_small.
  - apply in_seq. lia.
Qed.

Lemma positions_range m h0 k h : 0 < m -> h ∈ positions m h0 k -> 0 <= h < m.
Proof.
  intros Hm Hin. apply list_elem_of_In, in_map_iff in Hin as (i & <- & _).
  by apply Z.mod_pos_bound.
Qed.

(** The hash of a key. *)
Definition home (m ctx seq : Z) : Z := (_calculate_hash m ctx seq 0 0).2.

Lemma home_range m ctx seq : 0 < m -> 0 <= home m ctx seq < m.
Proof. intros Hm. apply Z.mod_pos_bound. done. Qed.

(** The hash at a later step. *)
Lemma calculate_next m ctx seq step hash :
  0 < step < m -> 0 <= hash < m -> m < 2 ^ 32 ->
  _calculate_hash m ctx seq step hash = (0, (hash + 1) mod m).
Proof.
  intros Hs Hh Hm. unfold _calculate_hash. destruct (Z.eqb_spec step 0); [lia|].
  destruct (Z.geb_spec step m); [lia|]. rewrite u64_small by lia. done.
Qed.

(** ** The loop as a scan of the positions *)

(** What the loop decides at one entry: go on, fail, or take it. *)
Inductive verdict := GoOn | Fail | Take.

Definition judge (op : hw_fence_lookup_ops) (ctx seq : Z) (f : msm_hw_fence) : verdict :=
  if compare_fnc op f ctx seq then Take
  else if is_create op && (seq =? seq_id f) && (ctx =? ctx_id f) then Fail else GoOn.

Fixpoint scan (op : hw_fence_lookup_ops) (ctx seq : Z) (d : drv) (l : list Z) : option Z :=
  match l with
  | [] => None
  | h :: l =>
      match hw_fences_tbl d !! Z.to_nat h with
      | Some f =>
          match judge op ctx seq f with
          | Take => Some h
          | Fail => None
          | GoOn => scan op ctx seq d l
          end
      | None => None
      end
  end.

Section probe.
Context `{E : HwFenceEnv}.

Lemma fence_lock_word f w : lock_free w -> lock f = w ->
  hf_set_lock w (hf_set_lock (Z.lor w 1) f) = f.
Proof.
  intros [Hw _] Hl. unfold hf_set_lock. simpl.
  rewrite (u64_small w) by apply Hw. rewrite <- Hl. by destruct f.
Qed.

Lemma table_fence d h : table_ok d -> 0 <= h < hw_fence_table_entries d ->
  exists f, fence_at d h f /\ lock_free (lock f).
Proof.
  intros [Hl Hb Hf] Hh. destruct (lookup_lt_is_Some_2 (hw_fences_tbl d) (Z.to_nat h)) as [f Hx].
  { unfold zlen in Hl. lia. }
  exists f. split; [by split; [lia|]|]. by eapply (Forall_lookup_1 _ _ _ _ Hf).
Qed.

(** What processing does to an entry; the clock advances when time is read. *)
Definition processed (op : hw_fence_lookup_ops) (f : msm_hw_fence) (client ctx seq pending now : Z) :
    msm_hw_fence :=
  match op with
  | HW_FENCE_LOOKUP_OP_CREATE => reserved f client ctx seq now 0
  | HW_FENCE_LOOKUP_OP_CREATE_JOIN => reserved f client ctx seq now pending
  | HW_FENCE_LOOKUP_OP_DESTROY => hf_set_valid 0 (_cleanup_hw_fence f)
  | HW_FENCE_LOOKUP_OP_FIND_FENCE => f
  end.

Definition tick (op : hw_fence_lookup_ops) (d : drv) : drv :=
  if is_create op then d_set_clock (S (clock d)) d else d.

Lemma processed_lock op f client ctx seq pending now w :
  processed op (hf_set_lock w f) client ctx seq pending now =
  hf_set_lock w (processed op f client ctx seq pending now).
Proof. by destruct op. Qed.

Lemma lock_processed op f client ctx seq pending now :
  lock (processed op f client ctx seq pending now) = lock f.
Proof. by destruct op. Qed.

Lemma process_ret op d h f client ctx seq pending :
  fence_at d h f ->
  process_fnc op h client ctx seq pending d =
  Ret tt (with_fence h (processed op f client ctx seq pending
            (u64 (arch_timer_read_counter (clock d)))) (tick op d)).
Proof.
  intros Hf. destruct op; cbn [process_fnc tick is_create processed].
  - unfold _reserve_hw_fence. by rewrite (bind_ret _ _ _ _ _ (get_fence_ret _ _ _ Hf)).
  - unfold _unreserve_hw_fence. by rewrite (upd_fence_ret _ _ f).
  - unfold _reserve_join_fence. by rewrite (bind_ret _ _ _ _ _ (get_fence_ret _ _ _ Hf)).
  - by rewrite with_fence_id.
Qed.

(** One visit that goes on, or fails, leaves the state alone. *)
Lemma visit_locked d h f (K : M (option Z * Z)) :
  fence_at d h f -> lock_free (lock f) ->
  (fence_unlock h;; K) (with_fence h (hf_set_lock (Z.lor (lock f) 1) f) d) = K d.
Proof.
  intros Hf Hl. set (f1 := hf_set_lock (Z.lor (lock f) 1) f).
  assert (Hf1 : fence_at (with_fence h f1 d) h f1) by (by eapply fence_at_with).
  rewrite (bind_ret _ _ _ _ _ (fence_unlock_ret _ h f1 (lock f) Hf1 Hl (lock_word_u64 _ Hl))).
  rewrite with_fence_twice. unfold f1. rewrite fence_lock_word by done.
  by rewrite with_fence_id.
Qed.

Lemma judge_lock op ctx seq f w : judge op ctx seq (hf_set_lock w f) = judge op ctx seq f.
Proof. by destruct op. Qed.

Lemma lookup_loop_scan n op d ctx seq client pending step hash :
  table_ok d -> 0 <= step -> step + Z.of_nat n = hw_fence_table_entries d ->
  (step = 0 \/ 0 <= hash < hw_fence_table_entries d) ->
  let m := hw_fence_table_entries d in
  let l := positions m (if step =? 0 then home m ctx seq else (hash + 1) mod m) n in
  match scan op ctx seq d l with
  | Some h => exists f, fence_at d h f /\ 0 <= h < m /\ judge op ctx seq f = Take /\
      lookup_loop n op ctx seq client pending step hash d =
      Ret (Some h, h) (with_fence h (processed op f client ctx seq pending
            (u64 (arch_timer_read_counter (clock d)))) (tick op d))
  | None => exists hash', lookup_loop n op ctx seq client pending step hash d = Ret (None, hash') d
  end.
Proof.
  intros Hok. revert step hash. induction n as [|n IH]; intros step hash Hs Hn Hh m l.
  { exists hash. done. }
  assert (Hb : 0 < m < 2 ^ 32) by apply (tk_bound d Hok).
  cbn [lookup_loop]. rewrite bind_get. fold m.
  set (h := if step =? 0 then home m ctx seq else (hash + 1) mod m).
  assert (Hcalc : _calculate_hash m ctx seq step hash = (0, h)).
  { subst h. destruct (Z.eqb_spec step 0) as [->|Hne]; [done|].
    apply calculate_next; lia. }
  rewrite Hcalc. cbn [truthy negb Z.eqb].
  assert (Hrange : 0 <= h < m).
  { subst h. destruct (step =? 0); [apply home_range; lia|apply Z.mod_pos_bound; lia]. }
  unfold _get_hw_fence. destruct (Z.geb_spec h m); [lia|].
  destruct (table_fence d h Hok Hrange) as (f & Hf & Hl).
  rewrite (bind_ret _ _ _ _ _ (fence_lock_ret d h f Hf Hl)).
  set (f1 := hf_set_lock (Z.lor (lock f) 1) f).
  assert (Hf1 : fence_at (with_fence h f1 d) h f1) by (by eapply fence_at_with).
  rewrite (bind_ret _ _ _ _ _ (get_fence_ret _ _ _ Hf1)).
  unfold l. fold h. rewrite positions_cons by done. cbn [scan].
  rewrite (proj2 Hf). unfold judge at 1.
  change (compare_fnc op f1 ctx seq) with (compare_fnc op (hf_set_lock (Z.lor (lock f) 1) f) ctx seq).
  replace (compare_fnc op (hf_set_lock (Z.lor (lock f) 1) f) ctx seq)
    with (compare_fnc op f ctx seq) by (by destruct op).
  change (seq_id f1) with (seq_id f). change (ctx_id f1) with (ctx_id f).
  destruct (compare_fnc op f ctx seq) eqn:Hcmp.
  - exists f. split; [done|]. split; [done|]. split; [unfold judge; by rewrite Hcmp|].
    rewrite (bind_ret _ _ _ _ _ (process_ret op _ h f1 client ctx seq pending Hf1)).
    set (f2 := processed op f1 client ctx seq pending _).
    replace (tick op (with_fence h f1 d)) with (with_fence h f1 (tick op d)) by (by destruct op).
    rewrite with_fence_twice.
    assert (Hf2 : fence_at (with_fence h f2 (tick op d)) h f2).
    { apply fence_at_with with (f := f). destruct Hf. by destruct op. }
    assert (Hl2 : lock f2 = Z.lor (lock f) 1)
      by (unfold f2; rewrite lock_processed; by apply lock_word_u64).
    rewrite (bind_ret _ _ _ _ _ (fence_unlock_ret _ h f2 (lock f) Hf2 Hl Hl2)).
    rewrite with_fence_twice. unfold mret, run_ret. repeat f_equal.
    unfold f2, f1. rewrite processed_lock. change (clock (with_fence h _ d)) with (clock d).
    apply fence_lock_word; [done|apply lock_processed].
  - destruct (is_create op && (seq =? seq_id f) && (ctx =? ctx_id f)).
    + exists h. apply (visit_locked d h f _ Hf Hl).
    + rewrite (visit_locked d h f _ Hf Hl).
      assert (Hn' : step + 1 + Z.of_nat n = hw_fence_table_entries d) by lia.
      pose proof (IH (step + 1) h ltac:(lia) Hn' (or_intror Hrange)) as HIH.
      destruct (Z.eqb_spec (step + 1) 0); [lia|]. exact HIH.
Qed.

(** The probe finds an entry, meets a duplicate, or has seen the whole table. *)
Lemma scan_found op ctx seq d l h :
  scan op ctx seq d l = Some h ->
  exists f, hw_fences_tbl d !! Z.to_nat h = Some f /\ judge op ctx seq f = Take.
Proof.
  induction l as [|x l IH]; [done|]. cbn [scan].
  destruct (hw_fences_tbl d !! Z.to_nat x) as [f|] eqn:Hx; [|done].
  destruct (judge op ctx seq f) eqn:Hj; [by apply IH|done|]. intros [= <-]. by exists f.
Qed.

Lemma scan_not_found op ctx seq d l :
  (forall h, h ∈ l -> exists f, fence_at d h f) -> scan op ctx seq d l = None ->
  (exists h f, fence_at d h f /\ judge op ctx seq f = Fail) \/
  (forall h f, h ∈ l -> fence_at d h f -> judge op ctx seq f = GoOn).
Proof.
  induction l as [|x l IH]; intros Hl Hs.
  { right. intros h f Hh. by apply elem_of_nil in Hh. }
  cbn [scan] in Hs. destruct (Hl x (list_elem_of_here _ _)) as (f & Hf).
  rewrite (proj2 Hf) in Hs. destruct (judge op ctx seq f) eqn:Hj; [| |done].
  - destruct IH as [?|HIH]; [intros h Hh; apply Hl; by apply list_elem_of_further|done|by left|].
    right. intros h g Hh Hg. apply elem_of_cons in Hh as [->|Hh]; [|by eapply HIH].
    by replace g with f by (destruct Hf, Hg; congruence).
  - left. by exists x, f.
Qed.

(** The lookup, over the whole table. *)
Lemma lookup_ret op d ctx seq client pending :
  table_ok d ->
  (exists h f, fence_at d h f /\ judge op ctx seq f = Take /\
    _hw_fence_lookup_and_process ctx seq client pending op d =
    Ret (Some h, h) (with_fence h (processed op f client ctx seq pending
          (u64 (arch_timer_read_counter (clock d)))) (tick op d))) \/
  (exists hash, _hw_fence_lookup_and_process ctx seq client pending op d = Ret (None, hash) d /\
    ((exists h f, fence_at d h f /\ judge op ctx seq f = Fail) \/
     forall h f, fence_at d h f -> judge op ctx seq f = GoOn)).
Proof.
  intros Hok. pose proof (tk_bound d Hok) as Hb. unfold _hw_fence_lookup_and_process.
  pose proof (lookup_loop_scan (Z.to_nat (hw_fence_table_entries d)) op d ctx seq client pending 0
                (u64 (Z.lnot 0)) Hok ltac:(lia) ltac:(lia) ltac:(by left)) as Hloop.
  cbv zeta in Hloop. change (0 =? 0) with true in Hloop. cbv iota in Hloop. rewrite bind_get.
  set (m := hw_fence_table_entries d) in *.
  set (l := positions m (home m ctx seq) (Z.to_nat m)) in *.
  assert (Hh0 : 0 <= home m ctx seq < m) by (apply home_range; lia).
  destruct (scan op ctx seq d l) as [h|] eqn:Hs.
  - left. destruct Hloop as (f & Hf & _ & Hj & Hr). by exists h, f.
  - right. destruct Hloop as (hash & Hr). exists hash. split; [done|].
    destruct (scan_not_found op ctx seq d l) as [H|H]; [|done|by left|right].
    + intros h Hh. apply positions_range in Hh; [|lia].
      destruct (table_fence d h Hok Hh) as (f & Hf & _). by exists f.
    + intros h f Hf. apply (H h); [|done]. apply positions_cover; [done|].
      split; [apply Hf|]. pose proof (tk_len d Hok) as Hlen. destruct Hf as [Hh Hf].
      apply lookup_lt_Some in Hf. unfold zlen in Hlen. lia.
Qed.

End probe.

(** ** The dictionary follows the table *)

Lemma fence_at_with_iff d h f f' h' g : fence_at d h f ->
  fence_at (with_fence h f' d) h' g <-> (h' = h /\ g = f') \/ (h' <> h /\ fence_at d h' g).
Proof.
  intros Hf. split.
  - intros Hg. destruct (Z.eq_dec h' h) as [->|Hne].
    + left. split; [done|]. destruct (fence_at_with d h f f' Hf), Hg. congruence.
    + right. split; [done|]. destruct Hf as [Hh Hf], Hg as [Hh' Hg]. split; [done|].
      unfold with_fence in Hg. simpl in Hg. by rewrite lookup_zupd_ne in Hg.
  - intros [[-> ->]|[Hne Hg]]; [by eapply fence_at_with|]. apply fence_at_other; [apply Hf|done|done].
Qed.

Lemma table_ok_with d h f : table_ok d -> 0 <= h -> lock_free (lock f) -> table_ok (with_fence h f d).
Proof.
  intros [Hl Hb Hf] Hh Hlf. split; [etransitivity; [apply zlen_zupd|done]|done|].
  simpl. unfold zupd. destruct (Z.ltb_spec h 0); [lia|]. by apply Forall_insert.
Qed.

Lemma fence_at_fun d h f g : fence_at d h f -> fence_at d h g -> f = g.
Proof. intros [_ Hf] [_ Hg]. congruence. Qed.

Lemma represents_insert d D h f f' :
  represents d D -> fence_at d h f -> valid f = 0 -> valid f' <> 0 -> lock_free (lock f') ->
  fence_key f' <> (0, 0) -> D !! fence_key f' = None ->
  represents (with_fence h f' d) (<[fence_key f' := f']> D).
Proof.
  intros HR Hf Hv Hv' Hl Hk HD.
  assert (Hnone : forall h' g, fence_at d h' g -> valid g <> 0 -> fence_key g <> fence_key f').
  { intros h' g Hg Hgv Heq. destruct (rp_used d D HR h' g Hg Hgv) as [_ Hx].
    rewrite Heq in Hx. congruence. }
  split.
  - apply table_ok_with; [apply HR|apply Hf|done].
  - intros h' g Hg Hgv. apply (fence_at_with_iff d h f) in Hg as [[-> ->]|[_ Hg]]; [done| |done].
    by eapply rp_free.
  - intros h' g Hg Hgv. apply (fence_at_with_iff d h f) in Hg as [[-> ->]|[_ Hg]]; [| |done].
    + split; [done|]. apply lookup_insert_eq.
    + rewrite lookup_insert_ne by (intros Heq; by eapply Hnone). by eapply rp_used.
  - intros h1 h2 g1 g2 H1 H2 Hv1 Hv2 Heq.
    apply (fence_at_with_iff d h f) in H1 as [[-> ->]|[_ H1]]; [| |done];
      apply (fence_at_with_iff d h f) in H2 as [[-> ->]|[_ H2]]; try done.
    + destruct (Hnone _ _ H2 Hv2); congruence.
    + destruct (Hnone _ _ H1 Hv1); congruence.
    + by eapply (rp_unique d D HR).
  - intros k g Hg. apply lookup_insert_Some in Hg as [[<- <-]|[Hne Hg]].
    + exists h. split; [by eapply fence_at_with|]. by split.
    + destruct (rp_back d D HR k g Hg) as (h' & Hh' & Hgv & Hgk). exists h'.
      split; [|by split]. apply (fence_at_with_iff d h f); [done|]. right.
      split; [|done]. intros ->. rewrite (fence_at_fun _ _ _ _ Hh' Hf) in Hgv. done.
Qed.

Lemma represents_delete d D h f f' :
  represents d D -> fence_at d h f -> valid f <> 0 -> valid f' = 0 -> lock_free (lock f') ->
  fence_key f' = (0, 0) ->
  represents (with_fence h f' d) (delete (fence_key f) D).
Proof.
  intros HR Hf Hv Hv' Hl Hk. split.
  - apply table_ok_with; [apply HR|apply Hf|done].
  - intros h' g Hg Hgv. apply (fence_at_with_iff d h f) in Hg as [[-> ->]|[_ Hg]]; [done| |done].
    by eapply rp_free.
  - intros h' g Hg Hgv. apply (fence_at_with_iff d h f) in Hg as [[-> ->]|[Hne Hg]]; [done| |done].
    rewrite lookup_delete_ne; [by eapply rp_used|].
    intros Heq. apply Hne. symmetry. by eapply (rp_unique d D HR).
  - intros h1 h2 g1 g2 H1 H2 Hv1 Hv2 Heq.
    apply (fence_at_with_iff d h f) in H1 as [[-> ->]|[_ H1]]; [done| |done].
    apply (fence_at_with_iff d h f) in H2 as [[-> ->]|[_ H2]]; [done| |done].
    by eapply (rp_unique d D HR).
  - intros k g Hg. apply lookup_delete_Some in Hg as [Hne Hg].
    destruct (rp_back d D HR k g Hg) as (h' & Hh' & Hgv & Hgk). exists h'.
    split; [|by split]. apply (fence_at_with_iff d h f); [done|]. right.
    split; [|done]. intros ->. rewrite (fence_at_fun _ _ _ _ Hh' Hf) in Hgk. congruence.
Qed.

(** A live entry changes, but not its key. *)
Lemma represents_update d D h f f' :
  represents d D -> fence_at d h f -> valid f <> 0 -> valid f' <> 0 -> lock_free (lock f') ->
  fence_key f' = fence_key f ->
  represents (with_fence h f' d) (<[fence_key f := f']> D).
Proof.
  intros HR Hf Hv Hv' Hl Hk. split.
  - apply table_ok_with; [apply HR|apply Hf|done].
  - intros h' g Hg Hgv. apply (fence_at_with_iff d h f) in Hg as [[-> ->]|[_ Hg]]; [done| |done].
    by eapply rp_free.
  - intros h' g Hg Hgv. apply (fence_at_with_iff d h f) in Hg as [[-> ->]|[Hne Hg]]; [| |done].
    + rewrite Hk. split; [by apply (rp_used d D HR h f)|]. apply lookup_insert_eq.
    + rewrite lookup_insert_ne; [by eapply rp_used|].
      intros Heq. apply Hne. symmetry. by eapply (rp_unique d D HR).
  - intros h1 h2 g1 g2 H1 H2 Hv1 Hv2 Heq.
    apply (fence_at_with_iff d h f) in H1 as [[-> ->]|[_ H1]]; [| |done];
      apply (fence_at_with_iff d h f) in H2 as [[-> ->]|[_ H2]]; try done.
    + rewrite Hk in Heq. by apply (rp_unique d D HR h h2 f g2).
    + rewrite Hk in Heq. by apply (rp_unique d D HR h1 h g1 f).
    + by eapply (rp_unique d D HR).
  - intros k g Hg. apply lookup_insert_Some in Hg as [[<- <-]|[Hne Hg]].
    + exists h. split; [by eapply fence_at_with|]. by split.
    + destruct (rp_back d D HR k g Hg) as (h' & Hh' & Hgv & Hgk). exists h'.
      split; [|by split]. apply (fence_at_with_iff d h f); [done|]. right.
      split; [|done]. intros ->. rewrite (fence_at_fun _ _ _ _ Hh' Hf) in Hgk. congruence.
Qed.

(** The clock is not part of the table. *)
Lemma represents_tick op d D : represents (tick op d) D <-> represents d D.
Proof. destruct op; cbn; split; intros [[] ]; by repeat (split; try done). Qed.

Lemma with_fence_tick op h f d : with_fence h f (tick op d) = tick op (with_fence h f d).
Proof. by destruct op. Qed.

(** ** What the probe's verdicts say of the dictionary *)

Lemma judge_create op ctx seq f : is_create op = true ->
  match judge op ctx seq f with
  | Take => valid f = 0
  | Fail => valid f <> 0 /\ fence_key f = (ctx, seq)
  | GoOn => valid f <> 0 /\ fence_key f <> (ctx, seq)
  end.
Proof.
  intros Hc. unfold judge, fence_key. destruct op; try done; cbn [compare_fnc is_create];
    unfold _is_hw_fence_free, truthy; destruct (Z.eqb_spec (valid f) 0); cbn [negb]; try done;
    destruct (Z.eqb_spec seq (seq_id f)), (Z.eqb_spec ctx (ctx_id f)); cbn [andb];
    split; congruence.
Qed.

Lemma judge_match op ctx seq f : is_create op = false ->
  match judge op ctx seq f with
  | Take => fence_key f = (ctx, seq)
  | Fail => False
  | GoOn => fence_key f <> (ctx, seq)
  end.
Proof.
  intros Hc. unfold judge, fence_key. destruct op; try done; cbn [compare_fnc is_create];
    unfold _hw_fence_match;
    destruct (Z.eqb_spec (seq_id f) seq), (Z.eqb_spec (ctx_id f) ctx); cbn [andb]; congruence.
Qed.

Lemma key_valid d D h f k : represents d D -> fence_at d h f -> fence_key f = k -> k <> (0, 0) ->
  valid f <> 0 /\ D !! k = Some f.
Proof.
  intros HR Hf Hk Hne. assert (Hv : valid f <> 0).
  { intros Hv. pose proof (rp_free d D HR h f Hf Hv). congruence. }
  split; [done|]. destruct (rp_used d D HR h f Hf Hv) as [_ HD]. by rewrite Hk in HD.
Qed.

Lemma lock_at d h f : table_ok d -> fence_at d h f -> lock_free (lock f).
Proof. intros Hok Hf. apply (Forall_lookup_1 _ _ _ _ (tk_free d Hok) (proj2 Hf)). Qed.

Section dictionary.
Context `{E : HwFenceEnv}.

(** The time that the next operation reads. *)
Definition now (d : drv) : Z := u64 (arch_timer_read_counter (clock d)).

(** Creation, ordinary or of a join fence, on a key that the table does not hold. *)
Lemma create_absent op d D ctx seq client pending :
  represents d D -> is_create op = true -> is_u64 ctx -> is_u64 seq ->
  (ctx, seq) <> (0, 0) -> D !! (ctx, seq) = None ->
  (exists h f f' d', fence_at d h f /\ valid f = 0 /\
    f' = reserved f client ctx seq (now d)
           (if decide (op = HW_FENCE_LOOKUP_OP_CREATE) then 0 else pending) /\
    d' = with_fence h f' (d_set_clock (S (clock d)) d) /\
    _hw_fence_lookup_and_process ctx seq client pending op d = Ret (Some h, h) d' /\
    represents d' (<[(ctx, seq) := f']> D)) \/
  ((forall h f, fence_at d h f -> valid f <> 0) /\
   exists hash, _hw_fence_lookup_and_process ctx seq client pending op d = Ret (None, hash) d).
Proof.
  intros HR Hop Hctx Hseq Hne HD.
  destruct (lookup_ret op d ctx seq client pending (rp_ok d D HR))
    as [(h & f & Hf & Hj & Hr)|(hash & Hr & Hc)].
  - left. pose proof (judge_create op ctx seq f Hop) as Hv. rewrite Hj in Hv.
    exists h, f, (processed op f client ctx seq pending (now d)), (with_fence h
      (processed op f client ctx seq pending (now d)) (tick op d)).
    split; [done|]. split; [done|]. split; [by destruct op|]. split; [by destruct op|].
    split; [exact Hr|]. rewrite with_fence_tick. apply represents_tick.
    set (f' := processed op f client ctx seq pending (now d)).
    assert (Hk : fence_key f' = (ctx, seq)).
    { unfold f', fence_key. destruct op; try done; simpl; by rewrite !u64_small. }
    rewrite <- Hk. apply (represents_insert d D h f f'); try done.
    + by destruct op.
    + unfold f'. rewrite lock_processed. by eapply lock_at; [apply HR|].
    + by rewrite Hk.
    + by rewrite Hk.
  - right. split; [|by exists hash]. destruct Hc as [(h & f & Hf & Hj)|Hall].
    + pose proof (judge_create op ctx seq f Hop) as Hv. rewrite Hj in Hv. destruct Hv as [_ Hk].
      destruct (key_valid d D h f _ HR Hf Hk Hne). congruence.
    + intros h f Hf. pose proof (judge_create op ctx seq f Hop) as Hv.
      rewrite (Hall h f Hf) in Hv. apply Hv.
Qed.

(** Searching and destroying meet exactly the entry of the key. *)
Lemma match_key op d D ctx seq client pending :
  represents d D -> is_create op = false -> (ctx, seq) <> (0, 0) ->
  match D !! (ctx, seq) with
  | Some f => exists h, fence_at d h f /\
      _hw_fence_lookup_and_process ctx seq client pending op d =
      Ret (Some h, h) (with_fence h (processed op f client ctx seq pending (now d)) d)
  | None => exists hash, _hw_fence_lookup_and_process ctx seq client pending op d = Ret (None, hash) d
  end.
Proof.
  intros HR Hop Hne.
  destruct (lookup_ret op d ctx seq client pending (rp_ok d D HR))
    as [(h & f & Hf & Hj & Hr)|(hash & Hr & Hc)].
  - pose proof (judge_match op ctx seq f Hop) as Hk. rewrite Hj in Hk.
    destruct (key_valid d D h f _ HR Hf Hk Hne) as [Hv HD]. rewrite HD.
    exists h. split; [done|]. rewrite Hr. unfold now. by destruct op.
  - destruct (D !! (ctx, seq)) as [f|] eqn:HD; [|by exists hash].
    destruct (rp_back d D HR _ _ HD) as (h & Hf & Hv & Hk).
    destruct Hc as [(h' & f' & Hf' & Hj)|Hall].
    + pose proof (judge_match op ctx seq f' Hop) as Hx. by rewrite Hj in Hx.
    + pose proof (judge_match op ctx seq f Hop) as Hx. by rewrite (Hall h f Hf) in Hx.
Qed.

(** Search, for a client. *)
Lemma find_ret c cl d D ctx seq :
  represents d D -> client_at d c cl -> (ctx, seq) <> (0, 0) ->
  match D !! (ctx, seq) with
  | Some f => exists h, fence_at d h f /\ msm_hw_fence_find (Some c) ctx seq d = Ret (Some h, h) d
  | None => exists hash, msm_hw_fence_find (Some c) ctx seq d = Ret (None, hash) d
  end.
Proof.
  intros HR Hc Hne. unfold msm_hw_fence_find.
  rewrite (bind_ret (cl ← get_client c; mret (u32 (client_id cl))) _ d (u32 (client_id cl)) d)
    by (by rewrite (bind_ret _ _ _ _ _ (get_client_ret _ _ _ Hc))).
  pose proof (match_key HW_FENCE_LOOKUP_OP_FIND_FENCE d D ctx seq (u32 (client_id cl)) 0 HR eq_refl Hne) as H.
  destruct (D !! (ctx, seq)) as [f|]; [|done]. destruct H as (h & Hf & Hr).
  exists h. split; [done|]. rewrite Hr. cbn [processed]. by rewrite with_fence_id.
Qed.

(** Releasing the key of an entry in use frees exactly that entry. *)
Definition released (f : msm_hw_fence) : msm_hw_fence := hf_set_valid 0 (_cleanup_hw_fence f).

Lemma cleanup_slot d D h f client :
  represents d D -> fence_at d h f -> valid f <> 0 ->
  _hw_fence_cleanup client (ctx_id f) (seq_id f) d = Ret 0 (with_fence h (released f) d) /\
  represents (with_fence h (released f) d) (delete (fence_key f) D).
Proof.
  intros HR Hf Hv. destruct (rp_used d D HR h f Hf Hv) as [Hk HD]. unfold _hw_fence_cleanup.
  pose proof (match_key HW_FENCE_LOOKUP_OP_DESTROY d D (ctx_id f) (seq_id f) client 0 HR eq_refl Hk) as Hm.
  change (ctx_id f, seq_id f) with (fence_key f) in Hm. rewrite HD in Hm. destruct Hm as (h' & Hf' & Hr).
  assert (h' = h) as -> by exact (rp_unique d D HR h' h f f Hf' Hf Hv Hv eq_refl).
  split; [by rewrite (bind_ret _ _ _ _ _ Hr)|].
  apply represents_delete; try done; exact (lock_at d h f (rp_ok d D HR) Hf).
Qed.

Lemma cleanup_absent d D ctx seq client :
  represents d D -> (ctx, seq) <> (0, 0) -> D !! (ctx, seq) = None ->
  _hw_fence_cleanup client ctx seq d = Ret (- EINVAL) d.
Proof.
  intros HR Hne HD.
  pose proof (match_key HW_FENCE_LOOKUP_OP_DESTROY d D ctx seq client 0 HR eq_refl Hne) as H.
  rewrite HD in H. destruct H as (hash & Hr). unfold _hw_fence_cleanup. by rewrite (bind_ret _ _ _ _ _ Hr).
Qed.

(** Creation of a fence is insertion into the dictionary.  For a key the
    table does not hold it returns 0 and the index of an entry that was free;
    that entry becomes the new fence and nothing else of the driver changes
    but its clock.  It returns [-EINVAL], and changes nothing, only when every
    entry is in use. *)
Theorem create_inserts c cl d D ctx seq :
  represents d D -> client_at d c cl -> is_u64 ctx -> is_u64 seq ->
  (ctx, seq) <> (0, 0) -> D !! (ctx, seq) = None ->
  (exists h f f' d', fence_at d h f /\ valid f = 0 /\
    f' = reserved f (u32 (client_id cl)) ctx seq (now d) 0 /\
    d' = with_fence h f' (d_set_clock (S (clock d)) d) /\
    hw_fence_create c ctx seq d = Ret (0, h) d' /\ represents d' (<[(ctx, seq) := f']> D)) \/
  ((forall h f, fence_at d h f -> valid f <> 0) /\
   exists hash, hw_fence_create c ctx seq d = Ret (- EINVAL, hash) d).
Proof.
  intros HR Hc Hctx Hseq Hne HD. unfold hw_fence_create.
  rewrite (bind_ret _ _ _ _ _ (get_client_ret _ _ _ Hc)).
  destruct (create_absent HW_FENCE_LOOKUP_OP_CREATE d D ctx seq (u32 (client_id cl)) 0)
    as [(h & f & f' & d' & Hf & Hv & Hf' & Hd' & Hr & HR')|(Hfull & hash & Hr)]; try done.
  - left. exists h, f, f', d'. repeat (split; [done|]). by rewrite (bind_ret _ _ _ _ _ Hr).
  - right. split; [done|]. exists hash. by rewrite (bind_ret _ _ _ _ _ Hr).
Qed.

(** Search finds exactly what the dictionary holds, wherever collisions put
    it, and changes nothing; the caller may or may not be a client. *)
Theorem find_looks_up o d D ctx seq :
  represents d D -> (ctx, seq) <> (0, 0) ->
  match o with Some c => exists cl, client_at d c cl | None => True end ->
  match D !! (ctx, seq) with
  | Some f => exists h, fence_at d h f /\ msm_hw_fence_find o ctx seq d = Ret (Some h, h) d
  | None => exists hash, msm_hw_fence_find o ctx seq d = Ret (None, hash) d
  end.
Proof.
  intros HR Hne Ho. unfold msm_hw_fence_find.
  assert (exists client, (match o with Some c => cl ← get_client c; mret (u32 (client_id cl))
      | None => mret 255 end) d = Ret client d) as (client & Hcl).
  { destruct o as [c|]; [|by exists 255]. destruct Ho as (cl & Hc). exists (u32 (client_id cl)).
    by rewrite (bind_ret _ _ _ _ _ (get_client_ret _ _ _ Hc)). }
  rewrite (bind_ret _ _ _ _ _ Hcl).
  pose proof (match_key HW_FENCE_LOOKUP_OP_FIND_FENCE d D ctx seq client 0 HR eq_refl Hne) as H.
  destruct (D !! (ctx, seq)) as [f|]; [|done]. destruct H as (h & Hf & Hr).
  exists h. split; [done|]. rewrite Hr. cbn [processed]. by rewrite with_fence_id.
Qed.

(** Destruction of a fence is removal from the dictionary: it frees exactly
    the entry of the key, and returns [-EINVAL] and changes nothing for a key
    that the table does not hold. *)
Theorem destroy_removes c cl d D ctx seq :
  represents d D -> client_at d c cl -> (ctx, seq) <> (0, 0) ->
  match D !! (ctx, seq) with
  | Some f => exists h d', fence_at d h f /\ d' = with_fence h (hf_set_valid 0 (_cleanup_hw_fence f)) d /\
      hw_fence_destroy c ctx seq d = Ret 0 d' /\ represents d' (delete (ctx, seq) D)
  | None => hw_fence_destroy c ctx seq d = Ret (- EINVAL) d
  end.
Proof.
  intros HR Hc Hne. unfold hw_fence_destroy. rewrite (bind_ret _ _ _ _ _ (get_client_ret _ _ _ Hc)).
  destruct (D !! (ctx, seq)) as [f|] eqn:HD.
  - destruct (rp_back d D HR _ _ HD) as (h & Hf & Hv & Hk).
    destruct (cleanup_slot d D h f (u32 (client_id cl)) HR Hf Hv) as [Hr HR'].
    exists h, (with_fence h (released f) d). split; [done|]. split; [done|].
    rewrite Hk in HR'. injection Hk as Hctx Hseq. rewrite Hctx, Hseq in Hr.
    split; [by rewrite (bind_ret _ _ _ _ _ Hr)|done].
  - by rewrite (bind_ret _ _ _ _ _ (cleanup_absent d D ctx seq (u32 (client_id cl)) HR Hne HD)).
Qed.

(** C17: destruction by handle frees the fence of the handle when the calling
    client allocated it, and otherwise reports [-EINVAL] and changes nothing. *)
Theorem destroy_with_hash_checks_owner c cl d D h :
  represents d D -> client_at d c cl -> 0 <= h ->
  (forall f, fence_at d h f -> valid f <> 0) ->
  match hw_fences_tbl d !! Z.to_nat h with
  | Some f =>
      if decide (fence_allocator f = u32 (client_id cl)) then
        exists d', d' = with_fence h (hf_set_valid 0 (_cleanup_hw_fence f)) d /\
          hw_fence_destroy_with_hash c h d = Ret 0 d' /\ represents d' (delete (fence_key f) D)
      else hw_fence_destroy_with_hash c h d = Ret (- EINVAL) d
  | None => hw_fence_destroy_with_hash c h d = Ret (- EINVAL) d
  end.
Proof.
  intros HR Hc Hh Hused. unfold hw_fence_destroy_with_hash.
  rewrite (bind_ret _ _ _ _ _ (get_client_ret _ _ _ Hc)), bind_get.
  pose proof (tk_len d (rp_ok d D HR)) as Hlen. unfold zlen in Hlen. unfold _get_hw_fence.
  destruct (hw_fences_tbl d !! Z.to_nat h) as [f|] eqn:Hl.
  2:{ apply lookup_ge_None_1 in Hl. destruct (Z.geb_spec h (hw_fence_table_entries d)); [done|lia]. }
  assert (Hf : fence_at d h f) by done. pose proof (Hused f Hf) as Hv.
  apply lookup_lt_Some in Hl. destruct (Z.geb_spec h (hw_fence_table_entries d)); [lia|].
  rewrite (bind_ret _ _ _ _ _ (get_fence_ret _ _ _ Hf)).
  destruct (Z.eqb_spec (fence_allocator f) (u32 (client_id cl))) as [Heq|Hne];
    destruct (decide (fence_allocator f = u32 (client_id cl))); try done. cbn [negb].
  destruct (cleanup_slot d D h f (u32 (client_id cl)) HR Hf Hv) as [Hr HR'].
  eexists. split; [done|]. split; [by rewrite (bind_ret _ _ _ _ _ Hr)|done].
Qed.

End dictionary.

(** A table of free entries represents the empty dictionary. *)
Lemma represents_empty d :
  table_ok d -> Forall (fun f => valid f = 0 /\ fence_key f = (0, 0)) (hw_fences_tbl d) ->
  represents d ∅.
Proof.
  intros Hok Hall.
  assert (H : forall h f, fence_at d h f -> valid f = 0 /\ fence_key f = (0, 0))
    by (intros h f [_ Hf]; by apply (Forall_lookup_1 _ _ _ _ Hall Hf)).
  split; [done|..].
  - intros h f Hf _. by apply (H h f).
  - intros h f Hf Hv. by destruct (H h f Hf).
  - intros h h' f f' Hf _ Hv. by destruct (H h f Hf).
  - intros k f Hk. by rewrite lookup_empty in Hk.
Qed.

(** ** A concrete table *)

Definition zero_fence : msm_hw_fence :=
  mk_hw_fence 0 0 0 0 0 0 0 0 0 [0; 0; 0] 0 0 0 0 0 0 [0; 0; 0; 0; 0].

(** The fence that client [client] creates at time 0. *)
Definition demo_fence (client ctx seq : Z) : msm_hw_fence := reserved zero_fence client ctx seq 0 0.

(** A driver whose table is [l]. *)
Definition with_table (l : list msm_hw_fence) : drv :=
  mk_drv (zlen l) l [0; 0] 2 [] [None; Some demo_client] 2 1 8 3 4 0 true true false [] 0 [].

(** Both fences hash to entry 2 of 3; the second has gone on to entry 0. *)
Definition demo_table : drv := with_table [demo_fence 1 2 2; zero_fence; demo_fence 1 2 1].

Definition demo_dict : gmap (Z * Z) msm_hw_fence :=
  <[(2, 2) := demo_fence 1 2 2]> (<[(2, 1) := demo_fence 1 2 1]> ∅).

Lemma demo_represents : represents demo_table demo_dict.
Proof.
  set (d0 := with_table [zero_fence; zero_fence; zero_fence]).
  assert (H0 : represents d0 ∅).
  { apply represents_empty; [split|]; [done|by vm_compute| |];
      repeat (apply Forall_cons; split; [done|]); done. }
  assert (H1 : represents (with_fence 2 (demo_fence 1 2 1) d0) (<[(2, 1) := demo_fence 1 2 1]> ∅)).
  { apply (represents_insert d0 ∅ 2 zero_fence (demo_fence 1 2 1)); try done. }
  apply (represents_insert _ _ 0 zero_fence (demo_fence 1 2 2) H1); try done.
Qed.

Lemma demo_client_at l : client_at (with_table l) 1 demo_client.
Proof. by split. Qed.

Lemma create_inserts_witness :
  exists h f f' d', fence_at demo_table h f /\ valid f = 0 /\
    f' = reserved f 1 1 3 (@now demo_env demo_table) 0 /\
    d' = with_fence h f' (d_set_clock 1 demo_table) /\
    @hw_fence_create demo_env 1 1 3 demo_table = Ret (0, h) d' /\
    represents d' (<[(1, 3) := f']> demo_dict).
Proof.
  destruct (create_inserts (E := demo_env) 1 demo_client demo_table demo_dict 1 3
    demo_represents (demo_client_at _)) as [H|[Hfull _]]; [by split|by split|done|reflexivity| |].
  - exact H.
  - destruct (Hfull 1 zero_fence); [by split|reflexivity].
Defined.

Lemma find_looks_up_witness :
  exists h, fence_at demo_table h (demo_fence 1 2 2) /\
    @msm_hw_fence_find demo_env (Some 1) 2 2 demo_table = Ret (Some h, h) demo_table.
Proof.
  apply (find_looks_up (E := demo_env) (Some 1) demo_table demo_dict 2 2 demo_represents);
    [done|]. exists demo_client. apply demo_client_at.
Defined.

Lemma destroy_removes_witness :
  exists h d', fence_at demo_table h (demo_fence 1 2 2) /\
    d' = with_fence h (hf_set_valid 0 (_cleanup_hw_fence (demo_fence 1 2 2))) demo_table /\
    @hw_fence_destroy demo_env 1 2 2 demo_table = Ret 0 d' /\
    represents d' (delete (2, 2) demo_dict).
Proof.
  pose proof (destroy_removes (E := demo_env) 1 demo_client demo_table demo_dict 2 2 demo_represents
    (demo_client_at _) ltac:(done)) as H.
  assert (HD : demo_dict !! (2, 2) = Some (demo_fence 1 2 2)) by apply lookup_insert_eq.
  rewrite HD in H. exact H.
Defined.

Lemma destroy_with_hash_checks_owner_witness :
  exists d', d' = with_fence 2 (hf_set_valid 0 (_cleanup_hw_fence (demo_fence 1 2 1))) demo_table /\
    @hw_fence_destroy_with_hash demo_env 1 2 demo_table = Ret 0 d' /\
    represents d' (delete (2, 1) demo_dict).
Proof.
  pose proof (destroy_with_hash_checks_owner (E := demo_env) 1 demo_client demo_table demo_dict 2
    demo_represents (demo_client_at _) ltac:(done)) as H.
  assert (Hu : forall f, fence_at demo_table 2 f -> valid f <> 0)
    by (intros f [_ Hf]; injection Hf as <-; done).
  specialize (H Hu). change (hw_fences_tbl demo_table !! Z.to_nat 2) with (Some (demo_fence 1 2 1)) in H.
  cbv iota in H. destruct (decide _) as [_|Hn] in H; [exact H|by destruct Hn].
Defined.

(** ** Two limits of the table *)

(** The result of a run, without the state. *)
Definition result {A} (o : outcome drv A) : option A :=
  match o with Ret a _ => Some a | _ => None end.

(** "ctx & seqno must be unique": after the first of two colliding fences is
    destroyed, creating the second again succeeds and the key is there twice. *)
Example create_duplicate :
  match @hw_fence_destroy demo_env 1 2 1 demo_table with
  | Ret 0 d =>
      match @hw_fence_create demo_env 1 2 2 d with
      | Ret (0, h) d =>
          h = 2 /\ map fence_key (hw_fences_tbl d) = [(2, 2); (0, 0); (2, 2)]
      | _ => False
      end
  | _ => False
  end.
Proof. vm_compute. by split. Qed.

(** Searching for the key (0, 0) finds a free entry. *)
Example find_zero_key :
  result (@msm_hw_fence_find demo_env (Some 1) 0 0 demo_table) = Some (Some 1, 1) /\
  valid zero_fence = 0.
Proof. by vm_compute. Qed.
