(* ===== verification/HwFenceJoin.v ===== *)
(** * Waiting on fences, join fences and clean-up

    Registration of a waiting client, the expansion of a dma-fence array into a
    join fence with its children, and what happens to the fences of a client
    that is reset ([hw_fence_drv_priv.c]).  The theorems are in [HwFenceWait]. *)

From S2P Require Import Prelude Outcome HwFenceDrv HwFenceQueue HwFenceTable.

Section ops.
Context `{E : HwFenceEnv}.

(** The validation clients are consecutive. *)
Definition HW_FENCE_CLIENT_ID_VAL1 : Z := HW_FENCE_CLIENT_ID_VAL0 + 1.
Definition HW_FENCE_CLIENT_ID_VAL6 : Z := HW_FENCE_CLIENT_ID_VAL0 + 6.

Definition hw_fence_get_client_data_id (client_id : Z) : Z :=
  if client_id =? HW_FENCE_CLIENT_ID_CTX0 then HW_FENCE_CLIENT_DATA_ID_CTX0
  else if client_id =? HW_FENCE_CLIENT_ID_VAL0 then HW_FENCE_CLIENT_DATA_ID_VAL0
  else if client_id =? HW_FENCE_CLIENT_ID_VAL1 then HW_FENCE_CLIENT_DATA_ID_VAL1
  else if client_id =? HW_FENCE_CLIENT_ID_IPE then HW_FENCE_CLIENT_DATA_ID_IPE
  else if client_id =? HW_FENCE_CLIENT_ID_VPU then HW_FENCE_CLIENT_DATA_ID_VPU
  else HW_FENCE_MAX_CLIENTS_WITH_DATA.

(** ** Signalling a client *)

(** Client [c] is told of entry [h]. *)
Definition _fence_ctl_signal (c h hash flags client_data error : Z) : M unit :=
  d ← get;
  cl ← get_client c;
  (if truthy error && bool_decide (is_Some (fence_error_cb cl)) then
     f ← get_fence h;
     hw_fence_utils_fence_error_cb c (ctx_id f) (seq_id f) hash flags error;; mret tt
   else
     when (update_rxq cl)
       (f ← get_fence h;
        hw_fence_update_queue c (ctx_id f) (seq_id f) hash flags client_data error
          (HW_FENCE_RX_QUEUE - 1);; mret tt);;
     when (send_ipc cl)
       (hw_fence_ipcc_trigger_signal (ipcc_client_pid d) (ipc_client_vid cl) (ipc_signal_id cl)));;
  when (CONFIG_DEBUG_FS && (client_id cl >=? HW_FENCE_CLIENT_ID_VAL0)
        && (client_id cl <=? HW_FENCE_CLIENT_ID_VAL6))
    (process_validation_client_loopback (client_id cl);; mret tt).

(** ** Waiting on one fence *)

(** [fence] is the dma-fence, NULL when only its key is known; [hash] is the
    value of [*hash] before the call. *)
Definition hw_fence_register_wait_client (fence : option Z) (c context seqno hash client_data : Z) :
    M (Z * Z) :=
  cl ← get_client c;
  let data_id := hw_fence_get_client_data_id (client_id_ext cl) in
  if truthy client_data && (data_id >=? HW_FENCE_MAX_CLIENTS_WITH_DATA) then mret (- EINVAL, hash) else
  '(r, hash) ← msm_hw_fence_find (Some c) context seqno;
  match r with
  | None => mret (- EINVAL, hash)
  | Some h =>
      fence_lock h;;
      upd_fence h (fun f => hf_set_wait_client_mask (Z.lor (wait_client_mask f) (BIT (client_id cl))) f);;
      now ← hw_fence_get_qtime;
      upd_fence h (hf_set_fence_wait_time now);;
      upd_fence h (fun f => hf_set_debug_refcount (debug_refcount f + 1) f);;
      when (truthy client_data)
        (upd_fence h (fun f => hf_set_client_data (zupd (HwFenceDrv.client_data f) data_id client_data) f));;
      fence_unlock h;;
      f ← get_fence h;
      when (truthy (Z.land (flags f) MSM_HW_FENCE_FLAG_SIGNAL))
        (match fence with Some p => set_bit MSM_HW_FENCE_FLAG_SIGNALED_BIT p | None => mret tt end;;
         _fence_ctl_signal c h hash 0 client_data 0);;
      mret (0, hash)
  end.

Definition hw_fence_process_fence (c : Z) (fence : option Z) (hash client_data : Z) : M (Z * Z) :=
  match fence with
  | None => mret (- EINVAL, hash)
  | Some p =>
      df ← get_dma p;
      if negb (test_bit MSM_HW_FENCE_FLAG_ENABLED_BIT (df_flags df)) then mret (- EINVAL, hash) else
      hw_fence_register_wait_client (Some p) c (df_context df) (df_seqno df) hash client_data
  end.

(** ** Join fences *)

(** The loop over the parents of a child, from [parents_cnt] down. *)
Fixpoint remove_parents (j : nat) (hash_join_fence : Z) (f : msm_hw_fence) : msm_hw_fence :=
  match j with
  | O => f
  | S i =>
      let f :=
        if znth 0 (parent_list f) (Z.of_nat i) =? hash_join_fence then
          let f := hf_set_parent_list
                     (zupd (parent_list f) (Z.of_nat i) HW_FENCE_INVALID_PARENT_FENCE) f in
          if truthy (parents_cnt f) then hf_set_parents_cnt (parents_cnt f - 1) f else f
        else f in
      remove_parents i hash_join_fence f
  end.

(** [j] starts at [parents_cnt], as an [int], cut to the length of the list. *)
Definition first_parent (f : msm_hw_fence) : nat :=
  Nat.min (Z.to_nat (s32 (parents_cnt f))) MSM_HW_FENCE_MAX_JOIN_PARENTS.

(** One round of the clean-up: [array->fences[idx]]. *)
Definition cleanup_child (c hash_join_fence : Z) (fences : list (option Z)) (idx : nat) : M unit :=
  child_fence ← deref (fences !! idx);
  match child_fence with
  | None => mret tt
  | Some p =>
      df ← get_dma p;
      '(r, _) ← msm_hw_fence_find (Some c) (df_context df) (df_seqno df);
      match r with
      | None => mret tt
      | Some h =>
          fence_lock h;;
          upd_fence h (fun f => remove_parents (first_parent f) hash_join_fence f);;
          fence_unlock h
      end
  end.

(** [array] is the dma-fence [p] with [fences]. *)
Definition _cleanup_join_and_child_fences (c : Z) (iteration : nat) (p : Z) (hash_join_fence : Z) : M unit :=
  df ← get_dma p;
  '(num_fences, fences) ← deref (df_array df);
  match fences with
  | None => mret tt
  | Some fences => for_each (rev (seq 0 (S iteration))) (cleanup_child c hash_join_fence fences)
  end;;
  _hw_fence_process_join_fence (df_context df) (df_seqno df) num_fences hash_join_fence false;;
  mret tt.

(** One child of the array: [None] is [goto error_array]; otherwise whether the
    count of pending children has become zero. *)
Definition process_child (c join hash_join_fence : Z) (child : option Z) : M (option bool) :=
  p ← deref child;
  df ← get_dma p;
  if bool_decide (is_Some (df_array df)) then mret None else
  if negb (test_bit MSM_HW_FENCE_FLAG_ENABLED_BIT (df_flags df)) then mret None else
  '(r, _) ← msm_hw_fence_find (Some c) (df_context df) (df_seqno df);
  match r with
  | None => mret None
  | Some h =>
      fence_lock h;;
      f ← get_fence h;
      if truthy (Z.land (flags f) MSM_HW_FENCE_FLAG_SIGNAL) then
        fence_lock join;;
        upd_fence join (fun j => hf_set_error (Z.lor (error j) (error f)) j);;
        upd_fence join (fun j => hf_set_pending_child_cnt (pending_child_cnt j - 1) j);;
        j ← get_fence join;
        fence_unlock join;;
        fence_unlock h;;
        mret (Some (pending_child_cnt j =? 0))
      else
        upd_fence h (fun f => hf_set_parents_cnt (parents_cnt f + 1) f);;
        f ← get_fence h;
        if (parents_cnt f >=? Z.of_nat MSM_HW_FENCE_MAX_JOIN_PARENTS) || (parents_cnt f <? 1) then
          upd_fence h (fun f => hf_set_parents_cnt (parents_cnt f - 1) f);;
          fence_unlock h;;
          mret None
        else
          upd_fence h (fun f => hf_set_parent_list
            (zupd (parent_list f) (parents_cnt f - 1) hash_join_fence) f);;
          fence_unlock h;;
          mret (Some false)
  end.

(** [for (i = 0; i < array->num_fences; i++)]; [n] rounds are left.  The result
    is the [i] of [goto error_array], or whether to signal the join fence. *)
Fixpoint process_children (n i : nat) (c join hash_join_fence : Z) (fences : option (list (option Z)))
    (signal_join_fence : bool) : M (nat + bool) :=
  match n with
  | O => mret (inr signal_join_fence)
  | S n =>
      l ← deref fences;
      child ← deref (l !! i);
      r ← process_child c join hash_join_fence child;
      match r with
      | None => mret (inl i)
      | Some zero =>
          process_children n (S i) c join hash_join_fence fences (signal_join_fence || zero)
      end
  end.

Definition hw_fence_process_fence_array (c p hash client_data : Z) : M (Z * Z) :=
  cl ← get_client c;
  let data_id := hw_fence_get_client_data_id (client_id_ext cl) in
  if truthy client_data && (data_id >=? HW_FENCE_MAX_CLIENTS_WITH_DATA) then mret (- EINVAL, hash) else
  df ← get_dma p;
  '(num_fences, fences) ← deref (df_array df);
  '(r, hash_join_fence) ← _hw_fence_process_join_fence (df_context df) (df_seqno df) num_fences hash true;
  match r with
  | None => mret (- EINVAL, hash_join_fence)
  | Some join =>
      fence_lock join;;
      upd_fence join (fun j => hf_set_wait_client_mask (Z.lor (wait_client_mask j) (BIT (client_id cl))) j);;
      fence_unlock join;;
      res ← process_children (Z.to_nat num_fences) 0 c join hash_join_fence fences false;
      match res : nat + bool with
      | inl i =>
          _cleanup_join_and_child_fences c i p hash_join_fence;; mret (- EINVAL, hash_join_fence)
      | inr signal_join_fence =>
          when (truthy client_data)
            (upd_fence join (fun j => hf_set_client_data (zupd (HwFenceDrv.client_data j) data_id client_data) j));;
          if signal_join_fence then
            j ← get_fence join;
            _fence_ctl_signal c join hash_join_fence 0 client_data (error j);;
            set_bit MSM_HW_FENCE_FLAG_SIGNALED_BIT p;;
            _hw_fence_process_join_fence (df_context df) (df_seqno df) num_fences hash_join_fence false;;
            mret (0, hash_join_fence)
          else if num_fences =? 0 then
            _cleanup_join_and_child_fences c 0 p hash_join_fence;; mret (- EINVAL, hash_join_fence)
          else mret (0, hash_join_fence)
      end
  end.

(** ** The fences of a client that is reset *)

(** The loop of [_signal_all_wait_clients]; [client_data] is declared outside it. *)
Fixpoint signal_wait_clients (ids : list Z) (h hash error client_data : Z) : M unit :=
  match ids with
  | [] => mret tt
  | wait_client_id :: ids =>
      f ← get_fence h;
      if truthy (Z.land (wait_client_mask f) (BIT wait_client_id)) then
        p ← client_ptr wait_client_id;
        match p with
        | None => signal_wait_clients ids h hash error client_data
        | Some wcl =>
            let data_id := hw_fence_get_client_data_id (client_id_ext wcl) in
            let client_data := if data_id <? HW_FENCE_MAX_CLIENTS_WITH_DATA
                               then znth 0 (HwFenceDrv.client_data f) data_id else client_data in
            _fence_ctl_signal wait_client_id h hash 0 client_data (u32 error);;
            signal_wait_clients ids h hash error client_data
        end
      else signal_wait_clients ids h hash error client_data
  end.

Definition _signal_all_wait_clients (h hash error : Z) : M unit :=
  d ← get;
  signal_wait_clients (seqZ 0 (rxq_clients_num d + 1)) h hash error 0.

Definition hw_fence_utils_cleanup_fence (c h hash reset_flags : Z) : M Z :=
  cl ← get_client c;
  let error := if truthy (Z.land reset_flags MSM_HW_FENCE_RESET_WITHOUT_ERROR) then 0
               else MSM_HW_FENCE_ERROR_RESET in
  fence_lock h;;
  f ← get_fence h;
  when (truthy (Z.land (wait_client_mask f) (BIT (client_id cl))))
    (upd_fence h (fun f => hf_set_wait_client_mask
       (Z.land (wait_client_mask f) (Z.lnot (BIT (client_id cl)))) f));;
  fence_unlock h;;
  f ← get_fence h;
  if fence_allocator f =? u32 (client_id cl) then
    when (negb (truthy (Z.land (flags f) MSM_HW_FENCE_FLAG_SIGNAL)))
      (_signal_all_wait_clients h hash error);;
    if truthy (Z.land reset_flags MSM_HW_FENCE_RESET_WITHOUT_DESTROY) then mret 0 else
    f ← get_fence h;
    hw_fence_destroy c (ctx_id f) (seq_id f)
  else mret 0.

End ops.
