(* ===== verification/HwFenceWait.v ===== *)
(** * Waiting on fences: theorems

    Registering a waiter changes one entry of the dictionary.  A fence array is
    all or nothing: when one child is not acceptable, the join fence and every
    link that was made to it are taken back. *)

From stdpp Require Import gmap.
From S2P Require Import Prelude Outcome HwFenceDrv HwFenceQueue HwFenceRing HwFenceTable HwFenceDict HwFenceJoin.

(** ** Critical sections of one entry *)

Lemma with_fence_comm x y f g d : x <> y ->
  with_fence x f (with_fence y g d) = with_fence y g (with_fence x f d).
Proof.
  intros Hne. unfold with_fence. cbn [hw_fences_tbl d_set_hw_fences_tbl].
  rewrite (zupd_comm (hw_fences_tbl d) y x) by congruence. done.
Qed.

Section critical.
Context `{E : HwFenceEnv}.

Definition locked (f : msm_hw_fence) : msm_hw_fence := hf_set_lock (Z.lor (lock f) 1) f.

Lemma enter {A} (K : M A) d h f :
  fence_at d h f -> lock_free (lock f) -> (fence_lock h;; K) d = K (with_fence h (locked f) d).
Proof. intros Hf Hl. by rewrite (bind_ret _ _ _ _ _ (fence_lock_ret d h f Hf Hl)). Qed.

Lemma upd_in {A} (K : M A) d h f f' g :
  fence_at d h f -> (upd_fence h g;; K) (with_fence h f' d) = K (with_fence h (g f') d).
Proof.
  intros Hf. pose proof (fence_at_with d h f f' Hf) as Hf'.
  rewrite (bind_ret _ _ _ _ _ (upd_fence_ret _ h f' g Hf')). by rewrite with_fence_twice.
Qed.

Lemma get_in {A} (K : msm_hw_fence -> M A) d h f f' :
  fence_at d h f -> (x ← get_fence h; K x) (with_fence h f' d) = K f' (with_fence h f' d).
Proof.
  intros Hf. by rewrite (bind_ret _ _ _ _ _ (get_fence_ret _ h f' (fence_at_with d h f f' Hf))).
Qed.

Lemma leave {A} (K : M A) d h f f' :
  fence_at d h f -> lock_free (lock f) -> lock f' = Z.lor (lock f) 1 ->
  (fence_unlock h;; K) (with_fence h f' d) = K (with_fence h (hf_set_lock (lock f) f') d).
Proof.
  intros Hf Hl Hl'. pose proof (fence_at_with d h f f' Hf) as Hf'.
  rewrite (bind_ret _ _ _ _ _ (fence_unlock_ret _ h f' (lock f) Hf' Hl Hl')).
  by rewrite with_fence_twice.
Qed.

Lemma lock_locked f : lock_free (lock f) -> lock (locked f) = Z.lor (lock f) 1.
Proof. intros H. by apply lock_word_u64. Qed.

Lemma unlock_locked f : lock_free (lock f) -> hf_set_lock (lock f) (locked f) = f.
Proof. intros H. by apply fence_lock_word. Qed.

(** The whole section, for an update that does not look at the lock. *)
Lemma section_ret {A} (K : M A) d h f g :
  fence_at d h f -> lock_free (lock f) ->
  (forall w x, g (hf_set_lock w x) = hf_set_lock w (g x)) -> lock (g f) = lock f ->
  (fence_lock h;; upd_fence h g;; fence_unlock h;; K) d = K (with_fence h (g f) d).
Proof.
  intros Hf Hl Hg Hlg. rewrite (enter _ d h f), (upd_in _ d h f) by done.
  rewrite (leave _ d h f); [|done|done|].
  - unfold locked. rewrite Hg. f_equal. by rewrite <- Hlg, fence_lock_word by (by rewrite ?Hlg).
  - unfold locked. rewrite Hg. by apply lock_word_u64.
Qed.

Lemma section_last d h f g :
  fence_at d h f -> lock_free (lock f) ->
  (forall w x, g (hf_set_lock w x) = hf_set_lock w (g x)) -> lock (g f) = lock f ->
  (fence_lock h;; upd_fence h g;; fence_unlock h) d = Ret tt (with_fence h (g f) d).
Proof.
  intros Hf Hl Hg Hlg. etransitivity; [|exact (section_ret (mret tt) d h f g Hf Hl Hg Hlg)].
  rewrite (enter _ d h f), (upd_in _ d h f) by done.
  rewrite (enter _ d h f), (upd_in _ d h f) by done. by rewrite bind_tt.
Qed.

End critical.

(** ** Tables by index *)

(** What makes the table a dictionary, entry by entry. *)
Record table_wf (d : drv) : Prop := mk_table_wf {
  tw_ok : table_ok d;
  tw_free h f : fence_at d h f -> valid f = 0 -> fence_key f = (0, 0);
  tw_used h f : fence_at d h f -> valid f <> 0 -> fence_key f <> (0, 0);
  tw_unique h h' f f' : fence_at d h f -> fence_at d h' f' -> valid f <> 0 -> valid f' <> 0 ->
    fence_key f = fence_key f' -> h = h'
}.

Lemma represents_wf d D : represents d D -> table_wf d.
Proof.
  intros HR. split.
  - apply HR.
  - intros h f. apply (rp_free d D HR).
  - intros h f Hf Hv. by apply (rp_used d D HR h f).
  - intros h h' f f'. apply (rp_unique d D HR).
Qed.

Lemma represents_intro d D :
  table_wf d ->
  (forall k f, D !! k = Some f <-> exists h, fence_at d h f /\ valid f <> 0 /\ fence_key f = k) ->
  represents d D.
Proof.
  intros [Hok Hfree Hused Hun] HD. split; try done.
  - intros h f Hf Hv. split; [by eapply Hused|]. apply HD. by exists h.
  - intros k f Hf. by apply HD.
Qed.

Lemma represents_iff d D k f : represents d D ->
  D !! k = Some f <-> exists h, fence_at d h f /\ valid f <> 0 /\ fence_key f = k.
Proof.
  intros HR. split; [apply (rp_back d D HR)|].
  intros (h & Hf & Hv & <-). by apply (rp_used d D HR h f).
Qed.

Lemma represents_same_table d d' D :
  hw_fences_tbl d' = hw_fences_tbl d -> hw_fence_table_entries d' = hw_fence_table_entries d ->
  represents d D -> represents d' D.
Proof.
  intros Ht He HR. assert (Hiff : forall h f, fence_at d' h f <-> fence_at d h f)
    by (intros h f; unfold fence_at; by rewrite Ht).
  apply represents_intro; [split|].
  - destruct (rp_ok d D HR) as [Hl Hb Hf]. split; by rewrite ?Ht, ?He.
  - intros h f Hf. apply Hiff in Hf. by apply (rp_free d D HR h).
  - intros h f Hf Hv. apply Hiff in Hf. by apply (rp_used d D HR h f).
  - intros h h' f f' Hf Hf'. apply Hiff in Hf, Hf'. by apply (rp_unique d D HR).
  - intros k f. rewrite (represents_iff d D k f HR). by setoid_rewrite Hiff.
Qed.

Section finding.
Context `{E : HwFenceEnv}.
Implicit Types (d : drv) (f : msm_hw_fence).

Lemma live_key d h f k : table_wf d -> fence_at d h f -> fence_key f = k -> k <> (0, 0) -> valid f <> 0.
Proof. intros Hwf Hf Hk Hne Hv. pose proof (tw_free d Hwf h f Hf Hv). congruence. Qed.

Lemma find_at c cl d h f ctx seq :
  table_wf d -> client_at d c cl -> fence_at d h f -> fence_key f = (ctx, seq) -> (ctx, seq) <> (0, 0) ->
  msm_hw_fence_find (Some c) ctx seq d = Ret (Some h, h) d.
Proof.
  intros Hwf Hc Hf Hk Hne. unfold msm_hw_fence_find.
  rewrite (bind_ret (cl ← get_client c; mret (u32 (client_id cl))) _ d (u32 (client_id cl)) d)
    by (by rewrite (bind_ret _ _ _ _ _ (get_client_ret _ _ _ Hc))).
  destruct (lookup_ret HW_FENCE_LOOKUP_OP_FIND_FENCE d ctx seq (u32 (client_id cl)) 0 (tw_ok d Hwf))
    as [(h' & f' & Hf' & Hj & Hr)|(hash & Hr & Hc')].
  - pose proof (judge_match HW_FENCE_LOOKUP_OP_FIND_FENCE ctx seq f' eq_refl) as Hk'. rewrite Hj in Hk'.
    assert (h' = h) as -> by (apply (tw_unique d Hwf h' h f' f); eauto using live_key; congruence).
    rewrite Hr. cbn [processed tick is_create]. by rewrite with_fence_id.
  - destruct Hc' as [(h' & f' & Hf' & Hj)|Hall].
    + pose proof (judge_match HW_FENCE_LOOKUP_OP_FIND_FENCE ctx seq f' eq_refl) as Hx. by rewrite Hj in Hx.
    + pose proof (judge_match HW_FENCE_LOOKUP_OP_FIND_FENCE ctx seq f eq_refl) as Hx.
      by rewrite (Hall h f Hf) in Hx.
Qed.

Lemma find_none c cl d ctx seq :
  table_ok d -> client_at d c cl -> (forall h f, fence_at d h f -> fence_key f <> (ctx, seq)) ->
  exists hash, msm_hw_fence_find (Some c) ctx seq d = Ret (None, hash) d.
Proof.
  intros Hok Hc Hnone. unfold msm_hw_fence_find.
  rewrite (bind_ret (cl ← get_client c; mret (u32 (client_id cl))) _ d (u32 (client_id cl)) d)
    by (by rewrite (bind_ret _ _ _ _ _ (get_client_ret _ _ _ Hc))).
  destruct (lookup_ret HW_FENCE_LOOKUP_OP_FIND_FENCE d ctx seq (u32 (client_id cl)) 0 Hok)
    as [(h' & f' & Hf' & Hj & Hr)|(hash & Hr & Hc')]; [|by exists hash].
  pose proof (judge_match HW_FENCE_LOOKUP_OP_FIND_FENCE ctx seq f' eq_refl) as Hk. rewrite Hj in Hk.
  by destruct (Hnone h' f').
Qed.

End finding.

(** ** Registering a waiting client *)

Section register.
Context `{E : HwFenceEnv}.

(** The client may attach data. *)
Definition data_allowed (cl : msm_hw_fence_client) (cd : Z) : Prop :=
  cd = 0 \/ hw_fence_get_client_data_id (client_id_ext cl) < HW_FENCE_MAX_CLIENTS_WITH_DATA.

Lemma data_check cl cd : data_allowed cl cd ->
  truthy cd && (hw_fence_get_client_data_id (client_id_ext cl) >=? HW_FENCE_MAX_CLIENTS_WITH_DATA) = false.
Proof.
  intros [->|H]; [done|]. apply andb_false_intro2.
  by destruct (Z.geb_spec (hw_fence_get_client_data_id (client_id_ext cl))
                 HW_FENCE_MAX_CLIENTS_WITH_DATA); [lia|].
Qed.

(** The client data that goes with a fence. *)
Definition with_data (cl : msm_hw_fence_client) (cd : Z) (f : msm_hw_fence) : msm_hw_fence :=
  if truthy cd then
    hf_set_client_data (zupd (client_data f) (hw_fence_get_client_data_id (client_id_ext cl)) cd) f
  else f.

(** The entry that the client waits on, from [time] on. *)
Definition waited (cl : msm_hw_fence_client) (time cd : Z) (f : msm_hw_fence) : msm_hw_fence :=
  let f := hf_set_wait_client_mask (Z.lor (wait_client_mask f) (BIT (client_id cl))) f in
  let f := hf_set_fence_wait_time time f in
  let f := hf_set_debug_refcount (debug_refcount f + 1) f in
  with_data cl cd f.

Definition signaled (f : msm_hw_fence) : bool := truthy (Z.land (flags f) MSM_HW_FENCE_FLAG_SIGNAL).

Lemma waited_lock cl t cd f w : waited cl t cd (hf_set_lock w f) = hf_set_lock w (waited cl t cd f).
Proof. unfold waited, with_data. by destruct (truthy cd). Qed.

Lemma lock_waited cl t cd f : lock (waited cl t cd f) = lock f.
Proof. unfold waited, with_data. by destruct (truthy cd). Qed.

Lemma fence_key_waited cl t cd f : fence_key (waited cl t cd f) = fence_key f.
Proof. unfold waited, with_data. by destruct (truthy cd). Qed.

Lemma valid_waited cl t cd f : valid (waited cl t cd f) = valid f.
Proof. unfold waited, with_data. by destruct (truthy cd). Qed.

Lemma signaled_waited cl t cd f : signaled (waited cl t cd f) = signaled f.
Proof. unfold waited, with_data. by destruct (truthy cd). Qed.

(** The critical section of the registration. *)
Lemma register_section {A} (K : M A) d h f c cl cd :
  fence_at d h f -> lock_free (lock f) -> client_at d c cl ->
  (fence_lock h;;
   upd_fence h (fun f => hf_set_wait_client_mask (Z.lor (wait_client_mask f) (BIT (client_id cl))) f);;
   t ← hw_fence_get_qtime;
   upd_fence h (hf_set_fence_wait_time t);;
   upd_fence h (fun f => hf_set_debug_refcount (debug_refcount f + 1) f);;
   when (truthy cd)
     (upd_fence h (fun f => hf_set_client_data
        (zupd (client_data f) (hw_fence_get_client_data_id (client_id_ext cl)) cd) f));;
   fence_unlock h;; K) d =
  K (with_fence h (waited cl (now d) cd f) (d_set_clock (S (clock d)) d)).
Proof.
  intros Hf Hl Hc. set (d1 := d_set_clock (S (clock d)) d).
  assert (Hf1 : fence_at d1 h f) by exact Hf.
  rewrite (enter _ d h f), (upd_in _ d h f) by done. unfold mbind at 1, run_bind at 1.
  cbn [hw_fence_get_qtime].
  match goal with |- ?m (d_set_clock _ (with_fence h ?f1 d)) = _ =>
    change (m (with_fence h f1 d1) = K (with_fence h (waited cl (now d) cd f) d1)) end.
  rewrite (upd_in _ d1 h f), (upd_in _ d1 h f) by done.
  assert (Hfin : forall x, hf_set_lock (lock f) (with_data cl cd (hf_set_lock (Z.lor (lock f) 1) x))
                   = hf_set_lock (lock f) (with_data cl cd x))
    by (intros x; unfold with_data; by destruct (truthy cd)).
  set (f3 := hf_set_debug_refcount _ _).
  assert (Hw : forall K' : M A,
      (when (truthy cd) (upd_fence h (fun f => hf_set_client_data
          (zupd (client_data f) (hw_fence_get_client_data_id (client_id_ext cl)) cd) f));; K')
        (with_fence h f3 d1) = K' (with_fence h (with_data cl cd f3) d1)).
  { intros K'. unfold with_data. destruct (truthy cd); [|done].
    exact (upd_in K' d1 h f f3 (fun f => hf_set_client_data (zupd (client_data f) _ cd) f) Hf1). }
  rewrite Hw. rewrite (leave _ d1 h f); [|done|done|].
  - f_equal. f_equal. unfold f3, locked. symmetry. etransitivity.
    { symmetry. apply (fence_lock_word _ (lock f)); [done|apply lock_waited]. }
    rewrite <- waited_lock. done.
  - unfold with_data, f3. destruct (truthy cd); by apply lock_word_u64.
Qed.

(** The client is told at once of a fence that is signalled already; the
    dma-fence is marked. *)
Definition signal_now (c h cd : Z) (fence : option Z) : M unit :=
  match fence with Some p => set_bit MSM_HW_FENCE_FLAG_SIGNALED_BIT p | None => mret tt end;;
  _fence_ctl_signal c h h 0 cd 0.

(** A client that waits on a fence of the table is recorded in exactly its
    entry: the bit of the client in the mask, the time, one more reference and
    the client data.  It is signalled at once, with the entry already updated,
    if and only if the fence has been signalled.  For an unknown key the call
    returns [-EINVAL] and changes nothing. *)
Theorem register_wait_registers fence c cl d D ctx seq hash0 cd :
  represents d D -> client_at d c cl -> (ctx, seq) <> (0, 0) -> data_allowed cl cd ->
  match D !! (ctx, seq) with
  | Some f => exists h d', fence_at d h f /\
      d' = with_fence h (waited cl (now d) cd f) (d_set_clock (S (clock d)) d) /\
      represents d' (<[(ctx, seq) := waited cl (now d) cd f]> D) /\
      hw_fence_register_wait_client fence c ctx seq hash0 cd d =
      (if signaled f then (signal_now c h cd fence;; mret (0, h)) d' else Ret (0, h) d')
  | None => exists hash, hw_fence_register_wait_client fence c ctx seq hash0 cd d = Ret (- EINVAL, hash) d
  end.
Proof.
  intros HR Hc Hne Hcd. unfold hw_fence_register_wait_client.
  rewrite (bind_ret _ _ _ _ _ (get_client_ret _ _ _ Hc)). cbv zeta. rewrite data_check by done.
  pose proof (find_ret c cl d D ctx seq HR Hc Hne) as Hfind.
  destruct (D !! (ctx, seq)) as [f|] eqn:HD.
  2:{ destruct Hfind as (hash & Hr). exists hash. by rewrite (bind_ret _ _ _ _ _ Hr). }
  destruct Hfind as (h & Hf & Hr). rewrite (bind_ret _ _ _ _ _ Hr).
  assert (Hl : lock_free (lock f)) by (eapply lock_at; [apply HR|exact Hf]).
  set (d1 := d_set_clock (S (clock d)) d). set (f' := waited cl (now d) cd f).
  exists h, (with_fence h f' d1). split; [done|]. split; [done|]. split.
  - destruct (rp_back d D HR _ _ HD) as (h0 & Hf0 & Hv & Hk). rewrite <- Hk.
    apply (represents_update d1 D h f f'); try done.
    + by apply (represents_tick HW_FENCE_LOOKUP_OP_CREATE).
    + unfold f'. by rewrite valid_waited.
    + unfold f'. by rewrite lock_waited.
    + apply fence_key_waited.
  - rewrite (register_section _ d h f c cl cd Hf Hl Hc). fold d1 f'.
    rewrite (get_in _ d1 h f) by done. fold (signaled f'). unfold f'. rewrite signaled_waited.
    by destruct (signaled f).
Qed.

End register.

(** ** Links from a child to its join fences *)

(** The child gets parent [hj]. *)
Definition link (hj : Z) (f : msm_hw_fence) : msm_hw_fence :=
  hf_set_parent_list (zupd (parent_list f) (parents_cnt f) hj) (hf_set_parents_cnt (parents_cnt f + 1) f).

Definition links (hj : Z) (n : nat) (f : msm_hw_fence) : msm_hw_fence := Nat.iter n (link hj) f.

(** The parents are a prefix of the list, the rest of it is invalid, and [hj]
    is not one of them. *)
Record parents_ok (hj : Z) (f : msm_hw_fence) : Prop := mk_parents_ok {
  po_cnt : 0 <= parents_cnt f <= 2;
  po_len : zlen (parent_list f) = 3;
  po_other i : 0 <= i < 3 -> znth 0 (parent_list f) i <> hj;
  po_invalid i : parents_cnt f <= i < 3 -> znth 0 (parent_list f) i = HW_FENCE_INVALID_PARENT_FENCE
}.

Lemma links_keeps hj n f :
  fence_key (links hj n f) = fence_key f /\ valid (links hj n f) = valid f /\
  lock (links hj n f) = lock f /\ flags (links hj n f) = flags f /\ error (links hj n f) = error f.
Proof. induction n as [|n IH]; [done|]. exact IH. Qed.

Lemma links_cnt hj n f : 0 <= parents_cnt f -> parents_cnt f + Z.of_nat n < 2 ^ 32 ->
  parents_cnt (links hj n f) = parents_cnt f + Z.of_nat n.
Proof.
  induction n as [|n IH]; intros H0 H; [cbn; lia|].
  change (u32 (parents_cnt (links hj n f) + 1) = parents_cnt f + Z.of_nat (S n)).
  rewrite IH by lia. rewrite u32_small by lia. lia.
Qed.

Lemma links_S hj n f : links hj (S n) f = link hj (links hj n f).
Proof. done. Qed.

Lemma remove_parents_lock j hj f w :
  remove_parents j hj (hf_set_lock w f) = hf_set_lock w (remove_parents j hj f).
Proof.
  revert f. induction j as [|j IH]; intros f; [done|]. cbn [remove_parents].
  rewrite <- IH. f_equal. change (parent_list (hf_set_lock w f)) with (parent_list f).
  destruct (_ =? hj); [|done].
  change (parents_cnt (hf_set_parent_list ?l (hf_set_lock w f))) with (parents_cnt f).
  change (parents_cnt (hf_set_parent_list ?l f)) with (parents_cnt f). by destruct (truthy _).
Qed.

Lemma lock_remove_parents j hj f : lock (remove_parents j hj f) = lock f.
Proof.
  revert f. induction j as [|j IH]; intros f; [done|]. cbn [remove_parents]. rewrite IH.
  destruct (_ =? hj); [|done]. by destruct (truthy _).
Qed.

Lemma links_list hj n f :
  0 <= parents_cnt f -> parents_cnt f + Z.of_nat n < 2 ^ 32 ->
  zlen (parent_list (links hj n f)) = zlen (parent_list f) /\
  forall i, parents_cnt f + Z.of_nat n <= i ->
    znth 0 (parent_list (links hj n f)) i = znth 0 (parent_list f) i.
Proof.
  induction n as [|n IH]; intros H0 H; [done|]. destruct IH as [Hl Hi]; [lia|lia|].
  rewrite links_S. cbn [link parent_list hf_set_parent_list]. rewrite zlen_zupd. split; [done|].
  intros i Hge. rewrite znth_zupd_ne; [apply Hi; lia|]. rewrite links_cnt by lia. lia.
Qed.

Lemma first_parent_small f : 0 <= parents_cnt f <= 3 -> first_parent f = Z.to_nat (parents_cnt f).
Proof.
  intros H. unfold first_parent. rewrite s32_small by lia. unfold MSM_HW_FENCE_MAX_JOIN_PARENTS. lia.
Qed.

Lemma remove_none n hj f :
  (forall i, 0 <= i < Z.of_nat n -> znth 0 (parent_list f) i <> hj) -> remove_parents n hj f = f.
Proof.
  induction n as [|n IH]; intros H; [done|]. cbn [remove_parents].
  destruct (Z.eqb_spec (znth 0 (parent_list f) (Z.of_nat n)) hj); [by destruct (H (Z.of_nat n)); [lia|]|].
  apply IH. intros i Hi. apply H. lia.
Qed.

(** Dropping the last link. *)
Lemma remove_link hj g :
  0 <= parents_cnt g <= 1 -> zlen (parent_list g) = 3 ->
  znth 0 (parent_list g) (parents_cnt g) = HW_FENCE_INVALID_PARENT_FENCE ->
  remove_parents (first_parent (link hj g)) hj (link hj g) = remove_parents (first_parent g) hj g.
Proof.
  intros Hc Hlen Hinv. set (c := parents_cnt g) in *.
  assert (Hlc : parents_cnt (link hj g) = c + 1) by (cbn; apply u32_small; fold c; lia).
  rewrite !first_parent_small by (rewrite ?Hlc; fold c; lia). rewrite Hlc. fold c.
  replace (Z.to_nat (c + 1)) with (S (Z.to_nat c)) by lia. cbn [remove_parents].
  rewrite Z2Nat.id by lia.
  change (parent_list (link hj g)) with (zupd (parent_list g) c hj).
  rewrite znth_zupd_eq by lia. rewrite Z.eqb_refl, zupd_zupd. cbv zeta.
  assert (Hz : zupd (parent_list g) c HW_FENCE_INVALID_PARENT_FENCE = parent_list g)
    by (rewrite <- Hinv; apply zupd_id).
  rewrite Hz. change (parents_cnt (hf_set_parent_list ?l (link hj g))) with (parents_cnt (link hj g)).
  rewrite Hlc. unfold truthy. destruct (Z.eqb_spec (c + 1) 0); [lia|]. cbn [negb]. f_equal.
  unfold hf_set_parents_cnt, link, hf_set_parent_list. cbn. rewrite u32_small by lia.
  replace (c + 1 - 1) with c by lia. unfold c. by destruct g.
Qed.

(** Taking the links back restores the child. *)
Lemma unlink hj n f :
  parents_ok hj f -> n = O \/ parents_cnt f + Z.of_nat n <= 2 ->
  remove_parents (first_parent (links hj n f)) hj (links hj n f) = f.
Proof.
  intros Hok Hn. pose proof (po_cnt _ _ Hok) as Hc. induction n as [|n IH].
  - apply remove_none. intros i Hi. apply (po_other _ _ Hok).
    rewrite first_parent_small in Hi by (cbn; lia). cbn in Hi. lia.
  - destruct Hn as [|Hn]; [done|]. rewrite links_S.
    destruct (links_list hj n f) as [Hl Hi]; [lia|lia|].
    assert (Hcn : parents_cnt (links hj n f) = parents_cnt f + Z.of_nat n) by (apply links_cnt; lia).
    rewrite remove_link; [apply IH; lia|lia|by rewrite Hl; apply (po_len _ _ Hok)|].
    rewrite Hcn, Hi by lia. apply (po_invalid _ _ Hok). lia.
Qed.

(** ** Fence arrays *)

(** How often a key occurs. *)
Definition occ (k : Z * Z) (ks : list (Z * Z)) : nat := countb (fun k' => bool_decide (k = k')) ks.

Lemma occ_app k ks ks' : occ k (ks ++ ks') = (occ k ks + occ k ks')%nat.
Proof.
  unfold occ. induction ks as [|x ks IH]; [done|]. cbn [app countb]. rewrite IH.
  by destruct (bool_decide (k = x)).
Qed.

Lemma occ_one k k' : occ k [k'] = (if decide (k = k') then 1 else 0)%nat.
Proof. unfold occ. cbn. by destruct (decide (k = k')), (bool_decide_reflect (k = k')). Qed.

Lemma occ_not_in k ks : k ∉ ks -> occ k ks = O.
Proof.
  unfold occ. induction ks as [|x ks IH]; [done|]. intros H. cbn [countb].
  destruct (bool_decide_reflect (k = x)) as [->|_]; [set_solver|]. apply IH. set_solver.
Qed.

(** All the links to one child are dropped. *)
Definition drop_key (k : Z * Z) (ks : list (Z * Z)) : list (Z * Z) := filter (fun k' => k' <> k) ks.

Lemma occ_drop k k' ks : occ k (drop_key k' ks) = if decide (k = k') then O else occ k ks.
Proof.
  induction ks as [|x ks IH]; unfold drop_key in *; [by destruct (decide _)|].
  rewrite filter_cons. unfold occ in *. cbn [countb].
  destruct (decide (x <> k')) as [Hx|Hx]; cbn [countb]; rewrite IH;
    destruct (decide (k = k')), (bool_decide_reflect (k = x)); try done; destruct Hx; congruence.
Qed.

Section join.
Context `{E : HwFenceEnv}.

(** The dma-fence of name [p]. *)
Definition dma_at (d : drv) (p : Z) (df : dma_fence) : Prop :=
  0 <= p /\ dma_fences d !! Z.to_nat p = Some df.

Definition dma_key (df : dma_fence) : Z * Z := (df_context df, df_seqno df).

Lemma get_dma_ret d p df : dma_at d p df -> get_dma p d = Ret df d.
Proof. intros [Hp Hl]. unfold get_dma. destruct (Z.ltb_spec p 0); [lia|]. by rewrite Hl. Qed.

(** The entry of a child that may be in a join fence: neither an array itself
    nor a fence without an entry. *)
Definition child_fence (D : gmap (Z * Z) msm_hw_fence) (df : dma_fence) : option msm_hw_fence :=
  if bool_decide (is_Some (df_array df)) || negb (test_bit MSM_HW_FENCE_FLAG_ENABLED_BIT (df_flags df))
  then None else D !! dma_key df.

(** Which links a join fence over [dfs] makes when [ks] are made already; [None]
    when some child is not acceptable or has its parents already. *)
Fixpoint plan (D : gmap (Z * Z) msm_hw_fence) (ks : list (Z * Z)) (dfs : list dma_fence) :
    option (list (Z * Z)) :=
  match dfs with
  | [] => Some ks
  | df :: dfs =>
      match child_fence D df with
      | None => None
      | Some f =>
          if signaled f then plan D ks dfs
          else if parents_cnt f + Z.of_nat (occ (fence_key f) ks) <? 2
          then plan D (ks ++ [fence_key f]) dfs else None
      end
  end.

(** The join fence when a signalled child is counted off. *)
Definition absorb (f j : msm_hw_fence) : msm_hw_fence :=
  let j := hf_set_error (Z.lor (error j) (error f)) j in
  hf_set_pending_child_cnt (pending_child_cnt j - 1) j.

(** [d] is [d0] with join fence [j] at [hj] and one link to it for each of [ks]. *)
Record linked (d0 d : drv) (hj : Z) (j : msm_hw_fence) (ks : list (Z * Z)) : Prop := mk_linked {
  lk_same : d = d_set_hw_fences_tbl (hw_fences_tbl d) d0;
  lk_ok : table_ok d;
  lk_join : fence_at d hj j;
  lk_entry x f : x <> hj -> fence_at d0 x f -> fence_at d x (links hj (occ (fence_key f) ks) f)
}.

Context (d0 : drv) (D : gmap (Z * Z) msm_hw_fence) (hj : Z) (akey : Z * Z) (f0 : msm_hw_fence).
Context (c : Z) (cl : msm_hw_fence_client).
Context (HR : represents d0 D) (Hc : client_at d0 c cl).
Context (Hf0 : fence_at d0 hj f0) (Hfree : valid f0 = 0) (Hhj : 0 <= hj < 2 ^ 32).
Context (Hakey : akey <> (0, 0)) (HDa : D !! akey = None).
Context (Hpar : forall k f, D !! k = Some f -> parents_ok hj f).

Lemma linked_back d j ks x g : linked d0 d hj j ks -> fence_at d x g -> x <> hj ->
  exists f, fence_at d0 x f /\ g = links hj (occ (fence_key f) ks) f.
Proof using HR.
  intros HL [Hx Hg] Hne. pose proof (rp_ok d0 D HR) as Hok.
  destruct (table_fence d0 x Hok) as (f & Hf & _).
  - split; [done|]. apply lookup_lt_Some in Hg. pose proof (tk_len d (lk_ok _ _ _ _ _ HL)) as Hlen.
    rewrite (lk_same _ _ _ _ _ HL) in Hlen at 2. cbn in Hlen. unfold zlen in Hlen. lia.
  - exists f. split; [done|].
    apply (fence_at_fun d x); [done|]. by apply (lk_entry _ _ _ _ _ HL).
Qed.

Lemma linked_wf d j ks : linked d0 d hj j ks -> valid j <> 0 -> fence_key j = akey -> table_wf d.
Proof using HR Hakey HDa.
  intros HL Hjv Hjk.
  assert (Hcase : forall x g, fence_at d x g -> (x = hj /\ g = j) \/
      (exists f, x <> hj /\ fence_at d0 x f /\ fence_key g = fence_key f /\ valid g = valid f)).
  { intros x g Hg. destruct (Z.eq_dec x hj) as [->|Hne].
    - left. split; [done|]. by apply (fence_at_fun d hj); [|apply (lk_join _ _ _ _ _ HL)].
    - right. destruct (linked_back d j ks x g HL Hg Hne) as (f & Hf & ->). exists f.
      destruct (links_keeps hj (occ (fence_key f) ks) f) as (? & ? & _). done. }
  split; [apply HL|..].
  - intros x g Hg Hv. destruct (Hcase x g Hg) as [[-> ->]|(f & _ & Hf & Hk & Hvf)]; [done|].
    rewrite Hk. apply (rp_free d0 D HR x f Hf). congruence.
  - intros x g Hg Hv. destruct (Hcase x g Hg) as [[-> ->]|(f & _ & Hf & Hk & Hvf)]; [congruence|].
    rewrite Hk. apply (rp_used d0 D HR x f Hf). congruence.
  - intros x y g g' Hg Hg' Hv Hv' Heq.
    destruct (Hcase x g Hg) as [[-> ->]|(f & Hx & Hf & Hk & Hvf)];
      destruct (Hcase y g' Hg') as [[-> ->]|(f' & Hy & Hf' & Hk' & Hvf')]; [done|..].
    + destruct (rp_used d0 D HR y f' Hf'); congruence.
    + destruct (rp_used d0 D HR x f Hf); congruence.
    + apply (rp_unique d0 D HR x y f f'); congruence.
Qed.

Lemma same_with_fence d x g : d = d_set_hw_fences_tbl (hw_fences_tbl d) d0 ->
  with_fence x g d = d_set_hw_fences_tbl (hw_fences_tbl (with_fence x g d)) d0.
Proof. intros H. etransitivity; [exact (f_equal (with_fence x g) H)|]. done. Qed.

(** Another number of links to one child. *)
Lemma linked_relink d j ks ks' x f :
  linked d0 d hj j ks -> x <> hj -> fence_at d0 x f -> valid f <> 0 ->
  (forall k, k <> fence_key f -> occ k ks' = occ k ks) ->
  linked d0 (with_fence x (links hj (occ (fence_key f) ks') f) d) hj j ks'.
Proof using HR.
  intros HL Hne Hf Hv Hocc. pose proof (lk_entry _ _ _ _ _ HL x f Hne Hf) as Hx.
  set (g := links hj (occ (fence_key f) ks') f).
  split.
  - apply same_with_fence, HL.
  - apply table_ok_with; [apply HL|apply Hf|]. unfold g.
    destruct (links_keeps hj (occ (fence_key f) ks') f) as (_ & _ & -> & _).
    by apply (lock_at d0 x f); [apply HR|].
  - apply fence_at_other; [apply Hf|congruence|apply HL].
  - intros y f' Hy Hf'. destruct (Z.eq_dec y x) as [->|Hyx].
    + replace f' with f by (by eapply fence_at_fun). by eapply fence_at_with.
    + apply fence_at_other; [apply Hf|done|]. rewrite Hocc; [by apply (lk_entry _ _ _ _ _ HL)|].
      intros Heq. apply Hyx. destruct (Z.eq_dec (valid f') 0) as [Hv'|Hv'].
      * pose proof (rp_free d0 D HR y f' Hf' Hv'). destruct (rp_used d0 D HR x f Hf Hv). congruence.
      * by apply (rp_unique d0 D HR y x f' f).
Qed.

(** Another state of the join fence. *)
Lemma linked_rejoin d j j' ks :
  linked d0 d hj j ks -> lock_free (lock j') -> linked d0 (with_fence hj j' d) hj j' ks.
Proof.
  intros HL Hl. pose proof (lk_join _ _ _ _ _ HL) as Hj. split.
  - apply same_with_fence, HL.
  - apply table_ok_with; [apply HL|apply Hj|done].
  - by eapply fence_at_with.
  - intros y f Hy Hf. apply fence_at_other; [apply Hj|done|]. by apply (lk_entry _ _ _ _ _ HL).
Qed.

Lemma linked_client d j ks : linked d0 d hj j ks -> client_at d c cl.
Proof using Hc. intros HL. rewrite (lk_same _ _ _ _ _ HL). by destruct Hc. Qed.

Lemma linked_dma d j ks p df : linked d0 d hj j ks -> dma_at d0 p df -> dma_at d p df.
Proof. intros HL Hp. rewrite (lk_same _ _ _ _ _ HL). exact Hp. Qed.

(** The search for a child. *)
Lemma find_child d j ks ctx seq :
  linked d0 d hj j ks -> valid j <> 0 -> fence_key j = akey -> (ctx, seq) <> (0, 0) -> (ctx, seq) <> akey ->
  match D !! (ctx, seq) with
  | Some f => exists x, x <> hj /\ fence_at d0 x f /\ valid f <> 0 /\ fence_key f = (ctx, seq) /\
      msm_hw_fence_find (Some c) ctx seq d = Ret (Some x, x) d
  | None => exists hash, msm_hw_fence_find (Some c) ctx seq d = Ret (None, hash) d
  end.
Proof using HR Hc Hf0 Hfree Hakey HDa.
  intros HL Hjv Hjk Hne Hna.
  pose proof (linked_wf d j ks HL Hjv Hjk) as Hwf. pose proof (linked_client d j ks HL) as Hcd.
  destruct (D !! (ctx, seq)) as [f|] eqn:HD.
  - destruct (rp_back d0 D HR _ _ HD) as (x & Hf & Hv & Hk). exists x.
    assert (Hx : x <> hj) by (intros ->; rewrite (fence_at_fun _ _ _ _ Hf Hf0) in Hv; done).
    split; [done|]. split; [done|]. split; [done|]. split; [done|].
    apply (find_at c cl d x _ ctx seq Hwf Hcd (lk_entry _ _ _ _ _ HL x f Hx Hf)); [|done].
    destruct (links_keeps hj (occ (fence_key f) ks) f) as (-> & _). done.
  - apply (find_none c cl); [apply HL|done|]. intros x g Hg Hk.
    destruct (Z.eq_dec x hj) as [->|Hx].
    + rewrite (fence_at_fun _ _ _ _ Hg (lk_join _ _ _ _ _ HL)) in Hk. congruence.
    + destruct (linked_back d j ks x g HL Hg Hx) as (f & Hf & ->).
      destruct (links_keeps hj (occ (fence_key f) ks) f) as (Hk' & _). rewrite Hk' in Hk.
      destruct (Z.eq_dec (valid f) 0) as [Hv|Hv].
      * pose proof (rp_free d0 D HR x f Hf Hv). congruence.
      * destruct (rp_used d0 D HR x f Hf Hv) as [_ Hu]. congruence.
Qed.

(** A child that is signalled, or not, at the front of its critical section. *)
Lemma process_signaled d j ks x f (K : bool -> M (option bool)) :
  linked d0 d hj j ks -> x <> hj -> fence_at d x f -> lock_free (lock j) ->
  (fence_lock x;;
   (fence_lock hj;;
    upd_fence hj (fun j => hf_set_error (Z.lor (error j) (error (locked f))) j);;
    upd_fence hj (fun j => hf_set_pending_child_cnt (pending_child_cnt j - 1) j);;
    j ← get_fence hj;
    fence_unlock hj;;
    fence_unlock x;;
    K (pending_child_cnt j =? 0))) d =
  K (u32 (pending_child_cnt j - 1) =? 0) (with_fence hj (absorb f j) d).
Proof.
  intros HL Hne Hf Hlj. pose proof (lk_join _ _ _ _ _ HL) as Hj.
  assert (Hl : lock_free (lock f)) by (by apply (lock_at d x f); [apply HL|]).
  rewrite (enter _ d x f) by done. set (d1 := with_fence x (locked f) d).
  assert (Hj1 : fence_at d1 hj j) by (apply fence_at_other; [apply Hf|congruence|done]).
  rewrite (enter _ d1 hj j), (upd_in _ d1 hj j), (upd_in _ d1 hj j), (get_in _ d1 hj j) by done.
  rewrite (leave _ d1 hj j); [|done|done|by apply lock_word_u64].
  set (j' := hf_set_lock (lock j) _).
  assert (j' = absorb f j) as -> by (unfold j', absorb; symmetry; etransitivity;
    [symmetry; by apply (fence_lock_word _ (lock j))|done]).
  replace (with_fence hj (absorb f j) d1) with (with_fence x (locked f) (with_fence hj (absorb f j) d)).
  2:{ by apply with_fence_comm. }
  set (d2 := with_fence hj (absorb f j) d).
  assert (Hf2 : fence_at d2 x f) by (apply fence_at_other; [apply Hj|done|done]).
  rewrite (leave _ d2 x f); [|done|done|by apply lock_locked].
  rewrite unlock_locked by done. by rewrite with_fence_id.
Qed.

Lemma process_unsignaled d x f (K : option bool -> M (option bool)) :
  fence_at d x f -> lock_free (lock f) -> 0 <= parents_cnt f <= 2 ->
  (fence_lock x;;
   (upd_fence x (fun f => hf_set_parents_cnt (parents_cnt f + 1) f);;
    f ← get_fence x;
    if (parents_cnt f >=? Z.of_nat MSM_HW_FENCE_MAX_JOIN_PARENTS) || (parents_cnt f <? 1) then
      upd_fence x (fun f => hf_set_parents_cnt (parents_cnt f - 1) f);;
      fence_unlock x;;
      K None
    else
      upd_fence x (fun f => hf_set_parent_list (zupd (parent_list f) (parents_cnt f - 1) hj) f);;
      fence_unlock x;;
      K (Some false))) d =
  if parents_cnt f <? 2 then K (Some false) (with_fence x (link hj f) d) else K None d.
Proof.
  intros Hf Hl Hcnt. rewrite (enter _ d x f), (upd_in _ d x f), (get_in _ d x f) by done.
  set (f1 := hf_set_parents_cnt _ _). change (parents_cnt f1) with (u32 (parents_cnt f + 1)).
  rewrite u32_small by lia. change (Z.of_nat MSM_HW_FENCE_MAX_JOIN_PARENTS) with 3.
  destruct (Z.ltb_spec (parents_cnt f) 2), (Z.geb_spec (parents_cnt f + 1) 3),
    (Z.ltb_spec (parents_cnt f + 1) 1); try lia; cbn [orb].
  all: assert (Hc1 : parents_cnt f1 - 1 = parents_cnt f)
    by (change (parents_cnt f1) with (u32 (parents_cnt f + 1)); rewrite u32_small; lia).
  - rewrite (upd_in _ d x f) by done. rewrite (leave _ d x f); [|done|done|by apply lock_word_u64].
    f_equal. f_equal. symmetry. etransitivity; [symmetry; by apply (fence_lock_word _ (lock f))|].
    by rewrite Hc1.
  - rewrite (upd_in _ d x f) by done. rewrite (leave _ d x f); [|done|done|by apply lock_word_u64].
    rewrite <- (with_fence_id d x f Hf) at 2. f_equal. f_equal.
    rewrite Hc1. unfold f1, locked, hf_set_parents_cnt, hf_set_lock. cbn.
    rewrite (u32_small (parents_cnt f)), (u64_small (lock f)) by (lia || apply Hl). by destruct f.
Qed.

(** One child: refused, counted off, or linked. *)
Lemma process_child_spec d j ks p df :
  linked d0 d hj j ks -> valid j <> 0 -> fence_key j = akey -> lock_free (lock j) ->
  dma_at d0 p df -> dma_key df <> (0, 0) -> dma_key df <> akey ->
  (forall k f, D !! k = Some f -> occ k ks = O \/ parents_cnt f + Z.of_nat (occ k ks) <= 2) ->
  match child_fence D df with
  | None => process_child c hj hj (Some p) d = Ret None d
  | Some f => fence_key f = dma_key df /\ D !! dma_key df = Some f /\
      if signaled f then exists d',
        process_child c hj hj (Some p) d = Ret (Some (u32 (pending_child_cnt j - 1) =? 0)) d' /\
        linked d0 d' hj (absorb f j) ks
      else if parents_cnt f + Z.of_nat (occ (fence_key f) ks) <? 2 then exists d',
        process_child c hj hj (Some p) d = Ret (Some false) d' /\
        linked d0 d' hj j (ks ++ [fence_key f])
      else process_child c hj hj (Some p) d = Ret None d
  end.
Proof using HR Hc Hf0 Hfree Hakey HDa Hpar.
  intros HL Hjv Hjk Hlj Hp Hne Hna Hks. unfold process_child, child_fence.
  rewrite bind_deref. rewrite (bind_ret _ _ _ _ _ (get_dma_ret d p df (linked_dma _ _ _ _ _ HL Hp))).
  destruct (bool_decide (is_Some (df_array df))); [done|]. cbn [orb].
  destruct (negb (test_bit _ _)); [done|].
  pose proof (find_child d j ks (df_context df) (df_seqno df) HL Hjv Hjk Hne Hna) as Hfind.
  change (df_context df, df_seqno df) with (dma_key df) in Hfind.
  destruct (D !! dma_key df) as [f|] eqn:HD.
  2:{ destruct Hfind as (hash & Hr). by rewrite (bind_ret _ _ _ _ _ Hr). }
  destruct Hfind as (x & Hx & Hf & Hv & Hk & Hr). split; [done|]. split; [done|].
  rewrite (bind_ret _ _ _ _ _ Hr). cbv iota beta.
  pose proof (lk_entry _ _ _ _ _ HL x f Hx Hf) as Hg. set (g := links hj (occ (fence_key f) ks) f) in *.
  destruct (links_keeps hj (occ (fence_key f) ks) f) as (_ & _ & Hgl & Hgf & Hge). fold g in Hgl, Hgf, Hge.
  assert (Hl : lock_free (lock g)) by (by apply (lock_at d x g); [apply HL|]).
  pose proof (po_cnt _ _ (Hpar _ _ HD)) as Hcnt. pose proof (Hks _ _ HD) as Hb. rewrite <- Hk in Hb.
  assert (Hgc : parents_cnt g = parents_cnt f + Z.of_nat (occ (fence_key f) ks))
    by (apply links_cnt; lia).
  destruct (signaled f) eqn:Hs.
  - exists (with_fence hj (absorb f j) d). split; [|by apply (linked_rejoin d j)].
    pose proof (process_signaled d j ks x g (fun b => mret (Some b)) HL Hx Hg Hlj) as H.
    unfold absorb in *. rewrite Hge in H. etransitivity; [|exact H].
    rewrite (bind_ret _ _ _ _ _ (fence_lock_ret d x g Hg Hl)).
    rewrite (bind_ret _ _ _ _ _ (fence_lock_ret d x g Hg Hl)).
    rewrite (get_in _ d x g) by done.
    change (flags (hf_set_lock (Z.lor (lock g) 1) g)) with (flags g).
    unfold signaled in Hs. by rewrite Hgf, Hs.
  - pose proof (process_unsignaled d x g mret Hg Hl ltac:(lia)) as H.
    rewrite (enter _ d x g Hg Hl) in H. rewrite (enter _ d x g Hg Hl), (get_in _ d x g (locked g) Hg).
    change (flags (locked g)) with (flags g).
    unfold signaled in Hs. rewrite Hgf, Hs, <- Hgc. destruct (parents_cnt g <? 2); [|exact H].
    exists (with_fence x (link hj g) d). split; [exact H|].
    assert (Hn : S (occ (fence_key f) ks) = occ (fence_key f) (ks ++ [fence_key f])).
    { rewrite occ_app, occ_one. destruct (decide _); [lia|done]. }
    unfold g. rewrite <- links_S, Hn. apply (linked_relink d j ks); try done.
    intros k Hne'. rewrite occ_app, occ_one. destruct (decide (k = fence_key f)); [done|lia].
Qed.

(** The links stay within what a child can hold. *)
Definition bounded (ks : list (Z * Z)) : Prop := forall k f, D !! k = Some f ->
  occ k ks = O \/ parents_cnt f + Z.of_nat (occ k ks) <= 2.

Lemma bounded_snoc ks f : bounded ks -> D !! fence_key f = Some f ->
  parents_cnt f + Z.of_nat (occ (fence_key f) ks) < 2 -> bounded (ks ++ [fence_key f]).
Proof.
  intros Hb HD Hlt k f' Hf'. rewrite occ_app, occ_one. destruct (decide (k = fence_key f)) as [->|Hne].
  - right. replace f' with f by congruence. lia.
  - rewrite Nat.add_0_r. by apply Hb.
Qed.

Lemma plan_prefix ks dfs ks' : plan D ks dfs = Some ks' -> exists l, ks' = ks ++ l.
Proof.
  revert ks. induction dfs as [|df dfs IH]; intros ks H; cbn [plan] in H.
  - injection H as <-. exists []. by rewrite app_nil_r.
  - destruct (child_fence D df) as [f|]; [|done]. destruct (signaled f); [by apply IH|].
    destruct (_ <? 2); [|done]. apply IH in H as (l & ->). exists (fence_key f :: l).
    by rewrite <- app_assoc.
Qed.

(** The join fence when all the signalled children are counted off. *)
Definition joined (j : msm_hw_fence) (dfs : list dma_fence) : msm_hw_fence :=
  foldl (fun j df => match D !! dma_key df with
                     | Some f => if signaled f then absorb f j else j
                     | None => j
                     end) j dfs.

(** What the loop keeps of the join fence. *)
Record join_ok (j : msm_hw_fence) : Prop := mk_join_ok {
  jo_valid : valid j <> 0;
  jo_key : fence_key j = akey;
  jo_lock : lock_free (lock j)
}.

Lemma join_ok_absorb f j : join_ok j -> join_ok (absorb f j).
Proof. by intros []. Qed.

(** The children of the array: dma-fences with keys of their own. *)
Definition children_ok (ps : list Z) (dfs : list dma_fence) : Prop :=
  Forall2 (fun p df => dma_at d0 p df /\ dma_key df <> (0, 0) /\ dma_key df <> akey) ps dfs.

(** The count of pending children becomes zero at the last child, when no link was made. *)
Lemma signal_last n (ks ks' : list (Z * Z)) : (n = O -> ks' = ks) -> (exists l, ks' = ks ++ l) ->
  (Z.of_nat n + Z.of_nat (length ks) =? 0) || (bool_decide (ks' = []) && (0 <? Z.of_nat n)) =
  bool_decide (ks' = []) && (0 <? Z.of_nat (S n)).
Proof.
  intros H0 [l Hl]. replace (0 <? Z.of_nat (S n)) with true by (symmetry; apply Z.ltb_lt; lia).
  rewrite andb_true_r. destruct n as [|n].
  - rewrite (H0 eq_refl) in *. change (0 <? Z.of_nat 0) with false. rewrite andb_false_r, orb_false_r.
    destruct ks; [by rewrite bool_decide_true by done|]. rewrite bool_decide_false by done.
    apply Z.eqb_neq. cbn [length]. lia.
  - replace (0 <? Z.of_nat (S n)) with true by (symmetry; apply Z.ltb_lt; lia). rewrite andb_true_r.
    destruct (Z.eqb_spec (Z.of_nat (S n) + Z.of_nat (length ks)) 0); [lia|done].
Qed.

Lemma process_children_plan ps dfs : children_ok ps dfs -> forall n i d j ks sig,
  (i + n = length ps)%nat -> linked d0 d hj j ks -> join_ok j -> bounded ks ->
  pending_child_cnt j = Z.of_nat n + Z.of_nat (length ks) -> pending_child_cnt j < 2 ^ 32 ->
  match plan D ks (drop i dfs) with
  | None => exists i' d' j' ks', (i <= i' < i + n)%nat /\
      process_children n i c hj hj (Some (map Some ps)) sig d = Ret (inl i') d' /\
      linked d0 d' hj j' ks' /\ join_ok j' /\ bounded ks' /\
      forall k, k ∈ ks' -> k ∈ ks \/ exists m df, (m < i')%nat /\ dfs !! m = Some df /\ dma_key df = k
  | Some ks' => exists d', let j' := joined j (drop i dfs) in
      process_children n i c hj hj (Some (map Some ps)) sig d =
        Ret (inr (sig || (bool_decide (ks' = []) && (0 <? Z.of_nat n)))) d' /\
      linked d0 d' hj j' ks' /\ join_ok j' /\ pending_child_cnt j' = Z.of_nat (length ks')
  end.
Proof using HR Hc Hf0 Hfree Hakey HDa Hpar.
  intros Hch n. induction n as [|n IH]; intros i d j ks sig Hi HL Hj Hb Hp Hp32.
  { pose proof (Forall2_length _ _ _ Hch). rewrite drop_ge by lia. cbn [plan].
    exists d. cbn zeta. change (0 <? Z.of_nat 0) with false. rewrite andb_false_r, orb_false_r.
    split; [done|]. split; [done|]. split; [done|]. unfold joined. cbn [foldl]. lia. }
  pose proof (Forall2_length _ _ _ Hch) as Hlen.
  destruct (lookup_lt_is_Some_2 ps i) as [p Hpi]; [lia|].
  destruct (Forall2_lookup_l _ _ _ _ _ Hch Hpi) as (df & Hdi & Hdma & Hne & Hna).
  rewrite (drop_S dfs df i Hdi). cbn [plan process_children].
  pose proof (process_child_spec d j ks p df HL (jo_valid _ Hj) (jo_key _ Hj) (jo_lock _ Hj) Hdma Hne Hna Hb) as H.
  assert (Hrun : forall r s, process_child c hj hj (Some p) d = Ret r s ->
     (l ← deref (Some (map Some ps)); child ← deref (l !! i); r ← process_child c hj hj child;
      match r with None => mret (inl i) | Some zero =>
        process_children n (S i) c hj hj (Some (map Some ps)) (sig || zero) end) d =
     match r with None => Ret (inl i) s | Some zero =>
        process_children n (S i) c hj hj (Some (map Some ps)) (sig || zero) s end).
  { intros r s Hr. rewrite bind_deref, list_lookup_fmap, Hpi. cbn [fmap option_fmap option_map].
    rewrite bind_deref, (bind_ret _ _ _ _ _ Hr). by destruct r. }
  destruct (child_fence D df) as [f|].
  2:{ exists i, d, j, ks. rewrite (Hrun _ _ H). split; [lia|]. split; [done|]. auto 6. }
  destruct H as (Hk & HD & H). rewrite <- Hk in HD. unfold joined. cbn [foldl]. rewrite <- Hk, HD.
  fold (joined (if signaled f then absorb f j else j) (drop (S i) dfs)).
  destruct (signaled f) eqn:Hs.
  - destruct H as (d' & Hr & HL').
    assert (Hp' : pending_child_cnt (absorb f j) = Z.of_nat n + Z.of_nat (length ks))
      by (cbn; rewrite u32_small; lia).
    pose proof (IH (S i) d' (absorb f j) ks (sig || (u32 (pending_child_cnt j - 1) =? 0)) ltac:(lia) HL'
                  (join_ok_absorb f j Hj) Hb Hp' ltac:(lia)) as HIH.
    destruct (plan D ks (drop (S i) dfs)) as [ks'|] eqn:Hplan.
    + destruct HIH as (d'' & Hr' & HIH). exists d''. cbn zeta. split; [|exact HIH].
      rewrite (Hrun _ _ Hr), Hr'. f_equal. f_equal. destruct (plan_prefix _ _ _ Hplan) as (l & Hl).
      rewrite u32_small by lia. rewrite <- orb_assoc. f_equal.
      replace (pending_child_cnt j - 1) with (Z.of_nat n + Z.of_nat (length ks)) by lia.
      apply signal_last; [|by exists l]. intros ->.
      rewrite drop_ge in Hplan by lia. by injection Hplan.
    + destruct HIH as (i' & d'' & j' & ks' & Hi' & Hr' & HIH). exists i', d'', j', ks'.
      split; [lia|]. split; [|exact HIH]. by rewrite (Hrun _ _ Hr).
  - destruct (Z.ltb_spec (parents_cnt f + Z.of_nat (occ (fence_key f) ks)) 2) as [Hlt|Hge].
    2:{ exists i, d, j, ks. rewrite (Hrun _ _ H). split; [lia|]. split; [done|]. auto 6. }
    destruct H as (d' & Hr & HL').
    pose proof (IH (S i) d' j (ks ++ [fence_key f]) (sig || false) ltac:(lia) HL' Hj
      (bounded_snoc ks f Hb HD Hlt) ltac:(rewrite length_app; cbn [length]; lia) Hp32) as HIH.
    destruct (plan D (ks ++ [fence_key f]) (drop (S i) dfs)) as [ks'|] eqn:Hplan.
    + destruct HIH as (d'' & Hr' & HIH). exists d''. cbn zeta. split; [|exact HIH].
      rewrite (Hrun _ _ Hr), Hr'. f_equal. f_equal. apply plan_prefix in Hplan as (l & ->).
      rewrite orb_false_r, bool_decide_false by (destruct ks; done). done.
    + destruct HIH as (i' & d'' & j' & ks' & Hi' & Hr' & HL'' & Hj' & Hb' & Hin). exists i', d'', j', ks'.
      split; [lia|]. split; [by rewrite (Hrun _ _ Hr)|]. do 3 (split; [done|]).
      intros k Hk'. destruct (Hin k Hk') as [Hin'|?]; [|by right].
      apply elem_of_app in Hin' as [?|Hone]; [by left|right]. apply list_elem_of_singleton in Hone as ->.
      exists i, df. split; [lia|]. by split.
Qed.

(** ** Taking the links back *)

Lemma linked_ext d j ks ks' : linked d0 d hj j ks ->
  (forall x f, x <> hj -> fence_at d0 x f -> occ (fence_key f) ks' = occ (fence_key f) ks) ->
  linked d0 d hj j ks'.
Proof.
  intros [Hs Ho Hj He] H. split; try done. intros x f Hx Hf. rewrite (H x f Hx Hf). by apply He.
Qed.

Lemma bounded_drop k ks : bounded ks -> bounded (drop_key k ks).
Proof.
  intros Hb k' f Hf. rewrite occ_drop. destruct (decide (k' = k)); [by left|by apply Hb].
Qed.

Lemma cleanup_child_spec d j ks ps idx p df :
  linked d0 d hj j ks -> join_ok j -> bounded ks -> ps !! idx = Some p ->
  dma_at d0 p df -> dma_key df <> (0, 0) -> dma_key df <> akey ->
  exists d', cleanup_child c hj (map Some ps) idx d = Ret tt d' /\
    linked d0 d' hj j (drop_key (dma_key df) ks).
Proof using HR Hc Hf0 Hfree Hakey HDa Hpar.
  intros HL [Hjv Hjk Hjl] Hb Hi Hp Hne Hna. unfold cleanup_child.
  rewrite list_lookup_fmap, Hi. cbn [fmap option_fmap option_map]. rewrite bind_deref.
  rewrite (bind_ret _ _ _ _ _ (get_dma_ret d p df (linked_dma _ _ _ _ _ HL Hp))).
  pose proof (find_child d j ks (df_context df) (df_seqno df) HL Hjv Hjk Hne Hna) as Hfind.
  change (df_context df, df_seqno df) with (dma_key df) in Hfind.
  destruct (D !! dma_key df) as [f|] eqn:HD.
  - destruct Hfind as (x & Hx & Hf & Hv & Hk & Hr). rewrite (bind_ret _ _ _ _ _ Hr). cbv iota beta.
    pose proof (lk_entry _ _ _ _ _ HL x f Hx Hf) as Hg. set (g := links hj (occ (fence_key f) ks) f) in *.
    assert (Hl : lock_free (lock g)) by (by apply (lock_at d x g); [apply HL|]).
    rewrite (section_last d x g); [|done|done| |apply lock_remove_parents].
    2:{ intros w y. change (first_parent (hf_set_lock w y)) with (first_parent y).
        apply remove_parents_lock. }
    eexists. split; [done|]. rewrite <- Hk in *. unfold g. rewrite unlink; [|by apply (Hpar _ _ HD)|by apply Hb].
    pose proof (linked_relink d j ks (drop_key (fence_key f) ks) x f HL Hx Hf Hv) as Hre.
    rewrite occ_drop, decide_True in Hre by done. apply Hre.
    intros k Hne'. rewrite occ_drop. by rewrite decide_False.
  - destruct Hfind as (hash & Hr). rewrite (bind_ret _ _ _ _ _ Hr). exists d. split; [done|].
    apply (linked_ext d j ks); [done|]. intros x f Hx Hf. rewrite occ_drop.
    destruct (decide (fence_key f = dma_key df)) as [Heq|]; [|done].
    destruct (Z.eq_dec (valid f) 0) as [Hv|Hv].
    + pose proof (rp_free d0 D HR x f Hf Hv). congruence.
    + destruct (rp_used d0 D HR x f Hf Hv). congruence.
Qed.

Lemma cleanup_loop j ps dfs : children_ok ps dfs -> join_ok j -> forall n d ks,
  (n <= length ps)%nat -> linked d0 d hj j ks -> bounded ks ->
  exists d' ks', for_each (rev (seq 0 n)) (cleanup_child c hj (map Some ps)) d = Ret tt d' /\
    linked d0 d' hj j ks' /\
    forall k, k ∈ ks' -> k ∈ ks /\ forall m df, (m < n)%nat -> dfs !! m = Some df -> dma_key df <> k.
Proof using HR Hc Hf0 Hfree Hakey HDa Hpar.
  intros Hch Hj n. induction n as [|n IH]; intros d ks Hn HL Hb.
  { exists d, ks. split; [done|]. split; [done|]. intros k Hk. split; [done|]. lia. }
  rewrite seq_S, rev_app_distr. cbn [rev app for_each].
  destruct (lookup_lt_is_Some_2 ps n) as [p Hp]; [lia|].
  destruct (Forall2_lookup_l _ _ _ _ _ Hch Hp) as (df & Hdf & Hdma & Hne & Hna).
  destruct (cleanup_child_spec d j ks ps n p df HL Hj Hb Hp Hdma Hne Hna) as (d1 & Hr & HL1).
  rewrite Nat.add_0_l, (bind_ret _ _ _ _ _ Hr).
  destruct (IH d1 (drop_key (dma_key df) ks) ltac:(lia) HL1 (bounded_drop _ _ Hb))
    as (d' & ks' & Hr' & HL' & Hks'). exists d', ks'. split; [done|]. split; [done|].
  intros k Hk. destruct (Hks' k Hk) as [Hin Hm]. unfold drop_key in Hin.
  apply list_elem_of_filter in Hin as [Hkne Hin]. split; [done|].
  intros m df' Hmn Hdf'. destruct (Nat.eq_dec m n) as [->|]; [congruence|]. apply (Hm m); [lia|done].
Qed.

(** ** The table as a dictionary again *)

(** The dictionary with the links made. *)
Definition link_all (ks : list (Z * Z)) : gmap (Z * Z) msm_hw_fence :=
  (fun f => links hj (occ (fence_key f) ks) f) <$> D.

Lemma linked_represents d j ks : linked d0 d hj j ks -> join_ok j ->
  represents d (<[akey := j]> (link_all ks)).
Proof using HR Hf0 Hfree Hakey HDa.
  intros HL [Hjv Hjk Hjl]. apply represents_intro; [by apply (linked_wf d j ks)|].
  intros k g. rewrite lookup_insert_Some. unfold link_all. rewrite lookup_fmap, fmap_Some. split.
  - intros [[<- <-]|(Hne & f & Hf & ->)].
    + exists hj. split; [apply HL|]. by split.
    + destruct (rp_back d0 D HR k f Hf) as (x & Hx & Hv & Hk). exists x.
      assert (Hxj : x <> hj) by (intros ->; rewrite (fence_at_fun _ _ _ _ Hx Hf0) in Hv; done).
      destruct (links_keeps hj (occ (fence_key f) ks) f) as (Hk' & Hv' & _).
      split; [by apply (lk_entry _ _ _ _ _ HL)|]. rewrite Hk', Hv'. by split.
  - intros (x & Hx & Hv & Hk). destruct (Z.eq_dec x hj) as [->|Hxj].
    + left. pose proof (fence_at_fun _ _ _ _ Hx (lk_join _ _ _ _ _ HL)) as ->. split; congruence.
    + right. destruct (linked_back d j ks x g HL Hx Hxj) as (f & Hf & ->).
      destruct (links_keeps hj (occ (fence_key f) ks) f) as (Hk' & Hv' & _).
      rewrite Hk' in Hk. rewrite Hv' in Hv. destruct (rp_used d0 D HR x f Hf Hv) as [_ HD].
      rewrite Hk in HD. split; [congruence|]. by exists f.
Qed.

Lemma link_all_nil : link_all [] = D.
Proof. unfold link_all. apply map_eq. intros k. rewrite lookup_fmap. by destruct (D !! k). Qed.

(** The clean-up leaves the dictionary that was there before. *)
Lemma cleanup_ret d j ks ps dfs p adf i num :
  linked d0 d hj j ks -> join_ok j -> bounded ks -> children_ok ps dfs -> (i < length ps)%nat ->
  (forall k, k ∈ ks -> exists m df, (m < S i)%nat /\ dfs !! m = Some df /\ dma_key df = k) ->
  dma_at d0 p adf -> dma_key adf = akey -> df_array adf = Some (num, Some (map Some ps)) ->
  exists d', _cleanup_join_and_child_fences c i p hj d = Ret tt d' /\ represents d' D /\
    d' = d_set_hw_fences_tbl (hw_fences_tbl d') d0.
Proof using HR Hc Hf0 Hfree Hakey HDa Hpar.
  intros HL Hj Hb Hch Hi Hks Hp Hk Ha. unfold _cleanup_join_and_child_fences.
  rewrite (bind_ret _ _ _ _ _ (get_dma_ret d p adf (linked_dma _ _ _ _ _ HL Hp))), Ha, bind_deref.
  cbv iota beta.
  destruct (cleanup_loop j ps dfs Hch Hj (S i) d ks ltac:(lia) HL Hb) as (d1 & ks1 & Hr & HL1 & Hks1).
  rewrite (bind_ret _ _ _ _ _ Hr).
  assert (ks1 = []) as ->.
  { destruct ks1 as [|k ks1]; [done|]. destruct (Hks1 k (list_elem_of_here _ _)) as [Hin Hm].
    destruct (Hks k Hin) as (m & df & Hlt & Hdf & Hkey). by destruct (Hm m df Hlt Hdf). }
  pose proof (linked_represents d1 j [] HL1 Hj) as HR1. rewrite link_all_nil in HR1.
  pose proof (match_key HW_FENCE_LOOKUP_OP_DESTROY d1 _ (df_context adf) (df_seqno adf)
    HW_FENCE_JOIN_FENCE_CLIENT_ID 0 HR1 eq_refl) as Hm.
  change (df_context adf, df_seqno adf) with (dma_key adf) in Hm. rewrite Hk in Hm.
  specialize (Hm Hakey). rewrite lookup_insert_eq in Hm. destruct Hm as (x & Hx & Hrun).
  destruct Hj as [Hjv Hjk Hjl].
  assert (x = hj) as -> by (exact (rp_unique _ _ HR1 x hj j j Hx (lk_join _ _ _ _ _ HL1) Hjv Hjv eq_refl)).
  eexists. split.
  { unfold _hw_fence_process_join_fence, _hw_fence_cleanup, mbind, run_bind. by rewrite Hrun. }
  cbn [processed]. split; [|by apply same_with_fence, HL1].
  pose proof (represents_delete d1 _ hj j (hf_set_valid 0 (_cleanup_hw_fence j)) HR1 Hx Hjv eq_refl
    Hjl eq_refl) as Hdel.
  rewrite Hjk, delete_insert_id in Hdel by done. exact Hdel.
Qed.

End join.
