(* ===== verification/HwFenceArray.v ===== *)
(** * Fence arrays: all or nothing

    The properties of [hw_fence_process_fence_array], from the lemmas of
    [HwFenceWait]: an array with a child that cannot be joined leaves the
    dictionary as it was, an array whose children can all be joined adds one
    join fence and one link per child that is still pending. *)

From stdpp Require Import gmap.
From S2P Require Import Prelude Outcome HwFenceDrv HwFenceQueue HwFenceRing HwFenceTable HwFenceDict HwFenceJoin HwFenceWait.

Section arrays.
Context `{E : HwFenceEnv}.

(** The dma-fence [p] is an array with key [akey] whose fences are [ps], each of
    them a dma-fence [dfs] with a key of its own. *)
Record array_at (d : drv) (p : Z) (akey : Z * Z) (ps : list Z) (dfs : list dma_fence) : Prop := mk_array_at {
  aa_dma : exists adf, dma_at d p adf /\ dma_key adf = akey /\
    df_array adf = Some (Z.of_nat (length ps), Some (map Some ps));
  aa_key : akey <> (0, 0);
  aa_u64 : is_u64 akey.1 /\ is_u64 akey.2;
  aa_small : Z.of_nat (length ps) < 2 ^ 31;
  aa_children : children_ok d akey ps dfs
}.

(** No live fence has a free entry for a parent. *)
Definition parents_live (d : drv) (D : gmap (Z * Z) msm_hw_fence) : Prop :=
  forall k f h f0, D !! k = Some f -> fence_at d h f0 -> valid f0 = 0 -> parents_ok h f.

(** The join fence as it is created, and with its first waiting client. *)
Definition new_join (f0 : msm_hw_fence) (cl : msm_hw_fence_client) (akey : Z * Z) (t : Z) (n : nat) :
    msm_hw_fence :=
  let j := reserved f0 HW_FENCE_JOIN_FENCE_CLIENT_ID akey.1 akey.2 t (Z.of_nat n) in
  hf_set_wait_client_mask (Z.lor (wait_client_mask j) (BIT (client_id cl))) j.

Lemma new_join_ok f0 cl akey t n : lock_free (lock f0) -> is_u64 akey.1 -> is_u64 akey.2 ->
  join_ok akey (new_join f0 cl akey t n).
Proof.
  intros Hl H1 H2. split; [done| |done]. unfold fence_key, new_join, reserved. cbn.
  rewrite !u64_small by done. by destruct akey.
Qed.

Lemma array_linked d0 D h f0 cl akey t n :
  represents d0 D -> fence_at d0 h f0 -> lock_free (lock f0) ->
  linked d0 (with_fence h (new_join f0 cl akey t n) d0) h (new_join f0 cl akey t n) [].
Proof.
  intros HR Hf Hl. split.
  - by destruct d0.
  - apply table_ok_with; [apply HR|apply Hf|done].
  - by eapply fence_at_with.
  - intros x f Hx Hf'. apply fence_at_other; [apply Hf|done|done].
Qed.

(** After an array was accepted for joining, the table differs from [d] by the
    new join fence only; the loop over the children starts there. *)
Lemma array_start c cl p d D akey ps dfs hash cd :
  represents d D -> client_at d c cl -> data_allowed cl cd ->
  array_at d p akey ps dfs -> D !! akey = None ->
  let d0 := d_set_clock (S (clock d)) d in
  (exists h f0 d1, let j := new_join f0 cl akey (now d) (length ps) in
    fence_at d h f0 /\ valid f0 = 0 /\ 0 <= h < 2 ^ 32 /\ linked d0 d1 h j [] /\ join_ok akey j /\
    pending_child_cnt j = Z.of_nat (length ps) /\
    hw_fence_process_fence_array c p hash cd d =
    (res ← process_children (length ps) 0 c h h (Some (map Some ps)) false;
     match res : nat + bool with
     | inl i => _cleanup_join_and_child_fences c i p h;; mret (- EINVAL, h)
     | inr sig =>
         when (truthy cd)
           (upd_fence h (fun j => hf_set_client_data (zupd (client_data j)
              (hw_fence_get_client_data_id (client_id_ext cl)) cd) j));;
         if sig then
           j ← get_fence h;
           _fence_ctl_signal c h h 0 cd (error j);;
           set_bit MSM_HW_FENCE_FLAG_SIGNALED_BIT p;;
           _hw_fence_process_join_fence akey.1 akey.2 (Z.of_nat (length ps)) h false;;
           mret (0, h)
         else if Z.of_nat (length ps) =? 0 then
           _cleanup_join_and_child_fences c 0 p h;; mret (- EINVAL, h)
         else mret (0, h)
     end) d1) \/
  ((forall h f, fence_at d h f -> valid f <> 0) /\
   exists hash', hw_fence_process_fence_array c p hash cd d = Ret (- EINVAL, hash') d).
Proof.
  intros HR Hc Hcd Ha HDa d0. destruct (aa_dma _ _ _ _ _ Ha) as (adf & Hp & Hk & Harr).
  destruct (aa_u64 _ _ _ _ _ Ha) as [Hu1 Hu2]. pose proof (aa_small _ _ _ _ _ Ha) as Hsm.
  set (n := Z.of_nat (length ps)) in *.
  assert (Hsplit : akey = (df_context adf, df_seqno adf)) by done.
  destruct (create_absent HW_FENCE_LOOKUP_OP_CREATE_JOIN d D akey.1 akey.2
    HW_FENCE_JOIN_FENCE_CLIENT_ID (u32 n) HR eq_refl Hu1 Hu2) as
    [(h & f0 & f' & d' & Hf & Hv & Hf' & Hd' & Hr & HR')|(Hfull & hash' & Hr)].
  { rewrite <- surjective_pairing. apply Ha. }
  { by rewrite <- surjective_pairing. }
  - left. rewrite decide_False, u32_small in Hf' by (done || lia).
    exists h, f0, (with_fence h (new_join f0 cl akey (now d) (length ps)) d0). cbv zeta.
    assert (Hlf : lock_free (lock f0)) by (by apply (lock_at d h f0); [apply HR|]).
    assert (Hh : 0 <= h < 2 ^ 32).
    { split; [apply Hf|]. destruct Hf as [Hh Hl]. apply lookup_lt_Some in Hl.
      destruct (rp_ok d D HR) as [Hlen Hb _]. unfold zlen in Hlen. lia. }
    assert (Hf0 : fence_at d0 h f0) by exact Hf. fold d0 in Hd'.
    split; [done|]. split; [done|]. split; [done|].
    split; [by apply (array_linked d0 D); [apply (represents_tick HW_FENCE_LOOKUP_OP_CREATE d D)| |]|]. split; [by apply new_join_ok|].
    split; [by apply u32_small; lia|].
    unfold hw_fence_process_fence_array.
    rewrite (bind_ret _ _ _ _ _ (get_client_ret _ _ _ Hc)). cbv zeta. rewrite data_check by done.
    rewrite (bind_ret _ _ _ _ _ (get_dma_ret _ _ _ Hp)), Harr, bind_deref. cbv iota beta.
    unfold _hw_fence_process_join_fence at 1. rewrite Hsplit in Hr. cbn [fst snd] in Hr.
    fold n in Hr. rewrite (bind_ret _ _ _ _ _ Hr). cbv iota beta. rewrite Hd'.
    rewrite (section_ret _ (with_fence h f' d0) h f'); [|by eapply fence_at_with|by rewrite Hf'|done|done].
    rewrite with_fence_twice, Hf', Hsplit. cbn [fst snd]. unfold n. rewrite Nat2Z.id. done.
  - right. split; [done|]. exists hash'. unfold hw_fence_process_fence_array.
    rewrite (bind_ret _ _ _ _ _ (get_client_ret _ _ _ Hc)). cbv zeta. rewrite data_check by done.
    rewrite (bind_ret _ _ _ _ _ (get_dma_ret _ _ _ Hp)), Harr, bind_deref. cbv iota beta.
    unfold _hw_fence_process_join_fence. rewrite Hsplit in Hr. cbn [fst snd] in Hr.
    by rewrite (bind_ret _ _ _ _ _ Hr).
Qed.

(** Only the table and the clock changed. *)
Definition same_but_table (d d' : drv) : Prop :=
  d' = d_set_hw_fences_tbl (hw_fences_tbl d') (d_set_clock (clock d') d).

Lemma same_but_table_refl d : same_but_table d d.
Proof. by destruct d. Qed.

Lemma same_but_table_tick d d1 n :
  d1 = d_set_hw_fences_tbl (hw_fences_tbl d1) (d_set_clock n d) -> same_but_table d d1.
Proof.
  intros H. unfold same_but_table. assert (Hn : clock d1 = n) by (by rewrite H). by rewrite Hn.
Qed.

Lemma same_but_table_linked d d1 h j ks :
  linked (d_set_clock (S (clock d)) d) d1 h j ks -> same_but_table d d1.
Proof. intros HL. apply (same_but_table_tick d d1 _ (lk_same _ _ _ _ _ HL)). Qed.

(** C19: a fence array is refused as a whole.  When the plan fails at some child
    (an array itself, not a hardware fence, not in the table, or with no room
    for another parent), the result is [-EINVAL] and the table holds the same
    dictionary as before: the join fence is gone and so is every link that the
    children before had been given.  Nothing but the table and the clock
    changed. *)
Theorem fence_array_refused c cl p d D akey ps dfs hash cd :
  represents d D -> client_at d c cl -> data_allowed cl cd ->
  array_at d p akey ps dfs -> D !! akey = None -> parents_live d D ->
  plan D [] dfs = None ->
  exists hash' d', hw_fence_process_fence_array c p hash cd d = Ret (- EINVAL, hash') d' /\
    represents d' D /\ same_but_table d d'.
Proof.
  intros HR Hc Hcd Ha HDa Hlive Hplan.
  destruct (array_start c cl p d D akey ps dfs hash cd HR Hc Hcd Ha HDa)
    as [(h & f0 & d1 & Hf0 & Hv & Hh & HL & Hj & Hpend & Hrun)|(_ & hash' & Hr)].
  2:{ exists hash', d. split; [done|]. split; [done|]. apply same_but_table_refl. }
  set (d0 := d_set_clock (S (clock d)) d) in *.
  assert (HR0 : represents d0 D) by (by apply (represents_tick HW_FENCE_LOOKUP_OP_CREATE)).
  assert (Hc0 : client_at d0 c cl) by (by destruct Hc).
  assert (Hpar : forall k f, D !! k = Some f -> parents_ok h f)
    by (intros k f Hf; by apply (Hlive k f h f0)).
  pose proof (aa_children _ _ _ _ _ Ha) as Hch. pose proof (aa_small _ _ _ _ _ Ha) as Hsm.
  pose proof (process_children_plan d0 D h akey f0 c cl HR0 Hc0 Hf0 Hv (aa_key _ _ _ _ _ Ha) HDa Hpar
    ps dfs Hch (length ps) 0 d1 _ [] false eq_refl HL Hj ltac:(by left)
    ltac:(rewrite Hpend; cbn; lia) ltac:(rewrite Hpend; lia)) as H.
  rewrite drop_0, Hplan in H.
  destruct H as (i & d2 & j' & ks' & Hi & Hr & HL' & Hj' & Hb' & Hks').
  destruct (aa_dma _ _ _ _ _ Ha) as (adf & Hp & Hk & Harr).
  destruct (cleanup_ret d0 D h akey f0 c cl HR0 Hc0 Hf0 Hv (aa_key _ _ _ _ _ Ha) HDa Hpar
    d2 j' ks' ps dfs p adf i (Z.of_nat (length ps)) HL' Hj' Hb' Hch ltac:(lia)) as (d3 & Hr3 & HR3 & Hs3); try done.
  { intros k Hk'. destruct (Hks' k Hk') as [Hx|(m & df & Hm & Hdf & Hkey)]; [by apply elem_of_nil in Hx|].
    exists m, df. split; [lia|done]. }
  exists h, d3. split; [|split; [done|]].
  - rewrite Hrun, (bind_ret _ _ _ _ _ Hr). by rewrite (bind_ret _ _ _ _ _ Hr3).
  - by apply (same_but_table_tick d d3 (S (clock d))).
Qed.

(** C20: a fence array is joined as a whole.  When the plan succeeds with links
    to be made, the call returns 0 (or [-EINVAL] and no change when the table is
    full), and the dictionary gains exactly the join fence, waited on by the
    client, whose count of pending children is the number of links made and
    whose error collects those of the signalled children; every other entry
    differs by its links to the join fence only. *)
Theorem fence_array_joined c cl p d D akey ps dfs hash cd ks :
  represents d D -> client_at d c cl -> data_allowed cl cd ->
  array_at d p akey ps dfs -> D !! akey = None -> parents_live d D ->
  plan D [] dfs = Some ks -> ks <> [] ->
  (exists h f0 d', let j := joined D (new_join f0 cl akey (now d) (length ps)) dfs in
    fence_at d h f0 /\ valid f0 = 0 /\
    hw_fence_process_fence_array c p hash cd d = Ret (0, h) d' /\
    represents d' (<[akey := with_data cl cd j]> (link_all D h ks)) /\
    pending_child_cnt j = Z.of_nat (length ks) /\ same_but_table d d') \/
  ((forall h f, fence_at d h f -> valid f <> 0) /\
   exists hash', hw_fence_process_fence_array c p hash cd d = Ret (- EINVAL, hash') d).
Proof.
  intros HR Hc Hcd Ha HDa Hlive Hplan Hne.
  destruct (array_start c cl p d D akey ps dfs hash cd HR Hc Hcd Ha HDa)
    as [(h & f0 & d1 & Hf0 & Hv & Hh & HL & Hj & Hpend & Hrun)|Hfull]; [left|by right].
  set (d0 := d_set_clock (S (clock d)) d) in *.
  assert (HR0 : represents d0 D) by (by apply (represents_tick HW_FENCE_LOOKUP_OP_CREATE)).
  assert (Hc0 : client_at d0 c cl) by (by destruct Hc).
  assert (Hpar : forall k f, D !! k = Some f -> parents_ok h f)
    by (intros k f Hf; by apply (Hlive k f h f0)).
  pose proof (aa_children _ _ _ _ _ Ha) as Hch. pose proof (aa_small _ _ _ _ _ Ha) as Hsm.
  pose proof (process_children_plan d0 D h akey f0 c cl HR0 Hc0 Hf0 Hv (aa_key _ _ _ _ _ Ha) HDa Hpar
    ps dfs Hch (length ps) 0 d1 _ [] false eq_refl HL Hj ltac:(by left)
    ltac:(rewrite Hpend; cbn; lia) ltac:(rewrite Hpend; lia)) as H.
  rewrite drop_0, Hplan in H. destruct H as (d2 & Hr & HL' & Hj' & Hp').
  rewrite bool_decide_false in Hr by done. cbn [andb orb] in Hr.
  set (j' := joined D _ dfs) in *.
  exists h, f0, (with_fence h (with_data cl cd j') d2). cbv zeta.
  assert (HL3 : linked d0 (with_fence h (with_data cl cd j') d2) h (with_data cl cd j') ks).
  { apply (linked_rejoin d0 h d2 j'); [done|]. unfold with_data.
    destruct (truthy cd); apply (jo_lock _ _ Hj'). }
  split; [done|]. split; [done|]. split; [|split; [|split; [done|by eapply same_but_table_linked]]].
  - rewrite Hrun, (bind_ret _ _ _ _ _ Hr). cbv iota beta.
    pose proof (lk_join _ _ _ _ _ HL') as Hjf.
    assert (Hps : Z.of_nat (length ps) =? 0 = false).
    { apply Z.eqb_neq. destruct ps as [|x ps]; [|done]. inversion Hch; subst.
      cbn in Hplan. congruence. }
    rewrite Hps. unfold with_data. destruct (truthy cd); cbn [when].
    + by rewrite (bind_ret _ _ _ _ _ (upd_fence_ret d2 h j' _ Hjf)).
    + by rewrite with_fence_id.
  - apply (linked_represents d0 D h akey f0 HR0 Hf0 Hv (aa_key _ _ _ _ _ Ha) HDa _ _ _ HL3).
    destruct Hj' as [H1 H2 H3]. unfold with_data. destruct (truthy cd); by split.
Qed.

End arrays.

(** ** Concrete arrays *)

(** A dma-fence with a hardware fence; an array. *)
Definition hw_dma (ctx seq : Z) : dma_fence := mk_dma_fence ctx seq (BIT 31) None.
Definition array_dma (ctx seq : Z) (ps : list Z) : dma_fence :=
  mk_dma_fence ctx seq 0 (Some (Z.of_nat (length ps), Some (map Some ps))).

(** Names 0 and 1 are in the table of [demo_table]; name 2 is not. Names 3 and 4
    are arrays. *)
Definition demo_dmas : list dma_fence :=
  [hw_dma 2 1; hw_dma 2 2; hw_dma 5 5; array_dma 9 1 [0; 1]; array_dma 9 2 [0; 1; 2]].

Definition demo_arrays : drv := d_set_dma_fences demo_dmas demo_table.

Lemma demo_arrays_represents : represents demo_arrays demo_dict.
Proof. by apply (represents_same_table demo_table); [| |apply demo_represents]. Qed.

Lemma demo_arrays_client : client_at demo_arrays 1 demo_client.
Proof. by split. Qed.

Lemma demo_parents_live : parents_live demo_arrays demo_dict.
Proof.
  intros k f h f0 Hf [Hh Hl] Hv. unfold demo_dict in Hf.
  assert (Hex : exists seq, f = demo_fence 1 2 seq).
  { apply lookup_insert_Some in Hf as [[_ <-]|[_ Hf]]; [by exists 2|].
    apply lookup_insert_Some in Hf as [[_ <-]|[_ Hf]]; [by exists 1|]. by rewrite lookup_empty in Hf. }
  destruct Hex as (seq & ->).
  assert (Hb : 0 <= h < 3) by (split; [done|]; apply lookup_lt_Some in Hl; cbn in Hl; lia).
  split; [done|done| |].
  - intros i Hi. assert (i = 0 \/ i = 1 \/ i = 2) as [->|[-> | ->]] by lia;
      (replace (znth 0 _ _) with 18446744073709551615 by reflexivity); lia.
  - intros i Hi. change (parents_cnt (demo_fence 1 2 seq)) with 0 in Hi.
    by assert (i = 0 \/ i = 1 \/ i = 2) as [->|[-> | ->]] by lia.
Qed.

Lemma demo_array_refusable :
  array_at demo_arrays 4 (9, 2) [0; 1; 2] [hw_dma 2 1; hw_dma 2 2; hw_dma 5 5].
Proof.
  split; [|done|by split|done|].
  - exists (array_dma 9 2 [0; 1; 2]). done.
  - repeat (constructor; [done|]). constructor.
Qed.

Lemma demo_array_joinable : array_at demo_arrays 3 (9, 1) [0; 1] [hw_dma 2 1; hw_dma 2 2].
Proof.
  split; [|done|by split|done|].
  - exists (array_dma 9 1 [0; 1]). done.
  - repeat (constructor; [done|]). constructor.
Qed.

Lemma fence_array_refused_witness :
  exists hash' d', @hw_fence_process_fence_array demo_env 1 4 0 0 demo_arrays = Ret (- EINVAL, hash') d' /\
    represents d' demo_dict /\ same_but_table demo_arrays d'.
Proof.
  apply (fence_array_refused (E := demo_env) 1 demo_client 4 demo_arrays demo_dict (9, 2)
    [0; 1; 2] [hw_dma 2 1; hw_dma 2 2; hw_dma 5 5] 0 0 demo_arrays_represents demo_arrays_client
    ltac:(by left) demo_array_refusable).
  - done.
  - apply demo_parents_live.
  - vm_compute. reflexivity.
Defined.

Lemma fence_array_joined_witness :
  exists h f0 d', let j := @joined demo_dict (new_join f0 demo_client (9, 1) (@now demo_env demo_arrays) 2)
      [hw_dma 2 1; hw_dma 2 2] in
    fence_at demo_arrays h f0 /\ valid f0 = 0 /\
    @hw_fence_process_fence_array demo_env 1 3 0 0 demo_arrays = Ret (0, h) d' /\
    represents d' (<[(9, 1) := @with_data demo_env demo_client 0 j]> (link_all demo_dict h [(2, 1); (2, 2)])) /\
    pending_child_cnt j = 2 /\ same_but_table demo_arrays d'.
Proof.
  destruct (fence_array_joined (E := demo_env) 1 demo_client 3 demo_arrays demo_dict (9, 1)
    [0; 1] [hw_dma 2 1; hw_dma 2 2] 0 0 [(2, 1); (2, 2)] demo_arrays_represents demo_arrays_client
    ltac:(by left) demo_array_joinable) as [H|[Hfull _]]; [done|apply demo_parents_live| |done|exact H|].
  - vm_compute. reflexivity.
  - destruct (Hfull 1 zero_fence); by split.
Defined.

Lemma register_wait_registers_witness :
  exists h d', fence_at demo_arrays h (demo_fence 1 2 2) /\
    d' = with_fence h (@waited demo_env demo_client (@now demo_env demo_arrays) 77 (demo_fence 1 2 2))
           (d_set_clock 1 demo_arrays) /\
    represents d' (<[(2, 2) := @waited demo_env demo_client (@now demo_env demo_arrays) 77
                       (demo_fence 1 2 2)]> demo_dict) /\
    @hw_fence_register_wait_client demo_env None 1 2 2 0 77 demo_arrays = Ret (0, h) d'.
Proof.
  pose proof (register_wait_registers (E := demo_env) None 1 demo_client demo_arrays demo_dict 2 2 0 77
    demo_arrays_represents demo_arrays_client ltac:(done) ltac:(by right)) as H.
  assert (HD : demo_dict !! (2, 2) = Some (demo_fence 1 2 2)) by apply lookup_insert_eq.
  rewrite HD in H. exact H.
Defined.

(** ** Limits *)

(** "Maximum number of parents that a fence can have for a join-fence" is 3, and
    the list has three places, but a child with two parents is refused. *)
Example third_parent_refused :
  let f := hf_set_parents_cnt 2 (hf_set_parent_list [5; 6; HW_FENCE_INVALID_PARENT_FENCE] (demo_fence 1 2 1)) in
  let d := d_set_dma_fences [hw_dma 2 1; array_dma 9 1 [0]] (with_table [zero_fence; zero_fence; f]) in
  result (@hw_fence_process_fence_array demo_env 1 1 0 0 d) = Some (- EINVAL, 0).
Proof. vm_compute. reflexivity. Qed.
