(* ===== verification/HwFenceConf.v ===== *)
(** * The hardware-fence driver: configuration and memory layout

    The client types and sizes that the device tree sets, the carve-out of
    shared memory and the numbering of the clients ([hw_fence_drv_utils.c]), and
    the queues that are laid out in it ([hw_fence_drv_priv.c]).  The theorems
    are in [HwFenceLayout]. *)

From stdpp Require Import strings.
From S2P Require Import Prelude HwFenceDrv.

(** ** What the driver takes from the kernel *)

(** The page size, the sizes of the two headers of [linux/soc/qcom/msm_hw_fence.h],
    and the properties of the device node: the return code and the value. *)
Class DeviceTree := {
  PAGE_SIZE : Z;
  HW_FENCE_HFI_TABLE_HEADER_SIZE : Z;
  HW_FENCE_HFI_QUEUE_HEADER_SIZE : Z;
  of_property_read_u32 : string -> Z * Z;
  of_property_read_u32_array : string -> nat -> Z * list Z;
  of_property_read_bool : string -> bool;
  of_property_count_u32_elems : string -> Z
}.

Definition U32_MAX : Z := 2 ^ 32 - 1.

(** ** Constants *)

Definition MAX_CLIENT_QUEUE_MEM_SIZE : Z := 0x100000.
Definition HW_FENCE_MAX_CLIENT_TYPE_STATIC : nat := 3.
Definition HW_FENCE_MAX_CLIENT_TYPE_CONFIGURABLE : nat := 10.
Definition HW_FENCE_MAX_CLIENT_TYPE : nat :=
  HW_FENCE_MAX_CLIENT_TYPE_STATIC + HW_FENCE_MAX_CLIENT_TYPE_CONFIGURABLE.
Definition HW_FENCE_MIN_RXQ_CLIENT_TYPE : nat := 3.
Definition HW_FENCE_MAX_EVENTS : Z := 1000.
Definition HW_FENCE_CTRL_QUEUE_PAYLOAD : Z := (1 + 1 + 1 + 2 + 1) * 4.
Definition HW_FENCE_CLIENT_QUEUE_PAYLOAD : Z := SIZEOF_QUEUE_PAYLOAD.
Definition HW_FENCE_MEM_LOCKS_SIZE (rxq_clients_num : Z) : Z := 8 * rxq_clients_num.

(** ** Data *)

(** [struct hw_fence_client_type_desc] *)
Record hw_fence_client_type_desc := mk_desc {
  name : string;
  init_id : Z;
  max_clients_num : Z;
  clients_num : Z;
  queues_num : Z;
  queue_entries : Z;
  start_padding : Z;
  end_padding : Z;
  mem_size : Z;
  txq_idx_start : Z;
  txq_idx_factor : Z;
  skip_txq_wr_idx : bool
}.

Definition desc_set_dt (cn qn qe : Z) (d : hw_fence_client_type_desc) : hw_fence_client_type_desc :=
  mk_desc (name d) (init_id d) (max_clients_num d) cn qn qe (start_padding d) (end_padding d)
    (mem_size d) (txq_idx_start d) (txq_idx_factor d) (skip_txq_wr_idx d).
Definition desc_set_skip (b : bool) (d : hw_fence_client_type_desc) : hw_fence_client_type_desc :=
  mk_desc (name d) (init_id d) (max_clients_num d) (clients_num d) (queues_num d) (queue_entries d)
    (start_padding d) (end_padding d) (mem_size d) (txq_idx_start d) (txq_idx_factor d) b.
Definition desc_set_extra (sp ep start factor : Z) (d : hw_fence_client_type_desc) :
    hw_fence_client_type_desc :=
  mk_desc (name d) (init_id d) (max_clients_num d) (clients_num d) (queues_num d) (queue_entries d)
    sp ep (mem_size d) start factor (skip_txq_wr_idx d).
Definition desc_set_mem_size (v : Z) (d : hw_fence_client_type_desc) : hw_fence_client_type_desc :=
  mk_desc (name d) (init_id d) (max_clients_num d) (clients_num d) (queues_num d) (queue_entries d)
    (start_padding d) (end_padding d) (u32 v) (txq_idx_start d) (txq_idx_factor d) (skip_txq_wr_idx d).

(** The fields of [struct hw_fence_driver_data] that the configuration sets.
    [hw_fence_client_queue_size] holds the index of the type and the offset;
    [None] is a descriptor whose [type] is NULL. *)
Record hw_fence_conf := mk_conf {
  hw_fence_client_types : list hw_fence_client_type_desc;
  cf_table_entries : Z;
  hw_fence_mem_fences_table_size : Z;
  hw_fence_queue_entries : Z;
  hw_fence_ctrl_queue_size : Z;
  hw_fence_mem_ctrl_queues_size : Z;
  hw_fence_client_queue_size : list (option (nat * Z));
  cf_rxq_clients_num : Z;
  cf_clients_num : Z;
  used_mem_size : Z;
  carveout_size : Z  (* size_t size *)
}.

Definition cf_set_types (v : list hw_fence_client_type_desc) (c : hw_fence_conf) : hw_fence_conf :=
  mk_conf v (cf_table_entries c) (hw_fence_mem_fences_table_size c) (hw_fence_queue_entries c)
    (hw_fence_ctrl_queue_size c) (hw_fence_mem_ctrl_queues_size c) (hw_fence_client_queue_size c)
    (cf_rxq_clients_num c) (cf_clients_num c) (used_mem_size c) (carveout_size c).
Definition cf_set_table (entries size : Z) (c : hw_fence_conf) : hw_fence_conf :=
  mk_conf (hw_fence_client_types c) entries size (hw_fence_queue_entries c)
    (hw_fence_ctrl_queue_size c) (hw_fence_mem_ctrl_queues_size c) (hw_fence_client_queue_size c)
    (cf_rxq_clients_num c) (cf_clients_num c) (used_mem_size c) (carveout_size c).
Definition cf_set_ctrl (entries size mem : Z) (c : hw_fence_conf) : hw_fence_conf :=
  mk_conf (hw_fence_client_types c) (cf_table_entries c) (hw_fence_mem_fences_table_size c) entries
    size mem (hw_fence_client_queue_size c)
    (cf_rxq_clients_num c) (cf_clients_num c) (used_mem_size c) (carveout_size c).
Definition cf_set_clients (rxq n : Z) (c : hw_fence_conf) : hw_fence_conf :=
  mk_conf (hw_fence_client_types c) (cf_table_entries c) (hw_fence_mem_fences_table_size c)
    (hw_fence_queue_entries c) (hw_fence_ctrl_queue_size c) (hw_fence_mem_ctrl_queues_size c)
    (hw_fence_client_queue_size c) rxq n (used_mem_size c) (carveout_size c).
Definition cf_set_queues (l : list (option (nat * Z))) (used : Z) (c : hw_fence_conf) : hw_fence_conf :=
  mk_conf (hw_fence_client_types c) (cf_table_entries c) (hw_fence_mem_fences_table_size c)
    (hw_fence_queue_entries c) (hw_fence_ctrl_queue_size c) (hw_fence_mem_ctrl_queues_size c)
    l (cf_rxq_clients_num c) (cf_clients_num c) used (carveout_size c).

(** [enum hw_fence_mem_reserve] *)
Inductive hw_fence_mem_reserve :=
| HW_FENCE_MEM_RESERVE_CTRL_QUEUE
| HW_FENCE_MEM_RESERVE_LOCKS_REGION
| HW_FENCE_MEM_RESERVE_TABLE
| HW_FENCE_MEM_RESERVE_CLIENT_QUEUE
| HW_FENCE_MEM_RESERVE_EVENTS_BUFF.

Section ops.
Context `{E : HwFenceEnv} `{DT : DeviceTree}.

Definition PAGE_MASK : Z := Z.lnot (PAGE_SIZE - 1).
Definition PAGE_ALIGN (x : Z) : Z := Z.land (x + PAGE_SIZE - 1) PAGE_MASK.

Definition HW_FENCE_HFI_CTRL_HEADERS_SIZE : Z :=
  HW_FENCE_HFI_TABLE_HEADER_SIZE + HW_FENCE_HFI_QUEUE_HEADER_SIZE * HW_FENCE_CTRL_QUEUES.
Definition HW_FENCE_HFI_CLIENT_HEADERS_SIZE (queues_num : Z) : Z :=
  HW_FENCE_HFI_TABLE_HEADER_SIZE + HW_FENCE_HFI_QUEUE_HEADER_SIZE * queues_num.

Definition HW_FENCE_MAX_STATIC_CLIENTS_INDEX : Z := HW_FENCE_CLIENT_ID_IPE.
Definition HW_FENCE_MIN_RXQ_CLIENTS : Z := HW_FENCE_CLIENT_ID_VAL0 + 6.  (* VAL6 *)

(** The table that the driver starts with; the sub-clients of IFE are spaced by
    [MSM_HW_FENCE_MAX_SIGNAL_PER_CLIENT] in [enum hw_fence_client_id]. *)
Definition default_client_types : list hw_fence_client_type_desc :=
  [mk_desc "gpu" HW_FENCE_CLIENT_ID_CTX0 1 1 HW_FENCE_CLIENT_QUEUES 0 0 0 0 0 0 false;
   mk_desc "dpu" HW_FENCE_CLIENT_ID_CTL0 6 6 HW_FENCE_CLIENT_QUEUES 0 0 0 0 0 0 false;
   mk_desc "val" HW_FENCE_CLIENT_ID_VAL0 7 7 HW_FENCE_CLIENT_QUEUES 0 0 0 0 0 0 false;
   mk_desc "ipe" HW_FENCE_CLIENT_ID_IPE 32 0 HW_FENCE_CLIENT_QUEUES 0 0 0 0 0 0 false;
   mk_desc "vpu" HW_FENCE_CLIENT_ID_VPU 32 0 HW_FENCE_CLIENT_QUEUES 0 0 0 0 0 0 false;
   mk_desc "ife0" HW_FENCE_CLIENT_ID_IFE0 32 0 1 0 0 0 0 0 0 true;
   mk_desc "ife1" (HW_FENCE_CLIENT_ID_IFE0 + 1 * MSM_HW_FENCE_MAX_SIGNAL_PER_CLIENT) 32 0 1 0 0 0 0 0 0 true;
   mk_desc "ife2" (HW_FENCE_CLIENT_ID_IFE0 + 2 * MSM_HW_FENCE_MAX_SIGNAL_PER_CLIENT) 32 0 1 0 0 0 0 0 0 true;
   mk_desc "ife3" (HW_FENCE_CLIENT_ID_IFE0 + 3 * MSM_HW_FENCE_MAX_SIGNAL_PER_CLIENT) 32 0 1 0 0 0 0 0 0 true;
   mk_desc "ife4" (HW_FENCE_CLIENT_ID_IFE0 + 4 * MSM_HW_FENCE_MAX_SIGNAL_PER_CLIENT) 32 0 1 0 0 0 0 0 0 true;
   mk_desc "ife5" (HW_FENCE_CLIENT_ID_IFE0 + 5 * MSM_HW_FENCE_MAX_SIGNAL_PER_CLIENT) 32 0 1 0 0 0 0 0 0 true;
   mk_desc "ife6" (HW_FENCE_CLIENT_ID_IFE0 + 6 * MSM_HW_FENCE_MAX_SIGNAL_PER_CLIENT) 32 0 1 0 0 0 0 0 0 true;
   mk_desc "ife7" HW_FENCE_CLIENT_ID_IFE7 32 0 1 0 0 0 0 0 0 true].

(** ** Client identifiers *)

(** The sum of [clients_num] over the types of [l]. *)
Definition clients_of (l : list hw_fence_client_type_desc) : Z := zsum clients_num l.

(** [None]: the type index is outside [hw_fence_client_types]. *)
Definition hw_fence_utils_get_client_id_priv (types : list hw_fence_client_type_desc) (client_id : Z) :
    option Z :=
  if client_id <? HW_FENCE_MAX_STATIC_CLIENTS_INDEX then Some client_id else
  let i := Z.to_nat ((client_id - HW_FENCE_MAX_STATIC_CLIENTS_INDEX) / MSM_HW_FENCE_MAX_SIGNAL_PER_CLIENT) in
  let client_type := (HW_FENCE_MAX_CLIENT_TYPE_STATIC + i)%nat in
  let offset := (client_id - HW_FENCE_MAX_STATIC_CLIENTS_INDEX) mod MSM_HW_FENCE_MAX_SIGNAL_PER_CLIENT in
  match types !! client_type with
  | None => None
  | Some desc =>
      if offset >=? clients_num desc then Some HW_FENCE_CLIENT_MAX
      else Some (HW_FENCE_MAX_STATIC_CLIENTS_INDEX + offset
                 + clients_of (take i (drop HW_FENCE_MAX_CLIENT_TYPE_STATIC types)))
  end.

Definition hw_fence_utils_get_queues_num (c : hw_fence_conf) (client_id : Z) : Z :=
  if client_id >=? cf_clients_num c then 0 else
  match znth None (hw_fence_client_queue_size c) client_id with
  | None => 0
  | Some (t, _) => match hw_fence_client_types c !! t with Some d => queues_num d | None => 0 end
  end.

(** ** The properties of a client type *)

(** The checks at the end of [_parse_client_queue_dt_props_extra]. *)
Definition check_extra (idx_by_payload : bool) (desc : hw_fence_client_type_desc) :
    Z * hw_fence_client_type_desc :=
  let sp := start_padding desc in
  let ep := end_padding desc in
  if truthy (sp mod 4) || truthy (ep mod 4) || truthy (u32 (sp + ep) mod 8) then (- EINVAL, desc) else
  if sp >=? U32_MAX - HW_FENCE_HFI_CLIENT_HEADERS_SIZE (queues_num desc) then (- EINVAL, desc) else
  if ep >=? U32_MAX - HW_FENCE_HFI_CLIENT_HEADERS_SIZE (queues_num desc) - sp then (- EINVAL, desc) else
  let max_idx_from_zero := if idx_by_payload then queue_entries desc
                           else u32 (queue_entries desc * (HW_FENCE_CLIENT_QUEUE_PAYLOAD / 4)) in
  if txq_idx_start desc >=? U32_MAX - max_idx_from_zero then (- EINVAL, desc) else
  (0, desc).

(** The return code and the descriptor, which keeps what was stored before an error. *)
Definition _parse_client_queue_dt_props_extra (desc : hw_fence_client_type_desc) :
    Z * hw_fence_client_type_desc :=
  let payload_size_u32 := HW_FENCE_CLIENT_QUEUE_PAYLOAD / 4 in
  let name := "qcom,hw-fence-client-type-" +:+ name desc +:+ "-extra" in
  if negb (of_property_read_bool name) then (0, desc) else
  let count := of_property_count_u32_elems name in
  if (count <=? 0) || (count >? 4) then (- EINVAL, desc) else
  let '(ret, tmp) := of_property_read_u32_array name (Z.to_nat count) in
  if truthy ret then (- EINVAL, desc) else
  let sp := znth 0 tmp 0 in
  let ep := if count >=? 2 then znth 0 tmp 1 else end_padding desc in
  let start := if count >=? 3 then znth 0 tmp 2 else txq_idx_start desc in
  if (count >=? 4) && (znth 0 tmp 3 >? 1)
  then (- EINVAL, desc_set_extra sp ep start (txq_idx_factor desc) desc) else
  let idx_by_payload := (count >=? 4) && truthy (znth 0 tmp 3) in
  let factor := if count >=? 4 then (if idx_by_payload then payload_size_u32 else 1)
                else txq_idx_factor desc in
  let desc := desc_set_extra sp ep start factor desc in
  check_extra idx_by_payload desc.

(** "compute mem_size", the last part of [_parse_client_queue_dt_props_indv]. *)
Definition compute_mem_size (desc : hw_fence_client_type_desc) : Z * hw_fence_client_type_desc :=
  if queue_entries desc >=? U32_MAX / HW_FENCE_CLIENT_QUEUE_PAYLOAD then (- EINVAL, desc) else
  let queue_size := u32 (HW_FENCE_CLIENT_QUEUE_PAYLOAD * queue_entries desc) in
  if queue_size >=? u64 (Z.land U32_MAX PAGE_MASK -
       (HW_FENCE_HFI_CLIENT_HEADERS_SIZE (queues_num desc) + start_padding desc + end_padding desc))
       / queues_num desc
  then (- EINVAL, desc) else
  let desc := desc_set_mem_size
    (PAGE_ALIGN (HW_FENCE_HFI_CLIENT_HEADERS_SIZE (queues_num desc) + u32 (queue_size * queues_num desc)
                 + start_padding desc + end_padding desc)) desc in
  if mem_size desc >? MAX_CLIENT_QUEUE_MEM_SIZE then (- EINVAL, desc) else (0, desc).

Definition _parse_client_queue_dt_props_indv (c : hw_fence_conf) (desc : hw_fence_client_type_desc) :
    Z * hw_fence_client_type_desc :=
  let '(ret, tmp) := of_property_read_u32_array ("qcom,hw-fence-client-type-" +:+ name desc) 4 in
  let desc := if truthy ret
              then desc_set_dt (clients_num desc) (queues_num desc) (hw_fence_queue_entries c) desc
              else desc_set_dt (znth 0 tmp 0) (znth 0 tmp 1) (znth 0 tmp 2) desc in
  if negb (truthy ret) && (znth 0 tmp 3 >? 1) then (- EINVAL, desc) else
  let desc := if truthy ret then desc else desc_set_skip (truthy (znth 0 tmp 3)) desc in
  if (clients_num desc >? max_clients_num desc) || negb (truthy (queues_num desc))
     || (queues_num desc >? HW_FENCE_CLIENT_QUEUES) || negb (truthy (queue_entries desc))
  then (- EINVAL, desc) else
  let '(ret, desc) := _parse_client_queue_dt_props_extra desc in
  if truthy ret then (- EINVAL, desc) else
  compute_mem_size desc.

(** ** All the types *)

(** The first loop of [_parse_client_queue_dt_props]: the types from index [i],
    [rxq_clients_num] and the number of configurable clients. *)
Fixpoint parse_types (n i : nat) (c : hw_fence_conf) (rxq cfg : Z) : Z * hw_fence_conf * Z * Z :=
  match n with
  | O => (0, c, rxq, cfg)
  | S n =>
      match hw_fence_client_types c !! i with
      | None => (0, c, rxq, cfg)
      | Some desc =>
          let '(ret, desc) := _parse_client_queue_dt_props_indv c desc in
          let c := cf_set_types (<[i := desc]> (hw_fence_client_types c)) c in
          if truthy ret then (ret, c, rxq, cfg) else
          let rxq := if Nat.leb HW_FENCE_MIN_RXQ_CLIENT_TYPE i && (queues_num desc =? HW_FENCE_CLIENT_QUEUES)
                     then u32 (rxq + clients_num desc) else rxq in
          let cfg := if Nat.leb HW_FENCE_MAX_CLIENT_TYPE_STATIC i then cfg + clients_num desc else cfg in
          parse_types n (S i) c rxq cfg
      end
  end.

(** The second loop, over sub-clients [j .. j + n - 1] of type [t]; [None] is an
    access outside a table. *)
Fixpoint place_clients (n : nat) (j : Z) (t : nat) (desc : hw_fence_client_type_desc)
    (types : list hw_fence_client_type_desc) (l : list (option (nat * Z))) (start_offset : Z) :
    option (list (option (nat * Z)) * Z) :=
  match n with
  | O => Some (l, start_offset)
  | S n =>
      match hw_fence_utils_get_client_id_priv types (init_id desc + j) with
      | None => None
      | Some client_id =>
          if (client_id <? 0) || (client_id >=? zlen l) then None else
          place_clients n (j + 1) t desc types (zupd l client_id (Some (t, start_offset)))
            (u32 (start_offset + mem_size desc))
      end
  end.

Fixpoint place_types (ts : list nat) (types : list hw_fence_client_type_desc)
    (l : list (option (nat * Z))) (start_offset : Z) : option (list (option (nat * Z)) * Z) :=
  match ts with
  | [] => Some (l, start_offset)
  | t :: ts =>
      match types !! t with
      | None => None
      | Some desc =>
          match place_clients (Z.to_nat (clients_num desc)) 0 t desc types l start_offset with
          | None => None
          | Some (l, start_offset) => place_types ts types l start_offset
          end
      end
  end.

(** [alloc]: whether [kzalloc] of the descriptors succeeds. *)
Definition _parse_client_queue_dt_props (alloc : bool) (c : hw_fence_conf) : option (Z * hw_fence_conf) :=
  let '(ret, c, rxq, cfg) := parse_types HW_FENCE_MAX_CLIENT_TYPE 0 c HW_FENCE_MIN_RXQ_CLIENTS 0 in
  if truthy ret then Some (ret, c) else
  let c := cf_set_clients rxq (u32 (HW_FENCE_MAX_STATIC_CLIENTS_INDEX + cfg)) c in
  if negb alloc then Some (- ENOMEM, c) else
  let start_offset := u32 (PAGE_ALIGN (hw_fence_mem_ctrl_queues_size c
       + HW_FENCE_MEM_LOCKS_SIZE (cf_rxq_clients_num c) + hw_fence_mem_fences_table_size c)) in
  match place_types (seq 0 HW_FENCE_MAX_CLIENT_TYPE) (hw_fence_client_types c)
          (replicate (Z.to_nat (cf_clients_num c)) None) start_offset with
  | None => None
  | Some (l, used) => Some (0, cf_set_queues l used c)
  end.

(** [alloc] and [alloc_clients]: whether the two allocations succeed. *)
Definition hw_fence_utils_parse_dt_props (alloc alloc_clients : bool) (c : hw_fence_conf) :
    option (Z * hw_fence_conf) :=
  let '(ret, val) := of_property_read_u32 "qcom,hw-fence-table-entries" in
  if truthy ret || negb (truthy val) then Some (ret, c) else
  let c := cf_set_table val (hw_fence_mem_fences_table_size c) c in
  if val >=? U32_MAX / SIZEOF_HW_FENCE then Some (- EINVAL, c) else
  let c := cf_set_table val (u32 (SIZEOF_HW_FENCE * val)) c in
  let '(ret, val) := of_property_read_u32 "qcom,hw-fence-queue-entries" in
  if truthy ret || negb (truthy val) then Some (ret, c) else
  let c := cf_set_ctrl val (hw_fence_ctrl_queue_size c) (hw_fence_mem_ctrl_queues_size c) c in
  if val >=? U32_MAX / HW_FENCE_CTRL_QUEUE_PAYLOAD then Some (- EINVAL, c) else
  let size := u32 (HW_FENCE_CTRL_QUEUE_PAYLOAD * val) in
  let c := cf_set_ctrl val size (hw_fence_mem_ctrl_queues_size c) c in
  if size >=? (U32_MAX - HW_FENCE_HFI_CTRL_HEADERS_SIZE) / HW_FENCE_CTRL_QUEUES then Some (- EINVAL, c) else
  let c := cf_set_ctrl val size (u32 (HW_FENCE_HFI_CTRL_HEADERS_SIZE + HW_FENCE_CTRL_QUEUES * size)) c in
  match _parse_client_queue_dt_props alloc c with
  | None => None
  | Some (ret, c) =>
      if truthy ret then Some (- EINVAL, c)
      else if negb alloc_clients then Some (- ENOMEM, c)
      else Some (0, c)
  end.

(** ** Reserving memory *)

(** The return code, the offset from the base and [*size]; [size] is its value
    before the call. *)
Definition hw_fence_utils_reserve_mem (c : hw_fence_conf) (type : hw_fence_mem_reserve)
    (client_id size : Z) : Z * Z * Z :=
  let finish (start_offset size : Z) :=
    if u32 (start_offset + size) >? carveout_size c then (- ENOMEM, start_offset, size)
    else (0, start_offset, size) in
  match type with
  | HW_FENCE_MEM_RESERVE_CTRL_QUEUE => finish 0 (hw_fence_mem_ctrl_queues_size c)
  | HW_FENCE_MEM_RESERVE_LOCKS_REGION =>
      finish (hw_fence_mem_ctrl_queues_size c) (u32 (HW_FENCE_MEM_LOCKS_SIZE (cf_rxq_clients_num c)))
  | HW_FENCE_MEM_RESERVE_TABLE =>
      finish (u32 (hw_fence_mem_ctrl_queues_size c + HW_FENCE_MEM_LOCKS_SIZE (cf_rxq_clients_num c)))
        (hw_fence_mem_fences_table_size c)
  | HW_FENCE_MEM_RESERVE_CLIENT_QUEUE =>
      match (if client_id >=? cf_clients_num c then None
             else znth None (hw_fence_client_queue_size c) client_id) with
      | None => (- EINVAL, 0, size)
      | Some (t, start_offset) =>
          match hw_fence_client_types c !! t with
          | None => (- EINVAL, 0, size)
          | Some desc => finish start_offset (mem_size desc)
          end
      end
  | HW_FENCE_MEM_RESERVE_EVENTS_BUFF =>
      let start_offset := used_mem_size c in
      let remaining_size_bytes := u32 (carveout_size c - start_offset) in
      if (start_offset >=? carveout_size c) || (remaining_size_bytes <? SIZEOF_EVENT)
      then (- ENOMEM, start_offset, size) else
      let total_events := remaining_size_bytes / SIZEOF_EVENT in
      let total_events := if total_events >? HW_FENCE_MAX_EVENTS then HW_FENCE_MAX_EVENTS else total_events in
      finish start_offset (u32 (total_events * SIZEOF_EVENT))
  end.

(** The size check of [hw_fence_utils_alloc_mem]; the carve-out and the
    notifier are the kernel's. *)
Definition alloc_mem_size_check (c : hw_fence_conf) : Z :=
  if carveout_size c <? used_mem_size c then - ENOMEM else 0.

(** The tables that are laid over the regions: the number of locks
    ([init_global_locks]), fences ([init_hw_fences_table]) and events
    ([init_hw_fences_events]), with the offset of each, or [-ENOMEM]. *)
Definition init_global_locks (c : hw_fence_conf) : Z + Z * Z :=
  let '(ret, off, size) := hw_fence_utils_reserve_mem c HW_FENCE_MEM_RESERVE_LOCKS_REGION 0 0 in
  if truthy ret then inl (- ENOMEM) else inr (off, size / 8).
Definition init_hw_fences_table (c : hw_fence_conf) : Z + Z * Z :=
  let '(ret, off, size) := hw_fence_utils_reserve_mem c HW_FENCE_MEM_RESERVE_TABLE 0 0 in
  if truthy ret then inl (- ENOMEM) else inr (off, size / SIZEOF_HW_FENCE).
Definition init_hw_fences_events (c : hw_fence_conf) : Z + Z * Z :=
  let '(ret, off, size) := hw_fence_utils_reserve_mem c HW_FENCE_MEM_RESERVE_EVENTS_BUFF 0 0 in
  if truthy ret then inl (- ENOMEM) else inr (off, size / SIZEOF_EVENT).

(** ** Laying out queues *)

(** [struct msm_hw_fence_hfi_queue_table_header], and a queue with the offsets of
    its header and of its elements from the start of the region. *)
Record hfi_table_header := mk_table_header {
  tb_version : Z;
  tb_size : Z;
  qhdr0_offset : Z;
  qhdr_size : Z;
  num_q : Z;
  num_active_q : Z
}.

Record queue_place := mk_queue_place {
  qp_header_offset : Z;
  qp_queue_offset : Z;
  qp_queue : msm_hw_fence_queue
}.

(** What the regions hold before: the headers and the elements of the queues, by
    queue number. *)
Record region_content := mk_region {
  old_header : nat -> hfi_queue_header;
  old_dwords : nat -> list Z
}.

(** One round of the loop. *)
Definition init_queue (phys : Z) (old : region_content) (qhdr0 headers_size queue_size payload_size : Z)
    (txq_idx_start txq_idx_factor : Z) (skip_txq_wr_idx : bool) (i : nat) : queue_place :=
  let start_queue_offset := u32 (headers_size + Z.of_nat i * queue_size) in
  let tx := Z.of_nat i =? HW_FENCE_TX_QUEUE - 1 in
  let h := old_header old i in
  let h := mk_hfi_header (if tx then HW_FENCE_TX_QUEUE else HW_FENCE_RX_QUEUE)
             (u32 (phys + start_queue_offset)) queue_size payload_size
             (read_index h) (write_index h) (tx_wm h) in
  let h := if truthy txq_idx_start && tx && negb (truthy (write_index h)) then
             let h := if skip_txq_wr_idx then set_tx_wm txq_idx_start h else h in
             set_write_index txq_idx_start (set_read_index txq_idx_start h)
           else h in
  mk_queue_place (qhdr0 + Z.of_nat i * HW_FENCE_HFI_QUEUE_HEADER_SIZE) start_queue_offset
    (mk_queue (old_dwords old i) (u32 queue_size) (Some h) (phys + start_queue_offset)
       (if tx then txq_idx_start else 0) (if tx then txq_idx_factor else 1)
       (if tx then skip_txq_wr_idx else false)).

(** The sizes that the first [switch] of [init_hw_fences_queues] chooses: the
    start padding, [headers_size], [queue_size], [payload_size] and the index
    properties of the transmit queue. *)
Definition queue_sizes (c : hw_fence_conf) (id : hw_fence_mem_reserve) (queues_num client_id : Z) :
    option (Z * Z * Z * Z * Z * Z * bool) :=
  match id with
  | HW_FENCE_MEM_RESERVE_CTRL_QUEUE =>
      Some (0, HW_FENCE_HFI_CTRL_HEADERS_SIZE, hw_fence_ctrl_queue_size c, HW_FENCE_CTRL_QUEUE_PAYLOAD, 0, 1, false)
  | HW_FENCE_MEM_RESERVE_CLIENT_QUEUE =>
      match (if client_id >=? cf_clients_num c then None
             else znth None (hw_fence_client_queue_size c) client_id) with
      | None => None
      | Some (t, _) =>
          match hw_fence_client_types c !! t with
          | None => None
          | Some desc => Some
              (start_padding desc,
               HW_FENCE_HFI_CLIENT_HEADERS_SIZE queues_num + start_padding desc + end_padding desc,
               HW_FENCE_CLIENT_QUEUE_PAYLOAD * queue_entries desc, HW_FENCE_CLIENT_QUEUE_PAYLOAD,
               txq_idx_start desc, (if truthy (txq_idx_factor desc) then txq_idx_factor desc else 1),
               skip_txq_wr_idx desc)
          end
      end
  | _ => None
  end.

(** [inl] is the error; otherwise the region (offset and size), the table header
    and the queues. [res_start] is the physical start of the carve-out. *)
Definition init_hw_fences_queues (c : hw_fence_conf) (res_start : Z) (old : region_content)
    (id : hw_fence_mem_reserve) (queues_num client_id : Z) :
    Z + (Z * Z * hfi_table_header * list queue_place) :=
  match queue_sizes c id queues_num client_id with
  | None => inl (- EINVAL)
  | Some (sp, headers_size, queue_size, payload_size, start, factor, skip) =>
      let '(ret, off, size) := hw_fence_utils_reserve_mem c id client_id 0 in
      if truthy ret then inl (- ENOMEM) else
      let qhdr0 := HW_FENCE_HFI_TABLE_HEADER_SIZE + sp in
      inr (off, size,
           mk_table_header 0 size qhdr0 HW_FENCE_HFI_QUEUE_HEADER_SIZE queues_num queues_num,
           map (init_queue (res_start + off) old qhdr0 headers_size queue_size payload_size start factor skip)
             (seq 0 (Z.to_nat queues_num)))
  end.

Definition init_ctrl_queue (c : hw_fence_conf) (res_start : Z) (old : region_content) :
    Z + (Z * Z * hfi_table_header * list queue_place) :=
  init_hw_fences_queues c res_start old HW_FENCE_MEM_RESERVE_CTRL_QUEUE HW_FENCE_CTRL_QUEUES 0.

(** [None]: [hw_fence_client_queue_size] is read outside the table. *)
Definition hw_fence_alloc_client_resources (c : hw_fence_conf) (res_start : Z) (old : region_content)
    (client_id : Z) : option (Z + (Z * Z * hfi_table_header * list queue_place)) :=
  if (client_id <? 0) || (client_id >=? zlen (hw_fence_client_queue_size c)) then None else
  match znth None (hw_fence_client_queue_size c) client_id with
  | None => Some (inl (- EINVAL))
  | Some (t, _) =>
      match hw_fence_client_types c !! t with
      | None => None
      | Some desc => Some (init_hw_fences_queues c res_start old HW_FENCE_MEM_RESERVE_CLIENT_QUEUE
                             (queues_num desc) client_id)
      end
  end.

End ops.
