(* ===== verification/HwFenceLayout.v ===== *)
(** * The memory layout of the hardware-fence driver: theorems

    The sizes that the parser accepts are enough for what is laid out in them,
    the queues of a client do not overlap, the regions of the carve-out are
    disjoint, and the clients are numbered one to one. *)

From stdpp Require Import strings.
From S2P Require Import Prelude HwFenceDrv HwFenceQueue HwFenceRing HwFenceConf.

(** ** What is documented of the kernel *)

(** Pages are a power of two; the headers are small; a device property that is
    read with success yields that many 32-bit values. *)
Class DeviceTreeLaws `{DT : DeviceTree} : Prop := {
  page_pow2 : exists k, 0 <= k <= 16 /\ PAGE_SIZE = 2 ^ k;
  table_header_small : 0 < HW_FENCE_HFI_TABLE_HEADER_SIZE <= 4096;
  queue_header_small : 0 < HW_FENCE_HFI_QUEUE_HEADER_SIZE <= 4096;
  read_u32_ok s v : of_property_read_u32 s = (0, v) -> is_u32 v;
  read_array_ok s n l : of_property_read_u32_array s n = (0, l) -> length l = n /\ Forall is_u32 l
}.

Section pages.
Context `{L : DeviceTreeLaws}.

Lemma page_align_eq x : PAGE_ALIGN x = (x + PAGE_SIZE - 1) / PAGE_SIZE * PAGE_SIZE.
Proof.
  destruct page_pow2 as (k & Hk & HP). unfold PAGE_ALIGN, PAGE_MASK. rewrite HP.
  replace (2 ^ k - 1) with (Z.ones k) by (rewrite Z.ones_equiv; lia).
  rewrite <- Z.ldiff_land, Z.ldiff_ones_r, Z.shiftl_mul_pow2, Z.shiftr_div_pow2 by lia. done.
Qed.

Lemma page_pos : 0 < PAGE_SIZE <= 2 ^ 16.
Proof.
  destruct page_pow2 as (k & Hk & ->). split; [lia|]. apply Z.pow_le_mono_r; lia.
Qed.

Lemma page_align_bounds x : x <= PAGE_ALIGN x < x + PAGE_SIZE.
Proof.
  rewrite page_align_eq. pose proof page_pos as HP. set (P := PAGE_SIZE) in *.
  pose proof (Z.div_mod (x + P - 1) P ltac:(lia)).
  pose proof (Z.mod_pos_bound (x + P - 1) P ltac:(lia)). lia.
Qed.

Lemma page_align_mod x : PAGE_ALIGN x mod PAGE_SIZE = 0.
Proof. rewrite page_align_eq. apply Z.mod_mul. pose proof page_pos. lia. Qed.

(** The last page boundary of the 32-bit range. *)
Lemma u32_page_limit : Z.land U32_MAX PAGE_MASK = 2 ^ 32 - PAGE_SIZE.
Proof.
  destruct page_pow2 as (k & Hk & HP). unfold PAGE_MASK, U32_MAX. rewrite HP.
  replace (2 ^ k - 1) with (Z.ones k) by (rewrite Z.ones_equiv; lia).
  rewrite <- Z.ldiff_land, Z.ldiff_ones_r, Z.shiftl_mul_pow2, Z.shiftr_div_pow2 by lia.
  assert (H32 : 2 ^ 32 = 2 ^ (32 - k) * 2 ^ k) by (rewrite <- Z.pow_add_r by lia; f_equal; lia).
  assert (Hd : (2 ^ 32 - 1) / 2 ^ k = 2 ^ (32 - k) - 1).
  { symmetry. apply Z.div_unique with (2 ^ k - 1); [|lia].
    pose proof (Z.pow_pos_nonneg 2 k ltac:(lia) ltac:(lia)). lia. }
  rewrite Hd. lia.
Qed.

Lemma page_align_limit x : x <= 2 ^ 32 - PAGE_SIZE -> PAGE_ALIGN x < 2 ^ 32.
Proof. intros H. pose proof (page_align_bounds x). lia. Qed.

End pages.

(** ** The sizes of a client type *)

(** What the queues of one client of the type take. *)
Definition queues_bytes `{DeviceTree} (d : hw_fence_client_type_desc) : Z :=
  HW_FENCE_HFI_CLIENT_HEADERS_SIZE (queues_num d) + start_padding d + end_padding d
  + queues_num d * (HW_FENCE_CLIENT_QUEUE_PAYLOAD * queue_entries d).

(** A descriptor that the parser has accepted. *)
Record desc_ok `{DeviceTree} (d : hw_fence_client_type_desc) : Prop := mk_desc_ok {
  do_clients : 0 <= clients_num d <= max_clients_num d;
  do_queues : 1 <= queues_num d <= 2;
  do_entries : 0 < queue_entries d;
  do_paddings : 0 <= start_padding d /\ 0 <= end_padding d /\
    start_padding d mod 4 = 0 /\ end_padding d mod 4 = 0 /\
    (start_padding d + end_padding d) mod 8 = 0;
  do_index : 0 <= txq_idx_start d /\
    ((txq_idx_factor d = PAYLOAD_U32 /\ txq_idx_start d + queue_entries d < U32_MAX) \/
     ((txq_idx_factor d = 0 \/ txq_idx_factor d = 1) /\
      txq_idx_start d + queue_entries d * PAYLOAD_U32 < U32_MAX));
  do_mem : queues_bytes d <= mem_size d <= MAX_CLIENT_QUEUE_MEM_SIZE;
  do_page : mem_size d mod PAGE_SIZE = 0
}.

(** A descriptor of the table, before parsing. *)
Record desc_raw (d : hw_fence_client_type_desc) : Prop := mk_desc_raw {
  dr_clients : is_u32 (clients_num d);
  dr_queues : is_u32 (queues_num d);
  dr_padding : start_padding d = 0 /\ end_padding d = 0;
  dr_index : txq_idx_start d = 0 /\ txq_idx_factor d = 0
}.

Section parse.
Context `{E : HwFenceEnv} `{L : DeviceTreeLaws}.

(** What the extra properties can change. *)
Record extra_ok (d d' : hw_fence_client_type_desc) : Prop := mk_extra_ok {
  eo_same : name d' = name d /\ init_id d' = init_id d /\ max_clients_num d' = max_clients_num d /\
    clients_num d' = clients_num d /\ queues_num d' = queues_num d /\ queue_entries d' = queue_entries d;
  eo_pad : is_u32 (start_padding d') /\ is_u32 (end_padding d') /\
    start_padding d' mod 4 = 0 /\ end_padding d' mod 4 = 0 /\ (start_padding d' + end_padding d') mod 8 = 0;
  eo_index : queue_entries d' < 2 ^ 26 -> 0 <= txq_idx_start d' /\
    ((txq_idx_factor d' = PAYLOAD_U32 /\ txq_idx_start d' + queue_entries d' < U32_MAX) \/
     ((txq_idx_factor d' = 0 \/ txq_idx_factor d' = 1) /\
      txq_idx_start d' + queue_entries d' * PAYLOAD_U32 < U32_MAX))
}.

Lemma u32_mod8 x : u32 x mod 8 = x mod 8.
Proof. unfold u32. apply Z.mod_mod_divide. by exists (2 ^ 29). Qed.

Lemma check_extra_ok b d d' : check_extra b d = (0, d') ->
  d' = d /\ start_padding d mod 4 = 0 /\ end_padding d mod 4 = 0 /\
  (start_padding d + end_padding d) mod 8 = 0 /\
  txq_idx_start d < U32_MAX - (if b then queue_entries d else u32 (queue_entries d * PAYLOAD_U32)).
Proof.
  unfold check_extra. cbv zeta.
  destruct (truthy (start_padding d mod 4) || _ || _) eqn:E1; [done|].
  destruct (start_padding d >=? _); [done|]. destruct (end_padding d >=? _); [done|].
  change (HW_FENCE_CLIENT_QUEUE_PAYLOAD / 4) with PAYLOAD_U32.
  set (mx := if b then _ else _). destruct (Z.geb_spec (txq_idx_start d) (U32_MAX - mx)); [done|].
  intros [= <-]. unfold truthy in E1. zbool. by rewrite u32_mod8 in *.
Qed.

Lemma parse_extra_ok d d' :
  start_padding d = 0 /\ end_padding d = 0 -> txq_idx_start d = 0 /\ txq_idx_factor d = 0 ->
  0 <= queue_entries d ->
  _parse_client_queue_dt_props_extra d = (0, d') -> extra_ok d d'.
Proof.
  intros [Hsp Hep] [Hst Hfa] Hqe. unfold _parse_client_queue_dt_props_extra.
  destruct (negb (of_property_read_bool _)).
  { intros [= <-]. split; [done|rewrite Hsp, Hep; by vm_compute|].
    intros H. rewrite Hst, Hfa. split; [done|right]. split; [by left|].
    change PAYLOAD_U32 with 16. unfold U32_MAX. lia. }
  set (count := of_property_count_u32_elems _). destruct ((count <=? 0) || (count >? 4)); [done|].
  destruct (of_property_read_u32_array _ _) as [ret tmp] eqn:Hr.
  destruct (truthy ret) eqn:Hret; [done|].
  assert (ret = 0) as -> by (unfold truthy in Hret; by zbool).
  apply read_array_ok in Hr as [_ Htmp]. cbv zeta.
  destruct ((count >=? 4) && (znth 0 tmp 3 >? 1)); [done|].
  intros H. apply check_extra_ok in H as (-> & H4 & H4' & H8 & Hidx). split; [done| |].
  - split; [by apply znth_u32|]. split; [|done]. cbn [end_padding desc_set_extra].
    destruct (count >=? 2); [by apply znth_u32|]. rewrite Hep. by vm_compute.
  - cbn [txq_idx_start txq_idx_factor queue_entries desc_set_extra] in *. intros Hlt.
    assert (Hs : 0 <= (if count >=? 3 then znth 0 tmp 2 else txq_idx_start d))
      by (destruct (count >=? 3); [apply (znth_u32 tmp 2 Htmp)|lia]).
    rewrite u32_small in Hidx by (change PAYLOAD_U32 with 16; lia).
    change (HW_FENCE_CLIENT_QUEUE_PAYLOAD / 4) with PAYLOAD_U32.
    split; [done|]. destruct (count >=? 4), (truthy (znth 0 tmp 3)); cbn [andb] in *;
      [left|right|right|right]; split; try lia; auto.
Qed.

Lemma compute_mem_size_ok d d' :
  1 <= queues_num d <= 2 -> 0 < queue_entries d -> 0 <= start_padding d -> 0 <= end_padding d ->
  HW_FENCE_HFI_CLIENT_HEADERS_SIZE (queues_num d) + start_padding d + end_padding d <= 2 ^ 32 - PAGE_SIZE ->
  compute_mem_size d = (0, d') ->
  exists v, d' = desc_set_mem_size v d /\ queue_entries d < 2 ^ 26 /\
    queues_bytes d <= mem_size d' <= MAX_CLIENT_QUEUE_MEM_SIZE /\ mem_size d' mod PAGE_SIZE = 0.
Proof.
  intros Hq He Hsp Hep Hlim. unfold compute_mem_size. pose proof page_pos as HP.
  destruct (Z.geb_spec (queue_entries d) (U32_MAX / HW_FENCE_CLIENT_QUEUE_PAYLOAD)) as [|He2]; [done|].
  assert (He3 : HW_FENCE_CLIENT_QUEUE_PAYLOAD * queue_entries d < 2 ^ 32).
  { change (U32_MAX / HW_FENCE_CLIENT_QUEUE_PAYLOAD) with 67108863 in He2.
    change HW_FENCE_CLIENT_QUEUE_PAYLOAD with 64. lia. }
  assert (He4 : 0 <= HW_FENCE_CLIENT_QUEUE_PAYLOAD * queue_entries d)
    by (change HW_FENCE_CLIENT_QUEUE_PAYLOAD with 64; lia).
  rewrite u32_page_limit, (u32_small (HW_FENCE_CLIENT_QUEUE_PAYLOAD * _)) by lia. cbv zeta.
  set (qs := HW_FENCE_CLIENT_QUEUE_PAYLOAD * queue_entries d) in *.
  set (hd := HW_FENCE_HFI_CLIENT_HEADERS_SIZE (queues_num d)) in *.
  assert (Hhd : 0 <= hd).
  { unfold hd, HW_FENCE_HFI_CLIENT_HEADERS_SIZE. pose proof table_header_small.
    pose proof queue_header_small. nia. }
  rewrite u64_small by lia.
  destruct (Z.geb_spec qs ((2 ^ 32 - PAGE_SIZE - (hd + start_padding d + end_padding d)) / queues_num d))
    as [|Hqs]; [done|].
  assert (Hfit : queues_num d * qs < 2 ^ 32 - PAGE_SIZE - (hd + start_padding d + end_padding d)).
  { set (lim := 2 ^ 32 - PAGE_SIZE - _) in *.
    pose proof (Z.mul_div_le lim (queues_num d) ltac:(lia)).
    apply Z.lt_le_trans with (queues_num d * (lim / queues_num d)); [|done].
    apply Z.mul_lt_mono_pos_l; lia. }
  assert (Hqs0 : 0 <= queues_num d * qs) by nia.
  rewrite (Z.mul_comm qs (queues_num d)), (u32_small (queues_num d * qs)) by lia.
  set (tot := hd + queues_num d * qs + start_padding d + end_padding d).
  assert (Ht : 0 <= tot <= 2 ^ 32 - PAGE_SIZE) by (unfold tot; lia).
  pose proof (page_align_bounds tot) as Hb. assert (Hb2 : PAGE_ALIGN tot < 2 ^ 32) by (apply page_align_limit; lia).
  assert (Hm : mem_size (desc_set_mem_size (PAGE_ALIGN tot) d) = PAGE_ALIGN tot) by (cbn; apply u32_small; lia).
  rewrite Hm. destruct (Z.gtb_spec (PAGE_ALIGN tot) MAX_CLIENT_QUEUE_MEM_SIZE) as [|Hmax]; [done|].
  intros [= <-]. exists (PAGE_ALIGN tot). split; [done|].
  split; [change (U32_MAX / HW_FENCE_CLIENT_QUEUE_PAYLOAD) with 67108863 in He2; lia|]. rewrite Hm.
  split; [|apply page_align_mod]. split; [|done].
  assert (queues_bytes d = tot) as -> by (unfold queues_bytes, tot; fold qs hd; lia). lia.
Qed.

(** What is read before the sizes are computed. *)
Lemma parse_indv_read c d d' :
  desc_raw d -> is_u32 (hw_fence_queue_entries c) ->
  _parse_client_queue_dt_props_indv c d = (0, d') ->
  exists d1 d2, extra_ok d1 d2 /\ compute_mem_size d2 = (0, d') /\
    name d1 = name d /\ init_id d1 = init_id d /\ max_clients_num d1 = max_clients_num d /\
    0 <= clients_num d1 <= max_clients_num d1 /\ 1 <= queues_num d1 <= 2 /\ 0 < queue_entries d1.
Proof.
  intros [Hcl Hqn Hpad Hidx] Hqe. unfold _parse_client_queue_dt_props_indv.
  destruct (of_property_read_u32_array _ 4) as [ret tmp] eqn:Hr. cbv zeta.
  set (d0 := if truthy ret then _ else desc_set_dt _ _ _ _).
  destruct (negb (truthy ret) && _); [done|]. set (d1 := if truthy ret then d0 else _).
  assert (Hd1 : name d1 = name d /\ init_id d1 = init_id d /\ max_clients_num d1 = max_clients_num d /\
      start_padding d1 = 0 /\ end_padding d1 = 0 /\
      (txq_idx_start d1 = 0 /\ txq_idx_factor d1 = 0) /\
      is_u32 (clients_num d1) /\ is_u32 (queues_num d1) /\ is_u32 (queue_entries d1)).
  { unfold d1, d0. destruct (truthy ret) eqn:Hret; unfold desc_set_skip, desc_set_dt;
      cbn [name init_id max_clients_num start_padding end_padding clients_num
      queues_num queue_entries txq_idx_start txq_idx_factor]; [by rewrite !(proj1 Hpad), !(proj2 Hpad)|].
    assert (ret = 0) as -> by (unfold truthy in Hret; by zbool).
    apply read_array_ok in Hr as [_ Htmp]. destruct Hpad as [-> ->].
    do 6 (split; [done|]). split; [|split]; by apply znth_u32. }
  clearbody d1. destruct Hd1 as (Hn & Hi & Hm & Hsp & Hep & Hidx1 & H1 & H2 & H3).
  destruct (_ || negb (truthy (queue_entries d1))) eqn:Hchk; [done|].
  unfold truthy in Hchk. zbool. unfold is_u32 in *. unfold HW_FENCE_CLIENT_QUEUES in *.
  destruct (_parse_client_queue_dt_props_extra d1) as [ret2 d2] eqn:Hx.
  destruct (truthy ret2) eqn:Hret2; [done|].
  assert (ret2 = 0) as -> by (unfold truthy in Hret2; by zbool).
  apply parse_extra_ok in Hx; [|done|done|lia]. intros Hcm. exists d1, d2.
  do 5 (split; [done|]). lia.
Qed.

(** C21: a client type that the parser accepts has a memory size that holds its
    headers, paddings and queues, is a whole number of pages and at most
    [MAX_CLIENT_QUEUE_MEM_SIZE], provided that its headers and paddings end below
    the last page of the 32-bit range. The parser does not check the paddings
    that it reads: beyond that limit it accepts a size that wrapped around
    ([padding_overflows]). *)
Theorem parse_indv_sound c d d' :
  desc_raw d -> is_u32 (hw_fence_queue_entries c) ->
  _parse_client_queue_dt_props_indv c d = (0, d') ->
  HW_FENCE_HFI_CLIENT_HEADERS_SIZE (queues_num d') + start_padding d' + end_padding d' <= 2 ^ 32 - PAGE_SIZE ->
  desc_ok d' /\ name d' = name d /\ init_id d' = init_id d /\ max_clients_num d' = max_clients_num d.
Proof.
  intros Hraw Hqe H Hlim.
  destruct (parse_indv_read c d d' Hraw Hqe H) as (d1 & d2 & [Hsame Hpad Hidx] & Hc & Hn & Hi & Hm & H1 & H2 & H3).
  destruct Hsame as (Hn2 & Hi2 & Hm2 & Hc2 & Hq2 & He2). unfold is_u32 in Hpad.
  assert (Hsz : exists v, d' = desc_set_mem_size v d2 /\ queue_entries d2 < 2 ^ 26 /\
      queues_bytes d2 <= mem_size d' <= MAX_CLIENT_QUEUE_MEM_SIZE /\ mem_size d' mod PAGE_SIZE = 0).
  { apply compute_mem_size_ok; try lia; [|done].
    assert (Hd : queues_num d' = queues_num d2 /\ start_padding d' = start_padding d2 /\
        end_padding d' = end_padding d2).
    { unfold compute_mem_size in Hc. cbv zeta in Hc.
      destruct (queue_entries d2 >=? _); [done|]. destruct (u32 _ >=? _); [done|].
      destruct (mem_size _ >? _); [done|]. by injection Hc as <-. }
    destruct Hd as (<- & <- & <-). exact Hlim. }
  destruct Hsz as (v & Hd' & Hlt & Hmem & Hpage). specialize (Hidx Hlt). split.
  - split; [| | | |by rewrite Hd'|rewrite Hd' at 1; exact Hmem|done]; rewrite Hd'; cbn; rewrite ?Hc2, ?Hq2, ?He2, ?Hm2; try lia.
  - rewrite Hd'. cbn. by rewrite Hn2, Hi2, Hm2, Hn, Hi, Hm.
Qed.

End parse.

(** ** The numbering of the clients *)

Section numbering.
Context `{E : HwFenceEnv}.
Implicit Types (l types : list hw_fence_client_type_desc).

Definition counts_ok l : Prop :=
  Forall (fun d => 0 <= clients_num d <= MSM_HW_FENCE_MAX_SIGNAL_PER_CLIENT) l.

Lemma counts_ok_bool l :
  forallb (fun d => (0 <=? clients_num d) && (clients_num d <=? MSM_HW_FENCE_MAX_SIGNAL_PER_CLIENT)) l = true ->
  counts_ok l.
Proof.
  intros H. apply Forall_forall. intros d Hd. rewrite forallb_forall in H.
  apply list_elem_of_In in Hd. specialize (H d Hd). zbool. lia.
Qed.

Lemma clients_of_app l l' : clients_of (l ++ l') = clients_of l + clients_of l'.
Proof.
  induction l as [|d l IH]; [done|].
  change (clients_num d + clients_of (l ++ l') = clients_num d + clients_of l + clients_of l'). lia.
Qed.

Lemma clients_of_nonneg l : counts_ok l -> 0 <= clients_of l.
Proof. intros H. apply zsum_nonneg. intros d Hd. apply (proj1 (Forall_forall _ l) H d Hd). Qed.

Lemma clients_of_take_S l i d : l !! i = Some d ->
  clients_of (take (S i) l) = clients_of (take i l) + clients_num d.
Proof. intros H. rewrite (take_S_r l i d H), clients_of_app. cbn. lia. Qed.

Lemma clients_of_take_mono l i i' : counts_ok l -> (i <= i')%nat ->
  clients_of (take i l) <= clients_of (take i' l).
Proof.
  intros Hl Hi. replace (take i' l) with (take i l ++ take (i' - i) (drop i l)).
  - rewrite clients_of_app. assert (0 <= clients_of (take (i' - i) (drop i l))); [|lia].
    apply clients_of_nonneg. by apply Forall_take, Forall_drop.
  - rewrite take_take_drop. f_equal. lia.
Qed.

Lemma clients_of_take_le l i : counts_ok l -> clients_of (take i l) <= clients_of l.
Proof.
  intros Hl. rewrite <- (take_drop i l) at 2. rewrite clients_of_app.
  pose proof (clients_of_nonneg (drop i l) ltac:(by apply Forall_drop)). lia.
Qed.

(** Each number belongs to one place of one type. *)
Lemma place_unique l i o d i' o' d' : counts_ok l ->
  l !! i = Some d -> 0 <= o < clients_num d -> l !! i' = Some d' -> 0 <= o' < clients_num d' ->
  clients_of (take i l) + o = clients_of (take i' l) + o' -> i = i' /\ o = o'.
Proof.
  intros Hl Hi Ho Hi' Ho' Heq.
  pose proof (clients_of_take_S l i d Hi). pose proof (clients_of_take_S l i' d' Hi').
  destruct (Nat.lt_trichotomy i i') as [Hlt|[->|Hlt]]; [|by split; [|lia]|].
  - pose proof (clients_of_take_mono l (S i) i' Hl ltac:(lia)). lia.
  - pose proof (clients_of_take_mono l (S i') i Hl ltac:(lia)). lia.
Qed.

Lemma place_exists l q : counts_ok l -> 0 <= q < clients_of l ->
  exists i o d, l !! i = Some d /\ 0 <= o < clients_num d /\ q = clients_of (take i l) + o.
Proof.
  revert q. induction l as [|d l IH]; intros q Hl Hq; [cbn in Hq; lia|].
  apply Forall_cons in Hl as [Hd Hl]. change (clients_of (d :: l)) with (clients_num d + clients_of l) in Hq.
  destruct (Z.lt_ge_cases q (clients_num d)).
  - exists O, q, d. split; [done|]. split; [lia|]. by rewrite take_0.
  - destruct (IH (q - clients_num d) Hl ltac:(lia)) as (i & o & d' & Hi & Ho & Heq).
    exists (S i), o, d'. split; [done|]. split; [done|].
    change (clients_of (take (S i) (d :: l))) with (clients_num d + clients_of (take i l)). lia.
Qed.

(** The number of clients of a table of types. *)
Definition clients_total types : Z :=
  HW_FENCE_MAX_STATIC_CLIENTS_INDEX + clients_of (drop HW_FENCE_MAX_CLIENT_TYPE_STATIC types).

(** A configurable client identifier by its type and its place there. *)
Lemma get_client_id_place types e p :
  HW_FENCE_MAX_STATIC_CLIENTS_INDEX <= e -> 0 < MSM_HW_FENCE_MAX_SIGNAL_PER_CLIENT ->
  hw_fence_utils_get_client_id_priv types e = Some p -> p <> HW_FENCE_CLIENT_MAX ->
  exists i o d, e = HW_FENCE_MAX_STATIC_CLIENTS_INDEX + Z.of_nat i * MSM_HW_FENCE_MAX_SIGNAL_PER_CLIENT + o /\
    drop HW_FENCE_MAX_CLIENT_TYPE_STATIC types !! i = Some d /\ 0 <= o < clients_num d /\
    p = HW_FENCE_MAX_STATIC_CLIENTS_INDEX + o +
        clients_of (take i (drop HW_FENCE_MAX_CLIENT_TYPE_STATIC types)).
Proof.
  intros He HS. unfold hw_fence_utils_get_client_id_priv.
  destruct (Z.ltb_spec e HW_FENCE_MAX_STATIC_CLIENTS_INDEX); [lia|].
  set (S := MSM_HW_FENCE_MAX_SIGNAL_PER_CLIENT) in *. set (x := e - HW_FENCE_MAX_STATIC_CLIENTS_INDEX).
  pose proof (Z.div_mod x S ltac:(lia)) as Hdm. pose proof (Z.mod_pos_bound x S ltac:(lia)).
  assert (0 <= x / S) by (apply Z.div_pos; lia).
  destruct (types !! (HW_FENCE_MAX_CLIENT_TYPE_STATIC + Z.to_nat (x / S))%nat) as [d|] eqn:Hd; [|done].
  cbv zeta. destruct (Z.geb_spec (x mod S) (clients_num d)); [congruence|]. intros [= <-] _.
  exists (Z.to_nat (x / S)), (x mod S), d. split; [unfold x in *; lia|].
  split; [by rewrite lookup_drop|]. split; [lia|done].
Qed.

Lemma get_client_id_of_place types i o d :
  drop HW_FENCE_MAX_CLIENT_TYPE_STATIC types !! i = Some d -> 0 <= o < clients_num d ->
  clients_num d <= MSM_HW_FENCE_MAX_SIGNAL_PER_CLIENT ->
  hw_fence_utils_get_client_id_priv types
    (HW_FENCE_MAX_STATIC_CLIENTS_INDEX + Z.of_nat i * MSM_HW_FENCE_MAX_SIGNAL_PER_CLIENT + o) =
  Some (HW_FENCE_MAX_STATIC_CLIENTS_INDEX + o + clients_of (take i (drop HW_FENCE_MAX_CLIENT_TYPE_STATIC types))).
Proof.
  intros Hd Ho HS. unfold hw_fence_utils_get_client_id_priv.
  set (S := MSM_HW_FENCE_MAX_SIGNAL_PER_CLIENT) in *. set (B := HW_FENCE_MAX_STATIC_CLIENTS_INDEX).
  replace (B + Z.of_nat i * S + o - B) with (o + Z.of_nat i * S) by lia.
  destruct (Z.ltb_spec (B + Z.of_nat i * S + o) B); [nia|].
  rewrite Z.div_add, Z_mod_plus_full, Z.div_small, Z.mod_small, Z.add_0_l, Nat2Z.id by lia.
  rewrite lookup_drop in Hd. rewrite Hd. cbv zeta.
  destruct (Z.geb_spec o (clients_num d)); [lia|done].
Qed.

(** The numbering of the clients is a bijection. External identifiers that
    are accepted map one to one onto the internal identifiers below
    [clients_num]; the others map to [HW_FENCE_CLIENT_MAX]. *)
Theorem client_id_priv_bijective types :
  counts_ok types -> 0 < MSM_HW_FENCE_MAX_SIGNAL_PER_CLIENT ->
  0 <= HW_FENCE_MAX_STATIC_CLIENTS_INDEX -> clients_total types <= HW_FENCE_CLIENT_MAX ->
  (forall e p, 0 <= e -> hw_fence_utils_get_client_id_priv types e = Some p ->
     p = HW_FENCE_CLIENT_MAX \/ 0 <= p < clients_total types) /\
  (forall e e' p, 0 <= e -> 0 <= e' -> p < clients_total types ->
     hw_fence_utils_get_client_id_priv types e = Some p ->
     hw_fence_utils_get_client_id_priv types e' = Some p -> e = e') /\
  (forall p, 0 <= p < clients_total types ->
     exists e, 0 <= e /\ hw_fence_utils_get_client_id_priv types e = Some p).
Proof.
  intros Hc HS HB Hmax. unfold clients_total in *.
  set (l := drop HW_FENCE_MAX_CLIENT_TYPE_STATIC types) in *.
  assert (Hl : counts_ok l) by (by apply Forall_drop).
  pose proof (clients_of_nonneg l Hl) as Hl0.
  assert (Hlow : forall e, e < HW_FENCE_MAX_STATIC_CLIENTS_INDEX ->
      hw_fence_utils_get_client_id_priv types e = Some e).
  { intros e He. unfold hw_fence_utils_get_client_id_priv.
    by destruct (Z.ltb_spec e HW_FENCE_MAX_STATIC_CLIENTS_INDEX); [|lia]. }
  assert (Hhigh : forall e p, HW_FENCE_MAX_STATIC_CLIENTS_INDEX <= e ->
      hw_fence_utils_get_client_id_priv types e = Some p -> p <> HW_FENCE_CLIENT_MAX ->
      HW_FENCE_MAX_STATIC_CLIENTS_INDEX <= p < HW_FENCE_MAX_STATIC_CLIENTS_INDEX + clients_of l).
  { intros e p He Hp Hne. destruct (get_client_id_place types e p He HS Hp Hne) as (i & o & d & _ & Hd & Ho & ->).
    fold l in Hd |- *. pose proof (clients_of_take_S l i d Hd).
    pose proof (clients_of_take_le l (S i) Hl).
    pose proof (clients_of_nonneg (take i l) ltac:(by apply Forall_take)). lia. }
  split; [|split].
  - intros e p He Hp. destruct (Z.lt_ge_cases e HW_FENCE_MAX_STATIC_CLIENTS_INDEX) as [Hlt|Hge].
    + rewrite Hlow in Hp by done. injection Hp as <-. right. lia.
    + destruct (Z.eq_dec p HW_FENCE_CLIENT_MAX); [by left|right].
      pose proof (Hhigh e p Hge Hp ltac:(done)). lia.
  - intros e e' p He He' Hp H1 H2.
    destruct (Z.lt_ge_cases e HW_FENCE_MAX_STATIC_CLIENTS_INDEX) as [Hlt|Hge];
      destruct (Z.lt_ge_cases e' HW_FENCE_MAX_STATIC_CLIENTS_INDEX) as [Hlt'|Hge'].
    + rewrite Hlow in H1, H2 by done. congruence.
    + rewrite Hlow in H1 by done. injection H1 as <-. pose proof (Hhigh e' e Hge' H2 ltac:(lia)). lia.
    + rewrite Hlow in H2 by done. injection H2 as <-. pose proof (Hhigh e e' Hge H1 ltac:(lia)). lia.
    + destruct (get_client_id_place types e p Hge HS H1 ltac:(lia)) as (i & o & d & -> & Hd & Ho & Hpe).
      destruct (get_client_id_place types e' p Hge' HS H2 ltac:(lia)) as (i' & o' & d' & -> & Hd' & Ho' & Hpe').
      destruct (place_unique l i o d i' o' d' Hl Hd Ho Hd' Ho') as [-> ->]; [unfold l; lia|done].
  - intros p Hp. destruct (Z.lt_ge_cases p HW_FENCE_MAX_STATIC_CLIENTS_INDEX) as [Hlt|Hge].
    + exists p. split; [lia|by apply Hlow].
    + assert (Hq : 0 <= p - HW_FENCE_MAX_STATIC_CLIENTS_INDEX < clients_of l) by lia.
      destruct (place_exists l _ Hl Hq)
        as (i & o & d & Hd & Ho & Heq).
      pose proof (Forall_lookup_1 _ _ _ _ Hl Hd) as [_ HdS].
      eexists. split; [|rewrite (get_client_id_of_place types i o d Hd Ho HdS); f_equal; unfold l in Heq; lia]. nia.
Qed.

End numbering.

(** ** The queues of a client *)

Section queues.
Context `{E : HwFenceEnv} `{L : DeviceTreeLaws}.

Definition zero_header : hfi_queue_header := mk_hfi_header 0 0 0 0 0 0 0.

(** The region as [hw_fence_utils_alloc_mem] leaves it: zeroed. *)
Record zeroed (old : region_content) (entries : Z) : Prop := mk_zeroed {
  ze_header i : old_header old i = zero_header;
  ze_dwords i : zlen (old_dwords old i) = PAYLOAD_U32 * entries
}.

(** The parameters of the transmit queue that a type gives. *)
Definition tx_factor (d : hw_fence_client_type_desc) : Z :=
  if truthy (txq_idx_factor d) then txq_idx_factor d else 1.

(** Queue [i] of a client whose type is [d]. *)
Definition client_queue (phys : Z) (old : region_content) (d : hw_fence_client_type_desc) (i : nat) :
    queue_place :=
  init_queue phys old (HW_FENCE_HFI_TABLE_HEADER_SIZE + start_padding d)
    (HW_FENCE_HFI_CLIENT_HEADERS_SIZE (queues_num d) + start_padding d + end_padding d)
    (HW_FENCE_CLIENT_QUEUE_PAYLOAD * queue_entries d) HW_FENCE_CLIENT_QUEUE_PAYLOAD
    (txq_idx_start d) (tx_factor d) (skip_txq_wr_idx d) i.

Lemma client_queue_ring phys old d i :
  desc_ok d -> 1 < queue_entries d -> zeroed old (queue_entries d) ->
  queue_at (queue_entries d) (qp_queue (client_queue phys old d i)) 0 0.
Proof.
  intros Hd He [Hh Hdw]. destruct (do_mem d Hd) as [_ Hmax]. destruct (do_index d Hd) as [Hst Hidx].
  assert (H26 : queue_entries d < 2 ^ 26).
  { destruct (do_mem d Hd) as [Hb _]. unfold queues_bytes, HW_FENCE_HFI_CLIENT_HEADERS_SIZE in Hb.
    destruct (do_queues d Hd), (do_paddings d Hd) as (? & ? & _).
    pose proof table_header_small. pose proof queue_header_small.
    unfold MAX_CLIENT_QUEUE_MEM_SIZE in *. change HW_FENCE_CLIENT_QUEUE_PAYLOAD with 64 in Hb. nia. }
  unfold client_queue, init_queue. cbn [qp_queue]. rewrite Hh. cbn [write_index zero_header].
  unfold U32_MAX in Hidx. change PAYLOAD_U32 with 16 in *.
  set (tx := Z.of_nat i =? HW_FENCE_TX_QUEUE - 1).
  split; [split|lia|lia|].
  - done.
  - cbn [q_size_bytes]. rewrite u32_small by (change HW_FENCE_CLIENT_QUEUE_PAYLOAD with 64; lia). done.
  - change SIZEOF_QUEUE_PAYLOAD with 64. lia.
  - cbn [va_queue]. by rewrite Hdw.
  - cbn [rd_wr_idx_factor]. change PAYLOAD_U32 with 16. unfold tx_factor.
    destruct tx; [|by left]. destruct Hidx as [[-> _]|[[->| ->] _]]; cbn; auto.
  - cbn [rd_wr_idx_start]. destruct tx; lia.
  - unfold slot_idx, stride, tx_factor. cbn [rd_wr_idx_start rd_wr_idx_factor].
    destruct tx; [|change (PAYLOAD_U32 / 1) with 16; lia].
    destruct Hidx as [[-> Hi]|[[->| ->] Hi]]; cbn [truthy negb Z.eqb]; change (PAYLOAD_U32 / 16) with 1;
      change (PAYLOAD_U32 / 1) with 16; lia.
  - eexists. split; [done|]. unfold slot_idx, wr_index. cbn -[Z.mul Z.div].
    rewrite !Z.mul_0_l, !Z.add_0_r.
    assert (Hs : u32 (txq_idx_start d) = txq_idx_start d) by (apply u32_small; lia).
    unfold truthy.
    destruct tx, (Z.eqb_spec (txq_idx_start d) 0) as [Hs0|Hs0], (skip_txq_wr_idx d); cbn; rewrite ?Hs, ?Hs0; done.
Qed.


End queues.

(** ** The regions of the carve-out *)

Section regions.
Context `{E : HwFenceEnv} `{L : DeviceTreeLaws}.
Implicit Types (types : list hw_fence_client_type_desc) (l : list (option (nat * Z))).

(** The clients placed so far lie in [s0 .. s] and do not overlap. *)
Record placed types (s0 s : Z) l : Prop := mk_placed {
  pl_bounds id t off : l !! id = Some (Some (t, off)) ->
    exists d, types !! t = Some d /\ s0 <= off /\ off + mem_size d <= s;
  pl_disjoint id id' t t' off off' d d' :
    id <> id' -> l !! id = Some (Some (t, off)) -> l !! id' = Some (Some (t', off')) ->
    types !! t = Some d -> types !! t' = Some d' ->
    off + mem_size d <= off' \/ off' + mem_size d' <= off
}.

Lemma placed_empty types s n : placed types s s (replicate n None).
Proof.
  assert (H : forall id t off, replicate n (@None (nat * Z)) !! id = Some (Some (t, off)) -> False).
  { intros id t off Hid. by apply lookup_replicate in Hid as [? _]. }
  split; intros; by exfalso; eapply H.
Qed.

(** One more client, behind all the others. *)
Lemma placed_snoc types s0 s l id t d :
  placed types s0 s l -> types !! t = Some d -> s0 <= s -> 0 <= mem_size d ->
  placed types s0 (s + mem_size d) (<[id := Some (t, s)]> l).
Proof.
  intros [Hb Hd] Ht Hs Hm. split.
  - intros i t' off Hi. apply list_lookup_insert_Some in Hi as [(-> & [= -> ->] & _)|(_ & Hi)].
    + exists d. split; [done|lia].
    + destruct (Hb i t' off Hi) as (d' & Hd' & ? & ?). exists d'. split; [done|lia].
  - intros i i' t1 t2 o1 o2 d1 d2 Hne H1 H2 Ht1 Ht2.
    apply list_lookup_insert_Some in H1 as [(-> & [= -> ->] & _)|(_ & H1)];
      apply list_lookup_insert_Some in H2 as [(-> & [= -> ->] & _)|(_ & H2)]; try done.
    + destruct (Hb i' t2 o2 H2) as (d' & Hd' & ? & ?). replace d2 with d' by congruence. lia.
    + destruct (Hb i t1 o1 H1) as (d' & Hd' & ? & ?). replace d1 with d' by congruence. lia.
    + by eapply Hd.
Qed.

Lemma place_clients_ok types s0 n : forall j t d l s l' s',
  place_clients n j t d types l s = Some (l', s') -> types !! t = Some d ->
  0 <= s0 <= s -> 0 <= mem_size d -> s + Z.of_nat n * mem_size d < 2 ^ 32 -> placed types s0 s l ->
  placed types s0 s' l' /\ s' = s + Z.of_nat n * mem_size d /\ length l' = length l.
Proof.
  induction n as [|n IH]; intros j t d l s l' s' H Ht Hs Hm Hb Hp; cbn [place_clients] in H.
  { injection H as <- <-. split; [done|]. split; [lia|done]. }
  destruct (hw_fence_utils_get_client_id_priv types (init_id d + j)) as [id|]; [|done].
  destruct (Z.ltb_spec id 0), (Z.geb_spec id (zlen l)); try done. cbn [orb] in H.
  rewrite u32_small in H by nia.
  apply IH in H as (Hp' & -> & Hl'); [|done|lia|lia|nia|].
  - split; [done|]. split; [nia|]. by rewrite Hl', length_zupd.
  - unfold zupd. destruct (Z.ltb_spec id 0); [lia|]. by apply placed_snoc; [| |lia|].
Qed.

(** The memory that the types of [ts] take. *)
Definition types_bytes types (ts : list nat) : Z :=
  zsum (fun t => match types !! t with Some d => clients_num d * mem_size d | None => 0 end) ts.

Definition types_sane types : Prop := Forall (fun d => 0 <= clients_num d /\ 0 <= mem_size d) types.

Lemma types_bytes_nonneg types ts : types_sane types -> 0 <= types_bytes types ts.
Proof.
  intros H. apply zsum_nonneg. intros t _. destruct (types !! t) as [d|] eqn:Hd; [|lia].
  destruct (Forall_lookup_1 _ _ _ _ H Hd). nia.
Qed.

Lemma place_types_ok types s0 ts : types_sane types -> forall l s l' s',
  place_types ts types l s = Some (l', s') -> 0 <= s0 <= s ->
  s + types_bytes types ts < 2 ^ 32 -> placed types s0 s l ->
  placed types s0 s' l' /\ s' = s + types_bytes types ts.
Proof.
  intros Hsane. induction ts as [|t ts IH]; intros l s l' s' H Hs Hb Hp; cbn [place_types] in H.
  { injection H as <- <-. split; [done|]. unfold types_bytes. cbn. lia. }
  destruct (types !! t) as [d|] eqn:Ht; [|done].
  destruct (place_clients _ _ _ _ _ _ _) as [[l1 s1]|] eqn:Hc; [|done].
  destruct (Forall_lookup_1 _ _ _ _ Hsane Ht) as [Hcn Hm].
  change (types_bytes types (t :: ts)) with
    (match types !! t with Some d => clients_num d * mem_size d | None => 0 end + types_bytes types ts) in *.
  rewrite Ht in Hb |- *. pose proof (types_bytes_nonneg types ts Hsane).
  apply (place_clients_ok types s0) in Hc as (Hp1 & -> & _); [|done|lia|done|rewrite Z2Nat.id; lia|done].
  rewrite Z2Nat.id in * by lia.
  apply IH in H as (Hp2 & ->); [|nia|lia|done]. split; [done|lia].
Qed.

(** Two reservations; a client queue has a client. *)
Definition distinct_reservations (a b : hw_fence_mem_reserve * Z) : Prop :=
  a.1 <> b.1 \/ (a.1 = HW_FENCE_MEM_RESERVE_CLIENT_QUEUE /\ a.2 <> b.2).

Definition proper_reservation (a : hw_fence_mem_reserve * Z) : Prop :=
  a.1 = HW_FENCE_MEM_RESERVE_CLIENT_QUEUE -> 0 <= a.2.

(** A configuration whose sizes add up. *)
Record layout_ok (c : hw_fence_conf) : Prop := mk_layout_ok {
  lo_sizes : 0 <= hw_fence_mem_ctrl_queues_size c /\ 0 <= cf_rxq_clients_num c /\
    0 <= hw_fence_mem_fences_table_size c;
  lo_start : exists s0, hw_fence_mem_ctrl_queues_size c + HW_FENCE_MEM_LOCKS_SIZE (cf_rxq_clients_num c)
      + hw_fence_mem_fences_table_size c <= s0 <= used_mem_size c /\
    placed (hw_fence_client_types c) s0 (used_mem_size c) (hw_fence_client_queue_size c);
  lo_sane : types_sane (hw_fence_client_types c);
  lo_used : used_mem_size c <= carveout_size c;
  lo_u32 : used_mem_size c < 2 ^ 32 /\ carveout_size c < 2 ^ 32
}.

(** Where a reservation lies; [k] orders the regions. *)
Lemma reserve_bounds c a off size :
  layout_ok c -> proper_reservation a ->
  hw_fence_utils_reserve_mem c a.1 a.2 0 = (0, off, size) ->
  0 <= size /\ 0 <= off /\ off + size <= carveout_size c /\
  match a.1 with
  | HW_FENCE_MEM_RESERVE_CTRL_QUEUE => off = 0 /\ size = hw_fence_mem_ctrl_queues_size c
  | HW_FENCE_MEM_RESERVE_LOCKS_REGION => off = hw_fence_mem_ctrl_queues_size c /\
      size = HW_FENCE_MEM_LOCKS_SIZE (cf_rxq_clients_num c)
  | HW_FENCE_MEM_RESERVE_TABLE =>
      off = hw_fence_mem_ctrl_queues_size c + HW_FENCE_MEM_LOCKS_SIZE (cf_rxq_clients_num c) /\
      size = hw_fence_mem_fences_table_size c
  | HW_FENCE_MEM_RESERVE_CLIENT_QUEUE => exists t d,
      hw_fence_client_queue_size c !! Z.to_nat a.2 = Some (Some (t, off)) /\
      hw_fence_client_types c !! t = Some d /\ size = mem_size d
  | HW_FENCE_MEM_RESERVE_EVENTS_BUFF => off = used_mem_size c
  end.
Proof.
  intros [(Hs1 & Hs2 & Hs3) (s0 & Hs0 & Hpl) Hsane Hused [Hu1 Hu2]] Hprop.
  unfold HW_FENCE_MEM_LOCKS_SIZE in *. destruct a as [[] id]; cbn [fst snd] in *;
    unfold hw_fence_utils_reserve_mem, HW_FENCE_MEM_LOCKS_SIZE; cbv zeta.
  - destruct (_ >? _) eqn:Hg; [done|]. intros [= <- <-]. zbool. rewrite u32_small in Hg by lia. lia.
  - rewrite (u32_small (8 * _)) by lia. destruct (_ >? _) eqn:Hg; [done|]. intros [= <- <-]. zbool.
    rewrite u32_small in Hg by lia. lia.
  - rewrite (u32_small (_ + 8 * _)) by lia. destruct (_ >? _) eqn:Hg; [done|]. intros [= <- <-]. zbool.
    rewrite u32_small in Hg by lia. lia.
  - specialize (Hprop eq_refl). destruct (id >=? cf_clients_num c); [done|].
    unfold znth. destruct (Z.ltb_spec id 0); [done|].
    destruct (hw_fence_client_queue_size c !! Z.to_nat id) as [[[t o]|]|] eqn:Hq; [|done|done].
    change (default None (Some (Some (t, o)))) with (Some (t, o)). cbv iota beta.
    destruct (hw_fence_client_types c !! t) as [d|] eqn:Ht; [|done].
    destruct (_ >? _) eqn:Hg; [done|]. intros [= <- <-]. zbool.
    destruct (pl_bounds _ _ _ _ Hpl _ _ _ Hq) as (d' & Hd' & Ho & Hm). replace d' with d in Hm by congruence.
    destruct (Forall_lookup_1 _ _ _ _ Hsane Ht).
    rewrite u32_small in Hg by lia. split; [lia|]. split; [lia|]. split; [lia|]. by exists t, d.
  - destruct (Z.geb_spec (used_mem_size c) (carveout_size c)); [done|]. cbn [orb].
    assert (Hr : u32 (carveout_size c - used_mem_size c) = carveout_size c - used_mem_size c)
      by (apply u32_small; lia). rewrite Hr.
    destruct (_ <? SIZEOF_EVENT) eqn:He; [done|]. zbool.
    set (n := _ / SIZEOF_EVENT).
    assert (Hn : 0 <= n /\ n * SIZEOF_EVENT <= carveout_size c - used_mem_size c).
    { unfold n. change SIZEOF_EVENT with 64 in *. split; [apply Z.div_pos; lia|].
      pose proof (Z.mul_div_le (carveout_size c - used_mem_size c) 64 ltac:(lia)). lia. }
    assert (Hm : 0 <= (if n >? HW_FENCE_MAX_EVENTS then HW_FENCE_MAX_EVENTS else n) * SIZEOF_EVENT
               <= carveout_size c - used_mem_size c).
    { unfold HW_FENCE_MAX_EVENTS in *. change SIZEOF_EVENT with 64 in *. destruct (Z.gtb_spec n 1000); lia. }
    rewrite (u32_small (_ * SIZEOF_EVENT)) by lia.
    destruct (_ >? carveout_size c) eqn:Hg; [done|]. intros [= <- <-]. zbool. lia.
Qed.

(** Two reservations of a configuration whose sizes add up are apart. *)
Lemma layout_disjoint c a b off size off' size' :
  layout_ok c -> proper_reservation a -> proper_reservation b -> distinct_reservations a b ->
  hw_fence_utils_reserve_mem c a.1 a.2 0 = (0, off, size) ->
  hw_fence_utils_reserve_mem c b.1 b.2 0 = (0, off', size') ->
  (off + size <= off' \/ off' + size' <= off) /\
  0 <= off /\ off + size <= carveout_size c /\ 0 <= off' /\ off' + size' <= carveout_size c.
Proof.
  intros Hc Ha Hb Hne Hra Hrb.
  destruct (reserve_bounds c a off size Hc Ha Hra) as (H1 & H2 & H3 & Hca).
  destruct (reserve_bounds c b off' size' Hc Hb Hrb) as (H1' & H2' & H3' & Hcb).
  split; [|done]. destruct Hc as [(Hs1 & Hs2 & Hs3) (s0 & Hs0 & [Hpb Hpd]) _ _ _].
  unfold HW_FENCE_MEM_LOCKS_SIZE in *. unfold proper_reservation, distinct_reservations in *.
  assert (Hcl : forall id t o d, hw_fence_client_queue_size c !! Z.to_nat id = Some (Some (t, o)) ->
      hw_fence_client_types c !! t = Some d -> s0 <= o /\ o + mem_size d <= used_mem_size c).
  { intros id t o d Hq Ht. destruct (Hpb _ _ _ Hq) as (d' & Hd' & ? & ?).
    replace d with d' by congruence. done. }
  destruct a as [[] id], b as [[] id']; cbn [fst snd] in *;
    try (exfalso; destruct Hne as [Hne|[Hne _]]; congruence);
    repeat match goal with
    | H : exists _ _, _ /\ _ /\ size = _ |- _ => destruct H as (t & d & Hq & Ht & ->); destruct (Hcl _ _ _ _ Hq Ht)
    | H : exists _ _, _ /\ _ /\ size' = _ |- _ => destruct H as (t' & d' & Hq' & Ht' & ->); destruct (Hcl _ _ _ _ Hq' Ht')
    end; try lia.
  destruct Hne as [Hne|[_ Hne]]; [done|].
  apply (Hpd (Z.to_nat id) (Z.to_nat id') t t'); try done.
  specialize (Ha eq_refl). specialize (Hb eq_refl). lia.
Qed.

End regions.

(** ** The parser establishes the layout *)

Section parser.
Context `{E : HwFenceEnv} `{L : DeviceTreeLaws}.

Lemma compute_mem_size_sane d d' : compute_mem_size d = (0, d') ->
  clients_num d' = clients_num d /\ 0 <= mem_size d'.
Proof.
  unfold compute_mem_size. cbv zeta. destruct (queue_entries d >=? _); [done|].
  destruct (u32 _ >=? _); [done|]. destruct (mem_size _ >? _); [done|]. intros [= <-].
  split; [done|]. apply u32_range.
Qed.

Lemma parse_indv_sane c d d' : desc_raw d -> is_u32 (hw_fence_queue_entries c) ->
  _parse_client_queue_dt_props_indv c d = (0, d') -> 0 <= clients_num d' /\ 0 <= mem_size d'.
Proof.
  intros Hraw Hqe H.
  destruct (parse_indv_read c d d' Hraw Hqe H) as (d1 & d2 & [Hsame _ _] & Hc & _ & _ & _ & Hcl & _).
  apply compute_mem_size_sane in Hc as [-> Hm]. split; [lia|done].
Qed.

(** The first loop changes the types only, and leaves sane ones behind it. *)
Lemma parse_types_ok n : forall i c rxq cfg c' rxq' cfg',
  parse_types n i c rxq cfg = (0, c', rxq', cfg') -> is_u32 (hw_fence_queue_entries c) ->
  (forall k d, (i <= k)%nat -> hw_fence_client_types c !! k = Some d -> desc_raw d) ->
  (forall k d, (k < i)%nat -> hw_fence_client_types c !! k = Some d -> 0 <= clients_num d /\ 0 <= mem_size d) ->
  (i + n = length (hw_fence_client_types c))%nat -> 0 <= rxq ->
  c' = cf_set_types (hw_fence_client_types c') c /\ types_sane (hw_fence_client_types c') /\ 0 <= rxq'.
Proof.
  induction n as [|n IH]; intros i c rxq cfg c' rxq' cfg' H Hqe Hraw Hsane Hlen Hrxq; cbn [parse_types] in H.
  - injection H as <- <- <-. split; [by destruct c|]. split; [|done].
    apply Forall_lookup_2. intros k d Hk. apply (Hsane k d); [|done].
    apply lookup_lt_Some in Hk. lia.
  - destruct (lookup_lt_is_Some_2 (hw_fence_client_types c) i) as [d Hd]; [lia|]. rewrite Hd in H.
    destruct (_parse_client_queue_dt_props_indv c d) as [ret d'] eqn:Hp.
    destruct (truthy ret) eqn:Hret; [injection H as -> _ _ _; done|].
    assert (ret = 0) as -> by (unfold truthy in Hret; by zbool).
    destruct (parse_indv_sane c d d' (Hraw i d ltac:(lia) Hd) Hqe Hp) as [Hcn Hm].
    apply IH in H as (Hc' & Hs' & Hr'); [split; [|done]|exact Hqe| | | |].
    + rewrite Hc' at 1. by destruct c.
    + intros k x Hk Hx. cbn in Hx. rewrite list_lookup_insert_ne in Hx by lia. apply (Hraw k x); [lia|done].
    + intros k x Hk Hx. cbn in Hx. destruct (Nat.eq_dec k i) as [->|Hne].
      * rewrite list_lookup_insert_eq in Hx by lia. injection Hx as <-. done.
      * rewrite list_lookup_insert_ne in Hx by lia. apply (Hsane k x); [lia|done].
    + cbn. rewrite length_insert. lia.
    + destruct (_ && _); [apply u32_range|done].
Qed.

Lemma parse_client_props_ok c c' :
  _parse_client_queue_dt_props true c = Some (0, c') -> is_u32 (hw_fence_queue_entries c) ->
  Forall desc_raw (hw_fence_client_types c) -> length (hw_fence_client_types c) = HW_FENCE_MAX_CLIENT_TYPE ->
  0 <= HW_FENCE_MIN_RXQ_CLIENTS -> 0 <= hw_fence_mem_ctrl_queues_size c ->
  0 <= hw_fence_mem_fences_table_size c ->
  hw_fence_mem_ctrl_queues_size c' + HW_FENCE_MEM_LOCKS_SIZE (cf_rxq_clients_num c')
    + hw_fence_mem_fences_table_size c' + PAGE_SIZE
    + types_bytes (hw_fence_client_types c') (seq 0 HW_FENCE_MAX_CLIENT_TYPE) < 2 ^ 32 ->
  used_mem_size c' <= carveout_size c' -> carveout_size c' < 2 ^ 32 ->
  layout_ok c' /\ cf_table_entries c' = cf_table_entries c /\
  hw_fence_mem_fences_table_size c' = hw_fence_mem_fences_table_size c.
Proof.
  intros H Hqe Hraw Hlen Hrx Hcq Hts Hb Hused Hcar. unfold _parse_client_queue_dt_props in H.
  destruct (parse_types _ 0 c _ 0) as [[[ret c1] rxq] cfg] eqn:Hp.
  destruct (truthy ret) eqn:Hret; [injection H as -> _; done|].
  assert (ret = 0) as -> by (unfold truthy in Hret; by zbool).
  apply parse_types_ok in Hp as (Hc1 & Hsane & Hrxq);
    [|done|intros k d _ Hd; exact (Forall_lookup_1 _ _ _ _ Hraw Hd)|lia|done|done].
  cbn [negb] in H. cbv zeta in H.
  set (c2 := cf_set_clients rxq (u32 (HW_FENCE_MAX_STATIC_CLIENTS_INDEX + cfg)) c1) in H.
  destruct (place_types _ _ _ _) as [[l used]|] eqn:Hpl; [|done]. injection H as <-.
  cbn [cf_set_queues hw_fence_mem_ctrl_queues_size cf_rxq_clients_num hw_fence_mem_fences_table_size
    hw_fence_client_types used_mem_size carveout_size cf_table_entries c2 cf_set_clients] in *.
  assert (Hq1 : hw_fence_mem_ctrl_queues_size c1 = hw_fence_mem_ctrl_queues_size c) by (by rewrite Hc1).
  assert (Hq2 : hw_fence_mem_fences_table_size c1 = hw_fence_mem_fences_table_size c) by (by rewrite Hc1).
  assert (Hq3 : cf_table_entries c1 = cf_table_entries c) by (by rewrite Hc1).
  set (sum := hw_fence_mem_ctrl_queues_size c1 + HW_FENCE_MEM_LOCKS_SIZE rxq + hw_fence_mem_fences_table_size c1) in *.
  pose proof (page_align_bounds sum) as Hpa.
  pose proof (types_bytes_nonneg _ (seq 0 HW_FENCE_MAX_CLIENT_TYPE) Hsane) as Htb.
  assert (Hsum : 0 <= sum) by (unfold sum, HW_FENCE_MEM_LOCKS_SIZE; lia).
  rewrite u32_small in Hpl by lia.
  apply (place_types_ok _ (PAGE_ALIGN sum)) in Hpl as (Hplaced & ->);
    [|done|lia|lia|apply placed_empty].
  split; [|done]. split; [by unfold HW_FENCE_MEM_LOCKS_SIZE in *; cbn; lia| |done|done|].
  - exists (PAGE_ALIGN sum). split; [|exact Hplaced].
    change (sum <= PAGE_ALIGN sum <=
      PAGE_ALIGN sum + types_bytes (hw_fence_client_types c1) (seq 0 HW_FENCE_MAX_CLIENT_TYPE)). lia.
  - split; [|exact Hcar].
    change (PAGE_ALIGN sum + types_bytes (hw_fence_client_types c1) (seq 0 HW_FENCE_MAX_CLIENT_TYPE) < 2 ^ 32).
    lia.
Qed.

(** The table region is reserved whole. *)
Lemma init_table_ok c : layout_ok c ->
  exists off, init_hw_fences_table c = inr (off, hw_fence_mem_fences_table_size c / SIZEOF_HW_FENCE).
Proof.
  intros [(Hs1 & Hs2 & Hs3) (s0 & Hs0 & _) _ Hused [Hu1 Hu2]].
  unfold init_hw_fences_table, hw_fence_utils_reserve_mem, HW_FENCE_MEM_LOCKS_SIZE in *. cbv zeta.
  rewrite (u32_small (_ + 8 * _)), u32_small by lia.
  destruct (Z.gtb_spec (hw_fence_mem_ctrl_queues_size c + 8 * cf_rxq_clients_num c
    + hw_fence_mem_fences_table_size c) (carveout_size c)); [lia|]. by eexists.
Qed.

(** When the device tree is parsed with success and the sizes of all parts
    add up below 4 GiB, the configuration has disjoint regions, as the theorem
    on reservations requires, and the fence table has room for exactly the
    entries that the hash function ranges over. *)
Theorem parse_props_layout c c' :
  hw_fence_utils_parse_dt_props true true c = Some (0, c') ->
  (of_property_read_u32 "qcom,hw-fence-table-entries").2 <> 0 ->
  (of_property_read_u32 "qcom,hw-fence-queue-entries").2 <> 0 ->
  Forall desc_raw (hw_fence_client_types c) -> length (hw_fence_client_types c) = HW_FENCE_MAX_CLIENT_TYPE ->
  0 <= HW_FENCE_MIN_RXQ_CLIENTS ->
  hw_fence_mem_ctrl_queues_size c' + HW_FENCE_MEM_LOCKS_SIZE (cf_rxq_clients_num c')
    + hw_fence_mem_fences_table_size c' + PAGE_SIZE
    + types_bytes (hw_fence_client_types c') (seq 0 HW_FENCE_MAX_CLIENT_TYPE) < 2 ^ 32 ->
  alloc_mem_size_check c' = 0 -> carveout_size c' < 2 ^ 32 ->
  layout_ok c' /\ exists off, init_hw_fences_table c' = inr (off, cf_table_entries c').
Proof.
  intros H Hv1 Hv2 Hraw Hlen Hrx Hb Hcheck Hcar.
  assert (Hused : used_mem_size c' <= carveout_size c').
  { unfold alloc_mem_size_check in Hcheck.
    destruct (Z.ltb_spec (carveout_size c') (used_mem_size c')); [done|lia]. }
  unfold hw_fence_utils_parse_dt_props in H.
  destruct (of_property_read_u32 "qcom,hw-fence-table-entries") as [ret1 v1] eqn:Hr1.
  destruct (of_property_read_u32 "qcom,hw-fence-queue-entries") as [ret2 v2] eqn:Hr2.
  cbn [snd] in *. cbv zeta in H.
  destruct (truthy ret1) eqn:Ht1; [injection H as -> _; done|].
  assert (ret1 = 0) as -> by (unfold truthy in Ht1; by zbool).
  assert (truthy v1 = true) as Hv1' by (unfold truthy; by apply negb_true_iff, Z.eqb_neq).
  rewrite Hv1' in H. cbn [orb negb] in H. apply read_u32_ok in Hr1.
  destruct (Z.geb_spec v1 (U32_MAX / SIZEOF_HW_FENCE)) as [|Hlt1]; [done|].
  destruct (truthy ret2) eqn:Ht2; [injection H as -> _; done|].
  assert (ret2 = 0) as -> by (unfold truthy in Ht2; by zbool).
  assert (truthy v2 = true) as Hv2' by (unfold truthy; by apply negb_true_iff, Z.eqb_neq).
  rewrite Hv2' in H. cbn [orb negb] in H. apply read_u32_ok in Hr2.
  destruct (v2 >=? _); [done|]. destruct (u32 _ >=? _); [done|].
  destruct (_parse_client_queue_dt_props true _) as [[ret c2]|] eqn:Hp; [|done].
  destruct (truthy ret) eqn:Ht; [done|].
  assert (ret = 0) as -> by (unfold truthy in Ht; by zbool). injection H as ->.
  unfold is_u32 in Hr1. change (U32_MAX / SIZEOF_HW_FENCE) with 26843545 in Hlt1.
  assert (Hsz : u32 (SIZEOF_HW_FENCE * v1) = SIZEOF_HW_FENCE * v1)
    by (apply u32_small; change SIZEOF_HW_FENCE with 160; lia).
  apply parse_client_props_ok in Hp as (Hlo & He & Hts); try done.
  - split; [done|]. destruct (init_table_ok c' Hlo) as (off & ->). exists off. f_equal. f_equal.
    rewrite Hts, He. cbn [cf_set_ctrl cf_set_table hw_fence_mem_fences_table_size cf_table_entries].
    rewrite Hsz, Z.mul_comm. by apply Z.div_mul.
  - apply u32_range.
  - apply u32_range.
Qed.

(** The sum of the parts of a configuration: the control queues, the locks and the
    table, a page for the alignment, and the queues of every client. *)
Definition parts_bytes (c : hw_fence_conf) : Z :=
  hw_fence_mem_ctrl_queues_size c + HW_FENCE_MEM_LOCKS_SIZE (cf_rxq_clients_num c)
  + hw_fence_mem_fences_table_size c + PAGE_SIZE
  + types_bytes (hw_fence_client_types c) (seq 0 HW_FENCE_MAX_CLIENT_TYPE).

(** C24: in a configuration that the driver parses from a device tree with success,
    and that passes the check of the size of the carve-out, no two reservations
    overlap and each lies inside the carve-out: the control queues, the locks, the
    fence table, the queues of each client and the events. This takes as given that
    the parts add up below 4 GiB, which the code does not check, and that both
    numbers of entries are read. *)
Theorem reservations_disjoint c0 c a b off size off' size' :
  hw_fence_utils_parse_dt_props true true c0 = Some (0, c) ->
  (of_property_read_u32 "qcom,hw-fence-table-entries").2 <> 0 ->
  (of_property_read_u32 "qcom,hw-fence-queue-entries").2 <> 0 ->
  Forall desc_raw (hw_fence_client_types c0) -> length (hw_fence_client_types c0) = HW_FENCE_MAX_CLIENT_TYPE ->
  0 <= HW_FENCE_MIN_RXQ_CLIENTS -> parts_bytes c < 2 ^ 32 ->
  alloc_mem_size_check c = 0 -> carveout_size c < 2 ^ 32 ->
  proper_reservation a -> proper_reservation b -> distinct_reservations a b ->
  hw_fence_utils_reserve_mem c a.1 a.2 0 = (0, off, size) ->
  hw_fence_utils_reserve_mem c b.1 b.2 0 = (0, off', size') ->
  (off + size <= off' \/ off' + size' <= off) /\
  0 <= off /\ off + size <= carveout_size c /\ 0 <= off' /\ off' + size' <= carveout_size c.
Proof.
  intros Hp H1 H2 Hraw Hlen Hrx Hb Hcheck Hcar.
  destruct (parse_props_layout c0 c Hp H1 H2 Hraw Hlen Hrx Hb Hcheck Hcar) as [Hlo _].
  by apply layout_disjoint.
Qed.

End parser.

(** ** A concrete device tree *)

Definition demo_props (s : string) : option (list Z) :=
  if bool_decide (s = "qcom,hw-fence-table-entries"%string) then Some [16]
  else if bool_decide (s = "qcom,hw-fence-queue-entries"%string) then Some [8]
  else if bool_decide (s = "qcom,hw-fence-client-type-ipe"%string) then Some [2; 2; 8; 0]
  else if bool_decide (s = "qcom,hw-fence-client-type-ife0"%string) then Some [3; 1; 4; 1]
  else if bool_decide (s = "qcom,hw-fence-client-type-ife0-extra"%string) then Some [16; 8; 100; 1]
  else None.

(** A device tree that holds the properties [props]. *)
Definition tree_of (props : string -> option (list Z)) : DeviceTree := {|
  PAGE_SIZE := 4096;
  HW_FENCE_HFI_TABLE_HEADER_SIZE := 64;
  HW_FENCE_HFI_QUEUE_HEADER_SIZE := 64;
  of_property_read_u32 s :=
    match props s with Some (v :: _) => (0, v) | _ => (- EINVAL, 0) end;
  of_property_read_u32_array s n :=
    match props s with
    | Some l => if Nat.leb n (length l) then (0, take n l) else (- EINVAL, [])
    | None => (- EINVAL, [])
    end;
  of_property_read_bool s := bool_decide (is_Some (props s));
  of_property_count_u32_elems s := match props s with Some l => zlen l | None => - EINVAL end
|}.

Lemma tree_of_laws props : (forall s l, props s = Some l -> Forall is_u32 l) ->
  @DeviceTreeLaws (tree_of props).
Proof.
  intros Hp. split; cbn; [by exists 12|lia|lia|..].
  - intros s v. destruct (props s) as [[|x l]|] eqn:Hs; try done. intros [= ->].
    apply Hp in Hs. by apply Forall_cons in Hs as [? _].
  - intros s n l. destruct (props s) as [l0|] eqn:Hs; [|done].
    destruct (Nat.leb_spec n (length l0)); [|done]. intros [= <-].
    split; [by rewrite length_take_le|]. by apply Forall_take, (Hp s).
Qed.

Definition demo_tree : DeviceTree := tree_of demo_props.

Lemma demo_tree_laws : @DeviceTreeLaws demo_tree.
Proof.
  apply tree_of_laws. intros s l H. unfold demo_props in H.
  repeat (case_bool_decide; [injection H as <-; by repeat (apply Forall_cons; split; [done|])|]). done.
Qed.

(** The driver before the device tree is parsed, with 1 MiB of memory. *)
Definition raw_conf : hw_fence_conf :=
  mk_conf (@default_client_types demo_env) 0 0 0 0 0 [] 0 0 0 0x100000.

Definition demo_conf : hw_fence_conf :=
  match @hw_fence_utils_parse_dt_props demo_env demo_tree true true raw_conf with
  | Some (_, c) => c
  | None => raw_conf
  end.

(** IFE0, raw and parsed. *)
Definition raw_ife0 : hw_fence_client_type_desc :=
  mk_desc "ife0" 143 32 0 1 0 0 0 0 0 0 true.
Definition demo_ife0 : hw_fence_client_type_desc :=
  mk_desc "ife0" 143 32 3 1 4 16 8 4096 100 16 true.

Lemma raw_ife0_raw : desc_raw raw_ife0.
Proof. by split. Qed.

Lemma parse_indv_sound_witness :
  @_parse_client_queue_dt_props_indv demo_tree raw_conf raw_ife0 = (0, demo_ife0) /\
  @desc_ok demo_tree demo_ife0.
Proof.
  assert (Hp : @_parse_client_queue_dt_props_indv demo_tree raw_conf raw_ife0 = (0, demo_ife0))
    by (vm_compute; reflexivity).
  split; [exact Hp|].
  apply (@parse_indv_sound demo_tree demo_tree_laws raw_conf raw_ife0 demo_ife0).
  - apply raw_ife0_raw.
  - vm_compute. by split.
  - exact Hp.
  - vm_compute. discriminate.
Defined.

Lemma client_id_priv_bijective_witness :
  (forall e e' p, 0 <= e -> 0 <= e' -> p < 20 ->
     @hw_fence_utils_get_client_id_priv demo_env (hw_fence_client_types demo_conf) e = Some p ->
     @hw_fence_utils_get_client_id_priv demo_env (hw_fence_client_types demo_conf) e' = Some p -> e = e') /\
  exists e, 0 <= e /\ @hw_fence_utils_get_client_id_priv demo_env (hw_fence_client_types demo_conf) e = Some 19.
Proof.
  assert (Ht : @clients_total demo_env (hw_fence_client_types demo_conf) = 20) by (vm_compute; reflexivity).
  destruct (client_id_priv_bijective (E := demo_env) (hw_fence_client_types demo_conf)) as (_ & Hi & Hs).
  - apply counts_ok_bool. vm_compute. reflexivity.
  - done.
  - done.
  - rewrite Ht. done.
  - rewrite Ht in *. split; [exact Hi|]. apply Hs. lia.
Defined.

Lemma demo_ife0_ok : @desc_ok demo_tree demo_ife0.
Proof.
  split; try (vm_compute; repeat split; congruence).
  split; [by vm_compute|]. left. by vm_compute.
Qed.

Definition demo_region : region_content :=
  mk_region (fun _ => zero_header) (fun _ => replicate 64 0).


Lemma demo_parsed :
  @hw_fence_utils_parse_dt_props demo_env demo_tree true true raw_conf = Some (0, demo_conf).
Proof. vm_compute. reflexivity. Qed.

Lemma raw_types_raw : Forall desc_raw (hw_fence_client_types raw_conf).
Proof. by repeat (apply Forall_cons; split; [by split|]). Qed.

Lemma parse_props_layout_witness :
  @layout_ok demo_conf /\ exists off, init_hw_fences_table demo_conf = inr (off, 16).
Proof.
  apply (@parse_props_layout demo_env demo_tree demo_tree_laws raw_conf demo_conf demo_parsed).
  - done.
  - done.
  - apply raw_types_raw.
  - done.
  - done.
  - by vm_compute.
  - by vm_compute.
  - by vm_compute.
Defined.

(** The table and the queues of a client in the parsed configuration. *)
Lemma reservations_disjoint_witness :
  exists off size off' size',
    @hw_fence_utils_reserve_mem demo_conf HW_FENCE_MEM_RESERVE_TABLE 0 0 = (0, off, size) /\
    @hw_fence_utils_reserve_mem demo_conf HW_FENCE_MEM_RESERVE_CLIENT_QUEUE 17 0 = (0, off', size') /\
    (off + size <= off' \/ off' + size' <= off).
Proof.
  eexists _, _, _, _. split; [vm_compute; reflexivity|]. split; [vm_compute; reflexivity|].
  apply (@reservations_disjoint demo_env demo_tree demo_tree_laws raw_conf demo_conf
    (HW_FENCE_MEM_RESERVE_TABLE, 0) (HW_FENCE_MEM_RESERVE_CLIENT_QUEUE, 17)).
  - exact demo_parsed.
  - done.
  - done.
  - apply raw_types_raw.
  - done.
  - done.
  - by vm_compute.
  - by vm_compute.
  - by vm_compute.
  - done.
  - done.
  - by left.
  - vm_compute. reflexivity.
  - vm_compute. reflexivity.
Defined.

(** ** Limits of the checks *)

(** The overflow of each part is checked, that of their sum is not, and
    [hw_fence_utils_reserve_mem] adds at 32 bits.  With as many fences as the
    parser allows, the whole configuration "fits" in 64 KiB, the fence table
    included, and the first client gets the memory of the control queues. *)
Definition huge_tree : DeviceTree :=
  tree_of (fun s => if bool_decide (s = "qcom,hw-fence-table-entries"%string) then Some [26843544]
                    else if bool_decide (s = "qcom,hw-fence-queue-entries"%string) then Some [8] else None).

Example sizes_overflow :
  match @hw_fence_utils_parse_dt_props demo_env huge_tree true true
          (cf_set_queues [] 0 (mk_conf (@default_client_types demo_env) 0 0 0 0 0 [] 0 0 0 0x10000)) with
  | Some (ret, c) =>
      ret = 0 /\ alloc_mem_size_check c = 0 /\
      (hw_fence_utils_reserve_mem c HW_FENCE_MEM_RESERVE_TABLE 0 0).1.1 = 0 /\
      hw_fence_mem_fences_table_size c > carveout_size c
  | None => False
  end.
Proof. vm_compute. done. Qed.

(** The limit of the padding wraps: with paddings near 4 GiB the check of the
    queue size passes, and the client memory is too small for the padding. *)
Definition padded_tree : DeviceTree :=
  tree_of (fun s => if bool_decide (s = "qcom,hw-fence-client-type-ife0"%string) then Some [3; 1; 4; 1]
                    else if bool_decide (s = "qcom,hw-fence-client-type-ife0-extra"%string)
                         then Some [4294965248; 0] else None).

Example padding_overflows :
  let '(ret, d) := @_parse_client_queue_dt_props_indv padded_tree raw_conf raw_ife0 in
  ret = 0 /\ mem_size d = 0 /\ start_padding d = 4294965248.
Proof. vm_compute. done. Qed.

(** A table of no entries is reported as an error, and parsed with success. *)
Example zero_entries_succeed :
  let tree := tree_of (fun s => if bool_decide (s = "qcom,hw-fence-table-entries"%string) then Some [0] else None) in
  @hw_fence_utils_parse_dt_props demo_env tree true true raw_conf = Some (0, raw_conf).
Proof. vm_compute. reflexivity. Qed.
