(* ===== verification/HwFenceIpc.v ===== *)
(** * Inter-processor signals of the clients ([hw_fence_drv_ipc.c])

    The tables that map a client to its virtual and physical identifiers and to
    its signal, the expansion of the base table for the configurable clients,
    and the registers that are written to enable the signals. *)

From stdpp Require Import strings.
From S2P Require Import Prelude HwFenceDrv HwFenceRing HwFenceConf HwFenceLayout.

(** ** Constants ([hw_fence_drv_ipc.h]) *)

Definition HW_FENCE_IPC_CLIENT_ID_APPS_VID : Z := 8.
Definition HW_FENCE_IPC_CLIENT_ID_GPU_VID : Z := 9.
Definition HW_FENCE_IPC_CLIENT_ID_IPE_VID : Z := 11.
Definition HW_FENCE_IPC_CLIENT_ID_VPU_VID : Z := 12.
Definition HW_FENCE_IPC_CLIENT_ID_DPU_VID : Z := 25.
Definition HW_FENCE_IPC_CLIENT_ID_IFE0_VID : Z := 128.
Definition HW_FENCE_IPC_CLIENT_ID_IFE1_VID : Z := 129.
Definition HW_FENCE_IPC_CLIENT_ID_IFE2_VID : Z := 130.
Definition HW_FENCE_IPC_CLIENT_ID_IFE3_VID : Z := 131.
Definition HW_FENCE_IPC_CLIENT_ID_IFE4_VID : Z := 132.
Definition HW_FENCE_IPC_CLIENT_ID_IFE5_VID : Z := 133.
Definition HW_FENCE_IPC_CLIENT_ID_IFE6_VID : Z := 134.
Definition HW_FENCE_IPC_CLIENT_ID_IFE7_VID : Z := 135.
Definition HW_FENCE_IPC_CLIENT_ID_APPS_PID : Z := 3.
Definition HW_FENCE_IPC_CLIENT_ID_GPU_PID : Z := 4.
Definition HW_FENCE_IPC_CLIENT_ID_IPE_PID : Z := 5.
Definition HW_FENCE_IPC_CLIENT_ID_VPU_PID : Z := 8.
Definition HW_FENCE_IPC_CLIENT_ID_DPU_PID : Z := 9.
Definition HW_FENCE_IPC_CLIENT_ID_IFE0_PID : Z := 11.
Definition HW_FENCE_IPC_CLIENT_ID_IFE1_PID : Z := 12.
Definition HW_FENCE_IPC_CLIENT_ID_IFE2_PID : Z := 13.
Definition HW_FENCE_IPC_CLIENT_ID_IFE3_PID : Z := 14.
Definition HW_FENCE_IPC_CLIENT_ID_IFE4_PID : Z := 15.
Definition HW_FENCE_IPC_CLIENT_ID_IFE5_PID : Z := 16.
Definition HW_FENCE_IPC_CLIENT_ID_IFE6_PID : Z := 17.
Definition HW_FENCE_IPC_CLIENT_ID_IFE7_PID : Z := 18.
Definition HW_FENCE_IPC_COMPUTE_L1_PROTOCOL_ID_KALAMA : Z := 2.
Definition HW_FENCE_IPC_FENCE_PROTOCOL_ID_PINEAPPLE : Z := 4.
Definition HW_FENCE_IPCC_HW_REV_170 : Z := 0x10700.
Definition HW_FENCE_IPCC_HW_REV_203 : Z := 0x20003.

(** Registers, as offsets from the base of the block. *)
Definition IPC_PROTOCOLp_CLIENTc_CONFIG (p c : Z) : Z := 0x8 + 0x40000 * p + 0x1000 * c.
Definition IPC_PROTOCOLp_CLIENTc_RECV_SIGNAL_ENABLE (p c : Z) : Z := 0x14 + 0x40000 * p + 0x1000 * c.

(** ** The tables *)

(** [struct hw_fence_client_ipc_map] *)
Record hw_fence_client_ipc_map := mk_ipc_map {
  ipc_client_id_virt : Z;
  ipc_client_id_phys : Z;
  im_signal_id : Z;
  im_update_rxq : bool;
  im_send_ipc : bool
}.

Definition im_set_signal_id (v : Z) (m : hw_fence_client_ipc_map) : hw_fence_client_ipc_map :=
  mk_ipc_map (ipc_client_id_virt m) (ipc_client_id_phys m) v (im_update_rxq m) (im_send_ipc m).

Definition zero_map : hw_fence_client_ipc_map := mk_ipc_map 0 0 0 false false.

Section ops.
Context `{E : HwFenceEnv} `{DT : DeviceTree}.

(** The seven validation clients, there with debugfs only. *)
Definition val_maps (vid pid : Z) : list hw_fence_client_ipc_map :=
  if CONFIG_DEBUG_FS then map (fun s => mk_ipc_map vid pid s true false) [21; 22; 23; 24; 25; 26; 27]
  else replicate 7 zero_map.

Definition hw_fence_clients_ipc_map : list hw_fence_client_ipc_map :=
  [mk_ipc_map HW_FENCE_IPC_CLIENT_ID_APPS_VID HW_FENCE_IPC_CLIENT_ID_APPS_VID 1 true true;
   mk_ipc_map HW_FENCE_IPC_CLIENT_ID_GPU_VID HW_FENCE_IPC_CLIENT_ID_GPU_VID 0 false false;
   mk_ipc_map HW_FENCE_IPC_CLIENT_ID_DPU_VID HW_FENCE_IPC_CLIENT_ID_DPU_VID 0 false true;
   mk_ipc_map HW_FENCE_IPC_CLIENT_ID_DPU_VID HW_FENCE_IPC_CLIENT_ID_DPU_VID 1 false true;
   mk_ipc_map HW_FENCE_IPC_CLIENT_ID_DPU_VID HW_FENCE_IPC_CLIENT_ID_DPU_VID 2 false true;
   mk_ipc_map HW_FENCE_IPC_CLIENT_ID_DPU_VID HW_FENCE_IPC_CLIENT_ID_DPU_VID 3 false true;
   mk_ipc_map HW_FENCE_IPC_CLIENT_ID_DPU_VID HW_FENCE_IPC_CLIENT_ID_DPU_VID 4 false true;
   mk_ipc_map HW_FENCE_IPC_CLIENT_ID_DPU_VID HW_FENCE_IPC_CLIENT_ID_DPU_VID 5 false true]
  ++ val_maps HW_FENCE_IPC_CLIENT_ID_APPS_VID HW_FENCE_IPC_CLIENT_ID_APPS_VID ++
  [mk_ipc_map HW_FENCE_IPC_CLIENT_ID_IPE_VID HW_FENCE_IPC_CLIENT_ID_IPE_VID 0 true true;
   mk_ipc_map HW_FENCE_IPC_CLIENT_ID_VPU_VID HW_FENCE_IPC_CLIENT_ID_VPU_VID 0 true true] ++ replicate 8 zero_map.

Definition hw_fence_clients_ipc_map_v2 : list hw_fence_client_ipc_map :=
  [mk_ipc_map HW_FENCE_IPC_CLIENT_ID_APPS_VID HW_FENCE_IPC_CLIENT_ID_APPS_PID 1 true true;
   mk_ipc_map HW_FENCE_IPC_CLIENT_ID_GPU_VID HW_FENCE_IPC_CLIENT_ID_GPU_PID 0 false false;
   mk_ipc_map HW_FENCE_IPC_CLIENT_ID_DPU_VID HW_FENCE_IPC_CLIENT_ID_DPU_PID 0 false true;
   mk_ipc_map HW_FENCE_IPC_CLIENT_ID_DPU_VID HW_FENCE_IPC_CLIENT_ID_DPU_PID 1 false true;
   mk_ipc_map HW_FENCE_IPC_CLIENT_ID_DPU_VID HW_FENCE_IPC_CLIENT_ID_DPU_PID 2 false true;
   mk_ipc_map HW_FENCE_IPC_CLIENT_ID_DPU_VID HW_FENCE_IPC_CLIENT_ID_DPU_PID 3 false true;
   mk_ipc_map HW_FENCE_IPC_CLIENT_ID_DPU_VID HW_FENCE_IPC_CLIENT_ID_DPU_PID 4 false true;
   mk_ipc_map HW_FENCE_IPC_CLIENT_ID_DPU_VID HW_FENCE_IPC_CLIENT_ID_DPU_PID 5 false true]
  ++ val_maps HW_FENCE_IPC_CLIENT_ID_APPS_VID HW_FENCE_IPC_CLIENT_ID_APPS_PID ++
  [mk_ipc_map HW_FENCE_IPC_CLIENT_ID_IPE_VID HW_FENCE_IPC_CLIENT_ID_IPE_PID 0 true true;
   mk_ipc_map HW_FENCE_IPC_CLIENT_ID_VPU_VID HW_FENCE_IPC_CLIENT_ID_VPU_PID 0 true true;
   mk_ipc_map HW_FENCE_IPC_CLIENT_ID_IFE0_VID HW_FENCE_IPC_CLIENT_ID_IFE0_PID 0 false true;
   mk_ipc_map HW_FENCE_IPC_CLIENT_ID_IFE1_VID HW_FENCE_IPC_CLIENT_ID_IFE1_PID 0 false true;
   mk_ipc_map HW_FENCE_IPC_CLIENT_ID_IFE2_VID HW_FENCE_IPC_CLIENT_ID_IFE2_PID 0 false true;
   mk_ipc_map HW_FENCE_IPC_CLIENT_ID_IFE3_VID HW_FENCE_IPC_CLIENT_ID_IFE3_PID 0 false true;
   mk_ipc_map HW_FENCE_IPC_CLIENT_ID_IFE4_VID HW_FENCE_IPC_CLIENT_ID_IFE4_PID 0 false true;
   mk_ipc_map HW_FENCE_IPC_CLIENT_ID_IFE5_VID HW_FENCE_IPC_CLIENT_ID_IFE5_PID 0 false true;
   mk_ipc_map HW_FENCE_IPC_CLIENT_ID_IFE6_VID HW_FENCE_IPC_CLIENT_ID_IFE6_PID 0 false true;
   mk_ipc_map HW_FENCE_IPC_CLIENT_ID_IFE7_VID HW_FENCE_IPC_CLIENT_ID_IFE7_PID 0 false true].

(** ** Reading the table of the driver

    An access outside [ipc_clients_table] is [None]. *)

Definition hw_fence_ipcc_get_client_virt_id (table : list hw_fence_client_ipc_map) (total client_id : Z) :
    option Z :=
  if client_id >=? total then Some (- EINVAL) else ipc_client_id_virt <$> table !! Z.to_nat client_id.

Definition hw_fence_ipcc_get_client_phys_id (table : list hw_fence_client_ipc_map) (total client_id : Z) :
    option Z :=
  if client_id >=? total then Some (- EINVAL) else ipc_client_id_phys <$> table !! Z.to_nat client_id.

Definition hw_fence_ipcc_get_signal_id (table : list hw_fence_client_ipc_map) (total client_id : Z) :
    option Z :=
  if client_id >=? total then Some (- EINVAL) else im_signal_id <$> table !! Z.to_nat client_id.

Definition hw_fence_ipcc_needs_rxq_update (table : list hw_fence_client_ipc_map) (total client_id : Z) :
    option bool :=
  if client_id >=? total then Some false else im_update_rxq <$> table !! Z.to_nat client_id.

(** This one compares with [HW_FENCE_CLIENT_MAX]. *)
Definition hw_fence_ipcc_needs_ipc_irq (table : list hw_fence_client_ipc_map) (client_id : Z) : option bool :=
  if client_id >=? HW_FENCE_CLIENT_MAX then Some false else im_send_ipc <$> table !! Z.to_nat client_id.

(** ** Expanding the base table *)

(** The inner loop: sub-clients [j ..] of configurable type [i]; [None] is
    [-EINVAL]. The table has [total], that is [clients_num], entries. *)
Fixpoint expand_type (n : nat) (j map_idx total : Z) (base : hw_fence_client_ipc_map)
    (table : list hw_fence_client_ipc_map) : option (list hw_fence_client_ipc_map * Z) :=
  match n with
  | O => Some (table, map_idx)
  | S n =>
      if map_idx >=? total then None else
      expand_type n (j + 1) (map_idx + 1) total base
        (zupd table map_idx (im_set_signal_id j base))
  end.

Fixpoint expand_types (idxs : list nat) (map_idx total : Z) (types : list hw_fence_client_type_desc)
    (base_table table : list hw_fence_client_ipc_map) : option (list hw_fence_client_ipc_map) :=
  match idxs with
  | [] => Some table
  | i :: idxs =>
      match types !! (HW_FENCE_MAX_CLIENT_TYPE_STATIC + i)%nat,
            base_table !! (Z.to_nat HW_FENCE_MAX_STATIC_CLIENTS_INDEX + i)%nat with
      | Some desc, Some base =>
          match expand_type (Z.to_nat (s32 (clients_num desc))) 0 map_idx total base table with
          | None => None
          | Some (table, map_idx) => expand_types idxs map_idx total types base_table table
          end
      | _, _ => None
      end
  end.

(** The return code and the new table; [alloc]: whether [kzalloc] succeeds. *)
Definition _hw_fence_ipcc_init_map_with_configurable_clients (alloc : bool) (total : Z)
    (types : list hw_fence_client_type_desc) (base_table : list hw_fence_client_ipc_map) :
    Z * list hw_fence_client_ipc_map :=
  if negb alloc then (- ENOMEM, []) else
  let n := Z.to_nat HW_FENCE_MAX_STATIC_CLIENTS_INDEX in
  let table := take n base_table ++ replicate (Z.to_nat total - n)%nat zero_map in
  match expand_types (seq 0 HW_FENCE_MAX_CLIENT_TYPE_CONFIGURABLE) HW_FENCE_MAX_STATIC_CLIENTS_INDEX
          total types base_table table with
  | None => (- EINVAL, table)
  | Some table => (0, table)
  end.

(** The identifiers and the table that the hardware revision selects:
    [ipcc_client_vid], [ipcc_client_pid], [protocol_id] and the table. *)
Definition _hw_fence_ipcc_hwrev_init (alloc : bool) (c : hw_fence_conf) (hwrev : Z) :
    Z * option (Z * Z * Z * list hw_fence_client_ipc_map) :=
  if hwrev =? HW_FENCE_IPCC_HW_REV_170 then
    (0, Some (HW_FENCE_IPC_CLIENT_ID_APPS_VID, HW_FENCE_IPC_CLIENT_ID_APPS_VID,
              HW_FENCE_IPC_COMPUTE_L1_PROTOCOL_ID_KALAMA, hw_fence_clients_ipc_map))
  else if hwrev =? HW_FENCE_IPCC_HW_REV_203 then
    let '(ret, table) := _hw_fence_ipcc_init_map_with_configurable_clients alloc (cf_clients_num c)
                           (hw_fence_client_types c) hw_fence_clients_ipc_map_v2 in
    (ret, Some (HW_FENCE_IPC_CLIENT_ID_APPS_VID, HW_FENCE_IPC_CLIENT_ID_APPS_PID,
                HW_FENCE_IPC_FENCE_PROTOCOL_ID_PINEAPPLE, table))
  else (-1, None).

(** The registers written: offset and value. *)
Definition hw_fence_ipcc_enable_signaling (alloc : bool) (c : hw_fence_conf) :
    Z * option (Z * Z * Z * list hw_fence_client_ipc_map) * list (Z * Z) :=
  let '(ret, val) := of_property_read_u32 "qcom,hw-fence-ipc-ver" in
  if truthy ret || negb (truthy val) then (- EINVAL, None, []) else
  let '(ret, ids) := _hw_fence_ipcc_hwrev_init alloc c val in
  if truthy ret then (- EINVAL, ids, []) else
  match ids with
  | None => (- EINVAL, None, [])
  | Some (_, pid, protocol, _) =>
      (0, ids, [(IPC_PROTOCOLp_CLIENTc_CONFIG protocol pid, 0);
                (IPC_PROTOCOLp_CLIENTc_RECV_SIGNAL_ENABLE protocol pid, 0x80000)])
  end.

(** The loop of [hw_fence_ipcc_enable_dpu_signaling]. *)
Fixpoint enable_dpu (table : list hw_fence_client_ipc_map) (protocol : Z) (protocol_enabled : bool) :
    list (Z * Z) :=
  match table with
  | [] => []
  | m :: table =>
      if negb (ipc_client_id_virt m =? HW_FENCE_IPC_CLIENT_ID_DPU_VID)
      then enable_dpu table protocol protocol_enabled else
      (if protocol_enabled then []
       else [(IPC_PROTOCOLp_CLIENTc_CONFIG protocol (ipc_client_id_phys m), 1)])
      ++ [(IPC_PROTOCOLp_CLIENTc_RECV_SIGNAL_ENABLE protocol (ipc_client_id_phys m),
           u32 (Z.lor (Z.shiftl HW_FENCE_IPC_CLIENT_ID_APPS_VID 16) (Z.land (im_signal_id m) 0xFFFF)))]
      ++ enable_dpu table protocol true
  end.

(** [None] is an access outside the table. *)
Definition hw_fence_ipcc_enable_dpu_signaling (c : hw_fence_conf) (protocol : Z)
    (table : option (list hw_fence_client_ipc_map)) : option (Z * list (Z * Z)) :=
  match table with
  | None => Some (-1, [])
  | Some table =>
      if negb (truthy protocol) then Some (-1, []) else
      if zlen table <? cf_clients_num c then None else
      Some (0, enable_dpu (take (Z.to_nat (cf_clients_num c)) table) protocol false)
  end.

End ops.

(** ** Every client has its signal *)

Section theory.
Context `{E : HwFenceEnv}.
Implicit Types (table base_table : list hw_fence_client_ipc_map).

Lemma lookup_zupd table i k x : 0 <= i < zlen table -> 0 <= k ->
  zupd table i x !! Z.to_nat k = if k =? i then Some x else table !! Z.to_nat k.
Proof.
  intros Hi Hk. unfold zlen in Hi. destruct (Z.eqb_spec k i) as [->|Hne].
  - unfold zupd. destruct (Z.ltb_spec i 0); [lia|]. apply list_lookup_insert_eq. lia.
  - by apply lookup_zupd_ne; [lia| |congruence].
Qed.

(** One type fills the entries from [m] on. *)
Lemma expand_type_ok n : forall j m total base table,
  0 <= m -> m + Z.of_nat n <= total -> total = zlen table ->
  exists table', expand_type n j m total base table = Some (table', m + Z.of_nat n) /\
    zlen table' = total /\
    forall k, 0 <= k -> table' !! Z.to_nat k =
      if (m <=? k) && (k <? m + Z.of_nat n) then Some (im_set_signal_id (j + (k - m)) base)
      else table !! Z.to_nat k.
Proof.
  induction n as [|n IH]; intros j m total base table Hm Hb Ht; cbn [expand_type].
  - exists table. rewrite Z.add_0_r. split; [done|]. split; [done|]. intros k Hk.
    by destruct (Z.leb_spec m k), (Z.ltb_spec k m); cbn [andb]; try lia.
  - destruct (Z.geb_spec m total); [lia|].
    destruct (IH (j + 1) (m + 1) total base (zupd table m (im_set_signal_id j base)) ltac:(lia) ltac:(lia)
      ltac:(by rewrite zlen_zupd)) as (table' & -> & Hl & Hk'). exists table'.
    split; [f_equal; f_equal; lia|]. split; [done|]. intros k Hk. rewrite Hk', lookup_zupd by lia.
    destruct (Z.leb_spec (m + 1) k), (Z.ltb_spec k (m + 1 + Z.of_nat n)), (Z.leb_spec m k),
      (Z.ltb_spec k (m + Z.of_nat (S n))), (Z.eqb_spec k m); cbn [andb]; try lia; try done.
    + f_equal. f_equal. lia.
    + f_equal. f_equal. lia.
Qed.

Lemma expand_types_ok types base_table n : forall i table,
  let l := drop HW_FENCE_MAX_CLIENT_TYPE_STATIC types in
  let B := HW_FENCE_MAX_STATIC_CLIENTS_INDEX in
  0 <= B -> counts_ok l -> Forall (fun d => clients_num d < 2 ^ 31) l ->
  (i + n <= length l)%nat -> (Z.to_nat B + (i + n) <= length base_table)%nat ->
  B + clients_of l = zlen table ->
  exists table', expand_types (seq i n) (B + clients_of (take i l)) (zlen table) types base_table table = Some table' /\
    zlen table' = zlen table /\
    (forall k, 0 <= k < B + clients_of (take i l) -> table' !! Z.to_nat k = table !! Z.to_nat k) /\
    forall x d base o, (i <= x < i + n)%nat -> l !! x = Some d -> base_table !! (Z.to_nat B + x)%nat = Some base ->
      0 <= o < clients_num d ->
      table' !! Z.to_nat (B + clients_of (take x l) + o) = Some (im_set_signal_id o base).
Proof.
  induction n as [|n IH]; intros i table l B HB Hc H31 Hn Hbt Ht; cbn [seq expand_types].
  { exists table. split; [done|]. split; [done|]. split; [done|]. lia. }
  destruct (lookup_lt_is_Some_2 l i) as [d Hd]; [lia|].
  destruct (lookup_lt_is_Some_2 base_table (Z.to_nat B + i)) as [base Hbase]; [lia|].
  pose proof Hd as Hd'. unfold l in Hd'. rewrite lookup_drop in Hd'. rewrite Hd'. fold B. rewrite Hbase.
  pose proof (Forall_lookup_1 _ _ _ _ Hc Hd) as Hcd. pose proof (Forall_lookup_1 _ _ _ _ H31 Hd) as H31d.
  cbv beta in Hcd, H31d. rewrite s32_small by lia.
  pose proof (clients_of_take_S l i d Hd) as HS. pose proof (clients_of_take_le l (S i) Hc) as Hle.
  pose proof (clients_of_nonneg (take i l) ltac:(by apply Forall_take)) as H0.
  destruct (expand_type_ok (Z.to_nat (clients_num d)) 0 (B + clients_of (take i l)) (zlen table) base table)
    as (t1 & -> & Hl1 & Hk1); [lia|rewrite Z2Nat.id; lia|done|].
  rewrite Z2Nat.id in * by lia.
  replace (B + clients_of (take i l) + clients_num d) with (B + clients_of (take (S i) l)) in * by lia.
  assert (Hn' : (S i + n <= length l)%nat) by lia.
  assert (Hbt' : (Z.to_nat B + (S i + n) <= length base_table)%nat) by lia.
  assert (Ht1 : B + clients_of l = zlen t1) by (by rewrite Hl1).
  destruct (IH (S i) t1 HB Hc H31 Hn' Hbt' Ht1) as (t2 & Hr & Hl2 & Hlow & Hhigh).
  fold l B in Hr, Hlow, Hhigh. rewrite Hl1 in Hr. exists t2.
  split; [exact Hr|]. split; [by rewrite Hl2|]. split.
  - intros k Hk. rewrite Hlow, Hk1 by lia.
    destruct (Z.leb_spec (B + clients_of (take i l)) k); [lia|done].
  - intros x d' base' o Hx Hd2 Hb2 Ho. destruct (Nat.eq_dec x i) as [->|Hne].
    + replace d' with d in * by congruence. replace base' with base in * by congruence.
      rewrite Hlow, Hk1 by lia.
      destruct (Z.leb_spec (B + clients_of (take i l)) (B + clients_of (take i l) + o)); [|lia].
      destruct (Z.ltb_spec (B + clients_of (take i l) + o) (B + clients_of (take (S i) l))); [|lia].
      cbn [andb]. f_equal. f_equal. lia.
    + by apply (Hhigh x d' base' o); [lia| | |].
Qed.

(** On the hardware with configurable clients, every client gets the
    identifiers of its type and, for its signal, its place within the type; the
    static clients keep the entries of the base table.  The table has exactly
    one entry per internal client. *)
Theorem ipc_map_complete types base_table :
  let B := HW_FENCE_MAX_STATIC_CLIENTS_INDEX in
  0 <= B -> 0 < MSM_HW_FENCE_MAX_SIGNAL_PER_CLIENT < 2 ^ 31 -> counts_ok types ->
  length types = HW_FENCE_MAX_CLIENT_TYPE ->
  length base_table = (Z.to_nat B + HW_FENCE_MAX_CLIENT_TYPE_CONFIGURABLE)%nat ->
  exists table,
    _hw_fence_ipcc_init_map_with_configurable_clients true (clients_total types) types base_table = (0, table) /\
    zlen table = clients_total types /\
    (forall e, 0 <= e < B -> table !! Z.to_nat e = base_table !! Z.to_nat e) /\
    forall e p, B <= e -> hw_fence_utils_get_client_id_priv types e = Some p -> p <> HW_FENCE_CLIENT_MAX ->
      table !! Z.to_nat p =
      im_set_signal_id ((e - B) mod MSM_HW_FENCE_MAX_SIGNAL_PER_CLIENT) <$>
      base_table !! (Z.to_nat B + Z.to_nat ((e - B) / MSM_HW_FENCE_MAX_SIGNAL_PER_CLIENT))%nat.
Proof.
  intros B HB HS Hc Hlen Hbt. unfold _hw_fence_ipcc_init_map_with_configurable_clients. cbn [negb]. fold B.
  set (l := drop HW_FENCE_MAX_CLIENT_TYPE_STATIC types).
  assert (Hcl : counts_ok l) by (by apply Forall_drop).
  pose proof (clients_of_nonneg l Hcl) as Hl0.
  set (t0 := take (Z.to_nat B) base_table ++ _).
  assert (Ht0 : zlen t0 = clients_total types).
  { unfold t0, zlen, clients_total. rewrite length_app, length_take, length_replicate, Hbt.
    fold B l. lia. }
  assert (Hll : length l = HW_FENCE_MAX_CLIENT_TYPE_CONFIGURABLE)
    by (unfold l; rewrite length_drop, Hlen; done).
  destruct (expand_types_ok types base_table HW_FENCE_MAX_CLIENT_TYPE_CONFIGURABLE 0 t0 HB Hcl)
    as (table & Hr & Hz & Hlow & Hhigh).
  - apply Forall_forall. intros d Hd. apply (proj1 (Forall_forall _ l) Hcl) in Hd. lia.
  - fold l. lia.
  - fold B. lia.
  - by rewrite Ht0.
  - fold B l in Hr, Hlow, Hhigh. rewrite take_0 in Hr, Hlow. change (clients_of []) with 0 in Hr, Hlow.
    rewrite Z.add_0_r in Hr, Hlow. rewrite Ht0 in Hr. rewrite Hr. exists table.
    split; [done|]. split; [congruence|]. split.
    + intros e He. rewrite Hlow by done. unfold t0. rewrite lookup_app_l, lookup_take_lt; [done|lia|].
      rewrite length_take. lia.
    + intros e p He Hp Hne.
      destruct (get_client_id_place types e p He ltac:(lia) Hp Hne) as (i & o & d & -> & Hd & Ho & ->).
      fold B l. fold l in Hd. pose proof (lookup_lt_Some _ _ _ Hd) as Hi.
      pose proof (Forall_lookup_1 _ _ _ _ Hcl Hd) as Hcd. cbv beta in Hcd.
      replace (B + Z.of_nat i * MSM_HW_FENCE_MAX_SIGNAL_PER_CLIENT + o - B)
        with (o + Z.of_nat i * MSM_HW_FENCE_MAX_SIGNAL_PER_CLIENT) by lia.
      rewrite Z.div_add, Z_mod_plus_full, Z.div_small, Z.mod_small, Z.add_0_l, Nat2Z.id by lia.
      destruct (lookup_lt_is_Some_2 base_table (Z.to_nat B + i)) as [base Hbase]; [lia|].
      rewrite Hbase. cbn [fmap option_fmap option_map].
      replace (B + o + clients_of (take i l)) with (B + clients_of (take i l) + o) by lia.
      apply (Hhigh i d base o); [lia|done|done|done].
Qed.

End theory.

Lemma ipc_map_complete_witness :
  exists table,
    @_hw_fence_ipcc_init_map_with_configurable_clients demo_env true 20 (hw_fence_client_types demo_conf)
      (@hw_fence_clients_ipc_map_v2 demo_env) = (0, table) /\
    table !! 18%nat = Some (mk_ipc_map HW_FENCE_IPC_CLIENT_ID_IFE0_VID HW_FENCE_IPC_CLIENT_ID_IFE0_PID 1 false true).
Proof.
  assert (Ht : @clients_total demo_env (hw_fence_client_types demo_conf) = 20) by (vm_compute; reflexivity).
  destruct (ipc_map_complete (E := demo_env) (hw_fence_client_types demo_conf) (@hw_fence_clients_ipc_map_v2 demo_env))
    as (table & Hr & _ & _ & Hp).
  - vm_compute. discriminate.
  - vm_compute. split; reflexivity.
  - apply counts_ok_bool. vm_compute. reflexivity.
  - vm_compute. reflexivity.
  - vm_compute. reflexivity.
  - rewrite Ht in Hr. exists table. split; [exact Hr|].
    etransitivity; [apply (Hp 144 18); [vm_compute; discriminate|vm_compute; reflexivity|vm_compute; discriminate]|].
    vm_compute. reflexivity.
Defined.

(** On the hardware without configurable clients the table is static, with one
    entry per client type, while [clients_num] counts every configurable client:
    the getters read behind the table. *)
Example static_table_too_short :
  let c := cf_set_clients 14 (15 + 20) demo_conf in
  @hw_fence_ipcc_get_client_virt_id (@hw_fence_clients_ipc_map demo_env) (cf_clients_num c) 30 = None.
Proof. vm_compute. reflexivity. Qed.
