(* ===== verification/HwFenceApi.v ===== *)
(** * The interface of the hardware-fence driver

    The exported functions of [msm_hw_fence.c], with what they call of
    [hw_fence_drv_priv.c] (clean-up of a client, signals of a client) and of
    [hw_fence_drv_utils.c] (the doorbell).  The driver has been probed, so
    [hw_fence_drv_data] is not NULL.  A client handle is the index of the client,
    [None] for NULL or an error pointer; a dma-fence is its name.  The theorems
    are in [HwFenceRuns] and [HwFenceClients]. *)

From S2P Require Import Prelude Outcome HwFenceDrv HwFenceQueue HwFenceTable HwFenceJoin HwFenceConf HwFenceIpc.

(** [HW_FENCE_CTRL_QUEUE_DOORBELL], [HW_FENCE_MAX_ITER_READ] *)
Definition HW_FENCE_CTRL_QUEUE_DOORBELL : Z := 0.
Definition HW_FENCE_MAX_ITER_READ : nat := 100.

Definition is_array (df : dma_fence) : bool := bool_decide (is_Some (df_array df)).

Section api.
Context `{E : HwFenceEnv}.

(** ** Fences *)

(** [params] is the fence and whether [params->handle] is there; the second
    result is the value stored through [params->handle]. *)
Definition msm_hw_fence_create (client_handle : option Z) (params : option (option Z * bool)) :
    M (Z * option Z) :=
  match client_handle, params with
  | Some c, Some (Some p, true) =>
      d ← get;
      if negb (vm_ready d) then mret (- EAGAIN, None) else
      df ← get_dma p;
      if is_array df then mret (- EINVAL, None) else
      if test_bit MSM_HW_FENCE_FLAG_ENABLED_BIT (df_flags df) then mret (- EINVAL, None) else
      '(ret, hash) ← hw_fence_create c (df_context df) (df_seqno df);
      if truthy ret then mret (ret, Some hash) else
      set_bit MSM_HW_FENCE_FLAG_ENABLED_BIT p;;
      mret (0, Some hash)
  | _, _ => mret (- EINVAL, None)
  end.

Definition msm_hw_fence_destroy (client_handle fence : option Z) : M Z :=
  match client_handle, fence with
  | Some c, Some p =>
      df ← get_dma p;
      if is_array df then mret (- EINVAL) else
      if negb (test_bit MSM_HW_FENCE_FLAG_ENABLED_BIT (df_flags df)) then mret (- EINVAL) else
      ret ← hw_fence_destroy c (df_context df) (df_seqno df);
      if truthy ret then mret ret else
      clear_bit MSM_HW_FENCE_FLAG_ENABLED_BIT p;;
      mret 0
  | _, _ => mret (- EINVAL)
  end.

Definition msm_hw_fence_destroy_with_handle (client_handle : option Z) (handle : Z) : M Z :=
  match client_handle with
  | None => mret (- EINVAL)
  | Some c =>
      cl ← get_client c;
      d ← get;
      if client_id cl >=? HwFenceDrv.clients_num d then mret (- EINVAL) else
      ret ← hw_fence_destroy_with_hash c handle;
      if truthy ret then mret ret else mret 0
  end.

(** The loop over the fences; [handles] are the values stored so far, if the
    caller asked for them. *)
Fixpoint wait_fences (n i : nat) (c : Z) (fence_list : list (option Z)) (client_data_list : option (list Z))
    (handles : list Z) : M (Z * list Z) :=
  match n with
  | O => mret (0, handles)
  | S n =>
      fence ← deref (fence_list !! i);
      client_data ← match client_data_list with Some l => deref (l !! i) | None => mret 0 end;
      array ← match fence with Some p => df ← get_dma p; mret (is_array df) | None => mret false end;
      '(ret, hash) ← (if array : bool then p ← deref fence; hw_fence_process_fence_array c p 0 client_data
                      else hw_fence_process_fence c fence 0 client_data);
      if truthy ret then mret (ret, handles) else
      wait_fences n (S i) c fence_list client_data_list (handles ++ [hash])
  end.

Definition msm_hw_fence_wait_update_v2 (client_handle : option Z) (fence_list : option (list (option Z)))
    (client_data_list : option (list Z)) (num_fences : Z) : M (Z * list Z) :=
  match client_handle, fence_list with
  | Some c, Some fences =>
      first ← deref (fences !! 0%nat);
      if bool_decide (first = None) then mret (- EINVAL, []) else
      d ← get;
      if negb (vm_ready d) then mret (- EAGAIN, []) else
      cl ← get_client c;
      if bool_decide (is_Some client_data_list)
         && (hw_fence_get_client_data_id (client_id_ext cl) >=? HW_FENCE_MAX_CLIENTS_WITH_DATA)
      then mret (- EINVAL, []) else
      if client_id cl >? rxq_clients_num d then mret (- EINVAL, []) else
      wait_fences (Z.to_nat num_fences) 0 c fences client_data_list []
  | _, _ => mret (- EINVAL, [])
  end.

Definition msm_hw_fence_wait_update (client_handle : option Z) (fence_list : option (list (option Z)))
    (num_fences : Z) : M Z :=
  '(ret, _) ← msm_hw_fence_wait_update_v2 client_handle fence_list None num_fences; mret ret.

(** ** Reset *)

Definition msm_hw_fence_reset_client (client_handle : option Z) (reset_flags : Z) : M Z :=
  match client_handle with
  | None => mret (- EINVAL)
  | Some c =>
      d ← get;
      if negb (vm_ready d) then mret (- EAGAIN) else
      for_each (seqZ 0 (zlen (hw_fences_tbl d)))
        (fun i => hw_fence_utils_cleanup_fence c i i reset_flags;; mret tt);;
      hw_fence_utils_reset_queues c;;
      mret 0
  end.

Definition msm_hw_fence_reset_client_by_id (types : list hw_fence_client_type_desc) (client_id_ext reset_flags : Z) :
    M Z :=
  if client_id_ext >=? HW_FENCE_CLIENT_MAX then mret (- EINVAL) else
  c ← deref (hw_fence_utils_get_client_id_priv types client_id_ext);
  if c >=? HW_FENCE_CLIENT_MAX then mret (- EINVAL) else
  p ← client_ptr c;
  msm_hw_fence_reset_client (match p with Some _ => Some c | None => None end) reset_flags.

(** ** Queues and signals *)

Definition driver_ready (d : drv) : bool := resources_ready d && vm_ready d.

Definition msm_hw_fence_update_txq (client_handle : option Z) (handle flags error : Z) : M Z :=
  d ← get;
  if negb (driver_ready d) then mret (- EAGAIN) else
  match client_handle with
  | None => mret (- EINVAL)
  | Some c =>
      if handle >=? zlen (hw_fences_tbl d) then mret (- EINVAL) else
      f ← get_fence handle;
      hw_fence_update_queue c (ctx_id f) (seq_id f) handle flags 0 error (HW_FENCE_TX_QUEUE - 1);;
      mret 0
  end.

Definition msm_hw_fence_update_txq_error (client_handle : option Z) (handle error update_flags : Z) : M Z :=
  d ← get;
  if negb (driver_ready d) then mret (- EAGAIN) else
  match client_handle with
  | None => mret (- EINVAL)
  | Some c =>
      if (handle >=? zlen (hw_fences_tbl d)) || negb (truthy error) then mret (- EINVAL) else
      if negb (update_flags =? MSM_HW_FENCE_UPDATE_ERROR_WITH_MOVE) then mret (- EINVAL) else
      hw_fence_update_existing_txq_payload c handle error;;
      mret 0
  end.

Definition msm_hw_fence_trigger_signal (client_handle : option Z) (tx_client_pid rx_client_vid signal_id : Z) :
    M Z :=
  d ← get;
  if negb (driver_ready d) then mret (- EAGAIN) else
  match client_handle with
  | None => mret (- EINVAL)
  | Some _ => hw_fence_ipcc_trigger_signal tx_client_pid rx_client_vid signal_id;; mret 0
  end.

(** ** The error callback of a client *)

Definition msm_hw_fence_register_error_cb (client_handle cb data : option Z) : M Z :=
  d ← get;
  if negb (resources_ready d) then mret (- EAGAIN) else
  match client_handle, cb, data with
  | Some c, Some cb, Some data =>
      cl ← get_client c;
      if bool_decide (is_Some (fence_error_cb cl)) then mret (- EINVAL) else
      upd_client c (cl_set_fence_error_cb_userdata data);;
      upd_client c (cl_set_fence_error_cb (Some cb));;
      mret 0
  | _, _, _ => mret (- EINVAL)
  end.

Definition msm_hw_fence_deregister_error_cb (client_handle : option Z) : M Z :=
  d ← get;
  if negb (resources_ready d) then mret (- EAGAIN) else
  match client_handle with
  | None => mret (- EINVAL)
  | Some c =>
      cl ← get_client c;
      if error_cb_lock cl then mret (- EAGAIN) else
      upd_client c (cl_set_error_cb_lock true);;
      when (bool_decide (is_Some (fence_error_cb cl)))
        (upd_client c (cl_set_fence_error_cb None);;
         upd_client c (cl_set_fence_error_cb_userdata 0));;
      upd_client c (cl_set_error_cb_lock false);;
      mret 0   (* [ret], set to [-EINVAL] when there is no callback, is not returned *)
  end.
(** ** Registration of a client *)

Definition zero_queue : msm_hw_fence_queue := mk_queue [] 0 None 0 0 0 false.
Definition zero_client : msm_hw_fence_client :=
  mk_client 0 0 (replicate (Z.to_nat HW_FENCE_CLIENT_QUEUES) zero_queue) 0 None 0 false 0 0 0 false false 0.

Definition hw_fence_cleanup_client (c : Z) : M unit :=
  cl ← get_client c;
  put_client (client_id cl) None.

(** The writes of [hw_fence_ipcc_enable_dpu_signaling]; its result is ignored. *)
Definition hw_fence_init_controller_signal (cfg : hw_fence_conf)
    (ipc_clients_table : option (list hw_fence_client_ipc_map)) (c : Z) : M Z :=
  cl ← get_client c;
  let id := client_id_ext cl in
  let N := MSM_HW_FENCE_MAX_SIGNAL_PER_CLIENT in
  let within a b := (a <=? id) && (id <=? b) in
  if id =? HW_FENCE_CLIENT_ID_CTX0 then mret 0 else
  if CONFIG_DEBUG_FS && within HW_FENCE_CLIENT_ID_VAL0 HW_FENCE_CLIENT_ID_VAL6 then mret 0 else
  if within HW_FENCE_CLIENT_ID_CTL0 (HW_FENCE_CLIENT_ID_CTL0 + 5) then
    d ← get;
    when (negb (ipcc_dpu_initialized d))
      (modify (d_set_dpu_initialized true);;
       '(_, writes) ← deref (hw_fence_ipcc_enable_dpu_signaling cfg (protocol_id d) ipc_clients_table);
       for_each writes (fun w => emit (MmioWrite (fst w) (snd w))));;
    mret 0
  else if within HW_FENCE_CLIENT_ID_IPE (HW_FENCE_CLIENT_ID_IPE + N - 1)
       || within HW_FENCE_CLIENT_ID_VPU (HW_FENCE_CLIENT_ID_VPU + N - 1)
       || within HW_FENCE_CLIENT_ID_IFE0 (HW_FENCE_CLIENT_ID_IFE7 + N - 1)
  then mret 0
  else mret (- EINVAL).

Definition hw_fence_init_controller_resources (c : Z) : M Z := mret 0.

(** The identifiers of the new client, up to the check of the number of queues. *)
Definition register_ids (cfg : hw_fence_conf) (ipc_clients_table : list hw_fence_client_ipc_map)
    (c client_id_ext : Z) : M Z :=
  upd_client c (cl_set_client_id c);;
  upd_client c (cl_set_client_id_ext client_id_ext);;
  d ← get;
  vid ← deref (hw_fence_ipcc_get_client_virt_id ipc_clients_table (HwFenceDrv.clients_num d) c);
  upd_client c (cl_set_ipc_client_vid vid);;
  pid ← deref (hw_fence_ipcc_get_client_phys_id ipc_clients_table (HwFenceDrv.clients_num d) c);
  upd_client c (cl_set_ipc_client_pid pid);;
  if (vid <=? 0) || (pid <=? 0) then mret (- EINVAL) else
  signal ← deref (hw_fence_ipcc_get_signal_id ipc_clients_table (HwFenceDrv.clients_num d) c);
  upd_client c (cl_set_ipc_signal_id signal);;
  if signal <? 0 then mret (- EINVAL) else
  rxq ← deref (hw_fence_ipcc_needs_rxq_update ipc_clients_table (HwFenceDrv.clients_num d) c);
  upd_client c (cl_set_update_rxq rxq);;
  irq ← deref (hw_fence_ipcc_needs_ipc_irq ipc_clients_table c);
  upd_client c (cl_set_send_ipc irq);;
  let n := hw_fence_utils_get_queues_num cfg c in
  upd_client c (cl_set_queues_num n);;
  if negb (truthy n) || (rxq && (n <? HW_FENCE_CLIENT_QUEUES)) then mret (- EINVAL) else mret 0.

(** [hw_fence_alloc_client_resources] on the client; the memory descriptor is
    the physical address and the size. *)
Definition register_queues `{DT : DeviceTree} (cfg : hw_fence_conf) (res_start : Z) (old : region_content) (c : Z) :
    M (Z * option (Z * Z)) :=
  r ← deref (hw_fence_alloc_client_resources cfg res_start old c);
  match r with
  | inl ret => mret (ret, None)
  | inr (off, size, _, places) =>
      upd_client c (fun cl => cl_set_queues
        (map qp_queue places ++ drop (length places) (queues cl)) cl);;
      mret (0, Some (res_start + off, size))
  end.

(** [alloc] is whether [kzalloc] returns memory.  The result is the error of
    [ERR_PTR] or the handle, and the memory descriptor when it is written. *)
Definition msm_hw_fence_register `{DT : DeviceTree} (cfg : hw_fence_conf) (ipc_clients_table : list hw_fence_client_ipc_map)
    (res_start : Z) (old : region_content) (hw_fence_driver_enable alloc : bool)
    (client_id_ext : Z) (mem_descriptor : bool) : M ((Z + Z) * option (Z * Z)) :=
  if negb hw_fence_driver_enable then mret (inl (- ENODEV), None) else
  d ← get;
  if negb (resources_ready d) then mret (inl (- EAGAIN), None) else
  if negb mem_descriptor || (client_id_ext >=? HW_FENCE_CLIENT_MAX) then mret (inl (- EINVAL), None) else
  c ← deref (hw_fence_utils_get_client_id_priv (hw_fence_client_types cfg) client_id_ext);
  if c >=? HW_FENCE_CLIENT_MAX then mret (inl (- EINVAL), None) else
  if negb alloc then mret (inl (- ENOMEM), None) else
  p ← client_ptr c;
  if bool_decide (is_Some p) then mret (inl (- EINVAL), None) else
  put_client c (Some zero_client);;
  let error ret desc := hw_fence_cleanup_client c;; mret (inl ret, desc) in
  ret ← register_ids cfg ipc_clients_table c client_id_ext;
  if truthy ret then error ret None else
  '(ret, desc) ← register_queues cfg res_start old c;
  if truthy ret then error ret desc else
  ret ← hw_fence_init_controller_signal cfg (Some ipc_clients_table) c;
  if truthy ret then error ret desc else
  ret ← hw_fence_init_controller_resources c;
  if truthy ret then error ret desc else
  upd_client c (cl_set_error_cb_lock false);;
  mret (inr c, desc).

Definition msm_hw_fence_deregister (client_handle : option Z) : M Z :=
  match client_handle with
  | None => mret (- EINVAL)
  | Some c =>
      cl ← get_client c;
      d ← get;
      if client_id cl >=? HwFenceDrv.clients_num d then mret (- EINVAL) else
      hw_fence_cleanup_client c;;
      mret 0
  end.

(** ** The doorbell *)

(** One payload of the control queue; [ret] is the result so far. *)
Definition process_ctrl_payload (payload : msm_hw_fence_queue_payload) (ret : Z) : M Z :=
  if negb (pl_type payload =? HW_FENCE_PAYLOAD_TYPE_2) then mret (- EINVAL) else
  d ← get;
  let client_id := pl_client_data payload in
  if (client_id <? HW_FENCE_CLIENT_ID_CTX0) || (client_id >=? HwFenceDrv.clients_num d) then mret (- EINVAL) else
  p ← client_ptr client_id;
  match p with
  | None => mret (- EINVAL)
  | Some _ =>
      cb_ret ← hw_fence_utils_fence_error_cb client_id (pl_ctxt_id payload) (pl_seqno payload)
                 (pl_hash payload) (pl_flags payload) (pl_error payload);
      mret (if truthy cb_ret then cb_ret else ret)
  end.

(** [for (i = 0; read && i < HW_FENCE_MAX_ITER_READ; i++)]; [n] rounds are left. *)
Fixpoint read_ctrl_queue (n : nat) (read ret : Z) : M Z :=
  match n with
  | O => mret ret
  | S n =>
      if negb (truthy read) then mret ret else
      d ← get;
      q ← deref (ctrl_queues d !! Z.to_nat (HW_FENCE_RX_QUEUE - 1));
      '(read, payload, q) ← deref (hw_fence_read_queue_helper q);
      modify (fun d => d_set_ctrl_queues (zupd (ctrl_queues d) (HW_FENCE_RX_QUEUE - 1) q) d);;
      if read <? 0 then mret read else
      payload ← deref payload;
      ret ← process_ctrl_payload payload ret;
      read_ctrl_queue n read ret
  end.

Definition _process_fence_error_client_loopback : M Z := read_ctrl_queue HW_FENCE_MAX_ITER_READ 1 0.

Definition _process_doorbell_id (db_flag_id : Z) : M Z :=
  if db_flag_id =? HW_FENCE_CTRL_QUEUE_DOORBELL then _process_fence_error_client_loopback
  else if CONFIG_DEBUG_FS && (HW_FENCE_CLIENT_ID_VAL0 <=? db_flag_id) && (db_flag_id <=? HW_FENCE_CLIENT_ID_VAL6)
  then process_validation_client_loopback db_flag_id
  else mret (- EINVAL).

Definition HW_FENCE_DOORBELL_FLAGS_ID_LAST : Z :=
  if CONFIG_DEBUG_FS then HW_FENCE_CLIENT_ID_VAL6 else HW_FENCE_CTRL_QUEUE_DOORBELL.

Fixpoint process_doorbells (ids : list Z) (db_flags : Z) : M unit :=
  match ids with
  | [] => mret tt
  | db_flag_id :: ids =>
      let mask := BIT db_flag_id in
      if truthy (Z.land mask db_flags) then
        _process_doorbell_id db_flag_id;;
        let db_flags := Z.land db_flags (Z.lnot mask) in
        if negb (truthy db_flags) then mret tt else process_doorbells ids db_flags
      else process_doorbells ids db_flags
  end.

Definition hw_fence_utils_process_doorbell_mask (db_flags : Z) : M unit :=
  process_doorbells (seqZ HW_FENCE_CTRL_QUEUE_DOORBELL (HW_FENCE_DOORBELL_FLAGS_ID_LAST + 1)) db_flags.

Definition msm_hw_fence_driver_doorbell_sim (db_mask : Z) : M Z :=
  d ← get;
  if negb (resources_ready d) then mret (- EAGAIN) else
  hw_fence_utils_process_doorbell_mask db_mask;; mret 0.

End api.
