(* ===== verification/HwFenceRuns.v ===== *)
(** * Runs of the interface of the hardware-fence driver

    The abstract specification of the fence interface is a machine whose state
    is the set of slots in use, each with the key and the owner of its fence,
    and the set of dma-fences that carry the hardware-fence flag.  The driver
    refines it: every sequence of calls returns, and what it returns is what the
    machine allows. *)

From stdpp Require Import gmap.
From S2P Require Import Prelude Outcome HwFenceDrv HwFenceRing HwFenceTable HwFenceDict HwFenceJoin HwFenceWait HwFenceApi.

(** ** The abstract machine *)

Inductive api_call :=
| CallCreate (c p : Z)
| CallDestroy (c p : Z)
| CallDestroyHandle (c h : Z).

(** The slots in use, with key and owner, and the flagged dma-fences. *)
Record api_state := mk_api {
  ab_slots : gmap Z ((Z * Z) * Z);
  ab_flags : gset Z
}.

(** What no call changes: the registered clients with their identifiers, the
    dma-fences without their flags, the number of slots, whether the VM is there. *)
Record api_world := mk_world {
  aw_clients : list (option msm_hw_fence_client);
  aw_clients_num : Z;
  aw_dmas : list dma_fence;
  aw_entries : Z;
  aw_vm_ready : bool
}.

Definition unflagged (df : dma_fence) : dma_fence := set_df_flags 0 df.

Definition world_of (d : drv) : api_world :=
  mk_world (clients d) (HwFenceDrv.clients_num d) (map unflagged (dma_fences d)) (zlen (hw_fences_tbl d)) (vm_ready d).

Definition dma_in (w : api_world) (p : Z) (df : dma_fence) : Prop :=
  0 <= p /\ aw_dmas w !! Z.to_nat p = Some df.

Definition client_in (w : api_world) (c : Z) (cl : msm_hw_fence_client) : Prop :=
  0 <= c /\ aw_clients w !! Z.to_nat c = Some (Some cl).

(** A call, and the results that the machine allows with the states after them:
    the code, and the handle when one is given out. *)
Inductive api_step (w : api_world) (a : api_state) : api_call -> Z -> option Z -> api_state -> Prop :=
| StepCreate c p cl df h :
    aw_vm_ready w = true -> client_in w c cl -> dma_in w p df -> df_array df = None -> p ∉ ab_flags a ->
    0 <= h < aw_entries w -> ab_slots a !! h = None ->
    api_step w a (CallCreate c p) 0 (Some h)
      (mk_api (<[h := (dma_key df, client_id cl)]> (ab_slots a)) ({[p]} ∪ ab_flags a))
| StepCreateFull c p df h :
    aw_vm_ready w = true -> dma_in w p df -> df_array df = None -> p ∉ ab_flags a ->
    (forall h, 0 <= h < aw_entries w -> is_Some (ab_slots a !! h)) ->
    api_step w a (CallCreate c p) (- EINVAL) h a
| StepCreateAgain c p : aw_vm_ready w = true -> p ∈ ab_flags a ->
    api_step w a (CallCreate c p) (- EINVAL) None a
| StepCreateArray c p df : aw_vm_ready w = true -> dma_in w p df -> df_array df <> None ->
    api_step w a (CallCreate c p) (- EINVAL) None a
| StepCreateEarly c p : aw_vm_ready w = false ->
    api_step w a (CallCreate c p) (- EAGAIN) None a
| StepDestroy c p df h owner :
    dma_in w p df -> df_array df = None -> p ∈ ab_flags a -> ab_slots a !! h = Some (dma_key df, owner) ->
    api_step w a (CallDestroy c p) 0 None
      (mk_api (delete h (ab_slots a)) (ab_flags a ∖ {[p]}))
| StepDestroyGone c p df :
    dma_in w p df -> df_array df = None -> p ∈ ab_flags a ->
    (forall h owner, ab_slots a !! h <> Some (dma_key df, owner)) ->
    api_step w a (CallDestroy c p) (- EINVAL) None a
| StepDestroyNot c p df : dma_in w p df -> df_array df <> None \/ p ∉ ab_flags a ->
    api_step w a (CallDestroy c p) (- EINVAL) None a
| StepHandle c cl h key :
    client_in w c cl -> client_id cl < aw_clients_num w -> ab_slots a !! h = Some (key, client_id cl) ->
    api_step w a (CallDestroyHandle c h) 0 None (mk_api (delete h (ab_slots a)) (ab_flags a))
| StepHandleRefused c cl h :
    client_in w c cl ->
    aw_clients_num w <= client_id cl \/ (forall key, ab_slots a !! h <> Some (key, client_id cl)) ->
    api_step w a (CallDestroyHandle c h) (- EINVAL) None a.

(** A sequence of calls with their results. *)
Inductive api_steps (w : api_world) : api_state -> list api_call -> list (Z * option Z) -> api_state -> Prop :=
| StepsNil a : api_steps w a [] [] a
| StepsCons a call ret handle a1 calls results a2 :
    api_step w a call ret handle a1 -> api_steps w a1 calls results a2 ->
    api_steps w a (call :: calls) ((ret, handle) :: results) a2.

(** ** The calls of the driver *)

Section runs.
Context `{E : HwFenceEnv}.

Definition run_call (call : api_call) : M (Z * option Z) :=
  match call with
  | CallCreate c p => msm_hw_fence_create (Some c) (Some (Some p, true))
  | CallDestroy c p => ret ← msm_hw_fence_destroy (Some c) (Some p); mret (ret, None)
  | CallDestroyHandle c h => ret ← msm_hw_fence_destroy_with_handle (Some c) h; mret (ret, None)
  end.

Fixpoint run_calls (calls : list api_call) : M (list (Z * option Z)) :=
  match calls with
  | [] => mret []
  | call :: calls => r ← run_call call; rs ← run_calls calls; mret (r :: rs)
  end.

(** Calls come from registered clients, on dma-fences that are there. *)
Definition call_ok (w : api_world) (call : api_call) : Prop :=
  match call with
  | CallCreate c p | CallDestroy c p =>
      (exists cl, client_in w c cl) /\ exists df, dma_in w p df
  | CallDestroyHandle c h => (exists cl, client_in w c cl) /\ 0 <= h < 2 ^ 64
  end.

(** The kernel gives every dma-fence a key of its own; client identifiers are
    positive 32-bit numbers. *)
Record world_ok (w : api_world) : Prop := mk_world_ok {
  wo_flag : 0 <= MSM_HW_FENCE_FLAG_ENABLED_BIT < 64;
  wo_key p df : dma_in w p df -> is_u64 (df_context df) /\ is_u64 (df_seqno df) /\ dma_key df <> (0, 0);
  wo_unique p p' df df' : dma_in w p df -> dma_in w p' df' -> df_array df = None -> df_array df' = None ->
    dma_key df = dma_key df' -> p = p';
  wo_client c cl : client_in w c cl -> 0 < client_id cl < 2 ^ 32
}.

(** The slots of a table. *)
Definition slot_of_fence (f : msm_hw_fence) : option ((Z * Z) * Z) :=
  if valid f =? 0 then None else Some (fence_key f, fence_allocator f).

Definition flagged (df : dma_fence) : bool := test_bit MSM_HW_FENCE_FLAG_ENABLED_BIT (df_flags df).

(** The driver in state [d] stands for the machine in state [a]. *)
Record implements (w : api_world) (d : drv) (a : api_state) : Prop := mk_implements {
  im_world : world_of d = w;
  im_table : exists D, represents d D;
  im_slots h f : fence_at d h f -> ab_slots a !! h = slot_of_fence f;
  im_range h x : ab_slots a !! h = Some x -> exists f, fence_at d h f;
  im_free h f : fence_at d h f -> valid f = 0 -> fence_allocator f = 0;
  im_flags p df : dma_at d p df -> p ∈ ab_flags a <-> flagged df = true;
  im_covered h owner p df : ab_slots a !! h = Some (dma_key df, owner) -> dma_at d p df ->
    df_array df = None -> flagged df = true
}.

(** ** The parts of the driver that a call changes *)

Definition with_dma (p : Z) (df : dma_fence) (d : drv) : drv := d_set_dma_fences (zupd (dma_fences d) p df) d.

Lemma set_bit_ret nr d p df : dma_at d p df ->
  set_bit nr p d = Ret tt (with_dma p (set_df_flags (Z.lor (df_flags df) (BIT nr)) df) d).
Proof. intros Hp. unfold set_bit. by rewrite (bind_ret _ _ _ _ _ (get_dma_ret d p df Hp)). Qed.

Lemma clear_bit_ret nr d p df : dma_at d p df ->
  clear_bit nr p d = Ret tt (with_dma p (set_df_flags (Z.land (df_flags df) (Z.lnot (BIT nr))) df) d).
Proof. intros Hp. unfold clear_bit. by rewrite (bind_ret _ _ _ _ _ (get_dma_ret d p df Hp)). Qed.

Lemma dma_at_with d p df df' q dq : dma_at d p df ->
  dma_at (with_dma p df' d) q dq <-> (q = p /\ dq = df') \/ (q <> p /\ dma_at d q dq).
Proof.
  intros [Hp Hl]. unfold dma_at, with_dma. cbn [dma_fences d_set_dma_fences].
  destruct (Z.eq_dec q p) as [->|Hne].
  - rewrite (lookup_zupd_eq _ _ _ _ Hp Hl). split; [intros [_ [= <-]]; by left|].
    intros [[_ ->]|[Hx _]]; [done|by destruct Hx].
  - split.
    + intros [Hq Hx]. right. rewrite lookup_zupd_ne in Hx by done. by repeat split.
    + intros [[-> _]|(_ & Hq & Hx)]; [done|]. by rewrite lookup_zupd_ne.
Qed.

Lemma world_with_dma d p df v : dma_at d p df -> world_of (with_dma p (set_df_flags v df) d) = world_of d.
Proof.
  intros [Hp Hl]. unfold world_of, with_dma. simpl. f_equal. unfold zupd.
  destruct (Z.ltb_spec p 0); [done|]. apply list_eq. intros i.
  rewrite !list_lookup_fmap. destruct (Nat.eq_dec i (Z.to_nat p)) as [->|Hne].
  - rewrite list_lookup_insert_eq by (by eapply lookup_lt_Some). by rewrite Hl.
  - by rewrite list_lookup_insert_ne.
Qed.

Lemma world_with_fence d h f : world_of (with_fence h f d) = world_of d.
Proof. unfold world_of, with_fence. simpl. by rewrite zlen_zupd. Qed.

Lemma represents_with_dma d p df D : represents d D -> represents (with_dma p df d) D.
Proof. by apply represents_same_table. Qed.

Section steps.
Context (w : api_world) (Hw : world_ok w).
Implicit Types (d : drv) (a : api_state).

Lemma world_client d a c cl : implements w d a -> client_in w c cl <-> client_at d c cl.
Proof. intros [<- _ _ _ _ _ _]. split; [intros [??]|intros []]; by split. Qed.

Lemma world_dma d a p df : implements w d a -> dma_in w p (unflagged df) -> exists df', dma_at d p df' /\ unflagged df' = unflagged df.
Proof.
  intros [<- _ _ _ _ _ _] [Hp Hl]. apply list_lookup_fmap_Some in Hl as (df' & Heq & Hl). by exists df'.
Qed.

Lemma dma_world d a p df : implements w d a -> dma_at d p df -> dma_in w p (unflagged df).
Proof. intros [<- _ _ _ _ _ _] [Hp Hl]. split; [done|]. simpl. by rewrite list_lookup_fmap, Hl. Qed.

Lemma dma_name d a p p' df df' : implements w d a -> dma_at d p df -> dma_at d p' df' ->
  df_array df = None -> df_array df' = None -> dma_key df = dma_key df' -> p = p'.
Proof.
  intros Hi Hp Hp' Ha Ha' Hk. apply (wo_unique w Hw p p' (unflagged df) (unflagged df')); try done;
    by eapply dma_world.
Qed.

(** One slot changes, and perhaps the flags. *)
Lemma implements_slot d d' a h f f' flags' :
  implements w d a -> fence_at d h f -> hw_fences_tbl d' = zupd (hw_fences_tbl d) h f' ->
  world_of d' = w -> (exists D', represents d' D') -> (valid f' = 0 -> fence_allocator f' = 0) ->
  let slots' := match slot_of_fence f' with Some x => <[h := x]> (ab_slots a) | None => delete h (ab_slots a) end in
  (forall p df, dma_at d' p df -> p ∈ flags' <-> flagged df = true) ->
  (forall h owner p df, slots' !! h = Some (dma_key df, owner) -> dma_at d' p df -> df_array df = None ->
     flagged df = true) ->
  implements w d' (mk_api slots' flags').
Proof.
  intros Hi Hf Ht Hw' HR Hfree slots' Hflags Hcov.
  assert (Hiff : forall h' g, fence_at d' h' g <-> (h' = h /\ g = f') \/ (h' <> h /\ fence_at d h' g)).
  { intros h' g. rewrite <- (fence_at_with_iff d h f f' h' g Hf). unfold fence_at, with_fence. simpl. by rewrite Ht. }
  split; try done; cbn [ab_slots ab_flags].
  - intros h' g Hg. apply Hiff in Hg as [[-> ->]|[Hne Hg]].
    + unfold slots'. destruct (slot_of_fence f') as [x|]; [apply lookup_insert_eq|apply lookup_delete_eq].
    + rewrite <- (im_slots w d a Hi h' g Hg). unfold slots'.
      destruct (slot_of_fence f') as [x|]; [by rewrite lookup_insert_ne|by rewrite lookup_delete_ne].
  - intros h' x Hx. destruct (Z.eq_dec h' h) as [->|Hne]; [exists f'; apply Hiff; by left|].
    destruct (im_range w d a Hi h' x) as (g & Hg); [|exists g; apply Hiff; by right].
    revert Hx. unfold slots'. destruct (slot_of_fence f') as [y|]; [by rewrite lookup_insert_ne|by rewrite lookup_delete_ne].
  - intros h' g Hg Hv. apply Hiff in Hg as [[-> ->]|[_ Hg]]; [by apply Hfree|by apply (im_free w d a Hi h' g)].
Qed.

Lemma slot_key d a h owner key : implements w d a -> ab_slots a !! h = Some (key, owner) ->
  exists f, fence_at d h f /\ valid f <> 0 /\ fence_key f = key /\ fence_allocator f = owner.
Proof.
  intros Hi Hs. destruct (im_range w d a Hi h _ Hs) as (f & Hf). exists f. split; [done|].
  rewrite (im_slots w d a Hi h f Hf) in Hs. unfold slot_of_fence in Hs.
  destruct (Z.eqb_spec (valid f) 0); [done|]. injection Hs as <- <-. by repeat split.
Qed.

Lemma slot_used d a h f : implements w d a -> fence_at d h f -> valid f <> 0 ->
  ab_slots a !! h = Some (fence_key f, fence_allocator f).
Proof.
  intros Hi Hf Hv. rewrite (im_slots w d a Hi h f Hf). unfold slot_of_fence. by destruct (Z.eqb_spec (valid f) 0).
Qed.

Lemma slot_free d a h f : implements w d a -> fence_at d h f -> valid f = 0 -> ab_slots a !! h = None.
Proof. intros Hi Hf Hv. rewrite (im_slots w d a Hi h f Hf). unfold slot_of_fence. by rewrite Hv. Qed.

Lemma slot_bound d a h : implements w d a -> 0 <= h < aw_entries w <-> exists f, fence_at d h f.
Proof.
  intros Hi. rewrite <- (im_world w d a Hi). unfold world_of, fence_at, zlen. simpl. split.
  - intros Hh. destruct (lookup_lt_is_Some_2 (hw_fences_tbl d) (Z.to_nat h)) as [f Hf]; [lia|]. exists f. split; [lia|done].
  - intros (f & Hh & Hf). apply lookup_lt_Some in Hf. lia.
Qed.

Lemma reserved_slot f client ctx seq t pending : is_u64 ctx -> is_u64 seq -> 0 <= client < 2 ^ 32 ->
  slot_of_fence (reserved f client ctx seq t pending) = Some ((ctx, seq), client).
Proof.
  intros Hc Hs Hcl. unfold slot_of_fence, fence_key. simpl. by rewrite !u64_small, u32_small.
Qed.

(** The flag of [p] is set or cleared, nothing else. *)
Definition reflag (p : Z) (v : Z) (df : dma_fence) (d : drv) : drv := with_dma p (set_df_flags v df) d.

Lemma reflag_flags d p df v (flags : gset Z) q dq : dma_at d p df ->
  (forall q dq, dma_at d q dq -> q ∈ flags <-> flagged dq = true) ->
  dma_at (reflag p v df d) q dq ->
  q ∈ (if test_bit MSM_HW_FENCE_FLAG_ENABLED_BIT v then {[p]} ∪ flags else flags ∖ {[p]}) <-> flagged dq = true.
Proof.
  intros Hp Hfl Hq. apply (dma_at_with d p df) in Hq as [[-> ->]|[Hne Hq]]; [| |done].
  - unfold flagged. simpl. destruct (test_bit MSM_HW_FENCE_FLAG_ENABLED_BIT v).
    + rewrite elem_of_union, elem_of_singleton. tauto.
    + rewrite elem_of_difference, elem_of_singleton. split; [tauto|done].
  - rewrite <- (Hfl q dq Hq). destruct (test_bit MSM_HW_FENCE_FLAG_ENABLED_BIT v).
    + rewrite elem_of_union, elem_of_singleton. tauto.
    + rewrite elem_of_difference, elem_of_singleton. tauto.
Qed.

Lemma set_flag_bit x : test_bit MSM_HW_FENCE_FLAG_ENABLED_BIT (Z.lor x (BIT MSM_HW_FENCE_FLAG_ENABLED_BIT)) = true.
Proof.
  pose proof (wo_flag w Hw). unfold test_bit. rewrite testbit_lor_BIT by lia. by rewrite Z.eqb_refl, orb_true_r.
Qed.

Lemma clear_flag_bit x :
  test_bit MSM_HW_FENCE_FLAG_ENABLED_BIT (Z.land x (Z.lnot (BIT MSM_HW_FENCE_FLAG_ENABLED_BIT))) = false.
Proof.
  pose proof (wo_flag w Hw). unfold test_bit. rewrite testbit_land_lnot_BIT by lia.
  by rewrite Z.eqb_refl, andb_false_r.
Qed.

(** The new slot of a fence that is created. *)
Lemma implements_create d d1 a p df h f f' owner :
  implements w d a -> dma_at d p df -> df_array df = None -> fence_at d h f ->
  d1 = with_fence h f' (d_set_clock (S (clock d)) d) -> valid f' <> 0 -> (exists D, represents d1 D) ->
  slot_of_fence f' = Some (dma_key df, owner) ->
  implements w (reflag p (Z.lor (df_flags df) (BIT MSM_HW_FENCE_FLAG_ENABLED_BIT)) df d1)
    (mk_api (<[h := (dma_key df, owner)]> (ab_slots a)) ({[p]} ∪ ab_flags a)).
Proof.
  intros Hi Hp Harr Hf Hd1 Hv [D HR] Hslot.
  assert (Hp1 : dma_at d1 p df) by (by rewrite Hd1).
  pose proof (implements_slot d (reflag p (Z.lor (df_flags df) (BIT MSM_HW_FENCE_FLAG_ENABLED_BIT)) df d1)
    a h f f' ({[p]} ∪ ab_flags a) Hi Hf) as Hx. rewrite Hslot in Hx. apply Hx.
  - unfold reflag, with_dma. simpl. by rewrite Hd1.
  - unfold reflag. rewrite world_with_dma by done. rewrite Hd1, world_with_fence. apply (im_world w d a Hi).
  - exists D. by apply represents_with_dma.
  - done.
  - intros q dq Hq. rewrite <- (reflag_flags d1 p df _ (ab_flags a) q dq Hp1) by (done || (rewrite Hd1; apply (im_flags w d a Hi))).
    by rewrite set_flag_bit.
  - intros h' o q dq Hs Hq Hqa. apply (dma_at_with d1 p df) in Hq as [[-> ->]|[Hne Hq]];
      [apply set_flag_bit| |done]. rewrite Hd1 in Hq. change (dma_at d q dq) in Hq.
    apply lookup_insert_Some in Hs as [[_ Heq]|[_ Hs]]; [|by apply (im_covered w d a Hi h' o q)].
    apply (f_equal fst) in Heq. destruct Hne. symmetry. by apply (dma_name d a p q df dq Hi Hp Hq).
Qed.

(** An unflagged dma-fence is not in the table. *)
Lemma unflagged_absent d a D p df : implements w d a -> represents d D -> dma_at d p df ->
  df_array df = None -> flagged df = false -> D !! dma_key df = None.
Proof.
  intros Hi HR Hp Harr Hflag. destruct (D !! dma_key df) as [g|] eqn:HD; [|done].
  destruct (rp_back d D HR _ _ HD) as (h & Hg & Hv & Hgk). exfalso.
  pose proof (slot_used d a h g Hi Hg Hv) as Hs. rewrite Hgk in Hs.
  pose proof (im_covered w d a Hi h _ p df Hs Hp Harr). congruence.
Qed.

(** Creation. *)
Lemma create_step d a c p cl df :
  implements w d a -> client_at d c cl -> dma_at d p df ->
  exists ret handle d' a', run_call (CallCreate c p) d = Ret (ret, handle) d' /\
    api_step w a (CallCreate c p) ret handle a' /\ implements w d' a'.
Proof.
  intros Hi Hc Hp. cbn [run_call]. unfold msm_hw_fence_create. rewrite bind_get.
  pose proof (dma_world d a p df Hi Hp) as Hin. pose proof (f_equal aw_vm_ready (im_world w d a Hi)) as Hvm.
  simpl in Hvm. rewrite Hvm. destruct (aw_vm_ready w) eqn:Hready; cbn [negb];
    [|exists (- EAGAIN), None, d, a; split; [done|]; split; [by constructor|done]].
  rewrite (bind_ret _ _ _ _ _ (get_dma_ret d p df Hp)). unfold is_array.
  destruct (df_array df) eqn:Harr;
    [exists (- EINVAL), None, d, a; split; [done|]; split; [|done];
     apply (StepCreateArray w a c p (unflagged df)); [done|done|simpl; congruence]|].
  rewrite bool_decide_eq_false_2 by (by intros [? ?]). fold (flagged df).
  pose proof (im_flags w d a Hi p df Hp) as Hfl. destruct (flagged df) eqn:Hflag.
  { exists (- EINVAL), None, d, a. split; [done|]. split; [|done]. constructor; [done|by apply Hfl]. }
  assert (Hnf : p ∉ ab_flags a) by (intros Hx; apply Hfl in Hx; congruence).
  destruct (im_table w d a Hi) as (D & HR). destruct (wo_key w Hw p _ Hin) as (Hcx & Hsq & Hk).
  pose proof (proj2 (world_client d a c cl Hi) Hc) as Hcw. pose proof (wo_client w Hw c cl Hcw) as Hcl.
  pose proof (unflagged_absent d a D p df Hi HR Hp Harr Hflag) as HD.
  unfold hw_fence_create at 1.
  destruct (create_absent HW_FENCE_LOOKUP_OP_CREATE d D (df_context df) (df_seqno df) (u32 (client_id cl)) 0)
    as [(h & f & f' & d1 & Hf & Hv & Hf' & Hd1 & Hr & HR')|(Hfull & hash & Hr)]; try done.
  - assert (Hp1 : dma_at d1 p df) by (by rewrite Hd1).
    eexists 0, (Some h), _, _. split; [|split].
    + rewrite (bind_ret (cl0 ← get_client c; _) _ d (0, h) d1);
        [|rewrite (bind_ret _ _ _ _ _ (get_client_ret _ _ _ Hc)); by rewrite (bind_ret _ _ _ _ _ Hr)].
      cbn [truthy Z.eqb negb]. by rewrite (bind_ret _ _ _ _ _ (set_bit_ret _ d1 p df Hp1)).
    + apply (StepCreate w a c p cl (unflagged df) h); try done.
      * apply (slot_bound d a h Hi). by exists f.
      * by apply (slot_free d a h f).
    + apply (implements_create d d1 a p df h f f'); try done.
      * by rewrite Hf'.
      * by eexists.
      * rewrite Hf', reserved_slot; [|done|done|apply u32_range]. by rewrite u32_small by lia.
  - exists (- EINVAL), (Some hash), d, a. split.
    { rewrite (bind_ret (cl0 ← get_client c; _) _ d (- EINVAL, hash) d); [done|].
      rewrite (bind_ret _ _ _ _ _ (get_client_ret _ _ _ Hc)). by rewrite (bind_ret _ _ _ _ _ Hr). }
    split; [|done]. apply (StepCreateFull w a c p (unflagged df)); try done. intros h Hh.
    apply (slot_bound d a h Hi) in Hh as (f & Hf). rewrite (slot_used d a h f Hi Hf (Hfull h f Hf)). by eexists.
Qed.

(** A slot that is released; the flag of the dma-fence with its key, if there is
    one, may stay. *)
Lemma implements_release d d' a h f flags' :
  implements w d a -> fence_at d h f -> valid f <> 0 -> hw_fences_tbl d' = zupd (hw_fences_tbl d) h (released f) ->
  world_of d' = w -> (exists D, represents d' D) ->
  (forall p df, dma_at d' p df -> p ∈ flags' <-> flagged df = true) ->
  (forall p df, dma_at d' p df -> dma_key df <> fence_key f ->
     exists df', dma_at d p df' /\ df_array df' = df_array df /\ dma_key df' = dma_key df /\ flagged df' = flagged df) ->
  implements w d' (mk_api (delete h (ab_slots a)) flags').
Proof.
  intros Hi Hf Hv Ht Hw' HR Hfl Hdma.
  pose proof (implements_slot d d' a h f (released f) flags' Hi Hf Ht Hw' HR ltac:(done)) as Hx.
  change (slot_of_fence (released f)) with (@None ((Z * Z) * Z)) in Hx. apply Hx; [done|].
  intros h' o p df Hs Hp Harr. apply lookup_delete_Some in Hs as [Hne Hs].
  assert (Hk : dma_key df <> fence_key f).
  { intros Heq. destruct (slot_key d a h' o _ Hi Hs) as (g & Hg & Hgv & Hgk & _). destruct Hne.
    destruct (im_table w d a Hi) as (D & HRd). rewrite Heq in Hgk. symmetry.
    by apply (rp_unique d D HRd h' h g f). }
  destruct (Hdma p df Hp Hk) as (df' & Hp' & Ha & Hkk & <-). rewrite <- Hkk in Hs. rewrite <- Ha in Harr.
  by apply (im_covered w d a Hi h' o p df').
Qed.

(** Destruction: what the three checks and the table decide. *)
Lemma destroy_refused d c p df : dma_at d p df -> df_array df <> None \/ flagged df = false ->
  msm_hw_fence_destroy (Some c) (Some p) d = Ret (- EINVAL) d.
Proof.
  intros Hp Hn. unfold msm_hw_fence_destroy. rewrite (bind_ret _ _ _ _ _ (get_dma_ret d p df Hp)).
  unfold is_array. fold (flagged df). destruct Hn as [Hn|Hn].
  - by rewrite bool_decide_eq_true_2 by (destruct (df_array df); [by eexists|done]).
  - rewrite Hn. by destruct (bool_decide _).
Qed.

Lemma destroy_checked d c cl p df ret d' : dma_at d p df -> client_at d c cl -> df_array df = None -> flagged df = true ->
  _hw_fence_cleanup (u32 (client_id cl)) (df_context df) (df_seqno df) d = Ret ret d' ->
  msm_hw_fence_destroy (Some c) (Some p) d =
  if truthy ret then Ret (- EINVAL) d' else (clear_bit MSM_HW_FENCE_FLAG_ENABLED_BIT p;; mret 0) d'.
Proof.
  intros Hp Hc Harr Hfl Hr. unfold msm_hw_fence_destroy. rewrite (bind_ret _ _ _ _ _ (get_dma_ret d p df Hp)).
  unfold is_array. fold (flagged df). rewrite Hfl, Harr. cbn [negb].
  rewrite bool_decide_eq_false_2 by (by intros [? ?]).
  assert (Hd : hw_fence_destroy c (df_context df) (df_seqno df) d = Ret (if truthy ret then - EINVAL else 0) d').
  { unfold hw_fence_destroy. rewrite (bind_ret _ _ _ _ _ (get_client_ret _ _ _ Hc)).
    by rewrite (bind_ret _ _ _ _ _ Hr). }
  rewrite (bind_ret _ _ _ _ _ Hd). by destruct (truthy ret).
Qed.

Lemma destroy_step d a c p cl df :
  implements w d a -> client_at d c cl -> dma_at d p df ->
  exists ret d' a', msm_hw_fence_destroy (Some c) (Some p) d = Ret ret d' /\
    api_step w a (CallDestroy c p) ret None a' /\ implements w d' a'.
Proof.
  intros Hi Hc Hp. pose proof (dma_world d a p df Hi Hp) as Hin. pose proof (im_flags w d a Hi p df Hp) as Hfl.
  destruct (decide (df_array df <> None \/ flagged df = false)) as [Hn|Hn].
  { exists (- EINVAL), d, a. split; [by eapply destroy_refused|]. split; [|done].
    apply (StepDestroyNot w a c p (unflagged df)); [done|].
    destruct Hn as [Hn|Hn]; [by left|right; rewrite Hfl; congruence]. }
  assert (Harr : df_array df = None) by (destruct (df_array df); [by destruct Hn; left|done]).
  assert (Hflag : flagged df = true) by (destruct (flagged df); [done|by destruct Hn; right]).
  destruct (im_table w d a Hi) as (D & HR). destruct (wo_key w Hw p _ Hin) as (_ & _ & Hk).
  pose proof (destroy_checked d c cl p df) as Hrun.
  destruct (D !! dma_key df) as [f|] eqn:HD.
  - destruct (rp_back d D HR _ _ HD) as (h & Hf & Hv & Hfk).
    destruct (cleanup_slot d D h f (u32 (client_id cl)) HR Hf Hv) as [Hr HR'].
    set (v := Z.land (df_flags df) (Z.lnot (BIT MSM_HW_FENCE_FLAG_ENABLED_BIT))).
    set (d1 := with_fence h (released f) d) in *. assert (Hp1 : dma_at d1 p df) by done.
    exists 0, (reflag p v df d1), (mk_api (delete h (ab_slots a)) (ab_flags a ∖ {[p]})). split; [|split].
    + injection Hfk as Hcx Hsq. rewrite Hcx, Hsq in Hr. rewrite (Hrun 0 d1) by done. cbn [truthy Z.eqb negb].
      by rewrite (bind_ret _ _ _ _ _ (clear_bit_ret _ d1 p df Hp1)).
    + apply (StepDestroy w a c p (unflagged df) h (fence_allocator f)); try done; [by apply Hfl|].
      change (dma_key (unflagged df)) with (dma_key df). rewrite <- Hfk. by apply (slot_used d a h f).
    + apply (implements_release d _ a h f); try done.
      * unfold reflag. rewrite world_with_dma by done. unfold d1. rewrite world_with_fence. apply (im_world w d a Hi).
      * eexists. by apply represents_with_dma.
      * intros q dq Hq. rewrite <- (reflag_flags d1 p df v (ab_flags a) q dq Hp1 (im_flags w d a Hi) Hq).
        unfold v. by rewrite clear_flag_bit.
      * intros q dq Hq Hne. apply (dma_at_with d1 p df) in Hq as [[-> ->]|[_ Hq]]; [by destruct Hne| |done].
        by exists dq.
  - pose proof (cleanup_absent d D _ _ (u32 (client_id cl)) HR Hk HD) as Hr.
    exists (- EINVAL), d, a. split; [by rewrite (Hrun (- EINVAL) d)|]. split; [|done].
    apply (StepDestroyGone w a c p (unflagged df)); try done; [by apply Hfl|]. intros h owner Hs.
    destruct (slot_key d a h owner _ Hi Hs) as (f & Hf & Hv & Hfk & _).
    destruct (rp_used d D HR h f Hf Hv) as [_ HDf]. rewrite Hfk in HDf. unfold dma_key in *. simpl in HDf. congruence.
Qed.

(** Destruction by handle. *)
Lemma handle_step d a c cl h :
  implements w d a -> client_at d c cl -> 0 <= h < 2 ^ 64 ->
  exists ret d' a', msm_hw_fence_destroy_with_handle (Some c) h d = Ret ret d' /\
    api_step w a (CallDestroyHandle c h) ret None a' /\ implements w d' a'.
Proof.
  intros Hi Hc Hh. pose proof (proj2 (world_client d a c cl Hi) Hc) as Hcw.
  pose proof (wo_client w Hw c cl Hcw) as Hcl. pose proof (f_equal aw_clients_num (im_world w d a Hi)) as Hnum.
  simpl in Hnum. unfold msm_hw_fence_destroy_with_handle, hw_fence_destroy_with_hash.
  rewrite (bind_ret _ _ _ _ _ (get_client_ret _ _ _ Hc)), bind_get, Hnum.
  assert (Hno : forall r, api_step w a (CallDestroyHandle c h) (- EINVAL) None a ->
    r = Ret (- EINVAL) d -> exists ret d' a', r = Ret ret d' /\
      api_step w a (CallDestroyHandle c h) ret None a' /\ implements w d' a')
    by (intros r Hs ->; by exists (- EINVAL), d, a).
  destruct (Z.geb_spec (client_id cl) (aw_clients_num w)) as [Hge|Hlt];
    [apply Hno; [apply (StepHandleRefused w a c cl); [done|left; lia]|done]|].
  unfold mbind at 1, run_bind at 1. rewrite (bind_ret _ _ _ _ _ (get_client_ret _ _ _ Hc)), bind_get.
  destruct (im_table w d a Hi) as (D & HR). unfold _get_hw_fence.
  assert (Hb : h < hw_fence_table_entries d <-> exists f, fence_at d h f).
  { rewrite <- (slot_bound d a h Hi), <- (im_world w d a Hi). simpl. rewrite (tk_len d (rp_ok d D HR)). lia. }
  destruct (Z.geb_spec h (hw_fence_table_entries d)) as [Hge|Hin].
  { apply Hno; [|done]. apply (StepHandleRefused w a c cl); [done|right]. intros key Hs.
    destruct (im_range w d a Hi h _ Hs) as (f & Hf). pose proof (proj2 Hb (ex_intro _ f Hf)). lia. }
  destruct (proj1 Hb Hin) as (f & Hf). rewrite (bind_ret _ _ _ _ _ (get_fence_ret d h f Hf)).
  rewrite u32_small by lia. destruct (Z.eqb_spec (fence_allocator f) (client_id cl)) as [Heq|Hne]; cbn [negb].
  - assert (Hv : valid f <> 0) by (intros Hv; pose proof (im_free w d a Hi h f Hf Hv); lia).
    destruct (cleanup_slot d D h f (client_id cl) HR Hf Hv) as [Hr HR']. rewrite (bind_ret _ _ _ _ _ Hr).
    eexists 0, _, _. split; [done|]. split.
    + apply (StepHandle w a c cl h (fence_key f)); [done|lia|]. rewrite <- Heq. by apply (slot_used d a h f).
    + apply (implements_release d _ a h f); try done.
      * rewrite world_with_fence. apply (im_world w d a Hi).
      * by eexists.
      * apply (im_flags w d a Hi).
      * intros q dq Hq _. by exists dq.
  - apply Hno; [|done]. apply (StepHandleRefused w a c cl); [done|right]. intros key Hs. destruct Hne.
    destruct (slot_key d a h _ key Hi Hs) as (g & Hg & _ & _ & Ho). by rewrite (fence_at_fun _ _ _ _ Hf Hg).
Qed.

Lemma call_step d a call : implements w d a -> call_ok w call ->
  exists ret handle d' a', run_call call d = Ret (ret, handle) d' /\
    api_step w a call ret handle a' /\ implements w d' a'.
Proof.
  intros Hi Hok. destruct call as [c p|c p|c h]; cbn [call_ok] in Hok; destruct Hok as [(cl & Hc) Hx];
    apply (world_client d a c cl Hi) in Hc.
  - destruct Hx as (df & Hin). rewrite <- (im_world w d a Hi) in Hin. destruct Hin as [Hp Hin].
    apply list_lookup_fmap_Some in Hin as (df' & _ & Hin). by apply (create_step d a c p cl df').
  - destruct Hx as (df & Hin). rewrite <- (im_world w d a Hi) in Hin. destruct Hin as [Hp Hin].
    apply list_lookup_fmap_Some in Hin as (df' & _ & Hin).
    destruct (destroy_step d a c p cl df' Hi Hc (conj Hp Hin)) as (ret & d' & a' & Hr & Hs & Hi').
    exists ret, None, d', a'. cbn [run_call]. by rewrite (bind_ret _ _ _ _ _ Hr).
  - destruct (handle_step d a c cl h Hi Hc Hx) as (ret & d' & a' & Hr & Hs & Hi').
    exists ret, None, d', a'. cbn [run_call]. by rewrite (bind_ret _ _ _ _ _ Hr).
Qed.

End steps.

(** C27: the driver refines the abstract machine.  Every sequence of calls that
    create and destroy fences, by registered clients on the dma-fences of the
    kernel, returns without waiting and without a bad access; its results are
    results of the machine; and the driver ends in a state that stands for the
    machine's.  In particular every dma-fence whose key is in the table carries
    the hardware-fence flag throughout. *)
Theorem api_refines (w : api_world) (calls : list api_call) (d : drv) (a : api_state) :
  world_ok w -> Forall (call_ok w) calls -> implements w d a ->
  exists results d' a', run_calls calls d = Ret results d' /\ api_steps w a calls results a' /\ implements w d' a'.
Proof.
  intros Hw Hok. revert d a. induction Hok as [|call calls Hc _ IH]; intros d a Hi.
  - exists [], d, a. split; [done|]. split; [constructor|done].
  - destruct (call_step w Hw d a call Hi Hc) as (ret & handle & d1 & a1 & Hr & Hs & Hi1).
    destruct (IH d1 a1 Hi1) as (results & d2 & a2 & Hr2 & Hs2 & Hi2).
    exists ((ret, handle) :: results), d2, a2. cbn [run_calls].
    rewrite (bind_ret _ _ _ _ _ Hr), (bind_ret _ _ _ _ _ Hr2). split; [done|]. split; [|done].
    by econstructor.
Qed.

End runs.

(** ** A run *)

Definition run_dmas : list dma_fence :=
  [mk_dma_fence 2 2 (BIT 31) None; mk_dma_fence 2 1 (BIT 31) None; mk_dma_fence 1 3 0 None].

Definition run_start : drv := d_set_dma_fences run_dmas demo_table.

Definition run_state : api_state := mk_api {[0 := ((2, 2), 1); 2 := ((2, 1), 1)]} {[0; 1]}.

Lemma three_cases {A} (x y z u : A) i : 0 <= i -> [x; y; z] !! Z.to_nat i = Some u ->
  (i = 0 /\ u = x) \/ (i = 1 /\ u = y) \/ (i = 2 /\ u = z).
Proof.
  intros Hi H. destruct (Z.to_nat i) as [|[|[|n]]] eqn:Hn; cbn in H; try discriminate; injection H as <-;
    [left|right; left|right; right]; split; lia || done.
Qed.

Lemma run_start_implements : @implements demo_env (world_of run_start) run_start run_state.
Proof.
  assert (Hf : forall h f, fence_at run_start h f -> (h = 0 /\ f = demo_fence 1 2 2) \/
      (h = 1 /\ f = zero_fence) \/ (h = 2 /\ f = demo_fence 1 2 1))
    by (intros h f [Hh Hl]; by apply three_cases).
  assert (Hp : forall p df, dma_at run_start p df -> (p = 0 /\ df = mk_dma_fence 2 2 (BIT 31) None) \/
      (p = 1 /\ df = mk_dma_fence 2 1 (BIT 31) None) \/ (p = 2 /\ df = mk_dma_fence 1 3 0 None))
    by (intros p df [Hp Hl]; by apply three_cases).
  split.
  - done.
  - exists demo_dict. apply (represents_same_table demo_table); [done|done|apply demo_represents].
  - intros h f H. apply Hf in H as [[-> ->]|[[-> ->]|[-> ->]]]; vm_compute; reflexivity.
  - intros h x H. cbn [ab_slots run_state] in H. apply lookup_insert_Some in H as [[<- _]|[_ H]];
      [by exists (demo_fence 1 2 2)|]. apply lookup_singleton_Some in H as [<- _].
    by exists (demo_fence 1 2 1).
  - intros h f H Hv. apply Hf in H as [[-> ->]|[[-> ->]|[-> ->]]]; vm_compute in Hv |- *; congruence.
  - intros p df H. cbn [ab_flags run_state]. rewrite elem_of_union, !elem_of_singleton.
    apply Hp in H as [[-> ->]|[[-> ->]|[-> ->]]]; vm_compute; split; try done; try tauto; by intros [|].
  - intros h o p df Hs H _. apply Hp in H as [[-> ->]|[[-> ->]|[-> ->]]]; try (vm_compute; reflexivity).
    cbn [ab_slots run_state] in Hs. apply lookup_insert_Some in Hs as [[_ Hs]|[_ Hs]]; [discriminate|].
    apply lookup_singleton_Some in Hs as [_ Hs]. discriminate.
Qed.

Lemma run_world_ok : @world_ok demo_env (world_of run_start).
Proof.
  assert (Hp : forall p df, dma_in (world_of run_start) p df -> (p = 0 /\ df = mk_dma_fence 2 2 0 None) \/
      (p = 1 /\ df = mk_dma_fence 2 1 0 None) \/ (p = 2 /\ df = mk_dma_fence 1 3 0 None))
    by (intros p df [Hp Hl]; by apply three_cases).
  split.
  - vm_compute. by split.
  - intros p df H. by apply Hp in H as [[-> ->]|[[-> ->]|[-> ->]]].
  - intros p p' df df' H H' _ _ Hk. apply Hp in H as [[-> ->]|[[-> ->]|[-> ->]]];
      apply Hp in H' as [[-> ->]|[[-> ->]|[-> ->]]]; done.
  - intros c cl [Hc H]. cbn in H. destruct (Z.to_nat c) as [|[|n]]; cbn in H; try discriminate.
    injection H as <-. vm_compute. by split.
Qed.

(** After a destruction by handle the flag of the dma-fence stays, and the fence
    cannot be created again. *)
Definition run_demo : list api_call := [CallCreate 1 2; CallDestroy 1 0; CallDestroyHandle 1 2; CallCreate 1 1].

Lemma api_refines_witness :
  exists d' a', @run_calls demo_env run_demo run_start =
      Ret [(0, Some 1); (0, None); (0, None); (- EINVAL, None)] d' /\
    api_steps (world_of run_start) run_state run_demo
      [(0, Some 1); (0, None); (0, None); (- EINVAL, None)] a' /\
    @implements demo_env (world_of run_start) d' a'.
Proof.
  assert (Hc : exists cl, client_in (world_of run_start) 1 cl) by (by exists demo_client).
  destruct (api_refines (E := demo_env) (world_of run_start) run_demo run_start run_state)
    as (results & d' & a' & Hr & Hs & Hi).
  - apply run_world_ok.
  - assert (Hd : forall p df, 0 <= p -> map unflagged run_dmas !! Z.to_nat p = Some df ->
        exists df, dma_in (world_of run_start) p df) by (intros p df Hp Hl; by exists df).
    repeat (apply Forall_cons; split; [split; [exact Hc|]|]).
    + by apply (Hd 2 (mk_dma_fence 1 3 0 None)).
    + by apply (Hd 0 (mk_dma_fence 2 2 0 None)).
    + by split.
    + by apply (Hd 1 (mk_dma_fence 2 1 0 None)).
    + by apply Forall_nil.
  - apply run_start_implements.
  - assert (Hres : result (@run_calls demo_env run_demo run_start)
      = Some [(0, Some 1); (0, None); (0, None); (- EINVAL, None)]) by (vm_compute; reflexivity).
    rewrite Hr in Hres. injection Hres as ->. exists d', a'. split; [exact Hr|]. by split.
Defined.
