(* ===== verification/HwFenceClients.v ===== *)
(** * The clients of the hardware-fence driver

    Registration and deregistration of a client, and the doorbell with which the
    other VM tells the driver of errors ([HwFenceApi]). *)

From S2P Require Import Prelude Outcome HwFenceDrv HwFenceQueue HwFenceRing HwFenceTable HwFenceDict HwFenceJoin HwFenceConf HwFenceLayout HwFenceIpc HwFenceApi.

(** ** Registration *)

(** What registration may change besides the client: the register writes that
    enable the signals of the display, once. *)
Definition quiet (d d' : drv) : Prop :=
  d' = d_set_trace (trace d') (d_set_dpu_initialized (ipcc_dpu_initialized d') d).

Lemma quiet_refl d : quiet d d.
Proof. by destruct d. Qed.

Lemma quiet_emit ev d d' : quiet d d' -> exists d2, emit ev d' = Ret tt d2 /\ quiet d d2.
Proof. intros H. eexists. split; [done|]. rewrite H. unfold quiet. by destruct d. Qed.

Lemma quiet_clients d d' : quiet d d' -> clients d' = clients d.
Proof. intros H. by rewrite H. Qed.

(** The configuration, the IPC table and the driver agree on the clients. *)
Record setup_ok (cfg : hw_fence_conf) (table : list hw_fence_client_ipc_map) (d : drv) : Prop := mk_setup_ok {
  su_table : zlen table = HwFenceDrv.clients_num d;
  su_clients : zlen (clients d) = HwFenceDrv.clients_num d;
  su_queues : zlen (hw_fence_client_queue_size cfg) = HwFenceDrv.clients_num d;
  su_conf : cf_clients_num cfg = HwFenceDrv.clients_num d;
  su_types t off : Some (t, off) ∈ hw_fence_client_queue_size cfg -> is_Some (hw_fence_client_types cfg !! t)
}.

(** The identifiers of a registered client. *)
Record registered (cfg : hw_fence_conf) (m : hw_fence_client_ipc_map) (c id : Z) (cl : msm_hw_fence_client) : Prop :=
  mk_registered {
  rg_id : client_id cl = c;
  rg_ext : client_id_ext cl = id;
  rg_vid : ipc_client_vid cl = ipc_client_id_virt m /\ 0 < ipc_client_vid cl;
  rg_pid : ipc_client_pid cl = ipc_client_id_phys m /\ 0 < ipc_client_pid cl;
  rg_signal : ipc_signal_id cl = im_signal_id m /\ 0 <= ipc_signal_id cl;
  rg_rxq : update_rxq cl = im_update_rxq m;
  rg_irq : send_ipc cl = im_send_ipc m;
  rg_queues : HwFenceDrv.queues_num cl = hw_fence_utils_get_queues_num cfg c /\ HwFenceDrv.queues_num cl <> 0 /\
    (update_rxq cl = true -> HW_FENCE_CLIENT_QUEUES <= HwFenceDrv.queues_num cl)
}.

Section registration.
Context `{E : HwFenceEnv} `{DT : DeviceTree}.

Lemma with_client_twice d c cl cl' : with_client c cl' (with_client c cl d) = with_client c cl' d.
Proof. unfold with_client. simpl. rewrite zupd_zupd. by destruct d. Qed.

(** Writes to the client, one after the other. *)
Lemma upd_step {B} d c cl f (k : unit -> M B) : client_at d c cl ->
  (x ← upd_client c f; k x) d = k tt (with_client c (f cl) d).
Proof. intros Hc. by rewrite (bind_ret _ _ _ _ _ (upd_client_ret d c cl f Hc)). Qed.

Lemma upd_again {B} d c cl0 cl f (k : unit -> M B) : client_at d c cl0 ->
  (x ← upd_client c f; k x) (with_client c cl d) = k tt (with_client c (f cl) d).
Proof.
  intros Hc. rewrite (upd_step (with_client c cl d) c cl) by (by eapply client_at_with). by rewrite with_client_twice.
Qed.

Lemma register_ids_ret cfg table d c id m cl0 :
  client_at d c cl0 -> zlen table = HwFenceDrv.clients_num d -> c < HW_FENCE_CLIENT_MAX ->
  table !! Z.to_nat c = Some m ->
  exists ret cl, register_ids cfg table c id d = Ret ret (with_client c cl d) /\
    client_id cl = c /\ queues cl = queues cl0 /\ fence_error_cb cl = fence_error_cb cl0 /\
    (ret = - EINVAL \/ ret = 0 /\ registered cfg m c id cl).
Proof.
  intros Hc Hlen Hmax Hm. pose proof (ca_nonneg _ _ _ Hc) as Hc0.
  assert (Hlt : c < zlen table) by (apply lookup_lt_Some in Hm; unfold zlen; lia).
  unfold register_ids. rewrite (upd_step d c cl0), (upd_again d c cl0) by done. rewrite bind_get.
  change (HwFenceDrv.clients_num (with_client c _ d)) with (HwFenceDrv.clients_num d).
  unfold hw_fence_ipcc_get_client_virt_id, hw_fence_ipcc_get_client_phys_id, hw_fence_ipcc_get_signal_id,
    hw_fence_ipcc_needs_rxq_update, hw_fence_ipcc_needs_ipc_irq.
  destruct (Z.geb_spec c (HwFenceDrv.clients_num d)); [lia|]. destruct (Z.geb_spec c HW_FENCE_CLIENT_MAX); [lia|].
  rewrite Hm. cbn [fmap option_fmap option_map]. rewrite bind_deref, (upd_again d c cl0) by done.
  rewrite bind_deref, (upd_again d c cl0) by done.
  destruct (Z.leb_spec (ipc_client_id_virt m) 0) as [Hv|Hv]; cbn [orb]; [eexists _, _; split; [done|]; by auto|].
  destruct (Z.leb_spec (ipc_client_id_phys m) 0) as [Hp|Hp]; cbn [orb]; [eexists _, _; split; [done|]; by auto|].
  rewrite bind_deref, (upd_again d c cl0) by done.
  destruct (Z.ltb_spec (im_signal_id m) 0) as [Hs|Hs]; [eexists _, _; split; [done|]; by auto|].
  rewrite bind_deref, (upd_again d c cl0) by done. rewrite bind_deref, (upd_again d c cl0) by done.
  cbv zeta. rewrite (upd_again d c cl0) by done. unfold truthy.
  set (n := hw_fence_utils_get_queues_num cfg c). 
  destruct (Z.eqb_spec n 0) as [Hn|Hn]; cbn [negb orb]; [eexists _, _; split; [done|]; by auto|].
  destruct (im_update_rxq m && (n <? HW_FENCE_CLIENT_QUEUES)) eqn:Hq; [eexists _, _; split; [done|]; by auto|].
  eexists _, _. split; [done|]. split; [done|]. split; [done|]. split; [done|]. right. split; [done|].
  split; try done. cbn. split; [done|]. split; [done|]. intros Hrx. rewrite Hrx in Hq. cbn in Hq.
  apply Z.ltb_ge in Hq. done.
Qed.

(** The queues of the client. *)
Lemma register_queues_ret cfg res_start old table d c cl :
  setup_ok cfg table d -> client_at d c cl -> c < HwFenceDrv.clients_num d ->
  exists ret desc cl', register_queues cfg res_start old c d = Ret (ret, desc) (with_client c cl' d) /\
    client_id cl' = client_id cl /\
    ((ret < 0 /\ desc = None /\ cl' = cl) \/
     exists off size tb places,
       hw_fence_alloc_client_resources cfg res_start old c = Some (inr (off, size, tb, places)) /\
       ret = 0 /\ desc = Some (res_start + off, size) /\
       cl' = cl_set_queues (map qp_queue places ++ drop (length places) (queues cl)) cl).
Proof.
  intros Hs Hc Hlt. pose proof (ca_nonneg _ _ _ Hc) as Hc0. unfold register_queues.
  destruct (hw_fence_alloc_client_resources cfg res_start old c) as [r|] eqn:Hr.
  2:{ exfalso. revert Hr. unfold hw_fence_alloc_client_resources. rewrite (su_queues _ _ _ Hs).
      destruct (Z.ltb_spec c 0), (Z.geb_spec c (HwFenceDrv.clients_num d)); try lia. cbn [orb].
      destruct (znth None (hw_fence_client_queue_size cfg) c) as [[t off]|] eqn:Hz; [|done].
      destruct (su_types _ _ _ Hs t off) as [desc ->]; [|done].
      rewrite <- Hz. apply list_elem_of_lookup. exists (Z.to_nat c). apply lookup_znth.
      rewrite (su_queues _ _ _ Hs). lia. }
  rewrite bind_deref. destruct r as [e|[[[off size] tb] places]].
  - exists e, None, cl. split; [by rewrite (with_client_id d c cl Hc)|]. split; [done|]. left.
    split; [|done]. revert Hr. unfold hw_fence_alloc_client_resources, init_hw_fences_queues.
    destruct (_ || _); [done|]. destruct (znth None _ c) as [[t off]|]; [|intros [= <-]; by vm_compute].
    destruct (hw_fence_client_types cfg !! t); [|done].
    destruct (queue_sizes _ _ _ _) as [[[[[[[]]]]]]|]; [|intros [= <-]; by vm_compute].
    destruct (hw_fence_utils_reserve_mem _ _ _ _) as [[]]. destruct (truthy _); intros [= <-]. by vm_compute.
  - eexists 0, _, _. split; [by rewrite (upd_step d c cl) by done|]. split; [done|]. right.
    by exists off, size, tb, places.
Qed.

(** The signals of the client. *)
Lemma controller_signal_ret cfg table d c cl :
  setup_ok cfg table d -> client_at d c cl ->
  exists ret d', hw_fence_init_controller_signal cfg (Some table) c d = Ret ret d' /\ quiet d d' /\
    (ret = 0 \/ ret = - EINVAL).
Proof.
  intros Hs Hc. unfold hw_fence_init_controller_signal.
  rewrite (bind_ret _ _ _ _ _ (get_client_ret d c cl Hc)). cbv zeta.
  assert (Hdone : forall ret, ret = 0 \/ ret = - EINVAL -> exists ret' d', (mret ret : M Z) d = Ret ret' d' /\ quiet d d' /\
    (ret' = 0 \/ ret' = - EINVAL)) by (intros ret H; exists ret, d; split; [done|]; split; [apply quiet_refl|done]).
  destruct (_ =? _); [apply Hdone; by left|]. destruct (CONFIG_DEBUG_FS && _); [apply Hdone; by left|].
  destruct (_ && _).
  2:{ destruct (_ || _); apply Hdone; [by left|by right]. }
  rewrite bind_get. destruct (negb (ipcc_dpu_initialized d)); cbn [when].
  2:{ exists 0, d. split; [done|]. split; [apply quiet_refl|by left]. }
  set (d1 := d_set_dpu_initialized true d).
  assert (Hq : quiet d d1) by (by destruct d).
  unfold hw_fence_ipcc_enable_dpu_signaling.
  assert (Hw : exists writes, (if negb (truthy (protocol_id d)) then Some (-1, [])
      else if zlen table <? cf_clients_num cfg then None
      else Some (0, enable_dpu (take (Z.to_nat (cf_clients_num cfg)) table) (protocol_id d) false)) = Some writes).
  { destruct (negb _); [by eexists|]. destruct (Z.ltb_spec (zlen table) (cf_clients_num cfg)); [|by eexists].
    rewrite (su_table _ _ _ Hs), (su_conf _ _ _ Hs) in *. lia. }
  destruct Hw as ([r writes] & ->).
  destruct (for_each_inv (quiet d) writes (fun w => emit (MmioWrite (fst w) (snd w))) d1) as (d2 & Hd2 & Hq2);
    [|done|].
  - intros x s _ Hx. by apply quiet_emit.
  - exists 0, d2. split; [|split; [done|by left]].
    unfold mbind, run_bind, modify, deref, mret, run_ret. cbn. unfold mret, run_ret. fold d1. by rewrite Hd2.
Qed.

Lemma quiet_trans d1 d2 d3 : quiet d1 d2 -> quiet d2 d3 -> quiet d1 d3.
Proof. intros H1 H2. rewrite H2, H1. unfold quiet. by destruct d1. Qed.

Lemma quiet_client d d' c cl : quiet d d' -> client_at d c cl -> client_at d' c cl.
Proof. intros -> Hc. by destruct Hc. Qed.

Lemma quiet_with_client d d' c cl : quiet d d' -> quiet (with_client c cl d) (with_client c cl d').
Proof. intros ->. unfold quiet, with_client. by destruct d. Qed.

(** A slot that is empty. *)
Definition slot_empty (d : drv) (c : Z) : Prop := 0 <= c /\ clients d !! Z.to_nat c = Some None.

Lemma new_client_at d c cl : slot_empty d c -> client_at (with_client c cl d) c cl.
Proof. intros [Hc Hl]. split; [done|]. by eapply lookup_zupd_eq. Qed.

(** Clean-up takes the client out again. *)
Lemma cleanup_quiet d d1 c cl : slot_empty d c -> client_id cl = c -> quiet (with_client c cl d) d1 ->
  exists d2, hw_fence_cleanup_client c d1 = Ret tt d2 /\ quiet d d2.
Proof.
  intros Hs Hid Hq. pose proof (quiet_client _ _ _ _ Hq (new_client_at d c cl Hs)) as Hc.
  unfold hw_fence_cleanup_client. rewrite (bind_ret _ _ _ _ _ (get_client_ret d1 c cl Hc)), Hid.
  eexists. split; [done|]. destruct Hs as [Hc0 Hl]. unfold quiet.
  rewrite (quiet_clients _ _ Hq). simpl. rewrite zupd_zupd, (zupd_lookup_id _ c None) by done.
  rewrite Hq. by destruct d.
Qed.

(** What registration gives a client. *)
Record client_ready (cfg : hw_fence_conf) (table : list hw_fence_client_ipc_map) (res_start : Z)
    (old : region_content) (c id : Z) (desc : option (Z * Z)) (cl : msm_hw_fence_client) : Prop := mk_client_ready {
  cr_ids : exists m, table !! Z.to_nat c = Some m /\ registered cfg m c id cl;
  cr_memory : exists off size tb places,
    hw_fence_alloc_client_resources cfg res_start old c = Some (inr (off, size, tb, places)) /\
    desc = Some (res_start + off, size) /\
    queues cl = map qp_queue places ++ drop (length places) (queues zero_client);
  cr_callback : fence_error_cb cl = None /\ error_cb_lock cl = false
}.

Lemma registered_queues cfg m c id cl qs : registered cfg m c id cl -> registered cfg m c id (cl_set_queues qs cl).
Proof. intros []. by split. Qed.

Lemma registered_lock cfg m c id cl b : registered cfg m c id cl -> registered cfg m c id (cl_set_error_cb_lock b cl).
Proof. intros []. by split. Qed.

Lemma setup_with_client cfg table d c cl : setup_ok cfg table d -> setup_ok cfg table (with_client c cl d).
Proof. intros []. split; try done. simpl. by rewrite zlen_zupd. Qed.

(** An error path: the client is taken out and nothing else has changed. *)
Lemma register_error d d1 c cl ret (desc : option (Z * Z)) (P : option (Z * Z) -> drv -> Z -> Prop) : slot_empty d c -> client_id cl = c ->
  quiet (with_client c cl d) d1 -> ret < 0 ->
  exists r desc' d', (hw_fence_cleanup_client c;; mret (inl ret, desc)) d1 = Ret (r, desc') d' /\
    match r with inl ret => ret < 0 /\ quiet d d' | inr c' => P desc' d' c' end.
Proof.
  intros Hs Hid Hq Hret. destruct (cleanup_quiet d d1 c cl Hs Hid Hq) as (d2 & Hr & Hq2).
  exists (inl ret), desc, d2. rewrite (bind_ret _ _ _ _ _ Hr). by split.
Qed.

Lemma register_empty_slot cfg table res_start old d c id :
  setup_ok cfg table d -> HwFenceDrv.clients_num d <= HW_FENCE_CLIENT_MAX -> slot_empty d c ->
  id < HW_FENCE_CLIENT_MAX -> resources_ready d = true ->
  hw_fence_utils_get_client_id_priv (hw_fence_client_types cfg) id = Some c -> c < HwFenceDrv.clients_num d ->
  exists r desc d', msm_hw_fence_register cfg table res_start old true true id true d = Ret (r, desc) d' /\
    match r with
    | inl ret => ret < 0 /\ quiet d d'
    | inr c' => c' = c /\ exists cl, quiet (with_client c cl d) d' /\ client_ready cfg table res_start old c id desc cl
    end.
Proof.
  intros Hs Hmax He Hid Hres Hpriv Hlt. unfold msm_hw_fence_register. cbn [negb orb]. rewrite bind_get, Hres.
  cbn [negb]. destruct (Z.geb_spec id HW_FENCE_CLIENT_MAX); [lia|]. rewrite Hpriv, bind_deref.
  destruct (Z.geb_spec c HW_FENCE_CLIENT_MAX); [lia|]. pose proof He as [Hc0 Hl].
  assert (Hp : client_ptr c d = Ret None d) by (unfold client_ptr; destruct (Z.ltb_spec c 0); [lia|]; by rewrite Hl).
  rewrite (bind_ret _ _ _ _ _ Hp). rewrite bool_decide_eq_false_2 by (by intros [? ?]).
  set (d0 := with_client c zero_client d). change (put_client c (Some zero_client) d) with (Ret tt d0).
  rewrite (bind_ret (put_client c (Some zero_client)) _ d tt d0) by done. cbv zeta.
  assert (Hc0' : client_at d0 c zero_client) by (by apply new_client_at).
  destruct (lookup_lt_is_Some_2 table (Z.to_nat c)) as [m Hm].
  { pose proof (su_table _ _ _ Hs) as Ht. unfold zlen in Ht. lia. }
  destruct (register_ids_ret cfg table d0 c id m zero_client Hc0' (su_table _ _ _ Hs) ltac:(lia) Hm)
    as (ret & cl1 & Hr1 & Hid1 & Hq1 & Hcb1 & Hcase1).
  rewrite (bind_ret _ _ _ _ _ Hr1). unfold d0. rewrite with_client_twice.
  destruct Hcase1 as [->|[-> Hreg]].
  { change (truthy (- EINVAL)) with true. cbv iota. by apply (register_error d _ c cl1). }
  cbn [truthy Z.eqb negb]. set (d1 := with_client c cl1 d).
  destruct (register_queues_ret cfg res_start old table d1 c cl1) as (ret & desc & cl2 & Hr2 & Hid2 & Hcase2);
    [by apply setup_with_client|by apply new_client_at|done|].
  rewrite (bind_ret _ _ _ _ _ Hr2). unfold d1. rewrite with_client_twice.
  destruct Hcase2 as [(Hneg & -> & ->)|(off & size & tb & places & Halloc & -> & -> & ->)].
  { replace (truthy ret) with true by (unfold truthy; by destruct (Z.eqb_spec ret 0); [lia|]).
    cbv iota.
    by apply (register_error d _ c cl1). }
  cbn [truthy Z.eqb negb]. set (cl2 := cl_set_queues _ cl1) in *. set (d2 := with_client c cl2 d).
  destruct (controller_signal_ret cfg table d2 c cl2) as (ret & d3 & Hr3 & Hq3 & Hcase3);
    [by apply setup_with_client|by apply new_client_at|].
  rewrite (bind_ret _ _ _ _ _ Hr3). destruct Hcase3 as [->| ->].
  2:{ change (truthy (- EINVAL)) with true. cbv iota. by apply (register_error d _ c cl2). }
  cbn [truthy Z.eqb negb]. unfold hw_fence_init_controller_resources.
  rewrite (bind_ret _ _ d3 0 d3) by done. cbn [truthy Z.eqb negb].
  rewrite (upd_step d3 c cl2) by (apply (quiet_client d2); [done|by apply new_client_at]).
  eexists (inr c), _, _. split; [done|]. split; [done|]. exists (cl_set_error_cb_lock false cl2). split.
  { rewrite <- (with_client_twice d c cl2). by apply quiet_with_client. }
  split.
  - exists m. split; [done|]. by apply registered_lock, registered_queues.
  - exists off, size, tb, places. split; [done|]. split; [done|]. cbn. by rewrite Hq1.
  - by split.
Qed.

(** Deregistration. *)
Lemma deregister_ret d d1 c cl : slot_empty d c -> client_id cl = c -> c < HwFenceDrv.clients_num d ->
  quiet (with_client c cl d) d1 -> exists d2, msm_hw_fence_deregister (Some c) d1 = Ret 0 d2 /\ quiet d d2.
Proof.
  intros Hs Hid Hlt Hq. unfold msm_hw_fence_deregister.
  pose proof (quiet_client _ _ _ _ Hq (new_client_at d c cl Hs)) as Hc.
  rewrite (bind_ret _ _ _ _ _ (get_client_ret d1 c cl Hc)), bind_get, Hid.
  replace (HwFenceDrv.clients_num d1) with (HwFenceDrv.clients_num d) by (by rewrite Hq).
  destruct (Z.geb_spec c (HwFenceDrv.clients_num d)); [lia|].
  destruct (cleanup_quiet d d1 c cl Hs Hid Hq) as (d2 & Hr & Hq2). exists d2. by rewrite (bind_ret _ _ _ _ _ Hr).
Qed.

(** A slot that is taken. *)
Lemma register_taken cfg table res_start old d c id cl :
  client_at d c cl -> id < HW_FENCE_CLIENT_MAX -> resources_ready d = true -> c < HW_FENCE_CLIENT_MAX ->
  hw_fence_utils_get_client_id_priv (hw_fence_client_types cfg) id = Some c ->
  msm_hw_fence_register cfg table res_start old true true id true d = Ret (inl (- EINVAL), None) d.
Proof.
  intros Hc Hid Hres Hmax Hpriv. unfold msm_hw_fence_register. cbn [negb orb]. rewrite bind_get, Hres. cbn [negb].
  destruct (Z.geb_spec id HW_FENCE_CLIENT_MAX); [lia|]. rewrite Hpriv, bind_deref.
  destruct (Z.geb_spec c HW_FENCE_CLIENT_MAX); [lia|].
  rewrite (bind_ret _ _ _ _ _ (client_ptr_ret d c cl Hc)). by rewrite bool_decide_eq_true_2 by eauto.
Qed.

(** What a registration of [id] has done when it returns [r]: an error leaves the
    clients as they were; a handle names a slot that was empty and now holds a
    client that is ready, that cannot be registered again, and that
    deregistration takes out. *)
Definition registration_result cfg table res_start old id (d : drv) (r : Z + Z) (desc : option (Z * Z)) (d' : drv) :
    Prop :=
  match r with
  | inl ret => ret < 0 /\ quiet d d'
  | inr c => slot_empty d c /\
      (exists cl, quiet (with_client c cl d) d' /\ client_ready cfg table res_start old c id desc cl) /\
      msm_hw_fence_register cfg table res_start old true true id true d' = Ret (inl (- EINVAL), None) d' /\
      exists d2, msm_hw_fence_deregister (Some c) d' = Ret 0 d2 /\ quiet d d2
  end.

(** C28: registration of a client is all or nothing, and exclusive.  For every
    outcome of the allocation, every state of the driver and every external
    identifier it returns.  Either it returns an error, and the clients are as
    before, or it returns the internal identifier, whose slot was empty and now
    holds a client with the identifiers of the IPC table and with its queues;
    from then on the same identifier is refused, until deregistration makes the
    clients what they were. *)
Theorem register_all_or_nothing cfg table res_start old enabled alloc id mem_descriptor d :
  setup_ok cfg table d -> HwFenceDrv.clients_num d <= HW_FENCE_CLIENT_MAX ->
  (id < HW_FENCE_CLIENT_MAX -> exists c,
     hw_fence_utils_get_client_id_priv (hw_fence_client_types cfg) id = Some c /\ 0 <= c /\
     (c < HwFenceDrv.clients_num d \/ HW_FENCE_CLIENT_MAX <= c)) ->
  exists r desc d',
    msm_hw_fence_register cfg table res_start old enabled alloc id mem_descriptor d = Ret (r, desc) d' /\
    registration_result cfg table res_start old id d r desc d'.
Proof.
  intros Hs Hmax Hpriv.
  assert (Herr : forall r ret, ret < 0 -> r = Ret (inl ret, None) d -> exists r' desc d', r = Ret (r', desc) d' /\
    registration_result cfg table res_start old id d r' desc d').
  { intros r ret Hneg ->. exists (inl ret), None, d. split; [done|]. split; [done|apply quiet_refl]. }
  destruct (decide (enabled = true /\ resources_ready d = true /\ mem_descriptor = true /\ id < HW_FENCE_CLIENT_MAX))
    as [(-> & Hres & -> & Hid)|Hno].
  2:{ unfold msm_hw_fence_register. destruct enabled; [|by apply (Herr _ (- ENODEV))]. cbn [negb]. rewrite bind_get.
      destruct (resources_ready d); [|by apply (Herr _ (- EAGAIN))].
      destruct mem_descriptor; [|by apply (Herr _ (- EINVAL))]. cbn [negb orb].
      destruct (Z.geb_spec id HW_FENCE_CLIENT_MAX); [by apply (Herr _ (- EINVAL))|]. destruct Hno. repeat split; lia || done. }
  destruct (Hpriv Hid) as (c & Hc & Hc0 & Hcase).
  destruct (decide (alloc = true /\ c < HwFenceDrv.clients_num d)) as [[-> Hlt]|Hno].
  2:{ unfold msm_hw_fence_register. cbn [negb orb]. rewrite bind_get, Hres. cbn [negb].
      destruct (Z.geb_spec id HW_FENCE_CLIENT_MAX); [lia|]. rewrite Hc, bind_deref.
      destruct (Z.geb_spec c HW_FENCE_CLIENT_MAX); [by apply (Herr _ (- EINVAL))|].
      destruct alloc; [destruct Hno; split; [done|lia]|by apply (Herr _ (- ENOMEM))]. }
  destruct (lookup_lt_is_Some_2 (clients d) (Z.to_nat c)) as [[cl|] Hp].
  { pose proof (su_clients _ _ _ Hs) as Hl. unfold zlen in Hl. lia. }
  { apply (Herr _ (- EINVAL)); [done|]. apply (register_taken cfg table res_start old d c id cl); done || lia. }
  assert (He : slot_empty d c) by done.
  destruct (register_empty_slot cfg table res_start old d c id Hs Hmax He Hid Hres Hc Hlt)
    as (r & desc & d' & Hr & Hcase'). exists r, desc, d'. split; [exact Hr|]. destruct r as [ret|c']; [done|].
  destruct Hcase' as (-> & cl & Hq & Hready). split; [done|]. split; [by exists cl|].
  destruct (cr_ids _ _ _ _ _ _ _ _ Hready) as (m & _ & Hreg).
  split; [|by apply (deregister_ret d d' c cl He (rg_id _ _ _ _ _ Hreg) Hlt)].
  apply (register_taken cfg table res_start old d' c id cl); try done; [|by rewrite Hq|lia].
  by apply (quiet_client _ _ _ _ Hq), new_client_at.
Qed.

End registration.

(** ** The doorbell *)

Section doorbell.
Context `{E : HwFenceEnv}.

Lemma filter_clear_bit id flags ids : 0 <= id -> Forall (fun i => 0 <= i) ids -> id ∉ ids ->
  List.filter (fun i => Z.testbit (Z.land flags (Z.lnot (BIT id))) i) ids =
  List.filter (fun i => Z.testbit flags i) ids.
Proof.
  intros Hid Hpos Hin. apply filter_ext_in. intros i Hi. apply list_elem_of_In in Hi.
  pose proof (proj1 (Forall_forall _ _) Hpos i Hi). rewrite testbit_land_lnot_BIT by done.
  destruct (Z.eqb_spec id i) as [->|]; [done|]. by rewrite andb_true_r.
Qed.

Lemma process_doorbells_filter ids : forall flags d, NoDup ids -> Forall (fun i => 0 <= i) ids ->
  process_doorbells ids flags d =
  for_each (List.filter (fun i => Z.testbit flags i) ids) (fun id => _process_doorbell_id id;; mret tt) d.
Proof.
  induction ids as [|id ids IH]; intros flags d Hnd Hpos; [done|]. cbn [process_doorbells List.filter].
  apply NoDup_cons in Hnd as [Hin Hnd]. apply Forall_cons in Hpos as [Hid Hpos].
  rewrite Z.land_comm, land_BIT_testbit by done. destruct (Z.testbit flags id) eqn:Hb; [|by apply IH].
  cbn [for_each]. unfold mbind, run_bind. destruct (_process_doorbell_id id d) as [r s| |]; [|done|done].
  cbn. rewrite <- (filter_clear_bit id flags ids Hid Hpos Hin).
  destruct (negb (truthy (Z.land flags (Z.lnot (BIT id))))) eqn:Hz; [|by apply IH].
  apply negb_true_iff, negb_false_iff, Z.eqb_eq in Hz. rewrite Hz.
  replace (List.filter _ ids) with (@nil Z); [done|]. clear. induction ids as [|i ids IH]; [done|].
  cbn [List.filter]. by rewrite Z.testbit_0_l.
Qed.

(** The doorbell handler serves exactly the flags that are set, each once
    and in increasing order, and only those that the driver knows. *)
Theorem doorbell_serves_flags (db_flags : Z) (d : drv) :
  0 <= HW_FENCE_DOORBELL_FLAGS_ID_LAST ->
  hw_fence_utils_process_doorbell_mask db_flags d =
  for_each (List.filter (fun i => Z.testbit db_flags i) (seqZ 0 (HW_FENCE_DOORBELL_FLAGS_ID_LAST + 1)))
    (fun id => _process_doorbell_id id;; mret tt) d.
Proof.
  intros Hlast. apply process_doorbells_filter; [apply NoDup_seqZ|].
  apply Forall_forall. intros i Hi. apply elem_of_seqZ in Hi. unfold HW_FENCE_CTRL_QUEUE_DOORBELL in Hi. lia.
Qed.

(** What one payload of the control queue makes the driver do. *)
Definition ctrl_report (d : drv) (p : msm_hw_fence_queue_payload) : option hw_event :=
  if (pl_type p =? HW_FENCE_PAYLOAD_TYPE_2) && (HW_FENCE_CLIENT_ID_CTX0 <=? pl_client_data p)
     && (pl_client_data p <? HwFenceDrv.clients_num d) && negb (pl_error p =? 0) then
    match clients d !! Z.to_nat (pl_client_data p) with
    | Some (Some cl) =>
        (fun cb => FenceErrorCb cb (pl_hash p) (pl_error p) (pl_ctxt_id p) (pl_seqno p) (pl_flags p)) <$>
        fence_error_cb cl
    | _ => None
    end
  else None.

Definition ctrl_reports (d : drv) (l : list msm_hw_fence_queue_payload) : list hw_event := omap (ctrl_report d) l.

Definition ctrl_result (d : drv) (l : list msm_hw_fence_queue_payload) (ret : Z) : Z :=
  if forallb (fun p => bool_decide (is_Some (ctrl_report d p))) l then ret else - EINVAL.

(** The driver [d] with the control queue [q] and the events [evs] after its own. *)
Definition ctrl_state (d : drv) (q : msm_hw_fence_queue) (evs : list hw_event) : drv :=
  d_set_trace (trace d ++ evs) (d_set_ctrl_queues (zupd (ctrl_queues d) 1 q) d).

Record ctrl_ready (d : drv) : Prop := mk_ctrl_ready {
  cy_queues : length (ctrl_queues d) = 2%nat;
  cy_clients : zlen (clients d) = HwFenceDrv.clients_num d;
  cy_ctx0 : 0 <= HW_FENCE_CLIENT_ID_CTX0;
  cy_locks c cl : client_at d c cl -> error_cb_lock cl = false
}.

Lemma payload_ret d q evs p ret : ctrl_ready d ->
  process_ctrl_payload p ret (ctrl_state d q evs) =
  Ret (ctrl_result d [p] ret) (ctrl_state d q (evs ++ ctrl_reports d [p])).
Proof.
  intros Hd. unfold process_ctrl_payload, ctrl_result, ctrl_reports, ctrl_report. cbn [forallb omap list_omap].
  pose proof (cy_ctx0 d Hd) as Hctx.
  destruct (Z.eqb_spec (pl_type p) HW_FENCE_PAYLOAD_TYPE_2); cbn [negb andb]; [|by rewrite app_nil_r].
  rewrite bind_get. change (HwFenceDrv.clients_num (ctrl_state d q evs)) with (HwFenceDrv.clients_num d).
  destruct (Z.ltb_spec (pl_client_data p) HW_FENCE_CLIENT_ID_CTX0), (Z.leb_spec HW_FENCE_CLIENT_ID_CTX0 (pl_client_data p));
    try lia; cbn [orb andb]; [by rewrite app_nil_r|].
  destruct (Z.geb_spec (pl_client_data p) (HwFenceDrv.clients_num d)), (Z.ltb_spec (pl_client_data p) (HwFenceDrv.clients_num d));
    try lia; cbn [andb]; [by rewrite app_nil_r|].
  destruct (lookup_lt_is_Some_2 (clients d) (Z.to_nat (pl_client_data p))) as [o Ho].
  { pose proof (cy_clients d Hd) as Hl. unfold zlen in Hl. lia. }
  assert (Hp : client_ptr (pl_client_data p) (ctrl_state d q evs) = Ret o (ctrl_state d q evs)).
  { unfold client_ptr. destruct (Z.ltb_spec (pl_client_data p) 0); [lia|]. cbn. by rewrite Ho. }
  rewrite (bind_ret _ _ _ _ _ Hp), Ho. destruct o as [cl|]; [|by destruct (_ =? _); rewrite app_nil_r].
  assert (Hc : client_at (ctrl_state d q evs) (pl_client_data p) cl) by (split; [lia|done]).
  unfold hw_fence_utils_fence_error_cb. unfold mbind at 1, run_bind at 1.
  rewrite (bind_ret _ _ _ _ _ (get_client_ret _ _ _ Hc)), (cy_locks d Hd (pl_client_data p) cl) by (split; [lia|done]).
  destruct (fence_error_cb cl) as [cb|], (pl_error p =? 0); cbn; rewrite ?app_nil_r; try done.
  unfold ctrl_state, modify. cbn. unfold mret, run_ret. cbn. by rewrite app_assoc.
Qed.

Lemma ctrl_result_app d l1 l2 ret : ctrl_result d l2 (ctrl_result d l1 ret) = ctrl_result d (l1 ++ l2) ret.
Proof. unfold ctrl_result. rewrite forallb_app. by destruct (forallb _ l1), (forallb _ l2). Qed.

(** [k] rounds over a ring that is not empty. *)
Lemma read_ctrl_loop k : forall d q r w n evs ret, ctrl_ready d -> queue_at n q r w -> skip_wr_idx q = false ->
  REQUIRES_IDX_TRANSLATION q = false -> r <> w ->
  exists q' r', read_ctrl_queue k 1 ret (ctrl_state d q evs) =
      Ret (ctrl_result d (take k (contents n q r w)) ret)
          (ctrl_state d q' (evs ++ ctrl_reports d (take k (contents n q r w)))) /\
    queue_at n q' r' w /\ contents n q' r' w = drop k (contents n q r w).
Proof.
  induction k as [|k IH]; intros d q r w n evs ret Hd Hq Hs Ht Hne.
  { exists q, r. rewrite take_0. cbn. by rewrite app_nil_r. }
  cbn [read_ctrl_queue]. change (negb (truthy 1)) with false. cbv iota. rewrite bind_get.
  pose proof (cy_queues d Hd) as Hl. pose proof (qa_r _ _ _ _ Hq) as Hr. pose proof (qa_w _ _ _ _ Hq) as Hw.
  assert (Hlook : ctrl_queues (ctrl_state d q evs) !! 1%nat = Some q).
  { cbn. unfold zupd. apply list_lookup_insert_eq. lia. }
  change (HW_FENCE_RX_QUEUE - 1) with 1. change (Z.to_nat 1) with 1%nat. rewrite Hlook, bind_deref.
  destruct (read_pop n r w q Hq Hs Hne) as (rd & q1 & Hrd & Hat & Hva & Hs1 & Ht1 & Hret).
  rewrite Hrd, bind_deref. specialize (Hret Ht).
  set (st := ctrl_state d q1 evs).
  rewrite (bind_ret (modify _) _ (ctrl_state d q evs) tt st).
  2:{ unfold modify, st, ctrl_state. cbn -[zupd]. by rewrite zupd_zupd. }
  replace (rd <? 0) with false by (destruct (next n r =? w); subst rd; done). rewrite bind_deref.
  rewrite (bind_ret _ _ _ _ _ (payload_ret d q1 evs (slot_of q r) ret Hd)).
  rewrite contents_pop by done. cbn [take drop].
  rewrite <- (contents_va n q q1) by done.
  assert (Hcons : forall l, ctrl_reports d (slot_of q r :: l) = ctrl_reports d [slot_of q r] ++ ctrl_reports d l).
  { intros l. unfold ctrl_reports. cbn. by destruct (ctrl_report d (slot_of q r)). }
  change (slot_of q r :: take k (contents n q1 (next n r) w)) with ([slot_of q r] ++ take k (contents n q1 (next n r) w)).
  rewrite <- ctrl_result_app. cbn [app]. rewrite (Hcons (take _ _)), app_assoc.
  destruct (Z.eqb_spec (next n r) w) as [Hlast|Hmore]; subst rd.
  - exists q1, (next n r). split; [|split; [done|]].
    + rewrite Hlast, contents_empty by done. rewrite take_nil. cbn. rewrite app_nil_r. by destruct k.
    + rewrite Hlast, contents_empty by done. by destruct k.
  - apply IH; try done. by rewrite Ht1.
Qed.

(** When the fence controller rings the doorbell of the control queue, the
    driver takes the payloads out of it in order, all of them up to
    [HW_FENCE_MAX_ITER_READ], and reports each error to the client that it names,
    exactly once; the result is 0 if every payload could be reported.  An empty
    queue gives [-EINVAL] and nothing happens. *)
Theorem ctrl_queue_reports (d : drv) (q : msm_hw_fence_queue) (n r w : Z) :
  ctrl_ready d -> ctrl_queues d !! 1%nat = Some q -> queue_at n q r w -> skip_wr_idx q = false ->
  REQUIRES_IDX_TRANSLATION q = false ->
  let payloads := contents n q r w in
  let now_read := take HW_FENCE_MAX_ITER_READ payloads in
  if decide (payloads = []) then _process_doorbell_id HW_FENCE_CTRL_QUEUE_DOORBELL d = Ret (- EINVAL) d
  else exists q' r',
    _process_doorbell_id HW_FENCE_CTRL_QUEUE_DOORBELL d =
      Ret (if forallb (fun p => bool_decide (is_Some (ctrl_report d p))) now_read then 0 else - EINVAL)
          (ctrl_state d q' (ctrl_reports d now_read)) /\
    queue_at n q' r' w /\ contents n q' r' w = drop HW_FENCE_MAX_ITER_READ payloads.
Proof.
  intros Hd Hlook Hq Hs Ht payloads now_read. unfold _process_doorbell_id.
  change (HW_FENCE_CTRL_QUEUE_DOORBELL =? HW_FENCE_CTRL_QUEUE_DOORBELL) with true. cbv iota.
  unfold _process_fence_error_client_loopback.
  pose proof (qa_r _ _ _ _ Hq) as Hr. pose proof (qa_w _ _ _ _ Hq) as Hw.
  assert (Hself : ctrl_state d q [] = d).
  { unfold ctrl_state. rewrite app_nil_r, zupd_lookup_id by done. by destruct d. }
  destruct (decide (payloads = [])) as [Hnil|Hcons].
  - assert (r = w) as ->.
    { destruct (Z.eq_dec r w) as [|Hne]; [done|]. unfold payloads in Hnil. by rewrite contents_pop in Hnil. }
    unfold HW_FENCE_MAX_ITER_READ. cbn [read_ctrl_queue]. change (negb (truthy 1)) with false. cbv iota.
    rewrite bind_get. change (HW_FENCE_RX_QUEUE - 1) with 1. change (Z.to_nat 1) with 1%nat. rewrite Hlook, bind_deref.
    rewrite (read_helper_at n q w w) by done. rewrite Z.eqb_refl, bind_deref.
    rewrite (bind_ret (modify _) _ d tt d); [done|]. unfold modify. f_equal.
    rewrite zupd_lookup_id by done. by destruct d.
  - destruct (read_ctrl_loop HW_FENCE_MAX_ITER_READ d q r w n [] 0 Hd Hq Hs Ht) as (q' & r' & Hr' & Hat & Hc).
    { intros ->. apply Hcons. unfold payloads. by rewrite contents_empty. }
    rewrite Hself in Hr'. exists q', r'. split; [exact Hr'|]. by split.
Qed.

End doorbell.

(** ** Concrete runs *)

Definition demo_ipc_table : list hw_fence_client_ipc_map :=
  snd (@_hw_fence_ipcc_init_map_with_configurable_clients demo_env true 20 (hw_fence_client_types demo_conf)
         (@hw_fence_clients_ipc_map_v2 demo_env)).

(** A driver with twenty clients, none of them registered. *)
Definition empty_drv : drv :=
  mk_drv 1 [zero_fence] (replicate 16 0) 16 [] (replicate 20 None) 20 15 8 3 4 0 true true false [] 0 [].

Lemma demo_setup_ok : setup_ok demo_conf demo_ipc_table empty_drv.
Proof.
  assert (Hq : forallb (fun o : option (nat * Z) => match o with Some (t, _) => Nat.ltb t 13 | None => true end)
    (hw_fence_client_queue_size demo_conf) = true) by (vm_compute; reflexivity).
  split; try (vm_compute; reflexivity). intros t off Hin. apply list_elem_of_In in Hin.
  pose proof (proj1 (forallb_forall _ _) Hq _ Hin) as Ht. cbv beta iota in Ht. apply Nat.ltb_lt in Ht.
  apply lookup_lt_is_Some_2. exact Ht.
Qed.

Lemma register_all_or_nothing_witness :
  exists d', @msm_hw_fence_register demo_env demo_tree demo_conf demo_ipc_table 0x8000000 demo_region
      true true 143 true empty_drv = Ret (inr 17, Some (0x8000000 + 69632, 4096)) d' /\
    @registration_result demo_env demo_tree demo_conf demo_ipc_table 0x8000000 demo_region 143 empty_drv
      (inr 17) (Some (0x8000000 + 69632, 4096)) d'.
Proof.
  destruct (@register_all_or_nothing demo_env demo_tree demo_conf demo_ipc_table 0x8000000 demo_region true true 143
    true empty_drv) as (r & desc & d' & Hr & Hres).
  - apply demo_setup_ok.
  - vm_compute. discriminate.
  - intros _. exists 17. split; [vm_compute; reflexivity|]. split; [lia|]. left. vm_compute. reflexivity.
  - assert (Hx : result (@msm_hw_fence_register demo_env demo_tree demo_conf demo_ipc_table 0x8000000 demo_region
      true true 143 true empty_drv) = Some (inr 17, Some (0x8000000 + 69632, 4096))) by (vm_compute; reflexivity).
    rewrite Hr in Hx. injection Hx as -> ->. exists d'. split; [exact Hr|exact Hres].
Defined.

Lemma doorbell_serves_flags_witness :
  @hw_fence_utils_process_doorbell_mask demo_env 0x501 empty_drv =
  for_each [0; 8; 10] (fun id => @_process_doorbell_id demo_env id;; mret tt) empty_drv.
Proof.
  rewrite (doorbell_serves_flags (E := demo_env) 0x501 empty_drv); [reflexivity|vm_compute; discriminate].
Defined.

(** Client 1 has a callback; the control queue holds one error for it. *)
Definition error_payload (client err : Z) : msm_hw_fence_queue_payload :=
  mk_payload SIZEOF_QUEUE_PAYLOAD HW_FENCE_PAYLOAD_TYPE_2 0 5 6 7 0 client err 0 0 0.

Definition ctrl_queue : msm_hw_fence_queue :=
  mk_queue (write_payload (write_payload (replicate 48 0) 0 (error_payload 1 9)) 16 (error_payload 2 9)) 192
    (Some (mk_hfi_header 0 0 0 0 0 32 0)) 0 0 1 false.

Definition ctrl_drv : drv :=
  d_set_ctrl_queues [ctrl_queue; ctrl_queue]
    (d_set_clients [None; Some (cl_set_fence_error_cb (Some 77) demo_client)] demo_drv).

Lemma ctrl_queue_at : queue_at 3 ctrl_queue 0 2.
Proof.
  split; [split|lia|lia|]; try reflexivity; try (by left); try lia.
  eexists. split; [reflexivity|]. by split.
Qed.

Lemma ctrl_drv_ready : @ctrl_ready demo_env ctrl_drv.
Proof.
  split; try reflexivity; [vm_compute; discriminate|]. intros c cl [Hc H]. cbn in H.
  destruct (Z.to_nat c) as [|[|k]]; cbn in H; try discriminate. by injection H as <-.
Qed.

(** The error for client 2, which is not there, makes the result [-EINVAL]. *)
Lemma ctrl_queue_reports_witness :
  exists q' r', @_process_doorbell_id demo_env 0 ctrl_drv =
      Ret (- EINVAL) (ctrl_state ctrl_drv q' [FenceErrorCb 77 7 9 5 6 0]) /\
    queue_at 3 q' r' 2 /\ contents 3 q' r' 2 = [].
Proof.
  assert (Hc : contents 3 ctrl_queue 0 2 = [error_payload 1 9; error_payload 2 9]) by (vm_compute; reflexivity).
  pose proof (ctrl_queue_reports (E := demo_env) ctrl_drv ctrl_queue 3 0 2 ctrl_drv_ready eq_refl ctrl_queue_at
    eq_refl eq_refl) as H.
  cbv zeta in H. rewrite Hc in H. destruct (decide _) as [Hnil|_] in H; [discriminate|].
  destruct H as (q' & r' & H1 & H2 & H3). exists q', r'. split; [exact H1|]. by split.
Defined.

(** The control queue is laid out for payloads of 24 bytes, but it is read in
    payloads of 64: reading the second payload of a queue of 3 entries leaves the
    72 bytes of the queue. *)
Example ctrl_payload_size :
  HW_FENCE_CTRL_QUEUE_PAYLOAD = 24 /\ PAYLOAD_U32 * 4 = 64 /\
  let q := mk_queue (replicate 18 0) (HW_FENCE_CTRL_QUEUE_PAYLOAD * 3) (Some (mk_hfi_header 0 0 0 0 6 12 0)) 0 0 1 false in
  hw_fence_read_queue_helper q = None.
Proof. vm_compute. auto. Qed.
