(* ===== verification/IpcliteMem.v ===== *)
(** * IPC Lite: the layout of the shared memory

    The part of [synx/ipclite.c] that lays out the memory the hosts share:
    [setup_toc], [setup_global_partition], [setup_partitions],
    [update_partition], [get_ipcmem_partition_hdr] and the checksum of the
    header, with the structures and constants of [synx/ipclite.h].

    A partition of the memory is the record [ipcmem_partition]: its header,
    the four words at [desc_offset] (the descriptors of the two FIFOs), and
    its bytes, addressed from the start of the partition. The three regions
    are disjoint ([partition_regions]), so that no access to one of them
    reads another; the file ends with the layout theorem. *)

From S2P Require Import Prelude Outcome IpcHosts.

(** ** Constants *)

Definition IPCMEM_TOC_SIZE : Z := 4 * 1024.
Definition IPCMEM_TOC_VAR_OFFSET : Z := 256.
Definition IPCMEM_INIT_COMPLETED : Z := 1.
Definition FIFO_FULL_RESERVE : Z := 8.
Definition MAX_CHANNEL_SIGNALS : Z := 6.
Definition IPCLITE_MSG_SIGNAL : Z := 0.
Definition IPCLITE_MEM_INIT_SIGNAL : Z := 1.
Definition IPCLITE_VERSION_SIGNAL : Z := 2.
Definition IPCLITE_TEST_SIGNAL : Z := 3.
Definition IPCLITE_SSR_SIGNAL : Z := 4.
Definition IPCMEM_FLAGS_ENABLE_RW_PROTECTION : Z := 3.

Definition DEFAULT_PARTITION_TYPE : Z := 0.
Definition LOOPBACK_PARTITION_TYPE : Z := 1.
Definition GLOBAL_PARTITION_TYPE : Z := 255.
Definition DEFAULT_DESCRIPTOR_OFFSET : Z := 1024.
Definition DEFAULT_DESCRIPTOR_SIZE : Z := 3 * 1024.
Definition DEFAULT_FIFO0_OFFSET : Z := 4 * 1024.
Definition DEFAULT_FIFO0_SIZE : Z := 8 * 1024.
Definition DEFAULT_FIFO1_OFFSET : Z := 12 * 1024.
Definition DEFAULT_FIFO1_SIZE : Z := 8 * 1024.
Definition DEFAULT_PARTITION_SIZE : Z := 32 * 1024.
Definition GLOBAL_REGION_OFFSET : Z := 4 * 1024.
Definition GLOBAL_REGION_SIZE : Z := 124 * 1024.
Definition GLOBAL_PARTITION_SIZE : Z := 128 * 1024.
Definition DEBUG_PARTITION_SIZE : Z := 64 * 1024.

(** [enum ipclite_channel_status] *)
Definition INACTIVE : Z := 0.
Definition IN_PROGRESS : Z := 1.
Definition ACTIVE : Z := 2.

Definition EINVAL : Z := 22.
Definition ENOMEM : Z := 12.
Definition EAGAIN : Z := 11.
Definition ENXIO : Z := 6.
Definition EOPNOTSUPP : Z := 95.

(** ** Data *)

(** [struct ipcmem_partition_entry]; six 32-bit words. *)
Record ipcmem_partition_entry := mk_entry {
  base_offset : Z;
  size : Z;
  flags : Z;
  host0 : Z;
  host1 : Z
}.

Definition SIZEOF_PARTITION_ENTRY : Z := 24.
Definition SIZEOF_HOST_INFO : Z := 8.
Definition SIZEOF_PARTITION_INFO : Z := 8.
Definition SIZEOF_PARTITION_HEADER : Z := 32.
Definition SIZEOF_GLOBAL_HEADER : Z := 12.

(** [struct ipcmem_partition_header] *)
Record ipcmem_partition_header := mk_hdr {
  type : Z;
  desc_offset : Z;
  desc_size : Z;
  fifo0_offset : Z;
  fifo0_size : Z;
  fifo1_offset : Z;
  fifo1_size : Z;
  hdr_status : Z          (* status *)
}.

Definition default_partition_hdr : ipcmem_partition_header :=
  mk_hdr DEFAULT_PARTITION_TYPE DEFAULT_DESCRIPTOR_OFFSET DEFAULT_DESCRIPTOR_SIZE
    DEFAULT_FIFO0_OFFSET DEFAULT_FIFO0_SIZE DEFAULT_FIFO1_OFFSET DEFAULT_FIFO1_SIZE INACTIVE.

Definition loopback_partition_hdr : ipcmem_partition_header :=
  mk_hdr LOOPBACK_PARTITION_TYPE DEFAULT_DESCRIPTOR_OFFSET DEFAULT_DESCRIPTOR_SIZE
    DEFAULT_FIFO0_OFFSET DEFAULT_FIFO0_SIZE DEFAULT_FIFO0_OFFSET DEFAULT_FIFO0_SIZE INACTIVE.

(** [struct global_partition_header] *)
Record global_partition_header := mk_ghdr {
  partition_type : Z;
  region_offset : Z;
  region_size : Z
}.

Definition global_partition_hdr : global_partition_header :=
  mk_ghdr GLOBAL_PARTITION_TYPE GLOBAL_REGION_OFFSET GLOBAL_REGION_SIZE.

(** The memory of a partition. *)
Record ipcmem_partition := mk_part {
  hdr : ipcmem_partition_header;
  descs : list Z;         (* the words at desc_offset: u32 *)
  bytes : list Z          (* the bytes from the start of the partition *)
}.

(** [struct ipcmem_offsets]: where the structures of the table of contents are. *)
Record ipcmem_offsets := mk_offsets {
  off_host_info : Z;
  off_global_entry : Z;
  off_partition_info : Z;
  off_partition_entry : Z
}.

(** The table of contents and the partitions ([struct ipclite_mem]). *)
Record ipclite_mem := mk_mem {
  mem_size : Z;                                  (* mem.size *)
  init_done : Z;                                 (* toc->hdr.init_done *)
  offsets : ipcmem_offsets;                      (* toc->offsets *)
  hwlock_owner : Z;                              (* host_info->hwlock_owner *)
  configured_host : Z;                           (* host_info->configured_host *)
  global_entry : ipcmem_partition_entry;
  global_partition : global_partition_header;
  num_entries : Z;                               (* partition_info->num_entries *)
  entry_size : Z;                                (* partition_info->entry_size *)
  partition_entry : list ipcmem_partition_entry;
  partition : list ipcmem_partition
}.

Definition mem_set_toc (o : ipcmem_offsets) (m : ipclite_mem) : ipclite_mem :=
  mk_mem (mem_size m) (init_done m) o (hwlock_owner m) (configured_host m) (global_entry m)
    (global_partition m) (num_entries m) (entry_size m) (partition_entry m) (partition m).
Definition mem_set_init_done (v : Z) (m : ipclite_mem) : ipclite_mem :=
  mk_mem (mem_size m) v (offsets m) (hwlock_owner m) (configured_host m) (global_entry m)
    (global_partition m) (num_entries m) (entry_size m) (partition_entry m) (partition m).
Definition mem_set_host_info (owner conf : Z) (m : ipclite_mem) : ipclite_mem :=
  mk_mem (mem_size m) (init_done m) (offsets m) owner conf (global_entry m)
    (global_partition m) (num_entries m) (entry_size m) (partition_entry m) (partition m).
Definition mem_set_global (e : ipcmem_partition_entry) (h : global_partition_header)
    (m : ipclite_mem) : ipclite_mem :=
  mk_mem (mem_size m) (init_done m) (offsets m) (hwlock_owner m) (configured_host m) e h
    (num_entries m) (entry_size m) (partition_entry m) (partition m).
Definition mem_set_info (n sz : Z) (m : ipclite_mem) : ipclite_mem :=
  mk_mem (mem_size m) (init_done m) (offsets m) (hwlock_owner m) (configured_host m) (global_entry m)
    (global_partition m) n sz (partition_entry m) (partition m).
Definition mem_set_entries (l : list ipcmem_partition_entry) (m : ipclite_mem) : ipclite_mem :=
  mk_mem (mem_size m) (init_done m) (offsets m) (hwlock_owner m) (configured_host m) (global_entry m)
    (global_partition m) (num_entries m) (entry_size m) l (partition m).
Definition mem_set_partition (l : list ipcmem_partition) (m : ipclite_mem) : ipclite_mem :=
  mk_mem (mem_size m) (init_done m) (offsets m) (hwlock_owner m) (configured_host m) (global_entry m)
    (global_partition m) (num_entries m) (entry_size m) (partition_entry m) l.

(** What a read outside the tables gives; every use is inside them. *)
Definition no_entry : ipcmem_partition_entry := mk_entry 0 0 0 0 0.
Definition zero_hdr : ipcmem_partition_header := mk_hdr 0 0 0 0 0 0 0 0.
Definition no_partition : ipcmem_partition := mk_part zero_hdr [] [].

(** The memory of the partition at [base] after [memset(virt_base, 0, size)]. *)
Definition zero_partition (m : ipclite_mem) (base : Z) : ipcmem_partition :=
  mk_part zero_hdr [0; 0; 0; 0]
    (replicate (Z.to_nat (Z.min DEFAULT_PARTITION_SIZE (mem_size m - base))) 0).

(** ** The operations *)

(** [is_host_enabled] and [is_loopback_except_apps] *)
Definition is_host_enabled (enabled_hosts host : Z) : bool :=
  truthy (Z.land 1 (Z.shiftr enabled_hosts host)).
Definition is_loopback_except_apps (h0 h1 : Z) : bool :=
  (h0 =? h1) && negb (h0 =? IPCMEM_APPS).

Definition setup_toc (m : ipclite_mem) : Z * ipclite_mem :=
  let offset := 0 in
  let offset := offset + IPCMEM_TOC_VAR_OFFSET in
  let host_info := offset in
  let offset := offset + SIZEOF_HOST_INFO in
  let global_entry := offset in
  let offset := offset + SIZEOF_PARTITION_ENTRY in
  let partition_info := offset in
  let offset := offset + SIZEOF_PARTITION_INFO in
  let partition_entry := offset in
  (0, mem_set_toc (mk_offsets host_info global_entry partition_info partition_entry) m).

(** [setup_global_partition]: its header must be in the mapped memory. *)
Definition setup_global_partition (base : Z) (m : ipclite_mem) : option ipclite_mem :=
  let e := mk_entry base GLOBAL_PARTITION_SIZE IPCMEM_FLAGS_ENABLE_RW_PROTECTION
             IPCMEM_GLOBAL_HOST IPCMEM_GLOBAL_HOST in
  if base + SIZEOF_GLOBAL_HEADER >? mem_size m then None else
  Some (mem_set_global e global_partition_hdr m).

(** [update_partition]: the header must be in the mapped memory. *)
Definition update_partition (p : Z) (m : ipclite_mem) : option ipclite_mem :=
  let e := znth no_entry (partition_entry m) p in
  if base_offset e + SIZEOF_PARTITION_HEADER >? mem_size m then None else
  let mem := zero_partition m (base_offset e) in
  let h := if host0 e =? host1 e then loopback_partition_hdr else default_partition_hdr in
  Some (mem_set_partition (zupd (partition m) p (mk_part h (descs mem) (bytes mem))) m).

(** The inner loop of [setup_partitions], over [host1]; the state is the next
    offset and the entries so far. *)
Fixpoint fill_host1 (enabled host0 : Z) (hosts : list Z)
    (s : Z * list ipcmem_partition_entry) : Z * list ipcmem_partition_entry :=
  match hosts with
  | [] => s
  | host1 :: hosts =>
      if negb (is_host_enabled enabled host1) || is_loopback_except_apps host0 host1
      then fill_host1 enabled host0 hosts s else
      let '(base, l) := s in
      fill_host1 enabled host0 hosts
        (u32 (base + DEFAULT_PARTITION_SIZE),
         l ++ [mk_entry base DEFAULT_PARTITION_SIZE IPCMEM_FLAGS_ENABLE_RW_PROTECTION host0 host1])
  end.

(** The outer loop, over [host0]. *)
Fixpoint fill_host0 (enabled : Z) (hosts : list Z)
    (s : Z * list ipcmem_partition_entry) : Z * list ipcmem_partition_entry :=
  match hosts with
  | [] => s
  | host0 :: hosts =>
      if negb (is_host_enabled enabled host0) then fill_host0 enabled hosts s else
      fill_host0 enabled hosts
        (fill_host1 enabled host0 (seqZ host0 (IPCMEM_NUM_HOSTS - host0)) s)
  end.

(** [for (p = 0; p < num_entry; p++) update_partition(ipcmem, p);] *)
Fixpoint update_partitions (ps : list Z) (m : ipclite_mem) : option ipclite_mem :=
  match ps with
  | [] => Some m
  | p :: ps => m ← update_partition p m; update_partitions ps m
  end.

(** [setup_partitions]; [kcalloc_ok] is the answer of the allocator. The result
    is [None] where the code writes outside the mapped memory. *)
Definition setup_partitions (enabled base : Z) (kcalloc_ok : bool) (m : ipclite_mem) :
    option (Z * ipclite_mem) :=
  let '(_, l) := fill_host0 enabled (seqZ 0 IPCMEM_NUM_HOSTS) (base, []) in
  let num_entry := zlen l in
  let m := mem_set_entries l m in
  if negb kcalloc_ok then Some (- ENOMEM, m) else
  let m := mem_set_partition (replicate (Z.to_nat num_entry) no_partition) m in
  m ← update_partitions (seqZ 0 num_entry) m;
  Some (0, mem_set_info num_entry SIZEOF_PARTITION_ENTRY m).

(** The first loop of [ipcmem_init]: [of_property_read_u32] leaves
    [remote_pid] as it was when the node has no such property. *)
Fixpoint collect_hosts (nodes : list (option Z)) (remote_pid enabled : Z) : Z :=
  match nodes with
  | [] => enabled
  | n :: nodes =>
      let remote_pid := default remote_pid n in
      collect_hosts nodes remote_pid
        (if remote_pid <? IPCMEM_NUM_HOSTS then Z.lor enabled (BIT remote_pid) else enabled)
  end.

(** [ipcmem_init]: the new value of [enabled_hosts], the result and the memory. *)
Definition ipcmem_init (nodes : list (option Z)) (enabled : Z) (kcalloc_ok : bool)
    (m : ipclite_mem) : option (Z * Z * ipclite_mem) :=
  let enabled := collect_hosts nodes 0 enabled in
  let '(ret, m) := setup_toc m in
  if truthy ret then Some (enabled, ret, m) else
  let m := mem_set_host_info IPCMEM_INVALID_HOST enabled m in
  let gmem_offset := IPCMEM_TOC_SIZE in
  m ← setup_global_partition gmem_offset m;
  let gmem_offset := gmem_offset + GLOBAL_PARTITION_SIZE in
  '(ret, m) ← setup_partitions enabled gmem_offset kcalloc_ok m;
  if truthy ret then Some (enabled, ret, m) else
  Some (enabled, 0, mem_set_init_done IPCMEM_INIT_COMPLETED m).

(** [get_ipcmem_partition_hdr]: the number of the partition whose header it returns. *)
Definition get_ipcmem_partition_hdr (partitions : Z) (m : ipclite_mem) (local_pid remote_pid : Z) :
    option Z :=
  match find_index (fun e => (host0 e =? local_pid) && (host1 e =? remote_pid))
          (take (Z.to_nat partitions) (partition_entry m)) with
  | Some p => Some (Z.of_nat p)
  | None => None
  end.

(** [insert_magic_number] on the words of the header. *)
Definition insert_magic_number (block : list Z) : list Z :=
  let x := fold_left (fun b w => Z.lxor b w) (drop 1 block) (znth 0 block 0) in
  zupd block 0 (u32 (Z.lnot x)).

(** ** The partition table *)

(** The pairs of hosts, in the order of the loops, and those that get a partition. *)
Definition all_pairs : list (Z * Z) :=
  h0 ← seqZ 0 IPCMEM_NUM_HOSTS; h1 ← seqZ h0 (IPCMEM_NUM_HOSTS - h0); [(h0, h1)].

Definition has_partition (enabled : Z) (hs : Z * Z) : bool :=
  is_host_enabled enabled hs.1 && is_host_enabled enabled hs.2 &&
  negb (is_loopback_except_apps hs.1 hs.2).

Definition host_pairs (enabled : Z) : list (Z * Z) :=
  List.filter (has_partition enabled) all_pairs.

(** The entries of the pairs [ps], from offset [base] on. *)
Fixpoint entries_at (base : Z) (ps : list (Z * Z)) : list ipcmem_partition_entry :=
  match ps with
  | [] => []
  | (h0, h1) :: ps =>
      mk_entry base DEFAULT_PARTITION_SIZE IPCMEM_FLAGS_ENABLE_RW_PROTECTION h0 h1 ::
      entries_at (u32 (base + DEFAULT_PARTITION_SIZE)) ps
  end.

Fixpoint next_offset (base : Z) (ps : list (Z * Z)) : Z :=
  match ps with
  | [] => base
  | _ :: ps => next_offset (u32 (base + DEFAULT_PARTITION_SIZE)) ps
  end.

Lemma entries_at_app base ps qs :
  entries_at base (ps ++ qs) = entries_at base ps ++ entries_at (next_offset base ps) qs.
Proof. revert base. induction ps as [|[h0 h1] ps IH]; intros base; cbn; [done|]. by rewrite IH. Qed.

Lemma next_offset_app base ps qs :
  next_offset base (ps ++ qs) = next_offset (next_offset base ps) qs.
Proof. revert base. induction ps as [|[h0 h1] ps IH]; intros base; cbn; [done|]. by rewrite IH. Qed.

Lemma entries_at_length base ps : length (entries_at base ps) = length ps.
Proof. revert base. induction ps as [|[h0 h1] ps IH]; intros base; cbn; [done|]. by rewrite IH. Qed.

Lemma entries_at_lookup base ps i h0 h1 :
  0 <= base -> base + DEFAULT_PARTITION_SIZE * zlen ps < 2 ^ 32 -> ps !! i = Some (h0, h1) ->
  entries_at base ps !! i =
    Some (mk_entry (base + DEFAULT_PARTITION_SIZE * Z.of_nat i) DEFAULT_PARTITION_SIZE
            IPCMEM_FLAGS_ENABLE_RW_PROTECTION h0 h1).
Proof.
  unfold zlen. revert base i. induction ps as [|[a b] ps IH]; intros base i Hb Hn Hi; [done|].
  cbn [length] in Hn. unfold DEFAULT_PARTITION_SIZE in *. destruct i as [|i]; cbn [entries_at lookup list_lookup] in Hi |- *;
    unfold DEFAULT_PARTITION_SIZE.
  - injection Hi as -> ->. by replace (base + 32 * 1024 * Z.of_nat 0) with base by lia.
  - rewrite u32_small by lia. etransitivity; [apply (IH (base + 32 * 1024) i); (done || lia)|].
    by replace (base + 32 * 1024 + 32 * 1024 * Z.of_nat i)
      with (base + 32 * 1024 * Z.of_nat (S i)) by lia.
Qed.

Lemma fill_host1_spec en h0 hosts base l :
  is_host_enabled en h0 = true ->
  let ps := List.filter (has_partition en) (pair h0 <$> hosts) in
  fill_host1 en h0 hosts (base, l) = (next_offset base ps, l ++ entries_at base ps).
Proof.
  intros He. revert base l. induction hosts as [|h1 hosts IH]; intros base l;
    cbn [fill_host1 fmap list_fmap List.filter]; [by rewrite app_nil_r|].
  assert (Hp : has_partition en (h0, h1) =
    negb (negb (is_host_enabled en h1) || is_loopback_except_apps h0 h1)).
  { unfold has_partition. cbn [fst snd]. rewrite He, negb_orb, negb_involutive. done. }
  rewrite Hp. destruct (negb (is_host_enabled en h1) || is_loopback_except_apps h0 h1); cbn [negb].
  - apply IH.
  - rewrite IH. cbn [next_offset entries_at]. by rewrite <- app_assoc.
Qed.

Lemma no_partition_disabled en h0 hosts :
  is_host_enabled en h0 = false -> List.filter (has_partition en) (pair h0 <$> hosts) = [].
Proof.
  intros He. induction hosts as [|h1 hosts IH]; cbn [fmap list_fmap List.filter]; [done|].
  unfold has_partition at 1. cbn [fst snd]. by rewrite He.
Qed.

Lemma fill_host0_spec en hosts base l :
  let ps := List.filter (has_partition en)
    (h0 ← hosts; pair h0 <$> seqZ h0 (IPCMEM_NUM_HOSTS - h0)) in
  fill_host0 en hosts (base, l) = (next_offset base ps, l ++ entries_at base ps).
Proof.
  revert base l. induction hosts as [|h0 hosts IH]; intros base l;
    cbn [fill_host0 mbind list_bind]; [by rewrite app_nil_r|].
  rewrite List.filter_app. destruct (is_host_enabled en h0) eqn:He; cbn [negb].
  - rewrite (fill_host1_spec en h0 _ base l He), IH.
    by rewrite next_offset_app, entries_at_app, app_assoc.
  - by rewrite (no_partition_disabled en h0 _ He), IH.
Qed.

Lemma all_pairs_eq : all_pairs = (h0 ← seqZ 0 IPCMEM_NUM_HOSTS; pair h0 <$> seqZ h0 (IPCMEM_NUM_HOSTS - h0)).
Proof. vm_compute. reflexivity. Qed.

Lemma fill_hosts en base :
  fill_host0 en (seqZ 0 IPCMEM_NUM_HOSTS) (base, []) =
    (next_offset base (host_pairs en), entries_at base (host_pairs en)).
Proof. rewrite fill_host0_spec. unfold host_pairs. by rewrite all_pairs_eq. Qed.

Lemma host_pairs_short en : (length (host_pairs en) <= 45)%nat.
Proof. etransitivity; [apply List.filter_length_le|]. apply Nat.leb_le. vm_compute. reflexivity. Qed.

Lemma host_pairs_elem en h0 h1 :
  (h0, h1) ∈ host_pairs en <->
    (0 <= h0 <= h1 /\ h1 < IPCMEM_NUM_HOSTS) /\ has_partition en (h0, h1) = true.
Proof.
  unfold host_pairs. rewrite list_elem_of_In, List.filter_In, <- list_elem_of_In. f_equiv.
  unfold all_pairs. rewrite list_elem_of_bind. split.
  - intros (a & Ha & Hin). apply elem_of_seqZ in Hin. unfold IPCMEM_NUM_HOSTS in *.
    apply list_elem_of_bind in Ha as (b & Hb & Hb2). apply list_elem_of_singleton in Hb.
    injection Hb as -> ->. apply elem_of_seqZ in Hb2. lia.
  - intros H. exists h0. unfold IPCMEM_NUM_HOSTS in *. split; [|apply elem_of_seqZ; lia].
    apply list_elem_of_bind. exists h1. split; [by apply list_elem_of_singleton|]. apply elem_of_seqZ. lia.
Qed.

Lemma host_pairs_NoDup en : NoDup (host_pairs en).
Proof.
  apply NoDup_ListNoDup. apply List.NoDup_filter. apply NoDup_ListNoDup.
  apply (bool_decide_unpack (NoDup all_pairs)). vm_compute. exact I.
Qed.

(** ** The layout theorem *)

(** The memory as [ipcmem_init] leaves it, with the hosts [en]. *)
Definition PARTITIONS_OFFSET : Z := IPCMEM_TOC_SIZE + GLOBAL_PARTITION_SIZE.

Definition pair_hdr (hs : Z * Z) : ipcmem_partition_header :=
  if hs.1 =? hs.2 then loopback_partition_hdr else default_partition_hdr.

Definition fresh_partition (hs : Z * Z) : ipcmem_partition :=
  mk_part (pair_hdr hs) [0; 0; 0; 0] (replicate (Z.to_nat DEFAULT_PARTITION_SIZE) 0).

Record laid_out (en : Z) (m : ipclite_mem) : Prop := {
  lo_entries : partition_entry m = entries_at PARTITIONS_OFFSET (host_pairs en);
  lo_num : num_entries m = zlen (host_pairs en);
  lo_parts : partition m = fresh_partition <$> host_pairs en;
  lo_room : PARTITIONS_OFFSET + DEFAULT_PARTITION_SIZE * zlen (host_pairs en) <= mem_size m
}.

Lemma is_host_enabled_testbit en h : 0 <= h -> is_host_enabled en h = Z.testbit en h.
Proof.
  intros Hh. unfold is_host_enabled. rewrite Z.land_comm. change 1 with (BIT 0) at 1.
  rewrite land_BIT_testbit, Z.shiftr_spec by lia. by rewrite Z.add_0_l.
Qed.

Lemma collect_hosts_spec pids pid en h :
  0 <= h < IPCMEM_NUM_HOSTS -> Forall (fun p => 0 <= p) pids ->
  is_host_enabled (collect_hosts (Some <$> pids) pid en) h =
    is_host_enabled en h || bool_decide (h ∈ pids).
Proof.
  intros Hh. revert pid en. induction pids as [|p pids IH]; intros pid en Hp; cbn [fmap list_fmap collect_hosts].
  - by rewrite orb_false_r.
  - apply Forall_cons in Hp as [Hp0 Hps]. cbn beta in Hp0.
    change (default pid (Some p)) with p. rewrite IH by done.
    assert (Hor : bool_decide (h ∈ p :: pids) = (p =? h) || bool_decide (h ∈ pids)).
    { apply eq_bool_prop_intro. rewrite orb_True, !bool_decide_spec, elem_of_cons.
      unfold Is_true. destruct (Z.eqb_spec p h) as [->|Hne]; [tauto|].
      split; [intros [->|?]; [done|by right]|intros [[]|?]; by right]. }
    rewrite Hor, orb_assoc. f_equal. case_if.
    + by rewrite !is_host_enabled_testbit, testbit_lor_BIT by lia.
    + destruct (Z.eqb_spec p h); [lia|]. by rewrite orb_false_r.
Qed.

(** The entries of the table, and the search in it. *)
Section laid.
Context (en : Z) (m : ipclite_mem) (L : laid_out en m).

Lemma laid_small : PARTITIONS_OFFSET + DEFAULT_PARTITION_SIZE * zlen (host_pairs en) < 2 ^ 32.
Proof.
  pose proof (host_pairs_short en). unfold zlen, PARTITIONS_OFFSET, IPCMEM_TOC_SIZE,
    GLOBAL_PARTITION_SIZE, DEFAULT_PARTITION_SIZE. lia.
Qed.

Lemma laid_entry p h0 h1 : host_pairs en !! p = Some (h0, h1) ->
  partition_entry m !! p =
    Some (mk_entry (PARTITIONS_OFFSET + DEFAULT_PARTITION_SIZE * Z.of_nat p) DEFAULT_PARTITION_SIZE
            IPCMEM_FLAGS_ENABLE_RW_PROTECTION h0 h1).
Proof.
  intros Hp. rewrite (lo_entries _ _ L). apply entries_at_lookup; [by vm_compute|apply laid_small|done].
Qed.

Lemma laid_entries_length : length (partition_entry m) = length (host_pairs en).
Proof. by rewrite (lo_entries _ _ L), entries_at_length. Qed.

Lemma laid_entry_inv p e : partition_entry m !! p = Some e ->
  base_offset e = PARTITIONS_OFFSET + DEFAULT_PARTITION_SIZE * Z.of_nat p /\
  size e = DEFAULT_PARTITION_SIZE /\ (p < length (host_pairs en))%nat.
Proof.
  intros He. pose proof (lookup_lt_Some _ _ _ He) as Hl. rewrite laid_entries_length in Hl.
  destruct (host_pairs en !! p) as [[a b]|] eqn:Hp; [|apply lookup_ge_None_1 in Hp; lia].
  rewrite (laid_entry _ _ _ Hp) in He. by injection He as <-.
Qed.

Lemma laid_take : take (Z.to_nat (num_entries m)) (partition_entry m) = partition_entry m.
Proof.
  apply take_ge. rewrite laid_entries_length, (lo_num _ _ L). unfold zlen. lia.
Qed.

Lemma get_hdr_Some h0 h1 p :
  get_ipcmem_partition_hdr (num_entries m) m h0 h1 = Some p ->
  0 <= p /\ host_pairs en !! Z.to_nat p = Some (h0, h1).
Proof.
  unfold get_ipcmem_partition_hdr. rewrite laid_take.
  destruct (find_index _ (partition_entry m)) as [i|] eqn:Hf; [|done]. intros [= <-].
  apply find_index_Some in Hf as (e & He & Hh & _). split; [lia|]. rewrite Nat2Z.id.
  pose proof (lookup_lt_Some _ _ _ He) as Hl. rewrite laid_entries_length in Hl.
  destruct (host_pairs en !! i) as [[a b]|] eqn:Hp; [|apply lookup_ge_None_1 in Hp; lia].
  rewrite (laid_entry _ _ _ Hp) in He. injection He as <-. cbn [host0 host1] in Hh. zbool. by subst.
Qed.

Lemma get_hdr_None h0 h1 :
  get_ipcmem_partition_hdr (num_entries m) m h0 h1 = None <-> (h0, h1) ∉ host_pairs en.
Proof.
  unfold get_ipcmem_partition_hdr. rewrite laid_take.
  destruct (find_index _ (partition_entry m)) as [i|] eqn:Hf.
  - split; [done|]. intros Hn. exfalso. apply Hn.
    assert (Hg : get_ipcmem_partition_hdr (num_entries m) m h0 h1 = Some (Z.of_nat i)).
    { unfold get_ipcmem_partition_hdr. by rewrite laid_take, Hf. }
    apply get_hdr_Some in Hg as [_ Hg]. by apply list_elem_of_lookup_2 in Hg.
  - split; [|done]. intros _ Hin. apply list_elem_of_lookup_1 in Hin as (i & Hi).
    pose proof (find_index_None _ _ Hf i _ (laid_entry _ _ _ Hi)) as Hc. cbn [host0 host1] in Hc.
    by rewrite !Z.eqb_refl in Hc.
Qed.

End laid.

Lemma zero_partition_fresh m base h :
  base + DEFAULT_PARTITION_SIZE <= mem_size m ->
  mk_part h (descs (zero_partition m base)) (bytes (zero_partition m base)) =
  mk_part h [0; 0; 0; 0] (replicate (Z.to_nat DEFAULT_PARTITION_SIZE) 0).
Proof. intros H. unfold zero_partition. cbn [descs bytes]. by rewrite Z.min_l by lia. Qed.

Lemma update_partition_at en m ps1 hs ps2 :
  partition_entry m = entries_at PARTITIONS_OFFSET (host_pairs en) ->
  PARTITIONS_OFFSET + DEFAULT_PARTITION_SIZE * zlen (host_pairs en) <= mem_size m ->
  host_pairs en = ps1 ++ hs :: ps2 ->
  partition m = (fresh_partition <$> ps1) ++ replicate (length (hs :: ps2)) no_partition ->
  update_partition (zlen ps1) m =
    Some (mem_set_partition ((fresh_partition <$> ps1 ++ [hs]) ++ replicate (length ps2) no_partition) m).
Proof.
  intros He Hroom Hps Hpart. destruct hs as [h0 h1].
  assert (Hlk : host_pairs en !! length ps1 = Some (h0, h1)).
  { rewrite Hps, lookup_app_r, Nat.sub_diag by done. done. }
  pose proof (host_pairs_short en) as Hs.
  assert (Hlen : length (host_pairs en) = (length ps1 + S (length ps2))%nat).
  { by rewrite Hps, length_app. }
  assert (Hent : znth no_entry (partition_entry m) (zlen ps1) =
    mk_entry (PARTITIONS_OFFSET + DEFAULT_PARTITION_SIZE * zlen ps1) DEFAULT_PARTITION_SIZE
      IPCMEM_FLAGS_ENABLE_RW_PROTECTION h0 h1).
  { unfold zlen. apply znth_lookup. rewrite He. apply entries_at_lookup; [by vm_compute| |done].
    unfold zlen, PARTITIONS_OFFSET, IPCMEM_TOC_SIZE, GLOBAL_PARTITION_SIZE, DEFAULT_PARTITION_SIZE. lia. }
  unfold update_partition. rewrite Hent. cbn [base_offset host0 host1].
  assert (Hfit : PARTITIONS_OFFSET + DEFAULT_PARTITION_SIZE * zlen ps1 + DEFAULT_PARTITION_SIZE <= mem_size m).
  { unfold zlen in *. rewrite Hlen in Hroom. unfold DEFAULT_PARTITION_SIZE in *. lia. }
  destruct (_ >? mem_size m) eqn:E; zbool.
  { exfalso. unfold SIZEOF_PARTITION_HEADER, DEFAULT_PARTITION_SIZE in *. lia. }
  do 2 f_equal. rewrite zero_partition_fresh by done. rewrite Hpart. unfold zupd.
  destruct (Z.ltb_spec (zlen ps1) 0); [unfold zlen in *; lia|].
  replace (Z.to_nat (zlen ps1)) with (length (fresh_partition <$> ps1) + 0)%nat
    by (rewrite length_fmap; unfold zlen; lia).
  rewrite insert_app_r. cbn. rewrite fmap_app, <- app_assoc. done.
Qed.

Lemma update_partitions_spec en ps1 ps2 m :
  partition_entry m = entries_at PARTITIONS_OFFSET (host_pairs en) ->
  PARTITIONS_OFFSET + DEFAULT_PARTITION_SIZE * zlen (host_pairs en) <= mem_size m ->
  host_pairs en = ps1 ++ ps2 ->
  partition m = (fresh_partition <$> ps1) ++ replicate (length ps2) no_partition ->
  update_partitions (seqZ (zlen ps1) (zlen ps2)) m =
    Some (mem_set_partition (fresh_partition <$> host_pairs en) m).
Proof.
  revert ps1 m. induction ps2 as [|hs ps2 IH]; intros ps1 m He Hroom Hps Hpart.
  - change (zlen (@nil (Z * Z))) with 0. cbn [update_partitions seqZ]. rewrite app_nil_r in Hps.
    rewrite app_nil_r in Hpart. rewrite Hps, <- Hpart. by destruct m.
  - unfold zlen at 2. cbn [length]. rewrite seqZ_cons by lia. cbn [update_partitions].
    rewrite (update_partition_at en m ps1 hs ps2) by done. cbn [mbind option_bind].
    replace (Z.succ (zlen ps1)) with (zlen (ps1 ++ [hs])) by (unfold zlen; rewrite length_app; cbn; lia).
    replace (Z.pred (Z.of_nat (S (length ps2)))) with (zlen ps2) by (unfold zlen; lia).
    rewrite (IH (ps1 ++ [hs])); [done|done|done|by rewrite <- app_assoc|done].
Qed.


Lemma setup_partitions_ok en m :
  PARTITIONS_OFFSET + DEFAULT_PARTITION_SIZE * zlen (host_pairs en) <= mem_size m ->
  exists m', setup_partitions en PARTITIONS_OFFSET true m = Some (0, m') /\ laid_out en m' /\
    m' = mem_set_info (zlen (host_pairs en)) SIZEOF_PARTITION_ENTRY
           (mem_set_partition (partition m') (mem_set_entries (partition_entry m') m)).
Proof.
  intros Hroom. unfold setup_partitions. rewrite fill_hosts. cbn [negb].
  assert (Hlen : zlen (entries_at PARTITIONS_OFFSET (host_pairs en)) = zlen (host_pairs en))
    by (unfold zlen; by rewrite entries_at_length).
  rewrite Hlen.
  set (m1 := mem_set_partition _ _).
  pose proof (update_partitions_spec en [] (host_pairs en) m1 eq_refl Hroom eq_refl) as Hu.
  change (zlen (@nil (Z * Z))) with 0 in Hu. rewrite Hu.
  - cbn [mbind option_bind]. eexists. split; [done|]. by split.
  - unfold m1. cbn [partition mem_set_partition fmap list_fmap app]. by unfold zlen; rewrite Nat2Z.id.
Qed.

Definition ipcmem_laid_out (pids : list Z) (en : Z) (m' : ipclite_mem) : Prop :=
  init_done m' = IPCMEM_INIT_COMPLETED /\ hwlock_owner m' = IPCMEM_INVALID_HOST /\
  configured_host m' = en /\
  (* the hosts of the device tree, and no others, are enabled *)
  (forall h, 0 <= h < IPCMEM_NUM_HOSTS -> is_host_enabled en h = bool_decide (h ∈ pids)) /\
  (* two enabled hosts have a partition of their own; no others have one *)
  (forall h0 h1, 0 <= h0 <= h1 -> h1 < IPCMEM_NUM_HOSTS ->
     if has_partition en (h0, h1) then
       exists p, get_ipcmem_partition_hdr (num_entries m') m' h0 h1 = Some p /\
         partition m' !! Z.to_nat p = Some (fresh_partition (h0, h1))
     else get_ipcmem_partition_hdr (num_entries m') m' h0 h1 = None) /\
  (* the partitions follow each other, after the global one, inside the memory *)
  (forall p q e f, (p < q)%nat -> partition_entry m' !! p = Some e ->
     partition_entry m' !! q = Some f ->
     base_offset (global_entry m') + size (global_entry m') <= base_offset e /\
     base_offset e + size e <= base_offset f /\ base_offset f + size f <= mem_size m') /\
  (* the table ends before the global partition *)
  off_partition_entry (offsets m') + entry_size m' * num_entries m' <= base_offset (global_entry m').

(** C31: [ipcmem_init] lays out the shared memory when it has room for the
    partitions: exactly the hosts of the device tree are enabled, two enabled
    hosts (and the application processor with itself) have one fresh partition,
    which [get_ipcmem_partition_hdr] finds, the partitions neither overlap
    nor leave the memory, and their table fits in front of them. When the
    table of partitions cannot be allocated the result is [-ENOMEM] and the
    memory is not marked as initialised. *)
Theorem ipcmem_init_lays_out (pids : list Z) (m : ipclite_mem)
    (Hp : Forall (fun p => 0 <= p) pids) (en := collect_hosts (Some <$> pids) 0 0)
    (Hroom : PARTITIONS_OFFSET + DEFAULT_PARTITION_SIZE * zlen (host_pairs en) <= mem_size m) :
  (exists m', ipcmem_init (Some <$> pids) 0 true m = Some (en, 0, m') /\ ipcmem_laid_out pids en m') /\
  (exists m', ipcmem_init (Some <$> pids) 0 false m = Some (en, - ENOMEM, m') /\ init_done m' = init_done m).
Proof.
  assert (Hg : (IPCMEM_TOC_SIZE + SIZEOF_GLOBAL_HEADER >? mem_size m) = false).
  { rewrite Z.gtb_ltb. apply Z.ltb_ge. unfold PARTITIONS_OFFSET, GLOBAL_PARTITION_SIZE,
      DEFAULT_PARTITION_SIZE, SIZEOF_GLOBAL_HEADER, zlen in *. lia. }
  unfold ipcmem_init, setup_toc, setup_global_partition. fold en. change (truthy 0) with false.
  cbn [mem_size mem_set_toc mem_set_host_info]. rewrite Hg. cbv iota. cbn [mbind option_bind].
  set (m1 := mem_set_global _ _ _).
  change (IPCMEM_TOC_SIZE + GLOBAL_PARTITION_SIZE) with PARTITIONS_OFFSET. split.
  - destruct (setup_partitions_ok en m1 Hroom) as (m2 & -> & L & Hm2). cbn [mbind option_bind].
    change (truthy 0) with false. eexists. split; [done|].
    pose proof (Build_laid_out en (mem_set_init_done IPCMEM_INIT_COMPLETED m2)
      (lo_entries _ _ L) (lo_num _ _ L) (lo_parts _ _ L) (lo_room _ _ L)) as L'.
    split; [done|]. rewrite Hm2. repeat (split; [done|]). rewrite <- Hm2. split; [|split; [|split]].
    + intros h Hh. unfold en. rewrite collect_hosts_spec by done.
      unfold is_host_enabled. by rewrite Z.shiftr_0_l.
    + intros h0 h1 H0 H1. destruct (has_partition en (h0, h1)) eqn:Hh.
      * destruct (get_ipcmem_partition_hdr _ _ h0 h1) as [p|] eqn:Hp1.
        -- exists p. split; [done|]. apply (get_hdr_Some en _ L') in Hp1 as [_ Hp1].
           rewrite (lo_parts _ _ L'), list_lookup_fmap, Hp1. done.
        -- apply (get_hdr_None en _ L') in Hp1. destruct Hp1. by apply host_pairs_elem.
      * apply (get_hdr_None en _ L'). rewrite host_pairs_elem, Hh. by intros [_ ?].
    + intros p q e f Hpq He Hf.
      apply (laid_entry_inv en _ L') in He as (-> & -> & _).
      apply (laid_entry_inv en _ L') in Hf as (-> & -> & Hq).
      rewrite Hm2. unfold m1, zlen in *. cbn [base_offset size global_entry mem_set_init_done mem_set_info
        mem_set_partition mem_set_entries mem_set_global mem_set_host_info mem_set_toc mem_size].
      unfold PARTITIONS_OFFSET, DEFAULT_PARTITION_SIZE in *. lia.
    + rewrite Hm2. unfold m1. cbn [off_partition_entry offsets entry_size num_entries global_entry
        mem_set_init_done mem_set_info mem_set_partition mem_set_entries mem_set_global
        mem_set_host_info mem_set_toc base_offset].
      pose proof (host_pairs_short en). unfold zlen, IPCMEM_TOC_VAR_OFFSET, SIZEOF_HOST_INFO,
        SIZEOF_PARTITION_ENTRY, SIZEOF_PARTITION_INFO, IPCMEM_TOC_SIZE. lia.
  - unfold setup_partitions. rewrite fill_hosts. cbn [negb mbind option_bind].
    change (truthy (- ENOMEM)) with true. eexists. done.
Qed.

(** A memory of 2 MB before its initialisation. *)
Definition blank_mem (sz : Z) : ipclite_mem :=
  mk_mem sz 0 (mk_offsets 0 0 0 0) 0 0 no_entry (mk_ghdr 0 0 0) 0 0 [] [].

Lemma ipcmem_init_lays_out_witness :
  exists m', ipcmem_init (Some <$> [0; 5; 8]) 0 true (blank_mem 2097152) = Some (289, 0, m') /\
    ipcmem_laid_out [0; 5; 8] 289 m'.
Proof.
  refine (proj1 (ipcmem_init_lays_out [0; 5; 8] (blank_mem 2097152) _ _)).
  - repeat constructor; lia.
  - vm_compute. discriminate.
Defined.
