(* ===== verification/IpcliteFifo.v ===== *)
(** * IPC Lite: the message FIFOs

    The FIFO operations of [synx/ipclite.c] on the memory of a partition:
    [ipcmem_rx_avail], [ipcmem_rx_peak], [ipcmem_tx_avail],
    [ipcmem_tx_write_one] and the index updates of [ipcmem_rx_advance] and
    [ipcmem_tx_write]. [fifo_holds] relates the memory to the list of 64-bit
    messages that wait in it; the lemmas say what each operation does to that
    list. An access outside the memory of the partition is [None]. *)

From S2P Require Import Prelude Outcome IpcHosts IpcliteMem.

(** ** Bytes *)

(** The little-endian bytes of a word, and back. *)
Fixpoint le_bytes (n : nat) (v : Z) : list Z :=
  match n with
  | O => []
  | S n => v mod 256 :: le_bytes n (v / 256)
  end.

Fixpoint le_word (l : list Z) : Z :=
  match l with
  | [] => 0
  | b :: l => b + 256 * le_word l
  end.

Definition SIZEOF_U64 : Z := 8.

(** [memcpy] from and to the memory of a partition. *)
Definition read_bytes (l : list Z) (off len : Z) : option (list Z) :=
  if (0 <=? off) && (0 <=? len) && (off + len <=? zlen l)
  then Some (take (Z.to_nat len) (drop (Z.to_nat off) l)) else None.

Definition write_bytes (l : list Z) (off : Z) (data : list Z) : option (list Z) :=
  if (0 <=? off) && (off + zlen data <=? zlen l)
  then Some (list_inserts (Z.to_nat off) data l) else None.

(** [ALIGN(x, 8)] on a 32-bit value. *)
Definition ALIGN8 (x : Z) : Z := u32 (Z.land (x + 7) (Z.lnot 7)).

(** ** Data *)

(** [struct ipclite_fifo]: the pointers [tail] and [head] are word numbers in
    the descriptors of the partition [fifo_part], [fifo] is an offset in it;
    the function pointers are always those of this file. *)
Record ipclite_fifo := mk_fifo {
  fifo_part : Z;
  fifo_length : Z;       (* length *)
  tail : Z;
  head : Z;
  fifo : Z
}.

(** [*fifo->head] and [*fifo->tail] *)
Definition get_head (f : ipclite_fifo) (p : ipcmem_partition) : Z := znth 0 (descs p) (head f).
Definition get_tail (f : ipclite_fifo) (p : ipcmem_partition) : Z := znth 0 (descs p) (tail f).
Definition set_head (f : ipclite_fifo) (v : Z) (p : ipcmem_partition) : ipcmem_partition :=
  mk_part (hdr p) (zupd (descs p) (head f) (u32 v)) (bytes p).
Definition set_tail (f : ipclite_fifo) (v : Z) (p : ipcmem_partition) : ipcmem_partition :=
  mk_part (hdr p) (zupd (descs p) (tail f) (u32 v)) (bytes p).
Definition set_bytes (l : list Z) (p : ipcmem_partition) : ipcmem_partition :=
  mk_part (hdr p) (descs p) l.

(** ** The operations *)

Definition ipcmem_rx_avail (f : ipclite_fifo) (p : ipcmem_partition) : Z :=
  let head := get_head f p in
  let tail := get_tail f p in
  let len := if head <? tail then u32 (fifo_length f - tail + head) else u32 (head - tail) in
  if len >? fifo_length f then 0 else len.

(** The buffer [data] of [count] bytes after the call. *)
Definition ipcmem_rx_peak (f : ipclite_fifo) (data : list Z) (count : Z) (p : ipcmem_partition) :
    option (list Z) :=
  let tail := get_tail f p in
  if tail >? fifo_length f then Some data else
  let tail := if tail >=? fifo_length f then u32 (tail - fifo_length f) else tail in
  let len := Z.min count (u32 (fifo_length f - tail)) in
  first ← (if truthy len then read_bytes (bytes p) (fifo f + tail) len else Some []);
  if len =? count then Some first else
  rest ← read_bytes (bytes p) (fifo f) (count - len);
  Some (first ++ rest).

(** The update of [*tail] in [ipcmem_rx_advance]; the remainder by an empty
    FIFO traps. *)
Definition rx_advance_tail (f : ipclite_fifo) (count : Z) (p : ipcmem_partition) :
    option ipcmem_partition :=
  let tail := u32 (get_tail f p + count) in
  if tail >=? fifo_length f
  then if fifo_length f =? 0 then None else Some (set_tail f (tail mod fifo_length f) p)
  else Some (set_tail f tail p).

Definition ipcmem_tx_avail (f : ipclite_fifo) (p : ipcmem_partition) : Z :=
  let head := get_head f p in
  let tail := get_tail f p in
  let avail := if tail <=? head then u32 (fifo_length f - head + tail) else u32 (tail - head) in
  let avail := if avail <? FIFO_FULL_RESERVE then 0 else avail - FIFO_FULL_RESERVE in
  if avail >? fifo_length f then 0 else avail.

(** The new [head] and memory. *)
Definition ipcmem_tx_write_one (f : ipclite_fifo) (head : Z) (data : list Z) (p : ipcmem_partition) :
    option (Z * ipcmem_partition) :=
  if head >? fifo_length f then Some (head, p) else
  let count := zlen data in
  let len := Z.min count (u32 (fifo_length f - head)) in
  mem ← (if truthy len then write_bytes (bytes p) (fifo f + head) (take (Z.to_nat len) data)
         else Some (bytes p));
  mem ← (if len =? count then Some mem
         else write_bytes mem (fifo f) (drop (Z.to_nat len) data));
  let head := u32 (head + count) in
  let head := if head >=? fifo_length f then u32 (head - fifo_length f) else head in
  Some (head, set_bytes mem p).

(** The update of the data and of [*head] in [ipcmem_tx_write]. *)
Definition tx_write_head (f : ipclite_fifo) (data : list Z) (p : ipcmem_partition) :
    option ipcmem_partition :=
  '(head, p) ← ipcmem_tx_write_one f (get_head f p) data p;
  let head := ALIGN8 head in
  let head := if head >=? fifo_length f then u32 (head - fifo_length f) else head in
  Some (set_head f head p).

(** ** Lemmas on bytes *)

Lemma le_bytes_length n v : length (le_bytes n v) = n.
Proof. revert v. induction n; intros v; cbn; auto. Qed.

Lemma le_word_bytes n v : 0 <= v < 256 ^ Z.of_nat n -> le_word (le_bytes n v) = v.
Proof.
  revert v. induction n as [|n IH]; intros v Hv.
  - change (256 ^ Z.of_nat 0) with 1 in Hv. cbn. lia.
  - cbn [le_bytes le_word]. rewrite IH.
    + rewrite Z.add_comm. symmetry. apply Z.div_mod. lia.
    + rewrite Nat2Z.inj_succ, Z.pow_succ_r in Hv by lia. split; [apply Z.div_pos; lia|].
      apply Z.div_lt_upper_bound; lia.
Qed.

Lemma read_bytes_lookup l off len d :
  read_bytes l off len = Some d ->
  (forall i, (i < Z.to_nat len)%nat -> d !! i = l !! (Z.to_nat off + i)%nat) /\
  length d = Z.to_nat len.
Proof.
  unfold read_bytes. case_if; [|done]. intros [= <-]. zbool. unfold zlen in *. split.
  - intros i Hi. by rewrite lookup_take_lt, lookup_drop by lia.
  - rewrite length_take, length_drop. lia.
Qed.

Lemma write_bytes_length l off d l' : write_bytes l off d = Some l' -> zlen l' = zlen l.
Proof. unfold write_bytes. case_if; [|done]. intros [= <-]. unfold zlen. by rewrite length_inserts. Qed.

Lemma write_read_same l off d l' :
  write_bytes l off d = Some l' -> read_bytes l' off (zlen d) = Some d.
Proof.
  intros H. pose proof (write_bytes_length _ _ _ _ H) as Hl. revert H. unfold write_bytes, read_bytes.
  case_if; [|done]. intros [= <-]. zbool. unfold zlen in *.
  rewrite (proj2 (Z.leb_le 0 off)), (proj2 (Z.leb_le 0 (Z.of_nat (length d)))), Hl,
    (proj2 (Z.leb_le _ _)) by lia. cbn [andb]. f_equal. rewrite Nat2Z.id.
  apply list_eq. intros i. destruct (decide (i < length d)%nat).
  - rewrite lookup_take_lt, lookup_drop by lia. rewrite list_lookup_inserts by lia. f_equal. lia.
  - rewrite lookup_take_ge by lia. symmetry. apply lookup_ge_None_2. lia.
Qed.

Lemma write_read_other l off d l' o len :
  write_bytes l off d = Some l' -> o + len <= off \/ off + zlen d <= o ->
  read_bytes l' o len = read_bytes l o len.
Proof.
  intros H Hd. pose proof (write_bytes_length _ _ _ _ H) as Hl. revert H. unfold write_bytes, read_bytes.
  case_if; [|done]. intros [= <-]. rewrite Hl. case_if; [|done]. f_equal. zbool. unfold zlen in *.
  apply list_eq. intros i. destruct (decide (i < Z.to_nat len)%nat).
  - rewrite !lookup_take_lt, !lookup_drop by lia. destruct Hd.
    + by rewrite list_lookup_inserts_lt by lia.
    + by rewrite list_lookup_inserts_ge by lia.
  - by rewrite !lookup_take_ge by lia.
Qed.

(** ** The messages of a FIFO *)

(** Slot [i] of a ring of [n], for [i < 2 * n]. *)
Definition ring (n i : Z) : Z := if i <? n then i else i - n.

(** A FIFO of [n] messages of 8 bytes in the memory of [p]. *)
Record fifo_wf (f : ipclite_fifo) (n : Z) (p : ipcmem_partition) : Prop := {
  fw_length : fifo_length f = 8 * n;
  fw_slots : 2 <= n <= 2 ^ 28;
  fw_fifo : 0 <= fifo f;
  fw_room : fifo f + 8 * n <= zlen (bytes p);
  fw_tail : 0 <= tail f < zlen (descs p);
  fw_head : 0 <= head f < zlen (descs p);
  fw_ne : tail f <> head f
}.

(** The messages [ms] wait in the FIFO, from slot [t] on. *)
Record fifo_holds (f : ipclite_fifo) (n t : Z) (ms : list Z) (p : ipcmem_partition) : Prop := {
  fh_wf : fifo_wf f n p;
  fh_t : 0 <= t < n;
  fh_tail : get_tail f p = 8 * t;
  fh_head : get_head f p = 8 * ring n (t + zlen ms);
  fh_room : zlen ms < n;
  fh_u64 : Forall is_u64 ms;
  fh_data : forall k m, ms !! k = Some m ->
    read_bytes (bytes p) (fifo f + 8 * ring n (t + Z.of_nat k)) SIZEOF_U64 = Some (le_bytes 8 m)
}.

Lemma ring_range n i : 0 <= i < 2 * n -> 0 <= ring n i < n.
Proof. intros H. unfold ring. case_if; lia. Qed.

Lemma ALIGN8_id i : 0 <= 8 * i < 2 ^ 32 -> ALIGN8 (8 * i) = 8 * i.
Proof.
  intros H. unfold ALIGN8. replace (Z.lnot 7) with (Z.lnot (Z.ones 3)) by done.
  rewrite <- Z.ldiff_land, Z.ldiff_ones_r, Z.shiftr_div_pow2, Z.shiftl_mul_pow2 by lia.
  replace ((8 * i + 7) / 2 ^ 3) with i; [rewrite u32_small by lia; lia|].
  apply (Z.div_unique _ _ _ 7); lia.
Qed.

Section held.
Context (f : ipclite_fifo) (n t : Z) (ms : list Z) (p : ipcmem_partition).
Context (H : fifo_holds f n t ms p).

Lemma rx_avail_holds : ipcmem_rx_avail f p = 8 * zlen ms.
Proof.
  destruct H as [[Hl Hn _ _ _ _ _] Ht Htl Hhd Hr _ _]. unfold ipcmem_rx_avail. rewrite Htl, Hhd, Hl.
  assert (0 <= zlen ms) by (unfold zlen; lia). unfold ring. case_if.
  - destruct (Z.ltb_spec (8 * (t + zlen ms)) (8 * t)); [lia|].
    rewrite u32_small by lia. case_if; lia.
  - destruct (Z.ltb_spec (8 * (t + zlen ms - n)) (8 * t)); [|lia].
    rewrite u32_small by lia. case_if; lia.
Qed.

Lemma tx_avail_holds : ipcmem_tx_avail f p = 8 * (n - zlen ms - 1).
Proof.
  destruct H as [[Hl Hn _ _ _ _ _] Ht Htl Hhd Hr _ _]. unfold ipcmem_tx_avail, FIFO_FULL_RESERVE.
  rewrite Htl, Hhd, Hl. assert (0 <= zlen ms) by (unfold zlen; lia). unfold ring. case_if.
  - destruct (Z.leb_spec (8 * t) (8 * (t + zlen ms))); [|lia].
    rewrite u32_small by lia. case_ifs; lia.
  - destruct (Z.leb_spec (8 * t) (8 * (t + zlen ms - n))); [lia|].
    rewrite u32_small by lia. case_ifs; lia.
Qed.

Lemma rx_peak_holds m ms' data : ms = m :: ms' ->
  ipcmem_rx_peak f data SIZEOF_U64 p = Some (le_bytes 8 m).
Proof.
  intros Hms. destruct H as [[Hl Hn _ _ _ _ _] Ht Htl _ _ _ Hd]. unfold ipcmem_rx_peak.
  rewrite Htl, Hl. destruct (Z.gtb_spec (8 * t) (8 * n)); [lia|].
  rewrite Z.geb_leb. destruct (Z.leb_spec (8 * n) (8 * t)); [lia|].
  rewrite u32_small, Z.min_l by (unfold SIZEOF_U64; lia). change (truthy SIZEOF_U64) with true. cbv iota.
  specialize (Hd O m). rewrite Hms in Hd. specialize (Hd eq_refl).
  change (Z.of_nat 0) with 0 in Hd. rewrite Z.add_0_r in Hd. unfold ring in Hd.
  destruct (Z.ltb_spec t n); [|lia]. rewrite Hd. done.
Qed.

End held.

Lemma get_set_tail f v p : 0 <= tail f < zlen (descs p) -> get_tail f (set_tail f v p) = u32 v.
Proof. intros H. by apply znth_zupd_eq. Qed.
Lemma get_set_head f v p : 0 <= head f < zlen (descs p) -> get_head f (set_head f v p) = u32 v.
Proof. intros H. by apply znth_zupd_eq. Qed.
Lemma get_head_set_tail f v p : tail f <> head f -> get_head f (set_tail f v p) = get_head f p.
Proof. intros H. by apply znth_zupd_ne. Qed.
Lemma get_tail_set_head f v p : tail f <> head f -> get_tail f (set_head f v p) = get_tail f p.
Proof. intros H. apply znth_zupd_ne. auto. Qed.

(** A FIFO does not change when neither its words nor its bytes do. *)
Lemma fifo_holds_frame f n t ms p p' :
  fifo_holds f n t ms p -> zlen (descs p') = zlen (descs p) -> zlen (bytes p') = zlen (bytes p) ->
  get_head f p' = get_head f p -> get_tail f p' = get_tail f p ->
  (forall i, 0 <= i < n ->
     read_bytes (bytes p') (fifo f + 8 * i) SIZEOF_U64 = read_bytes (bytes p) (fifo f + 8 * i) SIZEOF_U64) ->
  fifo_holds f n t ms p'.
Proof.
  intros [[] Ht Htl Hhd Hr Hu Hd] Hds Hb Hh Htl' Hrd. split; [|done|congruence..|done|done|].
  - split; try done; congruence.
  - intros k m Hk. rewrite Hrd; [by apply Hd|]. apply ring_range.
    apply lookup_lt_Some in Hk. unfold zlen in Hr. lia.
Qed.

Section update.
Context (f : ipclite_fifo) (n t : Z) (p : ipcmem_partition).

Lemma rx_advance_holds m ms : fifo_holds f n t (m :: ms) p ->
  exists p', rx_advance_tail f SIZEOF_U64 p = Some p' /\ fifo_holds f n (ring n (t + 1)) ms p' /\
    p' = set_tail f (8 * ring n (t + 1)) p.
Proof.
  intros H. destruct H as [W Ht Htl Hhd Hr Hu Hd]. pose proof W as [Hl Hn Hf Hrm Htr Hhr Hne].
  pose proof (ring_range n (t + 1)) as Hrg.
  assert (Hlen : zlen (m :: ms) = zlen ms + 1) by (unfold zlen; cbn; lia).
  assert (H0 : 0 <= zlen ms) by (unfold zlen; lia).
  assert (Heq : rx_advance_tail f SIZEOF_U64 p = Some (set_tail f (8 * ring n (t + 1)) p)).
  { unfold rx_advance_tail, SIZEOF_U64. rewrite Htl, Hl, u32_small by lia. unfold ring. rewrite Z.geb_leb.
    destruct (Z.ltb_spec (t + 1) n), (Z.leb_spec (8 * n) (8 * t + 8)); try lia.
    - by replace (8 * t + 8) with (8 * (t + 1)) by lia.
    - destruct (Z.eqb_spec (8 * n) 0); [lia|]. do 2 f_equal. replace (8 * t + 8) with (8 * n) by lia.
      rewrite Z.mod_same by lia. lia. }
  eexists. split; [exact Heq|]. split; [|done].
  assert (Htail : get_tail f (set_tail f (8 * ring n (t + 1)) p) = 8 * ring n (t + 1))
    by (rewrite get_set_tail, u32_small by lia; done).
  split.
  - destruct W. split; try done; cbn [descs set_tail bytes]; by rewrite ?zlen_zupd.
  - lia.
  - done.
  - rewrite get_head_set_tail, Hhd, Hlen by done. f_equal. unfold ring. case_ifs; lia.
  - lia.
  - by apply Forall_cons in Hu as [_ Hu].
  - intros k m' Hk. cbn [bytes set_tail]. specialize (Hd (S k) m' Hk). rewrite <- Hd. do 2 f_equal.
    pose proof (lookup_lt_Some _ _ _ Hk). unfold zlen in *. unfold ring. case_ifs; lia.
Qed.

Lemma tx_write_holds m ms : fifo_holds f n t ms p -> is_u64 m -> zlen ms + 1 < n ->
  exists p' mem, tx_write_head f (le_bytes 8 m) p = Some p' /\ fifo_holds f n t (ms ++ [m]) p' /\
    write_bytes (bytes p) (fifo f + 8 * ring n (t + zlen ms)) (le_bytes 8 m) = Some mem /\
    p' = set_head f (8 * ring n (t + zlen ms + 1)) (set_bytes mem p).
Proof.
  intros H Hm Hlt. destruct H as [W Ht Htl Hhd Hr Hu Hd]. pose proof W as [Hl Hn Hf Hrm Htr Hhr Hne].
  assert (H0 : 0 <= zlen ms) by (unfold zlen; lia).
  pose proof (ring_range n (t + zlen ms) ltac:(lia)) as Hrg.
  pose proof (ring_range n (t + zlen ms + 1) ltac:(lia)) as Hrg1.
  assert (Hz : zlen (le_bytes 8 m) = 8) by (unfold zlen; by rewrite le_bytes_length).
  set (h := ring n (t + zlen ms)) in *. set (h1 := ring n (t + zlen ms + 1)) in *.
  assert (Hh1 : h1 = if h + 1 <? n then h + 1 else 0) by (unfold h1, h, ring; case_ifs; lia).
  destruct (write_bytes (bytes p) (fifo f + 8 * h) (le_bytes 8 m)) as [mem|] eqn:Hw.
  2:{ unfold write_bytes in Hw. rewrite Hz in Hw. rewrite (proj2 (Z.leb_le _ _)), (proj2 (Z.leb_le _ _)) in Hw by lia. done. }
  assert (Heq : tx_write_head f (le_bytes 8 m) p = Some (set_head f (8 * h1) (set_bytes mem p))).
  { unfold tx_write_head, ipcmem_tx_write_one. rewrite Hhd, Hl, Hz. destruct (Z.gtb_spec (8 * h) (8 * n)); [lia|].
    rewrite (u32_small (8 * n - 8 * h)), (u32_small (8 * h + 8)) by lia.
    rewrite Z.min_l by lia. change (truthy 8) with true. cbv iota.
    rewrite take_ge by (rewrite le_bytes_length; lia). rewrite Hw. cbn [mbind option_bind].
    change (8 =? 8) with true. cbv iota. cbn [mbind option_bind].
    rewrite !Z.geb_leb, Hh1.
    destruct (Z.leb_spec (8 * n) (8 * h + 8)), (Z.ltb_spec (h + 1) n); try lia.
    - cbn [mbind option_bind]. replace (8 * h + 8 - 8 * n) with (8 * 0) by lia. change (u32 (8 * 0)) with (8 * 0).
      rewrite ALIGN8_id by lia. destruct (Z.leb_spec (8 * n) (8 * 0)); [lia|]. done.
    - replace (8 * h + 8) with (8 * (h + 1)) by lia. rewrite ALIGN8_id by lia.
      destruct (Z.leb_spec (8 * n) (8 * (h + 1))); [lia|]. done. }
  pose proof (write_bytes_length _ _ _ _ Hw) as Hlm.
  eexists _, mem. split; [exact Heq|]. split; [|done]. split.
  - destruct W. split; try done; cbn [descs set_head set_bytes bytes]; rewrite ?zlen_zupd; done || by rewrite Hlm.
  - done.
  - rewrite get_tail_set_head by done. done.
  - rewrite get_set_head, u32_small by (done || lia). unfold zlen at 1. rewrite length_app. cbn [length].
    unfold h1, zlen. do 2 f_equal. lia.
  - unfold zlen. rewrite length_app. cbn [length]. unfold zlen in *. lia.
  - apply Forall_app. split; [done|by apply Forall_singleton].
  - intros k m' Hk. cbn [bytes set_head set_bytes]. apply lookup_app_Some in Hk as [Hk|[Hge Hk]].
    + pose proof (lookup_lt_Some _ _ _ Hk). rewrite <- (Hd k m' Hk).
      apply (write_read_other _ _ _ _ _ _ Hw). rewrite Hz. unfold SIZEOF_U64, h, ring, zlen in *. case_ifs; lia.
    + apply list_lookup_singleton_Some in Hk as [Hk <-].
      replace (t + Z.of_nat k) with (t + zlen ms) by (unfold zlen; lia).
      rewrite <- Hz at 1. apply (write_read_same _ _ _ _ Hw).
Qed.

End update.

(** ** Two FIFOs of a partition *)

(** They share neither words nor bytes. *)
Record fifos_apart (f g : ipclite_fifo) : Prop := {
  ap_words : tail f <> tail g /\ tail f <> head g /\ head f <> tail g /\ head f <> head g;
  ap_bytes : fifo f + fifo_length f <= fifo g \/ fifo g + fifo_length g <= fifo f
}.

Lemma fifos_apart_sym f g : fifos_apart f g -> fifos_apart g f.
Proof. intros [Hw Hb]. split; [|tauto]. destruct Hw as (? & ? & ? & ?). repeat split; congruence. Qed.

Lemma holds_set_tail_other f g n t ms p v :
  fifos_apart f g -> fifo_holds f n t ms p -> fifo_holds f n t ms (set_tail g v p).
Proof.
  intros [(? & ? & ? & ?) _] Hh. apply (fifo_holds_frame _ _ _ _ _ _ Hh); try done.
  - cbn. by rewrite zlen_zupd.
  - apply znth_zupd_ne. congruence.
  - apply znth_zupd_ne. congruence.
Qed.

Lemma holds_set_head_other f g n t ms p v :
  fifos_apart f g -> fifo_holds f n t ms p -> fifo_holds f n t ms (set_head g v p).
Proof.
  intros [(? & ? & ? & ?) _] Hh. apply (fifo_holds_frame _ _ _ _ _ _ Hh); try done.
  - cbn. by rewrite zlen_zupd.
  - apply znth_zupd_ne. congruence.
  - apply znth_zupd_ne. congruence.
Qed.

Lemma holds_write_other f g n n' t t' ms ms' m p p' :
  fifos_apart f g -> fifo_holds f n t ms p -> fifo_holds g n' t' ms' p -> is_u64 m -> zlen ms' + 1 < n' ->
  tx_write_head g (le_bytes 8 m) p = Some p' -> fifo_holds f n t ms p'.
Proof.
  intros A Hf Hg Hm Hl Hw. destruct (tx_write_holds g n' t' p m ms' Hg Hm Hl) as (p1 & mem & Hw' & _ & Hb & Hp1).
  rewrite Hw' in Hw. injection Hw as <-. rewrite Hp1. apply holds_set_head_other; [done|].
  apply (fifo_holds_frame _ _ _ _ _ _ Hf); try done.
  - by apply write_bytes_length in Hb.
  - intros i Hi. apply (write_read_other _ _ _ _ _ _ Hb). destruct A as [_ Hab].
    change (zlen (le_bytes 8 m)) with 8. unfold SIZEOF_U64.
    pose proof (fw_length _ _ _ (fh_wf _ _ _ _ _ Hf)). pose proof (fw_length _ _ _ (fh_wf _ _ _ _ _ Hg)).
    pose proof (fh_t _ _ _ _ _ Hg). pose proof (fh_room _ _ _ _ _ Hg). assert (0 <= zlen ms') by (unfold zlen; lia).
    pose proof (ring_range n' (t' + zlen ms') ltac:(lia)). lia.
Qed.

(** The header of the partition does not matter, and an empty FIFO is one
    whose two words are equal. *)
Lemma holds_hdr f n t ms p h : fifo_holds f n t ms p -> fifo_holds f n t ms (mk_part h (descs p) (bytes p)).
Proof. intros H. by apply (fifo_holds_frame _ _ _ _ _ _ H). Qed.

Lemma holds_empty f n t p : fifo_wf f n p -> 0 <= t < n -> get_tail f p = 8 * t -> get_head f p = 8 * t ->
  fifo_holds f n t [] p.
Proof.
  intros W Ht Htl Hhd. split; try done.
  - change (zlen (@nil Z)) with 0. rewrite Z.add_0_r. unfold ring. destruct (Z.ltb_spec t n); [done|lia].
  - change (zlen (@nil Z)) with 0. lia.
Qed.
