(* ===== verification/Ipclite.v ===== *)
(** * IPC Lite: the driver

    The channels, the interrupt handler, sending and recovery of
    [synx/ipclite.c] on the memory of [IpcliteMem] and the FIFOs of
    [IpcliteFifo]: [ipclite_channel_init], [ipclite_tx], [ipclite_msg_send],
    [ipclite_intr], [ipclite_notify_core], [ipclite_recover], the hardware
    mutex and the atomic operations on the words of the partitions, with the
    statistics that the driver keeps when they are enabled. The mailbox and
    the hardware lock are answered by the class [IpcEnv]. What leaves the
    driver (messages to clients, signals to hosts) is the trace. *)

From S2P Require Import Prelude Outcome IpcHosts IpcliteMem IpcliteFifo.

(** ** Data *)

(** [struct ipclite_channel]: [irq_info] keeps the signal numbers, and the
    pointer [gstatus_ptr] is the partition whose header it points into. *)
Record ipclite_channel := mk_chan {
  remote_pid : Z;
  tx_fifo : option ipclite_fifo;
  rx_fifo : option ipclite_fifo;
  tx_lock : bool;
  signal_ids : list Z;            (* irq_info[i].signal_id *)
  gstatus_ptr : option Z;
  ch_status : Z                   (* status *)
}.

Definition zero_channel : ipclite_channel :=
  mk_chan 0 None None false (replicate (Z.to_nat MAX_CHANNEL_SIGNALS) 0) None INACTIVE.

(** [struct ipclite_client] *)
Record ipclite_client := mk_client {
  callback : option Z;            (* the function registered, if any *)
  priv_data : Z;
  reg_complete : Z
}.

(** [struct ipclite_debug_info_host] and [struct ipclite_debug_info_overall] *)
Record ipclite_debug_info_host := mk_dih {
  numsig_sent : Z;
  numsig_recv : Z;
  tx_wr_index : Z;
  tx_rd_index : Z;
  rx_wr_index : Z;
  rx_rd_index : Z;
  num_intr : Z;
  prev_tx_wr_index : Z * Z;
  prev_tx_rd_index : Z * Z;
  prev_rx_wr_index : Z * Z;
  prev_rx_rd_index : Z * Z
}.

Record ipclite_debug_info_overall := mk_dio {
  total_numsig_sent : Z;
  total_numsig_recv : Z;
  last_sent_host_id : Z;
  last_recv_host_id : Z;
  last_sigid_sent : Z;
  last_sigid_recv : Z
}.

(** [struct ipclite_debug_struct] *)
Record ipclite_debug_struct := mk_dbg {
  dbg_info_overall : ipclite_debug_info_overall;
  dbg_info_host : list ipclite_debug_info_host
}.

Definition zero_dih : ipclite_debug_info_host :=
  mk_dih 0 0 0 0 0 0 0 (0, 0) (0, 0) (0, 0) (0, 0).

(** What leaves the driver. *)
Inductive ipc_event :=
| Callback (cb pid data priv : Z)     (* callback(remote_pid, data, priv_data) *)
| Mbox (pid signal : Z).              (* mbox_send_message(irq_info[signal].mbox_chan) *)

(** The state of the driver: [struct ipclite_info] and the static variables. *)
Record ipc := mk_ipc {
  enabled_hosts : Z;
  partitions : Z;
  feature_mask : Z;
  debug_control : Z;              (* ipclite_debug_control *)
  ipcmem : ipclite_mem;
  channel : list ipclite_channel;
  hw_tries : nat;
  hw_held : bool;                 (* the hardware lock is taken *)
  synx_client : ipclite_client;
  test_client : ipclite_client;
  dbg : ipclite_debug_struct;     (* ipclite_dbg_struct *)
  trace : list ipc_event
}.

Definition ipc_set_hosts (en parts : Z) (m : ipclite_mem) (d : ipc) : ipc :=
  mk_ipc en parts (feature_mask d) (debug_control d) m (channel d) (hw_tries d) (hw_held d)
    (synx_client d) (test_client d) (dbg d) (trace d).
Definition ipc_set_mem (m : ipclite_mem) (d : ipc) : ipc :=
  mk_ipc (enabled_hosts d) (partitions d) (feature_mask d) (debug_control d) m (channel d)
    (hw_tries d) (hw_held d) (synx_client d) (test_client d) (dbg d) (trace d).
Definition ipc_set_channel (l : list ipclite_channel) (d : ipc) : ipc :=
  mk_ipc (enabled_hosts d) (partitions d) (feature_mask d) (debug_control d) (ipcmem d) l
    (hw_tries d) (hw_held d) (synx_client d) (test_client d) (dbg d) (trace d).
Definition ipc_set_hw (n : nat) (b : bool) (d : ipc) : ipc :=
  mk_ipc (enabled_hosts d) (partitions d) (feature_mask d) (debug_control d) (ipcmem d) (channel d)
    n b (synx_client d) (test_client d) (dbg d) (trace d).
Definition ipc_set_clients (s t : ipclite_client) (d : ipc) : ipc :=
  mk_ipc (enabled_hosts d) (partitions d) (feature_mask d) (debug_control d) (ipcmem d) (channel d)
    (hw_tries d) (hw_held d) s t (dbg d) (trace d).
Definition ipc_set_dbg (b : ipclite_debug_struct) (d : ipc) : ipc :=
  mk_ipc (enabled_hosts d) (partitions d) (feature_mask d) (debug_control d) (ipcmem d) (channel d)
    (hw_tries d) (hw_held d) (synx_client d) (test_client d) b (trace d).
Definition ipc_event_add (e : ipc_event) (d : ipc) : ipc :=
  mk_ipc (enabled_hosts d) (partitions d) (feature_mask d) (debug_control d) (ipcmem d) (channel d)
    (hw_tries d) (hw_held d) (synx_client d) (test_client d) (dbg d) (trace d ++ [e]).

Definition ch_set_status (v : Z) (c : ipclite_channel) : ipclite_channel :=
  mk_chan (remote_pid c) (tx_fifo c) (rx_fifo c) (tx_lock c) (signal_ids c) (gstatus_ptr c) (u32 v).
Definition ch_set_lock (b : bool) (c : ipclite_channel) : ipclite_channel :=
  mk_chan (remote_pid c) (tx_fifo c) (rx_fifo c) b (signal_ids c) (gstatus_ptr c) (ch_status c).
Definition ch_set_signal (i v : Z) (c : ipclite_channel) : ipclite_channel :=
  mk_chan (remote_pid c) (tx_fifo c) (rx_fifo c) (tx_lock c) (zupd (signal_ids c) i v)
    (gstatus_ptr c) (ch_status c).

Notation M := (run ipc).

(** ** The environment *)

Class IpcEnv := {
  (* the answer of hwspin_lock_timeout_irqsave to the n-th request, given
     whether the lock is taken *)
  hwlock_answer : nat -> bool -> Z;
  (* the answer of mbox_send_message for a signal to a host *)
  mbox_answer : list ipc_event -> Z -> Z -> Z
}.

Section operations.
Context `{E : IpcEnv}.

(** ** Access to the state *)

Definition get_channel (c : Z) : M ipclite_channel :=
  d ← get; guard (0 <=? c);; deref (channel d !! Z.to_nat c).
Definition put_channel (c : Z) (ch : ipclite_channel) : M unit :=
  guard (0 <=? c);; modify (fun d => ipc_set_channel (zupd (channel d) c ch) d).
Definition upd_channel (c : Z) (f : ipclite_channel -> ipclite_channel) : M unit :=
  ch ← get_channel c; put_channel c (f ch).

Definition get_part (p : Z) : M ipcmem_partition :=
  d ← get; guard (0 <=? p);; deref (partition (ipcmem d) !! Z.to_nat p).
Definition put_part (p : Z) (x : ipcmem_partition) : M unit :=
  modify (fun d => ipc_set_mem (mem_set_partition (zupd (partition (ipcmem d)) p x) (ipcmem d)) d).

Definition emit (e : ipc_event) : M unit := modify (ipc_event_add e).

(** [*channel->gstatus_ptr] *)
Definition gstatus (ch : ipclite_channel) : M Z :=
  p ← deref (gstatus_ptr ch); x ← get_part p; mret (hdr_status (hdr x)).
Definition set_hdr_status (v : Z) (x : ipcmem_partition) : ipcmem_partition :=
  let h := hdr x in
  mk_part (mk_hdr (type h) (desc_offset h) (desc_size h) (fifo0_offset h) (fifo0_size h)
             (fifo1_offset h) (fifo1_size h) (u32 v)) (descs x) (bytes x).

(** [IS_DEBUG_CONFIG(IPCLITE_DBG_STRUCT)] and [IS_FEATURE_CONFIG(IPCLITE_GLOBAL_ATOMIC)] *)
Definition IPCLITE_DBG_STRUCT : Z := 2.
Definition IPCLITE_GLOBAL_ATOMIC : Z := 1.
Definition dbg_enabled (d : ipc) : bool := truthy (Z.land (debug_control d) IPCLITE_DBG_STRUCT).

(** ** The hardware mutex and the atomic operations *)

Definition ipclite_hw_mutex_acquire : M Z :=
  d ← get;
  let ret := hwlock_answer (hw_tries d) (hw_held d) in
  put (ipc_set_hw (S (hw_tries d)) (if truthy ret then hw_held d else true) d);;
  if truthy ret then mret ret else
  modify (fun d => ipc_set_mem (mem_set_host_info IPCMEM_APPS (configured_host (ipcmem d)) (ipcmem d)) d);;
  mret ret.

Definition ipclite_hw_mutex_release : M Z :=
  d ← get;
  if negb (hwlock_owner (ipcmem d) =? IPCMEM_APPS) then mret (- EINVAL) else
  put (ipc_set_hw (hw_tries d) false
        (ipc_set_mem (mem_set_host_info IPCMEM_INVALID_HOST (configured_host (ipcmem d)) (ipcmem d)) d));;
  mret 0.

(** [ATOMIC_HW_MUTEX_ACQUIRE; body; ATOMIC_HW_MUTEX_RELEASE]: the results of
    the two are not looked at. *)
Definition atomic_section (body : M unit) : M unit :=
  d ← get;
  if truthy (Z.land (feature_mask d) IPCLITE_GLOBAL_ATOMIC) then body else
  ipclite_hw_mutex_acquire;; body;; ipclite_hw_mutex_release;; mret tt.

(** [ipclite_global_atomic_store_i32] and [ipclite_global_atomic_inc] on the
    status word of partition [p]. *)
Definition ipclite_global_atomic_store_i32 (p v : Z) : M unit :=
  atomic_section (x ← get_part p; put_part p (set_hdr_status v x)).
Definition ipclite_global_atomic_inc (p : Z) : M unit :=
  atomic_section (x ← get_part p; put_part p (set_hdr_status (hdr_status (hdr x) + 1) x)).

(** ** Statistics *)

Definition upd_dbg (f : ipclite_debug_struct -> ipclite_debug_struct) : M unit :=
  d ← get; when (dbg_enabled d) (put (ipc_set_dbg (f (dbg d)) d)).
Definition upd_dih (core : Z) (f : ipclite_debug_info_host -> ipclite_debug_info_host)
    (b : ipclite_debug_struct) : ipclite_debug_struct :=
  mk_dbg (dbg_info_overall b)
    (zupd (dbg_info_host b) core (f (znth zero_dih (dbg_info_host b) core))).

(** The block of [ipcmem_rx_advance] and that of [ipcmem_tx_write]. *)
Definition dbg_rx (core wr rd : Z) (b : ipclite_debug_struct) : ipclite_debug_struct :=
  let b := upd_dih core (fun h =>
    mk_dih (numsig_sent h) (u32 (numsig_recv h + 1)) (tx_wr_index h) (tx_rd_index h) wr rd (num_intr h)
      (prev_tx_wr_index h) (prev_tx_rd_index h)
      (rx_wr_index h, fst (prev_rx_wr_index h)) (rx_rd_index h, fst (prev_rx_rd_index h))) b in
  let o := dbg_info_overall b in
  mk_dbg (mk_dio (total_numsig_sent o) (u32 (total_numsig_recv o + 1)) (last_sent_host_id o)
            (last_recv_host_id o) (last_sigid_sent o) (last_sigid_recv o)) (dbg_info_host b).
Definition dbg_tx (core signal wr rd : Z) (b : ipclite_debug_struct) : ipclite_debug_struct :=
  let b := upd_dih core (fun h =>
    mk_dih (u32 (numsig_sent h + 1)) (numsig_recv h) wr rd (rx_wr_index h) (rx_rd_index h) (num_intr h)
      (tx_wr_index h, fst (prev_tx_wr_index h)) (tx_rd_index h, fst (prev_tx_rd_index h))
      (prev_rx_wr_index h) (prev_rx_rd_index h)) b in
  let o := dbg_info_overall b in
  mk_dbg (mk_dio (u32 (total_numsig_sent o + 1)) (total_numsig_recv o) core
            (last_recv_host_id o) signal (last_sigid_recv o)) (dbg_info_host b).
(** The block of [ipclite_intr]. *)
Definition dbg_intr (core signal : Z) (b : ipclite_debug_struct) : ipclite_debug_struct :=
  let b := upd_dih core (fun h =>
    mk_dih (numsig_sent h) (numsig_recv h) (tx_wr_index h) (tx_rd_index h) (rx_wr_index h)
      (rx_rd_index h) (u32 (num_intr h + 1)) (prev_tx_wr_index h) (prev_tx_rd_index h)
      (prev_rx_wr_index h) (prev_rx_rd_index h)) b in
  let o := dbg_info_overall b in
  mk_dbg (mk_dio (total_numsig_sent o) (total_numsig_recv o) (last_sent_host_id o) core
            (last_sigid_sent o) signal) (dbg_info_host b).

(** ** The FIFOs of the driver *)

Definition ipcmem_rx_advance (f : ipclite_fifo) (count core_id : Z) : M unit :=
  p ← get_part (fifo_part f);
  p ← deref (rx_advance_tail f count p);
  put_part (fifo_part f) p;;
  upd_dbg (dbg_rx core_id (get_head f p) (get_tail f p)).

Definition ipcmem_tx_write (f : ipclite_fifo) (data : list Z) (core_id signal_id : Z) : M unit :=
  p ← get_part (fifo_part f);
  p ← deref (tx_write_head f data p);
  put_part (fifo_part f) p;;
  upd_dbg (dbg_tx core_id signal_id (get_head f p) (get_tail f p)).

(** The functions of a channel. *)
Definition ipclite_rx_avail (c : Z) : M Z :=
  ch ← get_channel c; f ← deref (rx_fifo ch); p ← get_part (fifo_part f); mret (ipcmem_rx_avail f p).
Definition ipclite_rx_peak (c : Z) (data : list Z) (count : Z) : M (list Z) :=
  ch ← get_channel c; f ← deref (rx_fifo ch); p ← get_part (fifo_part f);
  deref (ipcmem_rx_peak f data count p).
Definition ipclite_rx_advance (c count : Z) : M unit :=
  ch ← get_channel c; f ← deref (rx_fifo ch); ipcmem_rx_advance f count (remote_pid ch).
Definition ipclite_tx_avail (c : Z) : M Z :=
  ch ← get_channel c; f ← deref (tx_fifo ch); p ← get_part (fifo_part f); mret (ipcmem_tx_avail f p).
Definition ipclite_tx_write (c : Z) (data : list Z) : M unit :=
  ch ← get_channel c; f ← deref (tx_fifo ch);
  ipcmem_tx_write f data (remote_pid ch) (znth 0 (signal_ids ch) 0).

(** ** Receiving *)

(** The body of [ipclite_rx_data] and of [ipclite_rx_test_data], for the client [cl]. *)
Definition rx_data (cl : ipc -> ipclite_client) (c avail : Z) : M Z :=
  if avail <? SIZEOF_U64 then mret (- EAGAIN) else
  data ← ipclite_rx_peak c (le_bytes 8 0) SIZEOF_U64;
  ch ← get_channel c;
  d ← get;
  (if reg_complete (cl d) =? 1
   then match callback (cl d) with
        | Some cb => emit (Callback cb (remote_pid ch) (le_word data) (priv_data (cl d)))
        | None => mret tt
        end
   else mret tt);;
  ipclite_rx_advance c (ALIGN8 SIZEOF_U64);;
  mret 0.

Definition ipclite_rx_data : Z -> Z -> M Z := rx_data synx_client.
Definition ipclite_rx_test_data : Z -> Z -> M Z := rx_data test_client.

(** The loop of the handler; it does not return when [fuel] messages are not enough. *)
Fixpoint rx_loop (fuel : nat) (rx : Z -> Z -> M Z) (c : Z) : M unit :=
  match fuel with
  | O => block
  | S fuel =>
      avail ← ipclite_rx_avail c;
      if avail <? SIZEOF_U64 then mret tt else
      rx c avail;; rx_loop fuel rx c
  end.

(** [ipclite_intr] for signal [i] of the channel [c]; the result is [IRQ_HANDLED]. *)
Definition ipclite_intr (fuel : nat) (c i : Z) : M unit :=
  ch ← get_channel c;
  let signal_id := znth 0 (signal_ids ch) i in
  upd_dbg (dbg_intr (remote_pid ch) signal_id);;
  if signal_id =? IPCLITE_MSG_SIGNAL then rx_loop fuel ipclite_rx_data c
  else if signal_id =? IPCLITE_VERSION_SIGNAL then mret tt
  else if signal_id =? IPCLITE_TEST_SIGNAL then rx_loop fuel ipclite_rx_test_data c
  else mret tt.

(** ** Sending *)

(** The test at the head of [ipclite_tx] and of [ipclite_notify_core]: a
    channel becomes active when the remote host has made it so. *)
Definition check_active (c : Z) : M bool :=
  ch ← get_channel c;
  if ch_status ch =? ACTIVE then mret true else
  if negb (ch_status ch =? IN_PROGRESS) then mret false else
  g ← gstatus ch;
  if g =? ACTIVE then upd_channel c (ch_set_status ACTIVE);; mret true else mret false.

Definition ipclite_tx (c data dlen signal : Z) : M Z :=
  active ← check_active c;
  if negb active then mret (- EOPNOTSUPP) else
  ch ← get_channel c;
  (if tx_lock ch then block else upd_channel c (ch_set_lock true));;
  avail ← ipclite_tx_avail c;
  if avail <? dlen then upd_channel c (ch_set_lock false);; mret (- EAGAIN) else
  ipclite_tx_write c (take (Z.to_nat dlen) (le_bytes 8 data));;
  emit (Mbox (remote_pid ch) signal);;
  upd_channel c (ch_set_lock false);;
  mret 0.

(** [ipclite_msg_send_v0] and [ipclite_test_msg_send_v0] *)
Definition msg_send (proc_id data signal : Z) : M Z :=
  if (proc_id <? 0) || (proc_id >=? IPCMEM_NUM_HOSTS) then mret (- EINVAL) else
  ipclite_tx proc_id data SIZEOF_U64 signal.
Definition ipclite_msg_send (proc_id data : Z) : M Z := msg_send proc_id data IPCLITE_MSG_SIGNAL.
Definition ipclite_test_msg_send (proc_id data : Z) : M Z := msg_send proc_id data IPCLITE_TEST_SIGNAL.

Definition ipclite_notify_core (proc_id signal_id : Z) : M Z :=
  if (proc_id <? 0) || (proc_id >=? IPCMEM_NUM_HOSTS) then mret (- EINVAL) else
  active ← check_active proc_id;
  if negb active then mret (- EOPNOTSUPP) else
  ch ← get_channel proc_id;
  d ← get;
  let ret := mbox_answer (trace d) (remote_pid ch) signal_id in
  emit (Mbox (remote_pid ch) signal_id);;
  mret (if ret <? 0 then ret else 0).

(** ** Clients *)

(** [ipclite_register_client_v0] and [ipclite_register_test_client_v0]; a NULL
    function is [None]. *)
Definition ipclite_register_client (cb : option Z) (priv : Z) : M Z :=
  match cb with
  | None => mret (- EINVAL)
  | Some f => modify (fun d => ipc_set_clients (mk_client (Some f) priv 1) (test_client d) d);; mret 0
  end.
Definition ipclite_register_test_client (cb : option Z) (priv : Z) : M Z :=
  match cb with
  | None => mret (- EINVAL)
  | Some f => modify (fun d => ipc_set_clients (synx_client d) (mk_client (Some f) priv 1) d);; mret 0
  end.

(** [get_global_partition_info_v0]: the offset of the region and its size. *)
Definition get_global_partition_info (global_ipcmem : bool) : M (Z * option (Z * Z)) :=
  if negb global_ipcmem then mret (- EINVAL, None) else
  d ← get;
  let g := global_partition (ipcmem d) in
  mret (0, Some (base_offset (global_entry (ipcmem d)) + region_offset g, region_size g)).

(** ** Set-up of a channel *)

(** What the kernel answers while a signal of a channel is set up: the results
    of [device_register], of the property [index], of [mbox_request_channel]
    ([None]: the channel; [Some e]: the error [e]) and of [devm_request_irq]. *)
Record irq_node := mk_irq_node {
  in_register : Z;
  in_index : Z * Z;
  in_mbox : option Z;
  in_irq : Z
}.

(** [ipclite_channel_irq_init]: when the mailbox is refused, [ret] is still
    that of the property. *)
Definition ipclite_channel_irq_init (c : Z) (n : irq_node) : M Z :=
  if truthy (in_register n) then mret (in_register n) else
  let '(ret, index) := in_index n in
  if truthy ret then mret ret else
  guard ((0 <=? index) && (index <? MAX_CHANNEL_SIGNALS));;
  match in_mbox n with
  | Some _ => mret ret
  | None => upd_channel c (ch_set_signal index index);; mret (in_irq n)
  end.

Fixpoint irq_inits (c : Z) (l : list irq_node) (ret : Z) : M Z :=
  match l with
  | [] => mret ret
  | n :: l =>
      ret ← ipclite_channel_irq_init c n;
      if truthy ret then mret ret else irq_inits c l ret
  end.

(** The two FIFOs of a channel, from the header [h] of partition [p]: the
    transmit FIFO and the receive FIFO of [local_pid]. *)
Definition channel_fifos (p : Z) (h : ipcmem_partition_header) (local_pid remote_pid : Z) :
    ipclite_fifo * ipclite_fifo :=
  let '(tx, rx) :=
    if local_pid <? remote_pid
    then (mk_fifo p (fifo0_size h) 0 1 (fifo0_offset h), mk_fifo p (fifo1_size h) 2 3 (fifo1_offset h))
    else (mk_fifo p (fifo1_size h) 2 3 (fifo1_offset h), mk_fifo p (fifo0_size h) 0 1 (fifo0_offset h)) in
  if type h =? LOOPBACK_PARTITION_TYPE
  then (tx, mk_fifo p (fifo_length rx) (tail tx) (head tx) (fifo rx))
  else (tx, rx).

(** The answers while a channel is set up: [device_register], the property
    [qcom,remote-pid], [devm_kzalloc] and its signals. *)
Record channel_node := mk_channel_node {
  cn_register : Z;
  cn_remote_pid : Z * Z;
  cn_alloc : bool;
  cn_irqs : list irq_node
}.

(** [err_put_dev:] *)
Definition channel_error (remote_pid ret : Z) : M Z :=
  upd_channel remote_pid (ch_set_status INACTIVE);; mret ret.

Definition ipclite_channel_init (n : channel_node) : M Z :=
  if truthy (cn_register n) then mret (cn_register n) else
  let '(ret, pid) := cn_remote_pid n in
  if truthy ret then channel_error 0 ret else
  if negb (cn_alloc n) then channel_error pid (- ENOMEM) else
  d ← get;
  match get_ipcmem_partition_hdr (partitions d) (ipcmem d) LOCAL_HOST pid with
  | None => channel_error pid (- ENOMEM)
  | Some p =>
      x ← get_part p;
      let '(tx, rx) := channel_fifos p (hdr x) LOCAL_HOST pid in
      put_part p (set_head tx 0 (set_tail rx 0 x));;
      ch ← get_channel pid;
      put_channel pid (mk_chan pid (Some tx) (Some rx) false (signal_ids ch) (Some p) (ch_status ch));;
      ret ← irq_inits pid (cn_irqs n) 0;
      if truthy ret then channel_error pid ret else
      let st := if pid =? IPCMEM_APPS then ACTIVE else IN_PROGRESS in
      x ← get_part p;
      put_part p (set_hdr_status st x);;
      upd_channel pid (ch_set_status st);;
      mret ret
  end.

(** [ipclite_init_v0], from [ipcmem_init] to the broadcast: the memory is laid
    out and every channel is set up; the result of a channel is not looked at
    ([probe_subsystem]). *)
Definition init_memory (nodes : list (option Z)) (kcalloc_ok : bool) : M Z :=
  d ← get;
  '(en, ret, m) ← deref (ipcmem_init nodes (enabled_hosts d) kcalloc_ok (ipcmem d));
  put (ipc_set_hosts en (num_entries m) m d);;
  mret ret.

Definition probe_subsystem (n : channel_node) : M unit := ipclite_channel_init n;; mret tt.

Definition init_channels (nodes : list (option Z)) (kcalloc_ok : bool) (chans : list channel_node) : M Z :=
  ret ← init_memory nodes kcalloc_ok;
  if truthy ret then mret ret else
  for_each chans probe_subsystem;;
  d ← get;
  let ret := mbox_answer (trace d) IPCMEM_APPS IPCLITE_MEM_INIT_SIGNAL in
  emit (Mbox IPCMEM_APPS IPCLITE_MEM_INIT_SIGNAL);;
  mret ret.

(** ** Recovery of a host *)

(** The first loop of [ipclite_recover_v0]: the status of every partition of
    the host is cleared. *)
Definition clear_status (core_id p : Z) : M unit :=
  d ← get;
  let e := znth no_entry (partition_entry (ipcmem d)) p in
  if negb (host0 e =? core_id) && negb (host1 e =? core_id) then mret tt else
  ipclite_global_atomic_store_i32 p 0.

(** The second loop: the other hosts are told. *)
Definition notify_ssr (core_id host : Z) : M unit :=
  d ← get;
  if negb (is_host_enabled (enabled_hosts d) host) || (host =? core_id) then mret tt else
  ipclite_notify_core host IPCLITE_SSR_SIGNAL;; mret tt.

Definition ipclite_recover (core_id : Z) : M unit :=
  d ← get;
  when (core_id =? hwlock_owner (ipcmem d))
    (put (ipc_set_hw (hw_tries d) false
      (ipc_set_mem (mem_set_host_info IPCMEM_INVALID_HOST (configured_host (ipcmem d)) (ipcmem d)) d)));;
  for_each (seqZ 0 (partitions d)) (clear_status core_id);;
  ch ← get_channel core_id;
  tx ← deref (tx_fifo ch);
  rx ← deref (rx_fifo ch);
  x ← get_part (fifo_part tx);
  put_part (fifo_part tx) (set_head tx 0 x);;
  x ← get_part (fifo_part rx);
  put_part (fifo_part rx) (set_tail rx 0 x);;
  p ← deref (gstatus_ptr ch);
  ipclite_global_atomic_inc p;;
  g ← gstatus ch;
  upd_channel core_id (ch_set_status g);;
  for_each (seqZ 1 (IPCMEM_NUM_HOSTS - 1)) (notify_ssr core_id).

End operations.
