(* ===== verification/IpcliteLink.v ===== *)
(** * IPC Lite: sending and receiving over a channel

    What the driver of [Ipclite] does to the messages of a channel: sending
    appends to the transmit FIFO, the interrupt handler empties the receive
    FIFO in order and returns, and over every interleaving of the two hosts
    the messages arrive once and in order. *)

From stdpp Require Import relations.
From S2P Require Import Prelude Outcome IpcHosts IpcliteMem IpcliteFifo Ipclite.

(** ** Access to channels and partitions *)

Section access.
Context `{E : IpcEnv}.
Implicit Types (d : ipc) (c : Z) (ch : ipclite_channel).

Definition chan_at d c ch : Prop := 0 <= c /\ channel d !! Z.to_nat c = Some ch.
Definition part_at d q (p : ipcmem_partition) : Prop :=
  0 <= q /\ partition (ipcmem d) !! Z.to_nat q = Some p.
Definition with_chan c ch d : ipc := ipc_set_channel (zupd (channel d) c ch) d.
Definition with_part q (p : ipcmem_partition) d : ipc :=
  ipc_set_mem (mem_set_partition (zupd (partition (ipcmem d)) q p) (ipcmem d)) d.

Lemma get_channel_eq d c ch : chan_at d c ch -> get_channel c d = Ret ch d.
Proof.
  intros [H0 H]. unfold get_channel. rewrite bind_get, bind_guard by (apply Z.leb_le; lia). by rewrite H.
Qed.

Lemma put_channel_eq d c ch : 0 <= c -> put_channel c ch d = Ret tt (with_chan c ch d).
Proof. intros H. unfold put_channel. rewrite bind_guard by (apply Z.leb_le; lia). done. Qed.

Lemma upd_channel_eq d c ch f : chan_at d c ch -> upd_channel c f d = Ret tt (with_chan c (f ch) d).
Proof.
  intros H. unfold upd_channel. rewrite (bind_ret _ _ _ _ _ (get_channel_eq _ _ _ H)).
  apply put_channel_eq. apply H.
Qed.

Lemma get_part_eq d q p : part_at d q p -> get_part q d = Ret p d.
Proof.
  intros [H0 H]. unfold get_part. rewrite bind_get, bind_guard by (apply Z.leb_le; lia). by rewrite H.
Qed.

Lemma put_part_eq d q p : put_part q p d = Ret tt (with_part q p d).
Proof. done. Qed.

Lemma emit_eq d e : emit e d = Ret tt (ipc_event_add e d).
Proof. done. Qed.

Lemma chan_at_with d c ch ch' : chan_at d c ch -> chan_at (with_chan c ch' d) c ch'.
Proof. intros [H0 H]. split; [done|]. by apply (lookup_zupd_eq _ _ _ ch). Qed.

Lemma part_at_with d q p p' : part_at d q p -> part_at (with_part q p' d) q p'.
Proof. intros [H0 H]. split; [done|]. by apply (lookup_zupd_eq _ _ _ p). Qed.

Lemma part_at_with_ne d q q' p p' : q <> q' -> 0 <= q' -> part_at d q p ->
  part_at (with_part q' p' d) q p.
Proof. intros Hn Hq' [H0 H]. split; [done|]. cbn. rewrite lookup_zupd_ne by auto. done. Qed.

Lemma upd_dbg_eq f d : exists b, upd_dbg f d = Ret tt (ipc_set_dbg b d).
Proof.
  unfold upd_dbg. rewrite bind_get. destruct (dbg_enabled d); [by eexists|]. exists (dbg d). by destruct d.
Qed.

(** Drivers that differ in their statistics only. *)
Definition same_but_dbg (d d' : ipc) : Prop := exists b, d' = ipc_set_dbg b d.

End access.

(** ** Sending *)

Section sending.
Context `{E : IpcEnv}.
Implicit Types (d : ipc) (c : Z) (ch : ipclite_channel).

(** A channel on which a message may be sent: it is active, or it is set up
    and the remote host has declared it active in the shared header. *)
Definition can_send d ch : Prop :=
  ch_status ch = ACTIVE \/
  ch_status ch = IN_PROGRESS /\
    exists q p, gstatus_ptr ch = Some q /\ part_at d q p /\ hdr_status (hdr p) = ACTIVE.

Definition cannot_send d ch : Prop :=
  ch_status ch <> ACTIVE /\
  (ch_status ch = IN_PROGRESS ->
     exists q p, gstatus_ptr ch = Some q /\ part_at d q p /\ hdr_status (hdr p) <> ACTIVE).

Lemma with_chan_id d c ch : chan_at d c ch -> with_chan c ch d = d.
Proof. intros [H0 H]. unfold with_chan. rewrite zupd_lookup_id by done. by destruct d. Qed.

Lemma gstatus_eq d ch q p : gstatus_ptr ch = Some q -> part_at d q p ->
  gstatus ch d = Ret (hdr_status (hdr p)) d.
Proof. intros Hq Hp. unfold gstatus. rewrite Hq, bind_deref, (bind_ret _ _ _ _ _ (get_part_eq _ _ _ Hp)). done. Qed.

Lemma check_active_true d c ch : chan_at d c ch -> can_send d ch ->
  check_active c d = Ret true (with_chan c (ch_set_status ACTIVE ch) d).
Proof.
  intros Hc Hs. unfold check_active. rewrite (bind_ret _ _ _ _ _ (get_channel_eq _ _ _ Hc)).
  destruct Hs as [Ha|(Hi & q & p & Hq & Hp & Ha)].
  - rewrite Ha. change (ACTIVE =? ACTIVE) with true. cbv iota.
    replace (ch_set_status ACTIVE ch) with ch by (destruct ch; cbn in *; by subst).
    by rewrite with_chan_id.
  - rewrite Hi. change (IN_PROGRESS =? ACTIVE) with false. change (IN_PROGRESS =? IN_PROGRESS) with true.
    cbn [negb]. cbv iota. rewrite (bind_ret _ _ _ _ _ (gstatus_eq _ _ _ _ Hq Hp)), Ha, Z.eqb_refl.
    by rewrite (bind_ret _ _ _ _ _ (upd_channel_eq _ _ _ _ Hc)).
Qed.

Lemma check_active_false d c ch : chan_at d c ch -> cannot_send d ch -> check_active c d = Ret false d.
Proof.
  intros Hc [Hn Hi]. unfold check_active. rewrite (bind_ret _ _ _ _ _ (get_channel_eq _ _ _ Hc)).
  apply Z.eqb_neq in Hn. rewrite Hn. destruct (Z.eqb_spec (ch_status ch) IN_PROGRESS) as [Hs|]; [|done].
  destruct (Hi Hs) as (q & p & Hq & Hp & Ha). apply Z.eqb_neq in Ha. cbn [negb].
  by rewrite (bind_ret _ _ _ _ _ (gstatus_eq _ _ _ _ Hq Hp)), Ha.
Qed.

(** The driver after a channel was found active. *)
Definition activated c ch d : ipc := with_chan c (ch_set_status ACTIVE ch) d.

Lemma with_chan_twice c x y d : with_chan c x (with_chan c y d) = with_chan c x d.
Proof. unfold with_chan, ipc_set_channel. cbn. by rewrite zupd_zupd. Qed.

Lemma set_lock_off ch : tx_lock ch = false -> ch_set_lock false (ch_set_lock true ch) = ch.
Proof. destruct ch. cbn. by intros ->. Qed.

Section tx.
Context (d : ipc) (c : Z) (ch : ipclite_channel) (f : ipclite_fifo) (n t : Z) (ms : list Z)
  (p : ipcmem_partition).
Context (Hc : chan_at d c ch) (Hl : tx_lock ch = false) (Hf : tx_fifo ch = Some f)
  (Hp : part_at d (fifo_part f) p) (Hh : fifo_holds f n t ms p).

Lemma tx_avail_eq d' ch' : chan_at d' c ch' -> tx_fifo ch' = Some f -> part_at d' (fifo_part f) p ->
  ipclite_tx_avail c d' = Ret (8 * (n - zlen ms - 1)) d'.
Proof.
  intros H1 H2 H3. unfold ipclite_tx_avail. rewrite (bind_ret _ _ _ _ _ (get_channel_eq _ _ _ H1)), H2, bind_deref,
    (bind_ret _ _ _ _ _ (get_part_eq _ _ _ H3)). by rewrite (tx_avail_holds _ _ _ _ _ Hh).
Qed.

Lemma tx_write_eq d' ch' m : chan_at d' c ch' -> tx_fifo ch' = Some f -> part_at d' (fifo_part f) p ->
  is_u64 m -> zlen ms + 1 < n ->
  exists b p', ipclite_tx_write c (le_bytes 8 m) d' = Ret tt (ipc_set_dbg b (with_part (fifo_part f) p' d')) /\
    tx_write_head f (le_bytes 8 m) p = Some p' /\ fifo_holds f n t (ms ++ [m]) p'.
Proof.
  intros H1 H2 H3 Hm Hn. destruct (tx_write_holds f n t p m ms Hh Hm Hn) as (p' & mem & Hw & Hh' & _ & _).
  unfold ipclite_tx_write. rewrite (bind_ret _ _ _ _ _ (get_channel_eq _ _ _ H1)), H2, bind_deref.
  unfold ipcmem_tx_write. rewrite (bind_ret _ _ _ _ _ (get_part_eq _ _ _ H3)), Hw, bind_deref,
    (bind_ret _ _ _ _ _ (put_part_eq _ _ _)).
  destruct (upd_dbg_eq (dbg_tx (remote_pid ch') (znth 0 (signal_ids ch') 0) (get_head f p') (get_tail f p'))
    (with_part (fifo_part f) p' d')) as (b & Hb). exists b, p'. by rewrite Hb.
Qed.

(** [ipclite_tx] of one message on a channel that may send. *)
Lemma ipclite_tx_eq m signal : can_send d ch -> is_u64 m ->
  if zlen ms + 1 <? n then
    exists b p', ipclite_tx c m SIZEOF_U64 signal d =
      Ret 0 (ipc_event_add (Mbox (remote_pid ch) signal)
               (ipc_set_dbg b (with_part (fifo_part f) p' (activated c ch d)))) /\
      tx_write_head f (le_bytes 8 m) p = Some p' /\ fifo_holds f n t (ms ++ [m]) p'
  else ipclite_tx c m SIZEOF_U64 signal d = Ret (- EAGAIN) (activated c ch d).
Proof.
  intros Hs Hm. unfold ipclite_tx. rewrite (bind_ret _ _ _ _ _ (check_active_true _ _ _ Hc Hs)).
  cbn [negb]. cbv iota. fold (activated c ch d). set (ch1 := ch_set_status ACTIVE ch).
  assert (H1 : chan_at (activated c ch d) c ch1) by (by apply (chan_at_with _ _ ch)).
  rewrite (bind_ret _ _ _ _ _ (get_channel_eq _ _ _ H1)). change (tx_lock ch1) with (tx_lock ch). rewrite Hl.
  rewrite (bind_ret _ _ _ _ _ (upd_channel_eq _ _ _ _ H1)).
  set (d2 := with_chan c (ch_set_lock true ch1) (activated c ch d)).
  assert (H2 : chan_at d2 c (ch_set_lock true ch1)) by (by apply (chan_at_with _ _ ch1)).
  assert (Hp2 : part_at d2 (fifo_part f) p) by exact Hp.
  rewrite (bind_ret _ _ _ _ _ (tx_avail_eq _ _ H2 Hf Hp2)).
  assert (Hoff : with_chan c (ch_set_lock false (ch_set_lock true ch1)) d2 = activated c ch d).
  { unfold d2. rewrite with_chan_twice, set_lock_off by done. unfold activated. by rewrite with_chan_twice. }
  destruct (Z.ltb_spec (zlen ms + 1) n) as [Hr|Hr].
  - destruct (Z.ltb_spec (8 * (n - zlen ms - 1)) SIZEOF_U64); [unfold SIZEOF_U64 in *; lia|].
    rewrite take_ge by (rewrite le_bytes_length; done).
    destruct (tx_write_eq d2 _ m H2 Hf Hp2 Hm Hr) as (b & p' & Hw & Hw' & Hh').
    rewrite (bind_ret _ _ _ _ _ Hw). exists b, p'. split; [|done].
    rewrite (bind_ret _ _ _ _ _ (emit_eq _ _)).
    match goal with |- mbind _ _ ?d3 = _ => assert (H3 : chan_at d3 c (ch_set_lock true ch1)) by exact H2 end.
    rewrite (bind_ret _ _ _ _ _ (upd_channel_eq _ _ _ _ H3)). unfold mret, run_ret. f_equal.
    rewrite <- Hoff. done.
  - destruct (Z.ltb_spec (8 * (n - zlen ms - 1)) SIZEOF_U64); [|unfold SIZEOF_U64 in *; lia].
    rewrite (bind_ret _ _ _ _ _ (upd_channel_eq _ _ _ _ H2)). by rewrite Hoff.
Qed.

End tx.
End sending.

(** ** Receiving *)

(** The calls of the client for the messages [ms] of the host [pid]. *)
Definition deliveries (cl : ipclite_client) (pid : Z) (ms : list Z) : list ipc_event :=
  match callback cl with
  | Some cb => if reg_complete cl =? 1 then map (fun m => Callback cb pid m (priv_data cl)) ms else []
  | None => []
  end.

Definition ipc_events (l : list ipc_event) (d : ipc) : ipc :=
  mk_ipc (enabled_hosts d) (partitions d) (feature_mask d) (debug_control d) (ipcmem d) (channel d)
    (hw_tries d) (hw_held d) (synx_client d) (test_client d) (dbg d) (trace d ++ l).

(** The driver after the messages [ms] of FIFO [f] were delivered; [p] is the
    memory of the partition, [t] the new tail and [b] the statistics. *)
Definition drained (f : ipclite_fifo) (p : ipcmem_partition) (cl : ipclite_client) (pid t : Z)
    (ms : list Z) (b : ipclite_debug_struct) (d : ipc) : ipc :=
  ipc_set_dbg b (with_part (fifo_part f) (set_tail f (8 * t) p) (ipc_events (deliveries cl pid ms) d)).

Lemma deliveries_app cl pid ms ms' :
  deliveries cl pid (ms ++ ms') = deliveries cl pid ms ++ deliveries cl pid ms'.
Proof. unfold deliveries. destruct (callback cl), (reg_complete cl =? 1); by rewrite ?map_app. Qed.

Lemma deliveries_nil cl pid : deliveries cl pid [] = [].
Proof. unfold deliveries. by destruct (callback cl), (reg_complete cl =? 1). Qed.

Lemma set_tail_twice f v w p : set_tail f v (set_tail f w p) = set_tail f v p.
Proof. unfold set_tail. cbn. by rewrite zupd_zupd. Qed.

Lemma drained_drained f p cl pid t t' ms ms' b b' d :
  drained f (set_tail f (8 * t) p) cl pid t' ms' b' (drained f p cl pid t ms b d) =
  drained f p cl pid t' (ms ++ ms') b' d.
Proof.
  unfold drained, ipc_set_dbg, with_part, ipc_events, ipc_set_mem, mem_set_partition. cbn.
  by rewrite set_tail_twice, zupd_zupd, deliveries_app, app_assoc.
Qed.

Section receiving.
Context `{E : IpcEnv}.
Context (cl : ipc -> ipclite_client) (Hcl : cl = synx_client \/ cl = test_client).
Implicit Types (d : ipc) (c : Z) (ch : ipclite_channel).

Lemma client_drained f p pid t ms b d : cl (drained f p (cl d) pid t ms b d) = cl d.
Proof. by destruct Hcl as [-> | ->]. Qed.

Lemma rx_avail_eq d c ch f n t ms p : chan_at d c ch -> rx_fifo ch = Some f ->
  part_at d (fifo_part f) p -> fifo_holds f n t ms p ->
  ipclite_rx_avail c d = Ret (8 * zlen ms) d.
Proof.
  intros Hc Hf Hp Hh. unfold ipclite_rx_avail. rewrite (bind_ret _ _ _ _ _ (get_channel_eq _ _ _ Hc)), Hf, bind_deref,
    (bind_ret _ _ _ _ _ (get_part_eq _ _ _ Hp)). by rewrite (rx_avail_holds _ _ _ _ _ Hh).
Qed.

Lemma rx_advance_eq d c ch f p p' : chan_at d c ch -> rx_fifo ch = Some f ->
  part_at d (fifo_part f) p -> rx_advance_tail f SIZEOF_U64 p = Some p' ->
  exists b, ipclite_rx_advance c SIZEOF_U64 d = Ret tt (ipc_set_dbg b (with_part (fifo_part f) p' d)).
Proof.
  intros Hc Hf Hp Ha. unfold ipclite_rx_advance. rewrite (bind_ret _ _ _ _ _ (get_channel_eq _ _ _ Hc)), Hf, bind_deref.
  unfold ipcmem_rx_advance. rewrite (bind_ret _ _ _ _ _ (get_part_eq _ _ _ Hp)), Ha, bind_deref,
    (bind_ret _ _ _ _ _ (put_part_eq _ _ _)). apply upd_dbg_eq.
Qed.

(** One round: whatever word is read is delivered, and the tail moves. *)
Lemma rx_data_step d c ch f p l p' avail : chan_at d c ch -> rx_fifo ch = Some f ->
  part_at d (fifo_part f) p -> SIZEOF_U64 <= avail ->
  ipcmem_rx_peak f (le_bytes 8 0) SIZEOF_U64 p = Some l -> rx_advance_tail f SIZEOF_U64 p = Some p' ->
  exists b, rx_data cl c avail d =
    Ret 0 (ipc_set_dbg b (with_part (fifo_part f) p' (ipc_events (deliveries (cl d) (remote_pid ch) [le_word l]) d))).
Proof.
  intros Hc Hf Hp Ha Hl Hadv. unfold rx_data. destruct (Z.ltb_spec avail SIZEOF_U64); [lia|].
  assert (Hpk : ipclite_rx_peak c (le_bytes 8 0) SIZEOF_U64 d = Ret l d).
  { unfold ipclite_rx_peak. by rewrite (bind_ret _ _ _ _ _ (get_channel_eq _ _ _ Hc)), Hf, bind_deref,
      (bind_ret _ _ _ _ _ (get_part_eq _ _ _ Hp)), Hl. }
  rewrite (bind_ret _ _ _ _ _ Hpk), (bind_ret _ _ _ _ _ (get_channel_eq _ _ _ Hc)), bind_get.
  set (d1 := ipc_events (deliveries (cl d) (remote_pid ch) [le_word l]) d).
  rewrite (bind_ret _ _ d tt d1).
  2:{ unfold d1, deliveries. destruct (reg_complete (cl d) =? 1), (callback (cl d)); try done;
      unfold ipc_events; rewrite app_nil_r; by destruct d. }
  change (ALIGN8 SIZEOF_U64) with SIZEOF_U64.
  destruct (rx_advance_eq d1 c ch f p p') as (b & Hb); [exact Hc|done|exact Hp|done|].
  rewrite (bind_ret _ _ _ _ _ Hb). by exists b.
Qed.

Lemma rx_data_eq d c ch f n t m ms p avail : chan_at d c ch -> rx_fifo ch = Some f ->
  part_at d (fifo_part f) p -> fifo_holds f n t (m :: ms) p -> SIZEOF_U64 <= avail ->
  exists b, rx_data cl c avail d = Ret 0 (drained f p (cl d) (remote_pid ch) (ring n (t + 1)) [m] b d).
Proof.
  intros Hc Hf Hp Hh Ha. destruct (rx_advance_holds f n t p m ms Hh) as (p' & Hadv & _ & ->).
  pose proof (rx_peak_holds f n t (m :: ms) p Hh m ms (le_bytes 8 0) eq_refl) as Hl.
  destruct (rx_data_step d c ch f p _ _ avail Hc Hf Hp Ha Hl Hadv) as (b & Hb). exists b. rewrite Hb.
  rewrite le_word_bytes; [done|]. pose proof (fh_u64 _ _ _ _ _ Hh) as Hu. by apply Forall_cons in Hu as [Hu _].
Qed.

Lemma rx_loop_eq fuel c ch f n ms d p t : chan_at d c ch -> rx_fifo ch = Some f ->
  part_at d (fifo_part f) p -> fifo_holds f n t ms p -> (length ms < fuel)%nat ->
  exists b t', rx_loop fuel (rx_data cl) c d = Ret tt (drained f p (cl d) (remote_pid ch) t' ms b d) /\
    fifo_holds f n t' [] (set_tail f (8 * t') p).
Proof.
  revert fuel d p t. induction ms as [|m ms IH]; intros fuel d p t Hc Hf Hp Hh Hl;
    (destruct fuel as [|fuel]; [cbn [length] in Hl; lia|]); cbn [rx_loop];
    rewrite (bind_ret _ _ _ _ _ (rx_avail_eq _ _ _ _ _ _ _ _ Hc Hf Hp Hh)).
  - change (8 * zlen (@nil Z)) with 0. cbn [Z.ltb]. change (0 <? SIZEOF_U64) with true. cbv iota.
    exists (dbg d), t.
    assert (Hid : set_tail f (8 * t) p = p).
    { destruct Hh as [[] ? Htl _ _ _ _]. unfold get_tail in Htl. unfold set_tail.
      rewrite u32_small by lia. rewrite <- Htl, zupd_id. by destruct p. }
    rewrite Hid. split; [|done]. unfold drained. rewrite Hid, deliveries_nil.
    unfold ipc_events, with_part, ipc_set_mem, mem_set_partition, ipc_set_dbg. cbn.
    destruct Hp as [Hq Hp]. rewrite zupd_lookup_id, app_nil_r by done. destruct d as [? ? ? ? m]. by destruct m.
  - destruct (Z.ltb_spec (8 * zlen (m :: ms)) SIZEOF_U64) as [Hlt|Hge];
      [unfold zlen, SIZEOF_U64 in Hlt; cbn [length] in Hlt; lia|].
    destruct (rx_data_eq d c ch f n t m ms p _ Hc Hf Hp Hh Hge) as (b & Hb).
    rewrite (bind_ret _ _ _ _ _ Hb).
    set (d1 := drained f p (cl d) (remote_pid ch) (ring n (t + 1)) [m] b d) in *.
    destruct (rx_advance_holds f n t p m ms Hh) as (p' & _ & Hh' & ->).
    destruct (IH fuel d1 (set_tail f (8 * ring n (t + 1)) p) (ring n (t + 1))) as (b' & t' & Hr & Hh2);
      [exact Hc|done|by apply (part_at_with d _ p)|done|cbn [length] in Hl; lia|].
    exists b', t'. rewrite Hr. unfold d1 at 1. rewrite client_drained. unfold d1. rewrite drained_drained. split; [done|].
    by rewrite set_tail_twice in Hh2.
Qed.

End receiving.

(** * IPC Lite: a channel between two hosts

    The properties of the message channel, from the lemmas above:
    sending, the interrupt handler, and every interleaving of the driver with
    the remote host, which runs the same FIFO functions from the other side
    ([channel_fifos] with the hosts exchanged). *)

(** A channel that is set up: its two FIFOs are apart, in the partition whose
    header holds the shared status, and hold the messages [out] and [inn]. *)
Record channel_holds (d : ipc) (c : Z) (ch : ipclite_channel) (tx rx : ipclite_fifo) (n : Z)
    (out inn : list Z) : Prop := {
  ck_chan : chan_at d c ch;
  ck_lock : tx_lock ch = false;
  ck_tx : tx_fifo ch = Some tx;
  ck_rx : rx_fifo ch = Some rx;
  ck_same : fifo_part tx = fifo_part rx;
  ck_status : gstatus_ptr ch = Some (fifo_part rx);
  ck_apart : fifos_apart tx rx;
  ck_data : exists p t1 t2, part_at d (fifo_part rx) p /\
    fifo_holds tx n t1 out p /\ fifo_holds rx n t2 inn p
}.

Section link.
Context `{E : IpcEnv}.

(** The status in the shared header of the partition of [rx]. *)
Definition shared_status (d : ipc) (rx : ipclite_fifo) : Z :=
  hdr_status (hdr (default no_partition (partition (ipcmem d) !! Z.to_nat (fifo_part rx)))).

(** The test of the driver: the channel is active here, or set up here and
    active in the shared header. *)
Definition may_send (d : ipc) (ch : ipclite_channel) (rx : ipclite_fifo) : bool :=
  (ch_status ch =? ACTIVE) || (ch_status ch =? IN_PROGRESS) && (shared_status d rx =? ACTIVE).

Lemma may_send_spec d c ch tx rx n out inn : channel_holds d c ch tx rx n out inn ->
  if may_send d ch rx then can_send d ch else cannot_send d ch.
Proof.
  intros [_ _ _ _ _ Hs _ (p & t1 & t2 & Hp & _ & _)]. unfold may_send, shared_status.
  destruct (Hp) as [_ Hlk]. rewrite Hlk. cbn [default from_option id].
  destruct (Z.eqb_spec (ch_status ch) ACTIVE) as [Ha|Ha]; cbn [orb]; [by left|].
  destruct (Z.eqb_spec (ch_status ch) IN_PROGRESS) as [Hi|Hi]; cbn [andb]; [|by split].
  destruct (Z.eqb_spec (hdr_status (hdr p)) ACTIVE) as [Hg|Hg].
  - right. split; [done|]. by exists (fifo_part rx), p.
  - split; [done|]. intros _. by exists (fifo_part rx), p.
Qed.

(** What one call of [ipclite_msg_send] does. *)
Definition send_effect (d : ipc) (c : Z) (ch : ipclite_channel) (tx rx : ipclite_fifo) (n : Z)
    (out inn : list Z) (m ret : Z) (d' : ipc) : Prop :=
  exists ch' out' ev, channel_holds d' c ch' tx rx n out' inn /\ trace d' = trace d ++ ev /\
    remote_pid ch' = remote_pid ch /\ signal_ids ch' = signal_ids ch /\
    synx_client d' = synx_client d /\ test_client d' = test_client d /\
    shared_status d' rx = shared_status d rx /\
    (forall i, i <> c -> 0 <= i -> channel d' !! Z.to_nat i = channel d !! Z.to_nat i) /\
    (forall i, i <> fifo_part rx -> 0 <= i ->
       partition (ipcmem d') !! Z.to_nat i = partition (ipcmem d) !! Z.to_nat i) /\
    if may_send d ch rx then
      ch_status ch' = ACTIVE /\
      if zlen out + 1 <? n
      then ret = 0 /\ out' = out ++ [m] /\ ev = [Mbox (remote_pid ch) IPCLITE_MSG_SIGNAL]
      else ret = - EAGAIN /\ out' = out /\ ev = []
    else ret = - EOPNOTSUPP /\ d' = d.

Lemma tx_write_head_hdr f l p p' : tx_write_head f l p = Some p' -> hdr p' = hdr p.
Proof.
  unfold tx_write_head, ipcmem_tx_write_one. case_if; cbn [mbind option_bind]; [by intros [= <-]|].
  destruct (if truthy _ then _ else _) as [mem|]; cbn [mbind option_bind]; [|done].
  destruct (if _ =? _ then _ else _) as [mem'|]; cbn [mbind option_bind]; [|done]. by intros [= <-].
Qed.

Lemma channel_holds_activated d c ch tx rx n out inn : channel_holds d c ch tx rx n out inn ->
  channel_holds (activated c ch d) c (ch_set_status ACTIVE ch) tx rx n out inn.
Proof. intros []. split; try done. by apply (chan_at_with _ _ ch). Qed.

Lemma activated_other c ch d i : 0 <= c -> i <> c -> 0 <= i ->
  channel (activated c ch d) !! Z.to_nat i = channel d !! Z.to_nat i.
Proof. intros Hc Hi H0. cbn. by rewrite lookup_zupd_ne by auto. Qed.

Lemma msg_send_effect d c ch tx rx n out inn m :
  channel_holds d c ch tx rx n out inn -> c < IPCMEM_NUM_HOSTS -> is_u64 m ->
  exists ret d', ipclite_msg_send c m d = Ret ret d' /\ send_effect d c ch tx rx n out inn m ret d'.
Proof.
  intros Hk Hc Hm. pose proof Hk as [Hch Hlk Htx Hrx Hsame Hgs Hap (p & t1 & t2 & Hp & Hh1 & Hh2)].
  pose proof (may_send_spec _ _ _ _ _ _ _ _ Hk) as Hms. pose proof (proj1 Hch) as Hc0.
  unfold ipclite_msg_send, msg_send.
  destruct (Z.ltb_spec c 0); [lia|]. rewrite Z.geb_leb. destruct (Z.leb_spec IPCMEM_NUM_HOSTS c); [lia|].
  cbn [orb]. unfold send_effect. destruct (may_send d ch rx).
  - assert (Hp' : part_at d (fifo_part tx) p) by (by rewrite Hsame).
    pose proof (ipclite_tx_eq d c ch tx n t1 out p Hch Hlk Htx Hp' Hh1 m IPCLITE_MSG_SIGNAL Hms Hm) as Htxq.
    destruct (Z.ltb_spec (zlen out + 1) n) as [Hn|Hn].
    + destruct Htxq as (b & p' & Hr & Hw & Hh'). rewrite Hr. eexists _, _. split; [done|].
      exists (ch_set_status ACTIVE ch), (out ++ [m]), [Mbox (remote_pid ch) IPCLITE_MSG_SIGNAL].
      assert (Hpart : part_at (with_part (fifo_part tx) p' (activated c ch d)) (fifo_part rx) p').
      { rewrite Hsame. rewrite Hsame in Hp'. apply (part_at_with _ _ p). exact Hp'. }
      split; [|do 5 (split; [done|]); split; [|split; [|split]]].
      * split; try done; [by apply (chan_at_with _ _ ch)|]. exists p', t1, t2. split; [exact Hpart|].
        split; [done|]. eapply (holds_write_other rx tx); try done. by apply fifos_apart_sym.
      * unfold shared_status. destruct Hpart as [_ Hpart]. cbn [ipcmem ipc_event_add ipc_set_dbg].
        rewrite Hpart. destruct Hp as [_ Hp]. rewrite Hp. cbn [default from_option id].
        by rewrite (tx_write_head_hdr _ _ _ _ Hw).
      * intros i Hi Hi0. cbn. by rewrite lookup_zupd_ne by auto.
      * intros i Hi Hi0. cbn. destruct Hp. rewrite lookup_zupd_ne by (rewrite ?Hsame; auto). done.
      * done.
    + rewrite Htxq. eexists _, _. split; [done|]. exists (ch_set_status ACTIVE ch), out, [].
      split; [by apply channel_holds_activated|]. cbn [trace activated with_chan ipc_set_channel].
      rewrite app_nil_r. do 6 (split; [done|]). split; [|done]. intros i Hi Hi0. by apply activated_other.
  - unfold ipclite_tx. rewrite (bind_ret _ _ _ _ _ (check_active_false _ _ _ Hch Hms)).
    eexists _, _. split; [done|]. exists ch, out, []. rewrite app_nil_r. done.
Qed.

(** The client that the handler serves for signal [i] of the channel. *)
Definition served (d : ipc) (ch : ipclite_channel) (i : Z) : option ipclite_client :=
  let s := znth 0 (signal_ids ch) i in
  if s =? IPCLITE_MSG_SIGNAL then Some (synx_client d)
  else if s =? IPCLITE_TEST_SIGNAL then Some (test_client d) else None.

Definition intr_effect (d : ipc) (c : Z) (ch : ipclite_channel) (tx rx : ipclite_fifo) (n : Z)
    (out inn : list Z) (i : Z) (d' : ipc) : Prop :=
  channel d' = channel d /\ synx_client d' = synx_client d /\ test_client d' = test_client d /\
  shared_status d' rx = shared_status d rx /\
  (forall q, q <> fifo_part rx -> 0 <= q ->
     partition (ipcmem d') !! Z.to_nat q = partition (ipcmem d) !! Z.to_nat q) /\
  match served d ch i with
  | Some cl => channel_holds d' c ch tx rx n out [] /\
      trace d' = trace d ++ deliveries cl (remote_pid ch) inn
  | None => channel_holds d' c ch tx rx n out inn /\ trace d' = trace d
  end.

Lemma channel_holds_dbg d c ch tx rx n out inn b :
  channel_holds d c ch tx rx n out inn -> channel_holds (ipc_set_dbg b d) c ch tx rx n out inn.
Proof. intros []. by split. Qed.

Lemma drained_effect cl d0 d c ch tx rx n out inn p t2 t1 t' b :
  chan_at d c ch -> channel_holds d0 c ch tx rx n out inn ->
  channel d = channel d0 -> ipcmem d = ipcmem d0 -> trace d = trace d0 ->
  synx_client d = synx_client d0 -> test_client d = test_client d0 ->
  part_at d (fifo_part rx) p -> fifo_holds tx n t1 out p -> fifo_holds rx n t2 inn p ->
  fifo_holds rx n t' [] (set_tail rx (8 * t') p) ->
  let d' := drained rx p cl (remote_pid ch) t' inn b d in
  channel d' = channel d0 /\ synx_client d' = synx_client d0 /\ test_client d' = test_client d0 /\
  shared_status d' rx = shared_status d0 rx /\
  (forall q, q <> fifo_part rx -> 0 <= q ->
     partition (ipcmem d') !! Z.to_nat q = partition (ipcmem d0) !! Z.to_nat q) /\
  channel_holds d' c ch tx rx n out [] /\ trace d' = trace d0 ++ deliveries cl (remote_pid ch) inn.
Proof.
  intros Hch [H1 H2 H3 H4 H5 H6 H7 H8] Ec Em Et Es Ets Hp Hh1 Hh2 Hh' d'.
  assert (Hpart : part_at d' (fifo_part rx) (set_tail rx (8 * t') p)) by (by apply (part_at_with d _ p)).
  pose proof (proj1 Hp) as Hq0.
  split; [done|]. split; [done|]. split; [done|]. split.
  { unfold shared_status. destruct Hpart as [_ ->]. destruct Hp as [_ Hp]. rewrite <- Em, Hp. done. }
  split.
  { intros q Hq Hq1. unfold d'. cbn. rewrite lookup_zupd_ne by auto. by rewrite Em. }
  split; [|unfold d'; cbn; by rewrite Et].
  split; try done. exists (set_tail rx (8 * t') p), t1, t'. split; [exact Hpart|]. split; [|done].
  by apply holds_set_tail_other.
Qed.

Lemma intr_eq d c ch tx rx n out inn fuel i :
  channel_holds d c ch tx rx n out inn -> (length inn < fuel)%nat ->
  exists d', ipclite_intr fuel c i d = Ret tt d' /\ intr_effect d c ch tx rx n out inn i d'.
Proof.
  intros Hk Hl. pose proof Hk as [Hch Hlk Htx Hrx Hsame Hgs Hap (p & t1 & t2 & Hp & Hh1 & Hh2)].
  unfold ipclite_intr. rewrite (bind_ret _ _ _ _ _ (get_channel_eq _ _ _ Hch)).
  destruct (upd_dbg_eq (dbg_intr (remote_pid ch) (znth 0 (signal_ids ch) i)) d) as (b0 & Hb0).
  rewrite (bind_ret _ _ _ _ _ Hb0). set (d1 := ipc_set_dbg b0 d). unfold intr_effect, served.
  assert (Hch1 : chan_at d1 c ch) by exact Hch. assert (Hp1 : part_at d1 (fifo_part rx) p) by exact Hp.
  destruct (znth 0 (signal_ids ch) i =? IPCLITE_MSG_SIGNAL); [|
    destruct (Z.eqb_spec (znth 0 (signal_ids ch) i) IPCLITE_VERSION_SIGNAL) as [Hv|];
    [rewrite Hv; change (IPCLITE_VERSION_SIGNAL =? IPCLITE_TEST_SIGNAL) with false; cbv iota
    |destruct (znth 0 (signal_ids ch) i =? IPCLITE_TEST_SIGNAL)]].
  - destruct (rx_loop_eq synx_client (or_introl eq_refl) fuel c ch rx n inn d1 p t2 Hch1 Hrx Hp1 Hh2 Hl)
      as (b & t' & Hr & Hh'). eexists. split; [exact Hr|].
    apply (drained_effect (synx_client d1) d d1 c ch tx rx n out inn p t2 t1 t' b); done.
  - exists d1. split; [done|]. repeat (split; [done|]). split; [by apply channel_holds_dbg|done].
  - destruct (rx_loop_eq test_client (or_intror eq_refl) fuel c ch rx n inn d1 p t2 Hch1 Hrx Hp1 Hh2 Hl)
      as (b & t' & Hr & Hh'). eexists. split; [exact Hr|].
    apply (drained_effect (test_client d1) d d1 c ch tx rx n out inn p t2 t1 t' b); done.
  - exists d1. split; [done|]. repeat (split; [done|]). split; [by apply channel_holds_dbg|done].
Qed.

End link.

(** C32: [ipclite_msg_send] to a host whose channel is active (or set up here
    and active in the shared header) appends the message to the FIFO of the
    host and rings its doorbell, unless the FIFO already holds [n - 1]
    messages: then the result is [-EAGAIN] and no message is lost or added.
    On an inactive channel the result is [-EOPNOTSUPP], for a host that does
    not exist [-EINVAL], and nothing changes. The messages in the other
    direction and every other channel and partition are untouched. *)
Theorem msg_send_appends `{E : IpcEnv} (d : ipc) (c m : Z) (ch : ipclite_channel)
    (tx rx : ipclite_fifo) (n : Z) (out inn : list Z)
    (Hk : channel_holds d c ch tx rx n out inn) (Hc : c < IPCMEM_NUM_HOSTS) (Hm : is_u64 m) :
  (exists ret d', ipclite_msg_send c m d = Ret ret d' /\ send_effect d c ch tx rx n out inn m ret d') /\
  (forall c', c' < 0 \/ IPCMEM_NUM_HOSTS <= c' -> ipclite_msg_send c' m d = Ret (- EINVAL) d).
Proof.
  split; [by apply msg_send_effect|]. intros c' Hc'. unfold ipclite_msg_send, msg_send.
  destruct (Z.ltb_spec c' 0); [done|]. rewrite Z.geb_leb. by destruct (Z.leb_spec IPCMEM_NUM_HOSTS c'); [|lia].
Qed.

(** The interrupt handler returns, after as many rounds as there are
    messages: for the message signal it gives every waiting message to the
    registered client, in order, and leaves the FIFO empty; for the test
    signal it does so for the test client; any other signal leaves the
    messages where they are. The messages that wait to be read by the remote
    host and every other partition are untouched. *)
Theorem intr_drains `{E : IpcEnv} (d : ipc) (c i : Z) (ch : ipclite_channel)
    (tx rx : ipclite_fifo) (n : Z) (out inn : list Z) (fuel : nat)
    (Hk : channel_holds d c ch tx rx n out inn) (Hf : (length inn < fuel)%nat) :
  exists d', ipclite_intr fuel c i d = Ret tt d' /\ intr_effect d c ch tx rx n out inn i d'.
Proof. by apply intr_eq. Qed.

(** ** The two hosts of a channel *)

(** The driver with, as the history of the channel, what the remote host has
    read, the messages whose sending succeeded, and what the remote host has
    written. *)
Record link := mk_link {
  drv : ipc;
  remote_in : list Z;
  accepted : list Z;
  remote_out : list Z
}.

(** The messages given to the client, in the order of the calls. *)
Definition delivered (tr : list ipc_event) : list Z :=
  omap (fun e => match e with Callback _ _ m _ => Some m | Mbox _ _ => None end) tr.

(** A step of either host: the driver sends or is interrupted; the remote host
    reads or writes one message with the same FIFO functions, or declares the
    channel active. *)
Inductive link_step `{E : IpcEnv} (c : Z) (rtx rrx : ipclite_fifo) : link -> link -> Prop :=
| link_send s m ret d' :
    is_u64 m -> ipclite_msg_send c m (drv s) = Ret ret d' ->
    link_step c rtx rrx s
      (mk_link d' (remote_in s) (if ret =? 0 then accepted s ++ [m] else accepted s) (remote_out s))
| link_intr s fuel d' :
    ipclite_intr fuel c 0 (drv s) = Ret tt d' ->
    link_step c rtx rrx s (mk_link d' (remote_in s) (accepted s) (remote_out s))
| link_remote_read s p data p' :
    part_at (drv s) (fifo_part rrx) p -> SIZEOF_U64 <= ipcmem_rx_avail rrx p ->
    ipcmem_rx_peak rrx (le_bytes 8 0) SIZEOF_U64 p = Some data ->
    rx_advance_tail rrx SIZEOF_U64 p = Some p' ->
    link_step c rtx rrx s
      (mk_link (with_part (fifo_part rrx) p' (drv s)) (remote_in s ++ [le_word data]) (accepted s) (remote_out s))
| link_remote_write s m p p' :
    is_u64 m -> part_at (drv s) (fifo_part rtx) p -> SIZEOF_U64 <= ipcmem_tx_avail rtx p ->
    tx_write_head rtx (le_bytes 8 m) p = Some p' ->
    link_step c rtx rrx s
      (mk_link (with_part (fifo_part rtx) p' (drv s)) (remote_in s) (accepted s) (remote_out s ++ [m]))
| link_remote_active s p :
    part_at (drv s) (fifo_part rtx) p ->
    link_step c rtx rrx s
      (mk_link (with_part (fifo_part rtx) (set_hdr_status ACTIVE p) (drv s))
         (remote_in s) (accepted s) (remote_out s)).

(** The transmit FIFO of a host is the receive FIFO of the other. *)
Lemma channel_fifos_dual q h pid :
  LOCAL_HOST < pid -> type h <> LOOPBACK_PARTITION_TYPE ->
  channel_fifos q h pid LOCAL_HOST =
    (snd (channel_fifos q h LOCAL_HOST pid), fst (channel_fifos q h LOCAL_HOST pid)).
Proof.
  intros Hp Ht. unfold channel_fifos. destruct (Z.ltb_spec LOCAL_HOST pid), (Z.ltb_spec pid LOCAL_HOST); try lia.
  apply Z.eqb_neq in Ht. by rewrite Ht.
Qed.

Section history.
Context `{E : IpcEnv}.
Context (c : Z) (tx rx : ipclite_fifo) (n : Z) (cl : ipclite_client) (cb : Z).
Context (Hc : c < IPCMEM_NUM_HOSTS) (Hcb : callback cl = Some cb) (Hreg : reg_complete cl = 1).

(** Nothing is lost, repeated or reordered: what was sent is what was received
    followed by what waits in the FIFO. *)
Definition link_ok (s : link) : Prop :=
  exists ch q1 q2, channel_holds (drv s) c ch tx rx n q1 q2 /\
    znth 0 (signal_ids ch) 0 = IPCLITE_MSG_SIGNAL /\ synx_client (drv s) = cl /\
    accepted s = remote_in s ++ q1 /\ remote_out s = delivered (trace (drv s)) ++ q2.

Lemma delivered_app l1 l2 : delivered (l1 ++ l2) = delivered l1 ++ delivered l2.
Proof. apply omap_app. Qed.

Lemma delivered_deliveries pid ms : delivered (deliveries cl pid ms) = ms.
Proof.
  unfold deliveries. rewrite Hcb, Hreg. change (1 =? 1) with true. cbv iota.
  induction ms as [|m ms IH]; [done|]. cbn. f_equal. exact IH.
Qed.

(** The handler at a state of the history. *)
Lemma link_ok_intr d ch q1 q2 fuel :
  channel_holds d c ch tx rx n q1 q2 -> znth 0 (signal_ids ch) 0 = IPCLITE_MSG_SIGNAL ->
  synx_client d = cl -> (length q2 < fuel)%nat ->
  exists d', ipclite_intr fuel c 0 d = Ret tt d' /\ channel_holds d' c ch tx rx n q1 [] /\
    synx_client d' = cl /\ delivered (trace d') = delivered (trace d) ++ q2.
Proof.
  intros Hk Hs Hcl Hf. destruct (intr_eq d c ch tx rx n q1 q2 fuel 0 Hk Hf) as (d' & Hi & _ & Hsy & _ & _ & _ & He).
  exists d'. split; [done|]. unfold served in He. rewrite Hs, Z.eqb_refl in He. destruct He as [Hk' Ht].
  split; [done|]. split; [congruence|]. by rewrite Ht, delivered_app, Hcl, delivered_deliveries.
Qed.

Lemma rx_loop_mono fuel fuel' f d d' : (fuel <= fuel')%nat ->
  rx_loop fuel f c d = Ret tt d' -> rx_loop fuel' f c d = Ret tt d'.
Proof.
  revert fuel' d. induction fuel as [|fuel IH]; intros fuel' d Hle H; [done|].
  destruct fuel' as [|fuel']; [lia|]. cbn [rx_loop] in *. apply bind_inv in H as (a & s1 & Ha & H).
  rewrite (bind_ret _ _ _ _ _ Ha). destruct (a <? SIZEOF_U64); [done|].
  apply bind_inv in H as (r & s2 & Hr & H). rewrite (bind_ret _ _ _ _ _ Hr). apply IH; [lia|done].
Qed.

Lemma intr_mono fuel fuel' i d d' : (fuel <= fuel')%nat ->
  ipclite_intr fuel c i d = Ret tt d' -> ipclite_intr fuel' c i d = Ret tt d'.
Proof.
  intros Hle. unfold ipclite_intr. intros H. apply bind_inv in H as (ch & s1 & Ha & H).
  rewrite (bind_ret _ _ _ _ _ Ha). apply bind_inv in H as ([] & s2 & Hb & H). rewrite (bind_ret _ _ _ _ _ Hb).
  case_ifs; try done; by apply (rx_loop_mono fuel).
Qed.

(** The state of the channel when its partition changes. *)
Lemma channel_holds_part d ch out inn out' inn' p' t1 t2 :
  channel_holds d c ch tx rx n out inn ->
  fifo_holds tx n t1 out' p' -> fifo_holds rx n t2 inn' p' ->
  channel_holds (with_part (fifo_part rx) p' d) c ch tx rx n out' inn'.
Proof.
  intros [H1 H2 H3 H4 H5 H6 H7 (p & _ & _ & Hp & _)] Ho Hi. split; try done.
  exists p', t1, t2. split; [by apply (part_at_with _ _ p)|done].
Qed.

Lemma part_at_inj d q p p' : part_at d q p -> part_at d q p' -> p = p'.
Proof. intros [_ H] [_ H']. congruence. Qed.

Lemma link_step_ok s s' : link_step c rx tx s s' -> link_ok s -> link_ok s'.
Proof.
  intros Hst (ch & q1 & q2 & Hk & Hsig & Hcl & Ha & Ho).
  pose proof Hk as [_ _ _ _ Hsame _ Hap (p0 & t1 & t2 & Hp0 & Hh1 & Hh2)].
  destruct Hst as [s m ret d' Hm Hsend | s fuel d' Hin | s p data p' Hp Hav Hpk Hadv | s m p p' Hm Hp Hav Hw | s p Hp];
    unfold link_ok; cbn [drv remote_in accepted remote_out] in *.
  - destruct (msg_send_effect (drv s) c ch tx rx n q1 q2 m Hk Hc Hm) as (ret1 & d1 & Hs1 & He).
    rewrite Hsend in Hs1. injection Hs1 as <- <-.
    destruct He as (ch' & out' & ev & Hk' & Ht & _ & Hsg & Hsy & _ & _ & _ & _ & Hc1).
    destruct (may_send (drv s) ch rx); [destruct Hc1 as [_ Hc1]; destruct (zlen q1 + 1 <? n)|].
    + destruct Hc1 as (-> & -> & ->). exists ch', (q1 ++ [m]), q2. change (0 =? 0) with true. cbv iota.
      rewrite Hsg, Hsy, Ht, Ha, delivered_app, app_assoc. cbn. by rewrite app_nil_r.
    + destruct Hc1 as (-> & -> & ->). exists ch', q1, q2. rewrite Hsg, Hsy, Ht, app_nil_r. done.
    + destruct Hc1 as (-> & ->). exists ch, q1, q2. done.
  - destruct (link_ok_intr (drv s) ch q1 q2 (S (length q2) `max` fuel) Hk Hsig Hcl) as (d1 & Hi & Hk' & Hcl' & Hd); [lia|].
    assert (d' = d1) as ->.
    { apply (intr_mono fuel (S (length q2) `max` fuel)) in Hin; [|lia]. rewrite Hi in Hin. by injection Hin. }
    exists ch, q1, []. rewrite Hd, app_nil_r. done.
  - rewrite Hsame in Hp |- *. pose proof (part_at_inj _ _ _ _ Hp Hp0) as ->.
    rewrite (rx_avail_holds _ _ _ _ _ Hh1) in Hav.
    destruct q1 as [|m q1]; [change (zlen (@nil Z)) with 0 in Hav; unfold SIZEOF_U64 in Hav; lia|].
    rewrite (rx_peak_holds tx n t1 (m :: q1) p0 Hh1 m q1 _ eq_refl) in Hpk.
    assert (data = le_bytes 8 m) as -> by congruence.
    destruct (rx_advance_holds tx n t1 p0 m q1 Hh1) as (p1 & Ha1 & Hh1' & Heq). rewrite Hadv in Ha1. injection Ha1 as <-.
    assert (is_u64 m) by (pose proof (fh_u64 _ _ _ _ _ Hh1) as Hu; by apply Forall_cons in Hu as [Hu _]).
    exists ch, q1, q2. split; [|split; [done|split; [done|split; [|done]]]].
    + apply (channel_holds_part _ _ _ _ _ _ _ _ t2 Hk Hh1'). rewrite Heq.
      apply holds_set_tail_other; [by apply fifos_apart_sym|done].
    + rewrite le_word_bytes by (unfold is_u64 in *; lia). by rewrite Ha, <- app_assoc.
  - pose proof (part_at_inj _ _ _ _ Hp Hp0) as ->. rewrite (tx_avail_holds _ _ _ _ _ Hh2) in Hav.
    assert (Hr : zlen q2 + 1 < n) by (unfold SIZEOF_U64 in Hav; lia).
    destruct (tx_write_holds rx n t2 p0 m q2 Hh2 Hm Hr) as (p1 & mem & Hw1 & Hh2' & _). rewrite Hw in Hw1. injection Hw1 as <-.
    exists ch, q1, (q2 ++ [m]). split; [|split; [done|split; [done|split; [done|]]]].
    + apply (channel_holds_part _ _ _ _ _ _ _ t1 t2 Hk); [|exact Hh2'].
      by apply (holds_write_other tx rx n n t1 t2 q1 q2 m p0).
    + by rewrite Ho, <- app_assoc.
  - pose proof (part_at_inj _ _ _ _ Hp Hp0) as ->. exists ch, q1, q2.
    split; [|done]. by apply (channel_holds_part _ _ _ _ _ _ _ t1 t2 Hk); apply holds_hdr.
Qed.

End history.

(** C34: over every interleaving of the driver with the remote host, which
    runs the same FIFO functions from the other side, the messages of each
    direction arrive once and in the order of sending: what was accepted is
    what the remote host has read followed by what waits, what the remote
    host wrote is what the client was given followed by what waits, never
    more than [n - 1] messages wait, and the next interrupt delivers all that
    the remote host has written. *)
Theorem messages_in_order `{E : IpcEnv} (d : ipc) (c q pid n cb : Z) (h : ipcmem_partition_header)
    (ch : ipclite_channel) (s : link)
    (local := channel_fifos q h LOCAL_HOST pid) (remote := channel_fifos q h pid LOCAL_HOST)
    (Hc : c < IPCMEM_NUM_HOSTS) (Hpid : LOCAL_HOST < pid) (Ht : type h <> LOOPBACK_PARTITION_TYPE)
    (Hk : channel_holds d c ch (fst local) (snd local) n [] [])
    (Hsig : znth 0 (signal_ids ch) 0 = IPCLITE_MSG_SIGNAL)
    (Hcb : callback (synx_client d) = Some cb) (Hreg : reg_complete (synx_client d) = 1)
    (Htr : delivered (trace d) = [])
    (Hrun : rtc (link_step c (fst remote) (snd remote)) (mk_link d [] [] []) s) :
  exists out inn,
    accepted s = remote_in s ++ out /\ remote_out s = delivered (trace (drv s)) ++ inn /\
    zlen out < n /\ zlen inn < n /\
    forall fuel, (length inn < fuel)%nat ->
      exists d', ipclite_intr fuel c 0 (drv s) = Ret tt d' /\ delivered (trace d') = remote_out s.
Proof.
  unfold remote in Hrun. rewrite (channel_fifos_dual q h pid Hpid Ht) in Hrun. cbn [fst snd] in Hrun.
  fold local in Hrun. set (cl := synx_client d) in *.
  assert (Hok : link_ok c (fst local) (snd local) n cl s).
  { remember (mk_link d [] [] []) as s0 eqn:Hs0.
    assert (H0 : link_ok c (fst local) (snd local) n cl s0).
    { subst s0. exists ch, [], []. cbn [drv remote_in accepted remote_out]. by rewrite Htr. }
    clear Hs0. induction Hrun as [|x y z Hxy _ IH]; [done|]. apply IH.
    by apply (link_step_ok c (fst local) (snd local) n cl cb Hc Hcb Hreg x). }
  destruct Hok as (ch' & out & inn & Hk' & Hsig' & Hcl & Ha & Ho). exists out, inn.
  destruct (ck_data _ _ _ _ _ _ _ _ Hk') as (p & t1 & t2 & _ & Hh1 & Hh2).
  split; [done|]. split; [done|]. split; [apply (fh_room _ _ _ _ _ Hh1)|].
  split; [apply (fh_room _ _ _ _ _ Hh2)|]. intros fuel Hf.
  destruct (link_ok_intr c _ _ n cl cb Hcb Hreg (drv s) ch' out inn fuel Hk' Hsig' Hcl Hf) as (d' & Hi & _ & _ & Hd).
  exists d'. split; [done|]. by rewrite Hd.
Qed.

(** ** Witnesses: a channel with FIFOs of four slots *)

#[local] Instance demo_ipc_env : IpcEnv := {| hwlock_answer _ held := if held then 1 else 0; mbox_answer _ _ _ := 0 |}.

Definition demo_hdr : ipcmem_partition_header := mk_hdr 0 0 0 0 32 32 32 ACTIVE.
Definition demo_fifos : ipclite_fifo * ipclite_fifo := channel_fifos 0 demo_hdr LOCAL_HOST 5.
Definition demo_part : ipcmem_partition := mk_part demo_hdr [0; 0; 0; 0] (replicate 64 0).
(** One message, 7, waits for the driver. *)
Definition demo_part7 : ipcmem_partition :=
  mk_part demo_hdr [0; 0; 0; 8] (replicate 32 0 ++ le_bytes 8 7 ++ replicate 24 0).
Definition demo_chan : ipclite_channel :=
  mk_chan 5 (Some (fst demo_fifos)) (Some (snd demo_fifos)) false [0; 1; 2; 3; 4; 5] (Some 0) IN_PROGRESS.
Definition demo_ipc (p : ipcmem_partition) : ipc :=
  mk_ipc 33 1 1 0
    (mem_set_entries [mk_entry 0 DEFAULT_PARTITION_SIZE 3 0 5] (mem_set_partition [p] (blank_mem 65536)))
    (replicate 5 zero_channel ++ [demo_chan] ++ replicate 3 zero_channel) 0 false
    (mk_client (Some 1) 0 1) (mk_client None 0 0)
    (mk_dbg (mk_dio 0 0 0 0 0 0) (replicate 9 zero_dih)) [].

Lemma demo_wf p : zlen (descs p) = 4 -> zlen (bytes p) = 64 ->
  fifo_wf (fst demo_fifos) 4 p /\ fifo_wf (snd demo_fifos) 4 p.
Proof. intros Hd Hb. split; split; rewrite ?Hd, ?Hb; vm_compute; try done; lia. Qed.

Lemma demo_empty : channel_holds (demo_ipc demo_part) 5 demo_chan (fst demo_fifos) (snd demo_fifos) 4 [] [].
Proof.
  destruct (demo_wf demo_part) as [W1 W2]; [done..|]. split; try done.
  - split; [by vm_compute|]. left. by vm_compute.
  - exists demo_part, 0, 0. split; [done|]. split; by apply holds_empty.
Qed.

Lemma demo_holds7 : channel_holds (demo_ipc demo_part7) 5 demo_chan (fst demo_fifos) (snd demo_fifos) 4 [] [7].
Proof.
  destruct (demo_wf demo_part7) as [W1 W2]; [done..|]. split; try done.
  - split; [by vm_compute|]. left. by vm_compute.
  - exists demo_part7, 0, 0. split; [done|]. split; [by apply holds_empty|]. split; try done.
    + apply Forall_singleton. by vm_compute.
    + intros [|k] m Hk; [injection Hk as <-; vm_compute; reflexivity|done].
Qed.

Lemma msg_send_appends_witness :
  exists ret d', ipclite_msg_send 5 77 (demo_ipc demo_part) = Ret ret d' /\
    send_effect (demo_ipc demo_part) 5 demo_chan (fst demo_fifos) (snd demo_fifos) 4 [] [] 77 ret d'.
Proof.
  refine (proj1 (msg_send_appends (demo_ipc demo_part) 5 77 demo_chan (fst demo_fifos) (snd demo_fifos) 4 [] []
    demo_empty _ _)); by vm_compute.
Defined.

Lemma intr_drains_witness :
  exists d', ipclite_intr 2 5 0 (demo_ipc demo_part7) = Ret tt d' /\
    intr_effect (demo_ipc demo_part7) 5 demo_chan (fst demo_fifos) (snd demo_fifos) 4 [] [7] 0 d'.
Proof.
  refine (intr_drains (demo_ipc demo_part7) 5 0 demo_chan (fst demo_fifos) (snd demo_fifos) 4 [] [7] 2 demo_holds7 _).
  cbn. lia.
Defined.

(** The remote host writes 7, and the client has not been called yet. *)
Lemma messages_in_order_witness :
  exists out inn : list Z, [] = [] ++ out /\ [7] = [] ++ inn /\ zlen out < 4 /\ zlen inn < 4 /\
    forall fuel, (length inn < fuel)%nat ->
      exists d', ipclite_intr fuel 5 0 (with_part 0 demo_part7 (demo_ipc demo_part)) = Ret tt d' /\
        delivered (trace d') = [7].
Proof.
  refine (messages_in_order (demo_ipc demo_part) 5 0 5 4 1 demo_hdr demo_chan
    (mk_link (with_part 0 demo_part7 (demo_ipc demo_part)) [] [] [7]) _ _ _ demo_empty _ _ _ _ _); try done.
  apply rtc_once. refine (link_remote_write 5 _ _ (mk_link (demo_ipc demo_part) [] [] []) 7 demo_part demo_part7 _ _ _ _);
    try done; by vm_compute.
Defined.

(** Concrete runs: a message is sent and read back by the remote host, and the
    FIFO of four slots takes three. *)
Example send_runs :
  match ipclite_msg_send 5 77 (demo_ipc demo_part) with
  | Ret ret d => (ret, le_word <$> ipcmem_rx_peak (fst demo_fifos) (le_bytes 8 0) 8
                        (znth no_partition (partition (ipcmem d)) 0), trace d)
  | _ => (1, None, [])
  end = (0, Some 77, [Mbox 5 0]).
Proof. vm_compute. reflexivity. Qed.

Example fourth_message_refused :
  match (ipclite_msg_send 5 1;; ipclite_msg_send 5 2;; ipclite_msg_send 5 3;; ipclite_msg_send 5 4)
          (demo_ipc demo_part) with
  | Ret ret _ => ret
  | _ => 0
  end = - EAGAIN.
Proof. vm_compute. reflexivity. Qed.
