(* ===== verification/IpcliteInit.v ===== *)
(** * IPC Lite: set-up of the channels

    [ipclite_channel_init] either makes a channel of the partition of the two
    hosts, with two empty FIFOs, or leaves it inactive, so that nothing can be
    sent on it. The file also shows what a corrupted index does to the
    interrupt handler. *)

From S2P Require Import Prelude Outcome IpcHosts IpcliteMem IpcliteFifo Ipclite IpcliteLink.

(** ** The FIFOs of a partition *)

(** The number of messages of a FIFO of 8 KB. *)
Definition FIFO_SLOTS : Z := DEFAULT_FIFO0_SIZE / SIZEOF_U64.

Lemma zlen_zeros k : 0 <= k -> zlen (replicate (Z.to_nat k) 0) = k.
Proof. intros H. rewrite zlen_replicate. lia. Qed.

Lemma default_regions p pid : LOCAL_HOST < pid ->
  let '(tx, rx) := channel_fifos p default_partition_hdr LOCAL_HOST pid in
  fifos_apart tx rx /\ fifo_part tx = p /\ fifo_part rx = p /\
  (forall x, zlen (descs x) = 4 -> zlen (bytes x) = DEFAULT_PARTITION_SIZE ->
     fifo_wf tx FIFO_SLOTS x /\ fifo_wf rx FIFO_SLOTS x).
Proof.
  intros Hp. unfold channel_fifos. destruct (Z.ltb_spec LOCAL_HOST pid); [|lia].
  change (type default_partition_hdr =? LOOPBACK_PARTITION_TYPE) with false. cbv iota.
  split; [|split; [done|split; [done|]]].
  - split; [by vm_compute|]. left. by vm_compute.
  - intros x Hd Hb. split; split; cbn [fifo fifo_length tail head]; rewrite ?Hd, ?Hb; vm_compute; try done; lia.
Qed.

Lemma loopback_regions p :
  let '(tx, rx) := channel_fifos p loopback_partition_hdr LOCAL_HOST IPCMEM_APPS in
  tx = rx /\ fifo_part tx = p /\
  (forall x, zlen (descs x) = 4 -> zlen (bytes x) = DEFAULT_PARTITION_SIZE -> fifo_wf tx FIFO_SLOTS x).
Proof.
  cbn -[Z.mul]. split; [done|]. split; [done|]. intros x Hd Hb.
  split; cbn [fifo fifo_length tail head]; rewrite ?Hd, ?Hb; vm_compute; try done; lia.
Qed.

(** ** The signals of a channel *)

Definition ch_set_signals (l : list Z) (c : ipclite_channel) : ipclite_channel :=
  mk_chan (remote_pid c) (tx_fifo c) (rx_fifo c) (tx_lock c) l (gstatus_ptr c) (ch_status c).

(** A signal whose registration, property, mailbox and interrupt are granted. *)
Definition irq_ok (n : irq_node) : Prop :=
  in_register n = 0 /\ fst (in_index n) = 0 /\ 0 <= snd (in_index n) < MAX_CHANNEL_SIGNALS /\
  in_mbox n = None /\ in_irq n = 0.

Definition signals_of (l : list irq_node) (ids : list Z) : list Z :=
  fold_left (fun ids n => zupd ids (snd (in_index n)) (snd (in_index n))) l ids.

Section init.
Context `{E : IpcEnv}.

Lemma irq_inits_ok c l d ch : Forall irq_ok l -> chan_at d c ch ->
  irq_inits c l 0 d = Ret 0 (with_chan c (ch_set_signals (signals_of l (signal_ids ch)) ch) d).
Proof.
  revert d ch. induction l as [|n l IH]; intros d ch Hl Hc; cbn [irq_inits].
  - replace (ch_set_signals _ ch) with ch by (by destruct ch). by rewrite with_chan_id.
  - apply Forall_cons in Hl as [(H1 & H2 & H3 & H4 & H5) Hl]. destruct n as [r [ri i] mb irq].
    cbn [in_register in_index in_mbox in_irq fst snd] in *. subst.
    assert (Hn : ipclite_channel_irq_init c (mk_irq_node 0 (0, i) None 0) d =
      Ret 0 (with_chan c (ch_set_signal i i ch) d)).
    { unfold ipclite_channel_irq_init. cbn [in_register in_index in_mbox in_irq].
      change (truthy 0) with false. cbv iota. rewrite bind_guard.
      2:{ apply andb_true_intro. split; [apply Z.leb_le|apply Z.ltb_lt]; lia. }
      by rewrite (bind_ret _ _ _ _ _ (upd_channel_eq _ _ _ _ Hc)). }
    rewrite (bind_ret _ _ _ _ _ Hn). change (truthy 0) with false. cbv iota.
    rewrite (IH _ (ch_set_signal i i ch)) by (done || by apply (chan_at_with _ _ ch)).
    by rewrite with_chan_twice.
Qed.

(** The interrupt of signal [i] then carries [i]. *)
Lemma signals_of_lookup l ids i : zlen ids = MAX_CHANNEL_SIGNALS -> Forall irq_ok l ->
  znth 0 (signals_of l ids) i =
    if bool_decide (i ∈ map (fun n => snd (in_index n)) l) then i else znth 0 ids i.
Proof.
  revert ids. induction l as [|n l IH]; intros ids Hz Hl; [done|].
  apply Forall_cons in Hl as [(_ & _ & Hi & _) Hl]. cbn [signals_of fold_left map].
  fold (signals_of l (zupd ids (snd (in_index n)) (snd (in_index n)))).
  rewrite IH by (by rewrite ?zlen_zupd). case_bool_decide as H1; case_bool_decide as H2; try done.
  - destruct H2. by right.
  - apply elem_of_cons in H2 as [->|]; [|done]. by rewrite znth_zupd_eq by lia.
  - rewrite znth_zupd_ne; [done|]. intros <-. apply H2. by left.
Qed.

(** ** The set-up *)

(** The channel and the partition after the assignments that precede the
    set-up of the signals. *)
Definition half_chan (pid p : Z) (tx rx : ipclite_fifo) (ids : list Z) (st : Z) : ipclite_channel :=
  mk_chan pid (Some tx) (Some rx) false ids (Some p) st.

Definition half_part (tx rx : ipclite_fifo) (x : ipcmem_partition) : ipcmem_partition :=
  set_head tx 0 (set_tail rx 0 x).

Section one_channel.
Context (d : ipc) (pid p : Z) (ch0 : ipclite_channel) (x : ipcmem_partition).
Context (Hpid : 0 <= pid < IPCMEM_NUM_HOSTS)
  (Hget : get_ipcmem_partition_hdr (partitions d) (ipcmem d) LOCAL_HOST pid = Some p)
  (Hx : part_at d p x) (Hch : chan_at d pid ch0).

Lemma channel_init_irqs irqs tx rx : channel_fifos p (hdr x) LOCAL_HOST pid = (tx, rx) ->
  ipclite_channel_init (mk_channel_node 0 (0, pid) true irqs) d =
  (ret ← irq_inits pid irqs 0;
   if truthy ret then channel_error pid ret else
   let st := if pid =? IPCMEM_APPS then ACTIVE else IN_PROGRESS in
   x ← get_part p;
   put_part p (set_hdr_status st x);;
   upd_channel pid (ch_set_status st);;
   mret ret)
    (with_chan pid (half_chan pid p tx rx (signal_ids ch0) (ch_status ch0))
       (with_part p (half_part tx rx x) d)).
Proof.
  intros Hf. unfold ipclite_channel_init. cbn [cn_register cn_remote_pid cn_alloc cn_irqs negb].
  change (truthy 0) with false. cbv iota. rewrite bind_get, Hget, (bind_ret _ _ _ _ _ (get_part_eq _ _ _ Hx)), Hf.
  rewrite (bind_ret _ _ _ _ _ (put_part_eq _ _ _)).
  assert (Hc1 : chan_at (with_part p (half_part tx rx x) d) pid ch0) by exact Hch.
  unfold half_part in *. rewrite (bind_ret _ _ _ _ _ (get_channel_eq _ _ _ Hc1)).
  by rewrite (bind_ret _ _ _ _ _ (put_channel_eq _ _ _ (proj1 Hpid))).
Qed.

(** The state after a set-up that succeeds. *)
Definition init_status : Z := if pid =? IPCMEM_APPS then ACTIVE else IN_PROGRESS.
Definition init_done_state (irqs : list irq_node) (tx rx : ipclite_fifo) : ipc :=
  with_chan pid (half_chan pid p tx rx (signals_of irqs (signal_ids ch0)) init_status)
    (with_part p (set_hdr_status init_status (half_part tx rx x)) d).

Lemma channel_init_ok irqs tx rx : channel_fifos p (hdr x) LOCAL_HOST pid = (tx, rx) -> Forall irq_ok irqs ->
  ipclite_channel_init (mk_channel_node 0 (0, pid) true irqs) d = Ret 0 (init_done_state irqs tx rx).
Proof.
  intros Hf Hi. rewrite (channel_init_irqs irqs tx rx Hf).
  set (d1 := with_chan pid _ _).
  assert (Hc1 : chan_at d1 pid (half_chan pid p tx rx (signal_ids ch0) (ch_status ch0)))
    by (by apply (chan_at_with _ _ ch0)).
  rewrite (bind_ret _ _ _ _ _ (irq_inits_ok _ _ _ _ Hi Hc1)). change (truthy 0) with false. cbv iota zeta.
  fold init_status. set (d2 := with_chan pid _ d1).
  assert (Hp2 : part_at d2 p (half_part tx rx x)) by (by apply (part_at_with d _ x)).
  rewrite (bind_ret _ _ _ _ _ (get_part_eq _ _ _ Hp2)), (bind_ret _ _ _ _ _ (put_part_eq _ _ _)).
  assert (Hc2 : chan_at (with_part p (set_hdr_status init_status (half_part tx rx x)) d2) pid
    (half_chan pid p tx rx (signals_of irqs (signal_ids ch0)) (ch_status ch0)))
    by (by apply (chan_at_with d1 _ _ _ Hc1)).
  rewrite (bind_ret _ _ _ _ _ (upd_channel_eq _ _ _ _ Hc2)). unfold mret, run_ret. f_equal.
  unfold init_done_state, d2, d1, with_chan, with_part, ipc_set_channel, ipc_set_mem, mem_set_partition. cbn.
  rewrite !zupd_zupd. unfold half_chan, init_status, ch_set_status. cbn. by destruct (pid =? IPCMEM_APPS).
Qed.

(** A channel that could not be set up is inactive. *)
Lemma inactive_refuses d' ch m : chan_at d' pid ch -> ch_status ch = INACTIVE ->
  ipclite_msg_send pid m d' = Ret (- EOPNOTSUPP) d'.
Proof.
  intros Hc Hs. unfold ipclite_msg_send, msg_send. rewrite Z.geb_leb.
  destruct (Z.ltb_spec pid 0), (Z.leb_spec IPCMEM_NUM_HOSTS pid); try lia. cbn [orb]. unfold ipclite_tx.
  assert (Hn : cannot_send d' ch) by (split; rewrite Hs; done).
  by rewrite (bind_ret _ _ _ _ _ (check_active_false d' pid ch Hc Hn)).
Qed.

Lemma channel_error_eq d' ch ret : chan_at d' pid ch ->
  exists d'', channel_error pid ret d' = Ret ret d'' /\
    chan_at d'' pid (ch_set_status INACTIVE ch) /\ trace d'' = trace d'.
Proof.
  intros Hc. unfold channel_error. rewrite (bind_ret _ _ _ _ _ (upd_channel_eq _ _ _ _ Hc)).
  eexists. split; [done|]. split; [by apply (chan_at_with _ _ ch)|done].
Qed.

Lemma irq_inits_fail l1 n l2 d' ch : Forall irq_ok l1 -> in_register n <> 0 -> chan_at d' pid ch ->
  exists d'' ch', irq_inits pid (l1 ++ n :: l2) 0 d' = Ret (in_register n) d'' /\ chan_at d'' pid ch'.
Proof.
  intros Hl Hn. revert d' ch. induction l1 as [|n1 l1 IH]; intros d' ch Hc; cbn [app irq_inits].
  - unfold ipclite_channel_irq_init. assert (Ht : truthy (in_register n) = true) by (unfold truthy; destruct (Z.eqb_spec (in_register n) 0); done).
    rewrite Ht. rewrite (bind_ret _ _ _ _ _ (eq_refl : (mret (in_register n) : M Z) d' = _)), Ht. by exists d', ch.
  - apply Forall_cons in Hl as [Hn1 Hl].
    pose proof (irq_inits_ok pid [n1] d' ch ltac:(by apply Forall_singleton) Hc) as H1. cbn [irq_inits] in H1.
    apply bind_inv in H1 as (r & s1 & Hr & H1). destruct (truthy r) eqn:Ht.
    + injection H1 as -> _. done.
    + injection H1 as -> ->. rewrite (bind_ret _ _ _ _ _ Hr), Ht.
      apply (IH Hl _ _ (chan_at_with _ _ ch _ Hc)).
Qed.

End one_channel.
End init.

Lemma part_zeros_wf q x pid : LOCAL_HOST < pid -> zlen (descs x) = 4 -> zlen (bytes x) = DEFAULT_PARTITION_SIZE ->
  let '(tx, rx) := channel_fifos q default_partition_hdr LOCAL_HOST pid in
  fifos_apart tx rx /\ fifo_part tx = q /\ fifo_part rx = q /\ fifo_wf tx FIFO_SLOTS x /\ fifo_wf rx FIFO_SLOTS x.
Proof.
  intros Hp Hd Hb. pose proof (default_regions q pid Hp) as H. destruct (channel_fifos _ _ _ _) as [tx rx].
  destruct H as (Ha & Ht & Hr & Hw). by destruct (Hw x Hd Hb).
Qed.

(** The words of a fresh partition stay zero. *)
Lemma half_part_fresh tx rx hs : half_part tx rx (fresh_partition hs) = fresh_partition hs.
Proof.
  unfold half_part, set_head, set_tail, fresh_partition. cbn [hdr descs bytes]. f_equal.
  assert (Hz : forall i, zupd [0; 0; 0; 0] i (u32 0) = [0; 0; 0; 0]).
  { intros i. unfold zupd. destruct (i <? 0); [done|].
    by destruct (Z.to_nat i) as [|[|[|[|[|k]]]]]. }
  by rewrite !Hz.
Qed.

Lemma fresh_zeros hs st i : znth 0 (descs (set_hdr_status st (fresh_partition hs))) i = 0.
Proof.
  cbn [set_hdr_status descs fresh_partition]. unfold znth. destruct (i <? 0); [done|].
  by destruct (Z.to_nat i) as [|[|[|[|[|k]]]]].
Qed.

(** The channel of [pid] is ready, its FIFOs are empty. *)
Definition channel_ready (d : ipc) (pid p : Z) (d' : ipc) (ch' : ipclite_channel) : Prop :=
  remote_pid ch' = pid /\
  if pid =? IPCMEM_APPS then
    ch_status ch' = ACTIVE /\ exists f x, tx_fifo ch' = Some f /\ rx_fifo ch' = Some f /\
      chan_at d' pid ch' /\ part_at d' (fifo_part f) x /\ fifo_holds f FIFO_SLOTS 0 [] x
  else
    ch_status ch' = IN_PROGRESS /\
    let '(tx, rx) := channel_fifos p default_partition_hdr LOCAL_HOST pid in
    channel_holds d' pid ch' tx rx FIFO_SLOTS [] [] /\ may_send d' ch' rx = false.

Lemma init_done_ready d pid p ch0 ids tx rx :
  0 <= pid -> part_at d p (fresh_partition (LOCAL_HOST, pid)) -> chan_at d pid ch0 ->
  channel_fifos p (pair_hdr (LOCAL_HOST, pid)) LOCAL_HOST pid = (tx, rx) ->
  let st := init_status pid in
  let ch' := half_chan pid p tx rx ids st in
  channel_ready d pid p
    (with_chan pid ch' (with_part p (set_hdr_status st (half_part tx rx (fresh_partition (LOCAL_HOST, pid)))) d)) ch'.
Proof.
  intros Hpid Hp Hc Hf. cbn zeta. rewrite half_part_fresh. set (x' := set_hdr_status _ _). set (d' := with_chan _ _ _).
  assert (Hx' : part_at d' p x') by (by apply (part_at_with d _ (fresh_partition (LOCAL_HOST, pid)))).
  assert (Hc' : chan_at d' pid (half_chan pid p tx rx ids (init_status pid)))
    by (by apply (chan_at_with (with_part p x' d) _ ch0)).
  assert (Hd4 : zlen (descs x') = 4) by done.
  assert (Hb : zlen (bytes x') = DEFAULT_PARTITION_SIZE).
  { unfold x'. cbn [set_hdr_status bytes fresh_partition]. apply zlen_zeros. by vm_compute. }
  assert (Hz : forall i, znth 0 (descs x') i = 0) by (intros i; apply fresh_zeros).
  assert (Hst : hdr_status (hdr x') = u32 (init_status pid)) by reflexivity.
  clearbody x' d'. clear Hp Hc.
  split; [reflexivity|]. unfold pair_hdr in Hf. cbn [fst snd] in Hf. unfold init_status in *.
  change LOCAL_HOST with IPCMEM_APPS in *. rewrite Z.eqb_sym in Hf.
  destruct (Z.eqb_spec pid IPCMEM_APPS) as [->|Hne].
  - split; [done|]. pose proof (loopback_regions p) as Hl.
    change LOCAL_HOST with IPCMEM_APPS in Hl. rewrite Hf in Hl. destruct Hl as (<- & Ht & Hw).
    exists tx, x'. do 3 (split; [done|]). rewrite Ht. split; [done|].
    apply holds_empty; [by apply Hw|by vm_compute|apply Hz|apply Hz].
  - split; [done|]. change IPCMEM_APPS with LOCAL_HOST in *. rewrite Hf.
    assert (Hlt : LOCAL_HOST < pid) by (unfold LOCAL_HOST, IPCMEM_APPS in *; lia).
    pose proof (part_zeros_wf p x' pid Hlt Hd4 Hb) as Hw. rewrite Hf in Hw. destruct Hw as (Ha & Ht & Hr & Hw1 & Hw2).
    split.
    + split; try done; [by rewrite Ht, Hr|by rewrite Hr|]. exists x', 0, 0. rewrite Hr. split; [done|].
      split; (apply holds_empty; [done|by vm_compute|apply Hz|apply Hz]).
    + unfold may_send. cbn [ch_status half_chan]. unfold shared_status. rewrite Hr.
      destruct Hx' as [_ ->]. cbn [default from_option id]. rewrite Hst. done.
Qed.

(** Setting up the channel of a host whose partition is fresh either
    succeeds, and then the channel has two empty FIFOs of 1024 slots that
    share nothing (one FIFO for the loopback channel), every signal is
    recognised by its number, the loopback channel is active and any other
    channel waits for the remote host; or it fails, for want of memory, of a
    partition or of a signal, and then nothing can be sent on the channel. No
    message is sent and no other channel is touched in either case. *)
Theorem channel_init_correct `{E : IpcEnv} (d : ipc) (pid p : Z) (ch0 : ipclite_channel)
    (irqs : list irq_node)
    (Hpid : 0 <= pid < IPCMEM_NUM_HOSTS)
    (Hget : get_ipcmem_partition_hdr (partitions d) (ipcmem d) LOCAL_HOST pid = Some p)
    (Hx : part_at d p (fresh_partition (LOCAL_HOST, pid))) (Hch : chan_at d pid ch0)
    (Hids : zlen (signal_ids ch0) = MAX_CHANNEL_SIGNALS) (Hirqs : Forall irq_ok irqs) :
  (exists d' ch', ipclite_channel_init (mk_channel_node 0 (0, pid) true irqs) d = Ret 0 d' /\
     channel_ready d pid p d' ch' /\
     (forall n, n ∈ irqs -> znth 0 (signal_ids ch') (snd (in_index n)) = snd (in_index n)) /\
     trace d' = trace d /\
     (forall c, 0 <= c -> c <> pid -> channel d' !! Z.to_nat c = channel d !! Z.to_nat c)) /\
  (forall pid' alloc irqs' ch, 0 <= pid' < IPCMEM_NUM_HOSTS -> chan_at d pid' ch ->
     alloc = false \/ get_ipcmem_partition_hdr (partitions d) (ipcmem d) LOCAL_HOST pid' = None ->
     exists d', ipclite_channel_init (mk_channel_node 0 (0, pid') alloc irqs') d = Ret (- ENOMEM) d' /\
       trace d' = trace d /\ forall m, ipclite_msg_send pid' m d' = Ret (- EOPNOTSUPP) d') /\
  (forall bad rest, in_register bad <> 0 ->
     exists d', ipclite_channel_init (mk_channel_node 0 (0, pid) true (irqs ++ bad :: rest)) d = Ret (in_register bad) d' /\
       forall m, ipclite_msg_send pid m d' = Ret (- EOPNOTSUPP) d').
Proof.
  destruct (channel_fifos p (hdr (fresh_partition (LOCAL_HOST, pid))) LOCAL_HOST pid) as [tx rx] eqn:Hf.
  split; [|split].
  - rewrite (channel_init_ok d pid p ch0 _ Hpid Hget Hx Hch irqs tx rx Hf Hirqs). eexists _, _.
    split; [done|]. split; [apply (init_done_ready d pid p ch0); (done || lia)|]. split; [|split; [done|]].
    + intros n Hn. cbn [signal_ids half_chan]. rewrite signals_of_lookup by done.
      rewrite bool_decide_true; [done|]. by apply (list_elem_of_fmap_2 (fun n => snd (in_index n))).
    + intros c Hc Hne. cbn. by rewrite lookup_zupd_ne by (lia || auto).
  - intros pid' alloc irqs' ch Hp' Hc Hno. unfold ipclite_channel_init. cbn [cn_register cn_remote_pid cn_alloc].
    change (truthy 0) with false. cbv iota.
    destruct (channel_error_eq pid' d ch (- ENOMEM) Hc) as (d1 & Hr & Hc1 & Ht).
    assert (Hsend : forall m, ipclite_msg_send pid' m d1 = Ret (- EOPNOTSUPP) d1)
      by (intros m; by apply (inactive_refuses pid' Hp' d1 (ch_set_status INACTIVE ch))).
    destruct alloc; cbn [negb]; [|by exists d1].
    destruct Hno as [|Hno]; [done|]. rewrite bind_get, Hno. by exists d1.
  - intros bad rest Hbad. rewrite (channel_init_irqs d pid p ch0 _ Hpid Hget Hx Hch _ tx rx Hf).
    set (d1 := with_chan pid _ _).
    assert (Hc1 : chan_at d1 pid (half_chan pid p tx rx (signal_ids ch0) (ch_status ch0)))
      by (by apply (chan_at_with _ _ ch0)).
    destruct (irq_inits_fail pid irqs bad rest d1 _ Hirqs Hbad Hc1) as (d2 & ch2 & Hi & Hc2).
    rewrite (bind_ret _ _ _ _ _ Hi).
    assert (Htr : truthy (in_register bad) = true) by (unfold truthy; destruct (Z.eqb_spec (in_register bad) 0); done).
    rewrite Htr. destruct (channel_error_eq pid d2 ch2 (in_register bad) Hc2) as (d3 & -> & Hc3 & _).
    exists d3. split; [done|]. intros m. by apply (inactive_refuses pid Hpid d3 (ch_set_status INACTIVE ch2)).
Qed.

(** ** Witness: the application processor and host 5, after the layout *)

Definition demo_mem : ipclite_mem :=
  mem_set_info 2 SIZEOF_PARTITION_ENTRY
    (mem_set_partition (fresh_partition <$> host_pairs 33)
      (mem_set_entries (entries_at PARTITIONS_OFFSET (host_pairs 33)) (blank_mem 2097152))).

Lemma demo_mem_laid_out : laid_out 33 demo_mem.
Proof. split; try reflexivity. vm_compute. discriminate. Qed.

Definition fresh_ipc : ipc :=
  mk_ipc 33 (num_entries demo_mem) 1 0 demo_mem (replicate 9 zero_channel) 0 false
    (mk_client None 0 0) (mk_client None 0 0)
    (mk_dbg (mk_dio 0 0 0 0 0 0) (replicate 9 zero_dih)) [].

Lemma fresh_ipc_part : part_at fresh_ipc 1 (fresh_partition (LOCAL_HOST, 5)).
Proof.
  split; [lia|]. change (partition (ipcmem fresh_ipc)) with (fresh_partition <$> host_pairs 33).
  rewrite list_lookup_fmap. assert (H : host_pairs 33 !! Z.to_nat 1 = Some (0, 5)) by (vm_compute; reflexivity).
  by rewrite H.
Qed.

Lemma channel_init_correct_witness :
  exists d' ch', ipclite_channel_init (mk_channel_node 0 (0, 5) true [mk_irq_node 0 (0, 0) None 0]) fresh_ipc = Ret 0 d' /\
    channel_ready fresh_ipc 5 1 d' ch' /\
    (forall n, n ∈ [mk_irq_node 0 (0, 0) None 0] -> znth 0 (signal_ids ch') (snd (in_index n)) = snd (in_index n)) /\
    trace d' = trace fresh_ipc /\
    (forall c, 0 <= c -> c <> 5 -> channel d' !! Z.to_nat c = channel fresh_ipc !! Z.to_nat c).
Proof.
  refine (proj1 (channel_init_correct (E := demo_ipc_env) fresh_ipc 5 1 zero_channel [mk_irq_node 0 (0, 0) None 0] _ _ fresh_ipc_part _ _ _)).
  - unfold IPCMEM_NUM_HOSTS. lia.
  - vm_compute. reflexivity.
  - split; [lia|reflexivity].
  - reflexivity.
  - apply Forall_singleton. repeat split; cbn; unfold MAX_CHANNEL_SIGNALS; lia.
Defined.

(** A mailbox that is refused is reported as success. *)
Example refused_mailbox_succeeds :
  match ipclite_channel_irq_init 5 (mk_irq_node 0 (0, 0) (Some EINVAL) 0) fresh_ipc with
  | Ret ret _ => ret = 0
  | _ => False
  end.
Proof. vm_compute. reflexivity. Qed.

(** A channel node without a host number makes the loopback channel inactive. *)
Example missing_pid_disables_apps :
  match ipclite_channel_init (mk_channel_node 0 (- EINVAL, 0) true [])
          (with_chan 0 (ch_set_status ACTIVE zero_channel) fresh_ipc) with
  | Ret ret d => ret = - EINVAL /\ ch_status (znth zero_channel (channel d) 0) = INACTIVE
  | _ => False
  end.
Proof. vm_compute. split; reflexivity. Qed.

(** A host number without a partition, and beyond the channels, is used as an
    index of the channels on the error path. *)
Example large_pid_leaves_channels :
  ipclite_channel_init (mk_channel_node 0 (0, 9) true []) fresh_ipc = Fault.
Proof. vm_compute. reflexivity. Qed.

(** ** A head at the end of the FIFO *)

(** When the remote host stores [length] in [*head], a value that
    [ipcmem_rx_avail] does not reject, the FIFO never looks empty: the handler
    delivers what it finds in the memory over and over. *)
Definition head_at_end (f : ipclite_fifo) (n : Z) (p : ipcmem_partition) : Prop :=
  fifo_wf f n p /\ get_head f p = fifo_length f /\ exists t, 0 <= t < n /\ get_tail f p = 8 * t.

Lemma head_at_end_avail f n p : head_at_end f n p -> SIZEOF_U64 <= ipcmem_rx_avail f p.
Proof.
  intros ([Hl Hn _ _ _ _ _] & Hh & t & Ht & Htl). unfold ipcmem_rx_avail. rewrite Hh, Htl, Hl.
  destruct (Z.ltb_spec (8 * n) (8 * t)); [lia|]. rewrite u32_small by lia.
  destruct (Z.gtb_spec (8 * n - 8 * t) (8 * n)); unfold SIZEOF_U64; lia.
Qed.

Lemma head_at_end_advance f n p : head_at_end f n p ->
  exists p', rx_advance_tail f SIZEOF_U64 p = Some p' /\ head_at_end f n p'.
Proof.
  intros ([Hl Hn Hf Hr Ht0 Hh0 Hne] & Hh & t & Ht & Htl). unfold rx_advance_tail, SIZEOF_U64. rewrite Htl, Hl, u32_small by lia.
  assert (HW : forall v, head_at_end f n (set_tail f (8 * v) p) \/ ~ (0 <= v < n)).
  { intros v. destruct (decide (0 <= v < n)) as [Hv|]; [|by right]. left. split; [|split].
    - split; try done; cbn [descs set_tail]; by rewrite zlen_zupd.
    - by rewrite get_head_set_tail.
    - exists v. split; [done|]. by rewrite get_set_tail, u32_small by lia. }
  rewrite Z.geb_leb. destruct (Z.leb_spec (8 * n) (8 * t + 8)).
  - destruct (Z.eqb_spec (8 * n) 0); [lia|]. replace (8 * t + 8) with (8 * n) by lia. rewrite Z.mod_same by lia.
    eexists. split; [done|]. destruct (HW 0) as [H0|]; [exact H0|lia].
  - eexists. split; [done|]. replace (8 * t + 8) with (8 * (t + 1)) by lia. destruct (HW (t + 1)); [done|lia].
Qed.

Lemma head_at_end_peek f n p data : head_at_end f n p ->
  exists l, ipcmem_rx_peak f data SIZEOF_U64 p = Some l.
Proof.
  intros ([Hl Hn Hf Hr _ _ _] & Hh & t & Ht & Htl). unfold ipcmem_rx_peak. rewrite Htl, Hl.
  destruct (Z.gtb_spec (8 * t) (8 * n)); [lia|]. rewrite Z.geb_leb. destruct (Z.leb_spec (8 * n) (8 * t)); [lia|].
  rewrite u32_small, Z.min_l by (unfold SIZEOF_U64; lia). change (truthy SIZEOF_U64) with true. cbv iota.
  assert (Hrd : exists l, read_bytes (bytes p) (fifo f + 8 * t) SIZEOF_U64 = Some l).
  { unfold read_bytes. destruct (Z.leb_spec 0 (fifo f + 8 * t)), (Z.leb_spec 0 SIZEOF_U64),
      (Z.leb_spec (fifo f + 8 * t + SIZEOF_U64) (zlen (bytes p))); unfold SIZEOF_U64 in *; try lia. by eexists. }
  destruct Hrd as (l & ->). by exists l.
Qed.

Lemma head_at_end_never_returns `{E : IpcEnv} fuel d c ch f n p :
  chan_at d c ch -> rx_fifo ch = Some f -> part_at d (fifo_part f) p -> head_at_end f n p ->
  rx_loop fuel ipclite_rx_data c d = Block.
Proof.
  revert d p. induction fuel as [|fuel IH]; intros d p Hc Hf Hp He; [done|]. cbn [rx_loop].
  assert (Ha : ipclite_rx_avail c d = Ret (ipcmem_rx_avail f p) d).
  { unfold ipclite_rx_avail. by rewrite (bind_ret _ _ _ _ _ (get_channel_eq _ _ _ Hc)), Hf, bind_deref,
      (bind_ret _ _ _ _ _ (get_part_eq _ _ _ Hp)). }
  rewrite (bind_ret _ _ _ _ _ Ha). pose proof (head_at_end_avail f n p He) as Hav.
  destruct (Z.ltb_spec (ipcmem_rx_avail f p) SIZEOF_U64); [lia|].
  destruct (head_at_end_peek f n p (le_bytes 8 0) He) as (l & Hl).
  destruct (head_at_end_advance f n p He) as (p' & Hadv & He').
  destruct (rx_data_step synx_client d c ch f p l p' _ Hc Hf Hp Hav Hl Hadv) as (b & Hr).
  rewrite (bind_ret _ _ _ _ _ Hr). apply (IH _ p'); [exact Hc|done|exact (part_at_with (ipc_events _ d) _ p p' Hp)|done].
Qed.
