(* ===== verification/IpcliteRecover.v ===== *)
(** * IPC Lite: recovery of a host

    [ipclite_recover] after the crash of a host: the hardware lock that the
    host held is released, every partition of the host is closed, its channel
    waits for the host to come back, the other hosts are told, and their
    messages are kept. *)

From S2P Require Import Prelude Outcome IpcHosts IpcliteMem IpcliteFifo Ipclite IpcliteLink.

Section recover.
Context `{E : IpcEnv}.
Implicit Types (d : ipc).

(** ** What the atomic operations leave alone *)

(** The hardware lock is exclusive: an attempt to take it fails while it is
    taken. *)
Definition lock_excludes : Prop := forall k, truthy (hwlock_answer k true) = true.

(** A lock that another host holds stays with it, as long as the lock is
    exclusive; a free lock is free again. *)
Definition lock_kept (d d' : ipc) : Prop :=
  (hw_held d = false -> hw_held d' = false) /\
  (lock_excludes -> hw_held d = true -> hwlock_owner (ipcmem d) <> IPCMEM_APPS ->
     hw_held d' = true /\ hwlock_owner (ipcmem d') = hwlock_owner (ipcmem d)).

Lemma lock_kept_refl d : lock_kept d d.
Proof. by split. Qed.

Lemma lock_kept_trans d1 d2 d3 : lock_kept d1 d2 -> lock_kept d2 d3 -> lock_kept d1 d3.
Proof.
  intros [F1 H1] [F2 H2]. split; [auto|]. intros L H O. destruct (H1 L H O) as [H' O'].
  destruct (H2 L H') as [H'' O'']; [by rewrite O'|]. split; [done|congruence].
Qed.

Record rest_same (d d' : ipc) : Prop := {
  rs_channel : channel d' = channel d;
  rs_hosts : enabled_hosts d' = enabled_hosts d;
  rs_partitions : partitions d' = partitions d;
  rs_entries : partition_entry (ipcmem d') = partition_entry (ipcmem d);
  rs_trace : trace d' = trace d;
  rs_synx : synx_client d' = synx_client d;
  rs_test : test_client d' = test_client d;
  rs_lock : lock_kept d d';
  rs_owner : hwlock_owner (ipcmem d') = hwlock_owner (ipcmem d) \/
    hwlock_owner (ipcmem d') = IPCMEM_APPS \/ hwlock_owner (ipcmem d') = IPCMEM_INVALID_HOST
}.

Lemma rest_same_refl d : rest_same d d.
Proof. split; done || apply lock_kept_refl || by left. Qed.

Lemma rest_same_trans d1 d2 d3 : rest_same d1 d2 -> rest_same d2 d3 -> rest_same d1 d3.
Proof.
  intros [] []. split; try congruence; [by apply (lock_kept_trans _ d2)|]. intuition congruence.
Qed.

Lemma rest_same_part d q x : rest_same d (with_part q x d).
Proof. split; done || apply lock_kept_refl || by left. Qed.

(** An atomic update of one partition, whatever the hardware lock answers. *)
Lemma atomic_section_eq d q y body :
  (forall d1, partition (ipcmem d1) = partition (ipcmem d) -> body d1 = Ret tt (with_part q y d1)) ->
  exists d', atomic_section body d = Ret tt d' /\ rest_same d d' /\
    partition (ipcmem d') = zupd (partition (ipcmem d)) q y.
Proof.
  intros Hb. unfold atomic_section. rewrite bind_get. destruct (truthy _).
  { rewrite Hb by done. eexists. split; [done|]. split; [apply rest_same_part|done]. }
  unfold ipclite_hw_mutex_acquire, ipclite_hw_mutex_release.
  unfold get, put, modify, mbind, run_bind, mret, run_ret. cbn beta iota.
  destruct (truthy (hwlock_answer (hw_tries d) (hw_held d))) eqn:Ha; cbn beta iota.
  - rewrite Hb by done. destruct (negb _) eqn:Ho; cbn beta iota.
    + eexists. split; [reflexivity|]. split; [|done]. split; done || apply lock_kept_refl || by left.
    + eexists. split; [reflexivity|]. split; [|done]. split; try (done || by right; right).
      split; cbn; [done|]. intros _ _ Hn. cbn in Ho. apply negb_false_iff, Z.eqb_eq in Ho. done.
  - rewrite Hb by done. change (negb (hwlock_owner _ =? IPCMEM_APPS)) with false. cbn beta iota.
    eexists. split; [reflexivity|]. split; [|done]. split; try (done || by right; right).
    split; cbn; [done|]. intros Hl Hh. rewrite Hh, Hl in Ha. done.
Qed.

Lemma atomic_store_eq d q x v : part_at d q x ->
  exists d', ipclite_global_atomic_store_i32 q v d = Ret tt d' /\ rest_same d d' /\
    partition (ipcmem d') = zupd (partition (ipcmem d)) q (set_hdr_status v x).
Proof.
  intros [Hq Hp]. apply atomic_section_eq. intros d1 H1.
  rewrite (bind_ret _ _ _ _ _ (get_part_eq d1 q x (conj Hq (eq_trans (f_equal (.!! Z.to_nat q) H1) Hp)))). done.
Qed.

Lemma atomic_inc_eq d q x : part_at d q x ->
  exists d', ipclite_global_atomic_inc q d = Ret tt d' /\ rest_same d d' /\
    partition (ipcmem d') = zupd (partition (ipcmem d)) q (set_hdr_status (hdr_status (hdr x) + 1) x).
Proof.
  intros [Hq Hp]. apply atomic_section_eq. intros d1 H1.
  rewrite (bind_ret _ _ _ _ _ (get_part_eq d1 q x (conj Hq (eq_trans (f_equal (.!! Z.to_nat q) H1) Hp)))). done.
Qed.

(** ** Closing the partitions of a host *)

Definition involves (core : Z) (e : ipcmem_partition_entry) : bool :=
  (host0 e =? core) || (host1 e =? core).

(** Partition [i] after those of the list [l] were visited. *)
Definition closed (core : Z) (es : list ipcmem_partition_entry) (l : list Z) (i : Z) (x : ipcmem_partition) :
    ipcmem_partition :=
  if bool_decide (i ∈ l) && involves core (znth no_entry es i) then set_hdr_status 0 x else x.

Lemma close_twice x : set_hdr_status 0 (set_hdr_status 0 x) = set_hdr_status 0 x.
Proof. done. Qed.

Lemma clear_status_eq d core p x : part_at d p x ->
  exists d', clear_status core p d = Ret tt d' /\ rest_same d d' /\
    partition (ipcmem d') = zupd (partition (ipcmem d)) p
      (if involves core (znth no_entry (partition_entry (ipcmem d)) p) then set_hdr_status 0 x else x).
Proof.
  intros Hp. unfold clear_status. rewrite bind_get, <- negb_orb. fold (involves core (znth no_entry (partition_entry (ipcmem d)) p)).
  destruct (involves core _); cbn [negb]; [by apply atomic_store_eq|].
  exists d. split; [done|]. split; [apply rest_same_refl|]. destruct Hp. by rewrite zupd_lookup_id.
Qed.

Lemma clear_loop core l d :
  Forall (fun p => 0 <= p < zlen (partition (ipcmem d))) l ->
  exists d', for_each l (clear_status core) d = Ret tt d' /\ rest_same d d' /\
    length (partition (ipcmem d')) = length (partition (ipcmem d)) /\
    forall i x, 0 <= i -> partition (ipcmem d) !! Z.to_nat i = Some x ->
      partition (ipcmem d') !! Z.to_nat i = Some (closed core (partition_entry (ipcmem d)) l i x).
Proof.
  revert d. induction l as [|p l IH]; intros d Hl; cbn [for_each].
  - exists d. split; [done|]. split; [apply rest_same_refl|]. done.
  - apply Forall_cons in Hl as [Hp Hl]. cbn beta in Hp.
    pose proof (lookup_znth no_partition (partition (ipcmem d)) p Hp) as Hx.
    destruct (clear_status_eq d core p _ (conj (proj1 Hp) Hx)) as (d1 & H1 & R1 & P1).
    rewrite (bind_ret _ _ _ _ _ H1).
    assert (Hz : zlen (partition (ipcmem d1)) = zlen (partition (ipcmem d))) by (by rewrite P1, zlen_zupd).
    destruct (IH d1) as (d2 & H2 & R2 & L2 & P2); [by rewrite Hz|].
    exists d2. split; [done|]. split; [by apply (rest_same_trans _ d1)|]. split; [rewrite L2; unfold zlen in Hz; lia|].
    intros i x Hi Hix. pose proof (rs_entries _ _ R1) as He. unfold closed. rewrite bool_decide_decide.
    destruct (decide (i = p)) as [->|Hne].
    + assert (x = znth no_partition (partition (ipcmem d)) p) as -> by congruence.
      assert (Hi1 : partition (ipcmem d1) !! Z.to_nat p = Some (if involves core (znth no_entry (partition_entry (ipcmem d)) p)
        then set_hdr_status 0 (znth no_partition (partition (ipcmem d)) p) else znth no_partition (partition (ipcmem d)) p)).
      { rewrite P1. apply (lookup_zupd_eq _ _ _ _ (proj1 Hp) Hx). }
      rewrite (P2 _ _ Hi Hi1). unfold closed. rewrite He.
      destruct (decide (p ∈ p :: l)) as [_|Hn]; [|destruct Hn; by left].
      destruct (involves core _), (bool_decide (p ∈ l)); done.
    + assert (Hi1 : partition (ipcmem d1) !! Z.to_nat i = Some x) by (rewrite P1, lookup_zupd_ne by (lia || auto); done).
      rewrite (P2 _ _ Hi Hi1). unfold closed. rewrite He. f_equal.
      assert (Hb : bool_decide (i ∈ l) = (if decide (i ∈ p :: l) then true else false)).
      { destruct (decide (i ∈ p :: l)) as [Hin|Hn]; [apply bool_decide_true|apply bool_decide_false].
        - apply elem_of_cons in Hin as [|]; done.
        - intros Hin. apply Hn. by right. }
      by rewrite Hb.
Qed.

(** ** Telling the other hosts *)

Definition gstatus_of (d : ipc) (ch : ipclite_channel) : Z :=
  match gstatus_ptr ch with
  | Some q => hdr_status (hdr (znth no_partition (partition (ipcmem d)) q))
  | None => INACTIVE
  end.

Definition sendable (d : ipc) (ch : ipclite_channel) : bool :=
  (ch_status ch =? ACTIVE) || (ch_status ch =? IN_PROGRESS) && (gstatus_of d ch =? ACTIVE).

(** The channels that wait for their host have a partition. *)
Definition channels_wf (d : ipc) : Prop :=
  zlen (channel d) = IPCMEM_NUM_HOSTS /\
  forall i ch, channel d !! i = Some ch -> ch_status ch = IN_PROGRESS ->
    exists q, gstatus_ptr ch = Some q /\ 0 <= q < zlen (partition (ipcmem d)).

Lemma sendable_spec d i ch : channels_wf d -> channel d !! i = Some ch ->
  if sendable d ch then can_send d ch else cannot_send d ch.
Proof.
  intros [_ Hw] Hc. unfold sendable. destruct (Z.eqb_spec (ch_status ch) ACTIVE); cbn [orb]; [by left|].
  destruct (Z.eqb_spec (ch_status ch) IN_PROGRESS) as [Hi|]; cbn [andb]; [|by split].
  destruct (Hw i ch Hc Hi) as (q & Hq & Hr). unfold gstatus_of. rewrite Hq.
  pose proof (lookup_znth no_partition _ _ Hr) as Hx. assert (Hp : part_at d q (znth no_partition (partition (ipcmem d)) q))
    by (split; [lia|done]).
  destruct (Z.eqb_spec (hdr_status (hdr (znth no_partition (partition (ipcmem d)) q))) ACTIVE).
  - right. split; [done|]. by eexists _, _.
  - split; [done|]. intros _. by eexists _, _.
Qed.

Definition told (core : Z) (d : ipc) (h : Z) : bool :=
  is_host_enabled (enabled_hosts d) h && negb (h =? core) && sendable d (znth zero_channel (channel d) h).

Lemma notify_ssr_eq d core h : channels_wf d -> 0 <= h < IPCMEM_NUM_HOSTS ->
  notify_ssr core h d =
    Ret tt (if told core d h
            then ipc_event_add (Mbox (remote_pid (znth zero_channel (channel d) h)) IPCLITE_SSR_SIGNAL)
                   (activated h (znth zero_channel (channel d) h) d)
            else d).
Proof.
  intros Hw Hh. pose proof Hw as [Hlen _]. pose proof (lookup_znth zero_channel (channel d) h ltac:(lia)) as Hc.
  set (ch := znth zero_channel (channel d) h) in *. unfold notify_ssr, told. rewrite bind_get.
  destruct (is_host_enabled _ h); cbn [negb orb andb]; [|done].
  destruct (h =? core); cbn [negb]; [done|]. fold ch.
  pose proof (sendable_spec d _ ch Hw Hc) as Hs. assert (Hca : chan_at d h ch) by (split; [lia|done]).
  unfold ipclite_notify_core. rewrite Z.geb_leb.
  destruct (Z.ltb_spec h 0), (Z.leb_spec IPCMEM_NUM_HOSTS h); try lia. cbn [orb].
  destruct (sendable d ch).
  - unfold mbind at 1, run_bind at 1. rewrite (bind_ret _ _ _ _ _ (check_active_true d h ch Hca Hs)). cbn [negb]. cbv iota.
    fold (activated h ch d).
    rewrite (bind_ret _ _ _ _ _ (get_channel_eq (activated h ch d) h _ (chan_at_with d h ch _ Hca))), bind_get. done.
  - unfold mbind at 1, run_bind at 1. by rewrite (bind_ret _ _ _ _ _ (check_active_false d h ch Hca Hs)).
Qed.

Lemma told_other core d h ch h' : 0 <= h -> 0 <= h' -> h' <> h ->
  told core (activated h ch d) h' = told core d h'.
Proof.
  intros H0 H0' Hne. unfold told. cbn. rewrite (znth_zupd_ne zero_channel (channel d) h h') by auto. done.
Qed.

Lemma activated_wf d h ch : channels_wf d -> channel d !! Z.to_nat h = Some ch -> channels_wf (activated h ch d).
Proof.
  intros [Hl Hw] Hc. split; cbn; [by rewrite zlen_zupd|]. intros i c Hi Hs.
  unfold zupd in Hi. destruct (h <? 0); [by apply (Hw i)|].
  destruct (decide (i = Z.to_nat h)) as [->|Hne].
  - rewrite list_lookup_insert_eq in Hi by (by apply lookup_lt_Some in Hc). injection Hi as <-. done.
  - rewrite list_lookup_insert_ne in Hi by auto. by apply (Hw i).
Qed.

Lemma tell_hosts core l d : channels_wf d -> NoDup l -> Forall (fun h => 0 <= h < IPCMEM_NUM_HOSTS) l ->
  exists d', for_each l (notify_ssr core) d = Ret tt d' /\
    ipcmem d' = ipcmem d /\ hw_held d' = hw_held d /\ synx_client d' = synx_client d /\ test_client d' = test_client d /\
    trace d' = trace d ++ map (fun h => Mbox (remote_pid (znth zero_channel (channel d) h)) IPCLITE_SSR_SIGNAL)
                            (List.filter (told core d) l) /\
    forall i ch, 0 <= i -> channel d !! Z.to_nat i = Some ch ->
      channel d' !! Z.to_nat i =
        Some (if bool_decide (i ∈ l) && told core d i then ch_set_status ACTIVE ch else ch).
Proof.
  revert d. induction l as [|h l IH]; intros d Hw Hnd Hl; cbn [for_each List.filter].
  { exists d. cbn [map]. rewrite app_nil_r. done. }
  apply NoDup_cons in Hnd as [Hni Hnd]. apply Forall_cons in Hl as [Hh Hl]. cbn beta in Hh.
  rewrite (bind_ret _ _ _ _ _ (notify_ssr_eq d core h Hw Hh)).
  pose proof (lookup_znth zero_channel (channel d) h ltac:(rewrite (proj1 Hw); lia)) as Hc.
  set (ch := znth zero_channel (channel d) h) in *.
  assert (Hin : forall i, bool_decide (i ∈ h :: l) = (i =? h) || bool_decide (i ∈ l)).
  { intros i. destruct (Z.eqb_spec i h) as [->|Hne]; cbn [orb]; [apply bool_decide_true; by left|].
    apply bool_decide_ext. rewrite elem_of_cons. tauto. }
  destruct (told core d h) eqn:Ht.
  - set (d1 := ipc_event_add _ _).
    assert (Hw1 : channels_wf d1) by (by apply activated_wf).
    destruct (IH d1 Hw1 Hnd Hl) as (d' & H1 & Hm & Hhw & Hs & Hts & Htr & Hch). exists d'.
    split; [done|]. split; [done|]. split; [done|]. split; [done|]. split; [done|].
    assert (Hsame : forall i, i ∈ l -> 0 <= i -> told core d1 i = told core d i /\
      znth zero_channel (channel d1) i = znth zero_channel (channel d) i).
    { intros i Hi Hi0. assert (Hne : i <> h) by (intros ->; done).
      split; [exact (told_other core d h ch i (proj1 Hh) Hi0 Hne)|].
      unfold d1. cbn. apply znth_zupd_ne. auto. }
    split.
    + rewrite Htr. cbn [map]. change (trace d1) with (trace d ++ [Mbox (remote_pid ch) IPCLITE_SSR_SIGNAL]).
      rewrite <- app_assoc. cbn [app]. do 2 f_equal.
      assert (Hf : List.filter (told core d1) l = List.filter (told core d) l).
      { apply List.filter_ext_in. intros i Hi. apply list_elem_of_In in Hi.
        apply Hsame; [done|]. rewrite Forall_forall in Hl. by apply Hl. }
      rewrite Hf. apply List.map_ext_in. intros i Hi. apply List.filter_In in Hi as [Hi _]. apply list_elem_of_In in Hi.
      destruct (Hsame i Hi) as [_ ->]; [|done]. rewrite Forall_forall in Hl. by apply Hl.
    + intros i c Hi0 Hic. rewrite Hin. destruct (Z.eqb_spec i h) as [->|Hne]; cbn [orb].
      * rewrite Ht. cbn [andb]. assert (c = ch) as -> by congruence.
        rewrite (Hch h (ch_set_status ACTIVE ch)); [|done|].
        2:{ cbn. apply (lookup_zupd_eq _ _ _ ch); [lia|done]. }
        rewrite bool_decide_false by done. done.
      * rewrite (Hch i c); [|done|].
        2:{ cbn. rewrite lookup_zupd_ne by (lia || auto). done. }
        case_bool_decide as Hil; cbn [andb]; [|done]. by destruct (Hsame i Hil Hi0) as [-> _].
  - destruct (IH d Hw Hnd Hl) as (d' & H1 & Hm & Hhw & Hs & Hts & Htr & Hch). exists d'.
    split; [done|]. split; [done|]. split; [done|]. split; [done|]. split; [done|]. split; [done|].
    intros i c Hi0 Hic. rewrite (Hch i c Hi0 Hic), Hin. destruct (Z.eqb_spec i h) as [->|Hne]; cbn [orb]; [|done].
    rewrite Ht, andb_false_r. done.
Qed.

End recover.

(** ** The whole recovery *)

Section whole.
Context `{E : IpcEnv}.

(** The remote host comes back: it resets the index that it writes in each
    direction and declares the channel active, as [ipclite_channel_init] and
    the recovery do on this side. *)
Definition remote_restart (tx rx : ipclite_fifo) (x : ipcmem_partition) : ipcmem_partition :=
  set_hdr_status ACTIVE (set_head rx 0 (set_tail tx 0 x)).

(** The hardware lock after the recovery of [core]: free when the host held
    it; with its holder when that is another remote host. *)
Definition lock_settled (core : Z) (d d' : ipc) : Prop :=
  hwlock_owner (ipcmem d') <> core /\
  (hwlock_owner (ipcmem d) = core -> hw_held d' = false) /\
  (lock_excludes -> hw_held d = true -> hwlock_owner (ipcmem d) <> core -> hwlock_owner (ipcmem d) <> IPCMEM_APPS ->
     hw_held d' = true /\ hwlock_owner (ipcmem d') = hwlock_owner (ipcmem d)).

(** The partition of the crashed host after the recovery. *)
Definition recovered_part (tx rx : ipclite_fifo) (x : ipcmem_partition) : ipcmem_partition :=
  set_hdr_status IN_PROGRESS (set_tail rx 0 (set_head tx 0 (set_hdr_status INACTIVE x))).

Definition recover_effect (d : ipc) (core : Z) (tx rx : ipclite_fifo) (n : Z) (d' : ipc) : Prop :=
  lock_settled core d d' /\
  (forall i x, 0 <= i -> i <> fifo_part rx -> partition (ipcmem d) !! Z.to_nat i = Some x ->
     partition (ipcmem d') !! Z.to_nat i =
       Some (if involves core (znth no_entry (partition_entry (ipcmem d)) i) then set_hdr_status INACTIVE x else x)) /\
  (exists ch', chan_at d' core ch' /\ ch_status ch' = IN_PROGRESS /\ may_send d' ch' rx = false /\
     (forall m, ipclite_msg_send core m d' = Ret (- EOPNOTSUPP) d') /\
     (forall x, part_at d' (fifo_part rx) x ->
        channel_holds (with_part (fifo_part rx) (remote_restart tx rx x) d') core ch' tx rx n [] [])) /\
  trace d' = trace d ++
    map (fun h => Mbox (remote_pid (znth zero_channel (channel d) h)) IPCLITE_SSR_SIGNAL)
        (List.filter (told core d) (seqZ 1 (IPCMEM_NUM_HOSTS - 1))) /\
  (forall c ch tx2 rx2 n2 out inn, c <> core -> channel_holds d c ch tx2 rx2 n2 out inn ->
     exists ch', channel_holds d' c ch' tx2 rx2 n2 out inn).

Lemma settled_trans core d d1 d2 : 1 <= core < IPCMEM_NUM_HOSTS ->
  lock_settled core d d1 -> rest_same d1 d2 -> lock_settled core d d2.
Proof.
  unfold IPCMEM_NUM_HOSTS. intros Hc (Hn & Hf & Hkept) R. destruct (rs_lock _ _ R) as [Lf Lk].
  split; [|split].
  - destruct (rs_owner _ _ R) as [-> | [-> | ->]]; unfold IPCMEM_APPS, IPCMEM_INVALID_HOST; [done|lia|lia].
  - auto.
  - intros Hx Hh Ho Ha. destruct (Hkept Hx Hh Ho Ha) as [Hh1 Ho1].
    destruct (Lk Hx Hh1) as [Hh2 Ho2]; [by rewrite Ho1|]. split; [done|congruence].
Qed.

Section crash.
Context (d : ipc) (core : Z) (ch : ipclite_channel) (tx rx : ipclite_fifo) (n : Z) (out inn : list Z).
Context (Hk : channel_holds d core ch tx rx n out inn) (Hcore : 1 <= core < IPCMEM_NUM_HOSTS).
Context (Hinv : involves core (znth no_entry (partition_entry (ipcmem d)) (fifo_part rx)) = true).
Context (Hparts : partitions d = zlen (partition (ipcmem d))) (Hwf : channels_wf d).
Context (Hothers : forall c chc q, 0 <= c -> c <> core -> channel d !! Z.to_nat c = Some chc -> gstatus_ptr chc = Some q ->
  involves core (znth no_entry (partition_entry (ipcmem d)) q) = false).

Lemma when_put b (s d0 : ipc) : when b (put s) d0 = Ret tt (if b then s else d0).
Proof. by destruct b. Qed.

(** The first half: until the channel waits for its host. *)
Lemma recover_first :
  exists d1 x, part_at d (fifo_part rx) x /\
    ipclite_recover core d = for_each (seqZ 1 (IPCMEM_NUM_HOSTS - 1)) (notify_ssr core) d1 /\
    lock_settled core d d1 /\ trace d1 = trace d /\ enabled_hosts d1 = enabled_hosts d /\
    channel d1 = zupd (channel d) core (ch_set_status IN_PROGRESS ch) /\
    part_at d1 (fifo_part rx) (recovered_part tx rx x) /\
    length (partition (ipcmem d1)) = length (partition (ipcmem d)) /\
    forall i y, 0 <= i -> i <> fifo_part rx -> partition (ipcmem d) !! Z.to_nat i = Some y ->
      partition (ipcmem d1) !! Z.to_nat i =
        Some (if involves core (znth no_entry (partition_entry (ipcmem d)) i) then set_hdr_status INACTIVE y else y).
Proof.
  destruct Hk as [Hch _ Htx Hrx Hsame Hgs _ (x & t1 & t2 & [Hq Hx] & _ & _)].
  set (q := fifo_part rx) in *. set (es := partition_entry (ipcmem d)) in *.
  unfold ipclite_recover. rewrite bind_get, (bind_ret _ _ _ _ _ (when_put _ _ _)).
  set (d0 := if core =? hwlock_owner (ipcmem d) then _ else _).
  assert (F0 : channel d0 = channel d /\ enabled_hosts d0 = enabled_hosts d /\ trace d0 = trace d /\
    partition_entry (ipcmem d0) = es /\ partition (ipcmem d0) = partition (ipcmem d) /\ lock_settled core d d0).
  { unfold d0. destruct (Z.eqb_spec core (hwlock_owner (ipcmem d))); do 5 (split; [done|]).
    - unfold lock_settled. cbn. unfold IPCMEM_INVALID_HOST, IPCMEM_NUM_HOSTS in *. split; [lia|]. by split.
    - split; [auto|]. split; [|done]. congruence. }
  clearbody d0. destruct F0 as (Fc & Fh & Ft & Fe & Fp & Fo).
  destruct (clear_loop core (seqZ 0 (partitions d)) d0) as (d2 & H2 & R2 & L2 & P2).
  { rewrite Fp, Hparts. apply Forall_forall. intros i Hi. apply elem_of_seqZ in Hi. lia. }
  rewrite (bind_ret _ _ _ _ _ H2). pose proof (settled_trans _ _ _ _ Hcore Fo R2) as Fo2.
  destruct R2 as [Rc Rh _ _ Rt _ _ _ _].
  assert (Hclosed : forall i y, 0 <= i -> partition (ipcmem d) !! Z.to_nat i = Some y ->
    partition (ipcmem d2) !! Z.to_nat i = Some (if involves core (znth no_entry es i) then set_hdr_status INACTIVE y else y)).
  { intros i y Hi Hy. rewrite <- Fp in Hy. rewrite (P2 i y Hi Hy), Fe. unfold closed.
    rewrite bool_decide_true; [done|]. apply elem_of_seqZ. apply lookup_lt_Some in Hy. rewrite Fp in Hy.
    rewrite Hparts. unfold zlen. lia. }
  assert (Hx2 : part_at d2 q (set_hdr_status INACTIVE x)).
  { split; [done|]. rewrite (Hclosed q x Hq Hx), Hinv. done. }
  assert (Hch2 : chan_at d2 core ch) by (destruct Hch; split; [done|]; by rewrite Rc, Fc).
  rewrite (bind_ret _ _ _ _ _ (get_channel_eq _ _ _ Hch2)), Htx, bind_deref, Hrx, bind_deref, Hsame.
  rewrite (bind_ret _ _ _ _ _ (get_part_eq _ _ _ Hx2)), (bind_ret _ _ _ _ _ (put_part_eq _ _ _)).
  rewrite (bind_ret _ _ _ _ _ (get_part_eq _ _ _ (part_at_with d2 q _ _ Hx2))), (bind_ret _ _ _ _ _ (put_part_eq _ _ _)).
  set (x1 := set_tail rx 0 (set_head tx 0 (set_hdr_status INACTIVE x))).
  set (d3 := with_part q x1 (with_part q (set_head tx 0 (set_hdr_status INACTIVE x)) d2)).
  assert (Hx3 : part_at d3 q x1) by exact (part_at_with _ q _ _ (part_at_with d2 q _ _ Hx2)).
  rewrite Hgs, bind_deref. destruct (atomic_inc_eq d3 q x1 Hx3) as (d4 & H4 & R4 & P4).
  assert (Fo3 : lock_settled core d d3) by exact Fo2.
  pose proof (settled_trans _ _ _ _ Hcore Fo3 R4) as Fo4. destruct R4 as [Rc4 Rh4 _ _ Rt4 _ _ _ _].
  rewrite (bind_ret _ _ _ _ _ H4). change (set_hdr_status (hdr_status (hdr x1) + 1) x1) with (recovered_part tx rx x) in P4.
  assert (Hx4 : part_at d4 q (recovered_part tx rx x)).
  { split; [done|]. rewrite P4. apply (lookup_zupd_eq _ _ _ x1 Hq), Hx3. }
  assert (Hch4 : chan_at d4 core ch) by (destruct Hch2; split; [done|]; rewrite Rc4; done).
  rewrite (bind_ret _ _ _ _ _ (gstatus_eq d4 ch q _ Hgs Hx4)), (bind_ret _ _ _ _ _ (upd_channel_eq _ _ _ _ Hch4)).
  change (hdr_status (hdr (recovered_part tx rx x))) with IN_PROGRESS.
  eexists _, x. split; [by split|]. split; [reflexivity|].
  cbn [ipcmem with_chan ipc_set_channel trace enabled_hosts channel].
  rewrite Rt4, Rh4, Rc4. unfold d3. cbn [trace enabled_hosts channel with_part ipc_set_mem].
  rewrite Rt, Rh, Rc, Ft, Fh. split; [|split; [done|split; [done|split; [by rewrite Fc|split; [exact Hx4|split]]]]].
  - exact Fo4.
  - rewrite P4, length_zupd. cbn. by rewrite !length_zupd, L2, Fp.
  - intros i y Hi Hne Hy. rewrite P4, lookup_zupd_ne by (done || auto). cbn.
    rewrite !lookup_zupd_ne by (done || auto). by apply Hclosed.
Qed.

(** The hosts that are told are judged as before the recovery. *)
Lemma told_first d1 h :
  enabled_hosts d1 = enabled_hosts d -> channel d1 = zupd (channel d) core (ch_set_status IN_PROGRESS ch) ->
  (forall i y, 0 <= i -> i <> fifo_part rx -> partition (ipcmem d) !! Z.to_nat i = Some y ->
     partition (ipcmem d1) !! Z.to_nat i =
       Some (if involves core (znth no_entry (partition_entry (ipcmem d)) i) then set_hdr_status INACTIVE y else y)) ->
  0 <= h < IPCMEM_NUM_HOSTS -> h <> core ->
  told core d1 h = told core d h /\ znth zero_channel (channel d1) h = znth zero_channel (channel d) h.
Proof.
  intros He Hc Hp Hh Hne.
  assert (Hz : znth zero_channel (channel d1) h = znth zero_channel (channel d) h)
    by (rewrite Hc; by apply znth_zupd_ne; auto).
  split; [|done]. unfold told. rewrite He, Hz. destruct Hwf as [Hlen Hw].
  pose proof (lookup_znth zero_channel (channel d) h ltac:(lia)) as Hl.
  set (c := znth zero_channel (channel d) h) in *. f_equal. unfold sendable. f_equal.
  destruct (Z.eqb_spec (ch_status c) IN_PROGRESS) as [Hi|]; cbn [andb]; [|done].
  destruct (Hw _ c Hl Hi) as (q & Hq & Hr). unfold gstatus_of. rewrite Hq.
  pose proof (Hothers h c q (proj1 Hh) Hne Hl Hq) as Hno.
  pose proof (lookup_znth no_partition _ _ Hr) as Hy.
  assert (Hqne : q <> fifo_part rx) by (intros ->; rewrite Hinv in Hno; done).
  specialize (Hp q _ (proj1 Hr) Hqne Hy). rewrite Hno in Hp.
  apply (znth_lookup no_partition) in Hp. rewrite Z2Nat.id in Hp by lia. by rewrite Hp.
Qed.

(** The messages of a channel survive when its partition and its lock do. *)
Lemma kept_channel d0 d2 c c1 c2 tx2 rx2 n2 o i x :
  channel_holds d0 c c1 tx2 rx2 n2 o i -> part_at d0 (fifo_part rx2) x -> part_at d2 (fifo_part rx2) x ->
  chan_at d2 c c2 -> tx_lock c2 = tx_lock c1 -> tx_fifo c2 = tx_fifo c1 -> rx_fifo c2 = rx_fifo c1 ->
  gstatus_ptr c2 = gstatus_ptr c1 -> channel_holds d2 c c2 tx2 rx2 n2 o i.
Proof.
  intros [H1 H2 H3 H4 H5 H6 H7 (y & t1 & t2 & Hy & Ho & Hi)] Hx Hx2 Hc E1 E2 E3 E4.
  split; try congruence. exists x, t1, t2. split; [done|].
  assert (y = x) as -> by (destruct Hy, Hx; congruence). done.
Qed.

Lemma restart_empty d' ch' x y :
  chan_at d' core ch' -> tx_lock ch' = false -> tx_fifo ch' = Some tx -> rx_fifo ch' = Some rx ->
  gstatus_ptr ch' = Some (fifo_part rx) -> part_at d (fifo_part rx) x ->
  part_at d' (fifo_part rx) (recovered_part tx rx x) -> part_at d' (fifo_part rx) y ->
  channel_holds (with_part (fifo_part rx) (remote_restart tx rx y) d') core ch' tx rx n [] [].
Proof.
  intros Hc Hl Htx Hrx Hg Hx Hr Hy. assert (y = recovered_part tx rx x) as -> by (destruct Hy, Hr; congruence).
  destruct Hk as [_ _ _ _ Hsame _ Hap (x' & t1 & t2 & Hx' & Ho & Hi)].
  assert (x' = x) as -> by (destruct Hx, Hx'; congruence).
  pose proof (fh_wf _ _ _ _ _ Ho) as W1. pose proof (fh_wf _ _ _ _ _ Hi) as W2.
  destruct (ap_words _ _ Hap) as (Htt & Hth & Hht & Hhh).
  split; try done. exists (remote_restart tx rx (recovered_part tx rx x)), 0, 0.
  split; [by apply (part_at_with _ _ (recovered_part tx rx x))|].
  assert (Hbytes : bytes (remote_restart tx rx (recovered_part tx rx x)) = bytes x) by done.
  assert (Hlen : zlen (descs (remote_restart tx rx (recovered_part tx rx x))) = zlen (descs x))
    by (cbn; by rewrite !zlen_zupd).
  assert (Hzero : forall i, i = tail tx \/ i = head tx \/ i = tail rx \/ i = head rx ->
    znth 0 (descs (remote_restart tx rx (recovered_part tx rx x))) i = 0).
  { destruct W1 as [_ _ _ _ Wt Wh Wn], W2 as [_ _ _ _ Wt2 Wh2 Wn2]. cbn -[zupd].
    change (u32 0) with 0. intros i Hi4.
    rewrite (znth_zupd 0 _ (head rx)) by (by rewrite !zlen_zupd). case_if; [done|].
    rewrite (znth_zupd 0 _ (tail tx)) by (by rewrite !zlen_zupd). case_if; [done|].
    rewrite (znth_zupd 0 _ (tail rx)) by (by rewrite !zlen_zupd). case_if; [done|].
    rewrite (znth_zupd 0 _ (head tx)) by done. case_if; [done|]. exfalso. intuition congruence. }
  assert (Hw : forall f, fifo_wf f n x -> fifo_wf f n (remote_restart tx rx (recovered_part tx rx x))).
  { intros f []. split; rewrite ?Hbytes, ?Hlen; done. }
  pose proof (fw_slots _ _ _ W1).
  split; (apply holds_empty; [by apply Hw|lia|apply Hzero; tauto|apply Hzero; tauto]).
Qed.

End crash.

(** The channels are as before, but for that of the host. *)
Lemma first_wf d d1 core ch q : channels_wf d -> chan_at d core ch -> gstatus_ptr ch = Some q ->
  0 <= q < zlen (partition (ipcmem d)) ->
  channel d1 = zupd (channel d) core (ch_set_status IN_PROGRESS ch) ->
  length (partition (ipcmem d1)) = length (partition (ipcmem d)) -> channels_wf d1.
Proof.
  intros [Hl Hw] [Hc0 Hch] Hgs Hq Hchs Hlen. split; [by rewrite Hchs, zlen_zupd|].
  intros i c Hi Hs. unfold zlen in *. rewrite Hlen. rewrite Hchs in Hi.
  destruct (decide (i = Z.to_nat core)) as [->|Hne].
  - rewrite (lookup_zupd_eq _ _ _ ch Hc0 Hch) in Hi. injection Hi as <-. by exists q.
  - unfold zupd in Hi. destruct (Z.ltb_spec core 0); [lia|]. rewrite list_lookup_insert_ne in Hi by auto.
    by apply (Hw i c).
Qed.

(** Nothing is sent on a channel that waits for its host. *)
Lemma waiting_refuses d core ch q x m : 0 <= core < IPCMEM_NUM_HOSTS -> chan_at d core ch ->
  ch_status ch = IN_PROGRESS -> gstatus_ptr ch = Some q -> part_at d q x -> hdr_status (hdr x) <> ACTIVE ->
  ipclite_msg_send core m d = Ret (- EOPNOTSUPP) d.
Proof.
  intros Hc Hca Hs Hg Hx Hn. assert (Hno : cannot_send d ch).
  { split; [by rewrite Hs|]. intros _. by exists q, x. }
  unfold ipclite_msg_send, msg_send. rewrite Z.geb_leb.
  destruct (Z.ltb_spec core 0), (Z.leb_spec IPCMEM_NUM_HOSTS core); try lia. cbn [orb]. unfold ipclite_tx.
  by rewrite (bind_ret _ _ _ _ _ (check_active_false _ _ _ Hca Hno)).
Qed.

End whole.

(** C36: recovering a crashed host releases the hardware lock if the host held it,
    leaves an exclusive lock with the other remote host that holds it, closes
    every partition of the host and no other, and leaves its channel set up but
    not active: nothing is sent on it until the host comes back, and once the host
    has reset the indexes that it writes, both FIFOs are empty. Exactly the
    enabled hosts on whose channel something may be sent are told, in order, and
    the messages of every other channel are kept. *)
Theorem recover_restarts `{E : IpcEnv} (d : ipc) (core : Z) (ch : ipclite_channel) (tx rx : ipclite_fifo)
    (n : Z) (out inn : list Z)
    (Hk : channel_holds d core ch tx rx n out inn) (Hcore : 1 <= core < IPCMEM_NUM_HOSTS)
    (Hinv : involves core (znth no_entry (partition_entry (ipcmem d)) (fifo_part rx)) = true)
    (Hparts : partitions d = zlen (partition (ipcmem d))) (Hwf : channels_wf d)
    (Hothers : forall c chc q, 0 <= c -> c <> core -> channel d !! Z.to_nat c = Some chc ->
       gstatus_ptr chc = Some q -> involves core (znth no_entry (partition_entry (ipcmem d)) q) = false) :
  exists d', ipclite_recover core d = Ret tt d' /\ recover_effect d core tx rx n d'.
Proof.
  destruct (recover_first d core ch tx rx n out inn Hk Hcore Hinv Hparts)
    as (d1 & x & Hx & Hrun & Hown & Htr & Hen & Hchs & Hxr & Hlen & Hcl).
  set (q := fifo_part rx) in *. pose proof Hk as [[Hc0 Hch] Hlk Htx Hrx _ Hgs _ _].
  assert (Hwf1 : channels_wf d1).
  { apply (first_wf d d1 core ch q Hwf (conj Hc0 Hch) Hgs); [|done..]. destruct Hx as [Hq Hx].
    apply lookup_lt_Some in Hx. unfold zlen. lia. }
  destruct (tell_hosts core (seqZ 1 (IPCMEM_NUM_HOSTS - 1)) d1 Hwf1) as (d' & H' & Hm & Hhw & _ & _ & Ht' & Hc');
    [apply NoDup_seqZ|apply Forall_forall; intros h Hh; apply elem_of_seqZ in Hh; unfold IPCMEM_NUM_HOSTS in *; lia|].
  assert (Htold : forall h, h ∈ seqZ 1 (IPCMEM_NUM_HOSTS - 1) -> told core d1 h = told core d h /\
    (h <> core -> znth zero_channel (channel d1) h = znth zero_channel (channel d) h)).
  { intros h Hh. apply elem_of_seqZ in Hh. destruct (decide (h = core)) as [->|Hne].
    - split; [|done]. unfold told. by rewrite Z.eqb_refl, !andb_false_r.
    - destruct (told_first d core ch rx Hcore Hinv Hwf Hothers d1 h Hen Hchs Hcl) as [? ?]; [unfold IPCMEM_NUM_HOSTS in *; lia|done|].
      done. }
  exists d'. split; [by rewrite Hrun|]. split; [unfold lock_settled; by rewrite Hm, Hhw|].
  split; [by rewrite Hm|]. split; [|split].
  - set (ch' := ch_set_status IN_PROGRESS ch).
    assert (Hca : chan_at d' core ch').
    { split; [done|]. rewrite (Hc' core ch'); [|done|by rewrite Hchs; apply (lookup_zupd_eq _ _ _ ch)].
      unfold told. by rewrite Z.eqb_refl, !andb_false_r. }
    assert (Hxr' : part_at d' q (recovered_part tx rx x)) by (unfold part_at; by rewrite Hm).
    exists ch'. split; [done|]. split; [done|]. split; [|split].
    + unfold may_send. change (ch_status ch') with IN_PROGRESS. unfold shared_status. fold q.
      destruct Hxr' as [_ ->]. done.
    + intros m. apply (waiting_refuses d' core ch' q (recovered_part tx rx x)); done || lia.
    + intros y Hy. by apply (restart_empty d core ch tx rx n out inn Hk Hcore d' ch' x y).
  - rewrite Ht', Htr. f_equal.
    assert (Hf : List.filter (told core d1) (seqZ 1 (IPCMEM_NUM_HOSTS - 1)) = List.filter (told core d) (seqZ 1 (IPCMEM_NUM_HOSTS - 1))).
    { apply List.filter_ext_in. intros h Hh. apply list_elem_of_In in Hh. by apply Htold. }
    rewrite Hf. apply List.map_ext_in. intros h Hh. apply List.filter_In in Hh as [Hh Hh2]. apply list_elem_of_In in Hh.
    destruct (Htold h Hh) as [_ Hz]. rewrite Hz; [done|]. intros ->. unfold told in Hh2.
    by rewrite Z.eqb_refl, !andb_false_r in Hh2.
  - intros c c1 tx2 rx2 n2 o i Hne Hk2. pose proof Hk2 as [[Hcc0 Hcc] _ _ _ _ Hg2 _ (x2 & t1 & t2 & Hx2 & _ & _)].
    pose proof (Hothers c c1 _ Hcc0 Hne Hcc Hg2) as Hno.
    assert (Hqn : fifo_part rx2 <> q) by (intros Heq; rewrite Heq in Hno; congruence).
    assert (Hc1 : channel d1 !! Z.to_nat c = Some c1) by (rewrite Hchs, lookup_zupd_ne by (done || auto); done).
    pose proof (Hc' c c1 Hcc0 Hc1) as Hcd. eexists.
    apply (kept_channel d d' c c1 _ tx2 rx2 n2 o i x2 Hk2 Hx2); [|split; [exact Hcc0|exact Hcd]|..];
      try (by destruct (bool_decide _ && _)).
    destruct Hx2 as [Hq2 Hx2]. split; [done|]. by rewrite Hm, (Hcl _ _ Hq2 Hqn Hx2), Hno.
Qed.

(** The channel of the example, with the hardware lock in the hands of host 5. *)
Definition crashed_ipc (p : ipcmem_partition) : ipc :=
  let d := demo_ipc p in
  ipc_set_hw 1 true (ipc_set_mem (mem_set_host_info 5 (configured_host (ipcmem d)) (ipcmem d)) d).

Lemma crashed_holds :
  channel_holds (crashed_ipc demo_part7) 5 demo_chan (fst demo_fifos) (snd demo_fifos) 4 [] [7].
Proof. destruct demo_holds7. by split. Qed.

Lemma demo_channels p i ch : channel (crashed_ipc p) !! i = Some ch -> ch = demo_chan \/ ch = zero_channel.
Proof. do 9 (destruct i as [|i]; [intros [= <-]; auto|]). done. Qed.

Lemma demo_chan_5 i p : channel (crashed_ipc p) !! i = Some demo_chan -> i = 5%nat.
Proof. do 9 (destruct i as [|i]; [intros H; done || discriminate H|]). done. Qed.

(** The hardware lock of the example is exclusive. *)
Example demo_lock_excludes : lock_excludes (E := demo_ipc_env).
Proof. done. Qed.

(** Host 5 crashes while a message of it waits and it holds the hardware
    lock. *)
Lemma recover_restarts_witness :
  exists d', ipclite_recover (E := demo_ipc_env) 5 (crashed_ipc demo_part7) = Ret tt d' /\
    recover_effect (E := demo_ipc_env) (crashed_ipc demo_part7) 5 (fst demo_fifos) (snd demo_fifos) 4 d'.
Proof.
  refine (recover_restarts (E := demo_ipc_env) (crashed_ipc demo_part7) 5 demo_chan (fst demo_fifos) (snd demo_fifos) 4 [] [7]
    crashed_holds _ _ _ _ _).
  - unfold IPCMEM_NUM_HOSTS. lia.
  - vm_compute. reflexivity.
  - vm_compute. reflexivity.
  - split; [vm_compute; reflexivity|]. intros i ch Hi Hs.
    assert (Hd : ch = demo_chan \/ ch = zero_channel) by (by apply demo_channels in Hi).
    destruct Hd as [-> | ->]; [|discriminate Hs].
    exists 0. split; [reflexivity|]. vm_compute. split; [discriminate|reflexivity].
  - intros c chc q H0 Hne Hc Hq. exfalso. pose proof (demo_channels _ _ _ Hc) as [-> | ->]; [|discriminate Hq].
    apply Hne. apply (demo_chan_5 _ (demo_part7)) in Hc. lia.
Defined.
