(* ===== verification/MmrmClk.v ===== *)
(** * The multimedia resource manager: state and clock tables

    The software clock manager of the mmrm driver
    ([mmrm_clk_rsrc_mgr_sw.c], [mmrm_clk_rsrc_mgr.h]): a table with one entry
    per clock, in which the clients of the driver register, and the peak
    current that the registered rates add up to. This file holds the data, the
    fixed-point numbers of [mmrm_fixedpoint.h], and the two routines that fill
    the tables of an entry when its client registers ([mmrm_sw_update_freq],
    [mmrm_sw_update_curr]). The clock framework, the notifiers of the clients
    and the constants of the absent header [msm_mmrm.h] are the class
    [MmrmEnv]. *)

From S2P Require Import Prelude Outcome.

Definition EINVAL : Z := 22.
Definition ENOMEM : Z := 12.
Definition MAX_ERRNO : Z := 4095.

(** [IS_ERR_OR_NULL] on the value of a pointer. *)
Definition IS_ERR_OR_NULL (p : Z) : bool := (p =? 0) || (p >=? 2 ^ 64 - MAX_ERRNO).

(** ** Constants *)

Definition CLK_RATE_STEP : Z := 1000000.
Definition MAX_HW_DRV_INSTANCES : Z := 6.
Definition MAX_POWER_STATES : Z := 5.
Definition MMRM_MAX_THROTTLE_CLIENTS : Z := 5.
Definition MMRM_VDD_LEVEL_LOW_SVS : Z := 0.
Definition MMRM_VDD_LEVEL_NOM : Z := 3.
Definition MMRM_VDD_LEVEL_TURBO : Z := 4.
Definition MMRM_VDD_LEVEL_MAX : Z := 5.
Definition CLK_MGR_SCHEME_SW : Z := 0.
Definition CLK_MGR_SCHEME_CXIPEAK : Z := 1.

(** The indices [0 .. MMRM_VDD_LEVEL_MAX - 1]. *)
Definition vdd_levels : list Z := [0; 1; 2; 3; 4].

(** ** Calls that leave the driver, oldest first *)

Inductive mmrm_event :=
| EvAlloc                                            (* [kzalloc], [kcalloc] *)
| EvNotify (fn pvt_data old_val new_val : Z)         (* [notifier_cb_fn] *)
| EvSetRate (clk rate : Z)                           (* [clk_set_rate] *)
| EvCrmSetRate (clk crm_drv_idx pwr_st rate : Z).    (* [qcom_clk_crm_set_rate] *)

(** What the driver takes from the kernel and from [linux/soc/qcom/msm_mmrm.h].
    [ext_rc h] is what the last call of the history [h] returns; for an
    allocation, a value other than 0 means that it fails. *)
Class MmrmEnv := {
  RPMH_REGULATOR_LEVEL_LOW_SVS : Z;
  RPMH_REGULATOR_LEVEL_SVS : Z;
  RPMH_REGULATOR_LEVEL_SVS_L1 : Z;
  RPMH_REGULATOR_LEVEL_NOM : Z;
  RPMH_REGULATOR_LEVEL_TURBO : Z;
  MMRM_CLK_CLIENT_NAME_SIZE : nat;
  MMRM_CLIENT_CLOCK : Z;
  MMRM_CLIENT_PRIOR_HIGH : Z;
  MMRM_CRM_SW_DRV : Z;
  MMRM_CLIENT_DATA_FLAG_RESERVE_ONLY : Z;
  clk_round_rate : Z -> Z -> Z;
  qcom_clk_get_voltage : Z -> Z -> Z;
  ext_rc : list mmrm_event -> Z;
  (** the regulator levels of [qcom,rpmh-regulator-levels.h] are increasing *)
  rpmh_levels_ordered :
    0 <= RPMH_REGULATOR_LEVEL_LOW_SVS < RPMH_REGULATOR_LEVEL_SVS /\
    RPMH_REGULATOR_LEVEL_SVS < RPMH_REGULATOR_LEVEL_SVS_L1 /\
    RPMH_REGULATOR_LEVEL_SVS_L1 < RPMH_REGULATOR_LEVEL_NOM < RPMH_REGULATOR_LEVEL_TURBO;
}.

(** ** Data *)

(** [struct mmrm_client], the handle of a client. *)
Record mmrm_client := mkClient { client_uid : Z; client_type : Z }.

(** [struct mmrm_clk_client_desc], [struct mmrm_client_data]. *)
Record clk_desc := mkDesc {
  client_domain : Z; client_id : Z; desc_name : list Z; desc_clk : Z;
  desc_hw_drv_instances : Z; desc_num_pwr_states : Z;
}.

Record client_data := mkData {
  cd_num_hw_blocks : Z; cd_flags : Z; cd_drv_type : Z; cd_crm_drv_idx : Z; cd_pwr_st : Z;
}.

(** The parts of [struct mmrm_sw_clk_client_tbl_entry]: what the client
    provides, the tables prepared for it, the rate it asked for, and the data
    of a client that is managed by the CRM. A pointer is its value, 0 for
    [NULL]; the callback is identified by its address. The fields
    [pass_through], [min_level] and [max_level] are used nowhere. *)
Record entry_user := mkUser {
  eu_name : list Z; eu_clk : Z; eu_pri : Z; eu_pvt_data : Z; eu_notifier_cb_fn : Z;
  eu_client : option mmrm_client;
}.

Record entry_tables := mkTables {
  clk_src_id : Z; max_num_hw_blocks : Z;
  freq : list Z; dyn_pwr : list Z; leak_pwr : list Z; current_ma : list (list Z);
}.

Record entry_vote := mkVote {
  clk_rate : Z; vdd_level : Z; reserve : bool; ref_count : Z; num_hw_blocks : Z;
}.

Record entry_crm := mkCrm {
  is_crm_client : bool; hw_drv_instances : Z; num_pwr_states : Z; max_rate_idx : Z;
  crm_client_tbl_size : Z; crm_client_tbl : option (list Z);
}.

Record clk_entry := mkEntry {
  e_user : entry_user; e_tables : entry_tables; e_vote : entry_vote; e_crm : entry_crm;
}.

Definition set_user (u : entry_user) (e : clk_entry) := mkEntry u (e_tables e) (e_vote e) (e_crm e).
Definition set_tables (t : entry_tables) (e : clk_entry) := mkEntry (e_user e) t (e_vote e) (e_crm e).
Definition set_vote (v : entry_vote) (e : clk_entry) := mkEntry (e_user e) (e_tables e) v (e_crm e).
Definition set_crm (c : entry_crm) (e : clk_entry) := mkEntry (e_user e) (e_tables e) (e_vote e) c.

(** [struct mmrm_sw_throttled_clients_data] *)
Record throttled_data := mkThrottled { table_id : Z; delta_cu_ma : Z; prev_vdd_level : Z }.

(** [struct corner_info], [struct nom_clk_src_info] and
    [struct mmrm_clk_platform_resources] *)
Record corner_info := mkCorner { volt_factor : Z; scaling_factor_dyn : Z; scaling_factor_leak : Z }.

Record nom_clk_src_info := mkNom {
  nom_domain : Z; nom_clk_src_id : Z; nom_dyn_pwr : Z; nom_leak_pwr : Z; nom_num_hw_block : Z;
}.

Record clk_resources := mkRes {
  res_scheme : Z; clsid_threshold_clients : list Z; res_throttle_length : Z;
  corner_tbl : list corner_info; clk_src_tbl : list nom_clk_src_info; peak_threshold : Z;
}.

(** [struct mmrm_sw_peak_current_data] *)
Record peak_data := mkPeak { threshold : Z; aggreg_val : Z; aggreg_level : Z }.

(** [struct mmrm_clk_mgr] with its [struct mmrm_sw_clk_mgr_info], the two
    switches of [mmrm_debug.c], and the calls made so far. [tot_clk_clients]
    is the length of the table; [tbl_entry_id] is what
    [throttle_clients_info] is used for. *)
Record mmrm := mkMmrm {
  mm_lock : bool;
  clk_client_tbl : list clk_entry;
  enabled_clk_clients : Z;
  throttle_clients_info : list Z;
  throttle_clients_data_length : Z;
  peak_cur_data : peak_data;
  throttled_clients : list throttled_data;
  mm_res : clk_resources;
  msm_mmrm_enable_throttle_feature : Z;
  msm_mmrm_allow_multiple_register : Z;
  mm_log : list mmrm_event;
}.

Definition tot_clk_clients (s : mmrm) : Z := zlen (clk_client_tbl s).

Definition set_lock (b : bool) (s : mmrm) : mmrm :=
  mkMmrm b (clk_client_tbl s) (enabled_clk_clients s) (throttle_clients_info s)
    (throttle_clients_data_length s) (peak_cur_data s) (throttled_clients s) (mm_res s)
    (msm_mmrm_enable_throttle_feature s) (msm_mmrm_allow_multiple_register s) (mm_log s).
Definition set_tbl (t : list clk_entry) (s : mmrm) : mmrm :=
  mkMmrm (mm_lock s) t (enabled_clk_clients s) (throttle_clients_info s)
    (throttle_clients_data_length s) (peak_cur_data s) (throttled_clients s) (mm_res s)
    (msm_mmrm_enable_throttle_feature s) (msm_mmrm_allow_multiple_register s) (mm_log s).
Definition set_peak (p : peak_data) (s : mmrm) : mmrm :=
  mkMmrm (mm_lock s) (clk_client_tbl s) (enabled_clk_clients s) (throttle_clients_info s)
    (throttle_clients_data_length s) p (throttled_clients s) (mm_res s)
    (msm_mmrm_enable_throttle_feature s) (msm_mmrm_allow_multiple_register s) (mm_log s).
Definition set_throttled (l : list throttled_data) (s : mmrm) : mmrm :=
  mkMmrm (mm_lock s) (clk_client_tbl s) (enabled_clk_clients s) (throttle_clients_info s)
    (throttle_clients_data_length s) (peak_cur_data s) l (mm_res s)
    (msm_mmrm_enable_throttle_feature s) (msm_mmrm_allow_multiple_register s) (mm_log s).
Definition set_log (l : list mmrm_event) (s : mmrm) : mmrm :=
  mkMmrm (mm_lock s) (clk_client_tbl s) (enabled_clk_clients s) (throttle_clients_info s)
    (throttle_clients_data_length s) (peak_cur_data s) (throttled_clients s) (mm_res s)
    (msm_mmrm_enable_throttle_feature s) (msm_mmrm_allow_multiple_register s) l.

(** ** Steps *)

Definition mutex_lock : run mmrm unit :=
  s ← get; if mm_lock s then block else put (set_lock true s).
Definition mutex_unlock : run mmrm unit := modify (set_lock false).

(** [&sinfo->clk_client_tbl[i]]: reading the entry, and changing it. *)
Definition entry_at (i : Z) : run mmrm clk_entry :=
  s ← get; guard (0 <=? i);; deref (clk_client_tbl s !! Z.to_nat i).
Definition upd_entry (i : Z) (f : clk_entry -> clk_entry) : run mmrm unit :=
  e ← entry_at i; modify (fun s => set_tbl (zupd (clk_client_tbl s) i (f e)) s).

(** [tbl_entry->current_ma[i][j]] *)
Definition cur_ma (e : clk_entry) (i j : Z) : Z := znth 0 (znth [] (current_ma (e_tables e)) i) j.

(** ** Fixed-point numbers: 64 bits, of which 16 are the fraction *)

Definition FP_FRACTIONAL_BITS : Z := 16.
Definition Q16_INT (q : Z) : Z := Z.shiftr q 16.
Definition Q16_FRAC (q : Z) : Z := Z.shiftr (u32 (Z.land q 65535 * 100)) 16.
Definition FP (i f_n f_d : Z) : Z :=
  u64 (u64 (Z.shiftl i FP_FRACTIONAL_BITS) + u32 (Z.shiftl f_n FP_FRACTIONAL_BITS) / f_d).
Definition fp_frac_base : Z := Z.ones FP_FRACTIONAL_BITS.
Definition fp_frac (a : Z) : Z := Z.land a (Z.ones FP_FRACTIONAL_BITS).
Definition fp_int (a : Z) : Z := Z.shiftr a FP_FRACTIONAL_BITS.
Definition fp_round (a : Z) : Z :=
  u64 (fp_int a + if fp_frac a >=? fp_frac_base / 2 then 1 else 0).
Definition fp_mult (a b : Z) : Z := Z.shiftr (u64 (a * b)) FP_FRACTIONAL_BITS.
Definition fp_div (a b : Z) : Z := u64 (Z.shiftl a FP_FRACTIONAL_BITS) / b.

(** A value of a device-tree table in Q16 as a fixed-point number. *)
Definition fp_of_q16 (q : Z) : Z := FP (Q16_INT q) (Q16_FRAC q) 100.

(** ** The tables of an entry *)

Section tables.
Context `{E : MmrmEnv}.

Definition mmrm_sw_vdd_corner : list Z :=
  [RPMH_REGULATOR_LEVEL_LOW_SVS; RPMH_REGULATOR_LEVEL_SVS; RPMH_REGULATOR_LEVEL_SVS_L1;
   RPMH_REGULATOR_LEVEL_NOM; RPMH_REGULATOR_LEVEL_TURBO].

(** [voltage_corner < 0 || voltage_corner > mmrm_sw_vdd_corner[MMRM_VDD_LEVEL_TURBO]] *)
Definition invalid_corner (voltage_corner : Z) : bool :=
  (voltage_corner <? 0) || (voltage_corner >? RPMH_REGULATOR_LEVEL_TURBO).

(** The [for] loops that look for a corner in [mmrm_sw_vdd_corner];
    [MMRM_VDD_LEVEL_MAX] when there is none. *)
Definition match_vdd_level (voltage_corner : Z) : Z :=
  match find_index (fun c => voltage_corner =? c) mmrm_sw_vdd_corner with
  | Some i => Z.of_nat i
  | None => MMRM_VDD_LEVEL_MAX
  end.

(** [while (i < MMRM_VDD_LEVEL_MAX) freq[i++] = clk_val_round] *)
Definition fill_freq (i clk_val_round : Z) (f : list Z) : list Z :=
  imap (fun k x => if i <=? Z.of_nat k then clk_val_round else x) f.

(** The loop over the rates; [None] when the fuel runs out. *)
Fixpoint freq_steps (fuel : nat) (clk clk_val clk_val_min clk_val_max : Z) (f : list Z) : option (list Z) :=
  if clk_val <? clk_val_max then
    match fuel with
    | O => None
    | S fuel =>
        let clk_val_round := clk_round_rate clk clk_val in
        if clk_val_round >? clk_val_min then
          let corner := qcom_clk_get_voltage clk clk_val_round in
          if invalid_corner corner then Some f else
          let corner := if corner <? RPMH_REGULATOR_LEVEL_LOW_SVS
                        then RPMH_REGULATOR_LEVEL_LOW_SVS else corner in
          freq_steps fuel clk (clk_val + CLK_RATE_STEP) clk_val_round clk_val_max
            (fill_freq (match_vdd_level corner) (u64 clk_val_round) f)
        else freq_steps fuel clk (clk_val + CLK_RATE_STEP) clk_val_min clk_val_max f
    end
  else Some f.

Definition freq_fuel (clk_val_min clk_val_max : Z) : nat :=
  Z.to_nat ((clk_val_max - clk_val_min) / CLK_RATE_STEP + 1).

Definition ULONG_MAX : Z := 2 ^ 64 - 1.

(** [mmrm_sw_update_freq] on [tbl_entry->clk]: the new [tbl_entry->freq]. *)
Definition mmrm_sw_update_freq (clk : Z) : option (list Z) :=
  let clk_val_min := clk_round_rate clk 1 in
  let clk_val_max := clk_round_rate clk ULONG_MAX in
  freq_steps (freq_fuel clk_val_min clk_val_max) clk clk_val_min clk_val_min clk_val_max
    (replicate 5 (u64 clk_val_min)).

(** The dynamic power at level [i], the leakage power, and the current at the
    voltage [volt], before they are rounded. *)
Definition fp_dyn_pwr (dyn nom_freq f scaling_factor : Z) : Z :=
  fp_mult (fp_div (fp_mult dyn f) nom_freq) (fp_of_q16 scaling_factor).
Definition fp_leak_pwr (leak scaling_factor : Z) : Z := fp_mult leak (fp_of_q16 scaling_factor).
Definition fp_current (dyn leak volt : Z) : Z := fp_div (u64 (dyn + leak)) (fp_of_q16 volt).

(** The loops of [mmrm_sw_update_curr] over the levels, as tables of [u32]. *)
Definition curr_tables (corners : list corner_info) (nom : nom_clk_src_info) (f : list Z) :
    list Z * list Z * list (list Z) :=
  let dyn0 := fp_of_q16 (nom_dyn_pwr nom) in
  let leak0 := fp_of_q16 (nom_leak_pwr nom) in
  let nom_freq := znth 0 f MMRM_VDD_LEVEL_NOM in
  let dyns := zip_with (fun c fi => fp_dyn_pwr dyn0 nom_freq fi (scaling_factor_dyn c)) corners f in
  let leaks := (fun c => fp_leak_pwr leak0 (scaling_factor_leak c)) <$> corners in
  ((fun p => u32 (fp_round p)) <$> dyns, (fun p => u32 (fp_round p)) <$> leaks,
   zip_with (fun d l => (fun c => u32 (fp_round (fp_current d l (volt_factor c)))) <$> corners)
     dyns leaks).

(** [mmrm_sw_update_curr]: the corners of all levels must be in the table, and
    no division is by zero. The entry of the nominal powers is the one at the
    index of the first entry of the client table with the same source id. *)
Definition mmrm_sw_update_curr (i : Z) : run mmrm Z :=
  s ← get; e ← entry_at i;
  match find_index (fun e' => clk_src_id (e_tables e) =? clk_src_id (e_tables e')) (clk_client_tbl s) with
  | None => mret (- EINVAL)
  | Some c =>
      nom ← deref (clk_src_tbl (mm_res s) !! c);
      let t := e_tables e in
      let corners := take 5 (corner_tbl (mm_res s)) in
      guard (zlen corners =? MMRM_VDD_LEVEL_MAX);;
      guard (truthy (znth 0 (freq t) MMRM_VDD_LEVEL_NOM));;
      guard (forallb (fun c => truthy (fp_of_q16 (volt_factor c))) corners);;
      let '(d, l, cur) := curr_tables corners nom (freq t) in
      upd_entry i (set_tables (mkTables (clk_src_id t) (max_num_hw_blocks t) (freq t) d l cur));;
      mret 0
  end.

End tables.
