(* ===== verification/MmrmMgr.v ===== *)
(** * The multimedia resource manager: the software clock manager

    The operations of [mmrm_clk_rsrc_mgr_sw.c]: registering a client in the
    entry of its clock, admitting a rate against the peak current of the
    platform ([mmrm_sw_check_peak_current], with the throttling of clients of
    low priority), and setting the value of a client. [tbl_entry] is the index
    of the entry in the table. *)

From S2P Require Import Prelude Outcome MmrmClk.

Section manager.
Context `{E : MmrmEnv}.

(** A call that leaves the driver, with what it returns. *)
Definition ext_call (ev : mmrm_event) : run mmrm Z := fun s =>
  let log := mm_log s ++ [ev] in Ret (ext_rc log) (set_log log s).

(** [kzalloc], [kcalloc]: whether the allocation succeeds. *)
Definition alloc_ok : run mmrm bool := rc ← ext_call EvAlloc; mret (rc =? 0).

(** ** The rate of a client that is managed by the CRM *)

(** The loop over the vote table: the largest value outside of the index [skip]
    and its index, starting from [best]. [crm_max_rate] is a [u32]. *)
Fixpoint crm_max_scan (tbl : list Z) (i skip : Z) (best : Z * Z) : Z * Z :=
  match tbl with
  | [] => best
  | x :: tbl =>
      crm_max_scan tbl (i + 1) skip
        (if i =? skip then best else if x >? fst best then (u32 x, i) else best)
  end.

(** The index of the vote of [client_data]. *)
Definition crm_vote_idx (c : entry_crm) (d : client_data) : Z :=
  if cd_drv_type d =? MMRM_CRM_SW_DRV then u32 (crm_client_tbl_size c - 1)
  else u32 (num_pwr_states c * cd_crm_drv_idx d + cd_pwr_st d).

(** [mmrm_sw_get_max_crm_rate]: the new maximal rate and its index. *)
Definition mmrm_sw_get_max_crm_rate (e : clk_entry) (d : client_data) (new_clk_val : Z) : option (Z * Z) :=
  let c := e_crm e in
  let crm_max_rate := u32 (clk_rate (e_vote e)) in
  let new_val_idx := crm_vote_idx c d in
  if new_clk_val >? crm_max_rate then Some (u32 new_clk_val, new_val_idx)
  else if new_val_idx =? max_rate_idx c then
    tbl ← crm_client_tbl c;
    let '(m, i) := crm_max_scan tbl 0 (max_rate_idx c) (0, max_rate_idx c) in
    Some (if new_clk_val >=? m then (u32 new_clk_val, max_rate_idx c) else (m, i))
  else Some (crm_max_rate, max_rate_idx c).

(** ** Registration *)

(** The data of [err_fail_update_entry] and [err_fail_alloc_crm_tbl]. *)
Definition no_crm : entry_crm := mkCrm false 0 0 0 0 None.

Definition clear_user (u : entry_user) : entry_user := mkUser (eu_name u) 0 0 0 0 None.

(** [err_fail_alloc_clk_client]. *)
Definition register_fail (c : Z) (f : clk_entry -> clk_entry) : run mmrm (option mmrm_client) :=
  upd_entry c (fun e => set_user (clear_user (e_user e)) (f e));; mutex_unlock;; mret None.

(** The end of [mmrm_sw_clk_client_register], from [mmrm_sw_update_freq]. *)
Definition register_tables (c : Z) (client : mmrm_client) : run mmrm (option mmrm_client) :=
  e ← entry_at c;
  f ← deref (mmrm_sw_update_freq (eu_clk (e_user e)));
  let t := e_tables e in
  upd_entry c (set_tables (mkTables (clk_src_id t) (max_num_hw_blocks t) f
    (dyn_pwr t) (leak_pwr t) (current_ma t)));;
  rc ← mmrm_sw_update_curr c;
  if truthy rc then register_fail c (set_crm no_crm)
  else mutex_unlock;; mret (Some client).

(** The part of it that makes the vote table of a CRM client. *)
Definition register_crm (c : Z) (desc : clk_desc) (client : mmrm_client) : run mmrm (option mmrm_client) :=
  if (desc_hw_drv_instances desc >? MAX_HW_DRV_INSTANCES)
     || (desc_num_pwr_states desc >? MAX_POWER_STATES) then register_fail c id
  else if (desc_hw_drv_instances desc >? 0) && (desc_num_pwr_states desc >? 0) then
    let size := u32 (desc_hw_drv_instances desc * desc_num_pwr_states desc + 1) in
    ok ← alloc_ok;
    if negb ok then
      register_fail c (fun e => let k := e_crm e in
        set_crm (mkCrm (is_crm_client k) (hw_drv_instances k) (num_pwr_states k) (max_rate_idx k) 0 None) e)
    else
      upd_entry c (set_crm (mkCrm true (desc_hw_drv_instances desc) (desc_num_pwr_states desc) 0 size
        (Some (replicate (Z.to_nat size) 0))));;
      register_tables c client
  else register_tables c client.

Definition clk_client_src_id (desc : clk_desc) : Z :=
  Z.lor (u32 (Z.shiftl (client_domain desc) 16)) (client_id desc).

(** [strlcpy]. *)
Definition strlcpy (src : list Z) : list Z := take (MMRM_CLK_CLIENT_NAME_SIZE - 1) src.

Definition mmrm_sw_clk_client_register (desc : clk_desc) (priority pvt_data not_fn_cb : Z) :
    run mmrm (option mmrm_client) :=
  mutex_lock;;
  s ← get;
  if tot_clk_clients s =? enabled_clk_clients s then mutex_unlock;; mret None else
  match find_index (fun e => clk_client_src_id desc =? clk_src_id (e_tables e)) (clk_client_tbl s) with
  | None => mutex_unlock;; mret None
  | Some k =>
      let c := Z.of_nat k in
      e ← entry_at c;
      match eu_client (e_user e) with
      | Some client =>
          if truthy (msm_mmrm_allow_multiple_register s) then
            upd_entry c (fun e => let v := e_vote e in
              set_vote (mkVote (clk_rate v) (vdd_level v) (reserve v) (u32 (ref_count v + 1)) (num_hw_blocks v)) e);;
            mutex_unlock;; mret (Some client)
          else mutex_unlock;; mret None
      | None =>
          ok ← alloc_ok;
          if negb ok then register_fail c id else
          let client := mkClient c MMRM_CLIENT_CLOCK in
          upd_entry c (fun e => let v := e_vote e in
            set_vote (mkVote (clk_rate v) (vdd_level v) (reserve v) 1 (num_hw_blocks v))
              (set_user (mkUser (strlcpy (desc_name desc)) (desc_clk desc) priority pvt_data not_fn_cb
                 (Some client)) e));;
          register_crm c desc client
      end
  end.

(** [mmrm_sw_clk_client_deregister]. The flag [reserve] and the number of
    hardware blocks stay. *)
Definition mmrm_sw_clk_client_deregister (client : option mmrm_client) : run mmrm Z :=
  match client with
  | None => mret (- EINVAL)
  | Some cl =>
      s ← get;
      if client_uid cl >=? tot_clk_clients s then mret (- EINVAL) else
      mutex_lock;;
      e ← entry_at (client_uid cl);
      let v := e_vote e in
      let refs := if ref_count v >? 0 then ref_count v - 1 else ref_count v in
      (if refs =? 0 then
         upd_entry (client_uid cl) (fun e =>
           mkEntry (clear_user (e_user e)) (e_tables e)
             (mkVote 0 0 (reserve v) refs (num_hw_blocks v)) no_crm)
       else
         upd_entry (client_uid cl)
           (set_vote (mkVote (clk_rate v) (vdd_level v) (reserve v) refs (num_hw_blocks v))));;
      mutex_unlock;;
      mret 0
  end.

(** ** Levels and currents *)

(** [mmrm_sw_get_req_level]: an error, or the level of the rate. *)
Definition mmrm_sw_get_req_level (clk clk_val : Z) : Z + Z :=
  let corner := qcom_clk_get_voltage clk (clk_round_rate clk clk_val) in
  if invalid_corner corner then inl corner
  else if corner <? RPMH_REGULATOR_LEVEL_LOW_SVS then inr MMRM_VDD_LEVEL_LOW_SVS
  else
    let level := match_vdd_level corner in
    if level =? MMRM_VDD_LEVEL_MAX then inl (- EINVAL) else inr level.

(** [IS_ERR_OR_NULL(tbl_entry->clk) || !tbl_entry->clk_rate]: the entries that
    the loops over the clients skip. *)
Definition inactive (e : clk_entry) : bool :=
  IS_ERR_OR_NULL (eu_clk (e_user e)) || (clk_rate (e_vote e) =? 0).

(** The loop of [mmrm_sw_check_req_level]: whether it stops at an entry of the
    aggregated level, and the level of [next_max_entry]. *)
Fixpoint level_loop (tbl : list clk_entry) (src_id req_level aggreg : Z) (next : option Z) : bool * option Z :=
  match tbl with
  | [] => (false, next)
  | e :: tbl =>
      if inactive e || (clk_src_id (e_tables e) =? src_id) then level_loop tbl src_id req_level aggreg next
      else if vdd_level (e_vote e) =? aggreg then (true, next)
      else level_loop tbl src_id req_level aggreg
             (if (vdd_level (e_vote e) <? aggreg) && (vdd_level (e_vote e) >? req_level)
              then Some (vdd_level (e_vote e)) else next)
  end.

(** [mmrm_sw_check_req_level]: an error, or [*adj_level]. *)
Definition mmrm_sw_check_req_level (s : mmrm) (src_id req_level : Z) : Z + Z :=
  let aggreg := aggreg_level (peak_cur_data s) in
  if req_level >=? MMRM_VDD_LEVEL_MAX then inl (- EINVAL)
  else if req_level <? aggreg then
    match level_loop (clk_client_tbl s) src_id req_level aggreg None with
    | (true, _) => inr aggreg
    | (false, Some l) => inr (if l >? req_level then l else req_level)
    | (false, None) => inr req_level
    end
  else inr req_level.

(** The current of an entry at the level [level]. *)
Definition entry_cur (e : clk_entry) (level : Z) : Z :=
  u32 (cur_ma e (vdd_level (e_vote e)) level * num_hw_blocks (e_vote e)).

(** [mmrm_sw_calculate_total_current]: the sum over the active entries but the
    one of index [i_new]; [c] is the index of the head of the list. *)
Fixpoint total_loop (tbl : list clk_entry) (c i_new req_level sum_cur : Z) : Z :=
  match tbl with
  | [] => sum_cur
  | e :: tbl =>
      total_loop tbl (c + 1) i_new req_level
        (if inactive e || (c =? i_new) then sum_cur else u32 (sum_cur + entry_cur e req_level))
  end.

Definition mmrm_sw_calculate_total_current (s : mmrm) (req_level i_new : Z) : Z + Z :=
  if req_level >=? MMRM_VDD_LEVEL_MAX then inl (- EINVAL)
  else inr (total_loop (clk_client_tbl s) 0 i_new req_level 0).

(** ** Throttling *)

(** The levels index the arrays of an entry. *)
Definition is_level (l : Z) : bool := (0 <=? l) && (l <? MMRM_VDD_LEVEL_MAX).

(** The loop of [mmrm_sw_throttle_low_priority_client] from [i] on: the value
    that it returns and the new [*delta_cur]. *)
Fixpoint throttle_loop (n : nat) (i rc delta_cur : Z) : run mmrm (Z * Z) :=
  match n with
  | O => mret (rc, delta_cur)
  | S n =>
      s ← get;
      id ← deref (throttle_clients_info s !! Z.to_nat i);
      e ← entry_at id;
      let v := e_vote e in let u := e_user e in
      guard (is_level (vdd_level v) && is_level (aggreg_level (peak_cur_data s)));;
      let now := cur_ma e (vdd_level v) (aggreg_level (peak_cur_data s)) in
      let min := cur_ma e MMRM_VDD_LEVEL_LOW_SVS (aggreg_level (peak_cur_data s)) in
      if (now <=? min) || (now - min <=? u32 delta_cur) then throttle_loop n (i + 1) rc delta_cur else
      let low := znth 0 (freq (e_tables e)) MMRM_VDD_LEVEL_LOW_SVS in
      rc ← (if truthy (eu_notifier_cb_fn u)
            then ext_call (EvNotify (eu_notifier_cb_fn u) (eu_pvt_data u)
                    (znth 0 (freq (e_tables e)) (vdd_level v)) low)
            else mret rc);
      if truthy rc then throttle_loop n (i + 1) rc delta_cur else
      rc ← (if reserve v then mret rc else ext_call (EvSetRate (eu_clk u) low));
      if truthy rc then throttle_loop n (i + 1) rc delta_cur else
      let delta' := s32 (u32 (delta_cur - (now - min))) in
      ok ← alloc_ok;
      if negb ok then mret (- ENOMEM, delta') else
      modify (fun s => set_throttled (throttled_clients s ++ [mkThrottled i (now - min) (vdd_level v)]) s);;
      upd_entry id (set_vote (mkVote low MMRM_VDD_LEVEL_LOW_SVS false (ref_count v) (num_hw_blocks v)));;
      mret (rc, delta')
  end.

Definition mmrm_sw_throttle_low_priority_client (delta_cur : Z) : run mmrm (Z * Z) :=
  s ← get; throttle_loop (Z.to_nat (throttle_clients_data_length s)) 0 0 delta_cur.

(** [mmrm_reinstate_throttled_client]: tells the throttled clients whose
    current fits again, and forgets them. *)
Fixpoint reinstate_loop (l : list throttled_data) : run mmrm (list throttled_data) :=
  match l with
  | [] => mret []
  | it :: l =>
      s ← get;
      let p := peak_cur_data s in
      if u32 (aggreg_val p + delta_cu_ma it) <=? threshold p then
        id ← deref (throttle_clients_info s !! Z.to_nat (table_id it));
        e ← entry_at id;
        let u := e_user e in
        (if truthy (eu_notifier_cb_fn u)
         then _ ← ext_call (EvNotify (eu_notifier_cb_fn u) (eu_pvt_data u)
                  (znth 0 (freq (e_tables e)) MMRM_VDD_LEVEL_LOW_SVS)
                  (znth 0 (freq (e_tables e)) (prev_vdd_level it))); mret tt
         else mret tt);;
        reinstate_loop l
      else
        rest ← reinstate_loop l; mret (it :: rest)
  end.

Definition mmrm_reinstate_throttled_client : run mmrm unit :=
  s ← get; l ← reinstate_loop (throttled_clients s); modify (set_throttled l).

(** ** Admission *)

Definition update_peak (val level : Z) : run mmrm unit :=
  modify (fun s => set_peak (mkPeak (threshold (peak_cur_data s)) val level) s).

(** The end of [mmrm_sw_check_peak_current], with [peak_cur] and [delta_cur]:
    [int] against [u32] is compared as [u32]. *)
Definition peak_decide (i adj_level peak_cur delta_cur : Z) : run mmrm Z :=
  s ← get; e ← entry_at i;
  if s32 (s32 peak_cur + delta_cur) <=? 0 then update_peak 0 adj_level;; mret 0 else
  let finish rc delta_cur :=
    update_peak (u32 (peak_cur + delta_cur)) adj_level;;
    mmrm_reinstate_throttled_client;;
    mret rc in
  if u32 (s32 peak_cur + delta_cur) >=? threshold (peak_cur_data s) then
    if (eu_pri (e_user e) =? MMRM_CLIENT_PRIOR_HIGH) && (msm_mmrm_enable_throttle_feature s >? 0) then
      '(rc, delta') ← mmrm_sw_throttle_low_priority_client delta_cur;
      if truthy rc then mret rc else finish rc delta'
    else mret (- EINVAL)
  else finish 0 delta_cur.

(** [mmrm_sw_check_peak_current]. *)
Definition mmrm_sw_check_peak_current (i req_level clk_val blocks : Z) : run mmrm Z :=
  s ← get; e ← entry_at i;
  let p := peak_cur_data s in
  match mmrm_sw_check_req_level s (clk_src_id (e_tables e)) req_level with
  | inl rc => mret rc
  | inr adj_level =>
      guard (is_level req_level && is_level adj_level && is_level (aggreg_level p)
             && is_level (vdd_level (e_vote e)));;
      let new_cur := if truthy (u32 clk_val) then u32 (cur_ma e req_level adj_level * blocks) else 0 in
      let old_cur := if truthy (clk_rate (e_vote e)) then entry_cur e (aggreg_level p) else 0 in
      if negb (adj_level =? aggreg_level p) then
        match mmrm_sw_calculate_total_current s adj_level i with
        | inl rc => mret rc
        | inr total => peak_decide i adj_level (u32 (total + new_cur)) 0
        end
      else peak_decide i adj_level (aggreg_val p) (s32 (u32 (new_cur - old_cur)))
  end.

(** ** Setting and reading the value of a client *)

(** [set_clk_rate:] in [mmrm_sw_clk_client_setval]. *)
Definition set_clk_rate (i : Z) (d : client_data) (clk_val : Z) : run mmrm Z :=
  e ← entry_at i;
  rc ← ext_call (if negb (is_crm_client (e_crm e)) || (cd_drv_type d =? MMRM_CRM_SW_DRV)
                 then EvSetRate (eu_clk (e_user e)) clk_val
                 else EvCrmSetRate (eu_clk (e_user e)) (cd_crm_drv_idx d) (cd_pwr_st d) clk_val);
  mret (if truthy rc then - EINVAL else 0).

(** The level of the request; [None] when it is refused. [rate] is [clk_val],
    or the maximal rate of a CRM client. *)
Definition request_level (e : clk_entry) (d : client_data) (clk_val rate : Z) : option Z :=
  if truthy clk_val then
    match mmrm_sw_get_req_level (eu_clk (e_user e)) rate with
    | inl _ => None
    | inr level =>
        if (level >=? MMRM_VDD_LEVEL_MAX)
           || negb ((cd_num_hw_blocks d >=? 1) && (cd_num_hw_blocks d <=? max_num_hw_blocks (e_tables e)))
        then None else Some level
    end
  else Some 0.

(** The vote of a CRM client is stored in its table. *)
Definition store_crm (e : clk_entry) (d : client_data) (clk_val max_idx : Z) : option entry_crm :=
  let c := e_crm e in
  tbl ← crm_client_tbl c;
  let i := crm_vote_idx c d in
  if i <? zlen tbl
  then Some (mkCrm (is_crm_client c) (hw_drv_instances c) (num_pwr_states c) max_idx
               (crm_client_tbl_size c) (Some (zupd tbl i clk_val)))
  else None.

(** From the admission on: [rate] as above, [max_idx] for a CRM client. *)
Definition setval_admit (i : Z) (d : client_data) (clk_val rate max_idx req_level : Z) (req_reserve : bool) :
    run mmrm Z :=
  mutex_lock;;
  rc ← mmrm_sw_check_peak_current i req_level rate (cd_num_hw_blocks d);
  if truthy rc then mutex_unlock;; mret rc else
  e ← entry_at i;
  (if is_crm_client (e_crm e)
   then c ← deref (store_crm e d clk_val max_idx); upd_entry i (set_crm c)
   else mret tt);;
  upd_entry i (set_vote (mkVote rate req_level req_reserve (ref_count (e_vote e)) (cd_num_hw_blocks d)));;
  mutex_unlock;;
  if req_reserve && negb (is_crm_client (e_crm e)) then mret 0
  else set_clk_rate i d clk_val.

(** The request that repeats the current rate of a client. *)
Definition setval_same (i : Z) (e : clk_entry) (d : client_data) (clk_val : Z) (req_reserve : bool) : run mmrm Z :=
  let v := e_vote e in
  if Bool.eqb (reserve v) req_reserve then mret 0 else
  mutex_lock;;
  upd_entry i (set_vote (mkVote (clk_rate v) (vdd_level v) req_reserve (ref_count v) (num_hw_blocks v)));;
  mutex_unlock;;
  if req_reserve then mret 0 else set_clk_rate i d clk_val.

Definition mmrm_sw_clk_client_setval (client : option mmrm_client) (data : option client_data) (clk_val : Z) :
    run mmrm Z :=
  match client, data with
  | None, _ => mret (- EINVAL)
  | Some cl, None => mret (- EINVAL)
  | Some cl, Some d =>
      s ← get;
      let i := client_uid cl in
      if i >=? tot_clk_clients s then mret (- EINVAL) else
      e ← entry_at i;
      let c := e_crm e in
      if IS_ERR_OR_NULL (eu_clk (e_user e)) then mret (- EINVAL) else
      if is_crm_client c && ((cd_crm_drv_idx d >=? hw_drv_instances c) || (cd_pwr_st d >=? num_pwr_states c))
      then mret (- EINVAL) else
      '(rate, max_idx) ← (if is_crm_client c then deref (mmrm_sw_get_max_crm_rate e d clk_val)
                          else mret (clk_val, 0));
      let req_reserve := truthy (Z.land (cd_flags d) MMRM_CLIENT_DATA_FLAG_RESERVE_ONLY) in
      if (clk_rate (e_vote e) =? clk_val) && (num_hw_blocks (e_vote e) =? cd_num_hw_blocks d)
         && negb (is_crm_client c)
      then setval_same i e d clk_val req_reserve
      else
        match request_level e d clk_val rate with
        | None => mret (- EINVAL)
        | Some req_level => setval_admit i d clk_val rate max_idx req_level req_reserve
        end
  end.

(** [mmrm_sw_clk_client_getval]: the values [min], [cur] and [max] are all the
    rate that was configured. *)
Definition mmrm_sw_clk_client_getval (client : option mmrm_client) : run mmrm (Z + Z * Z * Z) :=
  match client with
  | None => mret (inl (- EINVAL))
  | Some cl =>
      s ← get;
      if client_uid cl >=? tot_clk_clients s then mret (inl (- EINVAL)) else
      e ← entry_at (client_uid cl);
      if eu_clk (e_user e) =? 0 then mret (inl (- EINVAL))
      else let r := clk_rate (e_vote e) in mret (inr (r, r, r))
  end.

End manager.
