(* ===== verification/MmrmInit.v ===== *)
(** * The multimedia resource manager: start-up

    The resources that the driver reads from the device tree and from its
    platform data ([mmrm_res_parse.c]), and the table of the clock manager made
    of them ([mmrm_sw_prepare_table], [mmrm_init_sw_clk_mgr]). At the end, a
    concrete platform for the witnesses. *)

From S2P Require Import Prelude Outcome MmrmClk MmrmMgr.

Definition ENODEV : Z := 19.

(** [sizeof(struct nom_clk_src_info)], and the cells of one entry. *)
Definition SIZEOF_NOM_CLK_SRC_INFO : Z := 20.
Definition entry_offset : Z := 5.

(** The properties of the device-tree node: a cell that cannot be read leaves
    its zero-filled destination as it is. *)
Record dt_node := mkDt {
  dt_corners : Z;                    (* [of_property_count_strings("mm-rail-corners")] *)
  dt_fact_volt : Z -> option Z;      (* cells of ["mm-rail-fact-volt"] *)
  dt_fact_dyn : Z -> option Z;       (* ["scaling-fact-dyn"] *)
  dt_fact_leak : Z -> option Z;      (* ["scaling-fact-leak"] *)
  dt_threshold : option Z;           (* ["mmrm-peak-threshold"] *)
  dt_client_size : Z;                (* the size of ["mmrm-client-info"], 0 if absent *)
  dt_client_info : Z -> option Z;    (* its cells *)
}.

(** [struct mmrm_platform_data] *)
Record platform_data := mkPdata { pd_scheme : option Z; pd_throttle : list (Z * Z) }.

(** [0 .. n-1] *)
Definition zrange (n : Z) : list Z := Z.of_nat <$> seq 0 (Z.to_nat n).

Definition cell (o : option Z) : Z := default 0 o.

(** [mmrm_find_key_value] for ["qcom,mmrm_clk_mgr_scheme"]. *)
Definition mmrm_find_key_value (p : platform_data) : Z := default 0 (pd_scheme p).

(** [mmrm_read_clk_pltfrm_rsrc_frm_drv_data]: the ids are stored in an array of
    [MMRM_MAX_THROTTLE_CLIENTS]. *)
Definition mmrm_read_clk_pltfrm_rsrc_frm_drv_data (p : platform_data) : option (Z * list Z * Z) :=
  if zlen (pd_throttle p) <=? MMRM_MAX_THROTTLE_CLIENTS
  then Some (mmrm_find_key_value p,
             ((fun c => Z.lor (u32 (Z.shiftl (fst c) 16)) (snd c)) <$> pd_throttle p)
               ++ replicate (5 - length (pd_throttle p)) 0,
             zlen (pd_throttle p))
  else None.

(** [mmrm_load_mm_rail_corner_table]: without corners it succeeds, with no
    table. *)
Definition mmrm_load_mm_rail_corner_table (alloc : bool) (dt : dt_node) : Z * list corner_info :=
  if dt_corners dt <=? 0 then (0, [])
  else if negb alloc then (- ENOMEM, [])
  else (0, (fun c => mkCorner (cell (dt_fact_volt dt c)) (cell (dt_fact_dyn dt c)) (cell (dt_fact_leak dt c)))
             <$> zrange (dt_corners dt)).

(** [mmrm_load_nom_clk_src_table]: the error, the threshold and the table. A
    table of an invalid size is not an error. *)
Definition mmrm_load_nom_clk_src_table (alloc : bool) (dt : dt_node) : Z * Z * list nom_clk_src_info :=
  match dt_threshold dt with
  | None => (- ENODEV, 0, [])
  | Some th =>
      if (dt_client_size dt <? SIZEOF_NOM_CLK_SRC_INFO)
         || truthy (dt_client_size dt mod SIZEOF_NOM_CLK_SRC_INFO) then (0, th, [])
      else if negb alloc then (- ENOMEM, th, [])
      else (0, th, (fun c => let f k := cell (dt_client_info dt (c * entry_offset + k)) in
                    mkNom (f 0) (f 1) (f 2) (f 3) (f 4))
                   <$> zrange (dt_client_size dt / SIZEOF_NOM_CLK_SRC_INFO))
  end.

(** [mmrm_read_platform_resources] on a node, with
    [mmrm_read_clk_pltfrm_rsrc_frm_dt]: the tables are dropped on an error. *)
Definition mmrm_read_platform_resources (alloc1 alloc2 : bool) (p : platform_data) (dt : dt_node) :
    option (Z * clk_resources) :=
  '(scheme, ids, n) ← mmrm_read_clk_pltfrm_rsrc_frm_drv_data p;
  let '(rc, corners) := mmrm_load_mm_rail_corner_table alloc1 dt in
  if truthy rc then Some (rc, mkRes scheme ids n [] [] 0)
  else if scheme =? CLK_MGR_SCHEME_SW then
    let '(rc, th, tbl) := mmrm_load_nom_clk_src_table alloc2 dt in
    if truthy rc then Some (rc, mkRes scheme ids n [] [] th)
    else Some (0, mkRes scheme ids n corners tbl th)
  else if scheme =? CLK_MGR_SCHEME_CXIPEAK then Some (- EINVAL, mkRes scheme ids n [] [] 0)
  else Some (0, mkRes scheme ids n corners [] 0).

(** ** The table *)

Definition zero_entry : clk_entry :=
  mkEntry (mkUser [] 0 0 0 0 None)
    (mkTables 0 0 (replicate 5 0) (replicate 5 0) (replicate 5 0) (replicate 5 (replicate 5 0)))
    (mkVote 0 0 false 0 0) (mkCrm false 0 0 0 0 None).

(** One round of [mmrm_sw_prepare_table]. *)
Definition prepare_entry (n : nom_clk_src_info) (e : clk_entry) : clk_entry :=
  let t := e_tables e in
  set_tables (mkTables (Z.lor (u32 (Z.shiftl (nom_domain n) 16)) (nom_clk_src_id n))
    (nom_num_hw_block n) (freq t)
    (zupd (dyn_pwr t) MMRM_VDD_LEVEL_NOM (nom_dyn_pwr n))
    (zupd (leak_pwr t) MMRM_VDD_LEVEL_NOM (nom_leak_pwr n)) (current_ma t)) e.

Definition mmrm_sw_prepare_table (r : clk_resources) : list clk_entry :=
  (fun n => prepare_entry n zero_entry) <$> clk_src_tbl r.

(** The index of a throttle client; one that is not in the table keeps the zero
    of the allocation. *)
Definition throttle_index (tbl : list clk_entry) (csid : Z) : Z :=
  match find_index (fun e => clk_src_id (e_tables e) =? csid) tbl with
  | Some j => u16 (Z.of_nat j)
  | None => 0
  end.

Definition throttle_table (r : clk_resources) (tbl : list clk_entry) : list Z :=
  imap (fun i csid => if Z.of_nat i <? res_throttle_length r then throttle_index tbl csid else 0)
    (clsid_threshold_clients r).

Section init.
Context `{E : MmrmEnv}.

(** [mmrm_init_sw_clk_mgr], with the two switches and the calls made so far. *)
Definition mmrm_init_sw_clk_mgr (r : clk_resources) (throttle multiple : Z) (log : list mmrm_event) :
    Z * option mmrm * list mmrm_event :=
  let log1 := log ++ [EvAlloc] in
  if truthy (ext_rc log1) then (- ENOMEM, None, log1) else
  let log2 := log1 ++ [EvAlloc] in
  if truthy (ext_rc log2) then (- ENOMEM, None, log2) else
  let tbl := mmrm_sw_prepare_table r in
  (0, Some (mkMmrm false tbl 0 (throttle_table r tbl) (res_throttle_length r)
              (mkPeak (peak_threshold r) 0 0) [] r throttle multiple log2), log2).

End init.

(** * The multimedia resource manager: a concrete platform

    A clock framework with one kind of clock, from 100 to 104 MHz in steps of 1
    MHz, each with its own voltage level, calls that succeed, and a device tree
    with two clocks; for the witnesses of the theorems. *)

Definition demo_mmrm_env : MmrmEnv.
Proof.
  refine {|
    RPMH_REGULATOR_LEVEL_LOW_SVS := 64; RPMH_REGULATOR_LEVEL_SVS := 128;
    RPMH_REGULATOR_LEVEL_SVS_L1 := 192; RPMH_REGULATOR_LEVEL_NOM := 256;
    RPMH_REGULATOR_LEVEL_TURBO := 384;
    MMRM_CLK_CLIENT_NAME_SIZE := 128; MMRM_CLIENT_CLOCK := 1; MMRM_CLIENT_PRIOR_HIGH := 1;
    MMRM_CRM_SW_DRV := 0; MMRM_CLIENT_DATA_FLAG_RESERVE_ONLY := 1;
    clk_round_rate := fun _ v => Z.min (Z.max v 100000000) 105000000;
    qcom_clk_get_voltage := fun _ v =>
      if v <? 101000000 then 64 else if v <? 102000000 then 128 else if v <? 103000000 then 192
      else if v <? 104000000 then 256 else 384;
    ext_rc := fun _ => 0 |}.
  abstract lia.
Defined.

(** Domain, clock, nominal powers in Q16 (100 mW and 10 mW), hardware blocks. *)
Definition demo_clk_src (id : Z) : nom_clk_src_info := mkNom 1 id (100 * 65536) (10 * 65536) 2.

(** Corners of 0.5 V to 0.9 V. *)
Definition demo_corner (v : Z) : corner_info := mkCorner (v * 65536 / 10) 65536 65536.

Definition demo_resources : clk_resources :=
  mkRes 0 [65537; 0; 0; 0; 0] 1 (demo_corner <$> [5; 6; 7; 8; 9]) [demo_clk_src 1; demo_clk_src 2] 1000.

(** The clock manager after start-up, with throttling. *)
Definition demo_mgr : mmrm :=
  match mmrm_init_sw_clk_mgr (E := demo_mmrm_env) demo_resources 1 0 [] with
  | (_, Some s, _) => s
  | _ => mkMmrm false [] 0 [] 0 (mkPeak 0 0 0) [] demo_resources 1 0 []
  end.

(** A client of the first clock, alone or with 2 hardware drivers of 2 power
    states, and requests. *)
Definition demo_desc (hw pwr : Z) : clk_desc := mkDesc 1 1 [100] 77 hw pwr.
Definition demo_client : mmrm_client := mkClient 0 1.
Definition demo_data (blocks flags : Z) : client_data := mkData blocks flags 1 1 1.

Definition state_of {A} (o : outcome mmrm A) : mmrm :=
  match o with Ret _ s => s | _ => demo_mgr end.

Definition demo_registered (hw pwr : Z) : mmrm :=
  state_of (mmrm_sw_clk_client_register (E := demo_mmrm_env) (demo_desc hw pwr) 2 0 0 demo_mgr).
