(* ===== verification/MmrmAdmit.v ===== *)
(** * The multimedia resource manager: the account of the peak current

    [aggreg_val] is the sum of the currents of the active clients at the
    aggregated level, and [mmrm_sw_check_peak_current] admits a request when
    the sum with the request stays below the threshold. The abstract account
    is [load], and [check_peak_current_spec] is the decision. *)

From S2P Require Import Prelude Outcome MmrmClk MmrmMgr.

(** ** Signed arithmetic *)

Lemma s32_u32 x : s32 (u32 x) = s32 x.
Proof. unfold s32, u32. by rewrite !Z.mod_mod by lia. Qed.

Lemma s32_exact x : - 2 ^ 31 <= x < 2 ^ 31 -> s32 x = x.
Proof.
  intros H. destruct (Z.lt_ge_cases x 0) as [Hn|Hn]; [|apply s32_small; lia].
  unfold s32. assert (Hu : u32 x = x + 2 ^ 32).
  { unfold u32. rewrite <- (Z.mod_add x 1) by lia. rewrite Z.mul_1_l. apply Z.mod_small. lia. }
  rewrite Hu. destruct (Z.ltb_spec (x + 2 ^ 32) (2 ^ 31)); lia.
Qed.

Section account.
Context `{E : MmrmEnv}.

(** ** The account *)

(** What an entry adds to the peak current at a level. *)
Definition contrib (level : Z) (e : clk_entry) : Z :=
  if inactive e then 0 else cur_ma e (vdd_level (e_vote e)) level * num_hw_blocks (e_vote e).

Definition load (level : Z) (tbl : list clk_entry) : Z := zsum (contrib level) tbl.

(** The most that an entry can add: its largest current, for all its blocks. *)
Definition max_cur (level : Z) (e : clk_entry) : Z :=
  foldr Z.max 0 ((fun i => cur_ma e i level) <$> vdd_levels).
Definition capacity (level : Z) (tbl : list clk_entry) : Z :=
  zsum (fun e => max_cur level e * max_num_hw_blocks (e_tables e)) tbl.

(** A table whose currents can be added as [int]s. *)
Definition sized (tbl : list clk_entry) : Prop :=
  forall level, is_level level = true -> capacity level tbl < 2 ^ 31.

Record entry_ok (e : clk_entry) : Prop := {
  eo_level : is_level (vdd_level (e_vote e)) = true;
  eo_rate : 0 <= clk_rate (e_vote e);
  eo_blocks : 0 <= num_hw_blocks (e_vote e) /\ 0 <= max_num_hw_blocks (e_tables e);
  eo_max : inactive e = false -> num_hw_blocks (e_vote e) <= max_num_hw_blocks (e_tables e);
  eo_cur : forall i j, 0 <= cur_ma e i j;
}.

Lemma is_level_spec l : is_level l = true <-> 0 <= l < 5.
Proof. unfold is_level, MMRM_VDD_LEVEL_MAX. rewrite andb_true_iff, Z.leb_le, Z.ltb_lt. lia. Qed.

Lemma cur_le_max e i level : is_level i = true -> cur_ma e i level <= max_cur level e.
Proof.
  rewrite is_level_spec. intros H.
  assert (i = 0 \/ i = 1 \/ i = 2 \/ i = 3 \/ i = 4) as Hi by lia.
  unfold max_cur, vdd_levels. cbn [fmap list_fmap foldr].
  destruct Hi as [-> | [-> | [-> | [-> | ->]]]]; lia.
Qed.

Lemma max_cur_nonneg level e : 0 <= max_cur level e.
Proof. unfold max_cur, vdd_levels. cbn [fmap list_fmap foldr]. lia. Qed.

Lemma contrib_bound level e : entry_ok e ->
  0 <= contrib level e <= max_cur level e * max_num_hw_blocks (e_tables e).
Proof.
  intros [Hl _ [Hb Hm] Ha Hc]. pose proof (max_cur_nonneg level e).
  pose proof (cur_le_max e _ level Hl). specialize (Hc (vdd_level (e_vote e)) level).
  unfold contrib. destruct (inactive e) eqn:Hi; [nia|]. specialize (Ha eq_refl). nia.
Qed.

(** ** The specification

    What the account and the decision mean, in terms of the tables and votes of
    the clients alone. *)

(** The client has a clock and a rate: it draws current. *)
Definition draws (e : clk_entry) : bool :=
  negb (IS_ERR_OR_NULL (eu_clk (e_user e))) && negb (clk_rate (e_vote e) =? 0).

(** The current of all clients at a level. *)
Definition drawn (level : Z) (tbl : list clk_entry) : Z :=
  zsum (fun e => if draws e
                 then znth 0 (znth [] (current_ma (e_tables e)) (vdd_level (e_vote e))) level *
                      num_hw_blocks (e_vote e)
                 else 0) tbl.

(** The level that a voltage corner needs. *)
Definition level_needed (c : Z) : option Z :=
  if (c <? 0) || (RPMH_REGULATOR_LEVEL_TURBO <? c) then None
  else if c <=? RPMH_REGULATOR_LEVEL_LOW_SVS then Some 0
  else if c =? RPMH_REGULATOR_LEVEL_SVS then Some 1
  else if c =? RPMH_REGULATOR_LEVEL_SVS_L1 then Some 2
  else if c =? RPMH_REGULATOR_LEVEL_NOM then Some 3
  else if c =? RPMH_REGULATOR_LEVEL_TURBO then Some 4
  else None.

(** The level that a request for [clk_val] asks for, when the rate of the client
    becomes [rate]; [None] when the rate has none or the number of blocks is
    wrong. *)
Definition level_asked (e : clk_entry) (d : client_data) (clk_val rate : Z) : option Z :=
  if clk_val =? 0 then Some 0
  else match level_needed (qcom_clk_get_voltage (eu_clk (e_user e)) (clk_round_rate (eu_clk (e_user e)) rate)) with
       | Some level => if (1 <=? cd_num_hw_blocks d) && (cd_num_hw_blocks d <=? max_num_hw_blocks (e_tables e))
                       then Some level else None
       | None => None
       end.

(** The levels of the clients of other clocks that draw current. *)
Definition other_levels (src : Z) (tbl : list clk_entry) : list Z :=
  (fun e => vdd_level (e_vote e)) <$> filter (fun e => draws e = true /\ clk_src_id (e_tables e) <> src) tbl.

(** The new aggregated level when a client of the clock [src] asks for [req]: it is
    raised to [req]; it stays when another client holds it; otherwise it falls to
    the last of the other levels above [req], or to [req]. *)
Definition adjusted (s : mmrm) (src req : Z) : Z :=
  let agg := aggreg_level (peak_cur_data s) in
  let others := other_levels src (clk_client_tbl s) in
  if decide (agg <= req) then req
  else if decide (agg ∈ others) then agg
  else default req (last (filter (fun l => req < l < agg) others)).

Lemma draws_inactive e : draws e = negb (inactive e).
Proof. unfold draws, inactive. by rewrite negb_orb. Qed.

Lemma drawn_load level tbl : drawn level tbl = load level tbl.
Proof.
  unfold drawn, load, zsum. induction tbl as [|e tbl IH]; cbn [foldr]; [done|]. rewrite IH. f_equal.
  rewrite draws_inactive. unfold contrib. by destruct (inactive e).
Qed.

(** The code computes these levels. *)
Lemma level_needed_eq clk rate :
  match mmrm_sw_get_req_level clk rate with inl _ => None | inr l => Some l end =
  level_needed (qcom_clk_get_voltage clk (clk_round_rate clk rate)).
Proof.
  destruct rpmh_levels_ordered as (H0 & H1 & H2). unfold mmrm_sw_get_req_level, level_needed, invalid_corner.
  set (c := qcom_clk_get_voltage _ _). rewrite Z.gtb_ltb. destruct ((c <? 0) || _) eqn:Hv; [done|].
  unfold match_vdd_level, mmrm_sw_vdd_corner, find_index, MMRM_VDD_LEVEL_MAX, MMRM_VDD_LEVEL_LOW_SVS.
  repeat match goal with
  | |- context [c <? ?x] => destruct (Z.ltb_spec c x)
  | |- context [c <=? ?x] => destruct (Z.leb_spec c x)
  | |- context [c =? ?x] => destruct (Z.eqb_spec c x)
  end; cbn; first [done|lia].
Qed.

Lemma level_asked_eq e d clk_val rate : request_level e d clk_val rate = level_asked e d clk_val rate.
Proof.
  unfold request_level, level_asked, truthy. destruct (clk_val =? 0); cbn [negb]; [done|].
  rewrite <- level_needed_eq. destruct (mmrm_sw_get_req_level _ _) as [|level] eqn:Hl; [done|].
  assert (Hlv : level >=? MMRM_VDD_LEVEL_MAX = false).
  { pose proof (level_needed_eq (eu_clk (e_user e)) rate) as Hn. rewrite Hl in Hn. unfold level_needed in Hn.
    unfold MMRM_VDD_LEVEL_MAX. repeat (case_match; [by try (injection Hn as ->)|]); done. }
  rewrite Hlv, !Z.geb_leb. cbn [orb]. by destruct (_ && _).
Qed.

Lemma zsum_mono {A} (f g : A -> Z) l : (forall x, x ∈ l -> f x <= g x) -> zsum f l <= zsum g l.
Proof.
  induction l as [|a l IH]; intros H; [done|]. simpl.
  assert (f a <= g a) by (apply H; set_solver).
  assert (zsum f l <= zsum g l) by (apply IH; intros; apply H; set_solver). lia.
Qed.

Lemma zsum_app {A} (f : A -> Z) l1 l2 : zsum f (l1 ++ l2) = zsum f l1 + zsum f l2.
Proof. unfold zsum. induction l1 as [|a l1 IH]; simpl; [done|]. rewrite IH. lia. Qed.

Lemma load_bound level tbl : Forall entry_ok tbl -> 0 <= load level tbl <= capacity level tbl.
Proof.
  rewrite Forall_forall. intros H. split.
  - apply zsum_nonneg. intros e He. by apply contrib_bound, H.
  - apply zsum_mono. intros e He. by apply contrib_bound, H.
Qed.

Lemma load_zupd level tbl i e e' : 0 <= i -> tbl !! Z.to_nat i = Some e ->
  load level (zupd tbl i e') = load level tbl - contrib level e + contrib level e'.
Proof.
  intros Hi He. unfold load, zupd. destruct (Z.ltb_spec i 0); [lia|]. by apply zsum_insert.
Qed.

Lemma capacity_zupd level tbl i e e' : 0 <= i -> tbl !! Z.to_nat i = Some e -> e_tables e' = e_tables e ->
  capacity level (zupd tbl i e') = capacity level tbl.
Proof.
  intros Hi He Ht. unfold capacity, zupd. destruct (Z.ltb_spec i 0); [lia|].
  rewrite (zsum_insert _ _ _ _ _ He). unfold max_cur, cur_ma. rewrite Ht. lia.
Qed.

Lemma Forall_zupd {A} (P : A -> Prop) l i x : Forall P l -> P x -> Forall P (zupd l i x).
Proof. intros Hl Hx. unfold zupd. case_if; [done|]. by apply Forall_insert. Qed.

(** ** [mmrm_sw_calculate_total_current] *)

Lemma total_loop_app l1 l2 c i level s :
  total_loop (l1 ++ l2) c i level s = total_loop l2 (c + zlen l1) i level (total_loop l1 c i level s).
Proof.
  revert c s. induction l1 as [|e l1 IH]; intros c s; cbn [app total_loop].
  - by rewrite Z.add_0_r.
  - rewrite IH. f_equal. unfold zlen. cbn [length]. lia.
Qed.

(** Entries before or after the one that is left out. *)
Lemma total_loop_all l c i level s : (i < c \/ c + zlen l <= i) -> Forall entry_ok l ->
  0 <= s -> s + capacity level l < 2 ^ 32 -> total_loop l c i level s = s + load level l.
Proof.
  revert c s. induction l as [|e l IH]; intros c s Hi Hok Hs Hc; cbn [total_loop]; [unfold load; simpl; lia|].
  inversion_clear Hok as [|? ? He Hl]. unfold load, capacity, zlen in *. cbn [zsum foldr length] in *.
  fold (zsum (contrib level) l) in *. fold (zsum (fun e => max_cur level e * max_num_hw_blocks (e_tables e)) l) in *.
  pose proof (contrib_bound level e He) as Hb. pose proof (load_bound level l Hl) as Hlb.
  unfold load, capacity in Hlb. destruct (Z.eqb_spec c i); [lia|]. rewrite orb_false_r.
  assert (Hu : 0 <= contrib level e < 2 ^ 32) by lia.
  unfold contrib in *. destruct (inactive e) eqn:Hia.
  - rewrite IH; [lia | lia | done | lia | lia].
  - unfold entry_cur. rewrite (u32_small (cur_ma _ _ _ * _)) by done. rewrite u32_small by lia.
    rewrite IH; [lia | lia | done | lia | lia].
Qed.

Lemma total_loop_but tbl i level e : 0 <= i -> tbl !! Z.to_nat i = Some e -> Forall entry_ok tbl ->
  capacity level tbl < 2 ^ 31 -> total_loop tbl 0 i level 0 = load level tbl - contrib level e.
Proof.
  intros Hi He Hok Hc. rewrite <- (take_drop_middle _ _ _ He) in Hok, Hc |- *.
  pose proof (lookup_lt_Some _ _ _ He) as Hlt.
  set (l1 := take (Z.to_nat i) tbl) in *. set (l2 := drop (S (Z.to_nat i)) tbl) in *.
  assert (Hl1 : zlen l1 = i) by (unfold zlen, l1; rewrite length_take; lia).
  apply Forall_app in Hok as [Hok1 Hok2]. inversion_clear Hok2 as [|? ? Hoe Hok2'].
  unfold load, capacity in *. rewrite zsum_app in Hc |- *. cbn [zsum foldr] in Hc |- *.
  fold (zsum (contrib level) l2) in *. fold (zsum (fun e => max_cur level e * max_num_hw_blocks (e_tables e)) l2) in *.
  pose proof (load_bound level l1 Hok1) as B1. pose proof (load_bound level l2 Hok2') as B2.
  pose proof (contrib_bound level e Hoe) as B3. unfold load, capacity in B1, B2.
  rewrite total_loop_app, (total_loop_all l1); [|lia|done|lia|unfold capacity; lia].
  cbn [total_loop]. rewrite Hl1, Z.add_0_l, Z.eqb_refl, orb_true_r.
  rewrite total_loop_all; [unfold load; lia | lia | done | unfold load; lia | unfold load, capacity; lia].
Qed.

(** ** [mmrm_sw_check_req_level] *)

Lemma level_loop_next tbl src req aggreg next b l :
  (forall l', next = Some l' -> req < l' < aggreg) ->
  level_loop tbl src req aggreg next = (b, Some l) -> req < l < aggreg.
Proof.
  revert next. induction tbl as [|e tbl IH]; intros next Hn; cbn [level_loop].
  - intros [= <- ->]. by apply Hn.
  - repeat case_if; try (by apply IH).
    + intros [= <- ->]. by apply Hn.
    + apply IH. intros l' [= <-]. lia.
Qed.

(** The adjusted level is a level, and at least the one asked for. *)
Lemma check_req_level_ok s src req : is_level req = true ->
  is_level (aggreg_level (peak_cur_data s)) = true ->
  exists adj, mmrm_sw_check_req_level s src req = inr adj /\ is_level adj = true /\ req <= adj.
Proof.
  intros Hr Ha. pose proof (proj1 (is_level_spec _) Hr). pose proof (proj1 (is_level_spec _) Ha).
  unfold mmrm_sw_check_req_level, MMRM_VDD_LEVEL_MAX. rewrite Z.geb_leb.
  destruct (Z.leb_spec 5 req); [lia|].
  destruct (Z.ltb_spec req (aggreg_level (peak_cur_data s))); [|exists req; split_and!; (done || lia)].
  destruct (level_loop _ _ _ _ _) as [b next] eqn:Hl. destruct b; [eexists; split_and!; (done || lia)|].
  destruct next as [l|]; [|exists req; split_and!; (done || lia)].
  apply level_loop_next in Hl; [|done]. eexists. split; [done|].
  rewrite is_level_spec. destruct (l >? req) eqn:El; zbool; lia.
Qed.

(** What the loop finds: a client at the aggregated level, or else the last level
    between. *)
Lemma level_loop_spec tbl src req agg next :
  (agg ∈ other_levels src tbl -> fst (level_loop tbl src req agg next) = true) /\
  (agg ∉ other_levels src tbl -> level_loop tbl src req agg next =
     (false, match last (filter (fun l => req < l < agg) (other_levels src tbl)) with
             | Some l => Some l
             | None => next
             end)).
Proof.
  revert next. induction tbl as [|e tbl IH]; intros next; cbn [level_loop].
  { split; [by intros ?%elem_of_nil|done]. }
  unfold other_levels. rewrite filter_cons. destruct (inactive e || _) eqn:Hs.
  - rewrite decide_False; [apply IH|]. rewrite draws_inactive. intros [Hd Hn].
    apply negb_true_iff in Hd. rewrite Hd in Hs. cbn in Hs. by apply Z.eqb_eq in Hs.
  - apply orb_false_iff in Hs as [Hi Hn]. apply Z.eqb_neq in Hn.
    rewrite decide_True by (by rewrite draws_inactive, Hi). cbn [fmap list_fmap]. fold (other_levels src tbl).
    destruct (Z.eqb_spec (vdd_level (e_vote e)) agg) as [<-|Hne].
    { split; [done|]. intros Hno. destruct Hno. by left. }
    destruct (IH (if (vdd_level (e_vote e) <? agg) && (vdd_level (e_vote e) >? req)
                  then Some (vdd_level (e_vote e)) else next)) as [I1 I2]. split.
    + intros [?|Hin]%elem_of_cons; [done|by apply I1].
    + intros [_ Hno]%not_elem_of_cons. rewrite I2 by done. f_equal. rewrite filter_cons.
      destruct ((vdd_level (e_vote e) <? agg) && (vdd_level (e_vote e) >? req)) eqn:Hb.
      * rewrite decide_True by (zbool; lia). rewrite last_cons. by destruct (last _).
      * rewrite decide_False; [done|]. intros Hb'. zbool; lia.
Qed.

Lemma check_req_level_eq s src req : is_level req = true ->
  mmrm_sw_check_req_level s src req = inr (adjusted s src req).
Proof.
  rewrite is_level_spec. intros Hr. unfold mmrm_sw_check_req_level, adjusted, MMRM_VDD_LEVEL_MAX.
  rewrite Z.geb_leb. destruct (Z.leb_spec 5 req); [lia|].
  destruct (Z.ltb_spec req (aggreg_level (peak_cur_data s))) as [Hlt|Hge];
    [rewrite decide_False by lia|by rewrite decide_True by lia].
  destruct (level_loop_spec (clk_client_tbl s) src req (aggreg_level (peak_cur_data s)) None) as [H1 H2].
  destruct (decide _) as [Hin|Hin].
  - specialize (H1 Hin). by destruct (level_loop _ _ _ _ _) as [[] ?].
  - rewrite (H2 Hin). destruct (last _) as [l|] eqn:Hl; [|done]. cbn.
    apply last_Some_elem_of, list_elem_of_filter in Hl as [Hl _].
    destruct (l >? req) eqn:Hg; [done|]. zbool; lia.
Qed.

(** A request does not take the account below the level of another client that
    holds it. *)
Lemma adjusted_held s src req e : e ∈ clk_client_tbl s -> draws e = true -> clk_src_id (e_tables e) <> src ->
  vdd_level (e_vote e) = aggreg_level (peak_cur_data s) -> aggreg_level (peak_cur_data s) <= adjusted s src req.
Proof.
  intros Hin Hd Hs Hl. unfold adjusted. case_decide as Hr; [done|]. rewrite decide_True; [done|].
  rewrite <- Hl. apply list_elem_of_fmap. exists e. split; [done|]. by apply list_elem_of_filter.
Qed.

(** The new level is that of the request or of another client. *)
Lemma adjusted_from s src req : adjusted s src req = req \/
  exists e, e ∈ clk_client_tbl s /\ draws e = true /\ clk_src_id (e_tables e) <> src /\
    vdd_level (e_vote e) = adjusted s src req.
Proof.
  assert (Hex : forall l, l ∈ other_levels src (clk_client_tbl s) ->
    exists e, e ∈ clk_client_tbl s /\ draws e = true /\ clk_src_id (e_tables e) <> src /\ vdd_level (e_vote e) = l).
  { intros l (e & -> & He)%list_elem_of_fmap. apply list_elem_of_filter in He as [[? ?] ?]. by exists e. }
  unfold adjusted. case_decide; [by left|]. case_decide; [right; by apply Hex|].
  destruct (last _) as [l|] eqn:Hl; [|by left]. right. apply last_Some_elem_of, list_elem_of_filter in Hl as [_ Hl].
  by apply Hex.
Qed.

(** ** [mmrm_sw_check_peak_current] *)

(** The total current is admitted. *)
Definition admissible (thr total : Z) : bool := (total =? 0) || (total <? thr).

(** The entry has no right to throttle other clients. *)
Definition plain (s : mmrm) (e : clk_entry) : bool :=
  negb ((eu_pri (e_user e) =? MMRM_CLIENT_PRIOR_HIGH) && (msm_mmrm_enable_throttle_feature s >? 0)).

(** The account and the table agree, and the account is below the threshold. *)
Record peak_ok (s : mmrm) : Prop := {
  po_entries : Forall entry_ok (clk_client_tbl s);
  po_sized : sized (clk_client_tbl s);
  po_level : is_level (aggreg_level (peak_cur_data s)) = true;
  po_val : aggreg_val (peak_cur_data s) = load (aggreg_level (peak_cur_data s)) (clk_client_tbl s);
  po_threshold : 0 <= threshold (peak_cur_data s) < 2 ^ 32;
  po_admitted : admissible (threshold (peak_cur_data s)) (aggreg_val (peak_cur_data s)) = true;
  po_throttled : throttled_clients s = [];
}.

Lemma entry_at_eq s i e : 0 <= i -> clk_client_tbl s !! Z.to_nat i = Some e -> entry_at i s = Ret e s.
Proof.
  intros Hi He. unfold entry_at. rewrite bind_get, bind_guard by (by apply Z.leb_le).
  by rewrite He.
Qed.

Lemma upd_entry_eq s i e f : 0 <= i -> clk_client_tbl s !! Z.to_nat i = Some e ->
  upd_entry i f s = Ret tt (set_tbl (zupd (clk_client_tbl s) i (f e)) s).
Proof. intros Hi He. unfold upd_entry. by rewrite (bind_ret _ _ _ _ _ (entry_at_eq s i e Hi He)). Qed.

Lemma reinstate_none s : throttled_clients s = [] -> mmrm_reinstate_throttled_client s = Ret tt s.
Proof.
  intros H. unfold mmrm_reinstate_throttled_client. rewrite bind_get, H. cbn [reinstate_loop].
  rewrite (bind_ret _ _ _ [] s) by done. unfold modify, set_throttled. rewrite <- H. by destruct s.
Qed.

Lemma peak_decide_spec s i e adj peak delta : 0 <= i -> clk_client_tbl s !! Z.to_nat i = Some e ->
  plain s e = true \/ admissible (threshold (peak_cur_data s)) (peak + delta) = true ->
  throttled_clients s = [] -> 0 <= peak < 2 ^ 31 -> 0 <= peak + delta < 2 ^ 31 ->
  peak_decide i adj peak delta s =
  if admissible (threshold (peak_cur_data s)) (peak + delta)
  then Ret 0 (set_peak (mkPeak (threshold (peak_cur_data s)) (peak + delta) adj) s)
  else Ret (- EINVAL) s.
Proof.
  intros Hi He Hp Ht Hpk Htot. unfold peak_decide.
  rewrite bind_get, (bind_ret _ _ _ _ _ (entry_at_eq s i e Hi He)).
  rewrite (s32_small peak Hpk), (s32_small (peak + delta)), (u32_small (peak + delta)) by lia.
  unfold admissible. destruct (Z.leb_spec (peak + delta) 0).
  { assert (peak + delta = 0) as -> by lia. done. }
  destruct (Z.eqb_spec (peak + delta) 0) as [|_]; [lia|]. rewrite orb_false_l, Z.geb_leb, Z.ltb_antisym.
  destruct (Z.leb_spec (threshold (peak_cur_data s)) (peak + delta)); cbn [negb].
  - destruct Hp as [Hp|Hp]; [unfold plain in Hp; apply negb_true_iff in Hp; by rewrite Hp|].
    unfold admissible in Hp. apply orb_prop in Hp as [Hp|Hp]; zbool; lia.
  - unfold update_peak. rewrite (bind_ret _ _ _ tt (set_peak (mkPeak (threshold (peak_cur_data s)) (peak + delta) adj) s)) by done.
    by rewrite (bind_ret mmrm_reinstate_throttled_client _ _ _ _ (reinstate_none (set_peak _ s) Ht)).
Qed.

(** The entry after an admitted request. *)
Definition requested (rate level : Z) (res : bool) (blocks : Z) (e : clk_entry) : clk_entry :=
  set_vote (mkVote rate level res (ref_count (e_vote e)) blocks) e.

Lemma contrib_requested level rate lvl res blocks e : IS_ERR_OR_NULL (eu_clk (e_user e)) = false ->
  contrib level (requested rate lvl res blocks e) = if rate =? 0 then 0 else cur_ma e lvl level * blocks.
Proof. intros H. unfold contrib, inactive. cbn. by rewrite H. Qed.

Lemma requested_ok e rate level res blocks : entry_ok e -> is_level level = true -> 0 <= rate ->
  0 <= blocks -> (rate <> 0 -> blocks <= max_num_hw_blocks (e_tables e)) ->
  entry_ok (requested rate level res blocks e).
Proof.
  intros [? ? [? ?] ? Hc] Hl Hr Hb Hm. split; cbn; try done. unfold inactive. cbn.
  destruct (Z.eqb_spec rate 0); [|auto]. by rewrite orb_true_r.
Qed.

Lemma old_cur_eq level e : entry_ok e -> IS_ERR_OR_NULL (eu_clk (e_user e)) = false ->
  contrib level e < 2 ^ 32 ->
  (if truthy (clk_rate (e_vote e)) then entry_cur e level else 0) = contrib level e.
Proof.
  intros Hok Hclk Hb. pose proof (proj1 (contrib_bound level e Hok)).
  unfold contrib, inactive, truthy, entry_cur in *. rewrite Hclk in *. cbn [orb] in *.
  destruct (Z.eqb_spec (clk_rate (e_vote e)) 0); cbn [negb]; [done|]. apply u32_small. lia.
Qed.

(** No client is throttled for a request at a level: the client has no right
    to it, or the load with the request is admitted. *)
Definition unthrottled (s : mmrm) (i : Z) (e : clk_entry) (rate level : Z) (res : bool) (blocks : Z) : Prop :=
  plain s e = true \/
  forall adj, mmrm_sw_check_req_level s (clk_src_id (e_tables e)) level = inr adj ->
    admissible (threshold (peak_cur_data s))
      (load adj (zupd (clk_client_tbl s) i (requested rate level res blocks e))) = true.

(** The request is admitted when the load with it, at the adjusted level, is;
    then it is the load that is stored. *)
Lemma check_peak_current_spec s i e rate level blocks res : peak_ok s -> 0 <= i ->
  clk_client_tbl s !! Z.to_nat i = Some e -> unthrottled s i e rate level res blocks ->
  IS_ERR_OR_NULL (eu_clk (e_user e)) = false -> is_level level = true -> 0 <= rate < 2 ^ 32 ->
  0 <= blocks -> (rate <> 0 -> blocks <= max_num_hw_blocks (e_tables e)) ->
  exists adj, mmrm_sw_check_req_level s (clk_src_id (e_tables e)) level = inr adj /\ is_level adj = true /\
  let total := load adj (zupd (clk_client_tbl s) i (requested rate level res blocks e)) in
  mmrm_sw_check_peak_current i level rate blocks s =
  if admissible (threshold (peak_cur_data s)) total
  then Ret 0 (set_peak (mkPeak (threshold (peak_cur_data s)) total adj) s)
  else Ret (- EINVAL) s.
Proof.
  intros Hok Hi He Hp Hclk Hlv Hr Hb Hm. pose proof (po_level s Hok) as Hal.
  destruct (check_req_level_ok s (clk_src_id (e_tables e)) level Hlv Hal) as (adj & Hadj & Hadl & _).
  exists adj. split_and!; [done|done|]. intros total.
  assert (Hth : plain s e = true \/ admissible (threshold (peak_cur_data s)) total = true)
    by (destruct Hp as [Hp|Hp]; [by left|right; by apply Hp]). clear Hp.
  assert (Heo : entry_ok e) by (apply (Forall_lookup_1 _ _ _ _ (po_entries s Hok) He)).
  pose proof (requested_ok e rate level res blocks Heo Hlv (proj1 Hr) Hb Hm) as Hreq.
  pose proof (contrib_requested adj rate level res blocks e Hclk) as Hcr.
  assert (Htot : total = load adj (clk_client_tbl s) - contrib adj e + contrib adj (requested rate level res blocks e))
    by (by apply load_zupd).
  assert (Htb : 0 <= total < 2 ^ 31).
  { pose proof (load_bound adj _ (Forall_zupd _ _ i _ (po_entries s Hok) Hreq)).
    rewrite (capacity_zupd adj _ _ _ _ Hi He) in H by done. pose proof (po_sized s Hok adj Hadl). unfold total. lia. }
  pose proof (load_bound adj _ (po_entries s Hok)) as Hlb. pose proof (po_sized s Hok adj Hadl) as Hsz.
  pose proof (contrib_bound adj _ Hreq) as Hb1. pose proof (contrib_bound adj _ Heo) as Hb2.
  assert (Hb3 : contrib adj e <= load adj (clk_client_tbl s)).
  { apply (zsum_le_one (contrib adj)); [|by eapply list_elem_of_lookup_2].
    intros y Hy. apply contrib_bound. apply (proj1 (Forall_forall _ _) (po_entries s Hok) y Hy). }
  unfold mmrm_sw_check_peak_current. rewrite bind_get, (bind_ret _ _ _ _ _ (entry_at_eq s i e Hi He)), Hadj.
  rewrite bind_guard by (by rewrite Hlv, Hadl, Hal, (eo_level e Heo)). rewrite (u32_small rate Hr).
  assert (Hnew : (if truthy rate then u32 (cur_ma e level adj * blocks) else 0)
                 = contrib adj (requested rate level res blocks e)).
  { rewrite Hcr in Hb1 |- *. unfold truthy. destruct (Z.eqb_spec rate 0); [done|]. apply u32_small. lia. }
  rewrite Hnew. clear Hnew.
  destruct (Z.eqb_spec adj (aggreg_level (peak_cur_data s))) as [Ha|Ha]; cbn [negb].
  - rewrite <- Ha in *. rewrite (old_cur_eq adj e Heo Hclk) by lia. rewrite s32_u32, s32_exact by lia.
    assert (Hsum : aggreg_val (peak_cur_data s) + (contrib adj (requested rate level res blocks e) - contrib adj e) = total)
      by (rewrite (po_val s Hok), <- Ha; lia).
    rewrite (peak_decide_spec s i e); rewrite ?Hsum;
      (done || (rewrite (po_val s Hok), <- Ha; lia) || lia || apply Hok).
  - unfold mmrm_sw_calculate_total_current. pose proof (proj1 (is_level_spec _) Hadl).
    rewrite Z.geb_leb. unfold MMRM_VDD_LEVEL_MAX. destruct (Z.leb_spec 5 adj); [lia|].
    rewrite (total_loop_but _ i adj e) by (done || apply Hok).
    rewrite <- Htot, (u32_small total) by lia.
    rewrite (peak_decide_spec s i e); rewrite ?Z.add_0_r; (done || lia || apply Hok).
Qed.

(** When no client can be throttled, a request of a client of high priority is
    admitted above the threshold. *)
Lemma overshoot_accepted s i e adj peak delta : 0 <= i -> clk_client_tbl s !! Z.to_nat i = Some e ->
  eu_pri (e_user e) = MMRM_CLIENT_PRIOR_HIGH -> 0 < msm_mmrm_enable_throttle_feature s ->
  throttle_clients_data_length s = 0 -> throttled_clients s = [] ->
  0 <= peak < 2 ^ 31 -> 0 < peak + delta < 2 ^ 31 -> threshold (peak_cur_data s) <= peak + delta ->
  peak_decide i adj peak delta s =
  Ret 0 (set_peak (mkPeak (threshold (peak_cur_data s)) (peak + delta) adj) s).
Proof.
  intros Hi He Hp Hf Hl Ht Hpk Htot Hthr. unfold peak_decide.
  rewrite bind_get, (bind_ret _ _ _ _ _ (entry_at_eq s i e Hi He)).
  rewrite (s32_small peak Hpk), (s32_small (peak + delta)), (u32_small (peak + delta)) by lia.
  destruct (Z.leb_spec (peak + delta) 0); [lia|]. rewrite Z.geb_leb.
  destruct (Z.leb_spec (threshold (peak_cur_data s)) (peak + delta)); [|lia].
  rewrite Hp, Z.eqb_refl, Z.gtb_ltb. destruct (Z.ltb_spec 0 (msm_mmrm_enable_throttle_feature s)); [|lia].
  cbn [andb]. unfold mmrm_sw_throttle_low_priority_client.
  rewrite (bind_ret _ _ s (0, delta) s) by (by rewrite bind_get, Hl).
  cbn beta iota. cbn [truthy Z.eqb negb].
  unfold update_peak. rewrite (bind_ret _ _ _ tt (set_peak (mkPeak (threshold (peak_cur_data s)) (peak + delta) adj) s))
    by (unfold modify; rewrite u32_small by lia; done).
  by rewrite (bind_ret mmrm_reinstate_throttled_client _ _ _ _ (reinstate_none (set_peak _ s) Ht)).
Qed.

End account.
