(* ===== verification/MmrmSetval.v ===== *)
(** * The multimedia resource manager: requests

    What [mmrm_sw_clk_client_setval] does with a request: a repeated rate only
    changes the reservation, a request that is not admitted changes nothing,
    and an admitted one is stored with the account before the clock is set; and
    the votes of the clients that the CRM manages. *)

From S2P Require Import Prelude Outcome MmrmClk MmrmMgr MmrmAdmit.

Section setval.
Context `{E : MmrmEnv}.

Lemma lock_free s : mm_lock s = false -> mutex_lock s = Ret tt (set_lock true s).
Proof. intros H. unfold mutex_lock. by rewrite bind_get, H. Qed.

Lemma unlock_eq s : mutex_unlock s = Ret tt (set_lock false s).
Proof. done. Qed.

Lemma set_lock_id s b : mm_lock s = b -> set_lock b s = s.
Proof. intros <-. by destruct s. Qed.

Lemma peak_ok_lock s b : peak_ok s -> peak_ok (set_lock b s).
Proof. by intros []. Qed.

(** [reserve only] of a request. *)
Definition reserve_only (d : client_data) : bool :=
  truthy (Z.land (cd_flags d) MMRM_CLIENT_DATA_FLAG_RESERVE_ONLY).

(** The decision: the level of the request, the adjusted level, and the load
    with the request; [None] when it is refused. *)
Definition admission (s : mmrm) (i : Z) (e : clk_entry) (d : client_data) (clk_val rate : Z) :
    option (Z * Z * Z) :=
  match level_asked e d clk_val rate with
  | None => None
  | Some level =>
      let adj := adjusted s (clk_src_id (e_tables e)) level in
      let total := drawn adj (zupd (clk_client_tbl s) i
        (requested rate level (reserve_only d) (cd_num_hw_blocks d) e)) in
      if admissible (threshold (peak_cur_data s)) total then Some (level, adj, total) else None
  end.

(** The state once a request is admitted: the entry, and the account. *)
Definition admitted (s : mmrm) (i adj total : Z) (e' : clk_entry) : mmrm :=
  set_peak (mkPeak (threshold (peak_cur_data s)) total adj) (set_tbl (zupd (clk_client_tbl s) i e') s).

(** The entry of the client with its vote table, for a CRM client. *)
Definition voted (e : clk_entry) (d : client_data) (clk_val max_idx : Z) (e1 : clk_entry) : Prop :=
  if is_crm_client (e_crm e)
  then exists c, store_crm e d clk_val max_idx = Some c /\ e1 = set_crm c e
  else e1 = e.

Lemma voted_user e d v k e1 : voted e d v k e1 ->
  e_user e1 = e_user e /\ e_tables e1 = e_tables e /\ e_vote e1 = e_vote e /\
  is_crm_client (e_crm e1) = is_crm_client (e_crm e).
Proof.
  unfold voted. destruct (is_crm_client (e_crm e)) eqn:Hc; [|by intros ->].
  intros (c & Hs & ->). split_and!; try done. unfold store_crm in Hs.
  destruct (crm_client_tbl (e_crm e)) as [tbl|]; cbn [mbind option_bind] in Hs; [|done].
  destruct (crm_vote_idx _ _ <? zlen tbl); [|done]. by injection Hs as <-.
Qed.

Lemma contrib_voted level rate lvl res blocks e d v k e1 : voted e d v k e1 ->
  contrib level (requested rate lvl res blocks e1) = contrib level (requested rate lvl res blocks e).
Proof.
  intros (Hu & Ht & _ & _)%voted_user. unfold contrib, inactive, cur_ma. cbn. by rewrite Hu, Ht.
Qed.

(** Levels that [request_level] gives. *)
Lemma request_level_spec e d clk_val rate level : request_level e d clk_val rate = Some level ->
  is_level level = true /\
  (clk_val <> 0 -> 1 <= cd_num_hw_blocks d <= max_num_hw_blocks (e_tables e)).
Proof.
  unfold request_level, truthy. destruct (Z.eqb_spec clk_val 0); cbn [negb].
  - by intros [= <-].
  - unfold mmrm_sw_get_req_level. destruct (invalid_corner _); [done|].
    assert (Hm : forall c, 0 <= match_vdd_level c).
    { intros c. unfold match_vdd_level. destruct (find_index _ _); [lia|done]. }
    specialize (Hm (qcom_clk_get_voltage (eu_clk (e_user e)) (clk_round_rate (eu_clk (e_user e)) rate))).
    set (corner := qcom_clk_get_voltage _ _) in *.
    destruct (corner <? _).
    + case_if; [done|]. intros [= <-]. zbool. split; [done|]. lia.
    + destruct (match_vdd_level corner =? _); [done|]. case_if; [done|]. intros [= <-]. zbool.
      rewrite is_level_spec. unfold MMRM_VDD_LEVEL_MAX in *. lia.
Qed.

(** What a request must satisfy beyond what the code checks: rates fit in 32
    bits, and a CRM client never asks for more blocks than it has. *)
Definition well_formed (e : clk_entry) (d : client_data) (clk_val : Z) : Prop :=
  0 <= clk_val < 2 ^ 32 /\ 0 <= cd_num_hw_blocks d /\ 0 <= cd_crm_drv_idx d /\ 0 <= cd_pwr_st d /\
  (is_crm_client (e_crm e) = true -> cd_num_hw_blocks d <= max_num_hw_blocks (e_tables e)).

Lemma store_step s i e e1 d v k : 0 <= i -> clk_client_tbl s !! Z.to_nat i = Some e -> voted e d v k e1 ->
  (if is_crm_client (e_crm e)
   then c ← deref (store_crm e d v k); upd_entry i (set_crm c)
   else mret tt) s = Ret tt (set_tbl (zupd (clk_client_tbl s) i e1) s).
Proof.
  intros Hi He. unfold voted. destruct (is_crm_client (e_crm e)).
  - intros (c & -> & ->). rewrite bind_deref. by apply upd_entry_eq.
  - intros ->. rewrite (zupd_lookup_id _ _ _ Hi He). by destruct s.
Qed.

Lemma setval_admit_spec s i e e1 d clk_val rate k level : peak_ok s -> mm_lock s = false -> 0 <= i ->
  clk_client_tbl s !! Z.to_nat i = Some e -> unthrottled s i e rate level (reserve_only d) (cd_num_hw_blocks d) ->
  IS_ERR_OR_NULL (eu_clk (e_user e)) = false -> 0 <= rate < 2 ^ 32 ->
  0 <= cd_num_hw_blocks d -> (rate <> 0 -> cd_num_hw_blocks d <= max_num_hw_blocks (e_tables e)) ->
  request_level e d clk_val rate = Some level -> voted e d clk_val k e1 ->
  setval_admit i d clk_val rate k level (reserve_only d) s =
  match admission s i e d clk_val rate with
  | None => Ret (- EINVAL) s
  | Some (level, adj, total) =>
      let s' := admitted s i adj total (requested rate level (reserve_only d) (cd_num_hw_blocks d) e1) in
      if reserve_only d && negb (is_crm_client (e_crm e)) then Ret 0 s' else set_clk_rate i d clk_val s'
  end.
Proof.
  intros Hok Hlk Hi He Hp Hclk Hr Hb Hm Hlv Hv. unfold setval_admit.
  rewrite (bind_ret _ _ _ _ _ (lock_free s Hlk)).
  destruct (check_peak_current_spec (set_lock true s) i e rate level (cd_num_hw_blocks d) (reserve_only d)
    (peak_ok_lock s true Hok) Hi He Hp Hclk (proj1 (request_level_spec _ _ _ _ _ Hlv)) Hr Hb Hm)
    as (adj & Hadj & _ & Hpk). cbv zeta in Hpk.
  rewrite check_req_level_eq in Hadj by apply (request_level_spec _ _ _ _ _ Hlv). injection Hadj as Hadj.
  unfold admission. rewrite <- level_asked_eq, Hlv. cbv zeta. rewrite drawn_load.
  change (adjusted s) with (adjusted (set_lock true s)). rewrite Hadj.
  cbn [peak_cur_data clk_client_tbl set_lock] in Hpk. set (total := load adj _) in *. destruct (admissible _ total) eqn:Ha.
  - rewrite (bind_ret _ _ _ _ _ Hpk). cbn [truthy Z.eqb negb].
    set (s1 := set_peak _ (set_lock true s)) in *.
    assert (He1 : clk_client_tbl s1 !! Z.to_nat i = Some e) by done.
    rewrite (bind_ret _ _ _ _ _ (entry_at_eq s1 i e Hi He1)).
    rewrite (bind_ret _ _ _ _ _ (store_step s1 i e e1 d clk_val k Hi He1 Hv)).
    assert (He2 : clk_client_tbl (set_tbl (zupd (clk_client_tbl s) i e1) s1) !! Z.to_nat i = Some e1)
      by (by apply (lookup_zupd_eq _ _ _ e)).
    rewrite (bind_ret _ _ _ _ _ (upd_entry_eq _ i e1 _ Hi He2)).
    rewrite (bind_ret _ _ _ _ _ (unlock_eq _)). apply voted_user in Hv as (_ & _ & Hv & _).
    assert (Hs : set_lock false (set_tbl (zupd (clk_client_tbl (set_tbl (zupd (clk_client_tbl s) i e1) s1)) i
        (set_vote (mkVote rate level (reserve_only d) (ref_count (e_vote e)) (cd_num_hw_blocks d)) e1))
        (set_tbl (zupd (clk_client_tbl s) i e1) s1))
      = admitted s i adj total (requested rate level (reserve_only d) (cd_num_hw_blocks d) e1)).
    { unfold s1, admitted, requested. rewrite Hv. destruct s; cbn in *. subst. by rewrite zupd_zupd. }
    rewrite Hs. by destruct (reserve_only d && _).
  - rewrite (bind_ret _ _ _ _ _ Hpk). change (truthy (- EINVAL)) with true. cbv iota.
    rewrite (bind_ret _ _ _ _ _ (unlock_eq _)). unfold mret, run_ret. f_equal.
    destruct s; cbn in *. by subst.
Qed.

(** ** The specification of a request *)

(** The call that sets the clock, and its result. *)
Definition rate_event (e : clk_entry) (d : client_data) (clk_val : Z) : mmrm_event :=
  if negb (is_crm_client (e_crm e)) || (cd_drv_type d =? MMRM_CRM_SW_DRV)
  then EvSetRate (eu_clk (e_user e)) clk_val
  else EvCrmSetRate (eu_clk (e_user e)) (cd_crm_drv_idx d) (cd_pwr_st d) clk_val.

Definition clock_set (ev : mmrm_event) (s : mmrm) : outcome mmrm Z :=
  let log := mm_log s ++ [ev] in
  Ret (if truthy (ext_rc log) then - EINVAL else 0) (set_log log s).

(** The rate that a request asks for, with its index for a CRM client. *)
Definition effective (e : clk_entry) (d : client_data) (clk_val : Z) : option (Z * Z) :=
  if is_crm_client (e_crm e) then mmrm_sw_get_max_crm_rate e d clk_val else Some (clk_val, 0).

(** The request throttles no client. *)
Definition quiet_code (s : mmrm) (i : Z) (e : clk_entry) (d : client_data) (clk_val : Z) : Prop :=
  forall rate k level, effective e d clk_val = Some (rate, k) -> request_level e d clk_val rate = Some level ->
    unthrottled s i e rate level (reserve_only d) (cd_num_hw_blocks d).

Definition crm_in_range (e : clk_entry) (d : client_data) : Prop :=
  is_crm_client (e_crm e) = true ->
  cd_crm_drv_idx d < hw_drv_instances (e_crm e) /\ cd_pwr_st d < num_pwr_states (e_crm e).

(** The request repeats the current rate; CRM clients always set theirs. *)
Definition repeats (e : clk_entry) (d : client_data) (clk_val : Z) : bool :=
  (clk_rate (e_vote e) =? clk_val) && (num_hw_blocks (e_vote e) =? cd_num_hw_blocks d)
  && negb (is_crm_client (e_crm e)).

(** [rate] is the effective rate, and [e1] the entry with its vote. *)
Definition setval_spec (i : Z) (e e1 : clk_entry) (d : client_data) (clk_val rate : Z) (s : mmrm) :
    outcome mmrm Z :=
  if repeats e d clk_val then
    if Bool.eqb (reserve (e_vote e)) (reserve_only d) then Ret 0 s else
    let s' := set_tbl (zupd (clk_client_tbl s) i
      (requested clk_val (vdd_level (e_vote e)) (reserve_only d) (cd_num_hw_blocks d) e)) s in
    if reserve_only d then Ret 0 s' else clock_set (rate_event e d clk_val) s'
  else
    match admission s i e d clk_val rate with
    | None => Ret (- EINVAL) s
    | Some (level, adj, total) =>
        let s' := admitted s i adj total (requested rate level (reserve_only d) (cd_num_hw_blocks d) e1) in
        if reserve_only d && negb (is_crm_client (e_crm e)) then Ret 0 s'
        else clock_set (rate_event e d clk_val) s'
    end.

Lemma set_clk_rate_eq s i e e1 d clk_val : 0 <= i -> clk_client_tbl s !! Z.to_nat i = Some e1 ->
  e_user e1 = e_user e -> is_crm_client (e_crm e1) = is_crm_client (e_crm e) ->
  set_clk_rate i d clk_val s = clock_set (rate_event e d clk_val) s.
Proof.
  intros Hi He Hu Hc. unfold set_clk_rate. rewrite (bind_ret _ _ _ _ _ (entry_at_eq s i e1 Hi He)).
  rewrite Hu, Hc. done.
Qed.

Lemma setval_same_spec s i e d clk_val : mm_lock s = false -> 0 <= i ->
  clk_client_tbl s !! Z.to_nat i = Some e -> repeats e d clk_val = true ->
  setval_same i e d clk_val (reserve_only d) s = setval_spec i e e d clk_val clk_val s.
Proof.
  intros Hlk Hi He Hr. unfold setval_same, setval_spec. rewrite Hr.
  destruct (Bool.eqb _ _); [done|]. unfold repeats in Hr.
  apply andb_prop in Hr as [[Hr1 Hr2]%andb_prop _]. apply Z.eqb_eq in Hr1, Hr2.
  rewrite (bind_ret _ _ _ _ _ (lock_free s Hlk)).
  rewrite (bind_ret _ _ _ _ _ (upd_entry_eq (set_lock true s) i e _ Hi He)).
  rewrite (bind_ret _ _ _ _ _ (unlock_eq _)).
  set (s' := set_tbl (zupd (clk_client_tbl s) i (requested clk_val (vdd_level (e_vote e)) (reserve_only d) (cd_num_hw_blocks d) e)) s).
  assert (Hs : set_lock false (set_tbl (zupd (clk_client_tbl (set_lock true s)) i
      (set_vote (mkVote (clk_rate (e_vote e)) (vdd_level (e_vote e)) (reserve_only d) (ref_count (e_vote e))
         (num_hw_blocks (e_vote e))) e)) (set_lock true s)) = s').
  { unfold s', requested. rewrite Hr1, Hr2. destruct s; cbn in *. by subst. }
  rewrite Hs. destruct (reserve_only d); [done|].
  by apply (set_clk_rate_eq _ _ _ (requested clk_val (vdd_level (e_vote e)) false (cd_num_hw_blocks d) e)); [|apply (lookup_zupd_eq _ _ _ e)| |].
Qed.

(** The effective rate of a well-formed request. *)
Lemma effective_range e d clk_val rate k : 0 <= clk_val < 2 ^ 32 ->
  effective e d clk_val = Some (rate, k) -> 0 <= rate < 2 ^ 32.
Proof.
  intros Hv. unfold effective. destruct (is_crm_client _); [|by intros [= <- <-]].
  unfold mmrm_sw_get_max_crm_rate.
  assert (Hscan : forall l i sk b, 0 <= fst b < 2 ^ 32 -> 0 <= fst (crm_max_scan l i sk b) < 2 ^ 32).
  { induction l as [|x l IH]; intros i sk b Hb; cbn [crm_max_scan]; [done|]. apply IH.
    destruct (i =? sk); [done|]. destruct (x >? fst b); [apply u32_range|done]. }
  destruct (clk_val >? _); [intros [= <- _]; apply u32_range|].
  destruct (crm_vote_idx _ _ =? _); [|intros [= <- _]; apply u32_range].
  destruct (crm_client_tbl _) as [l|]; cbn [mbind option_bind]; [|done].
  specialize (Hscan l 0 (max_rate_idx (e_crm e)) (0, max_rate_idx (e_crm e)) ltac:(cbn; lia)).
  destruct (crm_max_scan _ _ _ _) as [m j]. destruct (clk_val >=? m); intros [= <- _]; [apply u32_range|done].
Qed.

Lemma setval_eq s cl d clk_val e e1 rate k : peak_ok s -> mm_lock s = false -> 0 <= client_uid cl ->
  clk_client_tbl s !! Z.to_nat (client_uid cl) = Some e -> IS_ERR_OR_NULL (eu_clk (e_user e)) = false ->
  quiet_code s (client_uid cl) e d clk_val -> well_formed e d clk_val -> crm_in_range e d ->
  effective e d clk_val = Some (rate, k) -> voted e d clk_val k e1 ->
  mmrm_sw_clk_client_setval (Some cl) (Some d) clk_val s = setval_spec (client_uid cl) e e1 d clk_val rate s.
Proof.
  intros Hok Hlk Hi He Hclk Hp (Hv & Hb & _ & _ & Hcb) Hcr Hef Hvt.
  pose proof (effective_range _ _ _ _ _ Hv Hef) as Hr.
  unfold mmrm_sw_clk_client_setval. rewrite bind_get. pose proof (lookup_lt_Some _ _ _ He) as Hlt.
  unfold tot_clk_clients, zlen. rewrite Z.geb_leb. destruct (Z.leb_spec (Z.of_nat (length (clk_client_tbl s))) (client_uid cl)); [lia|].
  rewrite (bind_ret _ _ _ _ _ (entry_at_eq s _ e Hi He)), Hclk.
  assert (Hg : is_crm_client (e_crm e) && ((cd_crm_drv_idx d >=? hw_drv_instances (e_crm e))
     || (cd_pwr_st d >=? num_pwr_states (e_crm e))) = false).
  { unfold crm_in_range in Hcr. destruct (is_crm_client _); [|done]. destruct Hcr as [H1 H2]; [done|].
    rewrite andb_true_l, orb_false_iff, !Z.geb_leb, !Z.leb_gt. lia. }
  rewrite Hg.
  assert (Heff : (if is_crm_client (e_crm e) then deref (mmrm_sw_get_max_crm_rate e d clk_val)
    else mret (clk_val, 0)) s = Ret (rate, k) s).
  { unfold effective in Hef. destruct (is_crm_client _); [by rewrite Hef|by injection Hef as <- <-]. }
  rewrite (bind_ret _ _ _ _ _ Heff). cbv beta iota zeta. fold (reserve_only d). fold (repeats e d clk_val).
  destruct (repeats e d clk_val) eqn:Hrep.
  - rewrite setval_same_spec by done. unfold setval_spec. by rewrite Hrep.
  - unfold setval_spec. rewrite Hrep. destruct (request_level e d clk_val rate) as [level|] eqn:Hlv.
    + pose proof (Hp _ _ _ Hef Hlv) as Hq.
      rewrite (setval_admit_spec s _ e e1) by (done || (intros; destruct (is_crm_client (e_crm e)) eqn:Hc;
        [by apply Hcb | unfold effective in Hef; rewrite Hc in Hef; injection Hef as <- <-;
         by apply (request_level_spec e d clk_val clk_val level)])).
      destruct (admission _ _ _ _ _ _) as [[[lv adj] total]|]; [|done].
      destruct (reserve_only d && _); [done|]. pose proof (voted_user _ _ _ _ _ Hvt) as (Hu & _ & _ & Hic).
      eapply set_clk_rate_eq; [done|by apply (lookup_zupd_eq _ _ _ e)|done|done].
    + unfold admission. by rewrite <- level_asked_eq, Hlv.
Qed.

(** A request on an entry without a clock, or with a vote outside of the table
    of the client, is refused and changes nothing. *)
Lemma setval_valid cl e d clk_val s : 0 <= client_uid cl ->
  clk_client_tbl s !! Z.to_nat (client_uid cl) = Some e ->
  (IS_ERR_OR_NULL (eu_clk (e_user e)) = false /\ crm_in_range e d) \/
  mmrm_sw_clk_client_setval (Some cl) (Some d) clk_val s = Ret (- EINVAL) s.
Proof.
  intros Hi He. unfold mmrm_sw_clk_client_setval. rewrite bind_get. pose proof (lookup_lt_Some _ _ _ He) as Hlt.
  unfold tot_clk_clients, zlen. rewrite Z.geb_leb.
  destruct (Z.leb_spec (Z.of_nat (length (clk_client_tbl s))) (client_uid cl)); [lia|].
  rewrite (bind_ret _ _ _ _ _ (entry_at_eq s _ e Hi He)).
  destruct (IS_ERR_OR_NULL _); [by right|].
  destruct (is_crm_client (e_crm e) && _) eqn:Hg; [by right|left]. split; [done|]. intros Hc.
  rewrite Hc in Hg. cbn [andb] in Hg. zbool. lia.
Qed.

End setval.

(** * The multimedia resource manager: clients that the CRM manages

    The rate of such a client is the largest vote of its table, and
    [max_rate_idx] is the index of that vote. [mmrm_sw_get_max_crm_rate]
    computes both incrementally. *)

(** [m] is the largest value of [tbl], at the index [k]. *)
Definition is_max (tbl : list Z) (k m : Z) : Prop :=
  0 <= k < zlen tbl /\ znth 0 tbl k = m /\ forall j, 0 <= j < zlen tbl -> znth 0 tbl j <= m.

Lemma is_max_zupd tbl k m i v : is_max tbl k m -> 0 <= i < zlen tbl ->
  (m <= v -> is_max (zupd tbl i v) i v) /\ (v <= m -> i <> k -> is_max (zupd tbl i v) k m).
Proof.
  intros (Hk & Hm & Hmax) Hi. unfold is_max. rewrite !zlen_zupd. split.
  - intros Hv. split_and!; [lia|lia|by apply znth_zupd_eq|]. intros j Hj. rewrite znth_zupd by done.
    destruct (Z.eqb_spec j i); [lia|]. specialize (Hmax j Hj). lia.
  - intros Hv Hne. split_and!; [lia|lia|by rewrite znth_zupd_ne|]. intros j Hj. rewrite znth_zupd by done.
    destruct (Z.eqb_spec j i); [lia|]. by apply Hmax.
Qed.

Section crm.
Context `{E : MmrmEnv}.

(** The vote table of a CRM client. *)
Record votes_ok (e : clk_entry) (tbl : list Z) : Prop := {
  vo_tbl : crm_client_tbl (e_crm e) = Some tbl;
  vo_len : zlen tbl = crm_client_tbl_size (e_crm e);
  vo_size : crm_client_tbl_size (e_crm e) = hw_drv_instances (e_crm e) * num_pwr_states (e_crm e) + 1;
  vo_hw : 1 <= hw_drv_instances (e_crm e) <= MAX_HW_DRV_INSTANCES;
  vo_pwr : 1 <= num_pwr_states (e_crm e) <= MAX_POWER_STATES;
  vo_votes : forall j, 0 <= znth 0 tbl j < 2 ^ 32;
  vo_max : is_max tbl (max_rate_idx (e_crm e)) (clk_rate (e_vote e));
}.

Definition crm_ok (e : clk_entry) : Prop :=
  is_crm_client (e_crm e) = true -> exists tbl, votes_ok e tbl.

Lemma scan_spec l i sk m0 j0 m j : (forall n, 0 <= znth 0 l n < 2 ^ 32) ->
  crm_max_scan l i sk (m0, j0) = (m, j) ->
  m0 <= m /\ (forall n, 0 <= n < zlen l -> i + n <> sk -> znth 0 l n <= m) /\
  ((m = m0 /\ j = j0) \/ exists n, 0 <= n < zlen l /\ znth 0 l n = m /\ j = i + n /\ j <> sk).
Proof.
  revert i m0 j0. induction l as [|x l IH]; intros i m0 j0 Hr; cbn [crm_max_scan].
  { intros [= <- <-]. split_and!; [lia| |by left]. unfold zlen. cbn [length]. lia. }
  assert (Hx : 0 <= x < 2 ^ 32) by apply (Hr 0).
  assert (Hsh : forall n, 0 <= n -> znth 0 (x :: l) (n + 1) = znth 0 l n).
  { intros n Hn. unfold znth. destruct (Z.ltb_spec (n + 1) 0), (Z.ltb_spec n 0); try lia.
    by replace (Z.to_nat (n + 1)) with (S (Z.to_nat n)) by lia. }
  assert (Hr' : forall n, 0 <= znth 0 l n < 2 ^ 32).
  { intros n. destruct (Z.lt_ge_cases n 0); [|rewrite <- Hsh by done; apply Hr].
    unfold znth. destruct (Z.ltb_spec n 0); lia. }
  assert (Hcons : zlen (x :: l) = zlen l + 1) by (unfold zlen; cbn [length]; lia).
  set (best := if i =? sk then (m0, j0) else if x >? fst (m0, j0) then (u32 x, i) else (m0, j0)).
  intros H. destruct best as [m1 j1] eqn:Hb. destruct (IH _ _ _ Hr' H) as (H1 & H2 & H3).
  assert (Hbest : m0 <= m1 /\ (i <> sk -> x <= m1) /\ ((m1 = m0 /\ j1 = j0) \/ (m1 = x /\ j1 = i /\ i <> sk))).
  { unfold best in Hb. cbn [fst] in Hb. clear - Hb Hx. destruct (Z.eqb_spec i sk).
    - injection Hb as <- <-. split_and!; [lia|done|by left].
    - rewrite (u32_small x Hx) in Hb. destruct (x >? m0) eqn:Hg; injection Hb as <- <-; zbool.
      + split_and!; [lia|done|by right].
      + split_and!; [lia|done|by left]. }
  destruct Hbest as (B1 & B2 & B3). split_and!; [lia| |].
  - intros n Hn Hne. destruct (Z.eq_dec n 0) as [->|]; [change (znth 0 (x :: l) 0) with x; specialize (B2 ltac:(lia)); lia|].
    replace n with (n - 1 + 1) by lia. rewrite Hsh by lia. apply H2; lia.
  - destruct H3 as [[-> ->]|(n & Hn & Hm & Hj & Hs)].
    + destruct B3 as [B3|(-> & -> & Hs)]; [by left|]. right. exists 0.
      split_and!; [lia | unfold zlen in *; lia | done | lia | done].
    + right. exists (n + 1). rewrite Hsh by lia. split_and!; [lia | lia | done | lia | done].
Qed.

(** The index of a vote is inside of the table. *)
Lemma vote_idx_range e d tbl : votes_ok e tbl -> 0 <= cd_crm_drv_idx d < hw_drv_instances (e_crm e) ->
  0 <= cd_pwr_st d < num_pwr_states (e_crm e) -> 0 <= crm_vote_idx (e_crm e) d < zlen tbl.
Proof.
  intros [_ -> Hs Hh Hp _ _] Hd Hw. unfold crm_vote_idx, MAX_HW_DRV_INSTANCES, MAX_POWER_STATES in *.
  assert (0 <= num_pwr_states (e_crm e) * cd_crm_drv_idx d + cd_pwr_st d
          < hw_drv_instances (e_crm e) * num_pwr_states (e_crm e)) by nia.
  assert (hw_drv_instances (e_crm e) * num_pwr_states (e_crm e) <= 30) by nia.
  case_if; rewrite u32_small by lia; lia.
Qed.

Lemma get_max_crm_rate_spec e d v tbl : votes_ok e tbl -> 0 <= v < 2 ^ 32 ->
  0 <= crm_vote_idx (e_crm e) d < zlen tbl ->
  exists rate k, mmrm_sw_get_max_crm_rate e d v = Some (rate, k) /\
    is_max (zupd tbl (crm_vote_idx (e_crm e) d) v) k rate.
Proof.
  intros [Ht _ _ _ _ Hr Hmax] Hv Hi. unfold mmrm_sw_get_max_crm_rate. rewrite Ht.
  set (i := crm_vote_idx (e_crm e) d) in *. set (k0 := max_rate_idx (e_crm e)) in *.
  assert (Hrate : 0 <= clk_rate (e_vote e) < 2 ^ 32) by (destruct Hmax as (_ & <- & _); apply Hr).
  rewrite (u32_small _ Hrate), (u32_small v Hv). destruct (is_max_zupd _ _ _ i v Hmax Hi) as [Hnew Hold].
  destruct (v >? clk_rate (e_vote e)) eqn:Hg; zbool; [eexists _, _; split; [done|apply Hnew; lia]|].
  destruct (Z.eqb_spec i k0) as [Hik|Hik]; [|eexists _, _; split; [done|apply Hold; lia]].
  cbn [mbind option_bind]. destruct (crm_max_scan tbl 0 k0 (0, k0)) as [m j] eqn:Hscan.
  destruct (scan_spec _ _ _ _ _ _ _ Hr Hscan) as (Hm0 & Hm & Hj).
  destruct Hmax as (Hk & Hkm & Hmax). unfold is_max. rewrite !zlen_zupd.
  destruct (v >=? m) eqn:Hge; zbool; eexists _, _; (split; [done|]).
  - split_and!; [lia|lia|rewrite <- Hik; by apply znth_zupd_eq|]. intros n Hn. rewrite znth_zupd by done.
    destruct (Z.eqb_spec n i); [lia|]. specialize (Hm n Hn). lia.
  - destruct Hj as [[-> _]|(n & Hn & Hnm & Hjn & Hjk)]; [lia|]. rewrite Z.add_0_l in Hjn. subst j.
    split_and!; [lia|lia|rewrite znth_zupd_ne by lia; done|]. intros n' Hn'. rewrite znth_zupd by done.
    destruct (Z.eqb_spec n' i); [lia|]. apply Hm; lia.
Qed.

(** A vote of a CRM client is stored, and the entry with it is well-formed. *)
Lemma crm_votes e d v tbl : votes_ok e tbl -> is_crm_client (e_crm e) = true -> 0 <= v < 2 ^ 32 ->
  0 <= cd_crm_drv_idx d < hw_drv_instances (e_crm e) -> 0 <= cd_pwr_st d < num_pwr_states (e_crm e) ->
  exists rate k e1, effective e d v = Some (rate, k) /\ voted e d v k e1 /\
    forall level res blocks,
      votes_ok (requested rate level res blocks e1) (zupd tbl (crm_vote_idx (e_crm e) d) v).
Proof.
  intros Hvo Hc Hv Hd Hp. pose proof (vote_idx_range _ _ _ Hvo Hd Hp) as Hi.
  destruct (get_max_crm_rate_spec _ _ _ _ Hvo Hv Hi) as (rate & k & Hg & Hmx).
  unfold effective, voted. rewrite Hc, Hg. eexists rate, k, _. split; [done|].
  destruct Hvo as [Ht Hl Hs Hh Hpw Hr Hmax]. split.
  - unfold store_crm. rewrite Ht. cbn [mbind option_bind].
    destruct (Z.ltb_spec (crm_vote_idx (e_crm e) d) (zlen tbl)); [|lia]. by eexists.
  - intros level res blocks. split; cbn; rewrite ?zlen_zupd; try done.
    intros j. rewrite znth_zupd by done. destruct (j =? _); [done|apply Hr].
Qed.

(** ** The specification of a vote *)

(** The place of a vote in the table of a CRM client: one for each power state of
    each hardware driver, and the last one for software. *)
Definition vote_slot (e : clk_entry) (d : client_data) : Z :=
  let c := e_crm e in
  if cd_drv_type d =? MMRM_CRM_SW_DRV then hw_drv_instances c * num_pwr_states c
  else num_pwr_states c * cd_crm_drv_idx d + cd_pwr_st d.

(** A request for [clk_val] makes [rate] the rate of the client and [e1] its
    entry: for a CRM client the largest vote of its table with the new vote. *)
Definition vote_stored (e : clk_entry) (d : client_data) (clk_val rate : Z) (e1 : clk_entry) : Prop :=
  let c := e_crm e in
  if is_crm_client c
  then exists tbl k, crm_client_tbl c = Some tbl /\
    let tbl' := zupd tbl (vote_slot e d) clk_val in
    is_max tbl' k rate /\
    e1 = set_crm (mkCrm true (hw_drv_instances c) (num_pwr_states c) k (crm_client_tbl_size c) (Some tbl')) e
  else rate = clk_val /\ e1 = e.

Lemma vote_slot_eq e d tbl : votes_ok e tbl -> 0 <= cd_crm_drv_idx d < hw_drv_instances (e_crm e) ->
  0 <= cd_pwr_st d < num_pwr_states (e_crm e) -> crm_vote_idx (e_crm e) d = vote_slot e d.
Proof.
  intros [_ _ Hs Hh Hp _ _] Hd Hw. unfold crm_vote_idx, vote_slot, MAX_HW_DRV_INSTANCES, MAX_POWER_STATES in *.
  assert (0 <= num_pwr_states (e_crm e) * cd_crm_drv_idx d + cd_pwr_st d
          < hw_drv_instances (e_crm e) * num_pwr_states (e_crm e)) by nia.
  assert (hw_drv_instances (e_crm e) * num_pwr_states (e_crm e) <= 30) by nia.
  case_if; rewrite u32_small by lia; lia.
Qed.

(** The code stores the vote. *)
Lemma vote_stored_code e d v rate k : crm_ok e -> 0 <= v < 2 ^ 32 -> crm_in_range e d ->
  0 <= cd_crm_drv_idx d -> 0 <= cd_pwr_st d -> effective e d v = Some (rate, k) ->
  exists e1, voted e d v k e1 /\ vote_stored e d v rate e1.
Proof.
  intros Hok Hv Hcr Hd Hp. unfold effective, voted, vote_stored. destruct (is_crm_client (e_crm e)) eqn:Hc.
  2: { intros [= <- <-]. by exists e. }
  intros Hef. destruct (Hok Hc) as [tbl Hvo]. destruct (Hcr Hc) as [Hd1 Hp1].
  pose proof (vote_idx_range e d tbl Hvo ltac:(lia) ltac:(lia)) as Hi.
  destruct (get_max_crm_rate_spec _ _ _ _ Hvo Hv Hi) as (rate' & k' & Hg & Hmx).
  assert (rate' = rate /\ k' = k) as [-> ->] by (split; congruence).
  rewrite (vote_slot_eq e d tbl) in Hi, Hmx by (done || lia).
  unfold store_crm. rewrite (vo_tbl _ _ Hvo). cbn [mbind option_bind].
  rewrite (vote_slot_eq e d tbl), Hc by (done || lia). destruct (Z.ltb_spec (vote_slot e d) (zlen tbl)); [|lia].
  eexists. split; [by eexists|]. by exists tbl, k.
Qed.

(** The request throttles no client: its client may not throttle, or the current
    with the request stays below the threshold. *)
Definition quiet (s : mmrm) (i : Z) (e : clk_entry) (d : client_data) (clk_val : Z) : Prop :=
  plain s e = true \/
  forall rate e1 level, vote_stored e d clk_val rate e1 -> level_asked e d clk_val rate = Some level ->
    let total := drawn (adjusted s (clk_src_id (e_tables e)) level)
      (zupd (clk_client_tbl s) i (requested rate level (reserve_only d) (cd_num_hw_blocks d) e)) in
    total = 0 \/ total < threshold (peak_cur_data s).

Lemma quiet_plain s i e d clk_val : plain s e = true -> quiet s i e d clk_val.
Proof. intros Hp. by left. Qed.

Lemma quiet_to_code s i e d v : crm_ok e -> well_formed e d v -> crm_in_range e d ->
  quiet s i e d v -> quiet_code s i e d v.
Proof.
  intros Hok (Hv & _ & Hd & Hp & _) Hcr [Hq|Hq] rate k level Hef Hl; [by left|right].
  intros adj Hadj. rewrite check_req_level_eq in Hadj by apply (request_level_spec _ _ _ _ _ Hl).
  injection Hadj as <-. rewrite level_asked_eq in Hl.
  destruct (vote_stored_code e d v rate k) as (e1 & _ & Hs); [done..|].
  specialize (Hq rate e1 level Hs Hl). cbv zeta in Hq. rewrite drawn_load in Hq.
  unfold admissible. destruct Hq as [->|Hq]; [done|]. apply orb_true_iff. right. by apply Z.ltb_lt.
Qed.

End crm.
