(* ===== verification/MmrmRuns.v ===== *)
(** * The multimedia resource manager: runs

    The account of the peak current over every sequence of registrations,
    requests and deregistrations that does not throttle. *)

From stdpp Require Import relations.
From S2P Require Import Prelude Outcome MmrmClk MmrmMgr MmrmAdmit MmrmSetval MmrmInit.

(** Reduces the projections of an updated state. *)
Ltac mm_cbn :=
  cbn [set_log set_tbl set_peak set_lock admitted mm_lock clk_client_tbl peak_cur_data throttled_clients
       threshold aggreg_val aggreg_level msm_mmrm_allow_multiple_register].

Section runs.
Context `{E : MmrmEnv}.

(** ** The invariant *)

(** An entry without a client has no clock and no rate, and is not marked as
    one of the CRM. *)
Definition free_ok (e : clk_entry) : Prop :=
  eu_client (e_user e) = None ->
  eu_clk (e_user e) = 0 /\ clk_rate (e_vote e) = 0 /\ is_crm_client (e_crm e) = false.

(** The aggregated level is 0, or the level of a client that draws current. *)
Definition level_held (level : Z) (tbl : list clk_entry) : Prop :=
  level = 0 \/ exists e, e ∈ tbl /\ draws e = true /\ vdd_level (e_vote e) = level.

Variable peak : Z.     (* the threshold of the platform *)

Record mm_ok (s : mmrm) : Prop := {
  mo_threshold : threshold (peak_cur_data s) = peak;
  mo_peak : peak_ok s;
  mo_lock : mm_lock s = false;
  mo_free : Forall free_ok (clk_client_tbl s);
  mo_crm : Forall crm_ok (clk_client_tbl s);
  mo_held : level_held (aggreg_level (peak_cur_data s)) (clk_client_tbl s);
}.

(** ** The steps *)

(** A request, as the clients make it: with a registered client, the rates and
    blocks of [well_formed], and no client to throttle. *)
Record request (s : mmrm) (cl : mmrm_client) (e : clk_entry) (d : client_data) (clk_val r : Z) (s' : mmrm) :
    Prop := {
  rq_index : 0 <= client_uid cl;
  rq_entry : clk_client_tbl s !! Z.to_nat (client_uid cl) = Some e;
  rq_data : well_formed e d clk_val;
  rq_quiet : quiet s (client_uid cl) e d clk_val;
  rq_call : mmrm_sw_clk_client_setval (Some cl) (Some d) clk_val s = Ret r s';
}.

Inductive mmrm_step : mmrm -> mmrm -> Prop :=
| step_register desc pri pvt fn r s s' :
    mmrm_sw_clk_client_register desc pri pvt fn s = Ret r s' ->
    0 <= desc_hw_drv_instances desc -> 0 <= desc_num_pwr_states desc ->
    (* the new currents can still be added *)
    sized (clk_client_tbl s') ->
    mmrm_step s s'
| step_deregister cl e r s s' :
    0 <= client_uid cl -> clk_client_tbl s !! Z.to_nat (client_uid cl) = Some e ->
    (* the client has given up its rate, or stays registered *)
    clk_rate (e_vote e) = 0 \/ 1 < ref_count (e_vote e) ->
    mmrm_sw_clk_client_deregister (Some cl) s = Ret r s' ->
    mmrm_step s s'
| step_setval cl e d clk_val r s s' : request s cl e d clk_val r s' -> mmrm_step s s'.

(** ** Preservation *)

Lemma level_held_zupd level tbl i e e' : 0 <= i -> tbl !! Z.to_nat i = Some e ->
  (draws e = true -> draws e' = true /\ vdd_level (e_vote e') = vdd_level (e_vote e)) ->
  level_held level tbl -> level_held level (zupd tbl i e').
Proof.
  intros Hi He Hk [|(x & Hx & Hd & Hl)]; [by left|right].
  apply list_elem_of_lookup in Hx as [j Hj]. destruct (decide (j = Z.to_nat i)) as [->|Hne].
  - rewrite He in Hj. injection Hj as <-. destruct (Hk Hd) as [Hd' Hl']. exists e'.
    split_and!; [|done|congruence]. eapply list_elem_of_lookup_2, (lookup_zupd_eq _ _ _ e); done.
  - exists x. split_and!; [|done|done]. apply (list_elem_of_lookup_2 _ j). unfold zupd.
    destruct (Z.ltb_spec i 0); [lia|]. by rewrite list_lookup_insert_ne by done.
Qed.

(** A change of one entry that keeps the account. *)
Lemma mm_ok_update s i e e' l : mm_ok s -> 0 <= i -> clk_client_tbl s !! Z.to_nat i = Some e ->
  entry_ok e' -> free_ok e' -> crm_ok e' ->
  contrib (aggreg_level (peak_cur_data s)) e' = contrib (aggreg_level (peak_cur_data s)) e ->
  sized (zupd (clk_client_tbl s) i e') ->
  (draws e = true -> draws e' = true /\ vdd_level (e_vote e') = vdd_level (e_vote e)) ->
  mm_ok (set_log l (set_tbl (zupd (clk_client_tbl s) i e') s)).
Proof.
  intros [Hpk [He Hs Hl Hv Ht Ha Hth] Hlk Hf Hc Hh] Hi Hin Hok Hfr Hcr Hco Hsz Hdr. split; mm_cbn; [done|..].
  - split; mm_cbn; try done; [by apply Forall_zupd|]. rewrite Hv, (load_zupd _ _ i e e') by done. lia.
  - done.
  - by apply Forall_zupd.
  - by apply Forall_zupd.
  - by apply (level_held_zupd _ _ _ e).
Qed.

Lemma sized_zupd tbl i e e' : 0 <= i -> tbl !! Z.to_nat i = Some e -> e_tables e' = e_tables e ->
  sized tbl -> sized (zupd tbl i e').
Proof. intros Hi He Ht Hs level Hl. rewrite (capacity_zupd _ _ _ e) by done. by apply Hs. Qed.

Lemma mm_ok_admitted s i e e1 d clk_val rate k l : mm_ok s -> 0 <= i ->
  clk_client_tbl s !! Z.to_nat i = Some e -> IS_ERR_OR_NULL (eu_clk (e_user e)) = false ->
  well_formed e d clk_val -> effective e d clk_val = Some (rate, k) -> voted e d clk_val k e1 ->
  (forall level res blocks, crm_ok (requested rate level res blocks e1)) ->
  (clk_val <> 0 -> rate <> 0) ->
  forall level adj total, admission s i e d clk_val rate = Some (level, adj, total) ->
  mm_ok (set_log l (admitted s i adj total (requested rate level (reserve_only d) (cd_num_hw_blocks d) e1))).
Proof.
  intros [Hpk [He Hs Hl Hv Ht Ha Hth] Hlk Hf Hc Hh] Hi Hin Hclk (Hcv & Hb & _ & _ & Hbc) Hef Hvt Hcrm Hnz level adj total.
  pose proof (effective_range _ _ _ _ _ Hcv Hef) as Hr.
  unfold admission. rewrite <- level_asked_eq. destruct (request_level e d clk_val rate) as [lv|] eqn:Hlv; [|done].
  destruct (request_level_spec _ _ _ _ _ Hlv) as [Hlvl Hblk].
  pose proof (check_req_level_eq s (clk_src_id (e_tables e)) lv Hlvl) as Hceq.
  destruct (check_req_level_ok s (clk_src_id (e_tables e)) lv Hlvl Hl) as (adj' & Hadj' & Hadj & _).
  rewrite Hceq in Hadj'. injection Hadj' as <-. cbv zeta. rewrite drawn_load.
  set (adj' := adjusted s _ _) in *. set (tot := load adj' _).
  destruct (admissible (threshold (peak_cur_data s)) tot) eqn:Had; [|done]. intros [= <- <- <-].
  pose proof (voted_user _ _ _ _ _ Hvt) as (Hu & Htb & Hvo & Hic).
  assert (Heo : entry_ok e) by apply (Forall_lookup_1 _ _ _ _ He Hin).
  assert (Heo1 : entry_ok e1).
  { destruct Heo as [? ? [? ?] Hm Hcu]. split; unfold inactive, cur_ma in *; rewrite ?Hu, ?Htb, ?Hvo; done. }
  assert (Hfree : free_ok e1 -> free_ok (requested rate lv (reserve_only d) (cd_num_hw_blocks d) e1)).
  { intros Hfe Hno. cbn in Hno. destruct (Hfe Hno) as [Hz _]. rewrite Hu in Hz. by rewrite Hz in Hclk. }
  split; mm_cbn; [done|split; mm_cbn|done| | |]; try done.
  - apply Forall_zupd; [done|]. apply requested_ok; [done|done|lia|done|]. rewrite Htb. intros Hne.
    destruct (is_crm_client (e_crm e)) eqn:Hcr; [by apply Hbc|]. apply Hblk.
    unfold effective in Hef. rewrite Hcr in Hef. by injection Hef as <- _.
  - apply (sized_zupd _ _ e); [done|done|cbn; by rewrite Htb|done].
  - unfold tot. rewrite !(load_zupd _ _ i e) by done. by rewrite (contrib_voted _ _ _ _ _ _ _ _ _ _ Hvt).
  - apply Forall_zupd; [done|]. apply Hfree. pose proof (Forall_lookup_1 _ _ _ _ Hf Hin) as Hfe.
    unfold free_ok in *. by rewrite Hu, Hvo, Hic.
  - by apply Forall_zupd.
  - destruct (adjusted_from s (clk_src_id (e_tables e)) lv) as [Hreq|(x & Hx & Hd & Hsrc & Hxl)].
    + unfold adj'. rewrite Hreq. destruct (Z.eq_dec rate 0) as [Hrz|Hrz].
      * left. assert (clk_val = 0) as -> by (destruct (Z.eq_dec clk_val 0); [done|by destruct Hnz]).
        by injection Hlv as <-.
      * right. eexists. split; [eapply list_elem_of_lookup_2, (lookup_zupd_eq _ _ _ e); done|].
        split; [|done]. unfold draws. cbn. rewrite Hu, Hclk. cbn. apply negb_true_iff. by apply Z.eqb_neq.
    + right. exists x. split; [|done]. apply list_elem_of_lookup in Hx as [j Hj]. apply (list_elem_of_lookup_2 _ j).
      unfold zupd. destruct (Z.ltb_spec i 0); [lia|]. rewrite list_lookup_insert_ne; [done|]. intros <-.
      rewrite Hin in Hj. by injection Hj as <-.
Qed.

(** ** Registration *)

Lemma cur_nonneg (l : list (list Z)) i j : Forall (Forall (fun x => 0 <= x)) l ->
  0 <= znth 0 (znth [] l i) j.
Proof.
  intros H. unfold znth at 1. destruct (j <? 0); [done|].
  destruct (znth [] l i !! Z.to_nat j) as [x|] eqn:Hx; [|done]. cbn.
  unfold znth in Hx. destruct (i <? 0); [done|].
  destruct (l !! Z.to_nat i) as [r|] eqn:Hr; cbn in Hx; [|done].
  by apply (Forall_lookup_1 _ _ _ _ (Forall_lookup_1 _ _ _ _ H Hr) Hx).
Qed.

Lemma zip_with_all {A B C} (P : C -> Prop) (f : A -> B -> C) l1 l2 :
  (forall a b, P (f a b)) -> Forall P (zip_with f l1 l2).
Proof. intros H. revert l2. induction l1 as [|a l1 IH]; intros [|b l2]; constructor; auto. Qed.

Lemma curr_tables_nonneg corners nom f d l cur :
  curr_tables corners nom f = (d, l, cur) -> Forall (Forall (fun x => 0 <= x)) cur.
Proof.
  unfold curr_tables. intros [= <- <- <-]. apply zip_with_all. intros a b.
  apply Forall_fmap, Forall_true. intros c. apply u32_range.
Qed.

(** What an entry is while a client registers in it. *)
Definition registering (e : clk_entry) : Prop := entry_ok e /\ crm_ok e /\ clk_rate (e_vote e) = 0.

Section one_entry.
Variables (s0 : mmrm) (k : Z) (e0 : clk_entry).
Hypothesis Hk : 0 <= k.
Hypothesis He0 : clk_client_tbl s0 !! Z.to_nat k = Some e0.
Hypothesis Hlk : mm_lock s0 = false.

(** The states of the registration: with the lock, and at its end. *)
Definition Fin (e : clk_entry) (l : list mmrm_event) : mmrm :=
  set_log l (set_tbl (zupd (clk_client_tbl s0) k e) s0).
Definition St (e : clk_entry) (l : list mmrm_event) : mmrm := set_lock true (Fin e l).

Lemma St_lookup e l : clk_client_tbl (St e l) !! Z.to_nat k = Some e.
Proof using Hk He0. by apply (lookup_zupd_eq _ _ _ e0). Qed.

Lemma St_entry e l : entry_at k (St e l) = Ret e (St e l).
Proof using Hk He0. apply entry_at_eq; [done|apply St_lookup]. Qed.

Lemma St_upd e l f : upd_entry k f (St e l) = Ret tt (St (f e) l).
Proof using Hk He0.
  rewrite (upd_entry_eq _ _ e) by (done || apply St_lookup). unfold St, Fin. f_equal. mm_cbn.
  by rewrite zupd_zupd.
Qed.

Lemma St_alloc e l : alloc_ok (St e l) = Ret (ext_rc (l ++ [EvAlloc]) =? 0) (St e (l ++ [EvAlloc])).
Proof. done. Qed.

Lemma St_unlock e l : mutex_unlock (St e l) = Ret tt (Fin e l).
Proof using He0 Hlk. clear Hk. rewrite unlock_eq. unfold St, Fin. destruct s0. cbn in *. by subst. Qed.

Lemma St_fail e l f : register_fail k f (St e l) = Ret None (Fin (set_user (clear_user (e_user e)) (f e)) l).
Proof using Hk He0 Hlk.
  unfold register_fail. rewrite (bind_ret _ _ _ _ _ (St_upd _ _ _)).
  by rewrite (bind_ret _ _ _ _ _ (St_unlock _ _)).
Qed.

Lemma St_update_curr e l r s' : mmrm_sw_update_curr k (St e l) = Ret r s' ->
  exists t, s' = St (set_tables t e) l /\
    max_num_hw_blocks t = max_num_hw_blocks (e_tables e) /\
    (current_ma t = current_ma (e_tables e) \/ Forall (Forall (fun x => 0 <= x)) (current_ma t)).
Proof using Hk He0.
  unfold mmrm_sw_update_curr. rewrite bind_get, (bind_ret _ _ _ _ _ (St_entry _ _)).
  destruct (find_index _ _) as [c|]; [|intros [= <- <-]; exists (e_tables e); split_and!; [by destruct e|done|by left]].
  intros (nom & s1 & Hn & H)%bind_inv. unfold deref in Hn. destruct (_ !! c); [|done]. injection Hn as <- <-.
  repeat (apply bind_inv in H as (? & ? & Hg & H); unfold guard in Hg;
    match type of Hg with (if ?b then _ else _) _ = _ => destruct b; [injection Hg as <- <-|done] end).
  destruct (curr_tables _ _ _) as [[d lk] cur] eqn:Hct.
  rewrite (bind_ret _ _ _ _ _ (St_upd _ _ _)) in H. injection H as <- <-.
  eexists. split_and!; [done|done|]. right. by eapply curr_tables_nonneg.
Qed.

Lemma registering_tables e t : registering e -> max_num_hw_blocks t = max_num_hw_blocks (e_tables e) ->
  (current_ma t = current_ma (e_tables e) \/ Forall (Forall (fun x => 0 <= x)) (current_ma t)) ->
  registering (set_tables t e).
Proof.
  intros ([Hl Hr Hb Hm Hc] & Hcr & Hz) Ht Hcur. split_and!; [split| |]; cbn; rewrite ?Ht; try done.
  - unfold cur_ma. cbn. intros i j. destruct Hcur as [Heq|Hf]; [rewrite Heq; apply Hc|by apply cur_nonneg].
  - intros Hi. destruct (Hcr Hi) as [tbl [? ? ? ? ? ? ?]]. exists tbl. by split.
Qed.

(** What a registration leaves in the entry. *)
Definition registered (s' : mmrm) : Prop :=
  exists e l, s' = Fin e l /\ registering e /\ free_ok e.

Lemma registering_fail e f : registering (f e) -> e_crm (f e) = no_crm \/ is_crm_client (e_crm (f e)) = false ->
  registering (set_user (clear_user (e_user e)) (f e)) /\ free_ok (set_user (clear_user (e_user e)) (f e)).
Proof.
  intros ([Hl Hr Hb Hm Hc] & Hcr & Hz) Hn.
  assert (Hic : is_crm_client (e_crm (f e)) = false) by (destruct Hn as [->|]; done).
  split; [split_and!; [split| |]|]; cbn; try done.
  intros Hi. cbn in Hi. by rewrite Hic in Hi.
Qed.

Lemma St_register_tables e l cl r s' : registering e -> eu_client (e_user e) <> None ->
  register_tables k cl (St e l) = Ret r s' -> registered s'.
Proof using Hk He0 Hlk.
  intros Hreg Hcl. unfold register_tables. rewrite (bind_ret _ _ _ _ _ (St_entry _ _)).
  destruct (mmrm_sw_update_freq _) as [f|]; [|done]. rewrite bind_deref.
  rewrite (bind_ret _ _ _ _ _ (St_upd _ _ _)).
  set (t0 := mkTables _ _ _ _ _ _). assert (Hreg0 : registering (set_tables t0 e)) by (apply registering_tables; auto).
  intros (rc & s1 & Hc & H)%bind_inv. apply St_update_curr in Hc as (t & -> & Ht & Hcur).
  pose proof (registering_tables _ _ Hreg0 Ht Hcur) as Hreg1. destruct (truthy rc).
  - rewrite St_fail in H. injection H as <- <-. eexists _, l. split; [done|].
    apply (registering_fail (set_tables t (set_tables t0 e)) (set_crm no_crm)); [|by left].
    destruct Hreg1 as ([? ? ? ? ?] & _ & ?). split_and!; [by split|intros ?; done|done].
  - rewrite (bind_ret _ _ _ _ _ (St_unlock _ _)) in H. injection H as <- <-. eexists _, l.
    split_and!; [done|done|]. intros Hn. by destruct (Hcl Hn).
Qed.

Lemma votes_ok_zero e hw pwr : 0 < hw <= 6 -> 0 < pwr <= 5 -> clk_rate (e_vote e) = 0 ->
  crm_ok (set_crm (mkCrm true hw pwr 0 (u32 (hw * pwr + 1)) (Some (replicate (Z.to_nat (u32 (hw * pwr + 1))) 0))) e).
Proof.
  intros Hh Hp Hz _. assert (Hs : u32 (hw * pwr + 1) = hw * pwr + 1) by (apply u32_small; nia). rewrite Hs.
  assert (Hlen : zlen (replicate (Z.to_nat (hw * pwr + 1)) 0) = hw * pwr + 1) by (rewrite zlen_replicate; nia).
  assert (Hz0 : forall j, znth 0 (replicate (Z.to_nat (hw * pwr + 1)) 0) j = 0).
  { intros j. unfold znth. destruct (j <? 0); [done|]. destruct (replicate _ _ !! _) as [x|] eqn:Hx; [|done].
    by apply lookup_replicate in Hx as [-> _]. }
  eexists. split; cbn [e_crm set_crm crm_client_tbl crm_client_tbl_size hw_drv_instances num_pwr_states max_rate_idx e_vote];
    try done; unfold MAX_HW_DRV_INSTANCES, MAX_POWER_STATES; try lia.
  - intros j. rewrite Hz0. lia.
  - split_and!; [nia|nia|by rewrite Hz0, Hz|]. intros j _. rewrite Hz0. lia.
Qed.

Lemma St_register_crm e l desc cl r s' : registering e -> eu_client (e_user e) <> None ->
  is_crm_client (e_crm e) = false -> 0 <= desc_hw_drv_instances desc -> 0 <= desc_num_pwr_states desc ->
  register_crm k desc cl (St e l) = Ret r s' -> registered s'.
Proof using Hk He0 Hlk.
  intros Hreg Hcl Hic Hh Hp. unfold register_crm, MAX_HW_DRV_INSTANCES, MAX_POWER_STATES.
  destruct ((_ >? 6) || _) eqn:Hbig.
  { rewrite St_fail. intros [= <- <-]. eexists _, l. split; [done|]. by apply (registering_fail e id); [|right]. }
  apply orb_false_elim in Hbig as [Hb1 Hb2].
  destruct ((_ >? 0) && _) eqn:Hpos; [|by apply St_register_tables].
  apply andb_prop in Hpos as [Hp1 Hp2]. zbool. rewrite (bind_ret _ _ _ _ _ (St_alloc _ _)).
  destruct (ext_rc _ =? 0); cbn [negb].
  - rewrite (bind_ret _ _ _ _ _ (St_upd _ _ _)). apply St_register_tables; [|done].
    destruct Hreg as ([? ? ? ? ?] & _ & Hz). split_and!; [by split| |done]. apply votes_ok_zero; [lia|lia|done].
  - rewrite St_fail. intros [= <- <-]. eexists _, _. split; [done|].
    apply (registering_fail e (fun e => let k := e_crm e in
      set_crm (mkCrm (is_crm_client k) (hw_drv_instances k) (num_pwr_states k) (max_rate_idx k) 0 None) e)); [|by right].
    destruct Hreg as ([? ? ? ? ?] & _ & Hz). split_and!; [by split| |done]. intros Hi. cbn in Hi. by rewrite Hic in Hi.
Qed.

End one_entry.

(** The end of a registration keeps the invariant. *)
Lemma mm_ok_registered s k e s' : mm_ok s -> 0 <= k -> clk_client_tbl s !! Z.to_nat k = Some e ->
  clk_rate (e_vote e) = 0 -> sized (clk_client_tbl s') -> registered s k s' -> mm_ok s'.
Proof.
  intros Hok Hk He Hz Hs (e' & l & -> & (Ho & Hc & Hz') & Hf).
  apply (mm_ok_update s k e); try done.
  - unfold contrib, inactive. by rewrite Hz, Hz', !orb_true_r.
  - unfold draws. by rewrite Hz, andb_false_r.
Qed.

Lemma set_log_id s l : mm_log s = l -> set_log l s = s.
Proof. intros <-. by destruct s. Qed.

Lemma St_id s k e : 0 <= k -> clk_client_tbl s !! Z.to_nat k = Some e -> set_lock true s = St s k e (mm_log s).
Proof.
  intros Hk He. unfold St, Fin. rewrite (zupd_lookup_id _ _ _ Hk He). by destruct s.
Qed.

Lemma mm_ok_vote s i e v : mm_ok s -> 0 <= i -> clk_client_tbl s !! Z.to_nat i = Some e ->
  clk_rate v = clk_rate (e_vote e) -> vdd_level v = vdd_level (e_vote e) ->
  num_hw_blocks v = num_hw_blocks (e_vote e) -> mm_ok (set_tbl (zupd (clk_client_tbl s) i (set_vote v e)) s).
Proof.
  intros Hok Hi He H1 H2 H3.
  replace (set_tbl _ s) with (set_log (mm_log s) (set_tbl (zupd (clk_client_tbl s) i (set_vote v e)) s)) by (by destruct s).
  pose proof (Forall_lookup_1 _ _ _ _ (po_entries s (mo_peak s Hok)) He) as [Hl Hr Hb Hm Hc].
  apply (mm_ok_update s i e); try done.
  - split; unfold inactive, cur_ma in *; cbn; rewrite ?H1, ?H2, ?H3; done.
  - pose proof (Forall_lookup_1 _ _ _ _ (mo_free s Hok) He) as Hf. unfold free_ok in *. cbn. by rewrite H1.
  - pose proof (Forall_lookup_1 _ _ _ _ (mo_crm s Hok) He) as Hcr. intros Hi'. destruct (Hcr Hi') as [tbl [? ? ? ? ? ? ?]].
    exists tbl. split; cbn; rewrite ?H1; done.
  - unfold contrib, inactive, cur_ma. cbn. by rewrite H1, H2, H3.
  - apply (sized_zupd _ _ e); [done|done|done|apply Hok].
  - unfold draws. cbn. by rewrite H1, H2.
Qed.

Lemma unlock_id s : mm_lock s = false -> mutex_unlock (set_lock true s) = Ret tt s.
Proof. intros H. rewrite unlock_eq. destruct s. cbn in *. by subst. Qed.

Lemma register_keeps desc pri pvt fn r s s' : mm_ok s ->
  0 <= desc_hw_drv_instances desc -> 0 <= desc_num_pwr_states desc -> sized (clk_client_tbl s') ->
  mmrm_sw_clk_client_register desc pri pvt fn s = Ret r s' -> mm_ok s'.
Proof.
  intros Hok Hh Hp Hs. pose proof (mo_lock s Hok) as Hlk. unfold mmrm_sw_clk_client_register.
  rewrite (bind_ret _ _ _ _ _ (lock_free s Hlk)), bind_get.
  destruct (_ =? enabled_clk_clients _).
  { rewrite (bind_ret _ _ _ _ _ (unlock_id s Hlk)). by intros [= <- <-]. }
  destruct (find_index _ _) as [k|] eqn:Hf.
  2: { rewrite (bind_ret _ _ _ _ _ (unlock_id s Hlk)). by intros [= <- <-]. }
  apply find_index_Some in Hf as (e & He & _). rewrite <- (Nat2Z.id k) in He.
  assert (Hk : 0 <= Z.of_nat k) by lia. set (c := Z.of_nat k) in *. clearbody c. cbv zeta.
  rewrite (St_id s c e Hk He), (bind_ret _ _ _ _ _ (St_entry s c e Hk He e _)).
  destruct (eu_client (e_user e)) as [cl|] eqn:Hcl.
  - destruct (truthy _).
    + rewrite (bind_ret _ _ _ _ _ (St_upd s c e Hk He e _ _)), (bind_ret _ _ _ _ _ (St_unlock s c e He Hlk _ _)).
      intros [= <- <-]. unfold Fin. rewrite set_log_id by done. by apply mm_ok_vote.
    + rewrite <- (St_id s c e Hk He), (bind_ret _ _ _ _ _ (unlock_id s Hlk)). by intros [= <- <-].
  - destruct (Forall_lookup_1 _ _ _ _ (mo_free s Hok) He Hcl) as (Hclk & Hz & Hic).
    pose proof (Forall_lookup_1 _ _ _ _ (po_entries s (mo_peak s Hok)) He) as [Hl Hr Hb Hm Hc].
    pose proof (Forall_lookup_1 _ _ _ _ (mo_crm s Hok) He) as Hcr.
    assert (Hreg : registering e) by (by split_and!; [split| |]).
    intros H. apply (mm_ok_registered s c e); [done..|].
    rewrite (bind_ret _ _ _ _ _ (St_alloc s c e _)) in H. destruct (ext_rc _ =? 0); cbn [negb] in H.
    + rewrite (bind_ret _ _ _ _ _ (St_upd s c e Hk He e _ _)) in H.
      eapply St_register_crm in H; try done. split_and!; [split| |]; try done.
      * cbn. unfold inactive. cbn. rewrite Hz. by rewrite orb_true_r.
      * intros Hi. cbn in Hi. by rewrite Hic in Hi.
    + rewrite (St_fail s c e Hk He Hlk) in H. injection H as <- <-. eexists _, _. split; [done|].
      by apply (registering_fail e id); [|right].
Qed.

Lemma deregister_keeps cl e r s s' : mm_ok s -> 0 <= client_uid cl ->
  clk_client_tbl s !! Z.to_nat (client_uid cl) = Some e ->
  clk_rate (e_vote e) = 0 \/ 1 < ref_count (e_vote e) ->
  mmrm_sw_clk_client_deregister (Some cl) s = Ret r s' -> mm_ok s'.
Proof.
  intros Hok Hi He Hgive. pose proof (mo_lock s Hok) as Hlk. unfold mmrm_sw_clk_client_deregister.
  rewrite bind_get. destruct (_ >=? _); [by intros [= <- <-]|].
  rewrite (bind_ret _ _ _ _ _ (lock_free s Hlk)), (bind_ret _ _ _ _ _ (entry_at_eq (set_lock true s) _ e Hi He)).
  cbv zeta. set (refs := if ref_count (e_vote e) >? 0 then _ else _).
  assert (Hz : refs = 0 -> clk_rate (e_vote e) = 0).
  { unfold refs. destruct (ref_count (e_vote e) >? 0) eqn:Hg; zbool; lia. }
  destruct (Z.eqb_spec refs 0) as [Hrz|Hrz];
    rewrite (bind_ret _ _ _ _ _ (upd_entry_eq (set_lock true s) _ e _ Hi He)), (bind_ret _ _ _ _ _ (unlock_eq _));
    intros [= <- <-].
  - specialize (Hz Hrz). set (e' := mkEntry _ _ _ _).
    replace (set_lock false _) with (set_log (mm_log s) (set_tbl (zupd (clk_client_tbl s) (client_uid cl) e') s))
      by (destruct s; cbn in *; by subst).
    pose proof (Forall_lookup_1 _ _ _ _ (po_entries s (mo_peak s Hok)) He) as [Hl Hr Hb Hm Hc].
    apply (mm_ok_update s _ e); try done.
    + unfold contrib, inactive. cbn. by rewrite Hz, orb_true_r.
    + apply (sized_zupd _ _ e); [done|done|done|apply Hok].
    + unfold draws. by rewrite Hz, andb_false_r.
  - replace (set_lock false _) with (set_tbl (zupd (clk_client_tbl s) (client_uid cl)
      (set_vote (mkVote (clk_rate (e_vote e)) (vdd_level (e_vote e)) (reserve (e_vote e)) refs (num_hw_blocks (e_vote e))) e)) s)
      by (destruct s; cbn in *; by subst).
    by apply mm_ok_vote.
Qed.

(** Deregistering a client that still has a rate leaves its current in the
    account. *)
Lemma deregister_leaks cl e s : mm_ok s -> 0 <= client_uid cl ->
  clk_client_tbl s !! Z.to_nat (client_uid cl) = Some e -> 0 <= ref_count (e_vote e) <= 1 ->
  exists s', mmrm_sw_clk_client_deregister (Some cl) s = Ret 0 s' /\ peak_cur_data s' = peak_cur_data s /\
    load (aggreg_level (peak_cur_data s')) (clk_client_tbl s') =
    aggreg_val (peak_cur_data s') - contrib (aggreg_level (peak_cur_data s')) e.
Proof.
  intros Hok Hi He Href. pose proof (mo_lock s Hok) as Hlk. pose proof (lookup_lt_Some _ _ _ He) as Hlt.
  unfold mmrm_sw_clk_client_deregister. rewrite bind_get. unfold tot_clk_clients, zlen. rewrite Z.geb_leb.
  destruct (Z.leb_spec (Z.of_nat (length (clk_client_tbl s))) (client_uid cl)); [lia|].
  rewrite (bind_ret _ _ _ _ _ (lock_free s Hlk)), (bind_ret _ _ _ _ _ (entry_at_eq (set_lock true s) _ e Hi He)).
  cbv zeta. set (refs := if ref_count (e_vote e) >? 0 then _ else _).
  assert (refs = 0) as -> by (unfold refs; destruct (ref_count (e_vote e) >? 0) eqn:Hg; zbool; lia).
  cbn [Z.eqb]. rewrite (bind_ret _ _ _ _ _ (upd_entry_eq (set_lock true s) _ e _ Hi He)), (bind_ret _ _ _ _ _ (unlock_eq _)).
  eexists. split; [done|]. split; [done|]. mm_cbn. rewrite (load_zupd _ _ _ e) by done.
  rewrite (po_val s (mo_peak s Hok)). unfold contrib at 2, inactive. cbn. lia.
Qed.

Lemma mm_ok_log s l : mm_ok s -> mm_ok (set_log l s).
Proof. by intros [? [] ? ? ?]. Qed.

(** A rate that is not 0 does not become 0. *)
Lemma effective_nonzero e d v rate k : 0 <= v < 2 ^ 32 -> effective e d v = Some (rate, k) -> v <> 0 ->
  0 <= clk_rate (e_vote e) -> rate <> 0.
Proof.
  intros Hv Hef Hnz Hr. unfold effective in Hef. destruct (is_crm_client _); [|by injection Hef as <- <-].
  revert Hef. unfold mmrm_sw_get_max_crm_rate. rewrite (u32_small v Hv).
  destruct (v >? _) eqn:Hg; zbool; [by intros [= <- _]|].
  destruct (_ =? _); [|intros [= <- _]; lia].
  destruct (crm_client_tbl _) as [l|]; cbn [mbind option_bind]; [|done].
  destruct (crm_max_scan _ _ _ _) as [m j]. destruct (v >=? m) eqn:Hm; zbool; intros [= <- _]; lia.
Qed.

(** What a request does: nothing to the account and the currents, or it is
    admitted. *)
Lemma request_cases s cl e d clk_val r s' : mm_ok s -> request s cl e d clk_val r s' ->
  (mm_ok s' /\ peak_cur_data s' = peak_cur_data s) \/
  exists rate k e1 level adj total l, effective e d clk_val = Some (rate, k) /\ voted e d clk_val k e1 /\
    admission s (client_uid cl) e d clk_val rate = Some (level, adj, total) /\
    s' = set_log l (admitted s (client_uid cl) adj total
           (requested rate level (reserve_only d) (cd_num_hw_blocks d) e1)) /\ mm_ok s'.
Proof.
  intros Hok [Hi He Hwf Hp H]. pose proof Hwf as (Hv & Hb & Hd & Hw & Hbc).
  destruct (setval_valid cl e d clk_val s Hi He) as [[Hclk Hcr]|Hbad].
  2: { rewrite Hbad in H. injection H as _ <-. by left. }
  pose proof (Forall_lookup_1 _ _ _ _ (mo_crm s Hok) He) as Hcrm.
  pose proof (quiet_to_code _ _ _ _ _ Hcrm Hwf Hcr Hp) as Hpc.
  assert (Hvotes : exists rate k e1, effective e d clk_val = Some (rate, k) /\ voted e d clk_val k e1 /\
    forall level res blocks, crm_ok (requested rate level res blocks e1)).
  { destruct (is_crm_client (e_crm e)) eqn:Hc.
    - destruct (Hcrm Hc) as [tbl Hvo]. destruct (Hcr Hc) as [Hx Hy].
      destruct (crm_votes e d clk_val tbl) as (rate & k & e1 & ? & ? & Hall); try done.
      exists rate, k, e1. split_and!; [done|done|]. intros level res blocks _. by eexists.
    - exists clk_val, 0, e. unfold effective, voted. rewrite Hc. split_and!; [done|done|].
      intros level res blocks Hi'. cbn in Hi'. by rewrite Hc in Hi'. }
  destruct Hvotes as (rate & k & e1 & Hef & Hvt & Hall).
  rewrite (setval_eq s cl d clk_val e e1 rate k) in H by (done || apply Hok).
  unfold setval_spec in H. destruct (repeats e d clk_val) eqn:Hrep.
  - left. destruct (Bool.eqb _ _); [by injection H as _ <-|]. unfold repeats in Hrep.
    apply andb_prop in Hrep as [[Hr1 Hr2]%andb_prop _]. apply Z.eqb_eq in Hr1, Hr2.
    assert (Hok' : mm_ok (set_tbl (zupd (clk_client_tbl s) (client_uid cl)
      (requested clk_val (vdd_level (e_vote e)) (reserve_only d) (cd_num_hw_blocks d) e)) s)) by (by apply mm_ok_vote).
    destruct (reserve_only d); injection H as _ <-; [done|]. split; [by apply mm_ok_log|done].
  - destruct (admission _ _ _ _ _ _) as [[[lv adj] total]|] eqn:Had; [|injection H as _ <-; by left].
    right. assert (Hnz : clk_val <> 0 -> rate <> 0).
    { intros Hne. apply (effective_nonzero e d clk_val rate k); [done..|].
      apply (Forall_lookup_1 _ _ _ _ (po_entries s (mo_peak s Hok)) He). }
    pose proof (fun l => mm_ok_admitted s _ e e1 d clk_val rate k l Hok Hi He Hclk Hwf Hef Hvt Hall Hnz _ _ _ Had) as Hok'.
    assert (exists l, s' = set_log l (admitted s (client_uid cl) adj total
      (requested rate lv (reserve_only d) (cd_num_hw_blocks d) e1))) as [l ->].
    { destruct (reserve_only d && _); injection H as _ <-; [|by eexists].
      exists (mm_log s). by rewrite set_log_id. }
    exists rate, k, e1, lv, adj, total, l. by split_and!.
Qed.

Lemma setval_keeps s cl e d clk_val r s' : mm_ok s -> request s cl e d clk_val r s' -> mm_ok s'.
Proof. intros Hok H. destruct (request_cases _ _ _ _ _ _ _ Hok H) as [[? _]|H']; [done|naive_solver]. Qed.

(** A request leaves the account at the level of another client that holds it. *)
Lemma request_held s cl e d clk_val r s' x : mm_ok s -> request s cl e d clk_val r s' ->
  x ∈ clk_client_tbl s -> draws x = true -> clk_src_id (e_tables x) <> clk_src_id (e_tables e) ->
  vdd_level (e_vote x) = aggreg_level (peak_cur_data s) ->
  aggreg_level (peak_cur_data s) <= aggreg_level (peak_cur_data s').
Proof.
  intros Hok H Hx Hd Hs Hl.
  destruct (request_cases _ _ _ _ _ _ _ Hok H) as [[_ ->]|(? & ? & ? & ? & ? & ? & ? & _ & _ & Had & -> & _)]; [done|].
  unfold admission in Had. destruct (level_asked _ _ _ _); [|done]. cbv zeta in Had.
  destruct (admissible _ _); [|done]. injection Had as <- <- <-. by eapply adjusted_held.
Qed.

Lemma mmrm_step_keeps s s' : mmrm_step s s' -> mm_ok s -> mm_ok s'.
Proof.
  intros [] Hok; eauto using register_keeps, deregister_keeps, setval_keeps.
Qed.

End runs.

(** ** Reachable states *)

(** What the device tree gives: 32-bit numbers. *)
Definition resources_ok (r : clk_resources) : Prop :=
  0 <= peak_threshold r < 2 ^ 32 /\ Forall (fun n => 0 <= nom_num_hw_block n) (clk_src_tbl r).

Section reachable.
Context `{E : MmrmEnv}.

Lemma zero_cur n i j : cur_ma (prepare_entry n zero_entry) i j = 0.
Proof.
  unfold cur_ma. cbn [prepare_entry set_tables e_tables current_ma zero_entry].
  assert (Hz : forall m j, znth 0 (replicate m 0) j = 0).
  { intros m j'. unfold znth. destruct (j' <? 0); [done|]. destruct (replicate _ _ !! _) as [x|] eqn:Hx; [|done].
    by apply lookup_replicate in Hx as [-> _]. }
  unfold znth at 2. destruct (i <? 0); [apply (Hz 0%nat)|]. destruct (replicate 5 (replicate 5 0) !! _) as [x|] eqn:Hx;
    [|apply (Hz 0%nat)]. apply lookup_replicate in Hx as [-> _]. apply Hz.
Qed.

(** The clock manager that start-up makes has an account of 0. *)
Lemma init_ok r throttle multiple log s log' : resources_ok r ->
  mmrm_init_sw_clk_mgr r throttle multiple log = (0, Some s, log') -> mm_ok (peak_threshold r) s.
Proof.
  intros [Ht Hn]. unfold mmrm_init_sw_clk_mgr. destruct (truthy _); [done|]. destruct (truthy _); [done|].
  intros [= <- <-]. rewrite Forall_forall in Hn.
  assert (Hall : forall P, (forall n, n ∈ clk_src_tbl r -> P (prepare_entry n zero_entry)) -> Forall P (mmrm_sw_prepare_table r)).
  { intros P HP. unfold mmrm_sw_prepare_table. apply Forall_fmap, Forall_forall. exact HP. }
  assert (Hcap : forall f : clk_entry -> Z, (forall n, f (prepare_entry n zero_entry) = 0) -> zsum f (mmrm_sw_prepare_table r) = 0).
  { intros f Hf. unfold mmrm_sw_prepare_table. clear Hn Hall. induction (clk_src_tbl r) as [|n l IH]; [done|].
    cbn [fmap list_fmap zsum foldr]. rewrite Hf. exact IH. }
  split; mm_cbn; [done|split; mm_cbn|done| | |by left]; try done.
  - apply Hall. intros n Hin. split; cbn; try done.
    + split; [done|by apply Hn].
    + intros i j. by rewrite zero_cur.
  - intros level _. unfold capacity. rewrite Hcap; [done|]. intros n. unfold max_cur, vdd_levels.
    cbn [fmap list_fmap foldr]. by rewrite !zero_cur.
  - unfold load. by rewrite Hcap.
  - apply Hall. by intros n _ _.
  - apply Hall. by intros n _.
Qed.


(** Both kinds of request: the effective rate, and the entry with its vote. *)
Lemma effective_votes peak s i e d clk_val : mm_ok peak s -> clk_client_tbl s !! i = Some e ->
  well_formed e d clk_val -> crm_in_range e d ->
  exists rate k e1, effective e d clk_val = Some (rate, k) /\ voted e d clk_val k e1.
Proof.
  intros Hok He (Hv & _ & Hd & Hw & _) Hcr. destruct (is_crm_client (e_crm e)) eqn:Hc.
  - destruct (Forall_lookup_1 _ _ _ _ (mo_crm _ s Hok) He Hc) as [tbl Hvo]. destruct (Hcr Hc) as [Hx Hy].
    destruct (crm_votes e d clk_val tbl) as (rate & k & e1 & ? & ? & _); try done. by exists rate, k, e1.
  - exists clk_val, 0, e. unfold effective, voted. by rewrite Hc.
Qed.

(** C38: a request of a registered client that throttles no client ([quiet]) is
    decided as [setval_spec] says, and returns. For a client of the CRM the rate is
    the largest vote of its table with the new vote. A repeated rate changes at most
    the reservation. A rate whose voltage corner has no level, a wrong number of
    blocks, or a load that is not below the threshold is refused with [- EINVAL]
    and changes nothing. Any other request is stored, with its vote, the account
    becomes the current drawn with it at the [adjusted] level, and the clock is set
    unless the rate is only reserved. Requests of high priority that throttle
    others are excluded, and so are, by [well_formed], rates of more than 32 bits
    and clients of the CRM that ask for more blocks than they have. *)
Theorem setval_refines peak s cl d clk_val e : mm_ok peak s -> 0 <= client_uid cl ->
  clk_client_tbl s !! Z.to_nat (client_uid cl) = Some e -> IS_ERR_OR_NULL (eu_clk (e_user e)) = false ->
  quiet s (client_uid cl) e d clk_val -> well_formed e d clk_val -> crm_in_range e d ->
  exists rate e1, vote_stored e d clk_val rate e1 /\
    mmrm_sw_clk_client_setval (Some cl) (Some d) clk_val s = setval_spec (client_uid cl) e e1 d clk_val rate s.
Proof.
  intros Hok Hi He Hclk Hp Hwf Hcr. pose proof (Forall_lookup_1 _ _ _ _ (mo_crm _ s Hok) He) as Hcrm.
  destruct (effective_votes _ _ _ _ _ _ Hok He Hwf Hcr) as (rate & k & _ & Hef & _).
  pose proof Hwf as (Hv & _ & Hd & Hw & _).
  destruct (vote_stored_code e d clk_val rate k) as (e1 & Hvt & Hst); [done..|].
  exists rate, e1. split; [done|]. apply (setval_eq _ _ _ _ _ _ _ k); try (done || apply Hok).
  by apply quiet_to_code.
Qed.

(** A vote of a client of the CRM is refused without any change, or
    stored at its index of the vote table; then the rate of the client is the
    largest vote of the new table, and [max_rate_idx] the index of a largest
    vote. *)
Theorem crm_rate_is_max peak s cl d clk_val e tbl : mm_ok peak s -> 0 <= client_uid cl ->
  clk_client_tbl s !! Z.to_nat (client_uid cl) = Some e -> IS_ERR_OR_NULL (eu_clk (e_user e)) = false ->
  quiet s (client_uid cl) e d clk_val -> well_formed e d clk_val -> crm_in_range e d ->
  is_crm_client (e_crm e) = true -> crm_client_tbl (e_crm e) = Some tbl ->
  exists r s' e', mmrm_sw_clk_client_setval (Some cl) (Some d) clk_val s = Ret r s' /\
    clk_client_tbl s' !! Z.to_nat (client_uid cl) = Some e' /\
    ((r = - EINVAL /\ s' = s) \/
     (crm_client_tbl (e_crm e') = Some (zupd tbl (crm_vote_idx (e_crm e) d) clk_val) /\
      is_max (zupd tbl (crm_vote_idx (e_crm e) d) clk_val) (max_rate_idx (e_crm e')) (clk_rate (e_vote e')))).
Proof.
  intros Hok Hi He Hclk Hp Hwf Hcr Hc Ht. pose proof Hwf as (Hv & _ & Hd & Hw & _). destruct (Hcr Hc) as [Hx Hy].
  destruct (Forall_lookup_1 _ _ _ _ (mo_crm _ s Hok) He Hc) as [tbl' Hvo].
  assert (tbl' = tbl) as -> by (pose proof (vo_tbl _ _ Hvo); congruence).
  destruct (crm_votes e d clk_val tbl) as (rate & k & e1 & Hef & Hvt & Hvo'); try done.
  rewrite (setval_eq s cl d clk_val e e1 rate k) by (done || apply Hok || (apply quiet_to_code; [by eapply (Forall_lookup_1 _ _ _ _ (mo_crm _ s Hok))|done..])).
  unfold setval_spec, repeats. rewrite Hc, !andb_false_r.
  destruct (admission _ _ _ _ _ _) as [[[lv adj] total]|].
  - specialize (Hvo' lv (reserve_only d) (cd_num_hw_blocks d)). eexists _, _, _. split; [done|].
    split; [by apply (lookup_zupd_eq _ _ _ e)|]. right. split; apply Hvo'.
  - exists (- EINVAL), s, e. split_and!; [done|done|by left].
Qed.

End reachable.

(** ** Witnesses *)

Lemma sized_levels tbl : (forall level, level ∈ vdd_levels -> capacity level tbl < 2 ^ 31) -> sized tbl.
Proof.
  intros H level Hl. apply H. apply is_level_spec in Hl. unfold vdd_levels.
  assert (level = 0 \/ level = 1 \/ level = 2 \/ level = 3 \/ level = 4) as Hc by lia. set_solver.
Qed.

Lemma demo_step hw pwr : (hw = 0 /\ pwr = 0) \/ (hw = 2 /\ pwr = 2) ->
  mmrm_step (E := demo_mmrm_env) demo_mgr (demo_registered hw pwr).
Proof.
  intros H. apply (step_register (demo_desc hw pwr) 2 0 0 (Some demo_client)).
  - destruct H as [[-> ->]|[-> ->]]; vm_compute; reflexivity.
  - destruct H as [[-> ->]|[-> ->]]; vm_compute; discriminate.
  - destruct H as [[-> ->]|[-> ->]]; vm_compute; discriminate.
  - apply sized_levels. unfold vdd_levels. intros level Hl.
    destruct H as [[-> ->]|[-> ->]];
      repeat (apply elem_of_cons in Hl as [->|Hl]; [vm_compute; reflexivity|]); by apply elem_of_nil in Hl.
Qed.

Lemma demo_resources_ok : resources_ok demo_resources.
Proof. split; [vm_compute; split; [discriminate|reflexivity]|repeat constructor; vm_compute; discriminate]. Qed.

Lemma demo_ok hw pwr : (hw = 0 /\ pwr = 0) \/ (hw = 2 /\ pwr = 2) ->
  mm_ok 1000 (demo_registered hw pwr).
Proof.
  intros H. apply (mmrm_step_keeps (E := demo_mmrm_env) 1000 demo_mgr); [by apply demo_step|].
  apply (init_ok (E := demo_mmrm_env) demo_resources 1 0 [] demo_mgr [EvAlloc; EvAlloc] demo_resources_ok). reflexivity.
Qed.

Definition demo_entry (hw pwr : Z) : clk_entry :=
  default zero_entry (clk_client_tbl (demo_registered hw pwr) !! 0%nat).

Lemma demo_well_formed hw pwr : (hw = 0 /\ pwr = 0) \/ (hw = 2 /\ pwr = 2) ->
  well_formed (demo_entry hw pwr) (demo_data 2 0) 102000000 /\
  crm_in_range (demo_entry hw pwr) (demo_data 2 0).
Proof.
  intros H. split.
  - destruct H as [[-> ->]|[-> ->]]; (unfold well_formed; split_and!; try (vm_compute; discriminate);
      vm_compute; reflexivity).
  - destruct H as [[-> ->]|[-> ->]]; [intros Hc; vm_compute in Hc; discriminate|intros _; by vm_compute].
Qed.

Lemma demo_request_ok : exists s', request (E := demo_mmrm_env) (demo_registered 0 0) demo_client (demo_entry 0 0)
  (demo_data 2 0) 102000000 0 s' /\ aggreg_val (peak_cur_data s') = 316.
Proof.
  destruct (demo_well_formed 0 0) as [Hwf _]; [by left|].
  eexists. split; [split; [vm_compute; discriminate|reflexivity|exact Hwf|by apply quiet_plain|vm_compute; reflexivity]|].
  vm_compute. reflexivity.
Qed.


Lemma setval_refines_witness :
  exists rate e1,
    mmrm_sw_clk_client_setval (E := demo_mmrm_env) (Some demo_client) (Some (demo_data 2 0)) 102000000 (demo_registered 0 0) =
    setval_spec (E := demo_mmrm_env) 0 (demo_entry 0 0) e1 (demo_data 2 0) 102000000 rate (demo_registered 0 0) /\
    vote_stored (E := demo_mmrm_env) (demo_entry 0 0) (demo_data 2 0) 102000000 rate e1.
Proof.
  destruct (demo_well_formed 0 0) as [Hwf Hcr]; [by left|].
  destruct (setval_refines (E := demo_mmrm_env) 1000 (demo_registered 0 0) demo_client (demo_data 2 0) 102000000 (demo_entry 0 0))
    as (rate & e1 & Hst & H).
  - apply demo_ok. by left.
  - vm_compute. discriminate.
  - vm_compute. reflexivity.
  - vm_compute. reflexivity.
  - apply quiet_plain. vm_compute. reflexivity.
  - exact Hwf.
  - exact Hcr.
  - exists rate, e1. split; [exact H|exact Hst].
Defined.

Lemma crm_rate_is_max_witness :
  exists r s' e',
    mmrm_sw_clk_client_setval (E := demo_mmrm_env) (Some demo_client) (Some (demo_data 2 0)) 102000000 (demo_registered 2 2) = Ret r s' /\
    clk_client_tbl s' !! 0%nat = Some e' /\
    ((r = - EINVAL /\ s' = demo_registered 2 2) \/
     (crm_client_tbl (e_crm e') = Some [0; 0; 0; 102000000; 0] /\
      is_max [0; 0; 0; 102000000; 0] (max_rate_idx (e_crm e')) (clk_rate (e_vote e')))).
Proof.
  destruct (demo_well_formed 2 2) as [Hwf Hcr]; [by right|].
  apply (crm_rate_is_max (E := demo_mmrm_env) 1000 (demo_registered 2 2) demo_client (demo_data 2 0) 102000000
    (demo_entry 2 2) [0; 0; 0; 0; 0]); [| | | | | | |vm_compute; reflexivity|vm_compute; reflexivity].
  - apply demo_ok. by right.
  - vm_compute. discriminate.
  - vm_compute. reflexivity.
  - vm_compute. reflexivity.
  - apply quiet_plain. vm_compute. reflexivity.
  - exact Hwf.
  - exact Hcr.
Defined.
