(* ===== verification/MmrmFreq.v ===== *)
(** * The multimedia resource manager: the frequency table

    [mmrm_sw_update_freq] steps through the rates of a clock and records, for
    each voltage level, the largest rate that the level supports. Nothing is
    assumed of the rates and corners that the clock framework answers. *)

From S2P Require Import Prelude Outcome MmrmClk MmrmMgr MmrmInit.

Section freq.
Context `{E : MmrmEnv}.
Variable clk : Z.

(** The rate that a probe of the clock gives, the voltage corner of the rate, and
    the probes. *)
Definition rate_of (x : Z) : Z := clk_round_rate clk x.
Definition corner_of (x : Z) : Z := qcom_clk_get_voltage clk (rate_of x).

Definition rate_min : Z := rate_of 1.
Definition rate_max : Z := rate_of (2 ^ 64 - 1).
Definition probe (k : Z) : Z := rate_min + k * 1000000.

(** ** The specification *)

(** The corner is one of the platform's range. *)
Definition valid_corner (c : Z) : Prop := 0 <= c <= RPMH_REGULATOR_LEVEL_TURBO.

(** A level, from LOW_SVS (0) to TURBO (4), supports the rates of a corner. *)
Definition supports (i c : Z) : Prop :=
  (c <= RPMH_REGULATOR_LEVEL_LOW_SVS /\ 0 <= i) \/
  (c = RPMH_REGULATOR_LEVEL_SVS /\ 1 <= i) \/
  (c = RPMH_REGULATOR_LEVEL_SVS_L1 /\ 2 <= i) \/
  (c = RPMH_REGULATOR_LEVEL_NOM /\ 3 <= i) \/
  (c = RPMH_REGULATOR_LEVEL_TURBO /\ 4 <= i).

(** The probe gives a rate above the smallest and above all earlier probes. *)
Definition record (k : Z) : Prop :=
  0 <= k /\ probe k < rate_max /\ rate_min < rate_of (probe k) /\
  forall j, 0 <= j < k -> rate_of (probe j) < rate_of (probe k).

(** Neither the record nor an earlier one has an invalid corner. *)
Definition reached (k : Z) : Prop :=
  record k /\ forall j, record j -> j <= k -> valid_corner (corner_of (probe j)).

(** ** The code meets it *)

Definition level_of (c : Z) : Z := match_vdd_level (Z.max c RPMH_REGULATOR_LEVEL_LOW_SVS).

Lemma level_supports i c : 0 <= i < 5 -> level_of c <= i <-> supports i c.
Proof.
  intros Hi. destruct rpmh_levels_ordered as (H0 & H1 & H2).
  unfold level_of, match_vdd_level, mmrm_sw_vdd_corner, find_index, supports, MMRM_VDD_LEVEL_MAX.
  repeat lazymatch goal with |- context [Z.max ?x ?y =? ?z] => destruct (Z.eqb_spec (Z.max x y) z) end;
    cbn; lia.
Qed.

Lemma level_nonneg c : 0 <= level_of c.
Proof. unfold level_of, match_vdd_level. destruct (find_index _ _); [lia|done]. Qed.

Lemma invalid_corner_spec c : if invalid_corner c then ~ valid_corner c else valid_corner c.
Proof. unfold invalid_corner, valid_corner. destruct (_ || _) eqn:Hc; zbool; lia. Qed.

(** The state of the loop after [n] probes: the largest rate so far, [m], and the
    rates [t] of the table. *)
Record freq_inv (n m : Z) (t : list Z) : Prop := {
  fi_len : length t = 5%nat;
  fi_sorted : forall i j, 0 <= i <= j -> j < 5 -> znth 0 t i <= znth 0 t j;
  fi_below : forall i, 0 <= i < 5 -> znth 0 t i <= m;
  fi_min : rate_min <= m;
  fi_max : forall k, 0 <= k < n -> rate_of (probe k) <= m;
  fi_last : m = rate_min \/ exists k, 0 <= k < n /\ m = rate_of (probe k);
  fi_valid : forall k, record k -> k < n -> valid_corner (corner_of (probe k));
  fi_src : forall i, 0 <= i < 5 -> znth 0 t i = rate_min \/
    exists k, record k /\ k < n /\ supports i (corner_of (probe k)) /\ znth 0 t i = rate_of (probe k);
  fi_done : forall k i, record k -> k < n -> 0 <= i < 5 -> supports i (corner_of (probe k)) ->
    rate_of (probe k) <= znth 0 t i;
}.

Lemma znth_fill i r f j : 0 <= j < zlen f -> znth 0 (fill_freq i r f) j = if i <=? j then r else znth 0 f j.
Proof.
  intros Hj. unfold znth, fill_freq, zlen in *. destruct (Z.ltb_spec j 0); [lia|].
  rewrite list_lookup_imap, Z2Nat.id by lia.
  destruct (f !! Z.to_nat j) as [x|] eqn:Hx; [|apply lookup_ge_None_1 in Hx; lia]. by destruct (i <=? j).
Qed.

(** The table holds the rates as 64-bit numbers. *)
Lemma fill_u64 i r t : fill_freq i (u64 r) (u64 <$> t) = u64 <$> fill_freq i r t.
Proof.
  unfold fill_freq. rewrite imap_fmap, fmap_imap. apply imap_ext. intros j x _. cbn.
  by destruct (i <=? _).
Qed.

(** A probe that is not above the largest rate is no record. *)
Lemma freq_inv_skip n m t : 0 <= n -> freq_inv n m t -> rate_of (probe n) <= m -> freq_inv (n + 1) m t.
Proof.
  intros Hn [Hlen Hs Hb Hm Hx Hl Hv Hsrc Hd] Hle.
  assert (Hno : ~ record n).
  { intros (_ & _ & H1 & H2). destruct Hl as [->|(k & Hk & ->)]; [lia|]. pose proof (H2 k Hk). lia. }
  assert (Hlt : forall k, record k -> k < n + 1 -> k < n).
  { intros k Hk Hk1. destruct (Z.eq_dec k n) as [->|]; [done|lia]. }
  split; try done.
  - intros k Hk. destruct (Z.eq_dec k n) as [->|]; [done|apply Hx; lia].
  - destruct Hl as [|(k & ? & ?)]; [by left|]. right. exists k. split; [lia|done].
  - eauto.
  - intros i Hi. destruct (Hsrc i Hi) as [|(k & Hk & ? & H)]; [by left|]. right. exists k.
    split_and!; [done|lia|apply H..].
  - eauto.
Qed.

(** A probe above the largest rate is a record. *)
Lemma freq_inv_new n m t : 0 <= n -> freq_inv n m t -> m < rate_of (probe n) -> probe n < rate_max -> record n.
Proof.
  intros Hn [? ? ? ? Hx ? ? ? ?] Hlt Hpr. split_and!; [done|done|lia|]. intros j Hj. pose proof (Hx j Hj). lia.
Qed.

Lemma freq_inv_record n m t : 0 <= n -> freq_inv n m t -> m < rate_of (probe n) -> record n ->
  valid_corner (corner_of (probe n)) ->
  freq_inv (n + 1) (rate_of (probe n)) (fill_freq (level_of (corner_of (probe n))) (rate_of (probe n)) t).
Proof.
  intros Hn [Hlen Hs Hb Hm Hx Hl Hv Hsrc Hd] Hlt Hrec Hval. set (l := level_of _) in *.
  assert (Hz : forall j, 0 <= j < 5 -> znth 0 (fill_freq l (rate_of (probe n)) t) j =
    if l <=? j then rate_of (probe n) else znth 0 t j).
  { intros j Hj. apply znth_fill. unfold zlen. lia. }
  split.
  - unfold fill_freq. by rewrite length_imap.
  - intros i j Hij Hj. rewrite !Hz by lia. pose proof (Hs i j Hij Hj). pose proof (Hb i).
    destruct (Z.leb_spec l i), (Z.leb_spec l j); lia.
  - intros i Hi. rewrite Hz by lia. pose proof (Hb i Hi). destruct (_ <=? i); lia.
  - lia.
  - intros k Hk. destruct (Z.eq_dec k n) as [->|]; [done|]. pose proof (Hx k). lia.
  - right. exists n. split; [lia|done].
  - intros k Hk Hkn. destruct (Z.eq_dec k n) as [->|]; [done|]. apply Hv; [done|lia].
  - intros i Hi. rewrite Hz by lia. destruct (Z.leb_spec l i) as [Hli|].
    + right. exists n. split_and!; [done|lia|by apply level_supports|done].
    + destruct (Hsrc i Hi) as [|(k & Hk & ? & H')]; [by left|]. right. exists k.
      split_and!; [done|lia|apply H'..].
  - intros k i Hk Hkn Hi Hsup. rewrite Hz by lia. destruct (Z.eq_dec k n) as [->|].
    + apply level_supports in Hsup; [|done]. fold l in Hsup. destruct (Z.leb_spec l i); lia.
    + assert (rate_of (probe k) <= znth 0 t i) by (apply Hd; [done|lia|done|done]).
      pose proof (Hb i Hi). destruct (l <=? i); lia.
Qed.

Lemma freq_inv_init : freq_inv 0 rate_min (replicate 5 rate_min).
Proof.
  assert (Hz : forall i, 0 <= i < 5 -> znth 0 (replicate 5 rate_min) i = rate_min).
  { intros i Hi. by rewrite znth_replicate by lia. }
  split; try done.
  - intros i j Hij Hj. rewrite !Hz by lia. lia.
  - intros i Hi. rewrite Hz by lia. lia.
  - lia.
  - by left.
  - intros k (Hk & _) Hk0. lia.
  - intros i Hi. left. by apply Hz.
  - intros k i (Hk & _) Hk0. lia.
Qed.

(** What the loop returns: the table after some number of probes, which are all of
    them unless a record has an invalid corner. *)
Lemma freq_steps_spec fuel n m t : 0 <= n -> freq_inv n m t ->
  rate_max - probe n <= Z.of_nat fuel * CLK_RATE_STEP ->
  exists t' n' m', freq_steps fuel clk (probe n) m rate_max (u64 <$> t) = Some (u64 <$> t') /\
    freq_inv n' m' t' /\
    (rate_max <= probe n' \/ (record n' /\ ~ valid_corner (corner_of (probe n')))).
Proof.
  revert n m t. induction fuel as [|fuel IH]; intros n m t Hn Hinv Hf; cbn [freq_steps].
  - destruct (Z.ltb_spec (probe n) rate_max); [unfold CLK_RATE_STEP in *; lia|]. exists t, n, m. by eauto 10.
  - destruct (Z.ltb_spec (probe n) rate_max) as [Hlt|]; [|exists t, n, m; by eauto 10].
    change (clk_round_rate clk (probe n)) with (rate_of (probe n)).
    assert (Hnext : probe n + CLK_RATE_STEP = probe (n + 1)) by (unfold probe, CLK_RATE_STEP; lia). rewrite Hnext.
    destruct (rate_of (probe n) >? m) eqn:Hg; zbool.
    + pose proof (freq_inv_new n m t Hn Hinv ltac:(lia) Hlt) as Hrec.
      change (qcom_clk_get_voltage clk (rate_of (probe n))) with (corner_of (probe n)).
      pose proof (invalid_corner_spec (corner_of (probe n))) as Hc.
      destruct (invalid_corner (corner_of (probe n))); [exists t, n, m; by eauto 10|].
      assert (Hmax : (if corner_of (probe n) <? RPMH_REGULATOR_LEVEL_LOW_SVS then RPMH_REGULATOR_LEVEL_LOW_SVS else corner_of (probe n)) = Z.max (corner_of (probe n)) RPMH_REGULATOR_LEVEL_LOW_SVS)
        by (destruct (Z.ltb_spec (corner_of (probe n)) RPMH_REGULATOR_LEVEL_LOW_SVS); lia).
      rewrite Hmax, fill_u64. apply IH; [lia|by apply (freq_inv_record n m t); [|done|lia|..]|lia].
    + apply IH; [lia|by apply freq_inv_skip|lia].
Qed.


End freq.

