(* ===== verification/MmrmApi.v ===== *)
(** * The multimedia resource manager: the driver and its interface

    [msm_mmrm.c] and [mmrm_clk_rsrc_mgr.c]: probing and removing the device,
    and the functions that clients call, which reach the clock manager when the
    driver is probed and manages clocks. *)

From S2P Require Import Prelude Outcome MmrmClk MmrmMgr MmrmInit MmrmAdmit MmrmSetval MmrmRuns.

(** [struct mmrm_driver_data]: the part that the calls use. *)
Record mmrm_drv := mkDrv { is_clk_scaling_supported : bool; clk_mgr : option mmrm }.

(** The global pointer [drv_data]: [-EPROBE_DEFER], [NULL], or the driver. *)
Inductive drv_ptr := ProbeDefer | DrvNull | Drv (d : mmrm_drv).

(** The driver, the data pointer of its device, and the global switches. *)
Record api := mkApi {
  drv_data : drv_ptr; dev_drvdata : bool;
  api_throttle : Z; api_multiple : Z; api_log : list mmrm_event;
}.

(** [struct mmrm_client_desc] *)
Record client_desc := mkClientDesc {
  cld_type : Z; cld_desc : clk_desc; cld_priority : Z; cld_pvt_data : Z; cld_notifier : Z;
}.

Definition set_drv (d : drv_ptr) (a : api) : api :=
  mkApi d (dev_drvdata a) (api_throttle a) (api_multiple a) (api_log a).

(** The clock manager sees the global switches and calls. *)
Definition mgr_of (a : api) (s : mmrm) : mmrm :=
  mkMmrm (mm_lock s) (clk_client_tbl s) (enabled_clk_clients s) (throttle_clients_info s)
    (throttle_clients_data_length s) (peak_cur_data s) (throttled_clients s) (mm_res s)
    (api_throttle a) (api_multiple a) (api_log a).

Section api.
Context `{E : MmrmEnv}.

(** A call of the clock manager ([mmrm_clk_client_register] and the like),
    with what it returns without one. *)
Definition on_mgr {A} (none : A) (d : mmrm_drv) (m : run mmrm A) : run api A := fun a =>
  match clk_mgr d with
  | None => Ret none a
  | Some s =>
      match m (mgr_of a s) with
      | Ret r s' => Ret r (mkApi (Drv (mkDrv (is_clk_scaling_supported d) (Some s'))) (dev_drvdata a)
                            (api_throttle a) (api_multiple a) (mm_log s'))
      | Block => Block
      | Fault => Fault
      end
  end.

(** The common shape of the functions: [early] before the probe, [skip] when
    no clock is managed, [other] for clients that are not of clocks. *)
Definition dispatch {A} (early skip other : A) (type : Z) (m : mmrm_drv -> run api A) : run api A :=
  a ← get;
  match drv_data a with
  | ProbeDefer => mret early
  | DrvNull => if type =? MMRM_CLIENT_CLOCK then fault else mret other
  | Drv d =>
      if type =? MMRM_CLIENT_CLOCK
      then if is_clk_scaling_supported d then m d else mret skip
      else mret other
  end.

Definition mmrm_client_check_scaling_supported (type : Z) : run api bool :=
  a ← get;
  match drv_data a with
  | ProbeDefer => mret false
  | DrvNull => if type =? MMRM_CLIENT_CLOCK then fault else mret true
  | Drv d => mret (if type =? MMRM_CLIENT_CLOCK then is_clk_scaling_supported d else true)
  end.

Definition mmrm_client_register (desc : option client_desc) : run api (option mmrm_client) :=
  match desc with
  | None => mret None
  | Some c =>
      dispatch None None None (cld_type c) (fun d =>
        on_mgr None d (mmrm_sw_clk_client_register (cld_desc c) (cld_priority c) (cld_pvt_data c) (cld_notifier c)))
  end.

Definition mmrm_client_deregister (client : option mmrm_client) : run api Z :=
  match client with
  | None => mret (- EINVAL)
  | Some cl => dispatch 0 0 0 (client_type cl) (fun d =>
      on_mgr (- EINVAL) d (mmrm_sw_clk_client_deregister client))
  end.

Definition mmrm_client_set_value (client : option mmrm_client) (data : option client_data) (val : Z) : run api Z :=
  match client, data with
  | Some cl, Some _ => dispatch 0 0 0 (client_type cl) (fun d =>
      on_mgr (- EINVAL) d (mmrm_sw_clk_client_setval client data val))
  | _, _ => mret (- EINVAL)
  end.

(** [mmrm_sw_clk_client_setval_inrange] takes [val->cur]; [val] is the minimum,
    the current value and the maximum. *)
Definition mmrm_client_set_value_in_range (client : option mmrm_client) (data : option client_data)
    (val : option (Z * Z * Z)) : run api Z :=
  match client, data, val with
  | Some cl, Some _, Some (_, cur, _) => dispatch 0 0 0 (client_type cl) (fun d =>
      on_mgr (- EINVAL) d (mmrm_sw_clk_client_setval client data cur))
  | _, _, _ => mret (- EINVAL)
  end.

(** The values read, when [val] is written. *)
Definition mmrm_client_get_value (client : option mmrm_client) (val_ok : bool) : run api (Z * option (Z * Z * Z)) :=
  match client with
  | Some cl =>
      if val_ok then
        dispatch (0, None) (0, None) (0, None) (client_type cl) (fun d =>
          on_mgr (- EINVAL, None) d
            (r ← mmrm_sw_clk_client_getval client;
             mret (match r with inl rc => (rc, None) | inr v => (0, Some v) end)))
      else mret (- EINVAL, None)
  | None => mret (- EINVAL, None)
  end.

(** [&drv_data->clk_mgr->data.sw_info] without a check of [clk_mgr]. *)
Definition mmrm_client_get_clk_count : run api Z :=
  a ← get;
  match drv_data a with
  | ProbeDefer => mret 0
  | DrvNull => fault
  | Drv d => s ← deref (clk_mgr d); mret (tot_clk_clients s)
  end.

(** [mmrm_sysfs_enable_throttle_set], [mmrm_sysfs_allow_multiple_set], with the
    number that [kstrtou32] parses. *)
Definition mmrm_sysfs_enable_throttle_set (param : option Z) : run api unit :=
  match param with
  | Some v => modify (fun a => mkApi (drv_data a) (dev_drvdata a) (u8 v) (api_multiple a) (api_log a))
  | None => mret tt
  end.
Definition mmrm_sysfs_allow_multiple_set (param : option Z) : run api unit :=
  match param with
  | Some v => modify (fun a => mkApi (drv_data a) (dev_drvdata a) (api_throttle a) (u8 v) (api_log a))
  | None => mret tt
  end.

(** ** Probing *)

Definition api_alloc : run api bool := fun a =>
  let log := api_log a ++ [EvAlloc] in
  Ret (ext_rc log =? 0) (mkApi (drv_data a) (dev_drvdata a) (api_throttle a) (api_multiple a) log).

(** [mmrm_get_clk_mgr_ops]: the error, and whether the operations are set. *)
Definition mmrm_get_clk_mgr_ops (scheme : Z) : Z * bool :=
  if scheme =? CLK_MGR_SCHEME_SW then (0, true)
  else if scheme =? CLK_MGR_SCHEME_CXIPEAK then (- EINVAL, false)
  else (0, false).

(** [mmrm_init] on [drv_data->clk_res]: the operations are called without a
    check that they are set. *)
Definition mmrm_init (r : clk_resources) : run api (Z * option mmrm) := fun a =>
  let '(rc, ops) := mmrm_get_clk_mgr_ops (res_scheme r) in
  if truthy rc then Ret (rc, None) a
  else if negb ops then Fault
  else let '(rc, s, log) := mmrm_init_sw_clk_mgr r (api_throttle a) (api_multiple a) (api_log a) in
       Ret (rc, s) (mkApi (drv_data a) (dev_drvdata a) (api_throttle a) (api_multiple a) log).

(** [mmrm_count_clk_clients_frm_dt] *)
Definition mmrm_count_clk_clients_frm_dt (dt : dt_node) : Z := dt_client_size dt / SIZEOF_NOM_CLK_SRC_INFO.

(** [mmrm_read_platform_resources] with its two allocations. *)
Definition read_resources (p : platform_data) (dt : dt_node) : run api (Z * clk_resources) :=
  a1 ← (if dt_corners dt <=? 0 then mret true else api_alloc);
  a2 ← (if a1 && (mmrm_find_key_value p =? CLK_MGR_SCHEME_SW) && bool_decide (is_Some (dt_threshold dt))
          && negb ((dt_client_size dt <? SIZEOF_NOM_CLK_SRC_INFO)
                   || truthy (dt_client_size dt mod SIZEOF_NOM_CLK_SRC_INFO))
        then api_alloc else mret true);
  deref (mmrm_read_platform_resources a1 a2 p dt).

Definition reset_drv_data (rc : Z) : run api Z := modify (set_drv ProbeDefer);; mret rc.

Definition msm_mmrm_probe_init (pdata : option platform_data) (dt : dt_node) : run api Z :=
  ok ← api_alloc;
  if negb ok then modify (set_drv DrvNull);; mret (- ENOMEM) else
  if mmrm_count_clk_clients_frm_dt dt =? 0 then modify (set_drv (Drv (mkDrv false None)));; mret 0 else
  modify (set_drv (Drv (mkDrv true None)));;
  match pdata with
  | None => reset_drv_data (- EINVAL)
  | Some p =>
      modify (fun a => mkApi (drv_data a) true (api_throttle a) (api_multiple a) (api_log a));;
      '(rc, r) ← read_resources p dt;
      if truthy rc then reset_drv_data rc else
      '(rc, s) ← mmrm_init r;
      if truthy rc then reset_drv_data rc
      else modify (set_drv (Drv (mkDrv true s)));; mret 0
  end.

(** [msm_mmrm_remove], with [mmrm_deinit] and [mmrm_destroy_sw_clk_mgr], which
    free the clock manager; without device data the global pointer is left
    [NULL]. *)
Definition msm_mmrm_remove : run api Z :=
  a ← get;
  if negb (dev_drvdata a) then put (set_drv DrvNull a);; mret (- EINVAL)
  else put (mkApi ProbeDefer false (api_throttle a) (api_multiple a) (api_log a));; mret 0.

(** ** The interface reaches the clock manager *)

Lemma set_value_reaches a s cl data d v : drv_data a = Drv (mkDrv true (Some s)) -> client_type cl = MMRM_CLIENT_CLOCK ->
  data = Some d ->
  mmrm_client_set_value (Some cl) data v a =
  match mmrm_sw_clk_client_setval (Some cl) (Some d) v (mgr_of a s) with
  | Ret r s' => Ret r (mkApi (Drv (mkDrv true (Some s'))) (dev_drvdata a) (api_throttle a) (api_multiple a) (mm_log s'))
  | Block => Block
  | Fault => Fault
  end.
Proof.
  intros Ha Ht ->. unfold mmrm_client_set_value, dispatch. rewrite bind_get, Ha, Ht, Z.eqb_refl. done.
Qed.

(** Before the probe and without managed clocks, a rate is accepted and nothing
    happens. *)
Lemma set_value_unmanaged a cl d v : drv_data a = ProbeDefer \/ drv_data a = Drv (mkDrv false None) ->
  mmrm_client_set_value (Some cl) (Some d) v a = Ret 0 a.
Proof.
  intros [Ha|Ha]; unfold mmrm_client_set_value, dispatch; rewrite bind_get, Ha; [done|]. by destruct (_ =? _).
Qed.

(** The clock count of a driver that manages no clocks dereferences [NULL]. *)
Lemma clk_count_unmanaged a : drv_data a = Drv (mkDrv false None) -> mmrm_client_get_clk_count a = Fault.
Proof. intros Ha. unfold mmrm_client_get_clk_count. by rewrite bind_get, Ha. Qed.

Lemma init_made r throttle multiple log o log' :
  mmrm_init_sw_clk_mgr r throttle multiple log = (0, o, log') -> exists s, o = Some s /\ mm_res s = r.
Proof.
  unfold mmrm_init_sw_clk_mgr. do 2 (destruct (truthy _); [by intros [=]|]). intros [= <- _]. by eexists.
Qed.

(** A probe that returns 0 on a node with clocks leaves the clock manager of a
    state that satisfies the invariant. *)
Lemma probe_ready p dt a a' : mmrm_count_clk_clients_frm_dt dt <> 0 ->
  (forall a1 a2 rc r, mmrm_read_platform_resources a1 a2 p dt = Some (rc, r) -> resources_ok r) ->
  msm_mmrm_probe_init (Some p) dt a = Ret 0 a' ->
  exists s, drv_data a' = Drv (mkDrv true (Some s)) /\ mm_ok (peak_threshold (mm_res s)) s.
Proof.
  intros Hc Hr. unfold msm_mmrm_probe_init. intros (ok & s1 & _ & H)%bind_inv.
  destruct ok; cbn [negb] in H; [|by injection H].
  apply Z.eqb_neq in Hc. rewrite Hc in H.
  apply bind_inv in H as ([] & s2 & _ & H). apply bind_inv in H as ([] & s3 & _ & H).
  apply bind_inv in H as ([rc r] & s4 & Hread & H). cbn beta iota in H.
  destruct (truthy rc) eqn:Hrc; [injection H as -> _; by vm_compute in Hrc|].
  apply bind_inv in H as ([rc' so] & s5 & Hinit & H). cbn beta iota in H.
  destruct (truthy rc') eqn:Hrc'; [injection H as -> _; by vm_compute in Hrc'|]. injection H as <-.
  unfold read_resources in Hread. apply bind_inv in Hread as (a1 & s6 & _ & Hread).
  apply bind_inv in Hread as (a2 & s7 & _ & Hread). unfold deref in Hread.
  destruct (mmrm_read_platform_resources a1 a2 p dt) as [[? ?]|] eqn:Hres; [|done]. injection Hread as -> -> ->.
  unfold mmrm_init in Hinit. destruct (mmrm_get_clk_mgr_ops _) as [rc0 ops].
  destruct (truthy rc0) eqn:Hrc0; [injection Hinit as <- _ _; congruence|]. destruct (negb ops); [done|].
  destruct (mmrm_init_sw_clk_mgr _ _ _ _) as [[rc1 s'] log] eqn:Hi. injection Hinit as -> -> _.
  assert (rc' = 0) as -> by (unfold truthy in Hrc'; by apply negb_false_iff, Z.eqb_eq in Hrc').
  destruct (init_made _ _ _ _ _ _ Hi) as (s' & -> & Hmr). exists s'. split; [done|]. rewrite Hmr.
  exact (init_ok _ _ _ _ _ _ (Hr _ _ _ _ Hres) Hi).
Qed.

End api.
