(* ===== verification/SynxDev.v ===== *)
(** * The synx client framework: its state ([synx_private.h])

    Sessions, handles and fence objects of the kernel that runs the framework,
    on top of the global table of [SynxGlobal]. A pointer is an address, each
    struct of the driver lives in the map of its type until it is freed, and
    its use after that is [Fault]. Addresses are given out in order and are not
    used again. Fences belong to the kernel: they are the class [DmaFence]. *)

From stdpp Require Export gmap.
From S2P Require Import Prelude Outcome SynxGlobal.
From S2P Require Export Outcome.

Open Scope Z_scope.

(** ** Constants *)

(** [synx_api.h] *)
Definition SYNX_NO_TIMEOUT : Z := 2 ^ 64 - 1.
Definition SYNX_STATE_INVALID : Z := 0.
Definition SYNX_STATE_SIGNALED_ERROR : Z := 3.
Definition SYNX_STATE_SIGNALED_CANCEL : Z := 4.
Definition SYNX_STATE_SIGNALED_EXTERNAL : Z := 5.
Definition SYNX_STATE_TIMEOUT : Z := 7.
Definition SYNX_CALLBACK_RESULT_CANCELED : Z := 4.

(** [enum synx_create_flags], [enum synx_import_flags], [enum synx_merge_flags] *)
Definition SYNX_CREATE_LOCAL_FENCE : Z := 1.
Definition SYNX_CREATE_GLOBAL_FENCE : Z := 2.
Definition SYNX_CREATE_DMA_FENCE : Z := 4.
Definition SYNX_CREATE_CSL_FENCE : Z := 8.
Definition SYNX_CREATE_MAX_FLAGS : Z := 16.
Definition SYNX_CREATE_MERGED_FENCE : Z := Z.shiftl SYNX_CREATE_MAX_FLAGS 1.
Definition SYNX_IMPORT_LOCAL_FENCE : Z := 1.
Definition SYNX_IMPORT_GLOBAL_FENCE : Z := 2.
Definition SYNX_IMPORT_SYNX_FENCE : Z := 4.
Definition SYNX_IMPORT_DMA_FENCE : Z := 8.
Definition SYNX_MERGE_GLOBAL_FENCE : Z := 2.

(** [enum synx_bind_client_type] *)
Definition SYNX_TYPE_CSL : Z := 0.
Definition SYNX_MAX_BIND_TYPES : Z := 1.

(** [synx_err.h], [synx_global.h], [synx_private.h] *)
Definition SYNX_NOSUPPORT : Z := 95.
Definition SYNX_DMA_FENCE_STATE_MAX : Z := 4096.
Definition SYNX_MAX_OBJS : Z := SYNX_GLOBAL_MAX_OBJS.
Definition SYNX_MAX_NUM_BINDINGS : Z := 8.
Definition SYNX_HANDLE_INDEX_BITS : Z := 16.
Definition SYNX_HANDLE_CORE_BITS : Z := 4.
Definition SYNX_OBJ_HANDLE_MASK : Z := Z.ones 16.
Definition SYNX_OBJ_CORE_ID_MASK : Z := Z.shiftl (Z.ones 4) 16.
Definition SYNX_OBJ_GLOBAL_FLAG_MASK : Z := Z.shiftl (Z.ones 1) 20.

(** [enum synx_signal_handler] *)
Definition SYNX_SIGNAL_FROM_CLIENT : Z := 1.
Definition SYNX_SIGNAL_FROM_FENCE : Z := 2.
Definition SYNX_SIGNAL_FROM_IPC : Z := 4.
Definition SYNX_SIGNAL_FROM_CALLBACK : Z := 8.

Definition ETIMEDOUT : Z := 110.
Definition EFAULT : Z := 14.

(** ** Data *)

(** A callback pointer of a client: the one for user space, or one of a kernel
    client. *)
Inductive user_callback :=
| synx_util_default_user_callback_ptr
| kernel_callback (f : Z).

#[global] Instance user_callback_eq_dec : EqDecision user_callback.
Proof. solve_decision. Defined.

(** [struct synx_bind_desc] *)
Record bind_desc := mk_bind {
  b_id : Z;    (* external_desc.id, u64 *)
  b_type : Z;  (* external_desc.type, u32 *)
  b_data : Z   (* external_data, a synx_signal_cb or NULL *)
}.

(** [struct synx_coredata]; the lock [obj_lock] is in [d_held] *)
Record synx_coredata := mk_obj {
  o_fence : Z;               (* struct dma_fence * *)
  o_refcount : Z;            (* kref *)
  o_type : Z;                (* u32 *)
  o_status : Z;              (* u32 *)
  o_num_bound : Z;           (* u32 num_bound_synxs *)
  o_bound : list bind_desc;  (* bound_synxs[SYNX_MAX_NUM_BINDINGS] *)
  o_reg_cbs : list Z;        (* reg_cbs_list *)
  o_global_idx : Z;          (* u32 *)
  o_map_count : Z;           (* u32 *)
  o_signal_cb : option Z     (* struct synx_signal_cb * *)
}.

Definition set_o_fence (v : Z) (o : synx_coredata) : synx_coredata :=
    mk_obj v (o_refcount o) (o_type o) (o_status o) (o_num_bound o) (o_bound o) (o_reg_cbs o)
    (o_global_idx o) (o_map_count o) (o_signal_cb o).
Definition set_o_refcount (v : Z) (o : synx_coredata) : synx_coredata :=
    mk_obj (o_fence o) v (o_type o) (o_status o) (o_num_bound o) (o_bound o) (o_reg_cbs o)
    (o_global_idx o) (o_map_count o) (o_signal_cb o).
Definition set_o_type (v : Z) (o : synx_coredata) : synx_coredata :=
    mk_obj (o_fence o) (o_refcount o) v (o_status o) (o_num_bound o) (o_bound o) (o_reg_cbs o)
    (o_global_idx o) (o_map_count o) (o_signal_cb o).
Definition set_o_status (v : Z) (o : synx_coredata) : synx_coredata :=
    mk_obj (o_fence o) (o_refcount o) (o_type o) v (o_num_bound o) (o_bound o) (o_reg_cbs o)
    (o_global_idx o) (o_map_count o) (o_signal_cb o).
Definition set_o_num_bound (v : Z) (o : synx_coredata) : synx_coredata :=
    mk_obj (o_fence o) (o_refcount o) (o_type o) (o_status o) v (o_bound o) (o_reg_cbs o)
    (o_global_idx o) (o_map_count o) (o_signal_cb o).
Definition set_o_bound (v : list bind_desc) (o : synx_coredata) : synx_coredata :=
    mk_obj (o_fence o) (o_refcount o) (o_type o) (o_status o) (o_num_bound o) v (o_reg_cbs o)
    (o_global_idx o) (o_map_count o) (o_signal_cb o).
Definition set_o_reg_cbs (v : list Z) (o : synx_coredata) : synx_coredata :=
    mk_obj (o_fence o) (o_refcount o) (o_type o) (o_status o) (o_num_bound o) (o_bound o) v
    (o_global_idx o) (o_map_count o) (o_signal_cb o).
Definition set_o_global_idx (v : Z) (o : synx_coredata) : synx_coredata :=
    mk_obj (o_fence o) (o_refcount o) (o_type o) (o_status o) (o_num_bound o) (o_bound o)
    (o_reg_cbs o) v (o_map_count o) (o_signal_cb o).
Definition set_o_map_count (v : Z) (o : synx_coredata) : synx_coredata :=
    mk_obj (o_fence o) (o_refcount o) (o_type o) (o_status o) (o_num_bound o) (o_bound o)
    (o_reg_cbs o) (o_global_idx o) v (o_signal_cb o).
Definition set_o_signal_cb (v : option Z) (o : synx_coredata) : synx_coredata :=
    mk_obj (o_fence o) (o_refcount o) (o_type o) (o_status o) (o_num_bound o) (o_bound o)
    (o_reg_cbs o) (o_global_idx o) (o_map_count o) v.

(** [struct synx_map_entry] *)
Record synx_map_entry := mk_ent {
  m_obj : Z;       (* synx_obj *)
  m_refcount : Z;  (* kref *)
  m_flags : Z;     (* u32 *)
  m_key : Z        (* u32 *)
}.

Definition set_m_refcount (v : Z) (e : synx_map_entry) : synx_map_entry :=
    mk_ent (m_obj e) v (m_flags e) (m_key e).

(** [struct synx_handle_coredata] *)
Record synx_handle_coredata := mk_hdl {
  h_client : Z;
  h_obj : Z;        (* synx_obj *)
  h_ent : Z;        (* map_entry *)
  h_refcount : Z;   (* kref *)
  h_key : Z;        (* u32 *)
  h_rel_count : Z   (* u32 *)
}.

Definition set_h_refcount (v : Z) (h : synx_handle_coredata) : synx_handle_coredata :=
    mk_hdl (h_client h) (h_obj h) (h_ent h) v (h_key h) (h_rel_count h).
Definition set_h_rel_count (v : Z) (h : synx_handle_coredata) : synx_handle_coredata :=
    mk_hdl (h_client h) (h_obj h) (h_ent h) (h_refcount h) (h_key h) v.

(** [struct synx_client_cb] with its [struct synx_kernel_payload]; the member
    [cancel_cb_func] of a stored payload is never read *)
Record synx_client_cb := mk_kcb {
  k_valid : bool;                 (* is_valid *)
  k_idx : Z;                      (* u32 *)
  k_client : option Z;
  k_h_synx : Z;                   (* kernel_cb.h_synx *)
  k_status : Z;                   (* kernel_cb.status *)
  k_data : Z;                     (* kernel_cb.data *)
  k_func : option user_callback   (* kernel_cb.cb_func *)
}.

Definition set_k_status (v : Z) (k : synx_client_cb) : synx_client_cb :=
    mk_kcb (k_valid k) (k_idx k) (k_client k) (k_h_synx k) v (k_data k) (k_func k).
Definition set_k_func (v : option user_callback) (k : synx_client_cb) : synx_client_cb :=
    mk_kcb (k_valid k) (k_idx k) (k_client k) (k_h_synx k) (k_status k) (k_data k) v.

(** [struct synx_client] *)
Record synx_client := mk_cli {
  cl_active : bool;
  cl_id : Z;                          (* u64 *)
  cl_refcount : Z;                    (* kref *)
  cl_event_q : list Z;                (* indexes in cb_table *)
  cl_cb_bitmap : gset Z;              (* bits set *)
  cl_cb_table : list synx_client_cb;  (* cb_table[SYNX_MAX_OBJS] *)
  cl_handle_map : list Z              (* handle_map, newest first *)
}.

Definition set_cl_active (v : bool) (c : synx_client) : synx_client :=
    mk_cli v (cl_id c) (cl_refcount c) (cl_event_q c) (cl_cb_bitmap c) (cl_cb_table c)
    (cl_handle_map c).
Definition set_cl_refcount (v : Z) (c : synx_client) : synx_client :=
    mk_cli (cl_active c) (cl_id c) v (cl_event_q c) (cl_cb_bitmap c) (cl_cb_table c)
    (cl_handle_map c).
Definition set_cl_event_q (v : list Z) (c : synx_client) : synx_client :=
    mk_cli (cl_active c) (cl_id c) (cl_refcount c) v (cl_cb_bitmap c) (cl_cb_table c)
    (cl_handle_map c).
Definition set_cl_cb_bitmap (v : gset Z) (c : synx_client) : synx_client :=
    mk_cli (cl_active c) (cl_id c) (cl_refcount c) (cl_event_q c) v (cl_cb_table c)
    (cl_handle_map c).
Definition set_cl_cb_table (v : list synx_client_cb) (c : synx_client) : synx_client :=
    mk_cli (cl_active c) (cl_id c) (cl_refcount c) (cl_event_q c) (cl_cb_bitmap c) v
    (cl_handle_map c).
Definition set_cl_handle_map (v : list Z) (c : synx_client) : synx_client :=
    mk_cli (cl_active c) (cl_id c) (cl_refcount c) (cl_event_q c) (cl_cb_bitmap c) (cl_cb_table
    c) v.

(** [struct synx_cb_data] *)
Record synx_cb_data := mk_cb {
  c_session : Z;
  c_idx : Z;       (* u32 *)
  c_h_synx : Z;    (* u32 *)
  c_status : Z;    (* u32 *)
  c_timer : bool;  (* synx_timer is pending *)
  c_timeout : Z    (* u64 *)
}.

Definition set_c_status (v : Z) (c : synx_cb_data) : synx_cb_data :=
    mk_cb (c_session c) (c_idx c) (c_h_synx c) v (c_timer c) (c_timeout c).
Definition set_c_timer (v : bool) (c : synx_cb_data) : synx_cb_data :=
    mk_cb (c_session c) (c_idx c) (c_h_synx c) (c_status c) v (c_timeout c).
Definition set_c_timeout (v : Z) (c : synx_cb_data) : synx_cb_data :=
    mk_cb (c_session c) (c_idx c) (c_h_synx c) (c_status c) (c_timer c) v.

(** [struct synx_signal_cb] *)
Record synx_signal_cb := mk_sig {
  s_handle : Z;       (* u32 *)
  s_status : Z;       (* u32 *)
  s_ext_sync_id : Z;  (* u64 *)
  s_obj : option Z;   (* synx_obj *)
  s_flag : Z          (* enum synx_signal_handler *)
}.

Definition set_s_handle (v : Z) (s : synx_signal_cb) : synx_signal_cb :=
    mk_sig v (s_status s) (s_ext_sync_id s) (s_obj s) (s_flag s).
Definition set_s_status (v : Z) (s : synx_signal_cb) : synx_signal_cb :=
    mk_sig (s_handle s) v (s_ext_sync_id s) (s_obj s) (s_flag s).
Definition set_s_ext_sync_id (v : Z) (s : synx_signal_cb) : synx_signal_cb :=
    mk_sig (s_handle s) (s_status s) v (s_obj s) (s_flag s).
Definition set_s_obj (v : option Z) (s : synx_signal_cb) : synx_signal_cb :=
    mk_sig (s_handle s) (s_status s) (s_ext_sync_id s) v (s_flag s).
Definition set_s_flag (v : Z) (s : synx_signal_cb) : synx_signal_cb :=
    mk_sig (s_handle s) (s_status s) (s_ext_sync_id s) (s_obj s) v.

(** [struct synx_fence_entry] *)
Record synx_fence_entry := mk_fent {
  f_g_handle : Z;  (* u32 *)
  f_l_handle : Z;  (* u32 *)
  f_key : Z        (* u64, the fence *)
}.

(** [struct synx_entry_64] *)
Record synx_entry_64 := mk_e64 {
  x_key : Z;       (* u64 *)
  x_data : Z;      (* data[0] *)
  x_refcount : Z   (* kref *)
}.

(** The work items: [cb_dispatch] of a [synx_signal_cb] with one of its two
    handlers, [cb_dispatch] of a [synx_cb_data]; and [dispatch] of a map entry,
    a handle and a client. *)
Inductive cb_work :=
| WSignal (s : Z)     (* synx_signal_handler *)
| WIpc (s : Z)        (* synx_ipc_handler *)
| WCb (c : Z).        (* synx_util_cb_dispatch *)

Inductive cleanup_work :=
| WEnt (e : Z)        (* synx_util_destroy_map_entry_worker *)
| WHdl (h : Z)        (* synx_util_destroy_handle_worker *)
| WCli (c : Z).       (* synx_client_cleanup *)

(** The mutexes and spinlocks of the framework, and the lock of a fence. *)
Inductive synx_lock :=
| obj_lock (p : Z)
| handle_map_lock (c : Z)
| event_q_lock (c : Z)
| fence_lock (f : Z)
| metadata_map_lock
| fence_map_lock
| global_map_lock
| local_map_lock
| csl_map_lock
| vtbl_lock.

#[global] Instance synx_lock_eq_dec : EqDecision synx_lock.
Proof. solve_decision. Defined.

(** What leaves the framework: the calls of kernel clients' callbacks, each
    with the [synx_cb_data] it belongs to, and of the operations of a bound
    external fence. *)
Inductive client_event :=
| UserCallback (c : Z) (f : Z) (h_synx status data : Z)
| ExtRegister (id data : Z)
| ExtDeregister (id data : Z)
| ExtEnable (id : Z)
| ExtSignal (id status : Z).

(** ** The fences of the kernel ([linux/dma-fence.h], [linux/dma-fence-array.h]) *)

(** An entry of the callback list of a fence. *)
Inductive fence_cb :=
| ArrayCb (array : Z)     (* of a fence array it belongs to *)
| SynxCb (s : Z)          (* fence_cb of a synx_signal_cb *)
| OtherCb.                (* of another driver *)

(** The functions of the kernel that the framework calls, on the state of all
    fences. [dma_fence_signal] and the last [dma_fence_put] run callbacks: they
    return the calls of [synx_fence_callback], with the fence of each. *)
Class DmaFence := {
  fences : Type;
  dma_fence_init : Z -> fences -> fences;
  dma_fence_get : Z -> fences -> fences;
  dma_fence_put : Z -> fences -> list (Z * Z) * fences;
  dma_fence_get_status : fences -> Z -> Z;
  dma_fence_set_error : Z -> Z -> fences -> fences;
  dma_fence_signal : Z -> fences -> Z * list (Z * Z) * fences;
  dma_fence_add_callback : Z -> Z -> fences -> Z * fences;
  dma_fence_remove_callback : Z -> Z -> fences -> bool * fences;
  dma_fence_enable_sw_signaling : Z -> fences -> fences;
  dma_fence_array_create : Z -> list Z -> fences -> fences;
  to_dma_fence_array : fences -> Z -> option (list Z);
  dma_fence_kref_read : fences -> Z -> Z;
  dma_fence_cb_list : fences -> Z -> list fence_cb;
  dma_fence_wait_timeout : fences -> Z -> Z -> Z
}.

(** What else the framework depends on: which allocations succeed, what the
    stack slot of a variable holds that is read before it is set, and the
    answers of the operations bound for external fences ([enable_signaling] is
    optional). *)
Class SynxClientEnv := {
  kzalloc_answer : nat -> bool;
  stack_garbage : option Z;
  ext_register_callback : nat -> Z -> Z;
  ext_deregister_callback : nat -> Z -> Z;
  ext_enable_signaling : option (nat -> Z -> Z);
  ext_signal : nat -> Z -> Z -> Z
}.

Section state.
Context `{F : DmaFence}.

(** [struct synx_device], its [struct synx_native], and the memory of the driver *)
Record dev := mk_dev {
  d_next : Z;                            (* the next address of the allocator *)
  d_allocs : nat;                        (* allocations tried *)
  d_ext : nat;                           (* calls of bind operations *)
  d_objs : gmap Z synx_coredata;         (* live structs of each type *)
  d_ents : gmap Z synx_map_entry;
  d_hdls : gmap Z synx_handle_coredata;
  d_clients : gmap Z synx_client;
  d_cbs : gmap Z synx_cb_data;
  d_sigs : gmap Z synx_signal_cb;
  d_sessions : list Z;                   (* client_metadata_map *)
  d_fence_map : list synx_fence_entry;
  d_global_map : list Z;                 (* map entries, newest first *)
  d_local_map : list Z;
  d_csl_map : list synx_entry_64;
  d_bitmap : gset Z;                     (* bits set in native->bitmap *)
  d_bind_valid : bool;                   (* bind_vtbl[SYNX_TYPE_CSL].valid *)
  d_wq_cb : list cb_work;                (* work queue of callbacks *)
  d_wq_cleanup : list cleanup_work;
  d_counter : Z;                         (* synx_counter *)
  d_held : list synx_lock;               (* locks that are taken *)
  d_gm : gmem;                           (* the global table *)
  d_fences : fences;                     (* the fences of the kernel *)
  d_trace : list client_event
}.

Definition set_d_next (v : Z) (d : dev) : dev :=
    mk_dev v (d_allocs d) (d_ext d) (d_objs d) (d_ents d) (d_hdls d) (d_clients d) (d_cbs d)
    (d_sigs d) (d_sessions d) (d_fence_map d) (d_global_map d) (d_local_map d) (d_csl_map d)
    (d_bitmap d) (d_bind_valid d) (d_wq_cb d) (d_wq_cleanup d) (d_counter d) (d_held d) (d_gm d)
    (d_fences d) (d_trace d).
Definition set_d_allocs (v : nat) (d : dev) : dev :=
    mk_dev (d_next d) v (d_ext d) (d_objs d) (d_ents d) (d_hdls d) (d_clients d) (d_cbs d)
    (d_sigs d) (d_sessions d) (d_fence_map d) (d_global_map d) (d_local_map d) (d_csl_map d)
    (d_bitmap d) (d_bind_valid d) (d_wq_cb d) (d_wq_cleanup d) (d_counter d) (d_held d) (d_gm d)
    (d_fences d) (d_trace d).
Definition set_d_ext (v : nat) (d : dev) : dev :=
    mk_dev (d_next d) (d_allocs d) v (d_objs d) (d_ents d) (d_hdls d) (d_clients d) (d_cbs d)
    (d_sigs d) (d_sessions d) (d_fence_map d) (d_global_map d) (d_local_map d) (d_csl_map d)
    (d_bitmap d) (d_bind_valid d) (d_wq_cb d) (d_wq_cleanup d) (d_counter d) (d_held d) (d_gm d)
    (d_fences d) (d_trace d).
Definition set_d_objs (v : gmap Z synx_coredata) (d : dev) : dev :=
    mk_dev (d_next d) (d_allocs d) (d_ext d) v (d_ents d) (d_hdls d) (d_clients d) (d_cbs d)
    (d_sigs d) (d_sessions d) (d_fence_map d) (d_global_map d) (d_local_map d) (d_csl_map d)
    (d_bitmap d) (d_bind_valid d) (d_wq_cb d) (d_wq_cleanup d) (d_counter d) (d_held d) (d_gm d)
    (d_fences d) (d_trace d).
Definition set_d_ents (v : gmap Z synx_map_entry) (d : dev) : dev :=
    mk_dev (d_next d) (d_allocs d) (d_ext d) (d_objs d) v (d_hdls d) (d_clients d) (d_cbs d)
    (d_sigs d) (d_sessions d) (d_fence_map d) (d_global_map d) (d_local_map d) (d_csl_map d)
    (d_bitmap d) (d_bind_valid d) (d_wq_cb d) (d_wq_cleanup d) (d_counter d) (d_held d) (d_gm d)
    (d_fences d) (d_trace d).
Definition set_d_hdls (v : gmap Z synx_handle_coredata) (d : dev) : dev :=
    mk_dev (d_next d) (d_allocs d) (d_ext d) (d_objs d) (d_ents d) v (d_clients d) (d_cbs d)
    (d_sigs d) (d_sessions d) (d_fence_map d) (d_global_map d) (d_local_map d) (d_csl_map d)
    (d_bitmap d) (d_bind_valid d) (d_wq_cb d) (d_wq_cleanup d) (d_counter d) (d_held d) (d_gm d)
    (d_fences d) (d_trace d).
Definition set_d_clients (v : gmap Z synx_client) (d : dev) : dev :=
    mk_dev (d_next d) (d_allocs d) (d_ext d) (d_objs d) (d_ents d) (d_hdls d) v (d_cbs d)
    (d_sigs d) (d_sessions d) (d_fence_map d) (d_global_map d) (d_local_map d) (d_csl_map d)
    (d_bitmap d) (d_bind_valid d) (d_wq_cb d) (d_wq_cleanup d) (d_counter d) (d_held d) (d_gm d)
    (d_fences d) (d_trace d).
Definition set_d_cbs (v : gmap Z synx_cb_data) (d : dev) : dev :=
    mk_dev (d_next d) (d_allocs d) (d_ext d) (d_objs d) (d_ents d) (d_hdls d) (d_clients d) v
    (d_sigs d) (d_sessions d) (d_fence_map d) (d_global_map d) (d_local_map d) (d_csl_map d)
    (d_bitmap d) (d_bind_valid d) (d_wq_cb d) (d_wq_cleanup d) (d_counter d) (d_held d) (d_gm d)
    (d_fences d) (d_trace d).
Definition set_d_sigs (v : gmap Z synx_signal_cb) (d : dev) : dev :=
    mk_dev (d_next d) (d_allocs d) (d_ext d) (d_objs d) (d_ents d) (d_hdls d) (d_clients d)
    (d_cbs d) v (d_sessions d) (d_fence_map d) (d_global_map d) (d_local_map d) (d_csl_map d)
    (d_bitmap d) (d_bind_valid d) (d_wq_cb d) (d_wq_cleanup d) (d_counter d) (d_held d) (d_gm d)
    (d_fences d) (d_trace d).
Definition set_d_sessions (v : list Z) (d : dev) : dev :=
    mk_dev (d_next d) (d_allocs d) (d_ext d) (d_objs d) (d_ents d) (d_hdls d) (d_clients d)
    (d_cbs d) (d_sigs d) v (d_fence_map d) (d_global_map d) (d_local_map d) (d_csl_map d)
    (d_bitmap d) (d_bind_valid d) (d_wq_cb d) (d_wq_cleanup d) (d_counter d) (d_held d) (d_gm d)
    (d_fences d) (d_trace d).
Definition set_d_fence_map (v : list synx_fence_entry) (d : dev) : dev :=
    mk_dev (d_next d) (d_allocs d) (d_ext d) (d_objs d) (d_ents d) (d_hdls d) (d_clients d)
    (d_cbs d) (d_sigs d) (d_sessions d) v (d_global_map d) (d_local_map d) (d_csl_map d)
    (d_bitmap d) (d_bind_valid d) (d_wq_cb d) (d_wq_cleanup d) (d_counter d) (d_held d) (d_gm d)
    (d_fences d) (d_trace d).
Definition set_d_global_map (v : list Z) (d : dev) : dev :=
    mk_dev (d_next d) (d_allocs d) (d_ext d) (d_objs d) (d_ents d) (d_hdls d) (d_clients d)
    (d_cbs d) (d_sigs d) (d_sessions d) (d_fence_map d) v (d_local_map d) (d_csl_map d)
    (d_bitmap d) (d_bind_valid d) (d_wq_cb d) (d_wq_cleanup d) (d_counter d) (d_held d) (d_gm d)
    (d_fences d) (d_trace d).
Definition set_d_local_map (v : list Z) (d : dev) : dev :=
    mk_dev (d_next d) (d_allocs d) (d_ext d) (d_objs d) (d_ents d) (d_hdls d) (d_clients d)
    (d_cbs d) (d_sigs d) (d_sessions d) (d_fence_map d) (d_global_map d) v (d_csl_map d)
    (d_bitmap d) (d_bind_valid d) (d_wq_cb d) (d_wq_cleanup d) (d_counter d) (d_held d) (d_gm d)
    (d_fences d) (d_trace d).
Definition set_d_csl_map (v : list synx_entry_64) (d : dev) : dev :=
    mk_dev (d_next d) (d_allocs d) (d_ext d) (d_objs d) (d_ents d) (d_hdls d) (d_clients d)
    (d_cbs d) (d_sigs d) (d_sessions d) (d_fence_map d) (d_global_map d) (d_local_map d) v
    (d_bitmap d) (d_bind_valid d) (d_wq_cb d) (d_wq_cleanup d) (d_counter d) (d_held d) (d_gm d)
    (d_fences d) (d_trace d).
Definition set_d_bitmap (v : gset Z) (d : dev) : dev :=
    mk_dev (d_next d) (d_allocs d) (d_ext d) (d_objs d) (d_ents d) (d_hdls d) (d_clients d)
    (d_cbs d) (d_sigs d) (d_sessions d) (d_fence_map d) (d_global_map d) (d_local_map d)
    (d_csl_map d) v (d_bind_valid d) (d_wq_cb d) (d_wq_cleanup d) (d_counter d) (d_held d) (d_gm
    d) (d_fences d) (d_trace d).
Definition set_d_bind_valid (v : bool) (d : dev) : dev :=
    mk_dev (d_next d) (d_allocs d) (d_ext d) (d_objs d) (d_ents d) (d_hdls d) (d_clients d)
    (d_cbs d) (d_sigs d) (d_sessions d) (d_fence_map d) (d_global_map d) (d_local_map d)
    (d_csl_map d) (d_bitmap d) v (d_wq_cb d) (d_wq_cleanup d) (d_counter d) (d_held d) (d_gm d)
    (d_fences d) (d_trace d).
Definition set_d_wq_cb (v : list cb_work) (d : dev) : dev :=
    mk_dev (d_next d) (d_allocs d) (d_ext d) (d_objs d) (d_ents d) (d_hdls d) (d_clients d)
    (d_cbs d) (d_sigs d) (d_sessions d) (d_fence_map d) (d_global_map d) (d_local_map d)
    (d_csl_map d) (d_bitmap d) (d_bind_valid d) v (d_wq_cleanup d) (d_counter d) (d_held d)
    (d_gm d) (d_fences d) (d_trace d).
Definition set_d_wq_cleanup (v : list cleanup_work) (d : dev) : dev :=
    mk_dev (d_next d) (d_allocs d) (d_ext d) (d_objs d) (d_ents d) (d_hdls d) (d_clients d)
    (d_cbs d) (d_sigs d) (d_sessions d) (d_fence_map d) (d_global_map d) (d_local_map d)
    (d_csl_map d) (d_bitmap d) (d_bind_valid d) (d_wq_cb d) v (d_counter d) (d_held d) (d_gm d)
    (d_fences d) (d_trace d).
Definition set_d_counter (v : Z) (d : dev) : dev :=
    mk_dev (d_next d) (d_allocs d) (d_ext d) (d_objs d) (d_ents d) (d_hdls d) (d_clients d)
    (d_cbs d) (d_sigs d) (d_sessions d) (d_fence_map d) (d_global_map d) (d_local_map d)
    (d_csl_map d) (d_bitmap d) (d_bind_valid d) (d_wq_cb d) (d_wq_cleanup d) v (d_held d) (d_gm
    d) (d_fences d) (d_trace d).
Definition set_d_held (v : list synx_lock) (d : dev) : dev :=
    mk_dev (d_next d) (d_allocs d) (d_ext d) (d_objs d) (d_ents d) (d_hdls d) (d_clients d)
    (d_cbs d) (d_sigs d) (d_sessions d) (d_fence_map d) (d_global_map d) (d_local_map d)
    (d_csl_map d) (d_bitmap d) (d_bind_valid d) (d_wq_cb d) (d_wq_cleanup d) (d_counter d) v
    (d_gm d) (d_fences d) (d_trace d).
Definition set_d_gm (v : gmem) (d : dev) : dev :=
    mk_dev (d_next d) (d_allocs d) (d_ext d) (d_objs d) (d_ents d) (d_hdls d) (d_clients d)
    (d_cbs d) (d_sigs d) (d_sessions d) (d_fence_map d) (d_global_map d) (d_local_map d)
    (d_csl_map d) (d_bitmap d) (d_bind_valid d) (d_wq_cb d) (d_wq_cleanup d) (d_counter d)
    (d_held d) v (d_fences d) (d_trace d).
Definition set_d_fences (v : fences) (d : dev) : dev :=
    mk_dev (d_next d) (d_allocs d) (d_ext d) (d_objs d) (d_ents d) (d_hdls d) (d_clients d)
    (d_cbs d) (d_sigs d) (d_sessions d) (d_fence_map d) (d_global_map d) (d_local_map d)
    (d_csl_map d) (d_bitmap d) (d_bind_valid d) (d_wq_cb d) (d_wq_cleanup d) (d_counter d)
    (d_held d) (d_gm d) v (d_trace d).
Definition set_d_trace (v : list client_event) (d : dev) : dev :=
    mk_dev (d_next d) (d_allocs d) (d_ext d) (d_objs d) (d_ents d) (d_hdls d) (d_clients d)
    (d_cbs d) (d_sigs d) (d_sessions d) (d_fence_map d) (d_global_map d) (d_local_map d)
    (d_csl_map d) (d_bitmap d) (d_bind_valid d) (d_wq_cb d) (d_wq_cleanup d) (d_counter d)
    (d_held d) (d_gm d) (d_fences d) v.

End state.

(** ** The memory *)

Section memory.
Context `{F : DmaFence} `{C : SynxClientEnv}.

Abbreviation M := (run dev).

(** [kzalloc] gives a fresh address, or [NULL]. *)
Definition kzalloc : M (option Z) := fun d =>
  let n := d_allocs d in
  let d := set_d_allocs (S n) d in
  if kzalloc_answer n then Ret (Some (d_next d)) (set_d_next (d_next d + 1) d) else Ret None d.

Definition get_obj (p : Z) : M synx_coredata := o ← gets (fun d => d_objs d !! p); deref o.
Definition get_ent (p : Z) : M synx_map_entry := o ← gets (fun d => d_ents d !! p); deref o.
Definition get_hdl (p : Z) : M synx_handle_coredata := o ← gets (fun d => d_hdls d !! p); deref o.
Definition get_cli (p : Z) : M synx_client := o ← gets (fun d => d_clients d !! p); deref o.
Definition get_cb (p : Z) : M synx_cb_data := o ← gets (fun d => d_cbs d !! p); deref o.
Definition get_sig (p : Z) : M synx_signal_cb := o ← gets (fun d => d_sigs d !! p); deref o.

(** The contents of a fresh address. *)
Definition new_obj (p : Z) (o : synx_coredata) : M unit :=
  modify (fun d => set_d_objs (<[p := o]> (d_objs d)) d).
Definition new_ent (p : Z) (e : synx_map_entry) : M unit :=
  modify (fun d => set_d_ents (<[p := e]> (d_ents d)) d).
Definition new_hdl (p : Z) (h : synx_handle_coredata) : M unit :=
  modify (fun d => set_d_hdls (<[p := h]> (d_hdls d)) d).
Definition new_cli (p : Z) (c : synx_client) : M unit :=
  modify (fun d => set_d_clients (<[p := c]> (d_clients d)) d).
Definition new_cb (p : Z) (c : synx_cb_data) : M unit :=
  modify (fun d => set_d_cbs (<[p := c]> (d_cbs d)) d).
Definition new_sig (p : Z) (s : synx_signal_cb) : M unit :=
  modify (fun d => set_d_sigs (<[p := s]> (d_sigs d)) d).

(** A write to a live struct. *)
Definition upd_obj (p : Z) (f : synx_coredata -> synx_coredata) : M unit :=
  o ← get_obj p; new_obj p (f o).
Definition upd_ent (p : Z) (f : synx_map_entry -> synx_map_entry) : M unit :=
  e ← get_ent p; new_ent p (f e).
Definition upd_hdl (p : Z) (f : synx_handle_coredata -> synx_handle_coredata) : M unit :=
  h ← get_hdl p; new_hdl p (f h).
Definition upd_cli (p : Z) (f : synx_client -> synx_client) : M unit :=
  c ← get_cli p; new_cli p (f c).
Definition upd_cb (p : Z) (f : synx_cb_data -> synx_cb_data) : M unit :=
  c ← get_cb p; new_cb p (f c).
Definition upd_sig (p : Z) (f : synx_signal_cb -> synx_signal_cb) : M unit :=
  s ← get_sig p; new_sig p (f s).

(** [kfree] of a live struct. *)
Definition free_obj (p : Z) : M unit :=
  get_obj p ;; modify (fun d => set_d_objs (delete p (d_objs d)) d).
Definition free_ent (p : Z) : M unit :=
  get_ent p ;; modify (fun d => set_d_ents (delete p (d_ents d)) d).
Definition free_hdl (p : Z) : M unit :=
  get_hdl p ;; modify (fun d => set_d_hdls (delete p (d_hdls d)) d).
Definition free_cli (p : Z) : M unit :=
  get_cli p ;; modify (fun d => set_d_clients (delete p (d_clients d)) d).
Definition free_sig (p : Z) : M unit :=
  get_sig p ;; modify (fun d => set_d_sigs (delete p (d_sigs d)) d).

(** The memory of a pending timer must not be freed. *)
Definition free_cb (p : Z) : M unit :=
  c ← get_cb p;
  guard (negb (c_timer c)) ;;
  modify (fun d => set_d_cbs (delete p (d_cbs d)) d).

(** ** Locks, work queues and calls *)

Definition lock (l : synx_lock) : M unit := fun d =>
  if bool_decide (l ∈ d_held d) then Block else Ret tt (set_d_held (l :: d_held d) d).

(** The list without its first [l]. *)
Fixpoint remove_lock (l : synx_lock) (ls : list synx_lock) : list synx_lock :=
  match ls with
  | [] => []
  | l' :: ls => if bool_decide (l = l') then ls else l' :: remove_lock l ls
  end.

Definition unlock (l : synx_lock) : M unit :=
  modify (fun d => set_d_held (remove_lock l (d_held d)) d).

Definition with_lock {A} (l : synx_lock) (m : M A) : M A :=
  lock l ;; a ← m; unlock l ;; mret a.

Definition queue_cb (w : cb_work) : M unit :=
  modify (fun d => set_d_wq_cb (d_wq_cb d ++ [w]) d).
Definition queue_cleanup (w : cleanup_work) : M unit :=
  modify (fun d => set_d_wq_cleanup (d_wq_cleanup d ++ [w]) d).

Definition emit (e : client_event) : M unit :=
  modify (fun d => set_d_trace (d_trace d ++ [e]) d).

(** A function of the global table. *)
Definition global {A} (f : gmem -> A * gmem) : M A := fun d =>
  let '(a, g) := f (d_gm d) in Ret a (set_d_gm g d).

(** A function of the fences. *)
Definition fence_call {A} (f : fences -> A * fences) : M A := fun d =>
  let '(a, fs) := f (d_fences d) in Ret a (set_d_fences fs d).

(** A call of an operation bound for external fences. *)
Definition ext_call (e : client_event) (answer : nat -> Z) : M Z :=
  n ← gets d_ext; modify (set_d_ext (S n)) ;; emit e ;; mret (answer n).

End memory.
