(* ===== verification/SynxUtil.v ===== *)
(** * The synx client framework: helpers ([synx_util.c], [synx_util.h])

    Handles, object and map-entry life cycles, fence status, callback entries
    and the maps of fences, each under the name of the source. A function whose
    pointer argument is tested with [IS_ERR_OR_NULL] takes an [option] where the
    callers can pass such a pointer. *)

From S2P Require Import Prelude SynxGlobal SynxSignal SynxDev.

(** ** Inline functions of [synx_util.h] *)

Definition synx_util_is_valid_bind_type (type : Z) : bool := type <? SYNX_MAX_BIND_TYPES.

Definition synx_util_is_global_handle (h_synx : Z) : bool :=
  truthy (Z.land h_synx SYNX_OBJ_GLOBAL_FLAG_MASK).

Definition synx_util_is_merged_object (o : synx_coredata) : bool :=
  truthy (Z.land (o_type o) SYNX_CREATE_MERGED_FENCE).

Definition synx_util_is_global_object (o : synx_coredata) : bool :=
  truthy (Z.land (o_type o) SYNX_CREATE_GLOBAL_FENCE).

Definition synx_util_is_external_object (o : synx_coredata) : bool :=
  negb (truthy (Z.land (o_type o) SYNX_CREATE_MERGED_FENCE)) &&
  truthy (Z.land (o_type o) SYNX_CREATE_DMA_FENCE).

Definition synx_util_map_params_to_type (flags : Z) : Z :=
  if truthy (Z.land flags SYNX_CREATE_CSL_FENCE) then SYNX_TYPE_CSL else SYNX_MAX_BIND_TYPES.

Definition synx_util_global_idx (h_synx : Z) : Z := Z.land h_synx SYNX_OBJ_HANDLE_MASK.

(** ** Handles *)

Definition synx_encode_handle (idx core_id : Z) (global_idx : bool) : Z :=
  if idx >=? SYNX_MAX_OBJS then 0 else
  let handle := if global_idx then u32 (Z.shiftl 1 SYNX_HANDLE_CORE_BITS) else 0 in
  let handle := Z.lor handle core_id in
  let handle := u32 (Z.shiftl handle SYNX_HANDLE_INDEX_BITS) in
  Z.lor handle idx.

(** [find_first_zero_bit] and [test_and_set_bit] on the set of bits that are
    set: the loop ends in its first round, since the bit found is clear. *)
Definition first_zero_bit (bits : gset Z) (size : Z) : Z :=
  default size (head (List.filter (fun i => bool_decide (i ∉ bits)) (seqZ 0 size))).

Definition synx_util_get_free_handle (bits : gset Z) (size : Z) : Z * gset Z :=
  let idx := first_zero_bit bits size in
  if idx >=? size then (idx, bits) else (idx, {[idx]} ∪ bits).

(** [synx_util_map_import_params_to_create]: the flags of the creation. *)
Definition synx_util_map_import_params_to_create (flags c_flags : Z) : Z :=
  let c_flags := if truthy (Z.land flags SYNX_IMPORT_GLOBAL_FENCE)
                 then Z.lor c_flags SYNX_CREATE_GLOBAL_FENCE else c_flags in
  let c_flags := if truthy (Z.land flags SYNX_IMPORT_LOCAL_FENCE)
                 then Z.lor c_flags SYNX_CREATE_LOCAL_FENCE else c_flags in
  if truthy (Z.land flags SYNX_IMPORT_DMA_FENCE)
  then Z.lor c_flags SYNX_CREATE_DMA_FENCE else c_flags.

(** ** The state of a fence *)

(** The [switch] of [__fence_state] on the kernel's status. *)
Definition state_of_status (status : Z) : Z :=
  if status =? 0 then SYNX_STATE_ACTIVE
  else if status =? 1 then SYNX_STATE_SIGNALED_SUCCESS
  else if status =? - SYNX_STATE_SIGNALED_CANCEL then SYNX_STATE_SIGNALED_CANCEL
  else if status =? - SYNX_STATE_SIGNALED_EXTERNAL then SYNX_STATE_SIGNALED_EXTERNAL
  else if status =? - SYNX_STATE_SIGNALED_ERROR then SYNX_STATE_SIGNALED_ERROR
  else u32 (- status).

(** The loop of [__fence_group_state] over the states of the children, with its
    counters of active, signalled and failed ones. *)
Fixpoint group_loop (states : list Z) (parent actv sig err : Z) : Z * Z :=
  match states with
  | [] => (parent, actv)
  | intr :: states =>
      let parent := if err =? 0 then intr else parent in
      if intr =? SYNX_STATE_ACTIVE then group_loop states parent (actv + 1) sig err
      else if intr =? SYNX_STATE_SIGNALED_SUCCESS then group_loop states parent actv (sig + 1) err
      else if intr >? SYNX_STATE_SIGNALED_MAX then group_loop states parent actv (sig + 1) err
      else group_loop states parent actv sig (err + 1)
  end.

Definition group_state (states : list Z) : Z :=
  let '(parent, actv) := group_loop states SYNX_STATE_INVALID 0 0 0 in
  if truthy actv then SYNX_STATE_ACTIVE else parent.

(** The loop of [synx_util_remove_duplicates]: the kept prefix of [arr], and the
    fences whose reference is put, in order. *)
Fixpoint dedup_loop (arr kept dropped : list Z) : list Z * list Z :=
  match arr with
  | [] => (kept, dropped)
  | f :: arr =>
      if existsb (Z.eqb f) kept then dedup_loop arr kept (dropped ++ [f])
      else dedup_loop arr (kept ++ [f]) dropped
  end.

(** The first element is kept without a comparison; the count starts at one. *)
Definition remove_duplicates (arr : list Z) : Z * list Z * list Z :=
  let '(kept, dropped) := dedup_loop (drop 1 arr) (take 1 arr) [] in
  (1 + zlen (drop 1 kept), kept, dropped).

Section operations.
Context `{F : DmaFence} `{E : SynxEnv} `{C : SynxClientEnv}.

Abbreviation M := (run dev).

(** ** The kernel's fences, with their lock *)

Definition fence_status (locked : bool) (f : Z) : M Z :=
  if locked then gets (fun d => dma_fence_get_status (d_fences d) f)
  else with_lock (fence_lock f) (gets (fun d => dma_fence_get_status (d_fences d) f)).

(** [synx_fence_callback] (of [synx.c]), called with the lock of the fence. *)
Definition synx_fence_callback (fence cb : Z) : M unit :=
  status ← gets (fun d => dma_fence_get_status (d_fences d) fence);
  let status :=
    if status =? 1 then SYNX_STATE_SIGNALED_SUCCESS
    else if status =? - SYNX_STATE_SIGNALED_CANCEL then SYNX_STATE_SIGNALED_CANCEL
    else if (status <? 0) && (status >=? - SYNX_STATE_SIGNALED_MAX) then SYNX_STATE_SIGNALED_EXTERNAL
    else u32 (- status) in
  upd_sig cb (set_s_status status) ;;
  queue_cb (WSignal cb).

Definition run_callbacks (fired : list (Z * Z)) : M unit :=
  for_each fired (fun '(fence, cb) => synx_fence_callback fence cb).

(** [dma_fence_signal_locked]; [dma_fence_signal] takes the lock of the fence. *)
Definition fence_signal_locked (f : Z) : M Z :=
  '(rc, fired) ← fence_call (dma_fence_signal f);
  run_callbacks fired ;;
  mret rc.

Definition fence_signal (f : Z) : M Z := with_lock (fence_lock f) (fence_signal_locked f).

Definition fence_set_error (f err : Z) : M unit :=
  fence_call (fun fs => (tt, dma_fence_set_error f err fs)).

Definition fence_get (f : Z) : M unit := fence_call (fun fs => (tt, dma_fence_get f fs)).

Definition fence_put (f : Z) : M unit :=
  if f =? 0 then mret tt else
  fired ← fence_call (dma_fence_put f);
  run_callbacks fired.

(** ** Status of objects *)

Definition __fence_state (fence : Z) (locked : bool) : M Z :=
  if fence =? 0 then mret SYNX_STATE_INVALID else
  status ← fence_status locked fence;
  mret (state_of_status status).

(** [for (i = 0; i < array->num_fences; i++) intr = __fence_state(array->fences[i], locked)] *)
Fixpoint fence_states (fs : list Z) (locked : bool) : M (list Z) :=
  match fs with
  | [] => mret []
  | f :: fs => st ← __fence_state f locked; sts ← fence_states fs locked; mret (st :: sts)
  end.

Definition __fence_group_state (fence : Z) (locked : bool) : M Z :=
  if fence =? 0 then mret SYNX_STATE_INVALID else
  array ← gets (fun d => to_dma_fence_array (d_fences d) fence);
  match array with
  | None => mret SYNX_STATE_INVALID
  | Some fs => sts ← fence_states fs locked; mret (group_state sts)
  end.

Definition object_status (locked : bool) (p : Z) : M Z :=
  o ← get_obj p;
  if synx_util_is_merged_object o then __fence_group_state (o_fence o) locked
  else __fence_state (o_fence o) locked.

Definition synx_util_get_object_status (p : Z) : M Z := object_status false p.
Definition synx_util_get_object_status_locked (p : Z) : M Z := object_status true p.

(** ** Timers and callback nodes *)

(** [del_timer(&synx_cb->synx_timer)] *)
Definition del_timer (c : Z) : M unit := upd_cb c (set_c_timer false).

(** [list_del_init(&synx_cb->node)]: the node leaves the list it is in. *)
Definition list_del_cb (c : Z) : M unit :=
  get_cb c ;;
  modify (fun d => set_d_objs
    ((fun o => set_o_reg_cbs (List.filter (fun c' => negb (c' =? c)) (o_reg_cbs o)) o) <$> d_objs d) d).

(** The body of the loops that dispatch all callbacks of an object. *)
Definition dispatch_cb (status : Z) (c : Z) : M unit :=
  upd_cb c (set_c_status status) ;;
  cb ← get_cb c;
  when (negb (c_timeout cb =? SYNX_NO_TIMEOUT)) (del_timer c) ;;
  list_del_cb c ;;
  queue_cb (WCb c).

Definition synx_util_callback_dispatch (p : Z) (status : Z) : M unit :=
  o ← get_obj p;
  for_each (o_reg_cbs o) (dispatch_cb status).

(** ** External fences: bind operations and their map *)

Definition synx_util_get_bind_ops (type : Z) : M bool :=
  if negb (synx_util_is_valid_bind_type type) then mret false else
  with_lock vtbl_lock (gets d_bind_valid).

Definition csl_find (key : Z) (l : list synx_entry_64) : option synx_entry_64 :=
  List.find (fun x => x_key x =? key) l.

(** [kref_get] and [kref_put] of the first entry with the key. *)
Fixpoint csl_update (key n : Z) (l : list synx_entry_64) : list synx_entry_64 :=
  match l with
  | [] => []
  | x :: l =>
      if x_key x =? key then
        let r := x_refcount x + n in
        if r =? 0 then l else mk_e64 (x_key x) (x_data x) r :: l
      else x :: csl_update key n l
  end.

(** [fence] points to the [u32] that is the key. For another type of fence the
    code frees a pointer that it never set. *)
Definition synx_util_save_data (fence flags h_synx : Z) : M Z :=
  if synx_util_map_params_to_type flags =? SYNX_TYPE_CSL then
    with_lock csl_map_lock (
      l ← gets d_csl_map;
      match csl_find fence l with
      | Some _ => mret (- SYNX_ALREADY)
      | None =>
          a ← kzalloc;
          match a with
          | Some _ => modify (set_d_csl_map (mk_e64 fence h_synx 1 :: l)) ;; mret SYNX_SUCCESS
          | None => mret (- SYNX_NOMEM)
          end
      end)
  else fault.

(** Returns [data[0]] of the entry; its reference is taken. *)
Definition synx_util_retrieve_data (fence type : Z) : M (option Z) :=
  if type =? SYNX_TYPE_CSL then
    with_lock csl_map_lock (
      l ← gets d_csl_map;
      match csl_find fence l with
      | Some x => modify (set_d_csl_map (csl_update fence 1 l)) ;; mret (Some (x_data x))
      | None => mret None
      end)
  else mret None.

Definition synx_util_remove_data (fence type : Z) : M unit :=
  if type =? SYNX_TYPE_CSL then
    with_lock csl_map_lock (
      l ← gets d_csl_map;
      modify (set_d_csl_map (csl_update fence (-1) l)))
  else mret tt.

(** ** The map from fences to handles *)

Definition fence_find (key : Z) (l : list synx_fence_entry) : option synx_fence_entry :=
  List.find (fun x => f_key x =? key) l.

Definition synx_util_get_fence_entry (key global : Z) : M Z :=
  with_lock fence_map_lock (
    l ← gets d_fence_map;
    mret match fence_find key l with
         | None => 0
         | Some curr =>
             let h_synx := if truthy global then f_g_handle curr else 0 in
             if h_synx =? 0 then f_l_handle curr else h_synx
         end).

Fixpoint fence_remove (key : Z) (l : list synx_fence_entry) : list synx_fence_entry :=
  match l with
  | [] => []
  | x :: l => if f_key x =? key then l else x :: fence_remove key l
  end.

Definition synx_util_release_fence_entry (key : Z) : M unit :=
  with_lock fence_map_lock (
    l ← gets d_fence_map;
    modify (set_d_fence_map (fence_remove key l))).

(** Returns the code and the new value of [*h_synx]. *)
Definition synx_util_insert_fence_entry (entry : synx_fence_entry) (h_synx global : Z) : M (Z * Z) :=
  with_lock fence_map_lock (
    l ← gets d_fence_map;
    match fence_find (f_key entry) l with
    | Some curr =>
        let h := if truthy global then f_g_handle curr else h_synx in
        let h := if (h =? 0) || negb (truthy global) then f_l_handle curr else h in
        mret (- SYNX_ALREADY, h)
    | None => modify (set_d_fence_map (entry :: l)) ;; mret (SYNX_SUCCESS, h_synx)
    end).

(** ** Objects *)

Definition synx_util_count_dma_array_fences (fence : Z) : M Z :=
  fs ← gets d_fences;
  mret (zlen (List.filter
    (fun cb => match cb with
               | ArrayCb a => match to_dma_fence_array fs a with Some _ => true | None => false end
               | SynxCb _ | OtherCb => false
               end) (dma_fence_cb_list fs fence))).

Definition cancel_child (f : Z) : M unit :=
  refs ← gets (fun d => dma_fence_kref_read (d_fences d) f);
  if negb (refs =? 1) then mret tt else
  st ← __fence_state f false;
  if negb (st =? SYNX_STATE_ACTIVE) then mret tt else
  fence_set_error f (- SYNX_STATE_SIGNALED_CANCEL) ;;
  fence_signal f ;;
  mret tt.

Definition synx_util_cleanup_merged_fence (p : Z) : M unit :=
  o ← get_obj p;
  array ← gets (fun d => to_dma_fence_array (d_fences d) (o_fence o));
  match array with
  | Some fs => for_each fs cancel_child
  | None => mret tt
  end.

(** The loop over the bound external fences of a destroyed object. *)
Definition unbind_desc (b : bind_desc) : M unit :=
  ok ← synx_util_get_bind_ops (b_type b);
  if negb ok then mret tt else
  synx_util_remove_data (u32 (b_id b)) (b_type b) ;;
  rc ← ext_call (ExtDeregister (b_id b) (b_data b)) (fun n => ext_deregister_callback n (b_id b));
  if rc <? 0 then mret tt else free_sig (b_data b).

Definition synx_util_object_destroy (p : Z) : M unit :=
  o ← get_obj p;
  for_each (o_reg_cbs o) (dispatch_cb SYNX_STATE_SIGNALED_CANCEL) ;;
  for_each (take (Z.to_nat (o_num_bound o)) (o_bound o)) unbind_desc ;;
  synx_util_release_fence_entry (o_fence o) ;;
  when (negb (o_fence o =? 0)) (
    with_lock (fence_lock (o_fence o)) (
      st ← synx_util_get_object_status_locked p;
      if synx_util_is_merged_object o && (st =? SYNX_STATE_ACTIVE) then synx_util_cleanup_merged_fence p
      else if st =? SYNX_STATE_ACTIVE then
        num_dma_array ← synx_util_count_dma_array_fences (o_fence o);
        refs ← gets (fun d => dma_fence_kref_read (d_fences d) (o_fence o));
        if refs =? 1 + num_dma_array then
          fence_set_error (o_fence o) (- SYNX_STATE_SIGNALED_CANCEL) ;;
          fence_signal_locked (o_fence o) ;;
          mret tt
        else mret tt
      else mret tt)) ;;
  fence_put (o_fence o) ;;
  free_obj p.

Definition synx_util_destroy_coredata (p : Z) : M unit :=
  o ← get_obj p;
  when (synx_util_is_global_object o) (
    global (synx_global_clear_subscribed_core (o_global_idx o) SYNX_CORE_APSS) ;;
    global (fun g => (tt, synx_global_put_ref (o_global_idx o) g))) ;;
  synx_util_object_destroy p.

Definition synx_util_get_object (p : Z) : M unit :=
  upd_obj p (fun o => set_o_refcount (o_refcount o + 1) o).

Definition synx_util_put_object (p : Z) : M unit :=
  upd_obj p (fun o => set_o_refcount (o_refcount o - 1) o) ;;
  o ← get_obj p;
  when (o_refcount o =? 0) (synx_util_destroy_coredata p).

(** The update of the global table: its recursion is bounded by [signal_fuel],
    and a table whose signal does not return blocks the caller. *)
Definition global_update_status (idx status : Z) : M Z := fun d =>
  match synx_global_update_status (signal_fuel (d_gm d)) idx status (d_gm d) with
  | Some (rc, g) => Ret rc (set_d_gm g d)
  | None => Block
  end.

Definition synx_util_add_callback (p h_synx : Z) : M Z :=
  a ← kzalloc;
  match a with
  | None => mret (- SYNX_NOMEM)
  | Some s =>
      new_sig s (mk_sig h_synx 0 0 (Some p) SYNX_SIGNAL_FROM_FENCE) ;;
      synx_util_get_object p ;;
      o ← get_obj p;
      rc ← with_lock (fence_lock (o_fence o)) (fence_call (dma_fence_add_callback (o_fence o) s));
      if negb (rc =? 0) then
        rc ← (if rc =? - SYNX_NOENT then
                if synx_util_is_global_object o then
                  st ← synx_util_get_object_status p;
                  global_update_status (o_global_idx o) st
                else mret SYNX_SUCCESS
              else mret rc);
        synx_util_put_object p ;;
        free_sig s ;;
        mret rc
      else
        upd_obj p (set_o_signal_cb (Some s)) ;;
        mret SYNX_SUCCESS
  end.

Definition synx_util_activate (p : Z) : M Z :=
  o ← get_obj p;
  with_lock (fence_lock (o_fence o))
    (fence_call (fun fs => (tt, dma_fence_enable_sw_signaling (o_fence o) fs))) ;;
  mret 0.

Definition synx_alloc_local_handle : M (Z * Z) :=
  bits ← gets d_bitmap;
  let '(idx, bits) := synx_util_get_free_handle bits SYNX_MAX_OBJS in
  modify (set_d_bitmap bits) ;;
  if idx >=? SYNX_MAX_OBJS then mret (- SYNX_NOMEM, 0) else
  mret (SYNX_SUCCESS, synx_encode_handle idx SYNX_CORE_APSS false).

(** [clear_bit(idx, synx_dev->native->bitmap)]: the index is inside it. *)
Definition clear_local_bit (idx : Z) : M unit :=
  guard (idx <? SYNX_MAX_OBJS) ;;
  modify (fun d => set_d_bitmap (d_bitmap d ∖ {[idx]}) d).

(** [synx_global_alloc_index] runs at most one round more than there are
    indexes. *)
Definition alloc_fuel : nat := S (Z.to_nat SYNX_GLOBAL_MAX_OBJS).

Definition global_alloc_index : M (Z * option Z) := fun d =>
  match synx_global_alloc_index alloc_fuel (d_gm d) with
  | Some (rc, idx, g) => Ret (rc, idx) (set_d_gm g d)
  | None => Block
  end.

(** Returns the code and [*new_synx], whose value before is [h0]. *)
Definition synx_alloc_global_handle (h0 : Z) : M (Z * Z) :=
  '(rc, idx) ← global_alloc_index;
  match idx with
  | Some idx =>
      if negb (rc =? SYNX_SUCCESS) then mret (rc, h0) else
      let h := synx_encode_handle idx SYNX_CORE_APSS true in
      rc ← global (synx_global_init_coredata h);
      mret (rc, h)
  | None => mret (rc, h0)
  end.

(** The members of [synx_create_params] but the name: [*h_synx], [fence] and
    [flags]. *)
Record synx_create_params := mk_params { cp_h_synx : Z; cp_fence : Z; cp_flags : Z }.

(** The path [free:] of [synx_util_init_coredata]. *)
Definition init_coredata_free (flags h : Z) : M unit :=
  if truthy (Z.land flags SYNX_CREATE_GLOBAL_FENCE)
  then global (fun g => (tt, synx_global_put_ref (synx_util_global_idx h) g))
  else clear_local_bit (synx_util_global_idx h).

(** The branch of [synx_util_init_coredata] for an object with a fence of its own. *)
Definition init_own_fence (p flags h : Z) : M (Z * Z) :=
  fence_lock_mem ← kzalloc;
  match fence_lock_mem with
  | None => init_coredata_free flags h ;; mret (- SYNX_NOMEM, h)
  | Some _ =>
      mem ← kzalloc;
      match mem with
      | None => init_coredata_free flags h ;; mret (- SYNX_NOMEM, h)
      | Some fence =>
          fence_call (fun fs => (tt, dma_fence_init fence fs)) ;;
          upd_obj p (set_o_fence fence) ;;
          synx_util_activate p ;;
          entry ← kzalloc;
          match entry with
          | None => fence_put fence ;; init_coredata_free flags h ;; mret (- SYNX_NOMEM, h)
          | Some _ =>
              let e := if truthy (Z.land flags SYNX_CREATE_GLOBAL_FENCE)
                       then mk_fent h 0 fence else mk_fent 0 h fence in
              '(rc, h) ← synx_util_insert_fence_entry e h (Z.land flags SYNX_CREATE_GLOBAL_FENCE);
              guard (rc =? SYNX_SUCCESS) ;;
              st ← synx_util_get_object_status p;
              upd_obj p (set_o_status st) ;;
              mret (SYNX_SUCCESS, h)
          end
      end
  end.

(** Returns the code and [*params->h_synx]. The object [p] is zeroed memory;
    [dma_fence_init] gives the fence its lock and the operations of the driver. *)
Definition synx_util_init_coredata (p : Z) (params : synx_create_params) : M (Z * Z) :=
  let flags := cp_flags params in
  let is_global := truthy (Z.land flags SYNX_CREATE_GLOBAL_FENCE) in
  '(rc, h) ← (if is_global && negb (cp_h_synx params =? 0) then
                rc ← global (synx_global_get_ref (synx_util_global_idx (cp_h_synx params)));
                mret (rc, cp_h_synx params)
              else if is_global then synx_alloc_global_handle (cp_h_synx params)
              else '(rc, h) ← synx_alloc_local_handle;
                   mret (rc, if rc =? SYNX_SUCCESS then h else cp_h_synx params));
  when is_global (upd_obj p (set_o_global_idx (synx_util_global_idx h))) ;;
  if negb (rc =? SYNX_SUCCESS) then mret (rc, h) else
  upd_obj p (fun o => set_o_map_count 1 (set_o_num_bound 0 (set_o_type (Z.lor (o_type o) flags)
    (set_o_refcount 1 (set_o_reg_cbs [] o))))) ;;
  if truthy (Z.land flags SYNX_CREATE_DMA_FENCE) then
    let fence := cp_fence params in
    if fence =? 0 then init_coredata_free flags h ;; mret (rc, h) else
    fence_get fence ;;
    upd_obj p (set_o_fence fence) ;;
    st ← synx_util_get_object_status p;
    upd_obj p (set_o_status st) ;;
    mret (SYNX_SUCCESS, h)
  else
    init_own_fence p flags h.

(** The members of [synx_merge_params] but the result: [h_synxs] and [flags]. *)
Record synx_merge_params := mk_mparams { mp_h_synxs : list Z; mp_flags : Z }.

(** Returns the code and [*params->h_merged_obj], whose value before is [h0]. *)
Definition synx_util_init_group_coredata (p : Z) (fences : list Z) (flags h0 : Z) : M (Z * Z) :=
  let is_global := truthy (Z.land flags SYNX_MERGE_GLOBAL_FENCE) in
  '(rc, h) ← (if is_global then synx_alloc_global_handle h0
              else '(rc, h) ← synx_alloc_local_handle;
                   mret (rc, if rc =? SYNX_SUCCESS then h else h0));
  when is_global (upd_obj p (set_o_global_idx (synx_util_global_idx h))) ;;
  if negb (rc =? SYNX_SUCCESS) then mret (rc, h) else
  array ← kzalloc;
  match array with
  | None => mret (- SYNX_INVALID, h)
  | Some array =>
      fence_call (fun fs => (tt, dma_fence_array_create array fences fs)) ;;
      upd_obj p (fun o => set_o_fence array (set_o_map_count 1
        (set_o_type (Z.lor flags SYNX_CREATE_MERGED_FENCE) (set_o_num_bound 0
        (set_o_refcount 1 (set_o_reg_cbs [] o)))))) ;;
      st ← synx_util_get_object_status p;
      upd_obj p (set_o_status st) ;;
      synx_util_activate p ;;
      mret (rc, h)
  end.

(** ** Clients *)

Definition synx_get_client (session : Z) : M (option Z) :=
  with_lock metadata_map_lock (
    l ← gets d_sessions;
    if bool_decide (session ∈ l) then
      c ← get_cli session;
      if cl_active c then upd_cli session (set_cl_refcount (cl_refcount c + 1)) ;; mret (Some session)
      else mret None
    else mret None).

(** [kref_put(&client->refcount, synx_client_destroy)] *)
Definition synx_put_client (c : Z) : M unit :=
  with_lock metadata_map_lock (
    upd_cli c (fun cl => set_cl_refcount (cl_refcount cl - 1) cl) ;;
    cl ← get_cli c;
    when (cl_refcount cl =? 0) (
      modify (fun d => set_d_sessions (List.filter (fun c' => negb (c' =? c)) (d_sessions d)) d) ;;
      queue_cleanup (WCli c))).

(** ** Handles of a client *)

(** The first handle of the map with the key that satisfies [q]. *)
Fixpoint find_handle (key : Z) (q : synx_handle_coredata -> bool) (l : list Z) : M (option Z) :=
  match l with
  | [] => mret None
  | h :: l =>
      d ← get_hdl h;
      if (h_key d =? key) && q d then mret (Some h) else find_handle key q l
  end.

Definition synx_util_acquire_handle (c h_synx : Z) : M (option Z) :=
  with_lock (handle_map_lock c) (
    cl ← get_cli c;
    r ← find_handle h_synx (fun d => negb (h_rel_count d =? 0)) (cl_handle_map cl);
    match r with
    | Some h => upd_hdl h (fun d => set_h_refcount (h_refcount d + 1) d) ;; mret (Some h)
    | None => mret None
    end).

(** [synx_util_obtain_object]: [NULL] for an invalid handle. *)
Definition synx_util_obtain_object (h : option Z) : M (option Z) :=
  match h with
  | None => mret None
  | Some h => d ← get_hdl h; mret (Some (h_obj d))
  end.

(** [kref_put(&synx_data->refcount, synx_util_destroy_handle)] *)
Definition put_handle (h : Z) : M unit :=
  upd_hdl h (fun d => set_h_refcount (h_refcount d - 1) d) ;;
  d ← get_hdl h;
  when (h_refcount d =? 0) (
    upd_cli (h_client d)
      (fun cl => set_cl_handle_map (List.filter (fun h' => negb (h' =? h)) (cl_handle_map cl)) cl) ;;
    queue_cleanup (WHdl h)).

Definition synx_util_release_handle (h : option Z) : M unit :=
  match h with
  | None => mret tt
  | Some h => d ← get_hdl h; with_lock (handle_map_lock (h_client d)) (put_handle h)
  end.

Definition synx_util_init_handle (c p new_h_synx e : Z) : M Z :=
  a ← kzalloc;
  match a with
  | None => mret (- SYNX_NOMEM)
  | Some h =>
      with_lock (handle_map_lock c) (
        cl ← get_cli c;
        r ← find_handle new_h_synx (fun _ => true) (cl_handle_map cl);
        match r with
        | Some curr =>
            d ← get_hdl curr;
            if negb (h_obj d =? p) then mret (- SYNX_INVALID) else
            upd_hdl curr (fun d => set_h_rel_count (u32 (h_rel_count d + 1))
              (set_h_refcount (h_refcount d + 1) d)) ;;
            mret SYNX_SUCCESS
        | None =>
            new_hdl h (mk_hdl c p e 1 new_h_synx 1) ;;
            upd_cli c (set_cl_handle_map (h :: cl_handle_map cl)) ;;
            mret SYNX_SUCCESS
        end)
  end.

(** ** Map entries *)

(** The map of a handle and its lock. *)
Definition map_lock (h_synx : Z) : synx_lock :=
  if synx_util_is_global_handle h_synx then global_map_lock else local_map_lock.
Definition map_entries (h_synx : Z) (d : dev) : list Z :=
  if synx_util_is_global_handle h_synx then d_global_map d else d_local_map d.
Definition set_map_entries (h_synx : Z) (l : list Z) (d : dev) : dev :=
  if synx_util_is_global_handle h_synx then set_d_global_map l d else set_d_local_map l d.

Definition synx_util_insert_to_map (p h_synx flags : Z) : M (option Z) :=
  a ← kzalloc;
  match a with
  | None => mret None
  | Some e =>
      new_ent e (mk_ent p 1 flags h_synx) ;;
      with_lock (map_lock h_synx)
        (modify (fun d => set_map_entries h_synx (e :: map_entries h_synx d) d)) ;;
      mret (Some e)
  end.

Fixpoint find_entry (key : Z) (l : list Z) : M (option Z) :=
  match l with
  | [] => mret None
  | e :: l => m ← get_ent e; if m_key m =? key then mret (Some e) else find_entry key l
  end.

Definition synx_util_get_map_entry (h_synx : Z) : M (option Z) :=
  if h_synx =? 0 then mret None else
  with_lock (map_lock h_synx) (
    l ← gets (map_entries h_synx);
    r ← find_entry h_synx l;
    match r with
    | Some e => upd_ent e (fun m => set_m_refcount (m_refcount m + 1) m) ;; mret (Some e)
    | None => mret None
    end).

(** [kref_put(&map_entry->refcount, synx_util_destroy_map_entry)] *)
Definition synx_util_release_map_entry (e : Z) : M unit :=
  m ← get_ent e;
  with_lock (map_lock (m_key m)) (
    upd_ent e (fun m => set_m_refcount (m_refcount m - 1) m) ;;
    m ← get_ent e;
    when (m_refcount m =? 0) (
      modify (fun d => set_map_entries (m_key m)
        (List.filter (fun e' => negb (e' =? e)) (map_entries (m_key m) d)) d) ;;
      queue_cleanup (WEnt e))).

Definition synx_util_destroy_handle_worker (h : Z) : M unit :=
  d ← get_hdl h;
  synx_util_release_map_entry (h_ent d) ;;
  free_hdl h.

(** ** Signalling the fence of an object *)

(** [synx_native_signal_fence] (of [synx.c]) *)
Definition synx_native_signal_fence (p status : Z) : M Z :=
  o ← get_obj p;
  if o_fence o =? 0 then mret (- SYNX_INVALID) else
  if status <=? SYNX_STATE_ACTIVE then mret (- SYNX_INVALID) else
  if synx_util_is_merged_object o then mret (- SYNX_INVALID) else
  st ← synx_util_get_object_status p;
  if negb (st =? SYNX_STATE_ACTIVE) then mret (- SYNX_ALREADY) else
  match o_signal_cb o with
  | None => mret (- SYNX_INVALID)
  | Some s =>
      get_sig s ;;
      removed ← with_lock (fence_lock (o_fence o)) (fence_call (dma_fence_remove_callback (o_fence o) s));
      if negb removed then mret (- SYNX_INVALID) else
      free_sig s ;;
      upd_obj p (set_o_signal_cb None) ;;
      synx_util_put_object p ;;
      with_lock (fence_lock (o_fence o)) (
        st ← synx_util_get_object_status_locked p;
        if negb (st =? SYNX_STATE_ACTIVE) then mret (- SYNX_ALREADY) else
        upd_obj p (set_o_status status) ;;
        let status := if status >=? SYNX_DMA_FENCE_STATE_MAX then SYNX_DMA_FENCE_STATE_MAX - 1 else status in
        when (negb (status =? SYNX_STATE_SIGNALED_SUCCESS)) (fence_set_error (o_fence o) (- status)) ;;
        fence_signal_locked (o_fence o))
  end.

(** The reference of the detached [signal_cb] moves to the global index. *)
Definition detach_signal_cb (p s : Z) : M unit :=
  o ← get_obj p;
  with_lock (fence_lock (o_fence o)) (
    st ← synx_util_get_object_status_locked p;
    when (st =? SYNX_STATE_ACTIVE) (
      upd_sig s (set_s_obj None) ;;
      '(_, h) ← global (synx_global_fetch_handle_details (o_global_idx o));
      upd_sig s (set_s_handle (default 0 h)) ;;
      upd_obj p (set_o_signal_cb None) ;;
      synx_util_put_object p ;;
      global (synx_global_get_ref (o_global_idx o)) ;;
      mret tt)).

Definition synx_util_cleanup_fence (p : Z) : M unit :=
  with_lock (obj_lock p) (
    upd_obj p (fun o => set_o_map_count (u32 (o_map_count o - 1)) o) ;;
    o ← get_obj p;
    f_status ← synx_util_get_object_status p;
    match o_signal_cb o with
    | None => mret tt
    | Some s =>
        if negb (o_map_count o =? 0) || negb (f_status =? SYNX_STATE_ACTIVE) then mret tt else
        if negb (o_global_idx o =? 0) then
          g_status ← global (synx_global_get_status (o_global_idx o));
          if g_status >? SYNX_STATE_ACTIVE
          then synx_native_signal_fence p g_status ;; mret tt
          else detach_signal_cb p s
        else
          get_sig s ;;
          removed ← with_lock (fence_lock (o_fence o))
                      (fence_call (dma_fence_remove_callback (o_fence o) s));
          when removed (
            free_sig s ;;
            upd_obj p (set_o_signal_cb None) ;;
            synx_util_put_object p)
    end).

Definition synx_util_destroy_map_entry_worker (e : Z) : M unit :=
  m ← get_ent e;
  synx_util_cleanup_fence (m_obj m) ;;
  synx_util_put_object (m_obj m) ;;
  when (negb (synx_util_is_global_handle (m_key m))) (clear_local_bit (synx_util_global_idx (m_key m))) ;;
  free_ent e.

(** ** Merging: the fences of the constituents *)

(** The fences that an object stands for. *)
Definition object_fences (p : Z) : M (list Z) :=
  o ← get_obj p;
  array ← gets (fun d => to_dma_fence_array (d_fences d) (o_fence o));
  mret (match array with Some fs => fs | None => [o_fence o] end).

Definition synx_util_get_references (p : Z) : M Z :=
  fs ← object_fences p; for_each fs fence_get ;; mret (zlen fs).

Definition synx_util_put_references (p : Z) : M unit :=
  fs ← object_fences p; for_each fs fence_put.

Definition synx_util_add_fence (p : Z) (fences : list Z) : M (list Z) :=
  fs ← object_fences p; mret (fences ++ fs).

Definition synx_util_remove_duplicates (arr : list Z) : M (Z * list Z) :=
  let '(n, kept, dropped) := remove_duplicates arr in
  for_each dropped fence_put ;; mret (n, kept).

Definition merge_error_round (c h_synx : Z) : M unit :=
  h ← synx_util_acquire_handle c h_synx;
  p ← synx_util_obtain_object h;
  match p with
  | None => mret tt
  | Some p =>
      o ← get_obj p;
      if o_fence o =? 0 then mret tt else
      synx_util_put_references p ;; synx_util_release_handle h
  end.

(** The first [num_objs] handles; beyond [h_synxs] it reads out of bounds. *)
Definition synx_util_merge_error (c : Z) (h_synxs : list Z) (num_objs : Z) : M unit :=
  guard (num_objs <=? zlen h_synxs) ;;
  for_each (take (Z.to_nat num_objs) h_synxs) (merge_error_round c).

(** The first loop of [synx_util_validate_merge]: the handles and objects that
    were acquired, the number of fences, and whether all were valid. *)
Fixpoint validate_loop (c : Z) (h_synxs : list Z) (acc : list (Z * Z)) (count : Z) :
    M (list (Z * Z) * Z * bool) :=
  match h_synxs with
  | [] => mret (acc, count, true)
  | h_synx :: h_synxs =>
      h ← synx_util_acquire_handle c h_synx;
      p ← synx_util_obtain_object h;
      match h, p with
      | Some h, Some p =>
          o ← get_obj p;
          if o_fence o =? 0 then mret (acc, count, false) else
          n ← synx_util_get_references p;
          validate_loop c h_synxs (acc ++ [(h, p)]) (count + n)
      | _, _ => mret (acc, count, false)
      end
  end.

Fixpoint gather_loop (l : list (Z * Z)) (fences : list Z) : M (list Z) :=
  match l with
  | [] => mret fences
  | (h, p) :: l =>
      fences ← synx_util_add_fence p fences;
      synx_util_release_handle (Some h) ;;
      gather_loop l fences
  end.

(** Returns the code, [*fence_list] and [*fence_cnt]. *)
Definition synx_util_validate_merge (c : Z) (h_synxs : list Z) : M (Z * list Z * Z) :=
  if zlen h_synxs <=? 1 then mret (- SYNX_INVALID, [], 0) else
  datas ← kzalloc;
  match datas with
  | None => mret (- SYNX_NOMEM, [], 0)
  | Some _ =>
      objs ← kzalloc;
      match objs with
      | None => mret (- SYNX_NOMEM, [], 0)
      | Some _ =>
          '(l, count, ok) ← validate_loop c h_synxs [] 0;
          fences ← (if (ok : bool) then kzalloc else mret (None : option Z));
          match fences with
          | None =>
              for_each l (fun hp => synx_util_put_references hp.2 ;; synx_util_release_handle (Some hp.1)) ;;
              mret (- SYNX_INVALID, [], 0)
          | Some _ =>
              fences ← gather_loop l [];
              '(n, fences) ← synx_util_remove_duplicates fences;
              mret (0, fences, n)
          end
      end
  end.

(** ** Callback entries of a client *)

Definition zero_kcb : synx_client_cb := mk_kcb false 0 None 0 0 0 None.

(** Returns the code and [*cb_idx]. *)
Definition synx_util_alloc_cb_entry (c h_synx data : Z) (func : user_callback) : M (Z * Z) :=
  cl ← get_cli c;
  let '(idx, bits) := synx_util_get_free_handle (cl_cb_bitmap cl) SYNX_MAX_OBJS in
  upd_cli c (set_cl_cb_bitmap bits) ;;
  if idx >=? SYNX_MAX_OBJS then mret (- SYNX_NOMEM, 0) else
  upd_cli c (fun cl => set_cl_cb_table
    (zupd (cl_cb_table cl) idx (mk_kcb true idx (Some c) h_synx 0 data (Some func))) cl) ;;
  mret (0, idx).

(** [cb] is the entry [i] of the table. *)
Definition synx_util_clear_cb_entry (c i : Z) : M Z :=
  cl ← get_cli c;
  cb ← deref (cl_cb_table cl !! Z.to_nat i);
  let idx := k_idx cb in
  upd_cli c (set_cl_cb_table (zupd (cl_cb_table cl) i zero_kcb)) ;;
  if truthy idx && (idx <? SYNX_MAX_OBJS) then
    upd_cli c (fun cl => set_cl_cb_bitmap (cl_cb_bitmap cl ∖ {[idx]}) cl) ;; mret 0
  else mret (- SYNX_INVALID).

(** [data] is the entry [i] of the table of client [c]. *)
Definition synx_util_default_user_callback (c i status : Z) : M unit :=
  cl ← get_cli c;
  cb ← deref (cl_cb_table cl !! Z.to_nat i);
  match k_client cb with
  | None => mret tt
  | Some client =>
      upd_cli c (fun cl => set_cl_cb_table (zupd (cl_cb_table cl) i (set_k_status status cb)) cl) ;;
      with_lock (event_q_lock client)
        (upd_cli client (fun cl => set_cl_event_q (cl_event_q cl ++ [i]) cl))
  end.

(** The part of [synx_util_cb_dispatch] with a client. *)
Definition cb_dispatch_client (client c : Z) : M unit :=
  cb ← get_cb c;
  if (c_idx cb =? 0) || (c_idx cb >=? SYNX_MAX_OBJS) then mret tt else
  let status := c_status cb in
  cl ← get_cli client;
  kcb ← deref (cl_cb_table cl !! Z.to_nat (c_idx cb));
  if negb (k_valid kcb) then mret tt else
  func ← deref (k_func kcb);
  match func with
  | synx_util_default_user_callback_ptr =>
      synx_util_default_user_callback client (c_idx cb) status
  | kernel_callback f =>
      synx_util_clear_cb_entry client (c_idx cb) ;;
      emit (UserCallback c f (k_h_synx kcb) status (k_data kcb))
  end.

Definition synx_util_cb_dispatch (c : Z) : M unit :=
  cb ← get_cb c;
  client ← synx_get_client (c_session cb);
  match client with
  | None => mret tt
  | Some client => cb_dispatch_client client c ;; synx_put_client client
  end ;;
  free_cb c.

(** ** Clean-up of a client *)

(** [j = kref_read(&curr->refcount); while (j--) kref_put(..)] *)
Definition drop_handle (h : Z) : M unit :=
  d ← get_hdl h;
  for_each (replicate (Z.to_nat (h_refcount d)) h) put_handle.

Definition synx_client_cleanup (c : Z) : M unit :=
  cl ← get_cli c;
  for_each (cl_handle_map cl) drop_handle ;;
  free_cli c.

(** [synx_get_child_coredata]: the objects of the children of a fence array. *)
Fixpoint child_loop (fs : list Z) (acc : list Z) : M (Z * list Z) :=
  match fs with
  | [] => mret (SYNX_SUCCESS, acc)
  | f :: fs =>
      h_child ← synx_util_get_fence_entry f 1;
      e ← synx_util_get_map_entry h_child;
      match e with
      | None => mret (- SYNX_NOENT, [])
      | Some e =>
          m ← get_ent e;
          synx_util_release_map_entry e ;;
          child_loop fs (acc ++ [m_obj m])
      end
  end.

Definition synx_get_child_coredata (p : Z) : M (Z * list Z) :=
  o ← get_obj p;
  array ← gets (fun d => to_dma_fence_array (d_fences d) (o_fence o));
  match array with
  | None => mret (SYNX_SUCCESS, [])
  | Some fs =>
      a ← kzalloc;
      match a with
      | None => mret (- SYNX_NOMEM, [])
      | Some _ => child_loop fs []
      end
  end.

Definition synx_util_map_client_id_to_core (id : Z) : Z :=
  if id =? 0 then SYNX_CORE_APSS
  else if id =? 12 then SYNX_CORE_ICP
  else if id =? 8 then SYNX_CORE_EVA
  else if id =? 9 then SYNX_CORE_IRIS
  else if id =? 10 then SYNX_CORE_NSP
  else SYNX_CORE_MAX.

End operations.
