(* ===== verification/SynxClient.v ===== *)
(** * The synx client framework: the interface of the driver ([synx.c])

    Creating, signalling, waiting for, merging and importing fence objects,
    sessions, and the handlers of work queues, timers and messages. A session is
    the address of its client. *)

From S2P Require Import Prelude SynxGlobal SynxSignal SynxDev SynxUtil.

Section operations.
Context `{F : DmaFence} `{E : SynxEnv} `{C : SynxClientEnv}.

Abbreviation M := (run dev).

(** ** Release *)

Definition synx_native_release_core (c h_synx : Z) : M Z :=
  h ← with_lock (handle_map_lock c) (
        cl ← get_cli c;
        r ← find_handle h_synx (fun d => negb (h_rel_count d =? 0)) (cl_handle_map cl);
        match r with
        | Some h => upd_hdl h (fun d => set_h_rel_count (u32 (h_rel_count d - 1)) d) ;; mret (Some h)
        | None => mret None
        end);
  synx_util_release_handle h ;;
  mret (match h with Some _ => SYNX_SUCCESS | None => - SYNX_INVALID end).

(** [client = synx_get_client(session); if (IS_ERR_OR_NULL(client)) return fail;
    ..; synx_put_client(client)] *)
Definition with_session {A} (session : Z) (fail : A) (body : Z -> M A) : M A :=
  client ← synx_get_client session;
  match client with
  | None => mret fail
  | Some c => a ← body c; synx_put_client c ;; mret a
  end.

(** [synx_data = synx_util_acquire_handle(..); synx_obj =
    synx_util_obtain_object(synx_data); ..; fail: synx_util_release_handle(..)] *)
Definition with_object {A} (c h_synx : Z) (fail : A) (body : Z -> M A) : M A :=
  h ← synx_util_acquire_handle c h_synx;
  p ← synx_util_obtain_object h;
  a ← (match p with None => mret fail | Some p => body p end);
  synx_util_release_handle h ;;
  mret a.

Definition synx_release (session h_synx : Z) : M Z :=
  with_session session (- SYNX_INVALID) (fun c => synx_native_release_core c h_synx).

Definition synx_get_fence (session h_synx : Z) : M (option Z) :=
  with_session session None (fun c =>
    with_object c h_synx None (fun p =>
      o ← get_obj p;
      if o_fence o =? 0 then mret None else
      with_lock (obj_lock p) (fence_get (o_fence o)) ;;
      mret (Some (o_fence o)))).

(** ** External fences *)

(** [synx_bind]; the code 0 of an unknown handle is that of the source. *)
Definition synx_bind (session h_synx ext_id ext_type : Z) : M Z :=
  with_session session (- SYNX_INVALID) (fun c =>
    with_object c h_synx 0 (fun p =>
      ok ← synx_util_get_bind_ops ext_type;
      if negb ok then mret (- SYNX_INVALID) else
      lock (obj_lock p) ;;
      let release rc := unlock (obj_lock p) ;; mret rc in
      o ← get_obj p;
      if synx_util_is_merged_object o then release (- SYNX_INVALID) else
      if o_num_bound o >=? SYNX_MAX_NUM_BINDINGS then release (- SYNX_NOMEM) else
      if existsb (fun b => (b_id b =? ext_id) && (b_type b =? ext_type))
           (take (Z.to_nat (o_num_bound o)) (o_bound o)) then release (- SYNX_ALREADY) else
      a ← kzalloc;
      match a with
      | None => release (- SYNX_NOMEM)
      | Some s =>
          synx_util_get_object p ;;
          new_sig s (mk_sig h_synx 0 0 (Some p) 0) ;;
          let bound_idx := o_num_bound o in
          upd_obj p (fun o => set_o_num_bound (o_num_bound o + 1)
            (set_o_bound (zupd (o_bound o) bound_idx (mk_bind ext_id ext_type s)) o)) ;;
          unlock (obj_lock p) ;;
          rc ← ext_call (ExtRegister ext_id s) (fun n => ext_register_callback n ext_id);
          if truthy rc then
            with_lock (obj_lock p) (
              upd_obj p (fun o => set_o_num_bound (o_num_bound o - 1)
                (set_o_bound (zupd (o_bound o) bound_idx
                   (mk_bind 0 0 (b_data (znth (mk_bind 0 0 0) (o_bound o) bound_idx)))) o))) ;;
            synx_util_put_object p ;;
            free_sig s ;;
            mret rc
          else mret SYNX_SUCCESS
      end)).

(** The first loop of [synx_native_signal_core]: the descriptors to signal. *)
Fixpoint collect_binds (l : list bind_desc) (cb_signal : bool) (ext_sync_id : Z) : M (list bind_desc) :=
  match l with
  | [] => mret []
  | b :: l =>
      if cb_signal && (ext_sync_id =? b_id b) then
        synx_util_remove_data (u32 ext_sync_id) (b_type b) ;;
        collect_binds l cb_signal ext_sync_id
      else r ← collect_binds l cb_signal ext_sync_id; mret (b :: r)
  end.

Definition free_data (data : Z) : M unit := if data =? 0 then mret tt else free_sig data.

Definition signal_bind (status : Z) (b : bind_desc) : M unit :=
  ok ← synx_util_get_bind_ops (b_type b);
  if negb ok then free_data (b_data b) else
  synx_util_remove_data (u32 (b_id b)) (b_type b) ;;
  ret ← ext_call (ExtDeregister (b_id b) (b_data b)) (fun n => ext_deregister_callback n (b_id b));
  if ret <? 0 then mret tt else
  (match ext_enable_signaling with
   | Some f => ext_call (ExtEnable (b_id b)) (fun n => f n (b_id b)) ;; mret tt
   | None => mret tt
   end) ;;
  ext_call (ExtSignal (b_id b) status) (fun n => ext_signal n (b_id b) status) ;;
  free_data (b_data b).

Definition zero_binds : list bind_desc := replicate (Z.to_nat SYNX_MAX_NUM_BINDINGS) (mk_bind 0 0 0).

Definition synx_native_signal_core (p status : Z) (cb_signal : bool) (ext_sync_id : Z) : M Z :=
  synx_util_callback_dispatch p status ;;
  o ← get_obj p;
  binds ← (if o_num_bound o >? 0 then
             r ← collect_binds (take (Z.to_nat (o_num_bound o)) (o_bound o)) cb_signal ext_sync_id;
             upd_obj p (fun o => set_o_num_bound 0
               (set_o_bound (take (Z.to_nat (o_num_bound o)) zero_binds
                             ++ drop (Z.to_nat (o_num_bound o)) (o_bound o)) o)) ;;
             mret r
           else mret []);
  for_each binds (signal_bind status) ;;
  mret 0.

(** ** Creation *)

(** [synx_native_check_bind]: the code and [*params->h_synx]. *)
Definition synx_native_check_bind (c fence flags h0 : Z) : M (Z * Z) :=
  ext ← synx_util_retrieve_data fence (synx_util_map_params_to_type flags);
  match ext with
  | None => mret (- SYNX_NOENT, h0)
  | Some h_synx =>
      synx_util_remove_data fence (synx_util_map_params_to_type flags) ;;
      e ← synx_util_get_map_entry h_synx;
      match e with
      | None => mret (- SYNX_NOENT, h0)
      | Some e =>
          m ← get_ent e;
          rc ← synx_util_init_handle c (m_obj m) h_synx e;
          if negb (rc =? SYNX_SUCCESS)
          then synx_util_release_map_entry e ;; mret (rc, h0)
          else mret (SYNX_SUCCESS, h_synx)
      end
  end.

Definition zero_obj : synx_coredata := mk_obj 0 0 0 0 0 zero_binds [] 0 0 None.

(** The code and [*params->h_synx]. *)
Definition synx_native_create_core (c : Z) (params : synx_create_params) : M (Z * Z) :=
  a ← kzalloc;
  match a with
  | None => mret (- SYNX_NOMEM, cp_h_synx params)
  | Some p =>
      new_obj p zero_obj ;;
      '(rc, h) ← synx_util_init_coredata p params;
      if truthy rc then free_obj p ;; mret (rc, h) else
      e ← synx_util_insert_to_map p h 0;
      match e with
      | None => synx_util_put_object p ;; mret (- SYNX_NOMEM, h)
      | Some e =>
          rc ← synx_util_add_callback p h;
          if negb (rc =? SYNX_SUCCESS) then synx_util_release_map_entry e ;; mret (rc, h) else
          rc ← synx_util_init_handle c p h e;
          if rc <? 0 then synx_util_release_map_entry e ;; mret (rc, h)
          else mret (SYNX_SUCCESS, h)
      end
  end.

(** The [do .. while (true)] loop of [synx_create]; [fuel] bounds its rounds. *)
Fixpoint create_loop (fuel : nat) (session c : Z) (fence : option Z) (flags h : Z) : M (Z * Z) :=
  match fuel with
  | O => block
  | S fuel =>
      '(rc, h) ← (match fence with
                  | Some f => synx_native_check_bind c f flags h
                  | None => mret (- SYNX_NOENT, h)
                  end);
      if negb (rc =? - SYNX_NOENT) then mret (rc, h) else
      '(rc, h) ← synx_native_create_core c (mk_params h 0 flags);
      match fence with
      | Some f =>
          if negb (rc =? SYNX_SUCCESS) then mret (rc, h) else
          rc ← synx_util_save_data f flags h;
          if rc =? - SYNX_ALREADY then
            synx_native_release_core c h ;;
            create_loop fuel session c fence flags 0
          else if negb (rc =? SYNX_SUCCESS) then
            synx_native_release_core c h ;; mret (rc, h)
          else
            rc ← synx_bind session h (u32 f) (synx_util_map_params_to_type flags);
            if negb (rc =? SYNX_SUCCESS) then synx_native_release_core c h ;; mret (rc, h)
            else mret (rc, h)
      | None => mret (rc, h)
      end
  end.

(** [fence] is the value behind the pointer to an external fence, if any; the
    result is the code and [*params->h_synx], whose value before is [h0]. *)
Definition synx_create (fuel : nat) (session : Z) (fence : option Z) (flags h0 : Z) : M (Z * Z) :=
  if flags >? SYNX_CREATE_MAX_FLAGS then mret (- SYNX_INVALID, h0) else
  if truthy (Z.land flags SYNX_CREATE_DMA_FENCE) then mret (- SYNX_NOSUPPORT, h0) else
  with_session session (- SYNX_INVALID, h0) (fun c => create_loop fuel session c fence flags 0).

(** ** Signalling *)

(** One child, locked; [None] is [continue]. *)
Definition signal_child (child : Z) : M (option Z) :=
  with_lock (obj_lock child) (
    o ← get_obj child;
    st ← with_lock (fence_lock (o_fence o)) (synx_util_get_object_status_locked child);
    if negb (st =? SYNX_STATE_ACTIVE) || negb (synx_util_is_global_object o) then mret None else
    status ← global (synx_global_get_status (o_global_idx o));
    rc ← synx_native_signal_fence child status;
    mret (Some rc)).

Fixpoint signal_children (l : list Z) (rc : Z) : M Z :=
  match l with
  | [] => mret rc
  | child :: l =>
      o ← get_obj child;
      if o_fence o =? 0 then mret (- SYNX_NOENT) else
      r ← signal_child child;
      signal_children l (default rc r)
  end.

(** The [status] of the caller is not used. *)
Definition synx_native_signal_merged_fence (p : Z) : M Z :=
  '(rc, children) ← synx_get_child_coredata p;
  if negb (rc =? SYNX_SUCCESS) then mret rc else
  signal_children children SYNX_SUCCESS.

(** The loop of [synx_get_child_status]; [false] is [goto bail]. *)
Fixpoint child_status_loop (fs : list Z) (status child_status : Z) : M Z :=
  match fs with
  | [] => mret status
  | f :: fs =>
      h_child ← synx_util_get_fence_entry f 1;
      h_child ← (if h_child =? 0 then synx_util_get_fence_entry f 0 else mret h_child);
      if h_child =? 0 then child_status_loop fs status child_status else
      e ← synx_util_get_map_entry h_child;
      match e with
      | None => mret status
      | Some e =>
          m ← get_ent e;
          let child := m_obj m in
          child_status ← with_lock (obj_lock child) (
            o ← get_obj child;
            if synx_util_is_global_object o
            then global (synx_global_get_status (o_global_idx o))
            else mret (o_status o));
          synx_util_release_map_entry e ;;
          let status :=
            if negb (child_status =? SYNX_STATE_ACTIVE) &&
               ((status =? SYNX_DMA_FENCE_STATE_MAX - 1) ||
                ((child_status >? SYNX_STATE_SIGNALED_SUCCESS) &&
                 (child_status <=? SYNX_STATE_SIGNALED_MAX)))
            then child_status else status in
          child_status_loop fs status child_status
      end
  end.

Definition synx_get_child_status (p : Z) : M Z :=
  o ← get_obj p;
  array ← gets (fun d => to_dma_fence_array (d_fences d) (o_fence o));
  match array with
  | None => mret (SYNX_DMA_FENCE_STATE_MAX - 1)
  | Some fs => child_status_loop fs (SYNX_DMA_FENCE_STATE_MAX - 1) SYNX_STATE_ACTIVE
  end.

Definition synx_custom_get_status (p : option Z) (status : Z) : M Z :=
  match p with
  | None => mret status
  | Some p =>
      o ← get_obj p;
      parent_global_status ← (if synx_util_is_global_object o
                              then global (synx_global_get_status (o_global_idx o))
                              else mret SYNX_STATE_ACTIVE);
      with_lock (obj_lock p) (
        when (synx_util_is_merged_object o) (
          st ← (if parent_global_status =? SYNX_STATE_ACTIVE then synx_get_child_status p
                else mret parent_global_status);
          upd_obj p (set_o_status st)) ;;
        o ← get_obj p;
        mret (o_status o))
  end.

(** The update of the global table for a fence that was signalled; [None] is the
    case of no update. *)
Definition handler_global (s : synx_signal_cb) (status : Z) : M Z :=
  is_global ← (match s_obj s with
               | None => mret false
               | Some p => o ← get_obj p; mret (synx_util_is_global_object o)
               end);
  if negb (truthy (Z.land (s_flag s) SYNX_SIGNAL_FROM_FENCE)) ||
     negb (synx_util_is_global_handle (s_handle s) || is_global) then mret SYNX_SUCCESS else
  idx ← (match s_obj s with
         | None => mret (synx_util_global_idx (s_handle s))
         | Some p => o ← get_obj p; mret (o_global_idx o)
         end);
  st ← global (synx_global_get_status idx);
  rc ← (if st =? SYNX_STATE_ACTIVE then global_update_status idx status else mret SYNX_SUCCESS);
  when (match s_obj s with None => true | Some _ => false end)
    (global (fun g => (tt, synx_global_put_ref idx g))) ;;
  mret rc.

(** The part of [synx_signal_handler] under the lock of the object. *)
Definition handler_locked (p : Z) (s : synx_signal_cb) (status : Z) : M Z :=
  with_lock (obj_lock p) (
    st ← synx_util_get_object_status p;
    rc ← (if truthy (Z.land (s_flag s) SYNX_SIGNAL_FROM_IPC) && (st =? SYNX_STATE_ACTIVE) then
            o ← get_obj p;
            if synx_util_is_merged_object o then synx_native_signal_merged_fence p
            else synx_native_signal_fence p status
          else mret SYNX_SUCCESS);
    if negb (rc =? SYNX_SUCCESS) then mret rc else
    st ← synx_util_get_object_status p;
    if negb (st =? SYNX_STATE_ACTIVE) then
      synx_native_signal_core p status
        (truthy (Z.land (s_flag s) SYNX_SIGNAL_FROM_CALLBACK)) (s_ext_sync_id s)
    else mret rc).

Definition synx_signal_handler (sp : Z) : M unit :=
  s ← get_sig sp;
  status ← (if truthy (Z.land (s_flag s) SYNX_SIGNAL_FROM_FENCE)
            then synx_custom_get_status (s_obj s) (s_status s) else mret (s_status s));
  rc ← handler_global s status;
  match s_obj s with
  | None => free_sig sp
  | Some p =>
      when (rc =? SYNX_SUCCESS) (handler_locked p s status ;; mret tt) ;;
      synx_util_put_object p ;;
      free_sig sp
  end.

(** [status] is converted from [int], [sync_obj] from [s32] to [u64]. *)
Definition synx_external_callback (sync_obj status data : Z) : M unit :=
  if data =? 0 then mret tt else
  upd_sig data (fun s => set_s_flag SYNX_SIGNAL_FROM_CALLBACK
    (set_s_ext_sync_id (u64 sync_obj) (set_s_status (u32 status) s))) ;;
  synx_signal_handler data.

Definition synx_signal_offload_job (p h_synx status : Z) : M Z :=
  a ← kzalloc;
  match a with
  | None => mret (- SYNX_NOMEM)
  | Some s =>
      synx_util_get_object p ;;
      new_sig s (mk_sig h_synx status 0 (Some p) SYNX_SIGNAL_FROM_CLIENT) ;;
      queue_cb (WSignal s) ;;
      mret SYNX_SUCCESS
  end.

(** The statuses that a client may signal. *)
Definition client_status (status : Z) : bool :=
  negb (status <=? SYNX_STATE_ACTIVE) &&
  ((status =? SYNX_STATE_SIGNALED_SUCCESS) || (status =? SYNX_STATE_SIGNALED_CANCEL) ||
   (status >? SYNX_STATE_SIGNALED_MAX)).

(** The part of [synx_signal] under the lock of the object. *)
Definition signal_locked (p h_synx status : Z) : M Z :=
  with_lock (obj_lock p) (
    o ← get_obj p;
    rc ← (if synx_util_is_global_handle h_synx || synx_util_is_global_object o
          then global_update_status (o_global_idx o) status else mret SYNX_SUCCESS);
    if negb (rc =? SYNX_SUCCESS) then mret rc else
    when (negb (o_num_bound o =? 0) || negb (bool_decide (o_reg_cbs o = [])))
      (synx_signal_offload_job p h_synx status ;; mret tt) ;;
    synx_native_signal_fence p status).

Definition synx_signal (session h_synx status : Z) : M Z :=
  with_session session (- SYNX_INVALID) (fun c =>
    if negb (client_status status) then mret (- SYNX_INVALID) else
    with_object c h_synx (- SYNX_INVALID) (fun p =>
      o ← get_obj p;
      if o_fence o =? 0 then mret (- SYNX_INVALID) else signal_locked p h_synx status)).

(** ** Waiting *)

(** [if (status != ACTIVE) signal the fence], after the global table was asked. *)
Definition signal_settled (p status : Z) : M unit :=
  if status =? SYNX_STATE_ACTIVE then mret tt else
  o ← get_obj p;
  if synx_util_is_merged_object o then synx_native_signal_merged_fence p ;; mret tt
  else synx_native_signal_fence p status ;; mret tt.

Definition synx_wait (session h_synx timeout_ms : Z) : M Z :=
  with_session session (- SYNX_INVALID) (fun c =>
    with_object c h_synx (- SYNX_INVALID) (fun p =>
      o ← get_obj p;
      if o_fence o =? 0 then mret (- SYNX_INVALID) else
      when (synx_util_is_global_handle h_synx) (
        rc ← global (synx_global_test_status_set_wait (synx_util_global_idx h_synx) SYNX_CORE_APSS);
        when (negb (rc =? SYNX_STATE_ACTIVE)) (with_lock (obj_lock p) (signal_settled p rc))) ;;
      timeleft ← gets (fun d => dma_fence_wait_timeout (d_fences d) (o_fence o) timeout_ms);
      if u64 timeleft =? 0 then mret (- ETIMEDOUT) else
      with_lock (obj_lock p) (synx_util_get_object_status p))).

Definition synx_get_status (session h_synx : Z) : M Z :=
  with_session session (- SYNX_INVALID) (fun c =>
    with_object c h_synx (- SYNX_INVALID) (fun p =>
      o ← get_obj p;
      if o_fence o =? 0 then mret (- SYNX_INVALID) else
      with_lock (obj_lock p) (
        synx_util_get_object_status p ;;
        o ← get_obj p;
        mret (o_status o)))).

(** ** User callbacks *)

(** [synx_timer_cb]: neither the reference on the client nor that on the handle
    is released. *)
Definition synx_timer_cb (cp : Z) : M unit :=
  cb ← get_cb cp;
  client ← synx_get_client (c_session cb);
  match client with
  | None => mret tt
  | Some c =>
      h ← synx_util_acquire_handle c (c_h_synx cb);
      p ← synx_util_obtain_object h;
      match p with
      | None => mret tt
      | Some _ =>
          upd_cb cp (set_c_status SYNX_STATE_TIMEOUT) ;;
          del_timer cp ;;
          list_del_cb cp ;;
          queue_cb (WCb cp)
      end
  end.

(** The expiry of the timer of [cp]: it is no longer pending when its function
    runs. *)
Definition timer_expires (cp : Z) : M unit :=
  upd_cb cp (set_c_timer false) ;; synx_timer_cb cp.

(** [mod_timer] returns whether the timer was pending. *)
Definition synx_start_timer (cp : Z) : M Z :=
  upd_cb cp (set_c_timer false) ;;
  cb ← get_cb cp;
  upd_cb cp (set_c_timer true) ;;
  mret (if c_timer cb then 1 else 0).

(** The members of [struct synx_callback_params]. *)
Record synx_callback_params := mk_cbparams {
  w_h_synx : Z;
  w_cb_func : user_callback;
  w_userdata : Z;
  w_timeout_ms : Z;
  w_cancel_cb_func : option user_callback
}.

Definition add_waiter (p cp status : Z) (params : synx_callback_params) : M Z :=
  if status =? SYNX_STATE_ACTIVE then
    upd_cb cp (set_c_timeout (w_timeout_ms params)) ;;
    rc ← (if negb (w_timeout_ms params =? SYNX_NO_TIMEOUT) then synx_start_timer cp else mret 0);
    if negb (rc =? SYNX_SUCCESS) then mret rc else
    upd_obj p (fun o => set_o_reg_cbs (cp :: o_reg_cbs o) o) ;; mret rc
  else
    upd_cb cp (set_c_status status) ;;
    queue_cb (WCb cp) ;; mret 0.

(** The part of [synx_async_wait] under the lock of the object. *)
Definition async_wait_locked (session c p : Z) (params : synx_callback_params) : M Z :=
  with_lock (obj_lock p) (
    a ← kzalloc;
    match a with
    | None => mret (- SYNX_NOMEM)
    | Some cp =>
        new_cb cp (mk_cb 0 0 0 0 false 0) ;;
        '(rc, idx) ← synx_util_alloc_cb_entry c (w_h_synx params) (w_userdata params) (w_cb_func params);
        if truthy rc then free_cb cp ;; mret rc else
        o ← get_obj p;
        when (synx_util_is_global_handle (w_h_synx params) || synx_util_is_global_object o) (
          status ← global (synx_global_test_status_set_wait
                             (synx_util_global_idx (w_h_synx params)) SYNX_CORE_APSS);
          signal_settled p status) ;;
        status ← synx_util_get_object_status p;
        upd_cb cp (fun cb => mk_cb session idx (w_h_synx params) (c_status cb) (c_timer cb) (c_timeout cb)) ;;
        add_waiter p cp status params
    end).

Definition synx_async_wait (session : Z) (params : synx_callback_params) : M Z :=
  with_session session (- SYNX_INVALID) (fun c =>
    with_object c (w_h_synx params) (- SYNX_INVALID) (fun p => async_wait_locked session c p params)).

(** The entry after [synx_match_payload] and its result. *)
Definition synx_match_payload (k : synx_client_cb) (params : synx_callback_params) : Z * synx_client_cb :=
  if bool_decide (k_func k = Some (w_cb_func params)) && (k_data k =? w_userdata params) then
    match w_cancel_cb_func params with
    | Some f => (1, set_k_func (Some f) k)
    | None => (2, k)
    end
  else (0, k).

(** One round of the loop of [synx_cancel_async_wait]: whether it matches. *)
Definition cancel_round (session c : Z) (params : synx_callback_params) (cp : Z) : M bool :=
  cb ← get_cb cp;
  if negb (c_session cb =? session) then mret false else
  if (c_idx cb =? 0) || (c_idx cb >=? SYNX_MAX_OBJS) then mret false else
  cl ← get_cli c;
  k ← deref (cl_cb_table cl !! Z.to_nat (c_idx cb));
  let '(ret, k) := synx_match_payload k params in
  upd_cli c (set_cl_cb_table (zupd (cl_cb_table cl) (c_idx cb) k)) ;;
  when (negb (c_timeout cb =? SYNX_NO_TIMEOUT)) (del_timer cp) ;;
  if ret =? 1 then
    list_del_cb cp ;;
    upd_cb cp (set_c_status SYNX_CALLBACK_RESULT_CANCELED) ;;
    queue_cb (WCb cp) ;; mret true
  else if ret =? 2 then
    synx_util_clear_cb_entry c (c_idx cb) ;;
    list_del_cb cp ;;
    free_cb cp ;; mret true
  else mret false.

Fixpoint cancel_loop (session c : Z) (params : synx_callback_params) (l : list Z) (found : bool) : M bool :=
  match l with
  | [] => mret found
  | cp :: l => r ← cancel_round session c params cp; cancel_loop session c params l (found || r)
  end.

Definition cancel_locked (session c p : Z) (params : synx_callback_params) : M Z :=
  with_lock (obj_lock p) (
    o ← get_obj p;
    if synx_util_is_external_object o then mret 0 else
    status ← synx_util_get_object_status p;
    if negb (status =? SYNX_STATE_ACTIVE) then mret (- SYNX_INVALID) else
    found ← cancel_loop session c params (o_reg_cbs o) false;
    mret (if (found : bool) then 0 else - SYNX_INVALID)).

Definition synx_cancel_async_wait (session : Z) (params : synx_callback_params) : M Z :=
  with_session session (- SYNX_INVALID) (fun c =>
    with_object c (w_h_synx params) (- SYNX_INVALID) (fun p => cancel_locked session c p params)).

(** ** Merging *)

(** The handles of the constituents that are global, in order. *)
Fixpoint global_children (fences : list Z) : M (list Z) :=
  match fences with
  | [] => mret []
  | f :: fences =>
      h_child ← synx_util_get_fence_entry f 1;
      r ← global_children fences;
      mret (if synx_util_is_global_handle h_child then h_child :: r else r)
  end.

(** One round of the loop over the constituents of a local merge. *)
Definition merge_child_round (c p h_child : Z) : M unit :=
  status ← global (synx_global_test_status_set_wait (synx_util_global_idx h_child) SYNX_CORE_APSS);
  if status =? SYNX_STATE_ACTIVE then mret tt else
  h ← synx_util_acquire_handle c h_child;
  child ← synx_util_obtain_object h;
  match child with
  | None => mret tt
  | Some child =>
      with_lock (obj_lock child) (
        o ← get_obj p;
        when (o_status o =? SYNX_STATE_ACTIVE) (synx_native_signal_fence child status ;; mret tt)) ;;
      synx_util_release_handle h
  end.

(** The label [clean_up:]. *)
Definition merge_clean_up (c p : Z) (params : synx_merge_params) (count : Z) (e : option Z) : M unit :=
  match e with
  | None =>
      free_obj p ;;
      synx_util_merge_error c (mp_h_synxs params) count
  | Some e => synx_util_release_map_entry e
  end.

(** From [h_child_list = kzalloc(..)] on. *)
Definition merge_children (c p h : Z) (params : synx_merge_params) (fences : list Z) : M Z :=
  let clear rc := synx_native_release_core c h ;; mret rc in
  a ← kzalloc;
  match a with
  | None => clear (- SYNX_NOMEM)
  | Some _ =>
      a ← kzalloc;
      match a with
      | None => clear (- SYNX_NOMEM)
      | Some _ =>
          children ← global_children fences;
          if truthy (Z.land (mp_flags params) SYNX_MERGE_GLOBAL_FENCE) then
            rc ← global (synx_global_merge (map synx_util_global_idx children) (synx_util_global_idx h));
            if negb (rc =? SYNX_SUCCESS) then clear rc else mret SYNX_SUCCESS
          else for_each children (merge_child_round c p) ;; mret SYNX_SUCCESS
      end
  end.

(** The code and [*params->h_merged_obj], whose value before is [h0]. *)
Definition merge_client (c : Z) (params : synx_merge_params) (h0 : Z) : M (Z * Z) :=
  a ← kzalloc;
  match a with
  | None => mret (- SYNX_NOMEM, h0)
  | Some p =>
      new_obj p zero_obj ;;
      '(rc, fences, count) ← synx_util_validate_merge c (mp_h_synxs params);
      if rc <? 0 then free_obj p ;; mret (- SYNX_INVALID, h0) else
      '(rc, h) ← synx_util_init_group_coredata p fences (mp_flags params) h0;
      if truthy rc then merge_clean_up c p params count stack_garbage ;; mret (rc, h) else
      e ← synx_util_insert_to_map p h 0;
      match e with
      | None =>
          o ← get_obj p; fence_put (o_fence o) ;; free_obj p ;; mret (- SYNX_NOMEM, h)
      | Some e =>
          rc ← synx_util_add_callback p h;
          if negb (rc =? SYNX_SUCCESS) then merge_clean_up c p params count (Some e) ;; mret (rc, h) else
          rc ← synx_util_init_handle c p h e;
          if truthy rc then merge_clean_up c p params count (Some e) ;; mret (rc, h) else
          rc ← merge_children c p h params fences;
          mret (rc, h)
      end
  end.

Definition synx_merge (session : Z) (params : synx_merge_params) (h0 : Z) : M (Z * Z) :=
  with_session session (- SYNX_INVALID, h0) (fun c => merge_client c params h0).

(** ** Import *)

(** The part of [synx_handle_conversion] under the lock of the object: the map
    entry of its global handle, and the handle. *)
Definition conversion_locked (p h_synx : Z) : M (option Z * Z) :=
  with_lock (obj_lock p) (
    synx_util_get_object p ;;
    o ← get_obj p;
    if negb (o_global_idx o =? 0) then
      let h := synx_encode_handle (o_global_idx o) SYNX_CORE_APSS true in
      e ← synx_util_get_map_entry h;
      match e with
      | Some e => mret (Some e, h)
      | None => e ← synx_util_insert_to_map p h 0; mret (e, h)
      end
    else
      upd_obj p (fun o => set_o_map_count (u32 (o_map_count o + 1)) o) ;;
      '(rc, h) ← synx_alloc_global_handle h_synx;
      if rc =? SYNX_SUCCESS then
        upd_obj p (fun o => set_o_type (Z.lor (o_type o) SYNX_CREATE_GLOBAL_FENCE)
          (set_o_global_idx (synx_util_global_idx h) o)) ;;
        e ← synx_util_insert_to_map p h 0;
        match e with
        | Some _ => mret (e, h)
        | None => global (fun g => (tt, synx_global_put_ref (synx_util_global_idx h) g)) ;; mret (None, h)
        end
      else mret (None, h)).

Definition synx_handle_conversion (h_synx : Z) (old_entry : option Z) : M (option Z * Z) :=
  old ← (match old_entry with Some e => mret (Some e) | None => synx_util_get_map_entry h_synx end);
  match old with
  | None => mret (None, h_synx)
  | Some old =>
      m ← get_ent old;
      let p := m_obj m in
      '(e, h) ← conversion_locked p h_synx;
      when (match e with None => true | Some _ => false end) (synx_util_put_object p) ;;
      synx_util_release_map_entry old ;;
      mret (e, h)
  end.

(** A handle of the client that can be imported once more: [rel_count++;
    kref_get(..)]. *)
Definition import_mapped (c h_synx : Z) : M bool :=
  with_lock (handle_map_lock c) (
    cl ← get_cli c;
    r ← find_handle h_synx (fun d => negb (h_rel_count d =? 0)) (cl_handle_map cl);
    match r with
    | Some h =>
        upd_hdl h (fun d => set_h_refcount (h_refcount d + 1)
          (set_h_rel_count (u32 (h_rel_count d + 1)) d)) ;;
        mret true
    | None => mret false
    end).

(** [h_synx] is the handle behind [params->fence]; the result is the code and
    [*params->new_h_synx], whose value before is [h0]. *)
Definition synx_native_import_handle (c h_synx flags h0 : Z) : M (Z * Z) :=
  mapped ← (if synx_util_is_global_handle h_synx || truthy (Z.land flags SYNX_IMPORT_LOCAL_FENCE)
            then import_mapped c h_synx
            else with_lock (handle_map_lock c) (mret false));
  if (mapped : bool) then mret (SYNX_SUCCESS, h_synx) else
  e ← synx_util_get_map_entry h_synx;
  match e with
  | None =>
      let core_id := Z.shiftr (Z.land h_synx SYNX_OBJ_CORE_ID_MASK) SYNX_HANDLE_INDEX_BITS in
      if core_id =? SYNX_CORE_APSS then mret (- SYNX_INVALID, h0)
      else if synx_util_is_global_handle h_synx then
        '(rc, h) ← synx_native_create_core c
          (mk_params h_synx 0 (synx_util_map_import_params_to_create flags 0));
        if negb (rc =? SYNX_SUCCESS) then mret (rc, h0) else mret (SYNX_SUCCESS, h)
      else mret (- SYNX_INVALID, h0)
  | Some e =>
      '(e, h) ← (if truthy (Z.land flags SYNX_IMPORT_GLOBAL_FENCE) &&
                    negb (synx_util_is_global_handle h_synx)
                 then synx_handle_conversion h_synx (Some e)
                 else mret (Some e, h_synx));
      e ← deref e;
      m ← get_ent e;
      rc ← synx_util_init_handle c (m_obj m) h e;
      when (negb (rc =? SYNX_SUCCESS)) (synx_util_release_map_entry e) ;;
      mret (rc, h)
  end.

(** The loop that maps the fence of a new object; [curr] is its handle. *)
Fixpoint insert_loop (fuel : nat) (c fence global curr h : Z) : M (Z * Z) :=
  match fuel with
  | O => block
  | S fuel =>
      let entry := if truthy global then mk_fent h 0 fence else mk_fent 0 h fence in
      '(rc, h) ← synx_util_insert_fence_entry entry h global;
      if rc =? SYNX_SUCCESS then mret (rc, h) else
      e ← synx_util_get_map_entry h;
      match e with
      | None => insert_loop fuel c fence global curr curr
      | Some e =>
          m ← get_ent e;
          rc ← synx_util_init_handle c (m_obj m) h e;
          synx_native_release_core c curr ;;
          mret (rc, h)
      end
  end.

(** The code and [*params->new_h_synx]; [fuel] bounds the attempts. *)
Fixpoint synx_native_import_fence (fuel : nat) (c fence flags : Z) : M (Z * Z) :=
  match fuel with
  | O => block
  | S fuel =>
      let is_global := Z.land SYNX_IMPORT_GLOBAL_FENCE flags in
      h ← synx_util_get_fence_entry fence is_global;
      if h =? 0 then
        '(rc, h) ← synx_native_create_core c
          (mk_params h fence (synx_util_map_import_params_to_create flags 0));
        if negb (rc =? SYNX_SUCCESS) then mret (rc, h) else
        a ← kzalloc;
        match a with
        | None => synx_native_release_core c h ;; mret (- SYNX_NOMEM, h)
        | Some _ => insert_loop fuel c fence is_global h h
        end
      else
        mapped ← import_mapped c h;
        if (mapped : bool) then mret (SYNX_SUCCESS, h) else
        '(e, h) ← (if truthy is_global && negb (synx_util_is_global_handle h)
                   then synx_handle_conversion h None
                   else e ← synx_util_get_map_entry h; mret (e, h));
        match e with
        | None => synx_native_import_fence fuel c fence flags
        | Some e =>
            m ← get_ent e;
            rc ← synx_util_init_handle c (m_obj m) h e;
            mret (rc, h)
        end
  end.

(** [struct synx_import_indv_params]: [i_fence] is a fence of the kernel, or the
    handle that [fence] points to, as the flags say. *)
Record synx_import_indv_params := mk_iparams { i_flags : Z; i_fence : Z }.

Definition synx_native_import_indv (fuel : nat) (c : Z) (params : synx_import_indv_params) (h0 : Z) :
    M (Z * Z) :=
  if truthy (Z.land (i_flags params) SYNX_IMPORT_DMA_FENCE) then
    if i_fence params =? 0 then mret (- SYNX_INVALID, h0)
    else synx_native_import_fence fuel c (i_fence params) (i_flags params)
  else if truthy (Z.land (i_flags params) SYNX_IMPORT_SYNX_FENCE) then
    synx_native_import_handle c (i_fence params) (i_flags params) h0
  else mret (- SYNX_INVALID, h0).

(** The loop of [synx_native_import_arr]: the code and the handles so far. *)
Fixpoint import_loop (fuel : nat) (c : Z) (l : list synx_import_indv_params) (done : list Z) :
    M (Z * list Z) :=
  match l with
  | [] => mret (SYNX_SUCCESS, done)
  | params :: l =>
      '(rc, h) ← synx_native_import_indv fuel c params 0;
      if negb (rc =? SYNX_SUCCESS) then mret (rc, done) else import_loop fuel c l (done ++ [h])
  end.

(** The code and the handles of the list. *)
Definition synx_native_import_arr (fuel : nat) (c : Z) (l : list synx_import_indv_params) :
    M (Z * list Z) :=
  if bool_decide (l = []) then mret (- SYNX_INVALID, []) else
  '(rc, done) ← import_loop fuel c l [];
  when (negb (rc =? SYNX_SUCCESS))
    (for_each (reverse done) (fun h => synx_native_release_core c h ;; mret tt)) ;;
  mret (rc, done).

Definition synx_import (fuel : nat) (session : Z)
    (params : synx_import_indv_params + list synx_import_indv_params) : M (Z * list Z) :=
  with_session session (- SYNX_INVALID, []) (fun c =>
    match params with
    | inl p => '(rc, h) ← synx_native_import_indv fuel c p 0; mret (rc, [h])
    | inr l => synx_native_import_arr fuel c l
    end).

(** ** Sessions *)

Definition synx_initialize : M (option Z) :=
  a ← kzalloc;
  match a with
  | None => mret None
  | Some c =>
      modify (fun d => set_d_counter (d_counter d + 1) d) ;;
      id ← gets d_counter;
      new_cli c (mk_cli true id 1 [] {[0]} (replicate (Z.to_nat SYNX_MAX_OBJS) zero_kcb) []) ;;
      with_lock metadata_map_lock (modify (fun d => set_d_sessions (c :: d_sessions d) d)) ;;
      mret (Some c)
  end.

Definition synx_uninitialize (session : Z) : M Z :=
  client ← with_lock metadata_map_lock (
    l ← gets d_sessions;
    if bool_decide (session ∈ l) then
      c ← get_cli session;
      if cl_active c then upd_cli session (set_cl_active false) ;; mret (Some session)
      else mret None
    else mret None);
  (match client with Some c => synx_put_client c | None => mret tt end) ;;
  mret SYNX_SUCCESS.

(** [sizeof(struct synx_userpayload_info_v2)] *)
Definition userpayload_size : Z := 40.

(** [synx_read]: the code (or the size [size] of the data) and the event read:
    handle, status and user data. [copy_ok]: user memory can be written. *)
Definition synx_read (session size : Z) (copy_ok : bool) : M (Z * option (Z * Z * Z)) :=
  if negb (size =? userpayload_size) then mret (- SYNX_INVALID, None) else
  with_session session (- SYNX_INVALID, None) (fun c =>
    r ← with_lock (event_q_lock c) (
      cl ← get_cli c;
      match cl_event_q cl with
      | [] => mret (inl 0)
      | i :: q =>
          cb ← deref (cl_cb_table cl !! Z.to_nat i);
          if (k_idx cb =? 0) || (k_idx cb >=? SYNX_MAX_OBJS) then mret (inl (- SYNX_INVALID)) else
          upd_cli c (set_cl_event_q q) ;;
          mret (inr (i, cb))
      end);
    match r with
    | inl rc => mret (rc, None)
    | inr (i, cb) =>
        synx_util_clear_cb_entry c i ;;
        mret (if copy_ok then size else - EFAULT,
              if copy_ok then Some (k_h_synx cb, k_status cb, k_data cb) else None)
    end).

(** [true] is [POLLPRI]. *)
Definition synx_poll (session : Z) : M bool :=
  with_session session false (fun c =>
    with_lock (event_q_lock c) (
      cl ← get_cli c;
      mret (negb (bool_decide (cl_event_q cl = []))))).

(** ** External fence types, messages and recovery *)

(** [named]: [params->name] is not [NULL]; [ops]: the three mandatory operations
    are set. *)
Definition synx_register_ops (named ops : bool) (type : Z) : M Z :=
  if negb named || negb (synx_util_is_valid_bind_type type) || negb ops then mret (- SYNX_INVALID) else
  with_lock vtbl_lock (
    valid ← gets d_bind_valid;
    if (valid : bool) then mret (- SYNX_ALREADY)
    else modify (set_d_bind_valid true) ;; mret 0).

(** The source refuses parameters that do have a name. *)
Definition synx_deregister_ops (named : bool) (type : Z) : M Z :=
  if named || negb (synx_util_is_valid_bind_type type) then mret (- SYNX_INVALID) else
  with_lock vtbl_lock (modify (set_d_bind_valid false)) ;;
  mret SYNX_SUCCESS.

Definition synx_ipc_callback (data : Z) : M Z :=
  a ← kzalloc;
  match a with
  | None => mret (- SYNX_NOMEM)
  | Some s =>
      new_sig s (mk_sig (u32 (Z.shiftr data 32)) (u32 data) 0 None SYNX_SIGNAL_FROM_IPC) ;;
      queue_cb (WIpc s) ;;
      mret SYNX_SUCCESS
  end.

Definition synx_ipc_handler (sp : Z) : M unit :=
  s ← get_sig sp;
  e ← synx_util_get_map_entry (s_handle s);
  match e with
  | None => free_sig sp
  | Some e =>
      m ← get_ent e;
      synx_util_get_object (m_obj m) ;;
      upd_sig sp (set_s_obj (Some (m_obj m))) ;;
      synx_util_release_map_entry e ;;
      synx_signal_handler sp
  end.

Definition synx_local_mem_init : M unit :=
  modify (fun d => set_d_bitmap ({[0]} ∪ d_bitmap d)
    (set_d_sessions [] (set_d_fence_map [] (set_d_global_map [] (set_d_local_map [] (set_d_csl_map [] d)))))).

(** Recovery runs in the global table with the fuel of its theorem. *)
Definition global_recover (core_id : Z) : M Z := fun d =>
  match synx_global_recover (signal_fuel (d_gm d)) core_id (d_gm d) with
  | Some (rc, g) => Ret rc (set_d_gm g d)
  | None => Block
  end.

Definition synx_recover (id : Z) : M Z :=
  let core_id := synx_util_map_client_id_to_core id in
  if core_id >=? SYNX_CORE_MAX then mret (- SYNX_INVALID) else
  if (core_id =? SYNX_CORE_EVA) || (core_id =? SYNX_CORE_IRIS) || (core_id =? SYNX_CORE_ICP)
  then global_recover core_id else mret (- SYNX_NOSUPPORT).

(** ** The work queues *)

Definition run_cb_work (w : cb_work) : M unit :=
  match w with
  | WSignal s => synx_signal_handler s
  | WIpc s => synx_ipc_handler s
  | WCb c => synx_util_cb_dispatch c
  end.

Definition run_cleanup_work (w : cleanup_work) : M unit :=
  match w with
  | WEnt e => synx_util_destroy_map_entry_worker e
  | WHdl h => synx_util_destroy_handle_worker h
  | WCli c => synx_client_cleanup c
  end.

(** A worker takes the item at position [n] of its queue and runs it. *)
Definition work_cb (n : nat) : M unit :=
  q ← gets d_wq_cb;
  match q !! n with
  | None => mret tt
  | Some w => modify (set_d_wq_cb (delete n q)) ;; run_cb_work w
  end.

Definition work_cleanup (n : nat) : M unit :=
  q ← gets d_wq_cleanup;
  match q !! n with
  | None => mret tt
  | Some w => modify (set_d_wq_cleanup (delete n q)) ;; run_cleanup_work w
  end.

End operations.
