(* ===== verification/SynxInv.v ===== *)
(** * The synx client framework: the references between its structs

    The invariant that keeps the memory of the framework safe: no count of
    references is below the references that exist, the maps hold live structs
    only, and each callback and each work item is in one place. Its
    preservation by the primitive steps. *)

From S2P Require Import Prelude SynxGlobal SynxSignal SynxDev SynxUtil SynxClient.

(** ** Counting the entries of a map *)

Definition b2z (b : bool) : Z := if b then 1 else 0.

Definition mcount {V} (q : Z -> V -> bool) (m : gmap Z V) : Z :=
  map_fold (fun i v n => b2z (q i v) + n) 0 m.

Section mcount.
Context {V : Type}.
Implicit Types (q : Z -> V -> bool) (m : gmap Z V).

Lemma mcount_empty q : mcount q ∅ = 0.
Proof. apply map_fold_empty. Qed.

Lemma mcount_insert q m i v : m !! i = None -> mcount q (<[i := v]> m) = b2z (q i v) + mcount q m.
Proof. intros H. unfold mcount. rewrite map_fold_insert_L; [done|lia|done]. Qed.

Lemma mcount_delete q m i v : m !! i = Some v -> mcount q m = b2z (q i v) + mcount q (delete i m).
Proof. intros H. unfold mcount. rewrite (map_fold_delete_L _ _ i v m); [done|lia|done]. Qed.

Lemma mcount_update q m i v w :
  m !! i = Some v -> mcount q (<[i := w]> m) = mcount q m - b2z (q i v) + b2z (q i w).
Proof.
  intros H. rewrite <- insert_delete_eq, mcount_insert by apply lookup_delete_eq.
  rewrite (mcount_delete q m i v H). lia.
Qed.

Lemma mcount_nonneg q m : 0 <= mcount q m.
Proof.
  unfold mcount. apply (map_fold_weak_ind (fun n _ => 0 <= n)); [done|].
  intros i v m' n _ H. unfold b2z. destruct (q i v); lia.
Qed.

Lemma mcount_pos q m i v : m !! i = Some v -> q i v = true -> 1 <= mcount q m.
Proof. intros H Hq. rewrite (mcount_delete q m i v H), Hq. pose proof (mcount_nonneg q (delete i m)). simpl. lia. Qed.

Lemma mcount_ext q q' m : (forall i v, m !! i = Some v -> q i v = q' i v) -> mcount q m = mcount q' m.
Proof.
  induction m as [|i v m Hi IH] using map_ind; intros H; [by rewrite !mcount_empty|].
  rewrite !mcount_insert by done. rewrite (H i v), IH; [done| |apply lookup_insert_eq].
  intros j w Hj. apply H. rewrite lookup_insert_ne; [done|congruence].
Qed.

End mcount.

(** ** What the running code holds *)

(** References on structs, a [synx_signal_cb] that it owns, work items that it
    runs, a callback that was delivered but not yet freed, and an object whose
    [signal_cb] it is about to reset. *)
Inductive res :=
| RObj (p : Z)
| REnt (e : Z)
| RHdl (h : Z)
| RCli (c : Z)
| RSig (s : Z)
| RWork (w : cb_work)
| RClean (w : cleanup_work)
| RDone (c : Z)
| RStale (p : Z).

#[export] Instance cb_work_eq_dec : EqDecision cb_work.
Proof. solve_decision. Defined.
#[export] Instance cleanup_work_eq_dec : EqDecision cleanup_work.
Proof. solve_decision. Defined.
#[export] Instance res_eq_dec : EqDecision res.
Proof. solve_decision. Defined.

Definition cnt (r : res) (X : list res) : Z := Z.of_nat (countb (fun r' => bool_decide (r = r')) X).

Lemma cnt_nil r : cnt r [] = 0.
Proof. done. Qed.

Lemma cnt_cons r r' X : cnt r (r' :: X) = b2z (bool_decide (r = r')) + cnt r X.
Proof. unfold cnt. simpl. destruct (bool_decide (r = r')); simpl; lia. Qed.

Lemma cnt_nonneg r X : 0 <= cnt r X.
Proof. unfold cnt. lia. Qed.

Lemma cnt_app r X Y : cnt r (X ++ Y) = cnt r X + cnt r Y.
Proof.
  induction X as [|x X IH]; [rewrite cnt_nil; simpl; lia|].
  simpl. rewrite !cnt_cons. lia.
Qed.

Lemma cnt_perm r X Y : X ≡ₚ Y -> cnt r X = cnt r Y.
Proof. induction 1; rewrite ?cnt_cons; lia. Qed.

Lemma cnt_in r X : r ∈ X -> 1 <= cnt r X.
Proof.
  induction 1 as [x l|x y l _ IH]; rewrite cnt_cons.
  - rewrite bool_decide_true by done. pose proof (cnt_nonneg x l). simpl. lia.
  - unfold b2z. case_bool_decide; lia.
Qed.

Section inv.
Context `{F : DmaFence}.

(** The callbacks of the framework that a fence holds. *)
Definition cbs (fs : fences) (f : Z) : list Z :=
  omap (fun cb => match cb with SynxCb s => Some s | _ => None end) (dma_fence_cb_list fs f).

(** An address at which there may be no fence yet. *)
Definition unused (fs : fences) (f : Z) : Prop :=
  cbs fs f = [] /\ dma_fence_get_status fs f = 0 /\ to_dma_fence_array fs f = None.

(** A fence whose callbacks may run: it is signalled, and so is each child. *)
Definition settled (fs : fences) (f : Z) : Prop :=
  dma_fence_get_status fs f <> 0 /\
  forall l c, to_dma_fence_array fs f = Some l -> c ∈ l -> dma_fence_get_status fs c <> 0.

(** What a call may do to the fences, with the callbacks that it runs: fences
    stay signalled, arrays keep their children, and the callbacks of a fence run
    together, when it is settled. *)
Record fence_step (fs : fences) (fired : list (Z * Z)) (fs' : fences) : Prop := mk_fence_step {
  fs_status f : dma_fence_get_status fs f <> 0 -> dma_fence_get_status fs' f <> 0;
  fs_array f l : to_dma_fence_array fs f = Some l -> to_dma_fence_array fs' f = Some l;
  fs_cbs f :
    (cbs fs' f = cbs fs f /\ forall s, (f, s) ∉ fired) \/
    (cbs fs' f = [] /\ settled fs' f /\ forall s, (f, s) ∈ fired <-> s ∈ cbs fs f);
  fs_nodup : (forall f, NoDup (cbs fs f)) -> NoDup fired
}.

(** Nothing is known of what the fences do below address [n]. *)
Definition unused_from (n : Z) (fs : fences) : Prop := forall f, n <= f -> unused fs f.

(** A call on fence [f] that creates no array and leaves the other addresses
    without a fence alone. *)
Record call_step (f : Z) (fs : fences) (fired : list (Z * Z)) (fs' : fences) : Prop := mk_call_step {
  ca_step : fence_step fs fired fs';
  ca_array g : to_dma_fence_array fs' g = to_dma_fence_array fs g;
  ca_unused g : g <> f -> unused fs g -> unused fs' g
}.

(** What a fence reports when it is signalled as it is: 1, unless an error was
    set on it. *)
Definition report (fs : fences) (f : Z) : Z := dma_fence_get_status (dma_fence_signal f fs).2 f.

(** The documented behaviour of the kernel's fences that the framework relies
    on: the status of a fence is 0 until it is signalled, then 1 or an
    [errno]. *)
Class DmaFenceDoc : Prop := {
  fence_status_range fs f :
    dma_fence_get_status fs f = 0 \/ dma_fence_get_status fs f = 1 \/
    -4095 <= dma_fence_get_status fs f <= -1;
  fence_init_step f fs : unused fs f -> call_step f fs [] (dma_fence_init f fs);
  fence_get_step f fs : call_step f fs [] (dma_fence_get f fs);
  fence_put_step f fs : call_step f fs (dma_fence_put f fs).1 (dma_fence_put f fs).2;
  fence_set_error_step f e fs : dma_fence_get_status fs f = 0 ->
    call_step f fs [] (dma_fence_set_error f e fs);
  fence_signal_step f fs : to_dma_fence_array fs f = None ->
    call_step f fs (dma_fence_signal f fs).1.2 (dma_fence_signal f fs).2;
  fence_signal_done f fs : to_dma_fence_array fs f = None -> dma_fence_get_status fs f = 0 ->
    (dma_fence_signal f fs).1.1 = 0 /\ dma_fence_get_status (dma_fence_signal f fs).2 f <> 0;
  fence_signal_error f e fs : to_dma_fence_array fs f = None -> dma_fence_get_status fs f = 0 ->
    -4095 <= e <= -2 -> let fs1 := dma_fence_set_error f e fs in
    (dma_fence_signal f fs1).1.1 = 0 /\ dma_fence_get_status (dma_fence_signal f fs1).2 f = e;
  fence_enable_step f fs : cbs fs f = [] -> call_step f fs [] (dma_fence_enable_sw_signaling f fs);
  fence_array_step a l fs : unused fs a ->
    let fs' := dma_fence_array_create a l fs in
    fence_step fs [] fs' /\ to_dma_fence_array fs' a = Some l /\
    (forall g, g <> a -> to_dma_fence_array fs' g = to_dma_fence_array fs g) /\
    (forall g, g <> a -> unused fs g -> unused fs' g);
  fence_add_failed f s fs : (dma_fence_add_callback f s fs).1 <> 0 ->
    call_step f fs [] (dma_fence_add_callback f s fs).2;
  fence_add_ok f s fs : (dma_fence_add_callback f s fs).1 = 0 ->
    let fs' := (dma_fence_add_callback f s fs).2 in
    (forall g, dma_fence_get_status fs' g = dma_fence_get_status fs g) /\
    (forall g, to_dma_fence_array fs' g = to_dma_fence_array fs g) /\
    (forall g, g <> f -> cbs fs' g = cbs fs g) /\ cbs fs' f = cbs fs f ++ [s];
  fence_remove_ok f s fs :
    let fs' := (dma_fence_remove_callback f s fs).2 in
    (dma_fence_remove_callback f s fs).1 = bool_decide (s ∈ cbs fs f) /\
    (forall g, dma_fence_get_status fs' g = dma_fence_get_status fs g) /\
    (forall g, to_dma_fence_array fs' g = to_dma_fence_array fs g) /\
    (forall g, g <> f -> cbs fs' g = cbs fs g) /\
    cbs fs' f = List.filter (fun s' => negb (s' =? s)) (cbs fs f);
  fence_remove_report f s fs : to_dma_fence_array fs f = None -> dma_fence_get_status fs f = 0 ->
    report (dma_fence_remove_callback f s fs).2 f = report fs f
}.

(** An assumption on the other drivers, which the kernel does not make: no fence
    fails with [EPERM]. [__fence_state] reads such a fence as active
    ([SynxFindings.eperm_reads_active]), and then the framework uses the
    [signal_cb] of a fence that has run it. *)
Class DmaFenceLaws : Prop := {
  fence_doc :: DmaFenceDoc;
  fence_not_eperm fs f : dma_fence_get_status fs f <> -1
}.

(** ** The invariant *)

(** The references that are stored in structs. That of a map entry or a handle
    that is being cleaned up, and that of a [synx_signal_cb] in hand, are in
    hand too. *)
Definition stored (X : list res) (d : dev) (r : res) : Z :=
  match r with
  | RObj p =>
      mcount (fun e m => (m_obj m =? p) && bool_decide (RClean (WEnt e) ∉ X)) (d_ents d) +
      mcount (fun s x => bool_decide (s_obj x = Some p) && bool_decide (RSig s ∉ X)) (d_sigs d)
  | REnt e => mcount (fun h x => (h_ent x =? e) && bool_decide (RClean (WHdl h) ∉ X)) (d_hdls d)
  | RHdl h => match d_hdls d !! h with
              | Some x => if h_refcount x =? 0 then 0 else h_rel_count x
              | None => 0
              end
  | RCli c => match d_clients d !! c with Some x => b2z (cl_active x) | None => 0 end
  | _ => 0
  end.

(** The reference count of a struct; that of a freed struct is 0. *)
Definition kref (d : dev) (r : res) : Z :=
  match r with
  | RObj p => from_option o_refcount 0 (d_objs d !! p)
  | REnt e => from_option m_refcount 0 (d_ents d !! e)
  | RHdl h => from_option h_refcount 0 (d_hdls d !! h)
  | RCli c => from_option cl_refcount 0 (d_clients d !! c)
  | _ => 0
  end.

Definition counted (r : res) : bool :=
  match r with RObj _ | REnt _ | RHdl _ | RCli _ => true | _ => false end.

(** No count is below the references that exist. *)
Definition refs_ok (X : list res) (d : dev) : Prop :=
  forall r, counted r = true -> stored X d r + cnt r X <= kref d r.

(** Addresses at or above [n] are free. *)
Record fresh_ok (n : Z) (d : dev) : Prop := mk_fresh_ok {
  fr_pos : 0 < n;
  fr_objs p : n <= p -> d_objs d !! p = None;
  fr_ents p : n <= p -> d_ents d !! p = None;
  fr_hdls p : n <= p -> d_hdls d !! p = None;
  fr_clients p : n <= p -> d_clients d !! p = None;
  fr_cbs p : n <= p -> d_cbs d !! p = None;
  fr_sigs p : n <= p -> d_sigs d !! p = None;
  fr_fences : unused_from n (d_fences d);
  fr_children f l c : to_dma_fence_array (d_fences d) f = Some l -> c ∈ l -> c < n;
  fr_flat f l c : to_dma_fence_array (d_fences d) f = Some l -> c ∈ l -> to_dma_fence_array (d_fences d) c = None;
  fr_keys x : x ∈ d_fence_map d -> f_key x < n;
  fr_trace c f h st dt : UserCallback c f h st dt ∈ d_trace d -> c < n
}.

(** The map entries: those in the maps are referenced, and local handles have an
    index in the bitmap. *)
Record maps_ok (global_map local_map : list Z) (ents : gmap Z synx_map_entry) : Prop := mk_maps_ok {
  mo_global e : e ∈ global_map ->
    exists m, ents !! e = Some m /\ 1 <= m_refcount m /\ synx_util_is_global_handle (m_key m) = true;
  mo_local e : e ∈ local_map ->
    exists m, ents !! e = Some m /\ 1 <= m_refcount m /\ synx_util_is_global_handle (m_key m) = false;
  mo_keys e m : ents !! e = Some m -> synx_util_is_global_handle (m_key m) = false ->
    synx_util_global_idx (m_key m) < SYNX_MAX_OBJS
}.

(** The handles: those of a client are referenced, a referenced one is in the
    map of its client, and it names the object of its map entry. *)
Record handles_ok (clients : gmap Z synx_client) (hdls : gmap Z synx_handle_coredata)
    (ents : gmap Z synx_map_entry) : Prop := mk_handles_ok {
  ho_map c cl h : clients !! c = Some cl -> h ∈ cl_handle_map cl ->
    exists x, hdls !! h = Some x /\ 1 <= h_refcount x /\ h_client x = c;
  ho_ref h x : hdls !! h = Some x -> 1 <= h_refcount x ->
    exists cl, clients !! h_client x = Some cl /\ h ∈ cl_handle_map cl;
  ho_obj h x : hdls !! h = Some x -> exists m, ents !! h_ent x = Some m /\ m_obj m = h_obj x;
  ho_rel h x : hdls !! h = Some x -> 0 <= h_rel_count x
}.

(** The clients: sessions are referenced, and their tables have their size. *)
Record clients_ok (sessions : list Z) (clients : gmap Z synx_client) : Prop := mk_clients_ok {
  co_session c : c ∈ sessions -> exists cl, clients !! c = Some cl /\ 1 <= cl_refcount cl;
  co_table c cl : clients !! c = Some cl -> length (cl_cb_table cl) = Z.to_nat SYNX_MAX_OBJS;
  co_entry c cl i k : clients !! c = Some cl -> cl_cb_table cl !! i = Some k ->
    (k_valid k = true -> is_Some (k_func k)) /\ (k_client k = None \/ k_client k = Some c);
  co_event c cl i : clients !! c = Some cl -> i ∈ cl_event_q cl -> i < SYNX_MAX_OBJS
}.

(** The items of the clean-up queue, with those in hand. *)
Definition clean_items (X : list res) : list cleanup_work :=
  omap (fun r => match r with RClean w => Some w | _ => None end) X.

Definition clean_live (d : dev) (w : cleanup_work) : Prop :=
  match w with
  | WEnt e => exists m, d_ents d !! e = Some m /\ m_refcount m = 0
  | WHdl h => exists x, d_hdls d !! h = Some x /\ h_refcount x = 0
  | WCli c => exists cl, d_clients d !! c = Some cl /\ cl_refcount cl = 0
  end.

Record cleanup_ok (X : list res) (d : dev) : Prop := mk_cleanup_ok {
  cu_nodup : NoDup (clean_items X ++ d_wq_cleanup d);
  cu_live w : w ∈ clean_items X ++ d_wq_cleanup d -> clean_live d w
}.

(** The work items with the callbacks, with those in hand. *)
Definition work_items (X : list res) : list cb_work :=
  omap (fun r => match r with RWork w => Some w | _ => None end) X.

Definition works (X : list res) (wq : list cb_work) : list cb_work := work_items X ++ wq.

(** A callback node is in the list of one object, or queued once, until it is
    delivered or cancelled; no node is lost and none is delivered twice. A timer
    is pending only while its node is registered, or in hand. *)
Record cbs_ok (X : list res) (objs : gmap Z synx_coredata) (nodes : gmap Z synx_cb_data)
    (wq : list cb_work) (trace : list client_event) : Prop := mk_cbs_ok {
  cb_reg p o c : objs !! p = Some o -> c ∈ o_reg_cbs o -> is_Some (nodes !! c);
  cb_nodup p o : objs !! p = Some o -> NoDup (o_reg_cbs o);
  cb_one p p' o o' c : objs !! p = Some o -> objs !! p' = Some o' ->
    c ∈ o_reg_cbs o -> c ∈ o_reg_cbs o' -> p = p';
  cb_queued c : WCb c ∈ works X wq -> is_Some (nodes !! c) /\
    forall p o, objs !! p = Some o -> c ∉ o_reg_cbs o;
  cb_works : NoDup (works X wq);
  cb_kept c : is_Some (nodes !! c) ->
    (exists p o, objs !! p = Some o /\ c ∈ o_reg_cbs o) \/ WCb c ∈ works X wq \/ RDone c ∈ X;
  cb_done c : RDone c ∈ X -> is_Some (nodes !! c) /\ WCb c ∉ works X wq /\
    forall p o, objs !! p = Some o -> c ∉ o_reg_cbs o;
  cb_timer c x : nodes !! c = Some x -> c_timer x = true -> c_timeout x <> SYNX_NO_TIMEOUT /\
    ((exists p o, objs !! p = Some o /\ c ∈ o_reg_cbs o) \/ RWork (WCb c) ∈ X);
  cb_trace c f h st dt : UserCallback c f h st dt ∈ trace -> nodes !! c = None \/ RDone c ∈ X;
  cb_once : NoDup (omap (fun ev => match ev with UserCallback c _ _ _ _ => Some c | _ => None end) trace)
}.

(** The [synx_signal_cb]s in hand or queued. *)
Definition held_sigs (X : list res) : list Z :=
  omap (fun r => match r with
                 | RSig s | RWork (WSignal s) | RWork (WIpc s) => Some s
                 | _ => None
                 end) X.
Definition queued_sigs (wq : list cb_work) : list Z :=
  omap (fun w => match w with WSignal s | WIpc s => Some s | WCb _ => None end) wq.
Definition owned_sigs (X : list res) (wq : list cb_work) : list Z := held_sigs X ++ queued_sigs wq.

(** A [synx_signal_cb] is with one fence, queued once, or in hand. *)
Record sigs_ok (X : list res) (fs : fences) (sigs : gmap Z synx_signal_cb) (wq : list cb_work) : Prop :=
  mk_sigs_ok {
  si_owned : NoDup (owned_sigs X wq);
  si_live s : s ∈ owned_sigs X wq -> is_Some (sigs !! s);
  si_fence f s : s ∈ cbs fs f -> is_Some (sigs !! s) /\ s ∉ owned_sigs X wq;
  si_nodup f : NoDup (cbs fs f);
  si_one f f' s : s ∈ cbs fs f -> s ∈ cbs fs f' -> f = f';
  si_ipc s x : WIpc s ∈ works X wq -> sigs !! s = Some x -> s_obj x = None
}.

(** The fence of the object, or a child of it, is still to be signalled. *)
Definition obj_active (fs : fences) (o : synx_coredata) : Prop :=
  if synx_util_is_merged_object o
  then exists l c, to_dma_fence_array fs (o_fence o) = Some l /\ c ∈ l /\ dma_fence_get_status fs c = 0
  else dma_fence_get_status fs (o_fence o) = 0.

(** The objects: nothing is bound to them, the fence of one that is not merged
    is not an array, and the [signal_cb] of an active one is registered with its
    fence. *)
Record objs_ok (X : list res) (n : Z) (objs : gmap Z synx_coredata) (fs : fences)
    (sigs : gmap Z synx_signal_cb) : Prop := mk_objs_ok {
  ob_bound p o : objs !! p = Some o -> o_num_bound o = 0;
  ob_fence p o : objs !! p = Some o -> o_fence o < n;
  ob_merged p o : objs !! p = Some o -> synx_util_is_merged_object o = true ->
    exists l, to_dma_fence_array fs (o_fence o) = Some l /\ o_fence o ∉ l;
  ob_plain p o : objs !! p = Some o -> synx_util_is_merged_object o = false -> o_fence o <> 0 ->
    to_dma_fence_array fs (o_fence o) = None;
  ob_signal p o s : objs !! p = Some o -> o_signal_cb o = Some s -> obj_active fs o -> RStale p ∉ X ->
    s ∈ cbs fs (o_fence o) /\ exists x, sigs !! s = Some x /\ s_obj x = Some p
}.

(** All but the counts. *)
Record core (L : list synx_lock) (X : list res) (d : dev) : Prop := mk_core {
  in_held : d_held d = L;
  in_fresh : fresh_ok (d_next d) d;
  in_maps : maps_ok (d_global_map d) (d_local_map d) (d_ents d);
  in_handles : handles_ok (d_clients d) (d_hdls d) (d_ents d);
  in_clients : clients_ok (d_sessions d) (d_clients d);
  in_cleanup : cleanup_ok X d;
  in_cbs : cbs_ok X (d_objs d) (d_cbs d) (d_wq_cb d) (d_trace d);
  in_sigs : sigs_ok X (d_fences d) (d_sigs d) (d_wq_cb d);
  in_objs : objs_ok X (d_next d) (d_objs d) (d_fences d) (d_sigs d)
}.

Definition inv (L : list synx_lock) (X : list res) (d : dev) : Prop := core L X d /\ refs_ok X d.

(** What every function of the interface keeps: map entries, handles and
    clients stay, with the objects they name, and an array is made at a new
    address only. *)
Record ext (d d' : dev) : Prop := mk_ext {
  ex_ents e m : d_ents d !! e = Some m ->
    exists m', d_ents d' !! e = Some m' /\ m_obj m' = m_obj m /\ m_key m' = m_key m;
  ex_hdls h x : d_hdls d !! h = Some x ->
    exists x', d_hdls d' !! h = Some x' /\ h_obj x' = h_obj x /\ h_client x' = h_client x /\
      h_ent x' = h_ent x /\ h_key x' = h_key x;
  ex_clients c : is_Some (d_clients d !! c) -> is_Some (d_clients d' !! c);
  ex_next : d_next d <= d_next d';
  ex_plain f : f < d_next d -> to_dma_fence_array (d_fences d) f = None ->
    to_dma_fence_array (d_fences d') f = None
}.

(** A map entry names the object. *)
Definition mapped (p : Z) (d : dev) : Prop := exists e m, d_ents d !! e = Some m /\ m_obj m = p.

End inv.
