(* ===== verification/SynxRefs.v ===== *)
(** * The synx client framework: primitive steps keep the invariant

    Rules for runs that keep [inv], and its preservation by the steps the
    functions are made of: reading, locking, allocating, counting references,
    queueing, and calling the kernel's fences. *)

From S2P Require Import Prelude SynxGlobal SynxSignal SynxDev SynxUtil SynxClient SynxInv.

(** ** Runs that do not fault *)

(** [B]: the run may wait for ever. *)
Definition good `{F : DmaFence} (B : Prop) {A} (o : outcome dev A) (Q : A -> dev -> Prop) : Prop :=
  match o with Ret a d => Q a d | Block => B | Fault => False end.

Section rules.
Context `{F : DmaFence} {B : Prop}.
Implicit Types d : dev.

Lemma good_bind {A A'} (m : run dev A) (k : A -> run dev A') d Q R :
  good B (m d) R -> (forall a d', R a d' -> good B (k a d') Q) -> good B ((x ← m; k x) d) Q.
Proof. unfold mbind, run_bind, good. intros H Hk. destruct (m d); try done. by apply Hk. Qed.

Lemma good_mono {A} (o : outcome dev A) (Q R : A -> dev -> Prop) :
  good B o R -> (forall a d, R a d -> Q a d) -> good B o Q.
Proof. unfold good. intros H Hk. destruct o; try done. by apply Hk. Qed.

Lemma good_ret {A} (a : A) d (Q : A -> dev -> Prop) : Q a d -> good B ((mret a : run dev A) d) Q.
Proof. done. Qed.

Lemma good_gets {A A'} (f : dev -> A) (k : A -> run dev A') d Q :
  good B (k (f d) d) Q -> good B ((x ← gets f; k x) d) Q.
Proof. done. Qed.

Lemma good_modify {A} (f : dev -> dev) (k : run dev A) d Q :
  good B (k (f d)) Q -> good B ((modify f ;; k) d) Q.
Proof. done. Qed.

Lemma good_deref {A A'} (o : option A) a (k : A -> run dev A') d Q :
  o = Some a -> good B (k a d) Q -> good B ((x ← deref o; k x) d) Q.
Proof. by intros ->. Qed.

Lemma good_assoc {A A' A''} (m : run dev A) (k : A -> run dev A') (k' : A' -> run dev A'') d Q :
  good B ((x ← m; y ← k x; k' y) d) Q -> good B ((y ← (x ← m; k x); k' y) d) Q.
Proof. unfold mbind, run_bind, good. by destruct (m d). Qed.

Lemma good_tt (m : run dev unit) d Q : good B ((m ;; mret tt) d) Q -> good B (m d) Q.
Proof. by rewrite bind_tt. Qed.

(** Access to a live struct. *)
Lemma good_get_obj {A} p o (k : synx_coredata -> run dev A) d Q :
  d_objs d !! p = Some o -> good B (k o d) Q -> good B ((x ← get_obj p; k x) d) Q.
Proof. intros H. unfold get_obj, gets, mbind, run_bind. by rewrite H. Qed.
Lemma good_get_ent {A} p o (k : synx_map_entry -> run dev A) d Q :
  d_ents d !! p = Some o -> good B (k o d) Q -> good B ((x ← get_ent p; k x) d) Q.
Proof. intros H. unfold get_ent, gets, mbind, run_bind. by rewrite H. Qed.
Lemma good_get_hdl {A} p o (k : synx_handle_coredata -> run dev A) d Q :
  d_hdls d !! p = Some o -> good B (k o d) Q -> good B ((x ← get_hdl p; k x) d) Q.
Proof. intros H. unfold get_hdl, gets, mbind, run_bind. by rewrite H. Qed.
Lemma good_get_cli {A} p o (k : synx_client -> run dev A) d Q :
  d_clients d !! p = Some o -> good B (k o d) Q -> good B ((x ← get_cli p; k x) d) Q.
Proof. intros H. unfold get_cli, gets, mbind, run_bind. by rewrite H. Qed.
Lemma good_get_cb {A} p o (k : synx_cb_data -> run dev A) d Q :
  d_cbs d !! p = Some o -> good B (k o d) Q -> good B ((x ← get_cb p; k x) d) Q.
Proof. intros H. unfold get_cb, gets, mbind, run_bind. by rewrite H. Qed.
Lemma good_get_sig {A} p o (k : synx_signal_cb -> run dev A) d Q :
  d_sigs d !! p = Some o -> good B (k o d) Q -> good B ((x ← get_sig p; k x) d) Q.
Proof. intros H. unfold get_sig, gets, mbind, run_bind. by rewrite H. Qed.

Lemma good_upd_obj {A} p o f (k : run dev A) d Q :
  d_objs d !! p = Some o -> good B (k (set_d_objs (<[p := f o]> (d_objs d)) d)) Q ->
  good B ((upd_obj p f ;; k) d) Q.
Proof. intros H. unfold upd_obj, get_obj, gets, mbind, run_bind. by rewrite H. Qed.
Lemma good_upd_ent {A} p o f (k : run dev A) d Q :
  d_ents d !! p = Some o -> good B (k (set_d_ents (<[p := f o]> (d_ents d)) d)) Q ->
  good B ((upd_ent p f ;; k) d) Q.
Proof. intros H. unfold upd_ent, get_ent, gets, mbind, run_bind. by rewrite H. Qed.
Lemma good_upd_hdl {A} p o f (k : run dev A) d Q :
  d_hdls d !! p = Some o -> good B (k (set_d_hdls (<[p := f o]> (d_hdls d)) d)) Q ->
  good B ((upd_hdl p f ;; k) d) Q.
Proof. intros H. unfold upd_hdl, get_hdl, gets, mbind, run_bind. by rewrite H. Qed.
Lemma good_upd_cli {A} p o f (k : run dev A) d Q :
  d_clients d !! p = Some o -> good B (k (set_d_clients (<[p := f o]> (d_clients d)) d)) Q ->
  good B ((upd_cli p f ;; k) d) Q.
Proof. intros H. unfold upd_cli, get_cli, gets, mbind, run_bind. by rewrite H. Qed.
Lemma good_upd_cb {A} p o f (k : run dev A) d Q :
  d_cbs d !! p = Some o -> good B (k (set_d_cbs (<[p := f o]> (d_cbs d)) d)) Q ->
  good B ((upd_cb p f ;; k) d) Q.
Proof. intros H. unfold upd_cb, get_cb, gets, mbind, run_bind. by rewrite H. Qed.
Lemma good_upd_sig {A} p o f (k : run dev A) d Q :
  d_sigs d !! p = Some o -> good B (k (set_d_sigs (<[p := f o]> (d_sigs d)) d)) Q ->
  good B ((upd_sig p f ;; k) d) Q.
Proof. intros H. unfold upd_sig, get_sig, gets, mbind, run_bind. by rewrite H. Qed.

(** ** What the map entries and clients keep *)

Lemma ext_refl d : ext d d.
Proof. split; [eauto|intros h x Hx; exists x; auto|done|lia|done]. Qed.

Lemma ext_trans d1 d2 d3 : ext d1 d2 -> ext d2 d3 -> ext d1 d3.
Proof.
  intros [H1 H2 H3 H4 H5] [H1' H2' H3' H4' H5']. split; [| |auto|lia|].
  3: { intros f Hf Hn. apply H5'; [lia|auto]. }
  - intros e m He. destruct (H1 e m He) as (m' & He' & <- & <-). by apply H1'.
  - intros h x Hx. destruct (H2 h x Hx) as (x' & Hx' & <- & <- & <- & <-). by apply H2'.
Qed.

Lemma mapped_ext p d d' : mapped p d -> ext d d' -> mapped p d'.
Proof.
  intros (e & m & He & Hm) Hx. destruct (ex_ents _ _ Hx e m He) as (m' & He' & Ho & _).
  exists e, m'. by rewrite Ho.
Qed.

(** The maps of [d'] are those of [d]. *)
Lemma ext_same d d' :
  d_ents d' = d_ents d -> d_hdls d' = d_hdls d -> d_clients d' = d_clients d -> d_next d <= d_next d' ->
  (forall f, to_dma_fence_array (d_fences d') f = to_dma_fence_array (d_fences d) f) -> ext d d'.
Proof.
  intros H1 H2 H3 H4 H5. split; rewrite ?H1, ?H2, ?H3; [eauto|intros h x Hx; exists x; auto|done|done|].
  intros f _. by rewrite H5.
Qed.

(** A run keeps the invariant when it takes the resources [X] to [Y]. *)
Definition keeps (L : list synx_lock) {A} (o : outcome dev A) (d : dev) (Y : A -> list res)
    (Q : A -> dev -> Prop) : Prop :=
  good B o (fun a d' => inv L (Y a) d' /\ ext d d' /\ Q a d').

Lemma keeps_bind L {A A'} (m : run dev A) (k : A -> run dev A') d Y Z R Q :
  keeps L (m d) d Y R ->
  (forall a d', inv L (Y a) d' -> ext d d' -> R a d' -> keeps L (k a d') d' Z Q) ->
  keeps L ((x ← m; k x) d) d Z Q.
Proof.
  intros Hm Hk. eapply good_bind; [exact Hm|]. intros a d' (Hi & He & HR).
  eapply good_mono; [by apply Hk|]. intros b d2 (Hi2 & He2 & HQ). split_and!; [done| |done].
  by eapply ext_trans.
Qed.

Lemma keeps_ret L {A} (a : A) d (Y : A -> list res) (Q : A -> dev -> Prop) :
  inv L (Y a) d -> Q a d -> keeps L ((mret a : run dev A) d) d Y Q.
Proof. intros. split_and!; [done|apply ext_refl|done]. Qed.

Lemma keeps_mono L {A} (o : outcome dev A) d Y Z (Q R : A -> dev -> Prop) :
  keeps L o d Y R ->
  (forall a d', inv L (Y a) d' -> ext d d' -> R a d' -> inv L (Z a) d' /\ Q a d') ->
  keeps L o d Z Q.
Proof.
  intros H HQ. eapply good_mono; [exact H|]. intros a d' (Hi & He & HR).
  destruct (HQ a d' Hi He HR). done.
Qed.

(** The first step of a run leads to [d1], from which the rest goes on. *)
Lemma keeps_from L {A} (o : outcome dev A) d d1 Y Q :
  ext d d1 -> keeps L o d1 Y Q -> keeps L o d Y Q.
Proof.
  intros He H. eapply good_mono; [exact H|]. intros a d' (Hi & He' & HQ).
  split_and!; [done| |done]. by eapply ext_trans.
Qed.

(** What is known of the result of a run besides. *)
Lemma keeps_also L {A} (o : outcome dev A) d Y Q (R : A -> dev -> Prop) :
  keeps L o d Y Q -> match o with Ret a d' => R a d' | _ => True end -> keeps L o d Y (fun a d' => Q a d' /\ R a d').
Proof. unfold keeps, good. destruct o; [|done..]. naive_solver. Qed.

End rules.

(** ** Steps on fields that the invariant does not read *)

Section frame.
Context `{F : DmaFence}.
Implicit Types d : dev.

Lemma inv_intro L L' X d d' :
  inv L X d -> d_held d' = L' ->
  d_objs d' = d_objs d -> d_ents d' = d_ents d -> d_hdls d' = d_hdls d -> d_clients d' = d_clients d ->
  d_cbs d' = d_cbs d -> d_sigs d' = d_sigs d -> d_sessions d' = d_sessions d ->
  d_fence_map d' = d_fence_map d -> d_global_map d' = d_global_map d -> d_local_map d' = d_local_map d ->
  d_wq_cb d' = d_wq_cb d -> d_wq_cleanup d' = d_wq_cleanup d -> d_fences d' = d_fences d ->
  d_trace d' = d_trace d -> d_next d <= d_next d' -> inv L' X d'.
Proof.
  intros [[Hh [] Hm Hhd Hc [Hcn Hcl] Hcb Hs [Ho1 Ho2 Ho4 Ho5 Ho3]] Hr] Hl E1 E2 E3 E4 E5 E6 E7 E8 E9 E10 E11 E12 E13 E14 Hn.
  split.
  2: { intros r Hc'. specialize (Hr r Hc'). destruct r; try done; simpl in *; by rewrite ?E1, ?E2, ?E3, ?E4, ?E6. }
  split; rewrite ?E1, ?E2, ?E3, ?E4, ?E5, ?E6, ?E7, ?E9, ?E10, ?E11, ?E12, ?E13, ?E14; try done.
  - split; rewrite ?E1, ?E2, ?E3, ?E4, ?E5, ?E6, ?E8, ?E13, ?E14; try lia;
      try (intros; match goal with H : forall p, d_next d <= p -> _ |- _ => apply H; lia end).
    + intros f Hf. apply fr_fences. lia.
    + intros f l c Hf Hc'. specialize (fr_children f l c Hf Hc'). lia.
    + exact fr_flat.
    + intros x Hx. specialize (fr_keys x Hx). lia.
    + intros c f h st dt Hx. specialize (fr_trace c f h st dt Hx). lia.
  - split; rewrite ?E12; [done|]. intros w Hw. specialize (Hcl w Hw).
    destruct w; simpl in *; by rewrite ?E2, ?E3, ?E4.
  - split; [done| |done..]. intros p o Hp. specialize (Ho2 p o Hp). lia.
Qed.

End frame.

(** A state that differs in fields the invariant does not read. *)
Ltac inv_same H := eapply inv_intro; [exact H|try exact (in_held _ _ _ (proj1 H))|reflexivity..|cbn; lia].

(** ** Exchanging resources *)

Section resources.
Context `{F : DmaFence}.
Implicit Types d : dev.

(** [Y] holds the same items as [X], but for counted references. *)
Record same_items (X Y : list res) : Prop := mk_same_items {
  sa_clean : clean_items Y = clean_items X;
  sa_work : work_items Y = work_items X;
  sa_sigs : held_sigs Y = held_sigs X;
  sa_in r : counted r = false -> r ∈ Y <-> r ∈ X
}.

Lemma same_items_refl X : same_items X X.
Proof. by split. Qed.

Lemma same_items_sym X Y : same_items X Y -> same_items Y X.
Proof. intros [H1 H2 H3 H4]. split; auto. intros r Hr. symmetry. auto. Qed.

Lemma same_items_trans X Y Z : same_items X Y -> same_items Y Z -> same_items X Z.
Proof. intros [H1 H2 H3 H4] [K1 K2 K3 K4]. split; try congruence. intros r Hr. rewrite K4, H4; done. Qed.

Lemma same_items_cons r X : counted r = true -> same_items X (r :: X).
Proof.
  intros Hr. split; [by destruct r|by destruct r|by destruct r|]. intros r' Hr'.
  rewrite elem_of_cons. split; [intros [->|]; [congruence|done]|auto].
Qed.

Lemma clean_items_cons r X :
  clean_items (r :: X) = match r with RClean w => w :: clean_items X | _ => clean_items X end.
Proof. by destruct r. Qed.
Lemma work_items_cons r X :
  work_items (r :: X) = match r with RWork w => w :: work_items X | _ => work_items X end.
Proof. by destruct r. Qed.
Lemma held_sigs_cons r X :
  held_sigs (r :: X) = match r with
                       | RSig s | RWork (WSignal s) | RWork (WIpc s) => s :: held_sigs X
                       | _ => held_sigs X
                       end.
Proof. destruct r as [| | | | |[]| | |]; done. Qed.

Lemma same_items_skip r X Y : same_items X Y -> same_items (r :: X) (r :: Y).
Proof.
  intros [H1 H2 H3 H4].
  split; rewrite ?clean_items_cons, ?work_items_cons, ?held_sigs_cons, ?H1, ?H2, ?H3; [done..|].
  intros r' Hr'. rewrite !elem_of_cons, H4; done.
Qed.

Lemma stored_same X Y d r : same_items X Y -> stored Y d r = stored X d r.
Proof.
  intros [_ _ _ H]. destruct r; simpl; try done; [f_equal|]; apply mcount_ext; intros i v _;
    f_equal; apply bool_decide_ext; rewrite H; done.
Qed.

Lemma refs_ok_perm X Y d : X ≡ₚ Y -> refs_ok X d -> refs_ok Y d.
Proof.
  intros HXY H r Hr. specialize (H r Hr). rewrite <- (cnt_perm r X Y HXY).
  replace (stored Y d r) with (stored X d r); [done|].
  destruct r; simpl; try done; [f_equal|]; apply mcount_ext; intros i v _;
    f_equal; apply bool_decide_ext; by rewrite HXY.
Qed.

Lemma inv_perm L X Y d : X ≡ₚ Y -> inv L X d -> inv L Y d.
Proof.
  intros HXY [[Hh Hf Hm Hhd Hc [Hcn Hcl] Hcb [Hs1 Hs2 Hs3 Hs4 Hs5 Hs6] Ho] Hr].
  assert (E1 : clean_items X ++ d_wq_cleanup d ≡ₚ clean_items Y ++ d_wq_cleanup d).
  { apply Permutation_app_tail. unfold clean_items. by rewrite HXY. }
  assert (E2 : works X (d_wq_cb d) ≡ₚ works Y (d_wq_cb d)).
  { apply Permutation_app_tail. unfold work_items. by rewrite HXY. }
  assert (E3 : owned_sigs X (d_wq_cb d) ≡ₚ owned_sigs Y (d_wq_cb d)).
  { apply Permutation_app_tail. unfold held_sigs. by rewrite HXY. }
  split; [|by eapply refs_ok_perm]. split; try done.
  - split; [by rewrite <- E1|]. intros w. rewrite <- E1. apply Hcl.
  - destruct Hcb. split; try done.
    + intros c. rewrite <- E2. auto.
    + by rewrite <- E2.
    + intros c Hcc. rewrite <- E2, <- HXY. auto.
    + intros c. rewrite <- E2, <- HXY. auto.
    + intros c x Hx Ht. rewrite <- HXY. eauto.
    + intros c f h st dt Hcc. rewrite <- HXY. eauto.
  - split; try done.
    + by rewrite <- E3.
    + intros s. rewrite <- E3. apply Hs2.
    + intros f s. rewrite <- E3. apply Hs3.
    + intros s x. rewrite <- E2. apply Hs6.
  - destruct Ho. split; try done. intros p o s Hp Hs Ha. rewrite <- HXY. eauto.
Qed.

(** Other counted references are held. *)
Lemma core_items L X Y d : same_items X Y -> core L X d -> core L Y d.
Proof.
  intros [E1 E2 E3 E4] [Hh Hf Hm Hhd Hc [Hcn Hcl] Hcb [Hs1 Hs2 Hs3 Hs4 Hs5 Hs6] Ho]. split; try done.
  - split; by rewrite E1.
  - destruct Hcb. unfold works in *. split; unfold works; rewrite ?E2; try done.
    + intros c Hcc. rewrite E4 by done. auto.
    + intros c Hcc. rewrite E4 in Hcc by done. auto.
    + intros c x Hx Ht. rewrite E4 by done. eauto.
    + intros c f h st dt Hcc. rewrite E4 by done. eauto.
  - unfold owned_sigs, works in *. split; unfold owned_sigs, works; rewrite ?E3, ?E2; done.
  - destruct Ho. split; try done. intros p o s Hp Hs Ha. rewrite E4 by done. eauto.
Qed.

Lemma inv_refs L X Y d :
  inv L X d -> same_items X Y ->
  (forall r, counted r = true -> stored X d r + cnt r Y <= kref d r) -> inv L Y d.
Proof.
  intros [Hc Hr] HXY Hrefs. split; [by eapply core_items|]. intros r Hr'.
  rewrite (stored_same X Y d r HXY). auto.
Qed.

(** A reference may be forgotten: its count then never drops to 0. *)
Lemma inv_forget L r X d : counted r = true -> inv L (r :: X) d -> inv L X d.
Proof.
  intros Hc Hi. apply (inv_refs L (r :: X)); [done|apply same_items_sym, same_items_cons; done|].
  intros r' Hr'. pose proof (proj2 Hi r' Hr') as H. rewrite cnt_cons in H.
  unfold b2z in H. case_bool_decide; lia.
Qed.

(** A struct with a reference is live. *)
Lemma held_ref L X d r :
  inv L X d -> counted r = true -> r ∈ X -> 1 <= kref d r.
Proof.
  intros Hi Hc Hin. pose proof (proj2 Hi r Hc) as H. pose proof (cnt_in r X Hin).
  assert (0 <= stored X d r); [|lia]. destruct r; simpl; try done.
  - apply Z.add_nonneg_nonneg; apply mcount_nonneg.
  - apply mcount_nonneg.
  - destruct (d_hdls d !! h) as [x|] eqn:E; [|done].
    destruct (h_refcount x =? 0); [done|]. eapply ho_rel; [apply (proj1 Hi)|done].
  - destruct (d_clients d !! c); [|done]. unfold b2z. by destruct (cl_active _).
Qed.

End resources.

(** ** Writing structs *)

Section structs.
Context `{F : DmaFence}.
Implicit Types d : dev.

(** The lists of callbacks of the objects are the same. *)
Lemma cbs_ok_objs X objs objs' nodes wq trace :
  (forall q o', objs' !! q = Some o' -> o_reg_cbs o' = [] \/
     exists o, objs !! q = Some o /\ o_reg_cbs o = o_reg_cbs o') ->
  (forall q o, objs !! q = Some o -> o_reg_cbs o = [] \/
     exists o', objs' !! q = Some o' /\ o_reg_cbs o' = o_reg_cbs o) ->
  cbs_ok X objs nodes wq trace -> cbs_ok X objs' nodes wq trace.
Proof.
  intros H1 H2 [].
  assert (Hin : forall q o' c, objs' !! q = Some o' -> c ∈ o_reg_cbs o' ->
            exists o, objs !! q = Some o /\ c ∈ o_reg_cbs o).
  { intros q o' c Hq Hc. destruct (H1 q o' Hq) as [E|(o & Ho & E)].
    - rewrite E in Hc. by apply elem_of_nil in Hc.
    - exists o. by rewrite E. }
  split; try done.
  - intros p o c Hp Hc. destruct (Hin p o c Hp Hc) as (o1 & Ho & Hc1). eauto.
  - intros p o Hp. destruct (H1 p o Hp) as [E|(o1 & Ho & E)]; rewrite ?E; [constructor|].
    rewrite <- E. eauto.
  - intros p p' o o' c Hp Hp' Hc Hc'.
    destruct (Hin p o c Hp Hc) as (o1 & Ho & Hc1), (Hin p' o' c Hp' Hc') as (o2 & Ho' & Hc2). eauto.
  - intros c Hc. destruct (cb_queued c Hc) as [Hl Hn]. split; [done|]. intros p o Hp Hcp.
    destruct (Hin p o c Hp Hcp) as (o1 & Ho & Hc1). by apply (Hn p o1).
  - intros c Hc. destruct (cb_kept c Hc) as [(p & o & Hp & Hcp)|[|]]; auto.
    destruct (H2 p o Hp) as [E|(o' & Ho' & E)].
    + rewrite E in Hcp. by apply elem_of_nil in Hcp.
    + left. exists p, o'. by rewrite E.
  - intros c Hc. destruct (cb_done c Hc) as (Hl & Hw & Hn). split_and!; try done. intros p o Hp Hcp.
    destruct (Hin p o c Hp Hcp) as (o1 & Ho & Hc1). by apply (Hn p o1).
  - intros c x Hc Ht. destruct (cb_timer c x Hc Ht) as [Hn [(p & o & Hp & Hcp)|]]; [|auto].
    split; [done|]. left. destruct (H2 p o Hp) as [E|(o' & Ho' & E)].
    + rewrite E in Hcp. by apply elem_of_nil in Hcp.
    + exists p, o'. by rewrite E.
Qed.

(** An object keeps its callbacks. *)
Lemma inv_upd_obj L X Y d p o o' :
  inv L X d -> same_items X Y -> d_objs d !! p = Some o ->
  o_num_bound o' = 0 -> o_fence o' < d_next d ->
  (synx_util_is_merged_object o' = true ->
     exists l, to_dma_fence_array (d_fences d) (o_fence o') = Some l /\ o_fence o' ∉ l) ->
  (synx_util_is_merged_object o' = false -> o_fence o' <> 0 ->
     to_dma_fence_array (d_fences d) (o_fence o') = None) ->
  o_reg_cbs o' = o_reg_cbs o ->
  (forall s, o_signal_cb o' = Some s -> obj_active (d_fences d) o' -> RStale p ∉ X ->
     s ∈ cbs (d_fences d) (o_fence o') /\ exists x, d_sigs d !! s = Some x /\ s_obj x = Some p) ->
  (forall r, counted r = true -> r <> RObj p -> cnt r Y <= cnt r X) ->
  stored X d (RObj p) + cnt (RObj p) Y <= o_refcount o' ->
  inv L Y (set_d_objs (<[p := o']> (d_objs d)) d).
Proof.
  intros [[Hh [] Hm Hhd Hc [Hcn Hcl] Hcb Hs [Ho1 Ho2 Ho4 Ho5 Ho3]] Hr] HXY Hp Hb Hf Hmg Hpl Hreg Hsig Hcnt Hrc. split.
  - apply (core_items L X); [done|]. split; try done.
    + split; simpl; try done. intros q Hq. rewrite lookup_insert_ne; [auto|]. intros ->.
      by rewrite fr_objs in Hp.
    + simpl. eapply cbs_ok_objs; [| |exact Hcb].
      * intros q o2 Hq. right. destruct (decide (q = p)) as [->|Hne].
        -- rewrite lookup_insert_eq in Hq. injection Hq as <-. exists o. by rewrite Hreg.
        -- rewrite lookup_insert_ne in Hq by congruence. eauto.
      * intros q o2 Hq. right. destruct (decide (q = p)) as [->|Hne].
        -- rewrite lookup_insert_eq. rewrite Hp in Hq. injection Hq as <-. eexists. by split.
        -- rewrite lookup_insert_ne by congruence. eauto.
    + split; simpl; intros q o2; (destruct (decide (q = p)) as [->|Hne];
        [rewrite lookup_insert_eq|rewrite lookup_insert_ne by congruence; by eauto]).
      * by intros [= <-].
      * by intros [= <-].
      * by intros [= <-].
      * by intros [= <-].
      * intros s [= <-]. exact (Hsig s).
  - intros r Hr'. rewrite (stored_same X Y _ r HXY). specialize (Hr r Hr').
    destruct (decide (r = RObj p)) as [->|Hne].
    + simpl in *. rewrite lookup_insert_eq. simpl. lia.
    + specialize (Hcnt r Hr' Hne). transitivity (stored X d r + cnt r X).
      * change (stored X (set_d_objs _ d) r) with (stored X d r). lia.
      * destruct r; simpl in *; try done. by rewrite lookup_insert_ne by congruence.
Qed.

(** The fields of an object that the invariant reads, but its count. *)
Record same_obj (o o' : synx_coredata) : Prop := mk_same_obj {
  so_bound : o_num_bound o' = o_num_bound o;
  so_fence : o_fence o' = o_fence o;
  so_reg : o_reg_cbs o' = o_reg_cbs o;
  so_signal : o_signal_cb o' = o_signal_cb o \/ o_signal_cb o' = None;
  so_merged : synx_util_is_merged_object o' = synx_util_is_merged_object o
}.

Lemma inv_upd_same L X Y d p o o' :
  inv L X d -> same_items X Y -> d_objs d !! p = Some o -> same_obj o o' ->
  (forall r, counted r = true -> r <> RObj p -> cnt r Y <= cnt r X) ->
  stored X d (RObj p) + cnt (RObj p) Y <= o_refcount o' ->
  inv L Y (set_d_objs (<[p := o']> (d_objs d)) d).
Proof.
  intros Hi HXY Hp [E1 E2 E3 E4 E5] Hcnt Hrc. pose proof (in_objs _ _ _ (proj1 Hi)) as [Ho1 Ho2 Ho4 Ho5 Ho3].
  eapply inv_upd_obj; try done.
  - rewrite E1. by eapply Ho1.
  - rewrite E2. by eapply Ho2.
  - rewrite E2, E5. by eapply Ho4.
  - rewrite E2, E5. by eapply Ho5.
  - intros s Hs Ha. destruct E4 as [E4|E4]; [|congruence]. rewrite E2. eapply Ho3; [done|congruence|].
    unfold obj_active in *. by rewrite E5, E2 in Ha.
Qed.

Lemma inv_obj_frame L X d p o o' :
  inv L X d -> d_objs d !! p = Some o -> same_obj o o' -> o_refcount o' = o_refcount o ->
  inv L X (set_d_objs (<[p := o']> (d_objs d)) d).
Proof.
  intros Hi Hp Ho Hr. eapply inv_upd_same; [exact Hi|apply same_items_refl|done|done|done|].
  pose proof (proj2 Hi (RObj p) eq_refl) as H. simpl in *. rewrite Hp in H. simpl in *. lia.
Qed.

Lemma cnt_cons_ne r r' X : r <> r' -> cnt r (r' :: X) = cnt r X.
Proof. intros H. rewrite cnt_cons, bool_decide_false by done. done. Qed.
Lemma cnt_cons_eq r X : cnt r (r :: X) = 1 + cnt r X.
Proof. rewrite cnt_cons, bool_decide_true by done. done. Qed.

Lemma inv_obj_get L X d p o :
  inv L X d -> d_objs d !! p = Some o ->
  inv L (RObj p :: X) (set_d_objs (<[p := set_o_refcount (o_refcount o + 1) o]> (d_objs d)) d).
Proof.
  intros Hi Hp. eapply inv_upd_same; [exact Hi|by apply same_items_cons|done| | |].
  - split; auto.
  - intros r _ Hne. rewrite cnt_cons_ne; [lia|congruence].
  - pose proof (proj2 Hi (RObj p) eq_refl) as H. rewrite cnt_cons_eq. simpl in *. rewrite Hp in H. simpl in *. lia.
Qed.

Lemma inv_obj_put L X d p o :
  inv L (RObj p :: X) d -> d_objs d !! p = Some o ->
  inv L X (set_d_objs (<[p := set_o_refcount (o_refcount o - 1) o]> (d_objs d)) d).
Proof.
  intros Hi Hp. eapply inv_upd_same; [exact Hi|by apply same_items_sym, same_items_cons|done| | |].
  - split; auto.
  - intros r _ Hne. rewrite cnt_cons_ne; [lia|congruence].
  - pose proof (proj2 Hi (RObj p) eq_refl) as H. rewrite cnt_cons_eq in H. simpl in *. rewrite Hp in H. simpl in *. lia.
Qed.

(** Items other than counted references. *)
Lemma inv_stale L X d p : inv L X d -> inv L (RStale p :: X) d.
Proof.
  intros [[Hh Hf Hm Hhd Hc Hcu Hcb Hs [Ho1 Ho2 Ho4 Ho5 Ho3]] Hr]. split.
  - split; try done.
    + destruct Hcu as [Hn Hl]. by split.
    + destruct Hcb. split; try done.
      * intros c Hcc. rewrite elem_of_cons. destruct (cb_kept c Hcc) as [|[|]]; auto.
      * intros c Hcc. apply elem_of_cons in Hcc as [|Hcc]; [done|]. auto.
      * intros c x Hx Ht. rewrite elem_of_cons. destruct (cb_timer c x Hx Ht) as [? [|]]; auto.
      * intros c f h st dt Hcc. rewrite elem_of_cons. destruct (cb_trace c f h st dt Hcc); auto.
    + destruct Hs. by split.
    + split; try done. intros q o s Hq Hsg Ha Hst. apply (Ho3 q o s); auto.
      intros Hin. apply Hst. by apply list_elem_of_further.
  - intros r Hr'. specialize (Hr r Hr'). rewrite cnt_cons_ne by (intros ->; done).
    replace (stored (RStale p :: X) d r) with (stored X d r); [done|].
    destruct r; simpl; try done; [f_equal|]; apply mcount_ext; intros i v _; f_equal; apply bool_decide_ext;
      rewrite elem_of_cons; naive_solver.
Qed.

Lemma inv_unstale L X d p o :
  inv L (RStale p :: X) d -> d_objs d !! p = Some o -> o_signal_cb o = None -> inv L X d.
Proof.
  intros [[Hh Hf Hm Hhd Hc [Hn Hl] Hcb Hs [Ho1 Ho2 Ho4 Ho5 Ho3]] Hr] Hp Hsn. split.
  - split; try done.
    + destruct Hcb. split; try done.
      * intros c Hcc. specialize (cb_kept c Hcc). rewrite elem_of_cons in cb_kept.
        destruct cb_kept as [|[|[|]]]; auto. done.
      * intros c Hcc. apply cb_done. by apply list_elem_of_further.
      * intros c x Hx Ht. specialize (cb_timer c x Hx Ht). rewrite elem_of_cons in cb_timer.
        destruct cb_timer as [? [|[|]]]; auto. done.
      * intros c f h st dt Hcc. specialize (cb_trace c f h st dt Hcc). rewrite elem_of_cons in cb_trace.
        destruct cb_trace as [|[|]]; auto. done.
    + destruct Hs. by split.
    + split; try done. intros q o' s Hq Hsg Ha Hst. apply (Ho3 q o' s); auto.
      rewrite elem_of_cons. intros [[= ->]|Hin]; [congruence|done].
  - intros r Hr'. specialize (Hr r Hr'). rewrite cnt_cons_ne in Hr by (intros ->; done).
    replace (stored X d r) with (stored (RStale p :: X) d r); [done|].
    destruct r; simpl; try done; [f_equal|]; apply mcount_ext; intros i v _; f_equal; apply bool_decide_ext;
      rewrite elem_of_cons; naive_solver.
Qed.

End structs.

(** ** Counting references on map entries, handles and clients *)

Section counts.
Context `{F : DmaFence}.
Implicit Types d : dev.

Lemma inv_upd_ent L X Y d e m r :
  inv L X d -> same_items X Y -> d_ents d !! e = Some m -> 1 <= m_refcount m -> 1 <= r ->
  (forall r', counted r' = true -> r' <> REnt e -> cnt r' Y <= cnt r' X) ->
  stored X d (REnt e) + cnt (REnt e) Y <= r ->
  inv L Y (set_d_ents (<[e := set_m_refcount r m]> (d_ents d)) d).
Proof.
  intros [[Hh [] [M1 M2 M3] [H1 H2 H3 H4] Hc [Hcn Hcl] Hcb Hs Ho] Hr] HXY He Hm0 Hr0 Hcnt Hrc. split.
  - apply (core_items L X); [done|]. split; try done.
    + split; simpl; try done. intros q Hq. rewrite lookup_insert_ne; [auto|]. intros ->.
      by rewrite fr_ents in He.
    + split; simpl.
      * intros q Hq. destruct (M1 q Hq) as (m1 & Hm1 & Hk). destruct (decide (q = e)) as [->|Hne].
        -- rewrite lookup_insert_eq. eexists. split; [done|]. simpl. split; [done|]. congruence || naive_solver.
        -- rewrite lookup_insert_ne by congruence. eauto.
      * intros q Hq. destruct (M2 q Hq) as (m1 & Hm1 & Hk). destruct (decide (q = e)) as [->|Hne].
        -- rewrite lookup_insert_eq. eexists. split; [done|]. simpl. naive_solver.
        -- rewrite lookup_insert_ne by congruence. eauto.
      * intros q m1 Hq. destruct (decide (q = e)) as [->|Hne].
        -- rewrite lookup_insert_eq in Hq. injection Hq as <-. simpl. eauto.
        -- rewrite lookup_insert_ne in Hq by congruence. eauto.
    + split; simpl; try done. intros h x Hx. destruct (H3 h x Hx) as (m1 & Hm1 & Hk).
      destruct (decide (h_ent x = e)) as [E|Hne].
      * rewrite E, lookup_insert_eq. eexists. split; [done|]. simpl. rewrite E in Hm1. congruence.
      * rewrite lookup_insert_ne by congruence. eauto.
    + split; simpl; [done|]. intros w Hw. specialize (Hcl w Hw). destruct w as [q| |]; simpl in *; try done.
      destruct Hcl as (m1 & Hm1 & Hz). destruct (decide (q = e)) as [->|Hne].
      * rewrite Hm1 in He. injection He as ->. lia.
      * rewrite lookup_insert_ne by congruence. eauto.
  - intros r' Hr'. rewrite (stored_same X Y _ r' HXY). specialize (Hr r' Hr').
    destruct (decide (r' = REnt e)) as [->|Hne].
    + simpl in *. rewrite lookup_insert_eq. simpl. lia.
    + specialize (Hcnt r' Hr' Hne). destruct r'; simpl in *; try done; try lia.
      * rewrite (mcount_update _ _ e m) by done. simpl. lia.
      * rewrite lookup_insert_ne by congruence. lia.
Qed.

Lemma inv_ent_get L X d e m :
  inv L X d -> d_ents d !! e = Some m -> 1 <= m_refcount m ->
  inv L (REnt e :: X) (set_d_ents (<[e := set_m_refcount (m_refcount m + 1) m]> (d_ents d)) d).
Proof.
  intros Hi He Hm. eapply inv_upd_ent; [exact Hi|by apply same_items_cons|done|done|lia| |].
  - intros r _ Hne. rewrite cnt_cons_ne; [lia|congruence].
  - pose proof (proj2 Hi (REnt e) eq_refl) as H. rewrite cnt_cons_eq. simpl in *. rewrite He in H. simpl in *. lia.
Qed.

Lemma inv_ent_put L X d e m :
  inv L (REnt e :: X) d -> d_ents d !! e = Some m -> m_refcount m <> 1 ->
  inv L X (set_d_ents (<[e := set_m_refcount (m_refcount m - 1) m]> (d_ents d)) d).
Proof.
  intros Hi He Hm. pose proof (proj2 Hi (REnt e) eq_refl) as H. rewrite cnt_cons_eq in H.
  pose proof (cnt_nonneg (REnt e) X).
  assert (0 <= stored (REnt e :: X) d (REnt e)) by apply mcount_nonneg.
  simpl in H. rewrite He in H. simpl in H.
  eapply inv_upd_ent; [exact Hi|by apply same_items_sym, same_items_cons|done|simpl in *; lia|simpl in *; lia| |].
  - intros r _ Hne. rewrite cnt_cons_ne; [lia|congruence].
  - simpl in *. lia.
Qed.

(** The state after the last reference of a map entry is put. *)
Definition drop_ent (e : Z) (m : synx_map_entry) (d : dev) : dev :=
  let d := set_d_ents (<[e := set_m_refcount 0 m]> (d_ents d)) d in
  let d := set_map_entries (m_key m)
             (List.filter (fun e' => negb (e' =? e)) (map_entries (m_key m) d)) d in
  set_d_wq_cleanup (d_wq_cleanup d ++ [WEnt e]) d.

Lemma not_queued X d w : cleanup_ok X d -> ~ clean_live d w -> w ∉ clean_items X ++ d_wq_cleanup d.
Proof. intros [_ Hl] Hn Hin. apply Hn. by apply Hl. Qed.

Lemma NoDup_snoc {A} (l : list A) x : NoDup l -> x ∉ l -> NoDup (l ++ [x]).
Proof.
  intros Hl Hx. apply NoDup_app. split_and!; [done| |apply NoDup_singleton].
  intros y Hy. rewrite list_elem_of_singleton. congruence.
Qed.

Lemma elem_of_filter_ne (x y : Z) (l : list Z) :
  x ∈ List.filter (fun z => negb (z =? y)) l <-> x ∈ l /\ x <> y.
Proof.
  rewrite !list_elem_of_In, List.filter_In, negb_true_iff, Z.eqb_neq. done.
Qed.

Lemma inv_drop_ent L X d e m :
  inv L (REnt e :: X) d -> d_ents d !! e = Some m -> m_refcount m = 1 -> inv L X (drop_ent e m d).
Proof.
  intros Hi He Hm. pose proof (proj2 Hi (REnt e) eq_refl) as Hz. rewrite cnt_cons_eq in Hz.
  pose proof (cnt_nonneg (REnt e) X).
  assert (0 <= stored (REnt e :: X) d (REnt e)) by apply mcount_nonneg.
  pose proof (same_items_sym _ _ (same_items_cons (REnt e) X eq_refl)) as HXY.
  destruct Hi as [Hco Hr]. apply (core_items _ _ _ _ HXY) in Hco.
  destruct Hco as [Hh [] [M1 M2 M3] [H1 H2 H3 H4] Hc Hcu Hcb Hs Ho].
  assert (Hnq : WEnt e ∉ clean_items X ++ d_wq_cleanup d).
  { apply not_queued; [done|]. simpl. intros (m1 & Hm1 & ?). rewrite He in Hm1. injection Hm1 as <-. lia. }
  destruct Hcu as [Hcn Hcl].
  assert (Hent : d_ents (drop_ent e m d) = <[e := set_m_refcount 0 m]> (d_ents d)).
  { unfold drop_ent, set_map_entries. by destruct (synx_util_is_global_handle _). }
  assert (Hg : forall q, q ∈ d_global_map (drop_ent e m d) -> q ∈ d_global_map d /\ q <> e).
  { intros q. unfold drop_ent, set_map_entries, map_entries. destruct (synx_util_is_global_handle _) eqn:Ek; simpl.
    - by rewrite elem_of_filter_ne.
    - intros Hq. split; [done|]. intros ->. destruct (M1 e Hq) as (m1 & Hm1 & _ & Hk). congruence. }
  assert (Hl : forall q, q ∈ d_local_map (drop_ent e m d) -> q ∈ d_local_map d /\ q <> e).
  { intros q. unfold drop_ent, set_map_entries, map_entries. destruct (synx_util_is_global_handle _) eqn:Ek; simpl.
    - intros Hq. split; [done|]. intros ->. destruct (M2 e Hq) as (m1 & Hm1 & _ & Hk). congruence.
    - by rewrite elem_of_filter_ne. }
  set (d' := drop_ent e m d) in *.
  assert (Hsame : d_held d' = d_held d /\ d_next d' = d_next d /\ d_objs d' = d_objs d /\ d_hdls d' = d_hdls d /\
    d_clients d' = d_clients d /\ d_cbs d' = d_cbs d /\ d_sigs d' = d_sigs d /\ d_fences d' = d_fences d /\
    d_fence_map d' = d_fence_map d /\ d_trace d' = d_trace d /\ d_sessions d' = d_sessions d /\
    d_wq_cb d' = d_wq_cb d /\ d_wq_cleanup d' = d_wq_cleanup d ++ [WEnt e]).
  { unfold d', drop_ent, set_map_entries. by destruct (synx_util_is_global_handle _). }
  destruct Hsame as (E1 & E2 & E3 & E4 & E5 & E6 & E7 & E8 & E9 & E10 & E11 & E12 & E13).
  clearbody d'. split.
  - split; rewrite ?E1, ?E2, ?E3, ?E4, ?E5, ?E6, ?E7, ?E8, ?E10, ?E11, ?E12, ?Hent; try done.
    + split; rewrite ?E3, ?E4, ?E5, ?E6, ?E7, ?E8, ?E9, ?E10, ?Hent; try done.
      intros q Hq. rewrite lookup_insert_ne; [auto|]. intros ->. by rewrite fr_ents in He.
    + split.
      * intros q Hq. destruct (Hg q Hq) as [Hq1 Hne]. rewrite lookup_insert_ne by congruence. auto.
      * intros q Hq. destruct (Hl q Hq) as [Hq1 Hne]. rewrite lookup_insert_ne by congruence. auto.
      * intros q m1 Hq. destruct (decide (q = e)) as [->|Hne].
        -- rewrite lookup_insert_eq in Hq. injection Hq as <-. simpl. eauto.
        -- rewrite lookup_insert_ne in Hq by congruence. eauto.
    + split; try done. intros h x Hx. destruct (H3 h x Hx) as (m1 & Hm1 & Hk).
      destruct (decide (h_ent x = e)) as [E|Hne].
      * rewrite E, lookup_insert_eq. eexists. split; [done|]. simpl. rewrite E in Hm1. congruence.
      * rewrite lookup_insert_ne by congruence. eauto.
    + split; rewrite E13, app_assoc; [by apply NoDup_snoc|].
      intros w Hw. apply elem_of_app in Hw as [Hw|Hw].
      * specialize (Hcl w Hw). destruct w as [q|q|q]; simpl in *; rewrite ?Hent, ?E4, ?E5; try done.
        rewrite lookup_insert_ne; [done|]. intros ->. done.
      * apply list_elem_of_singleton in Hw as ->. simpl. rewrite Hent, lookup_insert_eq. eauto.
  - intros r' Hr'. rewrite (stored_same (REnt e :: X) X _ r' HXY). specialize (Hr r' Hr').
    destruct (decide (r' = REnt e)) as [->|Hne].
    + simpl in *. rewrite Hent, E4, lookup_insert_eq. simpl. rewrite He in Hz. simpl in Hz. lia.
    + rewrite cnt_cons_ne in Hr by congruence. destruct r'; simpl in *; rewrite ?E3, ?E4, ?E5, ?E7, ?Hent; try done.
      * rewrite (mcount_update _ _ e m) by done. simpl. lia.
      * by rewrite lookup_insert_ne by congruence.
Qed.

(** A handle that stays referenced. *)
Lemma inv_upd_hdl L X Y d h x r rel :
  inv L X d -> same_items X Y -> d_hdls d !! h = Some x -> 1 <= h_refcount x -> 1 <= r -> 0 <= rel ->
  (forall r', counted r' = true -> r' <> RHdl h -> cnt r' Y <= cnt r' X) ->
  rel + cnt (RHdl h) Y <= r ->
  inv L Y (set_d_hdls (<[h := set_h_rel_count rel (set_h_refcount r x)]> (d_hdls d)) d).
Proof.
  intros [[Hh [] Hm [H1 H2 H3 H4] Hc [Hcn Hcl] Hcb Hs Ho] Hr] HXY Hx Hr1 Hr2 Hrel Hcnt Hrc. split.
  - apply (core_items L X); [done|]. split; try done.
    + split; simpl; try done. intros q Hq. rewrite lookup_insert_ne; [auto|]. intros ->.
      by rewrite fr_hdls in Hx.
    + split; simpl.
      * intros c cl q Hcl' Hq. destruct (H1 c cl q Hcl' Hq) as (x1 & Hx1 & Hk).
        destruct (decide (q = h)) as [->|Hne].
        -- rewrite lookup_insert_eq. eexists. split; [done|]. simpl. split; [done|]. naive_solver.
        -- rewrite lookup_insert_ne by congruence. eauto.
      * intros q x1 Hq Hq1. destruct (decide (q = h)) as [->|Hne].
        -- rewrite lookup_insert_eq in Hq. injection Hq as <-. simpl. eauto.
        -- rewrite lookup_insert_ne in Hq by congruence. eauto.
      * intros q x1 Hq. destruct (decide (q = h)) as [->|Hne].
        -- rewrite lookup_insert_eq in Hq. injection Hq as <-. simpl. eauto.
        -- rewrite lookup_insert_ne in Hq by congruence. eauto.
      * intros q x1 Hq. destruct (decide (q = h)) as [->|Hne].
        -- rewrite lookup_insert_eq in Hq. injection Hq as <-. done.
        -- rewrite lookup_insert_ne in Hq by congruence. eauto.
    + split; simpl; [done|]. intros w Hw. specialize (Hcl w Hw). destruct w as [|q|]; simpl in *; try done.
      destruct Hcl as (x1 & Hx1 & Hz). destruct (decide (q = h)) as [->|Hne].
      * rewrite Hx1 in Hx. injection Hx as ->. lia.
      * rewrite lookup_insert_ne by congruence. eauto.
  - intros r' Hr'. rewrite (stored_same X Y _ r' HXY). specialize (Hr r' Hr').
    destruct (decide (r' = RHdl h)) as [->|Hne].
    + simpl in *. rewrite lookup_insert_eq. simpl. destruct (r =? 0) eqn:E; zbool; lia.
    + specialize (Hcnt r' Hr' Hne). destruct r'; simpl in *; try done; try lia.
      * rewrite (mcount_update _ _ h x) by done. simpl. lia.
      * rewrite !lookup_insert_ne by congruence. lia.
Qed.

(** The state after the last reference of a handle is put. *)
Definition drop_hdl (h : Z) (x : synx_handle_coredata) (cl : synx_client) (d : dev) : dev :=
  let d := set_d_hdls (<[h := set_h_refcount 0 x]> (d_hdls d)) d in
  let cl := set_cl_handle_map (List.filter (fun h' => negb (h' =? h)) (cl_handle_map cl)) cl in
  let d := set_d_clients (<[h_client x := cl]> (d_clients d)) d in
  set_d_wq_cleanup (d_wq_cleanup d ++ [WHdl h]) d.

Lemma clients_ok_map sessions clients c cl l :
  clients_ok sessions clients -> clients !! c = Some cl ->
  clients_ok sessions (<[c := set_cl_handle_map l cl]> clients).
Proof.
  intros [C1 C2 C3 C4] Hc. split.
  - intros q Hq. destruct (C1 q Hq) as (cl1 & H1 & H2). destruct (decide (q = c)) as [->|Hne].
    + rewrite lookup_insert_eq. eexists. split; [done|]. simpl. congruence.
    + rewrite lookup_insert_ne by congruence. eauto.
  - intros q cl1. destruct (decide (q = c)) as [->|Hne].
    + rewrite lookup_insert_eq. intros [= <-]. by apply (C2 c cl).
    + rewrite lookup_insert_ne by congruence. eauto.
  - intros q cl1 i k. destruct (decide (q = c)) as [->|Hne].
    + rewrite lookup_insert_eq. intros [= <-]. by apply (C3 c cl).
    + rewrite lookup_insert_ne by congruence. eauto.
  - intros q cl1 i. destruct (decide (q = c)) as [->|Hne].
    + rewrite lookup_insert_eq. intros [= <-]. by apply (C4 c cl).
    + rewrite lookup_insert_ne by congruence. eauto.
Qed.

Lemma inv_drop_hdl L X Y d h x cl :
  inv L X d -> same_items X Y -> d_hdls d !! h = Some x -> 1 <= h_refcount x ->
  d_clients d !! h_client x = Some cl ->
  (forall r', counted r' = true -> r' <> RHdl h -> cnt r' Y <= cnt r' X) -> cnt (RHdl h) Y = 0 ->
  inv L Y (drop_hdl h x cl d).
Proof.
  intros [[Hh [] Hm [H1 H2 H3 H4] Hc Hcu Hcb Hs Ho] Hr] HXY Hx Hr1 Hcl' Hcnt Hrc.
  assert (Hnq : WHdl h ∉ clean_items X ++ d_wq_cleanup d).
  { apply not_queued; [done|]. simpl. intros (m1 & Hm1 & ?). rewrite Hx in Hm1. injection Hm1 as <-. lia. }
  destruct Hcu as [Hcn Hcl]. unfold drop_hdl. split.
  - apply (core_items L X); [done|]. split; simpl; try done.
    + split; simpl; try done.
      * intros q Hq. rewrite lookup_insert_ne; [auto|]. intros ->. by rewrite fr_hdls in Hx.
      * intros q Hq. rewrite lookup_insert_ne; [auto|]. intros <-. by rewrite fr_clients in Hcl'.
    + split.
      * intros c cl1 q Hcl1 Hq.
        assert (Hq' : (exists cl0, d_clients d !! c = Some cl0 /\ q ∈ cl_handle_map cl0) /\
                  (c = h_client x -> q <> h)).
        { destruct (decide (c = h_client x)) as [->|Hne].
          - rewrite lookup_insert_eq in Hcl1. injection Hcl1 as <-. simpl in Hq.
            apply elem_of_filter_ne in Hq as [Hq Hne]. split; [eauto|done].
          - rewrite lookup_insert_ne in Hcl1 by congruence. split; [eauto|done]. }
        destruct Hq' as [(cl0 & Hcl0 & Hq0) Hne]. destruct (H1 c cl0 q Hcl0 Hq0) as (x1 & Hx1 & Hk1 & Hk2).
        rewrite lookup_insert_ne; [eauto|]. intros <-. rewrite Hx in Hx1. injection Hx1 as <-. by apply Hne.
      * intros q x1 Hq Hq1. destruct (decide (q = h)) as [->|Hne].
        -- rewrite lookup_insert_eq in Hq. injection Hq as <-. simpl in Hq1. lia.
        -- rewrite lookup_insert_ne in Hq by congruence. destruct (H2 q x1 Hq Hq1) as (cl1 & Hcl1 & Hin).
           destruct (decide (h_client x1 = h_client x)) as [E|Hne'].
           ++ rewrite E, lookup_insert_eq. eexists. split; [done|]. simpl. apply elem_of_filter_ne.
              rewrite E in Hcl1. split; [congruence|done].
           ++ rewrite lookup_insert_ne by congruence. eauto.
      * intros q x1 Hq. destruct (decide (q = h)) as [->|Hne].
        -- rewrite lookup_insert_eq in Hq. injection Hq as <-. simpl. eauto.
        -- rewrite lookup_insert_ne in Hq by congruence. eauto.
      * intros q x1 Hq. destruct (decide (q = h)) as [->|Hne].
        -- rewrite lookup_insert_eq in Hq. injection Hq as <-. simpl. eauto.
        -- rewrite lookup_insert_ne in Hq by congruence. eauto.
    + by apply clients_ok_map.
    + split; simpl; rewrite app_assoc; [by apply NoDup_snoc|].
      intros w Hw. apply elem_of_app in Hw as [Hw|Hw].
      * specialize (Hcl w Hw). destruct w as [q|q|q]; simpl in *; try done.
        -- rewrite lookup_insert_ne; [done|]. intros ->. done.
        -- destruct Hcl as (cl1 & Hcl1 & Hz). destruct (decide (q = h_client x)) as [->|Hne].
           ++ rewrite lookup_insert_eq. eexists. split; [done|]. simpl. congruence.
           ++ rewrite lookup_insert_ne by congruence. eauto.
      * apply list_elem_of_singleton in Hw as ->. simpl. rewrite lookup_insert_eq. eauto.
  - intros r' Hr'. rewrite (stored_same X Y _ r' HXY). specialize (Hr r' Hr').
    destruct (decide (r' = RHdl h)) as [->|Hne].
    + simpl in *. rewrite lookup_insert_eq. simpl. lia.
    + specialize (Hcnt r' Hr' Hne). destruct r' as [| | |q| | | | |]; simpl in *; try done; try lia.
      * rewrite (mcount_update _ _ h x) by done. simpl. lia.
      * rewrite !lookup_insert_ne by congruence. lia.
      * destruct (decide (q = h_client x)) as [->|Hne'].
        -- rewrite lookup_insert_eq. rewrite Hcl' in Hr. simpl in *. lia.
        -- rewrite lookup_insert_ne by congruence. lia.
Qed.

(** A client that stays referenced. *)
Record client_step (c : Z) (cl cl' : synx_client) : Prop := mk_client_step {
  cs_map : cl_handle_map cl' = cl_handle_map cl;
  cs_table : length (cl_cb_table cl') = length (cl_cb_table cl);
  cs_entry i k : cl_cb_table cl' !! i = Some k -> cl_cb_table cl !! i = Some k \/
    ((k_valid k = true -> is_Some (k_func k)) /\ (k_client k = None \/ k_client k = Some c));
  cs_event i : i ∈ cl_event_q cl' -> i ∈ cl_event_q cl \/ i < SYNX_MAX_OBJS
}.

Lemma inv_upd_cli L X Y d c cl cl' :
  inv L X d -> same_items X Y -> d_clients d !! c = Some cl -> client_step c cl cl' ->
  cl_refcount cl' = cl_refcount cl \/ (1 <= cl_refcount cl /\ 1 <= cl_refcount cl') ->
  (forall r', counted r' = true -> r' <> RCli c -> cnt r' Y <= cnt r' X) ->
  b2z (cl_active cl') + cnt (RCli c) Y <= cl_refcount cl' ->
  inv L Y (set_d_clients (<[c := cl']> (d_clients d)) d).
Proof.
  intros [[Hh [] Hm [H1 H2 H3 H4] [C1 C2 C3 C4] [Hcn Hcl] Hcb Hs Ho] Hr] HXY Hc [S1 S2 S3 S4] Hrr Hcnt Hrc.
  split.
  - apply (core_items L X); [done|]. split; try done.
    + split; simpl; try done. intros q Hq. rewrite lookup_insert_ne; [auto|]. intros ->.
      by rewrite fr_clients in Hc.
    + split; simpl; try done.
      * intros q cl1 h Hq Hh1. destruct (decide (q = c)) as [->|Hne].
        -- rewrite lookup_insert_eq in Hq. injection Hq as <-. rewrite S1 in Hh1. eauto.
        -- rewrite lookup_insert_ne in Hq by congruence. eauto.
      * intros h x Hx Hx1. destruct (H2 h x Hx Hx1) as (cl1 & Hcl1 & Hin).
        destruct (decide (h_client x = c)) as [E|Hne].
        -- rewrite E, lookup_insert_eq. eexists. split; [done|]. rewrite S1. rewrite E in Hcl1. congruence.
        -- rewrite lookup_insert_ne by congruence. eauto.
    + split; simpl.
      * intros q Hq. destruct (C1 q Hq) as (cl1 & K1 & K2). destruct (decide (q = c)) as [->|Hne].
        -- rewrite lookup_insert_eq. eexists. split; [done|]. rewrite Hc in K1. injection K1 as <-. lia.
        -- rewrite lookup_insert_ne by congruence. eauto.
      * intros q cl1. destruct (decide (q = c)) as [->|Hne].
        -- rewrite lookup_insert_eq. intros [= <-]. rewrite S2. by apply (C2 c cl).
        -- rewrite lookup_insert_ne by congruence. eauto.
      * intros q cl1 i k. destruct (decide (q = c)) as [->|Hne].
        -- rewrite lookup_insert_eq. intros [= <-] Hk. destruct (S3 i k Hk) as [|]; [by eapply C3|done].
        -- rewrite lookup_insert_ne by congruence. eauto.
      * intros q cl1 i. destruct (decide (q = c)) as [->|Hne].
        -- rewrite lookup_insert_eq. intros [= <-] Hk. destruct (S4 i Hk) as [|]; [by eapply C4|done].
        -- rewrite lookup_insert_ne by congruence. eauto.
    + split; simpl; [done|]. intros w Hw. specialize (Hcl w Hw). destruct w as [| |q]; simpl in *; try done.
      destruct Hcl as (cl1 & Hcl1 & Hz). destruct (decide (q = c)) as [->|Hne].
      * rewrite lookup_insert_eq. eexists. split; [done|]. rewrite Hc in Hcl1. injection Hcl1 as ->. lia.
      * rewrite lookup_insert_ne by congruence. eauto.
  - intros r' Hr'. rewrite (stored_same X Y _ r' HXY). specialize (Hr r' Hr').
    destruct (decide (r' = RCli c)) as [->|Hne].
    + simpl in *. rewrite !lookup_insert_eq. simpl. lia.
    + specialize (Hcnt r' Hr' Hne). destruct r' as [| | |q| | | | |]; simpl in *; try done; try lia.
      rewrite lookup_insert_ne by congruence. lia.
Qed.

(** The state after the last reference of a client is put. *)
Definition drop_cli (c : Z) (cl : synx_client) (d : dev) : dev :=
  let d := set_d_clients (<[c := set_cl_refcount 0 cl]> (d_clients d)) d in
  let d := set_d_sessions (List.filter (fun c' => negb (c' =? c)) (d_sessions d)) d in
  set_d_wq_cleanup (d_wq_cleanup d ++ [WCli c]) d.

Lemma inv_drop_cli L X d c cl :
  inv L (RCli c :: X) d -> d_clients d !! c = Some cl -> cl_refcount cl = 1 -> inv L X (drop_cli c cl d).
Proof.
  intros Hi Hc Hc1. pose proof (proj2 Hi (RCli c) eq_refl) as Hz. rewrite cnt_cons_eq in Hz.
  simpl in Hz. rewrite Hc in Hz. simpl in Hz. pose proof (cnt_nonneg (RCli c) X).
  pose proof (same_items_sym _ _ (same_items_cons (RCli c) X eq_refl)) as HXY.
  destruct Hi as [Hco Hr]. apply (core_items _ _ _ _ HXY) in Hco.
  destruct Hco as [Hh [] Hm [H1 H2 H3 H4] [C1 C2 C3 C4] Hcu Hcb Hs Ho].
  assert (Hnq : WCli c ∉ clean_items X ++ d_wq_cleanup d).
  { apply not_queued; [done|]. simpl. intros (m1 & Hm1 & ?). rewrite Hc in Hm1. injection Hm1 as <-. lia. }
  destruct Hcu as [Hcn Hcl]. unfold drop_cli. split.
  - split; simpl; try done.
    + split; simpl; try done. intros q Hq. rewrite lookup_insert_ne; [auto|]. intros ->.
      by rewrite fr_clients in Hc.
    + split; simpl; try done.
      * intros q cl1 h Hq Hh1. destruct (decide (q = c)) as [->|Hne].
        -- rewrite lookup_insert_eq in Hq. injection Hq as <-. eauto.
        -- rewrite lookup_insert_ne in Hq by congruence. eauto.
      * intros h x Hx Hx1. destruct (H2 h x Hx Hx1) as (cl1 & Hcl1 & Hin).
        destruct (decide (h_client x = c)) as [E|Hne].
        -- rewrite E, lookup_insert_eq. eexists. split; [done|]. rewrite E in Hcl1. simpl. congruence.
        -- rewrite lookup_insert_ne by congruence. eauto.
    + split; simpl.
      * intros q Hq. apply elem_of_filter_ne in Hq as [Hq Hne]. rewrite lookup_insert_ne by congruence. auto.
      * intros q cl1. destruct (decide (q = c)) as [->|Hne].
        -- rewrite lookup_insert_eq. intros [= <-]. by apply (C2 c cl).
        -- rewrite lookup_insert_ne by congruence. eauto.
      * intros q cl1 i k. destruct (decide (q = c)) as [->|Hne].
        -- rewrite lookup_insert_eq. intros [= <-]. by apply (C3 c cl).
        -- rewrite lookup_insert_ne by congruence. eauto.
      * intros q cl1 i. destruct (decide (q = c)) as [->|Hne].
        -- rewrite lookup_insert_eq. intros [= <-]. by apply (C4 c cl).
        -- rewrite lookup_insert_ne by congruence. eauto.
    + split; simpl; rewrite app_assoc; [by apply NoDup_snoc|].
      intros w Hw. apply elem_of_app in Hw as [Hw|Hw].
      * specialize (Hcl w Hw). destruct w as [q|q|q]; simpl in *; try done.
        rewrite lookup_insert_ne; [done|]. intros ->. done.
      * apply list_elem_of_singleton in Hw as ->. simpl. rewrite lookup_insert_eq. eauto.
  - intros r' Hr'. rewrite (stored_same (RCli c :: X) X _ r' HXY). specialize (Hr r' Hr').
    destruct (decide (r' = RCli c)) as [->|Hne].
    + simpl in *. rewrite !lookup_insert_eq. simpl. unfold b2z in *. destruct (cl_active cl); lia.
    + rewrite cnt_cons_ne in Hr by congruence. destruct r' as [| | |q| | | | |]; simpl in *; try done.
      by rewrite !lookup_insert_ne by congruence.
Qed.

End counts.
