(* ===== verification/SynxOwn.v ===== *)
(** * The synx client framework: structs that have one owner

    Allocation and release of structs, the way of a callback node from the list
    of its object to the work queue, that of a [synx_signal_cb] between a fence,
    the queue and the code, and the calls of the kernel's fences keep the
    invariant. *)

From S2P Require Import Prelude SynxGlobal SynxSignal SynxDev SynxUtil SynxClient SynxInv SynxRefs.

Lemma in_hand_not (r r' : res) X : r <> r' -> r ∈ r' :: X <-> r ∈ X.
Proof. rewrite elem_of_cons. naive_solver. Qed.

(** Items of another kind in hand. *)
Ltac hand :=
  intros; repeat match goal with
  | |- context [?r ∈ ?r' :: ?X] => rewrite (in_hand_not r r' X) by done
  | H : context [?r ∈ ?r' :: ?X] |- _ => rewrite (in_hand_not r r' X) in H by done
  end; done.

Section own.
Context `{F : DmaFence}.
Implicit Types d : dev.

(** ** What is stored, when an item is taken in hand *)

Lemma stored_plain r X d r' :
  (forall s, r <> RSig s) -> (forall w, r <> RClean w) -> stored (r :: X) d r' = stored X d r'.
Proof.
  intros H1 H2. destruct r'; simpl; try done; [f_equal|]; apply mcount_ext; intros i v _;
    f_equal; apply bool_decide_ext; rewrite elem_of_cons; naive_solver.
Qed.

Lemma mcount_hide {V} (q q' : Z -> V -> bool) m i v :
  m !! i = Some v -> q' i v = false -> (forall k w, k <> i -> q' k w = q k w) ->
  mcount q m = b2z (q i v) + mcount q' m.
Proof.
  intros Hi Hq Hk. rewrite (mcount_delete q m i v Hi), (mcount_delete q' m i v Hi), Hq. f_equal.
  rewrite (mcount_ext q' q); [done|]. intros k w Hkw. apply Hk. intros ->. by rewrite lookup_delete_eq in Hkw.
Qed.

(** Whether a [synx_signal_cb] refers to [r]. *)
Definition sig_ref (x : synx_signal_cb) (r : res) : bool :=
  match r with RObj p => bool_decide (s_obj x = Some p) | _ => false end.

Lemma stored_sig s x X d r :
  d_sigs d !! s = Some x -> RSig s ∉ X -> counted r = true ->
  stored X d r = b2z (sig_ref x r) + stored (RSig s :: X) d r.
Proof.
  intros Hs Hn Hc. destruct r as [p|e| | | | | | |]; simpl; try done; try (unfold b2z; lia).
  - rewrite (mcount_hide _ (fun s0 x0 => bool_decide (s_obj x0 = Some p) && bool_decide (RSig s0 ∉ RSig s :: X))
      (d_sigs d) s x Hs); simpl.
    + rewrite (bool_decide_true (RSig s ∉ X)) by done. rewrite andb_true_r.
      rewrite (mcount_ext (fun e m => (m_obj m =? p) && bool_decide (RClean (WEnt e) ∉ RSig s :: X))
        (fun e m => (m_obj m =? p) && bool_decide (RClean (WEnt e) ∉ X))); [lia|].
      intros i v _. f_equal. apply bool_decide_ext. rewrite elem_of_cons. naive_solver.
    + rewrite (bool_decide_false (RSig s ∉ _)) by (rewrite elem_of_cons; naive_solver). apply andb_false_r.
    + intros k w Hk. f_equal. apply bool_decide_ext. rewrite elem_of_cons. naive_solver.
  - unfold b2z. rewrite (mcount_ext (fun h x0 => (h_ent x0 =? e) && bool_decide (RClean (WHdl h) ∉ RSig s :: X))
      (fun h x0 => (h_ent x0 =? e) && bool_decide (RClean (WHdl h) ∉ X))); [lia|].
    intros i v _. f_equal. apply bool_decide_ext. rewrite elem_of_cons. naive_solver.
Qed.

Lemma stored_clean_ent e m X d r :
  d_ents d !! e = Some m -> RClean (WEnt e) ∉ X -> counted r = true ->
  stored X d r = b2z (bool_decide (r = RObj (m_obj m))) + stored (RClean (WEnt e) :: X) d r.
Proof.
  intros He Hn Hc. destruct r as [p|e'| | | | | | |]; try done; cbn [stored];
    try (rewrite bool_decide_false by done; simpl; lia).
  - rewrite (mcount_hide _ (fun e0 m0 => (m_obj m0 =? p) && bool_decide (RClean (WEnt e0) ∉ RClean (WEnt e) :: X))
      (d_ents d) e m He); simpl.
    + rewrite (bool_decide_true (RClean (WEnt e) ∉ X)) by done. rewrite andb_true_r.
      rewrite (mcount_ext (fun s x => bool_decide (s_obj x = Some p) && bool_decide (RSig s ∉ RClean (WEnt e) :: X))
        (fun s x => bool_decide (s_obj x = Some p) && bool_decide (RSig s ∉ X))).
      * replace (bool_decide (RObj p = RObj (m_obj m))) with (m_obj m =? p); [lia|].
        case_bool_decide as E; [injection E as ->; by rewrite Z.eqb_refl|apply Z.eqb_neq; congruence].
      * intros i v _. f_equal. apply bool_decide_ext. rewrite elem_of_cons. naive_solver.
    + rewrite (bool_decide_false (RClean (WEnt e) ∉ _)) by (rewrite elem_of_cons; naive_solver). apply andb_false_r.
    + intros k w Hk. f_equal. apply bool_decide_ext. rewrite elem_of_cons. naive_solver.
  - rewrite bool_decide_false by done. change (b2z false) with 0.
    rewrite (mcount_ext (fun h x0 => (h_ent x0 =? e') && bool_decide (RClean (WHdl h) ∉ RClean (WEnt e) :: X))
      (fun h x0 => (h_ent x0 =? e') && bool_decide (RClean (WHdl h) ∉ X))); [lia|].
    intros i v _. f_equal. apply bool_decide_ext. rewrite elem_of_cons. naive_solver.
Qed.

Lemma stored_clean_hdl h x X d r :
  d_hdls d !! h = Some x -> RClean (WHdl h) ∉ X -> counted r = true ->
  stored X d r = b2z (bool_decide (r = REnt (h_ent x))) + stored (RClean (WHdl h) :: X) d r.
Proof.
  intros Hx Hn Hc. destruct r as [p|e| | | | | | |]; try done; cbn [stored];
    try (rewrite bool_decide_false by done; simpl; lia).
  - rewrite bool_decide_false by done. change (b2z false) with 0. rewrite Z.add_0_l. f_equal; apply mcount_ext; intros i v _; f_equal;
      apply bool_decide_ext; rewrite elem_of_cons; naive_solver.
  - rewrite (mcount_hide _ (fun h0 x0 => (h_ent x0 =? e) && bool_decide (RClean (WHdl h0) ∉ RClean (WHdl h) :: X))
      (d_hdls d) h x Hx); simpl.
    + rewrite (bool_decide_true (RClean (WHdl h) ∉ X)) by done. rewrite andb_true_r.
      replace (bool_decide (REnt e = REnt (h_ent x))) with (h_ent x =? e); [lia|].
      case_bool_decide as E; [injection E as ->; by rewrite Z.eqb_refl|apply Z.eqb_neq; congruence].
    + rewrite (bool_decide_false (RClean (WHdl h) ∉ _)) by (rewrite elem_of_cons; naive_solver). apply andb_false_r.
    + intros k w Hk. f_equal. apply bool_decide_ext. rewrite elem_of_cons. naive_solver.
Qed.

(** Items that are not stored references. *)
Lemma stored_clean_cli c X d r : stored (RClean (WCli c) :: X) d r = stored X d r.
Proof.
  destruct r; simpl; try done; [f_equal|]; apply mcount_ext; intros i v _;
    f_equal; apply bool_decide_ext; rewrite elem_of_cons; naive_solver.
Qed.

(** ** Parts of the invariant when the items in hand change *)

Lemma cbs_ok_items X Y objs nodes wq wq' trace :
  (forall c, WCb c ∈ works X wq <-> WCb c ∈ works Y wq') -> NoDup (works Y wq') ->
  (forall c, RDone c ∈ X <-> RDone c ∈ Y) ->
  (forall c x, nodes !! c = Some x -> c_timer x = true -> RWork (WCb c) ∈ X -> RWork (WCb c) ∈ Y) ->
  cbs_ok X objs nodes wq trace -> cbs_ok Y objs nodes wq' trace.
Proof.
  intros HW HN HD HT []. split; try done.
  - intros c. rewrite <- HW. auto.
  - intros c Hc. rewrite <- HW, <- HD. auto.
  - intros c. rewrite <- HW, <- HD. auto.
  - intros c x Hc Ht. destruct (cb_timer c x Hc Ht) as [Hn [|]]; eauto.
  - intros c f h st dt Hc. rewrite <- HD. eauto.
Qed.

Lemma sigs_ok_items X Y fs sigs wq wq' :
  owned_sigs X wq ≡ₚ owned_sigs Y wq' -> (forall s, WIpc s ∈ works Y wq' -> WIpc s ∈ works X wq \/ forall x, sigs !! s = Some x -> s_obj x = None) ->
  sigs_ok X fs sigs wq -> sigs_ok Y fs sigs wq'.
Proof.
  intros HO HW []. split; try done.
  - by rewrite <- HO.
  - intros s. rewrite <- HO. auto.
  - intros f s. rewrite <- HO. apply si_fence.
  - intros s x Hs Hx. destruct (HW s Hs); eauto.
Qed.

Lemma objs_ok_items X Y n objs fs sigs :
  (forall p, RStale p ∈ X -> RStale p ∈ Y) -> objs_ok X n objs fs sigs -> objs_ok Y n objs fs sigs.
Proof. intros H []. split; try done. intros p o s Hp Hs Ha Hst. apply (ob_signal p o s); auto. Qed.

Lemma cleanup_ok_items X Y d d' :
  clean_items X ++ d_wq_cleanup d ≡ₚ clean_items Y ++ d_wq_cleanup d' ->
  d_ents d' = d_ents d -> d_hdls d' = d_hdls d -> d_clients d' = d_clients d ->
  cleanup_ok X d -> cleanup_ok Y d'.
Proof.
  intros HP E1 E2 E3 []. split; [by rewrite <- HP|]. intros w. rewrite <- HP. intros Hw.
  specialize (cu_live w Hw). destruct w; simpl in *; by rewrite ?E1, ?E2, ?E3.
Qed.

(** Queued sigs after a change of the queue. *)
Lemma owned_sigs_app X wq w :
  owned_sigs X (wq ++ [w]) = owned_sigs X wq ++ match w with WSignal s | WIpc s => [s] | WCb _ => [] end.
Proof. unfold owned_sigs, queued_sigs. rewrite omap_app. rewrite app_assoc. by destruct w. Qed.

(** Items move between the code and the queues. *)
Lemma inv_items L X Y d wq wqc :
  inv L X d ->
  (forall c, WCb c ∈ works X (d_wq_cb d) <-> WCb c ∈ works Y wq) -> NoDup (works Y wq) ->
  (forall s, WIpc s ∈ works Y wq -> WIpc s ∈ works X (d_wq_cb d) \/
    forall x, d_sigs d !! s = Some x -> s_obj x = None) ->
  owned_sigs X (d_wq_cb d) ≡ₚ owned_sigs Y wq ->
  clean_items X ++ d_wq_cleanup d ≡ₚ clean_items Y ++ wqc ->
  (forall c, RDone c ∈ X <-> RDone c ∈ Y) -> (forall p, RStale p ∈ X -> RStale p ∈ Y) ->
  (forall c x, d_cbs d !! c = Some x -> c_timer x = true -> RWork (WCb c) ∈ X -> RWork (WCb c) ∈ Y) ->
  (forall r, counted r = true -> stored Y d r + cnt r Y <= stored X d r + cnt r X) ->
  inv L Y (set_d_wq_cleanup wqc (set_d_wq_cb wq d)).
Proof.
  intros [[Hh Hf Hm Hhd Hc Hcu Hcb Hs Ho] Hr] HW HN HI HO HC HD HS HT HR. split.
  - split; try done; simpl.
    + destruct Hf. by split.
    + by eapply (cleanup_ok_items X Y d).
    + by eapply cbs_ok_items.
    + by eapply sigs_ok_items.
    + by eapply objs_ok_items.
  - intros r Hr'. specialize (HR r Hr'). specialize (Hr r Hr').
    change (stored Y (set_d_wq_cleanup _ _) r) with (stored Y d r).
    change (kref (set_d_wq_cleanup _ _) r) with (kref d r). lia.
Qed.

Lemma inv_hand L X Y d :
  inv L X d ->
  (forall c, WCb c ∈ works X (d_wq_cb d) <-> WCb c ∈ works Y (d_wq_cb d)) -> NoDup (works Y (d_wq_cb d)) ->
  (forall s, WIpc s ∈ works Y (d_wq_cb d) -> WIpc s ∈ works X (d_wq_cb d) \/
    forall x, d_sigs d !! s = Some x -> s_obj x = None) ->
  owned_sigs X (d_wq_cb d) ≡ₚ owned_sigs Y (d_wq_cb d) ->
  clean_items X ≡ₚ clean_items Y ->
  (forall c, RDone c ∈ X <-> RDone c ∈ Y) -> (forall p, RStale p ∈ X -> RStale p ∈ Y) ->
  (forall c x, d_cbs d !! c = Some x -> c_timer x = true -> RWork (WCb c) ∈ X -> RWork (WCb c) ∈ Y) ->
  (forall r, counted r = true -> stored Y d r + cnt r Y <= stored X d r + cnt r X) ->
  inv L Y d.
Proof.
  intros Hi HW HN HI HO HC HD HS HT HR.
  eapply (inv_intro L L Y (set_d_wq_cleanup (d_wq_cleanup d) (set_d_wq_cb (d_wq_cb d) d)) d);
    [|exact (in_held _ _ _ (proj1 Hi))|reflexivity..|simpl; lia].
  eapply inv_items; try done. by rewrite HC.
Qed.

Lemma works_cons r X wq :
  works (r :: X) wq = match r with RWork w => w :: works X wq | _ => works X wq end.
Proof. unfold works. rewrite work_items_cons. by destruct r. Qed.
Lemma owned_sigs_cons r X wq :
  owned_sigs (r :: X) wq = match r with
                           | RSig s | RWork (WSignal s) | RWork (WIpc s) => s :: owned_sigs X wq
                           | _ => owned_sigs X wq
                           end.
Proof. unfold owned_sigs. rewrite held_sigs_cons. by destruct r as [| | | | |[]| | |]. Qed.

Lemma works_snoc X wq w : works X (wq ++ [w]) ≡ₚ w :: works X wq.
Proof. unfold works. rewrite app_assoc. by rewrite (Permutation_app_comm _ [w]). Qed.

Lemma queued_sigs_perm wq wq' : wq ≡ₚ wq' -> queued_sigs wq ≡ₚ queued_sigs wq'.
Proof. intros H. unfold queued_sigs. by rewrite H. Qed.

Lemma not_done_work w X c : RDone c ∈ RWork w :: X <-> RDone c ∈ X.
Proof. rewrite elem_of_cons. naive_solver. Qed.
Lemma not_stale_work w X p : RStale p ∈ RWork w :: X <-> RStale p ∈ X.
Proof. rewrite elem_of_cons. naive_solver. Qed.

Lemma inv_queue_cb L X d w :
  inv L (RWork w :: X) d -> (forall c x, w = WCb c -> d_cbs d !! c = Some x -> c_timer x = false) ->
  inv L X (set_d_wq_cb (d_wq_cb d ++ [w]) d).
Proof.
  intros Hi Htm. pose proof (in_cbs _ _ _ (proj1 Hi)) as Hcb. pose proof (cb_works _ _ _ _ _ Hcb) as HN.
  rewrite works_cons in HN.
  apply (inv_items L (RWork w :: X) X d (d_wq_cb d ++ [w]) (d_wq_cleanup d) Hi).
  - intros c. by rewrite works_snoc, works_cons.
  - by rewrite works_snoc.
  - intros s. rewrite works_snoc, works_cons. auto.
  - rewrite owned_sigs_app, owned_sigs_cons. destruct w; [apply Permutation_cons_append..|by rewrite app_nil_r].
  - done.
  - intros c. apply not_done_work.
  - intros p. apply not_stale_work.
  - intros c x Hc Ht. rewrite elem_of_cons. intros [[= <-]|]; [|done]. by rewrite (Htm c x) in Ht.
  - intros r Hr. rewrite stored_plain by done. rewrite cnt_cons_ne by (intros ->; done). lia.
Qed.

Lemma inv_take_cb L X d n w :
  inv L X d -> d_wq_cb d !! n = Some w -> inv L (RWork w :: X) (set_d_wq_cb (delete n (d_wq_cb d)) d).
Proof.
  intros Hi Hn. apply delete_Permutation in Hn as HP.
  pose proof (in_cbs _ _ _ (proj1 Hi)) as Hcb. pose proof (cb_works _ _ _ _ _ Hcb) as HN.
  assert (HW : works X (d_wq_cb d) ≡ₚ w :: works X (delete n (d_wq_cb d))).
  { unfold works. rewrite HP at 1. by rewrite Permutation_middle. }
  apply (inv_items L X (RWork w :: X) d (delete n (d_wq_cb d)) (d_wq_cleanup d) Hi).
  - intros c. by rewrite works_cons, HW.
  - by rewrite works_cons, <- HW.
  - intros s. rewrite works_cons, HW. auto.
  - rewrite owned_sigs_cons. unfold owned_sigs. rewrite (queued_sigs_perm _ _ HP). unfold queued_sigs. simpl.
    destruct w; [symmetry; apply Permutation_middle..|done].
  - done.
  - intros c. symmetry. apply not_done_work.
  - intros p. apply not_stale_work.
  - intros c x Hc Ht. rewrite elem_of_cons. auto.
  - intros r Hr. rewrite stored_plain by done. rewrite cnt_cons_ne by (intros ->; done). lia.
Qed.

(** *** Taking a [synx_signal_cb] in hand, with the reference it stores *)

Definition sig_objs (x : synx_signal_cb) : list res :=
  match s_obj x with Some p => [RObj p] | None => [] end.

Definition sig_work (s : Z) (w : cb_work) : Prop := w = WSignal s \/ w = WIpc s.

Lemma elem_held_sigs s X :
  s ∈ held_sigs X <-> RSig s ∈ X \/ RWork (WSignal s) ∈ X \/ RWork (WIpc s) ∈ X.
Proof.
  induction X as [|r X IH]; [unfold held_sigs; simpl; rewrite !elem_of_nil; tauto|].
  rewrite held_sigs_cons, !elem_of_cons.
  destruct r as [| | | | |[]| | |]; rewrite ?elem_of_cons, IH; naive_solver.
Qed.

Lemma elem_queued_sigs s wq : s ∈ queued_sigs wq <-> WSignal s ∈ wq \/ WIpc s ∈ wq.
Proof.
  induction wq as [|w wq IH]; [unfold queued_sigs; simpl; rewrite !elem_of_nil; tauto|].
  unfold queued_sigs in *. simpl. rewrite !elem_of_cons.
  destruct w; rewrite ?elem_of_cons, IH; naive_solver.
Qed.

Lemma elem_work_items w X : w ∈ work_items X <-> RWork w ∈ X.
Proof.
  induction X as [|r X IH]; [unfold work_items; simpl; rewrite !elem_of_nil; tauto|].
  rewrite work_items_cons, elem_of_cons. destruct r; rewrite ?elem_of_cons, IH; naive_solver.
Qed.

Lemma work_owned s w X wq : sig_work s w -> w ∈ works X wq -> s ∈ owned_sigs X wq.
Proof.
  unfold works, owned_sigs. intros Hw. rewrite !elem_of_app, elem_held_sigs, elem_queued_sigs, elem_work_items.
  intros [H|H]; destruct Hw as [->| ->]; auto.
Qed.

Lemma cnt_sig_objs r x X : cnt r (sig_objs x ++ X) = b2z (sig_ref x r) + cnt r X.
Proof.
  unfold sig_objs, sig_ref. destruct (s_obj x) as [p|]; simpl.
  - rewrite cnt_cons. f_equal. f_equal.
    destruct r; first [apply bool_decide_false; done|apply bool_decide_ext; naive_solver].
  - destruct r; done.
Qed.

Lemma stored_sig_objs s x X d r : stored (RSig s :: sig_objs x ++ X) d r = stored (RSig s :: X) d r.
Proof.
  unfold sig_objs. destruct (s_obj x) as [p|]; [|done]. simpl app.
  destruct r; simpl; try done; [f_equal|]; apply mcount_ext; intros i v _; f_equal;
    apply bool_decide_ext; rewrite !elem_of_cons; naive_solver.
Qed.

Lemma sig_objs_items s x X :
  works (RSig s :: sig_objs x ++ X) = works X /\ owned_sigs (RSig s :: sig_objs x ++ X) = (fun wq => s :: owned_sigs X wq) /\
  clean_items (RSig s :: sig_objs x ++ X) = clean_items X /\
  forall r, (forall s', r <> RSig s') -> (forall p, r <> RObj p) -> r ∈ RSig s :: sig_objs x ++ X <-> r ∈ X.
Proof.
  unfold sig_objs. destruct (s_obj x) as [p|]; simpl; (split_and!; [done|done|done|]);
    intros r H1 H2; rewrite ?elem_of_cons; naive_solver.
Qed.

Lemma sig_fresh_hand L X d s w : sig_work s w -> inv L (RWork w :: X) d -> RSig s ∉ X /\ s ∉ owned_sigs X (d_wq_cb d).
Proof.
  intros Hw Hi. pose proof (si_owned _ _ _ _ (in_sigs _ _ _ (proj1 Hi))) as HN.
  rewrite owned_sigs_cons in HN.
  assert (HN' : NoDup (s :: owned_sigs X (d_wq_cb d))) by (destruct Hw as [->| ->]; done).
  apply NoDup_cons in HN' as [H _]. split; [|done]. intros Hin. apply H. unfold owned_sigs.
  rewrite elem_of_app, elem_held_sigs. auto.
Qed.

Lemma inv_open_sig L X d s w x :
  sig_work s w -> inv L (RWork w :: X) d -> d_sigs d !! s = Some x -> inv L (RSig s :: sig_objs x ++ X) d.
Proof.
  intros Hw Hi Hs. destruct (sig_fresh_hand _ _ _ _ _ Hw Hi) as [Hf Ho].
  pose proof (cb_works _ _ _ _ _ (in_cbs _ _ _ (proj1 Hi))) as HN. rewrite works_cons in HN.
  destruct (sig_objs_items s x X) as (E1 & E2 & E3 & E4).
  apply (inv_hand L (RWork w :: X)); rewrite ?E1, ?E2, ?E3, ?works_cons; try done.
  - intros c. rewrite elem_of_cons. destruct Hw as [->| ->]; naive_solver.
  - apply NoDup_cons in HN. tauto.
  - intros s'. rewrite elem_of_cons. auto.
  - rewrite owned_sigs_cons. by destruct Hw as [->| ->].
  - intros c. rewrite E4, not_done_work; done.
  - intros p. rewrite E4, not_stale_work; done.
  - intros c y Hc Ht. rewrite ?E4, ?elem_of_cons by done. destruct Hw as [->| ->]; naive_solver.
  - intros r Hr. rewrite stored_sig_objs, (stored_plain (RWork w)) by done.
    rewrite (stored_sig s x X d r Hs Hf Hr).
    rewrite !cnt_cons_ne by (intros ->; done). rewrite cnt_sig_objs. lia.
Qed.

(** [ipc]: for the item with which a message is handled, there is no object. *)
Lemma inv_close_sig L X d s w x :
  sig_work s w -> inv L (RSig s :: sig_objs x ++ X) d -> d_sigs d !! s = Some x ->
  (w = WIpc s -> s_obj x = None) -> inv L (RWork w :: X) d.
Proof.
  intros Hw Hi Hs Hipc.
  pose proof (cb_works _ _ _ _ _ (in_cbs _ _ _ (proj1 Hi))) as HN.
  pose proof (si_owned _ _ _ _ (in_sigs _ _ _ (proj1 Hi))) as HO.
  destruct (sig_objs_items s x X) as (E1 & E2 & E3 & E4).
  rewrite E1 in HN. rewrite E2 in HO. apply NoDup_cons in HO as [HO _].
  assert (Hf : RSig s ∉ X).
  { intros Hin. apply HO. unfold owned_sigs. rewrite elem_of_app, elem_held_sigs. auto. }
  apply (inv_hand L (RSig s :: sig_objs x ++ X)); rewrite ?E1, ?E2, ?E3, ?works_cons; try done.
  - intros c. rewrite elem_of_cons. destruct Hw as [->| ->]; naive_solver.
  - apply NoDup_cons. split; [|done]. intros Hin. apply HO. by eapply work_owned.
  - intros s'. rewrite elem_of_cons. intros [E|]; [|auto]. right. intros x' Hx'.
    destruct Hw as [->| ->]; [done|]. injection E as ->. rewrite Hs in Hx'. injection Hx' as <-. auto.
  - rewrite owned_sigs_cons. by destruct Hw as [->| ->].
  - intros c. rewrite E4, not_done_work; done.
  - intros p. rewrite E4, not_stale_work; done.
  - intros c y Hc Ht. rewrite ?E4, ?elem_of_cons by done. destruct Hw as [->| ->]; naive_solver.
  - intros r Hr. rewrite stored_sig_objs, (stored_plain (RWork w)) by done.
    rewrite (stored_sig s x X d r Hs Hf Hr).
    rewrite !cnt_cons_ne by (intros ->; done). rewrite cnt_sig_objs. lia.
Qed.

(** *** Taking an item of the clean-up queue, with the reference its struct stores *)

Definition clean_objs (w : cleanup_work) (d : dev) : list res :=
  match w with
  | WEnt e => from_option (fun m => [RObj (m_obj m)]) [] (d_ents d !! e)
  | WHdl h => from_option (fun x => [REnt (h_ent x)]) [] (d_hdls d !! h)
  | WCli _ => []
  end.

Lemma clean_items_elem w X : w ∈ clean_items X <-> RClean w ∈ X.
Proof.
  induction X as [|r X IH]; [unfold clean_items; simpl; rewrite !elem_of_nil; tauto|].
  rewrite clean_items_cons, elem_of_cons. destruct r; rewrite ?elem_of_cons, IH; naive_solver.
Qed.

Lemma stored_clean_objs w X d r :
  counted r = true -> RClean w ∉ X -> clean_live d w ->
  stored (RClean w :: clean_objs w d ++ X) d r + cnt r (RClean w :: clean_objs w d ++ X) = stored X d r + cnt r X.
Proof.
  intros Hr Hn Hl. rewrite cnt_cons_ne by (intros ->; done).
  destruct w as [e|h|c]; simpl in Hl |- *.
  - destruct Hl as (m & He & _). rewrite He. simpl app. rewrite (stored_clean_ent e m X d r He Hn Hr), cnt_cons.
    assert (E : stored (RClean (WEnt e) :: RObj (m_obj m) :: X) d r = stored (RClean (WEnt e) :: X) d r).
    { destruct r; simpl; try done; [f_equal|]; apply mcount_ext; intros i v _; f_equal;
        apply bool_decide_ext; rewrite !elem_of_cons; naive_solver. }
    rewrite E. lia.
  - destruct Hl as (x & Hx & _). rewrite Hx. simpl app. rewrite (stored_clean_hdl h x X d r Hx Hn Hr), cnt_cons.
    assert (E : stored (RClean (WHdl h) :: REnt (h_ent x) :: X) d r = stored (RClean (WHdl h) :: X) d r).
    { destruct r; simpl; try done; [f_equal|]; apply mcount_ext; intros i v _; f_equal;
        apply bool_decide_ext; rewrite !elem_of_cons; naive_solver. }
    rewrite E. lia.
  - assert (E : stored (RClean (WCli c) :: X) d r = stored X d r).
    { destruct r; simpl; try done; [f_equal|]; apply mcount_ext; intros i v _; f_equal;
        apply bool_decide_ext; rewrite !elem_of_cons; naive_solver. }
    rewrite E. lia.
Qed.

Lemma clean_objs_items w d X :
  (forall wq, works (RClean w :: clean_objs w d ++ X) wq = works X wq) /\
  (forall wq, owned_sigs (RClean w :: clean_objs w d ++ X) wq = owned_sigs X wq) /\
  clean_items (RClean w :: clean_objs w d ++ X) = w :: clean_items X /\
  forall r, counted r = false -> (forall w', r <> RClean w') -> r ∈ RClean w :: clean_objs w d ++ X <-> r ∈ X.
Proof.
  assert (H : clean_objs w d = [] \/ exists r, clean_objs w d = [r] /\ (exists p, r = RObj p \/ r = REnt p)).
  { destruct w as [e|h|]; simpl; [destruct (d_ents d !! e)|destruct (d_hdls d !! h)|]; simpl; eauto 6. }
  destruct H as [->|(r & -> & p & [->| ->])]; (split_and!; [done|done|done|]);
    intros r' H1 H2; simpl app; rewrite ?elem_of_cons; naive_solver.
Qed.

Lemma inv_take_clean L X d n w :
  inv L X d -> d_wq_cleanup d !! n = Some w ->
  clean_live d w /\
  inv L (RClean w :: clean_objs w d ++ X) (set_d_wq_cleanup (delete n (d_wq_cleanup d)) d).
Proof.
  intros Hi Hn. apply delete_Permutation in Hn as HP.
  pose proof (in_cleanup _ _ _ (proj1 Hi)) as [HN HL].
  assert (Hl : clean_live d w).
  { apply HL. rewrite elem_of_app. right. by eapply list_elem_of_lookup_2. }
  split; [done|]. destruct (clean_objs_items w d X) as (E1 & E2 & E3 & E4).
  pose proof (cb_works _ _ _ _ _ (in_cbs _ _ _ (proj1 Hi))) as HW.
  assert (Hf : RClean w ∉ X).
  { intros Hin. apply clean_items_elem in Hin. apply NoDup_app in HN as (_ & HN & _).
    apply (HN w Hin). by eapply list_elem_of_lookup_2. }
  apply (inv_items L X _ d (d_wq_cb d) (delete n (d_wq_cleanup d)) Hi); rewrite ?E1, ?E2, ?E3; try done.
  - intros s. auto.
  - rewrite HP at 1. simpl. symmetry. apply Permutation_middle.
  - intros c. by rewrite E4.
  - intros p. by rewrite E4.
  - intros c y Hc Ht. by rewrite E4.
  - intros r Hr. rewrite stored_clean_objs; done || lia.
Qed.

End own.
