(* ===== verification/SynxMem.v ===== *)
(** * The synx client framework: allocating and freeing structs

    A struct that is allocated gets an address that nothing refers to, and one
    that is freed has no reference left: both keep the invariant. *)

From S2P Require Import Prelude SynxGlobal SynxSignal SynxDev SynxUtil SynxClient SynxInv SynxRefs SynxOwn.

Section mem.
Context `{F : DmaFence}.
Implicit Types d : dev.

(** ** Allocation *)

(** Nothing is at address [p]. *)
Record fresh (p : Z) (d : dev) : Prop := mk_fresh {
  fz_next : 0 < p < d_next d;
  fz_objs : d_objs d !! p = None;
  fz_ents : d_ents d !! p = None;
  fz_hdls : d_hdls d !! p = None;
  fz_clients : d_clients d !! p = None;
  fz_cbs : d_cbs d !! p = None;
  fz_sigs : d_sigs d !! p = None;
  fz_fence : unused (d_fences d) p;
  fz_key x : x ∈ d_fence_map d -> f_key x <> p;
  fz_trace f h st dt : UserCallback p f h st dt ∉ d_trace d
}.

(** The structs, fences and maps of both states are the same. *)
Record same_mem (d d' : dev) : Prop := mk_same_mem {
  sm_objs : d_objs d' = d_objs d;
  sm_ents : d_ents d' = d_ents d;
  sm_hdls : d_hdls d' = d_hdls d;
  sm_clients : d_clients d' = d_clients d;
  sm_cbs : d_cbs d' = d_cbs d;
  sm_sigs : d_sigs d' = d_sigs d;
  sm_fences : d_fences d' = d_fences d;
  sm_fence_map : d_fence_map d' = d_fence_map d;
  sm_wq : d_wq_cb d' = d_wq_cb d;
  sm_trace : d_trace d' = d_trace d;
  sm_next : d_next d <= d_next d'
}.

Lemma same_mem_refl d : same_mem d d.
Proof. by split. Qed.

Lemma same_mem_trans d1 d2 d3 : same_mem d1 d2 -> same_mem d2 d3 -> same_mem d1 d3.
Proof. intros [] []. split; try congruence. lia. Qed.

Lemma same_mem_ext d d' : same_mem d d' -> ext d d'.
Proof. intros []. apply ext_same; [done..|]. intros f. by f_equal. Qed.

Lemma fresh_same_mem p d d' : fresh p d -> same_mem d d' -> fresh p d'.
Proof.
  intros [] [E1 E2 E3 E4 E5 E6 E7 E8 EW E9 E10].
  split; rewrite ?E1, ?E2, ?E3, ?E4, ?E5, ?E6, ?E7, ?E8, ?E9; done || lia.
Qed.

Lemma fresh_next L X d : inv L X d -> fresh (d_next d) (set_d_next (d_next d + 1) (set_d_allocs (S (d_allocs d)) d)).
Proof.
  intros [Hc _]. destruct (in_fresh _ _ _ Hc). split; simpl; auto; try lia.
  - apply fr_objs. lia.
  - apply fr_ents. lia.
  - apply fr_hdls. lia.
  - apply fr_clients. lia.
  - apply fr_cbs. lia.
  - apply fr_sigs. lia.
  - apply fr_fences. lia.
  - intros x Hx. specialize (fr_keys x Hx). lia.
  - intros f h st dt Hx. specialize (fr_trace _ f h st dt Hx). lia.
Qed.

(** ** New structs *)

Lemma stored_fresh L X d p : inv L X d -> d_objs d !! p = None -> stored X d (RObj p) + cnt (RObj p) X = 0.
Proof.
  intros Hi Hp. assert (H : stored X d (RObj p) + cnt (RObj p) X <= 0).
  { etransitivity; [by apply (proj2 Hi)|]. simpl. by rewrite Hp. }
  pose proof (cnt_nonneg (RObj p) X). assert (0 <= stored X d (RObj p)); [|lia].
  simpl. apply Z.add_nonneg_nonneg; apply mcount_nonneg.
Qed.

Lemma inv_new_obj L X d p :
  inv L X d -> fresh p d -> inv L X (set_d_objs (<[p := zero_obj]> (d_objs d)) d).
Proof.
  intros Hi Hz. pose proof (fz_objs _ _ Hz) as Hp. pose proof (stored_fresh _ _ _ _ Hi Hp) as H0.
  destruct Hi as [[Hh [] Hm Hhd Hc [Hcn Hcl] Hcb Hs [Ho1 Ho2 Ho4 Ho5 Ho3]] Hr]. split.
  - split; simpl; try done.
    + split; simpl; try done. intros q Hq. rewrite lookup_insert_ne; [auto|]. destruct (fz_next _ _ Hz). lia.
    + eapply cbs_ok_objs; [| |exact Hcb].
      * intros q o'. rewrite lookup_insert_Some. intros [[-> <-]|[Hne Hq]]; [by left|right; eauto].
      * intros q o' Hq. right. exists o'. rewrite lookup_insert_ne; [done|]. intros ->. congruence.
    + split; simpl; intros q o'; (destruct (decide (q = p)) as [->|Hne];
        [rewrite lookup_insert_eq|rewrite lookup_insert_ne by congruence; by eauto]).
      * by intros [= <-].
      * intros [= <-]. simpl. pose proof (fz_next _ _ Hz). lia.
      * by intros [= <-].
      * by intros [= <-].
      * by intros s [= <-].
  - intros r Hr'. specialize (Hr r Hr'). destruct (decide (r = RObj p)) as [->|Hne].
    + simpl in *. rewrite lookup_insert_eq. simpl. lia.
    + destruct r as [q| | | | | | | |]; simpl in *; try done. rewrite lookup_insert_ne by congruence. done.
Qed.

Lemma inv_new_sig L X d s x :
  inv L X d -> fresh s d -> inv L (RSig s :: X) (set_d_sigs (<[s := x]> (d_sigs d)) d).
Proof.
  intros Hi Hz. pose proof (fz_sigs _ _ Hz) as Hp. pose proof (fz_next _ _ Hz) as Hn.
  destruct Hi as [[Hh [] Hm Hhd Hc Hcu Hcb Hs [Ho1 Ho2 Ho4 Ho5 Ho3]] Hr].
  assert (Hno : s ∉ owned_sigs X (d_wq_cb d)).
  { intros Hin. destruct (si_live _ _ _ _ Hs s Hin). congruence. }
  split.
  - split; simpl; try done.
    + split; simpl; try done. intros q Hq. rewrite lookup_insert_ne; [auto|lia].
    + by apply (cleanup_ok_items X _ d).
    + apply (cbs_ok_items X _ _ _ (d_wq_cb d)); [done|by destruct Hcb| | |exact Hcb];
        hand.
    + destruct Hs. split; rewrite ?owned_sigs_cons, ?works_cons; try done.
      * by apply NoDup_cons.
      * intros s'. rewrite elem_of_cons. intros [->|Hin]; [by rewrite lookup_insert_eq|].
        rewrite lookup_insert_ne; [auto|]. intros <-. done.
      * intros f s' Hin. destruct (si_fence f s' Hin) as [Hl Ho]. rewrite lookup_insert_ne.
        -- split; [done|]. rewrite elem_of_cons. intros [->|]; [|done]. destruct Hl. congruence.
        -- intros <-. destruct Hl. congruence.
      * intros s' x' Hin. rewrite lookup_insert_Some. intros [[-> <-]|[Hne Hx]]; [|by eauto].
        exfalso. apply Hno. eapply work_owned; [|exact Hin]. by right.
    + split; try done. intros p o s' Hq Hsg Ha Hst. rewrite in_hand_not in Hst by done.
      destruct (Ho3 p o s' Hq Hsg Ha Hst) as [H1 (x' & H2 & H3)]. split; [done|]. exists x'.
      rewrite lookup_insert_ne; [done|]. intros <-. congruence.
  - intros r Hr'. specialize (Hr r Hr'). rewrite cnt_cons_ne by (intros ->; done).
    destruct r as [p|e| | | | | | |]; simpl in *; try done.
    + rewrite mcount_insert by done.
      rewrite (bool_decide_false (RSig s ∉ RSig s :: X)) by (rewrite elem_of_cons; naive_solver).
      rewrite andb_false_r. simpl b2z.
      rewrite (mcount_ext _ (fun e m => (m_obj m =? p) && bool_decide (RClean (WEnt e) ∉ X))).
      2: { intros i v _. f_equal. apply bool_decide_ext. by rewrite in_hand_not. }
      rewrite (mcount_ext _ (fun s x => bool_decide (s_obj x = Some p) && bool_decide (RSig s ∉ X))).
      2: { intros i v Hv. f_equal. apply bool_decide_ext. rewrite in_hand_not; [done|]. congruence. }
      lia.
    + rewrite (mcount_ext _ (fun h x => (h_ent x =? e) && bool_decide (RClean (WHdl h) ∉ X))); [done|].
      intros i v _. f_equal. apply bool_decide_ext. by rewrite in_hand_not.
Qed.

Lemma inv_new_cb L X d c cb :
  inv L X d -> fresh c d -> c_timer cb = false ->
  inv L (RWork (WCb c) :: X) (set_d_cbs (<[c := cb]> (d_cbs d)) d).
Proof.
  intros Hi Hz Htm. pose proof (fz_cbs _ _ Hz) as Hp. pose proof (fz_next _ _ Hz) as Hn.
  destruct Hi as [[Hh [] Hm Hhd Hc Hcu Hcb Hs Ho] Hr].
  assert (Hl : forall c', is_Some (d_cbs d !! c') -> is_Some (<[c := cb]> (d_cbs d) !! c')).
  { intros c' H. rewrite lookup_insert_is_Some. destruct (decide (c = c')); auto. }
  assert (Hnl : forall c', is_Some (d_cbs d !! c') -> c' <> c) by (intros c' [? ?] ->; congruence).
  split.
  - split; simpl; try done.
    + split; simpl; try done. intros q Hq. rewrite lookup_insert_ne; [auto|lia].
    + by apply (cleanup_ok_items X _ d).
    + destruct Hcb. split; rewrite ?works_cons; try done.
      * intros p o c' Hq Hin. apply Hl. eauto.
      * intros c'. rewrite elem_of_cons. intros [[= ->]|Hin].
        -- rewrite lookup_insert_eq. split; [done|]. intros p o Hq Hin.
           destruct (cb_reg p o c Hq Hin). congruence.
        -- destruct (cb_queued c' Hin). auto.
      * apply NoDup_cons. split; [|done]. intros Hin. destruct (cb_queued c Hin) as [[? ?] _]. congruence.
      * intros c'. rewrite lookup_insert_is_Some. intros [->|[Hne H]].
        -- right. left. by left.
        -- rewrite !elem_of_cons. destruct (cb_kept c' H) as [|[|]]; auto.
      * intros c' Hin. rewrite in_hand_not in Hin by done. destruct (cb_done c' Hin) as (H1 & H2 & H3).
        split_and!; [auto| |done]. rewrite elem_of_cons. intros [[= ->]|]; [|done]. by apply (Hnl c).
      * intros c' x Hx Ht. rewrite lookup_insert_Some in Hx. destruct Hx as [[-> <-]|[Hne Hx]]; [congruence|].
        rewrite elem_of_cons. destruct (cb_timer c' x Hx Ht) as [? [|]]; auto.
      * intros c' f h st dt Hin. rewrite in_hand_not by done.
        destruct (cb_trace c' f h st dt Hin) as [H|]; [|auto]. left. rewrite lookup_insert_ne; [done|].
        intros <-. by apply (fz_trace _ _ Hz f h st dt).
    + eapply sigs_ok_items; [| |exact Hs].
      * by rewrite owned_sigs_cons.
      * intros s. rewrite works_cons, elem_of_cons. naive_solver.
    + eapply objs_ok_items; [|exact Ho]. intros p. by rewrite in_hand_not.
  - intros r Hr'. rewrite stored_plain by done. rewrite cnt_cons_ne by (intros ->; done). by apply Hr.
Qed.

(** A map entry takes over the reference on its object. *)
Lemma inv_new_ent L X d e m :
  inv L (RObj (m_obj m) :: X) d -> fresh e d -> m_refcount m = 1 ->
  (synx_util_is_global_handle (m_key m) = false -> synx_util_global_idx (m_key m) < SYNX_MAX_OBJS) ->
  inv L (REnt e :: X) (set_d_ents (<[e := m]> (d_ents d)) d).
Proof.
  intros Hi Hz Hm1 Hk. pose proof (fz_ents _ _ Hz) as Hp. pose proof (fz_next _ _ Hz) as Hn.
  assert (HXY : same_items (RObj (m_obj m) :: X) (REnt e :: X)).
  { eapply same_items_trans; [apply same_items_sym|]; by apply same_items_cons. }
  destruct Hi as [Hco Hr]. apply (core_items _ _ _ _ HXY) in Hco.
  destruct Hco as [Hh [] [M1 M2 M3] [H1 H2 H3 H4] Hc Hcu Hcb Hs Ho].
  assert (Hnc : RClean (WEnt e) ∉ REnt e :: X).
  { intros Hin. apply clean_items_elem in Hin. destruct (cu_live _ _ Hcu (WEnt e)) as (m' & Hm' & _); [|congruence].
    rewrite elem_of_app. auto. }
  split.
  - split; simpl; try done.
    + split; simpl; try done. intros q Hq. rewrite lookup_insert_ne; [auto|lia].
    + split; simpl.
      * intros q Hq. destruct (M1 q Hq) as (m1 & Hq1 & ?). rewrite lookup_insert_ne; [eauto|congruence].
      * intros q Hq. destruct (M2 q Hq) as (m1 & Hq1 & ?). rewrite lookup_insert_ne; [eauto|congruence].
      * intros q m1. rewrite lookup_insert_Some. intros [[-> <-]|[Hne Hq]]; eauto.
    + split; simpl; try done. intros h x Hx. destruct (H3 h x Hx) as (m1 & Hq1 & ?).
      rewrite lookup_insert_ne; [eauto|congruence].
    + destruct Hcu as [Hcn Hcl]. split; [done|]. intros w Hw. specialize (Hcl w Hw).
      destruct w as [q| |]; simpl in *; try done. destruct Hcl as (m1 & Hq1 & ?).
      rewrite lookup_insert_ne; [eauto|congruence].
  - intros r Hr'. pose proof (Hr r Hr') as Hr2.
    rewrite <- (stored_same _ _ _ r HXY) in Hr2. rewrite cnt_cons in Hr2. rewrite cnt_cons.
    destruct r as [p|e'| | | | | | |]; simpl stored in *; simpl kref in *; try done.
    + rewrite mcount_insert by done. rewrite (bool_decide_true (RClean (WEnt e) ∉ _)) by done.
      rewrite andb_true_r. rewrite (bool_decide_false (RObj p = REnt e)) by done.
      assert (E : (m_obj m =? p) = bool_decide (RObj p = RObj (m_obj m))).
      { case_bool_decide as E; [injection E as ->; by rewrite Z.eqb_refl|apply Z.eqb_neq; congruence]. }
      rewrite E. simpl. lia.
    + destruct (decide (e' = e)) as [->|Hne].
      * rewrite lookup_insert_eq. rewrite Hp in Hr2. simpl in *. rewrite bool_decide_true by done.
        rewrite Hm1. simpl. lia.
      * rewrite lookup_insert_ne by congruence. rewrite bool_decide_false by congruence.
        rewrite bool_decide_false in Hr2 by done. done.
Qed.

Lemma inv_add_map L X d e m :
  inv L X d -> REnt e ∈ X -> d_ents d !! e = Some m ->
  inv L X (set_map_entries (m_key m) (e :: map_entries (m_key m) d) d).
Proof.
  intros Hi Hin He. pose proof (held_ref _ _ _ (REnt e) Hi eq_refl Hin) as Hk. simpl in Hk. rewrite He in Hk.
  simpl in Hk. destruct Hi as [[Hh [] [M1 M2 M3] Hhd Hc [Hcn Hcl] Hcb Hs Ho] Hr].
  unfold set_map_entries, map_entries. destruct (synx_util_is_global_handle (m_key m)) eqn:Ek; (split; [|done]);
    (split; simpl; try done; (by split) || (split; simpl; [| |done])); intros q; rewrite ?elem_of_cons;
    intros Hq; try (destruct Hq as [->|Hq]); eauto.
Qed.

Lemma inv_new_hdl L X d h c cl e m key :
  inv L (REnt e :: X) d -> fresh h d -> d_clients d !! c = Some cl -> d_ents d !! e = Some m ->
  inv L X (set_d_clients (<[c := set_cl_handle_map (h :: cl_handle_map cl) cl]> (d_clients d))
            (set_d_hdls (<[h := mk_hdl c (m_obj m) e 1 key 1]> (d_hdls d)) d)).
Proof.
  intros Hi Hz Hcl' He. pose proof (fz_hdls _ _ Hz) as Hp. pose proof (fz_next _ _ Hz) as Hn.
  pose proof (same_items_sym _ _ (same_items_cons (REnt e) X eq_refl)) as HXY.
  destruct Hi as [Hco Hr]. apply (core_items _ _ _ _ HXY) in Hco.
  destruct Hco as [Hh [] Hm [H1 H2 H3 H4] Hc Hcu Hcb Hs Ho].
  assert (Hnc : RClean (WHdl h) ∉ X).
  { intros Hin. apply clean_items_elem in Hin. destruct (cu_live _ _ Hcu (WHdl h)) as (m' & Hm' & _); [|congruence].
    rewrite elem_of_app. auto. }
  split.
  - split; simpl; try done.
    + split; simpl; try done; intros q Hq; rewrite lookup_insert_ne; auto; [lia|].
      intros <-. by rewrite fr_clients in Hcl'.
    + split.
      * intros q cl1 h1. rewrite !lookup_insert_Some. intros [[-> <-]|[Hne Hq]]; simpl.
        -- rewrite elem_of_cons. intros [->|Hin]; [rewrite lookup_insert_eq; by eexists|].
           destruct (H1 _ _ _ Hcl' Hin) as (x & Hx & ?). exists x. rewrite lookup_insert_ne; [done|congruence].
        -- intros Hin. destruct (H1 _ _ _ Hq Hin) as (x & Hx & ?). exists x. rewrite lookup_insert_ne; [done|congruence].
      * intros h1 x. rewrite lookup_insert_Some. intros [[-> <-]|[Hne Hq]] Hx.
        -- simpl. rewrite lookup_insert_eq. eexists. split; [done|]. simpl. apply elem_of_cons. by left.
        -- destruct (H2 _ _ Hq Hx) as (cl1 & Hcl1 & Hin). destruct (decide (h_client x = c)) as [E|Hne'].
           ++ rewrite E, lookup_insert_eq. eexists. split; [done|]. simpl. apply elem_of_cons. right.
              rewrite E in Hcl1. congruence.
           ++ rewrite lookup_insert_ne by congruence. eauto.
      * intros h1 x. rewrite lookup_insert_Some. intros [[-> <-]|[Hne Hq]]; eauto.
      * intros h1 x. rewrite lookup_insert_Some. intros [[-> <-]|[Hne Hq]]; eauto. done.
    + by apply clients_ok_map.
    + destruct Hcu as [Hcn Hcl]. split; [done|]. intros w Hw. specialize (Hcl w Hw).
      destruct w as [q|q|q]; simpl in *; try done.
      * destruct Hcl as (m1 & Hq1 & ?). rewrite lookup_insert_ne; [eauto|congruence].
      * destruct Hcl as (cl1 & Hq1 & ?). destruct (decide (q = c)) as [->|Hne].
        -- rewrite lookup_insert_eq. eexists. split; [done|]. simpl. congruence.
        -- rewrite lookup_insert_ne by congruence. eauto.
  - intros r Hr'. pose proof (Hr r Hr') as Hr2. rewrite <- (stored_same _ _ _ r HXY) in Hr2. rewrite cnt_cons in Hr2.
    destruct r as [p|e'|h'|c'| | | | |]; simpl stored in *; simpl kref in *; try done.
    + rewrite mcount_insert by done. rewrite (bool_decide_true (RClean (WHdl h) ∉ _)) by done.
      simpl h_ent. rewrite andb_true_r.
      assert (E : (e =? e') = bool_decide (REnt e' = REnt e)).
      { case_bool_decide as E; [injection E as ->; by rewrite Z.eqb_refl|apply Z.eqb_neq; congruence]. }
      rewrite E. lia.
    + rewrite bool_decide_false in Hr2 by done. destruct (decide (h' = h)) as [->|Hne].
      * rewrite lookup_insert_eq. rewrite Hp in Hr2. simpl in *. lia.
      * rewrite lookup_insert_ne by congruence. done.
    + rewrite bool_decide_false in Hr2 by done. destruct (decide (c' = c)) as [->|Hne].
      * rewrite lookup_insert_eq. rewrite Hcl' in Hr2. done.
      * rewrite lookup_insert_ne by congruence. done.
Qed.

Lemma inv_new_cli L X d c cl :
  inv L X d -> fresh c d -> cl_refcount cl = 1 -> cl_event_q cl = [] -> cl_handle_map cl = [] ->
  cl_cb_table cl = replicate (Z.to_nat SYNX_MAX_OBJS) zero_kcb ->
  inv L X (set_d_clients (<[c := cl]> (d_clients d)) d).
Proof.
  intros Hi Hz Hk He Hmp Ht. pose proof (fz_clients _ _ Hz) as Hp. pose proof (fz_next _ _ Hz) as Hn.
  destruct Hi as [[Hh [] Hm [H1 H2 H3 H4] [C1 C2 C3 C4] [Hcn Hcl] Hcb Hs Ho] Hr]. split.
  - split; simpl; try done.
    + split; simpl; try done. intros q Hq. rewrite lookup_insert_ne; [auto|lia].
    + split; simpl; try done.
      * intros q cl1 h1. rewrite lookup_insert_Some. intros [[-> <-]|[Hne Hq]]; [|eauto]. rewrite Hmp.
        by rewrite elem_of_nil.
      * intros h x Hx Hx1. destruct (H2 h x Hx Hx1) as (cl1 & Hq & ?). rewrite lookup_insert_ne; [eauto|congruence].
    + split.
      * intros q Hq. destruct (C1 q Hq) as (cl1 & Hq1 & ?). rewrite lookup_insert_ne; [eauto|congruence].
      * intros q cl1. rewrite lookup_insert_Some. intros [[-> <-]|[Hne Hq]]; [|eauto]. rewrite Ht. apply length_replicate.
      * intros q cl1 i k. rewrite lookup_insert_Some. intros [[-> <-]|[Hne Hq]]; [|eauto].
        rewrite Ht, lookup_replicate. intros [-> _]. split; [done|by left].
      * intros q cl1 i. rewrite lookup_insert_Some. intros [[-> <-]|[Hne Hq]]; [|eauto]. rewrite He.
        by rewrite elem_of_nil.
    + split; [done|]. intros w Hw. specialize (Hcl w Hw). destruct w as [q|q|q]; simpl in *; try done.
      destruct Hcl as (m1 & Hq1 & ?). rewrite lookup_insert_ne; [eauto|congruence].
  - intros r Hr'. pose proof (Hr r Hr') as Hr2.
    destruct r as [| | |c'| | | | |]; simpl stored in *; simpl kref in *; try done.
    destruct (decide (c' = c)) as [->|Hne].
    + rewrite lookup_insert_eq. rewrite Hp in Hr2. simpl in *. unfold b2z. destruct (cl_active cl); lia.
    + rewrite lookup_insert_ne by congruence. done.
Qed.

Lemma inv_add_session L X d c cl :
  inv L X d -> d_clients d !! c = Some cl -> 1 <= cl_refcount cl ->
  inv L X (set_d_sessions (c :: d_sessions d) d).
Proof.
  intros [[Hh [] Hm Hhd [C1 C2 C3 C4] [Hcn Hcl] Hcb Hs Ho] Hr] Hc Hk. split; [|done].
  split; try done.
  split; try done. intros q. simpl. rewrite elem_of_cons. intros [->|Hq]; eauto.
Qed.

(** ** Freed structs *)

Lemma inv_free_obj L X d p o :
  inv L X d -> d_objs d !! p = Some o -> o_refcount o <= 0 -> o_reg_cbs o = [] ->
  inv L X (set_d_objs (delete p (d_objs d)) d).
Proof.
  intros [[Hh [] Hm Hhd Hc [Hcn Hcl] Hcb Hs [Ho1 Ho2 Ho4 Ho5 Ho3]] Hr] Hp Hk Hreg. split.
  - split; simpl; try done.
    + split; simpl; try done. intros q Hq. rewrite lookup_delete_None. auto.
    + eapply cbs_ok_objs; [| |exact Hcb].
      * intros q o'. rewrite lookup_delete_Some. intros [Hne Hq]. right. eauto.
      * intros q o' Hq. destruct (decide (q = p)) as [->|Hne].
        -- left. congruence.
        -- right. exists o'. by rewrite lookup_delete_ne by congruence.
    + split; simpl; intros q o'; (destruct (decide (q = p)) as [->|Hne];
        [rewrite lookup_delete_eq; done|rewrite lookup_delete_ne by congruence; by eauto]).
  - intros r Hr'. specialize (Hr r Hr'). destruct (decide (r = RObj p)) as [->|Hne].
    + simpl in *. rewrite lookup_delete_eq. rewrite Hp in Hr. simpl in *. lia.
    + destruct r as [q| | | | | | | |]; simpl in *; try done. rewrite lookup_delete_ne by congruence. done.
Qed.

Lemma inv_free_ent L X d e m :
  inv L (RClean (WEnt e) :: X) d -> d_ents d !! e = Some m -> (forall h, RClean (WHdl h) ∉ X) ->
  inv L X (set_d_ents (delete e (d_ents d)) d).
Proof.
  intros [[Hh [] [M1 M2 M3] [H1 H2 H3 H4] Hc [Hcn Hcl] Hcb Hs Ho] Hr] He Hnh.
  destruct (Hcl (WEnt e)) as (m' & Hm' & H0); [rewrite clean_items_cons; by left|].
  rewrite He in Hm'. injection Hm' as <-. rewrite clean_items_cons in Hcn, Hcl. simpl in Hcn, Hcl.
  apply NoDup_cons in Hcn as [Hne0 Hcn].
  assert (Hnoh : forall h x, d_hdls d !! h = Some x -> h_ent x <> e).
  { intros h x Hx E. pose proof (Hr (REnt e) eq_refl) as Hz. simpl kref in Hz. rewrite He in Hz. simpl in Hz.
    rewrite cnt_cons_ne in Hz by done. pose proof (cnt_nonneg (REnt e) X).
    pose proof (mcount_pos (fun h x => (h_ent x =? e) && bool_decide (RClean (WHdl h) ∉ RClean (WEnt e) :: X))
      _ _ _ Hx) as Hpos. simpl in Hpos. rewrite E, Z.eqb_refl in Hpos. simpl in Hpos.
    specialize (Hpos ltac:(apply bool_decide_true; rewrite elem_of_cons; intros [|Hin]; [done|by apply (Hnh h)])).
    lia. }
  split.
  - split; simpl; try done.
    + split; simpl; try done. intros q Hq. rewrite lookup_delete_None. auto.
    + split; simpl.
      * intros q Hq. destruct (M1 q Hq) as (m1 & Hq1 & Hk & ?). rewrite lookup_delete_ne; [eauto|].
        intros <-. rewrite He in Hq1. injection Hq1 as <-. lia.
      * intros q Hq. destruct (M2 q Hq) as (m1 & Hq1 & Hk & ?). rewrite lookup_delete_ne; [eauto|].
        intros <-. rewrite He in Hq1. injection Hq1 as <-. lia.
      * intros q m1. rewrite lookup_delete_Some. intros [_ Hq]. eauto.
    + split; simpl; try done. intros h x Hx. rewrite lookup_delete_ne; [eauto|]. intros E. by apply (Hnoh h x).
    + split; [done|]. simpl. intros w Hw. assert (Hw' : w <> WEnt e) by (intros ->; done).
      specialize (Hcl w ltac:(by right)). destruct w as [q|q|q]; simpl in *; try done.
      rewrite lookup_delete_ne; [done|]. intros <-. done.
    + eapply cbs_ok_items; [| | | |exact Hcb]; [done|by destruct Hcb|..]; hand.
    + by eapply sigs_ok_items; [|intros s; left|exact Hs].
    + eapply objs_ok_items; [|exact Ho]. intros p. by rewrite in_hand_not.
  - intros r Hr'. specialize (Hr r Hr'). rewrite cnt_cons_ne in Hr by (intros ->; done).
    destruct r as [p|e'| | | | | | |]; simpl in *; try done.
    + rewrite (mcount_delete _ (d_ents d) e m He) in Hr.
      rewrite (bool_decide_false (RClean (WEnt e) ∉ _)) in Hr by (rewrite elem_of_cons; naive_solver).
      rewrite andb_false_r in Hr. simpl in Hr. etransitivity; [|exact Hr].
      apply Z.eq_le_incl. f_equal. f_equal; apply mcount_ext; intros i v Hv; f_equal; apply bool_decide_ext.
      * rewrite in_hand_not; [done|]. intros [= ->]. by rewrite lookup_delete_eq in Hv.
      * by rewrite in_hand_not.
    + rewrite (mcount_ext _ (fun h x => (h_ent x =? e') && bool_decide (RClean (WHdl h) ∉ RClean (WEnt e) :: X))).
      2: { intros i v _. f_equal. apply bool_decide_ext. by rewrite in_hand_not. }
      destruct (decide (e' = e)) as [->|Hne].
      * rewrite lookup_delete_eq. rewrite He in Hr. simpl in *. lia.
      * rewrite lookup_delete_ne by congruence. done.
Qed.

Lemma inv_free_hdl L X d h x :
  inv L (RClean (WHdl h) :: X) d -> d_hdls d !! h = Some x ->
  inv L X (set_d_hdls (delete h (d_hdls d)) d).
Proof.
  intros [[Hh [] Hm [H1 H2 H3 H4] Hc [Hcn Hcl] Hcb Hs Ho] Hr] He.
  destruct (Hcl (WHdl h)) as (m' & Hm' & H0); [rewrite clean_items_cons; by left|].
  rewrite He in Hm'. injection Hm' as <-. rewrite clean_items_cons in Hcn, Hcl. simpl in Hcn, Hcl.
  apply NoDup_cons in Hcn as [Hne0 Hcn]. split.
  - split; simpl; try done.
    + split; simpl; try done. intros q Hq. rewrite lookup_delete_None. auto.
    + split; simpl.
      * intros c cl q Hq Hin. destruct (H1 _ _ _ Hq Hin) as (x1 & Hx1 & Hk & ?). exists x1.
        rewrite lookup_delete_ne; [done|]. intros <-. rewrite He in Hx1. injection Hx1 as <-. lia.
      * intros q x1. rewrite lookup_delete_Some. intros [_ Hq]. eauto.
      * intros q x1. rewrite lookup_delete_Some. intros [_ Hq]. eauto.
      * intros q x1. rewrite lookup_delete_Some. intros [_ Hq]. eauto.
    + split; [done|]. simpl. intros w Hw. assert (Hw' : w <> WHdl h) by (intros ->; done).
      specialize (Hcl w ltac:(by right)). destruct w as [q|q|q]; simpl in *; try done.
      rewrite lookup_delete_ne; [done|]. intros <-. done.
    + eapply cbs_ok_items; [| | | |exact Hcb]; [done|by destruct Hcb|..]; hand.
    + by eapply sigs_ok_items; [|intros s; left|exact Hs].
    + eapply objs_ok_items; [|exact Ho]. intros p. by rewrite in_hand_not.
  - intros r Hr'. specialize (Hr r Hr'). rewrite cnt_cons_ne in Hr by (intros ->; done).
    destruct r as [p|e'|h'| | | | | |]; simpl in *; try done.
    + etransitivity; [|exact Hr]. apply Z.eq_le_incl. f_equal. f_equal; apply mcount_ext; intros i v Hv;
        f_equal; apply bool_decide_ext; by rewrite in_hand_not.
    + rewrite (mcount_delete _ (d_hdls d) h x He) in Hr.
      rewrite (bool_decide_false (RClean (WHdl h) ∉ _)) in Hr by (rewrite elem_of_cons; naive_solver).
      rewrite andb_false_r in Hr. simpl in Hr. etransitivity; [|exact Hr].
      apply Z.eq_le_incl. f_equal. apply mcount_ext; intros i v Hv; f_equal; apply bool_decide_ext.
      rewrite in_hand_not; [done|]. intros [= ->]. by rewrite lookup_delete_eq in Hv.
    + destruct (decide (h' = h)) as [->|Hne].
      * rewrite lookup_delete_eq. rewrite He in Hr. rewrite H0 in Hr. simpl in *. lia.
      * rewrite lookup_delete_ne by congruence. done.
Qed.

Lemma inv_free_cli L X d c cl :
  inv L (RClean (WCli c) :: X) d -> d_clients d !! c = Some cl -> cl_handle_map cl = [] ->
  inv L X (set_d_clients (delete c (d_clients d)) d).
Proof.
  intros [[Hh [] Hm [H1 H2 H3 H4] [C1 C2 C3 C4] [Hcn Hcl] Hcb Hs Ho] Hr] He Hmp.
  destruct (Hcl (WCli c)) as (m' & Hm' & H0); [rewrite clean_items_cons; by left|].
  rewrite He in Hm'. injection Hm' as <-. rewrite clean_items_cons in Hcn, Hcl. simpl in Hcn, Hcl.
  apply NoDup_cons in Hcn as [Hne0 Hcn]. split.
  - split; simpl; try done.
    + split; simpl; try done. intros q Hq. rewrite lookup_delete_None. auto.
    + split; simpl; try done.
      * intros q cl1 h. rewrite lookup_delete_Some. intros [_ Hq]. eauto.
      * intros q x1 Hq Hk. destruct (H2 q x1 Hq Hk) as (cl1 & Hq1 & Hin). exists cl1.
        rewrite lookup_delete_ne; [done|]. intros E. rewrite <- E, He in Hq1. injection Hq1 as <-.
        rewrite Hmp in Hin. by apply elem_of_nil in Hin.
    + split; simpl.
      * intros q Hq. destruct (C1 q Hq) as (cl1 & Hq1 & Hk). exists cl1.
        rewrite lookup_delete_ne; [done|]. intros <-. rewrite He in Hq1. injection Hq1 as <-. lia.
      * intros q x1. rewrite lookup_delete_Some. intros [_ Hq]. eauto.
      * intros q x1 i k. rewrite lookup_delete_Some. intros [_ Hq]. eauto.
      * intros q x1 i. rewrite lookup_delete_Some. intros [_ Hq]. eauto.
    + split; [done|]. simpl. intros w Hw. assert (Hw' : w <> WCli c) by (intros ->; done).
      specialize (Hcl w ltac:(by right)). destruct w as [q|q|q]; simpl in *; try done.
      rewrite lookup_delete_ne; [done|]. intros <-. done.
    + eapply cbs_ok_items; [| | | |exact Hcb]; [done|by destruct Hcb|..]; hand.
    + by eapply sigs_ok_items; [|intros s; left|exact Hs].
    + eapply objs_ok_items; [|exact Ho]. intros p. by rewrite in_hand_not.
  - intros r Hr'. specialize (Hr r Hr'). rewrite cnt_cons_ne in Hr by (intros ->; done).
    rewrite (stored_clean_cli c X) in Hr.
    destruct r as [p|e'|h'|c'| | | | |]; simpl in *; try done.
    destruct (decide (c' = c)) as [->|Hne].
    + rewrite lookup_delete_eq. rewrite He in Hr. simpl in *. unfold b2z in *. destruct (cl_active cl); lia.
    + rewrite lookup_delete_ne by congruence. done.
Qed.

Lemma inv_free_sig L X d s :
  inv L (RSig s :: X) d -> inv L X (set_d_sigs (delete s (d_sigs d)) d).
Proof.
  intros [[Hh [] Hm Hhd Hc [Hcn Hcl] Hcb Hs [Ho1 Ho2 Ho4 Ho5 Ho3]] Hr].
  pose proof (si_owned _ _ _ _ Hs) as HN. rewrite owned_sigs_cons in HN. apply NoDup_cons in HN as [Hno HN].
  assert (Hl : is_Some (d_sigs d !! s)).
  { apply (si_live _ _ _ _ Hs). rewrite owned_sigs_cons. by left. }
  destruct Hl as [x Hx].
  assert (Hnf : forall f, s ∉ cbs (d_fences d) f).
  { intros f Hin. destruct (si_fence _ _ _ _ Hs f s Hin) as [_ Ho]. apply Ho. rewrite owned_sigs_cons. by left. }
  split.
  - split; simpl; try done.
    + split; simpl; try done. intros q Hq. rewrite lookup_delete_None. auto.
    + eapply cbs_ok_items; [| | | |exact Hcb]; [done|by destruct Hcb|..]; hand.
    + destruct Hs. rewrite owned_sigs_cons in *. rewrite works_cons in *. split; try done.
      * intros s' Hin. rewrite lookup_delete_ne; [apply si_live; by right|]. intros <-. done.
      * intros f s' Hin. destruct (si_fence f s' Hin) as [H1 H2]. rewrite lookup_delete_ne.
        -- split; [done|]. intros ?. apply H2. by right.
        -- intros <-. by apply (Hnf f).
      * intros s' x' Hin. rewrite lookup_delete_Some. intros [_ Hq]. eauto.
    + split; try done. intros p o s' Hq Hsg Ha Hst.
      destruct (Ho3 p o s' Hq Hsg Ha) as [H1 H2]; [by rewrite in_hand_not|]. split; [done|].
      rewrite lookup_delete_ne; [done|]. intros <-. by apply (Hnf _ H1).
  - intros r Hr'. specialize (Hr r Hr'). rewrite cnt_cons_ne in Hr by (intros ->; done).
    destruct r as [p|e'|h'| | | | | |]; simpl in *; try done.
    + rewrite (mcount_delete _ (d_sigs d) s x Hx) in Hr.
      rewrite (bool_decide_false (RSig s ∉ _)) in Hr by (rewrite elem_of_cons; naive_solver).
      rewrite andb_false_r in Hr. simpl in Hr. etransitivity; [|exact Hr].
      apply Z.eq_le_incl. f_equal. f_equal; apply mcount_ext; intros i v Hv; f_equal; apply bool_decide_ext.
      * by rewrite in_hand_not.
      * rewrite in_hand_not; [done|]. intros [= ->]. by rewrite lookup_delete_eq in Hv.
    + etransitivity; [|exact Hr]. apply Z.eq_le_incl. f_equal. apply mcount_ext; intros i v Hv;
        f_equal; apply bool_decide_ext; by rewrite in_hand_not.
Qed.

(** A callback node leaves the code: it was taken from a list, or delivered. *)
Lemma inv_free_cb L X d c r :
  r = RWork (WCb c) \/ r = RDone c -> inv L (r :: X) d -> RDone c ∉ X ->
  inv L X (set_d_cbs (delete c (d_cbs d)) d).
Proof.
  intros Hrc [[Hh [] Hm Hhd Hc Hcu Hcb Hs Ho] Hr] Hnd.
  assert (Hout : WCb c ∉ works X (d_wq_cb d) /\ forall p o, d_objs d !! p = Some o -> c ∉ o_reg_cbs o).
  { destruct Hcb. destruct Hrc as [->| ->].
    - rewrite works_cons in cb_works. apply NoDup_cons in cb_works as [Hn _]. split; [done|].
      apply cb_queued. rewrite works_cons. by left.
    - destruct (cb_done c) as (_ & Hn & H); [by left|]. by rewrite works_cons in Hn. }
  destruct Hout as [Hnw Hnreg]. split.
  - split; simpl; try done.
    + split; simpl; try done. intros q Hq. rewrite lookup_delete_None. auto.
    + apply (cleanup_ok_items (r :: X) _ d); [by destruct Hrc as [->| ->]|done..].
    + assert (HW : forall c', c' <> c -> WCb c' ∈ works (r :: X) (d_wq_cb d) <-> WCb c' ∈ works X (d_wq_cb d)).
      { intros c' Hne. rewrite works_cons. destruct Hrc as [->| ->]; [|done]. rewrite elem_of_cons. naive_solver. }
      assert (HD : forall c', c' <> c -> RDone c' ∈ r :: X <-> RDone c' ∈ X).
      { intros c' Hne. rewrite elem_of_cons. destruct Hrc as [->| ->]; naive_solver. }
      destruct Hcb. split; try done.
      * intros p o c' Hq Hin. rewrite lookup_delete_ne; [eauto|]. intros <-. by apply (Hnreg p o).
      * intros c' Hin. assert (c' <> c) by (intros ->; done). rewrite lookup_delete_ne by congruence.
        apply cb_queued. by apply HW.
      * rewrite works_cons in cb_works. destruct Hrc as [->| ->]; [|done]. apply NoDup_cons in cb_works. tauto.
      * intros c'. destruct (decide (c' = c)) as [->|Hne]; [rewrite lookup_delete_eq; by intros []|].
        rewrite lookup_delete_ne by congruence. rewrite <- HW, <- HD by done. auto.
      * intros c' Hin. assert (Hne : c' <> c) by (intros ->; done). rewrite lookup_delete_ne by congruence.
        rewrite <- HW by done. apply cb_done. by apply HD.
      * intros c' x. rewrite lookup_delete_Some. intros [Hne Hx] Ht.
        destruct (cb_timer c' x Hx Ht) as [? [|Hin]]; [auto|]. split; [done|]. right.
        apply elem_of_cons in Hin as [E|]; [|done]. destruct Hrc as [->| ->]; congruence.
      * intros c' f h st dt Hin. destruct (decide (c' = c)) as [->|Hne]; [left; apply lookup_delete_eq|].
        rewrite lookup_delete_ne by congruence. rewrite <- HD by done. eauto.
    + eapply sigs_ok_items; [| |exact Hs].
      * rewrite owned_sigs_cons. by destruct Hrc as [->| ->].
      * intros s Hin. left. rewrite works_cons. destruct Hrc as [->| ->]; [by right|done].
    + eapply objs_ok_items; [|exact Ho]. intros p. rewrite in_hand_not; [done|]. by destruct Hrc as [->| ->].
  - intros r' Hr'. specialize (Hr r' Hr').
    rewrite stored_plain in Hr by (destruct Hrc as [->| ->]; done).
    rewrite cnt_cons_ne in Hr; [done|]. intros ->. by destruct Hrc as [->| ->].
Qed.

End mem.
