(* ===== verification/SynxKeeps.v ===== *)
(** * The synx client framework: callbacks, fences, and rules for runs

    The way of a callback node from the list of its object to its delivery, and
    that of a [synx_signal_cb] between a fence and the code, keep the invariant;
    so do the calls of the kernel's fences, which run callbacks. The second part
    has a rule for each construct of the code. *)

From S2P Require Import Prelude SynxGlobal SynxSignal SynxDev SynxUtil SynxClient SynxInv.
From S2P Require Import SynxRefs SynxOwn SynxMem.

Section move.
Context `{F : DmaFence}.
Implicit Types d : dev.

(** ** Callback nodes *)

(** The state after [list_del_cb]. *)
Definition unreg (c : Z) (d : dev) : dev :=
  set_d_objs ((fun o => set_o_reg_cbs (List.filter (fun c' => negb (c' =? c)) (o_reg_cbs o)) o) <$> d_objs d) d.

Lemma unreg_lookup c d p o' :
  d_objs (unreg c d) !! p = Some o' ->
  exists o, d_objs d !! p = Some o /\ o' = set_o_reg_cbs (List.filter (fun c' => negb (c' =? c)) (o_reg_cbs o)) o.
Proof. simpl. rewrite lookup_fmap. destruct (d_objs d !! p) as [o|]; [|done]. intros [= <-]. eauto. Qed.

Lemma unreg_lookup_2 c d p o :
  d_objs d !! p = Some o ->
  d_objs (unreg c d) !! p = Some (set_o_reg_cbs (List.filter (fun c' => negb (c' =? c)) (o_reg_cbs o)) o).
Proof. simpl. intros H. by rewrite lookup_fmap, H. Qed.

Lemma NoDup_filter_ne (y : Z) l : NoDup l -> NoDup (List.filter (fun z => negb (z =? y)) l).
Proof. rewrite !NoDup_ListNoDup. apply List.NoDup_filter. Qed.

Lemma inv_unreg L X d p o c :
  inv L X d -> d_objs d !! p = Some o -> c ∈ o_reg_cbs o -> inv L (RWork (WCb c) :: X) (unreg c d).
Proof.
  intros [[Hh [] Hm Hhd Hc Hcu Hcb Hs [Ho1 Ho2 Ho4 Ho5 Ho3]] Hr] Hp Hin. split.
  - split; try done.
    + split; try done. intros q Hq. simpl. rewrite lookup_fmap, fr_objs; done.
    + by apply (cleanup_ok_items X _ d).
    + destruct Hcb. split; rewrite ?works_cons.
      * intros q o' c' Hq. destruct (unreg_lookup _ _ _ _ Hq) as (o1 & Ho & ->). simpl.
        rewrite elem_of_filter_ne. intros [? ?]. eauto.
      * intros q o' Hq. destruct (unreg_lookup _ _ _ _ Hq) as (o1 & Ho & ->). apply NoDup_filter_ne. eauto.
      * intros q q' o' o'' c' Hq Hq'. destruct (unreg_lookup _ _ _ _ Hq) as (o1 & Ho & ->).
        destruct (unreg_lookup _ _ _ _ Hq') as (o2 & Ho' & ->). simpl. rewrite !elem_of_filter_ne.
        intros [? ?] [? ?]. eauto.
      * intros c'. rewrite elem_of_cons. intros [[= ->]|Hin'].
        -- split; [by eapply cb_reg|]. intros q o' Hq. destruct (unreg_lookup _ _ _ _ Hq) as (o1 & Ho & ->). simpl.
           rewrite elem_of_filter_ne. tauto.
        -- destruct (cb_queued c' Hin') as [H1 H2]. split; [done|].
           intros q o' Hq. destruct (unreg_lookup _ _ _ _ Hq) as (o1 & Ho & ->). simpl.
           rewrite elem_of_filter_ne. intros [? ?]. by apply (H2 q o1).
      * apply NoDup_cons. split; [|done]. intros Hw. destruct (cb_queued c Hw) as [_ H2]. by apply (H2 p o).
      * intros c' Hl. destruct (decide (c' = c)) as [->|Hne]; [right; left; by left|].
        destruct (cb_kept c' Hl) as [(q & o1 & Hq & Hc')|[|]].
        -- left. eexists q, _. split; [by apply unreg_lookup_2|]. simpl. by rewrite elem_of_filter_ne.
        -- right. left. by right.
        -- right. right. by right.
      * intros c' Hd. rewrite in_hand_not in Hd by done. destruct (cb_done c' Hd) as (H1 & H2 & H3).
        split_and!; [done| |].
        -- rewrite elem_of_cons. intros [[= ->]|]; [|done]. by apply (H3 p o).
        -- intros q o' Hq. destruct (unreg_lookup _ _ _ _ Hq) as (o1 & Ho & ->). simpl.
           rewrite elem_of_filter_ne. intros [? ?]. by apply (H3 q o1).
      * intros c' x Hx Ht. destruct (cb_timer c' x Hx Ht) as [H1 H2]. split; [done|].
        destruct (decide (c' = c)) as [->|Hne]; [right; by left|].
        destruct H2 as [(q & o1 & Hq & Hc')|]; [|right; by right].
        left. eexists q, _. split; [by apply unreg_lookup_2|]. simpl. by rewrite elem_of_filter_ne.
      * intros c' f h st dt Hd. rewrite in_hand_not by done. eauto.
      * done.
    + eapply sigs_ok_items; [| |exact Hs]; [by rewrite owned_sigs_cons|].
      intros s. simpl. rewrite works_cons, elem_of_cons. naive_solver.
    + split; intros q o' .
      * intros Hq. destruct (unreg_lookup _ _ _ _ Hq) as (o1 & Ho & ->). by apply (Ho1 q o1).
      * intros Hq. destruct (unreg_lookup _ _ _ _ Hq) as (o1 & Ho & ->). by apply (Ho2 q o1).
      * intros Hq. destruct (unreg_lookup _ _ _ _ Hq) as (o1 & Ho & ->). by apply (Ho4 q o1).
      * intros Hq. destruct (unreg_lookup _ _ _ _ Hq) as (o1 & Ho & ->). by apply (Ho5 q o1).
      * intros s Hq. destruct (unreg_lookup _ _ _ _ Hq) as (o1 & Ho & ->). rewrite in_hand_not by done.
        by apply (Ho3 q o1).
  - intros r Hr'. rewrite stored_plain by done. rewrite cnt_cons_ne by (intros ->; done). specialize (Hr r Hr').
    destruct r as [q| | | | | | | |]; simpl in *; try done. rewrite lookup_fmap.
    by destruct (d_objs d !! q).
Qed.

Lemma inv_unreg_none L X d c :
  inv L X d -> (forall p o, d_objs d !! p = Some o -> c ∉ o_reg_cbs o) -> inv L X (unreg c d).
Proof.
  intros Hi Hn. assert (E : d_objs (unreg c d) = d_objs d).
  { apply map_eq. intros p. simpl. rewrite lookup_fmap. destruct (d_objs d !! p) as [o|] eqn:Ho; [|done]. simpl.
    f_equal. assert (E : List.filter (fun c' => negb (c' =? c)) (o_reg_cbs o) = o_reg_cbs o).
    { specialize (Hn p o Ho). clear Ho. induction (o_reg_cbs o) as [|c' l IH]; [done|]. simpl.
      rewrite elem_of_cons in Hn. assert (c' <> c) by naive_solver.
      rewrite (proj2 (Z.eqb_neq c' c)) by done. simpl. f_equal. apply IH. naive_solver. }
    rewrite E. by destruct o. }
  eapply inv_intro; [exact Hi|exact (in_held _ _ _ (proj1 Hi))|exact E|reflexivity..|simpl; lia].
Qed.

Lemma inv_reg L X d p o c :
  inv L (RWork (WCb c) :: X) d -> d_objs d !! p = Some o ->
  inv L X (set_d_objs (<[p := set_o_reg_cbs (c :: o_reg_cbs o) o]> (d_objs d)) d).
Proof.
  intros [[Hh [] Hm Hhd Hc Hcu Hcb Hs [Ho1 Ho2 Ho4 Ho5 Ho3]] Hr] Hp.
  assert (Hlk : forall q o', <[p := set_o_reg_cbs (c :: o_reg_cbs o) o]> (d_objs d) !! q = Some o' ->
            exists o1, d_objs d !! q = Some o1 /\
              ((q = p /\ o1 = o /\ o' = set_o_reg_cbs (c :: o_reg_cbs o) o) \/ (q <> p /\ o' = o1))).
  { intros q o'. rewrite lookup_insert_Some. intros [[-> <-]|[Hne Hq]]; eauto 10. }
  split.
  - split; try done.
    + split; try done. intros q Hq. simpl. rewrite lookup_insert_ne; [auto|]. intros <-.
      by rewrite fr_objs in Hp.
    + by apply (cleanup_ok_items (RWork (WCb c) :: X) _ d).
    + destruct Hcb. rewrite works_cons in cb_works. apply NoDup_cons in cb_works as [Hnw HNW].
      destruct (cb_queued c) as [Hcl Hcn]; [rewrite works_cons; by left|].
      split; simpl; try done.
      * intros q o' c' Hq. destruct (Hlk _ _ Hq) as (o1 & Ho & [(-> & -> & ->)|(Hne & ->)]); simpl; [|by eauto].
        rewrite elem_of_cons. intros [->|]; eauto.
      * intros q o' Hq. destruct (Hlk _ _ Hq) as (o1 & Ho & [(-> & -> & ->)|(Hne & ->)]); simpl; [|by eauto].
        apply NoDup_cons. eauto.
      * intros q q' o' o'' c' Hq Hq' Hc1 Hc2.
        destruct (Hlk _ _ Hq) as (o1 & Ho & Hor1), (Hlk _ _ Hq') as (o2 & Ho' & Hor2).
        destruct Hor1 as [(-> & -> & ->)|(Hne & ->)], Hor2 as [(-> & -> & ->)|(Hne' & ->)]; simpl in *; [done|..].
        -- apply elem_of_cons in Hc1 as [->|]; [by destruct (Hcn q' o2)|]. by apply (cb_one p q' o o2 c').
        -- apply elem_of_cons in Hc2 as [->|]; [by destruct (Hcn q o1)|]. by apply (cb_one q p o1 o c').
        -- by eapply cb_one.
      * intros c' Hin. destruct (cb_queued c') as [H1 H2]; [rewrite works_cons; by right|]. split; [done|].
        intros q o' Hq. destruct (Hlk _ _ Hq) as (o1 & Ho & [(-> & -> & ->)|(Hne & ->)]); simpl; [|by eauto].
        rewrite elem_of_cons. intros [->|]; [done|]. by apply (H2 p o).
      * intros c' Hl. destruct (cb_kept c' Hl) as [(q & o1 & Hq & Hc')|[Hw|Hd]].
        -- left. destruct (decide (q = p)) as [->|Hne].
           ++ eexists p, _. rewrite lookup_insert_eq. split; [done|]. simpl. rewrite Hp in Hq.
              injection Hq as <-. by apply list_elem_of_further.
           ++ exists q, o1. by rewrite lookup_insert_ne by congruence.
        -- rewrite works_cons in Hw. apply elem_of_cons in Hw as [[= ->]|]; [|auto]. left.
           eexists p, _. rewrite lookup_insert_eq. split; [done|]. simpl. by left.
        -- rewrite in_hand_not in Hd by done. auto.
      * intros c' Hd. destruct (cb_done c') as (H1 & H2 & H3); [by right|]. split_and!; [done| |].
        -- intros Hw. apply H2. rewrite works_cons. by right.
        -- intros q o' Hq. destruct (Hlk _ _ Hq) as (o1 & Ho & [(-> & -> & ->)|(Hne & ->)]); simpl; [|by eauto].
           rewrite elem_of_cons. intros [->|]; [|by apply (H3 p o)]. apply H2. rewrite works_cons. by left.
      * intros c' x Hx Ht. destruct (cb_timer c' x Hx Ht) as [H1 H2]. split; [done|].
        destruct H2 as [(q & o1 & Hq & Hc')|Hw].
        -- left. destruct (decide (q = p)) as [->|Hne].
           ++ eexists p, _. rewrite lookup_insert_eq. split; [done|]. simpl. rewrite Hp in Hq.
              injection Hq as <-. by apply list_elem_of_further.
           ++ exists q, o1. by rewrite lookup_insert_ne by congruence.
        -- apply elem_of_cons in Hw as [[= ->]|]; [|auto]. left. eexists p, _. rewrite lookup_insert_eq.
           split; [done|]. simpl. by left.
      * intros c' f h st dt Hd. specialize (cb_trace c' f h st dt Hd). rewrite in_hand_not in cb_trace by done. done.
    + eapply sigs_ok_items; [| |exact Hs]; [by rewrite owned_sigs_cons|].
      intros s Hin. left. rewrite works_cons. by right.
    + split; simpl; intros q o'.
      * intros Hq. destruct (Hlk _ _ Hq) as (o1 & Ho & [(-> & -> & ->)|(Hne & ->)]); by apply (Ho1 _ _ Ho).
      * intros Hq. destruct (Hlk _ _ Hq) as (o1 & Ho & [(-> & -> & ->)|(Hne & ->)]); by apply (Ho2 _ _ Ho).
      * intros Hq. destruct (Hlk _ _ Hq) as (o1 & Ho & [(-> & -> & ->)|(Hne & ->)]); by apply (Ho4 _ _ Ho).
      * intros Hq. destruct (Hlk _ _ Hq) as (o1 & Ho & [(-> & -> & ->)|(Hne & ->)]); by apply (Ho5 _ _ Ho).
      * intros s Hq Hs1 Ha Hst. assert (Hst' : RStale q ∉ RWork (WCb c) :: X) by hand.
        destruct (Hlk _ _ Hq) as (o1 & Ho & [(-> & -> & ->)|(Hne & ->)]); by apply (Ho3 _ _ s Ho).
  - intros r Hr'. specialize (Hr r Hr'). rewrite stored_plain in Hr by done.
    rewrite cnt_cons_ne in Hr by (intros ->; done).
    destruct r as [q| | | | | | | |]; simpl in *; try done. destruct (decide (q = p)) as [->|Hne].
    + rewrite lookup_insert_eq. rewrite Hp in Hr. done.
    + by rewrite lookup_insert_ne by congruence.
Qed.

Lemma inv_upd_cb L X d c x x' :
  inv L X d -> d_cbs d !! c = Some x ->
  (c_timer x' = true -> c_timeout x' <> SYNX_NO_TIMEOUT /\
    ((exists p o, d_objs d !! p = Some o /\ c ∈ o_reg_cbs o) \/ RWork (WCb c) ∈ X)) ->
  inv L X (set_d_cbs (<[c := x']> (d_cbs d)) d).
Proof.
  intros [[Hh [] Hm Hhd Hc Hcu Hcb Hs Ho] Hr] Hx Ht.
  assert (Hl : forall c', is_Some (<[c := x']> (d_cbs d) !! c') <-> is_Some (d_cbs d !! c')).
  { intros c'. rewrite lookup_insert_is_Some. destruct (decide (c = c')) as [->|]; [rewrite Hx|]; naive_solver. }
  split; [|done]. split; try done.
  - split; try done. intros q Hq. simpl. rewrite lookup_insert_ne; [auto|]. intros <-. by rewrite fr_cbs in Hx.
  - by apply (cleanup_ok_items X _ d).
  - destruct Hcb. split; simpl; try done.
    + intros p o c' Hp Hin. apply Hl. eauto.
    + intros c' Hin. rewrite Hl. auto.
    + intros c'. rewrite Hl. auto.
    + intros c' Hin. rewrite Hl. auto.
    + intros c' y. rewrite lookup_insert_Some. intros [[-> <-]|[Hne Hy]]; eauto.
    + intros c' f h st dt Hin. destruct (cb_trace c' f h st dt Hin) as [H|]; [|auto]. left.
      rewrite lookup_insert_ne; [done|]. intros <-. congruence.
Qed.

(** The callback of a kernel client is called. *)
Lemma inv_deliver L X d c f h st dt :
  inv L (RWork (WCb c) :: X) d -> (forall x, d_cbs d !! c = Some x -> c_timer x = false) ->
  inv L (RDone c :: X) (set_d_trace (d_trace d ++ [UserCallback c f h st dt]) d).
Proof.
  intros [[Hh [] Hm Hhd Hc Hcu Hcb Hs Ho] Hr] Htm.
  assert (Hq : is_Some (d_cbs d !! c) /\ forall p o, d_objs d !! p = Some o -> c ∉ o_reg_cbs o).
  { apply (cb_queued _ _ _ _ _ Hcb). rewrite works_cons. by left. }
  assert (Hnd : RDone c ∉ X).
  { intros Hin. destruct (cb_done _ _ _ _ _ Hcb c) as (_ & H & _); [by right|]. apply H. rewrite works_cons. by left. }
  assert (Hnt : forall f h st dt, UserCallback c f h st dt ∉ d_trace d).
  { intros f' h' st' dt' Hin. destruct (cb_trace _ _ _ _ _ Hcb c f' h' st' dt' Hin) as [H|H].
    - rewrite H in Hq. by destruct Hq as [[? ?] _].
    - by rewrite in_hand_not in H. }
  split.
  - split; try done.
    + split; try done. simpl. intros c' f' h' st' dt'. rewrite elem_of_app, list_elem_of_singleton.
      intros [Hin|[= -> _ _ _ _]]; [eauto|]. destruct Hq as [[x Hx] _].
      destruct (decide (d_next d <= c)) as [Hge|]; [|lia]. by rewrite fr_cbs in Hx.
    + by apply (cleanup_ok_items (RWork (WCb c) :: X) _ d).
    + destruct Hcb. rewrite works_cons in cb_works. apply NoDup_cons in cb_works as [Hnw HNW].
      split; simpl; try done.
      * intros c' Hin. apply cb_queued. rewrite works_cons. by right.
      * intros c' Hl. destruct (cb_kept c' Hl) as [|[Hw|Hd]]; [auto| |].
        -- rewrite works_cons in Hw. apply elem_of_cons in Hw as [[= ->]|]; [|auto]. right. right. by left.
        -- rewrite in_hand_not in Hd by done. right. right. by right.
      * intros c'. rewrite elem_of_cons. intros [[= ->]|Hin]; [by destruct Hq|].
        destruct (cb_done c') as (H1 & H2 & H3); [by right|]. split_and!; [done| |done].
        intros Hw. apply H2. rewrite works_cons. by right.
      * intros c' x Hx Ht. destruct (cb_timer c' x Hx Ht) as [H1 [H2|H2]]; [auto|]. split; [done|].
        apply elem_of_cons in H2 as [[= ->]|]; [|right; by right]. rewrite (Htm x) in Ht by done. done.
      * intros c' f' h' st' dt'. rewrite elem_of_app, list_elem_of_singleton.
        intros [Hin|[= -> _ _ _ _]]; [|right; by left].
        destruct (cb_trace c' f' h' st' dt' Hin) as [|Hd]; [auto|]. rewrite in_hand_not in Hd by done. right. by right.
      * rewrite omap_app. simpl. apply NoDup_snoc; [done|]. rewrite list_elem_of_omap.
        intros ([] & Hin & Heq); try done. injection Heq as ->. by apply (Hnt f0 h_synx status data).
    + eapply sigs_ok_items; [| |exact Hs]; [by rewrite owned_sigs_cons|].
      intros s Hin. left. rewrite works_cons. by right.
    + eapply objs_ok_items; [|exact Ho]. hand.
  - intros r Hr'. specialize (Hr r Hr'). rewrite stored_plain in * by done.
    rewrite cnt_cons_ne in * by (intros ->; done). done.
Qed.

(** ** Calls of the fences *)

Definition fire_works (fired : list (Z * Z)) : list res := map (fun fs => RWork (WSignal fs.2)) fired.

Lemma fire_works_items fired X :
  (forall wq, works (fire_works fired ++ X) wq = map WSignal (fired.*2) ++ works X wq) /\
  (forall wq, owned_sigs (fire_works fired ++ X) wq = fired.*2 ++ owned_sigs X wq) /\
  clean_items (fire_works fired ++ X) = clean_items X /\
  (forall r, (forall s, r <> RWork (WSignal s)) -> r ∈ fire_works fired ++ X <-> r ∈ X).
Proof.
  induction fired as [|[f s] fired (IH1 & IH2 & IH3 & IH4)]; [done|]. simpl. split_and!.
  - intros wq. by rewrite works_cons, IH1.
  - intros wq. by rewrite owned_sigs_cons, IH2.
  - exact IH3.
  - intros r Hr. rewrite in_hand_not; auto.
Qed.

Lemma fire_works_stored fired X d r : counted r = true ->
  stored (fire_works fired ++ X) d r = stored X d r /\ cnt r (fire_works fired ++ X) = cnt r X.
Proof.
  intros Hr. induction fired as [|[f s] fired [IH1 IH2]]; [done|]. simpl.
  rewrite stored_plain by done. rewrite cnt_cons_ne by (intros ->; done). done.
Qed.

Lemma NoDup_snd (l : list (Z * Z)) :
  NoDup l -> (forall f f' s, (f, s) ∈ l -> (f', s) ∈ l -> f = f') -> NoDup l.*2.
Proof.
  intros Hn Hf. induction Hn as [|[f s] l Hnin Hn IH]; [constructor|]. simpl. apply NoDup_cons. split.
  - intros Hin. apply list_elem_of_fmap in Hin as ([f' s'] & -> & Hin). simpl in Hf.
    assert (f = f') as -> by (eapply Hf; [by left|by right]). done.
  - apply IH. intros f1 f2 s1 H1 H2. eapply Hf; by right.
Qed.

Lemma obj_active_step fs fired fs' o :
  fence_step fs fired fs' -> (synx_util_is_merged_object o = true ->
    exists l, to_dma_fence_array fs (o_fence o) = Some l /\ o_fence o ∉ l) ->
  obj_active fs' o -> obj_active fs o.
Proof.
  intros [S1 S2 _ _] Hm. unfold obj_active. destruct (synx_util_is_merged_object o).
  - intros (l & c & Hl & Hc & H0). destruct (Hm eq_refl) as (l0 & Hl0 & _). pose proof (S2 _ _ Hl0) as E.
    rewrite Hl in E. injection E as ->. exists l0, c. split_and!; [done..|].
    destruct (decide (dma_fence_get_status fs c = 0)) as [|Hn]; [done|]. by apply S1 in Hn.
  - intros H0. destruct (decide (dma_fence_get_status fs (o_fence o) = 0)) as [|Hn]; [done|]. by apply S1 in Hn.
Qed.

Lemma settled_inactive fs o : settled fs (o_fence o) -> ~ obj_active fs o.
Proof.
  intros [H1 H2]. unfold obj_active. destruct (synx_util_is_merged_object o); [|done].
  intros (l & c & Hl & Hc & H0). by apply (H2 l c).
Qed.

(** The callbacks that a call runs are in hand. *)
Lemma inv_fence L X d fired fs' :
  inv L X d -> fence_step (d_fences d) fired fs' -> unused_from (d_next d) fs' ->
  (forall f l c, to_dma_fence_array fs' f = Some l -> c ∈ l ->
     c < d_next d /\ to_dma_fence_array fs' c = None) ->
  (forall p o, d_objs d !! p = Some o -> to_dma_fence_array (d_fences d) (o_fence o) = None -> o_fence o <> 0 ->
     to_dma_fence_array fs' (o_fence o) = None) ->
  inv L (fire_works fired ++ X) (set_d_fences fs' d).
Proof.
  intros [[Hh [] Hm Hhd Hc Hcu Hcb [S1 S2 S3 S4 S5 S6] [Ho1 Ho2 Ho4 Ho5 Ho3]] Hr] Hst Hun Hch Hpl.
  destruct (fire_works_items fired X) as (E1 & E2 & E3 & E4).
  pose proof (fs_status _ _ _ Hst) as F1. pose proof (fs_array _ _ _ Hst) as F2.
  pose proof (fs_cbs _ _ _ Hst) as F3. pose proof (fs_nodup _ _ _ Hst S4) as F4.
  assert (Hfired : forall f s, (f, s) ∈ fired -> s ∈ cbs (d_fences d) f).
  { intros f s Hin. destruct (F3 f) as [[_ Hno]|(_ & _ & Hf)]; [by destruct (Hno s)|by apply Hf]. }
  assert (Hf2 : forall s, s ∈ fired.*2 -> exists f, (f, s) ∈ fired).
  { intros s Hin. apply list_elem_of_fmap in Hin as ([f s'] & -> & Hin). eauto. }
  assert (HN2 : NoDup fired.*2).
  { apply NoDup_snd; [done|]. intros f f' s H1 H2. eauto. }
  assert (Hkeep : forall f s, s ∈ cbs fs' f -> s ∈ cbs (d_fences d) f /\ s ∉ fired.*2).
  { intros f s Hin. destruct (F3 f) as [[E Hno]|(E & _ & _)]; rewrite E in Hin; [|by apply elem_of_nil in Hin].
    split; [done|]. intros Hin2. destruct (Hf2 s Hin2) as [f' Hin']. assert (f' = f) as -> by eauto.
    by apply (Hno s). }
  split.
  - split; try done.
    + split; try done; intros f l c Hl Hin; by destruct (Hch f l c Hl Hin).
    + apply (cleanup_ok_items X _ d); [by rewrite E3|done..].
    + eapply cbs_ok_items; [| | | |exact Hcb].
      * intros c. simpl. rewrite E1, elem_of_app, list_elem_of_fmap. naive_solver.
      * simpl. rewrite E1. destruct Hcb. apply NoDup_app. split_and!; [by apply NoDup_fmap; [intros ?? [=]|]| |done].
        intros w Hw Hw2. apply list_elem_of_fmap in Hw as (s & -> & Hin). destruct (Hf2 s Hin) as [f Hin'].
        apply (S3 f s); [auto|]. eapply work_owned; [|exact Hw2]. by left.
      * intros c. by rewrite E4.
      * intros c x Hx Ht. by rewrite E4.
    + split; simpl; rewrite ?E1, ?E2.
      * apply NoDup_app. split_and!; [done| |done]. intros s Hin Ho. destruct (Hf2 s Hin) as [f Hin'].
        apply (S3 f s); auto.
      * intros s. rewrite elem_of_app. intros [Hin|Hin]; [|auto]. destruct (Hf2 s Hin) as [f Hin'].
        apply (S3 f s). auto.
      * intros f s Hin. destruct (Hkeep f s Hin) as [H1 H2]. destruct (S3 f s H1) as [H3 H4]. split; [done|].
        rewrite elem_of_app. tauto.
      * intros f. destruct (F3 f) as [[E _]|(E & _ & _)]; rewrite E; [done|constructor].
      * intros f f' s H1 H2. apply Hkeep in H1 as [H1 _]. apply Hkeep in H2 as [H2 _]. eauto.
      * intros s x. rewrite elem_of_app, list_elem_of_fmap. intros [(s' & [=] & _)|Hin]. eauto.
    + split; simpl; try done.
      * intros p o Hp Hmg. destruct (Ho4 p o Hp Hmg) as (l & Hl & Hn). apply F2 in Hl. eauto.
      * intros p o Hp Hmg Hz. by apply (Hpl p); [|apply (Ho5 p)|].
      * intros p o s Hp Hs Ha Hst'. pose proof (obj_active_step _ _ _ o Hst (Ho4 p o Hp) Ha) as Ha'.
        destruct (Ho3 p o s Hp Hs Ha') as [H1 H2]; [by rewrite E4 in Hst'|]. split; [|done].
        destruct (F3 (o_fence o)) as [[E _]|(_ & Hset & _)]; [by rewrite E|].
        by destruct (settled_inactive _ _ Hset Ha).
  - intros r Hr'. destruct (fire_works_stored fired X d r Hr') as [G1 G2].
    change (stored (fire_works fired ++ X) (set_d_fences fs' d) r) with (stored (fire_works fired ++ X) d r).
    rewrite G1, G2. by apply Hr.
Qed.

Lemma unused_from_call n f fs fired fs' :
  call_step f fs fired fs' -> unused_from n fs -> f < n -> unused_from n fs'.
Proof. intros [_ _ H] Hu Hf g Hg. apply H; [lia|]. by apply Hu. Qed.

Lemma inv_call L X d f fired fs' :
  inv L X d -> call_step f (d_fences d) fired fs' -> f < d_next d ->
  inv L (fire_works fired ++ X) (set_d_fences fs' d).
Proof.
  intros Hi Hc Hf. apply inv_fence; [done|apply Hc| | |].
  - eapply unused_from_call; [done|apply Hi|done].
  - intros g l c. rewrite !(ca_array _ _ _ _ Hc). intros Hl Hin.
    destruct (in_fresh _ _ _ (proj1 Hi)). eauto.
  - intros p o Hp. by rewrite (ca_array _ _ _ _ Hc).
Qed.

(** A [synx_signal_cb] with the reference on its object is added to the fence of
    the object. *)
Lemma inv_add_callback L X d f s x fs' :
  inv L (RSig s :: sig_objs x ++ X) d -> d_sigs d !! s = Some x -> f < d_next d ->
  (forall g, dma_fence_get_status fs' g = dma_fence_get_status (d_fences d) g) ->
  (forall g, to_dma_fence_array fs' g = to_dma_fence_array (d_fences d) g) ->
  (forall g, g <> f -> cbs fs' g = cbs (d_fences d) g) -> cbs fs' f = cbs (d_fences d) f ++ [s] ->
  inv L X (set_d_fences fs' d).
Proof.
  intros Hi Hs Hf G1 G2 G3 G4. destruct (sig_objs_items s x X) as (E1 & E2 & E3 & E4).
  destruct Hi as [[Hh [] Hm Hhd Hc Hcu Hcb [S1 S2 S3 S4 S5 S6] [Ho1 Ho2 Ho4 Ho5 Ho3]] Hr].
  rewrite E2 in S1, S2, S3. rewrite E1 in S6. apply NoDup_cons in S1 as [Hno S1].
  assert (Hin' : forall g s', s' ∈ cbs fs' g -> s' ∈ cbs (d_fences d) g \/ (g = f /\ s' = s)).
  { intros g s' Hin. destruct (decide (g = f)) as [->|Hne]; [|rewrite G3 in Hin by done; auto].
    rewrite G4 in Hin. apply elem_of_app in Hin as [|Hin]; [auto|]. apply list_elem_of_singleton in Hin. auto. }
  assert (Hnc : forall g, s ∉ cbs (d_fences d) g).
  { intros g Hin. destruct (S3 g s Hin) as [_ Ho]. apply Ho. by left. }
  split.
  - split; try done.
    + split; try done; [|intros g l c'; simpl; rewrite !G2; eauto..].
      intros g Hg. simpl in Hg. destruct (fr_fences g Hg) as (H1 & H2 & H3). unfold unused. simpl.
      rewrite G1, G2, G3 by lia. done.
    + apply (cleanup_ok_items (RSig s :: sig_objs x ++ X) _ d); [by rewrite E3|done..].
    + eapply cbs_ok_items; [| | | |exact Hcb]; simpl; rewrite ?E1; try done.
      * destruct Hcb. by rewrite E1 in cb_works.
      * intros c. by rewrite E4.
      * intros c y Hy Ht. by rewrite E4.
    + split; simpl; try done.
      * intros s' Hin. apply S2. by right.
      * intros g s' Hin. destruct (Hin' g s' Hin) as [H|[-> ->]].
        -- destruct (S3 g s' H) as [? Ho]. split; [done|]. intros ?. apply Ho. by right.
        -- split; [by eexists|done].
      * intros g. destruct (decide (g = f)) as [->|Hne]; [|rewrite G3; done]. rewrite G4. by apply NoDup_snoc.
      * intros g g' s' H1 H2. apply Hin' in H1, H2. destruct H1 as [H1|[-> ->]], H2 as [H2|[-> E]]; subst; eauto.
        -- by destruct (Hnc g).
        -- by destruct (Hnc g').
    + split; simpl; try done.
      * intros p o Hp Hmg. rewrite G2. eauto.
      * intros p o Hp Hmg. rewrite G2. eauto.
      * intros p o s' Hp Hs' Ha Hst. assert (Ha' : obj_active (d_fences d) o).
        { unfold obj_active in *. destruct (synx_util_is_merged_object o).
          - destruct Ha as (l & c & H1 & H2 & H3). rewrite G2 in H1. rewrite G1 in H3. eauto.
          - by rewrite G1 in Ha. }
        destruct (Ho3 p o s' Hp Hs' Ha') as [H1 H2]; [by rewrite E4|]. split; [|done].
        destruct (decide (o_fence o = f)) as [E|Hne]; [|by rewrite G3].
        rewrite E in *. rewrite G4, elem_of_app. auto.
  - intros r Hr'. specialize (Hr r Hr').
    assert (Hf' : RSig s ∉ X).
    { intros Hin. apply Hno. unfold owned_sigs. rewrite elem_of_app, elem_held_sigs. auto. }
    change (stored X (set_d_fences fs' d) r) with (stored X d r). rewrite (stored_sig s x X d r Hs Hf' Hr').
    rewrite stored_sig_objs in Hr. rewrite cnt_cons_ne in Hr by (intros ->; done).
    rewrite cnt_sig_objs in Hr. change (kref (set_d_fences fs' d) r) with (kref d r). lia.
Qed.

(** A [synx_signal_cb] is removed from the fence of an object, whose
    [signal_cb] is to be reset. *)
Lemma inv_remove_callback L X d f s x p fs' :
  inv L X d -> s ∈ cbs (d_fences d) f -> d_sigs d !! s = Some x -> s_obj x = Some p ->
  (forall g, dma_fence_get_status fs' g = dma_fence_get_status (d_fences d) g) ->
  (forall g, to_dma_fence_array fs' g = to_dma_fence_array (d_fences d) g) ->
  (forall g, g <> f -> cbs fs' g = cbs (d_fences d) g) ->
  cbs fs' f = List.filter (fun s' => negb (s' =? s)) (cbs (d_fences d) f) ->
  inv L (RSig s :: sig_objs x ++ RStale p :: X) (set_d_fences fs' d).
Proof.
  intros Hi Hin Hs Hp G1 G2 G3 G4. apply (inv_stale L X d p) in Hi.
  destruct (sig_objs_items s x (RStale p :: X)) as (E1 & E2 & E3 & E4). set (Y := RStale p :: X) in *.
  destruct Hi as [[Hh [] Hm Hhd Hc Hcu Hcb [S1 S2 S3 S4 S5 S6] [Ho1 Ho2 Ho4 Ho5 Ho3]] Hr].
  destruct (S3 f s Hin) as [_ Hno].
  assert (Hin' : forall g s', s' ∈ cbs fs' g -> s' ∈ cbs (d_fences d) g /\ s' <> s).
  { intros g s' H. destruct (decide (g = f)) as [->|Hne].
    - rewrite G4 in H. by apply elem_of_filter_ne in H.
    - rewrite G3 in H by done. split; [done|]. intros ->. by apply Hne, (S5 g f s). }
  split.
  - split; try done.
    + split; try done; [|intros g l c'; simpl; rewrite !G2; eauto..].
      intros g Hg. simpl in Hg. destruct (fr_fences g Hg) as (H1 & H2 & H3). unfold unused. simpl.
      rewrite G1, G2. split_and!; [|done..]. destruct (decide (g = f)) as [->|Hne]; [|by rewrite G3].
      rewrite H1 in Hin. by apply elem_of_nil in Hin.
    + apply (cleanup_ok_items Y _ d); [by rewrite E3|done..].
    + eapply cbs_ok_items; [| | | |exact Hcb]; simpl; rewrite ?E1; try done.
      * by destruct Hcb.
      * intros c. by rewrite E4.
      * intros c y Hy Ht. by rewrite E4.
    + split; simpl; rewrite ?E1, ?E2; try done.
      * by apply NoDup_cons.
      * intros s'. rewrite elem_of_cons. intros [->|]; eauto.
      * intros g s' H. destruct (Hin' g s' H) as [H1 H2]. destruct (S3 g s' H1) as [? Ho]. split; [done|].
        rewrite elem_of_cons. tauto.
      * intros g. destruct (decide (g = f)) as [->|Hne]; [|rewrite G3; done]. rewrite G4. by apply NoDup_filter_ne.
      * intros g g' s' H1 H2. apply Hin' in H1 as [H1 _], H2 as [H2 _]. eauto.
    + split; simpl; try done.
      * intros q o Hq Hmg. rewrite G2. eauto.
      * intros q o Hq Hmg. rewrite G2. eauto.
      * intros q o s' Hq Hs' Ha Hst. rewrite E4 in Hst by done. assert (Ha' : obj_active (d_fences d) o).
        { unfold obj_active in *. destruct (synx_util_is_merged_object o).
          - destruct Ha as (l & c & H1 & H2 & H3). rewrite G2 in H1. rewrite G1 in H3. eauto.
          - by rewrite G1 in Ha. }
        destruct (Ho3 q o s' Hq Hs' Ha' Hst) as [H1 (x' & Hx' & Hq')]. split; [|eauto].
        assert (s' <> s).
        { intros ->. rewrite Hs in Hx'. injection Hx' as <-. rewrite Hp in Hq'. injection Hq' as ->.
          apply Hst. by left. }
        destruct (decide (o_fence o = f)) as [E|Hne]; [|by rewrite G3].
        rewrite E in *. rewrite G4. by apply elem_of_filter_ne.
  - intros r Hr'. specialize (Hr r Hr').
    assert (Hf' : RSig s ∉ Y).
    { intros H. apply Hno. unfold owned_sigs. rewrite elem_of_app, elem_held_sigs. auto. }
    rewrite stored_sig_objs, cnt_cons_ne, cnt_sig_objs by (intros ->; done).
    change (stored ?Z (set_d_fences fs' d) r) with (stored Z d r).
    rewrite (stored_sig s x Y d r Hs Hf' Hr') in Hr. change (kref (set_d_fences fs' d) r) with (kref d r). lia.
Qed.

(** A registered [synx_signal_cb] gives up its object. *)
Lemma inv_detach L X d f s x p y :
  inv L X d -> s ∈ cbs (d_fences d) f -> d_sigs d !! s = Some x -> s_obj x = Some p -> s_obj y = None ->
  inv L (RObj p :: RStale p :: X) (set_d_sigs (<[s := y]> (d_sigs d)) d).
Proof.
  intros Hi Hin Hs Hp Hy. apply (inv_stale L X d p) in Hi. set (Y := RStale p :: X) in *.
  destruct Hi as [[Hh [] Hm Hhd Hc Hcu Hcb [S1 S2 S3 S4 S5 S6] [Ho1 Ho2 Ho4 Ho5 Ho3]] Hr].
  destruct (S3 f s Hin) as [_ Hno].
  assert (Hl : forall s', is_Some (<[s := y]> (d_sigs d) !! s') <-> is_Some (d_sigs d !! s')).
  { intros s'. rewrite lookup_insert_is_Some. destruct (decide (s = s')) as [->|]; [rewrite Hs|]; naive_solver. }
  assert (HXY : same_items Y (RObj p :: Y)) by by apply same_items_cons.
  split.
  - eapply (core_items L Y); [exact HXY|]. split; try done.
    + split; try done. simpl. intros q Hq. rewrite lookup_insert_ne; [auto|]. intros <-. by rewrite fr_sigs in Hs.
    + by apply (cleanup_ok_items Y _ d).
    + split; simpl; try done.
      * intros s' H. rewrite Hl. auto.
      * intros g s' H. rewrite Hl. eauto.
      * intros s' x'. intros Hw. rewrite lookup_insert_Some. intros [[-> <-]|[Hne Hx']]; eauto.
    + split; simpl; try done. intros q o s' Hq Hs' Ha Hst.
      destruct (Ho3 q o s' Hq Hs' Ha Hst) as [H1 (x' & Hx' & Hq')]. split; [done|].
      exists x'. rewrite lookup_insert_ne; [done|]. intros <-. rewrite Hs in Hx'. injection Hx' as <-.
      rewrite Hp in Hq'. injection Hq' as ->. apply Hst. by left.
  - intros r Hr'. specialize (Hr r Hr'). rewrite (stored_same Y _ _ r HXY), cnt_cons.
    destruct r as [q| | | | | | | |]; simpl in *; try done.
    rewrite (mcount_update _ _ s x) by done. rewrite Hp, Hy.
    assert (Hf' : RSig s ∉ Y).
    { intros H. apply Hno. unfold owned_sigs. rewrite elem_of_app, elem_held_sigs. auto. }
    rewrite (bool_decide_true (RSig s ∉ Y)) by done. rewrite !andb_true_r.
    rewrite (bool_decide_false (None = Some q)) by done.
    assert (E : bool_decide (RObj q = RObj p) = bool_decide (Some p = Some q)) by (apply bool_decide_ext; naive_solver).
    rewrite E. simpl. lia.
Qed.

(** The contents of a [synx_signal_cb] in hand are its owner's. *)
Lemma inv_upd_sig L X d s x y :
  inv L (RSig s :: X) d -> d_sigs d !! s = Some x -> inv L (RSig s :: X) (set_d_sigs (<[s := y]> (d_sigs d)) d).
Proof.
  intros [[Hh [] Hm Hhd Hc Hcu Hcb [S1 S2 S3 S4 S5 S6] [Ho1 Ho2 Ho4 Ho5 Ho3]] Hr] Hs.
  assert (Hl : forall s', is_Some (<[s := y]> (d_sigs d) !! s') <-> is_Some (d_sigs d !! s')).
  { intros s'. rewrite lookup_insert_is_Some. destruct (decide (s = s')) as [->|]; [rewrite Hs|]; naive_solver. }
  assert (Hnc : forall g, s ∉ cbs (d_fences d) g).
  { intros g Hin. destruct (S3 g s Hin) as [_ Ho]. apply Ho. rewrite owned_sigs_cons. by left. }
  rewrite owned_sigs_cons in S1. apply NoDup_cons in S1 as [Hno S1'].
  split.
  - split; try done.
    + split; try done. simpl. intros q Hq. rewrite lookup_insert_ne; [auto|]. intros <-. by rewrite fr_sigs in Hs.
    + by apply (cleanup_ok_items (RSig s :: X) _ d).
    + split; simpl; try done.
      * rewrite owned_sigs_cons. by apply NoDup_cons.
      * intros s' H. rewrite Hl. auto.
      * intros g s' H. rewrite Hl. eauto.
      * intros s' x'. intros Hw. rewrite lookup_insert_Some. intros [[-> <-]|[Hne Hx']]; [|eauto].
        exfalso. apply Hno. rewrite works_cons in Hw. eapply work_owned; [|exact Hw]. by right.
    + split; simpl; try done. intros q o s' Hq Hs' Ha Hst.
      destruct (Ho3 q o s' Hq Hs' Ha Hst) as [H1 (x' & Hx' & Hq')]. split; [done|].
      exists x'. rewrite lookup_insert_ne; [done|]. intros <-. by apply (Hnc (o_fence o)).
  - intros r Hr'. specialize (Hr r Hr'). destruct r as [q| | | | | | | |]; simpl in *; try done.
    rewrite (mcount_update _ _ s x) by done.
    rewrite !(bool_decide_false (RSig s ∉ _)) by (rewrite elem_of_cons; naive_solver).
    rewrite !andb_false_r. simpl. lia.
Qed.

End move.

(** * The synx client framework: rules for runs, and the basic functions

    A rule for each construct of the code says how a run keeps the invariant;
    with them, what the functions on clients, handles, map entries and fences do
    to the references in hand. *)

(** ** Rules *)

Section rules.
Context `{F : DmaFence} `{C : SynxClientEnv} {B : Prop}.
Implicit Types d : dev.
Abbreviation keeps := (keeps (B := B)).

Lemma keeps_gets L {A A'} (f : dev -> A) (k : A -> run dev A') d Y Q :
  keeps L (k (f d) d) d Y Q -> keeps L ((x ← gets f; k x) d) d Y Q.
Proof. done. Qed.

Lemma keeps_deref L {A A'} (o : option A) a (k : A -> run dev A') d Y Q :
  o = Some a -> keeps L (k a d) d Y Q -> keeps L ((x ← deref o; k x) d) d Y Q.
Proof. by intros ->. Qed.

Lemma keeps_guard L {A} b (k : run dev A) d Y Q :
  b = true -> keeps L (k d) d Y Q -> keeps L ((guard b ;; k) d) d Y Q.
Proof. by intros ->. Qed.

Lemma keeps_assoc L {A A' A''} (m : run dev A) (k : A -> run dev A') (k' : A' -> run dev A'') d Y Q :
  keeps L ((x ← m; y ← k x; k' y) d) d Y Q -> keeps L ((y ← (x ← m; k x); k' y) d) d Y Q.
Proof. apply good_assoc. Qed.

Lemma keeps_assoc' L {A A' A''} (m : run dev A) (k : A -> run dev A') (k' : A' -> run dev A'') d Y Q :
  keeps L ((y ← (x ← m; k x); k' y) d) d Y Q -> keeps L ((x ← m; y ← k x; k' y) d) d Y Q.
Proof. unfold SynxRefs.keeps, good, mbind, run_bind. by destruct (m d). Qed.

Lemma keeps_tt L (m : run dev unit) d Y Q : keeps L ((m ;; mret tt) d) d Y Q -> keeps L (m d) d Y Q.
Proof. apply good_tt. Qed.

(** A run that reads the state only. *)
Lemma keeps_read L {A A'} (m : run dev A) a (k : A -> run dev A') d Y Q :
  m d = Ret a d -> keeps L (k a d) d Y Q -> keeps L ((x ← m; k x) d) d Y Q.
Proof. intros H. unfold mbind, run_bind, SynxRefs.keeps, good. by rewrite H. Qed.

Lemma keeps_run_from L {A A'} (m : run dev A) a d0 d1 (k : A -> run dev A') d Y Q :
  m d0 = Ret a d1 -> ext d d1 -> keeps L (k a d1) d1 Y Q -> keeps L ((x ← m; k x) d0) d Y Q.
Proof.
  intros H He Hk. apply (keeps_from L _ d d1 Y Q He). unfold mbind, run_bind, SynxRefs.keeps, good in *.
  by rewrite H.
Qed.

(** A run that is known. *)
Lemma keeps_run L {A A'} (m : run dev A) a d1 (k : A -> run dev A') d Y Q :
  m d = Ret a d1 -> ext d d1 -> keeps L (k a d1) d1 Y Q -> keeps L ((x ← m; k x) d) d Y Q.
Proof. apply keeps_run_from. Qed.

Lemma keeps_get_obj L {A} p o (k : synx_coredata -> run dev A) d Y Q :
  d_objs d !! p = Some o -> keeps L (k o d) d Y Q -> keeps L ((x ← get_obj p; k x) d) d Y Q.
Proof. apply good_get_obj. Qed.
Lemma keeps_get_ent L {A} p o (k : synx_map_entry -> run dev A) d Y Q :
  d_ents d !! p = Some o -> keeps L (k o d) d Y Q -> keeps L ((x ← get_ent p; k x) d) d Y Q.
Proof. apply good_get_ent. Qed.
Lemma keeps_get_hdl L {A} p o (k : synx_handle_coredata -> run dev A) d Y Q :
  d_hdls d !! p = Some o -> keeps L (k o d) d Y Q -> keeps L ((x ← get_hdl p; k x) d) d Y Q.
Proof. apply good_get_hdl. Qed.
Lemma keeps_get_cli L {A} p o (k : synx_client -> run dev A) d Y Q :
  d_clients d !! p = Some o -> keeps L (k o d) d Y Q -> keeps L ((x ← get_cli p; k x) d) d Y Q.
Proof. apply good_get_cli. Qed.
Lemma keeps_get_cb L {A} p o (k : synx_cb_data -> run dev A) d Y Q :
  d_cbs d !! p = Some o -> keeps L (k o d) d Y Q -> keeps L ((x ← get_cb p; k x) d) d Y Q.
Proof. apply good_get_cb. Qed.
Lemma keeps_get_sig L {A} p o (k : synx_signal_cb -> run dev A) d Y Q :
  d_sigs d !! p = Some o -> keeps L (k o d) d Y Q -> keeps L ((x ← get_sig p; k x) d) d Y Q.
Proof. apply good_get_sig. Qed.

Lemma keeps_modify L {A} (f : dev -> dev) (k : run dev A) d Y Q :
  ext d (f d) -> keeps L (k (f d)) (f d) Y Q -> keeps L ((modify f ;; k) d) d Y Q.
Proof. intros He Hk. by apply (keeps_from L _ d (f d) Y Q He). Qed.

Lemma ext_fields d d' :
  d_ents d' = d_ents d -> d_hdls d' = d_hdls d -> d_clients d' = d_clients d -> d_next d' = d_next d ->
  (forall f, to_dma_fence_array (d_fences d') f = to_dma_fence_array (d_fences d) f) -> ext d d'.
Proof. intros H1 H2 H3 H4 H5. apply ext_same; done || lia. Qed.

Lemma ext_call d f fired fs' : call_step f (d_fences d) fired fs' -> ext d (set_d_fences fs' d).
Proof. intros Hc. apply ext_fields; try done. intros g. by apply (ca_array _ _ _ _ Hc). Qed.

Lemma ext_upd_ent d e m m' :
  d_ents d !! e = Some m -> m_obj m' = m_obj m -> m_key m' = m_key m ->
  ext d (set_d_ents (<[e := m']> (d_ents d)) d).
Proof.
  intros He H1 H2. split; simpl; [|intros h x Hx; exists x; auto|done|lia|done].
  intros q m1 Hq. destruct (decide (q = e)) as [->|Hne].
  - rewrite lookup_insert_eq. rewrite He in Hq. injection Hq as <-. eauto.
  - rewrite lookup_insert_ne by congruence. eauto.
Qed.

Lemma ext_upd_hdl d h x x' :
  d_hdls d !! h = Some x -> h_obj x' = h_obj x -> h_client x' = h_client x -> h_ent x' = h_ent x ->
  h_key x' = h_key x -> ext d (set_d_hdls (<[h := x']> (d_hdls d)) d).
Proof.
  intros Hh H1 H2 H3 H4. split; simpl; [eauto| |done|lia|done].
  intros q x1 Hq. destruct (decide (q = h)) as [->|Hne].
  - rewrite lookup_insert_eq. rewrite Hh in Hq. injection Hq as <-. eauto 10.
  - rewrite lookup_insert_ne by congruence. exists x1. auto.
Qed.

Lemma ext_upd_cli d c cl' : ext d (set_d_clients (<[c := cl']> (d_clients d)) d).
Proof.
  split; simpl; [eauto|intros h x Hx; exists x; auto| |lia|done].
  intros q Hq. rewrite lookup_insert_is_Some. destruct (decide (c = q)); auto.
Qed.

Lemma ext_new_ent d e m : d_ents d !! e = None -> ext d (set_d_ents (<[e := m]> (d_ents d)) d).
Proof.
  intros He. split; simpl; [|intros h x Hx; exists x; auto|done|lia|done].
  intros q m1 Hq. rewrite lookup_insert_ne by congruence. eauto.
Qed.

Lemma ext_new_hdl d h x : d_hdls d !! h = None -> ext d (set_d_hdls (<[h := x]> (d_hdls d)) d).
Proof.
  intros He. split; simpl; [eauto| |done|lia|done].
  intros q x1 Hq. rewrite lookup_insert_ne by congruence. exists x1. auto.
Qed.

Lemma keeps_upd_obj L {A} p o f (k : run dev A) d Y Q :
  d_objs d !! p = Some o ->
  keeps L (k (set_d_objs (<[p := f o]> (d_objs d)) d)) (set_d_objs (<[p := f o]> (d_objs d)) d) Y Q ->
  keeps L ((upd_obj p f ;; k) d) d Y Q.
Proof. intros H Hk. eapply keeps_from; [|eapply good_upd_obj; [exact H|exact Hk]]. by apply ext_fields. Qed.
Lemma keeps_upd_ent L {A} p o f (k : run dev A) d Y Q :
  d_ents d !! p = Some o -> m_obj (f o) = m_obj o -> m_key (f o) = m_key o ->
  keeps L (k (set_d_ents (<[p := f o]> (d_ents d)) d)) (set_d_ents (<[p := f o]> (d_ents d)) d) Y Q ->
  keeps L ((upd_ent p f ;; k) d) d Y Q.
Proof.
  intros H H1 H2 Hk. eapply keeps_from; [|eapply good_upd_ent; [exact H|exact Hk]]. by eapply ext_upd_ent.
Qed.
Lemma keeps_upd_hdl L {A} p o f (k : run dev A) d Y Q :
  d_hdls d !! p = Some o -> h_obj (f o) = h_obj o -> h_client (f o) = h_client o -> h_ent (f o) = h_ent o ->
  h_key (f o) = h_key o ->
  keeps L (k (set_d_hdls (<[p := f o]> (d_hdls d)) d)) (set_d_hdls (<[p := f o]> (d_hdls d)) d) Y Q ->
  keeps L ((upd_hdl p f ;; k) d) d Y Q.
Proof.
  intros H H1 H2 H3 H4 Hk. eapply keeps_from; [|eapply good_upd_hdl; [exact H|exact Hk]]. by eapply ext_upd_hdl.
Qed.
Lemma keeps_upd_cli L {A} p o f (k : run dev A) d Y Q :
  d_clients d !! p = Some o ->
  keeps L (k (set_d_clients (<[p := f o]> (d_clients d)) d)) (set_d_clients (<[p := f o]> (d_clients d)) d) Y Q ->
  keeps L ((upd_cli p f ;; k) d) d Y Q.
Proof. intros H Hk. eapply keeps_from; [|eapply good_upd_cli; [exact H|exact Hk]]. apply ext_upd_cli. Qed.
Lemma keeps_upd_cb L {A} p o f (k : run dev A) d Y Q :
  d_cbs d !! p = Some o ->
  keeps L (k (set_d_cbs (<[p := f o]> (d_cbs d)) d)) (set_d_cbs (<[p := f o]> (d_cbs d)) d) Y Q ->
  keeps L ((upd_cb p f ;; k) d) d Y Q.
Proof. intros H Hk. eapply keeps_from; [|eapply good_upd_cb; [exact H|exact Hk]]. by apply ext_fields. Qed.
Lemma keeps_upd_sig L {A} p o f (k : run dev A) d Y Q :
  d_sigs d !! p = Some o ->
  keeps L (k (set_d_sigs (<[p := f o]> (d_sigs d)) d)) (set_d_sigs (<[p := f o]> (d_sigs d)) d) Y Q ->
  keeps L ((upd_sig p f ;; k) d) d Y Q.
Proof. intros H Hk. eapply keeps_from; [|eapply good_upd_sig; [exact H|exact Hk]]. by apply ext_fields. Qed.

(** ** Locks *)

Lemma inv_held L L' X d : inv L X d -> inv L' X (set_d_held L' d).
Proof. intros Hi. eapply inv_intro; [exact Hi|reflexivity..|simpl; lia]. Qed.

Lemma keeps_lock L X l {A} (m : run dev A) d Y (Q : A -> dev -> Prop) :
  inv L X d -> (l ∈ L -> B) ->
  (inv (l :: L) X (set_d_held (l :: L) d) ->
   keeps (l :: L) (m (set_d_held (l :: L) d)) (set_d_held (l :: L) d) Y (fun a d' => Q a (set_d_held L d'))) ->
  keeps L (with_lock l m d) d Y Q.
Proof.
  intros Hi Hb Hk. pose proof (in_held _ _ _ (proj1 Hi)) as Hh. unfold with_lock, lock, SynxRefs.keeps, good.
  unfold mbind at 1, run_bind at 1. rewrite Hh. case_bool_decide as Hl; [by apply Hb|].
  specialize (Hk (inv_held _ _ _ _ Hi)). unfold SynxRefs.keeps, good in Hk.
  unfold mbind, run_bind. destruct (m _) as [a d'| |]; try done. destruct Hk as (Hi' & He & HQ). simpl.
  pose proof (in_held _ _ _ (proj1 Hi')) as Hh'. rewrite Hh'. cbn [remove_lock]. rewrite bool_decide_true by done.
  split_and!; [by eapply inv_held| |done].
  destruct He. by split.
Qed.

(** No lock but those of objects is held. *)
Definition leafless (L : list synx_lock) : Prop := forall l, l ∈ L -> exists p, l = obj_lock p.

Lemma leafless_nil : leafless [].
Proof. intros l Hl. by apply elem_of_nil in Hl. Qed.
Lemma leafless_obj p L : leafless L -> leafless (obj_lock p :: L).
Proof. intros H l Hl. apply elem_of_cons in Hl as [->|]; eauto. Qed.

Definition is_leaf (l : synx_lock) : Prop := forall p, l <> obj_lock p.

Lemma keeps_leaf L X l {A} (m : run dev A) d Y (Q : A -> dev -> Prop) :
  leafless L -> is_leaf l -> inv L X d ->
  (inv (l :: L) X (set_d_held (l :: L) d) ->
   keeps (l :: L) (m (set_d_held (l :: L) d)) (set_d_held (l :: L) d) Y (fun a d' => Q a (set_d_held L d'))) ->
  keeps L (with_lock l m d) d Y Q.
Proof.
  intros HL Hl Hi Hk. eapply keeps_lock; [exact Hi| |exact Hk]. intros Hin. destruct (HL l Hin) as [p ->].
  by destruct (Hl p).
Qed.

(** A lock around a run that reads the state only. *)
Lemma with_lock_read {A} l (m : run dev A) a d :
  l ∉ d_held d -> (forall d', d' = set_d_held (l :: d_held d) d -> m d' = Ret a d') -> with_lock l m d = Ret a d.
Proof.
  intros Hl Hm. unfold with_lock, lock, mbind, run_bind. rewrite bool_decide_false by done.
  rewrite (Hm _ eq_refl). simpl. rewrite bool_decide_true by done. by destruct d.
Qed.

(** ** Allocation *)

(** What follows is judged from the state before the allocation. *)
Lemma keeps_kzalloc_from L X {A} (k : option Z -> run dev A) d Y Q :
  inv L X d ->
  (forall d1, inv L X d1 -> same_mem d d1 -> keeps L (k None d1) d Y Q) ->
  (forall p d1, inv L X d1 -> same_mem d d1 -> fresh p d1 -> d_next d <= p -> keeps L (k (Some p) d1) d Y Q) ->
  keeps L ((a ← kzalloc; k a) d) d Y Q.
Proof.
  intros Hi Hn Hs. unfold kzalloc. unfold mbind, run_bind. destruct (kzalloc_answer (d_allocs d)).
  - set (d1 := set_d_next _ _). assert (Hm : same_mem d d1) by (split; simpl; done || lia).
    apply Hs; [inv_same Hi|done|exact (fresh_next L X d Hi)|simpl; lia].
  - set (d1 := set_d_allocs _ _). assert (Hm : same_mem d d1) by (split; simpl; done || lia).
    apply Hn; [inv_same Hi|done].
Qed.

Lemma keeps_kzalloc_next L X {A} (k : option Z -> run dev A) d Y Q :
  inv L X d ->
  (forall d1, inv L X d1 -> same_mem d d1 -> keeps L (k None d1) d1 Y Q) ->
  (forall p d1, inv L X d1 -> same_mem d d1 -> fresh p d1 -> d_next d <= p -> keeps L (k (Some p) d1) d1 Y Q) ->
  keeps L ((a ← kzalloc; k a) d) d Y Q.
Proof.
  intros Hi Hn Hs. eapply keeps_kzalloc_from; [exact Hi| |].
  - intros d1 Hi1 Hm. apply (keeps_from L _ d d1); [by apply same_mem_ext|]. by apply Hn.
  - intros p d1 Hi1 Hm Hf Hp. apply (keeps_from L _ d d1); [by apply same_mem_ext|]. by apply Hs.
Qed.

Lemma keeps_kzalloc L X {A} (k : option Z -> run dev A) d Y Q :
  inv L X d ->
  (forall d1, inv L X d1 -> same_mem d d1 -> keeps L (k None d1) d1 Y Q) ->
  (forall p d1, inv L X d1 -> same_mem d d1 -> fresh p d1 -> keeps L (k (Some p) d1) d1 Y Q) ->
  keeps L ((a ← kzalloc; k a) d) d Y Q.
Proof. intros Hi Hn Hs. eapply keeps_kzalloc_next; eauto. Qed.

Lemma keeps_kzalloc' L X d :
  inv L X d -> keeps L (kzalloc d) d (fun _ => X) (fun _ d' => same_mem d d').
Proof.
  intros Hi. unfold kzalloc. destruct (kzalloc_answer (d_allocs d)); (split_and!; [inv_same Hi| |]);
    try (apply ext_same; simpl; done || lia); split; simpl; done || lia.
Qed.

End rules.

Ltac leaf := first [assumption | (intros ?; discriminate) | (apply leafless_obj; leaf) | apply leafless_nil].

(** Splits on the condition that a run starts with. *)
Ltac cond :=
  match goal with
  | |- SynxRefs.keeps _ ((if ?b then _ else _) _) _ _ _ => destruct b
  | |- SynxRefs.keeps _ ((when ?b _) _) _ _ _ => destruct b; cbn [when]
  end.
