(* ===== verification/SynxHandles.v ===== *)
(** * The synx client framework: handles, map entries and fences

    What the functions that find, reference and release clients, handles and map
    entries do to the references in hand, and how the fences of an object are
    signalled and destroyed. *)

From S2P Require Import Prelude SynxGlobal SynxSignal SynxDev SynxUtil SynxClient SynxInv.
From S2P Require Import SynxRefs SynxOwn SynxMem SynxKeeps.

(** The objects, callbacks and fences of both states are the same. *)
Record quiet `{F : DmaFence} (d d' : dev) : Prop := mk_quiet {
  q_objs : d_objs d' = d_objs d;
  q_cbs : d_cbs d' = d_cbs d;
  q_sigs : d_sigs d' = d_sigs d;
  q_wq : d_wq_cb d' = d_wq_cb d;
  q_fences : d_fences d' = d_fences d;
  q_fmap : d_fence_map d' = d_fence_map d;
  q_trace : d_trace d' = d_trace d
}.

Section handles.
Context `{F : DmaFence} `{E : SynxEnv} `{C : SynxClientEnv} {B : Prop}.
Implicit Types d : dev.
Abbreviation keeps := (keeps (B := B)).

Lemma quiet_same d : quiet d d.
Proof. by split. Qed.
Lemma quiet_then d1 d2 d3 : quiet d1 d2 -> quiet d2 d3 -> quiet d1 d3.
Proof. intros [] []. split; congruence. Qed.
Lemma quiet_mem d d' : same_mem d d' -> quiet d d'.
Proof. intros []. by split. Qed.

(** ** Counting on clients and handles *)

Lemma inv_cli_get L X d c cl :
  inv L X d -> d_clients d !! c = Some cl -> 1 <= cl_refcount cl ->
  inv L (RCli c :: X) (set_d_clients (<[c := set_cl_refcount (cl_refcount cl + 1) cl]> (d_clients d)) d).
Proof.
  intros Hi Hc Hr. pose proof (proj2 Hi (RCli c) eq_refl) as H. simpl in H. rewrite Hc in H. simpl in H.
  eapply inv_upd_cli; [exact Hi|by apply same_items_cons|exact Hc|by split; auto| | |].
  - right. simpl. lia.
  - intros r _ Hne. rewrite cnt_cons_ne; [lia|congruence].
  - rewrite cnt_cons_eq. simpl. lia.
Qed.

Lemma inv_cli_put L X d c cl :
  inv L (RCli c :: X) d -> d_clients d !! c = Some cl -> cl_refcount cl <> 1 ->
  inv L X (set_d_clients (<[c := set_cl_refcount (cl_refcount cl - 1) cl]> (d_clients d)) d).
Proof.
  intros Hi Hc Hr. pose proof (proj2 Hi (RCli c) eq_refl) as H. rewrite cnt_cons_eq in H.
  simpl in H. rewrite Hc in H. simpl in H. pose proof (cnt_nonneg (RCli c) X).
  assert (0 <= b2z (cl_active cl)) by (unfold b2z; by destruct (cl_active cl)).
  eapply inv_upd_cli; [exact Hi|by apply same_items_sym, same_items_cons|exact Hc|by split; auto| | |].
  - right. simpl. lia.
  - intros r _ Hne. rewrite cnt_cons_ne; [lia|congruence].
  - simpl. lia.
Qed.

Lemma inv_hdl_get L X d h x :
  inv L X d -> d_hdls d !! h = Some x -> 1 <= h_refcount x ->
  inv L (RHdl h :: X) (set_d_hdls (<[h := set_h_refcount (h_refcount x + 1) x]> (d_hdls d)) d).
Proof.
  intros Hi Hx Hr. pose proof (proj2 Hi (RHdl h) eq_refl) as H. simpl in H. rewrite Hx in H. simpl in H.
  rewrite (proj2 (Z.eqb_neq _ 0)) in H by lia. pose proof (ho_rel _ _ _ (in_handles _ _ _ (proj1 Hi)) h x Hx).
  apply (inv_upd_hdl L X (RHdl h :: X) d h x (h_refcount x + 1) (h_rel_count x)); try done; try lia.
  - by apply same_items_cons.
  - intros r _ Hne. rewrite cnt_cons_ne; [lia|congruence].
  - rewrite cnt_cons_eq. lia.
Qed.

(** A reference is stored: [rel_count] and the count grow. *)
Lemma inv_hdl_rel L X d h x :
  inv L X d -> d_hdls d !! h = Some x -> 1 <= h_refcount x ->
  inv L X (set_d_hdls (<[h := set_h_rel_count (u32 (h_rel_count x + 1)) (set_h_refcount (h_refcount x + 1) x)]>
    (d_hdls d)) d).
Proof.
  intros Hi Hx Hr. pose proof (proj2 Hi (RHdl h) eq_refl) as H. simpl in H. rewrite Hx in H. simpl in H.
  rewrite (proj2 (Z.eqb_neq _ 0)) in H by lia. pose proof (ho_rel _ _ _ (in_handles _ _ _ (proj1 Hi)) h x Hx).
  assert (0 <= u32 (h_rel_count x + 1) <= h_rel_count x + 1).
  { unfold u32. split; [apply Z.mod_pos_bound; lia|apply Z.mod_le; lia]. }
  apply (inv_upd_hdl L X X d h x); try done; try lia.
Qed.

(** A stored reference is taken in hand. *)
Lemma inv_hdl_unrel L X d h x :
  inv L X d -> d_hdls d !! h = Some x -> 1 <= h_refcount x -> h_rel_count x <> 0 ->
  inv L (RHdl h :: X) (set_d_hdls (<[h := set_h_rel_count (u32 (h_rel_count x - 1)) x]> (d_hdls d)) d).
Proof.
  intros Hi Hx Hr Hn. pose proof (proj2 Hi (RHdl h) eq_refl) as H. simpl in H. rewrite Hx in H. simpl in H.
  rewrite (proj2 (Z.eqb_neq _ 0)) in H by lia. pose proof (ho_rel _ _ _ (in_handles _ _ _ (proj1 Hi)) h x Hx).
  assert (0 <= u32 (h_rel_count x - 1) <= h_rel_count x - 1).
  { unfold u32. split; [apply Z.mod_pos_bound; lia|apply Z.mod_le; lia]. }
  apply (inv_upd_hdl L X (RHdl h :: X) d h x (h_refcount x)); try done; try lia.
  - by apply same_items_cons.
  - intros r _ Hne. rewrite cnt_cons_ne; [lia|congruence].
  - rewrite cnt_cons_eq. lia.
Qed.

(** References in hand keep their structs alive. *)
Lemma held_cli L X d c : inv L X d -> RCli c ∈ X -> exists cl, d_clients d !! c = Some cl /\ 1 <= cl_refcount cl.
Proof.
  intros Hi Hin. pose proof (held_ref _ _ _ (RCli c) Hi eq_refl Hin) as H. simpl in H.
  destruct (d_clients d !! c); simpl in H; [eauto|lia].
Qed.
Lemma held_hdl L X d h : inv L X d -> RHdl h ∈ X -> exists x, d_hdls d !! h = Some x /\ 1 <= h_refcount x.
Proof.
  intros Hi Hin. pose proof (held_ref _ _ _ (RHdl h) Hi eq_refl Hin) as H. simpl in H.
  destruct (d_hdls d !! h); simpl in H; [eauto|lia].
Qed.
Lemma held_ent L X d e : inv L X d -> REnt e ∈ X -> exists m, d_ents d !! e = Some m /\ 1 <= m_refcount m.
Proof.
  intros Hi Hin. pose proof (held_ref _ _ _ (REnt e) Hi eq_refl Hin) as H. simpl in H.
  destruct (d_ents d !! e); simpl in H; [eauto|lia].
Qed.
Lemma held_obj L X d p : inv L X d -> RObj p ∈ X -> exists o, d_objs d !! p = Some o /\ 1 <= o_refcount o.
Proof.
  intros Hi Hin. pose proof (held_ref _ _ _ (RObj p) Hi eq_refl Hin) as H. simpl in H.
  destruct (d_objs d !! p); simpl in H; [eauto|lia].
Qed.

(** ** Clients *)

Lemma keeps_get_client L X d s :
  leafless L -> inv L X d ->
  keeps L (synx_get_client s d) d (fun r => match r with Some c => RCli c :: X | None => X end)
    (fun r d' => (forall c, r = Some c -> c = s) /\ quiet d d' /\ d_hdls d' = d_hdls d /\ d_ents d' = d_ents d).
Proof.
  intros HL Hi. unfold synx_get_client. eapply keeps_leaf; [done|leaf|exact Hi|]. intros Hi1.
  apply keeps_gets. case_bool_decide as Hin; [|apply keeps_ret; [done|by split_and!]].
  destruct (co_session _ _ (in_clients _ _ _ (proj1 Hi1)) s Hin) as (cl & Hc & Hr).
  eapply keeps_get_cli; [exact Hc|]. destruct (cl_active cl); [|apply keeps_ret; [done|by split_and!]].
  eapply keeps_upd_cli; [exact Hc|]. apply keeps_ret; [by apply inv_cli_get|].
  split_and!; try done. by intros c [= <-].
Qed.

Lemma keeps_put_client L X d c :
  leafless L -> inv L (RCli c :: X) d ->
  keeps L (synx_put_client c d) d (fun _ => X) (fun _ d' => quiet d d' /\ d_hdls d' = d_hdls d /\ d_ents d' = d_ents d).
Proof.
  intros HL Hi. unfold synx_put_client. eapply keeps_leaf; [done|leaf|exact Hi|]. intros Hi1.
  destruct (held_cli _ _ _ c Hi1) as (cl & Hc & Hr); [by left|].
  eapply keeps_upd_cli; [exact Hc|]. eapply keeps_get_cli; [apply lookup_insert_eq|]. cbn [cl_refcount set_cl_refcount].
  destruct (decide (cl_refcount cl = 1)) as [E1|Hne].
  - rewrite E1. cbn [Z.sub Z.add Z.opp Z.pos_sub Z.eqb when]. apply keeps_tt, keeps_assoc.
    eapply keeps_modify; [by apply ext_fields|]. eapply keeps_modify; [by apply ext_fields|].
    apply keeps_ret; [|done]. exact (inv_drop_cli _ _ _ c cl Hi1 Hc E1).
  - rewrite (proj2 (Z.eqb_neq _ _)) by lia. apply keeps_ret; [by apply inv_cli_put|]. by split_and!.
Qed.

(** ** Handles *)

Lemma find_handle_spec key q l d :
  (forall h, h ∈ l -> is_Some (d_hdls d !! h)) ->
  exists r, find_handle key q l d = Ret r d /\
    forall h, r = Some h -> h ∈ l /\ exists x, d_hdls d !! h = Some x /\ h_key x = key /\ q x = true.
Proof.
  induction l as [|h l IH]; intros Hl; [by exists None|]. cbn [find_handle].
  destruct (Hl h) as [x Hx]; [by left|]. destruct IH as (r & IH1 & IH2); [intros h' ?; apply Hl; by right|].
  unfold get_hdl, gets, mbind, run_bind. rewrite Hx. cbn [deref mret run_ret].
  unfold run_ret. destruct ((h_key x =? key) && q x) eqn:Eq.
  - exists (Some h). split; [done|]. intros h' [= <-]. apply andb_true_iff in Eq as [E1 E2]. zbool.
    split; [by left|eauto].
  - exists r. split; [done|]. intros h' Hr. destruct (IH2 h' Hr). split; [by right|done].
Qed.

(** The handles of a client in hand. *)
Lemma find_handle_ok L X d c cl key q :
  inv L X d -> d_clients d !! c = Some cl ->
  exists r, find_handle key q (cl_handle_map cl) d = Ret r d /\
    forall h, r = Some h -> exists x, d_hdls d !! h = Some x /\ 1 <= h_refcount x /\ h_client x = c /\
      h_key x = key /\ q x = true.
Proof.
  intros Hi Hc. pose proof (ho_map _ _ _ (in_handles _ _ _ (proj1 Hi)) c cl) as Hm.
  destruct (find_handle_spec key q (cl_handle_map cl) d) as (r & H1 & H2).
  - intros h Hin. destruct (Hm h Hc Hin) as (x & Hx & _). eauto.
  - exists r. split; [done|]. intros h Hr. destruct (H2 h Hr) as (Hin & x & Hx & Hk & Hq).
    destruct (Hm h Hc Hin) as (x' & Hx' & H3 & H4). rewrite Hx in Hx'. injection Hx' as <-. eauto 10.
Qed.

(** What the handles of [d'] are in [d], apart from their counts. *)
Definition same_hdls (d d' : dev) : Prop := forall h x', d_hdls d' !! h = Some x' ->
  exists x, d_hdls d !! h = Some x /\ h_obj x = h_obj x' /\ h_client x = h_client x' /\ h_key x = h_key x'.

Lemma keeps_acquire_handle L X d c key :
  leafless L -> inv L X d -> RCli c ∈ X ->
  keeps L (synx_util_acquire_handle c key d) d (fun r => match r with Some h => RHdl h :: X | None => X end)
    (fun r d' => quiet d d' /\ d_ents d' = d_ents d /\ same_hdls d d' /\
       forall h, r = Some h -> exists x, d_hdls d' !! h = Some x /\ h_key x = key /\ h_client x = c).
Proof.
  intros HL Hi Hcx. unfold synx_util_acquire_handle. eapply keeps_leaf; [done|leaf|exact Hi|]. intros Hi1.
  assert (Hs0 : same_hdls d d) by (intros h x Hx; by exists x).
  destruct (held_cli _ _ _ c Hi1 Hcx) as (cl & Hc & _). eapply keeps_get_cli; [exact Hc|].
  destruct (find_handle_ok _ _ _ c cl key (fun x => negb (h_rel_count x =? 0)) Hi1 Hc) as (r & H1 & H2).
  eapply keeps_read; [exact H1|]. destruct r as [h|]; [|apply keeps_ret; [done|by split_and!]].
  destruct (H2 h eq_refl) as (x & Hx & Hr & Hxc & Hxk & _). eapply keeps_upd_hdl; [exact Hx|done..|].
  apply keeps_ret; [by apply inv_hdl_get|]. split_and!; [by split|done| |].
  - intros h' x'. simpl. rewrite lookup_insert_Some. intros [[<- <-]|[_ Hx']]; [by exists x|by exists x'].
  - intros h' [= <-]. simpl. rewrite lookup_insert_eq. by eexists.
Qed.

(** The handle in hand names an object, through a map entry. *)
Lemma obtain_object L X d h :
  inv L X d -> RHdl h ∈ X -> exists p, synx_util_obtain_object (Some h) d = Ret (Some p) d /\ mapped p d.
Proof.
  intros Hi Hin. destruct (held_hdl _ _ _ h Hi Hin) as (x & Hx & _). exists (h_obj x). split.
  - unfold synx_util_obtain_object, get_hdl, gets, mbind, run_bind. by rewrite Hx.
  - destruct (ho_obj _ _ _ (in_handles _ _ _ (proj1 Hi)) h x Hx) as (m & Hm & Ho). by exists (h_ent x), m.
Qed.

Lemma keeps_put_handle L X d h :
  inv L (RHdl h :: X) d ->
  keeps L (put_handle h d) d (fun _ => X) (fun _ d' => quiet d d' /\ d_ents d' = d_ents d).
Proof.
  intros Hi. unfold put_handle. destruct (held_hdl _ _ _ h Hi) as (x & Hx & Hr); [by left|].
  pose proof (proj2 Hi (RHdl h) eq_refl) as H. rewrite cnt_cons_eq in H. simpl in H. rewrite Hx in H. simpl in H.
  rewrite (proj2 (Z.eqb_neq (h_refcount x) 0)) in H by lia.
  pose proof (ho_rel _ _ _ (in_handles _ _ _ (proj1 Hi)) h x Hx) as Hrel. pose proof (cnt_nonneg (RHdl h) X).
  eapply keeps_upd_hdl; [exact Hx|done..|]. eapply keeps_get_hdl; [apply lookup_insert_eq|].
  cbn [h_refcount set_h_refcount]. destruct (decide (h_refcount x = 1)) as [E1|Hne].
  - rewrite E1. cbn [Z.sub Z.add Z.opp Z.pos_sub Z.eqb when].
    destruct (ho_ref _ _ _ (in_handles _ _ _ (proj1 Hi)) h x Hx) as (cl & Hcl & _); [lia|].
    apply keeps_tt, keeps_assoc. eapply keeps_upd_cli; [exact Hcl|].
    eapply keeps_modify; [by apply ext_fields|]. apply keeps_ret; [|by split].
    eapply (inv_drop_hdl L (RHdl h :: X) X d h x cl); try done; try lia.
    + by apply same_items_sym, same_items_cons.
    + intros r _ Hne. rewrite cnt_cons_ne by done. lia.
  - rewrite (proj2 (Z.eqb_neq _ _)) by lia. apply keeps_ret; [|by split].
    apply (inv_upd_hdl L (RHdl h :: X) X d h x (h_refcount x - 1) (h_rel_count x)); try done; try lia.
    + by apply same_items_sym, same_items_cons.
    + intros r _ Hne'. rewrite cnt_cons_ne by done. lia.
Qed.

Lemma keeps_release_handle L X d h :
  leafless L -> inv L (RHdl h :: X) d ->
  keeps L (synx_util_release_handle (Some h) d) d (fun _ => X) (fun _ d' => quiet d d' /\ d_ents d' = d_ents d).
Proof.
  intros HL Hi. unfold synx_util_release_handle. destruct (held_hdl _ _ _ h Hi) as (x & Hx & Hr); [by left|].
  eapply keeps_get_hdl; [exact Hx|]. eapply keeps_leaf; [done|leaf|exact Hi|]. intros Hi1.
  eapply keeps_mono; [by apply keeps_put_handle|]. intros [] d' Hi' _ [[] Hq]. split; [done|]. split; [by split|done].
Qed.

(** ** Map entries *)

Lemma find_entry_spec key l d :
  (forall e, e ∈ l -> is_Some (d_ents d !! e)) ->
  exists r, find_entry key l d = Ret r d /\
    forall e, r = Some e -> e ∈ l /\ exists m, d_ents d !! e = Some m /\ m_key m = key.
Proof.
  induction l as [|e l IH]; intros Hl; [by exists None|]. cbn [find_entry].
  destruct (Hl e) as [m Hm]; [by left|]. destruct IH as (r & IH1 & IH2); [intros e' ?; apply Hl; by right|].
  unfold get_ent, gets, mbind, run_bind. rewrite Hm. cbn [deref mret run_ret].
  unfold run_ret. destruct (m_key m =? key) eqn:Eq.
  - exists (Some e). split; [done|]. intros e' [= <-]. zbool. split; [by left|eauto].
  - exists r. split; [done|]. intros h' Hr. destruct (IH2 h' Hr). split; [by right|done].
Qed.

Lemma map_entries_live L X d key e :
  inv L X d -> e ∈ map_entries key d ->
  exists m, d_ents d !! e = Some m /\ 1 <= m_refcount m.
Proof.
  intros Hi. unfold map_entries. pose proof (in_maps _ _ _ (proj1 Hi)) as [H1 H2 _].
  destruct (synx_util_is_global_handle key); intros Hin.
  - destruct (H1 e Hin) as (m & Hm & Hr & _). eauto.
  - destruct (H2 e Hin) as (m & Hm & Hr & _). eauto.
Qed.

Lemma map_lock_leaf key : is_leaf (map_lock key).
Proof. intros p. unfold map_lock. by destruct (synx_util_is_global_handle key). Qed.

Lemma keeps_get_map_entry L X d key :
  leafless L -> inv L X d ->
  keeps L (synx_util_get_map_entry key d) d (fun r => match r with Some e => REnt e :: X | None => X end)
    (fun r d' => quiet d d' /\ d_hdls d' = d_hdls d /\
       forall e, r = Some e -> exists m, d_ents d' !! e = Some m /\ m_key m = key).
Proof.
  intros HL Hi. unfold synx_util_get_map_entry. destruct (key =? 0); [apply keeps_ret; [done|by split_and!]|].
  eapply keeps_leaf; [done|apply map_lock_leaf|exact Hi|]. intros Hi1. apply keeps_gets.
  set (d1 := set_d_held _ d) in *.
  destruct (find_entry_spec key (map_entries key d1) d1) as (r & H1 & H2).
  { intros e Hin. destruct (map_entries_live _ _ _ _ e Hi1 Hin) as (m & Hm & _). eauto. }
  eapply keeps_read; [exact H1|]. destruct r as [e|]; [|apply keeps_ret; [done|by split_and!]].
  destruct (H2 e eq_refl) as (Hin & m & Hm & Hk). destruct (map_entries_live _ _ _ _ e Hi1 Hin) as (m' & Hm' & Hr).
  rewrite Hm in Hm'. injection Hm' as <-. eapply keeps_upd_ent; [exact Hm|done..|].
  apply keeps_ret; [by apply inv_ent_get|]. split_and!; [by split|done|]. intros e' [= <-]. simpl.
  rewrite lookup_insert_eq. by eexists.
Qed.

Lemma keeps_release_map_entry L X d e :
  leafless L -> inv L (REnt e :: X) d ->
  keeps L (synx_util_release_map_entry e d) d (fun _ => X) (fun _ d' => quiet d d' /\ d_hdls d' = d_hdls d).
Proof.
  intros HL Hi. unfold synx_util_release_map_entry. destruct (held_ent _ _ _ e Hi) as (m & Hm & Hr); [by left|].
  eapply keeps_get_ent; [exact Hm|]. eapply keeps_leaf; [done|apply map_lock_leaf|exact Hi|]. intros Hi1.
  eapply keeps_upd_ent; [exact Hm|done..|]. eapply keeps_get_ent; [apply lookup_insert_eq|].
  cbn [m_refcount set_m_refcount]. destruct (decide (m_refcount m = 1)) as [E1|Hne].
  - rewrite E1. cbn [Z.sub Z.add Z.opp Z.pos_sub Z.eqb when]. apply keeps_tt, keeps_assoc.
    pose proof (inv_drop_ent _ _ _ e m Hi1 Hm E1) as Hd. unfold drop_ent in Hd.
    eapply keeps_modify.
    { unfold set_map_entries. destruct (synx_util_is_global_handle _); by apply ext_fields. }
    eapply keeps_modify; [by apply ext_fields|]. apply keeps_ret.
    + unfold set_map_entries, map_entries in *. by destruct (synx_util_is_global_handle _).
    + unfold set_map_entries, map_entries. destruct (synx_util_is_global_handle _); by split.
  - rewrite (proj2 (Z.eqb_neq _ _)) by lia. apply keeps_ret; [by apply inv_ent_put|]. by split.
Qed.

Lemma keeps_insert_to_map L X d p key flags :
  leafless L -> inv L (RObj p :: X) d ->
  (synx_util_is_global_handle key = false -> synx_util_global_idx key < SYNX_MAX_OBJS) ->
  keeps L (synx_util_insert_to_map p key flags d) d
    (fun r => match r with Some e => REnt e :: X | None => RObj p :: X end)
    (fun r d' => quiet d d' /\ d_hdls d' = d_hdls d /\
       forall e, r = Some e -> exists m, d_ents d' !! e = Some m /\ m_obj m = p /\ m_key m = key).
Proof.
  intros HL Hi Hk. unfold synx_util_insert_to_map. eapply keeps_kzalloc; [exact Hi| |].
  - intros d1 Hi1 Hs. apply keeps_ret; [done|]. split_and!; [by apply quiet_mem|by destruct Hs|done].
  - intros e d1 Hi1 Hs Hf. eapply keeps_modify; [apply ext_new_ent, Hf|].
    pose proof (inv_new_ent L X d1 e (mk_ent p 1 flags key) Hi1 Hf eq_refl Hk) as Hi2.
    set (d2 := set_d_ents _ d1) in *. eapply keeps_bind.
    { eapply (keeps_leaf L (REnt e :: X) (map_lock key) _ _ (fun _ => REnt e :: X)
        (fun _ d3 => quiet d2 d3 /\ d_ents d3 = d_ents d2 /\ d_hdls d3 = d_hdls d2));
        [done|apply map_lock_leaf|exact Hi2|]. intros Hi3.
      apply keeps_tt. eapply keeps_modify.
      { unfold set_map_entries. destruct (synx_util_is_global_handle _); by apply ext_fields. }
      apply keeps_ret.
      - apply (inv_add_map _ _ _ e (mk_ent p 1 flags key)); [done|by left|apply lookup_insert_eq].
      - unfold set_map_entries. destruct (synx_util_is_global_handle _); by split_and!. }
    intros [] d3 Hi3 _ (Hq & He & Hh). apply keeps_ret; [done|]. split_and!.
    + eapply quiet_then; [by apply quiet_mem|]. by eapply quiet_then; [|exact Hq].
    + rewrite Hh. simpl. by destruct Hs.
    + intros e' [= <-]. rewrite He. simpl. rewrite lookup_insert_eq. by eexists.
Qed.

(** A handle of the client for the object of a map entry, whose reference it
    takes over; on failure the reference stays in hand. *)
Lemma keeps_init_handle L X d c p key e m :
  leafless L -> inv L (REnt e :: X) d -> RCli c ∈ X -> d_ents d !! e = Some m -> m_obj m = p ->
  keeps L (synx_util_init_handle c p key e d) d (fun rc => if rc =? SYNX_SUCCESS then X else REnt e :: X)
    (fun rc d' => rc <= 0 /\ quiet d d').
Proof.
  intros HL Hi Hcx He Hp. unfold synx_util_init_handle. eapply keeps_kzalloc; [exact Hi| |].
  - intros d1 Hi1 Hs. apply keeps_ret; [done|]. split; [unfold SYNX_NOMEM; lia|by apply quiet_mem].
  - intros h d1 Hi1 Hs Hf. eapply keeps_leaf; [done|leaf|exact Hi1|]. intros Hi2. set (d2 := set_d_held _ d1) in *.
    assert (Hcx' : RCli c ∈ REnt e :: X) by by right.
    destruct (held_cli _ _ _ c Hi2 Hcx') as (cl & Hc & _). eapply keeps_get_cli; [exact Hc|].
    destruct (find_handle_ok _ _ _ c cl key (fun _ => true) Hi2 Hc) as (r & H1 & H2).
    assert (Hq12 : forall d', quiet d2 d' -> quiet d (set_d_held L d')).
    { intros d' Hq. eapply quiet_then; [by apply quiet_mem|]. destruct Hq. by split. }
    eapply keeps_read; [exact H1|]. destruct r as [curr|].
    + destruct (H2 curr eq_refl) as (x & Hx & Hr & _). eapply keeps_get_hdl; [exact Hx|].
      case_match; [apply keeps_ret; [done|]; split; [unfold SYNX_INVALID; lia|by apply Hq12, quiet_same]|].
      eapply keeps_upd_hdl; [exact Hx|done..|]. apply keeps_ret.
      * rewrite Z.eqb_refl. apply (inv_forget _ (REnt e)); [done|]. by apply inv_hdl_rel.
      * split; [done|]. apply Hq12. by split.
    + assert (Hf2 : fresh h d2) by (eapply fresh_same_mem; [exact Hf|by split]).
      assert (He2 : d_ents d2 !! e = Some m) by (unfold d2; simpl; by rewrite (sm_ents _ _ Hs)).
      pose proof (inv_new_hdl _ _ _ h c cl e m key Hi2 Hf2 Hc He2) as Hi3. rewrite Hp in Hi3.
      eapply keeps_modify; [apply ext_new_hdl, Hf2|]. eapply keeps_upd_cli; [exact Hc|].
      apply keeps_ret; [rewrite Z.eqb_refl; exact Hi3|]. split; [done|]. apply Hq12. by split.
Qed.

(** ** Sessions *)

Lemma keeps_with_session L X {A} s (fail : A) (body : Z -> run dev A) d (Q : A -> dev -> Prop) :
  leafless L -> inv L X d -> (forall d', Q fail d') ->
  (forall d1, inv L (RCli s :: X) d1 -> ext d d1 -> quiet d d1 ->
     keeps L (body s d1) d1 (fun _ => RCli s :: X) (fun a d' => forall d'', quiet d' d'' -> Q a d'')) ->
  keeps L (with_session s fail body d) d (fun _ => X) Q.
Proof.
  intros HL Hi Hfail Hb. unfold with_session. eapply keeps_bind; [by eapply keeps_get_client|].
  intros [c|] d1 Hi1 He1 (Hc & Hq & _); [|by apply keeps_ret].
  rewrite (Hc c eq_refl) in *. eapply keeps_bind; [by apply Hb|]. intros a d2 Hi2 He2 HQ.
  eapply keeps_bind; [apply (keeps_put_client L X d2 s HL Hi2)|]. intros [] d3 Hi3 _ (Hq3 & _). apply keeps_ret; auto.
Qed.

(** The client holds the references in [X] when the body starts; the body keeps
    that on the handle. *)
Lemma keeps_with_object L X {A} c key (fail : A) (body : Z -> run dev A) d :
  leafless L -> inv L X d -> RCli c ∈ X ->
  (forall h p d1, inv L (RHdl h :: X) d1 -> ext d d1 -> quiet d d1 -> mapped p d1 ->
     keeps L (body p d1) d1 (fun _ => RHdl h :: X) (fun _ _ => True)) ->
  keeps L (with_object c key fail body d) d (fun _ => X) (fun _ _ => True).
Proof.
  intros HL Hi Hcx Hb. unfold with_object. eapply keeps_bind; [by apply keeps_acquire_handle|].
  intros [h|] d1 Hi1 He1 (Hq & _).
  - destruct (obtain_object _ _ _ h Hi1) as (p & Hp & Hm); [by left|]. eapply keeps_read; [exact Hp|].
    eapply keeps_bind; [by apply (Hb h)|]. intros a d2 Hi2 _ _.
    eapply keeps_bind; [apply (keeps_release_handle L X d2 h HL Hi2)|]. intros [] d3 Hi3 _ _. by apply keeps_ret.
  - cbn [synx_util_obtain_object]. by apply keeps_ret.
Qed.

Lemma keeps_release_core L X d c key :
  leafless L -> inv L X d -> RCli c ∈ X ->
  keeps L (synx_native_release_core c key d) d (fun _ => X) (fun _ d' => quiet d d' /\ d_ents d' = d_ents d).
Proof.
  intros HL Hi Hcx. unfold synx_native_release_core. eapply keeps_bind.
  { eapply (keeps_leaf _ _ _ _ _ (fun r => match r with Some h => RHdl h :: X | None => X end)
      (fun _ d' => quiet d d' /\ d_ents d' = d_ents d)); [done|leaf|exact Hi|]. intros Hi1.
    destruct (held_cli _ _ _ c Hi1 Hcx) as (cl & Hc & _). eapply keeps_get_cli; [exact Hc|].
    destruct (find_handle_ok _ _ _ c cl key (fun x => negb (h_rel_count x =? 0)) Hi1 Hc) as (r & H1 & H2).
    eapply keeps_read; [exact H1|]. destruct r as [h|]; [|apply keeps_ret; [done|split; [by split|done]]].
    destruct (H2 h eq_refl) as (x & Hx & Hr & _ & _ & Hne). apply negb_true_iff, Z.eqb_neq in Hne.
    eapply keeps_upd_hdl; [exact Hx|done..|].
    apply keeps_ret; [by apply inv_hdl_unrel|split; [by split|done]]. }
  intros [h|] d1 Hi1 _ [Hq1 E1].
  - eapply keeps_bind; [apply (keeps_release_handle L X d1 h HL Hi1)|]. intros [] d2 Hi2 _ [Hq2 E2]. apply keeps_ret; [done|].
    split; [by eapply quiet_then|congruence].
  - cbn [synx_util_release_handle]. eapply keeps_bind; [by apply (keeps_ret _ _ _ (fun _ => X) (fun _ d' => d' = d1))|].
    intros [] d2 Hi2 _ ->. by apply keeps_ret.
Qed.

Lemma keeps_release X d s key : inv [] X d -> keeps [] (synx_release s key d) d (fun _ => X) (fun _ _ => True).
Proof.
  intros Hi. unfold synx_release. eapply keeps_with_session; [leaf|done|done|]. intros d1 Hi1 _ _.
  eapply keeps_mono; [apply keeps_release_core; [leaf|done|by left]|]. by split.
Qed.

(** ** Objects that stay alive *)

(** A reference on the object other than that of a [synx_signal_cb]. *)
Definition anchored (p : Z) (X : list res) (d : dev) : Prop :=
  RObj p ∈ X \/ exists e m, d_ents d !! e = Some m /\ m_obj m = p /\ RClean (WEnt e) ∉ X.

Lemma anchored_ref L X d p :
  inv L X d -> anchored p X d -> exists o, d_objs d !! p = Some o /\
    1 + cnt (RObj p) X - (if decide (RObj p ∈ X) then 1 else 0) <= o_refcount o.
Proof.
  intros Hi Ha. pose proof (proj2 Hi (RObj p) eq_refl) as H. simpl in H.
  assert (Hs : 0 <= mcount (fun s x => bool_decide (s_obj x = Some p) && bool_decide (RSig s ∉ X)) (d_sigs d))
    by apply mcount_nonneg.
  assert (He : 0 <= mcount (fun e m => (m_obj m =? p) && bool_decide (RClean (WEnt e) ∉ X)) (d_ents d))
    by apply mcount_nonneg.
  pose proof (cnt_nonneg (RObj p) X).
  assert (Hlb : 1 + cnt (RObj p) X - (if decide (RObj p ∈ X) then 1 else 0) <=
    mcount (fun e m => (m_obj m =? p) && bool_decide (RClean (WEnt e) ∉ X)) (d_ents d) + cnt (RObj p) X).
  { destruct Ha as [Hin|(e & m & Hm & Ho & Hn)].
    - rewrite decide_True by done. lia.
    - pose proof (mcount_pos (fun e m => (m_obj m =? p) && bool_decide (RClean (WEnt e) ∉ X)) _ e m Hm) as Hp.
      simpl in Hp. rewrite Ho, Z.eqb_refl, bool_decide_true in Hp by done. specialize (Hp eq_refl).
      destruct (decide _); lia. }
  assert (Hpos : 1 <= 1 + cnt (RObj p) X - (if decide (RObj p ∈ X) then 1 else 0)).
  { destruct (decide (RObj p ∈ X)) as [Hin|]; [pose proof (cnt_in _ _ Hin)|]; lia. }
  destruct (d_objs d !! p) as [o|] eqn:Ho; simpl in H; [|lia]. exists o. split; [done|]. lia.
Qed.

Lemma anchored_live L X d p :
  inv L X d -> anchored p X d -> exists o, d_objs d !! p = Some o /\ 1 <= o_refcount o.
Proof.
  intros Hi Ha. destruct (anchored_ref _ _ _ _ Hi Ha) as (o & Ho & Hr). exists o. split; [done|].
  destruct (decide (RObj p ∈ X)) as [Hin|]; [pose proof (cnt_in _ _ Hin)|pose proof (cnt_nonneg (RObj p) X)]; lia.
Qed.

Lemma mapped_anchored p X d : mapped p d -> clean_items X = [] -> anchored p X d.
Proof.
  intros (e & m & He & Hm) Hx. right. exists e, m. split_and!; [done..|]. rewrite <- clean_items_elem, Hx.
  apply not_elem_of_nil.
Qed.

Lemma anchored_ext p X Y d d' :
  anchored p X d -> ext d d' -> (RObj p ∈ X -> RObj p ∈ Y) -> (forall w, RClean w ∈ Y -> RClean w ∈ X) ->
  anchored p Y d'.
Proof.
  intros [Hin|(e & m & He & Hm & Hn)] Hx H1 H2; [left; auto|]. right.
  destruct (ex_ents _ _ Hx e m He) as (m' & He' & Ho & _). exists e, m'. rewrite Ho. split_and!; auto.
Qed.

Lemma keeps_get_object L X d p :
  inv L X d -> is_Some (d_objs d !! p) ->
  keeps L (synx_util_get_object p d) d (fun _ => RObj p :: X)
    (fun _ d' => exists o, d_objs d !! p = Some o /\
       d' = set_d_objs (<[p := set_o_refcount (o_refcount o + 1) o]> (d_objs d)) d).
Proof.
  intros Hi [o Ho]. unfold synx_util_get_object. apply keeps_tt. eapply keeps_upd_obj; [exact Ho|].
  apply keeps_ret; [by apply inv_obj_get|eauto].
Qed.

(** A reference is put that is not the last one. *)
Lemma keeps_put_object_kept L X d p :
  inv L (RObj p :: X) d -> anchored p X d ->
  keeps L (synx_util_put_object p d) d (fun _ => X)
    (fun _ d' => exists o, d_objs d !! p = Some o /\
       d' = set_d_objs (<[p := set_o_refcount (o_refcount o - 1) o]> (d_objs d)) d).
Proof.
  intros Hi Ha. unfold synx_util_put_object.
  assert (Ha' : anchored p (RObj p :: X) d).
  { destruct Ha as [|(e & m & He & Hm & Hn)]; [left; by right|]. right. exists e, m.
    rewrite in_hand_not by done. auto. }
  destruct (anchored_live _ _ _ _ Hi Ha') as (o & Ho & Hr).
  eapply keeps_upd_obj; [exact Ho|]. eapply keeps_get_obj; [apply lookup_insert_eq|].
  pose proof (inv_obj_put _ _ _ _ _ Hi Ho) as Hi1.
  destruct (anchored_live L X _ p Hi1) as (o1 & Ho1 & Hr1).
  { destruct Ha as [|(e & m & He & Hm & Hn)]; [by left|]. right. by exists e, m. }
  simpl in Ho1. rewrite lookup_insert_eq in Ho1. injection Ho1 as <-. cbn [o_refcount set_o_refcount] in *.
  rewrite (proj2 (Z.eqb_neq _ _)) by lia. apply keeps_ret; [done|eauto].
Qed.

End handles.

(** * The synx client framework: fences and the end of an object

    The status of an object as a function of the fences, the calls of the
    kernel's fences with the callbacks they run, the dispatch of callbacks, and
    the destruction of an object. *)

(** ** Status *)

Section status.
Context `{F : DmaFence}.
Implicit Types d : dev.

Definition fence_st (fs : fences) (f : Z) : Z :=
  if f =? 0 then SYNX_STATE_INVALID else state_of_status (dma_fence_get_status fs f).

Definition obj_st (fs : fences) (o : synx_coredata) : Z :=
  if synx_util_is_merged_object o then
    if o_fence o =? 0 then SYNX_STATE_INVALID else
    match to_dma_fence_array fs (o_fence o) with
    | None => SYNX_STATE_INVALID
    | Some l => group_state (map (fence_st fs) l)
    end
  else fence_st fs (o_fence o).

Definition no_fence_lock (d : dev) : Prop := forall f, fence_lock f ∉ d_held d.

Lemma leafless_no_fence L X d : leafless L -> inv L X d -> no_fence_lock d.
Proof.
  intros HL Hi f Hin. rewrite (in_held _ _ _ (proj1 Hi)) in Hin. destruct (HL _ Hin) as [p [=]].
Qed.

Lemma fence_state_run f locked d :
  (locked = false -> fence_lock f ∉ d_held d) -> __fence_state f locked d = Ret (fence_st (d_fences d) f) d.
Proof.
  intros Hl. unfold __fence_state, fence_st. destruct (f =? 0); [done|]. unfold fence_status.
  destruct locked; [done|]. unfold mbind, run_bind.
  rewrite (with_lock_read (fence_lock f) _ (dma_fence_get_status (d_fences d) f) d); [done|auto|]. by intros d' ->.
Qed.

Lemma fence_states_run l locked d :
  (locked = false -> no_fence_lock d) -> fence_states l locked d = Ret (map (fence_st (d_fences d)) l) d.
Proof.
  intros Hl. induction l as [|f l IH]; [done|]. cbn [fence_states map].
  rewrite (bind_ret _ _ _ _ _ (fence_state_run f locked d (fun H => Hl H f))).
  by rewrite (bind_ret _ _ _ _ _ IH).
Qed.

Lemma object_status_run p o locked d :
  d_objs d !! p = Some o -> (locked = false -> no_fence_lock d) ->
  object_status locked p d = Ret (obj_st (d_fences d) o) d.
Proof.
  intros Ho Hl. unfold object_status, obj_st, get_obj, gets. unfold mbind at 1, run_bind at 1.
  unfold mbind at 1, run_bind at 1. rewrite Ho. cbn [deref mret run_ret]. unfold run_ret.
  destruct (synx_util_is_merged_object o); [|apply fence_state_run; intros H; apply (Hl H)].
  unfold __fence_group_state. destruct (o_fence o =? 0); [done|]. unfold gets, mbind at 1, run_bind at 1.
  destruct (to_dma_fence_array (d_fences d) (o_fence o)) as [l|]; [|done].
  by rewrite (bind_ret _ _ _ _ _ (fence_states_run l locked d Hl)).
Qed.

(** The answer ACTIVE of [__fence_group_state] is that of a child. *)
Lemma group_loop_active states parent actv sig err p a :
  group_loop states parent actv sig err = (p, a) ->
  (a = actv /\ (p = parent \/ p ∈ states)) \/ SYNX_STATE_ACTIVE ∈ states.
Proof.
  revert parent actv sig err. induction states as [|i states IH]; intros parent actv sig err; cbn [group_loop].
  - intros [= <- <-]. auto.
  - destruct (i =? SYNX_STATE_ACTIVE) eqn:E1; zbool; [intros _; right; rewrite E1; by left|].
    intros H. assert (Hr : exists s' e', group_loop states (if err =? 0 then i else parent) actv s' e' = (p, a)).
    { destruct (i =? SYNX_STATE_SIGNALED_SUCCESS); [eauto|]. destruct (i >? SYNX_STATE_SIGNALED_MAX); eauto. }
    destruct Hr as (s' & e' & Hr). destruct (IH _ _ _ _ Hr) as [[-> Hp]|]; [|right; by right].
    left. split; [done|]. rewrite elem_of_cons. destruct Hp as [->|]; [|auto]. destruct (err =? 0); auto.
Qed.

Lemma group_state_active states : group_state states = SYNX_STATE_ACTIVE -> SYNX_STATE_ACTIVE ∈ states.
Proof.
  unfold group_state. destruct (group_loop states SYNX_STATE_INVALID 0 0 0) as [p a] eqn:E.
  destruct (group_loop_active _ _ _ _ _ _ _ E) as [[-> Hp]|]; [|done]. cbn. intros ->. by destruct Hp.
Qed.

(** A status reads as active when the fence is not signalled, or failed with
    [EPERM]. *)
Lemma state_of_status_reads `{Doc : !DmaFenceDoc} fs f :
  state_of_status (dma_fence_get_status fs f) = SYNX_STATE_ACTIVE <->
  dma_fence_get_status fs f = 0 \/ dma_fence_get_status fs f = -1.
Proof.
  destruct (fence_status_range fs f) as [->|[->|H]]; [naive_solver|naive_solver lia|].
  split; [|intros [->| ->]; done].
  unfold state_of_status, SYNX_STATE_ACTIVE, SYNX_STATE_SIGNALED_SUCCESS, SYNX_STATE_SIGNALED_CANCEL,
    SYNX_STATE_SIGNALED_EXTERNAL, SYNX_STATE_SIGNALED_ERROR.
  repeat (case_match; zbool; try lia). rewrite u32_small; lia.
Qed.

Context `{Laws : !DmaFenceLaws}.

Lemma state_of_status_active fs f :
  state_of_status (dma_fence_get_status fs f) = SYNX_STATE_ACTIVE <-> dma_fence_get_status fs f = 0.
Proof. rewrite state_of_status_reads. pose proof (fence_not_eperm fs f). naive_solver. Qed.

Lemma fence_st_active fs f : fence_st fs f = SYNX_STATE_ACTIVE -> f <> 0 /\ dma_fence_get_status fs f = 0.
Proof.
  unfold fence_st. destruct (f =? 0) eqn:E; [done|]. zbool. intros H. split; [done|]. by apply state_of_status_active.
Qed.

Lemma obj_st_active fs o : obj_st fs o = SYNX_STATE_ACTIVE -> o_fence o <> 0 /\ obj_active fs o.
Proof.
  unfold obj_st, obj_active. destruct (synx_util_is_merged_object o); [|apply fence_st_active].
  destruct (o_fence o =? 0) eqn:E; [done|]. zbool. destruct (to_dma_fence_array fs (o_fence o)) as [l|]; [|done].
  intros H. split; [done|]. apply group_state_active in H. apply list_elem_of_fmap in H as (c & Hc & Hin).
  exists l, c. split_and!; [done..|]. by apply (fence_st_active fs c).
Qed.

End status.

(** ** Calls of the fences *)

(** What a call of the fences leaves alone. *)
Record fenced `{F : DmaFence} (d d' : dev) : Prop := mk_fenced {
  fd_objs : d_objs d' = d_objs d;
  fd_ents : d_ents d' = d_ents d;
  fd_hdls : d_hdls d' = d_hdls d;
  fd_clients : d_clients d' = d_clients d;
  fd_cbs : d_cbs d' = d_cbs d;
  fd_fmap : d_fence_map d' = d_fence_map d;
  fd_trace : d_trace d' = d_trace d;
  fd_next : d_next d' = d_next d;
  fd_sigs : s_obj <$> d_sigs d' = s_obj <$> d_sigs d;
  fd_array f : to_dma_fence_array (d_fences d') f = to_dma_fence_array (d_fences d) f;
  fd_status f : dma_fence_get_status (d_fences d) f <> 0 -> dma_fence_get_status (d_fences d') f <> 0
}.

Section fences.
Context `{F : DmaFence} `{E : SynxEnv} `{C : SynxClientEnv} `{Laws : !DmaFenceLaws} {B : Prop}.
Implicit Types d : dev.
Abbreviation keeps := (keeps (B := B)).

Lemma fenced_refl d : fenced d d.
Proof. by split. Qed.
Lemma fenced_trans d1 d2 d3 : fenced d1 d2 -> fenced d2 d3 -> fenced d1 d3.
Proof. intros [] []. split; try congruence; auto. Qed.
Lemma fenced_ext d d' : fenced d d' -> ext d d'.
Proof. intros []. by apply ext_fields. Qed.
Lemma fenced_held L d d' : fenced d d' -> fenced d (set_d_held L d').
Proof. intros []. by split. Qed.

(** A callback that runs stores the status and queues the item. *)
Lemma keeps_fence_callback L X d f s :
  inv L (RWork (WSignal s) :: X) d ->
  keeps L (synx_fence_callback f s d) d (fun _ => X) (fun _ d' => fenced d d' /\ d_fences d' = d_fences d).
Proof.
  intros Hi. unfold synx_fence_callback. apply keeps_gets.
  assert (Hl : is_Some (d_sigs d !! s)).
  { apply (si_live _ _ _ _ (in_sigs _ _ _ (proj1 Hi))). rewrite owned_sigs_cons. by left. }
  destruct Hl as [x Hx]. eapply keeps_upd_sig; [exact Hx|]. unfold queue_cb. apply keeps_tt.
  eapply keeps_modify; [by apply ext_fields|]. apply keeps_ret.
  2: { split; [split; try done|done]. simpl. rewrite fmap_insert. apply insert_id. by rewrite lookup_fmap, Hx. }
  apply inv_queue_cb; [|by intros c y [=]].
  pose proof (inv_open_sig _ _ _ s _ x (or_introl eq_refl) Hi Hx) as Hi1.
  match goal with |- context [set_s_status ?v x] => set (y := set_s_status v x) end.
  eapply (inv_close_sig _ _ _ s _ y); [by left| |apply lookup_insert_eq|done].
  change (sig_objs y) with (sig_objs x). by eapply inv_upd_sig.
Qed.

Lemma keeps_run_callbacks L X fired d :
  inv L (fire_works fired ++ X) d ->
  keeps L (run_callbacks fired d) d (fun _ => X) (fun _ d' => fenced d d' /\ d_fences d' = d_fences d).
Proof.
  revert d. induction fired as [|[f s] fired IH]; intros d Hi.
  - apply keeps_ret; [exact Hi|]. split; [apply fenced_refl|done].
  - unfold run_callbacks. cbn [for_each]. eapply keeps_bind; [apply (keeps_fence_callback L (fire_works fired ++ X)); exact Hi|].
    intros [] d1 Hi1 _ [Hf1 E1]. eapply keeps_mono; [by apply IH|]. intros [] d2 Hi2 _ [Hf2 E2].
    split; [done|]. split; [by eapply fenced_trans|congruence].
Qed.

Lemma fenced_call d f fired fs' : call_step f (d_fences d) fired fs' -> fenced d (set_d_fences fs' d).
Proof. intros [[H1 _ _ _] H2 _]. by split. Qed.

(** A call that runs no callback, and one that does. *)
Lemma keeps_fence_simple L X d f (g : fences -> fences) :
  inv L X d -> f < d_next d -> call_step f (d_fences d) [] (g (d_fences d)) ->
  keeps L (fence_call (fun fs => (tt, g fs)) d) d (fun _ => X) (fun _ d' => fenced d d').
Proof.
  intros Hi Hf Hc. pose proof (inv_call _ _ _ _ _ _ Hi Hc Hf) as Hi1.
  split_and!; [exact Hi1|by eapply ext_call|by eapply fenced_call].
Qed.

Lemma keeps_fence_get L X d f :
  inv L X d -> f < d_next d -> keeps L (fence_get f d) d (fun _ => X) (fun _ d' => fenced d d').
Proof. intros Hi Hf. eapply keeps_fence_simple; [done|done|]. apply fence_get_step. Qed.

Lemma keeps_fence_set_error L X d f e :
  inv L X d -> f < d_next d -> dma_fence_get_status (d_fences d) f = 0 ->
  keeps L (fence_set_error f e d) d (fun _ => X) (fun _ d' => fenced d d').
Proof. intros Hi Hf H0. eapply keeps_fence_simple; [done|done|]. by apply fence_set_error_step. Qed.

Lemma keeps_fence_put L X d f :
  inv L X d -> f < d_next d -> keeps L (fence_put f d) d (fun _ => X) (fun _ d' => fenced d d').
Proof.
  intros Hi Hf. unfold fence_put. destruct (f =? 0); [apply keeps_ret; [done|apply fenced_refl]|].
  pose proof (fence_put_step f (d_fences d)) as Hc. unfold fence_call.
  destruct (dma_fence_put f (d_fences d)) as [fired fs'] eqn:Ep. cbn [fst snd] in Hc.
  eapply keeps_run; [by rewrite Ep|by eapply ext_call|].
  eapply keeps_mono; [apply keeps_run_callbacks; by eapply inv_call|]. intros [] d' Hi' _ [Hf' _]. split; [done|].
  eapply fenced_trans; [by eapply fenced_call|done].
Qed.

Lemma keeps_fence_signal_locked L X d f :
  inv L X d -> f < d_next d -> to_dma_fence_array (d_fences d) f = None ->
  keeps L (fence_signal_locked f d) d (fun _ => X) (fun _ d' => fenced d d').
Proof.
  intros Hi Hf Hn. unfold fence_signal_locked. pose proof (fence_signal_step f (d_fences d) Hn) as Hc. unfold fence_call.
  destruct (dma_fence_signal f (d_fences d)) as [[rc fired] fs'] eqn:Ep. cbn [fst snd] in Hc.
  eapply keeps_run; [by rewrite Ep|by eapply ext_call|]. cbn beta iota.
  eapply keeps_bind; [apply keeps_run_callbacks; by eapply inv_call|]. intros [] d' Hi' _ [Hf' _].
  apply keeps_ret; [done|]. eapply fenced_trans; [by eapply fenced_call|done].
Qed.

Lemma keeps_fence_signal L X d f :
  inv L X d -> f < d_next d -> to_dma_fence_array (d_fences d) f = None -> (fence_lock f ∈ L -> B) ->
  keeps L (fence_signal f d) d (fun _ => X) (fun _ d' => fenced d d').
Proof.
  intros Hi Hf Hn Hb. unfold fence_signal. eapply keeps_lock; [exact Hi|done|]. intros Hi1.
  eapply keeps_mono; [by apply keeps_fence_signal_locked|]. intros rc d' Hi' _ Hf'. split; [done|].
  destruct Hf'. by split.
Qed.

(** ** Dispatching the callbacks of an object *)

(** The timer of a callback that has one is stopped. *)
Lemma keeps_stop_timer L X d c x :
  inv L X d -> d_cbs d !! c = Some x ->
  keeps L (when (negb (c_timeout x =? SYNX_NO_TIMEOUT)) (del_timer c) d) d (fun _ => X)
    (fun _ d' => exists y, c_timer y = false /\ d' = set_d_cbs (<[c := y]> (d_cbs d)) d).
Proof.
  intros Hi Hx. destruct (c_timeout x =? SYNX_NO_TIMEOUT) eqn:Et; zbool; cbn [negb when].
  - apply keeps_ret; [done|]. exists x. split.
    + destruct (c_timer x) eqn:E1; [|done]. by destruct (cb_timer _ _ _ _ _ (in_cbs _ _ _ (proj1 Hi)) c x Hx E1).
    + rewrite insert_id by done. by destruct d.
  - unfold del_timer. apply keeps_tt. eapply keeps_upd_cb; [exact Hx|].
    apply keeps_ret; [|by exists (set_c_timer false x)]. by eapply inv_upd_cb; [exact Hi|exact Hx|].
Qed.

(** A callback node leaves the list of its object. *)
Lemma keeps_list_del L X d p o c {A} (k : run dev A) (Y : A -> list res) Q :
  inv L X d -> d_objs d !! p = Some o -> c ∈ o_reg_cbs o ->
  (inv L (RWork (WCb c) :: X) (unreg c d) -> keeps L (k (unreg c d)) (unreg c d) Y Q) ->
  keeps L ((list_del_cb c ;; k) d) d Y Q.
Proof.
  intros Hi Ho Hin Hk. unfold list_del_cb. apply keeps_assoc.
  destruct (cb_reg _ _ _ _ _ (in_cbs _ _ _ (proj1 Hi)) p o c Ho Hin) as [x Hx].
  eapply keeps_get_cb; [exact Hx|]. eapply keeps_modify; [by apply ext_fields|]. apply Hk. by eapply inv_unreg.
Qed.

(** A node in hand without a pending timer is queued. *)
Lemma keeps_queue_node L X d c x :
  inv L (RWork (WCb c) :: X) d -> d_cbs d !! c = Some x -> c_timer x = false ->
  keeps L (queue_cb (WCb c) d) d (fun _ => X)
    (fun _ d' => d_objs d' = d_objs d /\ d_fences d' = d_fences d /\ d_sigs d' = d_sigs d /\
       d_next d' = d_next d /\ d_ents d' = d_ents d).
Proof.
  intros Hi Hx Ht. unfold queue_cb. apply keeps_tt. eapply keeps_modify; [by apply ext_fields|].
  apply keeps_ret; [|done]. apply inv_queue_cb; [done|]. intros c' z [= <-]. rewrite Hx. by intros [= <-].
Qed.

Lemma keeps_dispatch_cb L X d p o st c :
  inv L X d -> d_objs d !! p = Some o -> c ∈ o_reg_cbs o ->
  keeps L (dispatch_cb st c d) d (fun _ => X)
    (fun _ d' => d_objs d' = d_objs (unreg c d) /\ d_fences d' = d_fences d /\ d_sigs d' = d_sigs d /\
       d_next d' = d_next d /\ d_ents d' = d_ents d).
Proof.
  intros Hi Ho Hin. unfold dispatch_cb. pose proof (in_cbs _ _ _ (proj1 Hi)) as Hcb.
  destruct (cb_reg _ _ _ _ _ Hcb p o c Ho Hin) as [x Hx].
  eapply keeps_upd_cb; [exact Hx|]. eapply keeps_get_cb; [apply lookup_insert_eq|].
  set (x1 := set_c_status st x). set (d1 := set_d_cbs _ d).
  assert (Hi1 : inv L X d1).
  { eapply inv_upd_cb; [exact Hi|exact Hx|]. intros Ht. by apply (cb_timer _ _ _ _ _ Hcb c x). }
  eapply keeps_bind; [apply (keeps_stop_timer L X d1 c x1 Hi1); apply lookup_insert_eq|].
  intros [] d2 Hi2 _ (y & Hy & ->). eapply keeps_list_del; [exact Hi2|exact Ho|exact Hin|]. intros Hi3.
  eapply keeps_mono; [eapply (keeps_queue_node _ X); [exact Hi3|apply lookup_insert_eq|exact Hy]|].
  intros [] d4 Hi4 _ H4. split; [done|exact H4].
Qed.

(** All callbacks of an object. *)
Lemma keeps_dispatch_all L X st l d p o :
  inv L X d -> d_objs d !! p = Some o -> o_reg_cbs o = l ->
  keeps L (for_each l (dispatch_cb st) d) d (fun _ => X)
    (fun _ d' => (exists o', d_objs d' !! p = Some o' /\ o' = set_o_reg_cbs [] o) /\ d_fences d' = d_fences d /\
       d_sigs d' = d_sigs d /\ d_next d' = d_next d /\ d_ents d' = d_ents d).
Proof.
  revert d o. induction l as [|c l IH]; intros d o Hi Ho Hl; cbn [for_each].
  - apply keeps_ret; [done|]. split_and!; [|done..]. exists o. split; [done|]. destruct o. simpl in *. by subst.
  - eapply keeps_bind; [eapply (keeps_dispatch_cb _ _ _ p o); [done..|rewrite Hl; by left]|].
    intros [] d1 Hi1 _ (E1 & E2 & E3 & E4 & E5).
    pose proof (cb_nodup _ _ _ _ _ (in_cbs _ _ _ (proj1 Hi)) p o Ho) as HN. rewrite Hl in HN.
    apply NoDup_cons in HN as [Hn HN].
    assert (Ho1 : d_objs d1 !! p = Some (set_o_reg_cbs l o)).
    { rewrite E1. rewrite (unreg_lookup_2 c d p o Ho), Hl. simpl. rewrite Z.eqb_refl. simpl. do 2 f_equal.
      clear -Hn. induction l as [|c' l IH]; [done|]. simpl. rewrite elem_of_cons in Hn.
      rewrite (proj2 (Z.eqb_neq c' c)) by naive_solver. simpl. f_equal. apply IH. naive_solver. }
    eapply keeps_mono; [by eapply (IH d1 (set_o_reg_cbs l o))|].
    intros [] d2 Hi2 _ ((o' & Ho' & ->) & F2 & F3 & F4 & F5). split; [done|]. split_and!; try congruence. eauto.
Qed.

Lemma keeps_callback_dispatch L X d p o st :
  inv L X d -> d_objs d !! p = Some o ->
  keeps L (synx_util_callback_dispatch p st d) d (fun _ => X)
    (fun _ d' => (exists o', d_objs d' !! p = Some o' /\ o' = set_o_reg_cbs [] o) /\ d_fences d' = d_fences d /\
       d_sigs d' = d_sigs d /\ d_next d' = d_next d /\ d_ents d' = d_ents d).
Proof.
  intros Hi Ho. unfold synx_util_callback_dispatch. eapply keeps_get_obj; [exact Ho|].
  by eapply keeps_dispatch_all.
Qed.

End fences.
