(* ===== verification/SynxObjects.v ===== *)
(** * The synx client framework: the end of an object

    Putting a reference of an object, and what the last one starts: its
    callbacks are dispatched as cancelled, its fence is signalled if nothing
    else can do so, and its memory is freed; the workers that free map entries,
    handles and clients. *)

From S2P Require Import Prelude SynxGlobal SynxSignal SynxDev SynxUtil SynxClient SynxInv.
From S2P Require Import SynxRefs SynxOwn SynxMem SynxKeeps SynxHandles.

Section objects.
Context `{F : DmaFence} `{E : SynxEnv} `{C : SynxClientEnv} `{Laws : !DmaFenceLaws} {B : Prop}.
Implicit Types d : dev.
Abbreviation keeps := (keeps (B := B)).

(** ** Loops, the global table, the map of fences *)

Lemma keeps_for_each L X {A} (l : list A) (f : A -> run dev unit) (R : dev -> Prop) d :
  (forall a d1, a ∈ l -> inv L X d1 -> ext d d1 -> R d1 -> keeps L (f a d1) d1 (fun _ => X) (fun _ => R)) ->
  inv L X d -> R d -> keeps L (for_each l f d) d (fun _ => X) (fun _ => R).
Proof.
  revert d. induction l as [|a l IH]; intros d Hf Hi HR; [by apply keeps_ret|].
  cbn [for_each]. eapply keeps_bind; [apply Hf; [by left|done|apply ext_refl|done]|].
  intros [] d1 Hi1 He1 HR1. apply IH; [|done|done]. intros b d2 Hb Hi2 He2 HR2. apply Hf; [by right|done| |done].
  by eapply ext_trans.
Qed.

(** What a change of the global table leaves alone. *)
Definition gm_only (d d' : dev) : Prop := exists g, d' = set_d_gm g d.

Lemma gm_only_inv L X d d' : gm_only d d' -> inv L X d -> inv L X d'.
Proof. intros [g ->] Hi. inv_same Hi. Qed.

Lemma gm_only_trans d1 d2 d3 : gm_only d1 d2 -> gm_only d2 d3 -> gm_only d1 d3.
Proof. intros [g1 ->] [g2 ->]. by exists g2. Qed.

Lemma gm_only_fenced d d' : gm_only d d' -> fenced d d'.
Proof. intros [g ->]. by split. Qed.

Lemma keeps_global L X {A} (f : gmem -> A * gmem) d :
  inv L X d -> keeps L (global f d) d (fun _ => X) (fun _ d' => gm_only d d').
Proof.
  intros Hi. unfold global. destruct (f (d_gm d)) as [a g]. split_and!; [|by apply ext_fields|by eexists].
  inv_same Hi.
Qed.

Lemma keeps_update_status L X idx st d :
  inv L X d -> B -> keeps L (global_update_status idx st d) d (fun _ => X) (fun _ d' => gm_only d d').
Proof.
  intros Hi HB. unfold global_update_status. destruct (synx_global_update_status _ _ _ _) as [[rc g]|]; [|exact HB].
  split_and!; [|by apply ext_fields|by eexists]. inv_same Hi.
Qed.

Lemma inv_fence_map L X d l :
  inv L X d -> (forall x, x ∈ l -> f_key x < d_next d) -> inv L X (set_d_fence_map l d).
Proof. intros [[Hh [] Hm Hhd Hc [Hcn Hcl] Hcb Hs Ho] Hr] Hl. split; [|done]. split; try done. Qed.

Lemma fence_remove_in key l x : x ∈ fence_remove key l -> x ∈ l.
Proof.
  induction l as [|y l IH]; [done|]. cbn [fence_remove]. destruct (f_key y =? key); rewrite !elem_of_cons; naive_solver.
Qed.

Lemma keeps_release_fence_entry L X key d :
  leafless L -> inv L X d ->
  keeps L (synx_util_release_fence_entry key d) d (fun _ => X)
    (fun _ d' => d_objs d' = d_objs d /\ d_fences d' = d_fences d /\ d_next d' = d_next d).
Proof.
  intros HL Hi. unfold synx_util_release_fence_entry. eapply keeps_leaf; [done|leaf|exact Hi|]. intros Hi1.
  apply keeps_gets, keeps_tt. eapply keeps_modify; [by apply ext_fields|]. apply keeps_ret; [|done].
  apply inv_fence_map; [done|]. intros x Hx. apply (fr_keys _ _ (in_fresh _ _ _ (proj1 Hi1))).
  by eapply fence_remove_in.
Qed.

(** ** The fence of an object that ends *)

Lemma keeps_cancel_child L X d f g :
  leafless L -> inv (fence_lock f :: L) X d -> g <> f -> g < d_next d ->
  to_dma_fence_array (d_fences d) g = None ->
  keeps (fence_lock f :: L) (cancel_child g d) d (fun _ => X) (fun _ d' => fenced d d').
Proof.
  intros HL Hi Hne Hg Hn.
  assert (Hnl : fence_lock g ∉ fence_lock f :: L).
  { rewrite elem_of_cons. intros [[= ->]|Hin]; [done|]. destruct (HL _ Hin) as [p [=]]. }
  unfold cancel_child. apply keeps_gets. case_match; [apply keeps_ret; [done|apply fenced_refl]|].
  eapply keeps_read; [apply fence_state_run; intros _; by rewrite (in_held _ _ _ (proj1 Hi))|].
  destruct (fence_st (d_fences d) g =? SYNX_STATE_ACTIVE) eqn:Es; zbool; [|apply keeps_ret; [done|apply fenced_refl]].
  apply fence_st_active in Es as [_ Hs]. cbn [negb].
  eapply keeps_bind; [by apply keeps_fence_set_error|]. intros [] d1 Hi1 _ Hf1.
  eapply keeps_bind.
  { apply keeps_fence_signal; [exact Hi1|by rewrite (fd_next _ _ Hf1)|by rewrite (fd_array _ _ Hf1)|done]. }
  intros rc d2 Hi2 _ Hf2. apply keeps_ret; [done|]. by eapply fenced_trans.
Qed.

Lemma keeps_cleanup_merged L X d p o :
  leafless L -> inv (fence_lock (o_fence o) :: L) X d -> d_objs d !! p = Some o ->
  synx_util_is_merged_object o = true ->
  keeps (fence_lock (o_fence o) :: L) (synx_util_cleanup_merged_fence p d) d (fun _ => X) (fun _ d' => fenced d d').
Proof.
  intros HL Hi Ho Hm. unfold synx_util_cleanup_merged_fence. eapply keeps_get_obj; [exact Ho|]. apply keeps_gets.
  destruct (ob_merged _ _ _ _ _ (in_objs _ _ _ (proj1 Hi)) p o Ho Hm) as (l & Hl & Hnin). rewrite Hl.
  apply keeps_for_each; [|exact Hi|apply fenced_refl]. intros g d1 Hg Hi1 _ Hf1.
  eapply keeps_mono; [apply keeps_cancel_child; [done|exact Hi1|congruence| |]|].
  - rewrite (fd_next _ _ Hf1). by apply (fr_children _ _ (in_fresh _ _ _ (proj1 Hi)) (o_fence o) l).
  - rewrite (fd_array _ _ Hf1). by apply (fr_flat _ _ (in_fresh _ _ _ (proj1 Hi)) (o_fence o) l).
  - intros [] d2 Hi2 _ Hf2. split; [done|]. by eapply fenced_trans.
Qed.

(** The fence of the object is signalled, when its last reference goes. *)
Lemma keeps_end_fence L X d p o :
  leafless L -> inv L X d -> d_objs d !! p = Some o ->
  keeps L ((when (negb (o_fence o =? 0)) (
    with_lock (fence_lock (o_fence o)) (
      st ← synx_util_get_object_status_locked p;
      if synx_util_is_merged_object o && (st =? SYNX_STATE_ACTIVE) then synx_util_cleanup_merged_fence p
      else if st =? SYNX_STATE_ACTIVE then
        num_dma_array ← synx_util_count_dma_array_fences (o_fence o);
        refs ← gets (fun d => dma_fence_kref_read (d_fences d) (o_fence o));
        if refs =? 1 + num_dma_array then
          fence_set_error (o_fence o) (- SYNX_STATE_SIGNALED_CANCEL) ;;
          fence_signal_locked (o_fence o) ;;
          mret tt
        else mret tt
      else mret tt))) d) d (fun _ => X) (fun _ d' => fenced d d').
Proof.
  intros HL Hi Ho. destruct (o_fence o =? 0) eqn:Ez; cbn [negb when]; [apply keeps_ret; [done|apply fenced_refl]|].
  eapply keeps_leaf; [done|leaf|exact Hi|]. intros Hi1.
  assert (Hh : forall d', fenced (set_d_held (fence_lock (o_fence o) :: L) d) d' -> fenced d (set_d_held L d')).
  { intros d' []. by split. }
  assert (Hf : o_fence o < d_next d) by by eapply (ob_fence _ _ _ _ _ (in_objs _ _ _ (proj1 Hi))).
  eapply keeps_read; [by apply (object_status_run p o true)|].
  destruct (obj_st _ o =? SYNX_STATE_ACTIVE) eqn:Es; zbool.
  2: { rewrite andb_false_r. apply keeps_ret; [done|apply Hh, fenced_refl]. }
  apply obj_st_active in Es as [_ Ha]. destruct (synx_util_is_merged_object o) eqn:Em; cbn [andb].
  - eapply keeps_mono; [by apply keeps_cleanup_merged|]. auto.
  - unfold obj_active in Ha. rewrite Em in Ha. unfold synx_util_count_dma_array_fences.
    apply keeps_assoc, keeps_gets. eapply keeps_read; [done|]. apply keeps_gets.
    case_match; [|apply keeps_ret; [done|apply Hh, fenced_refl]].
    eapply keeps_bind; [by apply keeps_fence_set_error|]. intros [] d1 Hi2 _ Hf1.
    eapply keeps_bind; [apply keeps_fence_signal_locked; [exact Hi2|by rewrite (fd_next _ _ Hf1)|]|].
    { rewrite (fd_array _ _ Hf1). zbool. by apply (ob_plain _ _ _ _ _ (in_objs _ _ _ (proj1 Hi)) p). }
    intros rc d2 Hi3 _ Hf2. apply keeps_ret; [done|]. apply Hh. by eapply fenced_trans.
Qed.

Lemma keeps_object_destroy L X d p o :
  leafless L -> inv L X d -> d_objs d !! p = Some o -> o_refcount o <= 0 ->
  keeps L (synx_util_object_destroy p d) d (fun _ => X) (fun _ _ => True).
Proof.
  intros HL Hi Ho Hr. unfold synx_util_object_destroy. eapply keeps_get_obj; [exact Ho|].
  eapply keeps_bind; [by eapply keeps_dispatch_all|]. intros [] d1 Hi1 _ ((o1 & Ho1 & ->) & E1 & E2 & E3 & E4).
  rewrite (ob_bound _ _ _ _ _ (in_objs _ _ _ (proj1 Hi)) p o Ho). cbn [Z.to_nat take for_each].
  eapply keeps_read; [done|]. eapply keeps_bind; [by apply keeps_release_fence_entry|].
  intros [] d2 Hi2 _ (F1 & F2 & F3). rewrite <- F1 in Ho1.
  eapply keeps_bind; [apply (keeps_end_fence L X d2 p _ HL Hi2 Ho1)|]. intros [] d3 Hi3 _ G3.
  rewrite <- (fd_objs _ _ G3) in Ho1.
  eapply keeps_bind; [apply keeps_fence_put; [exact Hi3|]|].
  { by eapply (ob_fence _ _ _ _ _ (in_objs _ _ _ (proj1 Hi3)) p _ Ho1). }
  intros [] d4 Hi4 _ G4. rewrite <- (fd_objs _ _ G4) in Ho1. unfold free_obj. eapply keeps_get_obj; [exact Ho1|].
  apply keeps_tt. eapply keeps_modify; [by apply ext_fields|]. apply keeps_ret; [|done].
  by eapply inv_free_obj.
Qed.

Lemma keeps_destroy_coredata L X d p o :
  leafless L -> inv L X d -> d_objs d !! p = Some o -> o_refcount o <= 0 ->
  keeps L (synx_util_destroy_coredata p d) d (fun _ => X) (fun _ _ => True).
Proof.
  intros HL Hi Ho Hr. unfold synx_util_destroy_coredata. eapply keeps_get_obj; [exact Ho|].
  eapply (keeps_bind _ _ _ _ (fun _ => X) _ (fun _ d' => gm_only d d')).
  { destruct (synx_util_is_global_object o); cbn [when]; [|apply keeps_ret; [done|by exists (d_gm d); destruct d]].
    eapply keeps_bind; [by apply keeps_global|]. intros rc d1 Hi1 _ G1.
    eapply keeps_mono; [by apply keeps_global|]. intros [] d2 Hi2 _ G2. split; [done|]. exact (gm_only_trans _ _ _ G1 G2). }
  intros [] d1 Hi1 _ [g ->]. by eapply keeps_object_destroy.
Qed.

(** A reference is put; with the last one, the object ends. *)
Lemma keeps_put_object L X d p :
  leafless L -> inv L (RObj p :: X) d ->
  keeps L (synx_util_put_object p d) d (fun _ => X) (fun _ _ => True).
Proof.
  intros HL Hi. unfold synx_util_put_object. destruct (held_obj _ _ _ p Hi) as (o & Ho & Hr); [by left|].
  pose proof (inv_obj_put _ _ _ _ _ Hi Ho) as Hi1.
  eapply keeps_upd_obj; [exact Ho|]. eapply keeps_get_obj; [apply lookup_insert_eq|]. cbn [o_refcount set_o_refcount].
  destruct (o_refcount o - 1 =? 0) eqn:Er; cbn [when]; [|by apply keeps_ret]. zbool.
  eapply keeps_destroy_coredata; [done|exact Hi1|apply lookup_insert_eq|]. simpl. lia.
Qed.

End objects.

(** * The synx client framework: signalling the fence of an object

    The [signal_cb] of an object is taken from its fence before the framework
    signals it, and when the last map entry of the object goes. *)

Section native.
Context `{F : DmaFence} `{E : SynxEnv} `{C : SynxClientEnv} `{Laws : !DmaFenceLaws} {B : Prop}.
Implicit Types d : dev.
Abbreviation keeps := (keeps (B := B)).

(** A call of the fences under the lock of one. *)
Lemma fence_call_run {A} f (g : fences -> A * fences) d :
  fence_lock f ∉ d_held d ->
  with_lock (fence_lock f) (fence_call g) d = Ret (g (d_fences d)).1 (set_d_fences (g (d_fences d)).2 d).
Proof.
  intros Hn. unfold with_lock, lock, fence_call, unlock, modify, mbind, run_bind.
  rewrite bool_decide_false by done. cbn [d_fences set_d_held]. destruct (g (d_fences d)) as [a fs]. cbn.
  rewrite bool_decide_true by done. by destruct d.
Qed.

Lemma keeps_tt3 L (m1 m2 m3 : run dev unit) d Y Q :
  keeps L ((m1 ;; m2 ;; m3 ;; mret tt) d) d Y Q -> keeps L ((m1 ;; m2 ;; m3) d) d Y Q.
Proof.
  unfold SynxRefs.keeps, good, mbind, run_bind, mret, run_ret. destruct (m1 d) as [[] d1| |]; [|done..].
  destruct (m2 d1) as [[] d2| |]; [|done..]. by destruct (m3 d2) as [[] d3| |].
Qed.

Lemma leafless_fence L X d f : leafless L -> inv L X d -> fence_lock f ∉ d_held d.
Proof. intros HL Hi. by apply (leafless_no_fence L X). Qed.

(** The [signal_cb] of an active object can be removed from its fence. *)
Lemma inv_remove_signal L X d p o s :
  inv L X d -> d_objs d !! p = Some o -> o_signal_cb o = Some s -> obj_active (d_fences d) o -> RStale p ∉ X ->
  (dma_fence_remove_callback (o_fence o) s (d_fences d)).1 = true /\ is_Some (d_sigs d !! s) /\
  ext d (set_d_fences (dma_fence_remove_callback (o_fence o) s (d_fences d)).2 d) /\
  inv L (RSig s :: RObj p :: RStale p :: X)
    (set_d_fences (dma_fence_remove_callback (o_fence o) s (d_fences d)).2 d).
Proof.
  intros Hi Ho Hs Ha Hst.
  destruct (ob_signal _ _ _ _ _ (in_objs _ _ _ (proj1 Hi)) p o s Ho Hs Ha Hst) as (Hin & x & Hx & Hp).
  destruct (fence_remove_ok (o_fence o) s (d_fences d)) as (H1 & H2 & H3 & H4 & H5).
  split_and!; [by rewrite H1, bool_decide_true|eauto|by apply ext_fields|].
  pose proof (inv_remove_callback L X d _ s x p _ Hi Hin Hx Hp H2 H3 H4 H5) as Hi1. unfold sig_objs in Hi1.
  by rewrite Hp in Hi1.
Qed.

(** The removed [signal_cb] is freed, and its reference put. *)
Lemma keeps_drop_signal L X d p o s {A} (k : run dev A) Y Q :
  inv L (RSig s :: RObj p :: RStale p :: X) d -> d_objs d !! p = Some o -> anchored p X d ->
  (forall d' o', inv L X d' -> d_cbs d' = d_cbs d -> d_fences d' = d_fences d -> d_ents d' = d_ents d ->
     d_objs d' !! p = Some o' -> o_fence o' = o_fence o -> o_type o' = o_type o ->
     keeps L (k d') d' Y Q) ->
  keeps L ((free_sig s ;; upd_obj p (set_o_signal_cb None) ;; synx_util_put_object p ;; k) d) d Y Q.
Proof.
  intros Hi Ho Ha Hk.
  assert (Hl : is_Some (d_sigs d !! s)).
  { apply (si_live _ _ _ _ (in_sigs _ _ _ (proj1 Hi))). rewrite owned_sigs_cons. by left. }
  destruct Hl as [x Hx]. unfold free_sig at 1. apply keeps_assoc. eapply keeps_get_sig; [exact Hx|].
  eapply keeps_modify; [by apply ext_fields|]. apply inv_free_sig in Hi.
  eapply keeps_upd_obj; [exact Ho|].
  eapply (inv_obj_frame L _ _ p o (set_o_signal_cb None o)) in Hi; [|exact Ho|by split; auto|done].
  eapply inv_perm in Hi; [|apply perm_swap].
  eapply inv_unstale in Hi; [|apply lookup_insert_eq|done].
  eapply keeps_bind; [apply keeps_put_object_kept; [exact Hi|exact Ha]|].
  intros [] d' Hi' _ (o1 & Ho1 & ->). simpl in Ho1. rewrite lookup_insert_eq in Ho1. injection Ho1 as <-.
  eapply Hk; [exact Hi'|done|done|done|apply lookup_insert_eq|done|done].
Qed.

Lemma keeps_native_signal_fence L X d p status :
  leafless L -> inv L X d -> anchored p X d -> RStale p ∉ X ->
  keeps L (synx_native_signal_fence p status d) d (fun _ => X) (fun _ d' => d_cbs d' = d_cbs d).
Proof.
  intros HL Hi Ha Hst. unfold synx_native_signal_fence. destruct (anchored_live _ _ _ _ Hi Ha) as (o & Ho & _).
  eapply keeps_get_obj; [exact Ho|]. case_match; [by apply keeps_ret|]. case_match; [by apply keeps_ret|].
  destruct (synx_util_is_merged_object o) eqn:Em; [by apply keeps_ret|].
  eapply keeps_read; [by apply (object_status_run p o false); [|intros _; eapply leafless_no_fence]|].
  destruct (obj_st _ o =? SYNX_STATE_ACTIVE) eqn:Es; cbn [negb]; [|by apply keeps_ret]. zbool.
  apply obj_st_active in Es as [_ Hact]. destruct (o_signal_cb o) as [s|] eqn:Es; [|by apply keeps_ret].
  destruct (inv_remove_signal _ _ _ _ _ _ Hi Ho Es Hact Hst) as (H1 & [x Hx] & Hxt & Hi1).
  eapply keeps_get_sig; [exact Hx|].
  eapply keeps_run; [by apply fence_call_run; eapply leafless_fence|exact Hxt|]. rewrite H1. cbn [negb].
  eapply keeps_drop_signal; [exact Hi1|exact Ho|exact Ha|]. intros d1 o1 Hi2 E1 E2 E3 Ho1 F1 F2.
  eapply keeps_leaf; [done|leaf|exact Hi2|]. intros Hi3.
  eapply keeps_read; [by apply (object_status_run p o1 true)|].
  destruct (obj_st _ o1 =? SYNX_STATE_ACTIVE) eqn:Es'; cbn [negb]; [|by apply keeps_ret]. zbool.
  apply obj_st_active in Es' as [Hz Hact1]. eapply keeps_upd_obj; [exact Ho1|].
  eapply (inv_obj_frame _ _ _ p o1 (set_o_status status o1)) in Hi3; [|exact Ho1|by split; auto|done].
  assert (Hf : o_fence o < d_next d1) by (rewrite <- F1; by eapply (ob_fence _ _ _ _ _ (in_objs _ _ _ (proj1 Hi2)))).
  match type of Hi3 with inv _ _ ?s => set (d2 := s) in * end.
  eapply (keeps_bind _ _ _ _ (fun _ => X) _ (fun _ d' => fenced d2 d')).
  { destruct (negb _); cbn [when]; [|apply keeps_ret; [done|apply fenced_refl]].
    apply keeps_fence_set_error; [done|done|]. unfold obj_active in Hact1.
    unfold synx_util_is_merged_object in *. rewrite F2, Em, F1 in Hact1. exact Hact1. }
  intros [] d3 Hi4 _ G1.
  eapply keeps_mono; [apply keeps_fence_signal_locked; [done|by rewrite (fd_next _ _ G1)|]|].
  { rewrite (fd_array _ _ G1), <- F1. change (d_fences d2) with (d_fences d1).
    apply (ob_plain _ _ _ _ _ (in_objs _ _ _ (proj1 Hi2)) p o1 Ho1); [|done]. unfold synx_util_is_merged_object in *. by rewrite F2. }
  intros rc d4 Hi5 _ G2. split; [done|]. simpl. by rewrite (fd_cbs _ _ G2), (fd_cbs _ _ G1).
Qed.

(** ** The last map entry of an object *)

(** A write to a [synx_signal_cb] that keeps its object. *)
Lemma inv_sig_frame L X d s x y :
  inv L X d -> d_sigs d !! s = Some x -> s_obj y = s_obj x -> inv L X (set_d_sigs (<[s := y]> (d_sigs d)) d).
Proof.
  intros [[Hh [] Hm Hhd Hc Hcu Hcb [S1 S2 S3 S4 S5 S6] [Ho1 Ho2 Ho4 Ho5 Ho3]] Hr] Hs Hy.
  assert (Hl : forall s', is_Some (<[s := y]> (d_sigs d) !! s') <-> is_Some (d_sigs d !! s')).
  { intros s'. rewrite lookup_insert_is_Some. destruct (decide (s = s')) as [->|]; [rewrite Hs|]; naive_solver. }
  split.
  - split; try done.
    + split; try done. simpl. intros q Hq. rewrite lookup_insert_ne; [auto|]. intros <-. by rewrite fr_sigs in Hs.
    + by apply (cleanup_ok_items X _ d).
    + split; simpl; try done.
      * intros s' H. rewrite Hl. auto.
      * intros g s' H. rewrite Hl. eauto.
      * intros s' x' Hw. rewrite lookup_insert_Some. intros [[-> <-]|[Hne Hx']]; [|eauto]. rewrite Hy. eauto.
    + split; simpl; try done. intros q o s' Hq Hs' Ha Hst.
      destruct (Ho3 q o s' Hq Hs' Ha Hst) as [H1 (x' & Hx' & Hq')]. split; [done|].
      destruct (decide (s = s')) as [->|Hne].
      * exists y. rewrite lookup_insert_eq. split; [done|]. rewrite Hy. congruence.
      * exists x'. by rewrite lookup_insert_ne.
  - intros r Hr'. specialize (Hr r Hr'). destruct r as [q| | | | | | | |]; simpl in *; try done.
    rewrite (mcount_update _ _ s x) by done. rewrite Hy. lia.
Qed.

Lemma keeps_detach_signal L X d p o s :
  leafless L -> inv L X d -> d_objs d !! p = Some o -> o_signal_cb o = Some s -> anchored p X d -> RStale p ∉ X ->
  keeps L (detach_signal_cb p s d) d (fun _ => X) (fun _ _ => True).
Proof.
  intros HL Hi Ho Hs Ha Hst. unfold detach_signal_cb. eapply keeps_get_obj; [exact Ho|].
  eapply keeps_leaf; [done|leaf|exact Hi|]. intros Hi1.
  eapply keeps_read; [by apply (object_status_run p o true)|].
  destruct (obj_st _ o =? SYNX_STATE_ACTIVE) eqn:Es; cbn [when]; [|by apply keeps_ret]. zbool.
  apply obj_st_active in Es as [_ Hact].
  destruct (ob_signal _ _ _ _ _ (in_objs _ _ _ (proj1 Hi1)) p o s Ho Hs Hact Hst) as (Hin & x & Hx & Hp).
  eapply keeps_upd_sig; [exact Hx|].
  pose proof (inv_detach _ _ _ _ _ _ _ (set_s_obj None x) Hi1 Hin Hx Hp eq_refl) as Hi2.
  eapply keeps_bind; [apply keeps_global; exact Hi2|]. intros [rc h] d2 Hi3 _ [g ->].
  eapply keeps_upd_sig; [apply lookup_insert_eq|].
  match goal with |- context [set_s_handle ?v ?x] => set (y := set_s_handle v x) end.
  eapply (inv_sig_frame _ _ _ s _ y) in Hi3; [|apply lookup_insert_eq|done].
  eapply keeps_upd_obj; [exact Ho|].
  eapply (inv_obj_frame _ _ _ p o (set_o_signal_cb None o)) in Hi3; [|exact Ho|by split; auto|done].
  eapply inv_perm in Hi3; [|apply perm_swap].
  eapply inv_unstale in Hi3; [|apply lookup_insert_eq|done].
  eapply keeps_bind; [apply keeps_put_object_kept; [exact Hi3|exact Ha]|].
  intros [] d3 Hi4 _ _. eapply keeps_bind; [apply keeps_global; exact Hi4|]. intros rc' d4 Hi5 _ _. by apply keeps_ret.
Qed.

Lemma keeps_cleanup_fence X d p :
  inv [] X d -> RObj p ∈ X -> RStale p ∉ X ->
  keeps [] (synx_util_cleanup_fence p d) d (fun _ => X) (fun _ _ => True).
Proof.
  intros Hi Hin Hst. unfold synx_util_cleanup_fence.
  eapply keeps_lock; [exact Hi|by rewrite elem_of_nil|]. intros Hi1.
  destruct (held_obj _ _ _ p Hi1 Hin) as (o & Ho & _). eapply keeps_upd_obj; [exact Ho|].
  set (o1 := set_o_map_count _ o).
  eapply (inv_obj_frame _ _ _ p o o1) in Hi1; [|exact Ho|by split; auto|done].
  eapply keeps_get_obj; [apply lookup_insert_eq|].
  match type of Hi1 with inv _ _ ?s => set (d1 := s) in * end.
  assert (Ho1 : d_objs d1 !! p = Some o1) by apply lookup_insert_eq.
  assert (HL : leafless [obj_lock p]) by leaf.
  assert (Ha : anchored p X d1) by by left.
  eapply keeps_read; [by apply (object_status_run p o1 false); [|intros _; eapply leafless_no_fence]|].
  destruct (o_signal_cb o1) as [s|] eqn:Es; [|by apply keeps_ret].
  destruct (o_map_count o1 =? 0); cbn [negb orb]; [|by apply keeps_ret].
  destruct (obj_st _ o1 =? SYNX_STATE_ACTIVE) eqn:Est; cbn [negb]; [|by apply keeps_ret]. zbool.
  apply obj_st_active in Est as [_ Hact].
  destruct (negb (o_global_idx o1 =? 0)).
  - eapply keeps_bind; [by apply keeps_global|]. intros g d2 Hi2 _ [gm ->]. case_match.
    + eapply keeps_bind; [by apply keeps_native_signal_fence|]. intros rc d3 Hi3 _ _. by apply keeps_ret.
    + by eapply keeps_detach_signal.
  - destruct (inv_remove_signal _ _ _ _ _ _ Hi1 Ho1 Es Hact Hst) as (H1 & [x Hx] & Hxt & Hi2).
    eapply keeps_get_sig; [exact Hx|].
    eapply keeps_run; [by apply fence_call_run; eapply leafless_fence|exact Hxt|]. rewrite H1. cbn [when].
    apply keeps_tt3.
    eapply keeps_mono; [eapply (keeps_drop_signal _ _ _ p o1 s _ (fun _ => X) (fun _ _ => True)); [exact Hi2|exact Ho1|exact Ha|]|done].
    intros d3 o3 Hi3 _ _ _ _ _ _. by apply keeps_ret.
Qed.

End native.

(** * The synx client framework: the clean-up queue

    The workers that free map entries, handles and clients whose last reference
    was put keep the invariant. *)

Section clean.
Context `{F : DmaFence} `{E : SynxEnv} `{C : SynxClientEnv} `{Laws : !DmaFenceLaws} {B : Prop}.
Implicit Types d : dev.
Abbreviation keeps := (keeps (B := B)).

(** ** Map entries and handles *)

Lemma clean_entry d e m :
  inv [] [RClean (WEnt e); RObj (m_obj m)] d -> d_ents d !! e = Some m ->
  good B (synx_util_destroy_map_entry_worker e d) (fun _ d' => inv [] [] d').
Proof.
  intros Hi He. unfold synx_util_destroy_map_entry_worker. eapply good_get_ent; [exact He|].
  assert (Hst : forall p, RStale p ∉ [RClean (WEnt e); RObj (m_obj m)]).
  { intros p Hin. rewrite !elem_of_cons, elem_of_nil in Hin. naive_solver. }
  eapply good_bind; [apply (keeps_cleanup_fence (B := B) _ _ (m_obj m) Hi); [right; by left|apply Hst]|].
  intros [] d1 (Hi1 & Hx1 & _). eapply inv_perm in Hi1; [|apply perm_swap].
  eapply good_bind; [apply (keeps_put_object (B := B) _ _ _ _ leafless_nil Hi1)|].
  intros [] d2 (Hi2 & Hx2 & _).
  destruct (ex_ents _ _ (ext_trans _ _ _ Hx1 Hx2) e m He) as (m2 & He2 & _ & Hk).
  assert (Hi3 : forall d3, (synx_util_is_global_handle (m_key m) = true -> d3 = d2) -> inv [] [RClean (WEnt e)] d3 ->
    d_ents d3 = d_ents d2 -> good B (free_ent e d3) (fun _ d' => inv [] [] d')).
  { intros d3 _ Hi3 E3. unfold free_ent. rewrite <- E3 in He2. eapply good_get_ent; [exact He2|].
    apply good_tt, good_modify, good_ret.
    apply (inv_free_ent _ _ _ _ _ Hi3 He2). intros h. apply not_elem_of_nil. }
  destruct (synx_util_is_global_handle (m_key m)) eqn:Eg; cbn [negb when].
  - eapply good_bind; [by apply (good_ret _ _ (fun _ d' => d' = d2))|]. intros [] d3 ->. by apply Hi3.
  - unfold clear_local_bit. apply good_assoc.
    pose proof (mo_keys _ _ _ (in_maps _ _ _ (proj1 Hi2)) e m2 He2) as Hidx. rewrite Hk, Eg in Hidx.
    unfold guard. rewrite (proj2 (Z.ltb_lt _ _)) by auto. eapply good_bind; [by apply (good_ret _ _ (fun _ d' => d' = d2))|].
    intros [] d3 ->. apply good_modify. apply Hi3; [done| |done]. inv_same Hi2.
Qed.

Lemma clean_handle d h x :
  inv [] [RClean (WHdl h); REnt (h_ent x)] d -> d_hdls d !! h = Some x ->
  good B (synx_util_destroy_handle_worker h d) (fun _ d' => inv [] [] d').
Proof.
  intros Hi Hx. unfold synx_util_destroy_handle_worker. eapply good_get_hdl; [exact Hx|].
  eapply inv_perm in Hi; [|apply perm_swap].
  eapply good_bind; [apply (keeps_release_map_entry (B := B) _ _ _ _ leafless_nil Hi)|].
  intros [] d1 (Hi1 & _ & _ & Eh). rewrite <- Eh in Hx. unfold free_hdl. eapply good_get_hdl; [exact Hx|].
  apply good_tt, good_modify, good_ret. by eapply inv_free_hdl.
Qed.

(** ** Clients *)

Lemma put_handle_run d h x :
  d_hdls d !! h = Some x -> h_refcount x <> 1 ->
  put_handle h d = Ret tt (set_d_hdls (<[h := set_h_refcount (h_refcount x - 1) x]> (d_hdls d)) d).
Proof.
  intros Hx Hr. unfold put_handle, upd_hdl, get_hdl, gets, mbind, run_bind. rewrite Hx. cbn.
  rewrite lookup_insert_eq. cbn. by rewrite (proj2 (Z.eqb_neq _ _)) by lia.
Qed.

Lemma put_handle_last d h x cl :
  d_hdls d !! h = Some x -> h_refcount x = 1 -> d_clients d !! h_client x = Some cl ->
  put_handle h d = Ret tt (drop_hdl h x cl d).
Proof.
  intros Hx Hr Hc. unfold put_handle, upd_hdl, get_hdl, upd_cli, get_cli, gets, mbind, run_bind. rewrite Hx. cbn.
  rewrite lookup_insert_eq. cbn. rewrite Hr. change (1 - 1 =? 0) with true. cbn. by rewrite Hc.
Qed.

Lemma drop_handle_run n d h x cl :
  d_hdls d !! h = Some x -> h_refcount x = Z.of_nat (S n) -> d_clients d !! h_client x = Some cl ->
  for_each (replicate (S n) h) put_handle d = Ret tt (drop_hdl h x cl d).
Proof.
  revert d x. induction n as [|n IH]; intros d x Hx Hr Hc.
  - cbn [replicate for_each]. by rewrite (bind_ret _ _ _ _ _ (put_handle_last d h x cl Hx Hr Hc)).
  - change (replicate (S (S n)) h) with (h :: replicate (S n) h). cbn [for_each].
    rewrite (bind_ret _ _ _ _ _ (put_handle_run d h x Hx ltac:(lia))).
    rewrite (IH _ (set_h_refcount (h_refcount x - 1) x)).
    + unfold drop_hdl. simpl. by rewrite insert_insert_eq.
    + apply lookup_insert_eq.
    + simpl. lia.
    + exact Hc.
Qed.

(** The handles of a client that goes are dropped one after the other. *)
Lemma drop_handles X c l d cl :
  inv [] X d -> (forall h, RHdl h ∉ X) -> d_clients d !! c = Some cl ->
  (forall h, h ∈ l -> exists x, d_hdls d !! h = Some x /\ h_client x = c) ->
  (forall h, h ∈ cl_handle_map cl -> h ∈ l) ->
  good B (for_each l drop_handle d)
    (fun _ d' => inv [] X d' /\ exists cl', d_clients d' !! c = Some cl' /\ cl_handle_map cl' = []).
Proof.
  revert d cl. induction l as [|h l IH]; intros d cl Hi HX Hc Hl Hm.
  - apply good_ret. split; [done|]. exists cl. split; [done|].
    destruct (cl_handle_map cl) as [|h ?]; [done|]. specialize (Hm h ltac:(by left)). by apply elem_of_nil in Hm.
  - cbn [for_each]. destruct (Hl h) as (x & Hx & Hxc); [by left|].
    unfold drop_handle at 1. apply good_assoc. eapply good_get_hdl; [exact Hx|].
    destruct (decide (1 <= h_refcount x)) as [Hr|Hr].
    + destruct (Z.to_nat (h_refcount x)) as [|n] eqn:En; [lia|].
      rewrite <- Hxc in Hc. eapply good_bind.
      { rewrite (drop_handle_run n d h x cl Hx ltac:(lia) Hc). by apply (good_ret _ _ (fun _ d' => d' = drop_hdl h x cl d)). }
      intros [] d1 ->.
      assert (Hi1 : inv [] X (drop_hdl h x cl d)).
      { apply (inv_drop_hdl [] X X d h x cl Hi (same_items_refl _) Hx Hr Hc); [lia|].
        unfold cnt. replace (countb _ X) with 0%nat; [done|]. symmetry. clear -HX.
        induction X as [|r X IHX]; [done|]. simpl. rewrite bool_decide_false.
        - apply IHX. intros h' Hin. apply (HX h'). by right.
        - intros <-. apply (HX h). by left. }
      eapply IH; [exact Hi1|done| | |].
      * unfold drop_hdl. simpl. rewrite <- Hxc. apply lookup_insert_eq.
      * intros h' Hin. destruct (Hl h') as (x' & Hx' & Hc'); [by right|]. unfold drop_hdl. simpl.
        destruct (decide (h' = h)) as [->|Hne].
        -- rewrite lookup_insert_eq. eexists. by split.
        -- rewrite lookup_insert_ne by congruence. eauto.
      * intros h' Hin. simpl in Hin. apply elem_of_filter_ne in Hin as [Hin Hne].
        apply Hm in Hin. apply elem_of_cons in Hin as [|]; [done|done].
    + replace (Z.to_nat (h_refcount x)) with 0%nat by lia. cbn [replicate for_each].
      eapply good_bind; [by apply (good_ret _ _ (fun _ d' => d' = d))|]. intros [] d1 ->.
      eapply IH; [exact Hi|done|exact Hc| |].
      * intros h' Hin. apply Hl. by right.
      * intros h' Hin. pose proof (Hm h' Hin) as Hin'. apply elem_of_cons in Hin' as [->|]; [|done].
        destruct (ho_map _ _ _ (in_handles _ _ _ (proj1 Hi)) c cl h Hc Hin) as (x' & Hx' & Hr' & _).
        rewrite Hx in Hx'. injection Hx' as <-. lia.
Qed.

Lemma clean_client d c :
  inv [] [RClean (WCli c)] d -> is_Some (d_clients d !! c) ->
  good B (synx_client_cleanup c d) (fun _ d' => inv [] [] d').
Proof.
  intros Hi [cl Hc]. unfold synx_client_cleanup. eapply good_get_cli; [exact Hc|].
  eapply good_bind; [apply (drop_handles [RClean (WCli c)] c _ _ cl Hi)|].
  - intros h Hin. apply elem_of_cons in Hin as [|Hin]; [done|]. by apply elem_of_nil in Hin.
  - done.
  - intros h Hin. destruct (ho_map _ _ _ (in_handles _ _ _ (proj1 Hi)) c cl h Hc Hin) as (x & Hx & _ & Hxc). eauto.
  - done.
  - intros [] d1 (Hi1 & cl' & Hc' & Hm). unfold free_cli. eapply good_get_cli; [exact Hc'|].
    apply good_tt, good_modify, good_ret. by eapply inv_free_cli.
Qed.

(** ** The worker *)

Lemma work_cleanup_ok n d : inv [] [] d -> good B (work_cleanup n d) (fun _ d' => inv [] [] d').
Proof.
  intros Hi. unfold work_cleanup. apply good_gets.
  destruct (d_wq_cleanup d !! n) as [w|] eqn:Ew; [|by apply good_ret].
  destruct (inv_take_clean _ _ _ _ _ Hi Ew) as [Hl Hi1]. apply good_modify.
  destruct w as [e|h|c]; cbn [run_cleanup_work clean_objs] in *.
  - destruct Hl as (m & He & _). rewrite He in Hi1. exact (clean_entry _ e m Hi1 He).
  - destruct Hl as (x & Hx & _). rewrite Hx in Hi1. exact (clean_handle _ h x Hi1 Hx).
  - destruct Hl as (cl & Hc & _). apply (clean_client _ c Hi1). by exists cl.
Qed.

End clean.
