(* ===== verification/SynxCreate.v ===== *)
(** * The synx client framework: new objects

    Creation of an object keeps the invariant, on the paths that fail too: the
    fence of the object, its handle, its map entry and the callback on its
    fence. *)

From S2P Require Import Prelude Bitmap SynxGlobal SynxSignal SynxDev SynxUtil SynxClient SynxInv.
From S2P Require Import SynxRefs SynxOwn SynxMem SynxKeeps SynxHandles SynxObjects.

(** ** Handles *)

Lemma encode_global idx core :
  synx_util_is_global_handle (synx_encode_handle idx core true) = true \/ synx_encode_handle idx core true = 0.
Proof.
  unfold synx_encode_handle. destruct (idx >=? SYNX_MAX_OBJS); [auto|]. left.
  unfold synx_util_is_global_handle, truthy. apply negb_true_iff, Z.eqb_neq. intros H.
  apply (f_equal (fun z => Z.testbit z 20)) in H. rewrite Z.testbit_0_l in H.
  rewrite Z.land_spec, Z.lor_spec in H. change (Z.testbit SYNX_OBJ_GLOBAL_FLAG_MASK 20) with true in H.
  rewrite andb_true_r in H. apply orb_false_iff in H as [H _]. revert H.
  change (u32 (Z.shiftl 1 SYNX_HANDLE_CORE_BITS)) with 16. unfold u32.
  change (2 ^ 32) with (2 ^ 32). rewrite Z.mod_pow2_bits_low by lia.
  rewrite Z.shiftl_spec by lia. change (20 - SYNX_HANDLE_INDEX_BITS) with 4. rewrite Z.lor_spec.
  change (Z.testbit 16 4) with true. done.
Qed.

Lemma encode_local idx :
  0 <= idx -> synx_util_global_idx (synx_encode_handle idx SYNX_CORE_APSS false) < SYNX_MAX_OBJS.
Proof.
  intros H. unfold synx_encode_handle. destruct (idx >=? SYNX_MAX_OBJS) eqn:E; [done|].
  unfold synx_util_global_idx. change SYNX_OBJ_HANDLE_MASK with (Z.ones 16). rewrite Z.land_ones by lia.
  change (u32 (Z.shiftl (Z.lor 0 SYNX_CORE_APSS) SYNX_HANDLE_INDEX_BITS)) with 0. rewrite Z.lor_0_l.
  apply Z.le_lt_trans with idx; [apply Z.mod_le; lia|]. zbool. lia.
Qed.

Lemma first_zero_bit_nonneg bits size : 0 <= size -> 0 <= first_zero_bit bits size.
Proof.
  intros Hs. unfold first_zero_bit. destruct (List.filter _ _) as [|i l] eqn:E; [done|]. simpl.
  assert (Hin : In i (i :: l)) by by left. rewrite <- E in Hin. apply List.filter_In in Hin as [Hin _].
  apply list_elem_of_In, elem_of_seqZ in Hin. lia.
Qed.

Lemma free_handle_nonneg bits size : 0 <= size -> 0 <= (synx_util_get_free_handle bits size).1.
Proof.
  intros Hs. unfold synx_util_get_free_handle. pose proof (first_zero_bit_nonneg bits size Hs).
  by case_match.
Qed.

(** A handle with an index inside the bitmap, if it is local. *)
Definition handle_ok (h : Z) : Prop :=
  synx_util_is_global_handle h = false -> synx_util_global_idx h < SYNX_MAX_OBJS.

Lemma handle_ok_global idx core : handle_ok (synx_encode_handle idx core true).
Proof. intros H. destruct (encode_global idx core) as [E| ->]; [congruence|done]. Qed.

Lemma handle_ok_local idx : 0 <= idx -> handle_ok (synx_encode_handle idx SYNX_CORE_APSS false).
Proof. intros H _. by apply encode_local. Qed.

Lemma alloc_loop_none `{E : SynxEnv} fuel n g rc g' : alloc_loop fuel n g = Some (rc, None, g') -> rc <> SYNX_SUCCESS.
Proof.
  revert n g. induction fuel as [|fuel IH]; intros n g; cbn [alloc_loop]; [done|].
  case_match; [by intros [= <- _]|]. destruct (bm_test_and_set _ _) as [prev bm].
  case_match; [by intros [=]|]. apply IH.
Qed.

Section create.
Context `{F : DmaFence} `{E : SynxEnv} `{C : SynxClientEnv} `{Laws : !DmaFenceLaws} {B : Prop}.
Implicit Types d : dev.
Abbreviation keeps := (keeps (B := B)).

(** ** An object without references *)

Definition freeable (X : list res) (p : Z) (d : dev) : Prop :=
  exists o, d_objs d !! p = Some o /\ o_reg_cbs o = [] /\ stored X d (RObj p) + cnt (RObj p) X <= 0.

Lemma keeps_free_obj L X d p :
  inv L X d -> freeable X p d -> keeps L (free_obj p d) d (fun _ => X) (fun _ _ => True).
Proof.
  intros Hi (o & Ho & Hreg & Hs). unfold free_obj. eapply keeps_get_obj; [exact Ho|].
  apply keeps_tt. eapply keeps_modify; [by apply ext_fields|]. apply keeps_ret; [|done].
  assert (Hi1 : inv L X (set_d_objs (<[p := set_o_refcount 0 o]> (d_objs d)) d)).
  { eapply inv_upd_same; [exact Hi|apply same_items_refl|exact Ho|by split; auto|done|exact Hs]. }
  eapply (inv_free_obj _ _ _ p) in Hi1; [|apply lookup_insert_eq|done|done].
  simpl in Hi1. by rewrite delete_insert_eq in Hi1.
Qed.

(** An object with its first reference. *)
Record newborn (p : Z) (o : synx_coredata) (d : dev) : Prop := mk_newborn {
  nb_live : d_objs d !! p = Some o;
  nb_ref : o_refcount o = 1;
  nb_reg : o_reg_cbs o = [];
  nb_sig : o_signal_cb o = None
}.

Lemma newborn_freeable L X d p o : inv L (RObj p :: X) d -> newborn p o d -> freeable X p d.
Proof.
  intros Hi [Ho Hr Hreg _]. exists o. split_and!; [done..|]. pose proof (proj2 Hi (RObj p) eq_refl) as H.
  rewrite stored_plain, cnt_cons_eq in H by done. simpl kref in H. rewrite Ho in H. cbn [from_option] in H. lia.
Qed.

Lemma newborn_objs p o d d' : newborn p o d -> d_objs d' = d_objs d -> newborn p o d'.
Proof. intros [] E1. split; by rewrite ?E1. Qed.

Lemma newborn_upd p o o' d :
  newborn p o d -> o_refcount o' = 1 -> o_reg_cbs o' = [] -> o_signal_cb o' = None ->
  newborn p o' (set_d_objs (<[p := o']> (d_objs d)) d).
Proof. intros _ H1 H2 H3. split; try done. apply lookup_insert_eq. Qed.

(** ** Handles of new objects *)

Lemma keeps_alloc_local L X d :
  inv L X d ->
  keeps L (synx_alloc_local_handle d) d (fun _ => X)
    (fun r d' => (exists bits, d' = set_d_bitmap bits d) /\
       (r.1 = SYNX_SUCCESS -> synx_util_global_idx r.2 < SYNX_MAX_OBJS)).
Proof.
  intros Hi. unfold synx_alloc_local_handle. apply keeps_gets.
  pose proof (free_handle_nonneg (d_bitmap d) SYNX_MAX_OBJS ltac:(done)) as Hn.
  destruct (synx_util_get_free_handle (d_bitmap d) SYNX_MAX_OBJS) as [idx bits]. simpl in Hn.
  eapply keeps_modify; [by apply ext_fields|].
  assert (Hi1 : inv L X (set_d_bitmap bits d)) by inv_same Hi.
  case_match; apply keeps_ret; try done; (split; [by eexists|]); [done|]. intros _. by apply encode_local.
Qed.

Lemma keeps_alloc_global L X d h0 :
  inv L X d -> B ->
  keeps L (synx_alloc_global_handle h0 d) d (fun _ => X)
    (fun r d' => gm_only d d' /\ (r.1 = SYNX_SUCCESS -> handle_ok r.2)).
Proof.
  intros Hi HB. unfold synx_alloc_global_handle.
  eapply (keeps_bind _ _ _ _ (fun _ => X) _ (fun r d' => gm_only d d' /\ (r.2 = None -> r.1 <> SYNX_SUCCESS))).
  { unfold global_alloc_index. destruct (synx_global_alloc_index _ _) as [[[rc idx] g]|] eqn:Ea; [|exact HB].
    split_and!; [|by apply ext_fields|by eexists|]; [inv_same Hi|]. simpl. intros ->.
    unfold synx_global_alloc_index in Ea. destruct (negb _); [by injection Ea as <- _|by eapply alloc_loop_none]. }
  intros [rc [idx|]] d1 Hi1 _ [G1 Hrc].
  2: { apply keeps_ret; [done|]. split; [done|]. intros H. by destruct (Hrc eq_refl). }
  destruct (rc =? SYNX_SUCCESS) eqn:E1; cbn [negb]; zbool; [|by apply keeps_ret].
  eapply keeps_bind; [by apply keeps_global|]. intros rc2 d2 Hi2 _ G2. apply keeps_ret; [done|].
  split; [exact (gm_only_trans _ _ _ G1 G2)|]. intros _. apply handle_ok_global.
Qed.

Lemma gm_only_mem d d' : gm_only d d' -> same_mem d d'.
Proof. intros [g ->]. split; simpl; done || lia. Qed.

(** The first step of the creation of an object. *)
Lemma keeps_new_handle L X d is_global h0 :
  inv L X d -> B -> h0 = 0 \/ synx_util_is_global_handle h0 = true ->
  keeps L ((if is_global && negb (h0 =? 0) then
              rc ← global (synx_global_get_ref (synx_util_global_idx h0));
              mret (rc, h0)
            else if is_global then synx_alloc_global_handle h0
            else '(rc, h) ← synx_alloc_local_handle;
                 mret (rc, if rc =? SYNX_SUCCESS then h else h0)) d) d (fun _ => X)
    (fun r d' => same_mem d d' /\ (r.1 = SYNX_SUCCESS -> handle_ok r.2 /\
       (is_global = false -> synx_util_global_idx r.2 < SYNX_MAX_OBJS))).
Proof.
  intros Hi HB H0. assert (Hh0 : handle_ok h0) by (destruct H0 as [->|H0]; [done|intros ?; congruence]).
  destruct is_global; cbn [andb].
  - destruct (h0 =? 0); cbn [negb].
    + eapply keeps_mono; [by apply keeps_alloc_global|]. intros [rc h] d1 Hi1 _ [G1 H1]. split; [done|].
      split; [by apply gm_only_mem|]. intros Hrc. split; [auto|done].
    + eapply keeps_bind; [by apply keeps_global|]. intros rc d1 Hi1 _ G1. apply keeps_ret; [done|].
      split; [by apply gm_only_mem|]. by intros _.
  - eapply keeps_bind; [by apply keeps_alloc_local|]. intros [rc h] d1 Hi1 _ [[bits ->] H1]. apply keeps_ret; [done|].
    split; [split; simpl; done || lia|]. simpl. intros Hrc. simpl in H1. rewrite Hrc in *. cbn. split; [|auto].
    intros _. auto.
Qed.

Lemma keeps_coredata_free L X d flags h :
  inv L X d ->
  (truthy (Z.land flags SYNX_CREATE_GLOBAL_FENCE) = false -> synx_util_global_idx h < SYNX_MAX_OBJS) ->
  keeps L (init_coredata_free flags h d) d (fun _ => X) (fun _ d' => d_objs d' = d_objs d).
Proof.
  intros Hi Hh. unfold init_coredata_free. destruct (truthy _).
  - eapply keeps_mono; [by apply keeps_global|]. by intros [] d1 Hi1 _ [g ->].
  - unfold clear_local_bit. apply keeps_guard; [apply Z.ltb_lt; auto|]. apply keeps_tt.
    eapply keeps_modify; [by apply ext_fields|]. apply keeps_ret; [|done]. inv_same Hi.
Qed.

(** A failure once the object has its first reference. *)
Lemma keeps_newborn_fail L X d p o flags h rc :
  inv L (RObj p :: X) d -> newborn p o d -> rc <> SYNX_SUCCESS ->
  (truthy (Z.land flags SYNX_CREATE_GLOBAL_FENCE) = false -> synx_util_global_idx h < SYNX_MAX_OBJS) ->
  keeps L ((init_coredata_free flags h ;; mret (rc, h)) d) d
    (fun r => if r.1 =? SYNX_SUCCESS then RObj p :: X else X)
    (fun r d' => if r.1 =? SYNX_SUCCESS then is_Some (d_objs d' !! p) /\ handle_ok r.2 else freeable X p d').
Proof.
  intros Hi Hn Hrc Hh. eapply keeps_bind; [by apply keeps_coredata_free|]. intros [] d1 Hi1 _ E1.
  apply keeps_ret; simpl; rewrite (proj2 (Z.eqb_neq rc _)) by done; [by apply (inv_forget _ (RObj p))|].
  eapply newborn_freeable; [exact Hi1|]. by eapply newborn_objs.
Qed.

(** ** Fences of new objects *)

Lemma unused_call f fs fs' : unused fs f -> call_step f fs [] fs' -> cbs fs' f = [].
Proof. intros [H _] [[_ _ Hc _] _ _]. destruct (Hc f) as [[-> _]|[-> _]]; done. Qed.

Lemma inv_call_none L X d f fs' :
  inv L X d -> call_step f (d_fences d) [] fs' -> f < d_next d -> inv L X (set_d_fences fs' d).
Proof. apply (inv_call L X d f []). Qed.

Lemma keeps_activate L X d p o :
  leafless L -> inv L X d -> d_objs d !! p = Some o -> cbs (d_fences d) (o_fence o) = [] ->
  keeps L (synx_util_activate p d) d (fun _ => X) (fun _ d' => fenced d d').
Proof.
  intros HL Hi Ho Hc. unfold synx_util_activate. eapply keeps_get_obj; [exact Ho|].
  pose proof (fence_enable_step (o_fence o) (d_fences d) Hc) as Hs.
  eapply keeps_run; [by apply fence_call_run; eapply leafless_fence|by eapply ext_call|]. apply keeps_ret; [|by eapply fenced_call].
  eapply (inv_call_none _ _ _ _ _ Hi Hs). by eapply (ob_fence _ _ _ _ _ (in_objs _ _ _ (proj1 Hi))).
Qed.

(** The object gets its fence. *)
Lemma inv_set_fence L X d p o f :
  inv L X d -> d_objs d !! p = Some o -> synx_util_is_merged_object o = false -> o_signal_cb o = None ->
  f < d_next d -> to_dma_fence_array (d_fences d) f = None ->
  inv L X (set_d_objs (<[p := set_o_fence f o]> (d_objs d)) d).
Proof.
  intros Hi Ho Hm Hs Hf Hn. eapply (inv_upd_obj L X X d p o (set_o_fence f o)); try done.
  - exact (ob_bound _ _ _ _ _ (in_objs _ _ _ (proj1 Hi)) p o Ho).
  - unfold synx_util_is_merged_object in *. simpl. congruence.
  - simpl. by rewrite Hs.
  - pose proof (proj2 Hi (RObj p) eq_refl) as H. simpl in *. rewrite Ho in H. simpl in H. lia.
Qed.

Lemma fence_find_none key l : (forall x, x ∈ l -> f_key x <> key) -> fence_find key l = None.
Proof.
  intros H. unfold fence_find. destruct (List.find _ l) as [x|] eqn:E1; [|done].
  apply List.find_some in E1 as [Hin Hk]. zbool. apply list_elem_of_In in Hin. by apply H in Hin.
Qed.

Lemma keeps_insert_fence_entry L X d e h g :
  leafless L -> inv L X d -> f_key e < d_next d ->
  keeps L (synx_util_insert_fence_entry e h g d) d (fun _ => X)
    (fun r d' => d_objs d' = d_objs d /\ d_fences d' = d_fences d /\
       ((forall x, x ∈ d_fence_map d -> f_key x <> f_key e) -> r = (SYNX_SUCCESS, h))).
Proof.
  intros HL Hi He. unfold synx_util_insert_fence_entry. eapply keeps_leaf; [done|leaf|exact Hi|]. intros Hi1.
  apply keeps_gets. destruct (fence_find _ _) as [x|] eqn:Ef.
  - apply keeps_ret; [done|]. split_and!; [done|done|]. intros Hn. simpl in Ef. rewrite (fence_find_none _ _ Hn) in Ef.
    done.
  - eapply keeps_modify; [by apply ext_fields|]. apply keeps_ret; [|done]. apply inv_fence_map; [done|].
    intros x. rewrite elem_of_cons. intros [->|Hx]; [done|]. by apply (fr_keys _ _ (in_fresh _ _ _ (proj1 Hi))).
Qed.

(** The status of the object is stored. *)
Lemma keeps_store_status L X d p o k (Y : Z * Z -> list res) Q :
  leafless L -> inv L X d -> d_objs d !! p = Some o ->
  (forall st, keeps L (k (set_d_objs (<[p := set_o_status st o]> (d_objs d)) d))
     (set_d_objs (<[p := set_o_status st o]> (d_objs d)) d) Y Q) ->
  keeps L ((st ← synx_util_get_object_status p; upd_obj p (set_o_status st) ;; k) d) d Y Q.
Proof.
  intros HL Hi Ho Hk.
  eapply keeps_read; [by apply (object_status_run p o false); [|intros _; eapply leafless_no_fence]|].
  eapply keeps_upd_obj; [exact Ho|]. apply Hk.
Qed.

Lemma inv_status L X d p o st :
  inv L X d -> d_objs d !! p = Some o -> inv L X (set_d_objs (<[p := set_o_status st o]> (d_objs d)) d).
Proof. intros Hi Ho. eapply inv_obj_frame; [exact Hi|exact Ho|by split; auto|done]. Qed.

Lemma keeps_init_own L X d p o flags h :
  leafless L -> inv L (RObj p :: X) d -> newborn p o d -> synx_util_is_merged_object o = false -> handle_ok h ->
  (truthy (Z.land flags SYNX_CREATE_GLOBAL_FENCE) = false -> synx_util_global_idx h < SYNX_MAX_OBJS) ->
  keeps L (init_own_fence p flags h d) d
    (fun r => if r.1 =? SYNX_SUCCESS then RObj p :: X else X)
    (fun r d' => if r.1 =? SYNX_SUCCESS then is_Some (d_objs d' !! p) /\ handle_ok r.2 else freeable X p d').
Proof.
  intros HL Hi Hn Hm Hh Hidx. unfold init_own_fence. eapply keeps_kzalloc; [exact Hi| |].
  { intros d1 Hi1 Hs1. eapply keeps_newborn_fail; [done|eapply newborn_objs; [exact Hn|apply Hs1]|done|done]. }
  intros _ d1 Hi1 Hs1 _. eapply newborn_objs in Hn; [|apply Hs1]. eapply keeps_kzalloc; [exact Hi1| |].
  { intros d2 Hi2 Hs2. eapply keeps_newborn_fail; [done|eapply newborn_objs; [exact Hn|apply Hs2]|done|done]. }
  intros f d2 Hi2 Hs2 Hf. eapply newborn_objs in Hn; [|apply Hs2].
  pose proof (fz_next _ _ Hf) as Hfn. pose proof (fence_init_step f (d_fences d2) (fz_fence _ _ Hf)) as Hcs.
  pose proof (unused_call _ _ _ (fz_fence _ _ Hf) Hcs) as Hcb.
  eapply keeps_run; [done|by eapply ext_call|].
  pose proof (inv_call_none _ _ _ _ _ Hi2 Hcs ltac:(lia)) as Hi3.
  set (d3 := set_d_fences _ d2) in *. assert (Hn3 : newborn p o d3) by (by eapply newborn_objs).
  assert (Hnarr : to_dma_fence_array (d_fences d3) f = None).
  { simpl. rewrite (ca_array _ _ _ _ Hcs). apply (fz_fence _ _ Hf). }
  eapply keeps_upd_obj; [apply Hn3|].
  pose proof (inv_set_fence _ _ _ p o f Hi3 (nb_live _ _ _ Hn3) Hm (nb_sig _ _ _ Hn3) ltac:(simpl; lia) Hnarr) as Hi4.
  assert (Hn4 := newborn_upd p o (set_o_fence f o) d3 Hn3 (nb_ref _ _ _ Hn3) (nb_reg _ _ _ Hn3) (nb_sig _ _ _ Hn3)).
  set (d4 := set_d_objs _ d3) in *.
  eapply keeps_bind; [apply (keeps_activate L (RObj p :: X) d4 p (set_o_fence f o)); [done|exact Hi4|apply Hn4|exact Hcb]|].
  intros r5 d5 Hi5 _ G5. eapply newborn_objs in Hn4; [|apply (fd_objs _ _ G5)].
  assert (Hkey : forall x, x ∈ d_fence_map d5 -> f_key x <> f).
  { intros x. rewrite (fd_fmap _ _ G5). apply (fz_key _ _ Hf). }
  assert (Hf5 : f < d_next d5) by (rewrite (fd_next _ _ G5); simpl; lia).
  eapply keeps_kzalloc; [exact Hi5| |].
  - intros d6 Hi6 Hs6. eapply newborn_objs in Hn4; [|apply Hs6].
    eapply keeps_bind; [apply keeps_fence_put; [exact Hi6|pose proof (sm_next _ _ Hs6); lia]|]. intros [] d7 Hi7 _ G7.
    eapply keeps_newborn_fail; [done|eapply newborn_objs; [exact Hn4|apply G7]|done|done].
  - intros e d6 Hi6 Hs6 _. eapply newborn_objs in Hn4; [|apply Hs6]. cbn zeta.
    match goal with |- context [synx_util_insert_fence_entry ?x] => set (ent := x) end.
    assert (He : f_key ent = f) by (unfold ent; by destruct (truthy _)).
    eapply keeps_bind; [apply keeps_insert_fence_entry; [done|exact Hi6|pose proof (sm_next _ _ Hs6); lia]|].
    intros r d7 Hi7 _ (E7 & _ & Hr). rewrite Hr.
    2: { intros x. rewrite (sm_fence_map _ _ Hs6), He. apply Hkey. }
    cbn beta iota. apply keeps_guard; [done|]. eapply newborn_objs in Hn4; [|exact E7].
    eapply keeps_store_status; [done|exact Hi7|apply Hn4|]. intros st. apply keeps_ret; simpl.
    + apply inv_status; [done|apply Hn4].
    + rewrite lookup_insert_eq. split; [by eexists|done].
Qed.

(** ** The data of a new object *)

(** What the parameters of a creation must be: a handle that is given is global,
    a fence that is given exists and is not an array, and the flags are not those
    of a merge. *)
Record params_ok (params : synx_create_params) (d : dev) : Prop := mk_params_ok {
  pk_handle : cp_h_synx params = 0 \/ synx_util_is_global_handle (cp_h_synx params) = true;
  pk_fence : cp_fence params < d_next d;
  pk_plain : cp_fence params <> 0 -> to_dma_fence_array (d_fences d) (cp_fence params) = None;
  pk_flags : Z.land (cp_flags params) SYNX_CREATE_MERGED_FENCE = 0
}.

Definition unborn (X : list res) (p : Z) (d : dev) : Prop :=
  d_objs d !! p = Some zero_obj /\ stored X d (RObj p) + cnt (RObj p) X = 0.

Lemma unborn_mem X p d d' : same_mem d d' -> unborn X p d -> unborn X p d'.
Proof. intros Hs [H1 H2]. split; [by rewrite (sm_objs _ _ Hs)|]. simpl in *. by rewrite (sm_ents _ _ Hs), (sm_sigs _ _ Hs). Qed.

(** The first reference of a new object. *)
Lemma inv_first_ref L X d p o o' :
  inv L X d -> d_objs d !! p = Some o -> stored X d (RObj p) + cnt (RObj p) X = 0 -> same_obj o o' ->
  o_refcount o' = 1 -> inv L (RObj p :: X) (set_d_objs (<[p := o']> (d_objs d)) d).
Proof.
  intros Hi Ho H0 Hs Hr. eapply inv_upd_same; [exact Hi|by apply same_items_cons|exact Ho|exact Hs| |].
  - intros r _ Hne. rewrite cnt_cons_ne by done. lia.
  - rewrite cnt_cons_eq. lia.
Qed.

Lemma keeps_init_coredata L X d p params :
  leafless L -> inv L X d -> B -> unborn X p d -> params_ok params d ->
  keeps L (synx_util_init_coredata p params d) d
    (fun r => if r.1 =? SYNX_SUCCESS then RObj p :: X else X)
    (fun r d' => if r.1 =? SYNX_SUCCESS then is_Some (d_objs d' !! p) /\ handle_ok r.2 else freeable X p d').
Proof.
  intros HL Hi HB Hu [P1 P2 P4 P3]. unfold synx_util_init_coredata. cbn zeta.
  eapply keeps_bind; [by apply keeps_new_handle|]. intros [rc h] d1 Hi1 _ [Hs1 Hrc]. simpl in Hrc.
  pose proof (unborn_mem _ _ _ _ Hs1 Hu) as [Ho1 H01].
  eapply (keeps_bind _ _ _ _ (fun _ => X) _ (fun _ d2 => exists i,
    d2 = set_d_objs (<[p := set_o_global_idx i zero_obj]> (d_objs d1)) d1)).
  { destruct (truthy _) eqn:Eg; cbn [when].
    - apply keeps_tt. eapply keeps_upd_obj; [exact Ho1|]. apply keeps_ret; [|by eexists].
      eapply inv_obj_frame; [exact Hi1|exact Ho1|by split; auto|done].
    - apply keeps_ret; [done|]. exists 0. change (set_o_global_idx 0 zero_obj) with zero_obj.
      rewrite insert_id by done. by destruct d1. }
  intros [] d2 Hi2 _ [i ->]. set (o2 := set_o_global_idx i zero_obj) in *.
  match type of Hi2 with inv _ _ ?s => set (d2 := s) in * end.
  assert (Ho2 : d_objs d2 !! p = Some o2) by apply lookup_insert_eq.
  assert (H02 : stored X d2 (RObj p) + cnt (RObj p) X = 0) by exact H01.
  destruct (rc =? SYNX_SUCCESS) eqn:Erc; cbn [negb].
  2: { apply keeps_ret; simpl; rewrite Erc; [done|]. exists o2. split_and!; [done|done|]. by rewrite H02. }
  zbool. destruct (Hrc Erc) as [Hh Hidx]. eapply keeps_upd_obj; [exact Ho2|].
  match goal with |- context [<[p := ?o]> (d_objs d2)] => set (o3 := o) end.
  assert (Hm : synx_util_is_merged_object o3 = false).
  { unfold synx_util_is_merged_object. simpl. rewrite Z.lor_0_l. unfold truthy. by rewrite P3. }
  pose proof (inv_first_ref _ _ _ _ _ o3 Hi2 Ho2 H02 ltac:(split; auto) eq_refl) as Hi3.
  match type of Hi3 with inv _ _ ?s => set (d3 := s) in * end.
  assert (Hn3 : newborn p o3 d3) by (split; [apply lookup_insert_eq|done..]).
  destruct (truthy (Z.land (cp_flags params) SYNX_CREATE_DMA_FENCE)); [|by eapply keeps_init_own].
  destruct (cp_fence params =? 0) eqn:Ez.
  - eapply keeps_bind; [by apply keeps_coredata_free|]. intros [] d4 Hi4 _ E4. apply keeps_ret; simpl; rewrite Erc; [done|].
    rewrite E4. split; [by eexists; apply Hn3|done].
  - assert (Hf : cp_fence params < d_next d3) by (pose proof (sm_next _ _ Hs1); simpl; lia).
    eapply keeps_bind; [by apply keeps_fence_get|]. intros [] d4 Hi4 _ G4.
    eapply newborn_objs in Hn3; [|apply G4]. eapply keeps_upd_obj; [apply Hn3|].
    rewrite <- (fd_next _ _ G4) in Hf.
    assert (Hnarr : to_dma_fence_array (d_fences d4) (cp_fence params) = None).
    { zbool. rewrite (fd_array _ _ G4). simpl. rewrite (sm_fences _ _ Hs1). auto. }
    pose proof (inv_set_fence _ _ _ p o3 _ Hi4 (nb_live _ _ _ Hn3) Hm (nb_sig _ _ _ Hn3) Hf Hnarr) as Hi5.
    eapply keeps_store_status; [done|exact Hi5|apply lookup_insert_eq|]. intros st. apply keeps_ret; simpl.
    + by apply inv_status; [|apply lookup_insert_eq].
    + rewrite lookup_insert_eq. split; [by eexists|done].
Qed.

(** ** The callback on the fence *)

Lemma ext_add_callback f s d : ext d (set_d_fences (dma_fence_add_callback f s (d_fences d)).2 d).
Proof.
  apply ext_fields; try done. simpl. destruct (decide ((dma_fence_add_callback f s (d_fences d)).1 = 0)) as [H0|H0].
  - apply (fence_add_ok f s (d_fences d) H0).
  - apply (ca_array _ _ _ _ (fence_add_failed f s (d_fences d) H0)).
Qed.

Lemma keeps_add_callback L X d p h :
  leafless L -> inv L X d -> B -> is_Some (d_objs d !! p) ->
  keeps L (synx_util_add_callback p h d) d (fun _ => X) (fun _ _ => True).
Proof.
  intros HL Hi HB [o Ho]. unfold synx_util_add_callback. eapply keeps_kzalloc; [exact Hi| |].
  { intros d1 Hi1 _. by apply keeps_ret. }
  intros s d1 Hi1 Hs1 Hf. rewrite <- (sm_objs _ _ Hs1) in Ho.
  set (x := mk_sig h 0 0 (Some p) SYNX_SIGNAL_FROM_FENCE).
  eapply keeps_modify; [by apply ext_fields|]. eapply (inv_new_sig _ _ _ s x) in Hi1; [|done].
  eapply keeps_bind; [apply (keeps_get_object _ _ _ p Hi1); by eexists|].
  intros [] d2 Hi2 _ (o' & Ho' & ->). simpl in Ho'. rewrite Ho in Ho'. injection Ho' as <-.
  set (o1 := set_o_refcount (o_refcount o + 1) o) in *.
  eapply inv_perm in Hi2; [|apply perm_swap].
  match type of Hi2 with inv _ _ ?s => set (d2 := s) in * end.
  assert (Ho2 : d_objs d2 !! p = Some o1) by apply lookup_insert_eq.
  eapply keeps_get_obj; [exact Ho2|].
  assert (Hfn : o_fence o1 < d_next d2) by by eapply (ob_fence _ _ _ _ _ (in_objs _ _ _ (proj1 Hi2))).
  eapply keeps_run; [by apply fence_call_run; eapply leafless_fence|by apply ext_add_callback|].
  destruct (dma_fence_add_callback (o_fence o1) s (d_fences d2)) as [rc fs] eqn:Ea. cbn [fst snd].
  destruct (rc =? 0) eqn:Erc; cbn [negb]; zbool.
  - pose proof (fence_add_ok (o_fence o1) s (d_fences d2)) as Hadd. rewrite Ea in Hadd. cbn [fst snd] in Hadd.
    destruct (Hadd Erc) as (A1 & A2 & A3 & A4).
    assert (Hi3 : inv L X (set_d_fences fs d2)).
    { eapply (inv_add_callback L X d2 (o_fence o1) s x fs); try done. simpl. apply lookup_insert_eq. }
    eapply keeps_upd_obj; [exact Ho2|]. apply keeps_ret; [|done].
    eapply (inv_upd_obj L X X _ p o1 (set_o_signal_cb (Some s) o1)); try done.
    + exact (ob_bound _ _ _ _ _ (in_objs _ _ _ (proj1 Hi3)) p o1 Ho2).
    + exact (ob_merged _ _ _ _ _ (in_objs _ _ _ (proj1 Hi3)) p o1 Ho2).
    + exact (ob_plain _ _ _ _ _ (in_objs _ _ _ (proj1 Hi3)) p o1 Ho2).
    + intros s' [= <-] _ _. split.
      * change (s ∈ cbs fs (o_fence o1)). rewrite A4, elem_of_app. right. by left.
      * exists x. split; [|done]. simpl. apply lookup_insert_eq.
    + pose proof (proj2 Hi3 (RObj p) eq_refl) as H. unfold kref in H. change (d_objs (set_d_fences fs d2)) with (d_objs d2) in H.
      rewrite Ho2 in H. exact H.
  - pose proof (fence_add_failed (o_fence o1) s (d_fences d2)) as Hadd. rewrite Ea in Hadd. cbn [fst snd] in Hadd.
    pose proof (inv_call_none _ _ _ _ _ Hi2 (Hadd Erc) Hfn) as Hi3.
    eapply (keeps_bind _ _ _ _ (fun _ => RSig s :: RObj p :: X) _ (fun _ d' => gm_only (set_d_fences fs d2) d')).
    { assert (Hr : forall (z : Z), keeps L ((mret z : run dev Z) (set_d_fences fs d2)) (set_d_fences fs d2)
        (fun _ => RSig s :: RObj p :: X) (fun _ d' => gm_only (set_d_fences fs d2) d')).
      { intros z. apply keeps_ret; [exact Hi3|]. by exists (d_gm d2). }
      destruct (rc =? _); [|apply Hr]. destruct (synx_util_is_global_object o1); [|apply Hr].
      eapply keeps_read; [by apply (object_status_run p o1 false); [|intros _; eapply leafless_no_fence]|].
      by apply keeps_update_status. }
    intros rc' d4 Hi4 _ G4. eapply inv_perm in Hi4; [|apply perm_swap].
    eapply keeps_bind; [by apply keeps_put_object|]. intros [] d5 Hi5 _ _.
    assert (Hl : is_Some (d_sigs d5 !! s)).
    { apply (si_live _ _ _ _ (in_sigs _ _ _ (proj1 Hi5))). rewrite owned_sigs_cons. by left. }
    destruct Hl as [y Hy]. unfold free_sig. apply keeps_assoc. eapply keeps_get_sig; [exact Hy|].
    eapply keeps_modify; [by apply ext_fields|]. apply keeps_ret; [|done]. by apply inv_free_sig.
Qed.

(** ** [synx_native_create_core] *)

Lemma inv_live_next L X d p : inv L X d -> is_Some (d_objs d !! p) -> p < d_next d.
Proof.
  intros Hi [o Ho]. destruct (decide (d_next d <= p)) as [Hge|]; [|lia].
  by rewrite (fr_objs _ _ (in_fresh _ _ _ (proj1 Hi)) p Hge) in Ho.
Qed.

Lemma fresh_unborn L X d p :
  inv L X d -> fresh p d -> unborn X p (set_d_objs (<[p := zero_obj]> (d_objs d)) d).
Proof.
  intros Hi Hf. split; [apply lookup_insert_eq|]. exact (stored_fresh _ _ _ _ Hi (fz_objs _ _ Hf)).
Qed.

Lemma keeps_create_core L X d c params :
  leafless L -> inv L X d -> B -> RCli c ∈ X -> clean_items X = [] -> params_ok params d ->
  keeps L (synx_native_create_core c params d) d (fun _ => X) (fun _ _ => True).
Proof.
  intros HL Hi HB Hc Hcl Hp. unfold synx_native_create_core. eapply keeps_kzalloc; [exact Hi| |].
  { intros d1 Hi1 _. by apply keeps_ret. }
  intros p d1 Hi1 Hs1 Hf. eapply keeps_modify; [by apply ext_fields|].
  pose proof (fresh_unborn _ _ _ _ Hi1 Hf) as Hu. eapply (inv_new_obj _ _ _ p) in Hi1; [|done].
  set (d2 := set_d_objs _ d1) in *. assert (Hp2 : params_ok params d2).
  { destruct Hp as [P1 P2 P3 P4]. pose proof (sm_next _ _ Hs1). split; simpl; [done|lia| |done]. by rewrite (sm_fences _ _ Hs1). }
  eapply keeps_bind; [by apply keeps_init_coredata|]. intros [rc h] d3 Hi3 _ H3. cbn [fst snd] in *.
  unfold truthy. change SYNX_SUCCESS with 0 in *. destruct (rc =? 0); cbn [negb].
  2: { eapply keeps_bind; [by apply keeps_free_obj|]. intros [] d4 Hi4 _ _. by apply keeps_ret. }
  destruct H3 as [Hl3 Hh]. eapply keeps_bind; [by apply keeps_insert_to_map|].
  intros [e|] d4 Hi4 _ (Hq4 & _ & He4).
  2: { eapply keeps_bind; [by apply keeps_put_object|]. intros [] d5 Hi5 _ _. by apply keeps_ret. }
  destruct (He4 e eq_refl) as (m & Hm & Hmo & Hmk). rewrite <- (q_objs _ _ Hq4) in Hl3.
  eapply keeps_bind; [by apply keeps_add_callback|]. intros rc4 d5 Hi5 Hx5 _.
  assert (Hrel : forall d' (rc' : Z), inv L (REnt e :: X) d' ->
    keeps L ((synx_util_release_map_entry e ;; (mret (rc', h) : run dev (Z * Z))) d') d' (fun _ => X) (fun _ _ => True)).
  { intros d' rc' Hi'. eapply keeps_bind; [by apply (keeps_release_map_entry L X)|]. intros [] d6 Hi6 _ _. by apply keeps_ret. }
  destruct (negb (rc4 =? 0)); [by apply Hrel|].
  destruct (ex_ents _ _ Hx5 e m Hm) as (m' & Hm' & Hmo' & _).
  eapply keeps_bind; [eapply (keeps_init_handle L X d5 c p h e m'); [done|done|done|done|congruence]|].
  intros rc6 d6 Hi6 _ [Hle _]. cbn beta in Hi6. change SYNX_SUCCESS with 0 in *. destruct (rc6 <? 0) eqn:E6; zbool.
  - rewrite (proj2 (Z.eqb_neq rc6 0)) in Hi6 by lia. by apply Hrel.
  - rewrite (proj2 (Z.eqb_eq rc6 0)) in Hi6 by lia. by apply keeps_ret.
Qed.

End create.
