(* ===== verification/SynxSignalling.v ===== *)
(** * The synx client framework: signals

    Signalling an object, from a session, a fence or a message, and the
    functions that wait for one, keep the invariant. *)

From S2P Require Import Prelude Bitmap SynxGlobal SynxSignal SynxDev SynxUtil SynxClient SynxInv.
From S2P Require Import SynxRefs SynxOwn SynxMem SynxKeeps SynxHandles SynxObjects SynxCreate.

Section signalling.
Context `{F : DmaFence} `{E : SynxEnv} `{C : SynxClientEnv} `{Laws : !DmaFenceLaws} {B : Prop}.
Implicit Types d : dev.
Abbreviation keeps := (keeps (B := B)).

(** What the code holds in functions that leave the clean-up queue alone. *)
Definition busy (X : list res) : Prop := clean_items X = [] /\ forall p, RStale p ∉ X.

Lemma busy_cons r X :
  busy X -> match r with RClean _ | RStale _ => False | _ => True end -> busy (r :: X).
Proof.
  intros [H1 H2] Hr. split; [by rewrite clean_items_cons; destruct r|].
  intros p. rewrite elem_of_cons. intros [<-|Hin]; [done|]. by apply (H2 p).
Qed.

Lemma busy_nil : busy [].
Proof. split; [done|]. intros p. apply not_elem_of_nil. Qed.

Lemma busy_anchored X p d : busy X -> mapped p d -> anchored p X d.
Proof. intros [H _] Hm. by apply mapped_anchored. Qed.

Lemma mapped_live L X p d : inv L X d -> busy X -> mapped p d -> exists o, d_objs d !! p = Some o.
Proof.
  intros Hi Hb Hm. destruct (anchored_live _ _ _ p Hi) as (o & Ho & _); [by apply busy_anchored|eauto].
Qed.

(** A run that only reads, at the end. *)
Lemma keeps_known L {A} (m : run dev A) a d (Y : A -> list res) Q :
  m d = Ret a d -> inv L (Y a) d -> Q a d -> keeps L (m d) d Y Q.
Proof. intros H Hi HQ. unfold SynxRefs.keeps, good. rewrite H. split_and!; [done|apply ext_refl|done]. Qed.

(** ** The children of a merged object *)

Lemma get_fence_entry_run L X d key g :
  leafless L -> inv L X d -> exists h, synx_util_get_fence_entry key g d = Ret h d.
Proof.
  intros HL Hi. eexists. unfold synx_util_get_fence_entry. apply with_lock_read.
  - rewrite (in_held _ _ _ (proj1 Hi)). intros Hin. destruct (HL _ Hin) as [p [=]].
  - intros d' ->. done.
Qed.

(** The entry of a handle is looked up for its object. *)
Lemma keeps_peek L X d h {A} (kn : run dev A) (k : Z -> synx_map_entry -> run dev A) (Y : A -> list res) Q :
  leafless L -> inv L X d ->
  (forall d1, inv L X d1 -> ext d d1 -> quiet d d1 -> keeps L (kn d1) d1 Y Q) ->
  (forall e m d1, inv L (REnt e :: X) d1 -> ext d d1 -> quiet d d1 -> d_ents d1 !! e = Some m ->
     keeps L (k e m d1) d1 Y Q) ->
  keeps L ((r ← synx_util_get_map_entry h;
            match r with None => kn | Some e => m ← get_ent e; k e m end) d) d Y Q.
Proof.
  intros HL Hi Hn Hk. eapply keeps_bind; [by apply keeps_get_map_entry|].
  intros [e|] d1 Hi1 Hx1 (Hq & _ & He); [|by apply Hn].
  destruct (He e eq_refl) as (m & Hm & _). eapply keeps_get_ent; [exact Hm|]. by apply Hk.
Qed.

Lemma keeps_child_loop L X l : forall d acc,
  leafless L -> inv L X d -> (forall c, c ∈ acc -> mapped c d) ->
  keeps L (child_loop l acc d) d (fun _ => X) (fun r d' => quiet d d' /\ forall c, c ∈ r.2 -> mapped c d').
Proof.
  induction l as [|f l IH]; intros d acc HL Hi Hacc; cbn [child_loop].
  { apply keeps_ret; [done|]. split; [apply quiet_same|done]. }
  destruct (get_fence_entry_run L X d f 1 HL Hi) as [h Hh]. eapply keeps_read; [exact Hh|].
  eapply (keeps_peek L X d h); [done|done| |].
  - intros d1 Hi1 _ Hq. apply keeps_ret; [done|]. split; [done|]. intros c Hc. by apply elem_of_nil in Hc.
  - intros e m d1 Hi1 Hx1 Hq He. eapply keeps_bind; [by apply (keeps_release_map_entry L X)|].
    intros [] d2 Hi2 Hx2 [Hq2 _]. eapply keeps_mono; [apply (IH d2); [done|done|]|].
    + intros c. rewrite elem_of_app, list_elem_of_singleton. intros [Hc| ->].
      * eapply mapped_ext; [|exact Hx2]. eapply mapped_ext; [|exact Hx1]. auto.
      * eapply mapped_ext; [|exact Hx2]. by exists e, m.
    + intros r d3 Hi3 _ [Hq3 H3]. split; [done|]. split; [|done]. eapply quiet_then; [exact Hq|].
      by eapply quiet_then.
Qed.

Lemma keeps_get_child_coredata L X d p :
  leafless L -> inv L X d -> is_Some (d_objs d !! p) ->
  keeps L (synx_get_child_coredata p d) d (fun _ => X) (fun r d' => quiet d d' /\ forall c, c ∈ r.2 -> mapped c d').
Proof.
  intros HL Hi [o Ho]. unfold synx_get_child_coredata. eapply keeps_get_obj; [exact Ho|]. apply keeps_gets.
  assert (Hn : forall d' rc, quiet d d' -> inv L X d' ->
    keeps L ((mret (rc, []) : run dev (Z * list Z)) d') d' (fun _ => X)
      (fun r d' => quiet d d' /\ forall c, c ∈ r.2 -> mapped c d')).
  { intros d' rc Hq Hi'. apply keeps_ret; [done|]. split; [done|]. intros c Hc. by apply elem_of_nil in Hc. }
  destruct (to_dma_fence_array _ _) as [l|]; [|apply Hn; [apply quiet_same|done]].
  eapply keeps_kzalloc; [exact Hi| |].
  - intros d1 Hi1 Hs1. apply Hn; [by apply quiet_mem|done].
  - intros a d1 Hi1 Hs1 _. eapply keeps_mono; [apply (keeps_child_loop L X l d1 []); [done|done|]|].
    + intros c Hc. by apply elem_of_nil in Hc.
    + intros r d2 Hi2 _ [Hq Hc]. split; [done|]. split; [|done]. eapply quiet_then; [by apply quiet_mem|done].
Qed.

Lemma keeps_signal_child L X d child :
  leafless L -> inv L X d -> B -> busy X -> mapped child d ->
  keeps L (signal_child child d) d (fun _ => X) (fun _ d' => d_cbs d' = d_cbs d).
Proof.
  intros HL Hi HB Hb Hm. unfold signal_child. eapply keeps_lock; [exact Hi|done|]. intros Hi1.
  assert (Hm1 : mapped child (set_d_held (obj_lock child :: L) d)) by done.
  destruct (mapped_live _ _ _ _ Hi1 Hb Hm1) as [o Ho]. eapply keeps_get_obj; [exact Ho|].
  eapply keeps_read.
  { apply with_lock_read; [eapply leafless_fence; [|exact Hi1]; leaf|]. intros d' ->. by apply (object_status_run child o true). }
  case_match; [by apply keeps_ret|]. eapply keeps_bind; [by apply keeps_global|]. intros st d2 Hi2 _ [g ->].
  eapply keeps_bind; [apply keeps_native_signal_fence; [leaf|exact Hi2|by apply busy_anchored|apply Hb]|].
  intros rc d3 Hi3 _ Ec. by apply keeps_ret.
Qed.

Lemma keeps_signal_children L X l : forall d rc,
  leafless L -> inv L X d -> B -> busy X -> (forall c, c ∈ l -> mapped c d) ->
  keeps L (signal_children l rc d) d (fun _ => X) (fun _ d' => d_cbs d' = d_cbs d).
Proof.
  induction l as [|child l IH]; intros d rc HL Hi HB Hb Hm; cbn [signal_children]; [by apply keeps_ret|].
  destruct (mapped_live _ _ child _ Hi Hb) as [o Ho]; [apply Hm; by left|]. eapply keeps_get_obj; [exact Ho|].
  case_match; [by apply keeps_ret|].
  eapply keeps_bind; [apply keeps_signal_child; try done; apply Hm; by left|]. intros r d1 Hi1 Hx1 E1.
  eapply keeps_mono; [apply (IH d1); try done|].
  - intros c Hc. eapply mapped_ext; [|exact Hx1]. apply Hm. by right.
  - intros r2 d2 Hi2 _ E2. split; [done|congruence].
Qed.

Lemma keeps_native_signal_merged L X d p :
  leafless L -> inv L X d -> B -> busy X -> is_Some (d_objs d !! p) ->
  keeps L (synx_native_signal_merged_fence p d) d (fun _ => X) (fun _ d' => d_cbs d' = d_cbs d).
Proof.
  intros HL Hi HB Hb Ho. unfold synx_native_signal_merged_fence.
  eapply keeps_bind; [by apply keeps_get_child_coredata|]. intros [rc l] d1 Hi1 _ [Hq Hc]. cbn [fst snd] in *.
  destruct (negb _); [apply keeps_ret; [done|apply Hq]|].
  eapply keeps_mono; [by apply keeps_signal_children|]. intros r d2 Hi2 _ E2. split; [done|].
  rewrite E2. apply Hq.
Qed.

Lemma keeps_child_status_loop L X l : forall d st cst,
  leafless L -> inv L X d -> B -> busy X ->
  keeps L (child_status_loop l st cst d) d (fun _ => X) (fun _ d' => quiet d d').
Proof.
  induction l as [|f l IH]; intros d st cst HL Hi HB Hb; cbn [child_status_loop].
  { apply keeps_ret; [done|apply quiet_same]. }
  destruct (get_fence_entry_run L X d f 1 HL Hi) as [h1 Hh1]. eapply keeps_read; [exact Hh1|].
  assert (Hh2 : exists h, (if h1 =? 0 then synx_util_get_fence_entry f 0 else mret h1) d = Ret h d).
  { destruct (h1 =? 0); [by eapply get_fence_entry_run|by eexists]. }
  destruct Hh2 as [h Hh2]. eapply keeps_read; [exact Hh2|]. destruct (h =? 0); [by apply IH|].
  eapply (keeps_peek L X d h); [done|done| |].
  - intros d1 Hi1 _ Hq. by apply keeps_ret.
  - intros e m d1 Hi1 Hx1 Hq He. cbn zeta.
    eapply (keeps_bind _ _ _ _ (fun _ => REnt e :: X) _ (fun _ d' => quiet d d')).
    { eapply keeps_lock; [exact Hi1|done|]. intros Hi2.
      destruct (mapped_live _ _ (m_obj m) _ Hi2) as [o Ho]; [by apply busy_cons|by exists e, m|].
      eapply keeps_get_obj; [exact Ho|].
      assert (Hq' : forall d', quiet (set_d_held (obj_lock (m_obj m) :: L) d1) d' -> quiet d (set_d_held L d')).
      { intros d' []. eapply quiet_then; [exact Hq|]. by split. }
      destruct (synx_util_is_global_object o); [|apply keeps_ret; [done|apply Hq', quiet_same]].
      eapply keeps_mono; [by apply keeps_global|]. intros s d3 Hi3 _ [g ->]. split; [done|]. apply Hq'. by split. }
    intros s d2 Hi2 Hx2 Hq2. eapply keeps_bind; [by apply (keeps_release_map_entry L X)|].
    intros [] d3 Hi3 Hx3 [Hq3 _]. eapply keeps_mono; [by apply (IH d3)|]. intros r d4 Hi4 _ Hq4. split; [done|].
    eapply quiet_then; [exact Hq2|]. by eapply quiet_then.
Qed.

Lemma keeps_get_child_status L X d p :
  leafless L -> inv L X d -> B -> busy X -> is_Some (d_objs d !! p) ->
  keeps L (synx_get_child_status p d) d (fun _ => X) (fun _ d' => quiet d d').
Proof.
  intros HL Hi HB Hb [o Ho]. unfold synx_get_child_status. eapply keeps_get_obj; [exact Ho|]. apply keeps_gets.
  destruct (to_dma_fence_array _ _) as [l|]; [|apply keeps_ret; [done|apply quiet_same]].
  by apply keeps_child_status_loop.
Qed.

(** ** The handler of a signal *)

Definition held_opt (p : option Z) (X : list res) : Prop := forall q, p = Some q -> RObj q ∈ X.

Lemma keeps_custom_get_status L X d p st :
  leafless L -> inv L X d -> B -> busy X -> held_opt p X ->
  keeps L (synx_custom_get_status p st d) d (fun _ => X) (fun _ _ => True).
Proof.
  intros HL Hi HB Hb Hp. unfold synx_custom_get_status. destruct p as [p|]; [|by apply keeps_ret].
  specialize (Hp p eq_refl). destruct (held_obj _ _ _ p Hi Hp) as (o & Ho & _). eapply keeps_get_obj; [exact Ho|].
  eapply (keeps_bind _ _ _ _ (fun _ => X) _ (fun _ d' => gm_only d d')).
  { destruct (synx_util_is_global_object o); [by apply keeps_global|]. apply keeps_ret; [done|]. by exists (d_gm d); destruct d. }
  intros gst d1 Hi1 _ [g ->]. eapply keeps_lock; [exact Hi1|done|]. intros Hi2.
  eapply (keeps_bind _ _ _ _ (fun _ => X) _ (fun _ d' => is_Some (d_objs d' !! p))).
  2: { intros [] d3 Hi3 _ [o3 Ho3]. eapply keeps_get_obj; [exact Ho3|]. by apply keeps_ret. }
  destruct (synx_util_is_merged_object o); cbn [when]; [|by apply keeps_ret; [|eexists]].
  eapply (keeps_bind _ _ _ _ (fun _ => X) _ (fun _ d' => is_Some (d_objs d' !! p))).
  { destruct (gst =? SYNX_STATE_ACTIVE); [|by apply keeps_ret; [|eexists]].
    eapply keeps_mono; [apply keeps_get_child_status; [leaf|exact Hi2|done|done|by eexists]|].
    intros st' d3 Hi3 _ Hq. split; [done|]. rewrite (q_objs _ _ Hq). by eexists. }
  intros st' d3 Hi3 _ [o3 Ho3]. apply keeps_tt. eapply keeps_upd_obj; [exact Ho3|]. apply keeps_ret.
  - by apply inv_status.
  - simpl. rewrite lookup_insert_eq. by eexists.
Qed.

Lemma keeps_handler_global L X d s st :
  inv L X d -> B -> held_opt (s_obj s) X ->
  keeps L (handler_global s st d) d (fun _ => X) (fun _ _ => True).
Proof.
  intros Hi HB Hp. unfold handler_global.
  assert (Hrd : exists b, (match s_obj s with
    | None => mret false | Some p => o ← get_obj p; mret (synx_util_is_global_object o) end) d = Ret b d /\
    exists i, (match s_obj s with
    | None => mret (synx_util_global_idx (s_handle s)) | Some p => o ← get_obj p; mret (o_global_idx o) end) d = Ret i d).
  { destruct (s_obj s) as [p|]; [|by eexists; split; [|eexists]].
    destruct (held_obj _ _ _ p Hi (Hp p eq_refl)) as (o & Ho & _). unfold get_obj, gets, mbind, run_bind. rewrite Ho.
    eexists. split; [done|]. by eexists. }
  destruct Hrd as (b & Hb & i & Hidx). eapply keeps_read; [exact Hb|]. cond; [by apply keeps_ret|].
  eapply keeps_read; [exact Hidx|]. eapply keeps_bind; [by apply keeps_global|]. intros st1 d1 Hi1 _ _.
  eapply (keeps_bind _ _ _ _ (fun _ => X) _ (fun _ _ => True)).
  { destruct (st1 =? SYNX_STATE_ACTIVE); [|by apply keeps_ret].
    eapply keeps_mono; [by apply keeps_update_status|done]. }
  intros rc d2 Hi2 _ _. eapply (keeps_bind _ _ _ _ (fun _ => X) _ (fun _ _ => True)).
  { destruct (match s_obj s with None => true | Some _ => false end); cbn [when]; [|by apply keeps_ret].
    eapply keeps_mono; [by apply keeps_global|done]. }
  intros [] d3 Hi3 _ _. by apply keeps_ret.
Qed.

Lemma keeps_native_signal_core L X d p st b id :
  inv L X d -> is_Some (d_objs d !! p) ->
  keeps L (synx_native_signal_core p st b id d) d (fun _ => X) (fun _ _ => True).
Proof.
  intros Hi [o Ho]. unfold synx_native_signal_core.
  eapply keeps_bind; [by apply (keeps_callback_dispatch L X d p o)|]. intros [] d1 Hi1 _ ((o1 & Ho1 & ->) & _).
  eapply keeps_get_obj; [exact Ho1|].
  rewrite (ob_bound _ _ _ _ _ (in_objs _ _ _ (proj1 Hi1)) p _ Ho1). cbn [Z.gtb Z.compare].
  eapply keeps_read; [done|]. eapply keeps_read; [done|]. by apply keeps_ret.
Qed.

Lemma keeps_handler_locked X d p s st :
  inv [] X d -> B -> busy X -> RObj p ∈ X ->
  keeps [] (handler_locked p s st d) d (fun _ => X) (fun _ _ => True).
Proof.
  intros Hi HB Hb Hp. unfold handler_locked. eapply keeps_lock; [exact Hi|done|]. intros Hi1.
  assert (HL : leafless [obj_lock p]) by leaf. set (L := [obj_lock p]) in *.
  destruct (held_obj _ _ _ p Hi1 Hp) as (o & Ho & _).
  eapply keeps_read; [by apply (object_status_run p o false); [|intros _; eapply leafless_no_fence]|].
  eapply (keeps_bind _ _ _ _ (fun _ => X) _ (fun _ _ => True)).
  { cond; [|by apply keeps_ret]. eapply keeps_get_obj; [exact Ho|]. destruct (synx_util_is_merged_object o).
    - eapply keeps_mono; [apply keeps_native_signal_merged; try done; by eexists|done].
    - eapply keeps_mono; [apply keeps_native_signal_fence; try done; [by left|apply Hb]|done]. }
  intros rc d2 Hi2 _ _. cond; [by apply keeps_ret|].
  destruct (held_obj _ _ _ p Hi2 Hp) as (o2 & Ho2 & _).
  eapply keeps_read; [by apply (object_status_run p o2 false); [|intros _; eapply leafless_no_fence]|].
  cond; [|by apply keeps_ret]. eapply keeps_mono; [apply keeps_native_signal_core; [done|by eexists]|done].
Qed.

Lemma keeps_free_sig L X d s :
  inv L (RSig s :: X) d -> keeps L (free_sig s d) d (fun _ => X) (fun _ _ => True).
Proof.
  intros Hi. assert (Hl : is_Some (d_sigs d !! s)).
  { apply (si_live _ _ _ _ (in_sigs _ _ _ (proj1 Hi))). rewrite owned_sigs_cons. by left. }
  destruct Hl as [x Hx]. unfold free_sig. eapply keeps_get_sig; [exact Hx|]. apply keeps_tt.
  eapply keeps_modify; [by apply ext_fields|]. apply keeps_ret; [|done]. by apply inv_free_sig.
Qed.

Lemma keeps_signal_handler X d s w :
  inv [] (RWork w :: X) d -> sig_work s w -> B -> busy X ->
  keeps [] (synx_signal_handler s d) d (fun _ => X) (fun _ _ => True).
Proof.
  intros Hi Hw HB Hb. unfold synx_signal_handler.
  assert (Hl : is_Some (d_sigs d !! s)).
  { apply (si_live _ _ _ _ (in_sigs _ _ _ (proj1 Hi))).
    apply (work_owned s w); [done|]. rewrite works_cons. by left. }
  destruct Hl as [x Hx]. eapply keeps_get_sig; [exact Hx|].
  eapply inv_open_sig in Hi; [|exact Hw|exact Hx]. set (Y := RSig s :: sig_objs x ++ X) in *.
  assert (HbY : busy Y).
  { unfold Y, sig_objs. apply busy_cons; [|done]. destruct (s_obj x); [by apply busy_cons|done]. }
  assert (Hp : held_opt (s_obj x) Y).
  { intros q Hq. unfold Y, sig_objs. rewrite Hq. right. by left. }
  eapply (keeps_bind _ _ _ _ (fun _ => Y) _ (fun _ _ => True)).
  { cond; [|by apply keeps_ret]. by apply keeps_custom_get_status; [leaf|..]. }
  intros st d1 Hi1 _ _. eapply keeps_bind; [by apply keeps_handler_global|]. intros rc d2 Hi2 _ _.
  destruct (s_obj x) as [p|] eqn:Ex.
  2: { apply keeps_free_sig. unfold Y, sig_objs in Hi2. by rewrite Ex in Hi2. }
  specialize (Hp p eq_refl). eapply (keeps_bind _ _ _ _ (fun _ => Y) _ (fun _ _ => True)).
  { cond; [|by apply keeps_ret]. eapply keeps_bind; [by apply keeps_handler_locked|].
    intros r d3 Hi3 _ _. by apply keeps_ret. }
  intros [] d3 Hi3 _ _. unfold Y, sig_objs in Hi3. rewrite Ex in Hi3.
  eapply inv_perm in Hi3; [|apply perm_swap].
  eapply keeps_bind; [by apply keeps_put_object; [leaf|]|]. intros [] d4 Hi4 _ _. by apply keeps_free_sig.
Qed.

(** ** Messages *)

Lemma keeps_ipc_handler X d s :
  inv [] (RWork (WIpc s) :: X) d -> B -> busy X ->
  keeps [] (synx_ipc_handler s d) d (fun _ => X) (fun _ _ => True).
Proof.
  intros Hi HB Hb. unfold synx_ipc_handler.
  assert (Hl : is_Some (d_sigs d !! s)).
  { apply (si_live _ _ _ _ (in_sigs _ _ _ (proj1 Hi))). rewrite owned_sigs_cons. by left. }
  destruct Hl as [x Hx].
  assert (Hno : s_obj x = None).
  { apply (si_ipc _ _ _ _ (in_sigs _ _ _ (proj1 Hi)) s x); [|done]. rewrite works_cons. by left. }
  eapply keeps_get_sig; [exact Hx|]. eapply inv_open_sig in Hi; [|by right|exact Hx].
  unfold sig_objs in Hi. rewrite Hno in Hi. cbn [app] in Hi.
  eapply (keeps_peek [] (RSig s :: X)); [leaf|exact Hi| |].
  - intros d1 Hi1 _ _. by apply keeps_free_sig.
  - intros e m d1 Hi1 Hx1 Hq He.
    destruct (mapped_live _ _ (m_obj m) _ Hi1) as [o Ho].
    { apply busy_cons; [by apply busy_cons|done]. }
    { by exists e, m. }
    eapply keeps_bind; [apply (keeps_get_object _ _ _ _ Hi1); by eexists|].
    intros [] d2 Hi2 _ (o' & _ & ->). rewrite <- (q_sigs _ _ Hq) in Hx. eapply keeps_upd_sig; [exact Hx|].
    set (y := set_s_obj _ x).
    eapply (inv_perm _ _ (RSig s :: RObj (m_obj m) :: REnt e :: X)) in Hi2; [|solve_Permutation].
    eapply (inv_upd_sig _ _ _ s x y) in Hi2; [|exact Hx].
    eapply (inv_close_sig [] (REnt e :: X) _ s (WSignal s) y) in Hi2;
      [|by left|apply lookup_insert_eq|done].
    eapply inv_perm in Hi2; [|apply perm_swap].
    eapply keeps_bind; [by apply (keeps_release_map_entry [] (RWork (WSignal s) :: X)); [leaf|]|].
    intros [] d3 Hi3 _ _. eapply keeps_signal_handler; [exact Hi3|by left|done|done].
Qed.

(** ** Signals of sessions *)

Lemma keeps_offload L X d p h st :
  inv L X d -> is_Some (d_objs d !! p) ->
  keeps L (synx_signal_offload_job p h st d) d (fun _ => X)
    (fun _ d' => d_cbs d' = d_cbs d /\ is_Some (d_objs d' !! p)).
Proof.
  intros Hi [o Ho]. unfold synx_signal_offload_job. eapply keeps_kzalloc; [exact Hi| |].
  { intros d1 Hi1 Hs1. apply keeps_ret; [done|]. rewrite (sm_cbs _ _ Hs1), (sm_objs _ _ Hs1). split; [done|by eexists]. }
  intros s d1 Hi1 Hs1 Hf. rewrite <- (sm_objs _ _ Hs1) in Ho.
  eapply keeps_bind; [apply (keeps_get_object _ _ _ _ Hi1); by eexists|]. intros [] d2 Hi2 _ (o' & Ho' & ->).
  eapply keeps_modify; [by apply ext_fields|]. set (x := mk_sig h st 0 (Some p) SYNX_SIGNAL_FROM_CLIENT).
  assert (Hf2 : fresh s (set_d_objs (<[p := set_o_refcount (o_refcount o' + 1) o']> (d_objs d1)) d1)).
  { destruct Hf. split; try done. simpl. rewrite lookup_insert_ne; [done|]. intros ->. congruence. }
  eapply (inv_new_sig _ _ _ s x) in Hi2; [|exact Hf2].
  eapply (inv_close_sig L X _ s (WSignal s) x) in Hi2; [|by left|apply lookup_insert_eq|done].
  eapply keeps_modify; [by apply ext_fields|]. apply keeps_ret.
  - apply inv_queue_cb; [done|]. by intros c y [=].
  - simpl. rewrite (sm_cbs _ _ Hs1), lookup_insert_eq. split; [done|by eexists].
Qed.

Lemma keeps_offload_obj L X d p o h st :
  inv L X d -> d_objs d !! p = Some o ->
  keeps L (synx_signal_offload_job p h st d) d (fun _ => X)
    (fun _ d' => d_fences d' = d_fences d /\ exists r, d_objs d' !! p = Some (set_o_refcount r o)).
Proof.
  intros Hi Ho. eapply keeps_mono.
  - apply (keeps_also L _ d (fun _ => X) (fun _ d' => d_cbs d' = d_cbs d /\ is_Some (d_objs d' !! p))
      (fun _ d' => d_fences d' = d_fences d /\ exists r, d_objs d' !! p = Some (set_o_refcount r o))).
    + apply keeps_offload; [exact Hi|by eexists].
    + unfold synx_signal_offload_job, kzalloc, synx_util_get_object, upd_obj, get_obj, gets, mbind, run_bind. destruct (kzalloc_answer (d_allocs d)).
      * simpl. rewrite Ho. simpl. split; [done|]. exists (o_refcount o + 1). apply lookup_insert_eq.
      * simpl. split; [done|]. exists (o_refcount o). by destruct o.
  - intros rc d' Hi' _ [_ H]. done.
Qed.

(** A function of a session on the object of one of its handles. *)
Lemma keeps_on_object X {A} s h (fail : A) (body : Z -> Z -> run dev A) d :
  inv [] X d -> busy X ->
  (forall hd p o d1, inv [] (RHdl hd :: RCli s :: X) d1 -> busy (RHdl hd :: RCli s :: X) -> mapped p d1 ->
     d_objs d1 !! p = Some o -> d_next d <= d_next d1 ->
     keeps [] (body s p d1) d1 (fun _ => RHdl hd :: RCli s :: X) (fun _ _ => True)) ->
  keeps [] (with_session s fail (fun c => with_object c h fail (body c)) d) d (fun _ => X) (fun _ _ => True).
Proof.
  intros Hi Hb Hk. eapply (keeps_with_session [] X); [leaf|exact Hi|done|]. intros d1 Hi1 Hx1 _.
  eapply keeps_mono; [apply (keeps_with_object [] (RCli s :: X)); [leaf|exact Hi1|by left|]|done].
  intros hd p d2 Hi2 Hx2 _ Hm.
  assert (Hb2 : busy (RHdl hd :: RCli s :: X)) by (apply busy_cons; [by apply busy_cons|done]).
  destruct (mapped_live _ _ _ _ Hi2 Hb2 Hm) as [o Ho]. eapply Hk; try done.
  pose proof (ex_next _ _ Hx1). pose proof (ex_next _ _ Hx2). lia.
Qed.

Lemma keeps_signal X d s h st :
  inv [] X d -> busy X -> B -> keeps [] (synx_signal s h st d) d (fun _ => X) (fun _ _ => True).
Proof.
  intros Hi Hb HB. unfold synx_signal.
  destruct (negb (client_status st)); [eapply (keeps_with_session [] X); [leaf|exact Hi|done|]; intros; by apply keeps_ret|].
  apply keeps_on_object; [done|done|]. intros hd p o d2 Hi2 Hb2 Hm Ho _. eapply keeps_get_obj; [exact Ho|].
  cond; [by apply keeps_ret|]. unfold signal_locked. eapply keeps_lock; [exact Hi2|done|]. intros Hi3.
  eapply keeps_get_obj; [exact Ho|]. set (Y := RHdl hd :: RCli s :: X) in *.
  eapply (keeps_bind _ _ _ _ (fun _ => Y) _ (fun _ d' => d_objs d' = d_objs d2 /\ d_ents d' = d_ents d2)).
  { cond; [|by apply keeps_ret]. eapply keeps_mono; [by apply keeps_update_status|].
    by intros rc d4 Hi4 _ [g ->]. }
  intros rc d4 Hi4 Hx4 [E4 E5]. cond; [by apply keeps_ret|].
  eapply (keeps_bind _ _ _ _ (fun _ => Y) _ (fun _ d' => True)).
  { cond; [|by apply keeps_ret].
    eapply keeps_bind; [apply keeps_offload; [exact Hi4|rewrite E4; by eexists]|].
    intros r d5 Hi5 _ _. by apply keeps_ret. }
  intros [] d5 Hi5 Hx5 _. eapply keeps_mono; [apply keeps_native_signal_fence; [leaf|exact Hi5| |apply Hb2]|done].
  apply busy_anchored; [done|]. eapply mapped_ext; [|exact Hx5]. eapply mapped_ext; [|exact Hx4]. done.
Qed.

(** ** Waiting *)

Lemma keeps_signal_settled L X d p st :
  leafless L -> inv L X d -> B -> busy X -> mapped p d ->
  keeps L (signal_settled p st d) d (fun _ => X) (fun _ d' => d_cbs d' = d_cbs d).
Proof.
  intros HL Hi HB Hb Hm. unfold signal_settled. cond; [by apply keeps_ret|].
  destruct (mapped_live _ _ _ _ Hi Hb Hm) as [o Ho]. eapply keeps_get_obj; [exact Ho|].
  destruct (synx_util_is_merged_object o).
  - eapply keeps_bind; [by apply keeps_native_signal_merged|]. intros rc d1 Hi1 _ E1. by apply keeps_ret.
  - eapply keeps_bind; [by apply keeps_native_signal_fence; [..|apply busy_anchored|apply Hb]|].
    intros rc d1 Hi1 _ E1. by apply keeps_ret.
Qed.

Lemma keeps_wait X d s h ms :
  inv [] X d -> busy X -> B -> keeps [] (synx_wait s h ms d) d (fun _ => X) (fun _ _ => True).
Proof.
  intros Hi Hb HB. unfold synx_wait. apply keeps_on_object; [done|done|]. intros hd p o d2 Hi2 Hb2 Hm Ho _.
  eapply keeps_get_obj; [exact Ho|].
  cond; [by apply keeps_ret|]. set (Y := RHdl hd :: RCli s :: X) in *.
  eapply (keeps_bind _ _ _ _ (fun _ => Y) _ (fun _ d' => True)).
  { destruct (synx_util_is_global_handle h); cbn [when]; [|by apply keeps_ret].
    eapply keeps_bind; [by apply keeps_global|]. intros rc d3 Hi3 _ [g ->].
    destruct (negb _); cbn [when]; [|by apply keeps_ret].
    eapply keeps_lock; [exact Hi3|done|]. intros Hi4. eapply keeps_mono; [by apply keeps_signal_settled; [leaf|..]|done]. }
  intros [] d3 Hi3 Hx3 _. apply keeps_gets. cond; [by apply keeps_ret|].
  eapply keeps_lock; [exact Hi3|done|]. intros Hi4.
  destruct (mapped_live _ _ p _ Hi4 Hb2) as [o4 Ho4]; [exact (mapped_ext p d2 d3 Hm Hx3)|].
  eapply keeps_known; [by apply (object_status_run p o4 false); [|intros _; eapply leafless_no_fence; [|exact Hi4]; leaf]|done..].
Qed.

End signalling.
