(* ===== verification/SynxWaiters.v ===== *)
(** * The synx client framework: callbacks of sessions, creation and import

    Registering, cancelling and delivering callbacks, timers, and the events
    that a session reads keep the invariant; so do creating an object and
    importing handles and fences. *)

From S2P Require Import Prelude Bitmap SynxGlobal SynxSignal SynxDev SynxUtil SynxClient SynxInv.
From S2P Require Import SynxRefs SynxOwn SynxMem SynxKeeps SynxHandles SynxObjects SynxCreate.
From S2P Require Import SynxSignalling.

Section waiters.
Context `{F : DmaFence} `{E : SynxEnv} `{C : SynxClientEnv} `{Laws : !DmaFenceLaws} {B : Prop}.
Implicit Types d : dev.
Abbreviation keeps := (keeps (B := B)).

(** ** The table of a client *)

(** An entry that the invariant allows in the table of client [c]. *)
Definition entry_ok (c : Z) (k : synx_client_cb) : Prop :=
  (k_valid k = true -> is_Some (k_func k)) /\ (k_client k = None \/ k_client k = Some c).

Lemma client_step_table c cl i k :
  entry_ok c k -> client_step c cl (set_cl_cb_table (zupd (cl_cb_table cl) i k) cl).
Proof.
  intros Hk. split; simpl; [done|apply length_zupd| |auto].
  intros j k' Hj. unfold zupd in Hj. destruct (i <? 0); [auto|].
  apply list_lookup_insert_Some in Hj as [(_ & <- & _)|[_ Hj]]; auto.
Qed.

Lemma client_step_bits c cl bits : client_step c cl (set_cl_cb_bitmap bits cl).
Proof. split; auto. Qed.

Lemma client_step_event c cl q :
  (forall i, i ∈ q -> i ∈ cl_event_q cl \/ i < SYNX_MAX_OBJS) -> client_step c cl (set_cl_event_q q cl).
Proof. intros Hq. split; auto. Qed.

Lemma inv_cli_frame L X d c cl cl' :
  inv L X d -> d_clients d !! c = Some cl -> client_step c cl cl' -> cl_refcount cl' = cl_refcount cl ->
  cl_active cl' = cl_active cl -> inv L X (set_d_clients (<[c := cl']> (d_clients d)) d).
Proof.
  intros Hi Hc Hs H1 H2. pose proof (proj2 Hi (RCli c) eq_refl) as H. simpl in H. rewrite Hc in H. simpl in H.
  eapply (inv_upd_cli L X X); try done; [auto|]. by rewrite H1, H2.
Qed.

Lemma keeps_upd_client L X d c f {A} (k : run dev A) (Y : A -> list res) Q :
  inv L X d -> RCli c ∈ X ->
  (forall cl, d_clients d !! c = Some cl ->
     client_step c cl (f cl) /\ cl_refcount (f cl) = cl_refcount cl /\ cl_active (f cl) = cl_active cl) ->
  (forall cl, d_clients d !! c = Some cl ->
     let d' := set_d_clients (<[c := f cl]> (d_clients d)) d in inv L X d' -> keeps L (k d') d' Y Q) ->
  keeps L ((upd_cli c f ;; k) d) d Y Q.
Proof.
  intros Hi Hc Hf Hk. destruct (held_cli _ _ _ c Hi Hc) as (cl & Hcl & _).
  destruct (Hf cl Hcl) as (H1 & H2 & H3). eapply keeps_upd_cli; [exact Hcl|]. apply (Hk cl Hcl). by eapply inv_cli_frame.
Qed.

(** The entry of an index below the size of the table. *)
Lemma table_entry L X d c cl i :
  inv L X d -> d_clients d !! c = Some cl -> i < SYNX_MAX_OBJS ->
  exists k, cl_cb_table cl !! Z.to_nat i = Some k /\ entry_ok c k.
Proof.
  intros Hi Hc Hlt. pose proof (in_clients _ _ _ (proj1 Hi)) as [_ C2 C3 _].
  destruct (lookup_lt_is_Some_2 (cl_cb_table cl) (Z.to_nat i)) as [k Hk].
  { rewrite (C2 c cl Hc). unfold SYNX_MAX_OBJS, SYNX_GLOBAL_MAX_OBJS in *. lia. }
  exists k. split; [done|]. by eapply C3.
Qed.

Lemma quiet_set_clients cls d : quiet d (set_d_clients cls d).
Proof. by split. Qed.

Lemma keeps_alloc_cb_entry L X d c h data f :
  inv L X d -> RCli c ∈ X ->
  keeps L (synx_util_alloc_cb_entry c h data f d) d (fun _ => X) (fun _ d' => quiet d d').
Proof.
  intros Hi Hc. unfold synx_util_alloc_cb_entry. destruct (held_cli _ _ _ c Hi Hc) as (cl & Hcl & _).
  eapply keeps_get_cli; [exact Hcl|]. destruct (synx_util_get_free_handle _ _) as [idx bits].
  eapply keeps_upd_client; [exact Hi|exact Hc| |].
  { intros cl1 Hcl1. by split_and!; [apply client_step_bits|..]. }
  intros cl1 Hcl1 d1 Hi1. cond; [apply keeps_ret; [done|by split]|].
  eapply keeps_upd_client; [exact Hi1|exact Hc| |].
  { intros cl2 Hcl2. split_and!; [|done..]. apply client_step_table. split; simpl; [eauto|auto]. }
  intros cl2 Hcl2 d2 Hi2. apply keeps_ret; [done|by split].
Qed.

Lemma keeps_clear_cb_entry L X d c i :
  inv L X d -> RCli c ∈ X -> i < SYNX_MAX_OBJS ->
  keeps L (synx_util_clear_cb_entry c i d) d (fun _ => X) (fun _ d' => quiet d d').
Proof.
  intros Hi Hc Hlt. unfold synx_util_clear_cb_entry. destruct (held_cli _ _ _ c Hi Hc) as (cl & Hcl & _).
  destruct (table_entry _ _ _ _ _ _ Hi Hcl Hlt) as (k & Hk & _).
  eapply keeps_get_cli; [exact Hcl|]. eapply keeps_deref; [exact Hk|]. cbn zeta.
  eapply keeps_upd_client; [exact Hi|exact Hc| |].
  { intros cl1 Hcl1. rewrite Hcl in Hcl1. injection Hcl1 as <-.
    split_and!; [|done..]. apply client_step_table. split; simpl; [done|auto]. }
  intros cl1 Hcl1 d1 Hi1. cond; [|apply keeps_ret; [done|by split]].
  eapply keeps_upd_client; [exact Hi1|exact Hc| |].
  { intros cl2 Hcl2. by split_and!; [apply client_step_bits|..]. }
  intros cl2 Hcl2 d2 Hi2. apply keeps_ret; [done|by split].
Qed.

(** ** Delivery *)

Lemma keeps_default_callback L X d c i st :
  leafless L -> inv L X d -> RCli c ∈ X -> i < SYNX_MAX_OBJS ->
  keeps L (synx_util_default_user_callback c i st d) d (fun _ => X) (fun _ d' => quiet d d').
Proof.
  intros HL Hi Hc Hlt. unfold synx_util_default_user_callback. destruct (held_cli _ _ _ c Hi Hc) as (cl & Hcl & _).
  destruct (table_entry _ _ _ _ _ _ Hi Hcl Hlt) as (k & Hk & He).
  eapply keeps_get_cli; [exact Hcl|]. eapply keeps_deref; [exact Hk|].
  destruct (k_client k) as [c'|] eqn:Ek; [|apply keeps_ret; [done|apply quiet_same]].
  assert (c' = c) as -> by (destruct He as [_ [|]]; congruence).
  eapply keeps_upd_client; [exact Hi|exact Hc| |].
  { intros cl1 Hcl1. split_and!; [|done..]. by apply client_step_table. }
  intros cl1 Hcl1 d1 Hi1. eapply keeps_leaf; [done|leaf|exact Hi1|]. intros Hi2. apply keeps_tt.
  eapply keeps_upd_client; [exact Hi2|exact Hc| |].
  { intros cl2 Hcl2. split_and!; [|done..]. apply client_step_event. intros j.
    rewrite elem_of_app, list_elem_of_singleton. intros [| ->]; auto. }
  intros cl2 Hcl2 d2 Hi3. apply keeps_ret; [done|by split].
Qed.

(** The node is still in hand, or delivered. *)
Definition dispatched (X : list res) (cl c : Z) (d d' : dev) : Prop :=
  d_cbs d' = d_cbs d /\ exists r, (r = RWork (WCb c) \/ r = RDone c) /\ inv [] (RCli cl :: r :: X) d'.

Lemma cb_dispatch_client_ok X d cl c x :
  inv [] (RCli cl :: RWork (WCb c) :: X) d -> d_cbs d !! c = Some x -> c_timer x = false ->
  good B (cb_dispatch_client cl c d) (fun _ => dispatched X cl c d).
Proof.
  intros Hi Hx Ht. unfold cb_dispatch_client. eapply good_get_cb; [exact Hx|].
  assert (Hin : RCli cl ∈ RCli cl :: RWork (WCb c) :: X) by by left.
  assert (Hd : forall d', inv [] (RCli cl :: RWork (WCb c) :: X) d' -> quiet d d' -> dispatched X cl c d d').
  { intros d' Hi' Hq. split; [apply Hq|]. exists (RWork (WCb c)). auto. }
  assert (Hret : good B ((mret tt : run dev unit) d) (fun _ => dispatched X cl c d)).
  { apply good_ret, Hd; [done|apply quiet_same]. }
  destruct ((c_idx x =? 0) || (c_idx x >=? SYNX_MAX_OBJS)) eqn:Eb; [done|].
  apply orb_false_iff in Eb as [_ Hlt]. zbool.
  destruct (held_cli _ _ _ cl Hi Hin) as (y & Hy & _). eapply good_get_cli; [exact Hy|].
  destruct (table_entry _ _ _ _ _ _ Hi Hy Hlt) as (k & Hk & He). eapply good_deref; [exact Hk|].
  destruct (k_valid k) eqn:Ev; cbn [negb]; [|done]. destruct (proj1 He Ev) as [f Hf].
  eapply good_deref; [exact Hf|]. destruct f as [|f].
  - eapply good_mono; [apply (keeps_default_callback [] (RCli cl :: RWork (WCb c) :: X) d cl); [leaf|exact Hi|done|lia]|].
    intros [] d' (Hi' & _ & Hq). by apply Hd.
  - eapply good_bind; [apply (keeps_clear_cb_entry [] (RCli cl :: RWork (WCb c) :: X) d cl); [exact Hi|done|lia]|].
    intros rc d' (Hi' & _ & Hq). unfold emit. apply good_tt, good_modify, good_ret.
    split; [apply Hq|]. exists (RDone c). split; [auto|].
    eapply inv_perm; [apply perm_swap|]. eapply inv_deliver; [by eapply inv_perm; [apply perm_swap|]|].
    rewrite (q_cbs _ _ Hq). intros z. rewrite Hx. by intros [= <-].
Qed.

Lemma free_cb_ok L X d c r x :
  r = RWork (WCb c) \/ r = RDone c -> inv L (r :: X) d -> RDone c ∉ X -> d_cbs d !! c = Some x ->
  c_timer x = false -> keeps L (free_cb c d) d (fun _ => X) (fun _ d' => d_objs d' = d_objs d).
Proof.
  intros Hr Hi Hn Hx Ht. unfold free_cb. eapply keeps_get_cb; [exact Hx|]. rewrite Ht. apply keeps_guard; [done|].
  apply keeps_tt. eapply keeps_modify; [by apply ext_fields|]. apply keeps_ret; [|done]. by eapply inv_free_cb.
Qed.

Lemma cb_dispatch_ok X d c x :
  inv [] (RWork (WCb c) :: X) d -> d_cbs d !! c = Some x -> c_timer x = false -> RDone c ∉ X ->
  good B (synx_util_cb_dispatch c d) (fun _ d' => inv [] X d').
Proof.
  intros Hi Hx Ht Hn. unfold synx_util_cb_dispatch. eapply good_get_cb; [exact Hx|].
  eapply good_bind; [apply (keeps_get_client (B := B) [] _ _ _ leafless_nil Hi)|].
  intros [cl|] d1 (Hi1 & _ & Hc & Hq & _).
  - eapply good_bind.
    { eapply good_bind; [apply (cb_dispatch_client_ok X d1 cl c x Hi1); [by rewrite (q_cbs _ _ Hq)|done]|].
      intros [] d2 (E2 & r & Hr & Hi2).
      eapply good_mono; [apply (keeps_put_client (B := B) [] _ _ _ leafless_nil Hi2)|].
      intros [] d3 (Hi3 & _ & Hq3 & _).
      instantiate (1 := fun _ d3 => d_cbs d3 = d_cbs d /\ exists r, (r = RWork (WCb c) \/ r = RDone c) /\ inv [] (r :: X) d3).
      split; [|eauto]. rewrite (q_cbs _ _ Hq3), E2. apply Hq. }
    intros [] d3 (E3 & r & Hr & Hi3). rewrite <- E3 in Hx.
    eapply good_mono; [by eapply free_cb_ok|]. by intros [] d4 (Hi4 & _).
  - eapply good_bind; [by apply (good_ret _ _ (fun _ d' => d' = d1))|]. intros [] d2 ->.
    rewrite <- (q_cbs _ _ Hq) in Hx. eapply good_mono; [eapply free_cb_ok; [by left|exact Hi1|done..]|].
    by intros [] d4 (Hi4 & _).
Qed.

(** ** Registration *)

Lemma keeps_add_waiter L X d p cp st params x :
  inv L (RWork (WCb cp) :: X) d -> is_Some (d_objs d !! p) -> d_cbs d !! cp = Some x -> c_timer x = false ->
  keeps L (add_waiter p cp st params d) d (fun _ => X) (fun _ _ => True).
Proof.
  intros Hi [o Ho] Hx Ht. unfold add_waiter. cond.
  - eapply keeps_upd_cb; [exact Hx|]. set (x1 := set_c_timeout (w_timeout_ms params) x).
    eapply (inv_upd_cb _ _ _ cp x x1) in Hi; [|done|simpl; congruence].
    match type of Hi with inv _ _ ?s => set (d1 := s) in * end.
    assert (Hr : keeps L ((if negb (w_timeout_ms params =? SYNX_NO_TIMEOUT) then synx_start_timer cp else mret 0) d1) d1
      (fun _ => RWork (WCb cp) :: X) (fun rc d2 => rc = 0 /\ d_objs d2 = d_objs d)).
    { destruct (w_timeout_ms params =? SYNX_NO_TIMEOUT) eqn:Et; cbn [negb]; [by apply keeps_ret|]. zbool.
      unfold synx_start_timer. eapply keeps_upd_cb; [apply lookup_insert_eq|].
      eapply keeps_get_cb; [apply lookup_insert_eq|]. eapply keeps_upd_cb; [apply lookup_insert_eq|].
      apply keeps_ret; [|done]. eapply inv_upd_cb; [eapply (inv_upd_cb _ _ _ cp x1)|apply lookup_insert_eq|].
      - exact Hi.
      - apply lookup_insert_eq.
      - done.
      - intros _. split; [done|]. right. by left. }
    eapply keeps_bind; [exact Hr|]. intros rc d2 Hi2 _ [-> E2]. change (negb (0 =? SYNX_SUCCESS)) with false. cbn iota.
    rewrite <- E2 in Ho. eapply keeps_upd_obj; [exact Ho|]. apply keeps_ret; [|done]. by apply inv_reg.
  - eapply keeps_upd_cb; [exact Hx|].
    eapply (inv_upd_cb _ _ _ cp x (set_c_status st x)) in Hi; [|done|simpl; congruence].
    eapply keeps_bind; [eapply keeps_queue_node; [exact Hi|apply lookup_insert_eq|done]|].
    intros [] d2 Hi2 _ _. by apply keeps_ret.
Qed.

Lemma keeps_async_wait X d s params :
  inv [] X d -> busy X -> (forall c, RDone c ∉ X) -> B ->
  keeps [] (synx_async_wait s params d) d (fun _ => X) (fun _ _ => True).
Proof.
  intros Hi Hb Hnd HB. unfold synx_async_wait. apply keeps_on_object; [done|done|].
  intros hd p o d1 Hi1 Hb1 Hm Ho _. set (Y := RHdl hd :: RCli s :: X) in *. unfold async_wait_locked.
  assert (Hcs : forall r, RCli s ∈ r :: Y) by (intros r; right; right; by left).
  eapply keeps_lock; [exact Hi1|done|]. intros Hi2. assert (HL : leafless [obj_lock p]) by leaf.
  set (L := [obj_lock p]) in *. eapply keeps_kzalloc; [exact Hi2| |].
  { intros d2 Hi3 _. by apply keeps_ret. }
  intros cp d2 Hi3 Hs2 Hf. eapply keeps_modify; [by apply ext_fields|].
  eapply (inv_new_cb _ _ _ cp (mk_cb 0 0 0 0 false 0)) in Hi3; [|done|done].
  set (d3 := set_d_cbs _ d2) in *. set (x := mk_cb 0 0 0 0 false 0) in *.
  assert (Hm3 : mapped p d3) by exact (mapped_ext p (set_d_held L d1) d2 Hm (same_mem_ext _ _ Hs2)).
  assert (Hx3 : d_cbs d3 !! cp = Some x) by apply lookup_insert_eq.
  eapply keeps_bind; [by apply keeps_alloc_cb_entry|]. intros [rc idx] d4 Hi4 Hx4 Hq4.
  rewrite <- (q_cbs _ _ Hq4) in Hx3. destruct (truthy rc).
  { eapply keeps_bind; [eapply free_cb_ok; [by left|exact Hi4| |exact Hx3|done]|].
    - unfold Y. rewrite !elem_of_cons. intros [|[|Hin]]; [done..|]. by apply (Hnd cp).
    - intros [] d5 Hi5 _ _. by apply keeps_ret. }
  assert (Hb4 : busy (RWork (WCb cp) :: Y)) by by apply busy_cons.
  assert (Hm4 : mapped p d4) by by eapply mapped_ext.
  destruct (mapped_live _ _ _ _ Hi4 Hb4 Hm4) as [o4 Ho4]. eapply keeps_get_obj; [exact Ho4|].
  eapply (keeps_bind _ _ _ _ (fun _ => RWork (WCb cp) :: Y) _ (fun _ d' => d_cbs d' = d_cbs d4)).
  { cond; [|by apply keeps_ret]. eapply keeps_bind; [by apply keeps_global|]. intros st d5 Hi5 _ [g ->].
    eapply keeps_mono; [by apply keeps_signal_settled|]. by intros []. }
  intros [] d5 Hi5 Hx5 E5. rewrite <- E5 in Hx3.
  destruct (mapped_live _ _ p _ Hi5 Hb4) as [o5 Ho5]; [by eapply mapped_ext|].
  eapply keeps_read; [by apply (object_status_run p o5 false); [|intros _; eapply leafless_no_fence]|].
  eapply keeps_upd_cb; [exact Hx3|].
  eapply (inv_upd_cb _ _ _ cp x (mk_cb s idx (w_h_synx params) (c_status x) (c_timer x) (c_timeout x))) in Hi5; [|exact Hx3|done].
  eapply keeps_mono; [eapply keeps_add_waiter; [exact Hi5|by eexists|apply lookup_insert_eq|done]|done].
Qed.

(** ** Cancelling *)

Lemma match_payload_ok c k params : entry_ok c k -> entry_ok c (synx_match_payload k params).2.
Proof.
  intros [H1 H2]. unfold synx_match_payload. destruct (_ && _); [|done].
  destruct (w_cancel_cb_func params); [|done]. split; simpl; [eauto|done].
Qed.

Lemma keeps_cancel_round L X d s c params p o cp :
  inv L X d -> RCli c ∈ X -> d_objs d !! p = Some o -> cp ∈ o_reg_cbs o ->
  keeps L (cancel_round s c params cp d) d (fun _ => X)
    (fun _ d' => exists o', d_objs d' !! p = Some o' /\
       forall cp', cp' <> cp -> cp' ∈ o_reg_cbs o -> cp' ∈ o_reg_cbs o').
Proof.
  intros Hi Hc Ho Hin. unfold cancel_round.
  destruct (cb_reg _ _ _ _ _ (in_cbs _ _ _ (proj1 Hi)) p o cp Ho Hin) as [x Hx].
  assert (Hnd : RDone cp ∉ X).
  { intros Hd. destruct (cb_done _ _ _ _ _ (in_cbs _ _ _ (proj1 Hi)) cp Hd) as (_ & _ & Hn). by apply (Hn p o). }
  eapply keeps_get_cb; [exact Hx|]. cond; [by apply keeps_ret; [|exists o]|].
  destruct ((c_idx x =? 0) || (c_idx x >=? SYNX_MAX_OBJS)) eqn:Eb; [by apply keeps_ret; [|exists o]|].
  apply orb_false_iff in Eb as [_ Hlt]. zbool.
  destruct (held_cli _ _ _ c Hi Hc) as (cl & Hcl & _). eapply keeps_get_cli; [exact Hcl|].
  destruct (table_entry _ _ _ _ _ _ Hi Hcl Hlt) as (k & Hk & He). eapply keeps_deref; [exact Hk|].
  pose proof (match_payload_ok _ _ params He) as He'. destruct (synx_match_payload k params) as [ret k'] eqn:Em.
  cbn [snd] in He'. eapply keeps_upd_client; [exact Hi|exact Hc| |].
  { intros cl1 Hcl1. rewrite Hcl in Hcl1. injection Hcl1 as <-. split_and!; [by apply client_step_table|done..]. }
  intros cl1 Hcl1 d1 Hi1. eapply keeps_bind; [by apply keeps_stop_timer|]. intros [] d2 Hi2 _ (y & Hy & ->).
  match type of Hi2 with inv _ _ ?s => set (d2 := s) in * end.
  assert (Ho2 : d_objs d2 !! p = Some o) by exact Ho.
  assert (Hx2 : d_cbs d2 !! cp = Some y) by apply lookup_insert_eq.
  assert (Hun : d_objs (unreg cp d2) !! p = Some (set_o_reg_cbs (List.filter (fun c' => negb (c' =? cp)) (o_reg_cbs o)) o)).
  { by apply unreg_lookup_2. }
  assert (Hkeep : forall cp', cp' <> cp -> cp' ∈ o_reg_cbs o ->
    cp' ∈ o_reg_cbs (set_o_reg_cbs (List.filter (fun c' => negb (c' =? cp)) (o_reg_cbs o)) o)).
  { intros cp' Hne Hin'. simpl. by apply elem_of_filter_ne. }
  destruct (ret =? 1).
  - eapply keeps_list_del; [exact Hi2|exact Ho2|exact Hin|]. intros Hi3.
    eapply keeps_upd_cb; [exact Hx2|]. set (y1 := set_c_status _ y).
    eapply (inv_upd_cb _ _ _ cp y y1) in Hi3; [|exact Hx2|simpl; congruence].
    eapply keeps_bind; [eapply keeps_queue_node; [exact Hi3|apply lookup_insert_eq|done]|].
    intros [] d4 Hi4 _ (E4 & _). apply keeps_ret; [done|]. eexists. split; [|exact Hkeep]. by rewrite E4.
  - destruct (ret =? 2); [|by apply keeps_ret; [|exists o]].
    eapply keeps_bind; [by apply (keeps_clear_cb_entry L X d2 c)|]. intros rc d3 Hi3 _ Hq3.
    rewrite <- (q_objs _ _ Hq3) in Ho2. rewrite <- (q_cbs _ _ Hq3) in Hx2.
    eapply keeps_list_del; [exact Hi3|exact Ho2|exact Hin|]. intros Hi4.
    eapply keeps_bind; [eapply free_cb_ok; [by left|exact Hi4|done|exact Hx2|done]|].
    intros [] d5 Hi5 _ E5. apply keeps_ret; [done|]. eexists. split; [|exact Hkeep].
    rewrite E5. by rewrite (unreg_lookup_2 cp d3 p o Ho2).
Qed.

Lemma keeps_cancel_loop L X s c params p l : forall d o found,
  inv L X d -> RCli c ∈ X -> d_objs d !! p = Some o -> NoDup l -> (forall cp, cp ∈ l -> cp ∈ o_reg_cbs o) ->
  keeps L (cancel_loop s c params l found d) d (fun _ => X) (fun _ _ => True).
Proof.
  induction l as [|cp l IH]; intros d o found Hi Hc Ho Hn Hl; cbn [cancel_loop]; [by apply keeps_ret|].
  apply NoDup_cons in Hn as [Hnin Hn].
  eapply keeps_bind; [eapply (keeps_cancel_round _ _ _ _ _ _ p o); [done|done|done|apply Hl; by left]|].
  intros r d1 Hi1 _ (o1 & Ho1 & Hk). eapply (IH d1 o1); [done|done|done|done|]. intros cp' Hin. apply Hk.
  - by intros ->.
  - apply Hl. by right.
Qed.

Lemma keeps_cancel X d s params :
  inv [] X d -> busy X -> keeps [] (synx_cancel_async_wait s params d) d (fun _ => X) (fun _ _ => True).
Proof.
  intros Hi Hb. unfold synx_cancel_async_wait. apply keeps_on_object; [done|done|].
  intros hd p o d1 Hi1 Hb1 Hm Ho _. unfold cancel_locked.
  eapply keeps_lock; [exact Hi1|by rewrite elem_of_nil|]. intros Hi2. eapply keeps_get_obj; [exact Ho|].
  cond; [by apply keeps_ret|].
  eapply keeps_read; [by apply (object_status_run p o false); [|intros _; eapply leafless_no_fence; [|exact Hi2]; leaf]|].
  cond; [by apply keeps_ret|]. eapply keeps_bind.
  { eapply (keeps_cancel_loop _ _ s s params p _ _ o); [exact Hi2|right; by left|exact Ho| |done].
    by eapply (cb_nodup _ _ _ _ _ (in_cbs _ _ _ (proj1 Hi2)) p). }
  intros found d3 Hi3 _ _. by apply keeps_ret.
Qed.

(** ** Timers *)

Lemma keeps_timer X d cp x :
  inv [] X d -> busy X -> d_cbs d !! cp = Some x -> c_timer x = true -> RWork (WCb cp) ∉ X ->
  keeps [] (timer_expires cp d) d (fun _ => X) (fun _ _ => True).
Proof.
  intros Hi Hb Hx Ht Hnw. unfold timer_expires, synx_timer_cb.
  destruct (cb_timer _ _ _ _ _ (in_cbs _ _ _ (proj1 Hi)) cp x Hx Ht) as [Hto [(p & o & Ho & Hin)|]]; [|done].
  eapply keeps_upd_cb; [exact Hx|]. eapply (inv_upd_cb _ _ _ cp x (set_c_timer false x)) in Hi; [|done|done].
  eapply keeps_get_cb; [apply lookup_insert_eq|]. set (x1 := set_c_timer false x) in *.
  match type of Hi with inv _ _ ?s => set (d1 := s) in * end.
  eapply keeps_bind; [by apply keeps_get_client; [leaf|]|]. intros [c|] d2 Hi2 _ (_ & Hq2 & _); [|by apply keeps_ret].
  eapply keeps_bind; [apply keeps_acquire_handle; [leaf|exact Hi2|by left]|].
  intros h d3 Hi3 _ [Hq3 _].
  assert (Hp : exists r, synx_util_obtain_object h d3 = Ret r d3).
  { destruct h as [h|]; [|by eexists]. destruct (obtain_object _ _ _ h Hi3) as (q & Hq & _); [by left|eauto]. }
  destruct Hp as [r Hr]. eapply keeps_read; [exact Hr|].
  assert (Hi3' : inv [] X d3).
  { apply (inv_forget _ (RCli c)); [done|]. destruct h as [h|]; [|done]. by apply (inv_forget _ (RHdl h)). }
  destruct r as [q|]; [|by apply keeps_ret].
  assert (Hx3 : d_cbs d3 !! cp = Some x1) by (rewrite (q_cbs _ _ Hq3), (q_cbs _ _ Hq2); apply lookup_insert_eq).
  assert (Ho3 : d_objs d3 !! p = Some o) by by rewrite (q_objs _ _ Hq3), (q_objs _ _ Hq2).
  eapply keeps_upd_cb; [exact Hx3|]. set (x2 := set_c_status _ x1).
  eapply (inv_upd_cb _ _ _ cp x1 x2) in Hi3'; [|done|done].
  unfold del_timer. eapply keeps_upd_cb; [apply lookup_insert_eq|]. set (x3 := set_c_timer false x2).
  eapply (inv_upd_cb _ _ _ cp x2 x3) in Hi3'; [|apply lookup_insert_eq|done].
  eapply keeps_list_del; [exact Hi3'|exact Ho3|exact Hin|]. intros Hi4.
  eapply keeps_mono; [eapply keeps_queue_node; [exact Hi4|apply lookup_insert_eq|done]|done].
Qed.

(** ** Queries *)

Lemma keeps_get_status X d s h :
  inv [] X d -> busy X -> keeps [] (synx_get_status s h d) d (fun _ => X) (fun _ _ => True).
Proof.
  intros Hi Hb. unfold synx_get_status. apply (keeps_on_object X s h _ (fun _ => _)); [done|done|].
  intros hd p o d1 Hi1 Hb1 Hm Ho _. eapply keeps_get_obj; [exact Ho|]. cond; [by apply keeps_ret|].
  eapply keeps_lock; [exact Hi1|by rewrite elem_of_nil|]. intros Hi2.
  eapply keeps_read; [by apply (object_status_run p o false); [|intros _; eapply leafless_no_fence; [|exact Hi2]; leaf]|].
  eapply keeps_get_obj; [exact Ho|]. by apply keeps_ret.
Qed.

Lemma keeps_get_fence X d s h :
  inv [] X d -> busy X -> keeps [] (synx_get_fence s h d) d (fun _ => X) (fun _ _ => True).
Proof.
  intros Hi Hb. unfold synx_get_fence. apply (keeps_on_object X s h _ (fun _ => _)); [done|done|].
  intros hd p o d1 Hi1 Hb1 Hm Ho _. eapply keeps_get_obj; [exact Ho|]. cond; [by apply keeps_ret|].
  eapply (keeps_bind _ _ _ _ (fun _ => RHdl hd :: RCli s :: X) _ (fun _ _ => True)).
  - eapply keeps_lock; [exact Hi1|by rewrite elem_of_nil|]. intros Hi2.
    eapply keeps_mono; [apply keeps_fence_get; [exact Hi2|]|done].
    by eapply (ob_fence _ _ _ _ _ (in_objs _ _ _ (proj1 Hi2))).
  - intros [] d2 Hi2 _ _. by apply keeps_ret.
Qed.

(** ** Events *)

Lemma keeps_read_event X d s size ok :
  inv [] X d -> keeps [] (synx_read s size ok d) d (fun _ => X) (fun _ _ => True).
Proof.
  intros Hi. unfold synx_read. cond; [by apply keeps_ret|].
  eapply (keeps_with_session [] X); [leaf|exact Hi|done|]. intros d1 Hi1 _ _.
  assert (Hc : RCli s ∈ RCli s :: X) by by left.
  eapply (keeps_bind _ _ _ _ (fun _ => RCli s :: X) _ (fun r _ => forall i k, r = inr (i, k) -> i < SYNX_MAX_OBJS)).
  { eapply keeps_leaf; [leaf|leaf|exact Hi1|]. intros Hi2. destruct (held_cli _ _ _ s Hi2 Hc) as (cl & Hcl & _).
    eapply keeps_get_cli; [exact Hcl|]. destruct (cl_event_q cl) as [|i q] eqn:Eq; [by apply keeps_ret|].
    assert (Hlt : i < SYNX_MAX_OBJS).
    { eapply (co_event _ _ (in_clients _ _ _ (proj1 Hi2)) s cl); [done|]. rewrite Eq. by left. }
    destruct (table_entry _ _ _ _ _ _ Hi2 Hcl Hlt) as (k & Hk & He). eapply keeps_deref; [exact Hk|].
    cond; [by apply keeps_ret|]. eapply keeps_upd_client; [exact Hi2|exact Hc| |].
    { intros cl1 Hcl1. rewrite Hcl in Hcl1. injection Hcl1 as <-. split_and!; [|done..].
      apply client_step_event. intros j Hj. left. rewrite Eq. by right. }
    intros cl1 Hcl1 d2 Hi3. apply keeps_ret; [done|]. by intros i' k' [= <- _]. }
  intros [rc|[i k]] d2 Hi2 _ Hr; [by apply keeps_ret|].
  eapply keeps_bind; [apply (keeps_clear_cb_entry [] (RCli s :: X) d2 s); [exact Hi2|done|by eapply Hr]|].
  intros rc d3 Hi3 _ _. by apply keeps_ret.
Qed.

Lemma keeps_poll X d s : inv [] X d -> keeps [] (synx_poll s d) d (fun _ => X) (fun _ _ => True).
Proof.
  intros Hi. unfold synx_poll. eapply (keeps_with_session [] X); [leaf|exact Hi|done|]. intros d1 Hi1 _ _.
  eapply keeps_leaf; [leaf|leaf|exact Hi1|]. intros Hi2.
  destruct (held_cli _ _ _ s Hi2) as (cl & Hcl & _); [by left|]. eapply keeps_get_cli; [exact Hcl|]. by apply keeps_ret.
Qed.

End waiters.

(** * The synx client framework: creation and import

    Creating an object and importing handles and fences keep the invariant, with
    the conversion of a local object into a global one, and the roll-back of an
    import that fails. *)

Section imports.
Context `{F : DmaFence} `{E : SynxEnv} `{C : SynxClientEnv} `{Laws : !DmaFenceLaws} {B : Prop}.
Implicit Types d : dev.
Abbreviation keeps := (keeps (B := B)).

(** ** Creation *)

Lemma keeps_create X d fuel s flags h0 :
  inv [] X d -> busy X -> B -> 0 <= flags ->
  keeps [] (synx_create fuel s None flags h0 d) d (fun _ => X) (fun _ _ => True).
Proof.
  intros Hi Hb HB Hf. unfold synx_create. destruct (flags >? SYNX_CREATE_MAX_FLAGS) eqn:Eg; [by apply keeps_ret|].
  zbool. cond; [by apply keeps_ret|]. eapply (keeps_with_session [] X); [leaf|exact Hi|done|]. intros d1 Hi1 _ _.
  destruct fuel as [|fuel]; [exact HB|]. cbn [create_loop]. eapply keeps_read; [done|].
  change (negb (- SYNX_NOENT =? - SYNX_NOENT)) with false. cbn iota.
  eapply keeps_bind.
  { apply keeps_create_core; [leaf|exact Hi1|exact HB|by left|by apply busy_cons|]. split; simpl; [auto| |done|].
    - pose proof (fr_pos _ _ (in_fresh _ _ _ (proj1 Hi1))). lia.
    - apply Z.bits_inj'. intros n Hn. rewrite Z.land_spec, Z.testbit_0_l.
      change SYNX_CREATE_MERGED_FENCE with (2 ^ 5). rewrite Z.pow2_bits_eqb by lia.
      destruct (Z.eqb_spec 5 n) as [<-|]; [|apply andb_false_r]. rewrite andb_true_r.
      apply Z.testbit_false; [lia|]. rewrite Z.div_small; [done|]. unfold SYNX_CREATE_MAX_FLAGS in Eg. lia. }
  intros [rc h] d2 Hi2 _ _. by apply keeps_ret.
Qed.

(** ** Conversion *)

Lemma merged_global o idx :
  synx_util_is_merged_object (set_o_type (Z.lor (o_type o) SYNX_CREATE_GLOBAL_FENCE) (set_o_global_idx idx o)) =
  synx_util_is_merged_object o.
Proof.
  unfold synx_util_is_merged_object. simpl. f_equal. rewrite Z.land_lor_distr_l.
  change (Z.land SYNX_CREATE_GLOBAL_FENCE SYNX_CREATE_MERGED_FENCE) with 0. apply Z.lor_0_r.
Qed.

Lemma keeps_conversion_locked X d p h :
  inv [] X d -> busy X -> B -> mapped p d ->
  keeps [] (conversion_locked p h d) d
    (fun r => match r.1 with Some e => REnt e :: X | None => RObj p :: X end)
    (fun r d' => forall e, r.1 = Some e -> is_Some (d_ents d' !! e)).
Proof.
  intros Hi Hb HB Hm. unfold conversion_locked. eapply keeps_lock; [exact Hi|done|]. intros Hi1.
  assert (HL : leafless [obj_lock p]) by leaf. set (L := [obj_lock p]) in *.
  destruct (mapped_live _ _ p _ Hi1 Hb Hm) as [o Ho].
  eapply keeps_bind; [apply (keeps_get_object _ _ _ p Hi1); by eexists|]. intros [] d2 Hi2 _ (o' & Ho' & ->).
  simpl in Ho', Ho. rewrite Ho in Ho'. injection Ho' as <-. eapply keeps_get_obj; [apply lookup_insert_eq|].
  set (o1 := set_o_refcount (o_refcount o + 1) o) in *.
  match type of Hi2 with inv _ _ ?s => set (d2 := s) in * end.
  assert (Ho2 : d_objs d2 !! p = Some o1) by apply lookup_insert_eq.
  destruct (negb (o_global_idx o1 =? 0)).
  - cbn zeta. eapply keeps_bind; [by apply keeps_get_map_entry|].
    intros [e|] d3 Hi3 _ (_ & _ & He).
    + destruct (He e eq_refl) as (m & Hme & _). apply keeps_ret.
      * cbn [fst]. eapply inv_perm in Hi3; [|apply perm_swap]. by apply (inv_forget _ (RObj p)).
      * cbn [fst]. intros e' [= <-]. by eexists.
    + eapply keeps_bind; [apply keeps_insert_to_map; [done|exact Hi3|apply handle_ok_global]|].
      intros r d4 Hi4 _ (_ & _ & He4). apply keeps_ret; cbn [fst]; [by destruct r|].
      intros e Hr. destruct (He4 e Hr) as (m & Hme & _). by eexists.
  - eapply keeps_upd_obj; [exact Ho2|]. set (o3 := set_o_map_count _ o1).
    eapply (inv_obj_frame _ _ _ p o1 o3) in Hi2; [|exact Ho2|by split; auto|done].
    eapply keeps_bind; [apply keeps_alloc_global; [exact Hi2|done]|]. intros [rc h2] d4 Hi4 _ [[g ->] Hh].
    cbn [fst snd] in Hh. destruct (rc =? SYNX_SUCCESS) eqn:Erc; [|by apply keeps_ret]. zbool. specialize (Hh Erc).
    eapply keeps_upd_obj; [apply lookup_insert_eq|].
    eapply (inv_obj_frame _ _ _ p o3 (set_o_type (Z.lor (o_type o3) SYNX_CREATE_GLOBAL_FENCE)
      (set_o_global_idx (synx_util_global_idx h2) o3))) in Hi4;
      [|apply lookup_insert_eq|split; [done..|by left|apply merged_global]|done].
    eapply keeps_bind; [apply keeps_insert_to_map; [done|exact Hi4|exact Hh]|].
    intros [e|] d5 Hi5 _ (_ & _ & He5).
    + apply keeps_ret; cbn [fst]; [done|]. intros e' [= <-]. destruct (He5 e eq_refl) as (m & Hme & _). by eexists.
    + eapply keeps_bind; [by apply keeps_global|]. intros [] d6 Hi6 _ _. by apply keeps_ret.
Qed.

Lemma keeps_handle_conversion X d h old :
  inv [] (match old with Some e => REnt e :: X | None => X end) d -> busy X -> B ->
  keeps [] (synx_handle_conversion h old d) d
    (fun r => match r.1 with Some e => REnt e :: X | None => X end)
    (fun r d' => forall e, r.1 = Some e -> is_Some (d_ents d' !! e)).
Proof.
  intros Hi Hb HB. unfold synx_handle_conversion.
  eapply (keeps_bind _ _ _ _ (fun r => match r with Some e => REnt e :: X | None => X end) _ (fun _ _ => True)).
  { destruct old as [e|]; [by apply keeps_ret|]. eapply keeps_mono; [by apply keeps_get_map_entry; [leaf|]|done]. }
  intros [e|] d1 Hi1 _ _; [|by apply keeps_ret].
  destruct (held_ent _ _ _ e Hi1) as (m & Hm & _); [by left|]. eapply keeps_get_ent; [exact Hm|]. cbn zeta.
  eapply keeps_bind; [apply keeps_conversion_locked; [exact Hi1|by apply busy_cons|done|by exists e, m]|].
  intros [r h2] d2 Hi2 _ Hr. cbn [fst snd] in *.
  eapply (keeps_bind _ _ _ _ (fun _ => REnt e :: match r with Some e' => REnt e' :: X | None => X end) _
    (fun _ d' => forall e, r = Some e -> is_Some (d_ents d' !! e))).
  { destruct r as [e'|]; cbn [when].
    - apply keeps_ret; [|done]. by eapply inv_perm; [apply perm_swap|].
    - eapply keeps_mono; [by apply keeps_put_object; [leaf|]|done]. }
  intros [] d3 Hi3 _ Hr3. eapply keeps_bind; [by apply keeps_release_map_entry; [leaf|]|].
  intros [] d4 Hi4 Hx4 _. apply keeps_ret; [done|]. cbn [fst]. intros e' He'.
  destruct (Hr3 e' He') as [m' Hm']. destruct (ex_ents _ _ Hx4 e' m' Hm') as (m2 & Hm2 & _). by eexists.
Qed.

(** ** Import of a handle *)

Lemma keeps_import_mapped L X d c h :
  leafless L -> inv L X d -> RCli c ∈ X ->
  keeps L (import_mapped c h d) d (fun _ => X) (fun _ _ => True).
Proof.
  intros HL Hi Hc. unfold import_mapped. eapply keeps_leaf; [done|leaf|exact Hi|]. intros Hi1.
  destruct (held_cli _ _ _ c Hi1 Hc) as (cl & Hcl & _). eapply keeps_get_cli; [exact Hcl|].
  destruct (find_handle_ok _ _ _ c cl h (fun x => negb (h_rel_count x =? 0)) Hi1 Hcl) as (r & H1 & H2).
  eapply keeps_read; [exact H1|]. destruct r as [hd|]; [|by apply keeps_ret].
  destruct (H2 hd eq_refl) as (x & Hx & Hr & _). eapply keeps_upd_hdl; [exact Hx|done..|].
  apply keeps_ret; [|done]. exact (inv_hdl_rel _ _ _ _ _ Hi1 Hx Hr).
Qed.

Lemma import_flags_ok flags : Z.land (synx_util_map_import_params_to_create flags 0) SYNX_CREATE_MERGED_FENCE = 0.
Proof.
  unfold synx_util_map_import_params_to_create. by repeat case_match.
Qed.

Lemma keeps_import_handle X d c h flags h0 :
  inv [] X d -> busy X -> B -> RCli c ∈ X ->
  truthy (Z.land flags SYNX_IMPORT_GLOBAL_FENCE) && negb (synx_util_is_global_handle h) = false ->
  keeps [] (synx_native_import_handle c h flags h0 d) d (fun _ => X) (fun _ _ => True).
Proof.
  intros Hi Hb HB Hc Hf. unfold synx_native_import_handle.
  eapply (keeps_bind _ _ _ _ (fun _ => X) _ (fun _ _ => True)).
  { cond; [by apply keeps_import_mapped; [leaf|..]|]. eapply keeps_leaf; [leaf|leaf|exact Hi|]. intros Hi1.
    by apply keeps_ret. }
  intros mapped d1 Hi1 _ _. cond; [by apply keeps_ret|].
  eapply keeps_bind; [by apply keeps_get_map_entry; [leaf|]|]. intros [e|] d2 Hi2 _ (_ & _ & He).
  - destruct (He e eq_refl) as (m & Hm & _). rewrite Hf. eapply keeps_read; [done|]. cbn beta iota.
    eapply keeps_deref; [done|]. eapply keeps_get_ent; [exact Hm|].
    eapply keeps_bind; [eapply keeps_init_handle; [leaf|exact Hi2|exact Hc|exact Hm|done]|].
    intros rc d3 Hi3 _ _. cbn beta in Hi3.
    eapply (keeps_bind _ _ _ _ (fun _ => X) _ (fun _ _ => True)).
    { destruct (rc =? SYNX_SUCCESS); cbn [negb when]; [by apply keeps_ret|].
      eapply keeps_mono; [by apply keeps_release_map_entry; [leaf|]|done]. }
    intros [] d4 Hi4 _ _. by apply keeps_ret.
  - cbn zeta. cond; [by apply keeps_ret|]. destruct (synx_util_is_global_handle h) eqn:Eh; [|by apply keeps_ret].
    eapply keeps_bind.
    { apply keeps_create_core; [leaf|exact Hi2|exact HB|exact Hc|apply Hb|]. split; simpl; [auto| |done|apply import_flags_ok].
      apply (fr_pos _ _ (in_fresh _ _ _ (proj1 Hi2))). }
    intros [rc h'] d3 Hi3 _ _. cond; by apply keeps_ret.
Qed.

(** ** Import of a fence *)

(** A handle for the object of the entry in hand; on failure, its reference is
    lost. *)
Lemma keeps_init_found X d c h e :
  inv [] (REnt e :: X) d -> RCli c ∈ X -> is_Some (d_ents d !! e) ->
  keeps [] ((m ← get_ent e; synx_util_init_handle c (m_obj m) h e) d) d (fun _ => X) (fun _ _ => True).
Proof.
  intros Hi Hc [m Hm]. eapply keeps_get_ent; [exact Hm|].
  eapply keeps_mono; [eapply keeps_init_handle; [leaf|exact Hi|exact Hc|exact Hm|done]|].
  intros rc d' Hi' _ _. cbn beta in Hi'. split; [|done]. destruct (rc =? SYNX_SUCCESS); [done|].
  by apply (inv_forget _ (REnt e)).
Qed.

Lemma keeps_insert_loop X c f g curr fuel : forall d h,
  inv [] X d -> B -> RCli c ∈ X -> f < d_next d ->
  keeps [] (insert_loop fuel c f g curr h d) d (fun _ => X) (fun _ _ => True).
Proof.
  induction fuel as [|fuel IH]; intros d h Hi HB Hc Hf; cbn [insert_loop]; [exact HB|].
  eapply keeps_bind.
  { apply keeps_insert_fence_entry; [leaf|exact Hi|]. by destruct (truthy g). }
  intros [rc h2] d1 Hi1 Hx1 _. cond; [by apply keeps_ret|].
  eapply keeps_bind; [by apply keeps_get_map_entry; [leaf|]|]. intros [e|] d2 Hi2 Hx2 (_ & _ & He).
  - destruct (He e eq_refl) as (m & Hm & _). apply keeps_assoc'.
    eapply keeps_bind; [apply (keeps_init_found X); [exact Hi2|exact Hc|by eexists]|]. intros rc2 d3 Hi3 _ _.
    eapply keeps_bind; [apply keeps_release_core; [leaf|exact Hi3|exact Hc]|]. intros rc3 d4 Hi4 _ _. by apply keeps_ret.
  - apply IH; try done. pose proof (ex_next _ _ Hx1). pose proof (ex_next _ _ Hx2). lia.
Qed.

Lemma keeps_import_fence X c f flags fuel : forall d,
  inv [] X d -> busy X -> B -> RCli c ∈ X -> f < d_next d ->
  to_dma_fence_array (d_fences d) f = None ->
  keeps [] (synx_native_import_fence fuel c f flags d) d (fun _ => X) (fun _ _ => True).
Proof.
  induction fuel as [|fuel IH]; intros d Hi Hb HB Hc Hf Hn; cbn [synx_native_import_fence]; [exact HB|]. cbn zeta.
  destruct (get_fence_entry_run [] X d f (Z.land SYNX_IMPORT_GLOBAL_FENCE flags) leafless_nil Hi) as [h Hh].
  eapply keeps_read; [exact Hh|]. destruct (h =? 0) eqn:Eh; zbool.
  - eapply keeps_bind.
    { apply keeps_create_core; [leaf|exact Hi|exact HB|exact Hc|apply Hb|].
      split; simpl; [by left|exact Hf|done|apply import_flags_ok]. }
    intros [rc h'] d1 Hi1 Hx1 _. cond; [by apply keeps_ret|]. pose proof (ex_next _ _ Hx1).
    eapply keeps_kzalloc; [exact Hi1| |].
    + intros d2 Hi2 _. eapply keeps_bind; [apply keeps_release_core; [leaf|exact Hi2|exact Hc]|].
      intros rc3 d4 Hi4 _ _. by apply keeps_ret.
    + intros a d2 Hi2 Hs2 _. apply keeps_insert_loop; try done. pose proof (sm_next _ _ Hs2). lia.
  - eapply keeps_bind; [by apply keeps_import_mapped; [leaf|..]|]. intros b d1 Hi1 Hx1 _.
    cond; [by apply keeps_ret|]. pose proof (ex_next _ _ Hx1).
    eapply (keeps_bind _ _ _ _ (fun r => match r.1 with Some e => REnt e :: X | None => X end) _
      (fun r d' => forall e, r.1 = Some e -> is_Some (d_ents d' !! e))).
    { cond; [by apply keeps_handle_conversion|].
      eapply keeps_bind; [by apply keeps_get_map_entry; [leaf|]|]. intros r d2 Hi2 _ (_ & _ & He).
      apply keeps_ret; [done|]. intros e Hr. destruct (He e Hr) as (m & Hm & _). by eexists. }
    intros [[e|] h'] d2 Hi2 Hx2 He; cbn [fst snd] in *.
    + apply keeps_assoc'. eapply keeps_bind; [apply (keeps_init_found X); [exact Hi2|exact Hc|by apply He]|].
      intros rc d3 Hi3 _ _. by apply keeps_ret.
    + apply IH; try done; [pose proof (ex_next _ _ Hx2); lia|].
      apply (ex_plain _ _ Hx2); [lia|]. by apply (ex_plain _ _ Hx1).
Qed.

(** ** Imports of a session *)

(** The import of a fence that exists and is not an array, or of a handle that is not converted: the
    code uses the map entry of a conversion that failed. *)
Definition import_ok (params : synx_import_indv_params) (d : dev) : Prop :=
  if truthy (Z.land (i_flags params) SYNX_IMPORT_DMA_FENCE) then i_fence params < d_next d /\ to_dma_fence_array (d_fences d) (i_fence params) = None
  else truthy (Z.land (i_flags params) SYNX_IMPORT_GLOBAL_FENCE) &&
         negb (synx_util_is_global_handle (i_fence params)) = false.

Lemma import_ok_mono params d d' : import_ok params d -> ext d d' -> import_ok params d'.
Proof.
  unfold import_ok. intros H Hx. destruct (truthy _); [|done]. destruct H as [Hf Hn].
  pose proof (ex_next _ _ Hx). split; [lia|]. by apply (ex_plain _ _ Hx).
Qed.

Lemma keeps_import_indv X d c fuel params h0 :
  inv [] X d -> busy X -> B -> RCli c ∈ X -> import_ok params d ->
  keeps [] (synx_native_import_indv fuel c params h0 d) d (fun _ => X) (fun _ _ => True).
Proof.
  intros Hi Hb HB Hc Hp. unfold synx_native_import_indv, import_ok in *. destruct (truthy _).
  - cond; [by apply keeps_ret|]. destruct Hp as [Hp Hpn]. by apply keeps_import_fence.
  - cond; [by apply keeps_import_handle|]. by apply keeps_ret.
Qed.

Lemma keeps_import_loop X c fuel l : forall d done,
  inv [] X d -> busy X -> B -> RCli c ∈ X -> (forall params, params ∈ l -> import_ok params d) ->
  keeps [] (import_loop fuel c l done d) d (fun _ => X) (fun _ _ => True).
Proof.
  induction l as [|params l IH]; intros d dn Hi Hb HB Hc Hl; cbn [import_loop]; [by apply keeps_ret|].
  eapply keeps_bind; [apply keeps_import_indv; try done; apply Hl; by left|]. intros [rc h] d1 Hi1 Hx1 _.
  cond; [by apply keeps_ret|]. apply IH; try done. intros q Hq.
  eapply import_ok_mono; [apply Hl; by right|exact Hx1].
Qed.

Lemma keeps_import X d s fuel params :
  inv [] X d -> busy X -> B ->
  (forall p, p ∈ match params with inl p => [p] | inr l => l end -> import_ok p d) ->
  keeps [] (synx_import fuel s params d) d (fun _ => X) (fun _ _ => True).
Proof.
  intros Hi Hb HB Hp. unfold synx_import. eapply (keeps_with_session [] X); [leaf|exact Hi|done|].
  intros d1 Hi1 Hx1 _. assert (Hb1 : busy (RCli s :: X)) by by apply busy_cons.
  assert (Hp1 : forall p, p ∈ match params with inl p => [p] | inr l => l end -> import_ok p d1).
  { intros p Hin. eapply import_ok_mono; [by apply Hp|exact Hx1]. }
  destruct params as [p|l].
  - eapply keeps_bind; [apply keeps_import_indv; try done; [by left|apply Hp1; by left]|].
    intros [rc h] d2 Hi2 _ _. by apply keeps_ret.
  - unfold synx_native_import_arr. cond; [by apply keeps_ret|].
    eapply keeps_bind; [apply keeps_import_loop; try done; by left|]. intros [rc dn] d2 Hi2 _ _.
    eapply (keeps_bind _ _ _ _ (fun _ => RCli s :: X) _ (fun _ _ => True)).
    { cond; [|by apply keeps_ret]. apply keeps_for_each; [|done|done]. intros h d3 _ Hi3 _ _.
      eapply keeps_bind; [apply keeps_release_core; [leaf|exact Hi3|by left]|]. intros r d4 Hi4 _ _. by apply keeps_ret. }
    intros [] d3 Hi3 _ _. by apply keeps_ret.
Qed.

End imports.
