(* ===== verification/SynxMerges.v ===== *)
(** * The synx client framework: merging

    Merging objects keeps the invariant: the fences of the constituents are
    gathered under references, the array becomes the fence of the new object, and
    what fails on the way is undone. *)

From S2P Require Import Prelude Bitmap SynxGlobal SynxSignal SynxDev SynxUtil SynxClient SynxInv.
From S2P Require Import SynxRefs SynxOwn SynxMem SynxKeeps SynxHandles SynxObjects SynxCreate.
From S2P Require Import SynxSignalling SynxWaiters.

(** ** Duplicates *)

Lemma dedup_loop_spec arr : forall kept dropped k dr,
  dedup_loop arr kept dropped = (k, dr) ->
  (forall f, f ∈ k -> f ∈ kept ++ arr) /\ (forall f, f ∈ dr -> f ∈ dropped ++ arr) /\
  (length k <= length kept + length arr)%nat.
Proof.
  induction arr as [|f arr IH]; intros kept dropped k dr; cbn [dedup_loop].
  - intros [= <- <-]. rewrite !app_nil_r. split_and!; [done|done|lia].
  - destruct (existsb _ _); intros H; destruct (IH _ _ _ _ H) as (H1 & H2 & H3); (split_and!; [| |]);
      try (intros g Hg; first [specialize (H1 g Hg)|specialize (H2 g Hg)]; set_solver).
    + simpl. lia.
    + rewrite length_app in H3. simpl in *. lia.
Qed.

Lemma remove_duplicates_spec arr n kept dropped :
  remove_duplicates arr = (n, kept, dropped) ->
  (forall f, f ∈ kept -> f ∈ arr) /\ (forall f, f ∈ dropped -> f ∈ arr) /\ n <= Z.max 1 (zlen arr).
Proof.
  unfold remove_duplicates. destruct (dedup_loop (drop 1 arr) (take 1 arr) []) as [k dr] eqn:Ed. intros [= <- <- <-].
  destruct (dedup_loop_spec _ _ _ _ _ Ed) as (H1 & H2 & H3).
  assert (Ha : arr = take 1 arr ++ drop 1 arr) by by rewrite take_drop. split_and!.
  - intros f Hf. rewrite Ha. auto.
  - intros f Hf. rewrite Ha. apply elem_of_app. right. apply H2 in Hf. by rewrite app_nil_l in Hf.
  - unfold zlen. rewrite length_drop. rewrite length_take, length_drop in H3. lia.
Qed.

Section merges.
Context `{F : DmaFence} `{E : SynxEnv} `{C : SynxClientEnv} `{Laws : !DmaFenceLaws} {B : Prop}.
Implicit Types d : dev.
Abbreviation keeps := (keeps (B := B)).

(** ** States with the same objects and arrays *)

Record calm (d d' : dev) : Prop := mk_calm {
  cm_objs : d_objs d' = d_objs d;
  cm_ents m e : d_ents d !! e = Some m -> exists m', d_ents d' !! e = Some m' /\ m_obj m' = m_obj m;
  cm_none p : (forall e m, d_ents d !! e = Some m -> m_obj m <> p) ->
    forall e m, d_ents d' !! e = Some m -> m_obj m <> p;
  cm_sigs : s_obj <$> d_sigs d' = s_obj <$> d_sigs d;
  cm_array f : to_dma_fence_array (d_fences d') f = to_dma_fence_array (d_fences d) f
}.

Lemma calm_refl d : calm d d.
Proof. split; eauto. Qed.
Lemma calm_trans d1 d2 d3 : calm d1 d2 -> calm d2 d3 -> calm d1 d3.
Proof.
  intros [A1 A2 A3 A4 A5] [B1 B2 B3 B4 B5]. split; try congruence.
  2: { intros p Hp. apply B3. by apply A3. }
  intros m e He. destruct (A2 m e He) as (m' & He' & Hm). destruct (B2 m' e He') as (m2 & He2 & Hm2).
  exists m2. split; [done|congruence].
Qed.
Lemma calm_quiet d d' : quiet d d' -> d_ents d' = d_ents d -> calm d d'.
Proof. intros [Q1 Q2 Q3 Q4 Q5 Q6 Q7] He. split; rewrite ?Q1, ?Q3, ?Q5, ?He; eauto. Qed.
Lemma calm_mem d d' : same_mem d d' -> calm d d'.
Proof. intros Hs. apply calm_quiet; [by apply quiet_mem|apply Hs]. Qed.
Lemma calm_fenced d d' : fenced d d' -> calm d d'.
Proof. intros []. split; rewrite ?fd_objs, ?fd_ents; eauto. Qed.

(** Nothing refers to the new object. *)
Definition unnamed (p : Z) (d : dev) : Prop :=
  (forall e m, d_ents d !! e = Some m -> m_obj m <> p) /\ (forall s x, d_sigs d !! s = Some x -> s_obj x <> Some p).

Lemma calm_unnamed p d d' : calm d d' -> unnamed p d -> unnamed p d'.
Proof.
  intros Hc [H1 H2]. split; [by apply (cm_none _ _ Hc)|]. intros s x Hs Hx.
  assert (Hf : (s_obj <$> d_sigs d') !! s = Some (Some p)) by by rewrite lookup_fmap, Hs, <- Hx.
  rewrite (cm_sigs _ _ Hc), lookup_fmap in Hf. apply fmap_Some in Hf as (y & Hy & Hp). by apply (H2 s y).
Qed.

Lemma mcount_zero {V} (q : Z -> V -> bool) (m : gmap Z V) : (forall i v, m !! i = Some v -> q i v = false) -> mcount q m = 0.
Proof.
  intros H. rewrite (mcount_ext q (fun _ _ => false) m H). clear H.
  induction m as [|i v m Hi IH] using map_ind; [apply mcount_empty|]. rewrite mcount_insert by done. by rewrite IH.
Qed.

Lemma unnamed_stored X p d : unnamed p d -> stored X d (RObj p) = 0.
Proof.
  intros [H1 H2]. simpl. rewrite !mcount_zero; [done| |].
  - intros s x Hs. rewrite bool_decide_false by by eapply H2. done.
  - intros e m He. rewrite (proj2 (Z.eqb_neq _ _)) by by eapply H1. done.
Qed.

Lemma mcount_zero_inv {V} (q : Z -> V -> bool) (m : gmap Z V) i v : mcount q m <= 0 -> m !! i = Some v -> q i v = false.
Proof. intros H Hi. destruct (q i v) eqn:Eq; [|done]. pose proof (mcount_pos q m i v Hi Eq). lia. Qed.

Lemma fresh_unnamed X p d : inv [] X d -> busy X -> (forall s, RSig s ∉ X) -> fresh p d -> unnamed p d.
Proof.
  intros Hi [Hb _] Hs Hf. pose proof (stored_fresh _ _ _ _ Hi (fz_objs _ _ Hf)) as H0. pose proof (cnt_nonneg (RObj p) X).
  unfold stored in H0. match type of H0 with mcount ?q ?m + mcount ?q' ?m' + _ = 0 =>
    pose proof (mcount_nonneg q m); pose proof (mcount_nonneg q' m');
    assert (mcount q m <= 0) as HA by lia; assert (mcount q' m' <= 0) as HB by lia end.
  split.
  - intros e m He Hm. pose proof (mcount_zero_inv _ _ e m HA He) as Hq. simpl in Hq.
    rewrite Hm, Z.eqb_refl, bool_decide_true in Hq; [done|]. rewrite <- clean_items_elem, Hb. apply not_elem_of_nil.
  - intros s x Hx Hp. pose proof (mcount_zero_inv _ _ s x HB Hx) as Hq. simpl in Hq.
    rewrite !bool_decide_true in Hq; [done|apply Hs|done].
Qed.

(** ** The fences of a constituent *)

Definition fences_of (fs : fences) (o : synx_coredata) : list Z :=
  match to_dma_fence_array fs (o_fence o) with Some l => l | None => [o_fence o] end.

Lemma object_fences_run d p o :
  d_objs d !! p = Some o -> object_fences p d = Ret (fences_of (d_fences d) o) d.
Proof. intros Ho. unfold object_fences, get_obj, gets, mbind, run_bind. by rewrite Ho. Qed.

(** A fence that exists and is not an array. *)
Definition single (f : Z) (d : dev) : Prop := f < d_next d /\ to_dma_fence_array (d_fences d) f = None.

Lemma single_ext f d d' : single f d -> ext d d' -> single f d'.
Proof. intros [Hf Hn] Hx. pose proof (ex_next _ _ Hx). split; [lia|]. by apply (ex_plain _ _ Hx). Qed.

Lemma fences_of_single L X d p o : inv L X d -> d_objs d !! p = Some o -> forall f, f ∈ fences_of (d_fences d) o -> single f d.
Proof.
  intros Hi Ho f. unfold fences_of, single. destruct (to_dma_fence_array (d_fences d) (o_fence o)) as [l|] eqn:El.
  - destruct (in_fresh _ _ _ (proj1 Hi)). eauto.
  - rewrite list_elem_of_singleton. intros ->. split; [|done]. by eapply (ob_fence _ _ _ _ _ (in_objs _ _ _ (proj1 Hi))).
Qed.

Lemma fences_of_lt L X d p o : inv L X d -> d_objs d !! p = Some o -> forall f, f ∈ fences_of (d_fences d) o -> f < d_next d.
Proof. intros Hi Ho f Hf. by eapply fences_of_single. Qed.

Lemma keeps_fence_loop L X (body : Z -> run dev unit) l d :
  (forall f d1, inv L X d1 -> f < d_next d1 -> keeps L (body f d1) d1 (fun _ => X) (fun _ d' => fenced d1 d')) ->
  inv L X d -> (forall f, f ∈ l -> f < d_next d) ->
  keeps L (for_each l body d) d (fun _ => X) (fun _ d' => fenced d d').
Proof.
  intros Hbody Hi Hl. apply keeps_for_each; [|done|apply fenced_refl]. intros f d1 Hf Hi1 Hx1 Hc.
  eapply keeps_mono; [apply Hbody; [done|]|].
  - pose proof (ex_next _ _ Hx1). specialize (Hl f Hf). lia.
  - intros [] d2 Hi2 _ Hc2. split; [done|]. by eapply fenced_trans.
Qed.

Lemma keeps_get_references L X d p o :
  inv L X d -> d_objs d !! p = Some o ->
  keeps L (synx_util_get_references p d) d (fun _ => X) (fun _ d' => fenced d d').
Proof.
  intros Hi Ho. unfold synx_util_get_references. eapply keeps_read; [by apply object_fences_run|].
  eapply keeps_bind; [apply keeps_fence_loop; [|exact Hi|by eapply fences_of_lt]|].
  - intros f d1 Hi1 Hf. by apply keeps_fence_get.
  - intros [] d1 Hi1 _ Hc. by apply keeps_ret.
Qed.

Lemma keeps_put_references L X d p o :
  inv L X d -> d_objs d !! p = Some o ->
  keeps L (synx_util_put_references p d) d (fun _ => X) (fun _ d' => fenced d d').
Proof.
  intros Hi Ho. unfold synx_util_put_references. eapply keeps_read; [by apply object_fences_run|].
  apply keeps_fence_loop; [|exact Hi|by eapply fences_of_lt]. intros f d1 Hi1 Hf. by apply keeps_fence_put.
Qed.

(** ** The constituents *)

Definition held_pairs (l : list (Z * Z)) : list res := map (fun hp => RHdl hp.1) l.

Lemma busy_pairs l X : busy X -> busy (held_pairs l ++ X).
Proof. intros Hb. induction l as [|[h p] l IH]; [done|]. by apply busy_cons. Qed.

(** The fence of the object is not an array. *)
Definition simple (p : Z) (d : dev) : Prop :=
  forall o, d_objs d !! p = Some o -> to_dma_fence_array (d_fences d) (o_fence o) = None.

(** The handles [hs] of client [c] name such objects. *)
Definition plain (c : Z) (hs : list Z) (d : dev) : Prop :=
  forall h x, d_hdls d !! h = Some x -> h_client x = c -> h_key x ∈ hs -> simple (h_obj x) d.

Lemma calm_simple p d d' : calm d d' -> simple p d -> simple p d'.
Proof. intros Hc H o. rewrite (cm_objs _ _ Hc), (cm_array _ _ Hc). apply H. Qed.

Lemma calm_mapped p d d' : calm d d' -> mapped p d -> mapped p d'.
Proof. intros Hc (e & m & He & Hm). destruct (cm_ents _ _ Hc m e He) as (m' & He' & Hm'). exists e, m'. by rewrite Hm'. Qed.

Lemma plain_step c hs d d' : calm d d' -> same_hdls d d' -> plain c hs d -> plain c hs d'.
Proof.
  intros Hc Hs H h x Hx Hxc Hxk. destruct (Hs h x Hx) as (x0 & Hx0 & E1 & E2 & E3). rewrite <- E1.
  eapply calm_simple; [exact Hc|]. apply (H h x0); congruence.
Qed.

Lemma obtain_held L X d h x :
  inv L X d -> d_hdls d !! h = Some x -> synx_util_obtain_object (Some h) d = Ret (Some (h_obj x)) d /\ mapped (h_obj x) d.
Proof.
  intros Hi Hx. split.
  - unfold synx_util_obtain_object, get_hdl, gets, mbind, run_bind. by rewrite Hx.
  - destruct (ho_obj _ _ _ (in_handles _ _ _ (proj1 Hi)) h x Hx) as (m & Hm & Ho). by exists (h_ent x), m.
Qed.

Lemma keeps_validate_loop X c hs : forall d acc count,
  inv [] (held_pairs acc ++ X) d -> busy X -> RCli c ∈ X -> (forall hp, hp ∈ acc -> mapped hp.2 d) ->
  keeps [] (validate_loop c hs acc count d) d (fun r => held_pairs r.1.1 ++ X)
    (fun r d' => calm d d' /\ (forall hp, hp ∈ r.1.1 -> mapped hp.2 d') /\
       (length r.1.1 <= length acc + length hs)%nat /\
       (plain c hs d -> (forall hp, hp ∈ acc -> simple hp.2 d) -> forall hp, hp ∈ r.1.1 -> simple hp.2 d')).
Proof.
  induction hs as [|key hs IH]; intros d acc count Hi Hb Hc Hm; cbn [validate_loop].
  { apply keeps_ret; [done|]. cbn [fst]. split_and!; [apply calm_refl|done|lia|done]. }
  assert (Hret : forall d' n b, inv [] (held_pairs acc ++ X) d' -> calm d d' ->
    keeps [] ((mret (acc, n, b) : run dev (list (Z * Z) * Z * bool)) d') d' (fun r => held_pairs r.1.1 ++ X)
      (fun r d' => calm d d' /\ (forall hp, hp ∈ r.1.1 -> mapped hp.2 d') /\
         (length r.1.1 <= length acc + length (key :: hs))%nat /\
         (plain c (key :: hs) d -> (forall hp, hp ∈ acc -> simple hp.2 d) -> forall hp, hp ∈ r.1.1 -> simple hp.2 d'))).
  { intros d' n b Hi' Hc'. apply keeps_ret; [done|]. cbn [fst]. split_and!; [done| |lia|].
    - intros hp Hhp. eapply calm_mapped; [exact Hc'|auto].
    - intros _ Hs hp Hhp. eapply calm_simple; [exact Hc'|auto]. }
  eapply keeps_bind; [apply keeps_acquire_handle; [leaf|exact Hi|apply elem_of_app; by right]|].
  intros [h|] d1 Hi1 _ (Hq1 & He1 & Hs1 & Hh).
  2: { eapply keeps_read; [done|]. cbn beta iota. apply Hret; [done|by apply calm_quiet]. }
  destruct (Hh h eq_refl) as (x & Hx & Hxk & Hxc).
  destruct (obtain_held _ _ _ _ _ Hi1 Hx) as [Hob Hmx]. eapply keeps_read; [exact Hob|]. cbn beta iota.
  assert (Hb1 : busy (RHdl h :: held_pairs acc ++ X)) by (apply busy_cons; [by apply busy_pairs|done]).
  destruct (mapped_live _ _ _ _ Hi1 Hb1 Hmx) as [o Ho]. eapply keeps_get_obj; [exact Ho|].
  pose proof (calm_quiet _ _ Hq1 He1) as Hc1.
  cond; [apply Hret; [by apply (inv_forget _ (RHdl h))|done]|].
  eapply keeps_bind; [by eapply keeps_get_references|]. intros n d2 Hi2 _ Hf2.
  pose proof (calm_trans _ _ _ Hc1 (calm_fenced _ _ Hf2)) as Hc2.
  eapply keeps_mono; [apply (IH d2 (acc ++ [(h, h_obj x)])); [|done|done|]|].
  - eapply inv_perm; [|exact Hi2]. unfold held_pairs. rewrite map_app, <- app_assoc. simpl.
    apply Permutation_middle.
  - intros hp. rewrite elem_of_app, list_elem_of_singleton. intros [Hin| ->].
    + eapply calm_mapped; [exact Hc2|auto].
    + exact (calm_mapped _ _ _ (calm_fenced _ _ Hf2) Hmx).
  - intros r d3 Hi3 _ (Hc3 & Hm3 & Hl3 & Hp3). split; [done|]. split_and!.
    + by eapply calm_trans.
    + done.
    + rewrite length_app in Hl3. simpl in *. lia.
    + intros Hpl Hsi. apply Hp3.
      * eapply plain_step; [exact Hc2| |].
        -- intros h' x'. rewrite (fd_hdls _ _ Hf2). apply Hs1.
        -- intros h' x' Hx' Hc' Hk'. eapply Hpl; [done|done|by right].
      * intros hp. rewrite elem_of_app, list_elem_of_singleton. intros [Hin| ->].
        -- eapply calm_simple; [exact Hc2|auto].
        -- pose proof (plain_step _ _ _ _ Hc1 Hs1 Hpl) as Hpl1.
           apply (calm_simple _ _ _ (calm_fenced _ _ Hf2)), (Hpl1 h x Hx Hxc). rewrite Hxk. by left.
Qed.

Lemma keeps_gather_loop X l : forall d acc,
  inv [] (held_pairs l ++ X) d -> busy X -> (forall hp, hp ∈ l -> mapped hp.2 d) ->
  (forall f, f ∈ acc -> single f d) ->
  keeps [] (gather_loop l acc d) d (fun _ => X)
    (fun r d' => calm d d' /\ (forall f, f ∈ r -> single f d') /\
       ((forall hp, hp ∈ l -> simple hp.2 d) -> length r = (length acc + length l)%nat)).
Proof.
  induction l as [|[h p] l IH]; intros d acc Hi Hb Hm Hacc; cbn [gather_loop].
  { apply keeps_ret; [done|]. split_and!; [apply calm_refl|done|]. intros _. simpl. lia. }
  assert (Hbl : busy (held_pairs ((h, p) :: l) ++ X)) by by apply busy_pairs.
  destruct (mapped_live _ _ p _ Hi Hbl) as [o Ho]; [apply (Hm (h, p)); by left|].
  unfold synx_util_add_fence. apply keeps_assoc. eapply keeps_read; [by apply object_fences_run|].
  eapply keeps_read; [done|].
  eapply keeps_bind; [apply (keeps_release_handle [] (held_pairs l ++ X)); [leaf|exact Hi]|].
  intros [] d1 Hi1 Hx1 [Hq1 He1]. pose proof (calm_quiet _ _ Hq1 He1) as Hc1.
  eapply keeps_mono; [apply (IH d1); [done|done| |]|].
  - intros hp Hin. eapply calm_mapped; [exact Hc1|]. apply Hm. by right.
  - intros f. rewrite elem_of_app. intros [Hf|Hf]; eapply single_ext; [by apply Hacc|done| |done].
    by eapply fences_of_single.
  - intros r d2 Hi2 _ (Hc2 & Hr2 & Hl2). split; [done|]. split_and!; [by eapply calm_trans|done|].
    intros Hs. rewrite Hl2, length_app.
    + unfold fences_of. rewrite (Hs (h, p) ltac:(by left) o Ho). simpl. lia.
    + intros hp Hin. eapply calm_simple; [exact Hc1|]. apply Hs. by right.
Qed.

Lemma keeps_undo_validate X l : forall d,
  inv [] (held_pairs l ++ X) d -> busy X -> (forall hp, hp ∈ l -> mapped hp.2 d) ->
  keeps [] (for_each l (fun hp => synx_util_put_references hp.2 ;; synx_util_release_handle (Some hp.1)) d) d
    (fun _ => X) (fun _ d' => calm d d').
Proof.
  induction l as [|[h p] l IH]; intros d Hi Hb Hm; cbn [for_each]; [apply keeps_ret; [done|apply calm_refl]|].
  assert (Hbl : busy (held_pairs ((h, p) :: l) ++ X)) by by apply busy_pairs.
  destruct (mapped_live _ _ p _ Hi Hbl) as [o Ho]; [apply (Hm (h, p)); by left|].
  cbn [fst snd]. apply keeps_assoc.
  eapply keeps_bind; [by eapply keeps_put_references|]. intros [] d1 Hi1 _ Hf1.
  eapply keeps_bind; [apply (keeps_release_handle [] (held_pairs l ++ X)); [leaf|exact Hi1]|].
  intros [] d2 Hi2 _ [Hq2 He2].
  pose proof (calm_trans _ _ _ (calm_fenced _ _ Hf1) (calm_quiet _ _ Hq2 He2)) as Hc2.
  eapply keeps_mono; [apply (IH d2); [done|done|]|].
  - intros hp Hin. eapply calm_mapped; [exact Hc2|]. apply Hm. by right.
  - intros [] d3 Hi3 _ Hc3. split; [done|]. by eapply calm_trans.
Qed.

Lemma keeps_validate_merge X d c hs :
  inv [] X d -> busy X -> RCli c ∈ X ->
  keeps [] (synx_util_validate_merge c hs d) d (fun _ => X)
    (fun r d' => calm d d' /\ (forall f, f ∈ r.1.2 -> single f d') /\ (plain c hs d -> r.2 <= zlen hs)).
Proof.
  intros Hi Hb Hc. unfold synx_util_validate_merge.
  assert (Hret : forall d' (rc : Z), inv [] X d' -> calm d d' ->
    keeps [] ((mret (rc, [], 0) : run dev (Z * list Z * Z)) d') d' (fun _ => X)
      (fun r d' => calm d d' /\ (forall f, f ∈ r.1.2 -> single f d') /\ (plain c hs d -> r.2 <= zlen hs))).
  { intros d' rc Hi' Hc'. apply keeps_ret; [done|]. cbn [fst snd]. split_and!; [done| |].
    - intros f Hf. by apply elem_of_nil in Hf.
    - intros _. unfold zlen. lia. }
  destruct (zlen hs <=? 1) eqn:Elen; [apply Hret; [done|apply calm_refl]|]. zbool.
  eapply keeps_kzalloc; [exact Hi| |]; [intros d1 Hi1 Hs1; apply Hret; [done|by apply calm_mem]|].
  intros _ d1 Hi1 Hs1 _. eapply keeps_kzalloc; [exact Hi1| |].
  { intros d2 Hi2 Hs2. apply Hret; [done|]. eapply calm_trans; by apply calm_mem. }
  intros _ d2 Hi2 Hs2 _. assert (Hc2 : calm d d2) by (eapply calm_trans; by apply calm_mem).
  assert (Hh2 : same_hdls d d2).
  { intros h x. rewrite (sm_hdls _ _ Hs2), (sm_hdls _ _ Hs1). intros Hx. by exists x. }
  eapply keeps_bind.
  { apply (keeps_validate_loop X c hs d2 [] 0); [exact Hi2|done|done|]. intros hp Hhp. by apply elem_of_nil in Hhp. }
  intros [[l count] ok] d3 Hi3 _ (Hc3 & Hm3 & Hl3 & Hp3). cbn [fst snd length] in *.
  pose proof (calm_trans _ _ _ Hc2 Hc3) as Hc3'.
  eapply (keeps_bind _ _ _ _ (fun _ => held_pairs l ++ X) _ (fun _ d' => same_mem d3 d')).
  { destruct ok; [|apply keeps_ret; [done|apply same_mem_refl]]. apply keeps_kzalloc'. done. }
  intros a d4 Hi4 _ Hs4. pose proof (calm_trans _ _ _ Hc3' (calm_mem _ _ Hs4)) as Hc4.
  assert (Hm4 : forall hp, hp ∈ l -> mapped hp.2 d4).
  { intros hp Hhp. eapply calm_mapped; [by apply calm_mem|auto]. }
  destruct a as [a|].
  2: { eapply keeps_bind; [by apply keeps_undo_validate|]. intros [] d5 Hi5 _ Hc5. apply Hret; [done|]. by eapply calm_trans. }
  eapply keeps_bind.
  { apply (keeps_gather_loop X l d4 []); [done|done|done|]. intros f Hf. by apply elem_of_nil in Hf. }
  intros fences d5 Hi5 _ (Hc5 & Hf5 & Hl5). unfold synx_util_remove_duplicates.
  destruct (remove_duplicates fences) as [[n kept] dropped] eqn:Er.
  destruct (remove_duplicates_spec _ _ _ _ Er) as (R1 & R2 & R3). apply keeps_assoc.
  eapply keeps_bind.
  { apply keeps_fence_loop; [|exact Hi5|intros f Hf; by apply Hf5, R2]. intros f d' Hi' Hf'. by apply keeps_fence_put. }
  intros [] d6 Hi6 Hx6 Hf6. eapply keeps_read; [done|]. cbn beta iota. apply keeps_ret; [done|]. cbn [fst snd]. split_and!.
  - eapply calm_trans; [exact Hc4|]. eapply calm_trans; [exact Hc5|]. by apply calm_fenced.
  - intros f Hf. eapply single_ext; [by apply Hf5, R1|done].
  - intros Hpl. assert (Hsi : forall hp, hp ∈ l -> simple hp.2 d4).
    { intros hp Hhp. eapply calm_simple; [by apply calm_mem|]. apply Hp3; [|by intros ? ?%elem_of_nil|done].
      by eapply plain_step. }
    specialize (Hl5 Hsi). unfold zlen in *. simpl in Hl5. lia.
Qed.

(** ** The array of the new object *)

Lemma inv_new_array L X d a l :
  inv L X d -> unused (d_fences d) a -> a < d_next d -> (forall c, c ∈ l -> c < a /\ to_dma_fence_array (d_fences d) c = None) ->
  (forall f l c, to_dma_fence_array (d_fences d) f = Some l -> c ∈ l -> c < a) ->
  (forall p o, d_objs d !! p = Some o -> o_fence o < a) ->
  inv L X (set_d_fences (dma_fence_array_create a l (d_fences d)) d).
Proof.
  intros Hi Hu Ha Hl Hch Ho. destruct (fence_array_step a l (d_fences d) Hu) as (S1 & S2 & S3 & S4).
  pose proof (in_fresh _ _ _ (proj1 Hi)) as Hf. apply (inv_fence L X d [] _ Hi S1).
  - intros f Hge. apply S4; [lia|]. by apply (fr_fences _ _ Hf).
  - intros f l' c Hl' Hc. destruct (decide (f = a)) as [->|Hne].
    + rewrite S2 in Hl'. injection Hl' as <-. destruct (Hl c Hc). split; [lia|]. rewrite S3; [done|lia].
    + rewrite S3 in Hl' by done. pose proof (fr_flat _ _ Hf f l' c Hl' Hc) as Hn.
      split; [by apply (fr_children _ _ Hf f l')|]. rewrite S3; [done|]. specialize (Hch f l' c Hl' Hc). lia.
  - intros p o Hp Hn _. rewrite S3; [done|]. specialize (Ho p o Hp). lia.
Qed.

Lemma keeps_group_handle L X d (is_global : bool) h0 :
  inv L X d -> B ->
  keeps L ((if is_global then synx_alloc_global_handle h0
            else '(rc, h) ← synx_alloc_local_handle;
                 mret (rc, if rc =? SYNX_SUCCESS then h else h0)) d) d (fun _ => X)
    (fun r d' => same_mem d d' /\ (r.1 = SYNX_SUCCESS -> handle_ok r.2)).
Proof.
  intros Hi HB. destruct is_global.
  - eapply keeps_mono; [by apply keeps_alloc_global|]. intros r d1 Hi1 _ [G1 H1]. split; [done|].
    split; [by apply gm_only_mem|done].
  - eapply keeps_bind; [by apply keeps_alloc_local|]. intros [rc h] d1 Hi1 _ [[bits ->] H1]. apply keeps_ret; [done|].
    split; [split; simpl; done || lia|]. simpl. intros Hrc. simpl in H1. rewrite Hrc in *. cbn. intros _. auto.
Qed.

Lemma lor_merged flags : truthy (Z.land (Z.lor flags SYNX_CREATE_MERGED_FENCE) SYNX_CREATE_MERGED_FENCE) = true.
Proof. rewrite Z.land_comm, Z.lor_comm, Z.land_lor_distr_r, Z.land_diag. unfold truthy.
  rewrite negb_true_iff, Z.eqb_neq, Z.lor_eq_0_iff. by intros []. Qed.

Lemma keeps_init_group L X d p fences flags h0 :
  leafless L -> inv L X d -> B -> unborn X p d -> (forall f, f ∈ fences -> single f d) ->
  keeps L (synx_util_init_group_coredata p fences flags h0 d) d
    (fun r => if r.1 =? SYNX_SUCCESS then RObj p :: X else X)
    (fun r d' => if r.1 =? SYNX_SUCCESS then (exists o, newborn p o d') /\ handle_ok r.2 else freeable X p d').
Proof.
  intros HL Hi HB Hu Hf. unfold synx_util_init_group_coredata. cbn zeta.
  eapply keeps_bind; [by apply keeps_group_handle|]. intros [rc h] d1 Hi1 _ [Hs1 Hrc]. simpl in Hrc.
  pose proof (unborn_mem _ _ _ _ Hs1 Hu) as [Ho1 H01].
  eapply (keeps_bind _ _ _ _ (fun _ => X) _ (fun _ d2 => exists i,
    d2 = set_d_objs (<[p := set_o_global_idx i zero_obj]> (d_objs d1)) d1)).
  { destruct (truthy _) eqn:Eg; cbn [when].
    - apply keeps_tt. eapply keeps_upd_obj; [exact Ho1|]. apply keeps_ret; [|by eexists].
      eapply inv_obj_frame; [exact Hi1|exact Ho1|by split; auto|done].
    - apply keeps_ret; [done|]. exists 0. change (set_o_global_idx 0 zero_obj) with zero_obj.
      rewrite insert_id by done. by destruct d1. }
  intros [] d2 Hi2 _ [i ->]. set (o2 := set_o_global_idx i zero_obj) in *.
  match type of Hi2 with inv _ _ ?s => set (d2 := s) in * end.
  assert (Ho2 : d_objs d2 !! p = Some o2) by apply lookup_insert_eq.
  assert (Hfree : forall d3, same_mem d2 d3 -> freeable X p d3).
  { intros d3 Hs3. exists o2. split; [by rewrite (sm_objs _ _ Hs3)|]. split; [done|].
    rewrite <- H01. apply Z.eq_le_incl. unfold stored. by rewrite (sm_ents _ _ Hs3), (sm_sigs _ _ Hs3). }
  destruct (rc =? SYNX_SUCCESS) eqn:Erc; cbn [negb].
  2: { apply keeps_ret; cbn [fst snd]; rewrite Erc; [done|]. apply Hfree, same_mem_refl. }
  zbool. eapply keeps_kzalloc_from; [exact Hi2| |].
  { intros d3 Hi3 Hs3. eapply keeps_from; [by apply same_mem_ext|]. apply keeps_ret; [done|]. by apply Hfree. }
  intros a d3 Hi3 Hs3 Hfa Hge. pose proof (fz_next _ _ Hfa) as Hna.
  assert (Hlt : forall f, f ∈ fences -> f < a).
  { intros f Hin. destruct (Hf f Hin) as [Hlt _]. pose proof (sm_next _ _ Hs1). unfold d2 in Hge. simpl in Hge. lia. }
  destruct (fence_array_step a fences (d_fences d3) (fz_fence _ _ Hfa)) as (S1 & S2 & S3 & _).
  assert (Hcb : cbs (dma_fence_array_create a fences (d_fences d3)) a = []).
  { destruct (fs_cbs _ _ _ S1 a) as [[-> _]|[-> _]]; [apply Hfa|done]. }
  assert (Hi4 : inv L X (set_d_fences (dma_fence_array_create a fences (d_fences d3)) d3)).
  { apply inv_new_array; [done|apply Hfa|lia|..].
    - intros c Hc. split; [auto|]. rewrite (sm_fences _ _ Hs3). unfold d2. simpl. rewrite (sm_fences _ _ Hs1). by apply Hf.
    - intros f l c. rewrite (sm_fences _ _ Hs3). intros Hl Hc. pose proof (fr_children _ _ (in_fresh _ _ _ (proj1 Hi2)) f l c Hl Hc). lia.
    - intros q o. rewrite (sm_objs _ _ Hs3). intros Hq. pose proof (ob_fence _ _ _ _ _ (in_objs _ _ _ (proj1 Hi2)) q o Hq). lia. }
  assert (Hxa : ext d2 (set_d_fences (dma_fence_array_create a fences (d_fences d3)) d3)).
  { split; simpl; rewrite ?(sm_ents _ _ Hs3), ?(sm_hdls _ _ Hs3), ?(sm_clients _ _ Hs3); eauto 10.
    - apply (sm_next _ _ Hs3).
    - intros f Hlf Hnf. rewrite S3; [by rewrite (sm_fences _ _ Hs3)|]. intros ->. unfold d2 in Hlf. simpl in Hlf, Hge. lia. }
  eapply keeps_run_from; [done|exact Hxa|].
  set (d4 := set_d_fences _ d3) in *.
  assert (Ho4 : d_objs d4 !! p = Some o2) by (unfold d4; simpl; by rewrite (sm_objs _ _ Hs3)).
  eapply keeps_upd_obj; [exact Ho4|].
  match goal with |- context [<[p := ?o]> (d_objs d4)] => set (o5 := o) end.
  assert (Hi5 : inv L (RObj p :: X) (set_d_objs (<[p := o5]> (d_objs d4)) d4)).
  { eapply (inv_upd_obj L X (RObj p :: X) d4 p o2 o5); try done.
    - by apply same_items_cons.
    - simpl. lia.
    - intros _. exists fences. split; [exact S2|]. intros Hin. specialize (Hlt _ Hin). simpl in Hlt. lia.
    - intros Hm. unfold synx_util_is_merged_object in Hm. simpl in Hm. by rewrite lor_merged in Hm.
    - intros r _ Hne. rewrite cnt_cons_ne by done. lia.
    - rewrite cnt_cons_eq. destruct (Hfree d3 Hs3) as (o' & _ & _ & H3).
      change (stored X d4 (RObj p)) with (stored X d3 (RObj p)). simpl o_refcount. lia. }
  set (d5 := set_d_objs _ d4) in *.
  assert (Ho5 : d_objs d5 !! p = Some o5) by apply lookup_insert_eq.
  eapply keeps_store_status; [done|exact Hi5|exact Ho5|]. intros st.
  eapply (inv_status _ _ _ p o5 st) in Hi5; [|exact Ho5]. set (o6 := set_o_status st o5) in *.
  match type of Hi5 with inv _ _ ?s => set (d6 := s) in * end.
  assert (Hn6 : newborn p o6 d6) by (split; [apply lookup_insert_eq|done..]).
  eapply keeps_bind; [apply (keeps_activate L (RObj p :: X) d6 p o6); [done|exact Hi5|apply Hn6|exact Hcb]|].
  intros r7 d7 Hi7 _ Hf7. apply keeps_ret; cbn [fst snd]; rewrite (proj2 (Z.eqb_eq rc _)) by done; [done|].
  split; [|auto]. exists o6. eapply newborn_objs; [exact Hn6|apply Hf7].
Qed.

(** ** The rounds over the constituents *)

Lemma global_children_run L X d fs :
  leafless L -> inv L X d -> exists r, global_children fs d = Ret r d.
Proof.
  intros HL Hi. induction fs as [|f fs IH]; [by eexists|]. cbn [global_children].
  destruct (get_fence_entry_run L X d f 1 HL Hi) as [h Hh]. destruct IH as [r Hr].
  rewrite (bind_ret _ _ _ _ _ Hh), (bind_ret _ _ _ _ _ Hr). by eexists.
Qed.

Lemma keeps_merge_error_round X d c h :
  inv [] X d -> busy X -> RCli c ∈ X -> keeps [] (merge_error_round c h d) d (fun _ => X) (fun _ _ => True).
Proof.
  intros Hi Hb Hc. unfold merge_error_round.
  eapply keeps_bind; [by apply keeps_acquire_handle; [leaf|..]|]. intros [hd|] d1 Hi1 _ _.
  2: { eapply keeps_read; [done|]. by apply keeps_ret. }
  destruct (obtain_object _ _ _ hd Hi1) as (p & Hp & Hm); [by left|]. eapply keeps_read; [exact Hp|].
  assert (Hb1 : busy (RHdl hd :: X)) by by apply busy_cons.
  destruct (mapped_live _ _ _ _ Hi1 Hb1 Hm) as [o Ho]. eapply keeps_get_obj; [exact Ho|].
  cond; [apply keeps_ret; [|done]; by apply (inv_forget _ (RHdl hd))|].
  eapply keeps_bind; [by eapply keeps_put_references|]. intros [] d2 Hi2 _ _.
  eapply keeps_mono; [apply keeps_release_handle; [leaf|exact Hi2]|done].
Qed.

Lemma keeps_merge_error X d c hs n :
  inv [] X d -> busy X -> RCli c ∈ X -> n <= zlen hs ->
  keeps [] (synx_util_merge_error c hs n d) d (fun _ => X) (fun _ _ => True).
Proof.
  intros Hi Hb Hc Hn. unfold synx_util_merge_error. apply keeps_guard; [by apply Z.leb_le|].
  apply keeps_for_each; [|done|done]. intros h d1 _ Hi1 _ _. by apply keeps_merge_error_round.
Qed.

Lemma keeps_merge_child X d c p h :
  inv [] X d -> busy X -> RCli c ∈ X -> mapped p d ->
  keeps [] (merge_child_round c p h d) d (fun _ => X) (fun _ d' => True).
Proof.
  intros Hi Hb Hc Hm. unfold merge_child_round. eapply keeps_bind; [by apply keeps_global|].
  intros st d1 Hi1 _ [g ->]. cond; [by apply keeps_ret|].
  eapply keeps_bind; [by apply keeps_acquire_handle; [leaf|..]|]. intros [hd|] d2 Hi2 Hx2 _.
  2: { eapply keeps_read; [done|]. by apply keeps_ret. }
  destruct (obtain_object _ _ _ hd Hi2) as (child & Hp & Hmc); [by left|]. eapply keeps_read; [exact Hp|].
  assert (Hb2 : busy (RHdl hd :: X)) by by apply busy_cons.
  eapply (keeps_bind _ _ _ _ (fun _ => RHdl hd :: X) _ (fun _ _ => True)).
  { eapply keeps_lock; [exact Hi2|by rewrite elem_of_nil|]. intros Hi3.
    destruct (mapped_live _ _ p _ Hi3 Hb2) as [o Ho]; [exact (mapped_ext p (set_d_gm g d) d2 Hm Hx2)|].
    eapply keeps_get_obj; [exact Ho|]. cond; [|by apply keeps_ret].
    eapply keeps_bind; [apply keeps_native_signal_fence; [leaf|exact Hi3|by apply busy_anchored|apply Hb2]|].
    intros rc d4 Hi4 _ _. by apply keeps_ret. }
  intros [] d3 Hi3 _ _. eapply keeps_mono; [apply keeps_release_handle; [leaf|exact Hi3]|done].
Qed.

Lemma keeps_merge_children X d c p h params fs :
  inv [] X d -> busy X -> RCli c ∈ X -> mapped p d ->
  keeps [] (merge_children c p h params fs d) d (fun _ => X) (fun _ _ => True).
Proof.
  intros Hi Hb Hc Hm. unfold merge_children. cbn zeta.
  assert (Hclear : forall d' (rc : Z), inv [] X d' ->
    keeps [] ((synx_native_release_core c h ;; (mret rc : run dev Z)) d') d' (fun _ => X) (fun _ _ => True)).
  { intros d' rc Hi'. eapply keeps_bind; [by apply keeps_release_core; [leaf|..]|]. intros r d2 Hi2 _ _. by apply keeps_ret. }
  eapply keeps_kzalloc; [exact Hi|intros d1 Hi1 _; by apply Hclear|]. intros _ d1 Hi1 Hs1 _.
  eapply keeps_kzalloc; [exact Hi1|intros d2 Hi2 _; by apply Hclear|]. intros _ d2 Hi2 Hs2 _.
  destruct (global_children_run [] X d2 fs leafless_nil Hi2) as [r Hr]. eapply keeps_read; [exact Hr|].
  assert (Hm2 : mapped p d2).
  { eapply mapped_ext; [exact Hm|]. eapply ext_trans; by apply same_mem_ext. }
  cond.
  - eapply keeps_bind; [by apply keeps_global|]. intros rc d3 Hi3 _ _. cond; [by apply Hclear|by apply keeps_ret].
  - eapply (keeps_bind _ _ _ _ (fun _ => X) _ (fun _ _ => True)).
    { apply keeps_for_each; [|done|done]. intros k d3 _ Hi3 Hx3 _. apply keeps_merge_child; try done. by eapply mapped_ext. }
    intros [] d3 Hi3 _ _. by apply keeps_ret.
Qed.

(** ** [synx_merge] *)

Lemma keeps_merge_client X d c params h0 :
  inv [] X d -> busy X -> (forall s, RSig s ∉ X) -> B -> RCli c ∈ X -> plain c (mp_h_synxs params) d ->
  stack_garbage = None -> keeps [] (merge_client c params h0 d) d (fun _ => X) (fun _ _ => True).
Proof.
  intros Hi Hb Hsig HB Hc Hpl Hg. unfold merge_client. eapply keeps_kzalloc; [exact Hi| |].
  { intros d1 Hi1 _. by apply keeps_ret. }
  intros p d1 Hi1 Hs1 Hf. pose proof (fresh_unnamed _ _ _ Hi1 Hb Hsig Hf) as Hun.
  pose proof (stored_fresh _ _ _ _ Hi1 (fz_objs _ _ Hf)) as H0. rewrite (unnamed_stored X _ _ Hun) in H0.
  eapply keeps_modify; [by apply ext_fields|].
  eapply (inv_new_obj _ _ _ p) in Hi1; [|done]. set (d2 := set_d_objs _ d1) in *.
  assert (Hun2 : unnamed p d2) by exact Hun. assert (Ho2 : d_objs d2 !! p = Some zero_obj) by apply lookup_insert_eq.
  assert (Hpl2 : plain c (mp_h_synxs params) d2).
  { intros h x Hx Hxc Hk o Ho. unfold d2 in *. simpl in *. rewrite (sm_hdls _ _ Hs1) in Hx.
    rewrite (sm_fences _ _ Hs1). apply lookup_insert_Some in Ho as [[Hp <-]|[_ Ho]].
    - simpl. destruct (ho_obj _ _ _ (in_handles _ _ _ (proj1 Hi)) h x Hx) as (m & Hm & Hmo).
      destruct Hun as [Hun _]. destruct (Hun (h_ent x) m); [by rewrite (sm_ents _ _ Hs1)|congruence].
    - rewrite (sm_objs _ _ Hs1) in Ho. by apply (Hpl h x Hx Hxc Hk o). }
  eapply keeps_bind; [by apply keeps_validate_merge|].
  intros [[rc fs] count] d3 Hi3 _ (Hc3 & Hf3 & Hn3). cbn [fst snd] in *. specialize (Hn3 Hpl2).
  assert (Hu3 : unborn X p d3).
  { split; [by rewrite (cm_objs _ _ Hc3)|]. rewrite unnamed_stored; [lia|]. by eapply calm_unnamed. }
  assert (Hfu : freeable X p d3).
  { exists zero_obj. destruct Hu3 as [Hu1 Hu2]. split_and!; [done|done|lia]. }
  cond; [eapply keeps_bind; [by apply keeps_free_obj|]; intros [] d4 Hi4 _ _; by apply keeps_ret|].
  eapply keeps_bind; [apply keeps_init_group; [leaf|done..]|]. intros [rc4 h] d4 Hi4 _ H4. cbn [fst snd] in *.
  unfold truthy. change SYNX_SUCCESS with 0 in *. destruct (rc4 =? 0); cbn [negb].
  2: { rewrite Hg. unfold merge_clean_up. apply keeps_assoc.
       eapply keeps_bind; [by apply keeps_free_obj|]. intros [] d5 Hi5 _ _.
       eapply keeps_bind; [by apply keeps_merge_error|]. intros [] d6 Hi6 _ _. by apply keeps_ret. }
  destruct H4 as [[o4 Hn4] Hh]. eapply keeps_bind; [by apply keeps_insert_to_map; [leaf|..]|].
  intros [e|] d5 Hi5 _ (Hq5 & _ & He5); eapply newborn_objs in Hn4; [|apply Hq5| |apply Hq5].
  2: { eapply keeps_get_obj; [apply Hn4|]. eapply keeps_bind.
       { apply keeps_fence_put; [exact Hi5|]. by eapply (ob_fence _ _ _ _ _ (in_objs _ _ _ (proj1 Hi5)) p), Hn4. }
       intros [] d6 Hi6 _ Hf6. eapply newborn_objs in Hn4; [|apply Hf6].
       pose proof (newborn_freeable _ _ _ _ _ Hi6 Hn4) as Hfr. apply inv_forget in Hi6; [|done].
       eapply keeps_bind; [by apply keeps_free_obj|]. intros [] d7 Hi7 _ _. by apply keeps_ret. }
  destruct (He5 e eq_refl) as (m & Hm & Hmo & Hmk).
  eapply keeps_bind; [apply keeps_add_callback; [leaf|exact Hi5|done|by eexists; apply Hn4]|].
  intros rc6 d6 Hi6 Hx6 _.
  assert (Hrel : forall d' (rc' : Z), inv [] (REnt e :: X) d' ->
    keeps [] ((merge_clean_up c p params count (Some e) ;; (mret (rc', h) : run dev (Z * Z))) d') d' (fun _ => X) (fun _ _ => True)).
  { intros d' rc' Hi'. eapply keeps_bind; [by apply (keeps_release_map_entry [] X); [leaf|]|].
    intros [] d7 Hi7 _ _. by apply keeps_ret. }
  destruct (negb (rc6 =? 0)); [by apply Hrel|].
  destruct (ex_ents _ _ Hx6 e m Hm) as (m' & Hm' & Hmo' & _).
  eapply keeps_bind; [eapply (keeps_init_handle [] X d6 c p h e m'); [leaf|done|done|done|congruence]|].
  intros rc7 d7 Hi7 Hx7 _. cbn beta in Hi7. change SYNX_SUCCESS with 0 in *.
  destruct (rc7 =? 0); cbn [negb]; [|by apply Hrel].
  destruct (ex_ents _ _ Hx7 e m' Hm') as (m7 & Hm7 & Hmo7 & _).
  eapply keeps_bind; [apply keeps_merge_children; try done; exists e, m7; split; [done|congruence]|].
  intros rc8 d8 Hi8 _ _. by apply keeps_ret.
Qed.

Lemma keeps_merge X d s params h0 :
  inv [] X d -> busy X -> (forall q, RSig q ∉ X) -> B -> plain s (mp_h_synxs params) d -> stack_garbage = None ->
  keeps [] (synx_merge s params h0 d) d (fun _ => X) (fun _ _ => True).
Proof.
  intros Hi Hb Hsig HB Hpl Hg. unfold synx_merge, with_session.
  eapply keeps_bind; [by apply keeps_get_client; [leaf|]|]. intros [c|] d1 Hi1 _ (Hc & Hq & Hh & He); [|by apply keeps_ret].
  rewrite (Hc c eq_refl) in *.
  eapply keeps_bind; [apply (keeps_merge_client (RCli s :: X)); [exact Hi1|by apply busy_cons| |done|by left| |done]|].
  - intros q. rewrite elem_of_cons. intros [|Hin]; [done|by apply (Hsig q)].
  - intros h x Hx. rewrite Hh in Hx. intros Hxc Hk o Ho. rewrite (q_objs _ _ Hq) in Ho. rewrite (q_fences _ _ Hq).
    by apply (Hpl h x Hx Hxc Hk o).
  - intros r d2 Hi2 _ _. eapply keeps_bind; [by apply (keeps_put_client [] X); [leaf|]|]. intros [] d3 Hi3 _ _. by apply keeps_ret.
Qed.

End merges.
