(* ===== verification/SynxSafe.v ===== *)
(** * The synx client framework: its runs

    The calls of the framework, its work items and timers, and what the rest of
    the machine does, as the steps of a system; every step from a reachable state
    keeps the invariant. *)

From S2P Require Import Prelude Bitmap SynxGlobal SynxSignal SynxDev SynxUtil SynxClient SynxInv.
From S2P Require Import SynxRefs SynxOwn SynxMem SynxKeeps SynxHandles SynxObjects SynxCreate.
From S2P Require Import SynxSignalling SynxWaiters SynxMerges.

(** ** Sessions *)

Section sessions.
Context `{F : DmaFence} `{E : SynxEnv} `{C : SynxClientEnv} `{Laws : !DmaFenceLaws} {B : Prop}.
Implicit Types d : dev.
Abbreviation keeps := (keeps (B := B)).

Lemma keeps_initialize X d :
  inv [] X d -> keeps [] (synx_initialize d) d (fun _ => X) (fun _ _ => True).
Proof.
  intros Hi. unfold synx_initialize. eapply keeps_kzalloc; [exact Hi|intros d1 Hi1 _; by apply keeps_ret|].
  intros c d1 Hi1 _ Hf. eapply keeps_modify; [by apply ext_fields|].
  assert (Hi2 : inv [] X (set_d_counter (d_counter d1 + 1) d1)) by inv_same Hi1.
  assert (Hf2 : fresh c (set_d_counter (d_counter d1 + 1) d1)) by (destruct Hf; by split).
  apply keeps_gets. set (d2 := set_d_counter _ d1) in *. eapply keeps_modify; [apply ext_upd_cli|].
  set (cl := mk_cli _ _ _ _ _ _ _). pose proof (inv_new_cli _ _ _ c cl Hi2 Hf2 eq_refl eq_refl eq_refl eq_refl) as Hi3.
  match type of Hi3 with inv _ _ ?s => set (d3 := s) in * end.
  eapply (keeps_bind _ _ _ _ (fun _ => X) _ (fun _ _ => True)).
  - eapply keeps_leaf; [leaf|leaf|exact Hi3|]. intros Hi4. apply keeps_tt. eapply keeps_modify; [by apply ext_fields|].
    apply keeps_ret; [|done]. eapply (inv_add_session _ _ _ c cl); [exact Hi4|apply lookup_insert_eq|done].
  - intros [] d5 Hi5 _ _. by apply keeps_ret.
Qed.

(** The reference of the session is in hand once it is not active. *)
Lemma inv_deactivate L X d c cl :
  inv L X d -> d_clients d !! c = Some cl -> cl_active cl = true ->
  inv L (RCli c :: X) (set_d_clients (<[c := set_cl_active false cl]> (d_clients d)) d).
Proof.
  intros Hi Hc Ha. eapply (inv_upd_cli L X _ d c cl); [exact Hi|by apply same_items_cons|exact Hc|..].
  - split; auto.
  - by left.
  - intros r _ Hne. rewrite cnt_cons_ne; [lia|congruence].
  - pose proof (proj2 Hi (RCli c) eq_refl) as H. rewrite cnt_cons_eq. simpl in *. rewrite Hc, Ha in H. simpl in H. lia.
Qed.

Lemma keeps_uninitialize X d s :
  inv [] X d -> keeps [] (synx_uninitialize s d) d (fun _ => X) (fun _ _ => True).
Proof.
  intros Hi. unfold synx_uninitialize.
  eapply (keeps_bind _ _ _ _ (fun r => match r with Some c => RCli c :: X | None => X end) _ (fun _ _ => True)).
  { eapply keeps_leaf; [leaf|leaf|exact Hi|]. intros Hi1. apply keeps_gets.
    case_bool_decide as Hin; [|by apply keeps_ret].
    destruct (co_session _ _ (in_clients _ _ _ (proj1 Hi1)) s Hin) as (cl & Hc & _).
    eapply keeps_get_cli; [exact Hc|]. destruct (cl_active cl) eqn:Ea; [|by apply keeps_ret].
    eapply keeps_upd_cli; [exact Hc|]. apply keeps_ret; [|done]. by apply inv_deactivate. }
  intros r d1 Hi1 _ _. eapply (keeps_bind _ _ _ _ (fun _ => X) _ (fun _ _ => True)).
  - destruct r as [c|]; [|by apply keeps_ret]. eapply keeps_mono; [by apply keeps_put_client; [leaf|]|done].
  - intros [] d2 Hi2 _ _. by apply keeps_ret.
Qed.


Lemma keeps_register_ops X d named ops type :
  inv [] X d -> keeps [] (synx_register_ops named ops type d) d (fun _ => X) (fun _ _ => True).
Proof.
  intros Hi. unfold synx_register_ops. cond; [by apply keeps_ret|]. eapply keeps_leaf; [leaf|leaf|exact Hi|].
  intros Hi1. apply keeps_gets. cond; [by apply keeps_ret|]. eapply keeps_modify; [by apply ext_fields|].
  apply keeps_ret; [inv_same Hi1|done].
Qed.

Lemma keeps_deregister_ops X d named type :
  inv [] X d -> keeps [] (synx_deregister_ops named type d) d (fun _ => X) (fun _ _ => True).
Proof.
  intros Hi. unfold synx_deregister_ops. cond; [by apply keeps_ret|].
  eapply (keeps_bind _ _ _ _ (fun _ => X) _ (fun _ _ => True)).
  - eapply keeps_leaf; [leaf|leaf|exact Hi|]. intros Hi1. apply keeps_tt. eapply keeps_modify; [by apply ext_fields|].
    apply keeps_ret; [inv_same Hi1|done].
  - intros [] d1 Hi1 _ _. by apply keeps_ret.
Qed.

Lemma keeps_ipc_callback X d data :
  inv [] X d -> keeps [] (synx_ipc_callback data d) d (fun _ => X) (fun _ _ => True).
Proof.
  intros Hi. unfold synx_ipc_callback. eapply keeps_kzalloc; [exact Hi|intros d1 Hi1 _; by apply keeps_ret|].
  intros s d1 Hi1 _ Hf. eapply keeps_modify; [by apply ext_fields|].
  match goal with |- context [<[s := ?v]> (d_sigs d1)] => set (x := v) end.
  eapply (inv_new_sig _ _ _ s x) in Hi1; [|done]. eapply keeps_modify; [by apply ext_fields|]. apply keeps_ret; [|done].
  apply inv_queue_cb; [|by intros c y [=]].
  eapply (inv_close_sig _ _ _ s (WIpc s) x); [by right|exact Hi1|apply lookup_insert_eq|done].
Qed.

Lemma keeps_recover X d id : inv [] X d -> B -> keeps [] (synx_recover id d) d (fun _ => X) (fun _ _ => True).
Proof.
  intros Hi HB. unfold synx_recover. cbn zeta. cond; [by apply keeps_ret|]. cond; [|by apply keeps_ret].
  unfold global_recover, SynxRefs.keeps, good. destruct (synx_global_recover _ _ _) as [[rc g]|]; [|exact HB].
  split_and!; [inv_same Hi|by apply ext_fields|done].
Qed.

(** ** Work items *)

Lemma work_cb_ok d n : inv [] [] d -> B \/ (forall w, d_wq_cb d !! n = Some w -> exists c, w = WCb c) ->
  good B (work_cb n d) (fun _ d' => inv [] [] d').
Proof.
  intros Hi HB. unfold work_cb. apply good_gets. destruct (d_wq_cb d !! n) as [w|] eqn:Ew; [|exact Hi].
  apply good_modify. pose proof (inv_take_cb _ _ _ _ _ Hi Ew) as Hi1.
  assert (Hbusy : busy []) by (split; [done|intros p Hp; by apply elem_of_nil in Hp]).
  destruct w as [s|s|c]; simpl run_cb_work.
  1,2: destruct HB as [HB|HB]; [|by destruct (HB _ eq_refl)].
  - eapply good_mono; [apply (keeps_signal_handler [] _ s (WSignal s) Hi1); [by left|done..]|]. by intros [] d' (? & _).
  - eapply good_mono; [apply (keeps_ipc_handler [] _ s Hi1); done|]. by intros [] d' (? & _).
  - assert (Hin : WCb c ∈ works [] (d_wq_cb d)) by by eapply list_elem_of_lookup_2.
    destruct (cb_queued _ _ _ _ _ (in_cbs _ _ _ (proj1 Hi)) c Hin) as [[x Hx] Hnr].
    eapply (cb_dispatch_ok [] _ c x Hi1); [exact Hx| |by intros ?%elem_of_nil].
    destruct (c_timer x) eqn:Et; [|done].
    destruct (cb_timer _ _ _ _ _ (in_cbs _ _ _ (proj1 Hi)) c x Hx Et) as [_ [(p & o & Ho & Hc)|Hw]].
    + by destruct (Hnr p o Ho).
    + by apply elem_of_nil in Hw.
Qed.

End sessions.

(** ** The system *)

Section system.
Context `{F : DmaFence} `{E : SynxEnv} `{C : SynxClientEnv}.
Implicit Types d : dev.

(** The calls of the interface, the items of the work queues, a timer that
    expires, a message of another core, and what the other drivers do to the
    fences ([n] addresses are theirs; [fired] are the callbacks that run) and the
    other cores to the global table. *)
Inductive step_kind :=
| DoInitialize
| DoUninitialize (session : Z)
| DoCreate (fuel : nat) (session flags h0 : Z)
| DoImport (fuel : nat) (session : Z) (params : synx_import_indv_params + list synx_import_indv_params)
| DoMerge (session : Z) (params : synx_merge_params) (h0 : Z)
| DoSignal (session h_synx status : Z)
| DoWait (session h_synx timeout_ms : Z)
| DoAsyncWait (session : Z) (params : synx_callback_params)
| DoCancelAsyncWait (session : Z) (params : synx_callback_params)
| DoGetStatus (session h_synx : Z)
| DoGetFence (session h_synx : Z)
| DoRelease (session h_synx : Z)
| DoRead (session size : Z) (copy_ok : bool)
| DoPoll (session : Z)
| DoRegisterOps (named ops : bool) (type : Z)
| DoDeregisterOps (named : bool) (type : Z)
| DoRecover (id : Z)
| DoIpcCallback (data : Z)
| DoTimer (cp : Z)
| DoWorkCb (n : nat)
| DoWorkCleanup (n : nat)
| DoFences (n : Z) (fired : list (Z * Z)) (fs : fences)
| DoGlobal (g : gmem).

Definition void {A} (m : run dev A) : run dev unit := m ;; mret tt.

Definition run_step (k : step_kind) : run dev unit :=
  match k with
  | DoInitialize => void synx_initialize
  | DoUninitialize s => void (synx_uninitialize s)
  | DoCreate fuel s flags h0 => void (synx_create fuel s None flags h0)
  | DoImport fuel s params => void (synx_import fuel s params)
  | DoMerge s params h0 => void (synx_merge s params h0)
  | DoSignal s h st => void (synx_signal s h st)
  | DoWait s h ms => void (synx_wait s h ms)
  | DoAsyncWait s params => void (synx_async_wait s params)
  | DoCancelAsyncWait s params => void (synx_cancel_async_wait s params)
  | DoGetStatus s h => void (synx_get_status s h)
  | DoGetFence s h => void (synx_get_fence s h)
  | DoRelease s h => void (synx_release s h)
  | DoRead s size ok => void (synx_read s size ok)
  | DoPoll s => void (synx_poll s)
  | DoRegisterOps named ops type => void (synx_register_ops named ops type)
  | DoDeregisterOps named type => void (synx_deregister_ops named type)
  | DoRecover id => void (synx_recover id)
  | DoIpcCallback data => void (synx_ipc_callback data)
  | DoTimer cp => timer_expires cp
  | DoWorkCb n => work_cb n
  | DoWorkCleanup n => work_cleanup n
  | DoFences n fired fs =>
      modify (fun d => set_d_fences fs (set_d_next (d_next d + n) d)) ;; run_callbacks fired
  | DoGlobal g => modify (set_d_gm g)
  end.

(** The fences of a kernel in which the addresses from [n] on are free, no
    array is in an array, and no array has a child that is made later. *)
Record fences_ok (n : Z) (fs : fences) : Prop := mk_fences_ok {
  fo_unused : unused_from n fs;
  fo_children f l c : to_dma_fence_array fs f = Some l -> c ∈ l -> c < n /\ to_dma_fence_array fs c = None
}.

(** When a step may be taken. Callers do not name external fence types; they
    import fences that are not arrays, and merge objects whose fences are not
    arrays; [synx_merge] reads a variable that was not set when it fails, which
    must hold [NULL] then. The other drivers' fences follow the rules of the kernel. *)
Definition step_ok (k : step_kind) (d : dev) : Prop :=
  match k with
  | DoCreate _ _ flags _ => 0 <= flags
  | DoImport _ _ params => forall p, p ∈ match params with inl p => [p] | inr l => l end -> import_ok p d
  | DoMerge s params _ => plain s (mp_h_synxs params) d /\ stack_garbage = None
  | DoTimer cp => exists x, d_cbs d !! cp = Some x /\ c_timer x = true
  | DoFences n fired fs => 0 <= n /\ fence_step (d_fences d) fired fs /\ fences_ok (d_next d + n) fs /\
      forall f, f < d_next d -> to_dma_fence_array (d_fences d) f = None -> to_dma_fence_array fs f = None
  | _ => True
  end.

(** The steps that signal, or that use the global table. *)
Definition may_block (k : step_kind) (d : dev) : bool :=
  match k with
  | DoCreate _ _ _ _ | DoImport _ _ _ | DoMerge _ _ _ | DoSignal _ _ _ | DoWait _ _ _ | DoAsyncWait _ _
  | DoRecover _ => true
  | DoWorkCb n => match d_wq_cb d !! n with Some (WSignal _ | WIpc _) => true | _ => false end
  | _ => false
  end.

(** The framework after [synx_init], on a kernel with fences [fs]. *)
Definition booted (n : Z) (fs : fences) (g : gmem) : dev :=
  mk_dev n 0 0 ∅ ∅ ∅ ∅ ∅ ∅ [] [] [] [] [] {[0]} false [] [] 0 [] g fs [].

Inductive reachable : dev -> Prop :=
| reachable_boot n fs g :
    0 < n -> fences_ok n fs -> (forall f, cbs fs f = []) -> reachable (booted n fs g)
| reachable_step k d d' :
    reachable d -> step_ok k d -> run_step k d = Ret tt d' -> reachable d'.

End system.

Section safety.
Context `{F : DmaFence} `{E : SynxEnv} `{C : SynxClientEnv} `{Laws : !DmaFenceLaws}.
Implicit Types d : dev.

Lemma void_ok {A} (B : Prop) (m : run dev A) d :
  keeps (B := B) [] (m d) d (fun _ => []) (fun _ _ => True) -> good B (void m d) (fun _ d' => inv [] [] d').
Proof. intros H. eapply good_bind; [exact H|]. intros a d' (Hi & _). exact Hi. Qed.

Lemma good_weaken {A} (B B' : Prop) (o : outcome dev A) Q : (B -> B') -> good B o Q -> good B' o Q.
Proof. unfold good. destruct o; auto. Qed.

Lemma do_fences_ok d n fired fs :
  inv [] [] d -> step_ok (DoFences n fired fs) d ->
  good False (run_step (DoFences n fired fs) d) (fun _ d' => inv [] [] d').
Proof.
  intros Hi (Hn & Hst & [Hu Hc] & Hp). simpl run_step. apply good_modify.
  assert (Hi1 : inv [] [] (set_d_next (d_next d + n) d)) by inv_same Hi.
  eapply good_mono; [apply (keeps_run_callbacks (B := False) [] [] fired)|by intros [] d' (? & _)].
  apply (inv_fence [] [] (set_d_next (d_next d + n) d) fired fs Hi1); [done|done|done|].
  intros p o Ho Hnn _. apply Hp; [|done]. by eapply (ob_fence _ _ _ _ _ (in_objs _ _ _ (proj1 Hi))).
Qed.

Lemma step_keeps k d : inv [] [] d -> step_ok k d ->
  good (may_block k d = true) (run_step k d) (fun _ d' => inv [] [] d').
Proof.
  intros Hi Hk. pose proof busy_nil as Hb. destruct k; simpl in Hk; try (simpl run_step; apply void_ok).
  - by apply keeps_initialize.
  - by apply keeps_uninitialize.
  - by apply keeps_create.
  - by apply keeps_import.
  - destruct Hk as [Hk Hg]. apply keeps_merge; try done. intros q. apply not_elem_of_nil.
  - by apply keeps_signal.
  - by apply keeps_wait.
  - apply keeps_async_wait; try done. intros c. apply not_elem_of_nil.
  - by apply keeps_cancel.
  - by apply keeps_get_status.
  - by apply keeps_get_fence.
  - by apply keeps_release.
  - by apply keeps_read_event.
  - by apply keeps_poll.
  - by apply keeps_register_ops.
  - by apply keeps_deregister_ops.
  - by apply keeps_recover.
  - by apply keeps_ipc_callback.
  - destruct Hk as (x & Hx & Ht). eapply good_mono; [eapply (keeps_timer [] d cp x); [done..|apply not_elem_of_nil]|].
    by intros [] d' (? & _).
  - apply work_cb_ok; [done|]. unfold may_block. destruct (d_wq_cb d !! n) as [[s|s|c]|]; [by left|by left|right..]; [|done].
    intros w [= <-]. by eexists.
  - by apply work_cleanup_ok.
  - apply (good_weaken False); [by intros []|by apply do_fences_ok].
  - simpl. inv_same Hi.
Qed.

Lemma inv_booted n fs g : 0 < n -> fences_ok n fs -> (forall f, cbs fs f = []) -> inv [] [] (booted n fs g).
Proof.
  intros Hn [Hu Hc] Hcb. split; [split|]; try done; simpl.
  - split; simpl; try done; try (by intros; apply lookup_empty).
    + intros f l c Hl Hin. by destruct (Hc f l c Hl Hin).
    + intros f l c Hl Hin. by destruct (Hc f l c Hl Hin).
    + intros x Hx. by apply elem_of_nil in Hx.
    + intros c f h st dt Hx. by apply elem_of_nil in Hx.
  - split; [intros e He; by apply elem_of_nil in He..|]. intros e m. by rewrite lookup_empty.
  - split; [intros c Hc'; by apply elem_of_nil in Hc'|intros c cl; by rewrite lookup_empty|
      intros c cl i k; by rewrite lookup_empty|intros c cl i; by rewrite lookup_empty].
  - split; [constructor|]. intros w Hw. by apply elem_of_nil in Hw.
  - split; try (intros p o; by rewrite lookup_empty).
    + intros c Hc'. by apply elem_of_nil in Hc'.
    + constructor.
    + intros c. rewrite lookup_empty. by intros [].
    + intros c Hc'. by apply elem_of_nil in Hc'.
    + intros c f h st dt Hc'. by apply elem_of_nil in Hc'.
    + constructor.
  - split; try (intros f s; rewrite Hcb; intros Hs; by apply elem_of_nil in Hs).
    + constructor.
    + intros s Hs. by apply elem_of_nil in Hs.
    + intros f. rewrite Hcb. constructor.
    + intros f f' s. rewrite Hcb. intros Hs. by apply elem_of_nil in Hs.
    + intros s x Hs. by apply elem_of_nil in Hs.
  - intros r Hr. destruct r; simpl; rewrite ?lookup_empty, ?mcount_empty; done.
Qed.

Lemma reachable_inv d : reachable d -> inv [] [] d.
Proof.
  induction 1 as [n fs g Hn Hf Hc|k d d' _ IH Hk Hr]; [by apply inv_booted|].
  pose proof (step_keeps k d IH Hk) as H. by rewrite Hr in H.
Qed.

End safety.

(** ** What holds in every reachable state *)

(** Every pointer of the framework leads to a live struct of its type, which
    is referenced; what the clean-up queue names is live and unreferenced. The
    [signal_cb] of an object is live, registered with its fence and leads back
    to the object while that fence, or a child of it, is unsignalled; afterwards
    the pointer stays set when the struct has been freed. *)
Record typed `{F : DmaFence} (d : dev) : Prop := mk_typed {
  ty_session c : c ∈ d_sessions d -> exists cl, d_clients d !! c = Some cl /\ 1 <= cl_refcount cl;
  ty_handle c cl h : d_clients d !! c = Some cl -> h ∈ cl_handle_map cl ->
    exists x m o, d_hdls d !! h = Some x /\ 1 <= h_refcount x /\ h_client x = c /\
      d_ents d !! h_ent x = Some m /\ 1 <= m_refcount m /\ m_obj m = h_obj x /\
      d_objs d !! h_obj x = Some o /\ 1 <= o_refcount o;
  ty_global e : e ∈ d_global_map d ->
    exists m o, d_ents d !! e = Some m /\ 1 <= m_refcount m /\ synx_util_is_global_handle (m_key m) = true /\
      d_objs d !! m_obj m = Some o /\ 1 <= o_refcount o;
  ty_local e : e ∈ d_local_map d ->
    exists m o, d_ents d !! e = Some m /\ 1 <= m_refcount m /\ synx_util_is_global_handle (m_key m) = false /\
      synx_util_global_idx (m_key m) < SYNX_MAX_OBJS /\ d_objs d !! m_obj m = Some o /\ 1 <= o_refcount o;
  ty_signal p o s : d_objs d !! p = Some o -> o_signal_cb o = Some s -> obj_active (d_fences d) o ->
    s ∈ cbs (d_fences d) (o_fence o) /\ exists x, d_sigs d !! s = Some x /\ s_obj x = Some p;
  ty_waiter p o c : d_objs d !! p = Some o -> c ∈ o_reg_cbs o -> is_Some (d_cbs d !! c);
  ty_callback f s : s ∈ cbs (d_fences d) f ->
    exists x, d_sigs d !! s = Some x /\ forall p, s_obj x = Some p -> exists o, d_objs d !! p = Some o /\ 1 <= o_refcount o;
  ty_work w : w ∈ d_wq_cb d ->
    match w with
    | WCb c => is_Some (d_cbs d !! c)
    | WSignal s | WIpc s =>
        exists x, d_sigs d !! s = Some x /\ forall p, s_obj x = Some p -> exists o, d_objs d !! p = Some o /\ 1 <= o_refcount o
    end;
  ty_cleanup w : w ∈ d_wq_cleanup d -> clean_live d w;
  ty_table c cl : d_clients d !! c = Some cl ->
    length (cl_cb_table cl) = Z.to_nat SYNX_MAX_OBJS /\ (forall i, i ∈ cl_event_q cl -> i < SYNX_MAX_OBJS) /\
    forall i k, cl_cb_table cl !! i = Some k ->
      (k_valid k = true -> is_Some (k_func k)) /\ (k_client k = None \/ k_client k = Some c)
}.

(** The callbacks that were delivered to kernel clients. *)
Definition delivered (trace : list client_event) : list Z :=
  omap (fun ev => match ev with UserCallback c _ _ _ _ => Some c | _ => None end) trace.

(** Where callback [c] waits: with object [p], or in the work queue. *)
Definition waits_at `{F : DmaFence} (d : dev) (c p : Z) : Prop := exists o, d_objs d !! p = Some o /\ c ∈ o_reg_cbs o.

Section facts.
Context `{F : DmaFence}.
Implicit Types d : dev.

Lemma entry_object L X d e m :
  inv L X d -> clean_items X = [] -> d_ents d !! e = Some m -> exists o, d_objs d !! m_obj m = Some o /\ 1 <= o_refcount o.
Proof.
  intros Hi Hc He. pose proof (proj2 Hi (RObj (m_obj m)) eq_refl) as H. unfold stored in H.
  pose proof (mcount_pos (fun e0 m0 => (m_obj m0 =? m_obj m) && bool_decide (RClean (WEnt e0) ∉ X)) _ _ _ He) as H1.
  cbn beta in H1. rewrite Z.eqb_refl, bool_decide_true in H1; [|rewrite <- clean_items_elem, Hc; apply not_elem_of_nil].
  specialize (H1 eq_refl).
  pose proof (mcount_nonneg (fun s x => bool_decide (s_obj x = Some (m_obj m)) && bool_decide (RSig s ∉ X)) (d_sigs d)).
  pose proof (cnt_nonneg (RObj (m_obj m)) X). unfold kref in H. destruct (d_objs d !! m_obj m) as [o|]; simpl from_option in H; [exists o; split; [done|]|]; lia.
Qed.

Lemma sig_object L d s x p :
  inv L [] d -> d_sigs d !! s = Some x -> s_obj x = Some p -> exists o, d_objs d !! p = Some o /\ 1 <= o_refcount o.
Proof.
  intros Hi Hs Hp. pose proof (proj2 Hi (RObj p) eq_refl) as H. unfold stored in H. rewrite cnt_nil in H.
  pose proof (mcount_pos (fun s0 x0 => bool_decide (s_obj x0 = Some p) && bool_decide (RSig s0 ∉ [])) _ _ _ Hs) as H1.
  cbn beta in H1. rewrite !bool_decide_true in H1; [|apply not_elem_of_nil|done]. specialize (H1 eq_refl).
  pose proof (mcount_nonneg (fun e m => (m_obj m =? p) && bool_decide (RClean (WEnt e) ∉ [])) (d_ents d)).
  unfold kref in H. destruct (d_objs d !! p) as [o|]; simpl from_option in H; [exists o; split; [done|]|]; lia.
Qed.

Lemma handle_entry L d h x m :
  inv L [] d -> d_hdls d !! h = Some x -> d_ents d !! h_ent x = Some m -> 1 <= m_refcount m.
Proof.
  intros Hi Hx Hm. pose proof (proj2 Hi (REnt (h_ent x)) eq_refl) as H. unfold stored, kref in H. rewrite cnt_nil, Hm in H. simpl from_option in H.
  pose proof (mcount_pos (fun h0 x0 => (h_ent x0 =? h_ent x) && bool_decide (RClean (WHdl h0) ∉ [])) _ _ _ Hx) as H1.
  cbn beta in H1. rewrite Z.eqb_refl, bool_decide_true in H1; [|apply not_elem_of_nil]. specialize (H1 eq_refl). lia.
Qed.

Lemma inv_typed d : inv [] [] d -> typed d.
Proof.
  intros Hi. pose proof (proj1 Hi) as [_ _ [M1 M2 M3] [H1 _ H3 _] [C1 C2 C3 C4] [_ Hcl] Hcb Hs Hob]. split.
  - exact C1.
  - intros c cl h Hc Hh. destruct (H1 c cl h Hc Hh) as (x & Hx & Hr & Hxc). destruct (H3 h x Hx) as (m & Hm & Hmo).
    destruct (entry_object _ _ _ _ _ Hi eq_refl Hm) as (o & Ho & Hor). rewrite Hmo in Ho.
    exists x, m, o. split_and!; try done. by eapply handle_entry.
  - intros e He. destruct (M1 e He) as (m & Hm & Hr & Hg). destruct (entry_object _ _ _ _ _ Hi eq_refl Hm) as (o & Ho & Hor).
    exists m, o. done.
  - intros e He. destruct (M2 e He) as (m & Hm & Hr & Hg). destruct (entry_object _ _ _ _ _ Hi eq_refl Hm) as (o & Ho & Hor).
    exists m, o. split_and!; eauto.
  - intros p o s Ho Hsc Ha. apply (ob_signal _ _ _ _ _ Hob p o s Ho Hsc Ha). apply not_elem_of_nil.
  - apply Hcb.
  - intros f s Hin. destruct (si_fence _ _ _ _ Hs f s Hin) as [[x Hx] _]. exists x. split; [done|].
    intros p Hp. by eapply sig_object.
  - assert (Hsig : forall s, s ∈ queued_sigs (d_wq_cb d) -> exists x, d_sigs d !! s = Some x /\
      forall p, s_obj x = Some p -> exists o, d_objs d !! p = Some o /\ 1 <= o_refcount o).
    { intros s Hin. destruct (si_live _ _ _ _ Hs s Hin) as [x Hx]. exists x. split; [done|]. intros p Hp. by eapply sig_object. }
    intros w Hw. destruct w as [s|s|c].
    + apply Hsig. apply list_elem_of_omap. by exists (WSignal s).
    + apply Hsig. apply list_elem_of_omap. by exists (WIpc s).
    + by apply (cb_queued _ _ _ _ _ Hcb).
  - exact Hcl.
  - intros c cl Hc. split_and!; eauto.
Qed.

End facts.
