(* ===== verification/SynxDemo.v ===== *)
(** * A concrete kernel for the synx client framework, and runs on it

    Fences with a reference count, a status, the callbacks and, for an array, the
    children: an instance of [DmaFence] on which the definitions evaluate, with
    the proof that it has the behaviour that the theorems rely on. The runs at the
    end are evaluated on it. *)

From S2P Require Import Prelude SynxGlobal SynxSignal SynxDev SynxUtil SynxClient SynxInv Bitmap.
From S2P Require Import SynxEntry SynxWaiters SynxMerges SynxSafe.

(** ** Fences *)

(** [rf_status] is 0, or what [dma_fence_get_status] returns once signalled. *)
Record ref_fence := mk_rf {
  rf_refs : Z;
  rf_status : Z;
  rf_error : Z;
  rf_cbs : list fence_cb;
  rf_children : option (list Z)
}.

Definition ref_fences := gmap Z ref_fence.

Definition no_fence : ref_fence := mk_rf 0 0 0 [] None.
Definition rf_get (fs : gmap Z ref_fence) (f : Z) : ref_fence := default no_fence (fs !! f).

(** An error other than an [errno] counts as none. *)
Definition rf_norm (z : Z) : Z :=
  if z =? 0 then 0 else if (-4095 <=? z) && (z <=? -2) then z else 1.
Definition rf_done (fs : ref_fences) (f : Z) : bool := negb (rf_status (rf_get fs f) =? 0).

Definition synx_cbs (l : list fence_cb) : list Z :=
  omap (fun cb => match cb with SynxCb s => Some s | _ => None end) l.

(** The fence is signalled with [st]; its callbacks run. *)
Definition rf_fire (f st : Z) (fs : ref_fences) : list (Z * Z) * ref_fences :=
  let x := rf_get fs f in
  (map (pair f) (synx_cbs (rf_cbs x)), <[f := mk_rf (rf_refs x) st (rf_error x) [] (rf_children x)]> fs).

(** An array is signalled when its children are. *)
Definition rf_complete (a : Z) (fs : ref_fences) : list (Z * Z) * ref_fences :=
  match rf_children (rf_get fs a) with
  | Some l => if forallb (rf_done fs) l && negb (rf_done fs a) then rf_fire a 1 fs else ([], fs)
  | None => ([], fs)
  end.

Definition rf_each (step : Z -> ref_fences -> list (Z * Z) * ref_fences) (l : list Z) (fs : ref_fences) :
    list (Z * Z) * ref_fences :=
  fold_left (fun acc a => let '(fired, fs) := step a acc.2 in (acc.1 ++ fired, fs)) l ([], fs).

Definition rf_signal (f : Z) (fs : ref_fences) : Z * list (Z * Z) * ref_fences :=
  let x := rf_get fs f in
  if rf_done fs f || negb (bool_decide (rf_children x = None)) then (-22, [], fs) else
  let '(fired, fs1) := rf_fire f (if rf_error x =? 0 then 1 else rf_error x) fs in
  let '(fired', fs2) := rf_each rf_complete (map fst (map_to_list fs1)) fs1 in
  (0, fired ++ fired', fs2).

Definition rf_set_refs (n : Z) (x : ref_fence) : ref_fence :=
  mk_rf n (rf_status x) (rf_error x) (rf_cbs x) (rf_children x).
Definition rf_set_error (e : Z) (x : ref_fence) : ref_fence :=
  mk_rf (rf_refs x) (rf_status x) e (rf_cbs x) (rf_children x).

Definition rf_update (f : Z) (u : ref_fence -> ref_fence) (fs : ref_fences) : ref_fences :=
  <[f := u (rf_get fs f)]> fs.

(** The last reference of a fence signals it with [-EDEADLK] if it still has
    callbacks; that of an array drops its references on the children. *)
Definition rf_put_one (f : Z) (fs : ref_fences) : list (Z * Z) * ref_fences :=
  let x := rf_get fs f in
  let fs1 := rf_update f (fun x => rf_set_refs (rf_refs x - 1) x) fs in
  if (rf_refs x =? 1) && negb (rf_done fs f) && bool_decide (rf_children x = None) &&
     negb (bool_decide (synx_cbs (rf_cbs x) = []))
  then rf_fire f (-35) fs1 else ([], fs1).

Definition rf_put (f : Z) (fs : ref_fences) : list (Z * Z) * ref_fences :=
  let '(fired, fs1) := rf_put_one f fs in
  if rf_refs (rf_get fs f) =? 1 then
    let '(fired', fs2) := rf_each rf_put_one (default [] (rf_children (rf_get fs f))) fs1 in
    (fired ++ fired', fs2)
  else (fired, fs1).

Definition rf_add (f s : Z) (fs : ref_fences) : Z * ref_fences :=
  if rf_done fs f then (-2, fs) else
  (0, rf_update f (fun x => mk_rf (rf_refs x) (rf_status x) (rf_error x) (rf_cbs x ++ [SynxCb s]) (rf_children x)) fs).

Definition is_cb (s : Z) (cb : fence_cb) : bool := match cb with SynxCb s' => s' =? s | _ => false end.

Definition rf_remove (f s : Z) (fs : ref_fences) : bool * ref_fences :=
  (existsb (is_cb s) (rf_cbs (rf_get fs f)),
   rf_update f (fun x => mk_rf (rf_refs x) (rf_status x) (rf_error x)
     (List.filter (fun cb => negb (is_cb s cb)) (rf_cbs x)) (rf_children x)) fs).

#[export] Instance ref_fence_ops : DmaFence := {|
  fences := ref_fences;
  dma_fence_init f fs := <[f := mk_rf 1 0 0 [] None]> fs;
  dma_fence_get f := rf_update f (fun x => rf_set_refs (rf_refs x + 1) x);
  dma_fence_put := rf_put;
  dma_fence_get_status fs f := rf_norm (rf_status (rf_get fs f));
  dma_fence_set_error f err := rf_update f (rf_set_error err);
  dma_fence_signal := rf_signal;
  dma_fence_add_callback := rf_add;
  dma_fence_remove_callback := rf_remove;
  dma_fence_enable_sw_signaling f fs := (rf_complete f fs).2;
  dma_fence_array_create a l fs := <[a := mk_rf 1 0 0 [] (Some l)]> fs;
  to_dma_fence_array fs f := rf_children (rf_get fs f);
  dma_fence_kref_read fs f := rf_refs (rf_get fs f);
  dma_fence_cb_list fs f := rf_cbs (rf_get fs f);
  dma_fence_wait_timeout fs f ms := if rf_done fs f then ms else 0
|}.

(** ** Its behaviour *)

Lemma rf_get_insert (fs : gmap Z ref_fence) f x g : rf_get (<[f := x]> fs) g = if bool_decide (g = f) then x else rf_get fs g.
Proof.
  unfold rf_get. case_bool_decide as Hg; [subst; by rewrite lookup_insert_eq|by rewrite lookup_insert_ne by congruence].
Qed.

Lemma rf_norm_zero z : rf_norm z = 0 <-> z = 0.
Proof.
  unfold rf_norm. destruct (z =? 0) eqn:E1; zbool; [done|].
  destruct ((-4095 <=? z) && (z <=? -2)); split; (lia || done).
Qed.

Lemma rf_status_zero fs f : dma_fence_get_status fs f = 0 <-> rf_done fs f = false.
Proof. simpl. rewrite rf_norm_zero. unfold rf_done. by rewrite negb_false_iff, Z.eqb_eq. Qed.

Lemma rf_status_done fs f : dma_fence_get_status fs f <> 0 <-> rf_done fs f = true.
Proof. rewrite rf_status_zero. by destruct (rf_done fs f). Qed.

Lemma cbs_rf fs f : cbs fs f = synx_cbs (rf_cbs (rf_get fs f)).
Proof. done. Qed.

Lemma in_map_pair (f g s : Z) l : (g, s) ∈ map (pair f) l <-> g = f /\ s ∈ l.
Proof. rewrite list_elem_of_fmap. split; [intros (x & [= -> ->] & Hx)|intros [-> Hs]]; eauto. Qed.

(** A step that may be made at any time. *)
Definition any_step (fs : ref_fences) (fired : list (Z * Z)) (fs' : ref_fences) : Prop :=
  fence_step fs fired fs' /\ (forall g, to_dma_fence_array fs' g = to_dma_fence_array fs g) /\
  forall g, unused fs g -> unused fs' g.

Lemma any_call f fs fired fs' : any_step fs fired fs' -> call_step f fs fired fs'.
Proof. intros (H1 & H2 & H3). split; auto. Qed.

(** A step that changes neither callbacks, status nor children. *)
Lemma step_still (fs fs' : ref_fences) :
  (forall g, dma_fence_get_status fs' g = dma_fence_get_status fs g) ->
  (forall g, to_dma_fence_array fs' g = to_dma_fence_array fs g) -> (forall g, cbs fs' g = cbs fs g) ->
  any_step fs [] fs'.
Proof.
  intros H1 H2 H3. split_and!; [split| |].
  - intros f. by rewrite H1.
  - intros f l. by rewrite H2.
  - intros f. left. split; [by rewrite H3|]. intros s. apply not_elem_of_nil.
  - constructor.
  - done.
  - intros g. unfold unused. by rewrite H1, H2, H3.
Qed.

Lemma step_refl fs : any_step fs [] fs.
Proof. by apply step_still. Qed.

Lemma settled_step (fs fs' : ref_fences) fired f :
  fence_step fs fired fs' -> (forall g, to_dma_fence_array fs' g = to_dma_fence_array fs g) ->
  settled fs f -> settled fs' f.
Proof.
  intros Hs Ha [H1 H2]. split; [by apply (fs_status _ _ _ Hs)|]. intros l c. rewrite Ha. intros Hl Hc.
  apply (fs_status _ _ _ Hs). eauto.
Qed.

Lemma fence_step_trans (fs fs1 fs2 : ref_fences) l1 l2 :
  fence_step fs l1 fs1 -> fence_step fs1 l2 fs2 ->
  (forall g, to_dma_fence_array fs2 g = to_dma_fence_array fs1 g) -> fence_step fs (l1 ++ l2) fs2.
Proof.
  intros Hs1 Hs2 Ha. split.
  - intros f Hf. by apply (fs_status _ _ _ Hs2), (fs_status _ _ _ Hs1).
  - intros f l Hl. by apply (fs_array _ _ _ Hs2), (fs_array _ _ _ Hs1).
  - intros f. destruct (fs_cbs _ _ _ Hs1 f) as [[E1 N1]|(E1 & S1 & F1)], (fs_cbs _ _ _ Hs2 f) as [[E2 N2]|(E2 & S2 & F2)].
    + left. split; [congruence|]. intros s. rewrite elem_of_app. intros [H|H]; [by apply (N1 s)|by apply (N2 s)].
    + right. split_and!; [done|done|]. intros s. rewrite elem_of_app, F2, E1. split; [|by right].
      intros [H|]; [by destruct (N1 s)|done].
    + right. split_and!; [congruence|by eapply settled_step|]. intros s. rewrite elem_of_app, F1. split; [|by left].
      intros [|H]; [done|by destruct (N2 s)].
    + right. split_and!; [done|done|]. intros s. rewrite elem_of_app, F1, F2, E1. split; [|by left].
      intros [|H]; [done|by apply elem_of_nil in H].
  - intros HN. pose proof (fs_nodup _ _ _ Hs1 HN) as HN1. apply NoDup_app. split_and!; [done| |].
    + intros [f s] H1 H2. destruct (fs_cbs _ _ _ Hs1 f) as [[E1 N1]|(E1 & S1 & F1)]; [by apply (N1 s)|].
      destruct (fs_cbs _ _ _ Hs2 f) as [[E2 N2]|(E2 & S2 & F2)]; [by apply (N2 s)|].
      apply F2 in H2. rewrite E1 in H2. by apply elem_of_nil in H2.
    + apply (fs_nodup _ _ _ Hs2). intros f. destruct (fs_cbs _ _ _ Hs1 f) as [[-> _]|(-> & _)]; [done|constructor].
Qed.

Lemma call_any_trans f (fs fs1 fs2 : ref_fences) l1 l2 :
  call_step f fs l1 fs1 -> any_step fs1 l2 fs2 -> call_step f fs (l1 ++ l2) fs2.
Proof.
  intros [H1 H2 H3] (K1 & K2 & K3). split.
  - by eapply fence_step_trans.
  - intros g. by rewrite K2.
  - intros g Hg Hu. apply K3. by apply H3.
Qed.

Lemma any_trans (fs fs1 fs2 : ref_fences) l1 l2 :
  any_step fs l1 fs1 -> any_step fs1 l2 fs2 -> any_step fs (l1 ++ l2) fs2.
Proof.
  intros (H1 & H2 & H3) (K1 & K2 & K3). split_and!.
  - by eapply fence_step_trans.
  - intros g. by rewrite K2.
  - auto.
Qed.

Lemma rf_each_step step l fs :
  (forall a fs, any_step fs (step a fs).1 (step a fs).2) ->
  any_step fs (rf_each step l fs).1 (rf_each step l fs).2.
Proof.
  intros Hs. unfold rf_each.
  assert (H : forall l acc fired0 fs0, acc = (fired0, fs0) -> any_step fs fired0 fs0 ->
    let r := fold_left (fun acc a => let '(fired, fs) := step a acc.2 in (acc.1 ++ fired, fs)) l acc in
    any_step fs r.1 r.2).
  { clear l. induction l as [|a l IH]; intros acc fired0 fs0 -> Ha; [done|]. simpl.
    specialize (Hs a fs0). destruct (step a fs0) as [fired1 fs1]. cbn [fst snd] in *.
    eapply IH; [done|]. by eapply any_trans. }
  eapply H; [done|apply step_refl].
Qed.

(** The steps that run callbacks. *)
Lemma rf_fire_step f st fs :
  st <> 0 -> (forall l, rf_children (rf_get fs f) = Some l -> forallb (rf_done fs) l = true) ->
  call_step f fs (rf_fire f st fs).1 (rf_fire f st fs).2.
Proof.
  intros Hst Hl. unfold rf_fire. cbn [fst snd]. set (x := rf_get fs f). set (y := mk_rf _ _ _ _ _).
  assert (Hd : forall g, rf_done fs g = true -> rf_done (<[f := y]> fs) g = true).
  { intros g Hg. unfold rf_done in *. rewrite rf_get_insert. case_bool_decide; [|done].
    unfold y. simpl. by rewrite negb_true_iff, Z.eqb_neq. }
  assert (Hdf : rf_done (<[f := y]> fs) f = true).
  { unfold rf_done. rewrite rf_get_insert, bool_decide_true by done. simpl. by rewrite negb_true_iff, Z.eqb_neq. }
  assert (Ha : forall g, to_dma_fence_array (<[f := y]> fs) g = to_dma_fence_array fs g).
  { intros g. simpl. rewrite rf_get_insert. case_bool_decide; [by subst|done]. }
  split; [split| |].
  - intros g. rewrite !rf_status_done. auto.
  - intros g l. by rewrite Ha.
  - intros g. rewrite !cbs_rf, rf_get_insert. case_bool_decide as Hg.
    + subst g. right. split_and!; [done| |].
      * split; [by apply rf_status_done|]. intros l c Hl1 Hc. rewrite Ha in Hl1. apply rf_status_done, Hd.
        specialize (Hl l Hl1). rewrite forallb_forall in Hl. by apply Hl, list_elem_of_In.
      * intros s. rewrite in_map_pair. naive_solver.
    + left. split; [done|]. intros s. rewrite in_map_pair. naive_solver.
  - intros HN. apply NoDup_fmap; [by intros ?? [=]|]. apply (HN f).
  - done.
  - intros g Hg (U1 & U2 & U3). unfold unused. rewrite Ha, cbs_rf. simpl dma_fence_get_status.
    rewrite rf_get_insert, bool_decide_false by done. done.
Qed.

Lemma rf_complete_step a fs : any_step fs (rf_complete a fs).1 (rf_complete a fs).2.
Proof.
  unfold rf_complete. destruct (rf_children (rf_get fs a)) as [l|] eqn:El; [|apply step_refl].
  destruct (forallb (rf_done fs) l && negb (rf_done fs a)) eqn:Ec; [|apply step_refl].
  apply andb_true_iff in Ec as [Ec _].
  destruct (rf_fire_step a 1 fs) as [H1 H2 H3]; [done|intros l' Hl'; rewrite El in Hl'; by injection Hl' as <-|].
  split_and!; [done|done|]. intros g Hg. apply H3; [|done]. intros ->. destruct Hg as (_ & _ & Hg). simpl in Hg. congruence.
Qed.

Lemma rf_update_still f u fs :
  (forall x, rf_status (u x) = rf_status x) -> (forall x, rf_cbs (u x) = rf_cbs x) ->
  (forall x, rf_children (u x) = rf_children x) -> any_step fs [] (rf_update f u fs).
Proof.
  intros H1 H2 H3. unfold rf_update. apply step_still; intros g; rewrite ?cbs_rf; simpl; rewrite rf_get_insert;
    case_bool_decide; subst; by rewrite ?H1, ?H2, ?H3.
Qed.

Lemma rf_put_one_step f fs : any_step fs (rf_put_one f fs).1 (rf_put_one f fs).2.
Proof.
  unfold rf_put_one. set (fs1 := rf_update _ _ _).
  assert (Hs : any_step fs [] fs1) by by apply rf_update_still.
  destruct (_ && _) eqn:Ec; [|done]. repeat (apply andb_true_iff in Ec as [Ec ?]).
  match goal with H : negb (bool_decide (synx_cbs _ = [])) = true |- _ =>
    apply negb_true_iff, bool_decide_eq_false in H; rename H into Hcb end.
  match goal with H : bool_decide (rf_children _ = None) = true |- _ => apply bool_decide_eq_true in H; rename H into Hch end.
  assert (Hch1 : rf_children (rf_get fs1 f) = None).
  { destruct Hs as (_ & Ha & _). specialize (Ha f). simpl in Ha. congruence. }
  destruct (rf_fire_step f (-35) fs1) as [R1 R2 R3]; [done|congruence|]. rewrite <- (app_nil_l (rf_fire _ _ _).1).
  eapply any_trans; [exact Hs|]. split_and!; [done|done|]. intros g Hg. apply R3; [|done]. intros ->.
  destruct Hg as (Hg & _). apply Hcb. rewrite cbs_rf in Hg. unfold fs1, rf_update in Hg.
  by rewrite rf_get_insert, bool_decide_true in Hg.
Qed.

Lemma synx_cbs_remove s l :
  synx_cbs (List.filter (fun cb => negb (is_cb s cb)) l) = List.filter (fun s' => negb (s' =? s)) (synx_cbs l) /\
  existsb (is_cb s) l = bool_decide (s ∈ synx_cbs l).
Proof.
  induction l as [|cb l [IH1 IH2]]; [done|]. destruct cb as [a|s'|]; simpl; [done| |done]. split.
  - destruct (s' =? s); simpl; [done|]. by rewrite <- IH1.
  - rewrite IH2. change (synx_cbs (SynxCb s' :: l)) with (s' :: synx_cbs l).
    destruct (Z.eqb_spec s' s) as [->|Hne]; simpl.
    + symmetry. apply bool_decide_true. by left.
    + apply bool_decide_ext. rewrite elem_of_cons. naive_solver.
Qed.

Lemma rf_complete_keep f a (fs : ref_fences) :
  rf_children (rf_get fs f) = None -> rf_get (rf_complete a fs).2 f = rf_get fs f.
Proof.
  intros Hn. unfold rf_complete. destruct (rf_children (rf_get fs a)) as [ch|] eqn:Ech; [|done].
  destruct (_ && _); [|done]. unfold rf_fire. cbn [snd]. rewrite rf_get_insert, bool_decide_false; [done|].
  intros ->. congruence.
Qed.

(** A fence that is signalled keeps its status when arrays are completed. *)
Lemma rf_each_complete_keep f l fs :
  rf_children (rf_get fs f) = None -> rf_get (rf_each rf_complete l fs).2 f = rf_get fs f.
Proof.
  intros Hn. unfold rf_each.
  assert (H : forall acc : list (Z * Z) * ref_fences, rf_get acc.2 f = rf_get fs f ->
    rf_get (fold_left (fun acc a => let '(fired, fs) := rf_complete a acc.2 in (acc.1 ++ fired, fs)) l acc).2 f = rf_get fs f).
  2: { by apply H. }
  induction l as [|a l IH]; intros acc Hacc; [done|]. cbn [fold_left]. apply IH.
  pose proof (rf_complete_keep f a acc.2 ltac:(by rewrite Hacc)) as H.
  destruct (rf_complete a acc.2) as [fired fs']. cbn [snd] in *. by rewrite H.
Qed.

Lemma rf_fire_get f st (fs : ref_fences) :
  rf_get (rf_fire f st fs).2 f = mk_rf (rf_refs (rf_get fs f)) st (rf_error (rf_get fs f)) [] (rf_children (rf_get fs f)).
Proof. unfold rf_fire. cbn [snd]. by rewrite rf_get_insert, bool_decide_true. Qed.

Lemma rf_signal_keep f (fs : ref_fences) : rf_children (rf_get fs f) = None -> rf_done fs f = false ->
  (rf_signal f fs).1.1 = 0 /\
  rf_status (rf_get (rf_signal f fs).2 f) = if rf_error (rf_get fs f) =? 0 then 1 else rf_error (rf_get fs f).
Proof.
  intros Hn Hz. unfold rf_signal. rewrite Hz, Hn, bool_decide_true by done. cbn [orb negb].
  set (st := if _ =? 0 then _ else _). pose proof (rf_fire_get f st fs) as Hf.
  destruct (rf_fire f st fs) as [fired fs1]. cbn [snd] in Hf.
  pose proof (rf_each_complete_keep f (map fst (map_to_list fs1)) fs1) as H. rewrite Hf in H. specialize (H Hn).
  destruct (rf_each rf_complete _ fs1) as [fired' fs2]. cbn [fst snd] in *. by rewrite H.
Qed.

Lemma rf_signal_status f fs : rf_children (rf_get fs f) = None -> rf_done fs f = false ->
  (rf_signal f fs).1.1 = 0 /\ dma_fence_get_status (rf_signal f fs).2 f <> 0.
Proof.
  intros Hn Hz. destruct (rf_signal_keep f fs Hn Hz) as [H1 H2]. split; [done|]. simpl. rewrite rf_norm_zero, H2.
  destruct (Z.eqb_spec (rf_error (rf_get fs f)) 0); lia.
Qed.

#[export] Instance ref_doc : DmaFenceDoc (F := ref_fence_ops).
Proof.
  split.
  - intros fs f. simpl. unfold rf_norm. destruct (_ =? 0); [auto|]. destruct (_ && _) eqn:Ec; [|auto].
    apply andb_true_iff in Ec as [E1 E2]. zbool. lia.
  - intros f fs (U1 & U2 & U3). apply any_call. simpl. apply step_still; intros g; rewrite ?cbs_rf; simpl;
      rewrite rf_get_insert; case_bool_decide; subst; done.
  - intros f fs. apply any_call. by apply rf_update_still.
  - intros f fs. simpl. unfold rf_put. pose proof (rf_put_one_step f fs) as H1.
    destruct (rf_put_one f fs) as [fired fs1]. cbn [fst snd] in H1. apply any_call.
    destruct (rf_refs (rf_get fs f) =? 1); [|done].
    pose proof (rf_each_step rf_put_one (default [] (rf_children (rf_get fs f))) fs1 rf_put_one_step) as H2.
    destruct (rf_each rf_put_one _ fs1) as [fired' fs2]. by eapply any_trans.
  - intros f e fs _. apply any_call. by apply rf_update_still.
  - intros f fs Hn. simpl in *. unfold rf_signal. rewrite Hn, bool_decide_true, orb_false_r by done.
    destruct (rf_done fs f); [apply any_call, step_refl|].
    set (st := if _ =? 0 then _ else _). assert (Hst : st <> 0) by (unfold st; destruct (Z.eqb_spec (rf_error (rf_get fs f)) 0); lia).
    pose proof (rf_fire_step f st fs Hst) as H1. rewrite Hn in H1. specialize (H1 ltac:(done)).
    destruct (rf_fire f st fs) as [fired fs1]. cbn [fst snd] in H1.
    pose proof (rf_each_step rf_complete (map fst (map_to_list fs1)) fs1 rf_complete_step) as H2.
    destruct (rf_each rf_complete _ fs1) as [fired' fs2]. by eapply call_any_trans.
  - intros f fs Hn Hz. apply rf_signal_status; [done|by apply rf_status_zero].
  - intros f e fs Hn Hz He. cbn zeta. change (dma_fence_set_error f e fs) with (rf_update f (rf_set_error e) fs).
    set (fs1 := rf_update _ _ _).
    assert (Hg : rf_get fs1 f = rf_set_error e (rf_get fs f)) by (unfold fs1, rf_update; by rewrite rf_get_insert, bool_decide_true).
    assert (Hn1 : rf_children (rf_get fs1 f) = None) by by rewrite Hg.
    assert (Hz1 : rf_done fs1 f = false) by (unfold rf_done; rewrite Hg; simpl; by apply rf_status_zero in Hz).
    split; [by apply rf_signal_status|]. destruct (rf_signal_keep f fs1 Hn1 Hz1) as [_ H].
    change (rf_norm (rf_status (rf_get (rf_signal f fs1).2 f)) = e). rewrite H, Hg. cbn [rf_error rf_set_error].
    rewrite (proj2 (Z.eqb_neq e 0)) by lia. unfold rf_norm. rewrite (proj2 (Z.eqb_neq e 0)) by lia.
    by rewrite (proj2 (Z.leb_le _ _)), (proj2 (Z.leb_le _ _)) by lia.
  - intros f fs Hc. simpl. pose proof (rf_complete_step f fs) as H.
    assert (E : (rf_complete f fs).1 = []).
    { rewrite cbs_rf in Hc. unfold rf_complete. destruct (rf_children _); [|done]. destruct (_ && _); [|done].
      unfold rf_fire. cbn [fst]. by rewrite Hc. }
    rewrite E in H. by apply any_call.
  - intros a l fs (U1 & U2 & U3). simpl. rewrite cbs_rf in U1. split_and!; [split| | |].
    + intros g. simpl. rewrite rf_get_insert. case_bool_decide; subst; done.
    + intros g l'. simpl in *. rewrite rf_get_insert. case_bool_decide; subst; congruence.
    + intros g. left. rewrite !cbs_rf, rf_get_insert. split; [case_bool_decide; subst; done|].
      intros s. apply not_elem_of_nil.
    + constructor.
    + by rewrite rf_get_insert, bool_decide_true.
    + intros g Hg. by rewrite rf_get_insert, bool_decide_false.
    + intros g Hg. unfold unused. rewrite !cbs_rf. simpl. by rewrite rf_get_insert, bool_decide_false.
  - intros f s fs. simpl. unfold rf_add. destruct (rf_done fs f); [|done]. intros _. apply any_call, step_refl.
  - intros f s fs. simpl. unfold rf_add. destruct (rf_done fs f); [done|]. intros _. cbn [snd]. unfold rf_update.
    split_and!.
    + intros g. rewrite rf_get_insert. case_bool_decide; by subst.
    + intros g. rewrite rf_get_insert. case_bool_decide; by subst.
    + intros g Hg. by rewrite !cbs_rf, rf_get_insert, bool_decide_false.
    + rewrite !cbs_rf, rf_get_insert, bool_decide_true by done. simpl. unfold synx_cbs. by rewrite omap_app.
  - intros f s fs. simpl. unfold rf_remove. cbn [fst snd]. destruct (synx_cbs_remove s (rf_cbs (rf_get fs f))) as [H1 H2].
    unfold rf_update. split_and!.
    + exact H2.
    + clear H2. intros g. rewrite rf_get_insert. case_bool_decide; by subst.
    + clear H2. intros g. rewrite rf_get_insert. case_bool_decide; by subst.
    + intros g Hg. by rewrite !cbs_rf, rf_get_insert, bool_decide_false.
    + rewrite !cbs_rf, rf_get_insert, bool_decide_true by done. exact H1.
  - intros f s fs Hn Hz. apply rf_status_zero in Hz. unfold report. simpl in Hn. set (fs1 := (rf_remove f s fs).2).
    change (rf_norm (rf_status (rf_get (rf_signal f fs1).2 f)) = rf_norm (rf_status (rf_get (rf_signal f fs).2 f))).
    assert (E : rf_get fs1 f = mk_rf (rf_refs (rf_get fs f)) (rf_status (rf_get fs f)) (rf_error (rf_get fs f))
      (List.filter (fun cb => negb (is_cb s cb)) (rf_cbs (rf_get fs f))) (rf_children (rf_get fs f)))
      by (unfold fs1, rf_remove, rf_update; cbn [snd]; by rewrite rf_get_insert, bool_decide_true).
    destruct (rf_signal_keep f fs Hn Hz) as [_ ->].
    assert (Hn1 : rf_children (rf_get fs1 f) = None) by by rewrite E.
    assert (Hz1 : rf_done fs1 f = false) by (unfold rf_done; rewrite E; exact Hz).
    destruct (rf_signal_keep f fs1 Hn1 Hz1) as [_ ->]. by rewrite E.
Qed.

(** No fence of this kernel fails with [EPERM]. *)
#[export] Instance ref_laws : DmaFenceLaws (F := ref_fence_ops).
Proof.
  split; [exact ref_doc|]. intros fs f. simpl. unfold rf_norm. destruct (_ =? 0); [done|].
  destruct (_ && _) eqn:Ec; [|done]. apply andb_true_iff in Ec as [E1 E2]. zbool. lia.
Qed.

(** * Concrete runs of the synx client framework

    Every allocation succeeds and every bound operation too; the runs below are
    evaluated on the concrete kernel above. *)

#[export] Instance ref_client_env : SynxClientEnv := {|
  kzalloc_answer _ := true;
  stack_garbage := None;
  ext_register_callback _ _ := 0;
  ext_deregister_callback _ _ := 0;
  ext_enable_signaling := None;
  ext_signal _ _ _ := 0
|}.



#[export] Instance demo_synx_env : SynxEnv := ref_env.

(** The framework after [synx_init]. *)
Definition dev_boot : dev := booted 4096 (∅ : gmap Z ref_fence) boot.

(** The state in which a run ends. *)
Definition final {A} (m : run dev A) (d : dev) : option (A * dev) :=
  match m d with Ret a d => Some (a, d) | _ => None end.

(** A test for the steps that may be taken. *)
Definition all_simple (d : dev) : bool :=
  forallb (fun po => bool_decide (to_dma_fence_array (d_fences d) (o_fence po.2) = None)) (map_to_list (d_objs d)).

Definition import_okb (params : synx_import_indv_params) (d : dev) : bool :=
  if truthy (Z.land (i_flags params) SYNX_IMPORT_DMA_FENCE)
  then (i_fence params <? d_next d) && bool_decide (to_dma_fence_array (d_fences d) (i_fence params) = None)
  else negb (truthy (Z.land (i_flags params) SYNX_IMPORT_GLOBAL_FENCE) &&
             negb (synx_util_is_global_handle (i_fence params))).

Definition step_okb (k : step_kind) (d : dev) : bool :=
  match k with
  | DoCreate _ _ flags _ => 0 <=? flags
  | DoImport _ _ params => forallb (fun p => import_okb p d) (match params with inl p => [p] | inr l => l end)
  | DoMerge _ _ _ => all_simple d
  | DoTimer cp => match d_cbs d !! cp with Some x => c_timer x | None => false end
  | DoFences _ _ _ => false
  | _ => true
  end.

Lemma step_okb_ok k d : step_okb k d = true -> step_ok k d.
Proof.
  destruct k; simpl; try done.
  - apply Z.leb_le.
  - rewrite forallb_forall. intros H p Hp. apply list_elem_of_In, H in Hp. unfold import_okb, import_ok in *.
    destruct (truthy _); [|by apply negb_true_iff in Hp]. apply andb_true_iff in Hp as [H1 H2]. zbool.
    by apply bool_decide_eq_true in H2.
  - intros H. split; [|done]. intros h x _ _ _ o Ho. unfold all_simple in H. rewrite forallb_forall in H.
    apply elem_of_map_to_list, list_elem_of_In, H in Ho. by apply bool_decide_eq_true in Ho.
  - destruct (d_cbs d !! cp) as [x|]; [|done]. intros H. by exists x.
Qed.

Lemma reachable_dev_boot : reachable dev_boot.
Proof.
  apply reachable_boot; [done|split|done].
  - intros f _. done.
  - done.
Qed.

(** Takes the steps while they may be taken. *)
Fixpoint after (ks : list step_kind) (d : dev) : dev :=
  match ks with
  | [] => d
  | k :: ks => if step_okb k d then match run_step k d with Ret _ d' => after ks d' | _ => d end else d
  end.

Lemma reachable_after ks : reachable (after ks dev_boot).
Proof.
  assert (H : forall d, reachable d -> reachable (after ks d)); [|apply H, reachable_dev_boot].
  induction ks as [|k ks IH]; intros d Hd; [done|]. simpl. destruct (step_okb k d) eqn:Ek; [|done].
  destruct (run_step k d) as [[] d'| |] eqn:Er; [|done..]. apply IH. eapply reachable_step; [exact Hd| |exact Er].
  by apply step_okb_ok.
Qed.

(** A session that waits for a local object and signals it: the session is at
    address 4096, and its first handle is 1. *)
Definition demo_steps : list step_kind := [
  DoInitialize;
  DoCreate 1 4096 SYNX_CREATE_LOCAL_FENCE 0;
  DoAsyncWait 4096 (mk_cbparams 1 (kernel_callback 7) 99 SYNX_NO_TIMEOUT None);
  DoSignal 4096 1 SYNX_STATE_SIGNALED_SUCCESS;
  DoWorkCb 0;
  DoWorkCb 0;
  DoRelease 4096 1;
  DoUninitialize 4096;
  DoWorkCleanup 0;
  DoWorkCleanup 0;
  DoWorkCleanup 0
].

(** A merge of two local objects, of which the first is signalled. *)
Definition merge_steps : list step_kind := [
  DoInitialize;
  DoCreate 1 4096 SYNX_CREATE_LOCAL_FENCE 0;
  DoCreate 1 4096 SYNX_CREATE_LOCAL_FENCE 0;
  DoMerge 4096 (mk_mparams [1; 2] 0) 0;
  DoSignal 4096 1 SYNX_STATE_SIGNALED_SUCCESS;
  DoSignal 4096 2 SYNX_STATE_SIGNALED_CANCEL;
  DoWorkCb 0;
  DoRelease 4096 1;
  DoRelease 4096 2;
  DoRelease 4096 3
].

(** Two callbacks of a client of the device, for one object. *)
Definition device_steps : list step_kind := [
  DoInitialize;
  DoCreate 1 4096 SYNX_CREATE_LOCAL_FENCE 0;
  DoAsyncWait 4096 (mk_cbparams 1 synx_util_default_user_callback_ptr 71 SYNX_NO_TIMEOUT None);
  DoAsyncWait 4096 (mk_cbparams 1 synx_util_default_user_callback_ptr 72 1000 None);
  DoSignal 4096 1 SYNX_STATE_SIGNALED_SUCCESS;
  DoWorkCb 0;
  DoWorkCb 0;
  DoWorkCb 0;
  DoRead 4096 userpayload_size true
].

Definition device_run (n : nat) : dev := after (take n device_steps) dev_boot.
