(* ===== verification/SynxRuns.v ===== *)
(** * The synx client framework: safety of its runs

    The theorems on the reachable states of the framework. *)

From S2P Require Import Prelude Bitmap SynxGlobal SynxSignal SynxDev SynxUtil SynxClient SynxInv.
From S2P Require Import SynxRefs SynxOwn SynxSafe SynxDemo.

Section runs.
Context `{F : DmaFence} `{E : SynxEnv} `{C : SynxClientEnv} `{Laws : !DmaFenceLaws}.
Implicit Types d : dev.

(** C2. From a reachable state, no step that [step_ok] admits uses a struct that
    was freed or is of another type, or frees the memory of a pending timer, in
    whatever order the steps come; only a step that signals or uses the global
    table can wait for ever; and every step releases the locks it took. The steps
    are the calls of the interface, with any handles, keys and callbacks, the
    work items, timers and messages, but for external fences: a creation names
    none, and [synx_bind] is not a step. Two calls are restricted:
    - an import is admitted if it names an existing fence that is not an array,
      or a handle that it need not convert to a global one: the code uses the
      map entry of a conversion that failed ([synx.c:1724]);
    - a merge is admitted if the fences of its handles are not arrays, and where
      the variable that its error path reads unset ([synx.c:1310]) holds [NULL].
    A timer expires while it is pending, and the other drivers' fences follow
    the rules of the kernel and never fail with [EPERM] ([DmaFenceLaws]). *)
Theorem steps_safe d k :
  reachable d -> step_ok k d ->
  match run_step k d with
  | Ret _ d' => d_held d' = []
  | Block => may_block k d = true
  | Fault => False
  end.
Proof.
  intros Hr Hk. pose proof (step_keeps k d (reachable_inv d Hr) Hk) as H. unfold good in H.
  destruct (run_step k d); [|done..]. by apply in_held with (X := []), H.
Qed.

(** C12. In every reachable state the pointers of the framework are well typed:
    each leads to a live struct of its type with a positive count of references,
    and what the clean-up queue names is live and unreferenced. The exception is
    the [signal_cb] of an object, which is live, registered with the fence of the
    object and leads back to it while that fence, or a child of it, is
    unsignalled: later the pointer stays set when the struct has been freed
    ([SynxFindings.signal_cb_dangles]). *)
Theorem reachable_typed d : reachable d -> typed d.
Proof. intros Hr. by apply inv_typed, reachable_inv. Qed.

(** C13. A callback of a client is delivered once at most, and a live one is in
    exactly one place: with one object, once, or in the work queue, once and
    without a pending timer. *)
Theorem callbacks_once d :
  reachable d ->
  NoDup (delivered (d_trace d)) /\
  (forall c, c ∈ delivered (d_trace d) -> d_cbs d !! c = None) /\
  NoDup (d_wq_cb d) /\ (forall p o, d_objs d !! p = Some o -> NoDup (o_reg_cbs o)) /\
  forall c x, d_cbs d !! c = Some x ->
    ((exists p, waits_at d c p /\ forall q, waits_at d c q -> q = p) /\ WCb c ∉ d_wq_cb d) \/
    ((forall p, ~ waits_at d c p) /\ WCb c ∈ d_wq_cb d /\ c_timer x = false).
Proof.
  intros Hr. pose proof (in_cbs _ _ _ (proj1 (reachable_inv d Hr))) as [B1 B2 B3 B4 B5 B6 B7 B8 B9 B10].
  split_and!; [done| |done|done|].
  - intros c Hc. apply list_elem_of_omap in Hc as ([] & Hin & Heq); try done. injection Heq as ->.
    destruct (B9 _ _ _ _ _ Hin) as [|Hd]; [done|]. by apply elem_of_nil in Hd.
  - intros c x Hx. destruct (B6 c) as [(p & o & Ho & Hc)|[Hw|Hd]]; [by eexists|left|right|by apply elem_of_nil in Hd].
    + split; [|intros Hw; by destruct (B4 c Hw) as [_ H]; apply (H p o)]. exists p. split; [by exists o|].
      intros q (o' & Ho' & Hc'). by apply (B3 q p o' o c).
    + destruct (B4 c Hw) as [_ Hn]. split_and!; [intros p (o & Ho & Hc); by apply (Hn p o)|done|].
      destruct (c_timer x) eqn:Et; [|done]. destruct (B8 c x Hx Et) as [_ [(p & o & Ho & Hc)|Hd]]; [by destruct (Hn p o)|].
      by apply elem_of_nil in Hd.
Qed.

End runs.

(** ** Concrete runs *)

(** The signal of the object that the session waits for. *)
Lemma steps_safe_witness :
  match run_step (DoSignal 4096 1 SYNX_STATE_SIGNALED_SUCCESS) (after (take 3 demo_steps) dev_boot) with
  | Ret _ d' => d_held d' = []
  | Block => may_block (DoSignal 4096 1 SYNX_STATE_SIGNALED_SUCCESS) (after (take 3 demo_steps) dev_boot) = true
  | Fault => False
  end.
Proof. apply (steps_safe (after (take 3 demo_steps) dev_boot) (DoSignal 4096 1 SYNX_STATE_SIGNALED_SUCCESS) (reachable_after (take 3 demo_steps)) I). Defined.

Lemma reachable_typed_witness : typed (after (take 3 demo_steps) dev_boot).
Proof. apply (reachable_typed _ (reachable_after (take 3 demo_steps))). Defined.

(** The callback is delivered. *)
Lemma callbacks_once_witness :
  delivered (d_trace (after (take 6 demo_steps) dev_boot)) = [4104] /\
  NoDup (delivered (d_trace (after (take 6 demo_steps) dev_boot))).
Proof. split; [vm_compute; reflexivity|exact (proj1 (callbacks_once _ (reachable_after (take 6 demo_steps))))]. Defined.
