(* ===== verification/SynxStatus.v ===== *)
(** * The synx client framework: statuses, duplicates and handles

    The status of a merged object against a reference, the fences that a merge
    keeps, and the encoding of handles. *)

From S2P Require Import Prelude Bitmap SynxGlobal SynxSignal SynxDev SynxUtil SynxClient SynxInv.
From S2P Require Import SynxRefs SynxOwn SynxMem SynxKeeps SynxHandles SynxSafe SynxDemo.

(** ** Merged objects *)

Definition failed (st : Z) : bool := negb (st =? SYNX_STATE_SIGNALED_SUCCESS) && (st <=? SYNX_STATE_SIGNALED_MAX).

(** The status of a merge, from those of its children: active while one is
    active, else the first failure, else that of the last child. *)
Definition merged_status (states : list Z) : Z :=
  if bool_decide (SYNX_STATE_ACTIVE ∈ states) then SYNX_STATE_ACTIVE
  else default (default SYNX_STATE_INVALID (last states)) (List.find failed states).

Lemma group_loop_spec states : SYNX_STATE_ACTIVE ∉ states -> forall parent sig err,
  0 <= err -> exists p, group_loop states parent 0 sig err = (p, 0) /\
    p = if err =? 0 then default (default parent (last states)) (List.find failed states) else parent.
Proof.
  induction states as [|st states IH]; intros Hn parent sig err Herr; cbn [group_loop].
  { exists parent. split; [done|]. by destruct (err =? 0). }
  rewrite elem_of_cons in Hn. assert (Hst : st <> SYNX_STATE_ACTIVE) by naive_solver.
  rewrite (proj2 (Z.eqb_neq _ _) Hst). cbn [List.find].
  assert (Hlast : default parent (last (st :: states)) = default st (last states)).
  { rewrite last_cons. by destruct (last states). }
  unfold failed at 1. destruct (st =? SYNX_STATE_SIGNALED_SUCCESS) eqn:E1; cbn [negb andb]; [|destruct (st >? SYNX_STATE_SIGNALED_MAX) eqn:E2].
  - destruct (IH ltac:(naive_solver) (if err =? 0 then st else parent) (sig + 1) err Herr) as (p & Hp & ->).
    eexists. split; [exact Hp|]. destruct (err =? 0); [by rewrite Hlast|done].
  - rewrite (proj2 (Z.leb_gt _ _)) by (zbool; lia).
    destruct (IH ltac:(naive_solver) (if err =? 0 then st else parent) (sig + 1) err Herr) as (p & Hp & ->).
    eexists. split; [exact Hp|]. destruct (err =? 0); [by rewrite Hlast|done].
  - rewrite (proj2 (Z.leb_le _ _)) by (zbool; lia).
    destruct (IH ltac:(naive_solver) (if err =? 0 then st else parent) sig (err + 1) ltac:(lia)) as (p & Hp & ->).
    eexists. split; [exact Hp|]. rewrite (proj2 (Z.eqb_neq (err + 1) 0)) by lia. by destruct (err =? 0).
Qed.

Lemma group_loop_actv states : forall parent actv sig err, 0 <= actv ->
  0 < actv \/ SYNX_STATE_ACTIVE ∈ states -> 0 < (group_loop states parent actv sig err).2.
Proof.
  induction states as [|st states IH]; intros parent actv sig err Ha Hin; cbn [group_loop].
  { destruct Hin as [|Hin]; [done|by apply elem_of_nil in Hin]. }
  rewrite elem_of_cons in Hin. destruct (st =? SYNX_STATE_ACTIVE) eqn:E; zbool; [apply IH; lia|].
  repeat case_match; apply IH; naive_solver.
Qed.

Lemma group_state_merged states : group_state states = merged_status states.
Proof.
  unfold group_state, merged_status. case_bool_decide as Hin.
  - pose proof (group_loop_actv states SYNX_STATE_INVALID 0 0 0 ltac:(done) (or_intror Hin)) as H.
    destruct (group_loop states SYNX_STATE_INVALID 0 0 0) as [p a]. cbn [snd] in H. unfold truthy.
    by rewrite (proj2 (Z.eqb_neq a 0)) by lia.
  - destruct (group_loop_spec states Hin SYNX_STATE_INVALID 0 0 ltac:(done)) as (p & -> & ->). done.
Qed.

Section status.
Context `{F : DmaFence} `{E : SynxEnv} `{C : SynxClientEnv} `{Doc : !DmaFenceDoc}.
Implicit Types d : dev.

(** A child that [__fence_state] reads as active: it is unsignalled, or failed
    with [EPERM]. *)
Definition reads_active (fs : fences) (f : Z) : Prop :=
  f <> 0 /\ (dma_fence_get_status fs f = 0 \/ dma_fence_get_status fs f = -1).

Lemma fence_st_reads fs f : fence_st fs f = SYNX_STATE_ACTIVE <-> reads_active fs f.
Proof.
  unfold fence_st, reads_active. destruct (f =? 0) eqn:E0; zbool.
  - split; [done|]. by intros [? _].
  - rewrite state_of_status_reads. naive_solver.
Qed.

(** C15. The status of a merged object is the reference's: it is computed from
    the children of its array, whatever the number of active, signalled and
    failed ones: active while one reads as active, else the first failure (a
    status up to [SYNX_STATE_SIGNALED_MAX] other than success), else that of the
    last child. It is active exactly while a child is unsignalled or failed with
    [EPERM], which the code does not tell from unsignalled. The state need not
    be reachable: no lock is held, and the fence of the object is an array, as
    that of a merged object is in every reachable state ([reachable_array]). *)
Theorem merged_object_status d p o l :
  d_held d = [] -> d_objs d !! p = Some o -> synx_util_is_merged_object o = true -> o_fence o <> 0 ->
  to_dma_fence_array (d_fences d) (o_fence o) = Some l ->
  synx_util_get_object_status p d = Ret (merged_status (map (fence_st (d_fences d)) l)) d /\
  (merged_status (map (fence_st (d_fences d)) l) = SYNX_STATE_ACTIVE <->
   exists f, f ∈ l /\ reads_active (d_fences d) f).
Proof.
  intros Hh Ho Hm Hz Hl. split_and!.
  - rewrite <- group_state_merged. unfold synx_util_get_object_status. rewrite (object_status_run p o false d Ho).
    + unfold obj_st. by rewrite Hm, (proj2 (Z.eqb_neq _ _) Hz), Hl.
    + intros _ f. rewrite Hh. apply not_elem_of_nil.
  - rewrite <- group_state_merged. split.
    + intros H. apply group_state_active, list_elem_of_fmap in H as (f & Hf & Hin). symmetry in Hf.
      apply fence_st_reads in Hf. eauto.
    + intros (f & Hin & Hf). rewrite group_state_merged. unfold merged_status. rewrite bool_decide_true; [done|].
      apply list_elem_of_fmap. exists f. split; [|done]. symmetry. by apply fence_st_reads.
Qed.

Lemma reachable_array `{Laws : !DmaFenceLaws} d p o :
  reachable d -> d_objs d !! p = Some o -> synx_util_is_merged_object o = true ->
  d_held d = [] /\ exists l, to_dma_fence_array (d_fences d) (o_fence o) = Some l.
Proof.
  intros Hr Ho Hm. pose proof (reachable_inv d Hr) as Hi. split; [apply (in_held _ _ _ (proj1 Hi))|].
  destruct (ob_merged _ _ _ _ _ (in_objs _ _ _ (proj1 Hi)) p o Ho Hm) as (l & Hl & _). by exists l.
Qed.

End status.

Definition merge_run (n : nat) : dev := after (take n merge_steps) dev_boot.

Lemma merged_4111 :
  exists o, d_objs (merge_run 6) !! 4111 = Some o /\ synx_util_is_merged_object o = true /\ o_fence o <> 0.
Proof. vm_compute. eexists. split_and!; [reflexivity|done..]. Qed.

(** A merge of which one child is signalled, and then the other one fails. *)
Lemma merged_object_status_witness :
  match synx_util_get_object_status 4111 (merge_run 5), synx_util_get_object_status 4111 (merge_run 6) with
  | Ret st _, Ret st' _ => st = SYNX_STATE_ACTIVE /\ st' = SYNX_STATE_SIGNALED_CANCEL
  | _, _ => False
  end /\
  exists l, synx_util_get_object_status 4111 (merge_run 6) =
    Ret (merged_status (map (fence_st (d_fences (merge_run 6))) l)) (merge_run 6).
Proof.
  split; [vm_compute; done|]. destruct merged_4111 as (o & Ho & Hm & Hf).
  destruct (reachable_array (merge_run 6) 4111 o (reachable_after (take 6 merge_steps)) Ho Hm) as [Hh [l Hl]].
  exists l. exact (proj1 (merged_object_status (merge_run 6) 4111 o l Hh Ho Hm Hf Hl)).
Defined.

(** ** The fences of a merge *)

Lemma dedup_loop_full arr : forall kept dropped k dr,
  NoDup kept -> dedup_loop arr kept dropped = (k, dr) ->
  exists new, k = kept ++ new /\ NoDup k /\ new `sublist_of` arr /\ (forall f, f ∈ arr -> f ∈ k) /\
    kept ++ dropped ++ arr ≡ₚ k ++ dr.
Proof.
  induction arr as [|f arr IH]; intros kept dropped k dr HN; cbn [dedup_loop].
  - intros [= <- <-]. exists []. rewrite !app_nil_r. split_and!; [done|done|constructor| |done].
    intros f Hf. by apply elem_of_nil in Hf.
  - destruct (existsb (Z.eqb f) kept) eqn:Ee; intros H.
    + apply existsb_exists in Ee as (g & Hg & E). zbool. subst g. apply list_elem_of_In in Hg.
      destruct (IH _ _ _ _ HN H) as (new & -> & N & S & I & P). exists new. split_and!; [done|done| | |].
      * by apply sublist_cons.
      * intros g. rewrite elem_of_cons. intros [->|Hin]; [apply elem_of_app; by left|auto].
      * rewrite <- P. by rewrite <- app_assoc.
    + assert (Hn : f ∉ kept).
      { intros Hin. apply not_true_iff_false in Ee. apply Ee, existsb_exists. exists f. by rewrite <- list_elem_of_In, Z.eqb_eq. }
      destruct (IH _ _ _ _ (NoDup_snoc _ _ HN Hn) H) as (new & -> & N & S & I & P). exists (f :: new). split_and!.
      * by rewrite <- app_assoc.
      * done.
      * by apply sublist_skip.
      * intros g. rewrite elem_of_cons. intros [->|Hin]; [|auto]. rewrite !elem_of_app. left. right. by left.
      * rewrite <- P, <- app_assoc. apply Permutation_app_head. simpl. apply Permutation_sym, Permutation_middle.
Qed.

(** Of the fences of its constituents a merge keeps each once, at its first
    place and in their order; it puts the reference of every other one, and none
    is lost; the count of the array is that of the fences kept. *)
Theorem remove_duplicates_correct f arr :
  exists kept dropped, remove_duplicates (f :: arr) = (zlen kept, kept, dropped) /\
    NoDup kept /\ kept `sublist_of` f :: arr /\ (forall g, g ∈ f :: arr -> g ∈ kept) /\
    f :: arr ≡ₚ kept ++ dropped.
Proof.
  unfold remove_duplicates. cbn [drop take]. rewrite drop_0, take_0.
  destruct (dedup_loop arr [f] []) as [kept dropped] eqn:Ed.
  destruct (dedup_loop_full arr [f] [] kept dropped) as (new & -> & N & S & I & P); [|done|].
  { apply NoDup_singleton. }
  exists ([f] ++ new), dropped. split_and!; [|done| | |].
  - change ([f] ++ new) with (f :: new). cbn [drop]. rewrite drop_0. unfold zlen. cbn [length]. do 2 f_equal. lia.
  - by apply sublist_skip.
  - intros g. rewrite elem_of_cons. intros [->|Hg]; [by left|auto].
  - exact P.
Qed.

(** ** Handles *)

Lemma encode_sum idx core (global : bool) :
  0 <= idx < SYNX_MAX_OBJS -> 0 <= core < 16 ->
  synx_encode_handle idx core global = idx + (core + b2z global * 16) * 2 ^ 16.
Proof.
  intros Hi Hc. unfold synx_encode_handle. change SYNX_MAX_OBJS with 4096 in *.
  rewrite Z.geb_leb. rewrite (proj2 (Z.leb_gt _ _)) by lia. cbn zeta.
  assert (E : Z.lor (if global then u32 (Z.shiftl 1 SYNX_HANDLE_CORE_BITS) else 0) core = core + b2z global * 16).
  { destruct global; simpl b2z; [|rewrite Z.lor_0_l; lia].
    change (u32 (Z.shiftl 1 SYNX_HANDLE_CORE_BITS)) with (Z.shiftl 1 4). rewrite Z.lor_comm. by apply lor_shiftl_low. }
  rewrite E. assert (0 <= b2z global <= 1) by (destruct global; simpl; lia).
  change SYNX_HANDLE_INDEX_BITS with 16. rewrite u32_small by (rewrite Z.shiftl_mul_pow2; lia).
  rewrite Z.lor_comm. apply lor_shiftl_low; lia.
Qed.

(** The index, the core and the flag of a handle are found again in it;
    handles of different indexes, cores or maps differ, and all fit 32 bits. *)
Theorem handle_roundtrip idx core (global : bool) :
  0 <= idx < SYNX_MAX_OBJS -> 0 <= core < 16 ->
  let h := synx_encode_handle idx core global in
  synx_util_global_idx h = idx /\ synx_util_is_global_handle h = global /\
  Z.shiftr (Z.land h SYNX_OBJ_CORE_ID_MASK) SYNX_HANDLE_INDEX_BITS = core /\ 0 <= h < 2 ^ 32 /\
  forall idx' core' global', 0 <= idx' < SYNX_MAX_OBJS -> 0 <= core' < 16 ->
    synx_encode_handle idx' core' global' = h -> idx' = idx /\ core' = core /\ global' = global.
Proof.
  intros Hi Hc. cbn zeta. rewrite encode_sum by done.
  assert (Hg : forall b : bool, 0 <= b2z b <= 1) by (intros []; simpl; lia). pose proof (Hg global).
  change SYNX_MAX_OBJS with 4096 in *.
  assert (H16 : forall a, Z.land a (Z.ones 16) = a mod 2 ^ 16) by (intros a; by rewrite Z.land_ones).
  assert (Hsh : forall a n, 0 <= n -> Z.land a (Z.shiftl (Z.ones n) 16) = Z.shiftl ((a / 2 ^ 16) mod 2 ^ n) 16).
  { intros a n Hn. apply Z.bits_inj'. intros i Hi'. rewrite Z.land_spec. destruct (Z.lt_ge_cases i 16).
    - rewrite !Z.shiftl_spec_low by lia. apply andb_false_r.
    - rewrite !Z.shiftl_spec by lia. rewrite <- Z.land_ones, Z.land_spec, <- Z.shiftr_div_pow2, Z.shiftr_spec by lia.
      by replace (i - 16 + 16) with i by lia. }
  assert (Hdiv : (idx + (core + b2z global * 16) * 2 ^ 16) / 2 ^ 16 = core + b2z global * 16).
  { rewrite Z.div_add, Z.div_small by lia. lia. }
  split_and!.
  - unfold synx_util_global_idx, SYNX_OBJ_HANDLE_MASK. rewrite H16, Z_mod_plus_full. apply Z.mod_small. lia.
  - unfold synx_util_is_global_handle, SYNX_OBJ_GLOBAL_FLAG_MASK, truthy. change (Z.shiftl (Z.ones 1) 20) with (2 ^ 20).
    assert (E : Z.testbit (idx + (core + b2z global * 16) * 2 ^ 16) 20 = global).
    { replace 20 with (4 + 16) by lia. rewrite <- Z.shiftr_spec, Z.shiftr_div_pow2, Hdiv by lia.
      replace 4 with (0 + 4) by lia. rewrite <- Z.shiftr_spec, Z.shiftr_div_pow2, Z.div_add, Z.div_small by lia.
      by destruct global. }
    rewrite <- E at 2. destruct (Z.testbit _ 20) eqn:Et.
    + apply negb_true_iff, Z.eqb_neq. intros H0. apply (f_equal (fun z => Z.testbit z 20)) in H0.
      by rewrite Z.land_spec, Et in H0.
    + apply negb_false_iff, Z.eqb_eq. apply Z.bits_inj'. intros i Hi'. rewrite Z.land_spec, Z.testbit_0_l.
      rewrite Z.pow2_bits_eqb by lia. destruct (Z.eqb_spec 20 i) as [<-|]; [by rewrite Et|apply andb_false_r].
  - unfold SYNX_OBJ_CORE_ID_MASK. rewrite Hsh, Hdiv by lia. change SYNX_HANDLE_INDEX_BITS with 16.
    rewrite Z.shiftr_shiftl_l by lia. rewrite Z.shiftl_0_r, Z_mod_plus_full. apply Z.mod_small. lia.
  - lia.
  - lia.
  - intros idx' core' global' Hi' Hc'. rewrite encode_sum by done. pose proof (Hg global').
    intros Heq. assert (idx' = idx) by lia. assert (core' = core) by lia. split_and!; [done|done|].
    assert (b2z global' = b2z global) by lia. by destruct global, global'.
Qed.

Lemma handle_roundtrip_witness :
  synx_util_global_idx (synx_encode_handle 5 SYNX_CORE_APSS true) = 5 /\
  synx_util_is_global_handle (synx_encode_handle 5 SYNX_CORE_APSS true) = true.
Proof.
  destruct (handle_roundtrip 5 SYNX_CORE_APSS true) as (H1 & H2 & _); [by vm_compute|by vm_compute|].
  split; [exact H1|exact H2].
Defined.
