(* ===== verification/SynxCalls.v ===== *)
(** * The synx client framework: what the calls do

    The delivery of a callback to its client, the events that a client reads, and
    the dispatch of all callbacks of an object, as equations on the state. *)

From S2P Require Import Prelude Bitmap SynxGlobal SynxSignal SynxDev SynxUtil SynxClient SynxInv.
From S2P Require Import SynxRefs SynxOwn SynxMem SynxKeeps SynxHandles SynxSafe SynxDemo.

Section equations.
Context `{F : DmaFence} `{E : SynxEnv} `{C : SynxClientEnv}.
Implicit Types d : dev.

(** ** Equations of the constructs *)

Lemma with_lock_run {A} l (m : run dev A) a d d' :
  l ∉ d_held d -> d_held d' = d_held d ->
  m (set_d_held (l :: d_held d) d) = Ret a (set_d_held (l :: d_held d) d') -> with_lock l m d = Ret a d'.
Proof.
  intros Hl Hd Hm. unfold with_lock, lock, mbind, run_bind. rewrite bool_decide_false by done. rewrite Hm. simpl.
  rewrite bool_decide_true by done. f_equal. rewrite <- Hd. by destruct d'.
Qed.

Lemma get_cli_run c cl d : d_clients d !! c = Some cl -> get_cli c d = Ret cl d.
Proof. intros H. unfold get_cli, gets, mbind, run_bind. by rewrite H. Qed.
Lemma get_cb_run c x d : d_cbs d !! c = Some x -> get_cb c d = Ret x d.
Proof. intros H. unfold get_cb, gets, mbind, run_bind. by rewrite H. Qed.
Lemma upd_cli_run c cl f d :
  d_clients d !! c = Some cl -> upd_cli c f d = Ret tt (set_d_clients (<[c := f cl]> (d_clients d)) d).
Proof. intros H. unfold upd_cli. by rewrite (bind_ret _ _ _ _ _ (get_cli_run _ _ _ H)). Qed.
Lemma deref_run {A} (a : A) d : (deref (Some a) : run dev A) d = Ret a d.
Proof. done. Qed.

(** A session whose client is active: the body runs with one more reference, and
    a client that is still referenced stays. *)
Definition with_client (s : Z) (cl : synx_client) (d : dev) : dev := set_d_clients (<[s := cl]> (d_clients d)) d.

Lemma with_client_again s cl cl' d : with_client s cl (with_client s cl' d) = with_client s cl d.
Proof. unfold with_client, set_d_clients. cbn [d_clients]. by rewrite insert_insert_eq. Qed.

Lemma get_client_run s cl d :
  metadata_map_lock ∉ d_held d -> s ∈ d_sessions d -> d_clients d !! s = Some cl -> cl_active cl = true ->
  synx_get_client s d = Ret (Some s) (with_client s (set_cl_refcount (cl_refcount cl + 1) cl) d).
Proof.
  intros Hl Hs Hc Ha. unfold synx_get_client. apply with_lock_run; [done|done|].
  unfold gets at 1. unfold mbind at 1, run_bind at 1. cbn [d_sessions set_d_held]. rewrite bool_decide_true by done.
  rewrite (bind_ret _ _ _ _ _ (get_cli_run s cl (set_d_held _ d) Hc)), Ha.
  by rewrite (bind_ret _ _ _ _ _ (upd_cli_run s cl _ (set_d_held _ d) Hc)).
Qed.

Lemma put_client_run s cl d :
  metadata_map_lock ∉ d_held d -> d_clients d !! s = Some cl -> cl_refcount cl <> 1 ->
  synx_put_client s d = Ret tt (with_client s (set_cl_refcount (cl_refcount cl - 1) cl) d).
Proof.
  intros Hl Hc Hr. unfold synx_put_client. apply with_lock_run; [done|done|].
  rewrite (bind_ret _ _ _ _ _ (upd_cli_run s cl _ (set_d_held _ d) Hc)).
  rewrite (bind_ret _ _ _ _ _ (get_cli_run s (set_cl_refcount (cl_refcount cl - 1) cl) _ (lookup_insert_eq _ _ _))).
  cbn [cl_refcount set_cl_refcount]. by rewrite (proj2 (Z.eqb_neq _ _)) by lia.
Qed.

Lemma with_session_run {A} s (fail : A) body a cl cl' d d' :
  metadata_map_lock ∉ d_held d -> s ∈ d_sessions d -> d_clients d !! s = Some cl -> cl_active cl = true ->
  body s (with_client s (set_cl_refcount (cl_refcount cl + 1) cl) d) = Ret a d' ->
  metadata_map_lock ∉ d_held d' -> d_clients d' !! s = Some cl' -> cl_refcount cl' <> 1 ->
  with_session s fail body d = Ret a (with_client s (set_cl_refcount (cl_refcount cl' - 1) cl') d').
Proof.
  intros Hl Hs Hc Ha Hb Hl' Hc' Hr. unfold with_session.
  rewrite (bind_ret _ _ _ _ _ (get_client_run s cl d Hl Hs Hc Ha)), (bind_ret _ _ _ _ _ Hb).
  by rewrite (bind_ret _ _ _ _ _ (put_client_run s cl' d' Hl' Hc' Hr)).
Qed.

(** ** Reading events *)

(** The client without entry [i]. *)
Definition cleared (i : Z) (cl : synx_client) : synx_client :=
  set_cl_cb_bitmap (cl_cb_bitmap cl ∖ {[i]}) (set_cl_cb_table (zupd (cl_cb_table cl) i zero_kcb) cl).

Lemma clear_cb_entry_run c i k cl d :
  d_clients d !! c = Some cl -> cl_cb_table cl !! Z.to_nat i = Some k -> k_idx k = i -> 0 < i < SYNX_MAX_OBJS ->
  synx_util_clear_cb_entry c i d = Ret 0 (with_client c (cleared i cl) d).
Proof.
  intros Hc Hk Hi Hr. unfold synx_util_clear_cb_entry.
  rewrite (bind_ret _ _ _ _ _ (get_cli_run c cl d Hc)), Hk, (bind_ret _ _ _ _ _ (deref_run k d)). cbn zeta.
  rewrite (bind_ret _ _ _ _ _ (upd_cli_run c cl _ d Hc)), Hi. unfold truthy.
  rewrite (proj2 (Z.eqb_neq i 0)), (proj2 (Z.ltb_lt i _)) by lia. cbn [negb andb].
  rewrite (bind_ret _ _ _ _ _ (upd_cli_run c (set_cl_cb_table (zupd (cl_cb_table cl) i zero_kcb) cl) _ _ (lookup_insert_eq _ _ _))).
  unfold mret, run_ret. f_equal. apply with_client_again.
Qed.

(** The client of a session between calls. *)
Lemma with_client_back s cl cl' d :
  with_client s (set_cl_refcount (cl_refcount cl + 1 - 1) cl') d = with_client s (set_cl_refcount (cl_refcount cl) cl') d.
Proof. by rewrite Z.add_simpl_r. Qed.

Lemma cleared_refcount i r cl : cleared i (set_cl_refcount r cl) = set_cl_refcount r (cleared i cl).
Proof. done. Qed.

Lemma read_event_run s i q k cl (ok : bool) d :
  d_held d = [] -> s ∈ d_sessions d -> d_clients d !! s = Some cl -> cl_active cl = true -> 1 <= cl_refcount cl ->
  cl_event_q cl = i :: q -> cl_cb_table cl !! Z.to_nat i = Some k -> k_idx k = i -> 0 < i < SYNX_MAX_OBJS ->
  synx_read s userpayload_size ok d =
    Ret (if ok then userpayload_size else - EFAULT, if ok then Some (k_h_synx k, k_status k, k_data k) else None)
      (with_client s (cleared i (set_cl_event_q q cl)) d).
Proof.
  intros Hl Hs Hc Ha Hr Hq Hk Hi Hlt. unfold synx_read. change (negb (userpayload_size =? userpayload_size)) with false.
  cbn iota. set (cl1 := set_cl_refcount (cl_refcount cl + 1) cl).
  assert (Hb : forall d', d_clients d' !! s = Some cl1 -> d_held d' = [] ->
    (r ← with_lock (event_q_lock s) (
       cl ← get_cli s;
       match cl_event_q cl with
       | [] => mret (inl 0)
       | i :: q =>
           cb ← deref (cl_cb_table cl !! Z.to_nat i);
           if (k_idx cb =? 0) || (k_idx cb >=? SYNX_MAX_OBJS) then mret (inl (- SYNX_INVALID)) else
           upd_cli s (set_cl_event_q q) ;;
           mret (inr (i, cb))
       end);
     match r with
     | inl rc => mret (rc, None)
     | inr (i, cb) =>
         synx_util_clear_cb_entry s i ;;
         mret (if ok then userpayload_size else - EFAULT,
               if ok then Some (k_h_synx cb, k_status cb, k_data cb) else None)
     end) d' = Ret (if ok then userpayload_size else - EFAULT, if ok then Some (k_h_synx k, k_status k, k_data k) else None)
      (with_client s (cleared i (set_cl_event_q q cl1)) d')).
  { intros d' Hc' Hd'. erewrite bind_ret.
    2: { apply (with_lock_run _ _ (inr (i, k)) d' (with_client s (set_cl_event_q q cl1) d')); [by rewrite Hd'; apply not_elem_of_nil|done|].
      rewrite (bind_ret _ _ _ _ _ (get_cli_run s cl1 (set_d_held _ d') Hc')).
      change (cl_event_q cl1) with (cl_event_q cl). change (cl_cb_table cl1) with (cl_cb_table cl). rewrite Hq, Hk.
      rewrite (bind_ret _ _ _ _ _ (deref_run k _)), Hi, (proj2 (Z.eqb_neq i 0)) by lia.
      rewrite Z.geb_leb, (proj2 (Z.leb_gt _ _)) by lia. cbn [orb].
      by rewrite (bind_ret _ _ _ _ _ (upd_cli_run s cl1 _ (set_d_held _ d') Hc')). }
    cbn beta iota. rewrite (bind_ret _ _ _ _ _ (clear_cb_entry_run s i k (set_cl_event_q q cl1) _ (lookup_insert_eq _ _ _) Hk Hi Hlt)).
    by rewrite with_client_again. }
  rewrite (with_session_run s _ _ (if ok then userpayload_size else - EFAULT,
      if ok then Some (k_h_synx k, k_status k, k_data k) else None) cl (cleared i (set_cl_event_q q cl1)) d
    (with_client s (cleared i (set_cl_event_q q cl1)) (with_client s cl1 d))); try done.
  - rewrite !with_client_again. f_equal. unfold cl1. destruct cl. unfold cleared. simpl. by rewrite Z.add_simpl_r.
  - rewrite Hl. apply not_elem_of_nil.
  - apply Hb; [apply lookup_insert_eq|done].
  - simpl. rewrite Hl. apply not_elem_of_nil.
  - apply lookup_insert_eq.
  - simpl. lia.
Qed.

(** ** Delivery *)

(** The client and the trace after callback node [c], of entry [k] at [idx], is
    delivered with status [st] to [f]. *)
Definition deliver (s c idx st : Z) (f : user_callback) (k : synx_client_cb) (cl : synx_client) (d : dev) : dev :=
  match f with
  | synx_util_default_user_callback_ptr =>
      with_client s (set_cl_event_q (cl_event_q cl ++ [idx])
        (set_cl_cb_table (zupd (cl_cb_table cl) idx (set_k_status st k)) cl)) d
  | kernel_callback g =>
      with_client s (cleared idx cl) (set_d_trace (d_trace d ++ [UserCallback c g (k_h_synx k) st (k_data k)]) d)
  end.

Lemma cb_dispatch_client_run s c x f k cl d :
  d_held d = [] -> d_cbs d !! c = Some x -> 0 < c_idx x < SYNX_MAX_OBJS -> d_clients d !! s = Some cl ->
  cl_cb_table cl !! Z.to_nat (c_idx x) = Some k -> k_valid k = true -> k_func k = Some f -> k_client k = Some s ->
  k_idx k = c_idx x ->
  cb_dispatch_client s c d = Ret tt (deliver s c (c_idx x) (c_status x) f k cl d).
Proof.
  intros Hl Hx Hi Hc Hk Hv Hf Hkc Hki. unfold cb_dispatch_client.
  rewrite (bind_ret _ _ _ _ _ (get_cb_run c x d Hx)), (proj2 (Z.eqb_neq _ _)) by lia.
  rewrite Z.geb_leb, (proj2 (Z.leb_gt _ _)) by lia. cbn [orb]. cbn zeta.
  rewrite (bind_ret _ _ _ _ _ (get_cli_run s cl d Hc)), Hk, (bind_ret _ _ _ _ _ (deref_run k d)), Hv. cbn [negb].
  rewrite Hf, (bind_ret _ _ _ _ _ (deref_run f d)). destruct f as [|g]; cbn [deliver].
  - unfold synx_util_default_user_callback.
    rewrite (bind_ret _ _ _ _ _ (get_cli_run s cl d Hc)), Hk, (bind_ret _ _ _ _ _ (deref_run k d)), Hkc.
    rewrite (bind_ret _ _ _ _ _ (upd_cli_run s cl _ d Hc)). apply with_lock_run; [simpl; rewrite Hl; apply not_elem_of_nil|done|].
    set (cl1 := set_cl_cb_table _ cl).
    rewrite (upd_cli_run s cl1 _ (set_d_held _ (set_d_clients (<[s := cl1]> (d_clients d)) d))) by apply lookup_insert_eq.
    rewrite <- (with_client_again s _ cl1 d). done.
  - rewrite (bind_ret _ _ _ _ _ (clear_cb_entry_run s _ k cl d Hc Hk Hki Hi)). done.
Qed.

Lemma free_cb_run c x d :
  d_cbs d !! c = Some x -> c_timer x = false -> free_cb c d = Ret tt (set_d_cbs (delete c (d_cbs d)) d).
Proof. intros Hx Ht. unfold free_cb. rewrite (bind_ret _ _ _ _ _ (get_cb_run c x d Hx)). by rewrite Ht. Qed.

Lemma deliver_client s c idx st f k r cl d :
  deliver s c idx st f k (set_cl_refcount r cl) d =
  match f with
  | synx_util_default_user_callback_ptr =>
      with_client s (set_cl_refcount r (set_cl_event_q (cl_event_q cl ++ [idx])
        (set_cl_cb_table (zupd (cl_cb_table cl) idx (set_k_status st k)) cl))) d
  | kernel_callback g =>
      with_client s (set_cl_refcount r (cleared idx cl))
        (set_d_trace (d_trace d ++ [UserCallback c g (k_h_synx k) st (k_data k)]) d)
  end.
Proof. by destruct f. Qed.

Lemma cb_dispatch_run c x s f k cl d :
  d_held d = [] -> d_cbs d !! c = Some x -> c_timer x = false -> c_session x = s -> 0 < c_idx x < SYNX_MAX_OBJS ->
  s ∈ d_sessions d -> d_clients d !! s = Some cl -> cl_active cl = true -> 1 <= cl_refcount cl ->
  cl_cb_table cl !! Z.to_nat (c_idx x) = Some k -> k_valid k = true -> k_func k = Some f -> k_client k = Some s ->
  k_idx k = c_idx x ->
  synx_util_cb_dispatch c d =
    Ret tt (set_d_cbs (delete c (d_cbs d)) (deliver s c (c_idx x) (c_status x) f k cl d)).
Proof.
  intros Hl Hx Ht Hs Hi Hin Hc Ha Hr Hk Hv Hf Hkc Hki. unfold synx_util_cb_dispatch.
  rewrite (bind_ret _ _ _ _ _ (get_cb_run c x d Hx)), Hs.
  rewrite (bind_ret _ _ _ _ _ (get_client_run s cl d ltac:(rewrite Hl; apply not_elem_of_nil) Hin Hc Ha)).
  set (cl1 := set_cl_refcount (cl_refcount cl + 1) cl). set (d1 := with_client s cl1 d).
  pose proof (cb_dispatch_client_run s c x f k cl1 d1 Hl Hx Hi (lookup_insert_eq _ _ _) Hk Hv Hf Hkc Hki) as Hrun.
  assert (Hput : exists cl2, d_clients (deliver s c (c_idx x) (c_status x) f k cl1 d1) !! s = Some cl2 /\
    cl_refcount cl2 = cl_refcount cl + 1 /\
    with_client s (set_cl_refcount (cl_refcount cl2 - 1) cl2) (deliver s c (c_idx x) (c_status x) f k cl1 d1) =
    deliver s c (c_idx x) (c_status x) f k cl d).
  { destruct f; simpl deliver; (eexists; split; [apply lookup_insert_eq|]; split; [done|]);
      unfold d1; [|unfold with_client; simpl]; rewrite ?with_client_again; unfold with_client, cl1; destruct cl; simpl;
      by rewrite ?insert_insert_eq, ?Z.add_simpl_r. }
  destruct Hput as (cl2 & Hc2 & Hr2 & Hback).
  erewrite bind_ret; [|rewrite (bind_ret _ _ _ _ _ Hrun); apply (put_client_run s cl2); [|exact Hc2|lia]].
  2: { destruct f; simpl; rewrite Hl; apply not_elem_of_nil. }
  rewrite Hback. erewrite free_cb_run; [|destruct f; simpl; exact Hx|exact Ht]. by destruct f.
Qed.

(** ** The callbacks of an object *)

(** A callback node that is dispatched with status [st]. *)
Definition dispatched (st : Z) (x : synx_cb_data) : synx_cb_data :=
  let x := set_c_status st x in if c_timeout x =? SYNX_NO_TIMEOUT then x else set_c_timer false x.

Lemma upd_cb_run c x f d :
  d_cbs d !! c = Some x -> upd_cb c f d = Ret tt (set_d_cbs (<[c := f x]> (d_cbs d)) d).
Proof. intros H. unfold upd_cb. by rewrite (bind_ret _ _ _ _ _ (get_cb_run _ _ _ H)). Qed.

Lemma dispatch_cb_run st c x d :
  d_cbs d !! c = Some x ->
  dispatch_cb st c d =
    Ret tt (set_d_wq_cb (d_wq_cb d ++ [WCb c]) (unreg c (set_d_cbs (<[c := dispatched st x]> (d_cbs d)) d))).
Proof.
  intros Hx. unfold dispatch_cb. rewrite (bind_ret _ _ _ _ _ (upd_cb_run c x _ d Hx)).
  rewrite (bind_ret _ _ _ _ _ (get_cb_run c (set_c_status st x) (set_d_cbs _ d) (lookup_insert_eq _ _ _))). cbn beta.
  assert (H : when (negb (c_timeout (set_c_status st x) =? SYNX_NO_TIMEOUT)) (del_timer c)
      (set_d_cbs (<[c := set_c_status st x]> (d_cbs d)) d) =
    Ret tt (set_d_cbs (<[c := dispatched st x]> (d_cbs d)) d)).
  { unfold dispatched, del_timer. destruct (c_timeout (set_c_status st x) =? SYNX_NO_TIMEOUT); cbn [negb when]; [done|].
    rewrite (upd_cb_run c (set_c_status st x) _ (set_d_cbs _ d)) by apply lookup_insert_eq.
    unfold set_d_cbs. cbn [d_cbs]. by rewrite insert_insert_eq. }
  rewrite (bind_ret _ _ _ _ _ H). unfold list_del_cb.
  rewrite (bind_ret (get_cb c ;; modify _) _ _ tt (unreg c (set_d_cbs (<[c := dispatched st x]> (d_cbs d)) d))); [done|].
  by rewrite (bind_ret _ _ _ _ _ (get_cb_run c (dispatched st x) (set_d_cbs _ d) (lookup_insert_eq _ _ _))).
Qed.

(** The list of callbacks without those in [l]. *)
Definition unreg_all (l : list Z) (o : synx_coredata) : synx_coredata :=
  set_o_reg_cbs (List.filter (fun c => negb (bool_decide (c ∈ l))) (o_reg_cbs o)) o.

Lemma filter_none (l : list Z) : List.filter (fun c => negb (bool_decide (c ∈ []))) l = l.
Proof. induction l as [|c l IH]; [done|]. cbn [List.filter]. rewrite bool_decide_false by apply not_elem_of_nil. by rewrite IH. Qed.

Lemma filter_more c l (l' : list Z) :
  List.filter (fun c' => negb (bool_decide (c' ∈ l))) (List.filter (fun c' => negb (c' =? c)) l') =
  List.filter (fun c' => negb (bool_decide (c' ∈ c :: l))) l'.
Proof.
  induction l' as [|c' l' IH]; [done|]. cbn [List.filter]. destruct (Z.eqb_spec c' c) as [->|Hne]; cbn [negb].
  - rewrite (bool_decide_true (c ∈ c :: l)) by by left. exact IH.
  - cbn [List.filter]. rewrite IH. erewrite bool_decide_ext; [reflexivity|]. rewrite elem_of_cons. naive_solver.
Qed.

Lemma unreg_all_nil o : unreg_all [] o = o.
Proof. unfold unreg_all. rewrite filter_none. by destruct o. Qed.

Lemma unreg_all_cons c l o :
  unreg_all l (set_o_reg_cbs (List.filter (fun c' => negb (c' =? c)) (o_reg_cbs o)) o) = unreg_all (c :: l) o.
Proof. unfold unreg_all. rewrite <- filter_more. by destruct o. Qed.

Lemma dispatch_all_run st l : forall d,
  NoDup l -> (forall c, c ∈ l -> is_Some (d_cbs d !! c)) ->
  exists cbs', for_each l (dispatch_cb st) d =
    Ret tt (set_d_wq_cb (d_wq_cb d ++ map WCb l) (set_d_objs (unreg_all l <$> d_objs d) (set_d_cbs cbs' d))) /\
    forall c, cbs' !! c = (if bool_decide (c ∈ l) then dispatched st <$> d_cbs d !! c else d_cbs d !! c).
Proof.
  induction l as [|c l IH]; intros d HN Hl; cbn [for_each].
  { exists (d_cbs d). split; [|intros c; by rewrite bool_decide_false by apply not_elem_of_nil].
    unfold mret, run_ret. f_equal. rewrite app_nil_r.
    assert (Eq : unreg_all [] <$> d_objs d = d_objs d).
    { apply map_eq. intros p. rewrite lookup_fmap. destruct (d_objs d !! p); [simpl; by rewrite unreg_all_nil|done]. }
    rewrite Eq. by destruct d. }
  apply NoDup_cons in HN as [Hn HN]. destruct (Hl c) as [x Hx]; [by left|].
  rewrite (bind_ret _ _ _ _ _ (dispatch_cb_run st c x d Hx)). set (d1 := set_d_wq_cb _ _).
  destruct (IH d1 HN) as (cbs' & -> & Hcbs).
  { intros c' Hc'. unfold d1. simpl. rewrite lookup_insert_is_Some. destruct (decide (c = c')); [by left|right].
    split; [done|]. apply Hl. by right. }
  exists cbs'. split.
  - change (Ret tt (set_d_wq_cb ((d_wq_cb d ++ [WCb c]) ++ map WCb l) (set_d_objs (unreg_all l <$>
      ((fun o => set_o_reg_cbs (List.filter (fun c' => negb (c' =? c)) (o_reg_cbs o)) o) <$> d_objs d)) (set_d_cbs cbs' d))) =
      Ret tt (set_d_wq_cb (d_wq_cb d ++ map WCb (c :: l)) (set_d_objs (unreg_all (c :: l) <$> d_objs d) (set_d_cbs cbs' d)))).
    rewrite <- app_assoc, <- map_fmap_compose.
    by rewrite (map_fmap_ext _ (unreg_all (c :: l)) (d_objs d) (fun p o _ => unreg_all_cons c l o)).
  - intros c'. rewrite Hcbs. unfold d1. simpl. destruct (decide (c' = c)) as [->|Hne].
    + rewrite bool_decide_false by done. rewrite (bool_decide_true (c ∈ c :: l)) by by left.
      by rewrite lookup_insert_eq, Hx.
    + rewrite lookup_insert_ne by congruence. erewrite bool_decide_ext; [reflexivity|]. rewrite elem_of_cons. naive_solver.
Qed.

End equations.

Section theorems.
Context `{F : DmaFence} `{E : SynxEnv} `{C : SynxClientEnv} `{Laws : !DmaFenceLaws}.
Implicit Types d : dev.

Lemma filter_self (l : list Z) : List.filter (fun c => negb (bool_decide (c ∈ l))) l = [].
Proof.
  assert (H : forall l', (forall c, c ∈ l' -> c ∈ l) -> List.filter (fun c => negb (bool_decide (c ∈ l))) l' = []).
  { induction l' as [|c l' IH]; [done|]. intros Hl. cbn [List.filter]. rewrite bool_decide_true by (apply Hl; by left).
    apply IH. intros c' Hc'. apply Hl. by right. }
  by apply H.
Qed.

(** C26. When an object is signalled, each callback that is registered with it
    is queued once, in the order of the list, with the status of the signal and
    no pending timer; the list is then empty, and no other callback changes. *)
Theorem waiters_dispatched d p o st b id :
  reachable d -> d_objs d !! p = Some o ->
  exists d', synx_native_signal_core p st b id d = Ret 0 d' /\
    d_wq_cb d' = d_wq_cb d ++ map WCb (o_reg_cbs o) /\ d_objs d' !! p = Some (set_o_reg_cbs [] o) /\
    (forall c x, c ∈ o_reg_cbs o -> d_cbs d !! c = Some x -> d_cbs d' !! c = Some (dispatched st x)) /\
    (forall c, c ∉ o_reg_cbs o -> d_cbs d' !! c = d_cbs d !! c) /\
    (forall q o', q <> p -> d_objs d !! q = Some o' -> d_objs d' !! q = Some o').
Proof.
  intros Hr Ho. pose proof (reachable_inv d Hr) as Hi. pose proof (in_cbs _ _ _ (proj1 Hi)) as Hcb.
  destruct (dispatch_all_run st (o_reg_cbs o) d) as (cbs' & Hrun & Hcbs).
  { by apply (cb_nodup _ _ _ _ _ Hcb p). }
  { intros c Hc. by apply (cb_reg _ _ _ _ _ Hcb p o). }
  set (d' := set_d_wq_cb _ _) in Hrun. exists d'.
  assert (Ho' : d_objs d' !! p = Some (set_o_reg_cbs [] o)).
  { unfold d'. simpl. rewrite lookup_fmap, Ho. simpl. unfold unreg_all. by rewrite filter_self. }
  assert (Hgo : forall q o, d_objs d !! q = Some o -> (get_obj q : run dev synx_coredata) d = Ret o d).
  { intros q o' Hq. unfold get_obj, gets, mbind, run_bind. by rewrite Hq. }
  split_and!; [|done|done| | |].
  - unfold synx_native_signal_core, synx_util_callback_dispatch.
    assert (Hb : (o ← get_obj p; for_each (o_reg_cbs o) (dispatch_cb st)) d = Ret tt d').
    { by rewrite (bind_ret _ _ _ _ _ (Hgo p o Ho)). }
    rewrite (bind_ret _ _ _ _ _ Hb).
    assert (Hg' : (get_obj p : run dev synx_coredata) d' = Ret (set_o_reg_cbs [] o) d').
    { unfold get_obj, gets, mbind, run_bind. by rewrite Ho'. }
    rewrite (bind_ret _ _ _ _ _ Hg'). cbn [o_num_bound set_o_reg_cbs].
    by rewrite (ob_bound _ _ _ _ _ (in_objs _ _ _ (proj1 Hi)) p o Ho).
  - intros c x Hc Hx. unfold d'. simpl. by rewrite Hcbs, bool_decide_true, Hx.
  - intros c Hc. unfold d'. simpl. by rewrite Hcbs, bool_decide_false.
  - intros q o' Hq Hq'. unfold d'. simpl. rewrite lookup_fmap, Hq'. simpl. f_equal.
    assert (Hd : forall c, c ∈ o_reg_cbs o' -> c ∉ o_reg_cbs o).
    { intros c H1 H2. apply Hq. by eapply (cb_one _ _ _ _ _ Hcb). }
    unfold unreg_all. assert (Ef : List.filter (fun c => negb (bool_decide (c ∈ o_reg_cbs o))) (o_reg_cbs o') = o_reg_cbs o').
    { induction (o_reg_cbs o') as [|c l IH]; [done|]. cbn [List.filter]. rewrite bool_decide_false by (apply Hd; by left).
      cbn [negb]. f_equal. apply IH. intros c' Hc'. apply Hd. by right. }
    rewrite Ef. by destruct o'.
Qed.

(** C30. A queued callback whose session is active is delivered to it when its
    work item runs: a kernel client's function is called once, with the handle
    and the data it was registered with and the status of the signal, and its
    entry is free again; for a client of the device an event is queued behind
    those it has not read. The callback is freed. *)
Theorem callback_delivered d n c x cl k f :
  reachable d -> d_wq_cb d !! n = Some (WCb c) -> d_cbs d !! c = Some x ->
  c_session x ∈ d_sessions d -> d_clients d !! c_session x = Some cl -> cl_active cl = true ->
  0 < c_idx x < SYNX_MAX_OBJS -> cl_cb_table cl !! Z.to_nat (c_idx x) = Some k -> k_valid k = true ->
  k_func k = Some f -> k_client k = Some (c_session x) -> k_idx k = c_idx x ->
  work_cb n d = Ret tt (set_d_cbs (delete c (d_cbs d))
    (deliver (c_session x) c (c_idx x) (c_status x) f k cl (set_d_wq_cb (delete n (d_wq_cb d)) d))).
Proof.
  intros Hr Hw Hx Hs Hc Ha Hi Hk Hv Hf Hkc Hki. pose proof (reachable_inv d Hr) as Hinv.
  destruct (co_session _ _ (in_clients _ _ _ (proj1 Hinv)) _ Hs) as (cl' & Hc' & Href).
  rewrite Hc in Hc'. injection Hc' as <-.
  assert (Ht : c_timer x = false).
  { destruct (c_timer x) eqn:Et; [|done]. pose proof (in_cbs _ _ _ (proj1 Hinv)) as Hcb.
    assert (Hin : WCb c ∈ works [] (d_wq_cb d)) by by eapply list_elem_of_lookup_2.
    destruct (cb_timer _ _ _ _ _ Hcb c x Hx Et) as [_ [(p & o & Ho & Hreg)|Hq]]; [|by apply elem_of_nil in Hq].
    destruct (cb_queued _ _ _ _ _ Hcb c Hin) as [_ Hn]. by destruct (Hn p o Ho). }
  unfold work_cb. unfold gets, mbind at 1, run_bind at 1. rewrite Hw.
  set (d1 := set_d_wq_cb (delete n (d_wq_cb d)) d). rewrite (bind_ret (modify _) _ d tt d1) by done.
  apply (cb_dispatch_run c x (c_session x) f k cl d1); done || by apply (in_held _ _ _ (proj1 Hinv)).
Qed.

(** A client of the device reads its events in the order in which they were
    queued: the first one, with the handle, the status and the data of its
    callback, leaves the queue and its entry is free again; no other event and no
    other entry changes. If user memory cannot be written the event is lost. *)
Theorem read_first_event d s cl i q k (ok : bool) :
  reachable d -> s ∈ d_sessions d -> d_clients d !! s = Some cl -> cl_active cl = true ->
  cl_event_q cl = i :: q -> cl_cb_table cl !! Z.to_nat i = Some k -> k_idx k = i -> 0 < i ->
  synx_read s userpayload_size ok d =
    Ret (if ok then userpayload_size else - EFAULT, if ok then Some (k_h_synx k, k_status k, k_data k) else None)
      (with_client s (cleared i (set_cl_event_q q cl)) d).
Proof.
  intros Hr Hs Hc Ha Hq Hk Hki Hi. pose proof (reachable_inv d Hr) as Hinv.
  destruct (co_session _ _ (in_clients _ _ _ (proj1 Hinv)) _ Hs) as (cl' & Hc' & Href).
  rewrite Hc in Hc'. injection Hc' as <-.
  eapply read_event_run; try done; [by apply (in_held _ _ _ (proj1 Hinv))|]. split; [done|].
  eapply (co_event _ _ (in_clients _ _ _ (proj1 Hinv)) s cl); [done|]. rewrite Hq. by left.
Qed.

End theorems.

(** ** Concrete runs *)

Lemma device_waiters : exists o, d_objs (device_run 5) !! 4097 = Some o /\ o_reg_cbs o = [4105; 4104].
Proof. vm_compute. eexists. split; reflexivity. Qed.

Lemma waiters_dispatched_witness : exists d',
  synx_native_signal_core 4097 SYNX_STATE_SIGNALED_SUCCESS false 0 (device_run 5) = Ret 0 d' /\
  d_wq_cb d' = d_wq_cb (device_run 5) ++ [WCb 4105; WCb 4104].
Proof.
  destruct device_waiters as (o & Ho & Hl).
  destruct (waiters_dispatched (device_run 5) 4097 o SYNX_STATE_SIGNALED_SUCCESS false 0 (reachable_after (take 5 device_steps)) Ho)
    as (d' & H1 & H2 & _).
  exists d'. split; [exact H1|]. rewrite Hl in H2. exact H2.
Defined.

Lemma device_queued : exists x cl k,
  d_wq_cb (device_run 6) !! 0%nat = Some (WCb 4105) /\ d_cbs (device_run 6) !! 4105 = Some x /\
  c_session x = 4096 /\ c_idx x = 2 /\ c_status x = SYNX_STATE_SIGNALED_SUCCESS /\ d_sessions (device_run 6) = [4096] /\
  d_clients (device_run 6) !! 4096 = Some cl /\ cl_active cl = true /\ cl_event_q cl = [] /\
  cl_cb_table cl !! 2%nat = Some k /\ k_valid k = true /\ k_func k = Some synx_util_default_user_callback_ptr /\
  k_client k = Some 4096 /\ k_idx k = 2.
Proof. vm_compute. do 3 eexists. split_and!; reflexivity. Qed.

Lemma callback_delivered_witness : exists d', work_cb 0 (device_run 6) = Ret tt d' /\
  exists cl, d_clients d' !! 4096 = Some cl /\ cl_event_q cl = [2].
Proof.
  destruct device_queued as (x & cl & k & Hw & Hx & Hs & Hi & Hst & Hse & Hc & Ha & Hq & Hk & Hv & Hf & Hkc & Hki).
  eexists. split.
  - apply (callback_delivered (device_run 6) 0 4105 x cl k synx_util_default_user_callback_ptr
      (reachable_after (take 6 device_steps)) Hw Hx).
    + rewrite Hs, Hse. by left.
    + rewrite Hs. exact Hc.
    + exact Ha.
    + rewrite Hi. split; reflexivity.
    + rewrite Hi. exact Hk.
    + exact Hv.
    + exact Hf.
    + rewrite Hs. exact Hkc.
    + rewrite Hi. exact Hki.
  - rewrite Hs, Hi. eexists. split; [apply lookup_insert_eq|]. cbn. rewrite Hq. reflexivity.
Defined.

Lemma device_events : exists cl k,
  d_sessions (device_run 8) = [4096] /\ d_clients (device_run 8) !! 4096 = Some cl /\ cl_active cl = true /\
  cl_event_q cl = [2; 1] /\ cl_cb_table cl !! 2%nat = Some k /\ k_idx k = 2 /\
  (k_h_synx k, k_status k, k_data k) = (1, SYNX_STATE_SIGNALED_SUCCESS, 72).
Proof. vm_compute. do 2 eexists. split_and!; reflexivity. Qed.

Lemma read_first_event_witness : exists d',
  synx_read 4096 userpayload_size true (device_run 8) =
    Ret (userpayload_size, Some (1, SYNX_STATE_SIGNALED_SUCCESS, 72)) d'.
Proof.
  destruct device_events as (cl & k & Hse & Hc & Ha & Hq & Hk & Hki & Hev). eexists. rewrite <- Hev.
  apply (read_first_event (device_run 8) 4096 cl 2 [1] k true (reachable_after (take 8 device_steps))).
  - rewrite Hse. by left.
  - exact Hc.
  - exact Ha.
  - exact Hq.
  - exact Hk.
  - exact Hki.
  - reflexivity.
Defined.
