(* ===== verification/SynxSettle.v ===== *)
(** * The synx client framework: a signal settles its fence

    The run of [synx_signal] on an active local object. *)

From S2P Require Import Prelude Bitmap SynxGlobal SynxSignal SynxDev SynxUtil SynxClient SynxInv.
From S2P Require Import SynxRefs SynxOwn SynxMem SynxKeeps SynxHandles SynxObjects SynxCreate.
From S2P Require Import SynxSignalling SynxSafe SynxDemo SynxCalls.

Section settle.
Context `{F : DmaFence} `{E : SynxEnv} `{C : SynxClientEnv} `{Laws : !DmaFenceLaws} {B : Prop}.
Implicit Types d : dev.
Abbreviation keeps := (keeps (B := B)).

(** An object whose fence the framework has yet to signal. *)
Record unsignalled (fs : fences) (o : synx_coredata) : Prop := mk_unsignalled {
  un_own : synx_util_is_merged_object o = false;
  un_fence : o_fence o <> 0;
  un_active : dma_fence_get_status fs (o_fence o) = 0;
  un_cb : is_Some (o_signal_cb o)
}.

Lemma unsignalled_active fs o : unsignalled fs o -> obj_active fs o /\ obj_st fs o = SYNX_STATE_ACTIVE.
Proof.
  intros [Hm Hz Ha _]. unfold obj_active, obj_st. rewrite Hm. split; [done|]. unfold fence_st.
  rewrite (proj2 (Z.eqb_neq _ _) Hz). by apply state_of_status_active.
Qed.

(** The status that fence [f] of [fs] reports, once [st] was signalled: what a
    fence reports that is signalled as it is, or the error. *)
Definition reported (fs : fences) (f st : Z) (status : Z) : Prop :=
  status <> 0 /\ status = if st =? SYNX_STATE_SIGNALED_SUCCESS then report fs f else - Z.min st 4095.

Lemma keeps_native_settles L X d p o st :
  leafless L -> inv L X d -> anchored p X d -> RStale p ∉ X -> d_objs d !! p = Some o ->
  unsignalled (d_fences d) o -> SYNX_STATE_ACTIVE < st ->
  keeps L (synx_native_signal_fence p st d) d (fun _ => X)
    (fun rc d' => rc = 0 /\ reported (d_fences d) (o_fence o) st (dma_fence_get_status (d_fences d') (o_fence o))).
Proof.
  intros HL Hi Ha Hst Ho Hun Hlt. destruct (unsignalled_active _ _ Hun) as [Hact Hs]. pose proof Hun as [Hm Hz Hn [s Hcb]].
  unfold synx_native_signal_fence. eapply keeps_get_obj; [exact Ho|].
  rewrite (proj2 (Z.eqb_neq _ _) Hz), (proj2 (Z.leb_gt _ _)), Hm by lia.
  eapply keeps_read; [by apply (object_status_run p o false); [|intros _; eapply leafless_no_fence]|].
  rewrite Hs, Hcb. cbn [Z.eqb negb]. change (negb (SYNX_STATE_ACTIVE =? SYNX_STATE_ACTIVE)) with false. cbn iota.
  destruct (inv_remove_signal _ _ _ _ _ _ Hi Ho Hcb Hact Hst) as (H1 & [x Hx] & Hxt & Hi1).
  eapply keeps_get_sig; [exact Hx|].
  eapply keeps_run; [by apply fence_call_run; eapply leafless_fence|exact Hxt|]. rewrite H1. cbn [negb].
  destruct (fence_remove_ok (o_fence o) s (d_fences d)) as (_ & R2 & R3 & _).
  eapply keeps_drop_signal; [exact Hi1|exact Ho|exact Ha|]. intros d1 o1 Hi2 E1 E2 E3 Ho1 F1 F2. simpl in E2.
  assert (Hm1 : synx_util_is_merged_object o1 = false) by (unfold synx_util_is_merged_object in *; by rewrite F2).
  assert (Hs1 : obj_st (d_fences d1) o1 = SYNX_STATE_ACTIVE).
  { unfold obj_st, fence_st in *. rewrite Hm1, F1, E2, R2. by rewrite Hm in Hs. }
  eapply keeps_leaf; [done|leaf|exact Hi2|]. intros Hi3.
  eapply keeps_read; [by apply (object_status_run p o1 true)|]. cbn [d_fences set_d_held]. rewrite Hs1.
  change (negb (SYNX_STATE_ACTIVE =? SYNX_STATE_ACTIVE)) with false. cbn iota. eapply keeps_upd_obj; [exact Ho1|].
  eapply (inv_obj_frame _ _ _ p o1 (set_o_status st o1)) in Hi3; [|exact Ho1|by split; auto|done].
  assert (Hf : o_fence o < d_next d1) by (rewrite <- F1; by eapply (ob_fence _ _ _ _ _ (in_objs _ _ _ (proj1 Hi2)))).
  match type of Hi3 with inv _ _ ?s => set (d2 := s) in * end.
  assert (Hn2 : dma_fence_get_status (d_fences d2) (o_fence o) = 0) by (unfold d2; simpl; by rewrite E2, R2).
  assert (Ha2 : to_dma_fence_array (d_fences d2) (o_fence o) = None).
  { unfold d2. simpl. rewrite E2, R3. by apply (ob_plain _ _ _ _ _ (in_objs _ _ _ (proj1 Hi)) p). }
  set (st' := if st >=? SYNX_DMA_FENCE_STATE_MAX then SYNX_DMA_FENCE_STATE_MAX - 1 else st).
  assert (Hst' : st' = Z.min st 4095) by (unfold st'; change SYNX_DMA_FENCE_STATE_MAX with 4096; destruct (Z.geb_spec st 4096); lia).
  change SYNX_STATE_ACTIVE with 1 in Hlt. change SYNX_STATE_SIGNALED_SUCCESS with 2 in *.
  eapply (keeps_bind _ _ _ _ (fun _ => X) _ (fun _ d' => fenced d2 d' /\ d_fences d' =
    if st' =? 2 then d_fences d2 else dma_fence_set_error (o_fence o) (- st') (d_fences d2))).
  { change SYNX_STATE_SIGNALED_SUCCESS with 2. destruct (st' =? 2) eqn:E4; cbn [negb when].
    - apply keeps_ret; [done|split; [apply fenced_refl|done]].
    - assert (Hss : call_step (o_fence o) (d_fences d2) [] (dma_fence_set_error (o_fence o) (- st') (d_fences d2)))
        by by apply fence_set_error_step.
      split_and!; [exact (inv_call _ _ _ _ _ _ Hi3 Hss Hf)|by eapply ext_call|by eapply fenced_call|done]. }
  intros [] d3 Hi4 _ [G1 G2]. unfold fence_signal_locked, fence_call.
  assert (Ha3 : to_dma_fence_array (d_fences d3) (o_fence o) = None) by by rewrite (fd_array _ _ G1).
  pose proof (fence_signal_step (o_fence o) (d_fences d3) Ha3) as Hc.
  assert (Hrep : report (d_fences d2) (o_fence o) = report (d_fences d) (o_fence o)).
  { unfold d2. cbn [d_fences set_d_objs set_d_held]. rewrite E2. apply fence_remove_report; [|done].
    by apply (ob_plain _ _ _ _ _ (in_objs _ _ _ (proj1 Hi)) p). }
  assert (Hdone : (dma_fence_signal (o_fence o) (d_fences d3)).1.1 = 0 /\
    reported (d_fences d) (o_fence o) st (dma_fence_get_status (dma_fence_signal (o_fence o) (d_fences d3)).2 (o_fence o))).
  { rewrite G2, Hst'. unfold reported. change SYNX_STATE_SIGNALED_SUCCESS with 2. destruct (Z.eqb_spec st 2) as [->|Hne].
    - rewrite <- Hrep. destruct (fence_signal_done (o_fence o) (d_fences d2)) as [? ?]; done.
    - rewrite (proj2 (Z.eqb_neq (Z.min st 4095) 2)) by lia.
      destruct (fence_signal_error (o_fence o) (- Z.min st 4095) (d_fences d2)) as [-> ->]; [done|done|lia|].
      split_and!; [done|lia|done]. }
  destruct (dma_fence_signal (o_fence o) (d_fences d3)) as [[rc fired] fs'] eqn:Ep. cbn [fst snd] in Hc, Hdone.
  assert (Hf3 : o_fence o < d_next d3) by by rewrite (fd_next _ _ G1).
  eapply keeps_run; [by rewrite Ep|by eapply ext_call|]. cbn beta iota.
  eapply keeps_bind; [apply keeps_run_callbacks; by eapply inv_call|]. intros [] d' Hi' _ [_ Hf']. simpl in Hf'.
  apply keeps_ret; [done|]. cbn [d_fences set_d_held]. by rewrite Hf'.
Qed.

(** The first handle with the key and the property. *)
Lemma find_handle_some key q l d :
  (forall h, h ∈ l -> is_Some (d_hdls d !! h)) ->
  (exists h x, h ∈ l /\ d_hdls d !! h = Some x /\ h_key x = key /\ q x = true) ->
  exists h x, find_handle key q l d = Ret (Some h) d /\ h ∈ l /\ d_hdls d !! h = Some x /\ h_key x = key /\ q x = true.
Proof.
  intros Hl. induction l as [|h l IH]; intros (h' & x' & Hin & Hx' & Hk & Hq); [by apply elem_of_nil in Hin|].
  cbn [find_handle]. destruct (Hl h) as [x Hx]; [by left|].
  unfold get_hdl, gets, mbind, run_bind. rewrite Hx. cbn [deref mret run_ret]. unfold run_ret.
  destruct ((h_key x =? key) && q x) eqn:Eq.
  - apply andb_true_iff in Eq as [E1 E2]. zbool. exists h, x. split_and!; try done. by left.
  - destruct IH as (h1 & x1 & Hr & Hin1 & Hx1 & Hk1 & Hq1).
    + intros h1 ?. apply Hl. by right.
    + apply elem_of_cons in Hin as [->|Hin]; [|by exists h', x'].
      rewrite Hx in Hx'. injection Hx' as <-. rewrite Hk, Z.eqb_refl, Hq in Eq. done.
    + exists h1, x1. split_and!; try done. by right.
Qed.

(** A key of the client [cl] that names object [p]. *)
Definition names (d : dev) (cl : synx_client) (key p : Z) : Prop :=
  (exists h x, h ∈ cl_handle_map cl /\ d_hdls d !! h = Some x /\ h_key x = key /\ h_rel_count x <> 0) /\
  forall h x, h ∈ cl_handle_map cl -> d_hdls d !! h = Some x -> h_key x = key -> h_obj x = p.

(** The body of [synx_signal] on an object that it holds. *)
Lemma keeps_body_settles s h key st d p o :
  inv [] [RHdl h; RCli s] d -> busy [RHdl h; RCli s] -> mapped p d -> d_objs d !! p = Some o ->
  unsignalled (d_fences d) o -> SYNX_STATE_ACTIVE < st ->
  synx_util_is_global_handle key = false -> synx_util_is_global_object o = false ->
  keeps [] ((o ← get_obj p; if o_fence o =? 0 then mret (- SYNX_INVALID) else signal_locked p key st) d) d (fun _ => [RHdl h; RCli s])
    (fun rc d' => rc = 0 /\ reported (d_fences d) (o_fence o) st (dma_fence_get_status (d_fences d') (o_fence o))).
Proof.
  intros Hi2 Hb2 Hm2 Ho Hun Hlt Hkg Hog.
  eapply keeps_get_obj; [exact Ho|]. pose proof Hun as [Hm Hz _ _]. rewrite (proj2 (Z.eqb_neq _ _) Hz).
  unfold signal_locked. eapply keeps_lock; [exact Hi2|by rewrite elem_of_nil|]. intros Hi3.
  eapply keeps_get_obj; [exact Ho|]. rewrite Hkg, Hog. cbn [orb]. eapply keeps_read; [done|].
  change (negb (SYNX_SUCCESS =? SYNX_SUCCESS)) with false. cbn iota.
  match type of Hi3 with inv _ _ ?s => set (d3 := s) in * end.
  eapply (keeps_bind _ _ _ _ (fun _ => [RHdl h; RCli s]) _
    (fun _ d' => d_fences d' = d_fences d3 /\ exists r, d_objs d' !! p = Some (set_o_refcount r o))).
  { cond; [|apply keeps_ret; [done|split; [done|]; exists (o_refcount o); destruct o; done]].
    eapply keeps_bind; [apply (keeps_offload_obj [obj_lock p] [RHdl h; RCli s] d3 p o); [exact Hi3|exact Ho]|].
    intros rc d4 Hi4 _ H4. by apply keeps_ret. }
  intros [] d4 Hi4 Hx4 [E4 [r Ho4]].
  eapply keeps_mono; [apply (keeps_native_settles [obj_lock p] [RHdl h; RCli s] d4 p (set_o_refcount r o) st)|]; try done.
  - leaf.
  - apply busy_anchored; [done|]. by eapply mapped_ext; [|exact Hx4].
  - apply Hb2.
  - rewrite E4. by destruct Hun.
  - rewrite E4. by intros rc d5.
Qed.

(** [synx_util_acquire_handle] on a key of the client. *)
Lemma acquire_handle_run s key d cl h x :
  (forall l : synx_lock, l ∉ d_held d) -> d_clients d !! s = Some cl -> d_hdls d !! h = Some x ->
  find_handle key (fun y => negb (h_rel_count y =? 0)) (cl_handle_map cl) d = Ret (Some h) d ->
  synx_util_acquire_handle s key d = Ret (Some h) (set_d_hdls (<[h := set_h_refcount (h_refcount x + 1) x]> (d_hdls d)) d).
Proof.
  intros Hl Hc Hx Hfind. unfold synx_util_acquire_handle. apply with_lock_run; [exact (Hl _)|done|].
  rewrite (bind_ret _ _ _ _ _ (get_cli_run s cl (set_d_held _ d) Hc)).
  assert (Hfind' : forall L (l : list Z), find_handle key (fun y => negb (h_rel_count y =? 0)) l d = Ret (Some h) d ->
    find_handle key (fun y => negb (h_rel_count y =? 0)) l (set_d_held L d) = Ret (Some h) (set_d_held L d)).
  { intros L l. induction l as [|h' l IHl]; [done|]. cbn [find_handle]. unfold get_hdl, gets, mbind, run_bind. simpl.
    destruct (d_hdls d !! h') as [y|]; [|done]. cbn [deref mret run_ret]. unfold run_ret.
    destruct ((h_key y =? key) && _); [by intros [= ->]|auto]. }
  rewrite (bind_ret _ _ _ _ _ (Hfind' _ _ Hfind)). unfold upd_hdl, get_hdl, gets, mbind, run_bind. simpl. by rewrite Hx.
Qed.

Lemma keeps_signal_settles d s key st cl p o :
  inv [] [] d -> s ∈ d_sessions d -> d_clients d !! s = Some cl -> cl_active cl = true -> names d cl key p ->
  d_objs d !! p = Some o -> unsignalled (d_fences d) o -> client_status st = true ->
  synx_util_is_global_handle key = false -> synx_util_is_global_object o = false ->
  keeps [] (synx_signal s key st d) d (fun _ => [])
    (fun rc d' => rc = 0 /\ reported (d_fences d) (o_fence o) st (dma_fence_get_status (d_fences d') (o_fence o))).
Proof.
  intros Hi Hs Hc Hact [Hsome Hname] Ho Hun Hst Hkg Hog. pose proof (in_held _ _ _ (proj1 Hi)) as Hh.
  assert (Hlt : SYNX_STATE_ACTIVE < st).
  { unfold client_status in Hst. destruct (st <=? SYNX_STATE_ACTIVE) eqn:El; [done|]. zbool. lia. }
  assert (Hnil : forall l : synx_lock, l ∉ d_held d) by (intros l; rewrite Hh; apply not_elem_of_nil).
  unfold synx_signal, with_session. destruct (co_session _ _ (in_clients _ _ _ (proj1 Hi)) s Hs) as (cl' & Hc' & Hr).
  rewrite Hc in Hc'. injection Hc' as <-.
  eapply keeps_run; [by apply (get_client_run s cl d (Hnil _) Hs Hc Hact)|apply ext_upd_cli|].
  pose proof (inv_cli_get [] [] d s cl Hi Hc Hr) as Hi1. fold (with_client s (set_cl_refcount (cl_refcount cl + 1) cl) d) in Hi1.
  set (cl1 := set_cl_refcount (cl_refcount cl + 1) cl) in *. set (d1 := with_client s cl1 d) in *.
  rewrite Hst. cbn [negb]. unfold with_object.
  destruct (find_handle_some key (fun x => negb (h_rel_count x =? 0)) (cl_handle_map cl1) d1) as (h & x & Hfind & Hin & Hx & Hk & _).
  { intros h Hin. destruct (ho_map _ _ _ (in_handles _ _ _ (proj1 Hi)) s cl h Hc Hin) as (x & Hx & _). by exists x. }
  { destruct Hsome as (h & x & H1 & H2 & H3 & H4). exists h, x. split_and!; try done. by rewrite (proj2 (Z.eqb_neq _ _) H4). }
  destruct (ho_map _ _ _ (in_handles _ _ _ (proj1 Hi)) s cl h Hc Hin) as (x' & Hx' & Hhr & _).
  assert (x' = x) as -> by (simpl in Hx; congruence). pose proof (Hname h x Hin Hx Hk) as Hobj.
  pose proof (inv_hdl_get [] [RCli s] d1 h x Hi1 Hx Hhr) as Hi2.
  assert (Hb2 : busy [RHdl h; RCli s]) by (apply busy_cons; [apply busy_cons; [apply busy_nil|done]|done]).
  match type of Hi2 with inv _ _ ?s => set (d2 := s) in * end.
  apply keeps_assoc. eapply (keeps_run _ _ (Some h) d2).
  { apply (acquire_handle_run s key d1 cl1 h x); [exact Hnil|apply lookup_insert_eq|done|exact Hfind]. }
  { by eapply ext_upd_hdl. }
  apply keeps_assoc. eapply (keeps_run _ _ (Some p) d2).
  { unfold synx_util_obtain_object, get_hdl, gets, mbind, run_bind. simpl. rewrite lookup_insert_eq. simpl. by rewrite Hobj. }
  { apply ext_refl. }
  assert (Hm2 : mapped p d2).
  { destruct (ho_obj _ _ _ (in_handles _ _ _ (proj1 Hi)) h x Hx') as (m & Hme & Hmo). exists (h_ent x), m. split; [done|congruence]. }
  apply keeps_assoc. eapply keeps_bind; [by apply (keeps_body_settles s h key st d2 p o)|].
  intros rc d5 Hi5 _ [-> Hrep]. apply keeps_assoc.
  eapply keeps_bind; [apply (keeps_release_handle [] [RCli s]); [leaf|exact Hi5]|]. intros [] d6 Hi6 _ [Hq6 _].
  eapply keeps_read; [done|]. eapply keeps_bind; [apply (keeps_put_client [] []); [leaf|exact Hi6]|].
  intros [] d7 Hi7 _ [Hq7 _]. apply keeps_ret; [done|]. split; [done|]. by rewrite (q_fences _ _ Hq7), (q_fences _ _ Hq6).
Qed.

End settle.

(** ** The theorem *)

Section theorems.
Context `{F : DmaFence} `{E : SynxEnv} `{C : SynxClientEnv} `{Laws : !DmaFenceLaws}.
Implicit Types d : dev.

(** C25. The signal of an active local object returns, succeeds and settles the
    fence of the object. A success sets no error: the fence then reports what a
    fence reports that is signalled as it is, which is 1 when no error was set
    on it before; any other status is reported as minus that status, cut to the
    range that a fence can hold. *)
Theorem signal_settles d s key st cl p o :
  reachable d -> s ∈ d_sessions d -> d_clients d !! s = Some cl -> cl_active cl = true -> names d cl key p ->
  d_objs d !! p = Some o -> unsignalled (d_fences d) o -> client_status st = true ->
  synx_util_is_global_handle key = false -> synx_util_is_global_object o = false ->
  exists d', synx_signal s key st d = Ret 0 d' /\ reported (d_fences d) (o_fence o) st (dma_fence_get_status (d_fences d') (o_fence o)).
Proof.
  intros Hr Hs Hc Ha Hn Ho Hu Hst Hk Hg.
  pose proof (keeps_signal_settles (B := False) d s key st cl p o (reachable_inv d Hr) Hs Hc Ha Hn Ho Hu Hst Hk Hg) as H.
  unfold keeps, good in H. destruct (synx_signal s key st d) as [rc d'| |]; [|done..].
  destruct H as (_ & _ & -> & Hrep). by exists d'.
Qed.

End theorems.

(** ** A concrete run *)

Lemma demo_waiting : exists cl x o, d_sessions (after (take 3 demo_steps) dev_boot) = [4096] /\
  d_clients (after (take 3 demo_steps) dev_boot) !! 4096 = Some cl /\ cl_active cl = true /\
  cl_handle_map cl = [4103] /\ d_hdls (after (take 3 demo_steps) dev_boot) !! 4103 = Some x /\
  h_key x = 1 /\ h_rel_count x = 1 /\ h_obj x = 4097 /\
  d_objs (after (take 3 demo_steps) dev_boot) !! 4097 = Some o /\ synx_util_is_merged_object o = false /\
  synx_util_is_global_object o = false /\ o_fence o = 4099 /\ is_Some (o_signal_cb o) /\
  dma_fence_get_status (d_fences (after (take 3 demo_steps) dev_boot)) 4099 = 0.
Proof. vm_compute. do 3 eexists. split_and!; try reflexivity. eexists. reflexivity. Qed.

(** The fence of the object that the session waits for has no error. *)
Lemma demo_report : report (d_fences (after (take 3 demo_steps) dev_boot)) 4099 = 1.
Proof. vm_compute. reflexivity. Qed.

(** The signal of that object: a success and a cancellation. *)
Lemma signal_settles_witness :
  (exists d', synx_signal 4096 1 SYNX_STATE_SIGNALED_SUCCESS (after (take 3 demo_steps) dev_boot) = Ret 0 d' /\
    dma_fence_get_status (d_fences d') 4099 = 1) /\
  (exists d', synx_signal 4096 1 SYNX_STATE_SIGNALED_CANCEL (after (take 3 demo_steps) dev_boot) = Ret 0 d' /\
    dma_fence_get_status (d_fences d') 4099 = -4).
Proof.
  destruct demo_waiting as (cl & x & o & Hse & Hc & Ha & Hl & Hx & Hk & Hr & Hp & Ho & Hm & Hg & Hf & Hcb & Hst).
  assert (H : forall st, client_status st = true ->
    exists d', synx_signal 4096 1 st (after (take 3 demo_steps) dev_boot) = Ret 0 d' /\
      reported (d_fences (after (take 3 demo_steps) dev_boot)) (o_fence o) st (dma_fence_get_status (d_fences d') (o_fence o))).
  { intros st Hcs. apply (signal_settles (after (take 3 demo_steps) dev_boot) 4096 1 st cl 4097 o
      (reachable_after (take 3 demo_steps))).
    - rewrite Hse. by left.
    - exact Hc.
    - exact Ha.
    - split.
      + exists 4103, x. rewrite Hl. split_and!; [by left|exact Hx|exact Hk|]. rewrite Hr. discriminate.
      + intros h y Hin Hy _. rewrite Hl in Hin. apply list_elem_of_singleton in Hin as ->.
        rewrite Hx in Hy. injection Hy as <-. exact Hp.
    - exact Ho.
    - split; [exact Hm|rewrite Hf; discriminate|rewrite Hf; exact Hst|exact Hcb].
    - exact Hcs.
    - reflexivity.
    - exact Hg. }
  rewrite Hf in H. split.
  - destruct (H SYNX_STATE_SIGNALED_SUCCESS eq_refl) as (d' & H1 & _ & H2). exists d'. split; [exact H1|].
    rewrite H2. exact demo_report.
  - destruct (H SYNX_STATE_SIGNALED_CANCEL eq_refl) as (d' & H1 & _ & H2). exists d'. split; [exact H1|exact H2].
Defined.
