(* ===== verification/SynxFindings.v ===== *)
(** * The synx client framework: behaviour that the code does not mean

    Concrete runs of the framework, each on a reachable state of [SynxDemo], that
    show what a comment, a name or the other branches of a function deny. *)

From S2P Require Import Prelude Bitmap SynxGlobal SynxEntry SynxSignal SynxDev SynxUtil.
From S2P Require Import SynxClient SynxInv SynxWaiters SynxMerges SynxSafe SynxDemo.

(** What a call returns. *)
Definition result {A} (m : run dev A) (d : dev) : option A := fst <$> final m d.

(** The state after a call that returns, and the state before one that does not. *)
Definition then_ {A} (m : run dev A) (d : dev) : dev := default d (snd <$> final m d).

(** Two waits of one session for the same object, with timeouts. *)
Definition two_waits : list step_kind := [
  DoInitialize;
  DoCreate 1 4096 SYNX_CREATE_LOCAL_FENCE 0;
  DoAsyncWait 4096 (mk_cbparams 1 (kernel_callback 7) 71 1000 None);
  DoAsyncWait 4096 (mk_cbparams 1 (kernel_callback 7) 72 1000 None)
].

(** The callback that was registered with data [data]: whether its timer runs. *)
Definition timer_of (cp : Z) (d : dev) : option bool := c_timer <$> d_cbs d !! cp.

(** The cancellation of one wait stops the timer of the other one too, which
    then waits for ever although it asked for a timeout. *)
Lemma cancel_stops_other_timers :
  let d := after two_waits dev_boot in
  let d' := then_ (synx_cancel_async_wait 4096 (mk_cbparams 1 (kernel_callback 7) 72 0 None)) d in
  o_reg_cbs <$> d_objs d !! 4097 = Some [4105; 4104] /\ timer_of 4104 d = Some true /\
  result (synx_cancel_async_wait 4096 (mk_cbparams 1 (kernel_callback 7) 72 0 None)) d = Some 0 /\
  o_reg_cbs <$> d_objs d' !! 4097 = Some [4104] /\ timer_of 4104 d' = Some false.
Proof. vm_compute. split_and!; reflexivity. Qed.

(** A timer that expires keeps the references it took on the session and on the
    handle: neither struct is ever freed. *)
Lemma timer_leaks_references :
  let d := after (take 3 two_waits) dev_boot in
  let d' := after [DoTimer 4104; DoWorkCb 0] d in
  (cl_refcount <$> d_clients d !! 4096, h_refcount <$> d_hdls d !! 4103) = (Some 1, Some 1) /\
  (cl_refcount <$> d_clients d' !! 4096, h_refcount <$> d_hdls d' !! 4103) = (Some 2, Some 2) /\
  d_cbs d' !! 4104 = None.
Proof. vm_compute. split_and!; reflexivity. Qed.

(** A fence that is bound to nothing that the session knows: success. *)
Lemma bind_unknown_handle_succeeds :
  result (synx_bind 4096 77 5 SYNX_TYPE_CSL) (after (take 1 two_waits) dev_boot) = Some 0.
Proof. vm_compute. reflexivity. Qed.

(** Operations that were registered under a name cannot be removed under it. *)
Lemma deregister_refuses_name :
  let d := then_ (synx_register_ops true true SYNX_TYPE_CSL) dev_boot in
  d_bind_valid d = true /\ result (synx_deregister_ops true SYNX_TYPE_CSL) d = Some (- SYNX_INVALID).
Proof. vm_compute. split_and!; reflexivity. Qed.

(** The references of the map entries, handles and objects. *)
Definition counts (d : dev) : list (Z * Z) * list (Z * Z) * list (Z * Z) :=
  (map_to_list (m_refcount <$> d_ents d), map_to_list (h_refcount <$> d_hdls d), map_to_list (o_refcount <$> d_objs d)).

(** Every queued clean-up runs. *)
Definition clean_ups (d : dev) : dev := after (replicate (length (d_wq_cleanup d)) (DoWorkCleanup 0)) d.

Definition local_object : dev := after (take 2 two_waits) dev_boot.

(** A local handle that its session imports again without the flag for local
    handles: the reference on the map entry that was meant for a new handle stays,
    so that the object outlives both releases. *)
Lemma import_again_leaks_entry :
  let d := then_ (synx_import 1 4096 (inl (mk_iparams SYNX_IMPORT_SYNX_FENCE 1))) local_object in
  counts local_object = ([(4101, 1)], [(4103, 1)], [(4097, 2)]) /\
  counts d = ([(4101, 2)], [(4103, 2)], [(4097, 2)]) /\
  counts (clean_ups (after [DoRelease 4096 1; DoRelease 4096 1] d)) = ([(4101, 1)], [], [(4097, 2)]).
Proof. vm_compute. split_and!; reflexivity. Qed.

(** A local handle that is imported as a global one twice: the second import
    takes a reference on the object that nothing releases. *)
Lemma conversion_leaks_object :
  let import := synx_import 1 4096 (inl (mk_iparams (SYNX_IMPORT_SYNX_FENCE + SYNX_IMPORT_GLOBAL_FENCE) 1)) in
  let d := then_ import local_object in
  let d' := then_ import d in
  result import d = Some (0, [1048577]) /\
  (o_refcount <$> d_objs d !! 4097, o_map_count <$> d_objs d !! 4097) = (Some 3, Some 2) /\
  (o_refcount <$> d_objs d' !! 4097, o_map_count <$> d_objs d' !! 4097) = (Some 4, Some 2).
Proof. vm_compute. split_and!; reflexivity. Qed.

(** A global object that another core refers to: *)
Definition shared_object : dev :=
  let d := after [DoInitialize; DoCreate 1 4096 SYNX_CREATE_GLOBAL_FENCE 0] dev_boot in
  after [DoGlobal (synx_global_get_ref 1 (d_gm d)).2] d.

(** when the last handle of this core is released, the fence of the object goes
    with it, and its callback cancels the object for the other core too. *)
Lemma release_cancels_for_other_cores :
  let d := clean_ups (clean_ups (after [DoRelease 4096 1048577] shared_object)) in
  (synx_global_get_status 1 (d_gm shared_object)).1 = SYNX_STATE_ACTIVE /\ counts d = ([], [], []) /\
  (synx_global_get_status 1 (d_gm d)).1 = SYNX_STATE_ACTIVE /\
  (synx_global_get_status 1 (d_gm (after [DoWorkCb 0] d))).1 = SYNX_STATE_SIGNALED_CANCEL.
Proof. vm_compute. split_and!; reflexivity. Qed.

(** When the fence of an object has run its callback, the [signal_cb] is freed and
    the object still points to it. *)
Lemma signal_cb_dangles :
  let d := after (take 7 merge_steps) dev_boot in
  (o_signal_cb <$> d_objs d !! 4111, d_sigs d !! 4117) = (Some (Some 4117), None).
Proof. vm_compute. reflexivity. Qed.

(** A status of [-EPERM] of another driver's fence reads as not signalled. *)
Lemma eperm_reads_active : state_of_status (-1) = SYNX_STATE_ACTIVE.
Proof. reflexivity. Qed.

(** A saved key of another fence type: the code frees a pointer it never set. *)
Lemma save_data_other_type_faults d : synx_util_save_data 5 0 1 d = Fault.
Proof. reflexivity. Qed.
