(* ===== verification/RmnetSkb.v ===== *)
(** * RmNet: packets and the state of the driver

    The packets of the kernel as far as datarmnet/core uses them, the state of a
    port with its two aggregation states, and what the driver takes from the
    kernel. *)

From S2P Require Import Prelude Outcome.

(** ** Constants of the kernel's interface *)

Definition ETH_P_IP : Z := 2048.
Definition ETH_P_IPV6 : Z := 34525.
Definition ETH_P_MAP : Z := 249.
Definition IPPROTO_ICMP : Z := 1.
Definition IPPROTO_TCP : Z := 6.
Definition IPPROTO_UDP : Z := 17.
Definition NEXTHDR_FRAGMENT : Z := 44.
Definition IPPROTO_ICMPV6 : Z := 58.
Definition IP_MF : Z := 8192.
Definition IP_OFFSET : Z := 8191.
Definition SKB_GSO_TCPV4 : Z := BIT 0.
Definition SKB_GSO_TCP_FIXEDID : Z := BIT 3.
Definition SKB_GSO_TCPV6 : Z := BIT 4.
Definition SKB_GSO_UDP_L4 : Z := BIT 17.
Definition ENOMEM : Z := 12.
Definition EINVAL : Z := 22.
Definition EPROTONOSUPPORT : Z := 93.
Definition EOPNOTSUPP : Z := 95.
Definition EINPROGRESS : Z := 115.

(** [linux/if_link.h] *)
Definition RMNET_FLAGS_INGRESS_DEAGGREGATION : Z := BIT 0.
Definition RMNET_FLAGS_INGRESS_MAP_COMMANDS : Z := BIT 1.
Definition RMNET_FLAGS_INGRESS_MAP_CKSUMV4 : Z := BIT 2.
Definition RMNET_FLAGS_EGRESS_MAP_CKSUMV4 : Z := BIT 3.

(** ** Constants of the driver *)

Definition RMNET_FLAGS_INGRESS_COALESCE : Z := BIT 4.
Definition RMNET_PRIV_FLAGS_INGRESS_MAP_CKSUMV5 : Z := BIT 5.
Definition RMNET_PRIV_FLAGS_EGRESS_MAP_CKSUMV5 : Z := BIT 6.
Definition RMNET_EGRESS_FORMAT_PRIORITY : Z := BIT 28.
Definition RMNET_INGRESS_FORMAT_DL_MARKER_V2 : Z := BIT 29.
Definition RMNET_INGRESS_FORMAT_DL_MARKER_V1 : Z := BIT 30.
Definition RMNET_INGRESS_FORMAT_DL_MARKER : Z :=
  Z.lor RMNET_INGRESS_FORMAT_DL_MARKER_V1 RMNET_INGRESS_FORMAT_DL_MARKER_V2.
Definition RMNET_EGRESS_FORMAT_AGGREGATION : Z := BIT 31.
Definition RMNET_PAGE_RECYCLE : Z := BIT 0.
Definition RMNET_MAX_LOGICAL_EP : Z := 255.
Definition RMNET_MAX_VEID : Z := 16.
Definition RMNET_PAGE_COUNT : Z := 384.
Definition RMNET_MAP_DEAGGR_SPACING : Z := 64.
Definition RMNET_MAP_DEAGGR_HEADROOM : Z := RMNET_MAP_DEAGGR_SPACING / 2.
Definition RMNET_APS_MAJOR : Z := 39789.
Definition RMNET_APS_LLB_MASK : Z := 512.
Definition rmnet_agg_time_limit : Z := 1000000.
Definition rmnet_agg_bypass_time : Z := 10000000.

Definition RMNET_LLM (prio : Z) : bool := prio =? 14286874.
Definition RMNET_APS_LLB (prio : Z) : bool :=
  (Z.shiftr prio 16 =? RMNET_APS_MAJOR) && truthy (Z.land prio RMNET_APS_LLB_MASK).

(** The priority of packets of the low-latency channel. *)
Definition LL_PRIORITY : Z := 55834.

(** The types of the headers that follow a MAP header. *)
Definition RMNET_MAP_HEADER_TYPE_COALESCING : Z := 1.
Definition RMNET_MAP_HEADER_TYPE_CSUM_OFFLOAD : Z := 2.
Definition RMNET_MAP_HEADER_TYPE_TSO : Z := 3.

(** Why the hardware closed a coalesced frame. *)
Definition RMNET_MAP_COAL_CLOSE_NON_COAL : Z := 0.
Definition RMNET_MAP_COAL_CLOSE_IP_MISS : Z := 1.
Definition RMNET_MAP_COAL_CLOSE_TRANS_MISS : Z := 2.
Definition RMNET_MAP_COAL_CLOSE_HW : Z := 3.
Definition RMNET_MAP_COAL_CLOSE_COAL : Z := 4.
Definition RMNET_MAP_COAL_CLOSE_HW_NL : Z := 0.
Definition RMNET_MAP_COAL_CLOSE_HW_PKT : Z := 1.
Definition RMNET_MAP_COAL_CLOSE_HW_BYTE : Z := 2.
Definition RMNET_MAP_COAL_CLOSE_HW_TIME : Z := 3.
Definition RMNET_MAP_COAL_CLOSE_HW_EVICT : Z := 4.
Definition RMNET_MAP_V5_MAX_NLOS : Z := 6.
Definition RMNET_MAP_V5_MAX_PACKETS : Z := 48.

(** The sizes of the packed headers. *)
Definition MAP_HDR : Z := 4.
Definition CSUM_V5_HDR : Z := 4.
Definition COAL_HDR : Z := 28.
Definition DL_CSUM_TRAILER : Z := 8.
Definition UL_CSUM_HDR : Z := 4.
Definition TSO_HDR : Z := 4.

(** The statistics of a device that the driver counts. *)
Inductive counter :=
| csum_ok | csum_valid_unset | csum_validation_failed | csum_err_invalid_ip_version
| csum_err_invalid_transport | csum_fragmented_pkt | csum_skipped | csum_sw | csum_hw
| coal_rx | coal_pkts | coal_hdr_nlo_err | coal_hdr_pkt_err | coal_csum_err | coal_reconstruct
| coal_ip_invalid | coal_trans_invalid
| close_non_coal | close_ip_miss | close_trans_miss | close_hw_nl | close_hw_pkt | close_hw_byte
| close_hw_time | close_hw_evict | close_coal
| coal_veid (veid : Z) | ul_prio | tso_pkts | tso_arriv_errs | aps_prio | tx_drops.

#[export] Instance counter_eq_dec : EqDecision counter.
Proof. solve_decision. Defined.

(** ** Packets *)

Inductive ip_summed := CHECKSUM_NONE | CHECKSUM_UNNECESSARY | CHECKSUM_PARTIAL.

(** [struct sk_buff], as far as the driver uses it *)
Record sk_buff := mk_skb {
  k_lin : list Z;           (* the linear data, from skb->data *)
  k_frags : list (list Z);  (* the page fragments *)
  k_headroom : Z;
  k_tailroom : Z;
  k_dev : Z;                (* skb->dev *)
  k_protocol : Z;           (* in host order *)
  k_priority : Z;
  k_summed : ip_summed;
  k_gso_size : Z;           (* skb_shinfo(skb) *)
  k_gso_segs : Z;
  k_gso_type : Z;
  k_csum_start : Z;         (* from the start of the data *)
  k_csum_offset : Z;
  k_transport : Z           (* the transport header, from the start of the data *)
}.

Definition set_k_lin (v : list Z) (k : sk_buff) : sk_buff :=
    mk_skb v (k_frags k) (k_headroom k) (k_tailroom k) (k_dev k) (k_protocol k) (k_priority k)
    (k_summed k) (k_gso_size k) (k_gso_segs k) (k_gso_type k) (k_csum_start k) (k_csum_offset k)
    (k_transport k).
Definition set_k_frags (v : list (list Z)) (k : sk_buff) : sk_buff :=
    mk_skb (k_lin k) v (k_headroom k) (k_tailroom k) (k_dev k) (k_protocol k) (k_priority k)
    (k_summed k) (k_gso_size k) (k_gso_segs k) (k_gso_type k) (k_csum_start k) (k_csum_offset k)
    (k_transport k).
Definition set_k_headroom (v : Z) (k : sk_buff) : sk_buff :=
    mk_skb (k_lin k) (k_frags k) v (k_tailroom k) (k_dev k) (k_protocol k) (k_priority k)
    (k_summed k) (k_gso_size k) (k_gso_segs k) (k_gso_type k) (k_csum_start k) (k_csum_offset k)
    (k_transport k).
Definition set_k_tailroom (v : Z) (k : sk_buff) : sk_buff :=
    mk_skb (k_lin k) (k_frags k) (k_headroom k) v (k_dev k) (k_protocol k) (k_priority k)
    (k_summed k) (k_gso_size k) (k_gso_segs k) (k_gso_type k) (k_csum_start k) (k_csum_offset k)
    (k_transport k).
Definition set_k_dev (v : Z) (k : sk_buff) : sk_buff :=
    mk_skb (k_lin k) (k_frags k) (k_headroom k) (k_tailroom k) v (k_protocol k) (k_priority k)
    (k_summed k) (k_gso_size k) (k_gso_segs k) (k_gso_type k) (k_csum_start k) (k_csum_offset k)
    (k_transport k).
Definition set_k_protocol (v : Z) (k : sk_buff) : sk_buff :=
    mk_skb (k_lin k) (k_frags k) (k_headroom k) (k_tailroom k) (k_dev k) v (k_priority k)
    (k_summed k) (k_gso_size k) (k_gso_segs k) (k_gso_type k) (k_csum_start k) (k_csum_offset k)
    (k_transport k).
Definition set_k_priority (v : Z) (k : sk_buff) : sk_buff :=
    mk_skb (k_lin k) (k_frags k) (k_headroom k) (k_tailroom k) (k_dev k) (k_protocol k) v
    (k_summed k) (k_gso_size k) (k_gso_segs k) (k_gso_type k) (k_csum_start k) (k_csum_offset k)
    (k_transport k).
Definition set_k_summed (v : ip_summed) (k : sk_buff) : sk_buff :=
    mk_skb (k_lin k) (k_frags k) (k_headroom k) (k_tailroom k) (k_dev k) (k_protocol k)
    (k_priority k) v (k_gso_size k) (k_gso_segs k) (k_gso_type k) (k_csum_start k)
    (k_csum_offset k) (k_transport k).
Definition set_k_gso_size (v : Z) (k : sk_buff) : sk_buff :=
    mk_skb (k_lin k) (k_frags k) (k_headroom k) (k_tailroom k) (k_dev k) (k_protocol k)
    (k_priority k) (k_summed k) v (k_gso_segs k) (k_gso_type k) (k_csum_start k) (k_csum_offset
    k) (k_transport k).
Definition set_k_gso_segs (v : Z) (k : sk_buff) : sk_buff :=
    mk_skb (k_lin k) (k_frags k) (k_headroom k) (k_tailroom k) (k_dev k) (k_protocol k)
    (k_priority k) (k_summed k) (k_gso_size k) v (k_gso_type k) (k_csum_start k) (k_csum_offset
    k) (k_transport k).
Definition set_k_gso_type (v : Z) (k : sk_buff) : sk_buff :=
    mk_skb (k_lin k) (k_frags k) (k_headroom k) (k_tailroom k) (k_dev k) (k_protocol k)
    (k_priority k) (k_summed k) (k_gso_size k) (k_gso_segs k) v (k_csum_start k) (k_csum_offset
    k) (k_transport k).
Definition set_k_csum_start (v : Z) (k : sk_buff) : sk_buff :=
    mk_skb (k_lin k) (k_frags k) (k_headroom k) (k_tailroom k) (k_dev k) (k_protocol k)
    (k_priority k) (k_summed k) (k_gso_size k) (k_gso_segs k) (k_gso_type k) v (k_csum_offset k)
    (k_transport k).
Definition set_k_csum_offset (v : Z) (k : sk_buff) : sk_buff :=
    mk_skb (k_lin k) (k_frags k) (k_headroom k) (k_tailroom k) (k_dev k) (k_protocol k)
    (k_priority k) (k_summed k) (k_gso_size k) (k_gso_segs k) (k_gso_type k) (k_csum_start k) v
    (k_transport k).
Definition set_k_transport (v : Z) (k : sk_buff) : sk_buff :=
    mk_skb (k_lin k) (k_frags k) (k_headroom k) (k_tailroom k) (k_dev k) (k_protocol k)
    (k_priority k) (k_summed k) (k_gso_size k) (k_gso_segs k) (k_gso_type k) (k_csum_start k)
    (k_csum_offset k) v.

Definition skb_data_len (k : sk_buff) : Z := zlen (concat (k_frags k)).
Definition skb_len (k : sk_buff) : Z := zlen (k_lin k) + skb_data_len k.
Definition skb_is_nonlinear (k : sk_buff) : bool := truthy (skb_data_len k).

(** All bytes of a packet. *)
Definition skb_bytes (k : sk_buff) : list Z := k_lin k ++ concat (k_frags k).

(** The bytes from [rmnet_map_data_ptr(skb)] on: of the first fragment, when all
    are in fragments. *)
Definition rmnet_map_data_ptr (k : sk_buff) : list Z :=
  if skb_is_nonlinear k && (skb_len k =? skb_data_len k) then default [] (head (k_frags k)) else k_lin k.

(** The fragments without their first [n] bytes. *)
Fixpoint drop_frags (n : nat) (l : list (list Z)) : list (list Z) :=
  match l with
  | [] => []
  | f :: l => if (n <? length f)%nat then drop n f :: l else drop_frags (n - length f) l
  end.

(** The fragments up to [n] bytes. *)
Fixpoint take_frags (n : nat) (l : list (list Z)) : list (list Z) :=
  match l with
  | [] => []
  | f :: l => if (n <=? length f)%nat then (match n with O => [] | _ => [take n f] end) else f :: take_frags (n - length f) l
  end.

(** ** The state *)

(** [struct rmnet_port_priv_stats], as far as the markers write it. *)
Record marker_stats := mk_marks {
  dl_hdr_last_qmap_vers : Z;
  dl_hdr_last_ep_id : Z;
  dl_hdr_last_trans_id : Z;
  dl_hdr_last_seq : Z;
  dl_hdr_last_bytes : Z;
  dl_hdr_last_pkts : Z;
  dl_hdr_last_flows : Z;
  dl_hdr_count : Z;
  dl_hdr_total_bytes : Z;
  dl_hdr_total_pkts : Z;
  dl_trl_last_seq : Z;
  dl_trl_count : Z;
  pb_marker_count : Z;
  pb_marker_seq : Z
}.

(** [struct rmnet_aggregation_state] *)
Record agg_state := mk_agg {
  a_size : Z;              (* params: agg_size, u16 *)
  a_max : Z;               (* params: agg_count *)
  a_features : Z;
  a_timeout : Z;           (* params: agg_time *)
  a_start : Z;             (* agg_time, in ns *)
  a_last : Z;              (* agg_last, in ns *)
  a_timer : bool;          (* hrtimer is armed *)
  a_work : bool;           (* agg_wq is queued *)
  a_lock : bool;           (* agg_lock *)
  a_skb : option sk_buff;
  a_progress : bool;       (* agg_state is -EINPROGRESS *)
  a_count : Z;
  a_order : Z;             (* agg_size_order *)
  a_list : list Z;         (* the pages of agg_list *)
  a_head : option nat;     (* the position of agg_head; the length of the list is its head *)
  a_reuse : Z;             (* stats *)
  a_alloc : Z
}.

Definition set_a_size (v : Z) (a : agg_state) : agg_state :=
    mk_agg v (a_max a) (a_features a) (a_timeout a) (a_start a) (a_last a) (a_timer a) (a_work
    a) (a_lock a) (a_skb a) (a_progress a) (a_count a) (a_order a) (a_list a) (a_head a)
    (a_reuse a) (a_alloc a).
Definition set_a_max (v : Z) (a : agg_state) : agg_state :=
    mk_agg (a_size a) v (a_features a) (a_timeout a) (a_start a) (a_last a) (a_timer a) (a_work
    a) (a_lock a) (a_skb a) (a_progress a) (a_count a) (a_order a) (a_list a) (a_head a)
    (a_reuse a) (a_alloc a).
Definition set_a_features (v : Z) (a : agg_state) : agg_state :=
    mk_agg (a_size a) (a_max a) v (a_timeout a) (a_start a) (a_last a) (a_timer a) (a_work a)
    (a_lock a) (a_skb a) (a_progress a) (a_count a) (a_order a) (a_list a) (a_head a) (a_reuse
    a) (a_alloc a).
Definition set_a_timeout (v : Z) (a : agg_state) : agg_state :=
    mk_agg (a_size a) (a_max a) (a_features a) v (a_start a) (a_last a) (a_timer a) (a_work a)
    (a_lock a) (a_skb a) (a_progress a) (a_count a) (a_order a) (a_list a) (a_head a) (a_reuse
    a) (a_alloc a).
Definition set_a_start (v : Z) (a : agg_state) : agg_state :=
    mk_agg (a_size a) (a_max a) (a_features a) (a_timeout a) v (a_last a) (a_timer a) (a_work a)
    (a_lock a) (a_skb a) (a_progress a) (a_count a) (a_order a) (a_list a) (a_head a) (a_reuse
    a) (a_alloc a).
Definition set_a_last (v : Z) (a : agg_state) : agg_state :=
    mk_agg (a_size a) (a_max a) (a_features a) (a_timeout a) (a_start a) v (a_timer a) (a_work
    a) (a_lock a) (a_skb a) (a_progress a) (a_count a) (a_order a) (a_list a) (a_head a)
    (a_reuse a) (a_alloc a).
Definition set_a_timer (v : bool) (a : agg_state) : agg_state :=
    mk_agg (a_size a) (a_max a) (a_features a) (a_timeout a) (a_start a) (a_last a) v (a_work a)
    (a_lock a) (a_skb a) (a_progress a) (a_count a) (a_order a) (a_list a) (a_head a) (a_reuse
    a) (a_alloc a).
Definition set_a_work (v : bool) (a : agg_state) : agg_state :=
    mk_agg (a_size a) (a_max a) (a_features a) (a_timeout a) (a_start a) (a_last a) (a_timer a)
    v (a_lock a) (a_skb a) (a_progress a) (a_count a) (a_order a) (a_list a) (a_head a) (a_reuse
    a) (a_alloc a).
Definition set_a_lock (v : bool) (a : agg_state) : agg_state :=
    mk_agg (a_size a) (a_max a) (a_features a) (a_timeout a) (a_start a) (a_last a) (a_timer a)
    (a_work a) v (a_skb a) (a_progress a) (a_count a) (a_order a) (a_list a) (a_head a) (a_reuse
    a) (a_alloc a).
Definition set_a_skb (v : option sk_buff) (a : agg_state) : agg_state :=
    mk_agg (a_size a) (a_max a) (a_features a) (a_timeout a) (a_start a) (a_last a) (a_timer a)
    (a_work a) (a_lock a) v (a_progress a) (a_count a) (a_order a) (a_list a) (a_head a)
    (a_reuse a) (a_alloc a).
Definition set_a_progress (v : bool) (a : agg_state) : agg_state :=
    mk_agg (a_size a) (a_max a) (a_features a) (a_timeout a) (a_start a) (a_last a) (a_timer a)
    (a_work a) (a_lock a) (a_skb a) v (a_count a) (a_order a) (a_list a) (a_head a) (a_reuse a)
    (a_alloc a).
Definition set_a_count (v : Z) (a : agg_state) : agg_state :=
    mk_agg (a_size a) (a_max a) (a_features a) (a_timeout a) (a_start a) (a_last a) (a_timer a)
    (a_work a) (a_lock a) (a_skb a) (a_progress a) v (a_order a) (a_list a) (a_head a) (a_reuse
    a) (a_alloc a).
Definition set_a_order (v : Z) (a : agg_state) : agg_state :=
    mk_agg (a_size a) (a_max a) (a_features a) (a_timeout a) (a_start a) (a_last a) (a_timer a)
    (a_work a) (a_lock a) (a_skb a) (a_progress a) (a_count a) v (a_list a) (a_head a) (a_reuse
    a) (a_alloc a).
Definition set_a_list (v : list Z) (a : agg_state) : agg_state :=
    mk_agg (a_size a) (a_max a) (a_features a) (a_timeout a) (a_start a) (a_last a) (a_timer a)
    (a_work a) (a_lock a) (a_skb a) (a_progress a) (a_count a) (a_order a) v (a_head a) (a_reuse
    a) (a_alloc a).
Definition set_a_head (v : option nat) (a : agg_state) : agg_state :=
    mk_agg (a_size a) (a_max a) (a_features a) (a_timeout a) (a_start a) (a_last a) (a_timer a)
    (a_work a) (a_lock a) (a_skb a) (a_progress a) (a_count a) (a_order a) (a_list a) v (a_reuse
    a) (a_alloc a).
Definition set_a_reuse (v : Z) (a : agg_state) : agg_state :=
    mk_agg (a_size a) (a_max a) (a_features a) (a_timeout a) (a_start a) (a_last a) (a_timer a)
    (a_work a) (a_lock a) (a_skb a) (a_progress a) (a_count a) (a_order a) (a_list a) (a_head a)
    v (a_alloc a).
Definition set_a_alloc (v : Z) (a : agg_state) : agg_state :=
    mk_agg (a_size a) (a_max a) (a_features a) (a_timeout a) (a_start a) (a_last a) (a_timer a)
    (a_work a) (a_lock a) (a_skb a) (a_progress a) (a_count a) (a_order a) (a_list a) (a_head a)
    (a_reuse a) v.

(** [struct rmnet_map_dl_ind], [struct rmnet_map_pb_ind]: an entry by its
    priority and its address. *)
Record marker_ind := mk_ind { ind_priority : Z; ind_addr : Z }.

(** What leaves the driver. [ll]: on the low-latency channel. *)
Inductive net_event :=
| Xmit (ll : bool) (skb : sk_buff)      (* send_agg_skb *)
| XmitCmd (ll : bool) (skb : sk_buff)   (* a command of rmnet_map_tx_qmap_cmd *)
| Deliver (skb : sk_buff)               (* rmnet_deliver_skb *)
| FlowControl (dev : Z) (enable : bool) (* rmnet_vnd_do_flow_control *)
| Ack (skb : sk_buff)                   (* ndo_start_xmit of a command *)
| DlHeader (handler : Z) (bytes : list Z)
| DlTrailer (handler : Z) (bytes : list Z)
| PbInd (handler : Z) (bytes : list Z)
| Fragments (skb : sk_buff)             (* rmnet_frag_ingress_handler *)
| Freed (skb : sk_buff).                (* kfree_skb, consume_skb *)

(** The driver on one real device *)
Record net := mk_net {
  n_allocs : nat;               (* allocations tried *)
  n_now : Z;                    (* the wall clock, in ns *)
  n_stats : Z -> counter -> Z;  (* netdev_priv(dev)->stats *)
  n_agg : agg_state;            (* agg_state[RMNET_DEFAULT_AGG_STATE] *)
  n_agg_ll : agg_state;         (* agg_state[RMNET_LL_AGG_STATE] *)
  n_marks : marker_stats;       (* port->stats *)
  n_dl : list marker_ind;       (* port->dl_list *)
  n_pb : list marker_ind;       (* port->pb_list *)
  n_trace : list net_event
}.

Definition set_n_allocs (v : nat) (n : net) : net :=
    mk_net v (n_now n) (n_stats n) (n_agg n) (n_agg_ll n) (n_marks n) (n_dl n) (n_pb n) (n_trace
    n).
Definition set_n_now (v : Z) (n : net) : net :=
    mk_net (n_allocs n) v (n_stats n) (n_agg n) (n_agg_ll n) (n_marks n) (n_dl n) (n_pb n)
    (n_trace n).
Definition set_n_stats (v : Z -> counter -> Z) (n : net) : net :=
    mk_net (n_allocs n) (n_now n) v (n_agg n) (n_agg_ll n) (n_marks n) (n_dl n) (n_pb n)
    (n_trace n).
Definition set_n_agg (v : agg_state) (n : net) : net :=
    mk_net (n_allocs n) (n_now n) (n_stats n) v (n_agg_ll n) (n_marks n) (n_dl n) (n_pb n)
    (n_trace n).
Definition set_n_agg_ll (v : agg_state) (n : net) : net :=
    mk_net (n_allocs n) (n_now n) (n_stats n) (n_agg n) v (n_marks n) (n_dl n) (n_pb n) (n_trace
    n).
Definition set_n_marks (v : marker_stats) (n : net) : net :=
    mk_net (n_allocs n) (n_now n) (n_stats n) (n_agg n) (n_agg_ll n) v (n_dl n) (n_pb n)
    (n_trace n).
Definition set_n_dl (v : list marker_ind) (n : net) : net :=
    mk_net (n_allocs n) (n_now n) (n_stats n) (n_agg n) (n_agg_ll n) (n_marks n) v (n_pb n)
    (n_trace n).
Definition set_n_pb (v : list marker_ind) (n : net) : net :=
    mk_net (n_allocs n) (n_now n) (n_stats n) (n_agg n) (n_agg_ll n) (n_marks n) (n_dl n) v
    (n_trace n).
Definition set_n_trace (v : list net_event) (n : net) : net :=
    mk_net (n_allocs n) (n_now n) (n_stats n) (n_agg n) (n_agg_ll n) (n_marks n) (n_dl n) (n_pb
    n) v.

(** ** What the driver takes from the kernel and from other modules *)

(** The features of a device that the driver looks at. *)
Record features := mk_features {
  f_rxcsum : bool;   (* NETIF_F_RXCSUM *)
  f_gro_hw : bool;   (* NETIF_F_GRO_HW *)
  f_csum : bool;     (* NETIF_F_IP_CSUM | NETIF_F_IPV6_CSUM *)
  f_tso : bool       (* NETIF_F_ALL_TSO | NETIF_F_GSO_UDP_L4 *)
}.

(** [alloc_ok]: which allocations succeed. [page_size] and [shinfo_size], the
    aligned size of [struct skb_shared_info]. [data_format] and [endpoint], the
    configuration of the port: the device of a mux id. The checksum functions
    are the kernel's, on bytes; their result is a 16-bit value as the CPU, which
    is little-endian, reads it; [csum_bytes] is [csum_fold] of the sum of the
    bytes from an initial value. [ipv6_skip_exthdr] gives its result, the
    protocol and the fragment offset. [page_refs]: the count of references of a page, by the
    number of the question; [stray_refs]: what [page_ref_count] reads through the
    head of [agg_list]; [stray_prio]: the byte that a list of markers reads
    through its head. *)
Class RmnetEnv := {
  alloc_ok : nat -> bool;
  page_size : Z;
  shinfo_size : Z;
  data_format : Z;
  endpoint : Z -> option Z;
  dev_features : Z -> features;
  ip_fast_csum : list Z -> Z;
  ip_compute_csum : list Z -> Z;
  csum_tcpudp_magic : list Z -> list Z -> Z -> Z -> Z;
  csum_ipv6_magic : list Z -> list Z -> Z -> Z -> Z;
  csum_bytes : list Z -> Z -> Z;
  ipv6_skip_exthdr : list Z -> Z -> Z -> Z * Z * Z;
  vnd_flow_control : Z -> bool -> Z;
  page_refs : nat -> Z -> Z;
  stray_refs : nat -> Z;
  stray_prio : Z
}.

Section access.
Context `{E : RmnetEnv}.
Implicit Types k : sk_buff.

Abbreviation M := (run net).

Definition format (flag : Z) : bool := truthy (Z.land data_format flag).

Definition emit (e : net_event) : M unit := modify (fun n => set_n_trace (n_trace n ++ [e]) n).

(** [priv->stats.c += v], 64 bits *)
Definition count_by (v : Z) (dev : Z) (c : counter) : M unit := modify (fun n =>
  set_n_stats (fun d x => if (d =? dev) && bool_decide (x = c) then u64 (n_stats n d x + v) else n_stats n d x) n).
Definition count : Z -> counter -> M unit := count_by 1.

(** The next question to the kernel's allocator. *)
Definition ask {A} (answer : nat -> A) : M A := fun n => Ret (answer (n_allocs n)) (set_n_allocs (S (n_allocs n)) n).

(** An allocation: whether it succeeds. *)
Definition alloc : M bool := ask alloc_ok.

(** A byte and the fields of a packet: big-endian, and one that the CPU reads
    without [ntohs]. *)
Definition rd (l : list Z) (i : Z) : M Z := deref (l !! Z.to_nat i).
Definition rd16 (l : list Z) (i : Z) : M Z := a ← rd l i; b ← rd l (i + 1); mret (a * 256 + b).
Definition rd16_raw (l : list Z) (i : Z) : M Z := a ← rd l i; b ← rd l (i + 1); mret (a + b * 256).
Definition rd32 (l : list Z) (i : Z) : M Z := a ← rd16 l i; b ← rd16 l (i + 2); mret (a * 65536 + b).

(** The bytes [i .. i + n) of a packet. *)
Definition slice (l : list Z) (i n : Z) : M (list Z) :=
  if zlen l <? i + n then fault else mret (take (Z.to_nat n) (drop (Z.to_nat i) l)).

(** [*p = v] for bytes that are there. *)
Definition wr (l : list Z) (i : Z) (v : list Z) : M (list Z) :=
  if zlen l <? i + zlen v then fault
  else mret (take (Z.to_nat i) l ++ v ++ drop (Z.to_nat i + length v) l).

(** A 32-bit value that the CPU reads without [ntohl]. *)
Definition rd32_raw (l : list Z) (i : Z) : M Z := a ← rd16_raw l i; b ← rd16_raw l (i + 2); mret (a + b * 65536).

(** [htons], [htonl] *)
Definition be16 (v : Z) : list Z := [u8 (Z.shiftr v 8); u8 v].
Definition be32 (v : Z) : list Z := be16 (u16 (Z.shiftr v 16)) ++ be16 (u16 v).

(** A 16-bit value that the CPU writes without [htons]. *)
Definition raw16 (v : Z) : list Z := [u8 v; u8 (Z.shiftr v 8)].

(** [skb_push]: panics without headroom. *)
Definition skb_push (v : list Z) (k : sk_buff) : M sk_buff :=
  if k_headroom k <? zlen v then fault else
  mret (set_k_lin (v ++ k_lin k) (set_k_headroom (k_headroom k - zlen v)
    (set_k_transport (k_transport k + zlen v) (set_k_csum_start (k_csum_start k + zlen v) k)))).

(** [skb_put], with the bytes that are then written: panics without tailroom. *)
Definition skb_put (v : list Z) (k : sk_buff) : M sk_buff :=
  if k_tailroom k <? zlen v then fault else
  mret (set_k_lin (k_lin k ++ v) (set_k_tailroom (k_tailroom k - zlen v) k)).

(** A packet without its first [n] bytes. *)
Definition pulled (n : Z) (k : sk_buff) : sk_buff :=
  set_k_lin (drop (Z.to_nat n) (k_lin k)) (set_k_frags (drop_frags (Z.to_nat n - length (k_lin k)) (k_frags k))
    (set_k_headroom (k_headroom k + n)
    (set_k_transport (k_transport k - n) (set_k_csum_start (k_csum_start k - n) k)))).

(** [pskb_pull]: nothing happens for a packet that is too short, or when the
    bytes of fragments cannot be made linear for want of memory. *)
Definition pskb_pull (n : Z) (k : sk_buff) : M sk_buff :=
  if skb_len k <? n then mret k else
  ok ← (if zlen (k_lin k) <? n then alloc else mret true);
  mret (if (ok : bool) then pulled n k else k).

(** [pskb_trim] *)
Definition pskb_trim (n : Z) (k : sk_buff) : sk_buff :=
  if skb_len k <=? n then k else
  set_k_lin (take (Z.to_nat n) (k_lin k)) (set_k_frags (take_frags (Z.to_nat n - length (k_lin k)) (k_frags k))
    (set_k_tailroom (k_tailroom k + Z.max 0 (zlen (k_lin k) - n)) k)).

(** [__pskb_pull_tail]: the next [n] bytes of the fragments become linear; a
    packet that is too short is a bug of the caller. *)
Definition pskb_pull_tail (n : Z) (k : sk_buff) : M sk_buff :=
  if skb_data_len k <? n then fault else
  ok ← alloc;
  if negb ok then mret k else
  mret (set_k_lin (k_lin k ++ take (Z.to_nat n) (concat (k_frags k)))
    (set_k_frags (drop_frags (Z.to_nat n) (k_frags k)) k)).

(** A packet from [alloc_skb], with its headroom reserved. *)
Definition new_skb (headroom tailroom : Z) : sk_buff :=
  mk_skb [] [] headroom tailroom 0 0 0 CHECKSUM_NONE 0 0 0 0 0 0.

(** The two aggregation states. *)
Definition agg (ll : bool) (n : net) : agg_state := if ll then n_agg_ll n else n_agg n.
Definition set_agg (ll : bool) (a : agg_state) (n : net) : net :=
  if ll then set_n_agg_ll a n else set_n_agg a n.
Definition get_agg (ll : bool) : M agg_state := gets (agg ll).
Definition upd_agg (ll : bool) (f : agg_state -> agg_state) : M unit :=
  modify (fun n => set_agg ll (f (agg ll n)) n).

(** [agg_lock] *)
Definition agg_spin_lock (ll : bool) : M unit := a ← get_agg ll;
  if a_lock a then block else upd_agg ll (set_a_lock true).
Definition agg_spin_unlock (ll : bool) : M unit := upd_agg ll (set_a_lock false).

End access.
