(* ===== verification/RmnetMap.v ===== *)
(** * RmNet: MAP frames

    The framing of rmnet_map_data.c: the MAP header and the checksum headers of
    the uplink, the split of an aggregated frame, and the checksum trailer of the
    downlink. A bit field is in its byte from the lowest bit on. *)

From S2P Require Import Prelude Outcome RmnetSkb.

(** [~x] of 16 bits, and the ones' complement sum of [net/checksum.h] *)
Definition not16 (x : Z) : Z := 65535 - u16 x.
Definition bswap16 (x : Z) : Z := u8 x * 256 + u8 (Z.shiftr x 8).
Definition csum16_add (csum addend : Z) : Z :=
  let res := u16 (csum + addend) in u16 (res + (if res <? addend then 1 else 0)).
Definition csum16_sub (csum addend : Z) : Z := csum16_add csum (not16 addend).

(** Where the checksum of a transport header is; [None] is [NULL]. *)
Definition rmnet_map_get_csum_field (protocol : Z) : option Z :=
  if protocol =? IPPROTO_TCP then Some 16
  else if protocol =? IPPROTO_UDP then Some 6
  else None.

(** The header type of a v5 header. *)
Definition header_type (b : Z) : Z := Z.shiftr b 1.

Section map.
Context `{E : RmnetEnv}.
Implicit Types k : sk_buff.

Abbreviation M := (run net).

(** ** Checksum trailers of the downlink *)

(** The end of the two functions below: the checksum that the trailer and the
    pseudo header give against the one of the transport header. *)
Definition compare_csum (dev protocol payload_csum pseudo_csum check : Z) : M Z :=
  let csum_temp := not16 (csum16_sub (csum16_add payload_csum (bswap16 pseudo_csum)) (bswap16 check)) in
  let csum_value_final :=
    if negb (csum_temp =? 0) then csum_temp
    else if protocol =? IPPROTO_UDP then not16 csum_temp
    else if (protocol =? IPPROTO_TCP) && (check =? 65535) then not16 csum_temp
    else csum_temp in
  if csum_value_final =? bswap16 check then count dev csum_ok ;; mret 0
  else count dev csum_validation_failed ;; mret (- EINVAL).

(** [trailer]: the bytes of [struct rmnet_map_dl_csum_trailer] *)
Definition rmnet_map_ipv4_dl_csum_trailer (k : sk_buff) (trailer : list Z) : M Z :=
  let l := rmnet_map_data_ptr k in
  frag_off ← rd16 l 6;
  if truthy (Z.land frag_off IP_MF) || (Z.land frag_off IP_OFFSET >? 0) then
    count (k_dev k) csum_fragmented_pkt ;; mret (- EOPNOTSUPP)
  else
  b ← rd l 0;
  protocol ← rd l 9;
  let ihl := Z.land b 15 in
  match rmnet_map_get_csum_field protocol with
  | None => count (k_dev k) csum_err_invalid_transport ;; mret (- EPROTONOSUPPORT)
  | Some off =>
      check ← rd16_raw l (ihl * 4 + off);
      if (check =? 0) && (protocol =? IPPROTO_UDP) then count (k_dev k) csum_skipped ;; mret 0 else
      v ← rd16 trailer 6;
      hdr ← slice l 0 (ihl * 4);
      saddr ← slice l 12 4;
      daddr ← slice l 16 4;
      tot_len ← rd16 l 2;
      let payload := csum16_sub (not16 v) (not16 (ip_fast_csum hdr)) in
      let pseudo := not16 (csum_tcpudp_magic saddr daddr (u32 (tot_len - ihl * 4)) protocol) in
      compare_csum (k_dev k) protocol payload pseudo check
  end.

Definition rmnet_map_ipv6_dl_csum_trailer (k : sk_buff) (trailer : list Z) : M Z :=
  let l := rmnet_map_data_ptr k in
  nexthdr ← rd l 6;
  match rmnet_map_get_csum_field nexthdr with
  | None => count (k_dev k) csum_err_invalid_transport ;; mret (- EPROTONOSUPPORT)
  | Some off =>
      v ← rd16 trailer 6;
      hdr ← slice l 0 40;
      let payload := csum16_sub (not16 v) (not16 (bswap16 (ip_compute_csum hdr))) in
      length ← (if nexthdr =? IPPROTO_UDP then rd16 l (40 + 4) else rd16 l 4);
      saddr ← slice l 8 16;
      daddr ← slice l 24 16;
      let pseudo := not16 (csum_ipv6_magic saddr daddr length nexthdr) in
      check ← rd16_raw l (40 + off);
      compare_csum (k_dev k) nexthdr payload pseudo check
  end.

(** [len]: the length of the payload with its padding. *)
Definition rmnet_map_checksum_downlink_packet (k : sk_buff) (len : Z) : M Z :=
  if negb (f_rxcsum (dev_features (k_dev k))) then count (k_dev k) csum_sw ;; mret (- EOPNOTSUPP) else
  trailer ← slice (rmnet_map_data_ptr k) len DL_CSUM_TRAILER;
  b ← rd trailer 1;
  if negb (Z.testbit b 0) then count (k_dev k) csum_valid_unset ;; mret (- EINVAL) else
  if k_protocol k =? ETH_P_IP then rmnet_map_ipv4_dl_csum_trailer k trailer
  else if k_protocol k =? ETH_P_IPV6 then rmnet_map_ipv6_dl_csum_trailer k trailer
  else count (k_dev k) csum_err_invalid_ip_version ;; mret (- EPROTONOSUPPORT).

(** ** Checksum headers of the uplink *)

(** [*csum = ~( *csum)] for the transport header at [off] of a TCP or UDP packet *)
Definition complement_csum (protocol off : Z) (k : sk_buff) : M sk_buff :=
  match rmnet_map_get_csum_field protocol with
  | None => mret k
  | Some c =>
      v ← rd16_raw (k_lin k) (off + c);
      l ← wr (k_lin k) (off + c) (raw16 (not16 v));
      mret (set_k_lin l k)
  end.

(** [rmnet_map_complement_ipv4_txporthdr_csum_field], on the IP header behind the
    header of the uplink *)
Definition rmnet_map_complement_ipv4_txporthdr_csum_field (k : sk_buff) : M sk_buff :=
  b ← rd (k_lin k) UL_CSUM_HDR;
  protocol ← rd (k_lin k) (UL_CSUM_HDR + 9);
  complement_csum protocol (UL_CSUM_HDR + Z.land b 15 * 4) k.

Definition rmnet_map_complement_ipv6_txporthdr_csum_field (k : sk_buff) : M sk_buff :=
  nexthdr ← rd (k_lin k) (UL_CSUM_HDR + 6);
  complement_csum nexthdr (UL_CSUM_HDR + 40) k.

(** The bytes of [struct rmnet_map_ul_csum_header], with its second half in
    network order. *)
Definition ul_csum_header (offset insert : Z) (udp : bool) : list Z :=
  be16 offset ++ be16 (Z.lor (Z.land insert (Z.ones 14)) (Z.lor (Z.shiftl (Z.b2z udp) 14) (Z.shiftl 1 15))).

Definition rmnet_map_ipv4_ul_csum_header (k : sk_buff) : M sk_buff :=
  protocol ← rd (k_lin k) (UL_CSUM_HDR + 9);
  l ← wr (k_lin k) 0 (ul_csum_header (u16 (k_transport k - UL_CSUM_HDR)) (k_csum_offset k) (protocol =? IPPROTO_UDP));
  rmnet_map_complement_ipv4_txporthdr_csum_field (set_k_lin l (set_k_summed CHECKSUM_NONE k)).

Definition rmnet_map_ipv6_ul_csum_header (k : sk_buff) : M sk_buff :=
  nexthdr ← rd (k_lin k) (UL_CSUM_HDR + 6);
  l ← wr (k_lin k) 0 (ul_csum_header (u16 (k_transport k - UL_CSUM_HDR)) (k_csum_offset k) (nexthdr =? IPPROTO_UDP));
  rmnet_map_complement_ipv6_txporthdr_csum_field (set_k_lin l (set_k_summed CHECKSUM_NONE k)).

Definition partial (k : sk_buff) : bool :=
  match k_summed k with CHECKSUM_PARTIAL => true | _ => false end.

Definition rmnet_map_v4_checksum_uplink_packet (orig_dev : Z) (k : sk_buff) : M sk_buff :=
  k ← skb_push [0; 0; 0; 0] k;
  let sw_csum := count orig_dev csum_sw ;; mret k in
  if negb (f_csum (dev_features orig_dev)) then sw_csum else
  if partial k then
    if k_protocol k =? ETH_P_IP then
      k ← rmnet_map_ipv4_ul_csum_header k; count orig_dev csum_hw ;; mret k
    else if k_protocol k =? ETH_P_IPV6 then
      k ← rmnet_map_ipv6_ul_csum_header k; count orig_dev csum_hw ;; mret k
    else count orig_dev csum_err_invalid_ip_version ;; sw_csum
  else sw_csum.

(** [rmnet_map_v5_check_priority]: the bits set in the second byte of the header *)
Definition rmnet_map_v5_check_priority (orig_dev : Z) (tso : bool) (k : sk_buff) : M Z :=
  p ← (if RMNET_LLM (k_priority k) then count orig_dev ul_prio ;; mret (Z.shiftl 1 5) else mret 0);
  a ← (if negb tso && RMNET_APS_LLB (k_priority k) then count orig_dev aps_prio ;; mret (Z.shiftl 1 4) else mret 0);
  mret (Z.lor p a).

Definition rmnet_map_v5_checksum_uplink_packet (orig_dev : Z) (k : sk_buff) : M sk_buff :=
  k ← skb_push [Z.shiftl RMNET_MAP_HEADER_TYPE_CSUM_OFFLOAD 1; 0; 0; 0] k;
  prio ← (if format RMNET_EGRESS_FORMAT_PRIORITY then rmnet_map_v5_check_priority orig_dev false k else mret 0);
  l ← wr (k_lin k) 1 [prio];
  let k := set_k_lin l k in
  let sw_csum := count orig_dev csum_sw ;; mret k in
  if negb (format RMNET_PRIV_FLAGS_EGRESS_MAP_CKSUMV5) then mret k else
  if partial k then
    if (k_protocol k =? ETH_P_IP) || (k_protocol k =? ETH_P_IPV6) then
      proto ← (if k_protocol k =? ETH_P_IP then rd (k_lin k) (CSUM_V5_HDR + 9) else rd (k_lin k) (CSUM_V5_HDR + 6));
      match rmnet_map_get_csum_field proto with
      | Some _ =>
          l ← wr (k_lin k) 1 [Z.lor prio (Z.shiftl 1 7)];
          count orig_dev csum_hw ;;
          mret (set_k_lin l (set_k_summed CHECKSUM_NONE k))
      | None => sw_csum
      end
    else count orig_dev csum_err_invalid_ip_version ;; sw_csum
  else sw_csum.

Definition rmnet_map_checksum_uplink_packet (orig_dev csum_type : Z) (k : sk_buff) : M sk_buff :=
  if csum_type =? RMNET_FLAGS_EGRESS_MAP_CKSUMV4 then rmnet_map_v4_checksum_uplink_packet orig_dev k
  else if csum_type =? RMNET_PRIV_FLAGS_EGRESS_MAP_CKSUMV5 then rmnet_map_v5_checksum_uplink_packet orig_dev k
  else mret k.

(** The code and the packet. *)
Definition rmnet_map_add_tso_header (orig_dev : Z) (k : sk_buff) : M (Z * sk_buff) :=
  if negb (f_tso (dev_features orig_dev)) then count orig_dev tso_arriv_errs ;; mret (- EINVAL, k) else
  k ← skb_push [Z.shiftl RMNET_MAP_HEADER_TYPE_TSO 1; 0; 0; 0] k;
  prio ← (if format RMNET_EGRESS_FORMAT_PRIORITY then rmnet_map_v5_check_priority orig_dev true k else mret 0);
  let id_cfg := if truthy (Z.land (k_gso_type k) SKB_GSO_TCP_FIXEDID) then Z.shiftl 1 7 else 0 in
  l ← wr (k_lin k) 1 (Z.lor prio id_cfg :: be16 (k_gso_size k));
  count orig_dev tso_pkts ;;
  mret (0, set_k_lin l (set_k_summed CHECKSUM_NONE (set_k_gso_size 0 (set_k_gso_segs 0 (set_k_gso_type 0 k))))).

(** ** The MAP header *)

(** [struct rmnet_map_header] *)
Definition map_header (pad_len next_hdr cd_bit mux_id pkt_len : Z) : list Z :=
  [Z.lor (Z.land pad_len 63) (Z.lor (Z.shiftl next_hdr 6) (Z.shiftl cd_bit 7)); mux_id] ++ be16 pkt_len.

Definition h_pad_len (b : Z) : Z := Z.land b 63.
Definition h_next_hdr (b : Z) : bool := Z.testbit b 6.
Definition h_cd_bit (b : Z) : bool := Z.testbit b 7.

(** [pad]: [RMNET_MAP_ADD_PAD_BYTES]; [None] when there is no room for padding. *)
Definition rmnet_map_add_map_header (hdrlen : Z) (pad : bool) (k : sk_buff) : M (option sk_buff) :=
  let map_datalen := u32 (skb_len k - hdrlen) in
  k ← skb_push [0; 0; 0; 0] k;
  let next_hdr := Z.b2z (format RMNET_PRIV_FLAGS_EGRESS_MAP_CKSUMV5) in
  if negb pad then
    l ← wr (k_lin k) 0 (map_header 0 next_hdr 0 0 map_datalen);
    mret (Some (set_k_lin l k))
  else
    let padding := u32 ((map_datalen + 3) / 4 * 4 - map_datalen) in
    if k_tailroom k <? padding then mret None else
    k ← skb_put (replicate (Z.to_nat padding) 0) k;
    l ← wr (k_lin k) 0 (map_header padding next_hdr 0 0 (u32 (map_datalen + padding)));
    mret (Some (set_k_lin l k)).

(** ** The split of an aggregated frame *)

(** [NULL]; the packet itself; a new packet and what remains. *)
Inductive deaggregated := NoPacket | SamePacket | NewPacket (skbn rest : sk_buff).

(** The length of the packet at the start of [data]. *)
Definition packet_len_of (b pkt_len : Z) : Z :=
  pkt_len + MAP_HDR +
  (if format RMNET_FLAGS_INGRESS_MAP_CKSUMV4 then DL_CSUM_TRAILER
   else if format RMNET_PRIV_FLAGS_INGRESS_MAP_CKSUMV5 && negb (h_cd_bit b) then CSUM_V5_HDR else 0).

Definition has_next_hdr (b : Z) : bool :=
  negb (format RMNET_FLAGS_INGRESS_MAP_CKSUMV4) && format RMNET_PRIV_FLAGS_INGRESS_MAP_CKSUMV5 && negb (h_cd_bit b).

Definition rmnet_map_deaggregate (k : sk_buff) : M deaggregated :=
  let data := rmnet_map_data_ptr k in
  if skb_len k =? 0 then mret NoPacket else
  b ← rd data 0;
  pkt_len ← rd16 data 2;
  let packet_len := packet_len_of b pkt_len in
  if skb_len k - packet_len <? 0 then mret NoPacket else
  if pkt_len =? 0 then mret NoPacket else
  coal ← (if has_next_hdr b then t ← rd data MAP_HDR; mret (header_type t =? RMNET_MAP_HEADER_TYPE_COALESCING)
          else mret false);
  if (coal : bool) then mret SamePacket else
  ok ← alloc;
  if negb ok then mret NoPacket else
  skbn ← (if skb_is_nonlinear k then
            bytes ← slice (default [] (head (k_frags k))) 0 packet_len;
            mret (set_k_frags [bytes] (new_skb 0 RMNET_MAP_DEAGGR_HEADROOM))
          else
            bytes ← slice data 0 packet_len;
            skb_put bytes (new_skb RMNET_MAP_DEAGGR_HEADROOM (packet_len + RMNET_MAP_DEAGGR_SPACING - RMNET_MAP_DEAGGR_HEADROOM)));
  let skbn := set_k_priority (k_priority k) skbn in
  rest ← pskb_pull packet_len k;
  mret (NewPacket skbn rest).

End map.
