(* ===== verification/RmnetCoal.v ===== *)
(** * RmNet: coalesced frames

    The v5 headers of rmnet_map_data.c on the downlink: the check of a coalescing
    header, and the split of a coalesced frame into the packets that the hardware
    put together. *)

From S2P Require Import Prelude Outcome RmnetSkb RmnetMap.

(** [struct rmnet_map_v5_nl_pair] *)
Record nl_pair := mk_nl { nl_pkt_len : Z; csum_error_bitmap : Z; num_packets : Z }.

(** [struct rmnet_map_v5_coal_header] *)
Record coal_header := mk_coal {
  num_nlos : Z;
  csum_valid : bool;
  close_type : Z;
  close_value : Z;
  virtual_channel_id : Z;
  nl_pairs : list nl_pair
}.

(** [struct rmnet_map_coal_metadata]; its pointers are the headers' bytes. *)
Record coal_metadata := mk_meta {
  ip_header : list Z;
  trans_header : list Z;
  ip_len : Z;
  trans_len : Z;
  data_offset : Z;
  data_len : Z;
  ip_proto : Z;
  trans_proto : Z;
  pkt_id : Z;
  pkt_count : Z
}.

Definition set_data_len (v : Z) (m : coal_metadata) : coal_metadata :=
  mk_meta (ip_header m) (trans_header m) (ip_len m) (trans_len m) (data_offset m) v (ip_proto m) (trans_proto m)
    (pkt_id m) (pkt_count m).
Definition set_pkt_count (v : Z) (m : coal_metadata) : coal_metadata :=
  mk_meta (ip_header m) (trans_header m) (ip_len m) (trans_len m) (data_offset m) (data_len m) (ip_proto m)
    (trans_proto m) (pkt_id m) v.

(** The end of [__rmnet_map_segment_coal_skb]. *)
Definition next_segment (dlen id : Z) (m : coal_metadata) : coal_metadata :=
  mk_meta (ip_header m) (trans_header m) (ip_len m) (trans_len m) (u16 (data_offset m + dlen)) (data_len m)
    (ip_proto m) (trans_proto m) (u8 (id + 1)) 0.

(** [csum_valid_required] of a v5 checksum header. *)
Definition rmnet_map_get_csum_valid (b : Z) : bool := Z.testbit b 7.

Definition rmnet_map_v5_csum_buggy (h : coal_header) : bool :=
  match nl_pairs h with
  | nl :: _ =>
      if negb (num_nlos h =? 1) || negb (num_packets nl =? 1) then false
      else if close_type h =? RMNET_MAP_COAL_CLOSE_COAL then true
      else (close_type h =? RMNET_MAP_COAL_CLOSE_HW) &&
        ((close_value h =? RMNET_MAP_COAL_CLOSE_HW_PKT) || (close_value h =? RMNET_MAP_COAL_CLOSE_HW_BYTE) ||
         (close_value h =? RMNET_MAP_COAL_CLOSE_HW_TIME))
  | [] => false
  end.

(** The counter of [rmnet_map_data_log_close_stats]. *)
Definition close_counter (type code : Z) : option counter :=
  if type =? RMNET_MAP_COAL_CLOSE_NON_COAL then Some close_non_coal
  else if type =? RMNET_MAP_COAL_CLOSE_IP_MISS then Some close_ip_miss
  else if type =? RMNET_MAP_COAL_CLOSE_TRANS_MISS then Some close_trans_miss
  else if type =? RMNET_MAP_COAL_CLOSE_HW then
    if code =? RMNET_MAP_COAL_CLOSE_HW_NL then Some close_hw_nl
    else if code =? RMNET_MAP_COAL_CLOSE_HW_PKT then Some close_hw_pkt
    else if code =? RMNET_MAP_COAL_CLOSE_HW_BYTE then Some close_hw_byte
    else if code =? RMNET_MAP_COAL_CLOSE_HW_TIME then Some close_hw_time
    else if code =? RMNET_MAP_COAL_CLOSE_HW_EVICT then Some close_hw_evict
    else None
  else if type =? RMNET_MAP_COAL_CLOSE_COAL then Some close_coal
  else None.

(** The loop of [rmnet_map_data_check_coal_header]: the mask and the packets, or
    [None] when there are too many. *)
Fixpoint check_pairs (l : list nl_pair) (i mask pkts : Z) : option (Z * Z) :=
  match l with
  | [] => Some (mask, pkts)
  | nl :: l =>
      let mask := Z.lor mask (u64 (Z.shiftl (csum_error_bitmap nl) (8 * i))) in
      let pkts := u8 (pkts + num_packets nl) in
      if pkts >? RMNET_MAP_V5_MAX_PACKETS then None else check_pairs l (i + 1) mask pkts
  end.

Section coal.
Context `{E : RmnetEnv}.
Implicit Types k : sk_buff.

Abbreviation M := (run net).

Definition read_nl (l : list Z) (i : Z) : M nl_pair :=
  len ← rd16 l i; bitmap ← rd l (i + 2); num ← rd l (i + 3); mret (mk_nl len bitmap num).

Fixpoint read_nls (n : nat) (l : list Z) (i : Z) : M (list nl_pair) :=
  match n with
  | O => mret []
  | S n => nl ← read_nl l i; nls ← read_nls n l (i + 4); mret (nl :: nls)
  end.

(** The fields of the header at [l]. *)
Definition read_coal_header (l : list Z) : M coal_header :=
  b1 ← rd l 1; b2 ← rd l 2; b3 ← rd l 3;
  nls ← read_nls (Z.to_nat RMNET_MAP_V5_MAX_NLOS) l 4;
  mret (mk_coal (Z.land (Z.shiftr b1 4) 7) (Z.testbit b1 7) (Z.land b2 15) (Z.shiftr b2 4) (Z.shiftr b3 4) nls).

Definition rmnet_map_data_log_close_stats (dev type code : Z) : M unit :=
  match close_counter type code with Some c => count dev c | None => mret tt end.

(** The code and [*nlo_err_mask]. *)
Definition rmnet_map_data_check_coal_header (k : sk_buff) : M (Z * Z) :=
  let l := drop (Z.to_nat MAP_HDR) (rmnet_map_data_ptr k) in
  let dev := k_dev k in
  b3 ← rd l 3;
  b1 ← rd l 1;
  let nlos := Z.land (Z.shiftr b1 4) 7 in
  if (nlos =? 0) || (nlos >? RMNET_MAP_V5_MAX_NLOS) then
    count dev coal_hdr_nlo_err ;; mret (- EINVAL, 0)
  else
    h ← read_coal_header l;
    match check_pairs (nl_pairs h) 0 0 0 with
    | None => count dev coal_hdr_pkt_err ;; mret (- EINVAL, 0)
    | Some (mask, pkts) =>
        count_by pkts dev coal_pkts ;;
        rmnet_map_data_log_close_stats dev (close_type h) (close_value h) ;;
        when (virtual_channel_id h <? RMNET_MAX_VEID) (count dev (coal_veid (virtual_channel_id h))) ;;
        mret (0, mask)
    end.

(** Moves the headers of a packet in fragments to its linear part. *)
Definition rmnet_map_move_headers (k : sk_buff) : M sk_buff :=
  if negb (skb_is_nonlinear k) then mret k else
  let l := rmnet_map_data_ptr k in
  let pull ip_len trans_len :=
    k ← pskb_pull_tail (ip_len + trans_len) k;
    mret (if trans_len =? 0 then k else set_k_transport ip_len k) in
  let transport ip_len proto :=
    if proto =? IPPROTO_TCP then doff ← rd l (ip_len + 12); pull ip_len (Z.shiftr doff 4 * 4)
    else if proto =? IPPROTO_UDP then pull ip_len 8
    else if proto =? NEXTHDR_FRAGMENT then pull (u16 (ip_len + 8)) 0
    else pull ip_len 0 in
  b ← rd l 0;
  if Z.shiftr b 4 =? 4 then
    let ip_len := Z.land b 15 * 4 in
    proto ← rd l 9;
    frag_off ← rd16 l 6;
    if truthy (Z.land frag_off IP_OFFSET) then pull ip_len 0 else transport ip_len proto
  else if Z.shiftr b 4 =? 6 then
    nexthdr ← rd l 6;
    let '(len, proto, _) := ipv6_skip_exthdr (skb_bytes k) 40 nexthdr in
    transport (u16 len) proto
  else mret k.

(** Appends the data of the segment to [dest]. *)
Definition rmnet_map_nonlinear_copy (coal : sk_buff) (m : coal_metadata) (dest : sk_buff) : M sk_buff :=
  let start := ip_len m + trans_len m + data_offset m in
  let copy_len := data_len m * pkt_count m in
  if skb_is_nonlinear coal then
    bytes ← slice (default [] (head (k_frags coal))) start copy_len;
    mret (set_k_frags (k_frags dest ++ [bytes]) dest)
  else
    bytes ← slice (rmnet_map_data_ptr coal) start copy_len;
    skb_put bytes dest.

Definition rmnet_map_gso_stamp (m : coal_metadata) (k : sk_buff) : sk_buff :=
  let type := if trans_proto m =? IPPROTO_TCP then (if ip_proto m =? 4 then SKB_GSO_TCPV4 else SKB_GSO_TCPV6)
              else SKB_GSO_UDP_L4 in
  set_k_gso_type type (set_k_gso_size (data_len m) (set_k_gso_segs (pkt_count m) k)).

(** The complement of the checksum of the pseudo header at [l]. *)
Definition pseudo_csum (m : coal_metadata) (l : list Z) (len : Z) : M Z :=
  if ip_proto m =? 4 then
    s ← slice l 12 4; d ← slice l 16 4; mret (not16 (csum_tcpudp_magic s d len (trans_proto m)))
  else
    s ← slice l 8 16; d ← slice l 24 16; mret (not16 (csum_ipv6_magic s d len (trans_proto m))).

Definition rmnet_map_partial_csum (m : coal_metadata) (k : sk_buff) : M sk_buff :=
  pseudo ← pseudo_csum m (k_lin k) (u16 (skb_len k - ip_len m));
  let off := if trans_proto m =? IPPROTO_TCP then 16 else 6 in
  l ← wr (k_lin k) (ip_len m + off) (raw16 pseudo);
  mret (set_k_lin l (set_k_csum_offset off (set_k_summed CHECKSUM_PARTIAL (set_k_csum_start (ip_len m) k)))).

(** The transport header of a segment, with its changes: its bytes, whether it
    has a checksum, and [zero_csum]. [len]: the length of the segment so far. *)
Definition segment_trans (coal : sk_buff) (m : coal_metadata) (dlen len : Z) : M (list Z * option Z * bool) :=
  let hlen := ip_len m + trans_len m in
  let th := trans_header m in
  if trans_proto m =? IPPROTO_TCP then
    seq ← rd32 th 4;
    th ← wr th 4 (be32 (u32 (seq + data_offset m)));
    flags ← rd th 13;
    th ← (if (Z.testbit flags 0 || Z.testbit flags 3) && (hlen + data_offset m + dlen <? skb_len coal)
          then wr th 13 [Z.land flags (Z.lnot 9)] else mret th);
    mret (th, Some 16, false)
  else if trans_proto m =? IPPROTO_UDP then
    th ← wr th 4 (be16 (u16 len));
    check ← rd16_raw th 6;
    mret (th, Some 6, (ip_proto m =? 4) && (check =? 0))
  else mret (th, None, false).

(** The IP header of a segment of length [len]. *)
Definition segment_ip (m : coal_metadata) (len : Z) : M (list Z) :=
  let ih := ip_header m in
  if ip_proto m =? 4 then
    id ← rd16 ih 4;
    ih ← wr ih 4 (be16 (u16 (id + pkt_id m)));
    ih ← wr ih 2 (be16 (u16 len));
    ih ← wr ih 10 (raw16 0);
    b ← rd ih 0;
    hdr ← slice ih 0 (Z.land b 15 * 4);
    wr ih 10 (raw16 (ip_fast_csum hdr))
  else wr ih 4 (be16 (u16 (len - 40))).

(** A bad checksum for a segment whose own was bad. *)
Definition corrupt_csum (m : coal_metadata) (off : Z) (k : sk_buff) : M sk_buff :=
  pseudo ← pseudo_csum m (k_lin k) (u32 (skb_len k - ip_len m));
  l ← wr (k_lin k) (ip_len m + off) (raw16 pseudo);
  let csum := csum_bytes (drop (Z.to_nat (ip_len m)) (skb_bytes (set_k_lin l k))) 0 in
  l ← wr l (ip_len m + off) (raw16 (csum16_add csum (bswap16 1)));
  mret (set_k_lin l (set_k_summed CHECKSUM_NONE k)).

(** [__rmnet_map_segment_coal_skb]: the metadata and the list after the segment;
    both are unchanged when there is no memory for it. *)
Definition segment_coal_skb (coal : sk_buff) (m : coal_metadata) (list_ : list sk_buff) (id : Z) (valid : bool) :
    M (coal_metadata * list sk_buff) :=
  let dlen := data_len m * pkt_count m in
  let hlen := ip_len m + trans_len m in
  ok ← alloc;
  if negb ok then mret (m, list_) else
  k ← rmnet_map_nonlinear_copy coal m (new_skb hlen (if skb_is_nonlinear coal then 0 else dlen));
  '(th, check, zero_csum) ← segment_trans coal m dlen (trans_len m + dlen);
  k ← skb_push th k;
  let k := set_k_transport 0 k in
  ih ← segment_ip m (skb_len k + ip_len m);
  k ← skb_push ih k;
  k ← (if valid || zero_csum then rmnet_map_partial_csum m k
       else match check with Some off => corrupt_csum m off k | None => mret k end);
  count (k_dev coal) coal_reconstruct ;;
  let k := set_k_dev (k_dev coal) k in
  let k := if pkt_count m >? 1 then rmnet_map_gso_stamp m k else k in
  mret (next_segment dlen id m, list_ ++ [set_k_priority (k_priority coal) k]).

Definition rmnet_map_validate_csum (k : sk_buff) (m : coal_metadata) : M bool :=
  let datagram_len := u32 (skb_len k - ip_len m) in
  pseudo ← pseudo_csum m (rmnet_map_data_ptr k) datagram_len;
  mret (csum_bytes (drop (Z.to_nat (ip_len m)) (skb_bytes k)) pseudo =? 0).

(** The loop over the packets of one NLO. *)
Fixpoint packet_loop (n : nat) (coal : sk_buff) (gro : bool) (m : coal_metadata) (list_ : list sk_buff)
    (total_pkt mask : Z) : M (coal_metadata * list sk_buff * Z * Z) :=
  match n with
  | O => mret (m, list_, total_pkt, mask)
  | S n =>
      let csum_err := Z.testbit mask 0 in
      '(m, list_) ←
        (if negb gro then
           let m := set_pkt_count 1 m in
           when csum_err (count (k_dev coal) coal_csum_err) ;;
           segment_coal_skb coal m list_ total_pkt (negb csum_err)
         else if csum_err then
           count (k_dev coal) coal_csum_err ;;
           '(m, list_) ← (if truthy (pkt_count m) then segment_coal_skb coal m list_ total_pkt true
                          else mret (m, list_));
           segment_coal_skb coal (set_pkt_count 1 m) list_ total_pkt false
         else mret (set_pkt_count (u8 (pkt_count m + 1)) m, list_));
      packet_loop n coal gro m list_ (u8 (total_pkt + 1)) (Z.shiftr mask 1)
  end.

(** The loop over the NLOs. *)
Fixpoint nlo_loop (l : list nl_pair) (coal : sk_buff) (gro : bool) (m : coal_metadata) (list_ : list sk_buff)
    (total_pkt mask : Z) : M (list sk_buff) :=
  match l with
  | [] => mret list_
  | nl :: l =>
      let m := set_data_len (u16 (nl_pkt_len nl - (ip_len m + trans_len m))) m in
      '(m, list_, total_pkt, mask) ← packet_loop (Z.to_nat (num_packets nl)) coal gro m list_ total_pkt mask;
      '(m, list_) ← (if truthy (pkt_count m) then segment_coal_skb coal m list_ total_pkt true else mret (m, list_));
      nlo_loop l coal gro m list_ total_pkt mask
  end.

(** The metadata with the transport header behind an IP header of [ip_len] bytes,
    whether segments may stay together, and [zero_csum]. *)
Definition coal_transport (k : sk_buff) (ip_proto ip_len proto : Z) (gro : bool) : M (option (coal_metadata * bool * bool)) :=
  let l := rmnet_map_data_ptr k in
  ih ← slice l 0 ip_len;
  if proto =? IPPROTO_TCP then
    doff ← rd l (ip_len + 12);
    let trans_len := Z.shiftr doff 4 * 4 in
    th ← slice l ip_len trans_len;
    mret (Some (mk_meta ih th ip_len trans_len 0 0 ip_proto proto 0 0, gro, false))
  else if proto =? IPPROTO_UDP then
    th ← slice l ip_len 8;
    check ← rd16_raw l (ip_len + 6);
    mret (Some (mk_meta ih th ip_len 8 0 0 ip_proto proto 0 0, gro, (ip_proto =? 4) && (check =? 0)))
  else count (k_dev k) coal_trans_invalid ;; mret None.

(** The headers of a coalesced frame; [None] when they are not understood. *)
Definition coal_meta_of (k : sk_buff) : M (option (coal_metadata * bool * bool)) :=
  let l := rmnet_map_data_ptr k in
  let gro := f_gro_hw (dev_features (k_dev k)) in
  b ← rd l 0;
  if Z.shiftr b 4 =? 4 then
    proto ← rd l 9;
    coal_transport k 4 (Z.land b 15 * 4) proto (gro && (Z.land b 15 =? 5))
  else if Z.shiftr b 4 =? 6 then
    nexthdr ← rd l 6;
    let '(len, proto, frag_off) := ipv6_skip_exthdr (skb_bytes k) 40 nexthdr in
    let ip_len := u16 len in
    if (ip_len <? 0) || truthy frag_off then count (k_dev k) coal_ip_invalid ;; mret None
    else coal_transport k 6 ip_len proto (gro && negb (ip_len >? 40))
  else count (k_dev k) coal_ip_invalid ;; mret None.

(** The packets, and whether [coal_skb] itself is the only one. *)
Definition rmnet_map_segment_coal_skb (k : sk_buff) (nlo_err_mask : Z) : M (list sk_buff * bool) :=
  k ← pskb_pull MAP_HDR k;
  h ← read_coal_header (rmnet_map_data_ptr k);
  k ← pskb_pull COAL_HDR k;
  r ← coal_meta_of k;
  match r with
  | None => mret ([], false)
  | Some (m, gro, zero_csum) =>
      if rmnet_map_v5_csum_buggy h && negb zero_csum then
        k ← rmnet_map_move_headers k;
        ok ← rmnet_map_validate_csum k m;
        mret ([if (ok : bool) then set_k_summed CHECKSUM_UNNECESSARY k else k], true)
      else
      nl ← deref (head (nl_pairs h));
      if gro && (num_nlos h =? 1) && csum_valid h then
        k ← rmnet_map_move_headers k;
        let k := set_k_summed CHECKSUM_UNNECESSARY k in
        let m := set_data_len (u16 (nl_pkt_len nl - (ip_len m + trans_len m))) (set_pkt_count (num_packets nl) m) in
        k ← (if pkt_count m >? 1 then k ← rmnet_map_partial_csum m k; mret (rmnet_map_gso_stamp m k) else mret k);
        mret ([k], true)
      else
        list_ ← nlo_loop (take (Z.to_nat (num_nlos h)) (nl_pairs h)) k gro m [] 0 nlo_err_mask;
        mret (list_, false)
  end.

(** The code, and the list to deliver. *)
Definition rmnet_map_process_next_hdr_packet (k : sk_buff) (len : Z) : M (Z * list sk_buff) :=
  t ← rd (rmnet_map_data_ptr k) MAP_HDR;
  let type := header_type t in
  if type =? RMNET_MAP_HEADER_TYPE_COALESCING then
    count (k_dev k) coal_rx ;;
    '(rc, mask) ← rmnet_map_data_check_coal_header k;
    if truthy rc then mret (rc, []) else
    '(list_, same) ← rmnet_map_segment_coal_skb k mask;
    when (negb same) (emit (Freed k)) ;;
    mret (0, list_)
  else if type =? RMNET_MAP_HEADER_TYPE_CSUM_OFFLOAD then
    k ← (if negb (f_rxcsum (dev_features (k_dev k))) then count (k_dev k) csum_sw ;; mret k
         else
           b ← rd (rmnet_map_data_ptr k) (MAP_HDR + 1);
           if rmnet_map_get_csum_valid b then
             count (k_dev k) csum_ok ;; mret (set_k_summed CHECKSUM_UNNECESSARY k)
           else count (k_dev k) csum_valid_unset ;; mret k);
    k ← pskb_pull (MAP_HDR + CSUM_V5_HDR) k;
    k ← rmnet_map_move_headers k;
    mret (0, [pskb_trim len k])
  else mret (- EINVAL, []).

End coal.
