(* ===== verification/RmnetAgg.v ===== *)
(** * RmNet: aggregation of the uplink

    The aggregation of rmnet_map_data.c: packets are copied into a frame that is
    sent when it is full, when its timer has run, or before a packet that must
    not wait; and the egress handler of rmnet_handlers.c. At the end, a concrete
    kernel and port for the examples. *)

From S2P Require Import Prelude Outcome RmnetSkb RmnetMap.

(** [get_order]: the least order of pages that hold [size] bytes *)
Definition get_order_of (page size : Z) : Z := Z.log2_up ((size + page - 1) / page).

(** The port is allocated as zeroes. *)
Definition agg_zero : agg_state := mk_agg 0 0 0 0 0 0 false false false None false 0 0 [] None 0 0.

Section agg.
Context `{E : RmnetEnv}.
Implicit Types k : sk_buff.

Abbreviation M := (run net).

(** Every aggregation state is reset when its frame leaves. *)
Definition no_frame (a : agg_state) : agg_state := set_a_skb None (set_a_count 0 (set_a_start 0 a)).

(** [rmnet_map_tx_agg_skip]: whether the IP packet at [offset] is ICMP. *)
Definition rmnet_map_tx_agg_skip (offset : Z) (k : sk_buff) : M bool :=
  if k_protocol k =? ETH_P_IP then
    protocol ← rd (k_lin k) (offset + 9); mret (protocol =? IPPROTO_ICMP)
  else if k_protocol k =? ETH_P_IPV6 then
    nexthdr ← rd (k_lin k) (offset + 6);
    if nexthdr =? IPPROTO_ICMPV6 then mret true
    else if nexthdr =? NEXTHDR_FRAGMENT then
      frag ← rd (k_lin k) (offset + 40); mret (frag =? IPPROTO_ICMPV6)
    else mret false
  else mret false.

(** ** Timer and work *)

(** [rmnet_map_flush_tx_packet_queue]: the function of the timer. *)
Definition rmnet_map_flush_tx_packet_queue (ll : bool) : M unit :=
  upd_agg ll (fun a => set_a_timer false (set_a_work true a)).

(** [rmnet_map_flush_tx_packet_work]: the work item. *)
Definition rmnet_map_flush_tx_packet_work (ll : bool) : M unit :=
  upd_agg ll (set_a_work false) ;;
  agg_spin_lock ll ;;
  a ← get_agg ll;
  (if a_progress a then
     when (bool_decide (is_Some (a_skb a))) (upd_agg ll no_frame) ;;
     upd_agg ll (set_a_progress false) ;;
     match a_skb a with Some k => emit (Xmit ll k) | None => mret tt end
   else mret tt) ;;
  agg_spin_unlock ll.

(** ** Pages *)

Definition rmnet_free_agg_pages (ll : bool) : M unit :=
  upd_agg ll (fun a => set_a_list [] (set_a_head None a)).

(** The loop over the pages of [agg_list] that looks for a free one; [i] counts
    the pages passed. After the last page comes the head of the list, which the
    code takes for an entry. *)
Fixpoint recycle_loop (fuel : nat) (ll : bool) (i : Z) : M (option Z) :=
  match fuel with
  | O => mret None
  | S fuel =>
      a ← get_agg ll;
      match a_head a with
      | None => mret None
      | Some pos =>
          let next := if (length (a_list a) <=? pos)%nat then O else S pos in
          match a_list a !! pos with
          | Some page =>
              refs ← ask (fun n => page_refs n page);
              if refs =? 1 then
                upd_agg ll (fun a => set_a_head (Some next) (set_a_reuse (u64 (a_reuse a + 1)) a)) ;;
                mret (Some page)
              else
                upd_agg ll (set_a_head (Some next)) ;;
                if i + 1 <=? 5 then recycle_loop fuel ll (i + 1) else mret None
          | None =>
              refs ← ask stray_refs;
              if refs =? 1 then fault else
              upd_agg ll (set_a_head (Some next)) ;;
              if i + 1 <=? 5 then recycle_loop fuel ll (i + 1) else mret None
          end
      end
  end.

(** [rmnet_get_agg_pages]: whether there is a page. *)
Definition rmnet_get_agg_pages (ll : bool) : M bool :=
  a ← get_agg ll;
  page ← (if truthy (Z.land (a_features a) RMNET_PAGE_RECYCLE) then recycle_loop 6 ll 0 else mret None);
  match page with
  | Some _ => mret true
  | None =>
      ok ← alloc;
      upd_agg ll (fun a => set_a_alloc (u64 (a_alloc a + 1)) a) ;;
      mret ok
  end.

(** [__rmnet_alloc_agg_pages]: a page, named by the number of its allocation. *)
Definition rmnet_alloc_agg_page : M (option Z) :=
  ok ← alloc;
  if negb ok then mret None else
  n ← gets n_allocs;
  ok ← alloc;
  mret (if (ok : bool) then Some (Z.of_nat n) else None).

Definition rmnet_alloc_agg_pages (ll : bool) : M unit :=
  for_each (seq 0 (Z.to_nat RMNET_PAGE_COUNT)) (fun _ =>
    p ← rmnet_alloc_agg_page;
    match p with
    | Some p => upd_agg ll (fun a => set_a_list (a_list a ++ [p]) a)
    | None => mret tt
    end) ;;
  upd_agg ll (fun a => set_a_head (match a_list a with [] => None | _ => Some O end) a).

(** The room of a frame built on pages of order [order]. *)
Definition frame_room (order : Z) : Z := Z.shiftl page_size order - shinfo_size.

Definition rmnet_map_build_skb (ll : bool) : M (option sk_buff) :=
  page ← rmnet_get_agg_pages ll;
  if negb page then mret None else
  a ← get_agg ll;
  ok ← alloc;
  mret (if (ok : bool) then Some (new_skb 0 (frame_room (a_order a))) else None).

(** ** Sending *)

(** [rmnet_map_send_agg_skb]: called with [agg_lock], which it releases. *)
Definition rmnet_map_send_agg_skb (ll : bool) : M unit :=
  a ← get_agg ll;
  match a_skb a with
  | None => agg_spin_unlock ll
  | Some k =>
      upd_agg ll (fun a => set_a_progress false (no_frame a)) ;;
      emit (Xmit ll k) ;;
      agg_spin_unlock ll ;;
      upd_agg ll (set_a_timer false)
  end.

(** [rmnet_map_linearize_copy]: the bytes of [src] behind those of [dst]. *)
Definition rmnet_map_linearize_copy (dst src : sk_buff) : M sk_buff :=
  dst ← skb_put (k_lin src) dst;
  (fix frags (l : list (list Z)) (dst : sk_buff) : M sk_buff :=
     match l with
     | [] => mret dst
     | f :: l => dst ← skb_put f dst; frags l dst
     end) (k_frags src) dst.

(** [diff.tv_sec > 0 || diff.tv_nsec > limit] for a difference of [d] ns *)
Definition longer_than (d limit : Z) : bool := (d / 10 ^ 9 >? 0) || (d mod 10 ^ 9 >? limit).

(** [schedule:] *)
Definition agg_schedule (ll : bool) : M unit :=
  a ← get_agg ll;
  when (negb (a_progress a)) (upd_agg ll (fun a => set_a_timer true (set_a_progress true a))) ;;
  agg_spin_unlock ll.

(** A packet that is sent on its own, and the lock released. *)
Definition send_alone (ll : bool) (k : sk_buff) : M unit :=
  emit (Xmit ll (set_k_protocol ETH_P_MAP k)) ;; agg_spin_unlock ll.

(** The part of [rmnet_map_tx_aggregate] without a frame: [k] starts one, or goes
    alone. *)
Definition start_frame (ll : bool) (last : Z) (k : sk_buff) : M unit :=
  a ← get_agg ll;
  let size := a_size a - skb_len k in
  if longer_than (a_last a - last) rmnet_agg_bypass_time || (size <=? 0) then send_alone ll k else
  frame ← rmnet_map_build_skb ll;
  match frame with
  | None => upd_agg ll no_frame ;; send_alone ll k
  | Some frame =>
      frame ← rmnet_map_linearize_copy frame k;
      now ← gets n_now;
      upd_agg ll (fun a => set_a_skb (Some (set_k_dev (k_dev k) (set_k_protocol ETH_P_MAP frame)))
        (set_a_count 1 (set_a_start now a))) ;;
      emit (Freed k) ;;
      agg_schedule ll
  end.

(** One round from [new_packet:]; [true] is [goto new_packet]. *)
Definition tx_round (ll : bool) (k : sk_buff) : M bool :=
  agg_spin_lock ll ;;
  a ← get_agg ll;
  let last := a_last a in
  now ← gets n_now;
  upd_agg ll (set_a_last now) ;;
  if format RMNET_EGRESS_FORMAT_PRIORITY && (RMNET_LLM (k_priority k) || RMNET_APS_LLB (k_priority k)) then
    rmnet_map_send_agg_skb ll ;;
    emit (Xmit ll (set_k_protocol ETH_P_MAP k)) ;;
    mret false
  else
  match a_skb a with
  | None => start_frame ll last k ;; mret false
  | Some frame =>
      if (skb_len k >? k_tailroom frame) || (a_count a >=? a_max a) ||
         longer_than (now - a_start a) rmnet_agg_time_limit then
        rmnet_map_send_agg_skb ll ;; mret true
      else
        frame ← rmnet_map_linearize_copy frame k;
        upd_agg ll (fun a => set_a_skb (Some frame) (set_a_count (u8 (a_count a + 1)) a)) ;;
        emit (Freed k) ;;
        agg_schedule ll ;;
        mret false
  end.

(** The second round finds no frame, and so is the last. *)
Fixpoint tx_rounds (fuel : nat) (ll : bool) (k : sk_buff) : M unit :=
  match fuel with
  | O => block
  | S fuel => again ← tx_round ll k; if (again : bool) then tx_rounds fuel ll k else mret tt
  end.

Definition rmnet_map_tx_aggregate (ll : bool) (k : sk_buff) : M unit := tx_rounds 2 ll k.

(** ** Configuration *)

Definition rmnet_map_update_ul_agg_config (ll : bool) (size count features time : Z) : M unit :=
  agg_spin_lock ll ;;
  upd_agg ll (fun a => set_a_max count (set_a_timeout time (set_a_size size (set_a_features features a)))) ;;
  rmnet_free_agg_pages ll ;;
  (if size <? page_size then mret tt else
   let order := u8 (get_order_of page_size size) in
   let size := u16 (u16 (Z.shiftl page_size order) - shinfo_size) in
   upd_agg ll (fun a => set_a_size size (set_a_order order a)) ;;
   when (features =? RMNET_PAGE_RECYCLE) (rmnet_alloc_agg_pages ll)) ;;
  agg_spin_unlock ll.

Definition agg_init (ll : bool) : M unit :=
  rmnet_map_update_ul_agg_config ll (u16 (page_size - 1)) 20 0 3000000.

Definition rmnet_map_tx_aggregate_init : M unit := agg_init false ;; agg_init true.

Definition agg_exit (ll : bool) : M unit :=
  agg_spin_lock ll ;;
  a ← get_agg ll;
  when (a_progress a) (
    match a_skb a with
    | Some k => emit (Freed k) ;; upd_agg ll no_frame
    | None => mret tt
    end ;;
    upd_agg ll (set_a_progress false)) ;;
  rmnet_free_agg_pages ll ;;
  agg_spin_unlock ll.

Definition rmnet_map_tx_aggregate_exit : M unit :=
  upd_agg false (fun a => set_a_timer false (set_a_work false a)) ;;
  upd_agg true (fun a => set_a_timer false (set_a_work false a)) ;;
  agg_exit false ;; agg_exit true.

(** [ch]: the number of the aggregation state. *)
Definition rmnet_map_tx_qmap_cmd (k : sk_buff) (ch : Z) (flush : bool) : M unit :=
  let ll := ch =? 1 in
  when (flush && format RMNET_EGRESS_FORMAT_AGGREGATION) (
    agg_spin_lock ll ;;
    a ← get_agg ll;
    match a_skb a with
    | Some frame =>
        upd_agg ll (fun a => set_a_progress false (no_frame a)) ;;
        emit (Xmit ll frame) ;;
        agg_spin_unlock ll ;;
        upd_agg ll (set_a_timer false)
    | None => agg_spin_unlock ll
    end) ;;
  emit (XmitCmd ll k).

(** ** Egress *)

(** The end of [rmnet_map_egress_handler]: the packet is given to the aggregation,
    or is the caller's to send. *)
Definition egress_queue (ll : bool) (required_headroom : Z) (is_tso : bool) (k : sk_buff) : M (Z * sk_buff) :=
  let done := mret (0, set_k_protocol ETH_P_MAP k) in
  if format RMNET_EGRESS_FORMAT_AGGREGATION then
    a ← get_agg ll;
    skip ← (if a_max a <? 2 then mret true else rmnet_map_tx_agg_skip required_headroom k);
    if skip || is_tso then done else
    rmnet_map_tx_aggregate ll k ;;
    mret (- EINPROGRESS, k)
  else done.

(** The code, and the packet to send when it is 0. *)
Definition rmnet_map_egress_handler (k : sk_buff) (mux_id orig_dev : Z) (ll : bool) : M (Z * sk_buff) :=
  let '(additional_header_len, csum_type) :=
    if format RMNET_FLAGS_EGRESS_MAP_CKSUMV4 then (UL_CSUM_HDR, RMNET_FLAGS_EGRESS_MAP_CKSUMV4)
    else if format RMNET_PRIV_FLAGS_EGRESS_MAP_CKSUMV5 || format RMNET_EGRESS_FORMAT_PRIORITY
    then (CSUM_V5_HDR, RMNET_PRIV_FLAGS_EGRESS_MAP_CKSUMV5)
    else (0, 0) in
  let required_headroom := MAP_HDR + additional_header_len in
  ok ← (if k_headroom k <? required_headroom then alloc else mret true);
  if negb ok then mret (- ENOMEM, k) else
  let k := if k_headroom k <? required_headroom
           then set_k_headroom (k_headroom k + required_headroom) k else k in
  let is_tso := truthy csum_type && truthy (Z.land (k_gso_type k) (Z.lor SKB_GSO_UDP_L4 (Z.lor SKB_GSO_TCPV4 SKB_GSO_TCPV6)))
             && truthy (k_gso_size k) in
  '(rc, k) ← (if is_tso then
                agg_spin_lock ll ;;
                rmnet_map_send_agg_skb ll ;;
                rmnet_map_add_tso_header orig_dev k
              else mret (0, k));
  if truthy rc then mret (- EINVAL, k) else
  k ← (if truthy csum_type && negb is_tso then rmnet_map_checksum_uplink_packet orig_dev csum_type k else mret k);
  r ← rmnet_map_add_map_header additional_header_len false k;
  match r with
  | None => mret (- ENOMEM, k)
  | Some k =>
      l ← wr (k_lin k) 1 [mux_id];
      let k := set_k_lin l k in
      egress_queue ll required_headroom is_tso k
  end.

(** [rmnet_egress_handler], for a device with a port: [real_dev] and [mux_id] are
    those of the device of the packet. [sent]: what [rmnet_ll_send_skb] answers. *)
Definition rmnet_egress_handler (k : sk_buff) (real_dev mux_id : Z) (low_latency sent : bool) : M unit :=
  let orig_dev := k_dev k in
  '(err, k) ← rmnet_map_egress_handler (set_k_dev real_dev k) mux_id orig_dev low_latency;
  if (err =? - ENOMEM) || (err =? - EINVAL) then count orig_dev tx_drops ;; emit (Freed k)
  else if err =? - EINPROGRESS then mret tt
  else
    emit (Xmit low_latency k) ;;
    when (low_latency && negb sent) (count orig_dev tx_drops).

End agg.

(** * RmNet: a port for the examples

    A kernel with pages of 4096 bytes whose allocations succeed, and a port in the
    format of v5 headers with aggregation in both directions. *)

Definition demo_format : Z :=
  Z.lor RMNET_FLAGS_INGRESS_DEAGGREGATION (Z.lor RMNET_PRIV_FLAGS_INGRESS_MAP_CKSUMV5
    (Z.lor RMNET_PRIV_FLAGS_EGRESS_MAP_CKSUMV5 RMNET_EGRESS_FORMAT_AGGREGATION)).

(** [ok]: which allocations succeed; [refs], [stray]: the counts of references of
    pages and of what is behind their list. *)
Definition demo_kernel_with (ok : nat -> bool) (refs stray : Z) : RmnetEnv := {|
  alloc_ok := ok;
  page_size := 4096;
  shinfo_size := 320;
  data_format := demo_format;
  endpoint mux := if mux =? 1 then Some 7 else None;
  dev_features _ := mk_features true false true false;
  ip_fast_csum _ := 0;
  ip_compute_csum _ := 0;
  csum_tcpudp_magic _ _ _ _ := 0;
  csum_ipv6_magic _ _ _ _ := 0;
  csum_bytes _ _ := 0;
  ipv6_skip_exthdr _ off next := (off, next, 0);
  vnd_flow_control _ _ := 0;
  page_refs _ _ := refs;
  stray_refs _ := stray;
  stray_prio := 0
|}.

#[export] Instance demo_kernel : RmnetEnv := demo_kernel_with (fun _ => true) 1 0.

Definition demo_net : net :=
  mk_net 0 0 (fun _ _ => 0) agg_zero agg_zero (mk_marks 0 0 0 0 0 0 0 0 0 0 0 0 0 0) [] [] [].

(** A UDP packet without data. *)
Definition demo_packet (x : Z) : list Z :=
  [69; 0; 0; 28; 0; x; 0; 0; 64; 17; 0; 0; 10; 0; 0; 1; 10; 0; 0; 2; 0; 53; 0; 53; 0; 8; 0; 0].

Definition demo_skb (l : list Z) : sk_buff := set_k_protocol ETH_P_IP (set_k_lin l (new_skb 32 100)).
