(* ===== verification/RmnetRx.v ===== *)
(** * RmNet: commands and the ingress handler

    The MAP commands of rmnet_map_command.c, with the lists of those who listen
    to the markers of the downlink, and the ingress handlers of
    rmnet_handlers.c. *)

From S2P Require Import Prelude Outcome RmnetSkb RmnetMap RmnetCoal.

Definition RMNET_MAP_COMMAND_FLOW_DISABLE : Z := 1.
Definition RMNET_MAP_COMMAND_FLOW_ENABLE : Z := 2.
Definition RMNET_MAP_COMMAND_FLOW_START : Z := 7.
Definition RMNET_MAP_COMMAND_FLOW_END : Z := 8.
Definition RMNET_MAP_COMMAND_PB_BYTES : Z := 35.
Definition RMNET_MAP_COMMAND_REQUEST : Z := 0.
Definition RMNET_MAP_COMMAND_ACK : Z := 1.
Definition RMNET_MAP_COMMAND_UNSUPPORTED : Z := 2.

(** [struct rmnet_map_control_command_header] *)
Definition CMD_HDR : Z := 8.
Definition RMNET_DL_IND_HDR_SIZE : Z := 16 + MAP_HDR + CMD_HDR.
Definition RMNET_DL_IND_TRL_SIZE : Z := 4 + MAP_HDR + CMD_HDR.
Definition RMNET_PB_IND_HDR_SIZE : Z := 16 + MAP_HDR + CMD_HDR.

(** [RX_HANDLER_CONSUMED] *)
Definition RX_HANDLER_CONSUMED : Z := 0.

(** ** The lists of listeners *)

(** The loop of [rmnet_map_dl_ind_register]: the list with [ind] in it, or [None]
    when the loop ends without a place for it. Behind the last entry it reads the
    priority through the head of the list. *)
Fixpoint ind_insert (stray : Z) (ind : marker_ind) (l : list marker_ind) : option (list marker_ind) :=
  match l with
  | [] => None
  | it :: l =>
      if ind_priority it <? ind_priority ind then
        let next := match l with x :: _ => ind_priority x | [] => stray end in
        if ind_priority ind <? next then Some (it :: ind :: l)
        else cons it <$> ind_insert stray ind l
      else Some (ind :: it :: l)
  end.

Definition ind_register (stray : Z) (ind : marker_ind) (l : list marker_ind) : list marker_ind :=
  match l with
  | [] => [ind]
  | _ => default l (ind_insert stray ind l)
  end.

(** The loop of [rmnet_map_dl_ind_deregister]: the first entry at the address. *)
Fixpoint ind_remove (addr : Z) (l : list marker_ind) : list marker_ind :=
  match l with
  | [] => []
  | it :: l => if ind_addr it =? addr then l else it :: ind_remove addr l
  end.

Section rx.
Context `{E : RmnetEnv}.
Implicit Types k : sk_buff.

Abbreviation M := (run net).

(** [handlers]: both functions are set. *)
Definition rmnet_map_dl_ind_register (ind : marker_ind) (handlers : bool) : M Z :=
  if negb handlers then mret (- EINVAL) else
  modify (fun n => set_n_dl (ind_register stray_prio ind (n_dl n)) n) ;; mret 0.

Definition rmnet_map_dl_ind_deregister (addr : Z) : M Z :=
  modify (fun n => set_n_dl (ind_remove addr (n_dl n)) n) ;; mret 0.

Definition rmnet_map_pb_ind_register (ind : marker_ind) (handler : bool) : M Z :=
  if negb handler then mret (- EINVAL) else
  modify (fun n => set_n_pb (ind_register stray_prio ind (n_pb n)) n) ;; mret 0.

Definition rmnet_map_pb_ind_deregister (addr : Z) : M Z :=
  modify (fun n => set_n_pb (ind_remove addr (n_pb n)) n) ;; mret 0.

Definition rmnet_map_cmd_init : M unit := modify (fun n => set_n_dl [] (set_n_pb [] n)).
Definition rmnet_map_cmd_exit : M unit := modify (fun n => set_n_dl [] (set_n_pb [] n)).

Definition upd_marks (f : marker_stats -> marker_stats) : M unit :=
  modify (fun n => set_n_marks (f (n_marks n)) n).

Definition rmnet_map_dl_hdr_notify_v2 (bytes : list Z) : M unit :=
  l ← gets n_dl; for_each l (fun i => emit (DlHeader (ind_addr i) bytes)).
Definition rmnet_map_dl_trl_notify_v2 (bytes : list Z) : M unit :=
  l ← gets n_dl; for_each l (fun i => emit (DlTrailer (ind_addr i) bytes)).

Definition set_pb_seq (v : Z) (m : marker_stats) : marker_stats :=
  mk_marks (dl_hdr_last_qmap_vers m) (dl_hdr_last_ep_id m) (dl_hdr_last_trans_id m) (dl_hdr_last_seq m)
    (dl_hdr_last_bytes m) (dl_hdr_last_pkts m) (dl_hdr_last_flows m) (dl_hdr_count m) (dl_hdr_total_bytes m)
    (dl_hdr_total_pkts m) (dl_trl_last_seq m) (dl_trl_count m) (pb_marker_count m) v.
Definition set_pb_count (v : Z) (m : marker_stats) : marker_stats :=
  mk_marks (dl_hdr_last_qmap_vers m) (dl_hdr_last_ep_id m) (dl_hdr_last_trans_id m) (dl_hdr_last_seq m)
    (dl_hdr_last_bytes m) (dl_hdr_last_pkts m) (dl_hdr_last_flows m) (dl_hdr_count m) (dl_hdr_total_bytes m)
    (dl_hdr_total_pkts m) (dl_trl_last_seq m) (dl_trl_count m) v (pb_marker_seq m).
Definition set_trl (seq count : Z) (m : marker_stats) : marker_stats :=
  mk_marks (dl_hdr_last_qmap_vers m) (dl_hdr_last_ep_id m) (dl_hdr_last_trans_id m) (dl_hdr_last_seq m)
    (dl_hdr_last_bytes m) (dl_hdr_last_pkts m) (dl_hdr_last_flows m) (dl_hdr_count m) (dl_hdr_total_bytes m)
    (dl_hdr_total_pkts m) seq count (pb_marker_count m) (pb_marker_seq m).
Definition set_cmd (vers ep trans : Z) (m : marker_stats) : marker_stats :=
  mk_marks vers ep trans (dl_hdr_last_seq m)
    (dl_hdr_last_bytes m) (dl_hdr_last_pkts m) (dl_hdr_last_flows m) (dl_hdr_count m) (dl_hdr_total_bytes m)
    (dl_hdr_total_pkts m) (dl_trl_last_seq m) (dl_trl_count m) (pb_marker_count m) (pb_marker_seq m).
Definition add_hdr (seq bytes pkts flows : Z) (m : marker_stats) : marker_stats :=
  mk_marks (dl_hdr_last_qmap_vers m) (dl_hdr_last_ep_id m) (dl_hdr_last_trans_id m) seq bytes pkts flows
    (u64 (dl_hdr_count m + 1)) (u64 (dl_hdr_total_bytes m + bytes)) (u64 (dl_hdr_total_pkts m + pkts))
    (dl_trl_last_seq m) (dl_trl_count m) (pb_marker_count m) (pb_marker_seq m).

Definition rmnet_map_pb_ind_notify (bytes : list Z) : M unit :=
  l ← gets n_pb;
  for_each l (fun i => seq ← rd32_raw bytes 0; upd_marks (set_pb_seq seq) ;; emit (PbInd (ind_addr i) bytes)).

Definition dl_mark_v2 : bool := format RMNET_INGRESS_FORMAT_DL_MARKER_V2.

(** The end of the three functions below, for the rmnet_perf module. *)
Definition perf_pull (perf : bool) (size : Z) (k : sk_buff) : M sk_buff :=
  if perf then pskb_pull (size + (if format RMNET_FLAGS_INGRESS_MAP_CKSUMV4 then DL_CSUM_TRAILER else 0)) k
  else mret k.

Definition rmnet_map_process_pb_ind (k : sk_buff) (perf : bool) : M sk_buff :=
  if skb_len k <? RMNET_PB_IND_HDR_SIZE then mret k else
  k ← (if dl_mark_v2 then pskb_pull (MAP_HDR + CMD_HDR) k else mret k);
  upd_marks (fun m => set_pb_count (u64 (pb_marker_count m + 1)) m) ;;
  when dl_mark_v2 (rmnet_map_pb_ind_notify (rmnet_map_data_ptr k)) ;;
  perf_pull perf 16 k.

Definition rmnet_map_process_flow_start (k : sk_buff) (perf : bool) : M sk_buff :=
  if skb_len k <? RMNET_DL_IND_HDR_SIZE then mret k else
  k ← (if dl_mark_v2 then
         k ← pskb_pull MAP_HDR k;
         let qcmd := rmnet_map_data_ptr k in
         b ← rd qcmd 1;
         source ← rd16_raw qcmd 2;
         trans ← rd32_raw qcmd 4;
         upd_marks (set_cmd (Z.land (Z.shiftr b 2) 31) (Z.land source 32767) trans) ;;
         pskb_pull CMD_HDR k
       else mret k);
  let dlhdr := rmnet_map_data_ptr k in
  seq ← rd32_raw dlhdr 0; bytes ← rd32_raw dlhdr 4; pkts ← rd32_raw dlhdr 8; flows ← rd32_raw dlhdr 12;
  upd_marks (add_hdr seq bytes pkts flows) ;;
  when dl_mark_v2 (rmnet_map_dl_hdr_notify_v2 dlhdr) ;;
  perf_pull perf 16 k.

Definition rmnet_map_process_flow_end (k : sk_buff) (perf : bool) : M sk_buff :=
  if skb_len k <? RMNET_DL_IND_TRL_SIZE then mret k else
  k ← (if dl_mark_v2 then k ← pskb_pull MAP_HDR k; pskb_pull CMD_HDR k else mret k);
  let dltrl := rmnet_map_data_ptr k in
  seq ← rd32_raw dltrl 0;
  upd_marks (fun m => set_trl seq (u64 (dl_trl_count m + 1)) m) ;;
  when dl_mark_v2 (rmnet_map_dl_trl_notify_v2 dltrl) ;;
  perf_pull perf 4 k.

(** The code; with [perf] the packet is the caller's. *)
Definition rmnet_map_flow_command (k : sk_buff) (perf : bool) : M Z :=
  name ← rd (rmnet_map_data_ptr k) MAP_HDR;
  let consume k := when (negb perf) (emit (Freed k)) in
  if (k_priority k =? LL_PRIORITY) &&
     ((name =? RMNET_MAP_COMMAND_FLOW_START) || (name =? RMNET_MAP_COMMAND_FLOW_END)) then
    consume k ;; mret 0
  else if name =? RMNET_MAP_COMMAND_FLOW_START then
    k ← rmnet_map_process_flow_start k perf; consume k ;; mret 0
  else if name =? RMNET_MAP_COMMAND_FLOW_END then
    k ← rmnet_map_process_flow_end k perf; consume k ;; mret 0
  else if name =? RMNET_MAP_COMMAND_PB_BYTES then
    k ← rmnet_map_process_pb_ind k perf; consume k ;; mret 0
  else mret 1.

(** [enable]: the command. *)
Definition rmnet_map_do_flow_control (k : sk_buff) (enable : bool) : M Z :=
  mux_id ← rd (rmnet_map_data_ptr k) 1;
  let free rc := emit (Freed k) ;; mret rc in
  if mux_id >=? RMNET_MAX_LOGICAL_EP then free RX_HANDLER_CONSUMED else
  match endpoint mux_id with
  | None => free RX_HANDLER_CONSUMED
  | Some vnd =>
      emit (FlowControl vnd enable) ;;
      if truthy (vnd_flow_control vnd enable) then free RMNET_MAP_COMMAND_UNSUPPORTED
      else mret RMNET_MAP_COMMAND_ACK
  end.

(** A byte of the packet is changed in place. *)
Definition wr_data (i v : Z) (k : sk_buff) : M sk_buff :=
  l ← wr (rmnet_map_data_ptr k) i [v];
  mret (if skb_is_nonlinear k && (skb_len k =? skb_data_len k) then set_k_frags (l :: tail (k_frags k)) k
        else set_k_lin l k).

Definition rmnet_map_send_ack (k : sk_buff) (type : Z) : M unit :=
  let k := if format RMNET_FLAGS_INGRESS_MAP_CKSUMV4 then pskb_trim (u32 (skb_len k - DL_CSUM_TRAILER)) k else k in
  let k := set_k_protocol ETH_P_MAP k in
  b ← rd (rmnet_map_data_ptr k) (MAP_HDR + 1);
  k ← wr_data (MAP_HDR + 1) (Z.lor (Z.land b (Z.lnot 3)) (Z.land type 3)) k;
  emit (Ack k).

Definition rmnet_map_command (k : sk_buff) : M unit :=
  name ← rd (rmnet_map_data_ptr k) MAP_HDR;
  rc ← (if name =? RMNET_MAP_COMMAND_FLOW_ENABLE then rmnet_map_do_flow_control k true
        else if name =? RMNET_MAP_COMMAND_FLOW_DISABLE then rmnet_map_do_flow_control k false
        else emit (Freed k) ;; mret RMNET_MAP_COMMAND_UNSUPPORTED);
  when (rc =? RMNET_MAP_COMMAND_ACK) (rmnet_map_send_ack k rc).

(** ** Ingress *)

Definition rmnet_set_skb_proto (k : sk_buff) : M sk_buff :=
  b ← rd (rmnet_map_data_ptr k) 0;
  mret (set_k_protocol
    (if Z.land b 240 =? 64 then ETH_P_IP else if Z.land b 240 =? 96 then ETH_P_IPV6 else ETH_P_MAP) k).

(** [rmnet_deliver_skb], without the modules that balance the load. *)
Definition rmnet_deliver_skb (k : sk_buff) : M unit := emit (Deliver k).

Definition rmnet_deliver_skb_list (l : list sk_buff) : M unit :=
  for_each l (fun k => k ← rmnet_set_skb_proto k; rmnet_deliver_skb k).

(** [__rmnet_map_ingress_handler] *)
Definition map_ingress_one (k : sk_buff) : M unit :=
  let data := rmnet_map_data_ptr k in
  b ← rd data 0;
  if h_cd_bit b then
    done ← (if format RMNET_INGRESS_FORMAT_DL_MARKER then
              rc ← rmnet_map_flow_command k false; mret (rc =? 0)
            else mret false);
    if (done : bool) then mret tt
    else if format RMNET_FLAGS_INGRESS_MAP_COMMANDS then rmnet_map_command k
    else emit (Freed k)
  else
  mux_id ← rd data 1;
  pkt_len ← rd16 data 2;
  let pad := h_pad_len b in
  let len := u16 (pkt_len - pad) in
  if mux_id >=? RMNET_MAX_LOGICAL_EP then emit (Freed k) else
  match endpoint mux_id with
  | None => emit (Freed k)
  | Some dev =>
      let k := set_k_dev dev k in
      if h_next_hdr b && (format RMNET_FLAGS_INGRESS_COALESCE || format RMNET_PRIV_FLAGS_INGRESS_MAP_CKSUMV5) then
        '(rc, list_) ← rmnet_map_process_next_hdr_packet k len;
        if truthy rc then emit (Freed k) else rmnet_deliver_skb_list list_
      else
        k ← pskb_pull MAP_HDR k;
        k ← rmnet_set_skb_proto k;
        k ← (if format RMNET_FLAGS_INGRESS_MAP_CKSUMV4 then
               rc ← rmnet_map_checksum_downlink_packet k (u16 (len + pad));
               mret (if rc =? 0 then set_k_summed CHECKSUM_UNNECESSARY k else k)
             else mret k);
        rmnet_deliver_skb_list [pskb_trim len k]
  end.

(** The loop of [rmnet_map_ingress_handler] over one buffer: each packet goes to
    [body]; the buffer is freed unless it was the packet itself. *)
Fixpoint deaggregate_loop (fuel : nat) (body : sk_buff -> M unit) (k : sk_buff) : M unit :=
  match fuel with
  | O => block
  | S fuel =>
      r ← rmnet_map_deaggregate k;
      match r with
      | NoPacket => emit (Freed k)
      | SamePacket => body k
      | NewPacket skbn rest => body skbn ;; deaggregate_loop fuel body rest
      end
  end.

(** More rounds than a linear buffer has packets. *)
Definition deaggregate_fuel (k : sk_buff) : nat := S (Z.to_nat (skb_len k)).

(** [rmnet_map_ingress_handler], on a device that is not Ethernet and without the
    rmnet_perf module. [chain]: the buffer and those of its fragment list, each
    the [frag_list] of the one before. *)
Definition rmnet_map_ingress_handler (chain : list sk_buff) : M unit :=
  match chain with
  | [] => mret tt
  | k :: _ =>
      if (format RMNET_FLAGS_INGRESS_COALESCE || format RMNET_PRIV_FLAGS_INGRESS_MAP_CKSUMV5) && skb_is_nonlinear k then
        emit (Fragments k)
      else if negb (format RMNET_FLAGS_INGRESS_DEAGGREGATION) then map_ingress_one k
      else for_each chain (fun k => deaggregate_loop (deaggregate_fuel k) map_ingress_one k)
  end.

End rx.
