(* ===== verification/RmnetSplit.v ===== *)
(** * RmNet: what is put together is taken apart

    The split of linear buffers: a buffer of whole packets gives exactly those
    packets, in order; any other one gives the packets at its start and then
    stops. *)

From S2P Require Import Prelude Outcome RmnetSkb RmnetMap RmnetCoal RmnetAgg RmnetRx.

Section split.
Context `{E : RmnetEnv}.
Implicit Types k : sk_buff.

(** ** The format of the link

    What the bytes of a packet are, in the words of the protocol and not of the
    code: four bytes of MAP header, the payload, and eight bytes of trailer with v4
    checksums or four of checksum header with v5 ones, which a command has not. *)

Definition v4_format : bool := Z.testbit data_format 2.
Definition v5_format : bool := Z.testbit data_format 5.

(** A packet whose first byte is [b] has a v5 header behind its MAP header. *)
Definition csum_follows (b : Z) : bool := negb v4_format && v5_format && negb (Z.testbit b 7).

Definition frame_length (b len : Z) : Z :=
  4 + len + (if v4_format then 8 else if csum_follows b then 4 else 0).

Lemma format_bits : format RMNET_FLAGS_INGRESS_MAP_CKSUMV4 = v4_format /\
  format RMNET_PRIV_FLAGS_INGRESS_MAP_CKSUMV5 = v5_format.
Proof. unfold format. split; by apply land_BIT_testbit. Qed.

Lemma packet_len_length b len : packet_len_of b len = frame_length b len.
Proof.
  destruct format_bits as [H4 H5]. unfold packet_len_of, frame_length, csum_follows, h_cd_bit. rewrite H4, H5.
  unfold MAP_HDR, DL_CSUM_TRAILER, CSUM_V5_HDR. destruct v4_format; cbn [negb andb]; [lia|]. case_match; lia.
Qed.

Lemma next_hdr_follows b : has_next_hdr b = csum_follows b.
Proof. destruct format_bits as [H4 H5]. unfold has_next_hdr, csum_follows, h_cd_bit. by rewrite H4, H5. Qed.

(** The bytes of one packet in the format of the port: its MAP header gives its
    length, and it is not a coalesced frame. *)
Definition framed (l : list Z) : bool :=
  match l with
  | b :: _ :: c :: d :: rest =>
      let len := c * 256 + d in
      (zlen l =? frame_length b len) && negb (len =? 0) &&
      (negb (csum_follows b) ||
       match rest with t :: _ => negb (Z.div2 t =? 1) | [] => false end)
  | _ => false
  end.

Definition is_byte (x : Z) : Prop := 0 <= x < 256.

Definition linear (k : sk_buff) : Prop := k_frags k = [].

(** The packet that the split makes of the bytes [p]. *)
Definition piece (prio : Z) (p : list Z) : sk_buff :=
  set_k_lin p (set_k_priority prio (new_skb RMNET_MAP_DEAGGR_HEADROOM RMNET_MAP_DEAGGR_HEADROOM)).

Lemma linear_facts k : linear k ->
  skb_is_nonlinear k = false /\ rmnet_map_data_ptr k = k_lin k /\ skb_len k = zlen (k_lin k).
Proof.
  unfold linear, rmnet_map_data_ptr, skb_is_nonlinear, skb_len, skb_data_len. intros ->.
  change (zlen (concat [])) with 0. cbn [truthy Z.eqb negb andb]. split_and!; [done|done|lia].
Qed.

Lemma zlen_app {A} (l1 l2 : list A) : zlen (l1 ++ l2) = zlen l1 + zlen l2.
Proof. unfold zlen. rewrite length_app. lia. Qed.

Lemma rd_ok (l : list Z) (i : nat) x (n : net) : l !! i = Some x -> rd l (Z.of_nat i) n = Ret x n.
Proof. intros H. unfold rd. by rewrite Nat2Z.id, H. Qed.

Lemma slice_front (p rest : list Z) m (n : net) : m = zlen p -> slice (p ++ rest) 0 m n = Ret p n.
Proof.
  intros ->. unfold slice. rewrite (proj2 (Z.ltb_ge _ _)).
  - unfold zlen. by rewrite drop_0, Nat2Z.id, take_app_length.
  - rewrite zlen_app. unfold zlen. lia.
Qed.

(** What a linear buffer is after its first [n] bytes are pulled. *)
Lemma pull_linear k n m :
  linear k -> 0 <= n <= zlen (k_lin k) -> pskb_pull n k m = Ret (pulled n k) m /\ linear (pulled n k).
Proof.
  intros Hl Hn. destruct (linear_facts k Hl) as (_ & _ & Hlen). unfold pskb_pull. rewrite Hlen.
  rewrite (proj2 (Z.ltb_ge (zlen (k_lin k)) n)) by lia. split; [done|]. unfold linear in *. simpl. by rewrite Hl.
Qed.

(** The headers of a buffer that starts with the bytes [b], [x], [c] and [d]. *)
Lemma deaggregate_head k b x c d rest n :
  linear k -> k_lin k = b :: x :: c :: d :: rest ->
  let len := c * 256 + d in
  rmnet_map_deaggregate k n =
    (if zlen (k_lin k) - frame_length b len <? 0 then mret NoPacket else
     if len =? 0 then mret NoPacket else
     coal ← (if csum_follows b then t ← rd (k_lin k) MAP_HDR; mret (Z.div2 t =? 1)
             else mret false);
     if (coal : bool) then mret SamePacket else
     ok ← alloc;
     if negb ok then mret NoPacket else
     skbn ← (bytes ← slice (k_lin k) 0 (frame_length b len);
             skb_put bytes (new_skb RMNET_MAP_DEAGGR_HEADROOM
               (frame_length b len + RMNET_MAP_DEAGGR_SPACING - RMNET_MAP_DEAGGR_HEADROOM)));
     rest ← pskb_pull (frame_length b len) k;
     mret (NewPacket (set_k_priority (k_priority k) skbn) rest)) n.
Proof.
  intros Hl Hk len. destruct (linear_facts k Hl) as (H1 & H2 & H3). unfold rmnet_map_deaggregate.
  rewrite H1, H2, H3. rewrite (proj2 (Z.eqb_neq (zlen (k_lin k)) 0)) by (rewrite Hk; unfold zlen; simpl length; lia).
  assert (R : forall i y, k_lin k !! i = Some y -> rd (k_lin k) (Z.of_nat i) n = Ret y n) by (intros; by apply rd_ok).
  rewrite (bind_ret _ _ n b n) by (apply (R 0%nat); by rewrite Hk).
  rewrite (bind_ret (rd16 _ _) _ n len n); [by rewrite packet_len_length, next_hdr_follows|].
  unfold rd16.
  rewrite (bind_ret _ _ n c n) by (apply (R 2%nat); by rewrite Hk).
  by rewrite (bind_ret _ _ n d n) by (apply (R 3%nat); by rewrite Hk).
Qed.

Lemma deaggregate_framed k p rest n :
  linear k -> framed p = true -> k_lin k = p ++ rest ->
  rmnet_map_deaggregate k n =
    (ok ← alloc; mret (if (ok : bool) then NewPacket (piece (k_priority k) p) (pulled (zlen p) k) else NoPacket)) n.
Proof.
  intros Hl Hf Hk. destruct p as [|b [|x [|c [|d p]]]]; try done.
  cbn [framed] in Hf. apply andb_true_iff in Hf as [Hf Hc]. apply andb_true_iff in Hf as [Hlen Hz].
  zbool. set (q := b :: x :: c :: d :: p) in *. set (len := c * 256 + d) in *.
  rewrite (deaggregate_head k b x c d (p ++ rest) n Hl) by (by rewrite Hk). fold len. cbn zeta.
  assert (Hzl : zlen (k_lin k) = zlen q + zlen rest) by by rewrite Hk, zlen_app.
  rewrite (proj2 (Z.ltb_ge _ _)) by (rewrite Hzl, Hlen; unfold zlen; lia).
  rewrite (proj2 (Z.eqb_neq _ _) Hz).
  rewrite (bind_ret _ _ n false n).
  2: { destruct (csum_follows b); [|done]. cbn [negb orb] in Hc. destruct p as [|t p]; [done|].
       rewrite (bind_ret _ _ n t n) by (apply (rd_ok _ 4%nat); by rewrite Hk).
       apply negb_true_iff in Hc. by rewrite Hc. }
  set (n' := set_n_allocs (S (n_allocs n)) n). rewrite !(bind_ret alloc _ n (alloc_ok (n_allocs n)) n') by done.
  destruct (alloc_ok (n_allocs n)); cbn [negb]; [|done]. rewrite (bind_ret _ _ n' (set_k_lin q (new_skb RMNET_MAP_DEAGGR_HEADROOM RMNET_MAP_DEAGGR_HEADROOM)) n').
  - rewrite <- Hlen. destruct (pull_linear k (zlen q) n' Hl) as [Hpull _]; [rewrite Hzl; unfold zlen; lia|].
    by rewrite (bind_ret _ _ _ _ _ Hpull).
  - rewrite (bind_ret _ _ n' q n') by (rewrite Hk; apply slice_front; by rewrite Hlen).
    unfold skb_put, new_skb, set_k_lin, set_k_tailroom. cbn. change RMNET_MAP_DEAGGR_SPACING with 64.
    change RMNET_MAP_DEAGGR_HEADROOM with 32. rewrite <- Hlen, (proj2 (Z.ltb_ge _ _)) by lia.
    unfold mret, run_ret. do 2 f_equal. lia.
Qed.

Lemma pulled_rest k p rest : linear k -> k_lin k = p ++ rest ->
  linear (pulled (zlen p) k) /\ k_lin (pulled (zlen p) k) = rest /\ k_priority (pulled (zlen p) k) = k_priority k.
Proof.
  unfold linear. intros Hl Hk. simpl. rewrite Hl, Hk. unfold zlen. rewrite Nat2Z.id, drop_app_length. done.
Qed.

Lemma framed_length p : framed p = true -> (4 <= length p)%nat.
Proof. destruct p as [|b [|x [|c [|d p]]]]; try done. intros _. simpl. lia. Qed.

(** The bytes start with a whole coalesced frame. *)
Definition coalesced (l : list Z) : bool :=
  match l with
  | b :: _ :: c :: d :: t :: _ =>
      let len := c * 256 + d in
      csum_follows b && (Z.div2 t =? 1) && (frame_length b len <=? zlen l) &&
      negb (len =? 0)
  | _ => false
  end.

(** What the split gives for bytes that no framed packet starts: the buffer
    itself, nothing, or the access to a header that is not there. *)
Definition at_end (l : list Z) : option deaggregated :=
  if (0 <? zlen l) && (zlen l <? 4) then None else Some (if coalesced l then SamePacket else NoPacket).

Definition no_packet (l : list Z) : Prop := forall k n, linear k -> k_lin k = l ->
  rmnet_map_deaggregate k n = match at_end l with Some r => Ret r n | None => Fault end.

(** No framed packet is at the start of the bytes. *)
Definition unframed (l : list Z) : Prop := forall p rest, framed p = true -> l <> p ++ rest.

Lemma framed_prefix b x c d l p rest : framed p = true -> b :: x :: c :: d :: l = p ++ rest ->
  frame_length b (c * 256 + d) <= zlen (b :: x :: c :: d :: l) /\ c * 256 + d <> 0 /\
  (csum_follows b = true -> exists t l', l = t :: l' /\ Z.div2 t <> 1).
Proof.
  intros Hf Hl. destruct p as [|b' [|x' [|c' [|d' p]]]]; try done. cbn [app] in Hl. injection Hl as <- <- <- <- ->.
  cbn [framed] in Hf. apply andb_true_iff in Hf as [Hf Hc]. apply andb_true_iff in Hf as [Hlen Hz]. zbool.
  split_and!; [rewrite <- Hlen; unfold zlen; cbn [length]; rewrite length_app; lia|done|].
  intros Hn. rewrite Hn in Hc. cbn [negb orb] in Hc. destruct p as [|t p]; [done|]. exists t, (p ++ rest). by zbool.
Qed.

(** The end of the loop. *)
Definition loop_end (body : sk_buff -> run net unit) (k : sk_buff) : run net unit :=
  match at_end (k_lin k) with
  | Some SamePacket => body k
  | Some _ => emit (Freed k)
  | None => fault
  end.

Lemma unframed_short l : zlen l < 4 -> unframed l.
Proof.
  intros Hs p rest Hf ->. unfold zlen in Hs. rewrite length_app in Hs.
  destruct p as [|b [|x [|c [|d p]]]]; try done. cbn in Hs. lia.
Qed.

Lemma no_packet_short l : zlen l < 4 -> no_packet l.
Proof.
  intros Hs k n Hl Hk. destruct (linear_facts k Hl) as (_ & H2 & H3). unfold rmnet_map_deaggregate. rewrite H2, H3, Hk.
  destruct l as [|b [|x [|c [|d l]]]]; [done..|]. unfold zlen in Hs. cbn [length] in Hs. lia.
Qed.

(** The headers of [b], [x], [c], [d] do not frame the bytes behind them. *)
Lemma no_packet_head b x c d l : let all := b :: x :: c :: d :: l in let len := c * 256 + d in
  zlen all < frame_length b len \/ len = 0 -> no_packet all.
Proof.
  intros all len Hno k n Hl Hk. rewrite (deaggregate_head k b x c d l n Hl Hk). fold len. cbn zeta. rewrite Hk.
  assert (He : at_end all = Some NoPacket).
  { unfold at_end. rewrite (proj2 (Z.ltb_ge (zlen all) 4)), andb_false_r by (unfold all, zlen; cbn; lia).
    replace (coalesced all) with false; [done|]. symmetry. destruct l as [|t l]; [done|]. unfold coalesced, all. fold len.
    destruct Hno as [Hno|Hno]; [|by rewrite Hno, andb_false_r]. fold all.
    by rewrite (proj2 (Z.leb_gt _ _) Hno), andb_false_r. }
  rewrite He. case_if; [done|]. rewrite (proj2 (Z.eqb_eq _ _)); [done|]. destruct Hno; [lia|done].
Qed.

Lemma no_packet_coal b x c d t l : let all := b :: x :: c :: d :: t :: l in let len := c * 256 + d in
  frame_length b len <= zlen all -> len <> 0 -> csum_follows b = true ->
  Z.div2 t = 1 -> no_packet all.
Proof.
  intros all len Hp Hz Hn Ht k n Hl Hk. rewrite (deaggregate_head k b x c d (t :: l) n Hl Hk). fold len. cbn zeta. rewrite Hk.
  rewrite (proj2 (Z.ltb_ge _ _)), (proj2 (Z.eqb_neq _ _) Hz), Hn by (unfold all in *; lia). unfold at_end.
  rewrite (proj2 (Z.ltb_ge (zlen all) 4)), andb_false_r by (unfold all, zlen; cbn; lia).
  replace (coalesced all) with true.
  - rewrite (bind_ret _ _ n true n); [done|]. rewrite (bind_ret _ _ n t n); [by rewrite Ht|by apply (rd_ok _ 4%nat)].
  - unfold coalesced, all. fold len. fold all. by rewrite Hn, Ht, Z.eqb_refl, (proj2 (Z.leb_le _ _) Hp), (proj2 (Z.eqb_neq _ _) Hz).
Qed.

(** Bytes start with a framed packet, or with none. *)
Lemma deaggregate_cases l : Forall is_byte l ->
  (exists p rest, framed p = true /\ l = p ++ rest) \/ no_packet l /\ unframed l.
Proof.
  intros Hb. destruct l as [|b [|x [|c [|d l]]]]; [right; split; [by apply no_packet_short|by apply unframed_short]..|].
  set (all := b :: x :: c :: d :: l). set (len := c * 256 + d). set (pl := frame_length b len).
  assert (Hlen : 0 <= len). { repeat (apply Forall_cons in Hb as [? Hb]). unfold is_byte in *. lia. }
  assert (Hpl : 4 <= pl). { unfold pl, frame_length, MAP_HDR, DL_CSUM_TRAILER, CSUM_V5_HDR. repeat case_match; lia. }
  destruct (decide (zlen all < pl \/ len = 0)) as [Hno|Hyes].
  { right. split; [by apply no_packet_head|]. intros p rest Hf Hl. apply framed_prefix in Hl as (? & ? & _); [|done].
    fold len in H, H0. fold all in H. destruct Hno; [lia|done]. }
  assert (Hz : len <> 0) by tauto. assert (Hs : pl <= zlen all) by lia. clear Hyes.
  set (q := b :: x :: c :: d :: take (Z.to_nat pl - 4) l).
  assert (Hq : all = q ++ drop (Z.to_nat pl - 4) l) by (unfold q, all; cbn; by rewrite take_drop).
  assert (Hzq : zlen q = pl). { unfold q, all, zlen in *. cbn [length] in *. rewrite length_take. lia. }
  assert (Hf : forall v, negb (csum_follows b) || match take (Z.to_nat pl - 4) l with
      t :: _ => negb (Z.div2 t =? 1) | [] => false end = v -> framed q = v).
  { intros v <-. unfold q. cbn [framed]. fold len. fold pl. fold q. by rewrite Hzq, Z.eqb_refl, (proj2 (Z.eqb_neq _ _) Hz). }
  destruct (csum_follows b) eqn:En; [|left; exists q, (drop (Z.to_nat pl - 4) l); by rewrite (Hf true)].
  assert (Hp8 : 8 <= pl).
  { unfold pl, frame_length, csum_follows, MAP_HDR, CSUM_V5_HDR in *. zbool. rewrite H, H1, H0. simpl. lia. }
  destruct l as [|t l]; [unfold all, zlen in Hs; cbn in Hs; lia|].
  replace (Z.to_nat pl - 4)%nat with (S (Z.to_nat pl - 5)) in * by lia. cbn [take] in Hf.
  destruct (Z.div2 t =? 1) eqn:Et.
  - right. zbool. split; [by apply no_packet_coal|]. intros p rest Hfp Hl. apply framed_prefix in Hl as (_ & _ & H); [|done].
    destruct (H En) as (t' & l' & [= <- _] & Ht). done.
  - left. exists q, (drop (S (Z.to_nat pl - 5)) (t :: l)). by rewrite (Hf true).
Qed.

(** The packets [ps] at the start of [k], one by one: each is copied and handled;
    without memory for the copy the rest is freed; behind them the loop ends. *)
Fixpoint handle_packets (body : sk_buff -> run net unit) (k : sk_buff) (ps : list (list Z)) : run net unit :=
  match ps with
  | [] => loop_end body k
  | p :: ps =>
      ok ← alloc;
      if (ok : bool) then body (piece (k_priority k) p) ;; handle_packets body (pulled (zlen p) k) ps
      else emit (Freed k)
  end.

Lemma loop_packet fuel body k p rest n :
  linear k -> framed p = true -> k_lin k = p ++ rest ->
  deaggregate_loop (S fuel) body k n =
  (ok ← alloc; if (ok : bool) then body (piece (k_priority k) p) ;; deaggregate_loop fuel body (pulled (zlen p) k)
               else emit (Freed k)) n.
Proof.
  intros Hl Hf Hk. cbn [deaggregate_loop]. unfold mbind at 1, run_bind at 1.
  rewrite (deaggregate_framed k p rest n Hl Hf Hk). unfold alloc, ask, mbind, run_bind, mret, run_ret.
  by destruct (alloc_ok (n_allocs n)).
Qed.

Lemma loop_no_packet fuel body k n :
  linear k -> no_packet (k_lin k) -> deaggregate_loop (S fuel) body k n = loop_end body k n.
Proof.
  intros Hl Hn. cbn [deaggregate_loop]. unfold loop_end, mbind, run_bind. rewrite (Hn k n Hl eq_refl).
  unfold at_end. case_if; [done|]. by destruct (coalesced (k_lin k)).
Qed.

(** The rounds of the loop over the packets [ps] at the start of [k]. *)
Lemma loop_packets fuel body ps rest k n :
  linear k -> Forall (fun p => framed p = true) ps -> k_lin k = concat ps ++ rest -> no_packet rest ->
  deaggregate_loop (length ps + S fuel) body k n = handle_packets body k ps n.
Proof.
  intros Hl Hf Hk Hn. revert k n Hl Hk. induction Hf as [|p ps Hp Hf IH]; intros k n Hl Hk.
  - cbn [length Nat.add handle_packets]. apply loop_no_packet; [done|]. cbn in Hk. by rewrite Hk.
  - cbn [concat] in Hk. rewrite <- app_assoc in Hk. destruct (pulled_rest k p _ Hl Hk) as (Hl' & Hk' & Hpr).
    cbn [length Nat.add handle_packets]. rewrite (loop_packet _ body k p _ n Hl Hp Hk).
    unfold mbind, run_bind. destruct (alloc n) as [[] n1| |]; [|done..].
    destruct (body _ n1) as [[] n2| |]; [|done..]. by apply IH.
Qed.

(** With memory, all of them are handled. *)
Lemma handle_all body ps rest k :
  (forall i, alloc_ok i = true) -> linear k -> k_lin k = concat ps ++ rest ->
  exists kend, linear kend /\ k_lin kend = rest /\ forall n,
    handle_packets body k ps n =
    (for_each ps (fun p => alloc ;; body (piece (k_priority k) p)) ;; loop_end body kend) n.
Proof.
  intros Ha. revert k. induction ps as [|p ps IH]; intros k Hl Hk; [by exists k|].
  cbn [concat] in Hk. rewrite <- app_assoc in Hk.
  destruct (pulled_rest k p _ Hl Hk) as (Hl' & Hk' & Hpr). destruct (IH _ Hl' Hk') as (kend & H1 & H2 & H3).
  exists kend. split_and!; [done..|]. intros n. cbn [handle_packets for_each].
  unfold alloc, ask, mbind, run_bind in *. rewrite Ha, <- Hpr.
  destruct (body _ _) as [[] n2| |]; [|done..]. by rewrite H3, Hpr.
Qed.

Lemma framed_concat ps : Forall (fun p => framed p = true) ps -> (4 * length ps <= length (concat ps))%nat.
Proof.
  induction 1 as [|p ps Hp Hf IH]; [done|]. cbn [concat length]. rewrite length_app. apply framed_length in Hp. lia.
Qed.

Lemma no_packet_nil : no_packet [].
Proof. by apply no_packet_short. Qed.

(** A buffer of whole packets: the loop takes them one by one and frees the
    buffer. *)
Lemma loop_whole fuel body ps k :
  (forall i, alloc_ok i = true) -> linear k -> Forall (fun p => framed p = true) ps -> k_lin k = concat ps ->
  (length ps < fuel)%nat ->
  exists kend, forall n, deaggregate_loop fuel body k n =
    (for_each ps (fun p => alloc ;; body (piece (k_priority k) p)) ;; emit (Freed kend)) n.
Proof.
  intros Ha Hl Hf Hk Hfuel. replace fuel with (length ps + S (fuel - length ps - 1))%nat by lia.
  rewrite <- (app_nil_r (concat ps)) in Hk. destruct (handle_all body ps [] k Ha Hl Hk) as (kend & _ & H2 & H3).
  exists kend. intros n. rewrite (loop_packets _ body ps [] k n Hl Hf Hk no_packet_nil), H3.
  unfold loop_end. by rewrite H2.
Qed.

(** The packets at the start of bytes, up to the first place where none is. *)
Lemma packets_of l : Forall is_byte l ->
  exists ps rest, Forall (fun p => framed p = true) ps /\ l = concat ps ++ rest /\ no_packet rest /\ unframed rest.
Proof.
  remember (length l) as m eqn:Hm. revert l Hm. induction m as [m IH] using lt_wf_ind. intros l -> Hb.
  destruct (deaggregate_cases l Hb) as [(p & rest & Hp & ->)|[Hn Hu]]; [|by exists [], l].
  rewrite length_app in IH. apply Forall_app in Hb as [_ Hb].
  destruct (IH (length rest)) with (l := rest) as (ps & kend & H1 & H2 & H3 & H4); try done.
  - apply framed_length in Hp. lia.
  - exists (p :: ps), kend. split_and!; [by constructor| |done|done]. cbn [concat]. by rewrite <- app_assoc, <- H2.
Qed.

(** C18. The split of a linear buffer of any bytes ends within its fuel. The
    buffer starts with packets that its MAP headers frame: the length of the
    header, four bytes more for the header, and those of the trailer or of the
    checksum header of the format. Each of them is copied and handled, in order,
    up to one for whose copy there is no memory: then the rest is freed. The loop
    stops at the first place where the headers frame no packet, with the rest
    freed, or handed over as it is when it is a coalesced frame; only for a rest of
    one to three bytes does the code read a header that is not there. *)
Theorem buffer_split body k : linear k -> Forall is_byte (k_lin k) ->
  exists ps rest, Forall (fun p => framed p = true) ps /\ k_lin k = concat ps ++ rest /\
    unframed rest /\
    forall n, deaggregate_loop (deaggregate_fuel k) body k n = handle_packets body k ps n.
Proof.
  intros Hl Hb. destruct (packets_of (k_lin k) Hb) as (ps & rest & Hf & Hk & Hn & Hu).
  destruct (linear_facts k Hl) as (_ & _ & Hlen).
  assert (Hfuel : (length ps <= Z.to_nat (skb_len k))%nat).
  { pose proof (framed_concat ps Hf). rewrite Hlen, Hk, zlen_app. unfold zlen. lia. }
  exists ps, rest. split_and!; [done..|]. intros n. unfold deaggregate_fuel.
  replace (S _) with (length ps + S (Z.to_nat (skb_len k) - length ps))%nat by lia. by apply (loop_packets _ _ _ rest).
Qed.

End split.

(** ** An example: a packet, and the start of one *)

Definition demo_buffer : sk_buff := demo_skb ([64; 1; 0; 28; 4; 0; 0; 0] ++ demo_packet 1 ++ [64; 1; 0; 28; 4; 0]).

Lemma demo_bytes : Forall is_byte (k_lin demo_buffer).
Proof. repeat (constructor; [split; [by vm_compute|done]|]). constructor. Qed.

Lemma buffer_split_witness :
  Forall is_byte (k_lin demo_buffer) /\
  exists ps rest, Forall (fun p => framed p = true) ps /\ k_lin demo_buffer = concat ps ++ rest /\
    unframed rest /\
    forall n, deaggregate_loop (deaggregate_fuel demo_buffer) map_ingress_one demo_buffer n =
      handle_packets map_ingress_one demo_buffer ps n.
Proof. split; [exact demo_bytes|]. exact (buffer_split map_ingress_one demo_buffer eq_refl demo_bytes). Defined.
