(* ===== verification/RmnetOrder.v ===== *)
(** * RmNet: the uplink keeps the order of its packets

    Packets that are given to an aggregation state leave it in order, complete
    and in frames of at most the configured number of packets, whatever the
    timer, the work item, the commands and the configuration do in between. *)

From S2P Require Import Prelude Outcome RmnetSkb RmnetMap RmnetAgg RmnetSplit.

(** ** Runs seen from one aggregation state *)

Section view.
Context `{E : RmnetEnv} (ll : bool).

Abbreviation M := (run net).

(** The run returns with [Q] of its result, of the aggregation state and of the
    trace, from every state with this aggregation state and this trace. *)
Definition spec {A} (m : M A) (a : agg_state) (tr : list net_event)
    (Q : A -> agg_state -> list net_event -> Prop) : Prop :=
  forall n, agg ll n = a -> n_trace n = tr ->
  exists x n', m n = Ret x n' /\ Q x (agg ll n') (n_trace n').

Lemma agg_set (a : agg_state) n : agg ll (set_agg ll a n) = a.
Proof. by destruct ll. Qed.

Lemma trace_set (a : agg_state) n : n_trace (set_agg ll a n) = n_trace n.
Proof. by destruct ll. Qed.

Lemma spec_bind {A B} (m : M A) (k : A -> M B) a tr Q :
  spec m a tr (fun x a' tr' => spec (k x) a' tr' Q) -> spec (x ← m; k x) a tr Q.
Proof.
  intros H n Ha Ht. destruct (H n Ha Ht) as (x & n1 & H1 & Hk). destruct (Hk n1) as (y & n2 & H2 & HQ); [done..|].
  exists y, n2. by rewrite (bind_ret _ _ _ _ _ H1).
Qed.

Lemma spec_mono {A} (m : M A) a tr (Q R : A -> agg_state -> list net_event -> Prop) :
  spec m a tr Q -> (forall x a' tr', Q x a' tr' -> R x a' tr') -> spec m a tr R.
Proof. intros H HR n Ha Ht. destruct (H n Ha Ht) as (x & n1 & H1 & HQ). exists x, n1. auto. Qed.

Lemma spec_ret {A} (x : A) a tr (Q : A -> agg_state -> list net_event -> Prop) : Q x a tr -> spec (mret x) a tr Q.
Proof. intros H n <- <-. by exists x, n. Qed.

Lemma spec_get a tr (Q : agg_state -> agg_state -> list net_event -> Prop) : Q a a tr -> spec (get_agg ll) a tr Q.
Proof. intros H n <- <-. by exists (agg ll n), n. Qed.

Lemma spec_now a tr (Q : Z -> agg_state -> list net_event -> Prop) :
  (forall t, Q t a tr) -> spec (gets n_now) a tr Q.
Proof. intros H n <- <-. by exists (n_now n), n. Qed.

Lemma spec_allocs a tr (Q : nat -> agg_state -> list net_event -> Prop) :
  (forall t, Q t a tr) -> spec (gets n_allocs) a tr Q.
Proof. intros H n <- <-. by exists (n_allocs n), n. Qed.

Lemma spec_upd f a tr (Q : unit -> agg_state -> list net_event -> Prop) : Q tt (f a) tr -> spec (upd_agg ll f) a tr Q.
Proof. intros H n <- <-. eexists tt, _. split; [done|]. by rewrite agg_set, trace_set. Qed.

Lemma spec_emit e a tr (Q : unit -> agg_state -> list net_event -> Prop) : Q tt a (tr ++ [e]) -> spec (emit e) a tr Q.
Proof. intros H n <- <-. eexists tt, _. split; [done|]. by destruct ll. Qed.

Lemma spec_ask {A} (f : nat -> A) a tr (Q : A -> agg_state -> list net_event -> Prop) :
  (forall i, Q (f i) a tr) -> spec (ask f) a tr Q.
Proof. intros H n <- <-. eexists (f (n_allocs n)), _. split; [done|]. destruct ll; apply (H (n_allocs n)). Qed.

Lemma spec_lock a tr (Q : unit -> agg_state -> list net_event -> Prop) :
  a_lock a = false -> Q tt (set_a_lock true a) tr -> spec (agg_spin_lock ll) a tr Q.
Proof. intros Hl H. apply spec_bind, spec_get. rewrite Hl. by apply spec_upd. Qed.

Lemma spec_unlock a tr (Q : unit -> agg_state -> list net_event -> Prop) :
  Q tt (set_a_lock false a) tr -> spec (agg_spin_unlock ll) a tr Q.
Proof. apply spec_upd. Qed.

Lemma spec_when c (m : M unit) a tr Q :
  (c = true -> spec m a tr Q) -> (c = false -> Q tt a tr) -> spec (when c m) a tr Q.
Proof. destruct c; intros H1 H2; [by apply H1|by apply spec_ret, H2]. Qed.

Lemma spec_for_each {A} (l : list A) (body : A -> M unit) a tr (P : agg_state -> Prop) :
  (forall x a, P a -> spec (body x) a tr (fun _ a' tr' => P a' /\ tr' = tr)) -> P a ->
  spec (for_each l body) a tr (fun _ a' tr' => P a' /\ tr' = tr).
Proof.
  intros Hb. revert a. induction l as [|x l IH]; intros a Ha; [by apply spec_ret|]. cbn [for_each].
  apply spec_bind. eapply spec_mono; [by apply Hb|]. intros [] a' tr' [Ha' ->]. by apply IH.
Qed.

End view.

(** One operation of a run. *)
Ltac spec_one :=
  lazymatch goal with
  | |- spec _ (mbind _ _) _ _ _ => apply spec_bind; spec_one
  | |- spec _ (mret _) _ _ _ => apply spec_ret
  | |- spec _ (get_agg _) _ _ _ => apply spec_get
  | |- spec _ (gets n_now) _ _ _ => apply spec_now; intros ?
  | |- spec _ (gets n_allocs) _ _ _ => apply spec_allocs; intros ?
  | |- spec _ (upd_agg _ _) _ _ _ => apply spec_upd
  | |- spec _ (emit _) _ _ _ => apply spec_emit
  | |- spec _ (ask _) _ _ _ => apply spec_ask; intros ?
  | |- spec _ alloc _ _ _ => apply spec_ask; intros ?
  | |- spec _ (agg_spin_unlock _) _ _ _ => apply spec_unlock
  | |- spec _ (agg_spin_lock _) _ _ _ => apply spec_lock; [done|]
  | |- spec _ (if _ then _ else _) _ _ _ => case_if
  end.
Ltac spec_steps := repeat (spec_one; cbv beta).

(** ** The invariant of an aggregation state *)

Section order.
Context `{E : RmnetEnv} (ll : bool) (N : Z).
Context (Hpage : 0 < page_size) (HN : 1 <= N <= 255).
Implicit Types (k : sk_buff) (a : agg_state) (tr : list net_event).

(** The reading of a page behind the list of pages does not find a free one. *)
Definition pages_ok (features : Z) : Prop :=
  truthy (Z.land features RMNET_PAGE_RECYCLE) = false \/ forall i, stray_refs i <> 1.

(** The frame that is being filled holds the packets [pending], and something
    will send it. *)
Definition frame_ok (pending : list sk_buff) a : Prop :=
  0 <= a_order a /\ a_max a <= N /\ pages_ok (a_features a) /\
  match a_skb a with
  | None => pending = [] /\ a_progress a = false
  | Some f => linear f /\ k_lin f = concat (skb_bytes <$> pending) /\ a_count a = zlen pending /\ 0 < zlen pending <= N /\
      a_progress a = true /\ a_timer a || a_work a = true
  end.

Definition frame_inv pending a : Prop := a_lock a = false /\ frame_ok pending a.

(** The frame [f] carries the packets [g], whole and in order. *)
Definition carries (f : sk_buff) (g : list sk_buff) : Prop := skb_bytes f = concat (skb_bytes <$> g) /\ zlen g <= N.

Definition sent_frame (e : net_event) : option sk_buff :=
  match e with Xmit l f => if Bool.eqb l ll then Some f else None | _ => None end.

(** The frames that left from this state. *)
Definition sent tr : list sk_buff := omap sent_frame tr.

(** Since [tr0], frames with the packets at the front of [pending] were sent; the
    others are in the state. *)
Definition moved tr0 (pending : list sk_buff) a tr : Prop :=
  exists evs groups rest, tr = tr0 ++ evs /\ Forall2 carries (sent evs) groups /\
    pending = concat groups ++ rest /\ frame_inv rest a.

(** *** Pages *)

(** The state without its pages. *)
Definition erase a : agg_state := set_a_list [] (set_a_head None (set_a_reuse 0 (set_a_alloc 0 a))).

Definition paged a tr (_ : bool) a' tr' : Prop := erase a' = erase a /\ tr' = tr.

Lemma frame_ok_erase p a a' : erase a' = erase a -> frame_ok p a -> frame_ok p a'.
Proof. intros H Ha. change (frame_ok p (erase a')). by rewrite H. Qed.

Lemma recycle_spec fuel i a tr : (forall i, stray_refs i <> 1) ->
  spec ll (recycle_loop fuel ll i) a tr (fun _ a' tr' => erase a' = erase a /\ tr' = tr).
Proof.
  intros Hs. revert i a. induction fuel as [|fuel IH]; intros i a; [by apply spec_ret|]. cbn [recycle_loop].
  spec_one. destruct (a_head a) as [pos|]; [|by apply spec_ret]. destruct (a_list a !! pos) as [page|].
  - spec_one. spec_one; [spec_steps; done|]. spec_one. spec_one; [|by apply spec_ret]. exact (IH _ (set_a_head _ a)).
  - spec_one. rewrite (proj2 (Z.eqb_neq _ _) (Hs _)). spec_one. spec_one; [|by apply spec_ret]. exact (IH _ (set_a_head _ a)).
Qed.

Lemma pages_spec a tr : pages_ok (a_features a) -> spec ll (rmnet_get_agg_pages ll) a tr (paged a tr).
Proof.
  intros Hp. unfold rmnet_get_agg_pages, paged. spec_one. apply spec_bind.
  eapply (spec_mono _ _ _ _ (fun _ a' tr' => erase a' = erase a /\ tr' = tr)).
  - destruct Hp as [->|Hs]; [by apply spec_ret|]. case_if; [|by apply spec_ret]. by apply recycle_spec.
  - intros [page|] a' tr' [He ->]; spec_steps; by split.
Qed.

Lemma alloc_pages_spec a tr : spec ll (rmnet_alloc_agg_pages ll) a tr (fun _ a' tr' => erase a' = erase a /\ tr' = tr).
Proof.
  unfold rmnet_alloc_agg_pages. apply spec_bind. eapply spec_mono.
  - apply (spec_for_each ll _ _ _ _ (fun a' => erase a' = erase a)); [|done]. intros _ a' Ha'. unfold rmnet_alloc_agg_page.
    apply spec_bind. eapply (spec_mono _ _ _ _ (fun _ a1 tr1 => a1 = a' /\ tr1 = tr)); [spec_steps; done|].
    intros [p|] a1 tr1 [-> ->]; spec_steps; done.
  - intros [] a' tr' [Ha' ->]. spec_steps. done.
Qed.

(** *** Frames *)

Lemma put_ok v k : zlen v <= k_tailroom k ->
  forall n : net, skb_put v k n = Ret (set_k_lin (k_lin k ++ v) (set_k_tailroom (k_tailroom k - zlen v) k)) n.
Proof. intros H n. unfold skb_put. by rewrite (proj2 (Z.ltb_ge _ _)). Qed.

(** A packet is copied behind the bytes of the frame, all of it. *)
Lemma copy_spec dst src a tr : linear dst -> skb_len src <= k_tailroom dst ->
  spec ll (rmnet_map_linearize_copy dst src) a tr
    (fun dst' a' tr' => a' = a /\ tr' = tr /\ linear dst' /\ k_lin dst' = k_lin dst ++ skb_bytes src).
Proof.
  intros Hd Hroom. unfold rmnet_map_linearize_copy, skb_bytes, skb_len, skb_data_len in *. apply spec_bind.
  intros n Ha Ht. eexists _, n. split; [apply put_ok; unfold zlen in *; lia|]. rewrite Ha, Ht. clear n Ha Ht.
  rewrite app_assoc. set (d := set_k_lin _ _). assert (H1 : linear d) by done.
  assert (H2 : zlen (concat (k_frags src)) <= k_tailroom d) by (cbn; lia). change (k_lin dst ++ k_lin src) with (k_lin d).
  clearbody d. clear Hroom. revert d H1 H2. induction (k_frags src) as [|f l IH]; intros d H1 H2.
  - apply spec_ret. by rewrite app_nil_r.
  - cbn [concat] in *. rewrite zlen_app in H2. apply spec_bind. intros n Ha Ht. eexists _, n.
    split; [apply put_ok; unfold zlen in *; lia|]. rewrite Ha, Ht. clear n Ha Ht. rewrite app_assoc.
    set (d' := set_k_lin _ _). change (k_lin d ++ f) with (k_lin d'). apply IH; [done|]. cbn. unfold zlen in *. lia.
Qed.

(** There is room for a packet of [frame_room 0] bytes in any frame. *)
Lemma frame_room_mono order : 0 <= order -> frame_room 0 <= frame_room order.
Proof.
  intros H. unfold frame_room. rewrite !Z.shiftl_mul_pow2 by lia. assert (1 <= 2 ^ order) by (apply (Z.pow_le_mono_r 2 0 order); lia).
  change (2 ^ 0) with 1. nia.
Qed.

Lemma build_spec a tr : pages_ok (a_features a) -> spec ll (rmnet_map_build_skb ll) a tr (fun frame a' tr' =>
  erase a' = erase a /\ tr' = tr /\
  match frame with Some f => f = new_skb 0 (frame_room (a_order a)) | None => True end).
Proof.
  intros Hp. unfold rmnet_map_build_skb. apply spec_bind. eapply spec_mono; [by apply pages_spec|].
  intros [] a' tr' [He ->]; [|by spec_steps]. cbn [negb]. assert (Ho : a_order a' = a_order a) by exact (f_equal a_order He).
  spec_one. rewrite <- Ho. spec_one. spec_one. by case_if.
Qed.

Lemma sent_app tr1 tr2 : sent (tr1 ++ tr2) = sent tr1 ++ sent tr2.
Proof. unfold sent. apply omap_app. Qed.

Lemma sent_xmit f : sent [Xmit ll f] = [f].
Proof. unfold sent. cbn. by rewrite Bool.eqb_reflx. Qed.

Lemma frame_carries p a f : frame_ok p a -> a_skb a = Some f -> carries f p /\ p <> [].
Proof.
  intros (_ & _ & _ & H) Hf. rewrite Hf in H. destruct H as (Hl & Hk & _ & Hz & _). split; [split; [|lia]|].
  - unfold skb_bytes. rewrite Hl, Hk. apply app_nil_r.
  - intros ->. unfold zlen in Hz. cbn in Hz. lia.
Qed.

Lemma frame_none p a : frame_ok p a -> a_skb a = None -> p = [] /\ a_progress a = false.
Proof. intros (_ & _ & _ & H) Hf. by rewrite Hf in H. Qed.

(** What holds of the parameters. *)
Definition params_ok a : Prop := 0 <= a_order a /\ a_max a <= N /\ pages_ok (a_features a).

Lemma frame_params p a : frame_ok p a -> params_ok a.
Proof. intros (? & ? & ? & _). by split_and!. Qed.

(** A state with no frame that is free. *)
Lemma inv_empty a : params_ok a -> a_lock a = false -> a_skb a = None -> a_progress a = false -> frame_inv [] a.
Proof. intros (? & ? & ?) Hl Hs Hp. unfold frame_inv, frame_ok. by rewrite Hs. Qed.

Lemma moved_refl p a tr : frame_inv p a -> moved tr p a tr.
Proof. exists [], [], p. rewrite app_nil_r. split_and!; [done|constructor|done|done]. Qed.

(** What was sent before [tr1] comes first. *)
Lemma moved_trans tr0 evs groups p a tr :
  Forall2 carries (sent evs) groups -> moved (tr0 ++ evs) p a tr -> moved tr0 (concat groups ++ p) a tr.
Proof.
  intros H (evs' & groups' & rest & -> & H' & -> & Hi). exists (evs ++ evs'), (groups ++ groups'), rest.
  rewrite sent_app, concat_app, <- !app_assoc. split_and!; [done| |done|done]. by apply Forall2_app.
Qed.

Lemma carries_self k x : skb_bytes x = skb_bytes k -> carries x [k].
Proof. intros H. split; [cbn; by rewrite app_nil_r|unfold zlen; cbn; lia]. Qed.

Lemma carries_one f p : carries f p -> Forall2 carries [f] [p].
Proof. intros H. constructor; [done|constructor]. Qed.

Lemma moved_one f p a tr : carries f p -> frame_inv [] a -> moved tr p a (tr ++ [Xmit ll f]).
Proof.
  intros Hc Hi. exists [Xmit ll f], [p], []. rewrite sent_xmit. cbn. rewrite !app_nil_r. split_and!; [done|by apply carries_one|done|done].
Qed.

(** The frame that is filled is sent by [rmnet_map_send_agg_skb]. *)
Lemma send_spec p a tr : frame_ok p a ->
  spec ll (rmnet_map_send_agg_skb ll) a tr (fun _ a' tr' => frame_inv [] a' /\
    ((p = [] /\ tr' = tr) \/ (exists f, tr' = tr ++ [Xmit ll f] /\ carries f p /\ p <> []))).
Proof.
  intros Hok. pose proof (frame_params _ _ Hok) as Hpar. unfold rmnet_map_send_agg_skb. spec_one.
  destruct (a_skb a) as [f|] eqn:Hf.
  - destruct (frame_carries _ _ _ Hok Hf). spec_steps. split; [by apply inv_empty|]. right. by exists f.
  - destruct (frame_none _ _ Hok Hf). spec_steps. split; [by apply inv_empty|]. by left.
Qed.

Lemma alone_spec k a tr : frame_ok [] a -> a_skb a = None ->
  spec ll (send_alone ll k) a tr (fun _ a' tr' => moved tr [k] a' tr').
Proof.
  intros Hok Hs. pose proof (frame_params _ _ Hok) as Hpar. destruct (frame_none _ _ Hok Hs) as [_ Hp].
  unfold send_alone. spec_steps. apply moved_one; [by apply carries_self|]. by apply inv_empty.
Qed.

Lemma moved_freed k p a tr : frame_inv p a -> moved tr p a (tr ++ [Freed k]).
Proof. exists [Freed k], [], p. split_and!; [done|constructor|done|done]. Qed.

Lemma start_spec last k a tr : skb_len k <= frame_room 0 -> frame_ok [] a -> a_skb a = None ->
  spec ll (start_frame ll last k) a tr (fun _ a' tr' => moved tr [k] a' tr').
Proof.
  intros Hk Hok Hs. pose proof (frame_params _ _ Hok) as (H1 & H2 & H3). unfold start_frame. spec_one. cbv zeta.
  case_if; [by apply alone_spec|]. apply spec_bind. eapply spec_mono; [by apply build_spec|].
  intros frame a1 tr1 (He & -> & Hf). assert (Hok1 := frame_ok_erase _ _ _ He Hok).
  assert (Hs1 : a_skb a1 = None) by (rewrite <- Hs; exact (f_equal a_skb He)).
  destruct frame as [frame|]; [subst frame|].
  - apply spec_bind. pose proof (frame_room_mono _ H1) as Hr.
    eapply spec_mono; [apply copy_spec; [done|cbn; lia]|]. intros frame a2 tr2 (-> & -> & Hlin & Hbytes).
    destruct (frame_none _ _ Hok1 Hs1) as [_ Hp]. destruct (frame_params _ _ Hok1) as (H4 & H5 & H6).
    spec_one. spec_one. spec_one. unfold agg_schedule. spec_one. apply spec_bind, spec_when; [|cbn; by rewrite Hp].
    intros _. spec_steps. apply moved_freed. split; [done|]. unfold frame_ok. cbn. split_and!; try done.
    + rewrite Hbytes. cbn. by rewrite app_nil_r.
    + unfold zlen. cbn. lia.
  - spec_one. apply alone_spec; [|done]. destruct (frame_none _ _ Hok1 Hs1). destruct (frame_params _ _ Hok1) as (? & ? & ?).
    by unfold frame_ok.
Qed.

(** A packet that has to go at once. *)
Lemma urgent_spec p k a tr : frame_ok p a ->
  spec ll (rmnet_map_send_agg_skb ll;; emit (Xmit ll (set_k_protocol ETH_P_MAP k));; mret false) a tr
    (fun again a' tr' => again = false /\ moved tr (p ++ [k]) a' tr').
Proof.
  intros Hok. apply spec_bind. eapply spec_mono; [by apply send_spec|].
  intros [] a' tr' [Hi Hc]. spec_steps. split; [done|].
  assert (Hk := moved_one (set_k_protocol ETH_P_MAP k) [k] a' tr' (carries_self _ _ eq_refl) Hi).
  destruct Hc as [[-> ->]|(f & -> & Hc & _)]; [done|]. pose proof (moved_trans tr [Xmit ll f] [p] [k]) as Ht.
  cbn [concat] in Ht. rewrite app_nil_r, sent_xmit in Ht. apply Ht; [by apply carries_one|done].
Qed.

(** A packet that is copied into the frame. *)
Lemma append_spec p k f a tr : frame_ok p a -> a_skb a = Some f -> skb_len k <= k_tailroom f -> a_count a < a_max a ->
  spec ll (frame ← rmnet_map_linearize_copy f k;
    upd_agg ll (fun a => set_a_skb (Some frame) (set_a_count (u8 (a_count a + 1)) a));;
    emit (Freed k);; agg_schedule ll;; mret false) a tr
    (fun again a' tr' => again = false /\ moved tr (p ++ [k]) a' tr').
Proof.
  intros (H1 & H2 & H3 & H) Hf Hk Hc. rewrite Hf in H. destruct H as (Hl & Hb & Hn & Hz & Hp & Ht).
  apply spec_bind. eapply spec_mono; [by apply copy_spec|]. intros f' a' tr' (-> & -> & Hl' & Hb').
  spec_one. spec_one. unfold agg_schedule. apply spec_bind. spec_one. apply spec_bind, spec_when; cbn; rewrite Hp; [done|].
  intros _. spec_steps. split; [done|]. apply moved_freed. split; [done|]. unfold frame_ok. cbn.
  assert (Hz1 : zlen (p ++ [k]) = zlen p + 1) by (rewrite zlen_app; done).
  split_and!; try done; try lia.
  - rewrite Hb', Hb, fmap_app, concat_app. cbn. by rewrite app_nil_r.
  - rewrite Hz1, Hn. unfold u8. apply Z.mod_small. lia.
Qed.

(** One round: either the frame was sent and a round is left, or the packet is
    sent or in the frame. *)
Lemma round_spec p k a tr : skb_len k <= frame_room 0 -> frame_inv p a ->
  spec ll (tx_round ll k) a tr (fun (again : bool) a' tr' =>
    if again then p <> [] /\ exists f, tr' = tr ++ [Xmit ll f] /\ carries f p /\ frame_inv [] a'
    else moved tr (p ++ [k]) a' tr').
Proof.
  intros Hk [Hlock Hok]. unfold tx_round. apply spec_bind, spec_lock; [done|]. do 3 spec_one.
  set (a1 := set_a_last _ _). assert (Hok1 : frame_ok p a1) by exact Hok. case_if.
  - eapply spec_mono; [by apply urgent_spec|]. by intros ? ? ? [-> ?].
  - cbn [a_skb set_a_lock]. destruct (a_skb a) as [f|] eqn:Hf.
    + assert (Hf1 : a_skb a1 = Some f) by exact Hf. case_if.
      * apply spec_bind. eapply spec_mono; [by apply send_spec|]. intros [] a' tr' [Hi Hc]. spec_steps.
        destruct (frame_carries _ _ _ Hok1 Hf1) as [_ Hne]. split; [done|].
        destruct Hc as [[-> _]|(g & -> & Hc & _)]; [done|]. by exists g.
      * zbool. eapply spec_mono; [apply (append_spec p); try done|by intros ? ? ? [-> ?]]; cbn in *; lia.
    + assert (Hf1 : a_skb a1 = None) by exact Hf. destruct (frame_none _ _ Hok1 Hf1) as [-> _].
      apply spec_bind. eapply spec_mono; [by apply start_spec|]. intros [] a' tr' Hm. by spec_steps.
Qed.

Lemma aggregate_spec p k a tr : skb_len k <= frame_room 0 -> frame_inv p a ->
  spec ll (rmnet_map_tx_aggregate ll k) a tr (fun _ a' tr' => moved tr (p ++ [k]) a' tr').
Proof.
  intros Hk Hi. unfold rmnet_map_tx_aggregate. cbn [tx_rounds]. apply spec_bind.
  eapply spec_mono; [by apply (round_spec p)|]. intros [] a1 tr1; [|intros; by apply spec_ret].
  intros (_ & f & -> & Hc & Hi1). apply spec_bind. eapply spec_mono; [by apply (round_spec [])|].
  intros [] a2 tr2 H2; [by destruct H2|]. apply spec_ret. pose proof (moved_trans tr [Xmit ll f] [p] [k] a2 tr2) as Ht.
  cbn [concat] in Ht. rewrite app_nil_r, sent_xmit in Ht. apply Ht; [by apply carries_one|done].
Qed.

(** *** What else happens to the state *)

Lemma work_spec p a tr : frame_inv p a ->
  spec ll (rmnet_map_flush_tx_packet_work ll) a tr (fun _ a' tr' => moved tr p a' tr' /\ frame_inv [] a').
Proof.
  intros [Hlock Hok]. pose proof (frame_params _ _ Hok) as Hpar. unfold rmnet_map_flush_tx_packet_work. spec_one.
  apply spec_bind, spec_lock; [done|]. spec_one. apply spec_bind.
  change (a_progress (set_a_lock true (set_a_work false a))) with (a_progress a).
  change (a_skb (set_a_lock true (set_a_work false a))) with (a_skb a). destruct (a_skb a) as [f|] eqn:Hf.
  - destruct (frame_carries _ _ _ Hok Hf) as [Hc _]. destruct Hok as (_ & _ & _ & H). rewrite Hf in H.
    destruct H as (_ & _ & _ & _ & -> & _). rewrite bool_decide_true by (by eexists). cbn [when]. spec_steps.
    assert (Hi := inv_empty (set_a_lock false (set_a_progress false (no_frame (set_a_lock true (set_a_work false a)))))
      Hpar eq_refl eq_refl eq_refl). split; [by apply moved_one|done].
  - destruct (frame_none _ _ Hok Hf) as [-> ->]. spec_steps. assert (Hi : frame_inv [] (set_a_lock false (set_a_lock true (set_a_work false a)))).
    { apply inv_empty; try done. cbn. by destruct (frame_none _ _ Hok Hf). }
    split; [by apply moved_refl|done].
Qed.

Lemma timer_ok p a : frame_inv p a -> frame_inv p (set_a_timer false (set_a_work true a)).
Proof.
  intros [Hlock (H1 & H2 & H3 & H)]. split; [done|]. split_and!; try done. cbn. destruct (a_skb a); [|done].
  by destruct H as (? & ? & ? & ? & ? & _).
Qed.

Lemma command_spec p k ch flush a tr : frame_inv p a -> (ch =? 1) = ll ->
  spec ll (rmnet_map_tx_qmap_cmd k ch flush) a tr (fun _ a' tr' => moved tr p a' tr').
Proof.
  intros Hi Hch. unfold rmnet_map_tx_qmap_cmd. rewrite Hch.
  assert (Hcmd : forall p a tr1, moved tr p a tr1 -> moved tr p a (tr1 ++ [XmitCmd ll k])).
  { intros q b tr1 (evs & groups & rest & -> & H1 & H2 & H3). exists (evs ++ [XmitCmd ll k]), groups, rest.
    rewrite app_assoc, sent_app. cbn. rewrite app_nil_r. by split_and!. }
  apply spec_bind, spec_when.
  - intros _. destruct Hi as [Hlock Hok]. pose proof (frame_params _ _ Hok) as Hpar. apply spec_bind, spec_lock; [done|]. spec_one.
    change (a_skb (set_a_lock true a)) with (a_skb a). destruct (a_skb a) as [f|] eqn:Hf.
    + destruct (frame_carries _ _ _ Hok Hf) as [Hc _]. spec_steps. apply Hcmd, moved_one; [done|by apply inv_empty].
    + destruct (frame_none _ _ Hok Hf) as [-> Hp]. spec_steps. apply Hcmd, moved_refl. by apply inv_empty.
  - intros _. spec_steps. by apply Hcmd, moved_refl.
Qed.

Lemma configure_spec p size cnt features time a tr : frame_inv p a -> cnt <= N -> pages_ok features ->
  spec ll (rmnet_map_update_ul_agg_config ll size cnt features time) a tr (fun _ a' tr' => moved tr p a' tr').
Proof.
  intros [Hlock (H1 & H2 & H3 & H)] Hc Hp. unfold rmnet_map_update_ul_agg_config, rmnet_free_agg_pages.
  apply spec_bind, spec_lock; [done|]. spec_one. spec_one. apply spec_bind. case_if.
  - spec_steps. apply moved_refl. split; [done|]. exact (conj H1 (conj Hc (conj Hp H))).
  - spec_one. set (a1 := set_a_size _ _).
    assert (Hok1 : frame_ok p a1) by (split; [apply Z.mod_pos_bound; lia|exact (conj Hc (conj Hp H))]). apply spec_when; intros _.
    + eapply spec_mono; [by apply alloc_pages_spec|]. intros [] a' tr' [He ->]. spec_steps. apply moved_refl.
      split; [done|]. by apply (frame_ok_erase _ _ _ He).
    + spec_steps. apply moved_refl. split; [done|]. exact Hok1.
Qed.

(** ** Steps *)

(** What happens to an aggregation state: a packet comes from the egress
    handler, the timer runs out, the work item runs, a command is sent, the
    configuration is changed, time passes. *)
Inductive agg_op :=
| Submit (k : sk_buff)
| TimerFires
| WorkRuns
| Command (k : sk_buff) (flush : bool)
| Configure (size cnt features time : Z)
| Tick (now : Z).

Definition run_op (o : agg_op) : run net unit :=
  match o with
  | Submit k => rmnet_map_tx_aggregate ll k
  | TimerFires => a ← get_agg ll; when (a_timer a) (rmnet_map_flush_tx_packet_queue ll)
  | WorkRuns => a ← get_agg ll; when (a_work a) (rmnet_map_flush_tx_packet_work ll)
  | Command k flush => rmnet_map_tx_qmap_cmd k (Z.b2z ll) flush
  | Configure size cnt features time => rmnet_map_update_ul_agg_config ll size cnt features time
  | Tick now => modify (set_n_now now)
  end.

Definition run_ops (ops : list agg_op) : run net unit := for_each ops run_op.

(** A packet fits a frame of one page; the configuration keeps within [N]
    packets. *)
Definition op_ok (o : agg_op) : Prop :=
  match o with
  | Submit k => skb_len k <= frame_room 0
  | Configure _ cnt features _ => cnt <= N /\ pages_ok features
  | _ => True
  end.

Definition submitted (ops : list agg_op) : list sk_buff := omap (fun o => match o with Submit k => Some k | _ => None end) ops.

Lemma op_spec p o a tr : frame_inv p a -> op_ok o ->
  spec ll (run_op o) a tr (fun _ a' tr' => moved tr (p ++ submitted [o]) a' tr').
Proof.
  intros Hi Ho. destruct o as [k| | |k flush|size cnt features time|now]; cbn [run_op submitted omap list_omap]; rewrite ?app_nil_r.
  - by apply aggregate_spec.
  - spec_one. apply spec_when; intros _; [apply spec_upd|]; apply moved_refl; [by apply timer_ok|done].
  - spec_one. apply spec_when; intros _; [|by apply moved_refl]. eapply spec_mono; [by apply work_spec|]. by intros [] a' tr' [? _].
  - apply command_spec; [done|]. by destruct ll.
  - destruct Ho. by apply configure_spec.
  - intros n <- <-. eexists tt, _. split; [done|]. apply moved_refl. by destruct ll.
Qed.

Lemma ops_spec p ops a tr : frame_inv p a -> Forall op_ok ops ->
  spec ll (run_ops ops) a tr (fun _ a' tr' => moved tr (p ++ submitted ops) a' tr').
Proof.
  intros Hi Hops. revert p a tr Hi. induction Hops as [|o ops Ho Hops IH]; intros p a tr Hi.
  - apply spec_ret. rewrite app_nil_r. by apply moved_refl.
  - unfold run_ops. cbn [for_each]. apply spec_bind. eapply spec_mono; [by apply (op_spec p)|].
    intros [] a1 tr1 (evs & groups & rest & -> & H1 & H2 & H3). eapply spec_mono; [by apply IH|].
    intros [] a2 tr2 H4. unfold submitted in *. change (o :: ops) with ([o] ++ ops).
    rewrite omap_app, app_assoc, H2, <- app_assoc. by apply (moved_trans tr evs).
Qed.

(** A state whose frame left: all its packets were sent. *)
Definition all_sent tr0 p tr : Prop :=
  exists evs groups, tr = tr0 ++ evs /\ Forall2 carries (sent evs) groups /\ p = concat groups.

Lemma moved_all tr0 p a tr : moved tr0 p a tr -> a_skb a = None -> all_sent tr0 p tr.
Proof.
  intros (evs & groups & rest & H1 & H2 & H3 & [_ H4]) Hs. destruct (frame_none _ _ H4 Hs) as [-> _].
  exists evs, groups. by rewrite app_nil_r in H3.
Qed.

Lemma inv_nil_none a : frame_inv [] a -> a_skb a = None.
Proof.
  intros [_ (_ & _ & _ & H)]. destruct (a_skb a); [|done]. destruct H as (_ & _ & _ & Hz & _). unfold zlen in Hz. cbn in Hz. lia.
Qed.

(** When the timer has run out and the work item has run, the frame is gone. *)
Lemma flush_spec p a tr : frame_inv p a -> spec ll (run_ops [TimerFires; WorkRuns]) a tr (fun _ a' tr' => all_sent tr p tr').
Proof.
  intros Hi. unfold run_ops. cbn [for_each run_op].
  assert (Hw : forall a1, frame_inv p a1 -> (a_skb a1 = None \/ a_work a1 = true) ->
    spec ll ((a ← get_agg ll; when (a_work a) (rmnet_map_flush_tx_packet_work ll));; mret tt) a1 tr (fun _ a' tr' => all_sent tr p tr')).
  { intros a1 Hi1 Hw. apply spec_bind. spec_one. apply spec_when; intros Ew.
    - eapply spec_mono; [by apply work_spec|]. intros [] a' tr' [Hm Hn]. spec_steps.
      by apply (moved_all _ _ a'), inv_nil_none.
    - spec_steps. destruct Hw as [Hs|Hw]; [|congruence]. apply (moved_all _ _ a1); [by apply moved_refl|done]. }
  apply spec_bind. spec_one. apply spec_when; intros Et.
  - apply spec_upd, Hw; [by apply timer_ok|by right].
  - apply Hw; [done|]. destruct Hi as [_ (_ & _ & _ & H)]. destruct (a_skb a); [|by left].
    destruct H as (_ & _ & _ & _ & _ & H). rewrite Et in H. by right.
Qed.

(** ** From the start *)

Lemma init_spec n : n_agg n = agg_zero -> n_agg_ll n = agg_zero -> 20 <= N ->
  exists n', rmnet_map_tx_aggregate_init n = Ret tt n' /\ n_trace n' = n_trace n /\ frame_inv [] (agg ll n').
Proof.
  intros H1 H2 HN20. destruct n as [al now st a1 a2 marks dl pb tr]. cbn in H1, H2. subst a1 a2.
  assert (Hs : u16 (page_size - 1) <? page_size = true).
  { apply Z.ltb_lt. unfold u16. assert ((page_size - 1) mod 2 ^ 16 <= page_size - 1) by (apply Z.mod_le; lia). lia. }
  set (a := set_a_lock false (set_a_head None (set_a_max 20 (set_a_timeout 3000000 (set_a_size (u16 (page_size - 1)) agg_zero))))).
  exists (mk_net al now st a a marks dl pb tr). split_and!.
  - unfold rmnet_map_tx_aggregate_init, agg_init, rmnet_map_update_ul_agg_config. by rewrite Hs.
  - done.
  - destruct ll; (split; [done|]); split_and!; try done; by left.
Qed.

Lemma run_from_start ops n Q : n_agg n = agg_zero -> n_agg_ll n = agg_zero -> 20 <= N ->
  (forall a, frame_inv [] a -> spec ll (run_ops ops) a (n_trace n) Q) ->
  exists n', (rmnet_map_tx_aggregate_init;; run_ops ops) n = Ret tt n' /\ Q tt (agg ll n') (n_trace n').
Proof.
  intros H1 H2 H3 HQ. destruct (init_spec n H1 H2 H3) as (n1 & Hr & Ht & Hi).
  destruct (HQ _ Hi n1 eq_refl Ht) as ([] & n2 & Hr2 & HQ2). exists n2. by rewrite (bind_ret _ _ _ _ _ Hr).
Qed.

(** C3. In any run of operations that [op_ok] admits on an aggregation state after
    [rmnet_map_tx_aggregate_init] (packets, the timer, the work item, commands,
    new configurations of at most [N] packets), no operation waits for ever or
    writes behind the end of a frame, whichever allocations fail. [op_ok] admits
    packets that fit a frame of one page: the code compares a packet with the
    configured size only, and a packet that is longer than the room of its frame
    is written behind it ([RmnetFindings.default_size_overflows]). It admits
    configurations in which the page recycling does not take the head of its list
    for a free page ([RmnetFindings.recycling_reads_head]). The frames that left
    carry the packets that came, each once, whole and in their order, at most [N]
    in a frame; those that did not leave yet, the last ones, are the bytes of the
    frame that is being filled, in order, and then the timer is armed or the work
    item is queued. *)
Theorem aggregation_in_order ops n :
  n_agg n = agg_zero -> n_agg_ll n = agg_zero -> 20 <= N -> Forall op_ok ops ->
  exists n', (rmnet_map_tx_aggregate_init;; run_ops ops) n = Ret tt n' /\
    exists evs groups pending, n_trace n' = n_trace n ++ evs /\ Forall2 carries (sent evs) groups /\
      submitted ops = concat groups ++ pending /\ frame_inv pending (agg ll n').
Proof.
  intros H1 H2 H3 Hops. apply (run_from_start ops n (fun _ a tr => moved (n_trace n) (submitted ops) a tr)); [done..|].
  intros a Ha. by apply (ops_spec [] ops).
Qed.

(** Every packet leaves, once the timer and the work item have run. *)
Lemma all_leave ops n :
  n_agg n = agg_zero -> n_agg_ll n = agg_zero -> 20 <= N -> Forall op_ok ops ->
  exists n', (rmnet_map_tx_aggregate_init;; run_ops (ops ++ [TimerFires; WorkRuns])) n = Ret tt n' /\
    exists evs groups, n_trace n' = n_trace n ++ evs /\ Forall2 carries (sent evs) groups /\ submitted ops = concat groups.
Proof.
  intros H1 H2 H3 Hops. apply (run_from_start _ n (fun _ _ tr => all_sent (n_trace n) (submitted ops) tr)); [done..|].
  intros a Ha n1 Hn Ht. destruct (ops_spec [] ops a _ Ha Hops n1 Hn Ht) as ([] & n2 & Hr & evs & groups & rest & Ht2 & Hg & Hc & Hi).
  destruct (flush_spec rest _ _ Hi n2 eq_refl eq_refl) as ([] & n3 & Hr3 & evs' & groups' & Ht3 & Hg' & Hc').
  exists tt, n3. split; [unfold run_ops; by rewrite (for_each_app _ _ _ _ _ Hr)|]. exists (evs ++ evs'), (groups ++ groups').
  rewrite Ht3, Ht2, sent_app, concat_app, app_assoc, <- Hc'. split_and!; [done| |done]. by apply Forall2_app.
Qed.

End order.

(** ** An example: two packets, then the timer and the work item *)

Definition demo_ops : list agg_op :=
  [Submit (demo_skb (demo_packet 1)); Tick 5; Submit (demo_skb (demo_packet 2)); Configure 8192 64 0 3000000;
   Command (demo_skb []) true; Submit (demo_skb (demo_packet 3))].

Lemma demo_ops_ok : Forall (op_ok 64) demo_ops.
Proof. repeat (constructor; [first [exact I|vm_compute; congruence|split; [lia|by left]]|]). constructor. Qed.

Lemma aggregation_in_order_witness : Forall (op_ok 64) demo_ops /\
  exists n', (rmnet_map_tx_aggregate_init;; run_ops true demo_ops) demo_net = Ret tt n' /\
    exists evs groups pending, n_trace n' = n_trace demo_net ++ evs /\ Forall2 (carries 64) (sent true evs) groups /\
      submitted demo_ops = concat groups ++ pending /\ frame_inv 64 pending (agg true n').
Proof.
  split; [exact demo_ops_ok|].
  exact (aggregation_in_order true 64 eq_refl ltac:(lia) demo_ops demo_net eq_refl eq_refl ltac:(lia) demo_ops_ok).
Defined.
