(* ===== verification/RmnetRoundtrip.v ===== *)
(** * RmNet: what the uplink sends, the ingress handler delivers

    The frames of the egress handler and of the aggregation, in the format of
    MAP or of MAP with v5 checksum headers, are taken apart by the ingress handler
    into the packets that were sent. The same driver stands for both ends. *)

From S2P Require Import Prelude Outcome RmnetSkb RmnetMap RmnetCoal RmnetAgg RmnetRx RmnetSplit.
From S2P Require Import RmnetOrder.

Section roundtrip.
Context `{E : RmnetEnv}.
Implicit Types (k : sk_buff) (p : list Z).

Abbreviation M := (run net).

(** Packets have checksum headers. *)
Definition v5 : bool := format RMNET_PRIV_FLAGS_EGRESS_MAP_CKSUMV5.

(** The two directions have the same format, with or without v5 headers. *)
Definition symmetric : Prop :=
  format RMNET_FLAGS_EGRESS_MAP_CKSUMV4 = false /\ format RMNET_FLAGS_INGRESS_MAP_CKSUMV4 = false /\
  format RMNET_PRIV_FLAGS_INGRESS_MAP_CKSUMV5 = v5 /\ (format RMNET_EGRESS_FORMAT_PRIORITY = true -> v5 = true) /\
  format RMNET_FLAGS_INGRESS_DEAGGREGATION = true.

Context (Hsym : symmetric).

(** The first byte of its MAP header. *)
Definition first_byte : Z := if v5 then 64 else 0.

(** The packet [p] for the device [mux] on the link; [c]: the second byte of its
    checksum header. *)
Definition map_packet (c mux : Z) p : list Z :=
  first_byte :: mux :: (zlen p / 256) mod 256 :: zlen p mod 256 :: (if v5 then [4; c; 0; 0] else []) ++ p.

Lemma be16_value x : 0 <= x < 65536 -> (x / 256) mod 256 * 256 + x mod 256 = x.
Proof.
  intros H. rewrite (Z.mod_small (x / 256)) by (split; [apply Z.div_pos; lia|apply Z.div_lt_upper_bound; lia]).
  pose proof (Z.div_mod x 256). lia.
Qed.

(** The header as the code writes it. *)
Lemma map_packet_header mux len : map_header 0 (Z.b2z v5) 0 mux len = [first_byte; mux; (len / 256) mod 256; len mod 256].
Proof.
  unfold map_header, be16, u8, first_byte. change (2 ^ 8) with 256. rewrite Z.shiftr_div_pow2 by lia.
  change (2 ^ 8) with 256. by destruct v5.
Qed.

Lemma packet_len_v5 b len : b = first_byte -> frame_length b len = len + 4 + (if v5 then 4 else 0) /\ csum_follows b = v5.
Proof.
  intros ->. destruct Hsym as (_ & H4 & H5 & _). destruct format_bits as [B4 B5]. unfold frame_length, csum_follows.
  rewrite <- B4, <- B5, H4, H5. unfold first_byte. destruct v5; cbn; lia.
Qed.

Lemma map_packet_framed c mux p : 1 <= zlen p < 65536 -> framed (map_packet c mux p) = true.
Proof.
  intros Hp. unfold map_packet. cbn [framed]. rewrite be16_value by lia.
  destruct (packet_len_v5 first_byte (zlen p) eq_refl) as [-> ->].
  rewrite (proj2 (Z.eqb_eq _ _)), (proj2 (Z.eqb_neq _ _)) by (try lia; unfold zlen; destruct v5; simpl; lia).
  by destruct v5.
Qed.

(** ** Ingress *)

Definition ip_protocol p : Z :=
  match p with
  | b :: _ => if Z.land b 240 =? 64 then ETH_P_IP else if Z.land b 240 =? 96 then ETH_P_IPV6 else ETH_P_MAP
  | [] => 0
  end.

(** A packet that the driver delivers: its device, its protocol and its bytes. *)
Definition delivery (e : net_event) : option (Z * Z * list Z) :=
  match e with Deliver k => Some (k_dev k, k_protocol k, skb_bytes k) | _ => None end.

Definition deliveries (evs : list net_event) : list (Z * Z * list Z) := omap delivery evs.

Lemma spec_rd ll l i x a tr Q : l !! Z.to_nat i = Some x -> Q x a tr -> spec ll (rd l i) a tr Q.
Proof. intros H HQ. unfold rd. rewrite H. by apply spec_ret. Qed.

Lemma spec_count ll dev c a tr (Q : unit -> agg_state -> list net_event -> Prop) :
  Q tt a tr -> spec ll (count dev c) a tr Q.
Proof. intros H n <- <-. eexists tt, _. split; [done|]. by destruct ll. Qed.

Lemma spec_pull ll n k a tr (Q : sk_buff -> agg_state -> list net_event -> Prop) :
  linear k -> 0 <= n <= zlen (k_lin k) -> Q (pulled n k) a tr -> spec ll (pskb_pull n k) a tr Q.
Proof. intros Hl Hn H m <- <-. destruct (pull_linear k n m Hl Hn) as [Hr _]. by eexists _, m. Qed.

Lemma trim_nothing k n : linear k -> zlen (k_lin k) <= n -> pskb_trim n k = k.
Proof.
  intros Hl Hn. destruct (linear_facts k Hl) as (_ & _ & H). unfold pskb_trim. rewrite H. by rewrite (proj2 (Z.leb_le _ _)).
Qed.

Lemma skb_bytes_linear k : linear k -> skb_bytes k = k_lin k.
Proof. unfold linear, skb_bytes. intros ->. apply app_nil_r. Qed.

(** The list with one packet that is delivered. *)
Lemma deliver_spec ll k p a tr : linear k -> k_lin k = p -> 1 <= zlen p ->
  spec ll (rmnet_deliver_skb_list [k]) a tr (fun _ _ tr' => exists k', tr' = tr ++ [Deliver k'] /\
    delivery (Deliver k') = Some (k_dev k, ip_protocol p, p)).
Proof.
  intros Hl Hp Hz. unfold rmnet_deliver_skb_list, rmnet_set_skb_proto, rmnet_deliver_skb. cbn [for_each].
  destruct (linear_facts k Hl) as (_ & -> & _). destruct p as [|b p]; [unfold zlen in Hz; cbn in Hz; lia|].
  apply spec_bind, spec_bind, spec_bind, (spec_rd _ _ _ b); [by rewrite Hp|]. spec_steps. eexists. split; [done|].
  cbn. unfold skb_bytes. cbn. rewrite Hl, Hp. cbn. by rewrite app_nil_r.
Qed.

(** A packet with a checksum header, behind its headers. *)
Lemma next_hdr_spec ll k h1 h2 h3 h4 c p a tr : linear k -> k_lin k = h1 :: h2 :: h3 :: h4 :: [4; c; 0; 0] ++ p ->
  spec ll (rmnet_map_process_next_hdr_packet k (zlen p)) a tr (fun r a' tr' => tr' = tr /\ exists k', r = (0, [k']) /\ linear k' /\ k_lin k' = p /\ k_dev k' = k_dev k).
Proof.
  intros Hk Hl. unfold rmnet_map_process_next_hdr_packet. destruct (linear_facts k Hk) as (_ & -> & _). rewrite Hl.
  apply spec_bind, (spec_rd _ _ _ 4); [done|]. change (header_type 4 =? RMNET_MAP_HEADER_TYPE_COALESCING) with false.
  change (header_type 4 =? RMNET_MAP_HEADER_TYPE_CSUM_OFFLOAD) with true. cbv beta zeta iota. apply spec_bind.
  eapply (spec_mono _ _ _ _ (fun k1 _ tr' => tr' = tr /\ linear k1 /\ k_lin k1 = k_lin k /\ k_dev k1 = k_dev k)).
  - case_if; [apply spec_bind, spec_count; by spec_steps|]. apply spec_bind, (spec_rd _ _ _ c); [done|].
    case_if; apply spec_bind, spec_count; by spec_steps.
  - intros k1 a1 tr1 (-> & H1 & H2 & H3). rewrite Hl in H2. apply spec_bind, spec_pull; [done| |].
    { rewrite H2. unfold zlen, MAP_HDR, CSUM_V5_HDR. cbn. lia. }
    set (k2 := pulled _ k1). assert (Hk2 : linear k2) by (unfold linear in *; cbn; by rewrite H1).
    unfold rmnet_map_move_headers. destruct (linear_facts k2 Hk2) as (-> & _). cbn [negb]. spec_steps.
    split; [done|]. assert (Hp2 : k_lin k2 = p) by (cbn; by rewrite H2).
    exists k2. rewrite trim_nothing by (try done; by rewrite Hp2). by rewrite <- H3.
Qed.

Lemma ingress_one_spec ll c mux p dev prio a tr :
  endpoint mux = Some dev -> mux < RMNET_MAX_LOGICAL_EP -> 1 <= zlen p < 65536 ->
  spec ll (map_ingress_one (piece prio (map_packet c mux p))) a tr (fun _ _ tr' => exists k, tr' = tr ++ [Deliver k] /\
    delivery (Deliver k) = Some (dev, ip_protocol p, p)).
Proof.
  intros Hep Hmux Hp. destruct Hsym as (_ & H4 & H5 & _). unfold map_ingress_one.
  destruct (linear_facts (piece prio (map_packet c mux p)) eq_refl) as (_ & Hd & _). rewrite Hd.
  change (k_lin (piece prio (map_packet c mux p))) with (map_packet c mux p). unfold map_packet.
  apply spec_bind, (spec_rd _ _ _ first_byte); [done|]. replace (h_cd_bit first_byte) with false by by unfold first_byte; destruct v5.
  apply spec_bind, (spec_rd _ _ _ mux); [done|]. unfold rd16.
  apply spec_bind, spec_bind, (spec_rd _ _ _ ((zlen p / 256) mod 256)); [done|].
  apply spec_bind, (spec_rd _ _ _ (zlen p mod 256)); [done|]. apply spec_ret. rewrite be16_value by lia.
  replace (h_pad_len first_byte) with 0 by by unfold first_byte; destruct v5.
  rewrite Z.sub_0_r. replace (u16 (zlen p)) with (zlen p) by (symmetry; apply Z.mod_small; lia).
  rewrite Z.geb_leb, (proj2 (Z.leb_gt _ _)) by lia. rewrite Hep. cbv zeta.
  set (k := set_k_dev dev _). assert (Hk : linear k) by done.
  assert (Hkl : k_lin k = first_byte :: mux :: (zlen p / 256) mod 256 :: zlen p mod 256 :: (if v5 then [4; c; 0; 0] else []) ++ p) by done.
  replace (h_next_hdr first_byte) with v5 by (unfold first_byte; by destruct v5).
  destruct v5 eqn:Ev.
  - rewrite H5, orb_true_r. cbn [andb]. apply spec_bind. eapply spec_mono; [by eapply (next_hdr_spec ll k)|].
    intros [rc l] a1 tr1 (-> & k' & [= -> ->] & H1 & H2 & H3). cbn [truthy Z.eqb negb].
    eapply spec_mono; [by apply (deliver_spec _ _ p); try lia|]. intros [] a2 tr2 (k2 & -> & H6). exists k2. by rewrite H6, H3.
  - cbn [andb]. apply spec_bind, spec_pull; [done| |].
    { rewrite Hkl. unfold zlen, MAP_HDR, CSUM_V5_HDR. cbn. lia. }
    set (k1 := pulled _ k). assert (Hp1 : k_lin k1 = p) by done.
    destruct p as [|b q]; [unfold zlen in Hp; cbn in Hp; lia|]. apply spec_bind, spec_bind.
    destruct (linear_facts k1 eq_refl) as (_ & -> & _). apply (spec_rd _ _ _ b); [by rewrite Hp1|]. spec_one.
    rewrite H4. spec_one. set (k2 := set_k_protocol _ k1).
    rewrite trim_nothing by (try done; change (k_lin k2) with (k_lin k1); by rewrite Hp1).
    eapply spec_mono; [apply (deliver_spec _ _ (b :: q)); try done; lia|]. intros [] a2 tr2 (k3 & -> & H6). by exists k3.
Qed.

(** A run that is equal to another. *)
Lemma spec_ext {A} ll (m1 m2 : M A) a tr Q : (forall n, m1 n = m2 n) -> spec ll m2 a tr Q -> spec ll m1 a tr Q.
Proof. intros He H n Ha Ht. rewrite He. by apply H. Qed.

(** A packet on the link: the second byte of its checksum header, its mux id and
    its bytes. *)
Record link_packet := mk_link { lp_csum : Z; lp_mux : Z; lp_bytes : list Z }.

Definition lp_frame (q : link_packet) : list Z := map_packet (lp_csum q) (lp_mux q) (lp_bytes q).

(** Its mux id has a device, and its length is one of the 16 bits of the header. *)
Definition lp_ok (q : link_packet) : Prop :=
  is_Some (endpoint (lp_mux q)) /\ 0 <= lp_mux q < RMNET_MAX_LOGICAL_EP /\ 1 <= zlen (lp_bytes q) < 65536.

(** What the peer is to deliver. *)
Definition lp_delivery (q : link_packet) : Z * Z * list Z :=
  (default 0 (endpoint (lp_mux q)), ip_protocol (lp_bytes q), lp_bytes q).

Definition delivers ll (qs : list link_packet) (m : M unit) : Prop := forall a tr,
  spec ll m a tr (fun _ _ tr' => exists evs, tr' = tr ++ evs /\ deliveries evs = lp_delivery <$> qs).

Lemma deliveries_cat e1 e2 : deliveries (e1 ++ e2) = deliveries e1 ++ deliveries e2.
Proof. apply omap_app. Qed.

Lemma delivers_seq ll q1 q2 m1 m2 : delivers ll q1 m1 -> delivers ll q2 m2 -> delivers ll (q1 ++ q2) (m1 ;; m2).
Proof.
  intros H1 H2 a tr. apply spec_bind. eapply spec_mono; [apply H1|]. intros [] a1 tr1 (e1 & -> & Hd1).
  eapply spec_mono; [apply H2|]. intros [] a2 tr2 (e2 & -> & Hd2). exists (e1 ++ e2).
  by rewrite deliveries_cat, fmap_app, Hd1, Hd2, app_assoc.
Qed.

(** One frame of the link, as it is copied from the buffer. *)
Lemma delivers_one ll prio q : lp_ok q ->
  delivers ll [q] (alloc ;; map_ingress_one (piece prio (lp_frame q))).
Proof.
  intros ([dev Hep] & Hmux & Hlen) a tr. spec_one. eapply spec_mono; [by eapply ingress_one_spec; try lia|].
  intros [] a' tr' (k & -> & Hd). exists [Deliver k]. split; [done|].
  unfold deliveries. cbn [omap list_omap fmap list_fmap]. rewrite Hd. unfold lp_delivery. by rewrite Hep.
Qed.

Lemma delivers_all ll prio qs : Forall lp_ok qs ->
  delivers ll qs (for_each (lp_frame <$> qs) (fun p => alloc ;; map_ingress_one (piece prio p))).
Proof.
  induction 1 as [|q qs Hq Hqs IH]; [intros a tr; apply spec_ret; exists []; by rewrite app_nil_r|].
  apply (delivers_seq ll [q] qs); [|done]. by apply delivers_one.
Qed.

Lemma delivers_freed ll k : delivers ll [] (emit (Freed k)).
Proof. intros a tr. spec_one. by exists [Freed k]. Qed.

(** A buffer of frames is delivered packet by packet. *)
Lemma ingress_delivers ll k qs : (forall i, alloc_ok i = true) -> linear k -> Forall lp_ok qs ->
  k_lin k = concat (lp_frame <$> qs) -> delivers ll qs (rmnet_map_ingress_handler [k]).
Proof.
  intros Ha Hl Hq Hk a tr. unfold rmnet_map_ingress_handler. destruct (linear_facts k Hl) as (-> & _ & Hlen).
  rewrite andb_false_r. destruct Hsym as (_ & _ & _ & _ & ->). cbn [negb for_each].
  assert (Hf : Forall (fun p => framed p = true) (lp_frame <$> qs)).
  { apply Forall_fmap. eapply Forall_impl; [exact Hq|]. intros q (_ & _ & H). by apply map_packet_framed. }
  destruct (loop_whole (deaggregate_fuel k) map_ingress_one _ k Ha Hl Hf Hk) as (kend & Hloop).
  { pose proof (framed_concat _ Hf). unfold deaggregate_fuel. rewrite Hlen, Hk. unfold zlen. lia. }
  eapply spec_ext; [intros n; apply bind_tt|]. eapply spec_ext; [exact Hloop|].
  assert (H := delivers_seq ll qs [] _ _ (delivers_all ll (k_priority k) qs Hq) (delivers_freed ll kend)).
  rewrite app_nil_r in H. apply H.
Qed.

(** The buffer in which a peer receives a frame. *)
Definition received (f : sk_buff) : sk_buff := set_k_frags [] (set_k_lin (skb_bytes f) f).

Lemma frames_deliver ll N frames groups qs : (forall i, alloc_ok i = true) -> Forall lp_ok qs ->
  Forall2 (carries N) frames groups -> skb_bytes <$> concat groups = lp_frame <$> qs ->
  delivers ll qs (for_each frames (fun f => rmnet_map_ingress_handler [received f])).
Proof.
  intros Ha Hq Hg Heq. revert qs Hq Heq. induction Hg as [|f g frames groups [Hc _] Hg IH]; intros qs Hq Heq.
  - destruct qs; [|done]. intros a tr. apply spec_ret. exists []. by rewrite app_nil_r.
  - cbn [concat] in Heq. rewrite fmap_app in Heq. symmetry in Heq. apply fmap_app_inv in Heq as (q1 & q2 & H1 & H2 & ->).
    apply Forall_app in Hq as [Hq1 Hq2]. cbn [for_each]. apply delivers_seq; [|by apply IH].
    apply ingress_delivers; [done..|]. cbn. by rewrite Hc, H1.
Qed.

(** ** Egress *)

(** The length of the header that follows the MAP header. *)
Definition csum_len : Z := if v5 then CSUM_V5_HDR else 0.

(** What the headers leave alone. *)
Definition meta k : Z * Z * Z := (k_dev k, k_protocol k, k_priority k).

Lemma push_ok v k (n : net) : zlen v <= k_headroom k ->
  exists k', skb_push v k n = Ret k' n /\ k_lin k' = v ++ k_lin k /\ k_frags k' = k_frags k /\
    k_headroom k' = k_headroom k - zlen v /\ meta k' = meta k /\ k_summed k' = k_summed k.
Proof. intros H. unfold skb_push. rewrite (proj2 (Z.ltb_ge _ _)) by done. by eexists. Qed.

Lemma spec_push ll v k a tr (Q : sk_buff -> agg_state -> list net_event -> Prop) : zlen v <= k_headroom k ->
  (forall k', k_lin k' = v ++ k_lin k -> k_frags k' = k_frags k -> k_headroom k' = k_headroom k - zlen v ->
    meta k' = meta k -> k_summed k' = k_summed k -> Q k' a tr) ->
  spec ll (skb_push v k) a tr Q.
Proof. intros Hv H n <- <-. destruct (push_ok v k n Hv) as (k' & Hr & ? & ? & ? & ? & ?). exists k', n. auto. Qed.

Lemma spec_wr1 ll x y l v a tr (Q : list Z -> agg_state -> list net_event -> Prop) :
  Q (x :: v :: l) a tr -> spec ll (wr (x :: y :: l) 1 [v]) a tr Q.
Proof.
  intros H. unfold wr. rewrite (proj2 (Z.ltb_ge _ _)) by (unfold zlen; cbn; lia). apply spec_ret, H.
Qed.

(** The second byte of the checksum header, in the words of the protocol: bit 7
    asks the hardware for the checksum of a TCP or UDP packet that has none yet;
    with priorities, bit 5 is for packets of the low-latency mark, and bit 4 for
    those of the APS mark. *)
Definition transport k : option Z :=
  if k_protocol k =? 2048 then k_lin k !! 9%nat
  else if k_protocol k =? 34525 then k_lin k !! 6%nat
  else None.

Definition offloaded k : bool :=
  match k_summed k, transport k with
  | CHECKSUM_PARTIAL, Some t => (t =? 6) || (t =? 17)
  | _, _ => false
  end.

Definition llm_bit k : Z := if k_priority k =? 14286874 then 32 else 0.
Definition aps_bit k : Z :=
  if (Z.shiftr (k_priority k) 16 =? 39789) && Z.testbit (k_priority k) 9 then 16 else 0.
Definition prio_bits k : Z := if Z.testbit data_format 28 then llm_bit k + aps_bit k else 0.
Definition csum_byte k : Z := (if offloaded k then 128 else 0) + prio_bits k.

Lemma prio_spec ll orig_dev k0 k a tr : k_priority k0 = k_priority k ->
  spec ll (if format RMNET_EGRESS_FORMAT_PRIORITY then rmnet_map_v5_check_priority orig_dev false k0 else mret 0) a tr
    (fun b a' tr' => a' = a /\ tr' = tr /\ b = prio_bits k).
Proof.
  intros Hp. unfold format, RMNET_EGRESS_FORMAT_PRIORITY, prio_bits. rewrite land_BIT_testbit by done.
  destruct (Z.testbit data_format 28); [|by apply spec_ret]. unfold rmnet_map_v5_check_priority, llm_bit, aps_bit.
  rewrite Hp. unfold RMNET_LLM, RMNET_APS_LLB, RMNET_APS_MAJOR. change RMNET_APS_LLB_MASK with (BIT 9).
  rewrite land_BIT_testbit by done. cbn [negb andb]. apply spec_bind.
  destruct (k_priority k =? 14286874); [apply spec_bind, spec_count|]; apply spec_ret, spec_bind;
    (case_match; [apply spec_bind, spec_count|]); by spec_steps.
Qed.

Lemma prio_bits_or k : Z.lor (prio_bits k) 128 = 128 + prio_bits k.
Proof. unfold prio_bits, llm_bit, aps_bit. repeat case_match; done. Qed.

(** The field of the checksum is known for TCP and UDP. *)
Lemma csum_field_known t : match rmnet_map_get_csum_field t with Some _ => true | None => false end = (t =? 6) || (t =? 17).
Proof.
  unfold rmnet_map_get_csum_field, IPPROTO_TCP, IPPROTO_UDP. destruct (t =? 6); [done|]. by destruct (t =? 17).
Qed.

(** The packet with its checksum header. *)
Definition csummed k k' : Prop :=
  linear k' /\ k_headroom k' = k_headroom k - 4 /\ meta k' = meta k /\ k_lin k' = [4; csum_byte k; 0; 0] ++ k_lin k.

Lemma csum_spec ll orig_dev k a tr : v5 = true -> linear k -> 20 <= zlen (k_lin k) -> 4 <= k_headroom k ->
  spec ll (rmnet_map_v5_checksum_uplink_packet orig_dev k) a tr (fun k' a' tr' => a' = a /\ tr' = tr /\ csummed k k').
Proof.
  intros Hv Hl Hz Hh. unfold rmnet_map_v5_checksum_uplink_packet. apply spec_bind, spec_push; [done|].
  intros k1 Hk1 Hf1 Hh1 Hm1 Hs1. assert (Hl1 : linear k1) by (unfold linear; by rewrite Hf1).
  pose proof Hm1 as [= _ Hproto Hprio]. apply spec_bind. eapply spec_mono; [by apply (prio_spec _ _ _ k)|].
  intros prio a1 tr1 (-> & -> & ->). rewrite Hk1. apply spec_bind, spec_wr1. fold v5. rewrite Hv. cbn [negb].
  set (k2 := set_k_lin _ k1).
  assert (Hsw : offloaded k = false -> spec ll (count orig_dev csum_sw ;; mret k2) a tr (fun k' a' tr' => a' = a /\ tr' = tr /\ csummed k k')).
  { intros Ho. apply spec_bind, spec_count, spec_ret. do 2 (split; [done|]).
    split_and!; try done. unfold csum_byte. by rewrite Ho. }
  assert (Hread : forall i, 0 <= i < 20 -> exists x, k_lin k !! Z.to_nat i = Some x /\ k_lin k2 !! Z.to_nat (CSUM_V5_HDR + i) = Some x).
  { intros i Hi. destruct (lookup_lt_is_Some_2 (k_lin k) (Z.to_nat i)) as [x Hx]; [unfold zlen in Hz; lia|].
    exists x. split; [done|]. unfold CSUM_V5_HDR. replace (Z.to_nat (4 + i)) with (4 + Z.to_nat i)%nat by lia. done. }
  assert (Hend : forall proto, match transport k with Some t => t = proto | None => False end -> k_summed k = CHECKSUM_PARTIAL ->
    spec ll (match rmnet_map_get_csum_field proto with
             | Some _ => l ← wr (k_lin k2) 1 [Z.lor (prio_bits k) (Z.shiftl 1 7)]; count orig_dev csum_hw ;;
                         mret (set_k_lin l (set_k_summed CHECKSUM_NONE k2))
             | None => count orig_dev csum_sw ;; mret k2
             end) a tr (fun k' a' tr' => a' = a /\ tr' = tr /\ csummed k k')).
  { intros proto Ht Hs. pose proof (csum_field_known proto) as Hf. unfold offloaded in Hsw. rewrite Hs in Hsw.
    destruct (transport k) as [t|] eqn:Et; [subst t|done]. destruct (rmnet_map_get_csum_field proto); [|by apply Hsw].
    apply spec_bind, spec_wr1, spec_bind, spec_count, spec_ret. do 2 (split; [done|]).
    split_and!; try done. unfold csum_byte, offloaded. rewrite Hs, Et, <- Hf, <- prio_bits_or. done. }
  replace (partial k2) with (partial k) by (change (partial k2) with (partial k1); unfold partial; by rewrite Hs1).
  unfold partial. destruct (k_summed k) eqn:Es; try (apply Hsw; unfold offloaded; by rewrite Es).
  replace (k_protocol k2) with (k_protocol k) by done. unfold ETH_P_IP, ETH_P_IPV6. unfold transport in *.
  destruct (k_protocol k =? 2048) eqn:E1; cbn [orb]; [|destruct (k_protocol k =? 34525) eqn:E2].
  - destruct (Hread 9) as (x & Hx & Hx2); [lia|]. apply spec_bind, (spec_rd _ _ _ x); [done|]. apply Hend; [|done].
    change (Z.to_nat 9) with 9%nat in Hx. by rewrite Hx.
  - destruct (Hread 6) as (x & Hx & Hx2); [lia|]. apply spec_bind, (spec_rd _ _ _ x); [done|]. apply Hend; [|done].
    change (Z.to_nat 6) with 6%nat in Hx. by rewrite Hx.
  - apply spec_bind, spec_count, Hsw. unfold offloaded, transport. by rewrite Es, E1, E2.
Qed.

Lemma wr_head (old new l : list Z) (n : net) : length old = length new -> wr (old ++ l) 0 new n = Ret (new ++ l) n.
Proof.
  intros H. unfold wr. rewrite (proj2 (Z.ltb_ge _ _)) by (unfold zlen; rewrite length_app; lia).
  change (Z.to_nat 0 + length new)%nat with (length new). by rewrite <- H, drop_app_length.
Qed.

Lemma map_header_spec ll hdr p k a tr : linear k -> k_lin k = hdr ++ p -> zlen hdr = csum_len -> zlen p < 65536 ->
  MAP_HDR <= k_headroom k ->
  spec ll (rmnet_map_add_map_header csum_len false k) a tr (fun r a' tr' => a' = a /\ tr' = tr /\
    exists k', r = Some k' /\ linear k' /\ meta k' = meta k /\
      k_lin k' = first_byte :: 0 :: (zlen p / 256) mod 256 :: zlen p mod 256 :: hdr ++ p).
Proof.
  intros Hl Hk Hh Hp Hr. destruct (linear_facts k Hl) as (_ & _ & Hlen). unfold rmnet_map_add_map_header.
  rewrite Hlen, Hk, zlen_app, Hh. replace (u32 (csum_len + zlen p - csum_len)) with (zlen p).
  2: { unfold u32. rewrite Z.mod_small; unfold zlen in *; lia. }
  apply spec_bind, spec_push; [done|]. intros k1 Hk1 Hf1 _ Hm1 _. cbn [negb]. fold v5. rewrite map_packet_header.
  apply spec_bind. intros n <- <-.
  eexists _, n. split; [rewrite Hk1, Hk; by apply wr_head|]. apply spec_ret; [|done..]. do 2 (split; [done|]).
  eexists. split; [done|]. split; [unfold linear; cbn; by rewrite Hf1|]. by split.
Qed.

(** The header type and the format of the port. *)
Definition csum_kind : Z := if v5 then RMNET_PRIV_FLAGS_EGRESS_MAP_CKSUMV5 else 0.

Lemma egress_format : (if format RMNET_FLAGS_EGRESS_MAP_CKSUMV4 then (UL_CSUM_HDR, RMNET_FLAGS_EGRESS_MAP_CKSUMV4)
    else if format RMNET_PRIV_FLAGS_EGRESS_MAP_CKSUMV5 || format RMNET_EGRESS_FORMAT_PRIORITY
    then (CSUM_V5_HDR, RMNET_PRIV_FLAGS_EGRESS_MAP_CKSUMV5) else (0, 0)) = (csum_len, csum_kind).
Proof.
  destruct Hsym as (-> & _ & _ & Hp & _). fold v5. unfold csum_len, csum_kind. destruct v5; [done|]. cbn [orb].
  destruct (format RMNET_EGRESS_FORMAT_PRIORITY); [by discriminate Hp|done].
Qed.

(** The headers of the egress handler, up to the mux id. *)
Lemma headers_spec ll orig_dev k a tr : linear k -> 20 <= zlen (k_lin k) < 65536 -> MAP_HDR + csum_len <= k_headroom k ->
  spec ll (k ← (if truthy csum_kind && negb false then rmnet_map_checksum_uplink_packet orig_dev csum_kind k else mret k);
           rmnet_map_add_map_header csum_len false k) a tr (fun r a' tr' => a' = a /\ tr' = tr /\
    exists k', r = Some k' /\ linear k' /\ meta k' = meta k /\ k_lin k' = map_packet (csum_byte k) 0 (k_lin k)).
Proof.
  intros Hl Hz Hh. apply spec_bind. unfold csum_kind, map_packet. unfold csum_len in Hh. destruct v5 eqn:Hv.
  - unfold MAP_HDR, CSUM_V5_HDR in Hh. eapply spec_mono; [apply (csum_spec ll orig_dev k); try done; lia|].
    intros k1 a1 tr1 (-> & -> & Hl1 & Hh1 & Hm1 & Hk1). eapply spec_mono.
    { apply (map_header_spec ll [4; csum_byte k; 0; 0] (k_lin k)); try done; [unfold csum_len; by rewrite Hv|lia|].
      rewrite Hh1. unfold MAP_HDR. lia. }
    intros r a2 tr2 (-> & -> & k' & -> & Hl' & Hm' & Hk'). do 2 (split; [done|]). exists k'.
    split; [done|]. split; [done|]. split; [congruence|done].
  - apply spec_ret. eapply spec_mono.
    { apply (map_header_spec ll [] (k_lin k)); try (done || lia). unfold csum_len. by rewrite Hv. }
    intros r a2 tr2 (-> & -> & k' & -> & Hl' & Hm' & Hk'). do 2 (split; [done|]). exists k'. by split_and!.
Qed.

(** An ICMP packet, also in a fragment of IPv6. *)
Definition is_icmp k : bool :=
  if k_protocol k =? 2048 then bool_decide (k_lin k !! 9%nat = Some 1)
  else (k_protocol k =? 34525) &&
       (bool_decide (k_lin k !! 6%nat = Some 58) ||
        bool_decide (k_lin k !! 6%nat = Some 44) && bool_decide (k_lin k !! 40%nat = Some 58)).

(** The first fragment header of an IPv6 packet is there. *)
Definition fragment_there k : Prop :=
  k_protocol k = 34525 -> k_lin k !! 6%nat = Some 44 -> 41 <= zlen (k_lin k).

Lemma eqb_lookup (l : list Z) i x v : l !! i = Some x -> bool_decide (l !! i = Some v) = (x =? v).
Proof.
  intros ->. destruct (Z.eqb_spec x v) as [->|Hne]; [by apply bool_decide_true|]. apply bool_decide_false. by intros [= ->].
Qed.

Lemma map_packet_lookup c mux p i : 0 <= i -> map_packet c mux p !! Z.to_nat (MAP_HDR + csum_len + i) = p !! Z.to_nat i.
Proof.
  intros Hi. unfold map_packet, csum_len, MAP_HDR, CSUM_V5_HDR. destruct v5.
  - by replace (Z.to_nat (4 + 4 + i)) with (8 + Z.to_nat i)%nat by lia.
  - by replace (Z.to_nat (4 + 0 + i)) with (4 + Z.to_nat i)%nat by lia.
Qed.

(** The packet behind its headers. *)
Lemma skip_spec k k' c mux n : meta k' = meta k -> k_lin k' = map_packet c mux (k_lin k) -> 20 <= zlen (k_lin k) ->
  fragment_there k -> rmnet_map_tx_agg_skip (MAP_HDR + csum_len) k' n = Ret (is_icmp k) n.
Proof.
  intros Hm Hk' Hz Hf. pose proof Hm as [= _ Hp _].
  assert (Hrd : forall i, 0 <= i < zlen (k_lin k) -> exists x, k_lin k !! Z.to_nat i = Some x /\
    rd (k_lin k') (MAP_HDR + csum_len + i) n = Ret x n).
  { intros i Hi. destruct (lookup_lt_is_Some_2 (k_lin k) (Z.to_nat i)) as [x Hx]; [unfold zlen in Hi; lia|].
    exists x. split; [done|]. unfold rd. by rewrite Hk', map_packet_lookup, Hx by lia. }
  unfold rmnet_map_tx_agg_skip, is_icmp. rewrite Hp. change ETH_P_IP with 2048. change ETH_P_IPV6 with 34525.
  destruct (k_protocol k =? 2048).
  { destruct (Hrd 9) as (x & Hx & Hr); [lia|]. rewrite (bind_ret _ _ _ _ _ Hr). by rewrite (eqb_lookup _ _ _ _ Hx). }
  destruct (k_protocol k =? 34525) eqn:E6; cbn [andb]; [|done].
  destruct (Hrd 6) as (x & Hx & Hr); [lia|]. rewrite (bind_ret _ _ _ _ _ Hr). rewrite !(eqb_lookup _ _ _ _ Hx).
  change IPPROTO_ICMPV6 with 58. change NEXTHDR_FRAGMENT with 44. destruct (x =? 58); cbn [orb]; [done|].
  destruct (x =? 44) eqn:E44; cbn [andb]; [|done]. zbool. subst x.
  destruct (Hrd 40) as (y & Hy & Hr'); [pose proof (Hf E6 Hx); lia|]. rewrite (bind_ret _ _ _ _ _ Hr').
  by rewrite (eqb_lookup _ _ _ _ Hy).
Qed.

(** Whether a packet is aggregated. *)
Definition aggregated ll k (n : net) : bool :=
  Z.testbit data_format 31 && (2 <=? a_max (agg ll n)) && negb (is_icmp k).

Lemma queue_run ll k k' c mux n : meta k' = meta k -> k_lin k' = map_packet c mux (k_lin k) -> 20 <= zlen (k_lin k) ->
  fragment_there k -> egress_queue ll (MAP_HDR + csum_len) false k' n =
    (if aggregated ll k n then (rmnet_map_tx_aggregate ll k' ;; mret (-115, k')) n
     else Ret (0, set_k_protocol 249 k') n).
Proof.
  intros Hm Hk Hz Hf. unfold egress_queue, aggregated, format, RMNET_EGRESS_FORMAT_AGGREGATION.
  rewrite land_BIT_testbit by done. destruct (Z.testbit data_format 31); cbn [andb]; [|done].
  rewrite (bind_ret _ _ n (agg ll n) n) by done. destruct (Z.leb_spec 2 (a_max (agg ll n))).
  - rewrite (proj2 (Z.ltb_ge _ _)), (bind_ret _ _ _ _ _ (skip_spec k k' c mux n Hm Hk Hz Hf)) by done.
    by destruct (is_icmp k).
  - by rewrite (proj2 (Z.ltb_lt _ _)).
Qed.

(** C14. The egress handler makes of an IP packet the frame of the link: the MAP
    header with the length of the packet and the mux id of its device, the checksum
    header when the format has one, and the packet itself, unchanged. The checksum
    header asks for the checksum of TCP and UDP packets that have none yet, and
    carries the priority bits when the format has priorities. It fails only when
    there is neither headroom nor memory for more. The frame goes to the
    aggregation if the format has one, frames are to hold two packets or more and
    the packet is not ICMP; else it goes to the caller, with the protocol of MAP.
    The formats are MAP and MAP with v5 headers, the packet is linear, not one for
    segmentation, shorter than 64 KiB, and has its fragment header if it is an
    IPv6 fragment. *)
Theorem egress_frames k mux_id orig_dev ll n :
  linear k -> 20 <= zlen (k_lin k) < 65536 -> fragment_there k -> k_gso_size k = 0 -> 0 <= k_headroom k ->
  (MAP_HDR + csum_len <= k_headroom k \/ alloc_ok (n_allocs n) = true) ->
  exists k' n', linear k' /\ k_lin k' = map_packet (csum_byte k) mux_id (k_lin k) /\ meta k' = meta k /\
    agg ll n' = agg ll n /\ n_trace n' = n_trace n /\
    rmnet_map_egress_handler k mux_id orig_dev ll n =
      (if aggregated ll k n then (rmnet_map_tx_aggregate ll k' ;; mret (-115, k')) n'
       else Ret (0, set_k_protocol 249 k') n').
Proof.
  intros Hl Hz Hfrag Hg Hpos Hroom. unfold rmnet_map_egress_handler. rewrite egress_format.
  set (k0 := if k_headroom k <? MAP_HDR + csum_len then set_k_headroom (k_headroom k + (MAP_HDR + csum_len)) k else k).
  assert (H0 : linear k0 /\ k_lin k0 = k_lin k /\ MAP_HDR + csum_len <= k_headroom k0 /\ k_gso_size k0 = 0 /\
    meta k0 = meta k /\ csum_byte k0 = csum_byte k).
  { unfold k0. case_if; split_and!; try done. cbn. lia. }
  destruct H0 as (Hl0 & Hk0 & Hh0 & Hg0 & Hm0 & Hc0).
  assert (Ha : exists n1, (if k_headroom k <? MAP_HDR + csum_len then alloc else mret true) n = Ret true n1 /\
    agg ll n1 = agg ll n /\ n_trace n1 = n_trace n).
  { case_if; [|by exists n]. destruct Hroom as [|Ha]; [lia|]. unfold alloc, ask. rewrite Ha. eexists. split; [done|].
    by destruct ll. }
  destruct Ha as (n1 & Hr1 & Ha1 & Ht1). cbv beta zeta. rewrite (bind_ret _ _ _ _ _ Hr1). cbn [negb]. fold k0.
  rewrite Hg0. change (truthy 0) with false. rewrite andb_false_r.
  rewrite (bind_ret _ _ n1 (0, k0) n1) by done. cbv beta iota. change (truthy 0) with false. cbv iota.
  destruct (headers_spec ll orig_dev k0 _ _ Hl0 ltac:(rewrite Hk0; lia) Hh0 n1 eq_refl eq_refl)
    as (r & n2 & Hr2 & Ha2 & Ht2 & k2 & -> & Hl2 & Hm2 & Hk2).
  apply bind_inv in Hr2 as (k1 & n3 & Hr3 & Hr2). rewrite (bind_ret _ _ _ _ _ Hr3), (bind_ret _ _ _ _ _ Hr2).
  rewrite Hk2, Hk0, Hc0. set (k' := set_k_lin (map_packet (csum_byte k) mux_id (k_lin k)) k2).
  assert (Hm' : meta k' = meta k) by (change (meta k') with (meta k2); congruence).
  exists k', n2. split_and!; try done; [congruence|congruence|].
  rewrite (bind_ret _ _ n2 (map_packet (csum_byte k) mux_id (k_lin k)) n2).
  - fold k'. rewrite (queue_run ll k k' (csum_byte k) mux_id n2) by (done || lia). unfold aggregated.
    by rewrite Ha2, Ha1.
  - unfold map_packet, wr. by rewrite (proj2 (Z.ltb_ge _ _)) by (unfold zlen; cbn; lia).
Qed.

(** C39. Packets travel whole: when frames of the link are given to an aggregation
    state, among any operations that [op_ok] admits, and its timer and its work
    item have run, then a peer in the same format that receives the frames that
    left, one after the other, delivers the IP packets that were sent, each once,
    unchanged, in their order, on the device of its mux id. The bounds: both ends
    use MAP, or MAP with v5 headers ([symmetric]); each frame of the link fits a
    frame of one page ([frame_room 0]: the code does not check it,
    [default_size_overflows]); page recycling finds no stray page ([pages_ok]);
    and no allocation fails on either end. *)
Theorem link_roundtrip ll N ops qs n m :
  0 < page_size -> 20 <= N <= 255 -> (forall i, alloc_ok i = true) ->
  n_agg n = agg_zero -> n_agg_ll n = agg_zero -> Forall (op_ok N) ops ->
  Forall lp_ok qs -> skb_bytes <$> submitted ops = lp_frame <$> qs ->
  exists n' evs m' got,
    (rmnet_map_tx_aggregate_init ;; run_ops ll (ops ++ [TimerFires; WorkRuns])) n = Ret tt n' /\
    n_trace n' = n_trace n ++ evs /\
    for_each (sent ll evs) (fun f => rmnet_map_ingress_handler [received f]) m = Ret tt m' /\
    n_trace m' = n_trace m ++ got /\ deliveries got = lp_delivery <$> qs.
Proof.
  intros Hpage HN Ha H1 H2 Hops Hq Hs.
  destruct (all_leave ll N Hpage ltac:(lia) ops n H1 H2 ltac:(lia) Hops) as (n' & Hr & evs & groups & Ht & Hg & Hc).
  rewrite Hc in Hs. destruct (frames_deliver ll N _ _ qs Ha Hq Hg Hs _ _ m eq_refl eq_refl) as ([] & m' & Hm & got & Hgt & Hd).
  by exists n', evs, m', got.
Qed.

End roundtrip.

(** ** An example: three packets to the peer *)

Lemma demo_symmetric : symmetric.
Proof. repeat split; vm_compute; congruence. Qed.

(** A TCP packet whose checksum the hardware is to fill in. *)
Definition demo_tcp : sk_buff :=
  set_k_summed CHECKSUM_PARTIAL (set_k_protocol 2048 (demo_skb (69 :: replicate 8 0 ++ [6] ++ replicate 30 0))).

Lemma egress_frames_witness :
  csum_byte demo_tcp = 128 /\
  exists k' n', linear k' /\ k_lin k' = map_packet (csum_byte demo_tcp) 1 (k_lin demo_tcp) /\ meta k' = meta demo_tcp /\
    agg false n' = agg false demo_net /\ n_trace n' = n_trace demo_net /\
    rmnet_map_egress_handler demo_tcp 1 7 false demo_net =
      (if aggregated false demo_tcp demo_net then (rmnet_map_tx_aggregate false k' ;; mret (-115, k')) n'
       else Ret (0, set_k_protocol 249 k') n').
Proof.
  split; [by vm_compute|].
  apply (egress_frames demo_symmetric demo_tcp 1 7 false demo_net eq_refl); [|done|done|by vm_compute|by right].
  vm_compute; split; congruence.
Defined.

Definition demo_links : list link_packet := [mk_link 0 1 (demo_packet 1); mk_link 128 1 (demo_packet 2); mk_link 0 1 (demo_packet 3)].
Definition demo_submits : list agg_op :=
  [Submit (demo_skb (lp_frame (mk_link 0 1 (demo_packet 1)))); TimerFires; Submit (demo_skb (lp_frame (mk_link 128 1 (demo_packet 2))));
   WorkRuns; Submit (demo_skb (lp_frame (mk_link 0 1 (demo_packet 3))))].

Lemma demo_submits_ok : Forall (op_ok 20) demo_submits.
Proof. repeat (constructor; [first [exact I|vm_compute; congruence]|]). constructor. Qed.

Lemma demo_links_ok : Forall lp_ok demo_links.
Proof. repeat (constructor; [split; [by eexists|vm_compute; repeat split; congruence]|]). constructor. Qed.

Lemma link_roundtrip_witness :
  Forall (op_ok 20) demo_submits /\ Forall lp_ok demo_links /\
  exists n' evs m' got,
    (rmnet_map_tx_aggregate_init ;; run_ops false (demo_submits ++ [TimerFires; WorkRuns])) demo_net = Ret tt n' /\
    n_trace n' = n_trace demo_net ++ evs /\
    for_each (sent false evs) (fun f => rmnet_map_ingress_handler [received f]) demo_net = Ret tt m' /\
    n_trace m' = n_trace demo_net ++ got /\ deliveries got = lp_delivery <$> demo_links.
Proof.
  split; [exact demo_submits_ok|]. split; [exact demo_links_ok|].
  exact (link_roundtrip demo_symmetric false 20 demo_submits demo_links demo_net demo_net eq_refl ltac:(lia) (fun _ => eq_refl)
    eq_refl eq_refl demo_submits_ok demo_links_ok eq_refl).
Defined.
