(* ===== verification/RmnetSegment.v ===== *)
(** * RmNet: the packets of a coalesced frame

    The segments that the driver makes of a coalesced frame in linear memory carry
    the payload of the frame, all of it, in order and once, each behind headers
    with its own length and sequence number. *)

From S2P Require Import Prelude Outcome RmnetSkb RmnetMap RmnetCoal RmnetAgg RmnetRx RmnetSplit.
From S2P Require Import RmnetOrder RmnetRoundtrip.

(** ** Bytes that are overwritten *)

Definition sub {A} (l : list A) (i n : Z) : list A := take (Z.to_nat n) (drop (Z.to_nat i) l).

Definition splice {A} (l : list A) (i : Z) (v : list A) : list A :=
  take (Z.to_nat i) l ++ v ++ drop (Z.to_nat i + length v) l.

Section bytes.
Context {A : Type}.
Implicit Types (l v a b c : list A) (i j n : Z).

Lemma zlen_nonneg l : 0 <= zlen l.
Proof. unfold zlen. lia. Qed.

Lemma zlen_splice l i v : 0 <= i -> i + zlen v <= zlen l -> zlen (splice l i v) = zlen l.
Proof. unfold zlen, splice. intros. rewrite !length_app, length_take, length_drop. lia. Qed.

Lemma zlen_sub l i n : 0 <= i -> 0 <= n -> i + n <= zlen l -> zlen (sub l i n) = n.
Proof. unfold zlen, sub. intros. rewrite length_take, length_drop. lia. Qed.

(** What was written is there. *)
Lemma sub_splice_same l i v : 0 <= i -> i + zlen v <= zlen l -> sub (splice l i v) i (zlen v) = v.
Proof.
  unfold zlen, sub, splice. intros Hi Hl. rewrite Nat2Z.id, drop_app_ge by (rewrite length_take; lia).
  rewrite length_take. replace (_ - _)%nat with 0%nat by lia. by rewrite drop_0, take_app_length.
Qed.

Lemma lookup_sub l i n (j : nat) : 0 <= i -> (j < Z.to_nat n)%nat -> sub l i n !! j = l !! (Z.to_nat i + j)%nat.
Proof. intros. unfold sub. by rewrite lookup_take_lt, lookup_drop. Qed.

(** Other bytes stay. *)
Lemma sub_splice_other l i v j n : 0 <= i -> i + zlen v <= zlen l -> 0 <= j -> 0 <= n -> (j + n <= i \/ i + zlen v <= j) ->
  sub (splice l i v) j n = sub l j n.
Proof.
  intros Hi Hl Hj Hn Hd. apply list_eq. intros m. destruct (decide (m < Z.to_nat n)%nat) as [Hm|Hm].
  2: { unfold sub. by rewrite !lookup_take_ge by lia. }
  rewrite !lookup_sub by lia. unfold splice, zlen in *. destruct Hd as [Hd|Hd].
  - rewrite lookup_app_l by (rewrite length_take; lia). by rewrite lookup_take_lt by lia.
  - rewrite lookup_app_r by (rewrite length_take; lia). rewrite lookup_app_r by (rewrite length_take; lia).
    rewrite lookup_drop, length_take. f_equal. lia.
Qed.

Lemma splice_app a b c i v : 0 <= i -> i + zlen v <= zlen b ->
  splice (a ++ b ++ c) (zlen a + i) v = a ++ splice b i v ++ c.
Proof.
  unfold zlen, splice. intros Hi Hb. replace (Z.to_nat (Z.of_nat (length a) + i)) with (length a + Z.to_nat i)%nat by lia.
  rewrite take_app_add, <- Nat.add_assoc, drop_app_add, take_app_le, drop_app_le by lia. by rewrite <- !app_assoc.
Qed.

Lemma sub_app_l a b i n : 0 <= i -> 0 <= n -> i + n <= zlen a -> sub (a ++ b) i n = sub a i n.
Proof. unfold zlen, sub. intros. rewrite drop_app_le, take_app_le; [done|rewrite length_drop; lia|lia]. Qed.

Lemma sub_whole l : sub l 0 (zlen l) = l.
Proof. unfold sub, zlen. by rewrite drop_0, Nat2Z.id, firstn_all. Qed.

Lemma sub_cat l i m n : 0 <= i -> 0 <= m -> 0 <= n -> sub l i m ++ sub l (i + m) n = sub l i (m + n).
Proof.
  intros. unfold sub. rewrite !Z2Nat.inj_add by lia. rewrite <- drop_drop.
  apply take_take_drop.
Qed.

End bytes.

(** Lengths of the bytes that are written. *)
Ltac zl := unfold be32, be16, raw16, zlen in *; cbn [length app] in *; lia.

Section segment.
Context `{E : RmnetEnv} (ll : bool) (coal : sk_buff) (m : coal_metadata).
Implicit Types (k : sk_buff) (l : list Z) (a : agg_state) (tr : list net_event).

(** The metadata [m] at another place of the frame. *)
Definition at_ (off dlen id cnt : Z) : coal_metadata :=
  mk_meta (ip_header m) (trans_header m) (ip_len m) (trans_len m) off dlen (ip_proto m) (trans_proto m) id cnt.

Definition hlen : Z := ip_len m + trans_len m.

(** The headers are as long as their protocols ask for. *)
Definition headers_ok : Prop :=
  zlen (ip_header m) = ip_len m /\ zlen (trans_header m) = trans_len m /\
  (ip_proto m = 4 /\ 20 <= ip_len m /\ (exists b, ip_header m !! 0%nat = Some b /\ Z.land b 15 * 4 <= ip_len m) \/
   ip_proto m = 6 /\ 40 <= ip_len m) /\
  (trans_proto m = IPPROTO_TCP /\ 20 <= trans_len m \/ trans_proto m = IPPROTO_UDP /\ trans_len m = 8).

Definition be32_value l : Z :=
  match l with [a; b; c; d] => (a * 256 + b) * 65536 + (c * 256 + d) | _ => 0 end.

(** The length fields, and the sequence number of TCP. *)
Definition ip_fields (ih : list Z) (len : Z) : Prop :=
  if ip_proto m =? 4 then sub ih 2 2 = be16 (u16 (hlen + len)) else sub ih 4 2 = be16 (u16 (hlen + len - 40)).

Definition trans_fields (th : list Z) (off len : Z) : Prop :=
  if trans_proto m =? IPPROTO_TCP then sub th 4 4 = be32 (u32 (be32_value (sub (trans_header m) 4 4) + off))
  else sub th 4 2 = be16 (u16 (trans_len m + len)).

(** The two bytes at [i], as the CPU reads them. *)
Definition raw16_value l : Z := match l with [a; b] => a + b * 256 | _ => 0 end.

(** UDP over IPv4 without a checksum. *)
Definition no_csum : bool :=
  (ip_proto m =? 4) && (trans_proto m =? 17) && (raw16_value (sub (trans_header m) 6 2) =? 0).

(** How a packet is marked: the network stack trusts the checksum of one that is
    marked [CHECKSUM_PARTIAL], and verifies that of one with [CHECKSUM_NONE]. *)
Definition marked (bad : bool) (s : sk_buff) : Prop :=
  k_summed s = if bad && negb no_csum then CHECKSUM_NONE else CHECKSUM_PARTIAL.

(** The packet [s] carries the [len] bytes of the payload from [off] on; [bad]:
    their checksum is bad. *)
Definition is_segment (off len : Z) (bad : bool) (s : sk_buff) : Prop :=
  linear s /\ marked bad s /\ k_dev s = k_dev coal /\ k_priority s = k_priority coal /\
  exists ih th, k_lin s = ih ++ th ++ sub (k_lin coal) (hlen + off) len /\ zlen ih = ip_len m /\ zlen th = trans_len m /\
    ip_fields ih len /\ trans_fields th off len.

(** *** Access to bytes *)

Lemma spec_read l i a tr (Q : Z -> agg_state -> list net_event -> Prop) : 0 <= i < zlen l ->
  (forall x, l !! Z.to_nat i = Some x -> Q x a tr) -> spec ll (rd l i) a tr Q.
Proof.
  intros Hi H. destruct (lookup_lt_is_Some_2 l (Z.to_nat i)) as [x Hx]; [unfold zlen in Hi; lia|].
  apply (spec_rd _ _ _ x); [done|]. by apply H.
Qed.

Lemma spec_read16 l i a tr (Q : Z -> agg_state -> list net_event -> Prop) : 0 <= i -> i + 2 <= zlen l ->
  (forall x, Q x a tr) -> spec ll (rd16 l i) a tr Q.
Proof. intros Hi Hl H. apply spec_bind, spec_read; [lia|]. intros x _. apply spec_bind, spec_read; [lia|]. intros y _. by apply spec_ret. Qed.

Lemma spec_read16_raw l i a tr (Q : Z -> agg_state -> list net_event -> Prop) : 0 <= i -> i + 2 <= zlen l ->
  (forall x, Q x a tr) -> spec ll (rd16_raw l i) a tr Q.
Proof. intros Hi Hl H. apply spec_bind, spec_read; [lia|]. intros x _. apply spec_bind, spec_read; [lia|]. intros y _. by apply spec_ret. Qed.

Lemma spec_read16_value l i a tr (Q : Z -> agg_state -> list net_event -> Prop) : 0 <= i -> i + 2 <= zlen l ->
  Q (raw16_value (sub l i 2)) a tr -> spec ll (rd16_raw l i) a tr Q.
Proof.
  intros Hi Hl H. apply spec_bind, spec_read; [lia|]. intros x Hx. apply spec_bind, spec_read; [lia|]. intros y Hy.
  apply spec_ret. replace (sub l i 2) with [x; y] in H; [exact H|]. unfold sub. change (Z.to_nat 2) with 2%nat.
  replace (Z.to_nat (i + 1)) with (S (Z.to_nat i)) in Hy by lia. by rewrite (drop_S _ _ _ Hx), (drop_S _ _ _ Hy).
Qed.

Lemma spec_read32 l i a tr (Q : Z -> agg_state -> list net_event -> Prop) : 0 <= i -> i + 4 <= zlen l ->
  Q (be32_value (sub l i 4)) a tr -> spec ll (rd32 l i) a tr Q.
Proof.
  intros Hi Hl H. apply spec_bind. apply spec_bind, spec_read; [lia|]. intros x Hx. apply spec_bind, spec_read; [lia|].
  intros y Hy. apply spec_ret, spec_bind. apply spec_bind, spec_read; [lia|]. intros z Hz.
  apply spec_bind, spec_read; [lia|]. intros w Hw. apply spec_ret, spec_ret.
  replace (sub l i 4) with [x; y; z; w] in H; [exact H|]. unfold sub. change (Z.to_nat 4) with 4%nat.
  replace (Z.to_nat (i + 1)) with (S (Z.to_nat i)) in Hy by lia. replace (Z.to_nat (i + 2)) with (S (S (Z.to_nat i))) in Hz by lia.
  replace (Z.to_nat (i + 2 + 1)) with (S (S (S (Z.to_nat i)))) in Hw by lia.
  by rewrite (drop_S _ _ _ Hx), (drop_S _ _ _ Hy), (drop_S _ _ _ Hz), (drop_S _ _ _ Hw).
Qed.

Lemma spec_slice l i n a tr (Q : list Z -> agg_state -> list net_event -> Prop) : i + n <= zlen l ->
  Q (sub l i n) a tr -> spec ll (slice l i n) a tr Q.
Proof. intros Hl H. unfold slice. rewrite (proj2 (Z.ltb_ge _ _)) by lia. by apply spec_ret. Qed.

Lemma spec_wr l i v a tr (Q : list Z -> agg_state -> list net_event -> Prop) : i + zlen v <= zlen l ->
  Q (splice l i v) a tr -> spec ll (wr l i v) a tr Q.
Proof. intros Hl H. unfold wr. rewrite (proj2 (Z.ltb_ge _ _)) by lia. by apply spec_ret. Qed.

Lemma spec_put v k a tr (Q : sk_buff -> agg_state -> list net_event -> Prop) : zlen v <= k_tailroom k ->
  Q (set_k_lin (k_lin k ++ v) (set_k_tailroom (k_tailroom k - zlen v) k)) a tr -> spec ll (skb_put v k) a tr Q.
Proof. intros Hv H n <- <-. eexists _, n. split; [by apply put_ok|done]. Qed.

(** *** Headers *)

Lemma ip_spec off dlen id cnt len a tr : headers_ok ->
  spec ll (segment_ip (at_ off dlen id cnt) (hlen + len)) a tr (fun ih _ _ => zlen ih = ip_len m /\ ip_fields ih len).
Proof.
  intros (Hih & _ & Hip & _). unfold segment_ip, ip_fields. cbn [at_ ip_header ip_proto pkt_id].
  destruct Hip as [(-> & Hlen & b & Hb & Hihl)|(-> & Hlen)]; cbn [Z.eqb Pos.eqb].
  - apply spec_bind, spec_read16; [lia..|]. intros x. set (i1 := splice (ip_header m) 4 (be16 (u16 (x + id)))).
    assert (H1 : zlen i1 = ip_len m) by (unfold i1; rewrite zlen_splice; try done; zl).
    apply spec_bind, spec_wr; [zl|]. fold i1.
    set (i2 := splice i1 2 (be16 (u16 (hlen + len)))).
    assert (H2 : zlen i2 = ip_len m) by (unfold i2; rewrite zlen_splice; try done; zl).
    apply spec_bind, spec_wr; [zl|]. fold i2.
    set (i3 := splice i2 10 (raw16 0)).
    assert (H3 : zlen i3 = ip_len m) by (unfold i3; rewrite zlen_splice; try done; zl).
    apply spec_bind, spec_wr; [zl|]. fold i3.
    assert (Hb3 : i3 !! 0%nat = Some b).
    { unfold i3, i2, i1, splice. destruct (ip_header m); [done|]. exact Hb. }
    apply spec_bind, (spec_rd _ _ _ b); [exact Hb3|]. apply spec_bind, spec_slice; [lia|].
    apply spec_wr; [zl|]. split.
    + rewrite zlen_splice; [done|lia|zl].
    + rewrite sub_splice_other by (zl).
      unfold i3. rewrite sub_splice_other by (zl).
      unfold i2. change 2 with (zlen (be16 (u16 (hlen + len)))) at 3. apply sub_splice_same; [lia|].
      zl.
  - apply spec_wr; [zl|]. split.
    + rewrite zlen_splice; [done|lia|zl].
    + change 2 with (zlen (be16 (u16 (hlen + len - 40)))) at 1. apply sub_splice_same; [lia|].
      zl.
Qed.

Lemma trans_spec off dlen id cnt len a tr : headers_ok ->
  spec ll (segment_trans coal (at_ off dlen id cnt) len (trans_len m + len)) a tr
    (fun r _ _ => zlen r.1.1 = trans_len m /\ trans_fields r.1.1 off len /\
       r.1.2 = Some (if trans_proto m =? IPPROTO_TCP then 16 else 6) /\ r.2 = no_csum).
Proof.
  intros (_ & Hth & _ & Ht). unfold segment_trans, trans_fields, no_csum. cbn [at_ trans_header trans_proto data_offset ip_proto].
  destruct Ht as [(-> & Hlen)|(-> & Hlen)].
  - change (IPPROTO_TCP =? IPPROTO_TCP) with true. cbv beta iota zeta. apply spec_bind, spec_read32; [lia..|].
    set (v := be32 _). assert (Hv : zlen v = 4) by done. set (t1 := splice (trans_header m) 4 v).
    assert (H1 : zlen t1 = trans_len m) by (unfold t1; rewrite zlen_splice; [done|lia|lia]).
    assert (Hs : sub t1 4 4 = v) by (unfold t1; rewrite <- Hv at 1; apply sub_splice_same; lia).
    apply spec_bind, spec_wr; [lia|]. fold t1. apply spec_bind, spec_read; [lia|]. intros flags _. apply spec_bind.
    eapply (spec_mono _ _ _ _ (fun th _ _ => zlen th = trans_len m /\ sub th 4 4 = v)).
    + case_if; [|by apply spec_ret]. apply spec_wr; [zl|]. rewrite zlen_splice by zl. split; [done|].
      by rewrite sub_splice_other by zl.
    + intros th a1 tr1 [H2 H3]. apply spec_ret. split_and!; try done. by rewrite andb_false_r.
  - change (IPPROTO_UDP =? IPPROTO_TCP) with false. change (IPPROTO_UDP =? IPPROTO_UDP) with true. cbv beta iota zeta.
    set (v := be16 _). assert (Hv : zlen v = 2) by done. apply spec_bind, spec_wr; [lia|].
    set (t1 := splice (trans_header m) 4 v).
    assert (H1 : zlen t1 = trans_len m) by (unfold t1; rewrite zlen_splice; [done|lia|lia]).
    apply spec_bind, spec_read16_value; [lia|lia|]. apply spec_ret. cbn [fst snd]. split; [done|]. split; [|split; [done|]].
    + unfold t1. rewrite <- Hv at 1. apply sub_splice_same; lia.
    + change (IPPROTO_UDP =? 17) with true. unfold t1. rewrite sub_splice_other by lia. by rewrite andb_true_r.
Qed.

(** *** Checksums *)

(** A packet with the headers [ih] and [th] and the payload [d]. *)
Definition built (off len : Z) (d : list Z) k : Prop :=
  linear k /\ exists ih th, k_lin k = ih ++ th ++ d /\ zlen ih = ip_len m /\ zlen th = trans_len m /\
    ip_fields ih len /\ trans_fields th off len.

Definition csum_off : Z := if trans_proto m =? IPPROTO_TCP then 16 else 6.

Lemma csum_in_header : headers_ok -> 6 <= csum_off /\ csum_off + 2 <= trans_len m /\
  (trans_proto m = IPPROTO_TCP -> csum_off = 16).
Proof.
  intros (_ & _ & _ & Ht). unfold csum_off. destruct Ht as [(-> & ?)|(-> & ?)].
  - change (IPPROTO_TCP =? IPPROTO_TCP) with true. lia.
  - change (IPPROTO_UDP =? IPPROTO_TCP) with false. split_and!; [lia|lia|discriminate].
Qed.

(** Writing the checksum field keeps what else is in the packet. *)
Lemma spec_csum off len d k x a tr (Q : list Z -> agg_state -> list net_event -> Prop) : headers_ok -> built off len d k ->
  (forall l, (forall k', k_lin k' = l -> linear k' -> built off len d k') -> Q l a tr) ->
  spec ll (wr (k_lin k) (ip_len m + csum_off) (raw16 x)) a tr Q.
Proof.
  intros Hh (Hl & ih & th & Hk & H1 & H2 & H3 & H4) HQ. destruct (csum_in_header Hh) as (Hc1 & Hc2 & Hc3).
  assert (Hz : zlen (raw16 x) = 2) by done. rewrite Hk. apply spec_wr.
  { rewrite !zlen_app. pose proof (zlen_nonneg d). lia. }
  rewrite <- H1, splice_app by lia. apply HQ. intros k' Hk' Hl'. split; [done|]. exists ih, (splice th csum_off (raw16 x)).
  rewrite zlen_splice by lia. split_and!; try done. unfold trans_fields in *.
  destruct (Z.eqb_spec (trans_proto m) IPPROTO_TCP) as [Et|]; [specialize (Hc3 Et)|]; rewrite sub_splice_other by lia; done.
Qed.

Lemma pseudo_spec off dlen id cnt off' len d k n a tr (Q : Z -> agg_state -> list net_event -> Prop) :
  headers_ok -> built off' len d k -> (forall x, Q x a tr) ->
  spec ll (pseudo_csum (at_ off dlen id cnt) (k_lin k) n) a tr Q.
Proof.
  intros (_ & _ & Hip & _) (_ & ih & th & Hk & H1 & H2 & _) HQ. unfold pseudo_csum. cbn [at_ ip_proto].
  assert (Hz : ip_len m <= zlen (k_lin k)).
  { rewrite Hk, zlen_app. pose proof (zlen_nonneg (th ++ d)). lia. }
  destruct Hip as [(-> & Hlen & _)|(-> & Hlen)]; cbn [Z.eqb Pos.eqb];
    (apply spec_bind, spec_slice; [lia|]; apply spec_bind, spec_slice; [lia|]; by apply spec_ret).
Qed.

Lemma partial_spec off dlen id cnt off' len d k a tr : headers_ok -> built off' len d k ->
  spec ll (rmnet_map_partial_csum (at_ off dlen id cnt) k) a tr (fun k' _ _ => built off' len d k' /\ k_summed k' = CHECKSUM_PARTIAL).
Proof.
  intros Hh Hb. unfold rmnet_map_partial_csum. apply spec_bind. eapply pseudo_spec; [done..|]. intros x.
  change (ip_len (at_ off dlen id cnt)) with (ip_len m). change (trans_proto (at_ off dlen id cnt)) with (trans_proto m).
  cbv zeta. fold csum_off. apply spec_bind. eapply spec_csum; [done..|]. intros l Hl. apply spec_ret. split; [|done].
  apply Hl; [done|]. apply Hb.
Qed.

Lemma corrupt_spec off dlen id cnt off' len d k a tr : headers_ok -> built off' len d k ->
  spec ll (corrupt_csum (at_ off dlen id cnt) csum_off k) a tr (fun k' _ _ => built off' len d k' /\ k_summed k' = CHECKSUM_NONE).
Proof.
  intros Hh Hb. unfold corrupt_csum. apply spec_bind. eapply pseudo_spec; [done..|]. intros x.
  change (ip_len (at_ off dlen id cnt)) with (ip_len m). apply spec_bind. eapply spec_csum; [done..|]. intros l Hl. cbv zeta.
  assert (Hb1 : built off' len d (set_k_lin l k)) by (apply Hl; [done|apply Hb]).
  apply spec_bind. change l with (k_lin (set_k_lin l k)) at 1. eapply spec_csum; [done..|]. intros l' Hl'.
  apply spec_ret. split; [|done]. apply Hl'; [done|]. apply Hb.
Qed.

(** *** One segment *)

Lemma built_fields off len d k dev prio : built off len d k -> built off len d (set_k_priority prio (set_k_dev dev k)).
Proof. done. Qed.

Lemma segment_spec off dlen id cnt list_ id' valid a tr : (forall i, alloc_ok i = true) -> headers_ok -> linear coal ->
  0 <= off -> 0 <= dlen * cnt -> hlen + off + dlen * cnt <= zlen (k_lin coal) ->
  spec ll (segment_coal_skb coal (at_ off dlen id cnt) list_ id' valid) a tr
    (fun r _ _ => exists s, r = (at_ (u16 (off + dlen * cnt)) dlen (u8 (id' + 1)) 0, list_ ++ [s]) /\
       is_segment off (dlen * cnt) (negb valid) s).
Proof.
  intros Ha Hh Hl Hoff Hlen Hdata. set (len := dlen * cnt) in *. set (mm := at_ off dlen id cnt).
  destruct (linear_facts coal Hl) as (Hnl & Hptr & _). unfold segment_coal_skb. spec_one. rewrite Ha. cbn [negb].
  change (data_len mm * pkt_count mm) with len. change (ip_len mm + trans_len mm) with hlen.
  change (trans_len mm) with (trans_len m). rewrite Hnl. pose proof Hh as (Hih & Hth & _ & _).
  pose proof (zlen_nonneg (ip_header m)). pose proof (zlen_nonneg (trans_header m)).
  assert (Hhl : 0 <= hlen) by (unfold hlen; lia).
  set (d := sub (k_lin coal) (hlen + off) len). assert (Hd : zlen d = len) by (apply zlen_sub; lia).
  apply spec_bind. unfold rmnet_map_nonlinear_copy. rewrite Hnl, Hptr. change (data_len mm * pkt_count mm) with len.
  change (ip_len mm + trans_len mm + data_offset mm) with (hlen + off). apply spec_bind, spec_slice; [lia|]. fold d.
  apply spec_put; [rewrite Hd; cbn; lia|]. set (k0 := set_k_lin _ _). assert (Hk0 : k_lin k0 = d) by done.
  assert (Hr0 : k_headroom k0 = hlen) by done. assert (Hl0 : linear k0) by done.
  apply spec_bind. eapply spec_mono; [by apply trans_spec|].
  intros [[th check] zc] a1 tr1 (Ht1 & Ht2 & Hck & Hzc). cbn [fst snd] in *. subst check zc. fold csum_off.
  apply spec_bind, spec_push; [rewrite Hr0; unfold hlen; lia|]. intros k1 Hk1 Hf1 Hr1 _ _. apply spec_bind.
  change (skb_len (set_k_transport 0 k1)) with (skb_len k1). change (ip_len mm) with (ip_len m).
  assert (Hlen1 : skb_len k1 + ip_len m = hlen + len).
  { destruct (linear_facts k1) as (_ & _ & ->); [unfold linear; by rewrite Hf1|].
    rewrite Hk1, Hk0, zlen_app, Ht1, Hd. unfold hlen. lia. }
  rewrite Hlen1. eapply spec_mono; [by apply ip_spec|]. intros ih a2 tr2 (Hi1 & Hi2).
  apply spec_bind, spec_push; [cbn [k_headroom set_k_transport]; rewrite Hr1, Hr0; unfold hlen; lia|].
  intros k2 Hk2 Hf2 _ _ _. cbn [k_lin k_frags set_k_transport] in Hk2, Hf2.
  assert (Hb : built off len d k2).
  { split; [unfold linear; by rewrite Hf2, Hf1|]. exists ih, th. rewrite Hk2, Hk1, Hk0. by split_and!. }
  apply spec_bind. eapply (spec_mono _ _ _ _ (fun k' _ _ => built off len d k' /\ marked (negb valid) k')).
  { unfold marked. destruct valid; cbn [orb negb andb]; [by apply partial_spec|].
    destruct no_csum; cbn [negb]; [by apply partial_spec|by apply corrupt_spec]. }
  intros k3 a3 tr3 [Hb3 Hm3]. apply spec_bind, spec_count, spec_ret. eexists. split; [done|]. fold len.
  destruct Hb3 as (Hl3 & ih' & th' & Hk3 & Hrest). unfold is_segment, marked in *. fold d. change (pkt_count mm) with cnt.
  split_and!; [by destruct (cnt >? 1)..|]. exists ih', th'. split; [by destruct (cnt >? 1)|done].
Qed.

(** *** All segments *)

(** Packets of the frame, each by its length and whether its checksum is bad. The
    driver puts good ones together, and leaves a bad one alone. *)
Abbreviation pieces := (list (Z * bool)).
Definition bytes_of (g : pieces) : Z := foldr (fun x acc => x.1 + acc) 0 g.
Definition one_segment (g : pieces) : Prop :=
  (exists len, g = [(len, true)]) \/ g <> [] /\ Forall (fun x => x.2 = false) g.

(** The packets [l] carry the payload from [off] to [e], one behind the other, each
    that of its group of [gs]. *)
Fixpoint tiles (off : Z) (l : list sk_buff) (gs : list pieces) (e : Z) : Prop :=
  match l, gs with
  | [], [] => off = e
  | s :: l, g :: gs => 0 <= bytes_of g /\ one_segment g /\ is_segment off (bytes_of g) (existsb snd g) s /\
      tiles (off + bytes_of g) l gs e
  | _, _ => False
  end.

Lemma tiles_snoc off (l : list sk_buff) gs e g s : tiles off l gs e -> 0 <= bytes_of g -> one_segment g ->
  is_segment e (bytes_of g) (existsb snd g) s -> tiles off (l ++ [s]) (gs ++ [g]) (e + bytes_of g).
Proof.
  revert off gs. induction l as [|x l IH]; intros off [|g1 gs]; cbn [tiles app]; try done.
  - by intros -> Hl Hs.
  - intros (Hn & Ho & Hx & Ht) Hl Hg Hs. do 3 (split; [done|]). by apply IH.
Qed.

Lemma tiles_le off (l : list sk_buff) gs e : tiles off l gs e -> off <= e.
Proof.
  revert off gs. induction l as [|x l IH]; intros off [|g gs]; cbn [tiles]; try done; [lia|].
  intros (Hn & _ & _ & Ht). apply IH in Ht. lia.
Qed.

(** The packets of one length from the bit 0 of [mask] on. *)
Fixpoint pieces_of (n : nat) (dlen mask : Z) : pieces :=
  match n with O => [] | S n => (dlen, Z.testbit mask 0) :: pieces_of n dlen (Z.shiftr mask 1) end.

(** [cnt] good packets, which are put together. *)
Definition good (cnt dlen : Z) : pieces := replicate (Z.to_nat cnt) (dlen, false).

Lemma bytes_good cnt dlen : 0 <= cnt -> bytes_of (good cnt dlen) = dlen * cnt.
Proof.
  intros Hc. unfold good. rewrite <- (Z2Nat.id cnt) at 2 by done. induction (Z.to_nat cnt) as [|n IH]; cbn; [lia|].
  change (foldr _ 0 (replicate n (dlen, false))) with (bytes_of (replicate n (dlen, false))). lia.
Qed.

Lemma good_segment cnt dlen : 0 < cnt -> one_segment (good cnt dlen) /\ existsb snd (good cnt dlen) = false.
Proof.
  intros Hc. unfold good. split.
  - right. split; [destruct (Z.to_nat cnt) eqn:En; [lia|done]|]. by apply Forall_replicate.
  - induction (Z.to_nat cnt); done.
Qed.

Lemma good_next cnt dlen : 0 <= cnt -> good (cnt + 1) dlen = good cnt dlen ++ [(dlen, false)].
Proof. intros Hc. unfold good. replace (Z.to_nat (cnt + 1)) with (Z.to_nat cnt + 1)%nat by lia. by rewrite replicate_add. Qed.

Definition payload (s : sk_buff) : list Z := drop (Z.to_nat hlen) (k_lin s).

Lemma payload_segment off len bad s : is_segment off len bad s -> payload s = sub (k_lin coal) (hlen + off) len.
Proof.
  intros (_ & _ & _ & _ & ih & th & Hk & H1 & H2 & _). unfold payload. rewrite Hk, app_assoc.
  replace (Z.to_nat hlen) with (length (ih ++ th)); [by rewrite drop_app_length|].
  unfold hlen, zlen in *. rewrite length_app. lia.
Qed.

(** Together they are the payload of the frame. *)
Lemma tiles_payload off (l : list sk_buff) gs e : 0 <= hlen -> 0 <= off -> tiles off l gs e ->
  concat (payload <$> l) = sub (k_lin coal) (hlen + off) (e - off).
Proof.
  intros Hh. revert off gs. induction l as [|s l IH]; intros off [|g gs] Hoff; cbn [tiles]; try done.
  - intros ->. rewrite Z.sub_diag. unfold sub. by rewrite take_0.
  - intros (Hlen & _ & Hs & Ht). pose proof (tiles_le _ _ _ _ Ht). cbn [fmap list_fmap concat].
    rewrite (payload_segment _ _ _ _ Hs). rewrite (IH (off + bytes_of g) gs) by (try done; lia).
    replace (hlen + (off + bytes_of g)) with (hlen + off + bytes_of g) by lia. rewrite sub_cat by lia. f_equal. lia.
Qed.

Section loops.
Context (Ha : forall i, alloc_ok i = true) (Hh : headers_ok) (Hl : linear coal).
Context (tot : Z) (Htot : tot < 65536) (Hdata : hlen + tot <= zlen (k_lin coal)).

(** A segment behind those that are there. *)
Lemma next_spec off dlen id cnt list_ gs g id' valid a tr : tiles 0 list_ gs off -> 0 <= dlen * cnt -> off + dlen * cnt <= tot ->
  bytes_of g = dlen * cnt -> one_segment g -> existsb snd g = negb valid ->
  spec ll (segment_coal_skb coal (at_ off dlen id cnt) list_ id' valid) a tr
    (fun r _ _ => exists s, r = (at_ (off + dlen * cnt) dlen (u8 (id' + 1)) 0, list_ ++ [s]) /\
       tiles 0 (list_ ++ [s]) (gs ++ [g]) (off + dlen * cnt)).
Proof.
  intros Ht H1 H2 Hg Ho Hb. pose proof (tiles_le _ _ _ _ Ht). eapply spec_mono; [apply segment_spec; try done; lia|].
  intros r a1 tr1 (s & -> & Hs). exists s. unfold u16. rewrite Z.mod_small by (change (2 ^ 16) with 65536; lia).
  split; [done|]. rewrite <- Hg in *. apply tiles_snoc; try done. by rewrite Hb.
Qed.

(** What the loop over the packets of a length leaves: the pieces [ps] from [off] on
    are in segments, but for the last [cnt], which are still to be put together. *)
Definition looped (gro : bool) (off dlen cnt : Z) (ps : pieces) (list_ : list sk_buff) (gs : list pieces) (mask : Z)
    (r : coal_metadata * list sk_buff * Z * Z) : Prop :=
  exists off' id' cnt' list' gs' total', r = (at_ off' dlen id' cnt', list', total', Z.shiftr mask (zlen ps)) /\
    tiles 0 list' gs' off' /\ 0 <= cnt' <= cnt + zlen ps /\
    off' + dlen * cnt' = off + dlen * (cnt + zlen ps) /\
    concat gs' ++ good cnt' dlen = concat gs ++ good cnt dlen ++ ps /\
    (gro = false -> cnt' = 0 /\ zlen list' = zlen list_ + zlen ps).

Lemma zlen_cons {A} (x : A) (xs : list A) : zlen (x :: xs) = zlen xs + 1.
Proof. unfold zlen. cbn. lia. Qed.

Lemma looped_step gro off dlen cnt ps list_ gs mask x off1 cnt1 list1 gs1 r :
  off1 + dlen * cnt1 = off + dlen * (cnt + 1) -> 0 <= cnt1 <= cnt + 1 ->
  concat gs1 ++ good cnt1 dlen = concat gs ++ good cnt dlen ++ [x] ->
  (gro = false -> zlen list1 = zlen list_ + 1) -> looped gro off1 dlen cnt1 ps list1 gs1 (Z.shiftr mask 1) r ->
  looped gro off dlen cnt (x :: ps) list_ gs mask r.
Proof.
  intros Ho Hc Hp Hg (off' & id' & cnt' & list' & gs' & total' & -> & Ht & Hc' & Ho' & Hp' & Hg').
  pose proof (zlen_nonneg ps). exists off', id', cnt', list', gs', total'. rewrite zlen_cons. split_and!.
  - rewrite Z.shiftr_shiftr by lia. by rewrite (Z.add_comm 1).
  - done.
  - lia.
  - lia.
  - nia.
  - rewrite Hp', app_assoc, Hp, <- !app_assoc. done.
  - intros E1. destruct (Hg' E1) as [-> Hlen]. specialize (Hg E1). split; [done|]. lia.
Qed.

Lemma zlen_pieces n dlen mask : zlen (pieces_of n dlen mask) = Z.of_nat n.
Proof. revert mask. induction n as [|n IH]; intros mask; [done|]. cbn [pieces_of]. rewrite zlen_cons, IH. lia. Qed.

Lemma one_bad dlen : one_segment [(dlen, true)] /\ bytes_of [(dlen, true)] = dlen.
Proof. split; [left; by exists dlen|cbn; lia]. Qed.

Lemma one_piece dlen bad : one_segment [(dlen, bad)].
Proof. destruct bad; [left; by exists dlen|right; split; [done|by constructor]]. Qed.

Lemma packets_spec gro dlen : 0 <= dlen -> forall n off id cnt list_ gs total mask a tr, tiles 0 list_ gs off ->
  0 <= cnt -> cnt + Z.of_nat n < 256 -> off + dlen * (cnt + Z.of_nat n) <= tot -> (gro = false -> cnt = 0) ->
  spec ll (packet_loop n coal gro (at_ off dlen id cnt) list_ total mask) a tr
    (fun r _ _ => looped gro off dlen cnt (pieces_of n dlen mask) list_ gs mask r).
Proof.
  intros Hd. induction n as [|n IH]; intros off id cnt list_ gs total mask a tr Ht Hc Hn Ho Hg; cbn [packet_loop pieces_of].
  - apply spec_ret. exists off, id, cnt, list_, gs, total. change (zlen []) with 0.
    rewrite Z.shiftr_0_r, app_nil_r. split_and!; [done|done|lia|lia|lia|done|]. intros E1. split; [auto|lia].
  - apply spec_bind. destruct (Z.testbit mask 0) eqn:Eb, gro; cbn [negb].
    + apply spec_bind, spec_count, spec_bind. change (pkt_count (at_ off dlen id cnt)) with cnt.
      apply (spec_mono _ _ _ _ (fun r _ _ => exists off1 id1 list1 gs1, r = (at_ off1 dlen id1 0, list1) /\ tiles 0 list1 gs1 off1 /\
        off1 = off + dlen * cnt /\ concat gs1 = concat gs ++ good cnt dlen)).
      { case_if.
        - assert (0 < cnt) by (unfold truthy in *; zbool; lia). destruct (good_segment cnt dlen) as [Hs1 Hs2]; [done|].
          eapply spec_mono; [apply (next_spec _ _ _ _ _ gs (good cnt dlen)); try done; [nia|nia|by apply bytes_good]|].
          intros r a1 tr1 (s & -> & Hs). exists (off + dlen * cnt), (u8 (total + 1)), (list_ ++ [s]), (gs ++ [good cnt dlen]).
          split_and!; try done. rewrite concat_app. cbn. by rewrite app_nil_r.
        - assert (cnt = 0) as -> by (unfold truthy in *; zbool; lia). apply spec_ret. exists off, id, list_, gs.
          split_and!; [done|done|lia|by rewrite app_nil_r]. }
      intros r a1 tr1 (off1 & id1 & list1 & gs1 & -> & Ht1 & Ho1 & Hp1). cbv beta iota.
      change (set_pkt_count 1 (at_ off1 dlen id1 0)) with (at_ off1 dlen id1 1). destruct (one_bad dlen) as [Hb1 Hb2].
      eapply spec_mono; [apply (next_spec _ _ _ _ _ gs1 [(dlen, true)]); try done; nia|]. intros r a2 tr2 (s & -> & Hs). cbv beta iota.
      eapply spec_mono; [apply IH; try done; nia|]. intros r a3 tr3. apply looped_step; [nia|lia| |done].
      rewrite concat_app, Hp1. cbn. by rewrite !app_nil_r, <- app_assoc.
    + rewrite (Hg eq_refl) in *. cbv zeta. change (set_pkt_count 1 (at_ off dlen id 0)) with (at_ off dlen id 1). apply spec_bind.
      apply spec_count. destruct (one_bad dlen) as [Hb1 Hb2].
      eapply spec_mono; [apply (next_spec _ _ _ _ _ gs [(dlen, true)]); try done; nia|]. intros r a2 tr2 (s & -> & Hs). cbv beta iota.
      eapply spec_mono; [apply IH; try done; nia|]. intros r a3 tr3. apply looped_step; [nia|lia| |].
      * rewrite concat_app. cbn. by rewrite !app_nil_r.
      * intros _. rewrite zlen_app. done.
    + apply spec_ret. cbv beta iota. change (set_pkt_count _ (at_ off dlen id cnt)) with (at_ off dlen id (u8 (cnt + 1))).
      replace (u8 (cnt + 1)) with (cnt + 1) by (unfold u8; rewrite Z.mod_small; [done|change (2 ^ 8) with 256; lia]).
      eapply spec_mono; [apply IH; try done; nia|]. intros r a1 tr1. apply looped_step; [lia|lia| |done].
      by rewrite good_next.
    + rewrite (Hg eq_refl) in *. cbv zeta. change (set_pkt_count 1 (at_ off dlen id 0)) with (at_ off dlen id 1).
      apply spec_bind. cbn [when]. apply spec_ret.
      eapply spec_mono; [apply (next_spec _ _ _ _ _ gs [(dlen, false)]); try done; [nia|nia|cbn; lia|apply one_piece]|].
      intros r a2 tr2 (s & -> & Hs). cbv beta iota.
      eapply spec_mono; [apply IH; try done; nia|]. intros r a3 tr3. apply looped_step; [nia|lia| |].
      * rewrite concat_app. cbn. by rewrite !app_nil_r.
      * intros _. rewrite zlen_app. done.
Qed.

Definition payload_len (l : list nl_pair) : Z :=
  foldr (fun nl acc => num_packets nl * u16 (nl_pkt_len nl - hlen) + acc) 0 l.

Definition packets (l : list nl_pair) : Z := foldr (fun nl acc => num_packets nl + acc) 0 l.

Definition nl_ok (nl : nl_pair) : Prop := 0 <= num_packets nl < 256.

Lemma payload_len_nonneg (l : list nl_pair) : Forall nl_ok l -> 0 <= payload_len l.
Proof.
  induction 1 as [|nl l [Hn _] _ IH]; [done|]. cbn. fold (payload_len l). pose proof (u16_range (nl_pkt_len nl - hlen)). nia.
Qed.

(** The packets of the frame, in order; bit [i] of the mask is set when the
    checksum of packet [i] is bad. *)
Fixpoint frame_pieces (l : list nl_pair) (i mask : Z) : pieces :=
  match l with
  | [] => []
  | nl :: l =>
      map (fun j => (u16 (nl_pkt_len nl - hlen), Z.testbit mask (i + j))) (seqZ 0 (num_packets nl)) ++
      frame_pieces l (i + num_packets nl) mask
  end.

Lemma pieces_of_bits n dlen mask i : 0 <= i ->
  pieces_of n dlen (Z.shiftr mask i) = map (fun j => (dlen, Z.testbit mask (i + j))) (seqZ 0 (Z.of_nat n)).
Proof.
  revert i. induction n as [|n IH]; intros i Hi; [done|]. cbn [pieces_of]. rewrite Nat2Z.inj_succ, seqZ_cons by lia.
  cbn [map]. rewrite Z.shiftr_spec, Z.add_0_l, Z.add_0_r by lia. f_equal.
  rewrite Z.shiftr_shiftr, IH by lia. replace (Z.pred (Z.succ (Z.of_nat n))) with (Z.of_nat n) by lia.
  change (Z.succ 0) with 1. rewrite <- (Z.add_0_r 1), <- (fmap_add_seqZ 1 0). rewrite map_map. apply List.map_ext.
  intros j. do 2 f_equal. lia.
Qed.

Lemma nlos_spec gro mask (l : list nl_pair) : Forall nl_ok l -> forall i off dlen id list_ gs total a tr, 0 <= i ->
  tiles 0 list_ gs off -> off + payload_len l <= tot ->
  spec ll (nlo_loop l coal gro (at_ off dlen id 0) list_ total (Z.shiftr mask i)) a tr
    (fun list' _ _ => exists gs', tiles 0 list' gs' (off + payload_len l) /\ concat gs' = concat gs ++ frame_pieces l i mask /\
       (gro = false -> zlen list' = zlen list_ + packets l)).
Proof.
  induction 1 as [|nl l [Hn1 Hn2] Hrest IH]; intros i off dlen id list_ gs total a tr Hi Ht Ho;
    cbn [nlo_loop payload_len packets frame_pieces foldr].
  { apply spec_ret. rewrite Z.add_0_r. exists gs. rewrite app_nil_r. split_and!; [done|done|lia]. }
  cbn [payload_len foldr] in Ho. fold (payload_len l) in *. fold (packets l). pose proof (payload_len_nonneg l Hrest).
  set (d := u16 (nl_pkt_len nl - hlen)) in *. assert (0 <= d) by apply (u16_range (nl_pkt_len nl - hlen)).
  change (set_data_len _ (at_ off dlen id 0)) with (at_ off d id 0). apply spec_bind.
  set (ps := pieces_of (Z.to_nat (num_packets nl)) d (Z.shiftr mask i)).
  assert (Hps : ps = map (fun j => (d, Z.testbit mask (i + j))) (seqZ 0 (num_packets nl))).
  { unfold ps. by rewrite pieces_of_bits, Z2Nat.id by lia. }
  assert (Hzp : zlen ps = num_packets nl) by (unfold ps; rewrite zlen_pieces; lia).
  eapply spec_mono; [apply (packets_spec gro d) with (gs := gs); try done; nia|]. fold ps.
  intros r a1 tr1 (off1 & id1 & cnt1 & list1 & gs1 & total1 & -> & Ht1 & Hc1 & Ho1 & Hp1 & Hg1). cbv beta iota.
  rewrite Hzp in *. rewrite <- Hps. apply spec_bind. change (pkt_count (at_ off1 d id1 cnt1)) with cnt1.
  change (good 0 d) with ([] : pieces) in Hp1. cbn [app] in Hp1.
  apply (spec_mono _ _ _ _ (fun r _ _ => exists id2 list2 gs2, r = (at_ (off + d * num_packets nl) d id2 0, list2) /\
    tiles 0 list2 gs2 (off + d * num_packets nl) /\ concat gs2 = concat gs ++ ps /\ (gro = false -> zlen list2 = zlen list1))).
  { assert (He : off1 + d * cnt1 = off + d * num_packets nl) by lia. case_if.
    - assert (0 < cnt1) by (unfold truthy in *; zbool; lia). destruct (good_segment cnt1 d) as [Hs1 Hs2]; [done|].
      eapply spec_mono; [apply (next_spec _ _ _ _ _ gs1 (good cnt1 d)); try done; [nia|nia|by apply bytes_good; lia]|].
      intros r a2 tr2 (s & -> & Hs). rewrite He in Hs |- *.
      exists (u8 (total1 + 1)), (list1 ++ [s]), (gs1 ++ [good cnt1 d]). split_and!; [done|done| |].
      + rewrite concat_app. cbn. by rewrite app_nil_r.
      + intros E1. destruct (Hg1 E1) as [-> _]. done.
    - assert (cnt1 = 0) as -> by (unfold truthy in *; zbool; lia). apply spec_ret. rewrite <- He, Z.mul_0_r, Z.add_0_r.
      exists id1, list1, gs1. split_and!; [done|done| |done]. by rewrite <- Hp1, app_nil_r. }
  intros r a2 tr2 (id2 & list2 & gs2 & -> & Ht2 & Hp2 & Hg2). cbv beta iota.
  rewrite Z.shiftr_shiftr by lia. eapply spec_mono; [apply (IH (i + num_packets nl)) with (gs := gs2); [lia|done|nia]|].
  intros list' a3 tr3 (gs3 & Ht3 & Hp3 & Hg3). exists gs3.
  split; [by replace (off + (num_packets nl * d + payload_len l)) with (off + d * num_packets nl + payload_len l) by lia|].
  split; [by rewrite Hp3, Hp2, <- app_assoc|].
  intros E1. destruct (Hg1 E1) as [_ Hlen]. specialize (Hg2 E1). specialize (Hg3 E1). lia.
Qed.

End loops.

(** The headers that the driver understands. *)
Definition long_enough : Prop :=
  (ip_proto m = 4 -> 20 <= ip_len m) /\ (ip_proto m = 6 -> 40 <= ip_len m) /\ (trans_proto m = IPPROTO_TCP -> 20 <= trans_len m).

End segment.

(** ** From the headers of the frame *)

Section frame.
Context `{E : RmnetEnv}.

Lemma rd_inv l i n x n' : rd l i n = Ret x n' -> l !! Z.to_nat i = Some x /\ n' = n.
Proof. unfold rd, deref. destruct (l !! Z.to_nat i); [|done]. by intros [= -> ->]. Qed.

Lemma slice_inv l i m n v n' : slice l i m n = Ret v n' -> v = sub l i m /\ i + m <= zlen l /\ n' = n.
Proof. unfold slice. case_if; [done|]. intros [= <- <-]. by split_and!. Qed.

(** A packet whose transport header was understood. *)
Definition understood (k : sk_buff) (proto : Z) (m : coal_metadata) : Prop :=
  m = at_ m 0 0 0 0 /\ ip_proto m = proto /\ ip_header m = sub (k_lin k) 0 (ip_len m) /\ ip_len m <= zlen (k_lin k) /\
  trans_header m = sub (k_lin k) (ip_len m) (trans_len m) /\ ip_len m + trans_len m <= zlen (k_lin k) /\
  (trans_proto m = IPPROTO_TCP \/ trans_proto m = IPPROTO_UDP /\ trans_len m = 8).

Lemma coal_meta_inv k n m gro zc n' : linear k -> coal_meta_of k n = Ret (Some (m, gro, zc)) n' ->
  understood k 6 m \/ (understood k 4 m /\ exists b, k_lin k !! 0%nat = Some b /\ ip_len m = Z.land b 15 * 4).
Proof.
  intros Hl. destruct (linear_facts k Hl) as (_ & Hptr & _).
  assert (Ht : forall pr il tp g n1, coal_transport k pr il tp g n1 = Ret (Some (m, gro, zc)) n' -> understood k pr m /\ ip_len m = il).
  { intros pr il tp g n1 H. unfold coal_transport in H. rewrite Hptr in H. cbv zeta in H. apply bind_inv in H as (ih & n2 & H1 & H).
    apply slice_inv in H1 as (-> & Hi & ->). revert H. case_if; [|case_if].
    - intros H. apply bind_inv in H as (doff & n3 & H2 & H). apply rd_inv in H2 as [_ ->].
      apply bind_inv in H as (th & n3 & H2 & H). apply slice_inv in H2 as (-> & Hj & ->). injection H as <- _ _ _.
      split; [|done]. unfold understood. cbn. split_and!; try done. by left.
    - intros H. apply bind_inv in H as (th & n3 & H2 & H). apply slice_inv in H2 as (-> & Hj & ->).
      apply bind_inv in H as (ck & n3 & H2 & H). injection H as <- _ _ _.
      split; [|done]. unfold understood. cbn. split_and!; try done. by right.
    - intros H. by apply bind_inv in H as ([] & n3 & _ & H). }
  unfold coal_meta_of. rewrite Hptr. cbv zeta. intros H. apply bind_inv in H as (b & n1 & H1 & H). apply rd_inv in H1 as [Hb ->]. revert H.
  case_if; [|case_if].
  - intros H. apply bind_inv in H as (proto & n2 & _ & H). apply Ht in H as [H1 H2]. right. split; [done|]. by exists b.
  - intros H. apply bind_inv in H as (nh & n2 & _ & H). destruct (ipv6_skip_exthdr _ _ _) as [[len proto] frag].
    revert H. case_if; [intros H; by apply bind_inv in H as ([] & n3 & _ & H)|]. intros Hc. apply Ht in Hc as [H1 _]. by left.
  - intros H. by apply bind_inv in H as ([] & n3 & _ & H).
Qed.

Lemma understood_headers k n m gro zc n' : linear k -> coal_meta_of k n = Ret (Some (m, gro, zc)) n' -> long_enough m ->
  headers_ok m /\ m = at_ m 0 0 0 0.
Proof.
  intros Hl H (H4 & H6 & Htcp).
  assert (Hu : forall pr, understood k pr m -> 0 <= ip_len m -> zlen (ip_header m) = ip_len m /\ zlen (trans_header m) = trans_len m /\
    (trans_proto m = IPPROTO_TCP /\ 20 <= trans_len m \/ trans_proto m = IPPROTO_UDP /\ trans_len m = 8)).
  { intros pr (_ & _ & -> & Hi & -> & Hj & Hp) H0. assert (0 <= trans_len m) by (destruct Hp as [Hp|[_ ->]]; [specialize (Htcp Hp)|]; lia).
    rewrite !zlen_sub by lia. split_and!; try done. destruct Hp as [Hp|Hp]; [left; auto|by right]. }
  destruct (coal_meta_inv _ _ _ _ _ _ Hl H) as [Hm|[Hm (b & Hb & Hlen)]]; pose proof Hm as (Hat & Hip & Hihd & Hi & _).
  - specialize (H6 Hip). destruct (Hu _ Hm) as (H1 & H2 & H3); [lia|]. split; [|done]. split_and!; try done. right. lia.
  - specialize (H4 Hip). destruct (Hu _ Hm) as (H1 & H2 & H3); [lia|]. split; [|done]. split_and!; try done. left. split_and!; [done|done|].
    exists b. split; [|lia]. rewrite Hihd, lookup_sub by lia. exact Hb.
Qed.


End frame.

(** ** An example: three packets of TCP, the second with a bad checksum *)

Definition demo_tcp : list Z :=
  [69; 0; 0; 52; 0; 9; 0; 0; 64; 6; 0; 0; 10; 0; 0; 1; 10; 0; 0; 2;
   0; 80; 0; 80; 0; 0; 1; 0; 0; 0; 0; 0; 80; 24; 0; 0; 0; 0; 0; 0].

Definition demo_coal : sk_buff := demo_skb (demo_tcp ++ [1; 2; 3; 4; 5; 6; 7; 8; 9; 10; 11; 12]).

Definition demo_meta : coal_metadata :=
  mk_meta (take 20 demo_tcp) (drop 20 demo_tcp) 20 20 0 0 4 IPPROTO_TCP 0 0.

Definition demo_nls : list nl_pair := [mk_nl 45 0 2; mk_nl 42 0 1].

Lemma demo_nls_ok : Forall nl_ok demo_nls.
Proof. repeat (constructor; [by vm_compute|]). constructor. Qed.

