(* ===== verification/RmnetFindings.v ===== *)
(** * RmNet: what the code does at its edges

    Runs on concrete packets that show where the code does what it does not mean
    to, or what its comments do not say. *)

From S2P Require Import Prelude Outcome RmnetSkb RmnetMap RmnetCoal RmnetAgg RmnetRx RmnetSplit.
From S2P Require Import RmnetOrder RmnetRoundtrip RmnetSegment.

(** The packets that a run delivers. *)
Definition delivered {A} (o : outcome net A) : option (list (Z * Z * list Z)) :=
  match o with Ret _ n => Some (deliveries (n_trace n)) | _ => None end.

(** A buffer of two bytes: [rmnet_map_deaggregate] reads a MAP header of four. *)
Lemma short_buffer_faults : deaggregate_loop 5 map_ingress_one (demo_skb [64; 1]) demo_net = Fault.
Proof. by vm_compute. Qed.

(** A padding that is longer than the packet: the length wraps around at 16 bits,
    and the padding is delivered as part of the packet. *)
Lemma long_padding_delivered :
  delivered (map_ingress_one (demo_skb ([4; 1; 0; 3] ++ demo_packet 1)) demo_net) = Some [(7, ETH_P_IP, demo_packet 1)].
Proof. by vm_compute. Qed.

(** The packets of a coalesced frame are counted in 8 bits: 256 of them pass the
    check for at most 48. *)
Lemma packet_count_wraps : check_pairs [mk_nl 0 0 48; mk_nl 0 0 208] 0 0 0 = Some (0, 0).
Proof. by vm_compute. Qed.

(** A listener of a higher priority than all others is not registered when the
    byte that is read through the head of the list is not above it. *)
Lemma listener_lost : ind_register 0 (mk_ind 5 2) [mk_ind 3 1] = [mk_ind 3 1].
Proof. by vm_compute. Qed.

(** In the configuration of [rmnet_map_tx_aggregate_init], a packet of 3900 bytes is
    below the size of a frame, and larger than its room. *)
Lemma default_size_overflows :
  (rmnet_map_tx_aggregate_init ;; rmnet_map_tx_aggregate false (demo_skb (replicate 3900 0))) demo_net = Fault.
Proof. by vm_compute. Qed.

(** The identifications of IPv4 of the packets of a split. *)
Definition ids (o : outcome net (list sk_buff)) : list (list Z) :=
  match o with Ret l _ => map (fun s => sub (k_lin s) 4 2) l | _ => [] end.

(** Three packets of 2, 2 and 4 bytes with identifications from 9 on: when the
    first two stay together, the third gets 12 in the place of 11. *)
Lemma identification_skips :
  ids (nlo_loop [mk_nl 42 0 2; mk_nl 44 0 1] demo_coal true demo_meta [] 0 0 demo_net) = [[0; 9]; [0; 12]] /\
  ids (nlo_loop [mk_nl 42 0 2; mk_nl 44 0 1] demo_coal false demo_meta [] 0 0 demo_net) = [[0; 9]; [0; 10]; [0; 11]].
Proof. by vm_compute. Qed.

(** The payloads of the packets of a split. *)
Definition payloads (o : outcome net (list sk_buff)) : list (list Z) :=
  match o with Ret l _ => map (payload demo_meta) l | _ => [] end.

(** When there is no memory for the second of three packets, the third is made of
    the bytes of the second, and the bytes of the third are lost. *)
Lemma no_memory_shifts_data :
  payloads (nlo_loop (E := demo_kernel_with (fun i => negb (i =? 1)%nat) 1 0) [mk_nl 44 0 3] demo_coal false demo_meta [] 0 0 demo_net)
  = [[1; 2; 3; 4]; [5; 6; 7; 8]].
Proof. by vm_compute. Qed.

(** With recycling of pages, the entry behind the last page is the head of their
    list; when what is read there looks like a free page, it is taken for one. *)
Lemma recycling_reads_head :
  let E := demo_kernel_with (fun _ => true) 2 1 in
  recycle_loop (E := E) 6 false 0 (set_n_agg (set_a_list [100] (set_a_head (Some 0%nat) agg_zero)) demo_net) = Fault.
Proof. by vm_compute. Qed.

(** Packets with a bad checksum are made, with a checksum that is wrong; the
    comment of the split says that they are not included. *)
Lemma bad_checksum_included :
  payloads (nlo_loop [mk_nl 44 0 3] demo_coal false demo_meta [] 0 2 demo_net)
  = [[1; 2; 3; 4]; [5; 6; 7; 8]; [9; 10; 11; 12]].
Proof. by vm_compute. Qed.
