(* ===== verification/DfcState.v ===== *)
(** * RmNet flow control: bearers, flows and queues

    The modem grants each bearer of a RmNet device an amount of bytes; the device
    stops the transmit queue of a bearer whose grant is used up. This file has
    the data of datarmnet/core/qmi_rmnet_i.h, the state of one device and the
    steps on it that the other files share. *)

From stdpp Require Export gmap.
From S2P Require Import Prelude.
From S2P Require Export Outcome.

(** ** Constants *)

Definition MAX_MQ_NUM : Z := 16.
Definition DEFAULT_GRANT : Z := 1.
Definition DEFAULT_CALL_GRANT : Z := 20480.
Definition DFC_MAX_BEARERS_V01 : Z := 16.
Definition DEFAULT_MQ_NUM : Z := 0.
Definition ACK_MQ_OFFSET : Z := MAX_MQ_NUM - 1.
Definition INVALID_MQ : Z := 255.
Definition DFC_MODE_SA : Z := 4.
Definition PS_MAX_BEARERS : Z := 32.
Definition RMNET_CH_DEFAULT : Z := 0.
Definition RMNET_CH_LL : Z := 1.
Definition RMNET_CH_MAX : Z := 2.
Definition RMNET_CH_CTL : Z := 255.
Definition QMAP_CMD_DONE : Z := -1.
Definition QMAP_CMD_ACK : Z := 1.
Definition QMAP_CMD_INVALID : Z := 3.
Definition DFC_ACK_TYPE_DISABLE : Z := 1.
Definition DFC_ACK_TYPE_THRESHOLD : Z := 2.
Definition DFC_IS_TCP_BIDIR (r : Z) : bool := truthy (Z.land r 1).
Definition DFC_IS_RAT_SWITCH (r : Z) : bool := truthy (Z.land r 2).

(** [linux/errno.h] and the address families *)
Definition ENOMEM : Z := 12.
Definition EFAULT : Z := 14.
Definition EBUSY : Z := 16.
Definition EINVAL : Z := 22.
Definition ECOMM : Z := 70.
Definition EOPNOTSUPP : Z := 95.
Definition AF_INET : Z := 2.
Definition AF_INET6 : Z := 10.

(** ** Data *)

Inductive ch_state := CH_SWITCH_NONE | CH_SWITCH_STARTED | CH_SWITCH_ACKED | CH_SWITCH_FAILED_RETRY.

#[export] Instance ch_state_eq_dec : EqDecision ch_state.
Proof. solve_decision. Defined.

Record rmnet_ch_switch := mk_switch {
  s_current_ch : Z;
  s_switch_to_ch : Z;
  s_retry_left : Z;
  s_status_code : Z;
  s_auto_switched : bool;
  s_state : ch_state;
  s_switch_txid : Z;
  s_flags : Z;
  s_timer_quit : bool;
  s_guard_timer : bool;   (* the timer is pending *)
  s_nl_pid : Z;
  s_nl_seq : Z
}.

Record rmnet_bearer_map := mk_bearer {
  b_bearer_id : Z;
  b_flow_ref : Z;
  b_grant_size : Z;
  b_grant_thresh : Z;
  b_seq : Z;
  b_ack_req : Z;
  b_last_grant : Z;
  b_last_seq : Z;
  b_bytes_in_flight : Z;
  b_last_adjusted_grant : Z;
  b_tcp_bidir : bool;
  b_rat_switch : bool;
  b_tx_off : bool;
  b_ack_txid : Z;
  b_mq_idx : Z;
  b_ack_mq_idx : Z;
  b_watchdog : bool;   (* the timer is pending *)
  b_watchdog_started : bool;
  b_watchdog_quit : bool;
  b_watchdog_expire_cnt : Z;
  b_ch_switch : rmnet_ch_switch
}.

Record rmnet_flow_map := mk_flow {
  f_bearer_id : Z;
  f_flow_id : Z;
  f_ip_type : Z;
  f_mq_idx : Z;
  f_bearer : option Z
}.

Record mq_map := mk_mq {
  mq_bearer : option Z;
  mq_is_ll_ch : bool;
  mq_drop_on_remove : bool
}.

(** The messages to the modem and to the client of a channel switch. *)
Inductive message :=
| DfcAck (mux_id bearer_id seq type tran_num : Z)               (* dfc_send_ack *)
| DfcQuery (mux_id bearer_id txid : Z)                          (* dfc_qmap_send_query *)
| EndMarkerCnf (mux_id bearer_id seq txid ch : Z)               (* dfc_qmap_send_end_marker_cnf *)
| LlSwitch (mux_id request_type : Z) (bearers : list Z) (txid : Z)  (* ll_qmap_send_switch *)
| NlAck (pid seq bearer_id status_code current_ch : Z).         (* ll_send_nl_ack *)

(** [struct qos_info] with the transmit queues of its device; a queue is stopped
    or runs. Bearers are structs at an address, flows are values in their
    list. *)
Record qos_info := mk_qos {
  q_heap : gmap Z rmnet_bearer_map;   (* the allocated bearers *)
  q_next : Z;   (* the next address *)
  q_bearers : list Z;   (* bearer_head *)
  q_flows : list rmnet_flow_map;   (* flow_head *)
  q_mq : list mq_map;
  q_mux_id : Z;
  q_tran_num : Z;
  q_removed : option Z;   (* removed_bearer *)
  q_locked : bool;   (* qos_lock is held *)
  q_stopped : list bool   (* the transmit queues of vnd_dev *)
}.

Record kernel := mk_kernel {
  k_mem : list bool;   (* whether the next allocations fail *)
  k_ctl : list bool;   (* whether the next sends to rmnet_ctl fail *)
  k_txid : Z;   (* qmap_txid *)
  k_ll_wq : bool;   (* the work queue exists *)
  k_sent : list message   (* what was sent, oldest first *)
}.

Record dfc_dev := mk_dev {
  d_q : qos_info;   (* the device and its bearers *)
  d_k : kernel   (* what all devices share *)
}.

(** ** Updates of a field *)

Definition set_s_current_ch (x : Z) (s : rmnet_ch_switch) : rmnet_ch_switch :=
  mk_switch x (s_switch_to_ch s) (s_retry_left s) (s_status_code s) (s_auto_switched s)
    (s_state s) (s_switch_txid s) (s_flags s) (s_timer_quit s) (s_guard_timer s) (s_nl_pid s)
    (s_nl_seq s).
Definition set_s_switch_to_ch (x : Z) (s : rmnet_ch_switch) : rmnet_ch_switch :=
  mk_switch (s_current_ch s) x (s_retry_left s) (s_status_code s) (s_auto_switched s) (s_state s)
    (s_switch_txid s) (s_flags s) (s_timer_quit s) (s_guard_timer s) (s_nl_pid s) (s_nl_seq s).
Definition set_s_retry_left (x : Z) (s : rmnet_ch_switch) : rmnet_ch_switch :=
  mk_switch (s_current_ch s) (s_switch_to_ch s) x (s_status_code s) (s_auto_switched s)
    (s_state s) (s_switch_txid s) (s_flags s) (s_timer_quit s) (s_guard_timer s) (s_nl_pid s)
    (s_nl_seq s).
Definition set_s_status_code (x : Z) (s : rmnet_ch_switch) : rmnet_ch_switch :=
  mk_switch (s_current_ch s) (s_switch_to_ch s) (s_retry_left s) x (s_auto_switched s) (s_state s)
    (s_switch_txid s) (s_flags s) (s_timer_quit s) (s_guard_timer s) (s_nl_pid s) (s_nl_seq s).
Definition set_s_auto_switched (x : bool) (s : rmnet_ch_switch) : rmnet_ch_switch :=
  mk_switch (s_current_ch s) (s_switch_to_ch s) (s_retry_left s) (s_status_code s) x (s_state s)
    (s_switch_txid s) (s_flags s) (s_timer_quit s) (s_guard_timer s) (s_nl_pid s) (s_nl_seq s).
Definition set_s_state (x : ch_state) (s : rmnet_ch_switch) : rmnet_ch_switch :=
  mk_switch (s_current_ch s) (s_switch_to_ch s) (s_retry_left s) (s_status_code s)
    (s_auto_switched s) x (s_switch_txid s) (s_flags s) (s_timer_quit s) (s_guard_timer s)
    (s_nl_pid s) (s_nl_seq s).
Definition set_s_switch_txid (x : Z) (s : rmnet_ch_switch) : rmnet_ch_switch :=
  mk_switch (s_current_ch s) (s_switch_to_ch s) (s_retry_left s) (s_status_code s)
    (s_auto_switched s) (s_state s) x (s_flags s) (s_timer_quit s) (s_guard_timer s) (s_nl_pid s)
    (s_nl_seq s).
Definition set_s_flags (x : Z) (s : rmnet_ch_switch) : rmnet_ch_switch :=
  mk_switch (s_current_ch s) (s_switch_to_ch s) (s_retry_left s) (s_status_code s)
    (s_auto_switched s) (s_state s) (s_switch_txid s) x (s_timer_quit s) (s_guard_timer s)
    (s_nl_pid s) (s_nl_seq s).
Definition set_s_timer_quit (x : bool) (s : rmnet_ch_switch) : rmnet_ch_switch :=
  mk_switch (s_current_ch s) (s_switch_to_ch s) (s_retry_left s) (s_status_code s)
    (s_auto_switched s) (s_state s) (s_switch_txid s) (s_flags s) x (s_guard_timer s) (s_nl_pid s)
    (s_nl_seq s).
Definition set_s_guard_timer (x : bool) (s : rmnet_ch_switch) : rmnet_ch_switch :=
  mk_switch (s_current_ch s) (s_switch_to_ch s) (s_retry_left s) (s_status_code s)
    (s_auto_switched s) (s_state s) (s_switch_txid s) (s_flags s) (s_timer_quit s) x (s_nl_pid s)
    (s_nl_seq s).
Definition set_s_nl_pid (x : Z) (s : rmnet_ch_switch) : rmnet_ch_switch :=
  mk_switch (s_current_ch s) (s_switch_to_ch s) (s_retry_left s) (s_status_code s)
    (s_auto_switched s) (s_state s) (s_switch_txid s) (s_flags s) (s_timer_quit s)
    (s_guard_timer s) x (s_nl_seq s).
Definition set_s_nl_seq (x : Z) (s : rmnet_ch_switch) : rmnet_ch_switch :=
  mk_switch (s_current_ch s) (s_switch_to_ch s) (s_retry_left s) (s_status_code s)
    (s_auto_switched s) (s_state s) (s_switch_txid s) (s_flags s) (s_timer_quit s)
    (s_guard_timer s) (s_nl_pid s) x.

Definition set_b_bearer_id (x : Z) (b : rmnet_bearer_map) : rmnet_bearer_map :=
  mk_bearer x (b_flow_ref b) (b_grant_size b) (b_grant_thresh b) (b_seq b) (b_ack_req b)
    (b_last_grant b) (b_last_seq b) (b_bytes_in_flight b) (b_last_adjusted_grant b)
    (b_tcp_bidir b) (b_rat_switch b) (b_tx_off b) (b_ack_txid b) (b_mq_idx b) (b_ack_mq_idx b)
    (b_watchdog b) (b_watchdog_started b) (b_watchdog_quit b) (b_watchdog_expire_cnt b)
    (b_ch_switch b).
Definition set_b_flow_ref (x : Z) (b : rmnet_bearer_map) : rmnet_bearer_map :=
  mk_bearer (b_bearer_id b) x (b_grant_size b) (b_grant_thresh b) (b_seq b) (b_ack_req b)
    (b_last_grant b) (b_last_seq b) (b_bytes_in_flight b) (b_last_adjusted_grant b)
    (b_tcp_bidir b) (b_rat_switch b) (b_tx_off b) (b_ack_txid b) (b_mq_idx b) (b_ack_mq_idx b)
    (b_watchdog b) (b_watchdog_started b) (b_watchdog_quit b) (b_watchdog_expire_cnt b)
    (b_ch_switch b).
Definition set_b_grant_size (x : Z) (b : rmnet_bearer_map) : rmnet_bearer_map :=
  mk_bearer (b_bearer_id b) (b_flow_ref b) x (b_grant_thresh b) (b_seq b) (b_ack_req b)
    (b_last_grant b) (b_last_seq b) (b_bytes_in_flight b) (b_last_adjusted_grant b)
    (b_tcp_bidir b) (b_rat_switch b) (b_tx_off b) (b_ack_txid b) (b_mq_idx b) (b_ack_mq_idx b)
    (b_watchdog b) (b_watchdog_started b) (b_watchdog_quit b) (b_watchdog_expire_cnt b)
    (b_ch_switch b).
Definition set_b_grant_thresh (x : Z) (b : rmnet_bearer_map) : rmnet_bearer_map :=
  mk_bearer (b_bearer_id b) (b_flow_ref b) (b_grant_size b) x (b_seq b) (b_ack_req b)
    (b_last_grant b) (b_last_seq b) (b_bytes_in_flight b) (b_last_adjusted_grant b)
    (b_tcp_bidir b) (b_rat_switch b) (b_tx_off b) (b_ack_txid b) (b_mq_idx b) (b_ack_mq_idx b)
    (b_watchdog b) (b_watchdog_started b) (b_watchdog_quit b) (b_watchdog_expire_cnt b)
    (b_ch_switch b).
Definition set_b_seq (x : Z) (b : rmnet_bearer_map) : rmnet_bearer_map :=
  mk_bearer (b_bearer_id b) (b_flow_ref b) (b_grant_size b) (b_grant_thresh b) x (b_ack_req b)
    (b_last_grant b) (b_last_seq b) (b_bytes_in_flight b) (b_last_adjusted_grant b)
    (b_tcp_bidir b) (b_rat_switch b) (b_tx_off b) (b_ack_txid b) (b_mq_idx b) (b_ack_mq_idx b)
    (b_watchdog b) (b_watchdog_started b) (b_watchdog_quit b) (b_watchdog_expire_cnt b)
    (b_ch_switch b).
Definition set_b_ack_req (x : Z) (b : rmnet_bearer_map) : rmnet_bearer_map :=
  mk_bearer (b_bearer_id b) (b_flow_ref b) (b_grant_size b) (b_grant_thresh b) (b_seq b) x
    (b_last_grant b) (b_last_seq b) (b_bytes_in_flight b) (b_last_adjusted_grant b)
    (b_tcp_bidir b) (b_rat_switch b) (b_tx_off b) (b_ack_txid b) (b_mq_idx b) (b_ack_mq_idx b)
    (b_watchdog b) (b_watchdog_started b) (b_watchdog_quit b) (b_watchdog_expire_cnt b)
    (b_ch_switch b).
Definition set_b_last_grant (x : Z) (b : rmnet_bearer_map) : rmnet_bearer_map :=
  mk_bearer (b_bearer_id b) (b_flow_ref b) (b_grant_size b) (b_grant_thresh b) (b_seq b)
    (b_ack_req b) x (b_last_seq b) (b_bytes_in_flight b) (b_last_adjusted_grant b) (b_tcp_bidir b)
    (b_rat_switch b) (b_tx_off b) (b_ack_txid b) (b_mq_idx b) (b_ack_mq_idx b) (b_watchdog b)
    (b_watchdog_started b) (b_watchdog_quit b) (b_watchdog_expire_cnt b) (b_ch_switch b).
Definition set_b_last_seq (x : Z) (b : rmnet_bearer_map) : rmnet_bearer_map :=
  mk_bearer (b_bearer_id b) (b_flow_ref b) (b_grant_size b) (b_grant_thresh b) (b_seq b)
    (b_ack_req b) (b_last_grant b) x (b_bytes_in_flight b) (b_last_adjusted_grant b)
    (b_tcp_bidir b) (b_rat_switch b) (b_tx_off b) (b_ack_txid b) (b_mq_idx b) (b_ack_mq_idx b)
    (b_watchdog b) (b_watchdog_started b) (b_watchdog_quit b) (b_watchdog_expire_cnt b)
    (b_ch_switch b).
Definition set_b_bytes_in_flight (x : Z) (b : rmnet_bearer_map) : rmnet_bearer_map :=
  mk_bearer (b_bearer_id b) (b_flow_ref b) (b_grant_size b) (b_grant_thresh b) (b_seq b)
    (b_ack_req b) (b_last_grant b) (b_last_seq b) x (b_last_adjusted_grant b) (b_tcp_bidir b)
    (b_rat_switch b) (b_tx_off b) (b_ack_txid b) (b_mq_idx b) (b_ack_mq_idx b) (b_watchdog b)
    (b_watchdog_started b) (b_watchdog_quit b) (b_watchdog_expire_cnt b) (b_ch_switch b).
Definition set_b_last_adjusted_grant (x : Z) (b : rmnet_bearer_map) : rmnet_bearer_map :=
  mk_bearer (b_bearer_id b) (b_flow_ref b) (b_grant_size b) (b_grant_thresh b) (b_seq b)
    (b_ack_req b) (b_last_grant b) (b_last_seq b) (b_bytes_in_flight b) x (b_tcp_bidir b)
    (b_rat_switch b) (b_tx_off b) (b_ack_txid b) (b_mq_idx b) (b_ack_mq_idx b) (b_watchdog b)
    (b_watchdog_started b) (b_watchdog_quit b) (b_watchdog_expire_cnt b) (b_ch_switch b).
Definition set_b_tcp_bidir (x : bool) (b : rmnet_bearer_map) : rmnet_bearer_map :=
  mk_bearer (b_bearer_id b) (b_flow_ref b) (b_grant_size b) (b_grant_thresh b) (b_seq b)
    (b_ack_req b) (b_last_grant b) (b_last_seq b) (b_bytes_in_flight b) (b_last_adjusted_grant b)
    x (b_rat_switch b) (b_tx_off b) (b_ack_txid b) (b_mq_idx b) (b_ack_mq_idx b) (b_watchdog b)
    (b_watchdog_started b) (b_watchdog_quit b) (b_watchdog_expire_cnt b) (b_ch_switch b).
Definition set_b_rat_switch (x : bool) (b : rmnet_bearer_map) : rmnet_bearer_map :=
  mk_bearer (b_bearer_id b) (b_flow_ref b) (b_grant_size b) (b_grant_thresh b) (b_seq b)
    (b_ack_req b) (b_last_grant b) (b_last_seq b) (b_bytes_in_flight b) (b_last_adjusted_grant b)
    (b_tcp_bidir b) x (b_tx_off b) (b_ack_txid b) (b_mq_idx b) (b_ack_mq_idx b) (b_watchdog b)
    (b_watchdog_started b) (b_watchdog_quit b) (b_watchdog_expire_cnt b) (b_ch_switch b).
Definition set_b_tx_off (x : bool) (b : rmnet_bearer_map) : rmnet_bearer_map :=
  mk_bearer (b_bearer_id b) (b_flow_ref b) (b_grant_size b) (b_grant_thresh b) (b_seq b)
    (b_ack_req b) (b_last_grant b) (b_last_seq b) (b_bytes_in_flight b) (b_last_adjusted_grant b)
    (b_tcp_bidir b) (b_rat_switch b) x (b_ack_txid b) (b_mq_idx b) (b_ack_mq_idx b) (b_watchdog b)
    (b_watchdog_started b) (b_watchdog_quit b) (b_watchdog_expire_cnt b) (b_ch_switch b).
Definition set_b_ack_txid (x : Z) (b : rmnet_bearer_map) : rmnet_bearer_map :=
  mk_bearer (b_bearer_id b) (b_flow_ref b) (b_grant_size b) (b_grant_thresh b) (b_seq b)
    (b_ack_req b) (b_last_grant b) (b_last_seq b) (b_bytes_in_flight b) (b_last_adjusted_grant b)
    (b_tcp_bidir b) (b_rat_switch b) (b_tx_off b) x (b_mq_idx b) (b_ack_mq_idx b) (b_watchdog b)
    (b_watchdog_started b) (b_watchdog_quit b) (b_watchdog_expire_cnt b) (b_ch_switch b).
Definition set_b_mq_idx (x : Z) (b : rmnet_bearer_map) : rmnet_bearer_map :=
  mk_bearer (b_bearer_id b) (b_flow_ref b) (b_grant_size b) (b_grant_thresh b) (b_seq b)
    (b_ack_req b) (b_last_grant b) (b_last_seq b) (b_bytes_in_flight b) (b_last_adjusted_grant b)
    (b_tcp_bidir b) (b_rat_switch b) (b_tx_off b) (b_ack_txid b) x (b_ack_mq_idx b) (b_watchdog b)
    (b_watchdog_started b) (b_watchdog_quit b) (b_watchdog_expire_cnt b) (b_ch_switch b).
Definition set_b_ack_mq_idx (x : Z) (b : rmnet_bearer_map) : rmnet_bearer_map :=
  mk_bearer (b_bearer_id b) (b_flow_ref b) (b_grant_size b) (b_grant_thresh b) (b_seq b)
    (b_ack_req b) (b_last_grant b) (b_last_seq b) (b_bytes_in_flight b) (b_last_adjusted_grant b)
    (b_tcp_bidir b) (b_rat_switch b) (b_tx_off b) (b_ack_txid b) (b_mq_idx b) x (b_watchdog b)
    (b_watchdog_started b) (b_watchdog_quit b) (b_watchdog_expire_cnt b) (b_ch_switch b).
Definition set_b_watchdog (x : bool) (b : rmnet_bearer_map) : rmnet_bearer_map :=
  mk_bearer (b_bearer_id b) (b_flow_ref b) (b_grant_size b) (b_grant_thresh b) (b_seq b)
    (b_ack_req b) (b_last_grant b) (b_last_seq b) (b_bytes_in_flight b) (b_last_adjusted_grant b)
    (b_tcp_bidir b) (b_rat_switch b) (b_tx_off b) (b_ack_txid b) (b_mq_idx b) (b_ack_mq_idx b) x
    (b_watchdog_started b) (b_watchdog_quit b) (b_watchdog_expire_cnt b) (b_ch_switch b).
Definition set_b_watchdog_started (x : bool) (b : rmnet_bearer_map) : rmnet_bearer_map :=
  mk_bearer (b_bearer_id b) (b_flow_ref b) (b_grant_size b) (b_grant_thresh b) (b_seq b)
    (b_ack_req b) (b_last_grant b) (b_last_seq b) (b_bytes_in_flight b) (b_last_adjusted_grant b)
    (b_tcp_bidir b) (b_rat_switch b) (b_tx_off b) (b_ack_txid b) (b_mq_idx b) (b_ack_mq_idx b)
    (b_watchdog b) x (b_watchdog_quit b) (b_watchdog_expire_cnt b) (b_ch_switch b).
Definition set_b_watchdog_quit (x : bool) (b : rmnet_bearer_map) : rmnet_bearer_map :=
  mk_bearer (b_bearer_id b) (b_flow_ref b) (b_grant_size b) (b_grant_thresh b) (b_seq b)
    (b_ack_req b) (b_last_grant b) (b_last_seq b) (b_bytes_in_flight b) (b_last_adjusted_grant b)
    (b_tcp_bidir b) (b_rat_switch b) (b_tx_off b) (b_ack_txid b) (b_mq_idx b) (b_ack_mq_idx b)
    (b_watchdog b) (b_watchdog_started b) x (b_watchdog_expire_cnt b) (b_ch_switch b).
Definition set_b_watchdog_expire_cnt (x : Z) (b : rmnet_bearer_map) : rmnet_bearer_map :=
  mk_bearer (b_bearer_id b) (b_flow_ref b) (b_grant_size b) (b_grant_thresh b) (b_seq b)
    (b_ack_req b) (b_last_grant b) (b_last_seq b) (b_bytes_in_flight b) (b_last_adjusted_grant b)
    (b_tcp_bidir b) (b_rat_switch b) (b_tx_off b) (b_ack_txid b) (b_mq_idx b) (b_ack_mq_idx b)
    (b_watchdog b) (b_watchdog_started b) (b_watchdog_quit b) x (b_ch_switch b).
Definition set_b_ch_switch (x : rmnet_ch_switch) (b : rmnet_bearer_map) : rmnet_bearer_map :=
  mk_bearer (b_bearer_id b) (b_flow_ref b) (b_grant_size b) (b_grant_thresh b) (b_seq b)
    (b_ack_req b) (b_last_grant b) (b_last_seq b) (b_bytes_in_flight b) (b_last_adjusted_grant b)
    (b_tcp_bidir b) (b_rat_switch b) (b_tx_off b) (b_ack_txid b) (b_mq_idx b) (b_ack_mq_idx b)
    (b_watchdog b) (b_watchdog_started b) (b_watchdog_quit b) (b_watchdog_expire_cnt b) x.

Definition set_q_heap (x : gmap Z rmnet_bearer_map) (q : qos_info) : qos_info :=
  mk_qos x (q_next q) (q_bearers q) (q_flows q) (q_mq q) (q_mux_id q) (q_tran_num q) (q_removed q)
    (q_locked q) (q_stopped q).
Definition set_q_next (x : Z) (q : qos_info) : qos_info :=
  mk_qos (q_heap q) x (q_bearers q) (q_flows q) (q_mq q) (q_mux_id q) (q_tran_num q) (q_removed q)
    (q_locked q) (q_stopped q).
Definition set_q_bearers (x : list Z) (q : qos_info) : qos_info :=
  mk_qos (q_heap q) (q_next q) x (q_flows q) (q_mq q) (q_mux_id q) (q_tran_num q) (q_removed q)
    (q_locked q) (q_stopped q).
Definition set_q_flows (x : list rmnet_flow_map) (q : qos_info) : qos_info :=
  mk_qos (q_heap q) (q_next q) (q_bearers q) x (q_mq q) (q_mux_id q) (q_tran_num q) (q_removed q)
    (q_locked q) (q_stopped q).
Definition set_q_mq (x : list mq_map) (q : qos_info) : qos_info :=
  mk_qos (q_heap q) (q_next q) (q_bearers q) (q_flows q) x (q_mux_id q) (q_tran_num q)
    (q_removed q) (q_locked q) (q_stopped q).
Definition set_q_mux_id (x : Z) (q : qos_info) : qos_info :=
  mk_qos (q_heap q) (q_next q) (q_bearers q) (q_flows q) (q_mq q) x (q_tran_num q) (q_removed q)
    (q_locked q) (q_stopped q).
Definition set_q_tran_num (x : Z) (q : qos_info) : qos_info :=
  mk_qos (q_heap q) (q_next q) (q_bearers q) (q_flows q) (q_mq q) (q_mux_id q) x (q_removed q)
    (q_locked q) (q_stopped q).
Definition set_q_removed (x : option Z) (q : qos_info) : qos_info :=
  mk_qos (q_heap q) (q_next q) (q_bearers q) (q_flows q) (q_mq q) (q_mux_id q) (q_tran_num q) x
    (q_locked q) (q_stopped q).
Definition set_q_locked (x : bool) (q : qos_info) : qos_info :=
  mk_qos (q_heap q) (q_next q) (q_bearers q) (q_flows q) (q_mq q) (q_mux_id q) (q_tran_num q)
    (q_removed q) x (q_stopped q).
Definition set_q_stopped (x : list bool) (q : qos_info) : qos_info :=
  mk_qos (q_heap q) (q_next q) (q_bearers q) (q_flows q) (q_mq q) (q_mux_id q) (q_tran_num q)
    (q_removed q) (q_locked q) x.

Definition set_k_mem (x : list bool) (k : kernel) : kernel :=
  mk_kernel x (k_ctl k) (k_txid k) (k_ll_wq k) (k_sent k).
Definition set_k_ctl (x : list bool) (k : kernel) : kernel :=
  mk_kernel (k_mem k) x (k_txid k) (k_ll_wq k) (k_sent k).
Definition set_k_txid (x : Z) (k : kernel) : kernel :=
  mk_kernel (k_mem k) (k_ctl k) x (k_ll_wq k) (k_sent k).
Definition set_k_ll_wq (x : bool) (k : kernel) : kernel :=
  mk_kernel (k_mem k) (k_ctl k) (k_txid k) x (k_sent k).
Definition set_k_sent (x : list message) (k : kernel) : kernel :=
  mk_kernel (k_mem k) (k_ctl k) (k_txid k) (k_ll_wq k) x.

Definition set_d_q (x : qos_info) (d : dfc_dev) : dfc_dev :=
  mk_dev x (d_k d).
Definition set_d_k (x : kernel) (d : dfc_dev) : dfc_dev :=
  mk_dev (d_q d) x.

(** ** The configuration of the module *)

(** [dfc_mode], [dfc_qmap] and [qmi_rmnet_scale_factor] of qmi_rmnet.c and whether
    [real_data_dev] of rmnet_qmap.c is set. *)
Class DfcConf := {
  dfc_mode : Z;
  dfc_qmap : bool;
  qmi_rmnet_scale_factor : Z;
  real_data_dev : bool
}.

(** ** Steps on the state *)

Definition M := run dfc_dev.

Definition gets_q {A} (f : qos_info -> A) : M A := gets (fun d => f (d_q d)).
Definition modify_q (f : qos_info -> qos_info) : M unit := modify (fun d => set_d_q (f (d_q d)) d).
Definition modify_k (f : kernel -> kernel) : M unit := modify (fun d => set_d_k (f (d_k d)) d).

Definition spin_lock_bh : M unit :=
  l ← gets_q q_locked; if (l : bool) then block else modify_q (set_q_locked true).
Definition spin_unlock_bh : M unit := modify_q (set_q_locked false).

(** The bearer at an address; an address that is not allocated is a fault. *)
Definition bearer_at (p : Z) : M rmnet_bearer_map := h ← gets_q q_heap; deref (h !! p).
Definition upd_bearer (p : Z) (f : rmnet_bearer_map -> rmnet_bearer_map) : M unit :=
  b ← bearer_at p; modify_q (fun q => set_q_heap (<[p := f b]> (q_heap q)) q).

(** The allocator of the kernel: true when memory is there. *)
Definition kzalloc : M bool :=
  m ← gets (fun d => k_mem (d_k d));
  match m with
  | [] => mret true
  | fails :: m => modify_k (set_k_mem m);; mret (negb fails)
  end.

(** [rmnet_ctl->send]: true when it fails. *)
Definition rmnet_ctl_send : M bool :=
  m ← gets (fun d => k_ctl (d_k d));
  match m with
  | [] => mret false
  | fails :: m => modify_k (set_k_ctl m);; mret fails
  end.

Definition send (m : message) : M unit := modify_k (fun k => set_k_sent (k_sent k ++ [m]) k).

Definition rmnet_qmap_next_txid : M Z :=
  t ← gets (fun d => k_txid (d_k d));
  modify_k (set_k_txid (u32 (t + 1)));; mret (u32 (t + 1)).

Section state.
Context `{DfcConf}.

Definition rmnet_qmap_send (m : message) (ch : Z) : M Z :=
  if negb (ch =? RMNET_CH_CTL) && real_data_dev then send m;; mret 0
  else
    fails ← rmnet_ctl_send;
    if (fails : bool) then mret (- ECOMM) else send m;; mret 0.

Definition qmi_rmnet_grant_per (grant : Z) : Z := grant / qmi_rmnet_scale_factor.

End state.

(** ** The lists and the queues *)

Definition is_flow (flow_id ip_type : Z) (f : rmnet_flow_map) : Prop :=
  f_flow_id f = flow_id /\ f_ip_type f = ip_type.

#[export] Instance is_flow_dec flow_id ip_type f : Decision (is_flow flow_id ip_type f).
Proof. unfold is_flow. apply _. Defined.

(** The first flow with the numbers, with its place in the list. *)
Definition qmi_rmnet_get_flow_map (flow_id ip_type : Z) : M (option (nat * rmnet_flow_map)) :=
  gets_q (fun q => list_find (is_flow flow_id ip_type) (q_flows q)).

Fixpoint find_bearer (l : list Z) (bearer_id : Z) : M (option Z) :=
  match l with
  | [] => mret None
  | p :: l =>
      b ← bearer_at p;
      if b_bearer_id b =? bearer_id then mret (Some p) else find_bearer l bearer_id
  end.

Definition qmi_rmnet_get_bearer_map (bearer_id : Z) : M (option Z) :=
  l ← gets_q q_bearers; find_bearer l bearer_id.

Definition qmi_rmnet_flow_control (mq_idx : Z) (enable : bool) : M unit :=
  n ← gets_q (fun q => zlen (q_stopped q));
  if n <=? mq_idx then mret tt
  else modify_q (fun q => set_q_stopped (zupd (q_stopped q) mq_idx (negb enable)) q).

Definition netif_tx_wake_all_queues : M unit :=
  modify_q (fun q => set_q_stopped (map (fun _ => false) (q_stopped q)) q).

(** [list_del] of a bearer: one that is not in the list has poisoned links. *)
Definition list_del_bearer (p : Z) : M unit :=
  l ← gets_q q_bearers;
  guard (bool_decide (p ∈ l));;
  modify_q (set_q_bearers (filter (fun p' => p' <> p) l)).
