(* ===== verification/DfcGrants.v ===== *)
(** * RmNet flow control: grants

    The functions of datarmnet/core/dfc_qmi.c on one device: opening and closing
    queues, indications of grants and of the transmit link, and the account of
    sent packets, with the acknowledgements of dfc_qmap.c and the watchdog of
    qmi_rmnet.c. *)

From S2P Require Import DfcState.
From S2P Require Import Prelude.

Section grants.
Context `{DfcConf}.

(** ** Acknowledgements *)

Definition dfc_qmap_send_end_marker_cnf (b : rmnet_bearer_map) (seq tx_id : Z) : M unit :=
  mem ← kzalloc;
  if negb mem then mret tt
  else
    mux ← gets_q q_mux_id;
    let ch := s_current_ch (b_ch_switch b) in
    rmnet_qmap_send (EndMarkerCnf mux (b_bearer_id b) seq tx_id ch) ch;; mret tt.

Definition dfc_qmap_send_query (mux_id bearer_id : Z) : M unit :=
  mem ← kzalloc;
  if negb mem then mret tt
  else
    t ← rmnet_qmap_next_txid;
    rmnet_qmap_send (DfcQuery mux_id bearer_id t) RMNET_CH_CTL;; mret tt.

Definition dfc_qmap_send_ack (bearer_id seq type : Z) : M unit :=
  if type =? DFC_ACK_TYPE_DISABLE then
    o ← qmi_rmnet_get_bearer_map bearer_id;
    match o with
    | Some p => b ← bearer_at p; dfc_qmap_send_end_marker_cnf b seq (b_ack_txid b)
    | None => mret tt
    end
  else when (type =? DFC_ACK_TYPE_THRESHOLD)
    (mux ← gets_q q_mux_id; dfc_qmap_send_query mux bearer_id).

Definition dfc_send_ack (bearer_id seq mux_id type : Z) : M unit :=
  if dfc_qmap then dfc_qmap_send_ack bearer_id seq type
  else
    mem ← kzalloc;
    if negb mem then mret tt
    else
      t ← gets_q q_tran_num;
      modify_q (set_q_tran_num (u32 (t + 1)));;
      send (DfcAck mux_id bearer_id seq type t).

(** ** Queues *)

Definition dfc_bearer_flow_ctl (p : Z) : M unit :=
  b ← bearer_at p;
  let enable := truthy (b_grant_size b) in
  when (negb (b_ack_mq_idx b =? INVALID_MQ))
    (qmi_rmnet_flow_control (b_ack_mq_idx b) (enable || b_tcp_bidir b));;
  qmi_rmnet_flow_control (b_mq_idx b) enable;;
  mux ← gets_q q_mux_id;
  when (negb enable && truthy (b_ack_req b))
    (dfc_send_ack (b_bearer_id b) (b_seq b) mux DFC_ACK_TYPE_DISABLE).

(** [mod_timer] and [del_timer] of the watchdog. *)
Definition qmi_rmnet_watchdog_add (p : Z) : M unit :=
  upd_bearer p (set_b_watchdog_quit false);;
  b ← bearer_at p;
  when (negb (b_watchdog_started b))
    (upd_bearer p (fun b => set_b_watchdog true (set_b_watchdog_started true b))).

Definition qmi_rmnet_watchdog_remove (p : Z) : M unit :=
  upd_bearer p (set_b_watchdog_quit true);;
  b ← bearer_at p;
  when (b_watchdog_started b)
    (upd_bearer p (fun b => set_b_watchdog_started false (set_b_watchdog false b))).

Definition set_grant (g : Z) (b : rmnet_bearer_map) : rmnet_bearer_map :=
  set_b_grant_thresh (qmi_rmnet_grant_per g) (set_b_grant_size g b).

(** The watchdog has expired. *)
Definition qmi_rmnet_watchdog_fn (p : Z) : M unit :=
  spin_lock_bh;;
  b ← bearer_at p;
  when (negb (b_watchdog_quit b))
    (upd_bearer p (fun b =>
       set_b_bytes_in_flight 0 (set_b_watchdog_expire_cnt (u32 (b_watchdog_expire_cnt b + 1)) b));;
     if b_grant_size b =? 0 then
       upd_bearer p (set_grant DEFAULT_CALL_GRANT);;
       dfc_bearer_flow_ctl p
     else upd_bearer p (set_b_grant_thresh (qmi_rmnet_grant_per (b_grant_size b))));;
  upd_bearer p (set_b_watchdog_started false);;
  spin_unlock_bh.

(** ** Indications *)

(** [struct dfc_flow_status_info_type_v01] without the fields that are not used *)
Record flow_status := mk_status {
  fs_mux_id : Z;
  fs_bearer_id : Z;
  fs_num_bytes : Z;
  fs_seq_num : Z;
  fs_rx_bytes_valid : bool;
  fs_rx_bytes : Z;
  fs_ll_status : bool
}.

(** [struct dfc_bearer_info_type_v01] *)
Record bearer_info := mk_info { bi_mux_id : Z; bi_bearer_id : Z }.

(** What an indication stores in a bearer. *)
Definition set_status (fc : flow_status) (ack_req ancillary grant : Z) (b : rmnet_bearer_map) :=
  set_b_last_adjusted_grant grant (set_b_last_seq (fs_seq_num fc)
    (set_b_last_grant (fs_num_bytes fc) (set_b_tcp_bidir (DFC_IS_TCP_BIDIR ancillary)
      (set_b_ack_req ack_req (set_b_seq (fs_seq_num fc) b))))).

Definition dfc_all_bearer_flow_ctl (ack_req ancillary : Z) (fc : flow_status) : M unit :=
  l ← gets_q q_bearers;
  for_each l (fun p =>
    upd_bearer p (fun b =>
      set_status fc ack_req ancillary (fs_num_bytes fc) (set_grant (fs_num_bytes fc) b));;
    dfc_bearer_flow_ctl p).

Definition dfc_adjust_grant (p : Z) (fc : flow_status) : M Z :=
  if negb (fs_rx_bytes_valid fc) then mret (fs_num_bytes fc)
  else
    upd_bearer p (fun b => set_b_bytes_in_flight
      (if fs_rx_bytes fc <? b_bytes_in_flight b then b_bytes_in_flight b - fs_rx_bytes fc else 0) b);;
    b ← bearer_at p;
    mret (if b_bytes_in_flight b <? fs_num_bytes fc then fs_num_bytes fc - b_bytes_in_flight b
          else 0).

(** A new reference to the bearer; one that is not there is allocated. *)
Definition new_bearer (bearer_id : Z) : rmnet_bearer_map :=
  mk_bearer bearer_id 1 DEFAULT_CALL_GRANT (qmi_rmnet_grant_per DEFAULT_CALL_GRANT) 0 0 0 0 0 0
    false false false 0 INVALID_MQ INVALID_MQ false false false 0
    (mk_switch 0 0 0 0 false CH_SWITCH_NONE 0 0 false false 0 0).

Definition __qmi_rmnet_bearer_get (bearer_id : Z) : M (option Z) :=
  o ← qmi_rmnet_get_bearer_map bearer_id;
  match o with
  | Some p => upd_bearer p (fun b => set_b_flow_ref (b_flow_ref b + 1) b);; mret (Some p)
  | None =>
      mem ← kzalloc;
      if negb mem then mret None
      else
        p ← gets_q q_next;
        modify_q (fun q => set_q_bearers (p :: q_bearers q) (set_q_next (p + 1)
          (set_q_heap (<[p := new_bearer bearer_id]> (q_heap q)) q)));;
        mret (Some p)
  end.

Definition qmi_rmnet_get_bearer_noref (bearer_id : Z) : M (option Z) :=
  o ← __qmi_rmnet_bearer_get bearer_id;
  match o with
  | Some p => upd_bearer p (fun b => set_b_flow_ref (b_flow_ref b - 1) b);; mret (Some p)
  | None => mret None
  end.

(** [mq->is_ll_ch] of the queue of a bearer *)
Definition set_ll_ch (mq_idx : Z) (ll : bool) : M unit :=
  when (mq_idx <? MAX_MQ_NUM)
    (l ← gets_q q_mq;
     m ← deref (l !! Z.to_nat mq_idx);
     modify_q (set_q_mq (<[Z.to_nat mq_idx := mk_mq (mq_bearer m) ll (mq_drop_on_remove m)]> l))).

(** The rest of dfc_update_fc_map for a bearer that takes the indication. *)
Definition take_status (ack_req ancillary : Z) (fc : flow_status) (is_query : bool) (p : Z) : M unit :=
  b ← bearer_at p;
  when (fs_ll_status fc && negb (s_current_ch (b_ch_switch b) =? RMNET_CH_LL))
    (upd_bearer p (fun b => set_b_ch_switch
       (set_s_auto_switched true (set_s_current_ch RMNET_CH_LL (b_ch_switch b))) b);;
     set_ll_ch (b_mq_idx b) (truthy RMNET_CH_LL));;
  grant ← (if dfc_qmap && is_query then dfc_adjust_grant p fc
           else upd_bearer p (set_b_bytes_in_flight 0);; mret (fs_num_bytes fc));
  let action := ((b_grant_size b =? 0) && (0 <? grant)) || ((0 <? b_grant_size b) && (grant =? 0)) ||
                xorb (b_tcp_bidir b) (DFC_IS_TCP_BIDIR ancillary) in
  when (dfc_qmap && truthy (b_ack_req b) && negb (truthy ack_req) && truthy (b_grant_size b))
    (dfc_qmap_send_ack (b_bearer_id b) (b_seq b) DFC_ACK_TYPE_DISABLE);;
  upd_bearer p (set_b_grant_size grant);;
  (if dfc_qmap && is_query && (grant <? fs_num_bytes fc / 5) then
     upd_bearer p (set_b_grant_thresh grant);; qmi_rmnet_watchdog_add p
   else
     upd_bearer p (set_b_grant_thresh (qmi_rmnet_grant_per grant));; qmi_rmnet_watchdog_remove p);;
  upd_bearer p (set_status fc ack_req ancillary grant);;
  when action (dfc_bearer_flow_ctl p).

Definition dfc_update_fc_map (ack_req ancillary : Z) (fc : flow_status) (is_query : bool) : M unit :=
  o ← qmi_rmnet_get_bearer_map (fs_bearer_id fc);
  itm ← (match o with
         | None => if negb is_query && truthy (fs_num_bytes fc)
                   then qmi_rmnet_get_bearer_noref (fs_bearer_id fc) else mret None
         | Some p => mret (Some p)
         end);
  match itm with
  | None => mret tt
  | Some p =>
      when (DFC_IS_RAT_SWITCH ancillary) (upd_bearer p (set_b_rat_switch (fs_num_bytes fc =? 0)));;
      b ← bearer_at p;
      if negb (DFC_IS_RAT_SWITCH ancillary) && b_rat_switch b then mret tt
      else if b_tx_off b && (0 <? fs_num_bytes fc) then mret tt
      else take_status ack_req ancillary fc is_query p
  end.

Definition dfc_update_tx_link_status (tx_status : Z) (bearer_id : Z) : M unit :=
  o ← qmi_rmnet_get_bearer_map bearer_id;
  match o with
  | None => mret tt
  | Some p =>
      b ← bearer_at p;
      if eqb (b_tx_off b) (negb (truthy tx_status)) then mret tt
      else
        (if truthy (b_grant_size b) && negb (truthy tx_status) then
           upd_bearer p (fun b =>
             set_b_bytes_in_flight 0 (set_b_tcp_bidir false (set_b_grant_size 0 b)));;
           qmi_rmnet_watchdog_remove p;;
           dfc_bearer_flow_ctl p
         else when ((b_grant_size b =? 0) && truthy tx_status && negb (b_rat_switch b))
           (upd_bearer p (fun b => set_b_ack_req 0 (set_b_seq 0 (set_grant DEFAULT_GRANT b)));;
            dfc_bearer_flow_ctl p));;
        upd_bearer p (set_b_tx_off (negb (truthy tx_status)))
  end.

(** ** Sent packets *)

Definition dfc_qmi_burst_check (ip_type mark len : Z) : M unit :=
  spin_lock_bh;;
  itm ← qmi_rmnet_get_flow_map mark ip_type;
  (match itm ≫= (fun x => f_bearer x.2) with
   | None => mret tt
   | Some p =>
       upd_bearer p (fun b => set_b_bytes_in_flight (u32 (b_bytes_in_flight b + len)) b);;
       b ← bearer_at p;
       let start_grant := b_grant_size b in
       let left := if start_grant <=? len then 0 else start_grant - len in
       if start_grant =? 0 then mret tt
       else
         upd_bearer p (set_b_grant_size left);;
         mux ← gets_q q_mux_id;
         when ((b_grant_thresh b <? start_grant) && (left <=? b_grant_thresh b))
           (dfc_send_ack (b_bearer_id b) (b_seq b) mux DFC_ACK_TYPE_THRESHOLD);;
         when (left =? 0) (dfc_bearer_flow_ctl p)
   end);;
  spin_unlock_bh.

(** ** The request for an acknowledgement over QMAP *)

Definition dfc_qmap_set_end_marker (bearer_id seq_num tx_id : Z) : M Z :=
  spin_lock_bh;;
  o ← qmi_rmnet_get_bearer_map bearer_id;
  match o with
  | None => spin_unlock_bh;; mret QMAP_CMD_ACK
  | Some p =>
      b ← bearer_at p;
      (if (b_last_seq b =? seq_num) && truthy (b_grant_size b)
       then upd_bearer p (fun b => set_b_ack_txid tx_id (set_b_ack_req 1 b))
       else dfc_qmap_send_end_marker_cnf b seq_num tx_id);;
      spin_unlock_bh;;
      mret QMAP_CMD_DONE
  end.

End grants.
