(* ===== verification/DfcFlows.v ===== *)
(** * RmNet flow control: flows and their bearers

    The functions of datarmnet/core/qmi_rmnet.c on one device: a flow is bound to
    a bearer and to a transmit queue; bearers are counted by their flows. Also
    the choice of the queue of a packet and what power save does to the grants. *)

From S2P Require Import DfcState.
From S2P Require Import Prelude DfcGrants.

(** [struct tcmsg] as the netlink messages use it: the bearer or channel, the
    number of bearers, the flow, the IP type or flags, the queue and the
    information. *)
Record tcmsg := mk_tcm {
  tcm_family : Z;
  tcm__pad1 : Z;
  tcm__pad2 : Z;
  tcm_parent : Z;
  tcm_ifindex : Z;
  tcm_handle : Z;
  tcm_info : Z
}.

(** What the choice of a queue reads of a packet. *)
Record packet := mk_packet {
  pkt_mark : Z;
  pkt_ipv6 : bool;        (* protocol *)
  pkt_ndp : bool;         (* neighbour discovery, ICMPv6 types 133 to 137 *)
  pkt_tcp_ack : bool      (* qmi_rmnet_is_tcp_ack *)
}.

Section flows.
Context `{DfcConf}.

(** ** References of bearers *)

(** The round of __qmi_rmnet_bearer_put for one queue. *)
Definition put_mq (p : Z) (reset : bool) (i : nat) : M unit :=
  l ← gets_q q_mq;
  m ← deref (l !! i);
  when (bool_decide (mq_bearer m = Some p))
    (modify_q (fun q => set_q_mq (<[i := mk_mq None false reset]> (q_mq q)) q);;
     qmi_rmnet_flow_control (Z.of_nat i) true;;
     when (dfc_mode =? DFC_MODE_SA) (qmi_rmnet_flow_control (Z.of_nat i + ACK_MQ_OFFSET) true)).

Definition __qmi_rmnet_bearer_put (bearer : option Z) (reset : bool) : M unit :=
  match bearer with
  | None => mret tt
  | Some p =>
      upd_bearer p (fun b => set_b_flow_ref (b_flow_ref b - 1) b);;
      b ← bearer_at p;
      when (b_flow_ref b =? 0)
        (for_each (seq 0 (Z.to_nat MAX_MQ_NUM)) (put_mq p reset);;
         list_del_bearer p;;
         modify_q (set_q_removed (Some p)))
  end.

(** [del_timer_sync] and [kfree] of the removed bearer. *)
Definition qmi_rmnet_bearer_clean : M unit :=
  o ← gets_q q_removed;
  match o with
  | None => mret tt
  | Some p =>
      bearer_at p;;
      modify_q (fun q => set_q_removed None (set_q_heap (delete p (q_heap q)) q))
  end.

Definition __qmi_rmnet_update_mq (p : Z) (mq_idx : Z) : M unit :=
  if (dfc_mode =? DFC_MODE_SA) && (mq_idx =? DEFAULT_MQ_NUM) then mret tt
  else
    l ← gets_q q_mq;
    m ← deref (l !! Z.to_nat mq_idx);
    match mq_bearer m with
    | Some _ => mret tt
    | None =>
        b ← bearer_at p;
        let ll := truthy (s_current_ch (b_ch_switch b)) in
        modify_q (fun q => set_q_mq (<[Z.to_nat mq_idx := mk_mq (Some p) ll false]> (q_mq q)) q);;
        upd_bearer p (set_b_mq_idx mq_idx);;
        when (dfc_mode =? DFC_MODE_SA) (upd_bearer p (set_b_ack_mq_idx (mq_idx + ACK_MQ_OFFSET)));;
        when (b_grant_size b =? 0) (upd_bearer p (set_grant DEFAULT_GRANT));;
        qmi_rmnet_flow_control mq_idx true;;
        when (dfc_mode =? DFC_MODE_SA) (qmi_rmnet_flow_control (mq_idx + ACK_MQ_OFFSET) true)
    end.

(** ** Flows *)

Definition qmi_rmnet_update_flow_map (new_map itm : rmnet_flow_map) : rmnet_flow_map :=
  mk_flow (f_bearer_id new_map) (f_flow_id new_map) (f_ip_type new_map) (f_mq_idx new_map)
    (f_bearer itm).

Definition set_f_bearer (p : Z) (f : rmnet_flow_map) : rmnet_flow_map :=
  mk_flow (f_bearer_id f) (f_flow_id f) (f_ip_type f) (f_mq_idx f) (Some p).

Definition upd_flow (i : nat) (f : rmnet_flow_map -> rmnet_flow_map) : M unit :=
  modify_q (fun q => set_q_flows (alter f i (q_flows q)) q).

Definition __qmi_rmnet_rebind_flow (i : nat) (itm new_map : rmnet_flow_map) : M Z :=
  __qmi_rmnet_bearer_put (f_bearer itm) false;;
  o ← __qmi_rmnet_bearer_get (f_bearer_id new_map);
  match o with
  | None => mret (- ENOMEM)
  | Some p =>
      upd_flow i (qmi_rmnet_update_flow_map new_map);;
      upd_flow i (set_f_bearer p);;
      __qmi_rmnet_update_mq p (f_mq_idx new_map);;
      mret 0
  end.

Definition qmi_rmnet_del_flow (tcm : tcmsg) : M Z :=
  spin_lock_bh;;
  o ← qmi_rmnet_get_flow_map (tcm_parent tcm) (tcm_ifindex tcm);
  (match o with
   | None => mret tt
   | Some (i, itm) =>
       __qmi_rmnet_bearer_put (f_bearer itm) true;;
       modify_q (fun q => set_q_flows (delete i (q_flows q)) q)
   end);;
  l ← gets_q q_flows;
  (if decide (l = []) then netif_tx_wake_all_queues else mret tt);;
  spin_unlock_bh;;
  qmi_rmnet_bearer_clean;;
  mret 0.

(** A flow that is not there is created. *)
Definition create_flow (new_map : rmnet_flow_map) : M Z :=
  mem ← kzalloc;
  if negb mem then spin_unlock_bh;; mret (- ENOMEM)
  else
    modify_q (fun q => set_q_flows (new_map :: q_flows q) q);;
    o ← __qmi_rmnet_bearer_get (f_bearer_id new_map);
    rc ← (match o with
          | None => mret (- ENOMEM)
          | Some p =>
              upd_flow 0 (set_f_bearer p);;
              __qmi_rmnet_update_mq p (f_mq_idx new_map);;
              mret 0
          end);
    spin_unlock_bh;;
    qmi_rmnet_bearer_clean;;
    mret rc.

(** The label [again]: a flow that moves to another queue is deleted first. *)
Fixpoint add_again (fuel : nat) (new_map : rmnet_flow_map) : M Z :=
  match fuel with
  | O => Outcome.block
  | S fuel =>
      spin_lock_bh;;
      o ← qmi_rmnet_get_flow_map (f_flow_id new_map) (f_ip_type new_map);
      match o with
      | None => create_flow new_map
      | Some (i, itm) =>
          if negb (f_bearer_id itm =? f_bearer_id new_map) then
            rc ← __qmi_rmnet_rebind_flow i itm new_map;
            spin_unlock_bh;;
            qmi_rmnet_bearer_clean;;
            mret rc
          else if negb (f_mq_idx itm =? f_mq_idx new_map) then
            spin_unlock_bh;;
            qmi_rmnet_del_flow (mk_tcm 0 (f_bearer_id itm) 0 (f_flow_id itm) (f_ip_type itm)
                                  (f_mq_idx itm) 0);;
            add_again fuel new_map
          else
            spin_unlock_bh;;
            qmi_rmnet_bearer_clean;;
            mret 0
      end
  end.

(** A round deletes a flow, so that there is a round more than flows at most. *)
Definition qmi_rmnet_add_flow (tcm : tcmsg) : M Z :=
  if MAX_MQ_NUM <=? tcm_handle tcm then mret (- EINVAL)
  else
    n ← gets_q (fun q => length (q_flows q));
    add_again (S n)
      (mk_flow (tcm__pad1 tcm) (tcm_parent tcm) (tcm_ifindex tcm) (tcm_handle tcm) None).

(** ** Power save *)

Definition reset_bearer (b : rmnet_bearer_map) : rmnet_bearer_map :=
  set_b_rat_switch false (set_b_tcp_bidir false (set_b_bytes_in_flight 0
    (set_b_ack_req 0 (set_b_seq 0 b)))).

Definition qmi_rmnet_enable_all_flows : M unit :=
  spin_lock_bh;;
  l ← gets_q q_bearers;
  for_each l (fun p =>
    upd_bearer p reset_bearer;;
    qmi_rmnet_watchdog_remove p;;
    b ← bearer_at p;
    when (negb (b_tx_off b))
      (upd_bearer p (set_grant DEFAULT_GRANT);;
       when (b_grant_size b =? 0) (dfc_bearer_flow_ctl p)));;
  spin_unlock_bh.

Fixpoint all_granted (l : list Z) : M bool :=
  match l with
  | [] => mret true
  | p :: l => b ← bearer_at p; if b_grant_size b =? 0 then mret false else all_granted l
  end.

Definition qmi_rmnet_all_flows_enabled : M bool :=
  spin_lock_bh;; l ← gets_q q_bearers; r ← all_granted l; spin_unlock_bh;; mret r.

(** Bearers without a grant are written to the array while there is room, the
    others get the smallest grant. *)
Fixpoint ps_bearers (l : list Z) (num_left : nat) : M (list Z) :=
  match l with
  | [] => mret []
  | p :: l =>
      b ← bearer_at p;
      if truthy (b_grant_size b) then
        upd_bearer p reset_bearer;;
        qmi_rmnet_watchdog_remove p;;
        upd_bearer p (set_grant DEFAULT_GRANT);;
        ps_bearers l num_left
      else
        match num_left with
        | O => ps_bearers l O
        | S n => ids ← ps_bearers l n; mret (b_bearer_id b :: ids)
        end
  end.

Definition qmi_rmnet_prepare_ps_bearers (num_bearers : nat) : M (list Z) :=
  spin_lock_bh;;
  l ← gets_q q_bearers;
  ids ← ps_bearers l num_bearers;
  spin_unlock_bh;;
  mret ids.

(** ** The queue of a packet *)

Definition qmi_rmnet_get_flow_state (queue_mapping : Z) : M (option (bool * bool)) :=
  let txq := if ACK_MQ_OFFSET <? queue_mapping then queue_mapping - ACK_MQ_OFFSET
             else queue_mapping in
  if MAX_MQ_NUM <=? txq then mret None
  else
    l ← gets_q q_mq;
    m ← deref (l !! Z.to_nat txq);
    let gone := bool_decide (mq_bearer m = None) in
    let drop := negb (txq =? DEFAULT_MQ_NUM) && gone && mq_drop_on_remove m in
    mret (Some (drop, mq_is_ll_ch m)).

Definition qmi_rmnet_get_queue_sa (k : packet) : M Z :=
  if pkt_ipv6 k && pkt_ndp k then mret DEFAULT_MQ_NUM
  else
    spin_lock_bh;;
    itm ← qmi_rmnet_get_flow_map (pkt_mark k) (if pkt_ipv6 k then AF_INET6 else AF_INET);
    txq ← (match itm with
           | None => mret DEFAULT_MQ_NUM
           | Some (_, f) =>
               match f_bearer f with
               | Some p => if pkt_tcp_ack k then b ← bearer_at p; mret (b_ack_mq_idx b)
                           else mret (f_mq_idx f)
               | None => mret (f_mq_idx f)
               end
           end);
    spin_unlock_bh;;
    mret txq.

Definition qmi_rmnet_get_queue (k : packet) : M Z :=
  if dfc_mode =? DFC_MODE_SA then qmi_rmnet_get_queue_sa k
  else
    spin_lock_bh;;
    itm ← qmi_rmnet_get_flow_map (pkt_mark k) (if pkt_ipv6 k then AF_INET6 else AF_INET);
    spin_unlock_bh;;
    mret (match itm with Some (_, f) => f_mq_idx f | None => 0 end).

(** ** Start and end of a device *)

Definition qmi_rmnet_qos_init (mux_id num_tx_queues : Z) : qos_info :=
  mk_qos ∅ 1 [] [] (replicate (Z.to_nat MAX_MQ_NUM) (mk_mq None false false)) mux_id 0 None false
    (replicate (Z.to_nat num_tx_queues) false).

Definition qmi_rmnet_qos_exit_pre : M unit :=
  l ← gets_q q_bearers;
  for_each l (fun p => upd_bearer p (fun b =>
    set_b_ch_switch (set_s_guard_timer false (set_s_timer_quit true (b_ch_switch b)))
      (set_b_watchdog false (set_b_watchdog_quit true b)))).

Definition qmi_rmnet_clean_flow_list : M unit :=
  modify_q (set_q_flows []);;
  l ← gets_q q_bearers;
  for_each l (fun p =>
    bearer_at p;;
    modify_q (fun q => set_q_heap (delete p (q_heap q)) (set_q_bearers (tail (q_bearers q)) q)));;
  modify_q (fun q => set_q_mq (map (fun _ => mk_mq None false false) (q_mq q)) q).

End flows.
