(* ===== verification/DfcInv.v ===== *)
(** * RmNet flow control: the invariant

    [linked]: the bearers, the flows and the queues of a device refer to each
    other as they should, and a bearer is counted once per flow. [ready p]: the
    queue of bearer [p] is stopped when its grant is used up, and only then. A
    function is run by the rules of [wp]; [upto p b d0 d] says that since [d0]
    only bearer [p] has changed, which is now [b]. *)

From S2P Require Import DfcState.
From S2P Require Import Prelude DfcGrants DfcFlows.

(** ** The invariant *)

(** The flows of a bearer. *)
Definition flows_of (p : Z) (l : list rmnet_flow_map) : Z :=
  Z.of_nat (countb (fun f => bool_decide (f_bearer f = Some p)) l).

Definition flow_key (f : rmnet_flow_map) : Z * Z := (f_flow_id f, f_ip_type f).

Definition mq_bearers (q : qos_info) : list (option Z) := mq_bearer <$> q_mq q.

(** A bearer has no queues, or queue [i] of the device, which has no other
    bearer, and the queue for acknowledgements that belongs to it. *)
Definition bound (q : qos_info) (p : Z) (b : rmnet_bearer_map) : Prop :=
  (b_mq_idx b = INVALID_MQ /\ b_ack_mq_idx b = INVALID_MQ) \/
  (exists i : nat, (0 < i < 16)%nat /\ b_mq_idx b = Z.of_nat i /\
     b_ack_mq_idx b = Z.of_nat i + ACK_MQ_OFFSET /\ mq_bearers q !! i = Some (Some p)).

Record linked (q : qos_info) : Prop := {
  l_nodup : NoDup (q_bearers q);
  l_heap : forall p, p ∈ q_bearers q <-> is_Some (q_heap q !! p);
  l_next : forall p, p ∈ q_bearers q -> p < q_next q;
  l_ids : forall p p' b b', q_heap q !! p = Some b -> q_heap q !! p' = Some b' ->
    b_bearer_id b = b_bearer_id b' -> p = p';
  l_bound : forall p b, q_heap q !! p = Some b -> bound q p b;
  l_grant : forall p b, q_heap q !! p = Some b -> 0 <= b_grant_size b;
  l_mq_len : length (q_mq q) = 16%nat;
  l_mq_default : mq_bearers q !! 0%nat = Some None;
  l_mq : forall (i : nat) p, mq_bearers q !! i = Some (Some p) ->
    exists b, q_heap q !! p = Some b /\ 0 < b_flow_ref b;
  l_queues : zlen (q_stopped q) <= INVALID_MQ;
  l_refs : forall p b, q_heap q !! p = Some b -> b_flow_ref b = flows_of p (q_flows q);
  l_flows : forall f p, f ∈ q_flows q -> f_bearer f = Some p ->
    exists b, q_heap q !! p = Some b /\ b_bearer_id b = f_bearer_id f;
  l_keys : NoDup (flow_key <$> q_flows q);
  l_removed : q_removed q = None
}.

(** The queue of a bearer is stopped if and only if it has no grant; its queue
    for acknowledgements is stopped only if it has none. *)
Definition queue_ready (l : list bool) (b : rmnet_bearer_map) : Prop :=
  b_mq_idx b <> INVALID_MQ ->
  (forall s, l !! Z.to_nat (b_mq_idx b) = Some s -> s = (b_grant_size b =? 0)) /\
  (l !! Z.to_nat (b_ack_mq_idx b) = Some true -> b_grant_size b = 0 /\ b_tcp_bidir b = false).

Definition ready (p : Z) (q : qos_info) : Prop :=
  forall b, q_heap q !! p = Some b -> queue_ready (q_stopped q) b.

Definition core_inv (q : qos_info) : Prop := linked q /\ forall p, ready p q.

Definition dev_inv (q : qos_info) : Prop := core_inv q /\ q_locked q = false.

(** ** Counting flows *)

Definition of_bearer (p : Z) (f : rmnet_flow_map) : Z := Z.b2z (bool_decide (f_bearer f = Some p)).

Lemma flows_of_cons p f l : flows_of p (f :: l) = of_bearer p f + flows_of p l.
Proof. unfold flows_of, of_bearer. cbn. destruct (bool_decide _); cbn; lia. Qed.

Lemma flows_of_none p l : (forall f, f ∈ l -> f_bearer f <> Some p) -> flows_of p l = 0.
Proof.
  induction l as [|f l IH]; intros Hl; [done|]. rewrite flows_of_cons, IH by set_solver.
  unfold of_bearer. rewrite bool_decide_eq_false_2; [done|]. apply Hl. set_solver.
Qed.

Lemma flows_of_nonneg p l : 0 <= flows_of p l.
Proof. unfold flows_of. lia. Qed.

Lemma flows_of_in p f l : f ∈ l -> f_bearer f = Some p -> 0 < flows_of p l.
Proof.
  intros Hf He. induction l as [|g l IH]; [by apply not_elem_of_nil in Hf|].
  rewrite flows_of_cons. pose proof (flows_of_nonneg p l). unfold of_bearer.
  apply elem_of_cons in Hf as [->|Hf]; [rewrite bool_decide_eq_true_2 by done; cbn; lia|].
  specialize (IH Hf). destruct (bool_decide _); cbn; lia.
Qed.

Lemma flows_of_delete p l i f : l !! i = Some f ->
  flows_of p (delete i l) = flows_of p l - of_bearer p f.
Proof.
  revert i. induction l as [|g l IH]; intros [|i] Hi; try done; cbn in Hi.
  - injection Hi as ->. change (delete 0%nat (f :: l)) with l. rewrite flows_of_cons. lia.
  - change (delete (S i) (g :: l)) with (g :: delete i l). rewrite !flows_of_cons, (IH i) by done. lia.
Qed.

Lemma flows_of_alter p l i f h : l !! i = Some f ->
  flows_of p (alter h i l) = flows_of p l - of_bearer p f + of_bearer p (h f).
Proof.
  revert i. induction l as [|g l IH]; intros [|i] Hi; try done; cbn in Hi.
  - injection Hi as ->. change (alter h 0%nat (f :: l)) with (h f :: l). rewrite !flows_of_cons. lia.
  - change (alter h (S i) (g :: l)) with (g :: alter h i l). rewrite !flows_of_cons, (IH i) by done. lia.
Qed.

(** ** Running a function *)

Definition wp {A} (m : M A) (d : dfc_dev) (Q : A -> dfc_dev -> Prop) : Prop :=
  exists a d', m d = Ret a d' /\ Q a d'.

Section wp.
Context {A B : Type}.

Lemma wp_ret (a : A) d (Q : A -> dfc_dev -> Prop) : Q a d -> wp (mret a) d Q.
Proof. intros HQ. by exists a, d. Qed.

Lemma wp_bind (m : M A) (k : A -> M B) d Q :
  wp m d (fun a d' => wp (k a) d' Q) -> wp (x ← m; k x) d Q.
Proof.
  intros (a & d1 & Hm & b & d2 & Hk & HQ). exists b, d2. split; [|done].
  by rewrite (bind_ret _ _ _ _ _ Hm).
Qed.

Lemma wp_bind_assoc {C} (m : M A) (k : A -> M B) (h : B -> M C) d Q :
  wp (x ← m; k x) d (fun b d' => wp (h b) d' Q) -> wp (x ← m; b ← k x; h b) d Q.
Proof.
  intros (b & d1 & Hmk & c & d2 & Hh & HQ). apply bind_inv in Hmk as (a & d0 & Hm & Hk).
  exists c, d2. split; [|done]. rewrite (bind_ret _ _ _ _ _ Hm). by rewrite (bind_ret _ _ _ _ _ Hk).
Qed.

Lemma wp_mono (m : M A) d (Q Q' : A -> dfc_dev -> Prop) :
  wp m d Q -> (forall a d', Q a d' -> Q' a d') -> wp m d Q'.
Proof. intros (a & d1 & Hm & HQ) Hi. exists a, d1. auto. Qed.

Lemma wp_gets_q (f : qos_info -> A) d (Q : A -> dfc_dev -> Prop) :
  Q (f (d_q d)) d -> wp (gets_q f) d Q.
Proof. intros HQ. by exists (f (d_q d)), d. Qed.

End wp.

Lemma wp_modify_q f d (Q : unit -> dfc_dev -> Prop) :
  Q tt (mk_dev (f (d_q d)) (d_k d)) -> wp (modify_q f) d Q.
Proof. intros HQ. by eexists tt, _. Qed.

Lemma wp_modify_k f d (Q : unit -> dfc_dev -> Prop) :
  Q tt (mk_dev (d_q d) (f (d_k d))) -> wp (modify_k f) d Q.
Proof. intros HQ. by eexists tt, _. Qed.

Lemma wp_when (c : bool) (m : M unit) d (Q : unit -> dfc_dev -> Prop) :
  (c = true -> wp m d Q) -> (c = false -> Q tt d) -> wp (when c m) d Q.
Proof. destruct c; cbn; intros H1 H2; [by apply H1|by apply wp_ret, H2]. Qed.

Lemma wp_for_each {A} (P : dfc_dev -> Prop) (l : list A) (body : A -> M unit) d
    (Q : unit -> dfc_dev -> Prop) :
  (forall x d, x ∈ l -> P d -> wp (body x) d (fun _ => P)) -> P d ->
  (forall d', P d' -> Q tt d') -> wp (for_each l body) d Q.
Proof.
  intros Hb HP HQ. destruct (for_each_inv P l body d) as (d' & Hr & HP'); [|done|].
  - intros x d1 Hx H1. destruct (Hb x d1 Hx H1) as ([] & d2 & Hr & H2). by exists d2.
  - exists tt, d'. auto.
Qed.

Lemma wp_kzalloc d (Q : bool -> dfc_dev -> Prop) :
  (forall mem k, Q mem (mk_dev (d_q d) k)) -> wp kzalloc d Q.
Proof.
  intros HQ. unfold kzalloc. apply wp_bind. exists (k_mem (d_k d)), d. split; [done|].
  destruct (k_mem (d_k d)) as [|fails m]; [|by apply wp_bind, wp_modify_k, wp_ret].
  apply wp_ret. destruct d. apply HQ.
Qed.

(** Takes the first step of a run. *)
Ltac wp_step :=
  match goal with
  | |- wp (mbind _ _) _ _ => apply wp_bind
  | |- wp (mret _) _ _ => apply wp_ret
  | |- wp (deref (Some _)) _ _ => apply wp_ret
  | |- wp (Outcome.guard true) _ _ => apply wp_ret
  | |- wp (gets_q _) _ _ => apply wp_gets_q
  | |- wp (modify_q _) _ _ => apply wp_modify_q
  | |- wp (modify_k _) _ _ => apply wp_modify_k
  | |- wp kzalloc _ _ => apply wp_kzalloc; intros ? ?
  end; cbv beta.

(** ** What a function leaves alone *)

(** The same bearers, flows and bindings; [d] may differ in the contents of the
    bearers, in the state of the queues and in what was sent. *)
Record same_shape (q0 q : qos_info) : Prop := {
  h_bearers : q_bearers q = q_bearers q0;
  h_flows : q_flows q = q_flows q0;
  h_next : q_next q = q_next q0;
  h_removed : q_removed q = q_removed q0;
  h_locked : q_locked q = q_locked q0;
  h_mux : q_mux_id q = q_mux_id q0;
  h_mq : mq_bearers q = mq_bearers q0;
  h_queues : length (q_stopped q) = length (q_stopped q0)
}.

#[export] Instance same_shape_pre : PreOrder same_shape.
Proof.
  split.
  - intros q. by constructor.
  - intros q1 q2 q3 [] []. constructor; congruence.
Qed.

(** What counts a bearer and binds it does not change. *)
Definition same_bearer (b b' : rmnet_bearer_map) : Prop :=
  b_bearer_id b' = b_bearer_id b /\ b_flow_ref b' = b_flow_ref b /\
  b_mq_idx b' = b_mq_idx b /\ b_ack_mq_idx b' = b_ack_mq_idx b.

#[export] Instance same_bearer_pre : PreOrder same_bearer.
Proof.
  split.
  - done.
  - intros b1 b2 b3 (? & ? & ? & ?) (? & ? & ? & ?). repeat split; congruence.
Qed.

(** Since [q0] only bearer [p] has changed, which is now [b]. *)
Record upto (p : Z) (b : rmnet_bearer_map) (q0 q : qos_info) : Prop := {
  u_shape : same_shape q0 q;
  u_stopped : q_stopped q = q_stopped q0;
  u_heap : q_heap q = <[p := b]> (q_heap q0)
}.

Lemma upto_refl p b q : q_heap q !! p = Some b -> upto p b q q.
Proof. intros Hp. constructor; [done|done|]. by rewrite insert_id. Qed.

(** A bearer of a linked device can be replaced by one that is counted and bound
    alike. *)
Lemma linked_upd q q' p b b' : linked q -> q_heap q !! p = Some b -> same_bearer b b' ->
  0 <= b_grant_size b' -> same_shape q q' -> q_heap q' = <[p := b']> (q_heap q) -> linked q'.
Proof.
  intros HL Hp (Hid & Href & Hmq & Hack) Hg [Hb Hf Hn Hr Hlk Hm Hq Hst] Hh.
  assert (Hl : forall p1 b1, q_heap q' !! p1 = Some b1 ->
    exists b2, q_heap q !! p1 = Some b2 /\ same_bearer b2 b1 /\ 0 <= b_grant_size b1).
  { intros p1 b1. rewrite Hh. intros [(-> & <-)|(? & ?)]%lookup_insert_Some; [by exists b|].
    exists b1. split_and!; [done|done|]. by eapply l_grant. }
  destruct HL as [H1 H2 H3 H4 H5 H6 H7 H8 H9 H10 H11 H12 H13 H14].
  assert (Hs : forall p1, is_Some (q_heap q' !! p1) <-> is_Some (q_heap q !! p1)).
  { intros p1. rewrite Hh. destruct (decide (p1 = p)) as [->|].
    - rewrite lookup_insert_eq, Hp. by split; intros _; eexists.
    - by rewrite lookup_insert_ne. }
  constructor; rewrite ?Hb, ?Hf, ?Hn, ?Hr, ?Hq; try done.
  - intros p1. by rewrite Hs.
  - intros p1 p2 b1 b2 Hb1 Hb2 He. destruct (Hl _ _ Hb1) as (c1 & Hc1 & (E1 & _) & _).
    destruct (Hl _ _ Hb2) as (c2 & Hc2 & (E2 & _) & _). eapply H4; [done|done|congruence].
  - intros p1 b1 Hb1. destruct (Hl _ _ Hb1) as (c1 & Hc1 & (_ & _ & E1 & E2) & _).
    unfold bound. rewrite E1, E2, Hq. by apply H5.
  - intros p1 b1 Hb1. by destruct (Hl _ _ Hb1) as (c1 & _ & _ & Hg1).
  - rewrite <- H7. apply (f_equal length) in Hq. unfold mq_bearers in Hq.
    by rewrite !length_fmap in Hq.
  - intros i p1 Hi. destruct (H9 i p1 Hi) as (b1 & Hb1 & Hr1). rewrite Hh.
    destruct (decide (p1 = p)) as [->|].
    + rewrite lookup_insert_eq. exists b'. split; [done|]. rewrite Href. by simplify_eq.
    + rewrite lookup_insert_ne by done. by exists b1.
  - unfold zlen in *. by rewrite Hst.
  - intros p1 b1 Hb1. destruct (Hl _ _ Hb1) as (c1 & Hc1 & (_ & E1 & _) & _).
    rewrite E1. by apply H11.
  - intros f p1 Hin He. destruct (H12 f p1 Hin He) as (b1 & Hb1 & Hi). rewrite Hh.
    destruct (decide (p1 = p)) as [->|].
    + rewrite lookup_insert_eq. exists b'. split; [done|]. rewrite Hid. by simplify_eq.
    + rewrite lookup_insert_ne by done. by exists b1.
Qed.

Lemma linked_same q q' : same_shape q q' -> q_heap q' = q_heap q -> linked q -> linked q'.
Proof.
  intros [Hb Hf Hn Hr Hlk Hm Hq Hst] Hh []. constructor; rewrite ?Hb, ?Hf, ?Hn, ?Hr, ?Hq, ?Hh; try done.
  - intros p b Hp. unfold bound. rewrite Hq. by apply l_bound0.
  - rewrite <- l_mq_len0. apply (f_equal length) in Hq. unfold mq_bearers in Hq.
    by rewrite !length_fmap in Hq.
  - unfold zlen in *. by rewrite Hst.
Qed.

Lemma core_same q q' : same_shape q q' -> q_heap q' = q_heap q -> q_stopped q' = q_stopped q ->
  core_inv q -> core_inv q'.
Proof.
  intros Hs Hh Hst [HL HR]. split; [by eapply linked_same|].
  intros p b. rewrite Hh, Hst. apply HR.
Qed.

Lemma upto_linked p b0 b q0 q : linked q0 -> q_heap q0 !! p = Some b0 -> same_bearer b0 b ->
  0 <= b_grant_size b -> upto p b q0 q -> linked q.
Proof. intros HL Hp Hb Hg []. by eapply linked_upd. Qed.

Lemma upto_at p b q0 q : upto p b q0 q -> q_heap q !! p = Some b.
Proof. intros []. rewrite u_heap0. apply lookup_insert_eq. Qed.

Lemma wp_upd_bearer p f b q0 d (Q : unit -> dfc_dev -> Prop) : upto p b q0 (d_q d) ->
  (forall d', d_k d' = d_k d -> upto p (f b) q0 (d_q d') -> Q tt d') -> wp (upd_bearer p f) d Q.
Proof.
  intros Hu HQ. unfold upd_bearer, bearer_at. repeat wp_step.
  rewrite (upto_at _ _ _ _ Hu). apply wp_ret. wp_step. apply HQ; [done|].
  destruct Hu as [[] ? Hh]. constructor; cbn; [by constructor|done|].
  by rewrite Hh, insert_insert_eq.
Qed.

Lemma wp_bearer_at p b d (Q : rmnet_bearer_map -> dfc_dev -> Prop) :
  q_heap (d_q d) !! p = Some b -> Q b d -> wp (bearer_at p) d Q.
Proof. intros Hb HQ. unfold bearer_at. repeat wp_step. rewrite Hb. by apply wp_ret. Qed.

(** ** The list of bearers *)

Lemma find_bearer_spec q k l id : (forall p, p ∈ l -> is_Some (q_heap q !! p)) ->
  exists o, find_bearer l id (mk_dev q k) = Ret o (mk_dev q k) /\
    match o with
    | Some p => p ∈ l /\ exists b, q_heap q !! p = Some b /\ b_bearer_id b = id
    | None => forall p b, p ∈ l -> q_heap q !! p = Some b -> b_bearer_id b <> id
    end.
Proof.
  induction l as [|p l IH]; intros Hl; [exists None; split; [done|set_solver]|].
  destruct (Hl p) as (b & Hb); [set_solver|].
  assert (Hat : bearer_at p (mk_dev q k) = Ret b (mk_dev q k)).
  { change (deref (q_heap q !! p) (mk_dev q k) = Ret b (mk_dev q k)). by rewrite Hb. }
  cbn [find_bearer]. rewrite (bind_ret _ _ _ _ _ Hat).
  destruct (Z.eqb_spec (b_bearer_id b) id) as [He|He].
  - exists (Some p). split; [done|]. split; [set_solver|]. by exists b.
  - destruct IH as (o & -> & Ho); [set_solver|]. exists o. split; [done|].
    destruct o as [p'|]; [destruct Ho as (? & ?); split; [set_solver|done]|].
    intros p' b' [->|Hp']%elem_of_cons Hb'; [by simplify_eq|by eapply Ho].
Qed.

Lemma wp_get_bearer_map id d (Q : option Z -> dfc_dev -> Prop) :
  (forall p, p ∈ q_bearers (d_q d) -> is_Some (q_heap (d_q d) !! p)) ->
  (forall p b, p ∈ q_bearers (d_q d) -> q_heap (d_q d) !! p = Some b -> b_bearer_id b = id ->
     Q (Some p) d) ->
  ((forall p b, p ∈ q_bearers (d_q d) -> q_heap (d_q d) !! p = Some b -> b_bearer_id b <> id) ->
     Q None d) ->
  wp (qmi_rmnet_get_bearer_map id) d Q.
Proof.
  intros HL HS HN. destruct d as [q k]. unfold qmi_rmnet_get_bearer_map. repeat wp_step.
  destruct (find_bearer_spec q k (q_bearers q) id HL) as (o & Hr & Ho).
  exists o, (mk_dev q k). split; [done|]. destruct o as [p|].
  - destruct Ho as (Hp & b & Hb & He). by apply (HS p b).
  - by apply HN.
Qed.

Lemma linked_live q : linked q -> forall p, p ∈ q_bearers q -> is_Some (q_heap q !! p).
Proof. intros HL p. apply HL. Qed.
#[export] Hint Resolve linked_live : core.

(** ** A new device *)

Lemma init_inv mux n : 0 <= n <= INVALID_MQ -> dev_inv (qmi_rmnet_qos_init mux n).
Proof.
  intros Hn. assert (Hmq : forall i, mq_bearers (qmi_rmnet_qos_init mux n) !! i =
    if decide (i < 16)%nat then Some None else None).
  { intros i. do 16 (destruct i as [|i]; [done|]). done. }
  split; [split|done]; [constructor; cbn; try done|].
  - constructor.
  - intros p. rewrite lookup_empty. split; [by intros ?%not_elem_of_nil|by intros [? ?]].
  - by intros p ?%not_elem_of_nil.
  - intros i p. rewrite Hmq. by case_decide.
  - unfold zlen. rewrite length_replicate. lia.
  - by intros f p ?%not_elem_of_nil.
  - constructor.
  - by intros p b Hb.
Qed.
