(* ===== verification/DfcKeeps.v ===== *)
(** * RmNet flow control: events of a device keep the invariant

    Every function of [DfcGrants] returns, changes the bearer it is about, and
    leaves its queue in the state that its grant asks for; so do the handlers
    that take an indication, count a packet or run on a timer. *)

From S2P Require Import DfcState.
From S2P Require Import Prelude DfcGrants DfcFlows DfcInv.

(** ** Queues *)

(** What dfc_bearer_flow_ctl makes of the queues. *)
Definition after_ctl (b : rmnet_bearer_map) (l : list bool) : list bool :=
  let enable := truthy (b_grant_size b) in
  zupd (if b_ack_mq_idx b =? INVALID_MQ then l
        else zupd l (b_ack_mq_idx b) (negb (enable || b_tcp_bidir b)))
    (b_mq_idx b) (negb enable).

Lemma length_after_ctl b l : length (after_ctl b l) = length l.
Proof. unfold after_ctl. rewrite length_zupd. case_if; [done|]. apply length_zupd. Qed.

Lemma lookup_zupd_nat {A} (l : list A) (i j : nat) x :
  zupd l (Z.of_nat i) x !! j = if decide (i = j) then l !! j ≫= (fun _ => Some x) else l !! j.
Proof.
  destruct (decide (i = j)) as [->|Hne].
  - destruct (l !! j) as [y|] eqn:Hj; cbn.
    + pose proof (lookup_zupd_eq l (Z.of_nat j) x y) as He. rewrite Nat2Z.id in He.
      apply He; [lia|done].
    + apply lookup_ge_None. rewrite length_zupd. by apply lookup_ge_None.
  - pose proof (lookup_zupd_ne l (Z.of_nat i) (Z.of_nat j) x) as He. rewrite Nat2Z.id in He.
    apply He; lia.
Qed.

Lemma zupd_beyond {A} (l : list A) i x : zlen l <= i -> zupd l i x = l.
Proof.
  intros Hi. unfold zlen in Hi. apply list_eq. intros j.
  rewrite <- (Z2Nat.id i), lookup_zupd_nat by lia.
  case_decide as Hj; [|done]. by rewrite (proj2 (lookup_ge_None l j)) by lia.
Qed.

(** The queues of a bound bearer. *)
Lemma after_ctl_lookup q p b l (j : nat) : bound q p b -> b_mq_idx b <> INVALID_MQ ->
  after_ctl b l !! j =
    if decide (Z.of_nat j = b_mq_idx b) then l !! j ≫= (fun _ => Some (b_grant_size b =? 0))
    else if decide (Z.of_nat j = b_ack_mq_idx b)
      then l !! j ≫= (fun _ => Some (negb (truthy (b_grant_size b) || b_tcp_bidir b)))
    else l !! j.
Proof.
  intros [[? ?]|(i & Hi & Hmq & Hack & _)] Hv; [done|].
  unfold after_ctl. rewrite Hmq, Hack. unfold ACK_MQ_OFFSET, MAX_MQ_NUM, INVALID_MQ.
  rewrite (proj2 (Z.eqb_neq _ _)) by lia.
  replace (Z.of_nat i + (16 - 1)) with (Z.of_nat (i + 15)) by lia.
  rewrite !lookup_zupd_nat. unfold truthy. rewrite negb_involutive.
  repeat case_decide; try lia; done.
Qed.

Lemma after_ctl_unbound b l : b_mq_idx b = INVALID_MQ -> b_ack_mq_idx b = INVALID_MQ ->
  zlen l <= INVALID_MQ -> after_ctl b l = l.
Proof.
  intros Hm Ha Hl. unfold after_ctl. rewrite Ha, Hm, Z.eqb_refl. by apply zupd_beyond.
Qed.

Lemma after_ctl_ready q p b l : bound q p b -> queue_ready (after_ctl b l) b.
Proof.
  intros Hb Hv. pose proof Hb as [[? ?]|(i & Hi & Hmq & Hack & _)]; [done|].
  unfold ACK_MQ_OFFSET, MAX_MQ_NUM in Hack. split.
  - intros s. rewrite (after_ctl_lookup q p) by done. rewrite Hmq.
    rewrite decide_True by lia. destruct (l !! _); [|done]. by intros [= <-].
  - rewrite (after_ctl_lookup q p) by done. rewrite Hmq, Hack.
    rewrite decide_False, decide_True by lia. destruct (l !! _); [|done]. cbn.
    unfold truthy. destruct (Z.eqb_spec (b_grant_size b) 0), (b_tcp_bidir b); done.
Qed.

(** The queues of another bearer are other queues. *)
Lemma after_ctl_other q p p' b b' l : bound q p b -> bound q p' b' -> p <> p' ->
  zlen l <= INVALID_MQ -> queue_ready l b' -> queue_ready (after_ctl b l) b'.
Proof.
  intros Hb Hb' Hne Hl Hr Hv. specialize (Hr Hv).
  destruct Hb' as [[? ?]|(i' & Hi' & Hmq' & Hack' & Hp')]; [done|].
  destruct (decide (b_mq_idx b = INVALID_MQ)) as [Hinv|Hinv].
  - destruct Hb as [[? ?]|(i & ? & Hm & _)]; [|unfold INVALID_MQ in *; lia].
    by rewrite after_ctl_unbound.
  - pose proof Hb as [[? ?]|(i & Hi & Hmq & Hack & Hp)]; [done|].
    assert (i <> i') by congruence. unfold ACK_MQ_OFFSET, MAX_MQ_NUM in *.
    rewrite Hmq', Hack', !(after_ctl_lookup q p), Hmq, Hack by done.
    rewrite Hmq', Hack' in Hr. rewrite !decide_False by lia. done.
Qed.

(** ** Runs *)

Lemma wp_flow_control i en d (Q : unit -> dfc_dev -> Prop) : 0 <= i ->
  Q tt (mk_dev (set_q_stopped (zupd (q_stopped (d_q d)) i (negb en)) (d_q d)) (d_k d)) ->
  wp (qmi_rmnet_flow_control i en) d Q.
Proof.
  intros Hi HQ. unfold qmi_rmnet_flow_control. repeat wp_step.
  case_if; [|by wp_step]. wp_step. rewrite zupd_beyond in HQ by done. by destruct d as [[] ?].
Qed.

Lemma wp_ctl_send d (Q : bool -> dfc_dev -> Prop) :
  (forall fails k, Q fails (mk_dev (d_q d) k)) -> wp rmnet_ctl_send d Q.
Proof.
  intros HQ. unfold rmnet_ctl_send. apply wp_bind. exists (k_ctl (d_k d)), d. split; [done|].
  destruct (k_ctl (d_k d)) as [|fails m]; [|by repeat wp_step].
  wp_step. destruct d. apply HQ.
Qed.

Lemma wp_txid d (Q : Z -> dfc_dev -> Prop) :
  (forall t k, Q t (mk_dev (d_q d) k)) -> wp rmnet_qmap_next_txid d Q.
Proof. intros HQ. unfold rmnet_qmap_next_txid. apply wp_bind. eexists _, d. split; [done|]. by repeat wp_step. Qed.

Section keeps.
Context `{DfcConf}.

Lemma wp_qmap_send m ch d (Q : Z -> dfc_dev -> Prop) :
  (forall r k, Q r (mk_dev (d_q d) k)) -> wp (rmnet_qmap_send m ch) d Q.
Proof.
  intros HQ. unfold rmnet_qmap_send, send. case_if; [by repeat wp_step|].
  wp_step. apply wp_ctl_send. intros [] k; by repeat wp_step.
Qed.

Lemma wp_end_marker b s t d (Q : unit -> dfc_dev -> Prop) :
  (forall k, Q tt (mk_dev (d_q d) k)) -> wp (dfc_qmap_send_end_marker_cnf b s t) d Q.
Proof.
  intros HQ. unfold dfc_qmap_send_end_marker_cnf. repeat wp_step. case_if; [by wp_step|].
  repeat wp_step. apply wp_qmap_send. intros r k1. by wp_step.
Qed.

Lemma wp_qmap_ack id s ty d (Q : unit -> dfc_dev -> Prop) : linked (d_q d) ->
  (forall k, Q tt (mk_dev (d_q d) k)) -> wp (dfc_qmap_send_ack id s ty) d Q.
Proof.
  intros HL HQ. assert (HQd : Q tt d) by (destruct d; apply HQ).
  unfold dfc_qmap_send_ack. case_if.
  - wp_step. apply wp_get_bearer_map; [by apply linked_live| |by intros _; wp_step].
    intros p b _ Hb _. wp_step. apply (wp_bearer_at p b); [done|]. by apply wp_end_marker.
  - apply wp_when; [intros _|done]. repeat wp_step. unfold dfc_qmap_send_query.
    repeat wp_step. case_if; [by wp_step|]. wp_step. apply wp_txid. intros t k1. wp_step.
    apply wp_qmap_send. intros r k2. by wp_step.
Qed.

Lemma wp_send_ack id s mux ty d (Q : unit -> dfc_dev -> Prop) : linked (d_q d) ->
  (forall t k, Q tt (mk_dev (set_q_tran_num t (d_q d)) k)) -> wp (dfc_send_ack id s mux ty) d Q.
Proof.
  intros HL HQ.
  assert (HQk : forall k, Q tt (mk_dev (d_q d) k)).
  { intros k. specialize (HQ (q_tran_num (d_q d)) k). by destruct d as [[] ?]. }
  unfold dfc_send_ack. case_if; [by apply wp_qmap_ack|]. repeat wp_step. case_if; [by wp_step|].
  unfold send. repeat wp_step. apply HQ.
Qed.

(** dfc_bearer_flow_ctl up to the acknowledgement. *)
Lemma wp_flow_ctl_queues p b d (Q : unit -> dfc_dev -> Prop) :
  linked (d_q d) -> q_heap (d_q d) !! p = Some b ->
  wp (when (negb (truthy (b_grant_size b)) && truthy (b_ack_req b))
      (dfc_send_ack (b_bearer_id b) (b_seq b) (q_mux_id (d_q d)) DFC_ACK_TYPE_DISABLE))
    (mk_dev (set_q_stopped (after_ctl b (q_stopped (d_q d))) (d_q d)) (d_k d)) Q ->
  wp (dfc_bearer_flow_ctl p) d Q.
Proof.
  intros HL Hb HQ.
  assert (Hpos : 0 <= b_mq_idx b /\ 0 <= b_ack_mq_idx b).
  { destruct (l_bound _ HL p b Hb) as [[-> ->]|(i & ? & -> & -> & _)];
      unfold INVALID_MQ, ACK_MQ_OFFSET, MAX_MQ_NUM; lia. }
  set (l1 := if b_ack_mq_idx b =? INVALID_MQ then q_stopped (d_q d)
    else zupd (q_stopped (d_q d)) (b_ack_mq_idx b) (negb (truthy (b_grant_size b) || b_tcp_bidir b))).
  assert (H1 : wp (when (negb (b_ack_mq_idx b =? INVALID_MQ))
    (qmi_rmnet_flow_control (b_ack_mq_idx b) (truthy (b_grant_size b) || b_tcp_bidir b))) d
    (fun _ d' => d' = mk_dev (set_q_stopped l1 (d_q d)) (d_k d))).
  { subst l1. apply wp_when; destruct (b_ack_mq_idx b =? INVALID_MQ); cbn; try done; intros _.
    - apply wp_flow_control; [lia|done].
    - by destruct d as [[] ?]. }
  unfold dfc_bearer_flow_ctl. wp_step. apply (wp_bearer_at p b); [done|].
  wp_step. eapply wp_mono; [exact H1|]. cbv beta. intros [] d1 ->. wp_step.
  apply wp_flow_control; [lia|]. cbn [d_q d_k q_stopped set_q_stopped]. repeat wp_step. done.
Qed.

Lemma after_ctl_linked p b q : linked q -> q_heap q !! p = Some b ->
  linked (set_q_stopped (after_ctl b (q_stopped q)) q).
Proof.
  intros HL Hb. apply (linked_same q); [|done|done]. constructor; try done.
  cbn. apply length_after_ctl.
Qed.

Lemma wp_flow_ctl p b d (Q : unit -> dfc_dev -> Prop) :
  linked (d_q d) -> q_heap (d_q d) !! p = Some b ->
  (forall t k, Q tt (mk_dev (set_q_tran_num t
    (set_q_stopped (after_ctl b (q_stopped (d_q d))) (d_q d))) k)) ->
  wp (dfc_bearer_flow_ctl p) d Q.
Proof.
  intros HL Hb HQ. apply (wp_flow_ctl_queues p b); [done|done|]. apply wp_when; intros _.
  - apply wp_send_ack; [by eapply after_ctl_linked|]. intros t k1. cbn. apply HQ.
  - specialize (HQ (q_tran_num (d_q d)) (d_k d)). by destruct d as [[] ?].
Qed.

End keeps.

(** * RmNet flow control: indications and packets keep the invariant

    Each of the functions that change grants returns from a device with the
    invariant, with the lock released and the invariant kept. *)

(** ** One bearer *)

(** Bearer [p] has changed and its queue agrees with it; no other bearer lost
    this. *)
Record settled (p : Z) (q0 q : qos_info) : Prop := {
  t_shape : same_shape q0 q;
  t_linked : linked q;
  t_ready : ready p q;
  t_other : forall p', p' <> p -> ready p' q0 -> ready p' q
}.

Lemma settled_core p q0 q : core_inv q0 -> settled p q0 q -> core_inv q.
Proof.
  intros [_ HR] [_ HL Hp Ho]. split; [done|]. intros p'.
  destruct (decide (p' = p)) as [->|]; auto.
Qed.

(** A bearer whose queue need not change. *)
Lemma settled_quiet p b0 b q0 q : linked q0 -> q_heap q0 !! p = Some b0 -> ready p q0 ->
  same_bearer b0 b -> 0 <= b_grant_size b -> (b_grant_size b =? 0) = (b_grant_size b0 =? 0) ->
  (b_tcp_bidir b = true -> b_tcp_bidir b0 = false -> b_grant_size b <> 0) ->
  upto p b q0 q -> settled p q0 q.
Proof.
  intros HL Hb0 HR Hs Hg Hz Ht Hu. pose proof Hu as [Hsh Hst Hh].
  constructor; [done|by eapply upto_linked| |].
  - intros b1 Hb1. rewrite (upto_at _ _ _ _ Hu) in Hb1. injection Hb1 as <-.
    destruct Hs as (_ & _ & Hmq & Hack). unfold queue_ready. rewrite Hst, Hmq, Hack, Hz.
    intros Hv. destruct (HR b0 Hb0 Hv) as (H1 & H2). split; [done|].
    intros Hk. destruct (H2 Hk) as (H3 & H4). apply Z.eqb_eq in H3. rewrite H3 in Hz.
    apply Z.eqb_eq in Hz. split; [done|]. destruct (b_tcp_bidir b) eqn:Hb; [|done].
    by destruct (Ht eq_refl H4).
  - intros p' Hne HR' b1. rewrite Hh, lookup_insert_ne, Hst by done. apply HR'.
Qed.

Lemma bound_shape q q' p b b' : mq_bearers q' = mq_bearers q -> same_bearer b b' -> bound q p b -> bound q' p b'.
Proof. intros Hq (_ & _ & H1 & H2). unfold bound. by rewrite Hq, H1, H2. Qed.

Section steps.
Context `{DfcConf}.

(** dfc_bearer_flow_ctl as the last step on a bearer. *)
Lemma settled_ctl p b0 b q0 q t : linked q0 -> q_heap q0 !! p = Some b0 -> same_bearer b0 b ->
  0 <= b_grant_size b -> upto p b q0 q ->
  settled p q0 (set_q_tran_num t (set_q_stopped (after_ctl b (q_stopped q)) q)).
Proof.
  intros HL Hb0 Hs Hg Hu. pose proof (upto_linked _ _ _ _ _ HL Hb0 Hs Hg Hu) as HL'.
  pose proof (upto_at _ _ _ _ Hu) as Hb. destruct Hu as [Hsh Hst Hh].
  assert (Hsh' : same_shape q (set_q_tran_num t (set_q_stopped (after_ctl b (q_stopped q)) q))).
  { constructor; try done. cbn. apply length_after_ctl. }
  constructor; cbn.
  - by etrans.
  - by apply (linked_same q).
  - intros b1 Hb1. cbn in Hb1. rewrite Hb in Hb1. injection Hb1 as <-.
    eapply after_ctl_ready, l_bound; [exact HL'|done].
  - intros p' Hne HR b1 Hb1. cbn [q_heap q_stopped set_q_tran_num set_q_stopped] in *.
    eapply after_ctl_other; [by eapply l_bound|by eapply l_bound|done|by apply l_queues|].
    rewrite Hst. apply HR. rewrite Hh, lookup_insert_ne in Hb1; done.
Qed.

Lemma wp_settle p b0 b q0 d (Q : unit -> dfc_dev -> Prop) :
  linked q0 -> q_heap q0 !! p = Some b0 -> same_bearer b0 b -> 0 <= b_grant_size b ->
  upto p b q0 (d_q d) ->
  (forall d', settled p q0 (d_q d') -> q_heap (d_q d') !! p = Some b -> Q tt d') ->
  wp (dfc_bearer_flow_ctl p) d Q.
Proof.
  intros HL Hb0 Hs Hg Hu HQ. pose proof (upto_linked _ _ _ _ _ HL Hb0 Hs Hg Hu) as HL'.
  pose proof (upto_at _ _ _ _ Hu) as Hb.
  apply (wp_flow_ctl p b); [done|done|]. intros t k. apply HQ; [|done]. by eapply settled_ctl.
Qed.

Lemma wp_watchdog_add p b q0 d (Q : unit -> dfc_dev -> Prop) : upto p b q0 (d_q d) ->
  (forall d' v s, upto p (set_b_watchdog v (set_b_watchdog_started s (set_b_watchdog_quit false b)))
     q0 (d_q d') -> Q tt d') ->
  wp (qmi_rmnet_watchdog_add p) d Q.
Proof.
  intros Hu HQ. unfold qmi_rmnet_watchdog_add. wp_step. eapply wp_upd_bearer; [done|].
  intros d1 _ Hu1. wp_step. eapply wp_bearer_at; [by eapply upto_at|]. apply wp_when; intros _.
  - eapply wp_upd_bearer; [done|]. intros d2 _. apply HQ.
  - apply (HQ d1 (b_watchdog b) (b_watchdog_started b)). by destruct b.
Qed.

Lemma wp_watchdog_remove p b q0 d (Q : unit -> dfc_dev -> Prop) : upto p b q0 (d_q d) ->
  (forall d' v s, d_k d' = d_k d ->
     upto p (set_b_watchdog v (set_b_watchdog_started s (set_b_watchdog_quit true b)))
     q0 (d_q d') -> Q tt d') ->
  wp (qmi_rmnet_watchdog_remove p) d Q.
Proof.
  intros Hu HQ. unfold qmi_rmnet_watchdog_remove. wp_step. eapply wp_upd_bearer; [done|].
  intros d1 Hk1 Hu1. wp_step. eapply wp_bearer_at; [by eapply upto_at|]. apply wp_when; intros _.
  - eapply wp_upd_bearer; [done|]. intros d2 Hk2. apply (HQ d2 false false). congruence.
  - apply (HQ d1 (b_watchdog b) (b_watchdog_started b)); [done|]. by destruct b.
Qed.

(** A step that neither reads nor changes the device. *)
Lemma upto_kernel p b q0 d k : upto p b q0 (d_q d) -> upto p b q0 (d_q (mk_dev (d_q d) k)).
Proof. done. Qed.

Lemma upto_tran p b q0 q t : upto p b q0 q -> upto p b q0 (set_q_tran_num t q).
Proof. intros [[] ? ?]. by repeat constructor. Qed.

(** ** The lock *)

Lemma wp_lock d (Q : unit -> dfc_dev -> Prop) : q_locked (d_q d) = false ->
  Q tt (mk_dev (set_q_locked true (d_q d)) (d_k d)) -> wp spin_lock_bh d Q.
Proof.
  intros Hl HQ. unfold spin_lock_bh. repeat wp_step. rewrite Hl. by wp_step.
Qed.

Lemma core_inv_lock l q : core_inv q -> core_inv (set_q_locked l q).
Proof. intros [[] HR]. split; [by constructor|]. intros p. apply HR. Qed.

(** A function that takes the lock, keeps the invariant and releases it. *)
Lemma wp_enter {A} (k : unit -> M A) d (Q : A -> dfc_dev -> Prop) : dev_inv (d_q d) ->
  (forall d0, core_inv (d_q d0) -> d_k d0 = d_k d -> d_q d0 = set_q_locked true (d_q d) -> wp (k tt) d0 Q) ->
  wp (x ← spin_lock_bh; k x) d Q.
Proof.
  intros [HC Hl] Hk. wp_step. apply wp_lock; [done|]. apply Hk; [by apply core_inv_lock|done..].
Qed.

Lemma wp_leave d : core_inv (d_q d) -> wp spin_unlock_bh d (fun _ d' => dev_inv (d_q d')).
Proof. intros HC. unfold spin_unlock_bh. wp_step. split; [by apply core_inv_lock|done]. Qed.

End steps.

(** * RmNet flow control: what the modem and the packets do to a device

    The functions that take an indication, count a packet or run on a timer,
    each from a device with the invariant. *)

Section events.
Context `{DfcConf}.

(** ** Indications of grants *)

(** The grant that is left of an indication. *)
Definition adjusted (b : rmnet_bearer_map) (fc : flow_status) (is_query : bool) : Z :=
  if dfc_qmap && is_query && fs_rx_bytes_valid fc
  then Z.max 0 (fs_num_bytes fc - Z.max 0 (b_bytes_in_flight b - fs_rx_bytes fc))
  else fs_num_bytes fc.

Lemma wp_set_ll_ch p b q0 i ll d (Q : unit -> dfc_dev -> Prop) :
  linked (d_q d) -> upto p b q0 (d_q d) ->
  (forall d', upto p b q0 (d_q d') -> d_k d' = d_k d -> Q tt d') -> wp (set_ll_ch i ll) d Q.
Proof.
  intros HL Hu HQ. unfold set_ll_ch. apply wp_when; [|intros _; by apply HQ].
  intros Hlt. apply Z.ltb_lt in Hlt. unfold MAX_MQ_NUM in Hlt.
  assert (Hi : (Z.to_nat i < length (q_mq (d_q d)))%nat).
  { rewrite (l_mq_len _ HL). lia. }
  repeat wp_step. destruct (lookup_lt_is_Some_2 _ _ Hi) as [m Hm]. rewrite Hm. repeat wp_step.
  apply HQ; [|done]. destruct Hu as [[? ? ? ? ? ? Hmq ?] ? ?]. constructor; [constructor|..]; try done.
  rewrite <- Hmq. unfold mq_bearers. cbn. rewrite list_fmap_insert. apply list_insert_id.
  by rewrite list_lookup_fmap, Hm.
Qed.

Lemma wp_adjust_grant p b q0 fc d (Q : Z -> dfc_dev -> Prop) : upto p b q0 (d_q d) ->
  (forall d' b', upto p b' q0 (d_q d') -> same_bearer b b' -> b_grant_size b' = b_grant_size b ->
     Q (if fs_rx_bytes_valid fc
        then Z.max 0 (fs_num_bytes fc - Z.max 0 (b_bytes_in_flight b - fs_rx_bytes fc))
        else fs_num_bytes fc) d') ->
  wp (dfc_adjust_grant p fc) d Q.
Proof.
  intros Hu HQ. unfold dfc_adjust_grant. destruct (fs_rx_bytes_valid fc); cbn [negb].
  - wp_step. eapply wp_upd_bearer; [done|]. intros d1 _ Hu1. wp_step.
    eapply wp_bearer_at; [by eapply upto_at|]. wp_step. cbn [b_bytes_in_flight set_b_bytes_in_flight].
    replace (if _ <? fs_num_bytes fc then _ else 0) with
      (Z.max 0 (fs_num_bytes fc - Z.max 0 (b_bytes_in_flight b - fs_rx_bytes fc)))
      by (repeat case_if; zbool; lia).
    by eapply HQ.
  - wp_step. by eapply HQ.
Qed.

(** What dfc_update_fc_map leaves of a bearer that takes the indication. *)
Definition took (b0 : rmnet_bearer_map) (ancillary : Z) (fc : flow_status) (is_query : bool)
    (b : rmnet_bearer_map) : Prop :=
  same_bearer b0 b /\ b_grant_size b = adjusted b0 fc is_query /\
  b_tcp_bidir b = DFC_IS_TCP_BIDIR ancillary /\ b_last_seq b = fs_seq_num fc.

Lemma wp_take_status ack anc fc qry p b0 d : linked (d_q d) -> ready p (d_q d) ->
  q_heap (d_q d) !! p = Some b0 -> 0 <= fs_num_bytes fc ->
  wp (take_status ack anc fc qry p) d (fun _ d' => settled p (d_q d) (d_q d') /\
    exists b, q_heap (d_q d') !! p = Some b /\ took b0 anc fc qry b).
Proof.
  intros HL HR Hb0 Hn. set (q0 := d_q d) in *.
  assert (Hu0 : upto p b0 q0 (d_q d)) by by apply upto_refl.
  pose proof (l_grant _ HL _ _ Hb0) as Hg0.
  unfold take_status. wp_step. eapply wp_bearer_at; [done|]. wp_step.
  (* the channel *)
  eapply (wp_mono _ _ (fun _ d1 => exists b1, upto p b1 q0 (d_q d1) /\ same_bearer b0 b1 /\
    b_grant_size b1 = b_grant_size b0 /\ b_tcp_bidir b1 = b_tcp_bidir b0 /\
    b_bytes_in_flight b1 = b_bytes_in_flight b0)).
  { apply wp_when; intros _; [|by exists b0]. wp_step. eapply wp_upd_bearer; [done|].
    intros d1 _ Hu1. eapply (wp_set_ll_ch p _ q0); [|exact Hu1|].
    - by eapply (upto_linked p b0 _ q0 _ HL Hb0); [| |exact Hu1].
    - intros d2 Hu2. eexists. by split. }
  intros [] d1 (b1 & Hu1 & Hs1 & Hg1 & Ht1 & Hf1). wp_step.
  (* the grant *)
  set (g := adjusted b0 fc qry).
  assert (Hgp : 0 <= g) by (unfold g, adjusted; case_if; lia).
  eapply (wp_mono _ _ (fun gr d2 => gr = g /\ exists b2, upto p b2 q0 (d_q d2) /\ same_bearer b0 b2 /\
    b_grant_size b2 = b_grant_size b0)).
  { unfold g, adjusted. case_if; cbn [andb].
    - eapply wp_adjust_grant; [done|]. intros d2 b2 Hu2 Hs2 Hg2. rewrite Hf1. split; [done|].
      exists b2. split_and!; [done|by etrans|congruence].
    - wp_step. eapply wp_upd_bearer; [done|]. intros d2 _ Hu2. wp_step. split; [done|].
      by eexists. }
  intros gr d2 (-> & b2 & Hu2 & Hs2 & Hg2). wp_step.
  (* the acknowledgement *)
  eapply (wp_mono _ _ (fun _ d3 => upto p b2 q0 (d_q d3))).
  { apply wp_when; intros _; [|done]. apply wp_qmap_ack; [|by intros k].
    eapply upto_linked; [done|done|done| |done]. by rewrite Hg2. }
  intros [] d3 Hu3. wp_step. eapply wp_upd_bearer; [done|]. intros d4 _ Hu4. wp_step.
  (* the threshold *)
  eapply (wp_mono _ _ (fun _ d5 => exists b5, upto p b5 q0 (d_q d5) /\ same_bearer b0 b5 /\
    b_grant_size b5 = g)).
  { case_if; wp_step; (eapply wp_upd_bearer; [done|]); intros d5 _ Hu5;
      [eapply wp_watchdog_add|eapply wp_watchdog_remove]; try done; intros; by eexists. }
  intros [] d5 (b5 & Hu5 & Hs5 & Hg5). rewrite <- Hg5 in Hgp. wp_step. eapply wp_upd_bearer; [done|].
  intros d6 _ Hu6.
  apply wp_when; intros Ha.
  - apply (wp_settle p b0 (set_status fc ack anc g b5) q0 _ _ HL Hb0 Hs5 Hgp Hu6). intros d7 Hset Hb7.
    split; [done|]. eexists. split; [done|]. by split_and!.
  - split; [|eexists; split; [by eapply upto_at|by split_and!]].
    rewrite !orb_false_iff in Ha. destruct Ha as [[Ha1 Ha2] Ha3].
    apply (settled_quiet p b0 (set_status fc ack anc g b5) q0 _ HL Hb0 HR Hs5 Hgp); [| |done]; cbn; rewrite ?Hg5.
    + destruct (Z.eqb_spec (b_grant_size b0) 0), (Z.eqb_spec g 0); cbn in *; zbool; lia || done.
    + destruct (b_tcp_bidir b0), (DFC_IS_TCP_BIDIR anc); done.
Qed.

Lemma core_settled p b0 b q0 q : core_inv q0 -> q_heap q0 !! p = Some b0 -> same_bearer b0 b ->
  0 <= b_grant_size b -> b_grant_size b = b_grant_size b0 -> b_tcp_bidir b = b_tcp_bidir b0 ->
  upto p b q0 q -> settled p q0 q.
Proof.
  intros [HL HR] Hb0 Hs Hg He Ht Hu. eapply (settled_quiet p b0); try done.
  - by rewrite He.
  - congruence.
Qed.

(** A bearer that no flow has asked for yet. *)
Lemma core_new_bearer q b : core_inv q -> b_flow_ref b = 0 -> 0 <= b_grant_size b ->
  b_mq_idx b = INVALID_MQ -> b_ack_mq_idx b = INVALID_MQ ->
  (forall p b', q_heap q !! p = Some b' -> b_bearer_id b' <> b_bearer_id b) ->
  core_inv (set_q_bearers (q_next q :: q_bearers q) (set_q_next (q_next q + 1)
    (set_q_heap (<[q_next q := b]> (q_heap q)) q))).
Proof.
  intros [HL HR] Href Hg Hm Ha Hid.
  assert (Hfresh : q_heap q !! q_next q = None).
  { apply eq_None_not_Some. intros Hs. apply HL in Hs. apply (l_next _ HL) in Hs. lia. }
  assert (Hnf : forall f, f ∈ q_flows q -> f_bearer f <> Some (q_next q)).
  { intros f Hf He. destruct (l_flows _ HL f _ Hf He) as (b' & Hb' & _). congruence. }
  destruct HL as [H1 H2 H3 H4 H5 H6 H7 H8 H9 H10 H11 H12 H13 H14].
  split; [constructor; cbn; try done|].
  - constructor; [|done]. intros Hin. apply H3 in Hin. lia.
  - intros p. rewrite elem_of_cons, H2. destruct (decide (p = q_next q)) as [->|].
    + rewrite lookup_insert_eq. naive_solver.
    + rewrite lookup_insert_ne by done. naive_solver.
  - intros p [->|Hp]%elem_of_cons; [lia|]. apply H3 in Hp. lia.
  - intros p p' b1 b2 [(<- & <-)|(? & ?)]%lookup_insert_Some
      [(<- & <-)|(? & ?)]%lookup_insert_Some He; [done|naive_solver..|by eapply H4].
  - intros p b1 [(<- & <-)|(? & Hb1)]%lookup_insert_Some; [by left|]. apply (H5 _ _ Hb1).
  - intros p b1 [(<- & <-)|(? & ?)]%lookup_insert_Some; [done|by eapply H6].
  - intros i p Hi. destruct (H9 i p Hi) as (b1 & Hb1 & ?). exists b1.
    rewrite lookup_insert_ne; [done|congruence].
  - intros p b1 [(<- & <-)|(? & ?)]%lookup_insert_Some; [|by eapply H11].
    by rewrite Href, flows_of_none.
  - intros f p Hf He. rewrite lookup_insert_ne; [by apply H12|]. intros <-. by eapply Hnf.
  - intros p b1 Hb1 Hv. cbn in *.
    apply lookup_insert_Some in Hb1 as [(<- & <-)|(? & Hb1)]; [done|]. by apply (HR p b1 Hb1).
Qed.

Lemma wp_bearer_noref id d : core_inv (d_q d) ->
  (forall p b, p ∈ q_bearers (d_q d) -> q_heap (d_q d) !! p = Some b -> b_bearer_id b <> id) ->
  wp (qmi_rmnet_get_bearer_noref id) d (fun o d' => core_inv (d_q d') /\
    q_locked (d_q d') = q_locked (d_q d) /\
    match o with Some p => is_Some (q_heap (d_q d') !! p) | None => d_q d' = d_q d end).
Proof.
  intros HC Hid. pose proof (proj1 HC) as HL.
  unfold qmi_rmnet_get_bearer_noref, __qmi_rmnet_bearer_get. wp_step. wp_step.
  apply wp_get_bearer_map; [by apply linked_live|intros p b Hp Hb He; by destruct (Hid p b)|intros _].
  wp_step. wp_step. case_if; [by repeat wp_step|]. wp_step. wp_step. wp_step. wp_step. wp_step. wp_step.
  set (q1 := set_q_bearers _ _).
  eapply (wp_upd_bearer _ _ (new_bearer id) q1).
  { apply upto_refl. apply lookup_insert_eq. }
  intros d2 _ Hu. wp_step. destruct Hu as [[] Hst Hh].
  pose proof (core_new_bearer (d_q d) (set_b_flow_ref 0 (new_bearer id)) HC) as HN.
  split_and!; [|done|rewrite Hh, lookup_insert_eq; by eexists].
  eapply core_same; [| | |apply HN; try done]; cbn.
  - by constructor.
  - rewrite Hh. unfold q1. cbn. by rewrite insert_insert_eq.
  - done.
  - intros p b' Hb'. apply (Hid p b'); [|done]. apply HL. by eexists.
Qed.

(** ** The functions with the lock held *)

Definition keeps_core {A} (m : M A) : Prop := forall d, core_inv (d_q d) ->
  wp m d (fun _ d' => core_inv (d_q d') /\ q_locked (d_q d') = q_locked (d_q d)).

Lemma keeps_settled p (m : M unit) d b : core_inv (d_q d) -> q_heap (d_q d) !! p = Some b ->
  wp m d (fun _ d' => settled p (d_q d) (d_q d')) ->
  wp m d (fun _ d' => core_inv (d_q d') /\ q_locked (d_q d') = q_locked (d_q d)).
Proof.
  intros HC Hb Hm. eapply wp_mono; [exact Hm|]. cbv beta. intros _ d' Hs.
  split; [by eapply settled_core|apply (h_locked _ _ (t_shape _ _ _ Hs))].
Qed.

(** A bearer that has the same grant afterwards. *)
Lemma keeps_upd p f d b : core_inv (d_q d) -> q_heap (d_q d) !! p = Some b ->
  same_bearer b (f b) -> b_grant_size (f b) = b_grant_size b -> b_tcp_bidir (f b) = b_tcp_bidir b ->
  wp (upd_bearer p f) d (fun _ d' => settled p (d_q d) (d_q d') /\
    q_heap (d_q d') !! p = Some (f b) /\ d_k d' = d_k d).
Proof.
  intros HC Hb Hs Hg Ht. eapply wp_upd_bearer; [by apply upto_refl|]. intros d' Hk Hu.
  split_and!; [|by eapply upto_at|done]. eapply core_settled; try done.
  rewrite Hg. eapply l_grant; [apply HC|done].
Qed.

Lemma keeps_update_fc_map ack anc fc qry : 0 <= fs_num_bytes fc ->
  keeps_core (dfc_update_fc_map ack anc fc qry).
Proof.
  intros Hn d HC. unfold dfc_update_fc_map. wp_step.
  eapply (wp_mono _ _ (fun o d' => d' = d /\ match o with
    | Some p => is_Some (q_heap (d_q d) !! p)
    | None => forall p b, p ∈ q_bearers (d_q d) -> q_heap (d_q d) !! p = Some b ->
        b_bearer_id b <> fs_bearer_id fc end)).
  { apply wp_get_bearer_map; [apply linked_live, HC| |by split]. intros p b _ Hb _. by rewrite Hb. }
  intros o ? [-> Ho]. wp_step.
  eapply (wp_mono _ _ (fun itm d1 => core_inv (d_q d1) /\ q_locked (d_q d1) = q_locked (d_q d) /\
    match itm with Some p => is_Some (q_heap (d_q d1) !! p) | None => True end)).
  { destruct o as [p|]; [by wp_step|]. case_if; [|by wp_step].
    eapply wp_mono; [by apply wp_bearer_noref|]. cbv beta. intros [p|] d1 (? & ? & ?); by split_and!. }
  intros [p|] d1 (HC1 & Hl1 & Hp); [|by wp_step]. destruct Hp as [b Hb]. wp_step.
  eapply (wp_mono _ _ (fun _ d2 => core_inv (d_q d2) /\ q_locked (d_q d2) = q_locked (d_q d) /\
    is_Some (q_heap (d_q d2) !! p))).
  { apply wp_when; intros _; [|by split_and!]. eapply wp_mono; [by apply (keeps_upd p _ d1 b)|].
    cbv beta. intros _ d2 (Hs & -> & _). split_and!; [by eapply settled_core| |by eexists].
    rewrite <- Hl1. apply (h_locked _ _ (t_shape _ _ _ Hs)). }
  intros [] d2 (HC2 & Hl2 & [b2 Hb2]). wp_step. eapply wp_bearer_at; [done|].
  case_if; [by wp_step|]. case_if; [by wp_step|]. rewrite <- Hl2.
  eapply keeps_settled; [done|done|]. eapply wp_mono.
  { eapply wp_take_status; [apply HC2|apply HC2|done|done]. }
  cbv beta. by intros _ d3 [Hs _].
Qed.

Lemma keeps_all_bearers ack anc fc : 0 <= fs_num_bytes fc ->
  keeps_core (dfc_all_bearer_flow_ctl ack anc fc).
Proof.
  intros Hn d HC. unfold dfc_all_bearer_flow_ctl. wp_step. wp_step.
  apply (wp_for_each (fun d' => core_inv (d_q d') /\ q_locked (d_q d') = q_locked (d_q d) /\
    q_bearers (d_q d') = q_bearers (d_q d))); [|done|by intros d' (? & ? & ?)].
  intros p d1 Hp (HC1 & Hl1 & Hb1). rewrite <- Hb1 in Hp.
  destruct (linked_live _ (proj1 HC1) p Hp) as [b Hb]. wp_step.
  eapply wp_upd_bearer; [by apply upto_refl|]. intros d2 _ Hu.
  eapply (wp_settle p b _ (d_q d1)); [apply HC1|done| | |exact Hu|]; [done|done|].
  intros d3 Hs _. pose proof (t_shape _ _ _ Hs) as []. split_and!; [by eapply settled_core|congruence..].
Qed.

Lemma keeps_tx_link ts id : keeps_core (dfc_update_tx_link_status ts id).
Proof.
  intros d HC. unfold dfc_update_tx_link_status. wp_step.
  apply wp_get_bearer_map; [apply linked_live, HC| |by intros _; wp_step].
  intros p b _ Hb _. wp_step. eapply wp_bearer_at; [done|]. case_if; [by wp_step|]. wp_step.
  eapply (wp_mono _ _ (fun _ d1 => settled p (d_q d) (d_q d1))).
  { case_if.
    - wp_step. eapply wp_upd_bearer; [by apply upto_refl|]. intros d1 _ Hu1. wp_step.
      eapply wp_watchdog_remove; [done|]. intros d2 v s _ Hu2.
      eapply (wp_settle p b _ (d_q d)); [apply HC|done| | |exact Hu2|]; try done.
    - apply wp_when; intros _; [|by eapply core_settled, upto_refl; try done; eapply l_grant; [apply HC|]].
      wp_step. eapply wp_upd_bearer; [by apply upto_refl|]. intros d1 _ Hu1.
      eapply (wp_settle p b _ (d_q d)); [apply HC|done| | |exact Hu1|]; try done. }
  intros [] d1 Hs1. pose proof (settled_core _ _ _ HC Hs1) as HC1.
  destruct (linked_live _ (proj1 HC1) p) as [b1 Hb1].
  { apply (l_heap _ (proj1 HC1)). pose proof (h_bearers _ _ (t_shape _ _ _ Hs1)) as He.
    apply (l_heap _ (proj1 HC1)). rewrite He. apply (l_heap _ (proj1 HC)). by eexists. }
  eapply wp_mono; [by apply (keeps_upd p _ d1 b1)|]. cbv beta. intros _ d2 (Hs2 & _).
  pose proof (t_shape _ _ _ Hs1) as []. pose proof (t_shape _ _ _ Hs2) as [].
  split; [by eapply settled_core|congruence].
Qed.

(** ** Packets, timers and power save *)

(** A loop over the bearers. *)
Lemma keeps_bearers (body : Z -> M unit) d : core_inv (d_q d) ->
  (forall p b d, core_inv (d_q d) -> q_heap (d_q d) !! p = Some b ->
     wp (body p) d (fun _ d' => settled p (d_q d) (d_q d'))) ->
  wp (for_each (q_bearers (d_q d)) body) d (fun _ d' =>
    core_inv (d_q d') /\ q_locked (d_q d') = q_locked (d_q d)).
Proof.
  intros HC Hb. apply (wp_for_each (fun d' => core_inv (d_q d') /\
    q_locked (d_q d') = q_locked (d_q d) /\ q_bearers (d_q d') = q_bearers (d_q d)));
    [|done|by intros d' (? & ? & ?)].
  intros p d1 Hp (HC1 & Hl1 & Hb1). rewrite <- Hb1 in Hp.
  destruct (linked_live _ (proj1 HC1) p Hp) as [b Hb'].
  eapply wp_mono; [by eapply Hb|]. cbv beta. intros _ d2 Hs. pose proof (t_shape _ _ _ Hs) as [].
  split_and!; [by eapply settled_core|congruence..].
Qed.

Lemma keeps_watchdog p d : dev_inv (d_q d) -> is_Some (q_heap (d_q d) !! p) ->
  wp (qmi_rmnet_watchdog_fn p) d (fun _ d' => dev_inv (d_q d')).
Proof.
  intros HI [b Hb]. unfold qmi_rmnet_watchdog_fn. pose proof (core_inv_lock true _ (proj1 HI)) as HC.
  wp_step. apply wp_lock; [apply HI|]. set (d0 := mk_dev _ _). change (core_inv (d_q d0)) in HC.
  change (q_heap (d_q d0) !! p = Some b) in Hb. pose proof (l_grant _ (proj1 HC) _ _ Hb) as Hg.
  wp_step. apply (wp_bearer_at p b); [done|]. wp_step.
  eapply (wp_mono _ _ (fun _ d1 => settled p (d_q d0) (d_q d1) /\ is_Some (q_heap (d_q d1) !! p))).
  { apply wp_when; intros _.
    2: { split; [by eapply core_settled, upto_refl|by eexists]. }
    wp_step. eapply wp_upd_bearer; [by apply upto_refl|]. intros d1 _ Hu1.
    destruct (Z.eqb_spec (b_grant_size b) 0) as [Hz|Hz].
    - wp_step. eapply wp_upd_bearer; [exact Hu1|]. intros d2 _ Hu2.
      eapply (wp_settle p b _ (d_q d0)); [apply HC|done| | |exact Hu2|]; try done.
    - eapply wp_upd_bearer; [exact Hu1|]. intros d2 _ Hu2. split; [|eexists; by eapply upto_at].
      eapply (core_settled p b); [done|done| | | | |exact Hu2]; done. }
  intros [] d1 (Hs1 & [b1 Hb1]). pose proof (settled_core _ _ _ HC Hs1) as HC1. wp_step.
  eapply wp_mono; [by apply (keeps_upd p _ d1 b1)|]. cbv beta. intros _ d2 (Hs2 & _).
  unfold spin_unlock_bh. wp_step. split; [|done]. by eapply core_inv_lock, settled_core.
Qed.

Lemma keeps_burst_check ip mark len d : dev_inv (d_q d) ->
  wp (dfc_qmi_burst_check ip mark len) d (fun _ d' => dev_inv (d_q d')).
Proof.
  intros HI. unfold dfc_qmi_burst_check, qmi_rmnet_get_flow_map.
  pose proof (core_inv_lock true _ (proj1 HI)) as HC. wp_step. apply wp_lock; [apply HI|].
  set (d0 := mk_dev _ _). change (core_inv (d_q d0)) in HC. repeat wp_step.
  eapply (wp_mono _ _ (fun _ d1 => core_inv (d_q d1))).
  2: { intros [] d1 HC1. unfold spin_unlock_bh. wp_step. split; [by apply core_inv_lock|done]. }
  destruct (list_find _ (q_flows (d_q d0))) as [[i f]|] eqn:Hf; [|cbn [option_bind mbind]; by wp_step].
  cbn [option_bind mbind snd]. destruct (f_bearer f) as [p|] eqn:Hp; [|by wp_step].
  apply list_find_Some in Hf as (Hi & _ & _).
  destruct (l_flows _ (proj1 HC) f p) as (b & Hb & _); [by eapply list_elem_of_lookup_2|done|].
  pose proof (l_grant _ (proj1 HC) _ _ Hb) as Hg. wp_step.
  eapply wp_upd_bearer; [by apply upto_refl|]. intros d1 _ Hu1. wp_step.
  eapply wp_bearer_at; [by eapply upto_at|]. cbv zeta. cbn [b_grant_size b_grant_thresh set_b_bytes_in_flight].
  case_if.
  { wp_step. eapply (settled_core p); [exact HC|].
    eapply (core_settled p b); [done|done| | | | |exact Hu1]; done. }
  set (left := if b_grant_size b <=? len then 0 else b_grant_size b - len).
  assert (Hl : 0 <= left) by (unfold left; case_if; zbool; lia).
  wp_step. eapply wp_upd_bearer; [exact Hu1|]. intros d2 _ Hu2. wp_step. wp_step. wp_step.
  eapply (wp_mono _ _ (fun _ d3 => exists b3, upto p b3 (d_q d0) (d_q d3) /\ same_bearer b b3 /\
    b_grant_size b3 = left /\ b_tcp_bidir b3 = b_tcp_bidir b)).
  { apply wp_when; intros _; [|by eexists]. apply wp_send_ack.
    - eapply (upto_linked p b); [apply HC|done| | |exact Hu2]; done.
    - intros t k. eexists. split; [by apply upto_tran|done]. }
  intros [] d3 (b3 & Hu3 & Hs3 & Hg3 & Ht3). apply wp_when; intros Hz; zbool.
  - eapply (wp_settle p b b3 (d_q d0)); [apply HC|done|done|lia|done|].
    intros d4 Hs4 _. by eapply settled_core.
  - eapply (settled_core p); [exact HC|].
    eapply (settled_quiet p b b3); [apply HC|done|apply HC|done|lia| |congruence|done].
    by rewrite Hg3, !(proj2 (Z.eqb_neq _ _)).
Qed.

Lemma keeps_end_marker id s t d : dev_inv (d_q d) ->
  wp (dfc_qmap_set_end_marker id s t) d (fun _ d' => dev_inv (d_q d')).
Proof.
  intros HI. unfold dfc_qmap_set_end_marker. apply wp_enter; [done|]. intros d0 HC _ _. wp_step.
  apply wp_get_bearer_map; [apply linked_live, HC| |intros _].
  - intros p b _ Hb _. wp_step. apply (wp_bearer_at p b); [done|]. wp_step. case_if.
    + eapply wp_mono; [by apply (keeps_upd p _ d0 b)|]. intros ? d1 (Hs & _). wp_step.
      eapply wp_mono; [by eapply wp_leave, settled_core|]. intros ? d2 HI2. by wp_step.
    + apply wp_end_marker. intros k. wp_step. eapply wp_mono; [by apply wp_leave|].
      intros ? d2 HI2. by wp_step.
  - wp_step. eapply wp_mono; [by apply wp_leave|]. intros ? d2 HI2. by wp_step.
Qed.

Lemma keeps_enable_all d : dev_inv (d_q d) ->
  wp qmi_rmnet_enable_all_flows d (fun _ d' => dev_inv (d_q d')).
Proof.
  intros HI. unfold qmi_rmnet_enable_all_flows. apply wp_enter; [done|]. intros d0 HC _ _.
  wp_step. wp_step. wp_step. eapply wp_mono; [apply keeps_bearers; [done|]|].
  2: { intros _ d1 [HC1 _]. by apply wp_leave. }
  clear d d0 HI HC. intros p b d HC Hb. pose proof (l_grant _ (proj1 HC) _ _ Hb) as Hg. wp_step.
  eapply wp_upd_bearer; [by apply upto_refl|]. intros d1 _ Hu1. wp_step.
  eapply wp_watchdog_remove; [exact Hu1|]. intros d2 v s _ Hu2. wp_step.
  eapply wp_bearer_at; [by eapply upto_at|].
  assert (Hq : forall b', same_bearer b b' -> b_tcp_bidir b' = false -> 0 <= b_grant_size b' ->
    (b_grant_size b' =? 0) = (b_grant_size b =? 0) -> forall q, upto p b' (d_q d) q -> settled p (d_q d) q).
  { intros b' H1 H2 H3 H4 q Hu. eapply (settled_quiet p b b'); try done; [apply HC|apply HC|congruence]. }
  apply wp_when; intros _; [|by eapply Hq; [..|exact Hu2]].
  wp_step. eapply wp_upd_bearer; [exact Hu2|]. intros d3 _ Hu3. apply wp_when; intros Hz; cbn in Hz.
  - eapply (wp_settle p b _ (d_q d)); [apply HC|done| | |exact Hu3|]; try done.
  - eapply Hq; [..|exact Hu3]; done.
Qed.

Lemma wp_ps_bearers l n d : core_inv (d_q d) -> (forall p, p ∈ l -> p ∈ q_bearers (d_q d)) ->
  wp (ps_bearers l n) d (fun ids d' => core_inv (d_q d') /\ (length ids <= n)%nat).
Proof.
  revert n d. induction l as [|p l IH]; intros n d HC Hl; cbn [ps_bearers]; [wp_step; split; [done|cbn; lia]|].
  destruct (linked_live _ (proj1 HC) p) as [b Hb]; [apply Hl; set_solver|].
  wp_step. apply (wp_bearer_at p b); [done|]. case_if.
  - wp_step. eapply wp_upd_bearer; [by apply upto_refl|]. intros d1 _ Hu1. wp_step.
    eapply wp_watchdog_remove; [exact Hu1|]. intros d2 v s _ Hu2. wp_step.
    eapply wp_upd_bearer; [exact Hu2|]. intros d3 _ Hu3.
    assert (Hs : settled p (d_q d) (d_q d3)).
    { eapply (settled_quiet p b); [apply HC|done|apply HC| | | | |exact Hu3]; try done.
      cbn. unfold truthy in *. by destruct (b_grant_size b =? 0). }
    pose proof (t_shape _ _ _ Hs) as []. apply IH; [by eapply settled_core|].
    intros p' Hp'. rewrite h_bearers. apply Hl. set_solver.
  - destruct n as [|n].
    + eapply wp_mono; [apply IH; [done|set_solver]|]. by intros ids d'.
    + wp_step. eapply wp_mono; [apply (IH n); [done|set_solver]|]. cbv beta. intros ids d' [HC' Hlen].
      wp_step. split; [done|]. cbn. lia.
Qed.

Lemma keeps_prepare_ps n d : dev_inv (d_q d) ->
  wp (qmi_rmnet_prepare_ps_bearers n) d (fun ids d' => dev_inv (d_q d') /\ (length ids <= n)%nat).
Proof.
  intros HI. unfold qmi_rmnet_prepare_ps_bearers. apply wp_enter; [done|]. intros d0 HC _ _.
  wp_step. wp_step. wp_step. eapply wp_mono; [by apply wp_ps_bearers|]. cbv beta.
  intros ids d1 [HC1 Hlen]. wp_step. eapply wp_mono; [by apply wp_leave|]. cbv beta.
  intros _ d2 HI2. by wp_step.
Qed.

End events.
