(* ===== verification/DfcRoutes.v ===== *)
(** * RmNet flow control: flows and bearers keep the invariant

    Between the release of a bearer and the end of the function the bearer is
    unlinked but not freed, and a flow may still point to it. [view F q] is the
    device as if it were freed and its flows were [F]. On this view the flows are
    a finite map from the numbers of a flow to its bearer and queue, which the
    operations change. *)

From S2P Require Import DfcState.
From S2P Require Import Prelude DfcGrants DfcFlows DfcInv DfcKeeps.

(** ** The device without the removed bearer *)

Definition view_heap (q : qos_info) : gmap Z rmnet_bearer_map :=
  match q_removed q with Some r => delete r (q_heap q) | None => q_heap q end.

Definition view (F : list rmnet_flow_map) (q : qos_info) : qos_info :=
  set_q_flows F (set_q_removed None (set_q_heap (view_heap q) q)).

(** The removed bearer is still allocated. *)
Definition removed_ok (q : qos_info) : Prop :=
  forall r, q_removed q = Some r -> r < q_next q /\ is_Some (q_heap q !! r).

Lemma removed_ok_insert p b q h : removed_ok q -> h = <[p := b]> (q_heap q) ->
  removed_ok (set_q_heap h q).
Proof.
  intros Hq -> r Hr. cbn in *. destruct (Hq r Hr) as [? Hs]. split; [done|].
  by apply lookup_insert_is_Some'; right.
Qed.

Lemma view_id q : q_removed q = None -> view (q_flows q) q = q.
Proof. intros Hr. unfold view, view_heap. rewrite Hr. by destruct q; cbn in *; subst. Qed.

Lemma view_heap_Some p b q : view_heap q !! p = Some b -> q_heap q !! p = Some b /\ q_removed q <> Some p.
Proof.
  unfold view_heap. destruct (q_removed q) as [r|]; [|by split].
  intros [Hne Hb]%lookup_delete_Some. split; [done|congruence].
Qed.

Lemma view_heap_insert p b q h : q_removed q <> Some p -> h = <[p := b]> (q_heap q) ->
  view_heap (set_q_heap h q) = <[p := b]> (view_heap q).
Proof.
  intros Hr ->. unfold view_heap. cbn. destruct (q_removed q) as [r|]; [|done].
  apply delete_insert_ne. congruence.
Qed.

Lemma view_upd_bearer p f b F d (Q : unit -> dfc_dev -> Prop) : q_heap (view F (d_q d)) !! p = Some b ->
  (forall d', d_k d' = d_k d -> q_flows (d_q d') = q_flows (d_q d) ->
     (removed_ok (d_q d) -> removed_ok (d_q d')) ->
     (forall F, view F (d_q d') = set_q_heap (<[p := f b]> (q_heap (view F (d_q d)))) (view F (d_q d))) ->
     Q tt d') ->
  wp (upd_bearer p f) d Q.
Proof.
  intros [Hb Hr]%view_heap_Some HQ. unfold upd_bearer. wp_step. apply (wp_bearer_at p b); [done|].
  wp_step. apply HQ; [done|done|intros Ho; by eapply removed_ok_insert|].
  intros F'. unfold view. cbn. by rewrite (view_heap_insert p (f b)).
Qed.

Lemma view_bearer_at p b F d (Q : rmnet_bearer_map -> dfc_dev -> Prop) :
  q_heap (view F (d_q d)) !! p = Some b -> Q b d -> wp (bearer_at p) d Q.
Proof. intros [Hb _]%view_heap_Some HQ. by apply (wp_bearer_at p b). Qed.

(** ** Steps on a linked device *)

Lemma flows_of_pos p l : 0 < flows_of p l -> exists f, f ∈ l /\ f_bearer f = Some p.
Proof.
  induction l as [|f l IH]; [done|]. rewrite flows_of_cons. unfold of_bearer.
  destruct (decide (f_bearer f = Some p)) as [He|He]; [intros _; exists f; set_solver|].
  rewrite bool_decide_eq_false_2 by done. intros Hp. destruct IH as (g & Hg & ?); [cbn in *; lia|].
  exists g. set_solver.
Qed.

(** The flows of one bearer change by [n]; its count follows. *)
Lemma core_count p b b' n F q : core_inv q -> q_heap q !! p = Some b ->
  b' = set_b_flow_ref (b_flow_ref b + n) b -> 0 < b_flow_ref b' ->
  (forall p', flows_of p' F = flows_of p' (q_flows q) + if decide (p' = p) then n else 0) ->
  (forall f p b, f ∈ F -> f_bearer f = Some p -> q_heap q !! p = Some b ->
     b_bearer_id b = f_bearer_id f) ->
  NoDup (flow_key <$> F) ->
  core_inv (set_q_flows F (set_q_heap (<[p := b']> (q_heap q)) q)).
Proof.
  intros [HL HR] Hb -> Hpos HF HI HK. cbn in Hpos.
  destruct HL as [H1 H2 H3 H4 H5 H6 H7 H8 H9 H10 H11 H12 H13 H14].
  assert (Hs : forall p1, is_Some (<[p := set_b_flow_ref (b_flow_ref b + n) b]> (q_heap q) !! p1) <->
    is_Some (q_heap q !! p1)).
  { intros p1. destruct (decide (p1 = p)) as [->|]; [|by rewrite lookup_insert_ne].
    rewrite lookup_insert_eq, Hb. by split; eexists. }
  split; [constructor; cbn; try done|].
  - intros p1. by rewrite Hs.
  - intros p1 p2 b1 b2 [(<- & <-)|(? & ?)]%lookup_insert_Some
      [(<- & <-)|(? & ?)]%lookup_insert_Some He; [done|by eapply H4..].
  - intros p1 b1 [(<- & <-)|(? & ?)]%lookup_insert_Some; [by apply (H5 p b)|by apply H5].
  - intros p1 b1 [(<- & <-)|(? & ?)]%lookup_insert_Some; [by apply (H6 p b)|by eapply H6].
  - intros i p1 Hi. destruct (H9 i p1 Hi) as (b1 & Hb1 & ?). destruct (decide (p1 = p)) as [->|].
    + rewrite lookup_insert_eq. by eexists.
    + rewrite lookup_insert_ne by done. by exists b1.
  - intros p1 b1 [(<- & <-)|(? & ?)]%lookup_insert_Some; rewrite HF.
    + rewrite decide_True by done. cbn. by rewrite <- (H11 p b).
    + rewrite decide_False by done. rewrite Z.add_0_r. by apply H11.
  - intros f p1 Hf He. pose proof (flows_of_in p1 f F Hf He) as Hp. rewrite HF in Hp.
    case_decide as Hd.
    + subst. rewrite lookup_insert_eq. eexists. split; [done|]. by eapply (HI f p b).
    + rewrite lookup_insert_ne by done. destruct (flows_of_pos p1 (q_flows q)) as (g & Hg & Hgp); [lia|].
      destruct (H12 g p1 Hg Hgp) as (b1 & Hb1 & _). exists b1. split; [done|]. by eapply HI.
  - intros p1 b1 Hb1 Hv. cbn in *. apply lookup_insert_Some in Hb1 as [(<- & <-)|(? & Hb1)];
      [by apply (HR p b Hb)|by apply (HR p1 b1 Hb1)].
Qed.

(** Flows come and go that have no bearer. *)
Lemma core_flows F q : core_inv q -> (forall p, flows_of p F = flows_of p (q_flows q)) ->
  (forall f p, f ∈ F -> f_bearer f = Some p -> f ∈ q_flows q) ->
  NoDup (flow_key <$> F) -> core_inv (set_q_flows F q).
Proof.
  intros [HL HR] HF HI HK. split; [|done]. pose proof (l_refs _ HL) as Hrefs.
  pose proof (l_flows _ HL) as Hflows. destruct HL. constructor; cbn; try done.
  - intros p b Hb. rewrite HF. by apply Hrefs.
  - intros f p Hf He. by apply Hflows; [apply (HI f p)|].
Qed.

(** The last flow of a bearer: its queues are opened and it is unlinked. *)
Record dropped (p : Z) (q q' : qos_info) : Prop := {
  dr_bearers : q_bearers q' = filter (fun p' => p' <> p) (q_bearers q);
  dr_heap : q_heap q' = delete p (q_heap q);
  dr_next : q_next q' = q_next q;
  dr_removed : q_removed q' = None;
  dr_mq_len : length (q_mq q') = length (q_mq q);
  dr_mq : forall i, mq_bearers q' !! i =
    (fun o => if decide (o = Some p) then None else o) <$> mq_bearers q !! i;
  dr_len : length (q_stopped q') = length (q_stopped q);
  dr_stopped : forall j, q_stopped q' !! j = q_stopped q !! j \/
    (exists s, q_stopped q !! j = Some s /\ q_stopped q' !! j = Some false /\
     exists i, mq_bearers q !! i = Some (Some p) /\ (j = i \/ j = i + 15)%nat)
}.

Lemma core_drop p q q' : core_inv q -> dropped p q q' ->
  (forall p', flows_of p' (q_flows q') = if decide (p' = p) then 0 else flows_of p' (q_flows q)) ->
  (forall f p, f ∈ q_flows q' -> f_bearer f = Some p -> f ∈ q_flows q) ->
  NoDup (flow_key <$> q_flows q') -> core_inv q'.
Proof.
  intros [HL HR] [Db Dh Dn Dr Dml Dm Dl Ds] HF HI HK.
  destruct HL as [H1 H2 H3 H4 H5 H6 H7 H8 H9 H10 H11 H12 H13 H14].
  assert (Hb : forall p1 b1, q_heap q' !! p1 = Some b1 -> p1 <> p /\ q_heap q !! p1 = Some b1).
  { intros p1 b1. rewrite Dh. intros [? ?]%lookup_delete_Some. by split. }
  assert (Hm : forall i p1, p1 <> p -> mq_bearers q !! i = Some (Some p1) ->
    mq_bearers q' !! i = Some (Some p1)).
  { intros i p1 Hne Hi. rewrite Dm, Hi. cbn. by rewrite decide_False by congruence. }
  split; [constructor; rewrite ?Db, ?Dn; try done|].
  - by apply NoDup_filter.
  - intros p1. rewrite list_elem_of_filter, H2, Dh. destruct (decide (p1 = p)) as [->|].
    + rewrite lookup_delete_eq. split; [by intros [? _]|by intros [? ?]].
    + rewrite lookup_delete_ne by done. naive_solver.
  - intros p1 [_ ?]%list_elem_of_filter. by apply H3.
  - intros p1 p2 b1 b2 [_ ?]%Hb [_ ?]%Hb. by apply H4.
  - intros p1 b1 [Hne Hb1]%Hb. destruct (H5 p1 b1 Hb1) as [?|(i & ? & ? & ? & ?)]; [by left|right].
    exists i. do 3 (split; [done|]). by apply Hm.
  - intros p1 b1 [_ ?]%Hb. by eapply H6.
  - by rewrite Dml.
  - by rewrite Dm, H8.
  - intros i p1. rewrite Dm. destruct (mq_bearers q !! i) as [o|] eqn:Hi; [|done]. cbn.
    case_decide as Hd; intros [= ->]. destruct (H9 i p1 Hi) as (b & ? & ?). exists b. split; [|done].
    rewrite Dh, lookup_delete_ne; [done|congruence].
  - unfold zlen in *. by rewrite Dl.
  - intros p1 b1 [Hne ?]%Hb. rewrite HF, decide_False by done. by apply H11.
  - intros f p1 Hf He. pose proof (flows_of_in p1 f _ Hf He) as Hp. rewrite HF in Hp.
    case_decide as Hd; [lia|].
    rewrite Dh, lookup_delete_ne by congruence. by apply H12; [apply (HI f p1)|].
  - intros p1 b1 [Hne Hb1]%Hb Hv. destruct (HR p1 b1 Hb1 Hv) as [R1 R2].
    destruct (H5 p1 b1 Hb1) as [[? ?]|(i & Hi & Hmq & Hack & Hp1)]; [done|].
    unfold ACK_MQ_OFFSET, MAX_MQ_NUM in Hack. rewrite Hmq, Hack in *.
    assert (Hi1 : forall j, mq_bearers q !! j = Some (Some p) -> j <> i /\ (0 < j < 16)%nat).
    { intros j Hj. split; [congruence|]. pose proof (lookup_lt_Some _ _ _ Hj) as Hlt.
      unfold mq_bearers in Hlt. rewrite length_fmap, H7 in Hlt. destruct j; [congruence|lia]. }
    split.
    + intros s. destruct (Ds (Z.to_nat (Z.of_nat i))) as [->|(s' & _ & _ & j & Hj & Hd)]; [apply R1|].
      apply Hi1 in Hj. lia.
    + destruct (Ds (Z.to_nat (Z.of_nat i + (16 - 1)))) as [->|(s' & _ & _ & j & Hj & Hd)]; [apply R2|].
      apply Hi1 in Hj. lia.
Qed.

(** ** Releasing a bearer *)

(** What the rounds over the queues [l] do. *)
Record woken (p : Z) (l : list nat) (q q' : qos_info) : Prop := {
  w_heap : q_heap q' = q_heap q;
  w_bearers : q_bearers q' = q_bearers q;
  w_flows : q_flows q' = q_flows q;
  w_next : q_next q' = q_next q;
  w_removed : q_removed q' = q_removed q;
  w_locked : q_locked q' = q_locked q;
  w_mq_len : length (q_mq q') = length (q_mq q);
  w_mq : forall i, mq_bearers q' !! i =
    (fun o => if decide (i ∈ l /\ o = Some p) then None else o) <$> mq_bearers q !! i;
  w_len : length (q_stopped q') = length (q_stopped q);
  w_stopped : forall j, q_stopped q' !! j = q_stopped q !! j \/
    (exists s, q_stopped q !! j = Some s /\ q_stopped q' !! j = Some false /\
     exists i, mq_bearers q !! i = Some (Some p) /\ (j = i \/ j = i + 15)%nat)
}.

Section maps.
Context `{DfcConf}.
Hypothesis sa : dfc_mode = DFC_MODE_SA.

Lemma wp_put_mq p reset i d (Q : unit -> dfc_dev -> Prop) : (i < length (q_mq (d_q d)))%nat ->
  (forall d', d_k d' = d_k d -> woken p [i] (d_q d) (d_q d') -> Q tt d') ->
  wp (put_mq p reset i) d Q.
Proof.
  intros Hi HQ. destruct (lookup_lt_is_Some_2 _ _ Hi) as [m Hm].
  assert (Hmb : mq_bearers (d_q d) !! i = Some (mq_bearer m)).
  { unfold mq_bearers. by rewrite list_lookup_fmap, Hm. }
  unfold put_mq. repeat wp_step. rewrite Hm. wp_step. apply wp_when; intros Hd.
  - apply bool_decide_eq_true in Hd. rewrite sa, Z.eqb_refl. cbn [when]. repeat wp_step.
    apply wp_flow_control; [lia|]. cbv beta. apply wp_flow_control; [unfold ACK_MQ_OFFSET, MAX_MQ_NUM; lia|].
    unfold ACK_MQ_OFFSET, MAX_MQ_NUM. replace (Z.of_nat i + (16 - 1)) with (Z.of_nat (i + 15)) by lia.
    apply HQ; [done|]. constructor; cbn; try done; rewrite ?length_insert, ?length_zupd; try done.
    + intros j. unfold mq_bearers at 1. cbn. rewrite list_fmap_insert. cbn.
      fold (mq_bearers (d_q d)).
      destruct (decide (j = i)) as [->|Hne].
      * rewrite list_lookup_insert_eq by (unfold mq_bearers; by rewrite length_fmap). rewrite Hmb, Hd. cbn.
        rewrite decide_True; [done|]. split; [set_solver|done].
      * rewrite list_lookup_insert_ne by done. fold (mq_bearers (d_q d)).
        destruct (mq_bearers (d_q d) !! j); [|done]. cbn. rewrite decide_False; [done|set_solver].
    + intros j. rewrite !lookup_zupd_nat.
      destruct (q_stopped (d_q d) !! j) as [s|] eqn:Hj; [|left; by repeat case_decide].
      repeat case_decide; cbn; try (by left); right; exists s; (split; [done|]); (split; [done|]); exists i;
        rewrite Hmb, Hd; (split; [done|]); lia.
  - apply bool_decide_eq_false in Hd. apply HQ; [done|]. constructor; try done; [|by left].
    intros j. destruct (mq_bearers (d_q d) !! j) as [o|] eqn:Hj; [|done]. cbn.
    rewrite decide_False; [done|]. intros [->%list_elem_of_singleton ->]. congruence.
Qed.

Lemma wp_put_loop p reset l d : (forall i, i ∈ l -> (i < length (q_mq (d_q d)))%nat) ->
  wp (for_each l (put_mq p reset)) d (fun _ d' => d_k d' = d_k d /\ woken p l (d_q d) (d_q d')).
Proof.
  revert d. induction l as [|i l IH]; intros d Hl; cbn [for_each].
  - wp_step. split; [done|]. constructor; try done; [|by left].
    intros i. destruct (mq_bearers (d_q d) !! i); [|done]. cbn. rewrite decide_False; [done|set_solver].
  - wp_step. apply wp_put_mq; [apply Hl; set_solver|]. intros d1 Hk1 [A1 A2 A3 A4 A5 A6 A7 A8 A9 A10].
    eapply wp_mono; [apply IH; intros j Hj; rewrite A7; apply Hl; set_solver|]. cbv beta.
    intros _ d2 [Hk2 [B1 B2 B3 B4 B5 B6 B7 B8 B9 B10]]. split; [congruence|].
    constructor; try congruence.
    + intros j. rewrite B8, A8. destruct (mq_bearers (d_q d) !! j) as [o|]; [|done]. cbn.
      f_equal. repeat case_decide; try done; exfalso; set_solver.
    + intros j. destruct (B10 j) as [E|(s & Hs & Hf & k & Hk & Hjk)].
      * rewrite E. apply A10.
      * right. assert (Hk' : mq_bearers (d_q d) !! k = Some (Some p)).
        { rewrite A8 in Hk. destruct (mq_bearers (d_q d) !! k) as [o|]; [|done]. cbn in Hk.
          by case_decide; simplify_eq. }
        destruct (q_stopped (d_q d) !! j) as [s0|] eqn:Hj.
        -- exists s0. split_and!; [done|done|by exists k].
        -- apply lookup_ge_None in Hj. apply lookup_lt_Some in Hs. lia.
Qed.

(** The flow that had the bearer is not among the flows [F] any more. *)
Lemma wp_bearer_put o reset F d (Q : unit -> dfc_dev -> Prop) : core_inv (d_q d) ->
  (forall p, o = Some p -> 0 < flows_of p (q_flows (d_q d))) ->
  (forall p, flows_of p F = flows_of p (q_flows (d_q d)) + if decide (o = Some p) then -1 else 0) ->
  (forall f p, f ∈ F -> f_bearer f = Some p -> f ∈ q_flows (d_q d)) ->
  NoDup (flow_key <$> F) ->
  (forall d', d_k d' = d_k d -> q_flows (d_q d') = q_flows (d_q d) ->
     q_locked (d_q d') = q_locked (d_q d) ->
     removed_ok (d_q d') ->
     core_inv (view F (d_q d')) -> Q tt d') ->
  wp (__qmi_rmnet_bearer_put o reset) d Q.
Proof.
  intros HC Ho HF HI HK HQ. pose proof (proj1 HC) as HL. pose proof (l_removed _ HL) as Hrm.
  destruct o as [p|]; cbn [__qmi_rmnet_bearer_put].
  2: { wp_step. apply HQ; try done; [intros r; by rewrite Hrm|]. unfold view, view_heap. rewrite Hrm.
    apply core_flows; [by apply (core_same (d_q d))| |done|done].
    intros p. rewrite HF. cbn. case_decide; [done|lia]. }
  specialize (Ho p eq_refl). destruct (flows_of_pos _ _ Ho) as (g & Hg & Hgp).
  destruct (l_flows _ HL g p Hg Hgp) as (b & Hb & _). pose proof (l_refs _ HL p b Hb) as Href.
  wp_step. eapply wp_upd_bearer; [by apply upto_refl|]. intros d1 Hk1 Hu1. wp_step.
  eapply wp_bearer_at; [by eapply upto_at|]. destruct Hu1 as [[? ? ? ? ? ? ? ?] Hst1 Hh1].
  cbn [b_flow_ref set_b_flow_ref]. apply wp_when; intros Hz; zbool.
  - wp_step. eapply wp_mono; [apply wp_put_loop|].
    { intros i Hi. apply elem_of_seq in Hi. unfold MAX_MQ_NUM in Hi. apply (f_equal length) in h_mq.
      unfold mq_bearers in h_mq.
      rewrite !length_fmap in h_mq. rewrite h_mq, (l_mq_len _ HL). lia. }
    cbv beta. intros [] d2 [Hk2 [W1 W2 W3 W4 W5 W6 W7 W8 W9 W10]]. wp_step. unfold list_del_bearer.
    repeat wp_step. rewrite bool_decide_eq_true_2 by
      (rewrite W2, h_bearers; apply HL; by eexists). wp_step. repeat wp_step.
    assert (Hp : p ∈ q_bearers (d_q d)) by (apply HL; by eexists).
    apply HQ; cbn; try congruence.
    { intros r [= <-]. cbn. rewrite W4, h_next, W1, Hh1, lookup_insert_eq. split; [by apply (l_next _ HL)|done]. }
    apply (core_drop p (d_q d)); [done| |cbn|done|done].
    + constructor; cbn; try congruence.
      * unfold view_heap. cbn. by rewrite W1, Hh1, delete_insert_eq.
      * rewrite W7. apply (f_equal length) in h_mq. unfold mq_bearers in h_mq.
        by rewrite !length_fmap in h_mq.
      * intros i. change (mq_bearers (view F _) !! i) with (mq_bearers (d_q d2) !! i). rewrite W8, h_mq.
        destruct (mq_bearers (d_q d) !! i) as [o|] eqn:Hi; [|done]. cbn. f_equal.
        assert ((i < 16)%nat).
        { apply lookup_lt_Some in Hi. unfold mq_bearers in Hi. by rewrite length_fmap, (l_mq_len _ HL) in Hi. }
        assert (i ∈ seq 0 (Z.to_nat MAX_MQ_NUM)) by (apply elem_of_seq; unfold MAX_MQ_NUM; lia).
        repeat case_decide; naive_solver.
      * rewrite <- Hst1, <- h_mq. exact W10.
    + intros p'. rewrite HF. case_decide as E1; case_decide as E2; try congruence; subst; lia.
  - assert (Hv : view F (d_q d1) = set_q_flows F (set_q_heap (q_heap (d_q d1)) (d_q d1))).
    { unfold view, view_heap. rewrite h_removed, Hrm. destruct (d_q d1). cbn in *.
      by rewrite h_removed, Hrm. }
    apply HQ; try congruence.
    rewrite Hv. eapply core_same; [| | |apply (core_count p b _ (-1) F (d_q d) HC Hb eq_refl)]; cbn;
      [by constructor|by rewrite Hh1|done|lia| | |done].
    + intros p'. rewrite HF. repeat case_decide; congruence.
    + intros f p1 b1 Hf He Hb1. destruct (l_flows _ HL f p1) as (b2 & Hb2 & <-); [by eapply HI|done|].
      congruence.
Qed.

End maps.

(** * RmNet flow control: adding and deleting flows

    qmi_rmnet_add_flow and qmi_rmnet_del_flow return from any consistent device,
    keep it consistent, and work on the flows as on a finite map from the numbers
    of a flow to its bearer and queue. *)

Section routes.
Context `{DfcConf}.
Hypothesis sa : dfc_mode = DFC_MODE_SA.

(** ** Taking a bearer *)

Lemma wp_bearer_get id F d (Q : option Z -> dfc_dev -> Prop) :
  core_inv (view F (d_q d)) ->
  removed_ok (d_q d) ->
  (forall d' p b v, core_inv v -> q_flows v = F -> q_heap v !! p = Some b -> b_bearer_id b = id ->
     (forall F', view F' (d_q d') = set_q_flows F'
        (set_q_heap (<[p := set_b_flow_ref (b_flow_ref b + 1) b]> (q_heap v)) v)) ->
     q_flows (d_q d') = q_flows (d_q d) -> removed_ok (d_q d') ->
     (k_mem (d_k d) = [] -> k_mem (d_k d') = []) -> Q (Some p) d') ->
  (k_mem (d_k d) <> [] -> forall k, Q None (mk_dev (d_q d) k)) ->
  wp (__qmi_rmnet_bearer_get id) d Q.
Proof.
  intros HC Hr HS HN. pose proof (proj1 HC) as HL. unfold __qmi_rmnet_bearer_get. wp_step.
  assert (Hlive : forall p, p ∈ q_bearers (d_q d) -> is_Some (q_heap (d_q d) !! p)).
  { intros p Hp. destruct (linked_live _ HL p Hp) as [b Hb]. exists b. by apply view_heap_Some in Hb as [? _]. }
  apply wp_get_bearer_map; [done|..].
  - intros p b Hp Hb He. destruct (linked_live _ HL p Hp) as [b' Hb'].
    pose proof (proj1 (view_heap_Some _ _ _ Hb')) as Hb2. rewrite Hb in Hb2. injection Hb2 as <-.
    wp_step. eapply view_upd_bearer; [exact Hb'|]. intros d' Hk Hf Hrm Hv. wp_step.
    apply (HS d' p b (view F (d_q d))); try done; [by apply Hrm|by rewrite Hk].
  - intros Hno. wp_step. unfold kzalloc. wp_step. eexists (k_mem (d_k d)), d. split; [done|]. cbv beta.
    assert (Hnew : forall k, (k_mem (d_k d) = [] -> k_mem k = []) ->
      wp (p ← gets_q q_next;
          modify_q (fun q => set_q_bearers (p :: q_bearers q) (set_q_next (p + 1)
            (set_q_heap (<[p := new_bearer id]> (q_heap q)) q)));;
          mret (Some p)) (mk_dev (d_q d) k) Q).
    { intros k Hk. repeat wp_step. cbn [d_q d_k].
      pose proof (core_new_bearer (view F (d_q d)) (set_b_flow_ref 0 (new_bearer id)) HC eq_refl) as HV.
      eapply (HS _ (q_next (d_q d)) (set_b_flow_ref 0 (new_bearer id)));
        [apply HV; try done|done|apply lookup_insert_eq|done| |done| |done].
      - intros p b Hb. pose proof (view_heap_Some _ _ _ Hb) as [Hb2 _].
        apply (Hno p b); [|done]. apply (l_heap _ HL). by eexists.
      - intros F'. cbn. rewrite insert_insert_eq. unfold view. cbn.
        assert (E : view_heap (set_q_heap (<[q_next (d_q d) := new_bearer id]> (q_heap (d_q d))) (d_q d)) =
          <[q_next (d_q d) := new_bearer id]> (view_heap (d_q d))).
        { apply view_heap_insert; [|done]. intros He. apply Hr in He as [? _]. lia. }
        change (view_heap (set_q_bearers _ _)) with
          (view_heap (set_q_heap (<[q_next (d_q d) := new_bearer id]> (q_heap (d_q d))) (d_q d))).
        by rewrite E.
      - intros r He. cbn in *. destruct (Hr r He) as [? Hs]. split; [lia|].
        by apply lookup_insert_is_Some'; right. }
    destruct (k_mem (d_k d)) as [|fails m] eqn:Em.
    + wp_step. cbn [negb]. destruct d as [q k]. by apply Hnew.
    + repeat wp_step. destruct fails; cbn [negb]; [wp_step; by apply HN|]. by apply Hnew.
Qed.

(** ** Binding a bearer to a queue *)

(** The bearer of a new binding. *)
Definition bind (i : nat) (b : rmnet_bearer_map) : rmnet_bearer_map :=
  let b' := set_b_ack_mq_idx (Z.of_nat i + ACK_MQ_OFFSET) (set_b_mq_idx (Z.of_nat i) b) in
  if b_grant_size b =? 0 then set_grant DEFAULT_GRANT b' else b'.

Lemma core_bind p b i ll q : core_inv q -> q_heap q !! p = Some b -> 0 < b_flow_ref b ->
  (0 < i < 16)%nat -> mq_bearers q !! i = Some None ->
  core_inv (set_q_stopped (zupd (zupd (q_stopped q) (Z.of_nat i) false) (Z.of_nat i + ACK_MQ_OFFSET) false)
    (set_q_heap (<[p := bind i b]> (q_heap q)) (set_q_mq (<[i := mk_mq (Some p) ll false]> (q_mq q)) q))).
Proof.
  intros [HL HR] Hb Href Hi Hm.
  unfold ACK_MQ_OFFSET, MAX_MQ_NUM. replace (Z.of_nat i + (16 - 1)) with (Z.of_nat (i + 15)) by lia.
  destruct HL as [H1 H2 H3 H4 H5 H6 H7 H8 H9 H10 H11 H12 H13 H14].
  assert (Hid : b_bearer_id (bind i b) = b_bearer_id b /\ b_flow_ref (bind i b) = b_flow_ref b /\
    b_mq_idx (bind i b) = Z.of_nat i /\ b_ack_mq_idx (bind i b) = Z.of_nat (i + 15) /\
    0 < b_grant_size (bind i b)).
  { unfold bind, ACK_MQ_OFFSET, MAX_MQ_NUM. pose proof (H6 p b Hb).
    destruct (Z.eqb_spec (b_grant_size b) 0); cbn; split_and!; try done; try lia. }
  destruct Hid as (Bid & Bref & Bmq & Back & Bg).
  assert (Hmq : forall j, mq_bearers (set_q_mq (<[i := mk_mq (Some p) ll false]> (q_mq q)) q) !! j =
    if decide (j = i) then Some (Some p) else mq_bearers q !! j).
  { intros j. unfold mq_bearers. cbn. rewrite list_fmap_insert. case_decide as Hd; [subst|].
    - rewrite list_lookup_insert_eq; [done|]. rewrite length_fmap. lia.
    - by rewrite list_lookup_insert_ne. }
  split; [constructor; cbn; try done|].
  - intros p1. rewrite H2. destruct (decide (p1 = p)) as [->|]; [|by rewrite lookup_insert_ne].
    rewrite lookup_insert_eq, Hb. by split; eexists.
  - intros p1 p2 b1 b2 [(<- & <-)|(? & ?)]%lookup_insert_Some
      [(<- & <-)|(? & ?)]%lookup_insert_Some He; [done|rewrite Bid in He; by eapply H4..|by eapply H4].
  - intros p1 b1 [(<- & <-)|(? & Hb1)]%lookup_insert_Some.
    + right. exists i. rewrite Bmq, Back. unfold ACK_MQ_OFFSET, MAX_MQ_NUM.
      split_and!; [lia..|]. change (mq_bearers _ !! i) with
        (mq_bearers (set_q_mq (<[i := mk_mq (Some p) ll false]> (q_mq q)) q) !! i).
      rewrite Hmq. by rewrite decide_True.
    + destruct (H5 p1 b1 Hb1) as [?|(j & ? & ? & ? & Hj)]; [by left|right]. exists j.
      do 3 (split; [done|]). change (mq_bearers _ !! j) with
        (mq_bearers (set_q_mq (<[i := mk_mq (Some p) ll false]> (q_mq q)) q) !! j).
      rewrite Hmq, decide_False; [done|]. intros ->. congruence.
  - intros p1 b1 [(<- & <-)|(? & ?)]%lookup_insert_Some; [lia|by eapply H6].
  - by rewrite length_insert.
  - change (mq_bearers _ !! 0%nat) with
      (mq_bearers (set_q_mq (<[i := mk_mq (Some p) ll false]> (q_mq q)) q) !! 0%nat).
    rewrite Hmq, decide_False; [done|lia].
  - intros j p1. change (mq_bearers _ !! j) with
      (mq_bearers (set_q_mq (<[i := mk_mq (Some p) ll false]> (q_mq q)) q) !! j).
    rewrite Hmq. case_decide.
    + intros [= <-]. rewrite lookup_insert_eq. eexists. split; [done|lia].
    + intros Hj. destruct (H9 j p1 Hj) as (b1 & Hb1 & ?). destruct (decide (p1 = p)) as [->|].
      * rewrite lookup_insert_eq. eexists. split; [done|lia].
      * rewrite lookup_insert_ne by done. by exists b1.
  - unfold zlen in *. by rewrite !length_zupd.
  - intros p1 b1 [(<- & <-)|(? & ?)]%lookup_insert_Some; [rewrite Bref; by apply H11|by apply H11].
  - intros f p1 Hf He. destruct (H12 f p1 Hf He) as (b1 & Hb1 & Hi1).
    destruct (decide (p1 = p)) as [->|].
    + rewrite lookup_insert_eq. eexists. split; [done|]. rewrite Bid. congruence.
    + rewrite lookup_insert_ne by done. by exists b1.
  - intros p1 b1 Hb1 Hv. cbn in *. apply lookup_insert_Some in Hb1 as [(<- & <-)|(Hne & Hb1)].
    + rewrite Bmq, Back, !Nat2Z.id, !lookup_zupd_nat. rewrite (decide_False (P := _ = i)) by lia.
      rewrite !decide_True by done. split.
      * intros s. destruct (q_stopped q !! i); [|done]. cbn. intros [= <-]. symmetry. zbool. lia.
      * destruct (q_stopped q !! (i + 15)%nat); [|by rewrite decide_False by lia].
        rewrite decide_False by lia. done.
    + destruct (H5 p1 b1 Hb1) as [[? ?]|(j & Hj & Mq & Ack & Hpj)]; [done|].
      assert (j <> i) by congruence. specialize (HR p1 b1 Hb1 Hv).
      unfold ACK_MQ_OFFSET, MAX_MQ_NUM in Ack.
      replace (Z.of_nat j + (16 - 1)) with (Z.of_nat (j + 15)) in Ack by lia.
      rewrite Mq, Ack, !Nat2Z.id, !lookup_zupd_nat in *. by rewrite !decide_False by lia.
Qed.

Lemma wp_update_mq p mq_idx b F d (Q : unit -> dfc_dev -> Prop) :
  core_inv (view F (d_q d)) -> q_heap (view F (d_q d)) !! p = Some b -> 0 < b_flow_ref b ->
  0 <= mq_idx < MAX_MQ_NUM ->
  (forall d', core_inv (view F (d_q d')) -> d_k d' = d_k d -> q_flows (d_q d') = q_flows (d_q d) ->
     (removed_ok (d_q d) -> removed_ok (d_q d')) -> Q tt d') ->
  wp (__qmi_rmnet_update_mq p mq_idx) d Q.
Proof.
  intros HC Hb Href Hmq HQ. unfold __qmi_rmnet_update_mq. rewrite sa, Z.eqb_refl. cbn [andb].
  unfold DEFAULT_MQ_NUM, MAX_MQ_NUM in *.
  destruct (Z.eqb_spec mq_idx 0) as [_|Hne]; [by wp_step; apply HQ|].
  set (i := Z.to_nat mq_idx). assert (Hi : mq_idx = Z.of_nat i) by (unfold i; lia).
  assert (Hlen : (i < length (q_mq (d_q d)))%nat).
  { pose proof (l_mq_len _ (proj1 HC)) as Hl. cbn in Hl. lia. }
  destruct (lookup_lt_is_Some_2 _ _ Hlen) as [m Hm]. repeat wp_step. rewrite Hm. wp_step.
  destruct (mq_bearer m) as [p'|] eqn:Em; [by wp_step; apply HQ|].
  repeat wp_step. eapply view_bearer_at; [exact Hb|]. repeat wp_step. cbn [when].
  eapply (view_upd_bearer _ _ b F); [exact Hb|]. intros d1 K1 F1 R1 V1. wp_step.
  eapply (view_upd_bearer _ _ (set_b_mq_idx mq_idx b) F); [rewrite V1; apply lookup_insert_eq|].
  intros d2 K2 F2 R2 V2. wp_step.
  eapply (wp_mono _ _ (fun _ d3 => d_k d3 = d_k d2 /\ q_flows (d_q d3) = q_flows (d_q d2) /\
    (removed_ok (d_q d2) -> removed_ok (d_q d3)) /\
     view F (d_q d3) = set_q_heap (<[p := bind i b]> (q_heap (view F (d_q d2)))) (view F (d_q d2)))).
  { unfold bind. rewrite <- Hi. apply wp_when; intros ->.
    - eapply (view_upd_bearer _ _ (set_b_ack_mq_idx (mq_idx + ACK_MQ_OFFSET) (set_b_mq_idx mq_idx b)) F).
      + rewrite V2. apply lookup_insert_eq.
      + intros d3 K3 F3 R3 V3. split_and!; [done|done|done|]. by rewrite V3.
    - split_and!; try done. rewrite V2. cbn. by rewrite insert_insert_eq. }
  intros [] d3 (K3 & F3 & R3 & V3). wp_step. apply wp_flow_control; [lia|]. cbv beta.
  apply wp_flow_control; [unfold ACK_MQ_OFFSET, MAX_MQ_NUM; lia|]. cbn in K1, F1.
  apply HQ; [|cbn; congruence..|intros Hok; by apply R3, R2, R1]. cbn [d_q d_k].
  assert (E : view F (set_q_stopped (zupd (zupd (q_stopped (d_q d3)) mq_idx false)
      (mq_idx + ACK_MQ_OFFSET) false) (d_q d3)) =
    set_q_stopped (zupd (zupd (q_stopped (view F (d_q d))) (Z.of_nat i) false)
      (Z.of_nat i + ACK_MQ_OFFSET) false) (set_q_heap (<[p := bind i b]> (q_heap (view F (d_q d))))
      (set_q_mq (<[i := mk_mq (Some p) (truthy (s_current_ch (b_ch_switch b))) false]>
        (q_mq (view F (d_q d)))) (view F (d_q d))))).
  { transitivity (set_q_stopped (zupd (zupd (q_stopped (view F (d_q d3))) mq_idx false)
      (mq_idx + ACK_MQ_OFFSET) false) (view F (d_q d3))); [done|].
    rewrite V3, V2, V1, Hi. cbn. by rewrite !insert_insert_eq. }
  refine (eq_ind_r core_inv _ E). apply core_bind; [done|done|done|lia|]. unfold mq_bearers. cbn.
  by rewrite list_lookup_fmap, Hm, <- Em.
Qed.

(** ** Freeing *)

(** What remains when a function has unlocked the device and freed the removed
    bearer. *)
Lemma wp_unlock_clean A (a : A) d (Q : A -> dfc_dev -> Prop) : core_inv (view (q_flows (d_q d)) (d_q d)) ->
  removed_ok (d_q d) ->
  (forall d', dev_inv (d_q d') -> q_flows (d_q d') = q_flows (d_q d) -> d_k d' = d_k d -> Q a d') ->
  wp (spin_unlock_bh;; qmi_rmnet_bearer_clean;; mret a) d Q.
Proof.
  intros HC Hr HQ. unfold spin_unlock_bh, qmi_rmnet_bearer_clean. repeat wp_step.
  cbn [d_q q_removed set_q_locked]. unfold view, view_heap in HC.
  destruct (q_removed (d_q d)) as [r|] eqn:E.
  - destruct (Hr r E) as [_ [b Hb]]. wp_step. apply (wp_bearer_at r b); [done|]. repeat wp_step.
    apply HQ; try done. split; [|done]. eapply core_inv_lock in HC. exact HC.
  - repeat wp_step. apply HQ; try done. split; [|done]. apply (core_inv_lock false) in HC.
    eapply core_same; [| | |exact HC]; by try constructor.
Qed.

(** ** The flows as a map *)

Definition route (f : rmnet_flow_map) : (Z * Z) * (Z * Z) := (flow_key f, (f_bearer_id f, f_mq_idx f)).

Definition routes_of (l : list rmnet_flow_map) : gmap (Z * Z) (Z * Z) := list_to_map (route <$> l).

Definition routes (q : qos_info) : gmap (Z * Z) (Z * Z) := routes_of (q_flows q).

Lemma routes_keys l : (route <$> l).*1 = flow_key <$> l.
Proof. by rewrite <- list_fmap_compose. Qed.

Lemma routes_perm l l' : NoDup (flow_key <$> l) -> l ≡ₚ l' -> routes_of l = routes_of l'.
Proof.
  intros Hk Hp. unfold routes_of. apply list_to_map_proper; [by rewrite routes_keys|]. by rewrite Hp.
Qed.

Lemma routes_delete l i f : NoDup (flow_key <$> l) -> l !! i = Some f ->
  routes_of (delete i l) = delete (flow_key f) (routes_of l).
Proof.
  intros Hk Hi. pose proof (delete_Permutation l i f Hi) as Hp.
  rewrite (routes_perm _ _ Hk Hp). unfold routes_of. cbn. rewrite delete_insert_id; [done|].
  apply not_elem_of_list_to_map_1. rewrite routes_keys. rewrite Hp in Hk. by apply NoDup_cons in Hk as [? _].
Qed.

Lemma alter_perm {A} (l : list A) i f x : l !! i = Some x -> alter f i l ≡ₚ f x :: delete i l.
Proof.
  revert i. induction l as [|y l IH]; intros [|i] Hi; try done; cbn in Hi.
  - by injection Hi as ->.
  - change (y :: alter f i l ≡ₚ f x :: y :: delete i l). rewrite (IH i Hi). constructor.
Qed.

Lemma keys_delete l i : NoDup (flow_key <$> l) -> NoDup (flow_key <$> delete i l).
Proof.
  intros Hk. eapply sublist_NoDup; [exact Hk|]. apply fmap_sublist, sublist_delete.
Qed.

Lemma keys_alter l i f h : l !! i = Some f -> flow_key (h f) = flow_key f ->
  NoDup (flow_key <$> l) -> NoDup (flow_key <$> alter h i l).
Proof.
  intros Hi Hh Hk. rewrite (alter_perm _ _ _ _ Hi). rewrite (delete_Permutation l i f Hi) in Hk.
  cbn in *. by rewrite Hh.
Qed.

Lemma routes_alter l i f h : NoDup (flow_key <$> l) -> l !! i = Some f ->
  flow_key (h f) = flow_key f ->
  routes_of (alter h i l) = <[flow_key f := (f_bearer_id (h f), f_mq_idx (h f))]> (routes_of l).
Proof.
  intros Hk Hi Hh. rewrite (routes_perm _ _ (keys_alter _ _ _ _ Hi Hh Hk) (alter_perm _ _ _ _ Hi)).
  unfold routes_of at 1. cbn. rewrite Hh. fold (routes_of (delete i l)).
  by rewrite (routes_delete l i f), insert_delete_eq.
Qed.

Lemma routes_find l id ip : routes_of l !! (id, ip) =
  (fun x => (f_bearer_id x.2, f_mq_idx x.2)) <$> list_find (is_flow id ip) l.
Proof.
  induction l as [|f l IH]; [done|]. unfold routes_of in *. cbn. case_decide as Hd.
  - destruct Hd as [<- <-]. by rewrite lookup_insert_eq.
  - rewrite lookup_insert_ne; [|intros [= <- <-]; by apply Hd]. rewrite IH.
    by destruct (list_find _ l) as [[? ?]|].
Qed.

(** ** Deleting a flow *)

Lemma core_wake_all q : core_inv q -> q_flows q = [] ->
  core_inv (set_q_stopped (map (fun _ => false) (q_stopped q)) q).
Proof.
  intros [HL HR] Hf. split.
  - apply (linked_same q); [|done|done]. constructor; try done. cbn. by rewrite length_map.
  - intros p b Hb Hv. exfalso. cbn in Hb. destruct (l_bound _ HL p b Hb) as [[? ?]|(i & _ & _ & _ & Hi)]; [done|].
    destruct (l_mq _ HL i p Hi) as (b' & Hb' & Href). rewrite (l_refs _ HL p b' Hb'), Hf in Href. done.
Qed.

Definition deleted (q : qos_info) (tcm : tcmsg) : list rmnet_flow_map :=
  match list_find (is_flow (tcm_parent tcm) (tcm_ifindex tcm)) (q_flows q) with
  | Some (i, _) => delete i (q_flows q)
  | None => q_flows q
  end.

Lemma wp_del_flow tcm d (Q : Z -> dfc_dev -> Prop) : dev_inv (d_q d) ->
  (forall d', dev_inv (d_q d') -> d_k d' = d_k d -> q_flows (d_q d') = deleted (d_q d) tcm -> Q 0 d') ->
  wp (qmi_rmnet_del_flow tcm) d Q.
Proof.
  intros [HC Hl] HQ. unfold qmi_rmnet_del_flow. wp_step. apply wp_lock; [done|]. wp_step.
  unfold qmi_rmnet_get_flow_map. wp_step. cbn [q_flows set_q_locked d_q]. wp_step.
  apply (core_inv_lock true) in HC. set (q := set_q_locked true (d_q d)) in *.
  assert (HD : deleted (d_q d) tcm = deleted q tcm) by done.
  eapply (wp_mono _ _ (fun _ d1 => d_k d1 = d_k d /\ removed_ok (d_q d1) /\
    q_flows (d_q d1) = deleted q tcm /\ core_inv (view (deleted q tcm) (d_q d1)))).
  { change (q_flows (d_q d)) with (q_flows q). unfold deleted.
    destruct (list_find _ (q_flows q)) as [[i f]|] eqn:Hf; cbn.
    - apply list_find_Some in Hf as (Hi & _ & _). wp_step.
      apply (wp_bearer_put sa _ _ (delete i (q_flows q))); cbn [d_q].
      + done.
      + intros p Hp. apply (flows_of_in p f); [by eapply list_elem_of_lookup_2|done].
      + intros p. rewrite (flows_of_delete p _ i f Hi). unfold of_bearer.
        case_decide as Hd; [rewrite bool_decide_eq_true_2 by done|rewrite bool_decide_eq_false_2 by done];
          cbn; lia.
      + intros g p Hg _. pose proof (delete_Permutation _ _ _ Hi) as Hp. rewrite Hp. by right.
      + apply keys_delete, HC.
      + intros d1 K1 F1 L1 R1 V1. wp_step. by rewrite F1.
    - wp_step. pose proof (l_removed _ (proj1 HC)) as Hr. split_and!; try done.
      + intros r He. change (q_removed q = Some r) in He. congruence.
      + change (core_inv (view (q_flows q) q)). by rewrite (view_id q Hr). }
  intros [] d1 (K1 & R1 & F1 & V1). wp_step. wp_step. wp_step.
  eapply (wp_mono _ _ (fun _ d2 => d_k d2 = d_k d /\ removed_ok (d_q d2) /\
    q_flows (d_q d2) = deleted q tcm /\ core_inv (view (q_flows (d_q d2)) (d_q d2)))).
  { case_decide as He.
    - unfold netif_tx_wake_all_queues. wp_step. split_and!; try done. cbn [d_q q_flows set_q_stopped].
      rewrite F1. rewrite F1 in He. apply (core_wake_all (view (deleted q tcm) (d_q d1))); [done|].
      cbn. by rewrite He.
    - wp_step. rewrite F1. by split_and!. }
  intros [] d2 (K2 & R2 & F2 & V2). apply wp_unlock_clean; [done|done|].
  intros d3 HI F3 K3. apply HQ; [done|congruence|]. by rewrite F3, F2, HD.
Qed.

End routes.
