(* ===== verification/DfcLookup.v ===== *)
(** * RmNet flow control: the map of the flows

    qmi_rmnet_add_flow creates a flow, moves it to another bearer, or deletes and
    creates it when it moves to another queue; with deletion and the choice of
    the queue of a packet it works on the map of the flows. The file also has the
    concrete device of the runs ([demo_dev]). *)

From S2P Require Import DfcState.
From S2P Require Import Prelude DfcGrants DfcFlows DfcInv DfcKeeps DfcRoutes.

Section add.
Context `{DfcConf}.
Hypothesis sa : dfc_mode = DFC_MODE_SA.

(** The rest of a function that gives flow [i] of [F] a reference to a bearer
    with the number of [new_map]. *)
Lemma wp_attach new_map F i d (Q : Z -> dfc_dev -> Prop) (set : rmnet_flow_map -> rmnet_flow_map)
    (body : Z -> M Z) :
  core_inv (view F (d_q d)) -> removed_ok (d_q d) -> k_mem (d_k d) = [] ->
  0 <= f_mq_idx new_map < MAX_MQ_NUM ->
  (exists f, F !! i = Some f /\ f_bearer f = None /\ flow_key f = flow_key new_map) ->
  (forall p d (Q : Z -> dfc_dev -> Prop),
     wp (__qmi_rmnet_update_mq p (f_mq_idx new_map);; mret 0)
       (mk_dev (set_q_flows (alter (set_f_bearer p) i (alter set i (q_flows (d_q d)))) (d_q d)) (d_k d)) Q ->
     wp (body p) d Q) ->
  (forall p, alter (set_f_bearer p) i (alter set i (q_flows (d_q d))) =
     alter (fun _ => set_f_bearer p new_map) i F) ->
  (forall d', dev_inv (d_q d') -> k_mem (d_k d') = [] ->
     (exists p, q_flows (d_q d') = alter (fun _ => set_f_bearer p new_map) i F) -> Q 0 d') ->
  wp (o ← __qmi_rmnet_bearer_get (f_bearer_id new_map);
      match o with None => mret (- ENOMEM) | Some p => body p end) d
    (fun rc d' => wp (spin_unlock_bh;; qmi_rmnet_bearer_clean;; mret rc) d' Q).
Proof.
  intros HC Hr Hm Hmq (f & Hf & Hfb & Hfk) Hupd Hfl HQ. wp_step.
  apply (wp_bearer_get _ F); [done|done| |by rewrite Hm].
  intros d1 p b v HCv HFv Hb Hid V1 F1 R1 M1. apply Hupd. wp_step.
  set (F2 := alter (fun _ => set_f_bearer p new_map) i F).
  set (d2 := mk_dev _ _).
  assert (HF2 : q_flows (d_q d2) = F2) by (cbn; by rewrite F1, Hfl).
  assert (HC2 : core_inv (view F2 (d_q d2))).
  { change (view F2 (d_q d2)) with (view F2 (d_q d1)). rewrite V1.
    apply (core_count p b _ 1); try done.
    - cbn. rewrite (l_refs _ (proj1 HCv) p b Hb). pose proof (flows_of_nonneg p (q_flows v)). lia.
    - intros p'. rewrite HFv. unfold F2. rewrite (flows_of_alter p' F i f _ Hf). unfold of_bearer.
      rewrite Hfb, (bool_decide_eq_false_2 (None = Some p')) by done. cbn.
      case_decide as Hd; [rewrite bool_decide_eq_true_2 by congruence; cbn; lia|].
      rewrite bool_decide_eq_false_2 by congruence. cbn. lia.
    - intros g p1 b1 Hg Hgb Hb1. unfold F2 in Hg. rewrite (alter_perm _ _ _ _ Hf) in Hg.
      apply elem_of_cons in Hg as [->|Hg].
      + cbn in *. simplify_eq. done.
      + destruct (l_flows _ (proj1 HCv) g p1) as (b2 & ? & ?); [|done|congruence].
        rewrite HFv, (delete_Permutation _ _ _ Hf). by right.
    - apply (keys_alter F i f); [done|done|]. rewrite <- HFv. apply HCv. }
  assert (Hb2 : q_heap (view F2 (d_q d2)) !! p = Some (set_b_flow_ref (b_flow_ref b + 1) b)).
  { change (view F2 (d_q d2)) with (view F2 (d_q d1)). rewrite V1. apply lookup_insert_eq. }
  eapply (wp_update_mq sa p _ _ F2); [done|exact Hb2| |done|].
  { cbn. rewrite (l_refs _ (proj1 HCv) p b Hb). pose proof (flows_of_nonneg p (q_flows v)). lia. }
  intros d3 HC3 K3 F3 R3. wp_step. rewrite HF2 in F3.
  apply wp_unlock_clean; [by rewrite F3|by apply R3|].
  intros d4 HI F4 K4. apply HQ; [done|rewrite K4, K3; cbn; auto|]. exists p. by rewrite F4, F3.
Qed.

Lemma routes_set l i f p new_map : NoDup (flow_key <$> l) -> l !! i = Some f ->
  flow_key f = flow_key new_map ->
  routes_of (alter (fun _ => set_f_bearer p new_map) i l) =
    <[flow_key new_map := (f_bearer_id new_map, f_mq_idx new_map)]> (routes_of l).
Proof.
  intros Hk Hi He. rewrite (routes_alter l i f); [|done|done|done]. by rewrite He.
Qed.

(** What adding [new_map] promises. *)
Definition added (new_map : rmnet_flow_map) (d : dfc_dev) (rc : Z) (d' : dfc_dev) : Prop :=
  rc = 0 /\ dev_inv (d_q d') /\ k_mem (d_k d') = [] /\
  routes (d_q d') = <[flow_key new_map := (f_bearer_id new_map, f_mq_idx new_map)]> (routes (d_q d)).

Section locked.
Variables (new_map : rmnet_flow_map) (d : dfc_dev).
Hypothesis HI : dev_inv (d_q d).
Hypothesis Hm : k_mem (d_k d) = [].
Hypothesis Hmq : 0 <= f_mq_idx new_map < MAX_MQ_NUM.
Hypothesis Hnone : f_bearer new_map = None.

Let q := set_q_locked true (d_q d).

Lemma wp_create_flow :
  list_find (is_flow (f_flow_id new_map) (f_ip_type new_map)) (q_flows q) = None ->
  wp (create_flow new_map) (mk_dev q (d_k d)) (added new_map d).
Proof.
  intros Hf. assert (HC : core_inv q) by apply core_inv_lock, HI.
  pose proof (l_removed _ (proj1 HC)) as Hr.
  assert (Hkey : flow_key new_map ∉ flow_key <$> q_flows q).
  { intros (g & Hg & Hin)%list_elem_of_fmap. apply list_find_None in Hf.
    rewrite Forall_forall in Hf. apply (Hf g Hin). unfold flow_key in Hg. by injection Hg. }
  unfold create_flow. wp_step. unfold kzalloc. wp_step. eexists (k_mem (d_k d)), _. split; [done|].
  cbv beta. rewrite Hm. wp_step. cbn [negb]. wp_step. wp_step.
  apply wp_bind_assoc. eapply (wp_attach new_map (new_map :: q_flows q) 0 _ _ (fun f => f)); try done.
  - change (d_q (mk_dev _ _)) with (set_q_flows (new_map :: q_flows q) q).
    change (view (new_map :: q_flows q) (set_q_flows (new_map :: q_flows q) q)) with
      (view (new_map :: q_flows q) q). unfold view, view_heap. rewrite Hr.
    apply core_flows; [by apply (core_same q)|..].
    + intros p. cbn. rewrite flows_of_cons. unfold of_bearer. by rewrite Hnone.
    + intros g p [->|Hg]%elem_of_cons Hgp; [congruence|done].
    + cbn. apply NoDup_cons. split; [done|apply HC].
  - intros r He. change (q_removed q = Some r) in He. congruence.
  - by exists new_map.
  - intros p d1 Q HQ. unfold upd_flow. wp_step. wp_step. destruct d1 as [[h n b [|? ?]] ?]; exact HQ.
  - intros d' HI' Hm' (p & Hfl). split_and!; try done. unfold routes. rewrite Hfl.
    unfold routes_of. done.
Qed.

Lemma wp_rebind i itm :
  list_find (is_flow (f_flow_id new_map) (f_ip_type new_map)) (q_flows q) = Some (i, itm) ->
  wp (rc ← __qmi_rmnet_rebind_flow i itm new_map;
      spin_unlock_bh;; qmi_rmnet_bearer_clean;; mret rc) (mk_dev q (d_k d)) (added new_map d).
Proof.
  intros (Hi & [Hid Hip] & _)%list_find_Some. assert (HC : core_inv q) by apply core_inv_lock, HI.
  set (clear := fun f => mk_flow (f_bearer_id f) (f_flow_id f) (f_ip_type f) (f_mq_idx f) None).
  set (F := alter clear i (q_flows q)).
  assert (HFi : F !! i = Some (clear itm)) by (unfold F; by rewrite list_lookup_alter_eq, Hi).
  assert (Hkey : flow_key itm = flow_key new_map) by (unfold flow_key; congruence).
  unfold __qmi_rmnet_rebind_flow. wp_step. wp_step.
  eapply (wp_mono (__qmi_rmnet_bearer_put (f_bearer itm) false) _
    (fun _ d1 => d_k d1 = d_k d /\ q_flows (d_q d1) = q_flows q /\ removed_ok (d_q d1) /\
      core_inv (view F (d_q d1)))).
  { apply (wp_bearer_put sa _ _ F); [done|..].
    - intros p Hp. apply (flows_of_in p itm); [by eapply list_elem_of_lookup_2|done].
    - intros p. unfold F. cbn [d_q]. rewrite (flows_of_alter p _ i itm clear Hi).
      unfold of_bearer. cbn [f_bearer clear].
      rewrite (bool_decide_eq_false_2 (None = Some p)) by done. cbn [Z.b2z].
      case_decide; [rewrite bool_decide_eq_true_2 by done|rewrite bool_decide_eq_false_2 by done];
        cbn; lia.
    - intros f p Hf Hfp. unfold F in Hf. rewrite (alter_perm _ _ _ _ Hi) in Hf.
      apply elem_of_cons in Hf as [->|Hf]; [done|]. cbn [d_q].
      rewrite (delete_Permutation _ _ _ Hi). by right.
    - by apply (keys_alter _ _ itm); [| |apply HC].
    - intros d1 K1 F1 L1 R1 V1. by split_and!. }
  intros [] d1 (K1 & F1 & R1 & V1).
  apply (wp_attach new_map F i d1 _ (qmi_rmnet_update_flow_map new_map)); try done.
  - by rewrite K1.
  - by exists (clear itm).
  - intros p. rewrite F1. unfold F.
    apply list_eq. intros j. destruct (decide (j = i)) as [->|Hne].
    + by rewrite !list_lookup_alter_eq, Hi.
    + by rewrite !list_lookup_alter_ne.
  - intros d' HI' Hm' (p & Hfl). split_and!; try done. unfold routes. rewrite Hfl.
    assert (Hkq : NoDup (flow_key <$> q_flows q)) by apply HC.
    rewrite (routes_set F i (clear itm)); [|by apply (keys_alter _ _ itm)|done|done].
    unfold F. rewrite (routes_alter _ i itm); [|done|done|done]. by rewrite Hkey, insert_insert_eq.
Qed.

End locked.

(** ** Adding a flow *)

Lemma wp_add_again fuel new_map d : dev_inv (d_q d) -> k_mem (d_k d) = [] ->
  0 <= f_mq_idx new_map < MAX_MQ_NUM -> f_bearer new_map = None ->
  (length (q_flows (d_q d)) < fuel)%nat -> wp (add_again fuel new_map) d (added new_map d).
Proof.
  intros HI Hm Hmq Hnone. revert d HI Hm. induction fuel as [|fuel IH]; intros d HI Hm Hfuel; [lia|].
  cbn [add_again]. wp_step. apply wp_lock; [apply HI|]. wp_step. unfold qmi_rmnet_get_flow_map. wp_step.
  cbn [d_q].
  destruct (list_find _ (q_flows _)) as [[i itm]|] eqn:Hf.
  2: { by apply wp_create_flow. }
  case_if; [by apply wp_rebind|]. pose proof Hf as (Hi & [Hid Hip] & _)%list_find_Some.
  cbn [q_flows set_q_locked] in Hf, Hi.
  assert (Hunlock : dev_inv (set_q_locked false (set_q_locked true (d_q d)))).
  { split; [|done]. apply core_inv_lock, core_inv_lock, HI. }
  assert (Hk : NoDup (flow_key <$> q_flows (d_q d))) by apply HI.
  case_if.
  - wp_step. unfold spin_unlock_bh. wp_step. wp_step. apply (wp_del_flow sa); [done|].
    intros d1 HI1 K1 F1. cbn in K1. unfold deleted in F1. cbn in F1. rewrite Hid, Hip, Hf in F1.
    eapply wp_mono.
    + apply IH; [done|by rewrite K1|]. rewrite F1, length_delete by (by eexists).
      apply lookup_lt_Some in Hi. lia.
    + intros rc d2 (-> & HI2 & K2 & R2). split_and!; try done. rewrite R2. unfold routes.
      rewrite F1, (routes_delete _ i itm Hk Hi). unfold flow_key. rewrite Hid, Hip.
      by rewrite insert_delete_eq.
  - zbool. apply wp_unlock_clean; [|intros r; cbn; by rewrite (l_removed _ (proj1 (proj1 HI)))|].
    + rewrite view_id; [apply core_inv_lock, HI|]. apply (l_removed _ (proj1 (proj1 HI))).
    + intros d1 HI1 F1 K1. split_and!; try done; [by rewrite K1|]. unfold routes. rewrite F1. cbn.
      rewrite insert_id; [done|]. unfold flow_key. rewrite routes_find, Hf. cbn. congruence.
Qed.

End add.

(** * RmNet flow control: a concrete device

    A device with two flows, for the runs on concrete values. *)

(** Flow control over QMAP, with the default scale. *)
Definition demo_conf : DfcConf := {|
  dfc_mode := DFC_MODE_SA;
  dfc_qmap := true;
  qmi_rmnet_scale_factor := 5;
  real_data_dev := true
|}.

Definition demo_kernel : kernel := mk_kernel [] [] 0 true [].

(** The flow with number [flow] to a bearer and a queue. *)
Definition demo_tcm (bearer_id flow mq_idx : Z) : tcmsg :=
  mk_tcm 1 bearer_id 0 flow AF_INET mq_idx 0.

Definition state_of {A} (o : outcome dfc_dev A) (d : dfc_dev) : dfc_dev :=
  match o with Ret _ d' => d' | _ => d end.

Definition add_demo (tcm : tcmsg) (d : dfc_dev) : dfc_dev :=
  state_of (qmi_rmnet_add_flow (H := demo_conf) tcm d) d.

Definition new_dev : dfc_dev := mk_dev (qmi_rmnet_qos_init 1 31) demo_kernel.

(** Flow 7 on bearer 5 and queue 1, flow 8 on bearer 6 and queue 2. *)
Definition demo_dev : dfc_dev := add_demo (demo_tcm 6 8 2) (add_demo (demo_tcm 5 7 1) new_dev).

Lemma add_demo_inv tcm d : dev_inv (d_q d) -> k_mem (d_k d) = [] -> 0 <= tcm_handle tcm < MAX_MQ_NUM ->
  dev_inv (d_q (add_demo tcm d)) /\ k_mem (d_k (add_demo tcm d)) = [].
Proof.
  intros HI Hm Hh.
  destruct (wp_add_again (H := demo_conf) eq_refl (S (length (q_flows (d_q d))))
    (mk_flow (tcm__pad1 tcm) (tcm_parent tcm) (tcm_ifindex tcm) (tcm_handle tcm) None) d)
    as (rc & d' & Hr & _ & HI' & Hm' & _); try done; [lia|].
  assert (E : qmi_rmnet_add_flow (H := demo_conf) tcm d = Ret rc d').
  { unfold qmi_rmnet_add_flow. by rewrite (proj2 (Z.leb_gt _ _)) by lia. }
  unfold add_demo. by rewrite E.
Qed.

Lemma demo_inv : dev_inv (d_q demo_dev).
Proof.
  assert (H0 : dev_inv (d_q new_dev)) by (apply init_inv; by vm_compute).
  destruct (add_demo_inv (demo_tcm 5 7 1) new_dev H0 eq_refl) as [H1 M1]; [by vm_compute|].
  by destruct (add_demo_inv (demo_tcm 6 8 2) _ H1 M1) as [H2 _]; [by vm_compute|].
Qed.

(** * RmNet flow control: the map of the flows

    The flows of a device as a finite map, and the queue of a packet. *)

Section lookup.
Context `{DfcConf}.
Hypothesis sa : dfc_mode = DFC_MODE_SA.

Definition tcm_key (tcm : tcmsg) : Z * Z := (tcm_parent tcm, tcm_ifindex tcm).

(** The queue for acknowledgements of bearer [b]: 15 behind its queue, if it has
    one. *)
Definition ack_queue (b : rmnet_bearer_map) (txq : Z) : Prop :=
  b_mq_idx b = 255 /\ txq = 255 \/ 0 < b_mq_idx b < 16 /\ txq = b_mq_idx b + 15.

(** The queue for a packet: that of its flow, but for a TCP acknowledgement of a
    flow with a bearer, which is for the queue for acknowledgements of the bearer;
    queue 0 for neighbour discovery and for packets of no flow. *)
Definition queue_of (k : packet) (q : qos_info) (txq : Z) : Prop :=
  if pkt_ipv6 k && pkt_ndp k then txq = 0
  else
    let key := (pkt_mark k, if pkt_ipv6 k then 10 else 2) in
    match routes q !! key with
    | None => txq = 0
    | Some (id, mq_idx) => exists f, f ∈ q_flows q /\ flow_key f = key /\
        match f_bearer f with
        | Some p => if pkt_tcp_ack k
            then exists b, q_heap q !! p = Some b /\ b_bearer_id b = id /\ ack_queue b txq
            else txq = mq_idx
        | None => txq = mq_idx
        end
    end.

Lemma wp_get_queue k d : dev_inv (d_q d) ->
  wp (qmi_rmnet_get_queue k) d (fun txq d' => d' = d /\ queue_of k (d_q d) txq).
Proof.
  intros [HC Hl]. pose proof (proj1 HC) as HL. unfold qmi_rmnet_get_queue, qmi_rmnet_get_queue_sa, queue_of.
  rewrite sa, Z.eqb_refl. case_if; [by wp_step|].
  assert (Hd : mk_dev (set_q_locked false (set_q_locked true (d_q d))) (d_k d) = d).
  { destruct d as [[] ?]. cbn in *. by rewrite Hl. }
  wp_step. apply wp_lock; [done|]. wp_step. unfold qmi_rmnet_get_flow_map. wp_step.
  cbn [d_q q_flows set_q_locked]. unfold routes. rewrite routes_find. unfold spin_unlock_bh.
  destruct (list_find _ (q_flows (d_q d))) as [[i f]|] eqn:Hf; cbn [fmap option_fmap option_map snd].
  2: { repeat wp_step. by split; [exact Hd|]. }
  apply list_find_Some in Hf as (Hi & [E1 E2] & _).
  assert (Hin : f ∈ q_flows (d_q d)) by (by eapply list_elem_of_lookup_2).
  assert (Hgo : forall txq, match f_bearer f with
      | Some p => if pkt_tcp_ack k then exists b, q_heap (d_q d) !! p = Some b /\ b_bearer_id b = f_bearer_id f /\ ack_queue b txq
                  else txq = f_mq_idx f
      | None => txq = f_mq_idx f end ->
    exists f', f' ∈ q_flows (d_q d) /\ flow_key f' = (pkt_mark k, if pkt_ipv6 k then 10 else 2) /\
      match f_bearer f' with
      | Some p => if pkt_tcp_ack k then exists b, q_heap (d_q d) !! p = Some b /\ b_bearer_id b = f_bearer_id f /\ ack_queue b txq
                  else txq = f_mq_idx f
      | None => txq = f_mq_idx f end).
  { intros txq H1. exists f. split; [done|]. split; [|done]. unfold flow_key. by rewrite E1, E2. }
  destruct (f_bearer f) as [p|] eqn:Hp; [|repeat wp_step; split; [exact Hd|by apply Hgo]].
  destruct (pkt_tcp_ack k) eqn:Hk; [|repeat wp_step; split; [exact Hd|by apply Hgo]].
  destruct (l_flows _ HL f p Hin Hp) as (b & Hb & Hid).
  wp_step. wp_step. apply (wp_bearer_at p b); [done|]. repeat wp_step. split; [exact Hd|].
  apply Hgo. exists b. split; [done|]. split; [done|]. unfold ack_queue.
  destruct (l_bound _ HL p b Hb) as [[-> ->]|(j & Hj & -> & -> & _)]; [by left|right].
  unfold ACK_MQ_OFFSET, MAX_MQ_NUM. lia.
Qed.

(** C33: The flows of a device are a map from the numbers of a flow to its bearer
    and its queue. When memory is available ([k_mem] answers no allocation with a
    failure), adding a flow returns 0 and sets its entry, whether the flow is new,
    moves to another bearer or to another queue; deleting one returns 0 and removes
    its entry; the queue of a packet is that of the entry, but for TCP
    acknowledgements of a flow with a bearer, which get the queue for
    acknowledgements of the bearer, and neighbour discovery and packets of no flow,
    which get queue 0. All three return from any consistent device and leave it
    consistent: no bearer is used after it is freed, and each is counted by its
    flows. Without memory adding a flow breaks this
    ([DfcFindings.rebind_keeps_freed_bearer],
    [DfcFindings.flow_stays_without_bearer]). *)
Theorem flows_refine_map tcm k d : dev_inv (d_q d) -> k_mem (d_k d) = [] ->
  0 <= tcm_handle tcm < MAX_MQ_NUM ->
  (exists d', qmi_rmnet_add_flow tcm d = Ret 0 d' /\ dev_inv (d_q d') /\
     routes (d_q d') = <[tcm_key tcm := (tcm__pad1 tcm, tcm_handle tcm)]> (routes (d_q d))) /\
  (exists d', qmi_rmnet_del_flow tcm d = Ret 0 d' /\ dev_inv (d_q d') /\
     routes (d_q d') = delete (tcm_key tcm) (routes (d_q d))) /\
  (exists txq, qmi_rmnet_get_queue k d = Ret txq d /\ queue_of k (d_q d) txq).
Proof.
  intros HI Hm Hh. split_and!.
  - destruct (wp_add_again sa (S (length (q_flows (d_q d))))
      (mk_flow (tcm__pad1 tcm) (tcm_parent tcm) (tcm_ifindex tcm) (tcm_handle tcm) None) d)
      as (rc & d' & Hr & -> & HI' & _ & HR); try done; [lia|].
    exists d'. split_and!; [|done|exact HR]. unfold qmi_rmnet_add_flow.
    by rewrite (proj2 (Z.leb_gt _ _)) by lia.
  - destruct (wp_del_flow sa tcm d (fun rc d' => rc = 0 /\ dev_inv (d_q d') /\
      q_flows (d_q d') = deleted (d_q d) tcm)) as (rc & d' & Hr & -> & HI' & HF); [done|by auto|].
    exists d'. split_and!; [done|done|]. unfold routes. rewrite HF. unfold deleted.
    destruct (list_find _ (q_flows (d_q d))) as [[i f]|] eqn:Hf.
    + apply list_find_Some in Hf as (Hi & [E1 E2] & _). unfold tcm_key. rewrite <- E1, <- E2.
      by apply (routes_delete _ i f); [apply HI|].
    + rewrite delete_id; [done|]. unfold tcm_key. by rewrite routes_find, Hf.
  - destruct (wp_get_queue k d HI) as (txq & d' & Hr & -> & HQ). by exists txq.
Qed.

End lookup.

(** The second flow of the device moves to another queue. *)
Lemma flows_refine_map_witness :
  (exists d', qmi_rmnet_add_flow (H := demo_conf) (demo_tcm 6 8 3) demo_dev = Ret 0 d' /\
     dev_inv (d_q d') /\ routes (d_q d') = <[(8, AF_INET) := (6, 3)]> (routes (d_q demo_dev))) /\
  (exists d', qmi_rmnet_del_flow (H := demo_conf) (demo_tcm 6 8 3) demo_dev = Ret 0 d' /\
     dev_inv (d_q d') /\ routes (d_q d') = delete (8, AF_INET) (routes (d_q demo_dev))) /\
  (exists txq, qmi_rmnet_get_queue (H := demo_conf) (mk_packet 8 false false true) demo_dev =
     Ret txq demo_dev /\ queue_of (mk_packet 8 false false true) (d_q demo_dev) txq).
Proof.
  apply (flows_refine_map (H := demo_conf) eq_refl (demo_tcm 6 8 3) (mk_packet 8 false false true) demo_dev).
  - apply demo_inv.
  - vm_compute. reflexivity.
  - vm_compute. split; [discriminate|reflexivity].
Defined.
