(* ===== verification/DfcBurst.v ===== *)
(** * RmNet flow control: packets spend the grant

    What a sequence of packets of a flow does to the grant of its bearer, to its
    queue and to the messages for the modem. *)

From S2P Require Import DfcState.
From S2P Require Import Prelude DfcGrants DfcFlows DfcInv DfcKeeps DfcLookup.

(** ** Messages *)

(** The device asks for more, or confirms that it has stopped. *)
Definition is_ask (id : Z) (m : message) : bool :=
  match m with
  | DfcAck _ i _ t _ => (i =? id) && (t =? DFC_ACK_TYPE_THRESHOLD)
  | DfcQuery _ i _ => i =? id
  | _ => false
  end.

Definition is_stop (id : Z) (m : message) : bool :=
  match m with
  | DfcAck _ i _ t _ => (i =? id) && (t =? DFC_ACK_TYPE_DISABLE)
  | EndMarkerCnf _ i _ _ _ => i =? id
  | _ => false
  end.

Definition asks (id : Z) (k : kernel) : nat := countb (is_ask id) (k_sent k).
Definition stops (id : Z) (k : kernel) : nat := countb (is_stop id) (k_sent k).

Lemma countb_snoc {A} (p : A -> bool) l x :
  countb p (l ++ [x]) = (countb p l + if p x then 1 else 0)%nat.
Proof. induction l as [|y l IH]; cbn; [by destruct (p x)|]. rewrite IH. by destruct (p y). Qed.

(** Neither the allocator nor the control channel fails. *)
Definition steady (k : kernel) : Prop := k_mem k = [] /\ k_ctl k = [].

Section burst.
Context `{DfcConf}.

Lemma wp_qmap_send_exact m ch d (Q : Z -> dfc_dev -> Prop) : steady (d_k d) ->
  (forall r k, steady k -> k_sent k = k_sent (d_k d) ++ [m] -> Q r (mk_dev (d_q d) k)) ->
  wp (rmnet_qmap_send m ch) d Q.
Proof.
  intros [Hm Hc] HQ. unfold rmnet_qmap_send, send. case_if; [by repeat wp_step; apply HQ|].
  unfold rmnet_ctl_send. wp_step. wp_step. eexists _, d. split; [done|]. cbv beta. rewrite Hc.
  repeat wp_step. by apply HQ.
Qed.

Lemma wp_kzalloc_exact d (Q : bool -> dfc_dev -> Prop) : steady (d_k d) -> Q true d -> wp kzalloc d Q.
Proof.
  intros [Hm _] HQ. unfold kzalloc. wp_step. eexists _, d. split; [done|]. cbv beta. rewrite Hm.
  by wp_step.
Qed.

Lemma wp_end_marker_exact b s t d (Q : unit -> dfc_dev -> Prop) : steady (d_k d) ->
  (forall k ch, steady k ->
     k_sent k = k_sent (d_k d) ++ [EndMarkerCnf (q_mux_id (d_q d)) (b_bearer_id b) s t ch] ->
     Q tt (mk_dev (d_q d) k)) ->
  wp (dfc_qmap_send_end_marker_cnf b s t) d Q.
Proof.
  intros Hk HQ. unfold dfc_qmap_send_end_marker_cnf. wp_step. apply wp_kzalloc_exact; [done|].
  cbn [negb]. repeat wp_step. apply wp_qmap_send_exact; [done|]. intros r k Hk' Hs. wp_step. by eapply HQ.
Qed.

(** An acknowledgement is one message, of its type and for its bearer. *)
Lemma wp_send_ack_exact p b s mux ty d (Q : unit -> dfc_dev -> Prop) :
  linked (d_q d) -> q_heap (d_q d) !! p = Some b -> steady (d_k d) ->
  ty = DFC_ACK_TYPE_DISABLE \/ ty = DFC_ACK_TYPE_THRESHOLD ->
  (forall t k, steady k ->
     asks (b_bearer_id b) k =
       (asks (b_bearer_id b) (d_k d) + if (ty =? DFC_ACK_TYPE_THRESHOLD)%Z then 1 else 0)%nat ->
     stops (b_bearer_id b) k =
       (stops (b_bearer_id b) (d_k d) + if (ty =? DFC_ACK_TYPE_DISABLE)%Z then 1 else 0)%nat ->
     Q tt (mk_dev (set_q_tran_num t (d_q d)) k)) ->
  wp (dfc_send_ack (b_bearer_id b) s mux ty) d Q.
Proof.
  intros HL Hb Hk Hty HQ.
  assert (HQk : forall k m, steady k -> k_sent k = k_sent (d_k d) ++ [m] ->
    is_ask (b_bearer_id b) m = (ty =? DFC_ACK_TYPE_THRESHOLD) ->
    is_stop (b_bearer_id b) m = (ty =? DFC_ACK_TYPE_DISABLE) ->
    forall t, Q tt (mk_dev (set_q_tran_num t (d_q d)) k)).
  { intros k m Hk' Hs Ha Hd t. apply HQ; [done|..]; unfold asks, stops; rewrite Hs, countb_snoc;
      by rewrite ?Ha, ?Hd. }
  assert (HQ0 : forall k m, steady k -> k_sent k = k_sent (d_k d) ++ [m] ->
    is_ask (b_bearer_id b) m = (ty =? DFC_ACK_TYPE_THRESHOLD) ->
    is_stop (b_bearer_id b) m = (ty =? DFC_ACK_TYPE_DISABLE) -> Q tt (mk_dev (d_q d) k)).
  { intros k m H1 H2 H3 H4. specialize (HQk k m H1 H2 H3 H4 (q_tran_num (d_q d))).
    by destruct (d_q d). }
  unfold dfc_send_ack. case_if; [unfold dfc_qmap_send_ack; destruct Hty as [-> | ->]|].
  - rewrite Z.eqb_refl. wp_step. apply wp_get_bearer_map; [by apply linked_live|..].
    + intros p' b' _ Hb' He. pose proof (l_ids _ HL _ _ _ _ Hb Hb' (eq_sym He)) as <-.
      rewrite Hb in Hb'. injection Hb' as <-. wp_step. apply (wp_bearer_at p b); [done|].
      apply wp_end_marker_exact; [done|]. intros k ch Hk' Hs. eapply HQ0; [done|done|done|].
      cbn. by rewrite Z.eqb_refl.
    + intros Hno. exfalso. eapply (Hno p b); [apply HL; by eexists|done|done].
  - cbn [Z.eqb DFC_ACK_TYPE_DISABLE DFC_ACK_TYPE_THRESHOLD Pos.eqb when]. wp_step. wp_step.
    unfold dfc_qmap_send_query. wp_step.
    apply wp_kzalloc_exact; [done|]. cbn [negb]. unfold rmnet_qmap_next_txid. repeat wp_step.
    eexists _, d. split; [done|]. cbv beta. repeat wp_step. apply wp_qmap_send_exact; [done|].
    intros r k Hk' Hs. wp_step. eapply HQ0; [done|done| |done]. cbn. by rewrite Z.eqb_refl.
  - wp_step. apply wp_kzalloc_exact; [done|]. cbn [negb]. repeat wp_step. unfold send. wp_step.
    eapply HQk; [done|done|cbn..]; rewrite Z.eqb_refl; by destruct Hty as [-> | ->].
Qed.

(** ** One packet *)

(** Since [d0] the bearer [p], which was [b0], has paid for packets of [len]
    bytes. *)
Record spent (p : Z) (b0 : rmnet_bearer_map) (len : Z) (d0 d : dfc_dev) : Prop := {
  sp_inv : core_inv (d_q d);
  sp_locked : q_locked (d_q d) = q_locked (d_q d0);
  sp_flows : q_flows (d_q d) = q_flows (d_q d0);
  sp_steady : steady (d_k d);
  sp_bearer : exists b, q_heap (d_q d) !! p = Some b /\ same_bearer b0 b /\
    b_grant_thresh b = b_grant_thresh b0 /\ b_ack_req b = b_ack_req b0 /\
    b_grant_size b = Z.max 0 (b_grant_size b0 - len);
  sp_asks : asks (b_bearer_id b0) (d_k d) = (asks (b_bearer_id b0) (d_k d0) +
    if (b_grant_thresh b0 <? b_grant_size b0)%Z &&
       (Z.max 0 (b_grant_size b0 - len) <=? b_grant_thresh b0)%Z then 1 else 0)%nat;
  sp_stops : stops (b_bearer_id b0) (d_k d) = (stops (b_bearer_id b0) (d_k d0) +
    if (0 <? b_grant_size b0)%Z && (b_grant_size b0 <=? len)%Z && truthy (b_ack_req b0)
    then 1 else 0)%nat
}.

(** The last packet of a grant stops the queue. *)
Lemma wp_stop p b0 b q0 d (Q : unit -> dfc_dev -> Prop) :
  linked q0 -> q_heap q0 !! p = Some b0 -> same_bearer b0 b -> b_grant_size b = 0 ->
  upto p b q0 (d_q d) -> steady (d_k d) ->
  (forall d', settled p q0 (d_q d') -> q_heap (d_q d') !! p = Some b -> steady (d_k d') ->
     asks (b_bearer_id b) (d_k d') = asks (b_bearer_id b) (d_k d) ->
     stops (b_bearer_id b) (d_k d') =
       (stops (b_bearer_id b) (d_k d) + if truthy (b_ack_req b) then 1 else 0)%nat -> Q tt d') ->
  wp (dfc_bearer_flow_ctl p) d Q.
Proof.
  intros HL Hb0 Hs Hg Hu Hk HQ. assert (Hg0 : 0 <= b_grant_size b) by lia.
  pose proof (upto_linked _ _ _ _ _ HL Hb0 Hs Hg0 Hu) as HL'.
  pose proof (upto_at _ _ _ _ Hu) as Hb.
  pose proof (fun t => settled_ctl p b0 b q0 (d_q d) t HL Hb0 Hs Hg0 Hu) as Hset.
  apply (wp_flow_ctl_queues p b); [done|done|]. rewrite Hg. apply wp_when; cbn [truthy negb andb Z.eqb].
  - intros Ha. eapply (wp_send_ack_exact p b); [by apply after_ctl_linked with (p := p)|done|done|by left|].
    intros t k Hk' Hask Hstop. change (DFC_ACK_TYPE_DISABLE =? DFC_ACK_TYPE_THRESHOLD) with false in Hask.
    rewrite Z.eqb_refl in Hstop. apply HQ; try done; cbn in *; rewrite ?Ha; [apply Hset|lia|lia].
  - intros Ha. apply HQ; try done; rewrite ?Ha; [|cbn; lia]. specialize (Hset (q_tran_num (d_q d))).
    by destruct (d_q d).
Qed.

Lemma wp_pay p b0 len d : core_inv (d_q d) -> q_heap (d_q d) !! p = Some b0 -> 0 <= len ->
  steady (d_k d) ->
  wp (upd_bearer p (fun b => set_b_bytes_in_flight (u32 (b_bytes_in_flight b + len)) b);;
      b ← bearer_at p;
      let start_grant := b_grant_size b in
      let left := if start_grant <=? len then 0 else start_grant - len in
      if start_grant =? 0 then mret tt
      else
        upd_bearer p (set_b_grant_size left);;
        mux ← gets_q q_mux_id;
        when ((b_grant_thresh b <? start_grant) && (left <=? b_grant_thresh b))
          (dfc_send_ack (b_bearer_id b) (b_seq b) mux DFC_ACK_TYPE_THRESHOLD);;
        when (left =? 0) (dfc_bearer_flow_ctl p)) d (fun _ => spent p b0 len d).
Proof.
  intros HC Hb0 Hlen Hk. pose proof (proj1 HC) as HL. pose proof (l_grant _ HL _ _ Hb0) as Hg0.
  wp_step. eapply wp_upd_bearer; [by apply upto_refl|]. intros d1 Hk1 Hu1. wp_step.
  eapply wp_bearer_at; [by eapply upto_at|]. cbv zeta.
  set (b1 := set_b_bytes_in_flight _ b0) in *.
  change (b_grant_size b1) with (b_grant_size b0). change (b_grant_thresh b1) with (b_grant_thresh b0).
  change (b_bearer_id b1) with (b_bearer_id b0).
  replace (if b_grant_size b0 <=? len then 0 else b_grant_size b0 - len)
    with (Z.max 0 (b_grant_size b0 - len)) by (case_if; zbool; lia).
  set (left := Z.max 0 (b_grant_size b0 - len)).
  destruct (Z.eqb_spec (b_grant_size b0) 0) as [Hz|Hz].
  - wp_step. assert (Hset : settled p (d_q d) (d_q d1)) by by apply (core_settled p b0 b1 _ _ HC Hb0).
    pose proof (t_shape _ _ _ Hset) as []. constructor; rewrite ?Hk1; try done.
    + by eapply settled_core.
    + exists b1. split; [by eapply upto_at|]. split_and!; try done. cbn. lia.
    + fold left. destruct (Z.ltb_spec (b_grant_thresh b0) (b_grant_size b0)), (Z.leb_spec left (b_grant_thresh b0));
        subst left; cbn; lia.
    + rewrite Hz. cbn. lia.
  - wp_step. eapply wp_upd_bearer; [exact Hu1|]. intros d2 Hk2 Hu2. set (b2 := set_b_grant_size left b1) in *.
    repeat wp_step.
    eapply (wp_mono _ _ (fun _ d3 => upto p b2 (d_q d) (d_q d3) /\ steady (d_k d3) /\
      stops (b_bearer_id b0) (d_k d3) = stops (b_bearer_id b0) (d_k d) /\
      asks (b_bearer_id b0) (d_k d3) = (asks (b_bearer_id b0) (d_k d) +
        if (b_grant_thresh b0 <? b_grant_size b0)%Z && (left <=? b_grant_thresh b0)%Z
        then 1 else 0)%nat)).
    { assert (HL2 : linked (d_q d2)) by (eapply upto_linked; [exact HL|done| | |exact Hu2]; [done|cbn; lia]).
      rewrite Hk1 in Hk2.
      apply wp_when; intros ->; [|rewrite Hk2; split_and!; [done..|lia]].
      eapply (wp_send_ack_exact p b2); [done|by eapply upto_at|by rewrite Hk2|by right|].
      intros t k Hk3 Ha Hs. rewrite Hk2 in *. split_and!; [by apply upto_tran|done|cbn in *; lia..]. }
    intros [] d3 (Hu3 & Hk3 & Hs3 & Ha3).
    apply wp_when; intros Hl; zbool.
    + eapply (wp_stop p b0 b2); [exact HL|done|done|done|exact Hu3|done|]. intros d4 Hset Hb4 Hk4 Ha4 Hs4.
      pose proof (t_shape _ _ _ Hset) as []. constructor; try done; [by eapply settled_core| | |].
      * by exists b2.
      * cbn in *. by rewrite Ha4, Ha3.
      * change (b_bearer_id b2) with (b_bearer_id b0) in *. change (b_ack_req b2) with (b_ack_req b0) in *.
        rewrite Hs4, Hs3, (proj2 (Z.ltb_lt _ _)), (proj2 (Z.leb_le _ _)) by lia. done.
    + assert (Hset : settled p (d_q d) (d_q d3)).
      { eapply (settled_quiet p b0 b2); [done|done|apply HC|done|cbn; lia| |done|done]. cbn.
        by rewrite !(proj2 (Z.eqb_neq _ _)). }
      pose proof (t_shape _ _ _ Hset) as []. constructor; try done; [by eapply settled_core| |].
      * exists b2. by split; [eapply upto_at|].
      * rewrite Hs3, (proj2 (Z.leb_gt _ len)), andb_false_r by lia. cbn. lia.
Qed.

Lemma wp_burst_check ip mark len i f p b0 d : dev_inv (d_q d) -> steady (d_k d) -> 0 <= len ->
  list_find (is_flow mark ip) (q_flows (d_q d)) = Some (i, f) -> f_bearer f = Some p ->
  q_heap (d_q d) !! p = Some b0 ->
  wp (dfc_qmi_burst_check ip mark len) d (fun _ d' => spent p b0 len d d' /\ dev_inv (d_q d')).
Proof.
  intros [HC Hl] Hk Hlen Hf Hfb Hb. unfold dfc_qmi_burst_check, qmi_rmnet_get_flow_map.
  wp_step. apply wp_lock; [done|]. repeat wp_step. cbn [d_q q_flows set_q_locked]. rewrite Hf.
  cbn [option_bind mbind snd]. rewrite Hfb.
  eapply wp_mono; [apply (wp_pay p b0 len); try done; by apply core_inv_lock|].
  cbv beta. intros [] d1 [H1 H2 H3 H4 H5 H6 H7]. unfold spin_unlock_bh. wp_step.
  assert (HC' : core_inv (set_q_locked false (d_q d1))) by by apply core_inv_lock.
  split; [|by split]. by constructor.
Qed.

(** ** A sequence of packets *)

Lemma spent_trans p b0 b n m d0 d1 d2 : 0 <= n -> 0 <= m -> 0 <= b_grant_size b0 ->
  spent p b0 n d0 d1 -> q_heap (d_q d1) !! p = Some b -> spent p b m d1 d2 ->
  spent p b0 (n + m) d0 d2.
Proof.
  intros Hn Hm Hg [? ? ? ? (b' & Hb' & (Hid & ? & ? & ?) & Ht & Ha & Hgr) A1 S1] Hb
    [? ? ? ? (c & Hc & (? & ? & ? & ?) & Ht2 & Ha2 & Hgr2) A2 S2].
  rewrite Hb in Hb'. injection Hb' as <-.
  constructor; try congruence; try done.
  - exists c. unfold same_bearer. split_and!; try congruence. lia.
  - rewrite <- Hid, A2, Hid, A1, Ht, Hgr.
    destruct (Z.ltb_spec (b_grant_thresh b0) (b_grant_size b0)),
      (Z.leb_spec (Z.max 0 (b_grant_size b0 - n)) (b_grant_thresh b0)),
      (Z.ltb_spec (b_grant_thresh b0) (Z.max 0 (b_grant_size b0 - n))),
      (Z.leb_spec (Z.max 0 (Z.max 0 (b_grant_size b0 - n) - m)) (b_grant_thresh b0)),
      (Z.leb_spec (Z.max 0 (b_grant_size b0 - (n + m))) (b_grant_thresh b0)); cbn; lia.
  - rewrite <- Hid, S2, Hid, S1, Ha, Hgr.
    destruct (truthy (b_ack_req b0)), (Z.ltb_spec 0 (b_grant_size b0)),
      (Z.leb_spec (b_grant_size b0) n), (Z.ltb_spec 0 (Z.max 0 (b_grant_size b0 - n))),
      (Z.leb_spec (Z.max 0 (b_grant_size b0 - n)) m), (Z.leb_spec (b_grant_size b0) (n + m)); cbn; lia.
Qed.

Definition total (lens : list Z) : Z := zsum (fun x => x) lens.

Lemma wp_packets ip mark lens i f p b0 d :
  dev_inv (d_q d) -> steady (d_k d) -> Forall (fun len => 0 <= len) lens ->
  list_find (is_flow mark ip) (q_flows (d_q d)) = Some (i, f) -> f_bearer f = Some p ->
  q_heap (d_q d) !! p = Some b0 ->
  wp (for_each lens (dfc_qmi_burst_check ip mark)) d
    (fun _ d' => spent p b0 (total lens) d d' /\ dev_inv (d_q d')).
Proof.
  intros HI Hk Hlens Hf Hfb. revert b0 d HI Hk Hf. induction Hlens as [|len lens Hlen Hlens IH];
    intros b0 d HI Hk Hf Hb; pose proof (l_grant _ (proj1 (proj1 HI)) _ _ Hb) as Hg; cbn [for_each].
  - wp_step. split; [|done]. destruct HI. constructor; try done.
    + exists b0. split_and!; try done. cbn. lia.
    + cbn. rewrite Z.sub_0_r, Z.max_r by done.
      destruct (Z.ltb_spec (b_grant_thresh b0) (b_grant_size b0)),
        (Z.leb_spec (b_grant_size b0) (b_grant_thresh b0)); cbn; lia.
    + cbn. destruct (Z.ltb_spec 0 (b_grant_size b0)), (Z.leb_spec (b_grant_size b0) 0); cbn; lia.
  - wp_step. eapply wp_mono; [by eapply wp_burst_check|]. cbv beta. intros [] d1 [Hs1 HI1].
    pose proof Hs1 as [_ _ Hf1 Hk1 (b1 & Hb1 & _) _ _].
    eapply wp_mono; [apply (IH b1); try done; by rewrite Hf1|]. cbv beta. intros _ d2 [Hs2 HI2].
    split; [|done]. change (total (len :: lens)) with (len + total lens).
    eapply spent_trans; try done. apply zsum_nonneg. intros x Hx. by apply (proj1 (Forall_forall _ _) Hlens).
Qed.

(** C22: Any packets of a flow, in any number and of any lengths, take their
    bytes from the grant of its bearer, down to zero: the queue of the bearer is
    stopped once they are as many as the grant, and runs before that; the modem
    is asked for more once, by the packet that brings the grant to its threshold,
    and is told once that the queue has stopped, if it wants to know. Every call
    returns and the state of the device stays consistent. *)
Theorem burst_spends_grant ip mark lens i f p b d :
  dev_inv (d_q d) -> steady (d_k d) -> Forall (fun len => 0 <= len) lens ->
  list_find (is_flow mark ip) (q_flows (d_q d)) = Some (i, f) -> f_bearer f = Some p ->
  q_heap (d_q d) !! p = Some b ->
  exists d' b', for_each lens (dfc_qmi_burst_check ip mark) d = Ret tt d' /\ dev_inv (d_q d') /\
    q_heap (d_q d') !! p = Some b' /\ b_mq_idx b' = b_mq_idx b /\
    b_grant_size b' = Z.max 0 (b_grant_size b - total lens) /\
    (forall s, b_mq_idx b <> INVALID_MQ -> q_stopped (d_q d') !! Z.to_nat (b_mq_idx b) = Some s ->
       s = (b_grant_size b <=? total lens)) /\
    asks (b_bearer_id b) (d_k d') = (asks (b_bearer_id b) (d_k d) +
      if (b_grant_thresh b <? b_grant_size b)%Z &&
         (Z.max 0 (b_grant_size b - total lens) <=? b_grant_thresh b)%Z then 1 else 0)%nat /\
    stops (b_bearer_id b) (d_k d') = (stops (b_bearer_id b) (d_k d) +
      if (0 <? b_grant_size b)%Z && (b_grant_size b <=? total lens)%Z && truthy (b_ack_req b)
      then 1 else 0)%nat.
Proof.
  intros HI Hk Hlens Hf Hfb Hb.
  destruct (wp_packets ip mark lens i f p b d) as ([] & d' & Hr & Hs & HI'); try done.
  destruct Hs as [_ _ _ _ (b' & Hb' & (_ & _ & Hmq & _) & _ & _ & Hg) Ha Hst].
  exists d', b'. split_and!; try done. intros s Hv Hs. rewrite <- Hmq in Hv, Hs.
  destruct (proj2 (proj1 HI') p b' Hb' Hv) as [Hq _]. rewrite (Hq s Hs), Hg.
  destruct (Z.eqb_spec (Z.max 0 (b_grant_size b - total lens)) 0),
    (Z.leb_spec (b_grant_size b) (total lens)); lia || done.
Qed.

End burst.

Definition demo_bearer (p : Z) : rmnet_bearer_map :=
  default (new_bearer (H := demo_conf) 0) (q_heap (d_q demo_dev) !! p).

(** Three packets use up the grant of the first bearer. *)
Lemma burst_spends_grant_witness :
  exists d' b', for_each [15000; 1400; 9000] (dfc_qmi_burst_check (H := demo_conf) AF_INET 7) demo_dev =
      Ret tt d' /\ b_grant_size b' = 0 /\ q_stopped (d_q d') !! 1%nat = Some true /\
    asks 5 (d_k d') = 1%nat /\ stops 5 (d_k d') = 0%nat.
Proof.
  destruct (burst_spends_grant (H := demo_conf) AF_INET 7 [15000; 1400; 9000] 1
    (mk_flow 5 7 AF_INET 1 (Some 1)) 1 (demo_bearer 1) demo_dev)
    as (d' & b' & Hr & _ & _ & _ & Hg & Hq & Ha & Hs).
  - apply demo_inv.
  - vm_compute. split; reflexivity.
  - repeat constructor; vm_compute; discriminate.
  - vm_compute. reflexivity.
  - reflexivity.
  - vm_compute. reflexivity.
  - exists d', b'. split; [exact Hr|]. split; [rewrite Hg; vm_compute; reflexivity|].
    split.
    + destruct (q_stopped (d_q d') !! 1%nat) as [s|] eqn:E.
      * f_equal. rewrite (Hq s); [vm_compute; reflexivity|vm_compute; discriminate|exact E].
      * assert (Hd : d' = state_of (for_each [15000; 1400; 9000]
          (dfc_qmi_burst_check (H := demo_conf) AF_INET 7) demo_dev) demo_dev) by (rewrite Hr; reflexivity).
        rewrite Hd in E. vm_compute in E. discriminate E.
    + split; [|]; (etransitivity; [first [exact Ha|exact Hs]|vm_compute; reflexivity]).
Defined.
