(* ===== verification/DfcRuns.v ===== *)
(** * RmNet flow control: a port and every sequence of events

    The handlers that find the device of a message by its multiplex number
    (dfc_qmi.c, dfc_qmap.c, rmnet_config.c), the entry of the netlink messages,
    and what happens to a port: indications, packets, timers, netlink messages
    and power save, in any order. A device may have no [qos_info]. *)

From S2P Require Import DfcState.
From S2P Require Import Prelude DfcGrants DfcFlows DfcInv DfcKeeps DfcRoutes DfcLookup.

Record port := mk_port {
  p_devs : gmap Z (option qos_info);   (* by multiplex number *)
  p_kernel : kernel;
  p_ignore_grant : bool                (* ps_ignore_grant of qmi_info *)
}.

Definition P := run port.

(** [rmnet_get_rmnet_dev] and [rmnet_get_qos_pt] *)
Inductive found := NoDev | NoQos | Qos (q : qos_info).

Definition find_dev (mux_id : Z) : P found :=
  gets (fun s => match p_devs s !! mux_id with
                 | None => NoDev | Some None => NoQos | Some (Some q) => Qos q end).

(** Runs a function on a device that was found. *)
Definition on_qos {A} (mux_id : Z) (q : qos_info) (m : M A) : P A := fun s =>
  match m (mk_dev q (p_kernel s)) with
  | Ret a d => Ret a (mk_port (<[mux_id := Some (d_q d)]> (p_devs s)) (d_k d) (p_ignore_grant s))
  | Block => Block
  | Fault => Fault
  end.

(** [struct dfc_ancillary_info_type_v01] *)
Record ancillary_info := mk_ai { ai_mux_id : Z; ai_bearer_id : Z; ai_reserved : Z }.

Section port.
Context `{DfcConf}.

(** ** Indications *)

Fixpoint find_ancillary (l : list ancillary_info) (fc : flow_status) : Z :=
  match l with
  | [] => 0
  | ai :: l =>
      if (ai_mux_id ai =? fs_mux_id fc) && (ai_bearer_id ai =? fs_bearer_id fc) then ai_reserved ai
      else find_ancillary l fc
  end.

(** In power save a grant opens the queue for a packet. *)
Definition ps_status (fc : flow_status) : flow_status :=
  mk_status (fs_mux_id fc) (fs_bearer_id fc) DEFAULT_GRANT 0 true 4294967295 (fs_ll_status fc).

Definition one_status (ack_req ancillary : Z) (fc : flow_status) (is_query : bool) : M unit :=
  if fs_bearer_id fc =? 255 then dfc_all_bearer_flow_ctl ack_req ancillary fc
  else dfc_update_fc_map ack_req ancillary fc is_query.

Fixpoint dfc_do_burst_flow_control (l : list flow_status) (ancillary : list ancillary_info)
    (ack_req : Z) (is_query : bool) : P unit :=
  match l with
  | [] => mret tt
  | fc :: l =>
      dev ← find_dev (fs_mux_id fc);
      match dev with
      | NoDev => mret tt
      | NoQos => dfc_do_burst_flow_control l ancillary ack_req is_query
      | Qos q =>
          ignore ← gets p_ignore_grant;
          (on_qos (fs_mux_id fc) q
             (spin_lock_bh;;
              (if (ignore : bool) then
                 when (truthy (fs_num_bytes fc))
                   (one_status ack_req (find_ancillary ancillary fc) (ps_status fc) is_query)
               else one_status ack_req (find_ancillary ancillary fc) fc is_query);;
              spin_unlock_bh));;
          dfc_do_burst_flow_control l ancillary ack_req is_query
      end
  end.

Fixpoint dfc_handle_tx_link_status_ind (tx_status : Z) (l : list bearer_info) : P unit :=
  match l with
  | [] => mret tt
  | bi :: l =>
      dev ← find_dev (bi_mux_id bi);
      match dev with
      | NoDev => mret tt
      | NoQos => dfc_handle_tx_link_status_ind tx_status l
      | Qos q =>
          on_qos (bi_mux_id bi) q
            (spin_lock_bh;; dfc_update_tx_link_status tx_status (bi_bearer_id bi);; spin_unlock_bh);;
          dfc_handle_tx_link_status_ind tx_status l
      end
  end.

(** [struct qmap_dfc_ind] and [struct qmap_dfc_query_resp], in host order *)
Record qmap_dfc_ind := mk_ind {
  qi_mux_id : Z;
  qi_bearer_id : Z;
  qi_seq_num : Z;
  qi_tx_info_valid : bool;
  qi_tx_info : Z;
  qi_rx_bytes_valid : bool;
  qi_tcp_bidir : bool;
  qi_ll_status : bool;
  qi_grant : Z;
  qi_rx_bytes : Z
}.

Record qmap_dfc_query_resp := mk_resp {
  qr_mux_id : Z;
  qr_bearer_id : Z;
  qr_tcp_bidir : bool;
  qr_rx_bytes_valid : bool;
  qr_invalid : bool;
  qr_grant : Z;
  qr_rx_bytes : Z
}.

(** A command is [None] when the packet is too short for it. *)
Definition dfc_qmap_handle_ind (cmd : option qmap_dfc_ind) : P Z :=
  match cmd with
  | None => mret QMAP_CMD_INVALID
  | Some c =>
      (if qi_tx_info_valid c
       then dfc_handle_tx_link_status_ind (qi_tx_info c) [mk_info (qi_mux_id c) (qi_bearer_id c)]
       else dfc_do_burst_flow_control
              [mk_status (qi_mux_id c) (qi_bearer_id c) (qi_grant c) (qi_seq_num c)
                 (qi_rx_bytes_valid c) (if qi_rx_bytes_valid c then qi_rx_bytes c else 0)
                 (qi_ll_status c)]
              (if qi_tcp_bidir c then [mk_ai (qi_mux_id c) (qi_bearer_id c) 1] else []) 0 false);;
      mret QMAP_CMD_ACK
  end.

Definition dfc_qmap_handle_query_resp (cmd : option qmap_dfc_query_resp) : P Z :=
  match cmd with
  | None => mret QMAP_CMD_DONE
  | Some c =>
      if qr_invalid c then mret QMAP_CMD_DONE
      else
        dfc_do_burst_flow_control
          [mk_status (qr_mux_id c) (qr_bearer_id c) (qr_grant c) 65535
             (qr_rx_bytes_valid c) (if qr_rx_bytes_valid c then qr_rx_bytes c else 0) false]
          (if qr_tcp_bidir c then [mk_ai (qr_mux_id c) (qr_bearer_id c) 1] else []) 0 true;;
        mret QMAP_CMD_DONE
  end.

(** Without a device or its bearer the request itself is confirmed. *)
Definition dfc_qmap_handle_end_marker_req (mux_id bearer_id seq_num tx_id : Z) : P Z :=
  dev ← find_dev mux_id;
  match dev with
  | Qos q => on_qos mux_id q (dfc_qmap_set_end_marker bearer_id seq_num tx_id)
  | _ => mret QMAP_CMD_ACK
  end.

(** ** Netlink and the network stack *)

Definition add_flow (mux_id : Z) (tcm : tcmsg) : P Z :=
  dev ← find_dev mux_id;
  match dev with Qos q => on_qos mux_id q (qmi_rmnet_add_flow tcm) | _ => mret (- EINVAL) end.

Definition del_flow (mux_id : Z) (tcm : tcmsg) : P Z :=
  dev ← find_dev mux_id;
  match dev with Qos q => on_qos mux_id q (qmi_rmnet_del_flow tcm) | _ => mret (- EINVAL) end.

Definition qmi_rmnet_burst_fc_check (mux_id ip_type mark len : Z) : P unit :=
  dev ← find_dev mux_id;
  match dev with Qos q => on_qos mux_id q (dfc_qmi_burst_check ip_type mark len) | _ => mret tt end.

(** The timer of a bearer of the device expires. *)
Definition watchdog_expires (mux_id p : Z) : P unit :=
  dev ← find_dev mux_id;
  match dev with
  | Qos q => when (bool_decide (is_Some (q_heap q !! p))) (on_qos mux_id q
      (upd_bearer p (set_b_watchdog false);; qmi_rmnet_watchdog_fn p))
  | _ => mret tt
  end.

(** ** Power save, over the devices of the port *)

Definition muxes (s : port) : list Z := (map_to_list (p_devs s)).*1.

Definition rmnet_enable_all_flows : P unit :=
  l ← gets muxes;
  for_each l (fun mux =>
    dev ← find_dev mux;
    match dev with Qos q => on_qos mux q qmi_rmnet_enable_all_flows | _ => mret tt end).

Fixpoint all_flows_enabled (l : list Z) : P bool :=
  match l with
  | [] => mret true
  | mux :: l =>
      dev ← find_dev mux;
      r ← (match dev with Qos q => on_qos mux q qmi_rmnet_all_flows_enabled | _ => mret true end);
      if (r : bool) then all_flows_enabled l else mret false
  end.

Definition rmnet_all_flows_enabled : P bool := l ← gets muxes; all_flows_enabled l.

(** [num_left] entries of the array are free; the numbers that are written to it
    are returned. *)
Fixpoint prepare_ps_bearers (l : list Z) (num_left : nat) : P (list Z) :=
  match l with
  | [] => mret []
  | mux :: l =>
      dev ← find_dev mux;
      ids ← (match dev with Qos q => on_qos mux q (qmi_rmnet_prepare_ps_bearers num_left)
             | _ => mret (replicate num_left 0) end);
      more ← prepare_ps_bearers l (num_left - length ids);
      mret (ids ++ more)
  end.

Definition rmnet_prepare_ps_bearers (num_bearers : nat) : P (list Z) :=
  l ← gets muxes; prepare_ps_bearers l num_bearers.

End port.

(** * RmNet flow control: every sequence of events

    What happens to a port: indications, packets, timers, netlink messages and
    power save, in any order. *)

Inductive event :=
| FlowInd (l : list flow_status) (ancillary : list ancillary_info) (ack_req : Z) (is_query : bool)
| TxInd (tx_status : Z) (l : list bearer_info)
| EndMarkerReq (mux_id bearer_id seq_num tx_id : Z)
| Packet (mux_id ip_type mark len : Z)
| WatchdogExpires (mux_id p : Z)
| AddFlow (mux_id : Z) (tcm : tcmsg)
| DelFlow (mux_id : Z) (tcm : tcmsg)
| EnterPs (ignore_grant : bool)
| EnableAll
| PreparePs (num_bearers : nat).

(** An event with what the allocator and the control channel answer during it. *)
Record step := mk_step { st_mem : list bool; st_ctl : list bool; st_event : event }.

(** Byte counts are not negative and queue numbers are unsigned; a flow that is
    added gets its memory. *)
Definition legal (s : step) : Prop :=
  match st_event s with
  | FlowInd l _ _ _ => Forall (fun fc => 0 <= fs_num_bytes fc) l
  | AddFlow _ tcm => st_mem s = [] /\ 0 <= tcm_handle tcm
  | _ => True
  end.

Section runs.
Context `{DfcConf}.

Definition run_event (e : event) : P unit :=
  match e with
  | FlowInd l anc ack q => dfc_do_burst_flow_control l anc ack q
  | TxInd ts l => dfc_handle_tx_link_status_ind ts l
  | EndMarkerReq mux id s t => dfc_qmap_handle_end_marker_req mux id s t;; mret tt
  | Packet mux ip mark len => qmi_rmnet_burst_fc_check mux ip mark len
  | WatchdogExpires mux p => watchdog_expires mux p
  | AddFlow mux tcm => add_flow mux tcm;; mret tt
  | DelFlow mux tcm => del_flow mux tcm;; mret tt
  | EnterPs ig => modify (fun s => mk_port (p_devs s) (p_kernel s) ig)
  | EnableAll => rmnet_enable_all_flows
  | PreparePs n => rmnet_prepare_ps_bearers n;; mret tt
  end.

Definition run_step (s : step) : P unit :=
  modify (fun p => mk_port (p_devs p)
    (set_k_mem (st_mem s) (set_k_ctl (st_ctl s) (p_kernel p))) (p_ignore_grant p));;
  run_event (st_event s).

(** ** The invariant of a port *)

Definition port_inv (s : port) : Prop := forall mux q, p_devs s !! mux = Some (Some q) -> dev_inv q.

(** [m] returns and keeps the invariant. *)
Definition keeps {A} (m : P A) (s : port) : Prop := exists a s', m s = Ret a s' /\ port_inv s'.

Lemma port_ret {A} (a : A) s : port_inv s -> keeps (mret a) s.
Proof. intros HI. by exists a, s. Qed.

Lemma port_bind {A B} (m : P A) (k : A -> P B) s :
  keeps m s -> (forall a s', port_inv s' -> keeps (k a) s') -> keeps (x ← m; k x) s.
Proof.
  intros (a & s' & Hm & HI) Hk. destruct (Hk a s' HI) as (b & s2 & Hr & HI2). exists b, s2.
  split; [|done]. by rewrite (bind_ret _ _ _ _ _ Hm).
Qed.

Lemma port_find {B} mux (k : found -> P B) s : port_inv s ->
  (forall q, p_devs s !! mux = Some (Some q) -> dev_inv q -> keeps (k (Qos q)) s) ->
  keeps (k NoDev) s -> keeps (k NoQos) s -> keeps (dev ← find_dev mux; k dev) s.
Proof.
  intros HI HQ H1 H2.
  assert (E : forall f, find_dev mux s = Ret f s -> keeps (k f) s -> keeps (dev ← find_dev mux; k dev) s).
  { intros f Hf (a & s' & Hr & HI'). exists a, s'. by rewrite (bind_ret _ _ _ _ _ Hf). }
  destruct (p_devs s !! mux) as [[q|]|] eqn:Hm.
  - apply (E (Qos q)); [unfold find_dev, gets; by rewrite Hm|]. apply HQ; [done|by eapply HI].
  - apply (E NoQos); [unfold find_dev, gets; by rewrite Hm|done].
  - apply (E NoDev); [unfold find_dev, gets; by rewrite Hm|done].
Qed.

Lemma keeps_on_qos {A} mux q (m : M A) s : port_inv s ->
  wp m (mk_dev q (p_kernel s)) (fun _ d' => dev_inv (d_q d')) -> keeps (on_qos mux q m) s.
Proof.
  intros HI (a & d & Hm & HD). unfold keeps, on_qos. rewrite Hm. eexists a, _. split; [done|].
  intros mux' q'. cbn. intros [(<- & [= <-])|(_ & Hq)]%lookup_insert_Some; [done|by eapply HI].
Qed.

Lemma port_for_each {A} (l : list A) (body : A -> P unit) s : port_inv s ->
  (forall x s, port_inv s -> keeps (body x) s) -> keeps (for_each l body) s.
Proof.
  intros HI Hb. revert s HI. induction l as [|x l IH]; intros s HI; cbn [for_each].
  - by apply port_ret.
  - apply port_bind; [by apply Hb|]. intros _ s' HI'. by apply IH.
Qed.

(** ** Handlers *)

Lemma keeps_one_status ack anc fc qry : 0 <= fs_num_bytes fc -> keeps_core (one_status ack anc fc qry).
Proof.
  intros Hn. unfold one_status. case_if; [by apply keeps_all_bearers|by apply keeps_update_fc_map].
Qed.

Lemma wp_in_lock (m : M unit) d : dev_inv (d_q d) -> keeps_core m ->
  wp (spin_lock_bh;; m;; spin_unlock_bh) d (fun _ d' => dev_inv (d_q d')).
Proof.
  intros HI Hm. apply wp_enter; [done|]. intros d0 HC _ _. wp_step.
  eapply wp_mono; [by apply Hm|]. cbv beta. intros _ d1 [HC1 _]. by apply wp_leave.
Qed.

Lemma keeps_flow_ind l anc ack qry s : port_inv s -> Forall (fun fc => 0 <= fs_num_bytes fc) l ->
  keeps (dfc_do_burst_flow_control l anc ack qry) s.
Proof.
  intros HI Hl. revert s HI. induction Hl as [|fc l Hfc Hl IH]; intros s HI; [by apply port_ret|].
  cbn [dfc_do_burst_flow_control]. apply port_find; [done| |by apply port_ret|by apply IH].
  intros q Hq HD. apply port_bind; [by exists (p_ignore_grant s), s|]. intros ig s1 HI1.
  apply port_bind; [|intros _ s2 HI2; by apply IH]. apply keeps_on_qos; [done|].
  apply wp_in_lock; [done|]. intros d HC. destruct ig; [|by apply keeps_one_status].
  apply wp_when; intros _; [|by split]. by apply keeps_one_status.
Qed.

Lemma keeps_tx_ind ts l s : port_inv s -> keeps (dfc_handle_tx_link_status_ind ts l) s.
Proof.
  revert s. induction l as [|bi l IH]; intros s HI; [by apply port_ret|].
  cbn [dfc_handle_tx_link_status_ind]. apply port_find; [done| |by apply port_ret|by apply IH].
  intros q Hq HD. apply port_bind; [|intros _ s2 HI2; by apply IH]. apply keeps_on_qos; [done|].
  by apply wp_in_lock, keeps_tx_link.
Qed.

Lemma keeps_watchdog_expires mux p s : port_inv s -> keeps (watchdog_expires mux p) s.
Proof.
  intros HI. apply port_find; [done| |by apply port_ret..]. intros q Hq HD.
  destruct (bool_decide _) eqn:Hp; cbn [when]; [|by apply port_ret].
  apply bool_decide_eq_true in Hp as [b Hb]. apply keeps_on_qos; [done|]. wp_step.
  eapply wp_mono; [apply (keeps_upd p _ _ b); try done; apply HD|]. cbv beta.
  intros _ d1 (Hs & Hb1 & _). apply keeps_watchdog; [|by eexists]. split.
  - eapply settled_core; [apply HD|exact Hs].
  - rewrite (h_locked _ _ (t_shape _ _ _ Hs)). apply HD.
Qed.

Lemma keeps_prepare l n s : port_inv s -> keeps (prepare_ps_bearers l n) s.
Proof.
  revert n s. induction l as [|mux l IH]; intros n s HI; [by apply port_ret|].
  assert (Hrest : forall ids s, port_inv s ->
    keeps (more ← prepare_ps_bearers l (n - length ids); mret (ids ++ more)) s).
  { intros ids s1 HI1. apply port_bind; [by apply IH|]. intros more s2 HI2. by apply port_ret. }
  cbn [prepare_ps_bearers]. apply port_find; [done|..].
  - intros q Hq HD. apply port_bind; [|done]. apply keeps_on_qos; [done|].
    eapply wp_mono; [by apply keeps_prepare_ps|]. by intros ids d [? _].
  - apply port_bind; [by apply port_ret|done].
  - apply port_bind; [by apply port_ret|done].
Qed.

Section sa.
Hypothesis sa : dfc_mode = DFC_MODE_SA.

Lemma keeps_add_flow mux tcm s : port_inv s -> k_mem (p_kernel s) = [] -> 0 <= tcm_handle tcm ->
  keeps (add_flow mux tcm) s.
Proof.
  intros HI Hm Hh. apply port_find; [done| |by apply port_ret..]. intros q Hq HD.
  apply keeps_on_qos; [done|]. unfold qmi_rmnet_add_flow. case_if; [by wp_step|]. zbool. wp_step. wp_step.
  eapply wp_mono; [apply (wp_add_again sa); try done; cbn; lia|]. by intros rc d (_ & ? & _).
Qed.

Lemma run_step_keeps st s : legal st -> port_inv s -> keeps (run_step st) s.
Proof.
  intros HL HI. destruct st as [mem ctl e]. unfold run_step. cbn [st_mem st_ctl st_event].
  set (s0 := mk_port (p_devs s) (set_k_mem mem (set_k_ctl ctl (p_kernel s))) (p_ignore_grant s)).
  assert (HI0 : port_inv s0) by exact HI.
  assert (E : keeps (run_event e) s0 -> keeps (modify (fun p => mk_port (p_devs p)
    (set_k_mem mem (set_k_ctl ctl (p_kernel p))) (p_ignore_grant p));; run_event e) s) by done.
  apply E. clear E. destruct e; cbn in HL; cbn [run_event].
  - by apply keeps_flow_ind.
  - by apply keeps_tx_ind.
  - apply port_bind; [|intros; by apply port_ret].
    apply port_find; [done| |by apply port_ret..]. intros q Hq HD. apply keeps_on_qos; [done|].
    by apply keeps_end_marker.
  - apply port_find; [done| |by apply port_ret..]. intros q Hq HD. apply keeps_on_qos; [done|].
    by apply keeps_burst_check.
  - by apply keeps_watchdog_expires.
  - destruct HL as [-> Hh]. apply port_bind; [by apply keeps_add_flow|intros; by apply port_ret].
  - apply port_bind; [|intros; by apply port_ret].
    apply port_find; [done| |by apply port_ret..]. intros q Hq HD. apply keeps_on_qos; [done|].
    by apply (wp_del_flow sa).
  - by eexists tt, _.
  - apply port_bind; [by eexists _, s0|]. intros l s1 HI1. apply port_for_each; [done|].
    intros mux s2 HI2. apply port_find; [done| |by apply port_ret..]. intros q Hq HD.
    apply keeps_on_qos; [done|]. by apply keeps_enable_all.
  - apply port_bind; [|intros; by apply port_ret]. apply port_bind; [by eexists _, s0|].
    intros l s1 HI1. by apply keeps_prepare.
Qed.

(** ** The start *)

(** A port whose devices have just been created. *)
Definition fresh_port (s : port) : Prop := forall mux q, p_devs s !! mux = Some (Some q) ->
  exists n, 0 <= n <= INVALID_MQ /\ q = qmi_rmnet_qos_init mux n.

(** C29: Take a port whose devices are fresh and any sequence of [legal] events:
    indications of grants and of the transmit link, packets, expired watchdogs, end
    markers, flows that come and go, power save, with the allocations and sends of
    every event but one failing at will. The exception is the addition of a flow,
    which finds memory: without it a flow can keep a pointer to a freed bearer
    ([DfcFindings.rebind_keeps_freed_bearer]). Then every event returns, with the
    locks released and no freed bearer used, and afterwards the bearer is counted
    once for each of its flows, the queue it was bound to last ([b_mq_idx]) is
    stopped exactly when its grant is used up, and its queue for acknowledgements
    is stopped only when it has no grant and TCP traffic in both directions is not
    announced. Nothing is said of a queue that the bearer was bound to before: it
    is no longer controlled ([DfcFindings.second_queue_stays_stopped]). *)
Theorem queues_follow_grants steps s : fresh_port s -> Forall legal steps ->
  exists s', for_each steps run_step s = Ret tt s' /\
    forall mux q p b, p_devs s' !! mux = Some (Some q) -> q_heap q !! p = Some b ->
      q_locked q = false /\ p ∈ q_bearers q /\ b_flow_ref b = flows_of p (q_flows q) /\
      (b_mq_idx b <> INVALID_MQ ->
        (forall st, q_stopped q !! Z.to_nat (b_mq_idx b) = Some st -> st = (b_grant_size b =? 0)) /\
        (q_stopped q !! Z.to_nat (b_ack_mq_idx b) = Some true ->
           b_grant_size b = 0 /\ b_tcp_bidir b = false)).
Proof.
  intros Hf HL.
  assert (HI : port_inv s).
  { intros mux q Hq. destruct (Hf mux q Hq) as (n & Hn & ->). by apply init_inv. }
  assert (HR : keeps (for_each steps run_step) s).
  { clear Hf. revert s HI. induction HL as [|st steps Hst HL IH]; intros s HI; cbn [for_each].
    - by apply port_ret.
    - apply port_bind; [by apply run_step_keeps|]. intros _ s1 HI1. by apply IH. }
  destruct HR as ([] & s' & Hr & HI'). exists s'. split; [done|]. intros mux q p b Hq Hb.
  destruct (HI' mux q Hq) as [[HL' HR'] Hlk]. split_and!; [done|apply HL'; by eexists|by apply HL'|].
  exact (HR' p b Hb).
Qed.

End sa.
End runs.

(** A flow on a new device, a grant, packets, the end of the link and an expired
    watchdog. *)
Definition demo_steps : list step :=
  [mk_step [] [] (AddFlow 1 (demo_tcm 5 7 1));
   mk_step [true] [] (FlowInd [mk_status 1 5 3000 9 false 0 false] [mk_ai 1 5 1] 1 false);
   mk_step [] [true] (Packet 1 AF_INET 7 1400);
   mk_step [] [] (Packet 1 AF_INET 7 1700);
   mk_step [] [] (WatchdogExpires 1 1);
   mk_step [] [] (TxInd 0 [mk_info 1 5]);
   mk_step [] [] EnableAll;
   mk_step [] [] (DelFlow 1 (demo_tcm 5 7 1))].

Definition demo_port : port :=
  mk_port {[1 := Some (qmi_rmnet_qos_init 1 31)]} demo_kernel false.

Lemma queues_follow_grants_witness : exists s',
  for_each (demo_steps) (run_step (H := demo_conf)) demo_port = Ret tt s' /\
  forall mux q p b, p_devs s' !! mux = Some (Some q) -> q_heap q !! p = Some b ->
    q_locked q = false /\ p ∈ q_bearers q /\ b_flow_ref b = flows_of p (q_flows q) /\
    (b_mq_idx b <> INVALID_MQ ->
      (forall st, q_stopped q !! Z.to_nat (b_mq_idx b) = Some st -> st = (b_grant_size b =? 0)) /\
      (q_stopped q !! Z.to_nat (b_ack_mq_idx b) = Some true ->
         b_grant_size b = 0 /\ b_tcp_bidir b = false)).
Proof.
  apply (queues_follow_grants (H := demo_conf) eq_refl (demo_steps) demo_port).
  - intros mux q Hq. exists 31. split; [vm_compute; split; discriminate|].
    unfold demo_port in Hq. cbn [p_devs] in Hq. apply lookup_singleton_Some in Hq as [<- [= <-]]. reflexivity.
  - repeat constructor; vm_compute; try discriminate; try reflexivity.
Defined.
