(* ===== verification/DfcChannel.v ===== *)
(** * RmNet flow control: switching the channel of bearers

    rmnet_ll_qmap.c moves bearers between the default and the low-latency channel:
    the request, its acknowledgement and the status that follows, the guard timer
    with its retries, and the answer to the client. A client that asks for an
    answer gets one per bearer, when the switch ends. *)

From S2P Require Import DfcState.
From S2P Require Import Prelude DfcGrants DfcFlows DfcInv DfcKeeps DfcLookup.

Definition QMAP_LL_MAX_BEARER : Z := 15.
Definition QMAP_SWITCH_TO_LL : Z := 1.
Definition QMAP_SWITCH_TO_DEFAULT : Z := 2.
Definition QMAP_SWITCH_QUERY : Z := 3.
Definition SWITCH_STATUS_SUCCESS : Z := 1.
Definition SWITCH_STATUS_DEFAULT : Z := 2.
Definition SWITCH_STATUS_LL : Z := 3.
Definition SWITCH_STATUS_FAIL_TEMP : Z := 4.
Definition SWITCH_STATUS_NONE : Z := 255.
Definition SWITCH_STATUS_TIMEOUT : Z := 254.
Definition SWITCH_STATUS_NO_EFFECT : Z := 253.
Definition LL_MASK_NL_ACK : Z := 1.
Definition LL_MASK_AUTO_RETRY : Z := 2.
Definition LL_MAX_RETRY : Z := 3.

(** [struct qmap_ll_bearer] *)
Record ll_bearer := mk_ll { ll_bearer_id : Z; ll_status : Z }.

(** The message of rmnet_ll_switch: a [struct tcmsg] and the bytes behind it. *)
Record ll_request := mk_req {
  rq_switch_to : Z;           (* tcm__pad1 *)
  rq_num_bearers : Z;         (* tcm__pad2 *)
  rq_flags : Z;               (* tcm_info *)
  rq_pid : Z;                 (* tcm_handle *)
  rq_seq : Z;                 (* tcm_parent *)
  rq_bytes : list Z           (* attrlen - sizeof(struct tcmsg) bytes *)
}.

Section switch.
Context `{DfcConf}.

Definition upd_switch (p : Z) (f : rmnet_ch_switch -> rmnet_ch_switch) : M unit :=
  upd_bearer p (fun b => set_b_ch_switch (f (b_ch_switch b)) b).

Definition ll_send_nl_ack (p : Z) : M unit :=
  b ← bearer_at p;
  let s := b_ch_switch b in
  when (truthy (Z.land (s_flags s) LL_MASK_NL_ACK))
    (mem ← kzalloc;
     when mem
       (wq ← gets (fun d => k_ll_wq (d_k d));
        when wq (send (NlAck (s_nl_pid s) (s_nl_seq s) (b_bearer_id b) (s_status_code s)
                         (s_current_ch s))))).

Definition ll_qmap_maybe_set_ch (p : Z) (status : Z) : M unit :=
  when ((status =? SWITCH_STATUS_DEFAULT) || (status =? SWITCH_STATUS_LL))
    (let ch := if status =? SWITCH_STATUS_DEFAULT then RMNET_CH_DEFAULT else RMNET_CH_LL in
     upd_switch p (set_s_current_ch ch);;
     b ← bearer_at p;
     set_ll_ch (b_mq_idx b) (truthy ch)).

(** The switch is over: the client is told. *)
Definition ll_finish (p : Z) (f : rmnet_ch_switch -> rmnet_ch_switch) : M unit :=
  upd_switch p (fun s => set_s_retry_left 0 (set_s_state CH_SWITCH_NONE (f s)));;
  ll_send_nl_ack p;;
  upd_switch p (set_s_flags 0).

Definition ll_switch_complete (p : Z) (status : Z) : M unit :=
  upd_switch p (set_s_status_code status);;
  b ← bearer_at p;
  if (status =? SWITCH_STATUS_FAIL_TEMP) && truthy (s_retry_left (b_ch_switch b)) then
    upd_switch p (fun s => set_s_retry_left (s_retry_left s - 1)
      (set_s_guard_timer true (set_s_state CH_SWITCH_FAILED_RETRY s)))
  else
    ll_finish p (fun s => set_s_guard_timer false (set_s_timer_quit true s)).

(** One bearer of the acknowledgement of a request. *)
Definition switch_resp (tx_id : Z) (l : ll_bearer) : M unit :=
  o ← qmi_rmnet_get_bearer_map (ll_bearer_id l);
  match o with
  | None => mret tt
  | Some p =>
      ll_qmap_maybe_set_ch p (ll_status l);;
      b ← bearer_at p;
      let s := b_ch_switch b in
      when (bool_decide (s_state s = CH_SWITCH_STARTED) && (s_switch_txid s =? tx_id))
        (if ll_status l =? SWITCH_STATUS_SUCCESS then upd_switch p (set_s_state CH_SWITCH_ACKED)
         else ll_switch_complete p (ll_status l))
  end.

(** One bearer of the status of a switch. *)
Definition switch_status (l : ll_bearer) : M unit :=
  o ← qmi_rmnet_get_bearer_map (ll_bearer_id l);
  match o with
  | None => mret tt
  | Some p =>
      ll_qmap_maybe_set_ch p (ll_status l);;
      b ← bearer_at p;
      when (bool_decide (s_state (b_ch_switch b) = CH_SWITCH_ACKED))
        (ll_switch_complete p (ll_status l))
  end.

(** The commands, when their packets are long enough for their bearers and the
    device is there. *)
Definition ll_qmap_handle_switch_resp (tx_id : Z) (l : list ll_bearer) : M Z :=
  spin_lock_bh;; for_each l (switch_resp tx_id);; spin_unlock_bh;; mret QMAP_CMD_DONE.

Definition ll_qmap_handle_switch_status (l : list ll_bearer) : M Z :=
  spin_lock_bh;; for_each l switch_status;; spin_unlock_bh;; mret QMAP_CMD_ACK.

(** The result and, when it was sent, the transaction of the request. *)
Definition ll_qmap_send_switch (mux_id channel : Z) (bearer_list : list Z) : M (Z * Z) :=
  let n := zlen bearer_list in
  if (n =? 0) || (QMAP_LL_MAX_BEARER <? n) then mret (- EINVAL, 0)
  else
    mem ← kzalloc;
    if negb mem then mret (- ENOMEM, 0)
    else
      t ← rmnet_qmap_next_txid;
      let ty := if channel =? RMNET_CH_CTL then QMAP_SWITCH_QUERY
                else if channel =? RMNET_CH_LL then QMAP_SWITCH_TO_LL
                else QMAP_SWITCH_TO_DEFAULT in
      rc ← rmnet_qmap_send (LlSwitch mux_id ty bearer_list t) RMNET_CH_CTL;
      mret (rc, t).

(** Every bearer is there and does not switch already. *)
Fixpoint validate (l : list Z) : M Z :=
  match l with
  | [] => mret 0
  | id :: l =>
      o ← qmi_rmnet_get_bearer_map id;
      match o with
      | None => mret (- EFAULT)
      | Some p =>
          b ← bearer_at p;
          if bool_decide (s_state (b_ch_switch b) = CH_SWITCH_NONE) then validate l
          else mret (- EBUSY)
      end
  end.

Definition start_switch (rq : ll_request) (txid : Z) (id : Z) : M unit :=
  o ← qmi_rmnet_get_bearer_map id;
  match o with
  | None => mret tt
  | Some p =>
      upd_switch p (fun s =>
        mk_switch (s_current_ch s) (rq_switch_to rq)
          (if truthy (Z.land (rq_flags rq) LL_MASK_AUTO_RETRY) then LL_MAX_RETRY else 0)
          SWITCH_STATUS_NONE (s_auto_switched s) CH_SWITCH_STARTED txid (rq_flags rq) false true
          (rq_pid rq) (rq_seq rq))
  end.

Definition rmnet_ll_switch (rq : ll_request) : M Z :=
  let n := rq_num_bearers rq in
  if negb (rq_switch_to rq =? RMNET_CH_CTL) && (RMNET_CH_MAX <=? rq_switch_to rq)
  then mret (- EOPNOTSUPP)
  else if (n =? 0) || (QMAP_LL_MAX_BEARER <? n) then mret (- EINVAL)
  else if zlen (rq_bytes rq) <? n then mret (- EINVAL)
  else
    let bearer_list := take (Z.to_nat n) (rq_bytes rq) in
    if bool_decide (NoDup bearer_list) then
      spin_lock_bh;;
      rc ← validate bearer_list;
      rc ← (if rc =? 0 then
              mux ← gets_q q_mux_id;
              r ← ll_qmap_send_switch mux (rq_switch_to rq) bearer_list;
              when (r.1 =? 0) (for_each bearer_list (start_switch rq r.2));;
              mret r.1
            else mret rc);
      spin_unlock_bh;;
      mret rc
    else mret (- EINVAL).

(** The guard timer of bearer [p] expires. *)
Definition rmnet_ll_guard_fn (p : Z) : M unit :=
  spin_lock_bh;;
  upd_switch p (set_s_guard_timer false);;
  b ← bearer_at p;
  let s := b_ch_switch b in
  (if s_timer_quit s || bool_decide (s_state s = CH_SWITCH_NONE) then mret tt
   else if bool_decide (s_state s = CH_SWITCH_FAILED_RETRY) then
     if s_current_ch s =? s_switch_to_ch s then
       ll_finish p (set_s_status_code SWITCH_STATUS_NO_EFFECT)
     else
       mux ← gets_q q_mux_id;
       r ← ll_qmap_send_switch mux (s_switch_to_ch s) [b_bearer_id b];
       if r.1 =? 0 then
         upd_switch p (fun s => set_s_status_code SWITCH_STATUS_NONE
           (set_s_state CH_SWITCH_STARTED (set_s_switch_txid r.2 s)))
       else ll_finish p (set_s_status_code SWITCH_STATUS_TIMEOUT)
   else ll_finish p (set_s_status_code SWITCH_STATUS_TIMEOUT));;
  spin_unlock_bh.

End switch.

(** * RmNet flow control: channel switches are answered

    A client that asks for a switch of channels, and for an answer, gets one
    answer per bearer: when the switch ends, and only then. *)

(** ** The account of answers *)

(** The request that an answer belongs to: the bearer and the process and
    sequence number of the client. *)
Definition answer_key : Type := Z * Z * Z.

Definition is_answer (key : answer_key) (m : message) : bool :=
  match m with NlAck pid seq id _ _ => bool_decide ((id, pid, seq) = key) | _ => false end.

Definition answers (key : answer_key) (k : kernel) : nat := countb (is_answer key) (k_sent k).

Definition key_of (b : rmnet_bearer_map) : answer_key :=
  (b_bearer_id b, s_nl_pid (b_ch_switch b), s_nl_seq (b_ch_switch b)).

(** The bearer owes an answer to the request [key]. *)
Definition owes (b : rmnet_bearer_map) (key : answer_key) : bool :=
  let s := b_ch_switch b in
  negb (bool_decide (s_state s = CH_SWITCH_NONE)) && truthy (Z.land (s_flags s) LL_MASK_NL_ACK) &&
  bool_decide (key_of b = key).

(** Answers can be sent. *)
Definition answering (k : kernel) : Prop := k_mem k = [] /\ k_ll_wq k = true.

(** The bearers of the device and their ids, the messages it had sent, the results of a switch
    that its bearers may report and the channels that they may be on. *)
Section account.
Variable B : list Z.
Variable Id : Z -> Z.
Variable sent0 : list message.
Variable St Ch : Z -> Z -> Prop.

(** An answer reports a result and a channel of its bearer. *)
Definition truthful (m : message) : Prop :=
  match m with NlAck _ _ id st ch => St id st /\ Ch id ch | _ => True end.

Definition sound (b : rmnet_bearer_map) : Prop :=
  Ch (b_bearer_id b) (s_current_ch (b_ch_switch b)) /\
  (s_state (b_ch_switch b) <> CH_SWITCH_NONE -> s_timer_quit (b_ch_switch b) = false).

(** The messages of [k] are those of the start and truthful answers. *)
Definition truthful_since (k : kernel) : Prop :=
  exists new, k_sent k = sent0 ++ new /\ Forall truthful new.

(** Of [N key] answers that were asked for, those that are not sent are owed. *)
Record account (N : answer_key -> nat) (d : dfc_dev) : Prop := {
  a_linked : linked (d_q d);
  a_kernel : answering (d_k d);
  a_bearers : q_bearers (d_q d) = B;
  a_sent : truthful_since (d_k d);
  a_sound : forall p b, q_heap (d_q d) !! p = Some b -> b_bearer_id b = Id p /\ sound b;
  a_sum : forall p b key, q_heap (d_q d) !! p = Some b -> key.1.1 = b_bearer_id b ->
    (answers key (d_k d) + (if owes b key then 1 else 0))%nat = N key
}.

Lemma linked_lock l q : linked q -> linked (set_q_locked l q).
Proof. intros []. by constructor. Qed.

Lemma account_ext N N' d : (forall key, N key = N' key) -> account N d -> account N' d.
Proof.
  intros HN [H1 H2 H3 H4 H5 H6]. constructor; [done..|]. intros p b key Hb Hk. rewrite <- HN.
  by apply (H6 p b).
Qed.

(** A bearer that is as truthful and owes as much. *)
Definition as_good (b b' : rmnet_bearer_map) : Prop :=
  (sound b -> sound b') /\ forall key, owes b' key = owes b key.

(** A bearer owes as much as before. *)
Lemma account_upto N p b b' d d' : account N d -> q_heap (d_q d) !! p = Some b ->
  upto p b' (d_q d) (d_q d') -> same_bearer b b' -> b_grant_size b' = b_grant_size b ->
  as_good b b' -> d_k d' = d_k d -> account N d'.
Proof.
  intros [HL HA HB HT HO HS] Hb Hu Hs Hg [Hg1 Hg2] Hk.
  constructor; rewrite ?Hk; [|done|by rewrite (h_bearers _ _ (u_shape _ _ _ _ Hu))|done|..].
  - eapply upto_linked; [exact HL|done|done| |done]. rewrite Hg. by eapply l_grant.
  - intros p1 b1. rewrite (u_heap _ _ _ _ Hu).
    intros [(<- & <-)|(_ & ?)]%lookup_insert_Some; [|by eapply HO]. destruct (HO p b Hb) as [Hi Ho].
    split; [destruct Hs; congruence|auto].
  - intros p1 b1 key. rewrite (u_heap _ _ _ _ Hu). destruct Hs as [Hid _].
    intros [(<- & <-)|(_ & ?)]%lookup_insert_Some; [|by apply (HS p1 b1)].
    rewrite Hg2, Hid. by apply (HS p b).
Qed.

(** The messages grow by [new]. *)
Lemma answers_app key k k' new : k_sent k' = k_sent k ++ new ->
  answers key k' = (answers key k + countb (is_answer key) new)%nat.
Proof.
  intros Hs. unfold answers. rewrite Hs. clear Hs. induction (k_sent k) as [|m l IH]; cbn; [done|].
  rewrite IH. by destruct (is_answer key m).
Qed.

Lemma truthful_app k k' new : truthful_since k -> k_sent k' = k_sent k ++ new ->
  Forall truthful new -> truthful_since k'.
Proof.
  intros (l & Hl & HF) Hs Hn. exists (l ++ new). rewrite Hs, Hl, app_assoc. split; [done|].
  by apply Forall_app.
Qed.

Section channel.
Context `{DfcConf}.

Lemma wp_upd_switch p f b d (Q : unit -> dfc_dev -> Prop) : q_heap (d_q d) !! p = Some b ->
  (forall d', d_k d' = d_k d -> upto p (set_b_ch_switch (f (b_ch_switch b)) b) (d_q d) (d_q d') -> Q tt d') ->
  wp (upd_switch p f) d Q.
Proof. intros Hb HQ. unfold upd_switch. eapply wp_upd_bearer; [by apply upto_refl|done]. Qed.

(** What a step on bearer [p] leaves. *)
Definition stays (N : answer_key -> nat) (p : Z) (d0 d : dfc_dev) : Prop :=
  account N d /\ same_shape (d_q d0) (d_q d) /\ is_Some (q_heap (d_q d) !! p).

Lemma stays_upd N p f b d : account N d -> q_heap (d_q d) !! p = Some b ->
  as_good b (set_b_ch_switch (f (b_ch_switch b)) b) ->
  wp (upd_switch p f) d (fun _ d' => stays N p d d' /\
    q_heap (d_q d') !! p = Some (set_b_ch_switch (f (b_ch_switch b)) b)).
Proof.
  intros HA Hb Ho. eapply wp_upd_switch; [done|]. intros d' Hk Hu.
  split; [|by eapply upto_at]. split_and!; [|apply Hu|eexists; by eapply upto_at].
  by eapply (account_upto N p b).
Qed.

(** The answer of a bearer. *)
Definition ack_of (b : rmnet_bearer_map) : list message :=
  let s := b_ch_switch b in
  if truthy (Z.land (s_flags s) LL_MASK_NL_ACK)
  then [NlAck (s_nl_pid s) (s_nl_seq s) (b_bearer_id b) (s_status_code s) (s_current_ch s)] else [].

Lemma wp_nl_ack p b d (Q : unit -> dfc_dev -> Prop) : q_heap (d_q d) !! p = Some b -> answering (d_k d) ->
  (forall k, answering k -> k_sent k = k_sent (d_k d) ++ ack_of b -> Q tt (mk_dev (d_q d) k)) ->
  wp (ll_send_nl_ack p) d Q.
Proof.
  intros Hb [Hm Hw] HQ. unfold ll_send_nl_ack. wp_step. apply (wp_bearer_at p b); [done|]. cbv zeta.
  apply wp_when; intros Hf.
  - wp_step. unfold kzalloc. wp_step. eexists (k_mem (d_k d)), d. split; [done|]. cbv beta. rewrite Hm.
    wp_step. cbn [when]. wp_step. eexists (k_ll_wq (d_k d)), d. split; [done|]. cbv beta. rewrite Hw.
    cbn [when]. unfold send. wp_step. apply HQ; [done|]. unfold ack_of. by rewrite Hf.
  - destruct d as [q k]. apply HQ; [done|]. unfold ack_of. by rewrite Hf, app_nil_r.
Qed.

(** A switch ends with the result [f] sets. *)
Definition ends (f : rmnet_ch_switch -> rmnet_ch_switch) (b : rmnet_bearer_map) : Prop :=
  let s := b_ch_switch b in
  s_flags (f s) = s_flags s /\ s_current_ch (f s) = s_current_ch s /\
  s_nl_pid (f s) = s_nl_pid s /\ s_nl_seq (f s) = s_nl_seq s /\
  St (b_bearer_id b) (s_status_code (f s)).

Lemma ends_sent f b b' key : ends f b -> sound b -> s_state (b_ch_switch b) <> CH_SWITCH_NONE ->
  b' = set_b_ch_switch (set_s_retry_left 0 (set_s_state CH_SWITCH_NONE (f (b_ch_switch b)))) b ->
  Forall truthful (ack_of b') /\
  countb (is_answer key) (ack_of b') = (if owes b key then 1 else 0)%nat.
Proof.
  intros (Hf & Hc & Hp & Hq & Hst) [Hch _] Hn ->. unfold ack_of, owes.
  cbn [b_ch_switch b_bearer_id set_b_ch_switch set_s_retry_left set_s_state s_flags s_nl_pid s_nl_seq
    s_status_code s_current_ch].
  rewrite Hf, Hc, Hp, Hq, (bool_decide_eq_false_2 _ Hn). cbn [negb andb].
  destruct (truthy _); [|done]. split; [by repeat constructor|]. by cbn.
Qed.

Lemma other_owes b key : key.1.1 <> b_bearer_id b -> owes b key = false.
Proof.
  intros Hn. unfold owes. rewrite (bool_decide_eq_false_2 (key_of b = key)); [apply andb_false_r|].
  intros <-. by apply Hn.
Qed.

(** The end of a switch: what was owed is answered. *)
Lemma wp_finish N p f b d : account N d -> q_heap (d_q d) !! p = Some b ->
  s_state (b_ch_switch b) <> CH_SWITCH_NONE -> ends f b ->
  wp (ll_finish p f) d (fun _ d' => stays N p d d' /\ forall b', q_heap (d_q d') !! p = Some b' ->
    s_state (b_ch_switch b') = CH_SWITCH_NONE).
Proof.
  intros [HL HA HB HT HO HS] Hb Hst Hend. pose proof (HO p b Hb) as [Hid Hsound].
  unfold ll_finish. wp_step. eapply wp_upd_switch; [done|].
  intros d1 Hk1 Hu1. wp_step. eapply wp_nl_ack; [by eapply upto_at|by rewrite Hk1|].
  intros k Hk Hsent. rewrite Hk1 in Hsent.
  set (b1 := set_b_ch_switch _ b) in *.
  pose proof (fun key => ends_sent f b b1 key Hend Hsound Hst eq_refl) as Hack.
  eapply (wp_upd_switch p _ _ (mk_dev (d_q d1) k)); [by eapply upto_at|]. cbn [d_q d_k]. intros d2 Hk2 Hu2.
  assert (Hg : 0 <= b_grant_size b) by by eapply l_grant.
  split.
  - split_and!; [constructor|etrans; [apply Hu1|apply Hu2]|eexists; by eapply upto_at].
    + eapply (upto_linked p _ _ (d_q d1)); [|exact (upto_at _ _ _ _ Hu1)| | |exact Hu2]; [|done|done].
      eapply upto_linked; [exact HL|exact Hb| | |exact Hu1]; done.
    + by rewrite Hk2.
    + by rewrite (h_bearers _ _ (u_shape _ _ _ _ Hu2)), (h_bearers _ _ (u_shape _ _ _ _ Hu1)).
    + rewrite Hk2. eapply truthful_app; [exact HT|done|]. apply (Hack (0, 0, 0)).
    + intros p1 b2. rewrite (u_heap _ _ _ _ Hu2), (u_heap _ _ _ _ Hu1), insert_insert_eq.
      intros [(<- & <-)|(_ & Hb1)]%lookup_insert_Some; [|by eapply HO].
      split; [exact Hid|]. split; [|done]. cbn. destruct Hend as (_ & -> & _). apply Hsound.
    + intros p1 b2 key. rewrite (u_heap _ _ _ _ Hu2), (u_heap _ _ _ _ Hu1), insert_insert_eq, Hk2.
      rewrite (answers_app _ _ _ _ Hsent), (proj2 (Hack key)).
      intros [(<- & <-)|(Hne & Hb1)]%lookup_insert_Some Hkey.
      * rewrite <- (HS p b key Hb Hkey). change (owes (set_b_ch_switch (set_s_flags 0 (b_ch_switch b1)) b1) key) with false.
        destruct (owes b key); lia.
      * rewrite <- (HS p1 b2 key Hb1 Hkey), (other_owes b key); [lia|]. intros He.
        destruct Hne. eapply (l_ids _ HL); [done..|congruence].
  - intros b' Hb'. rewrite (upto_at _ _ _ _ Hu2) in Hb'. by injection Hb' as <-.
Qed.

(** A change of the progress of a switch that goes on. *)
Lemma as_good_going s' b : let s := b_ch_switch b in
  s_flags s' = s_flags s -> s_current_ch s' = s_current_ch s ->
  s_nl_pid s' = s_nl_pid s -> s_nl_seq s' = s_nl_seq s ->
  s_timer_quit s' = s_timer_quit s ->
  (s_state s = CH_SWITCH_NONE <-> s_state s' = CH_SWITCH_NONE) ->
  as_good b (set_b_ch_switch s' b).
Proof.
  intros s Hf Hc Hp Hq Ht Hn. split.
  - intros [H1 H2]. split; cbn; fold s in H1, H2; [by rewrite Hc|]. rewrite Ht. tauto.
  - intros key. unfold owes, key_of. cbn. fold s. rewrite Hf, Hp, Hq.
    by rewrite (bool_decide_ext (s_state s' = CH_SWITCH_NONE) (s_state s = CH_SWITCH_NONE)).
Qed.

Lemma wp_complete N p status b d : account N d -> q_heap (d_q d) !! p = Some b ->
  s_state (b_ch_switch b) <> CH_SWITCH_NONE -> St (b_bearer_id b) status ->
  wp (ll_switch_complete p status) d (fun _ d' => stays N p d d').
Proof.
  intros HA Hb Hst Hok. unfold ll_switch_complete. wp_step.
  eapply wp_mono; [by eapply (stays_upd N p _ b), as_good_going|]. cbv beta. intros _ d1 [(HA1 & Hs1 & _) Hb1].
  wp_step. eapply wp_bearer_at; [done|]. case_if.
  - eapply wp_mono; [eapply (stays_upd N p _ _ d1 HA1 Hb1)|].
    + by apply as_good_going.
    + cbv beta. intros _ d2 [(? & ? & ?) _]. split_and!; [done|by etrans|done].
  - eapply wp_mono; [eapply (wp_finish N p _ _ d1 HA1 Hb1); done|].
    cbv beta. intros _ d2 [(? & ? & ?) _]. split_and!; [done|by etrans|done].
Qed.

(** What the modem says of a bearer. *)
Definition report_ok (l : ll_bearer) : Prop :=
  St (ll_bearer_id l) (ll_status l) /\
  (ll_status l = SWITCH_STATUS_DEFAULT -> Ch (ll_bearer_id l) RMNET_CH_DEFAULT) /\
  (ll_status l = SWITCH_STATUS_LL -> Ch (ll_bearer_id l) RMNET_CH_LL).

Lemma wp_maybe_set_ch N p l b d : account N d -> q_heap (d_q d) !! p = Some b ->
  report_ok l -> b_bearer_id b = ll_bearer_id l ->
  wp (ll_qmap_maybe_set_ch p (ll_status l)) d (fun _ d' => stays N p d d' /\
    forall b', q_heap (d_q d') !! p = Some b' -> b_bearer_id b' = ll_bearer_id l).
Proof.
  intros HA Hb (_ & Hc0 & Hc1) Hid. unfold ll_qmap_maybe_set_ch. apply wp_when; intros Hst.
  2: { split; [split_and!; [done|done|by eexists]|]. intros b' Hb'. congruence. }
  cbv zeta. wp_step. eapply wp_upd_switch; [done|]. intros d1 Hk1 Hu1. wp_step.
  eapply wp_bearer_at; [by eapply upto_at|]. eapply (wp_set_ll_ch p _ (d_q d)); [|exact Hu1|].
  - eapply (upto_linked p b _ (d_q d) _ (a_linked _ _ HA) Hb); [| |exact Hu1]; [done|].
    exact (l_grant _ (a_linked _ _ HA) p b Hb).
  - intros d2 Hu2 Hk2. split.
    + split_and!; [|apply Hu2|eexists; by eapply upto_at].
      eapply (account_upto N p b); try done; [|congruence]. split; [|done].
      intros [H1 H2]. split; [|done]. cbn. rewrite Hid.
      apply orb_true_iff in Hst as [Hs|Hs]; apply Z.eqb_eq in Hs; rewrite Hs; [by apply Hc0|by apply Hc1].
    + intros b' Hb'. rewrite (upto_at _ _ _ _ Hu2) in Hb'. by injection Hb' as <-.
Qed.

(** ** Answers of the modem and the guard timer *)

Lemma stays_trans N p d0 d1 d2 : stays N p d0 d1 -> stays N p d1 d2 -> stays N p d0 d2.
Proof. intros (? & ? & ?) (? & ? & ?). split_and!; [done|by etrans|done]. Qed.

(** A step on the bearers that leaves the account and the lock. *)
Definition settles (m : M unit) : Prop := forall N d, account N d ->
  wp m d (fun _ d' => account N d' /\ same_shape (d_q d) (d_q d')).

Lemma settles_bearer id (body : Z -> M unit) :
  (forall N p b d, account N d -> q_heap (d_q d) !! p = Some b -> b_bearer_id b = id ->
     wp (body p) d (fun _ d' => stays N p d d')) ->
  settles (o ← qmi_rmnet_get_bearer_map id;
           match o with None => mret tt | Some p => body p end).
Proof.
  intros Hb N d HA. wp_step. apply wp_get_bearer_map; [apply linked_live, HA| |intros _].
  - intros p b _ Hp Hid. eapply wp_mono; [by eapply Hb|]. by intros _ d' (? & ? & ?).
  - by wp_step.
Qed.

Lemma switch_resp_settles tx l : report_ok l -> settles (switch_resp tx l).
Proof.
  intros Hok. apply settles_bearer. intros N p b d HA Hb Hid. wp_step.
  eapply wp_mono; [by eapply wp_maybe_set_ch|]. cbv beta. intros _ d1 [Hs1 Hid1].
  pose proof Hs1 as (HA1 & _ & [b1 Hb1]). wp_step. eapply wp_bearer_at; [done|]. cbv zeta.
  apply wp_when; intros Hc; [|done]. apply andb_true_iff in Hc as [Hc _]. apply bool_decide_eq_true in Hc.
  case_if.
  - eapply wp_mono; [eapply (stays_upd N p _ _ d1 HA1 Hb1)|].
    + apply as_good_going; try done. cbn. by rewrite Hc.
    + intros ? d2 [Hs2 _]. by eapply stays_trans.
  - eapply wp_mono; [eapply (wp_complete N p _ _ d1 HA1 Hb1); [by rewrite Hc|]|].
    + rewrite (Hid1 _ Hb1). apply Hok.
    + intros ? d2 Hs2. by eapply stays_trans.
Qed.

Lemma switch_status_settles l : report_ok l -> settles (switch_status l).
Proof.
  intros Hok. apply settles_bearer. intros N p b d HA Hb Hid. wp_step.
  eapply wp_mono; [by eapply wp_maybe_set_ch|]. cbv beta. intros _ d1 [Hs1 Hid1].
  pose proof Hs1 as (HA1 & _ & [b1 Hb1]). wp_step. eapply wp_bearer_at; [done|].
  apply wp_when; intros Hc; [|done]. apply bool_decide_eq_true in Hc.
  eapply wp_mono; [eapply (wp_complete N p _ _ d1 HA1 Hb1); [by rewrite Hc|]|].
  - rewrite (Hid1 _ Hb1). apply Hok.
  - intros ? d2 Hs2. by eapply stays_trans.
Qed.

Lemma for_each_settles {A} (l : list A) body : (forall x, x ∈ l -> settles (body x)) ->
  settles (for_each l body).
Proof.
  intros Hb N d HA. apply (wp_for_each (fun d' => account N d' /\ same_shape (d_q d) (d_q d')));
    [|by split|done].
  intros x d1 Hx [HA1 Hs1]. eapply wp_mono; [by apply (Hb x Hx)|]. cbv beta. intros _ d2 [? ?].
  split; [done|by etrans].
Qed.

Lemma account_lock N l d : account N d -> account N (mk_dev (set_q_locked l (d_q d)) (d_k d)).
Proof.
  intros [HL HK HB HT HO HS]. constructor; [by apply linked_lock|done|done|done|exact HO|exact HS].
Qed.

(** The account between two calls. *)
Definition accounted (N : answer_key -> nat) (d : dfc_dev) : Prop := account N d /\ q_locked (d_q d) = false.

Lemma wp_call {A} (m : M unit) (a : A) N d : accounted N d -> settles m ->
  wp (spin_lock_bh;; m;; spin_unlock_bh;; mret a) d (fun _ d' => accounted N d').
Proof.
  intros [HA Hl] Hm. wp_step. apply wp_lock; [done|]. wp_step.
  eapply wp_mono; [by apply Hm, account_lock|]. cbv beta. intros _ d1 [HA1 _].
  unfold spin_unlock_bh. repeat wp_step. split; [by apply account_lock|done].
Qed.

(** A request to the modem is no answer. *)
Definition quiet (new : list message) : Prop :=
  Forall truthful new /\ forall key, countb (is_answer key) new = 0%nat.

Lemma wp_sent id d (Q : Z * Z -> dfc_dev -> Prop) mux ch : answering (d_k d) ->
  (forall r k new, answering k -> quiet new -> k_sent k = k_sent (d_k d) ++ new ->
     Q r (mk_dev (d_q d) k)) ->
  wp (ll_qmap_send_switch mux ch id) d Q.
Proof.
  intros [Hm Hw] HQ. unfold ll_qmap_send_switch.
  assert (Hnil : quiet []) by (split; [constructor|done]).
  case_if; [wp_step; destruct d; apply (HQ _ _ []); [done|done|by rewrite app_nil_r]|].
  wp_step. unfold kzalloc. wp_step. eexists (k_mem (d_k d)), d. split; [done|]. cbv beta. rewrite Hm.
  wp_step. cbn [negb]. unfold rmnet_qmap_next_txid. wp_step. wp_step. eexists _, d. split; [done|].
  cbv beta. repeat wp_step. cbv zeta. unfold rmnet_qmap_send. change (RMNET_CH_CTL =? RMNET_CH_CTL) with true.
  cbn [negb andb]. wp_step. unfold rmnet_ctl_send. wp_step. eexists _, _. split; [done|]. cbv beta.
  assert (Hone : forall x ty ids t, quiet [LlSwitch x ty ids t]) by (split; [by repeat constructor|done]).
  cbn [d_k k_ctl set_k_txid]. destruct (k_ctl (d_k d)) as [|fails m]; [|destruct fails];
    unfold send; repeat wp_step; first
      [by eapply (HQ _ _ [LlSwitch _ _ _ _])|eapply (HQ _ _ []); [done|done|by rewrite app_nil_r]].
Qed.

Lemma account_quiet N d k new : account N d -> answering k -> quiet new ->
  k_sent k = k_sent (d_k d) ++ new -> account N (mk_dev (d_q d) k).
Proof.
  intros HA Hk [Hn Hc] Hs. constructor; [apply HA|done|apply HA| |apply HA|].
  - eapply truthful_app; [apply (a_sent _ _ HA)|done|done].
  - intros p b key Hb Hkey. cbn [d_k]. rewrite (answers_app _ _ _ _ Hs), Hc, Nat.add_0_r.
    by apply (a_sum _ _ HA p b).
Qed.

(** How often the guard timer expires, at most, before the switch ends. *)
Definition rank (b : rmnet_bearer_map) : nat :=
  match s_state (b_ch_switch b) with
  | CH_SWITCH_NONE => 0
  | CH_SWITCH_FAILED_RETRY => 2
  | _ => 1
  end.

Definition ranked (p : Z) (n : nat) (d : dfc_dev) : Prop :=
  forall b, q_heap (d_q d) !! p = Some b -> (rank b <= n)%nat.

Lemma rank_none b : (rank b <= 0)%nat -> s_state (b_ch_switch b) = CH_SWITCH_NONE.
Proof. unfold rank. destruct (s_state _); [done|lia..]. Qed.

(** The guard timer takes the switch of its bearer one step further. *)
Lemma guard_settles N p d n : accounted N d -> is_Some (q_heap (d_q d) !! p) -> ranked p n d ->
  (forall id, St id SWITCH_STATUS_NO_EFFECT /\ St id SWITCH_STATUS_TIMEOUT) ->
  wp (rmnet_ll_guard_fn p) d (fun _ d' => accounted N d' /\ ranked p (pred n) d').
Proof.
  intros [HA Hl] [b Hb] Hn Hok. unfold rmnet_ll_guard_fn. wp_step. apply wp_lock; [done|].
  apply (account_lock N true) in HA. set (d0 := mk_dev _ _) in *.
  change (q_heap (d_q d0) !! p = Some b) in Hb. wp_step.
  eapply wp_mono; [by eapply (stays_upd N p _ b), as_good_going|]. cbv beta. intros _ d1 [(HA1 & _) Hb1].
  wp_step. eapply wp_bearer_at; [exact Hb1|]. cbv zeta. wp_step.
  eapply (wp_mono _ _ (fun _ d2 => account N d2 /\ ranked p (pred n) d2)).
  2: { intros ? d2 [HA2 Hr2]. unfold spin_unlock_bh. wp_step. split; [|exact Hr2].
       split; [by apply account_lock|done]. }
  specialize (Hn b Hb). change (rank b) with (rank (set_b_ch_switch (set_s_guard_timer false (b_ch_switch b)) b)) in Hn.
  set (b1 := set_b_ch_switch _ b) in *. clearbody b1.
  destruct (decide (s_state (b_ch_switch b1) = CH_SWITCH_NONE)) as [Hq|Hq].
  { rewrite (bool_decide_eq_true_2 _ Hq), orb_true_r. wp_step. split; [done|]. intros b2 Hb2.
    rewrite Hb1 in Hb2. injection Hb2 as <-. unfold rank. rewrite Hq. lia. }
  rewrite (proj2 (proj2 (a_sound _ _ HA1 p b1 Hb1)) Hq), (bool_decide_eq_false_2 _ Hq). cbn [orb].
  assert (Hfin : forall d f, account N d -> q_heap (d_q d) !! p = Some b1 -> ends f b1 ->
    wp (ll_finish p f) d (fun _ d' => account N d' /\ ranked p (pred n) d')).
  { intros d' f HA' Hb' Hf. eapply wp_mono; [by eapply wp_finish|]. cbv beta. intros _ d2 [(? & _) Hs].
    split; [done|]. intros b2 Hb2. unfold rank. rewrite (Hs b2 Hb2). lia. }
  assert (Hend : forall st, (forall id, St id st) -> ends (set_s_status_code st) b1) by done.
  case_if; [|by apply Hfin, Hend, Hok]. apply bool_decide_eq_true in E.
  case_if; [by apply Hfin, Hend, Hok|]. wp_step. wp_step. wp_step.
  apply wp_sent; [apply HA1|]. intros r k new Hk Hnew Hsent.
  pose proof (account_quiet N d1 k new HA1 Hk Hnew Hsent) as HA2.
  case_if; [|by apply Hfin, Hend, Hok].
  eapply wp_mono; [eapply (stays_upd N p _ b1 _ HA2 Hb1)|].
  - by apply as_good_going.
  - cbv beta. intros _ d2 [(? & _) Hb2]. split; [done|]. intros b2. rewrite Hb2. intros [= <-].
    unfold rank in *. rewrite E in Hn. cbn. lia.
Qed.

(** ** Requests *)

Definition wants (rq : ll_request) : bool := truthy (Z.land (rq_flags rq) LL_MASK_NL_ACK).
Definition rq_bearers (rq : ll_request) : list Z := take (Z.to_nat (rq_num_bearers rq)) (rq_bytes rq).

(** The answers to the client of [rq] for the bearers [l]. *)
Definition asks_for (rq : ll_request) (l : list Z) (key : answer_key) : nat :=
  if wants rq && bool_decide (key.1.1 ∈ l /\ key.1.2 = rq_pid rq /\ key.2 = rq_seq rq)
  then 1%nat else 0%nat.

(** The answers that a request with the result [rc] asks for. *)
Definition asked (rq : ll_request) (rc : Z) (key : answer_key) : nat :=
  if rc =? 0 then asks_for rq (rq_bearers rq) key else 0%nat.

Definition idle (l : list Z) (d : dfc_dev) : Prop := forall id, id ∈ l -> exists p b,
  q_heap (d_q d) !! p = Some b /\ b_bearer_id b = id /\ s_state (b_ch_switch b) = CH_SWITCH_NONE.

Lemma wp_validate l d : linked (d_q d) ->
  wp (validate l) d (fun rc d' => d' = d /\ (rc = 0 -> idle l d)).
Proof.
  intros HL. induction l as [|id l IH]; cbn [validate].
  - wp_step. split; [done|]. intros _ id Hin. by apply not_elem_of_nil in Hin.
  - wp_step. apply wp_get_bearer_map; [by apply linked_live| |intros _; by wp_step].
    intros p b _ Hb Hid. wp_step. apply (wp_bearer_at p b); [done|]. case_if; [|by wp_step].
    apply bool_decide_eq_true in E. eapply wp_mono; [exact IH|]. cbv beta. intros rc d' [-> Hrc].
    split; [done|]. intros Hz id' [->|Hin]%elem_of_cons; [by exists p, b|by apply Hrc].
Qed.

(** The bearer [b] starts the switch of [rq]. *)
Lemma account_start N rq p b b' d d' : account N d -> q_heap (d_q d) !! p = Some b ->
  s_state (b_ch_switch b) = CH_SWITCH_NONE -> upto p b' (d_q d) (d_q d') -> same_bearer b b' ->
  b_grant_size b' = b_grant_size b -> sound b' ->
  (forall key, key.1.1 = b_bearer_id b ->
     (if owes b' key then 1 else 0)%nat = asks_for rq [b_bearer_id b] key) -> d_k d' = d_k d ->
  account (fun key => N key + asks_for rq [b_bearer_id b] key)%nat d'.
Proof.
  intros [HL HA HB HT HO HS] Hb Hn Hu Hs Hg Hso Ho' Hk.
  assert (Ho : forall key, owes b key = false) by (intros; unfold owes; by rewrite Hn).
  constructor; rewrite ?Hk; [|done|by rewrite (h_bearers _ _ (u_shape _ _ _ _ Hu))|done|..].
  - eapply (upto_linked p b b' (d_q d)); [exact HL|done|done| |done]. rewrite Hg. by eapply l_grant.
  - intros p1 b1. rewrite (u_heap _ _ _ _ Hu). intros [(<- & <-)|(_ & ?)]%lookup_insert_Some; [|by eapply HO].
    split; [|done]. destruct Hs as [-> _]. by apply (HO p b).
  - intros p1 b1 key. rewrite (u_heap _ _ _ _ Hu). destruct Hs as [Hid _].
    intros [(<- & <-)|(Hne & Hb1)]%lookup_insert_Some Hkey.
    + rewrite Hid in Hkey. rewrite Ho' by done. rewrite <- (HS p b key Hb Hkey), Ho. lia.
    + rewrite <- (HS p1 b1 key Hb1 Hkey). unfold asks_for. rewrite bool_decide_eq_false_2.
      * rewrite andb_false_r. lia.
      * intros [Hin%list_elem_of_singleton _]. destruct Hne. eapply (l_ids _ HL); [done..|congruence].
Qed.

Lemma asks_for_cons rq id l key : id ∉ l ->
  asks_for rq (id :: l) key = (asks_for rq [id] key + asks_for rq l key)%nat.
Proof.
  intros Hid. unfold asks_for. destruct (wants rq); [|done]. cbn [andb].
  repeat case_bool_decide; set_solver.
Qed.

Lemma wp_start rq txid l N d : account N d -> NoDup l -> idle l d ->
  wp (for_each l (start_switch rq txid)) d (fun _ d' =>
    account (fun key => N key + asks_for rq l key)%nat d').
Proof.
  intros HA Hnd. revert N d HA. induction Hnd as [|id l Hid Hnd IH]; intros N d HA Hidle; cbn [for_each].
  - wp_step. eapply account_ext; [|exact HA]. intros key. unfold asks_for.
    rewrite bool_decide_eq_false_2; [rewrite andb_false_r; lia|]. intros [Hin _]. set_solver.
  - wp_step. unfold start_switch at 1. wp_step. apply wp_get_bearer_map; [apply linked_live, HA| |intros Hno].
    + intros p b _ Hb He. destruct (Hidle id) as (p1 & b1 & Hb1 & He1 & Hst); [set_solver|].
      assert (p = p1) as <- by (eapply (l_ids _ (a_linked _ _ HA)); [done|done|congruence]).
      rewrite Hb in Hb1. injection Hb1 as <-. eapply wp_upd_switch; [done|]. intros d1 Hk1 Hu1.
      pose proof (fun b' => account_start N rq p b b' d d1 HA Hb Hst) as HA1.
      eapply wp_mono; [apply IH; [eapply HA1; try exact Hu1; try done|]|].
      * split; [|done]. apply (proj2 (a_sound _ _ HA p b Hb)).
      * intros [[i pid] seq] Hkey. cbn in Hkey. subst i. unfold owes, asks_for, key_of, wants. cbn.
        rewrite (bool_decide_eq_false_2 (CH_SWITCH_STARTED = CH_SWITCH_NONE)) by done.
        cbn [andb negb]. destruct (truthy (Z.land (rq_flags rq) LL_MASK_NL_ACK)); cbn [andb]; [|done].
        repeat case_bool_decide; set_solver.
      * intros id' Hin. destruct (Hidle id') as (p' & b' & Hb' & He' & Hst'); [set_solver|].
        exists p', b'. split_and!; [|done|done]. rewrite (u_heap _ _ _ _ Hu1), lookup_insert_ne; [done|].
        intros <-. congruence.
      * cbv beta. intros _ d2. apply account_ext. intros key. rewrite He, (asks_for_cons rq id l) by done. lia.
    + exfalso. destruct (Hidle id) as (p & b & Hb & He & _); [set_solver|]. eapply (Hno p b); [|done..].
      apply HA. by eexists.
Qed.

Lemma wp_request rq N d : accounted N d ->
  wp (rmnet_ll_switch rq) d (fun rc d' => accounted (fun key => N key + asked rq rc key)%nat d').
Proof.
  intros [HA Hl].
  assert (Hno : forall rc d, rc <> 0 -> account N d -> account (fun key => N key + asked rq rc key)%nat d).
  { intros rc1 d1 Hrc. apply account_ext. intros key. unfold asked.
    rewrite (proj2 (Z.eqb_neq rc1 0)) by done. lia. }
  assert (Herr : forall rc, rc < 0 -> accounted (fun key => N key + asked rq rc key)%nat d).
  { intros rc Hrc. split; [|done]. apply Hno; [lia|done]. }
  unfold rmnet_ll_switch. cbv zeta. case_if; [by wp_step; apply Herr|].
  case_if; [by wp_step; apply Herr|]. case_if; [by wp_step; apply Herr|].
  fold (rq_bearers rq).
  destruct (bool_decide (NoDup (rq_bearers rq))) eqn:Hnd; [|by wp_step; apply Herr].
  apply bool_decide_eq_true in Hnd.
  wp_step. apply wp_lock; [done|]. apply (account_lock N true) in HA. set (d0 := mk_dev _ _) in *.
  wp_step. eapply wp_mono; [apply wp_validate, HA|]. cbv beta. intros rc ? [-> Hidle]. wp_step.
  eapply (wp_mono _ _ (fun rc d1 => account (fun key => N key + asked rq rc key)%nat d1)).
  2: { intros rc1 d1 HA1. unfold spin_unlock_bh. repeat wp_step. split; [by apply account_lock|done]. }
  destruct (Z.eqb_spec rc 0) as [->|Hrc]; [|wp_step; by apply Hno].
  wp_step. wp_step. wp_step. apply wp_sent; [apply HA|]. intros r k new Hk Hnew Hsent. wp_step.
  pose proof (account_quiet N d0 k new HA Hk Hnew Hsent) as HA1.
  apply wp_when; intros Hr; [|wp_step; apply Hno; [by zbool|done]].
  eapply wp_mono; [apply wp_start; [done|done|]|].
  { intros id Hin. destruct (Hidle eq_refl id Hin) as (p & b & Hb & ?). by exists p, b. }
  cbv beta. intros _ d1 HA2. wp_step. eapply account_ext; [|exact HA2]. intros key. unfold asked.
  by rewrite Hr.
Qed.

(** ** Every sequence of calls *)

Inductive ll_event :=
| SwRequest (rq : ll_request)
| SwResp (tx_id : Z) (l : list ll_bearer)
| SwStatus (l : list ll_bearer)
| SwGuard (p : Z).

(** The guard timer is that of a bearer of the device. *)
Definition run_ll (e : ll_event) : M Z :=
  match e with
  | SwRequest rq => rmnet_ll_switch rq
  | SwResp tx l => ll_qmap_handle_switch_resp tx l
  | SwStatus l => ll_qmap_handle_switch_status l
  | SwGuard p => h ← gets_q q_heap;
      if bool_decide (is_Some (h !! p)) then rmnet_ll_guard_fn p;; mret 0 else mret 0
  end.

Fixpoint run_lls (l : list ll_event) : M (list Z) :=
  match l with
  | [] => mret []
  | e :: l => rc ← run_ll e; rcs ← run_lls l; mret (rc :: rcs)
  end.

(** The answers that the accepted requests ask for. *)
Fixpoint all_asked (l : list ll_event) (rcs : list Z) (key : answer_key) : nat :=
  match l, rcs with
  | SwRequest rq :: l, rc :: rcs => (asked rq rc key + all_asked l rcs key)%nat
  | _ :: l, _ :: rcs => all_asked l rcs key
  | _, _ => 0%nat
  end.

(** The modem reported [st] for the bearer [id]. *)
Definition reported (l : list ll_event) (id st : Z) : Prop := exists e, e ∈ l /\
  match e with SwResp _ r | SwStatus r => mk_ll id st ∈ r | _ => False end.

Definition events_ok (l : list ll_event) : Prop :=
  (forall id st, reported l id st -> report_ok (mk_ll id st)) /\
  forall id, St id SWITCH_STATUS_NO_EFFECT /\ St id SWITCH_STATUS_TIMEOUT.

Lemma events_ok_tail e l : events_ok (e :: l) -> events_ok l.
Proof.
  intros [H1 H2]. split; [|done]. intros id st (e' & Hin & He). apply H1. exists e'. set_solver.
Qed.

Lemma wp_guard p N d n : accounted N d -> ranked p n d ->
  (forall id, St id SWITCH_STATUS_NO_EFFECT /\ St id SWITCH_STATUS_TIMEOUT) ->
  wp (run_ll (SwGuard p)) d (fun _ d' => accounted N d' /\ ranked p (pred n) d').
Proof.
  intros HA Hn Hok. cbn [run_ll]. wp_step. wp_step. case_bool_decide as Hp.
  - wp_step. eapply wp_mono; [by eapply guard_settles|]. cbv beta. intros _ d1 HA1. by wp_step.
  - wp_step. split; [done|]. intros b Hb. destruct Hp. by exists b.
Qed.

Lemma wp_run_ll e l N d : events_ok (e :: l) -> accounted N d ->
  wp (run_ll e) d (fun rc d' => accounted (fun key =>
    N key + match e with SwRequest rq => asked rq rc key | _ => 0 end)%nat d').
Proof.
  intros [Hok Hst] HA.
  assert (H0 : forall d', accounted N d' -> accounted (fun key => N key + 0)%nat d').
  { intros d' [HA' Hl']. split; [|done]. eapply account_ext; [|exact HA']. intros key. lia. }
  assert (Hrep : forall r, match e with SwResp _ r' | SwStatus r' => r = r' | _ => False end ->
    forall x, x ∈ r -> report_ok x).
  { intros r Hr [id st] Hx. apply Hok. exists e. split; [set_solver|]. by destruct e; subst. }
  destruct e as [rq|tx ll|ll|p].
  - by apply wp_request.
  - eapply wp_mono; [eapply (wp_call _ QMAP_CMD_DONE); [exact HA|]|intros; by apply H0].
    apply for_each_settles. intros x Hx. by eapply switch_resp_settles, Hrep.
  - eapply wp_mono; [eapply (wp_call _ QMAP_CMD_ACK); [exact HA|]|intros; by apply H0].
    apply for_each_settles. intros x Hx. by eapply switch_status_settles, Hrep.
  - eapply wp_mono; [eapply (wp_guard p N d 2); [done| |done]|].
    + intros b _. unfold rank. destruct (s_state _); lia.
    + cbv beta. intros _ d1 [? _]. by apply H0.
Qed.

Lemma wp_run_lls l N d : events_ok l -> accounted N d ->
  wp (run_lls l) d (fun rcs d' => accounted (fun key => N key + all_asked l rcs key)%nat d').
Proof.
  revert N d. induction l as [|e l IH]; intros N d Hok HA; cbn [run_lls].
  - wp_step. destruct HA as [HA Hl]. split; [|done]. eapply account_ext; [|exact HA]. intros key. cbn. lia.
  - wp_step. eapply wp_mono; [by eapply wp_run_ll|]. cbv beta. intros rc d1 HA1. wp_step.
    eapply wp_mono; [apply IH; [by eapply events_ok_tail|done]|]. cbv beta. intros rcs d2 [HA2 Hl2]. wp_step.
    split; [|done]. eapply account_ext; [|exact HA2]. intros key. destruct e; cbn; lia.
Qed.

(** A guard timer that expires twice ends the switch. *)
Lemma wp_guards p N d : events_ok [] -> accounted N d ->
  wp (run_lls [SwGuard p; SwGuard p]) d (fun _ d' => accounted N d' /\ ranked p 0 d').
Proof.
  intros [_ Hok] HA. cbn [run_lls]. wp_step.
  eapply wp_mono; [eapply (wp_guard p N d 2); [done| |done]|].
  { intros b _. unfold rank. destruct (s_state _); lia. }
  cbv beta. intros rc d1 [HA1 Hr1]. wp_step. wp_step.
  eapply wp_mono; [by eapply (wp_guard p N d1 1)|]. cbv beta. intros rc1 d2 [HA2 Hr2].
  repeat wp_step. by split.
Qed.

End channel.
End account.

(** The channel that a bearer is on: its own at the start, or one the modem
    reported. *)
Definition channel_known (d : dfc_dev) (l : list ll_event) (id ch : Z) : Prop :=
  (exists p b, q_heap (d_q d) !! p = Some b /\ b_bearer_id b = id /\ s_current_ch (b_ch_switch b) = ch) \/
  (reported l id SWITCH_STATUS_DEFAULT /\ ch = RMNET_CH_DEFAULT) \/
  (reported l id SWITCH_STATUS_LL /\ ch = RMNET_CH_LL).

(** The result of a switch: what the modem reported, that it had no effect or that
    no report came. *)
Definition result_known (l : list ll_event) (id st : Z) : Prop :=
  reported l id st \/ st = SWITCH_STATUS_NO_EFFECT \/ st = SWITCH_STATUS_TIMEOUT.

Lemma events_known d l : events_ok (result_known l) (channel_known d l) l.
Proof.
  split; [|intros id; split; right; [by left|by right]].
  intros id st Hr. split; [by left|]. cbn. split; intros ->; right; [by left|by right].
Qed.

(** C35: Take a device whose bearers do not switch, with memory and the work queue
    for answers there and no bearer removed in between. Whatever sequence of
    requests, acknowledgements, status messages and expired guard timers comes,
    every call returns with the lock released and the bearers in place, and for
    each bearer and each client (process and sequence number), of the answers that
    the client's accepted requests asked for, each has been sent, once, or is
    still owed by the bearer to that client. Every answer sent reports for its
    bearer a result the modem reported, or that the switch had no effect or timed
    out, and a channel that the bearer was on or that the modem reported. A bearer
    owes nothing once its guard timer has expired twice more. *)
Theorem switches_answered `{DfcConf} l d : linked (d_q d) -> q_locked (d_q d) = false ->
  answering (d_k d) ->
  (forall p b, q_heap (d_q d) !! p = Some b -> s_state (b_ch_switch b) = CH_SWITCH_NONE) ->
  exists rcs d' new, run_lls l d = Ret rcs d' /\ q_locked (d_q d') = false /\
    q_bearers (d_q d') = q_bearers (d_q d) /\
    k_sent (d_k d') = k_sent (d_k d) ++ new /\
    (forall pid seq id st ch, NlAck pid seq id st ch ∈ new ->
       result_known l id st /\ channel_known d l id ch) /\
    forall p, p ∈ q_bearers (d_q d) -> exists b, q_heap (d_q d') !! p = Some b /\
      forall pid seq, let key := (b_bearer_id b, pid, seq) in
      (answers key (d_k d') + if owes b key then 1 else 0)%nat =
        (answers key (d_k d) + all_asked l rcs key)%nat /\
      exists rcs2 d2, run_lls [SwGuard p; SwGuard p] d' = Ret rcs2 d2 /\
        answers key (d_k d2) = (answers key (d_k d) + all_asked l rcs key)%nat.
Proof.
  intros HL Hl HK Hidle. pose proof (events_known d l) as Hok.
  set (St := result_known l) in *. set (Ch := channel_known d l) in *.
  assert (HA : accounted (q_bearers (d_q d)) (fun p => from_option b_bearer_id 0 (q_heap (d_q d) !! p))
    (k_sent (d_k d)) St Ch (fun key => answers key (d_k d)) d).
  { split; [constructor; try done|done].
    - exists []. by rewrite app_nil_r.
    - intros p b Hb. split; [by rewrite Hb|]. split; [left; by exists p, b|]. by intros []; eapply Hidle.
    - intros p b key Hb _. unfold owes. rewrite (Hidle p b Hb), bool_decide_eq_true_2 by done. cbn. lia. }
  destruct (wp_run_lls _ _ _ _ _ l _ d Hok HA) as (rcs & d' & Hr & HA'). pose proof HA' as [HA1 Hl1].
  destruct (a_sent _ _ _ _ _ _ _ HA1) as (new & Hs & Hn).
  exists rcs, d', new. split_and!; [done|done|by apply HA1|done| |].
  { intros pid seq id st ch Hin. rewrite Forall_forall in Hn. exact (Hn _ Hin). }
  intros p Hp. rewrite <- (a_bearers _ _ _ _ _ _ _ HA1) in Hp.
  destruct (linked_live _ (a_linked _ _ _ _ _ _ _ HA1) p Hp) as [b Hb].
  exists b. split; [done|]. intros pid seq key. split; [by apply (a_sum _ _ _ _ _ _ _ HA1 p b)|].
  assert (Hok0 : events_ok St Ch []) by (split; [by intros ? ? (? & ?%not_elem_of_nil & _)|apply Hok]).
  destruct (wp_guards _ _ _ _ _ p _ d' Hok0 HA') as (rcs2 & d2 & Hr2 & [HA2 _] & Hrk).
  exists rcs2, d2. split; [done|].
  rewrite (a_bearers _ _ _ _ _ _ _ HA1), <- (a_bearers _ _ _ _ _ _ _ HA2) in Hp.
  destruct (linked_live _ (a_linked _ _ _ _ _ _ _ HA2) p Hp) as [b2 Hb2].
  rewrite <- (a_sum _ _ _ _ _ _ _ HA2 p b2 key Hb2).
  - unfold owes. rewrite (bool_decide_eq_true_2 _ (rank_none b2 (Hrk b2 Hb2))). cbn. lia.
  - rewrite (proj1 (a_sound _ _ _ _ _ _ _ HA2 p b2 Hb2)).
    apply (proj1 (a_sound _ _ _ _ _ _ _ HA1 p b Hb)).
Qed.
(** Two bearers switch: one succeeds, one fails and is tried again without
    success. *)
Definition demo_request : ll_request := mk_req RMNET_CH_LL 2 3 77 1 [5; 6].

Definition demo_switches : list ll_event :=
  [SwRequest demo_request; SwRequest demo_request;
   SwResp 1 [mk_ll 5 SWITCH_STATUS_SUCCESS; mk_ll 6 SWITCH_STATUS_FAIL_TEMP];
   SwStatus [mk_ll 5 SWITCH_STATUS_LL]; SwGuard 2; SwResp 2 [mk_ll 6 5]].

(** The first bearer answers that it is on the low-latency channel, the second
    that it failed. *)
Lemma switches_answered_witness :
  exists rcs d' new, run_lls (H := demo_conf) demo_switches demo_dev = Ret rcs d' /\
    rcs = [0; -16; -1; 1; 0; -1] /\ q_bearers (d_q d') = [2; 1] /\
    List.filter (fun m => match m with NlAck _ _ _ _ _ => true | _ => false end) new =
      [NlAck 77 1 5 SWITCH_STATUS_LL RMNET_CH_LL; NlAck 77 1 6 5 RMNET_CH_DEFAULT] /\
    (forall pid seq id st ch, NlAck pid seq id st ch ∈ new ->
       result_known demo_switches id st /\ channel_known demo_dev demo_switches id ch) /\
    forall p, p ∈ q_bearers (d_q demo_dev) -> exists b, q_heap (d_q d') !! p = Some b /\
      forall pid seq, let key := (b_bearer_id b, pid, seq) in
      (answers key (d_k d') + if owes b key then 1 else 0)%nat =
        (answers key (d_k demo_dev) + all_asked demo_switches rcs key)%nat /\
      exists rcs2 d2, run_lls (H := demo_conf) [SwGuard p; SwGuard p] d' = Ret rcs2 d2 /\
        answers key (d_k d2) = (answers key (d_k demo_dev) + all_asked demo_switches rcs key)%nat.
Proof.
  destruct (switches_answered (H := demo_conf) demo_switches demo_dev)
    as (rcs & d' & new & Hr & _ & Hb & Hn & HT & HS).
  - apply demo_inv.
  - vm_compute. reflexivity.
  - vm_compute. split; reflexivity.
  - assert (HF : map_Forall (fun _ b => s_state (b_ch_switch b) = CH_SWITCH_NONE) (q_heap (d_q demo_dev))).
    { apply (bool_decide_unpack _). vm_compute. exact I. }
    exact HF.
  - assert (E : match run_lls (H := demo_conf) demo_switches demo_dev with
                | Ret r d => Some (r, k_sent (d_k d)) | _ => None end = Some (rcs, k_sent (d_k d')))
      by (rewrite Hr; reflexivity).
    rewrite Hn in E. vm_compute in E. injection E as <- Hs.
    exists [0; -16; -1; 1; 0; -1], d', new. split; [exact Hr|]. split; [reflexivity|].
    split; [rewrite Hb; vm_compute; reflexivity|]. split; [|split; [exact HT|exact HS]].
    subst new. vm_compute. reflexivity.
Defined.
