(* ===== verification/DfcFindings.v ===== *)
(** * RmNet flow control: runs that show what the code does not mean to do

    Each lemma runs the functions on the device of [DfcLookup], which has flow 7 on
    bearer 5 (address 1) and flow 8 on bearer 6 (address 2). *)

From S2P Require Import DfcState.
From S2P Require Import Prelude DfcGrants DfcFlows DfcLookup DfcRuns DfcChannel.

#[local] Existing Instance demo_conf.

Definition after {A} (m : M A) : dfc_dev := state_of (m demo_dev) demo_dev.

Definition no_memory : M unit := modify_k (set_k_mem [true]).

Definition faults {A} (o : outcome dfc_dev A) : bool := match o with Fault => true | _ => false end.

Definition value {S A} (o : outcome S A) : option A := match o with Ret a _ => Some a | _ => None end.

Definition bearer (p : Z) (d : dfc_dev) : rmnet_bearer_map :=
  default (new_bearer 0) (q_heap (d_q d) !! p).

Definition stopped (i : nat) (d : dfc_dev) : option bool := q_stopped (d_q d) !! i.

(** A flow that moves to a bearer for which there is no memory keeps a pointer to
    its old bearer, which is freed: the next packet of the flow reads it. *)
Lemma rebind_keeps_freed_bearer :
  let d := after (no_memory;; qmi_rmnet_add_flow (demo_tcm 9 7 1)) in
  value ((no_memory;; qmi_rmnet_add_flow (demo_tcm 9 7 1)) demo_dev) = Some (- ENOMEM) /\
  faults (dfc_qmi_burst_check AF_INET 7 100 d) = true.
Proof. by vm_compute. Qed.

(** A flow that was created without memory for its bearer stays without one: when
    it is added again, 0 is returned and nothing is done. *)
Lemma flow_stays_without_bearer :
  let d := after (modify_k (set_k_mem [false; true]);; qmi_rmnet_add_flow (demo_tcm 9 10 3)) in
  value (qmi_rmnet_add_flow (demo_tcm 9 10 3) d) = Some 0 /\
  f_bearer <$> (q_flows (d_q (state_of (qmi_rmnet_add_flow (demo_tcm 9 10 3) d) d)) !! 0%nat) = Some None.
Proof. by vm_compute. Qed.

(** A bearer whose flows are on two queues controls the queue that was bound last
    only: the other one, stopped before, stays stopped when a grant comes. *)
Lemma second_queue_stays_stopped :
  let grant n := dfc_update_fc_map 0 0 (mk_status 1 5 n 1 false 0 false) false in
  let d := after (grant 0;; qmi_rmnet_add_flow (demo_tcm 5 10 4);; grant 50000) in
  b_grant_size (bearer 1 d) = 50000 /\ stopped 4 d = Some false /\ stopped 1 d = Some true /\
  value (qmi_rmnet_get_queue (mk_packet 7 false false false) d) = Some 1.
Proof. by vm_compute. Qed.

(** When the link goes down while the grant is 0, the watchdog stays armed: it
    opens the queue of a bearer that must not send. *)
Lemma watchdog_opens_queue_without_link :
  let d := after (dfc_update_fc_map 0 0 (mk_status 1 5 50 1 true 0 false) true;;
                  upd_bearer 1 (set_b_bytes_in_flight 100);;
                  dfc_update_fc_map 0 0 (mk_status 1 5 50 1 true 0 false) true;;
                  dfc_update_tx_link_status 0 5) in
  let d' := state_of (qmi_rmnet_watchdog_fn 1 d) d in
  b_watchdog (bearer 1 d) = true /\ stopped 1 d = Some true /\
  b_tx_off (bearer 1 d') = true /\ stopped 1 d' = Some false.
Proof. by vm_compute. Qed.

(** Leaving flow control forgets that TCP runs in both directions, but does not
    stop the queue for acknowledgements that was open because of it. *)
Lemma ack_queue_left_open :
  let d := after (dfc_update_tx_link_status 0 5;;
                  dfc_update_fc_map 0 1 (mk_status 1 5 0 1 false 0 false) false;;
                  qmi_rmnet_enable_all_flows) in
  b_grant_size (bearer 1 d) = 0 /\ b_tcp_bidir (bearer 1 d) = false /\
  stopped 1 d = Some true /\ stopped 16 d = Some false.
Proof. by vm_compute. Qed.

(** A request that is tried again is sent without its guard timer: when the modem
    does not answer, the bearer is busy for ever. *)
Lemma retry_without_timer :
  let rq := mk_req RMNET_CH_LL 1 3 77 1 [5] in
  let d := after (rmnet_ll_switch rq;; ll_qmap_handle_switch_resp 1 [mk_ll 5 SWITCH_STATUS_FAIL_TEMP];;
                  rmnet_ll_guard_fn 1) in
  s_state (b_ch_switch (bearer 1 d)) = CH_SWITCH_STARTED /\
  s_guard_timer (b_ch_switch (bearer 1 d)) = false /\
  value (rmnet_ll_switch rq d) = Some (- EBUSY).
Proof. by vm_compute. Qed.

(** An entry for an unknown device ends the handling of an indication: the grant
    of the entry behind it is lost. *)
Lemma unknown_device_ends_indication :
  let s := mk_port {[1 := Some (d_q demo_dev)]} demo_kernel false in
  let stop := mk_status 1 5 0 1 false 0 false in
  let grant l := match dfc_do_burst_flow_control l [] 0 false s with
    | Ret _ s' => match p_devs s' !! 1 with
      | Some (Some q) => b_grant_size <$> (q_heap q !! 1) | _ => None end
    | _ => None end in
  grant [stop] = Some 0 /\ grant [mk_status 2 5 0 1 false 0 false; stop] = Some DEFAULT_CALL_GRANT.
Proof. by vm_compute. Qed.

(** A device without flow control takes all free entries of the array of bearers. *)
Lemma missing_qos_counts_bearers :
  let s := mk_port {[2 := None]} demo_kernel false in
  value (rmnet_prepare_ps_bearers 32 s) = Some (replicate 32 0).
Proof. by vm_compute. Qed.
